(* ===== verification/_CoqProject ===== *)
-Q . S2P
Prelude.v
Text.v
Digest.v
Encoding.v
Identity.v
Migration.v
Inspection.v
Lifecycle.v
Generation.v
SourceGate.v
Binary.v
ReductionRun.v
Oracle.v
OracleTheorems.v
Vocabulary.v
BuildGate.v
RunEvents.v
Sanitizer.v
WorkerJournal.v
ControlPlane.v
ControlTheorems.v
Wire.v
Interactions.v
InteractionHub.v
MigrationTasks.v
Performance.v
Knowledge.v
AgentRecord.v
ModelAttempt.v
ModelGateway.v
LoopPolicy.v
EpisodeState.v
Fixtures.v
EpisodePorts.v
Artifacts.v
Uploads.v
UploadLedger.v
UploadTheorems.v
Service.v
Observation.v
ServerSession.v
Coordinator.v
ServerCalls.v
SessionInvariant.v
SessionSteps.v
SessionCalls.v
WorkerSession.v
WorkerUpdates.v
WorkerPreviews.v
Devices.v
Containers.v
CudaContract.v
AscendContract.v
CorrectnessContract.v
Effects.v
Sandboxes.v
Executions.v
Platforms.v
FakeExecutor.v
ExecutionProtocol.v
ExecutionHost.v
ExecutionInvariant.v
SandboxTheorems.v
ExecutionTheorems.v
WorkerLink.v
ServerTheorems.v
EndToEnd.v
ModelContext.v
EpisodeSteps.v
EpisodeRuntime.v
EpisodeHistory.v
EpisodeRefinement.v
EpisodeProtocol.v
EpisodeInvariant.v
EpisodeSafety.v
EpisodeRecord.v
EpisodeTheorems.v
EpisodeFaults.v
EpisodeDriver.v
Overlaps.v
