(* ===== verification/Prelude.v ===== *)
(** * AlloyPort: a verification library of the migration factory

    AlloyPort migrates CUDA kernels to Ascend.  A server keeps the durable
    state of the factory and drives an agent (the _episode_) that writes a
    candidate; workers with accelerators connect to the server, are assigned
    _attempts_ to build and run, and report what happened; independent gates
    and an oracle decide from receipts whether a candidate is released.  This
    library models the Rust crates under [src/crates] as Rocq functions and
    step relations and proves what makes them correct.

    ** How the files correspond to the program

    _Shared_: Prelude (results, machine integers, tactics), Text ([str]),
    Encoding (byte encodings of what is hashed), Fixtures (sample values).

    _Domain_ ([alloyport-core]): Digest ([artifact.rs]), Identity
    ([identity.rs]), Lifecycle ([lib.rs]), Migration, Inspection, Generation
    and SourceGate (the modules of those names and [candidate_source.rs]),
    BuildGate ([candidate_build.rs]), Performance, Knowledge, Vocabulary ([execution.rs], [device.rs],
    [assignment.rs]); Binary, ReductionRun, Oracle and OracleTheorems
    ([correctness*.rs], on IEEE 754 floating point).

    _The episode_ ([agent*.rs], [model_attempt.rs], [model_gateway.rs]):
    AgentRecord, ModelAttempt, ModelGateway, LoopPolicy, EpisodeState and
    EpisodePorts are its data and its ports (type classes with laws); EpisodeSteps and EpisodeRuntime are the handlers of
    [AgentLoopRunner], every save and external call included; EpisodeHistory
    and EpisodeRefinement are their abstract specification and the refinement;
    EpisodeProtocol, EpisodeInvariant, EpisodeRecord and EpisodeSafety the
    transition system of a durable episode, its invariant and its histories;
    EpisodeTheorems and EpisodeFaults what follows; EpisodeDriver the loop of
    [application/runtime.rs] that drives it; ModelContext the SQLite store of
    model turns.

    _Artifacts_ ([alloyport-artifacts]): Artifacts (the content-addressed port
    and its in-memory adapter), Uploads, UploadLedger and UploadTheorems
    (uploads, references, quotas, collection).

    _The server_ ([alloyport-server]): ControlPlane and ControlTheorems (the
    SQLite repository of workers, connections, assignments and observations),
    Interactions, InteractionHub and Sanitizer (the event log, its subscribers
    and the display policy) over RunEvents ([alloyport-events]), Wire (the
    protocol of [alloyport-proto] and the mappings of both sides), Service,
    Observation, ServerSession, Coordinator and ServerCalls (the
    handlers of the worker-control service, in that order), SessionInvariant,
    SessionSteps and SessionCalls (what every handler keeps),
    ServerTheorems, and Overlaps (the same handlers at the grain of their
    locks); MigrationTasks (the queue of what operators submitted).

    _The worker_ ([alloyport-worker]): WorkerJournal (the SQLite journal),
    WorkerSession, WorkerUpdates, WorkerPreviews and WorkerLink (the control
    session), Devices, Containers, CudaContract, AscendContract and
    CorrectnessContract (the local policies and the pure parts of an
    execution), Effects (what executions ask of their surroundings), Sandboxes
    (how bundles are materialised, and the file system they are written to),
    Executions (supervisors and runtimes, over the class [Platform]), Platforms
    (its instances for CUDA and Ascend) and FakeExecutor (the executions
    themselves, as programs of effects), ExecutionHost (the registry of
    backends, and tasks that run them, one effect at a time),
    ExecutionProtocol and ExecutionInvariant (what every program keeps),
    SandboxTheorems (what a sandbox holds) and ExecutionTheorems.

    _Together_: EndToEnd runs the session of a worker against the server.

    ** How the model is made

    A struct is a [Record], an enum an [Inductive], a fallible function
    returns [result E A] with the errors of the source (the texts of errors
    are dropped where nothing reads them).  Integers are [N] or [Z] with the
    boundary of their width written out; a text is its UTF-8 bytes.  A table
    of SQLite is a finite map on its primary key and a transaction is a
    function that returns the new tables or an error that leaves them; what
    constraints of a schema refuse is part of the function.  A handler of the
    server is a computation over the whole service, which keeps what it
    committed when it fails; the runner of episodes threads a world of ports
    and a log of effects; an execution of a worker is a tree of effects, so
    that other tasks, a cancellation or a crash can come between any two.
    Logs of what happened are read by statements only.

    Concurrency is interleaving: of the effects of the executions of a worker,
    and of the two ends of a connection, with sessions lost and processes
    restarted anywhere.  In ServerCalls and EndToEnd a handler of the server
    is one step; in Overlaps a step is what one of its locks covers, one run
    of the persistence or one send, and handlers can be dropped between any
    two.  An append to an upload and a collection of artifacts can crash
    between the object store and the ledger.  Theorems quantify over all
    sequences of such steps.

    ** What is shown

    - An episode sends a model request or runs a tool only after it committed
      that it would, never twice, within its budgets, and succeeds only on
      verified evidence; a call of the runner refines its abstract
      specification whatever its ports answer and wherever it crashes; the
      driver terminates.
    - The journal of a worker, the repository of the server, the ledger of
      artifacts and the event log keep their invariants under every sequence
      of operations, and what was recorded is not rewritten.
    - What a worker removes from its outbox the server has stored; a frame the
      server acknowledged was observed; the frames of a connection are one
      stream that passes the checks of the worker, which accepts them as long
      as they are sent in its order; the outputs of a finished attempt stay
      readable.
    - The container of an attempt is started at most once; a result is in the
      journal only when its outputs are stored and published; a device is
      released only when its container never ran or is gone and the device was
      seen free after that, the leased one where the backend is bound to one
      device; containers have no network and no mounts but their bundle, and the bundle of a correctness run or of a build is in
      its sandbox exactly, with nothing else beside it.
    - A build gets the sources that passed the Source Gate, byte for byte.
    - The gates, the reducer of runs, the inspection, the selection of devices
      and the verdict of the oracle are equivalent to declarative
      specifications of what they should accept.
    - Where the code does not do what it means to do, a theorem or an example
      says what it does instead (a start after a cancellation cuts the
      session, a frame can overtake another, a torn sandbox is refused for
      ever, an artifact whose collection was cut short is still granted).

    Each theorem with hypotheses is applied to concrete values at the end of
    its file or in the module of samples beside it.

    ** Fuel and bounds

    The loops of the source are structural recursions on their list or table.
    The exceptions: the driver of an episode runs on fuel, and
    [EpisodeDriver] proves that [episode_fuel] of the initial state is enough;
    the startup reconciliation of assignments makes the number of passes the
    source computes with [div_ceil]; programs of effects are finite trees, so
    running one always ends.  The scan of a sandbox runs on [PATH_MAX], the
    bound the system has for paths; [scan_directory_total] proves that it is
    enough for a tree of that depth.  Counters that would overflow are shown not to,
    or wrap or saturate as the source has it.

    ** What is not modelled

    Libraries and their formats are parameters: SHA-256 ([Sha256]), the
    encoders and decoders of serde_json, SQLite below the transaction, tonic
    and its streams, tokio and its channels (capacity included), the clock (a
    sequence of readings).  The container engine, the device probes, the
    transfer of artifacts are ports with the contract the code relies on ([ContainerEngineLaws], [DeviceManager],
    [ArtifactPublisher], [ProviderLaws], [ArtifactStoreLaws]).  Names of
    connections are fresh (they are seeded with nanoseconds).  Certificates
    and roles, the gRPC handlers of management and interaction, the dispatcher
    of migration tasks, the codecs and transports of models, the
    candidate tools and their git records, the command line and the wiring of
    the processes are left out.  Of the file system only full disks and
    missing permissions are left out. *)

From Stdlib Require Import Ascii NArith Lia.
#[export] Set Warnings "-clear-no-such-hyp".
From stdpp Require Import base numbers strings pretty gmap list sorting.

(** ** Results

    Rust's [Result<A, E>], with the error type first so that the
    monadic notations of stdpp ([x ← e; k]) apply to [result E]. *)

Inductive result (E A : Type) : Type :=
| Ok (a : A)
| Err (e : E).
Arguments Ok {E A} a.
Arguments Err {E A} e.

#[export] Instance result_ret E : MRet (result E) := fun A a => Ok a.
#[export] Instance result_bind E : MBind (result E) := fun A B f r =>
  match r with Ok a => f a | Err e => Err e end.
#[export] Instance result_fmap E : FMap (result E) := fun A B f r =>
  match r with Ok a => Ok (f a) | Err e => Err e end.

#[export] Instance result_eq_dec `{EqDecision E, EqDecision A} :
  EqDecision (result E A).
Proof. solve_decision. Defined.

(** [Result::map_err]. *)
Definition map_err {E F A} (f : E -> F) (r : result E A) : result F A :=
  match r with Ok a => Ok a | Err e => Err (f e) end.

(** [Option::ok_or]. *)
Definition ok_or {E A} (o : option A) (e : E) : result E A :=
  match o with Some a => Ok a | None => Err e end.

(** An early [return Err(e)] guarded by a condition. *)
Definition guard_err {E} (bad : bool) (e : E) : result E unit :=
  if bad then Err e else Ok tt.

Definition is_ok {E A} (r : result E A) : bool :=
  match r with Ok _ => true | Err _ => false end.

Lemma Ok_inj {E A} (a b : A) : Ok (E:=E) a = Ok b -> a = b.
Proof. by intros [= ->]. Qed.

Lemma result_bind_Ok {E A B} (r : result E A) (f : A -> result E B) b :
  r ≫= f = Ok b <-> exists a, r = Ok a /\ f a = Ok b.
Proof. destruct r; split; naive_solver. Qed.

Lemma result_bind_Err {E A B} (r : result E A) (f : A -> result E B) e :
  r ≫= f = Err e <-> r = Err e \/ exists a, r = Ok a /\ f a = Err e.
Proof. destruct r; split; naive_solver. Qed.

Lemma map_err_Ok {E F A} (f : E -> F) (r : result E A) a :
  map_err f r = Ok a <-> r = Ok a.
Proof. destruct r; split; naive_solver. Qed.

Lemma ok_or_Ok {E A} (o : option A) (e : E) a :
  ok_or o e = Ok a <-> o = Some a.
Proof. destruct o; split; naive_solver. Qed.

Lemma guard_err_Ok {E} b (e : E) u : guard_err b e = Ok u <-> b = false.
Proof. destruct b, u; cbn; naive_solver. Qed.

Lemma guard_err_Err {E} b (e e' : E) : guard_err b e = Err e' <-> b = true /\ e = e'.
Proof. destruct b; cbn; naive_solver. Qed.

Lemma guard_bind_Ok {E A} b (e : E) (k : result E A) a :
  (_ ← guard_err b e; k) = Ok a <-> b = false /\ k = Ok a.
Proof. destruct b; cbn; naive_solver. Qed.

Lemma guard_bind_Err {E A} b (e e' : E) (k : result E A) :
  (_ ← guard_err b e; k) = Err e' <-> b = true /\ e = e' \/ b = false /\ k = Err e'.
Proof. destruct b; cbn; naive_solver. Qed.

Lemma is_ok_true {E A} (r : result E A) : is_ok r = true <-> exists a, r = Ok a.
Proof. destruct r; naive_solver. Qed.

Lemma mapM_Ok {E A B} (f : A -> result E B) l k : mapM f l = Ok k <-> Forall2 (fun x y => f x = Ok y) l k.
Proof.
  revert k. induction l as [|x l IH]; intros k; cbn.
  - split; [intros [= <-]; constructor|by intros ->%Forall2_nil_inv_l].
  - rewrite result_bind_Ok. setoid_rewrite result_bind_Ok. setoid_rewrite IH. split.
    + intros (y & Hy & k' & Hk & [= <-]). by constructor.
    + intros (y & k' & Hy & Hk & ->)%Forall2_cons_inv_l. eauto.
Qed.

(** ** Machine integers

    Unsigned integers are [N] below the maximum of their width; the
    operations write out what Rust does at the boundary. *)

Definition u8_max : N := 255.
Definition u16_max : N := 65535.
Definition u32_max : N := 4294967295.
Definition u64_max : N := 18446744073709551615.
Definition i64_max : N := 9223372036854775807.

(** [checked_add] at a width given by its maximum. *)
Definition checked_add (max a b : N) : option N :=
  if (a + b <=? max)%N then Some (a + b)%N else None.

(** [saturating_add] and [saturating_sub]. *)
Definition saturating_add (max a b : N) : N := N.min max (a + b).
Definition saturating_sub (a b : N) : N := (a - b)%N.

(** [u32::try_from(usize)] and its siblings: [None] out of range. *)
Definition try_from_len (max : N) (n : nat) : option N :=
  if (N.of_nat n <=? max)%N then Some (N.of_nat n) else None.

Lemma checked_add_Some max a b c :
  checked_add max a b = Some c <-> c = (a + b)%N /\ (a + b <= max)%N.
Proof. unfold checked_add. destruct (N.leb_spec (a + b) max); naive_solver lia. Qed.

Lemma try_from_len_Some max n c :
  try_from_len max n = Some c <-> c = N.of_nat n /\ (N.of_nat n <= max)%N.
Proof. unfold try_from_len. destruct (N.leb_spec (N.of_nat n) max); naive_solver lia. Qed.

(** ** Text

    A Rust [String] is its UTF-8 bytes.  [trim_is_empty s] is
    [s.trim().is_empty()]: every scalar value of [s] is Unicode
    [White_Space] (U+0009..U+000D, U+0020, U+0085, U+00A0, U+1680,
    U+2000..U+200A, U+2028, U+2029, U+202F, U+205F and U+3000). *)

Definition code (a : ascii) : N := N_of_ascii a.

Definition white1 (a : ascii) : bool :=
  ((9 <=? code a) && (code a <=? 13) || (code a =? 32))%N.

Definition white2 (a b : ascii) : bool :=
  ((code a =? 0xC2) && ((code b =? 0x85) || (code b =? 0xA0)))%N.

Definition white3 (a b c : ascii) : bool :=
  ((code a =? 0xE1) && (code b =? 0x9A) && (code c =? 0x80)
   || (code a =? 0xE2) && (code b =? 0x80)
      && ((0x80 <=? code c) && (code c <=? 0x8A) || (code c =? 0xA8)
          || (code c =? 0xA9) || (code c =? 0xAF))
   || (code a =? 0xE2) && (code b =? 0x81) && (code c =? 0x9F)
   || (code a =? 0xE3) && (code b =? 0x80) && (code c =? 0x80))%N.

Fixpoint trim_is_empty (s : string) : bool :=
  match s with
  | EmptyString => true
  | String a s1 =>
      if white1 a then trim_is_empty s1 else
      match s1 with
      | EmptyString => false
      | String b s2 =>
          if white2 a b then trim_is_empty s2 else
          match s2 with
          | EmptyString => false
          | String c s3 => white3 a b c && trim_is_empty s3
          end
      end
  end.

(** [str::strip_prefix]. *)
Fixpoint strip_prefix (p s : string) : option string :=
  match p, s with
  | EmptyString, _ => Some s
  | String a p', String b s' => if decide (a = b) then strip_prefix p' s' else None
  | String _ _, EmptyString => None
  end.

Lemma strip_prefix_Some p s t : strip_prefix p s = Some t <-> s = (p +:+ t).
Proof.
  revert s. induction p as [|a p IH]; intros s; cbn.
  - naive_solver.
  - destruct s as [|b s]; [split; [done|discriminate]|].
    case_decide; subst.
    + rewrite IH. split; [by intros -> | by intros [= ->]].
    + split; [done | by intros [= -> _]].
Qed.

Lemma string_app_inj_l (p s t : string) : p +:+ s = p +:+ t -> s = t.
Proof. induction p; cbn; [done|]. by intros [= ?%IHp]. Qed.

(** ** Lists *)

(** [last_mut]: the last element replaced. *)
Definition set_last {A} (x : A) (l : list A) : list A := removelast l ++ [x].

Lemma last_Some_app {A} (l : list A) x :
  last l = Some x <-> l = removelast l ++ [x].
Proof.
  split.
  - intros H. apply last_Some in H as [l' ->]. by rewrite removelast_last.
  - intros ->. by rewrite last_snoc.
Qed.

Lemma set_last_snoc {A} (x y : A) l : set_last x (l ++ [y]) = l ++ [x].
Proof. unfold set_last. by rewrite removelast_last. Qed.

Lemma last_set_last {A} (x : A) l : last (set_last x l) = Some x.
Proof. unfold set_last. by rewrite last_snoc. Qed.

Lemma length_set_last {A} (x y : A) l :
  last l = Some y -> length (set_last x l) = length l.
Proof.
  intros [l' ->]%last_Some. rewrite set_last_snoc, !length_app. done.
Qed.

(** The number of elements of a list that satisfy a boolean test. *)
Definition count {A} (f : A -> bool) (l : list A) : nat :=
  length (List.filter f l).

#[global] Arguments count : simpl never.

Lemma count_app {A} (f : A -> bool) l k : count f (l ++ k) = count f l + count f k.
Proof. unfold count. rewrite List.filter_app, length_app. done. Qed.

Lemma count_cons {A} (f : A -> bool) x l :
  count f (x :: l) = (if f x then 1 else 0) + count f l.
Proof. unfold count. cbn. destruct (f x); done. Qed.

Lemma count_nil {A} (f : A -> bool) : count f [] = 0.
Proof. done. Qed.

Lemma count_le_length {A} (f : A -> bool) l : count f l <= length l.
Proof. induction l; [done|]. rewrite count_cons. cbn. destruct (f a); lia. Qed.

Lemma count_le {A} (f g : A -> bool) l :
  (forall x, f x = true -> g x = true) -> count f l <= count g l.
Proof.
  intros H. induction l as [|x l IH]; [done|]. rewrite !count_cons.
  specialize (H x). destruct (f x); [rewrite H by done|]; lia.
Qed.

Lemma count_insert {A} (f : A -> bool) l i x y :
  l !! i = Some x ->
  count f (<[i:=y]> l) + (if f x then 1 else 0) = count f l + (if f y then 1 else 0).
Proof.
  revert i. induction l as [|z l IH]; intros [|i] H; cbn in H; simplify_eq.
  - unfold count. cbn. destruct (f x), (f y); cbn; lia.
  - specialize (IH _ H). cbn [insert list_insert]. rewrite !count_cons.
    rewrite <-!Nat.add_assoc. f_equal. exact IH.
Qed.

Lemma count_perm {A} (f : A -> bool) l k : l ≡ₚ k -> count f l = count f k.
Proof.
  induction 1 as [|x l k _ IH|x y l|l k m _ IH1 _ IH2]; [done|..].
  - by rewrite !count_cons, IH.
  - rewrite !count_cons. lia.
  - congruence.
Qed.

Lemma count_all {A} (f : A -> bool) l : Forall (fun x => f x = true) l -> count f l = length l.
Proof. induction 1 as [|x l Hx _ IH]; [done|]. rewrite count_cons, Hx, IH. done. Qed.

(** An element of a sorted list separates what precedes it from what
    follows it. *)
Lemma sorted_around {A} (R : relation A) l i x :
  StronglySorted R l -> l !! i = Some x ->
  Forall (fun y => R y x) (take i l) /\ Forall (R x) (drop (S i) l).
Proof.
  intros Hs Hi. rewrite <-(take_drop_middle _ _ _ Hi) in Hs.
  apply StronglySorted_app in Hs as (Hbefore & _ & Hafter).
  apply StronglySorted_inv in Hafter as [_ Hafter]. split; [|done].
  apply Forall_forall. intros y Hy. apply Hbefore; [done|]. left.
Qed.

(** How many elements of a sorted list an element bounds. *)
Lemma sorted_count_le {A} (R : relation A) `{!Reflexive R, !RelDecision R} l i x :
  StronglySorted R l -> l !! i = Some x ->
  i + 1 <= count (fun y => bool_decide (R y x)) l
  /\ length l - i <= count (fun y => bool_decide (R x y)) l.
Proof.
  intros Hs Hi. destruct (sorted_around _ _ _ _ Hs Hi) as [Hb Ha].
  pose proof (lookup_lt_Some _ _ _ Hi).
  rewrite <-(take_drop_middle _ _ _ Hi) at 1 3. rewrite !count_app, !count_cons.
  rewrite !bool_decide_true by done.
  rewrite (count_all _ (take i l)) by (eapply Forall_impl; [exact Hb|]; intros y ?; by apply bool_decide_true).
  rewrite (count_all (fun y => bool_decide (R x y)) (drop (S i) l))
    by (eapply Forall_impl; [exact Ha|]; intros y ?; by apply bool_decide_true).
  rewrite length_take, length_drop. lia.
Qed.

(** Removing the last element. *)
Lemma removelast_snoc {A} (l : list A) x : removelast (l ++ [x]) = l.
Proof. apply removelast_last. Qed.

Lemma removelast_set_last {A} (x : A) l : removelast (set_last x l) = removelast l.
Proof. unfold set_last. apply removelast_last. Qed.

(** A property of the elements of a list and their positions. *)
Definition indexed {A} (P : nat -> A -> Prop) (l : list A) : Prop :=
  forall i x, l !! i = Some x -> P i x.

Lemma indexed_nil {A} (P : nat -> A -> Prop) : indexed P [].
Proof. intros i x H. by rewrite lookup_nil in H. Qed.

Lemma indexed_snoc {A} (P : nat -> A -> Prop) l x :
  indexed P (l ++ [x]) <-> indexed P l /\ P (length l) x.
Proof.
  unfold indexed. setoid_rewrite lookup_app_Some. split.
  - intros H. split; [naive_solver|]. apply H. right. by rewrite Nat.sub_diag.
  - intros [H1 H2] i y [Hi|[Hi Hy]]; [by apply H1|].
    apply list_lookup_singleton_Some in Hy as [Hi' <-].
    replace i with (length l) by lia. done.
Qed.

Lemma indexed_impl {A} (P Q : nat -> A -> Prop) l :
  indexed P l -> (forall i x, l !! i = Some x -> P i x -> Q i x) -> indexed Q l.
Proof. intros HP H i x Hx. eauto. Qed.

Lemma indexed_set_last {A} (P : nat -> A -> Prop) l x y :
  last l = Some x -> indexed P l -> (forall i, P i x -> P i y) -> indexed P (set_last y l).
Proof.
  intros [l' ->]%last_Some H HP. rewrite set_last_snoc.
  apply indexed_snoc in H as [H1 H2]. apply indexed_snoc. auto.
Qed.

Lemma Forall_set_last {A} (P : A -> Prop) l x y :
  last l = Some x -> (Forall P (set_last y l) <-> Forall P (removelast l) /\ P y).
Proof.
  intros [l' ->]%last_Some. rewrite set_last_snoc, removelast_last, Forall_app, Forall_singleton.
  done.
Qed.

Lemma Forall_last_split {A} (P : A -> Prop) l x :
  last l = Some x -> (Forall P l <-> Forall P (removelast l) /\ P x).
Proof.
  intros [l' ->]%last_Some. rewrite removelast_last, Forall_app, Forall_singleton. done.
Qed.

Lemma count_set_last {A} (f : A -> bool) l x y :
  last l = Some x ->
  count f (set_last y l) + (if f x then 1 else 0) = count f l + (if f y then 1 else 0).
Proof.
  intros [l' ->]%last_Some. rewrite set_last_snoc, !count_app, !count_cons, !count_nil. lia.
Qed.

Lemma count_zero {A} (f : A -> bool) l : Forall (fun x => f x = false) l -> count f l = 0.
Proof.
  induction 1 as [|x l Hx _ IH]; [done|]. rewrite count_cons, Hx. done.
Qed.

Lemma elem_of_set_last {A} (l : list A) x y z :
  last l = Some x -> z ∈ l -> z <> x -> z ∈ set_last y l.
Proof. intros [l' ->]%last_Some Hz Hne. rewrite set_last_snoc. set_solver. Qed.

Lemma NoDup_omap {A B} (f : A -> option B) l : NoDup l ->
  (forall x y z, f x = Some z -> f y = Some z -> x = y) -> NoDup (omap f l).
Proof.
  intros Hl Hf. induction Hl as [|x l Hx Hl IH]; [constructor|]. cbn.
  destruct (f x) as [z|] eqn:E; [|done]. constructor; [|done].
  intros (y & Hy & E')%list_elem_of_omap. by rewrite (Hf _ _ _ E E') in Hx.
Qed.

Lemma StronglySorted_filter {A} (R : relation A) (P : A -> Prop) `{!forall x, Decision (P x)} l :
  StronglySorted R l -> StronglySorted R (filter P l).
Proof.
  induction 1 as [|x l _ IH Hx]; [constructor|]. rewrite filter_cons. case_decide; [|done].
  constructor; [done|]. apply Forall_forall. intros y [_ Hy]%list_elem_of_filter.
  by rewrite Forall_forall in Hx; apply Hx.
Qed.

(** ** Automation *)

(** Every hint database of the library: rewriting of the list and
    result combinators. *)
Create HintDb alloy.
Create Rewrite HintDb alloy.
#[export] Hint Rewrite @length_app @length_insert @count_app @count_cons @count_nil
  @set_last_snoc @last_set_last @last_snoc : alloy.

(** Decompose hypotheses about the [result] combinators. *)
Ltac inv_result :=
  repeat match goal with
  | H : _ ≫= _ = Ok _ |- _ => apply result_bind_Ok in H; destruct H as (? & ? & ?)
  | H : map_err _ _ = Ok _ |- _ => apply map_err_Ok in H
  | H : ok_or _ _ = Ok _ |- _ => apply ok_or_Ok in H
  | H : guard_err _ _ = Ok _ |- _ => apply guard_err_Ok in H
  | H : Ok _ = Ok _ |- _ => injection H as H
  | H : Err _ = Err _ |- _ => injection H as H
  | H : Ok _ = Err _ |- _ => discriminate H
  | H : Err _ = Ok _ |- _ => discriminate H
  end; simplify_eq.
