(* ===== verification/Text.v ===== *)
(** * Text

    The operations of [str] the components share, on the UTF-8 bytes of a
    text: prefixes, substrings, components, lines, and the order in which
    a [BTreeMap] visits its keys. *)

From Stdlib Require Import Ascii NArith Lia.
From stdpp Require Import base strings gmap list sorting.
From S2P Require Import Prelude.

(** ** Substrings *)

(** [str::starts_with] of a text. *)
Definition starts_with (p s : string) : bool :=
  match strip_prefix p s with Some _ => true | None => false end.

(** [str::contains] of a text. *)
Fixpoint contains (p s : string) : bool :=
  starts_with p s || match s with EmptyString => false | String _ s => contains p s end.

(** [str::ends_with] of a text. *)
Fixpoint ends_with (p s : string) : bool :=
  bool_decide (s = p) || match s with EmptyString => false | String _ s => ends_with p s end.

(** [str::find] of a text: the byte offset of its first occurrence. *)
Fixpoint find_text (p s : string) : option nat :=
  if starts_with p s then Some 0
  else match s with EmptyString => None | String _ s => S <$> find_text p s end.

(** The bytes before an offset. *)
Fixpoint take_text (n : nat) (s : string) : string :=
  match n, s with
  | S n, String a s => String a (take_text n s)
  | _, _ => EmptyString
  end.

(** How often a byte occurs. *)
Fixpoint count_byte (a : ascii) (s : string) : nat :=
  match s with
  | EmptyString => 0
  | String b s => (if decide (b = a) then 1 else 0) + count_byte a s
  end.

(** [str::bytes().all(..)] / [chars().all(..)] for a test of ASCII. *)
Fixpoint all_bytes (f : ascii -> bool) (s : string) : bool :=
  match s with EmptyString => true | String a s => f a && all_bytes f s end.

(** [char::is_ascii_digit] and [char::is_ascii_alphanumeric]. *)
Definition is_ascii_digit (a : ascii) : bool := ((48 <=? code a) && (code a <=? 57))%N.

Definition is_ascii_alphanumeric (a : ascii) : bool :=
  (is_ascii_digit a || ((65 <=? code a) && (code a <=? 90))
   || ((97 <=? code a) && (code a <=? 122)))%N.

(** [str::to_ascii_lowercase]. *)
Definition lower (a : ascii) : ascii :=
  if ((65 <=? code a) && (code a <=? 90))%N then ascii_of_N (code a + 32) else a.

Fixpoint to_ascii_lowercase (s : string) : string :=
  match s with EmptyString => EmptyString | String a s => String (lower a) (to_ascii_lowercase s) end.

(** [str::trim_start]: the leading white space of [trim_is_empty]
    removed. *)
Fixpoint trim_start (s : string) : string :=
  match s with
  | EmptyString => EmptyString
  | String a s1 =>
      if white1 a then trim_start s1 else
      match s1 with
      | EmptyString => s
      | String b s2 =>
          if white2 a b then trim_start s2 else
          match s2 with
          | EmptyString => s
          | String c s3 => if white3 a b c then trim_start s3 else s
          end
      end
  end.

(** ** UTF-8

    [std::str::from_utf8] accepts exactly the well-formed sequences: no
    overlong form, no surrogate, nothing above U+10FFFF. *)

Definition in_range (lo hi : N) (a : ascii) : bool := ((lo <=? code a) && (code a <=? hi))%N.
Definition continuation : ascii -> bool := in_range 0x80 0xBF.

(** The second byte after a lead byte of three, and of four bytes. *)
Definition second_of_three (a b : ascii) : bool :=
  if (code a =? 0xE0)%N then in_range 0xA0 0xBF b
  else if (code a =? 0xED)%N then in_range 0x80 0x9F b
  else in_range 0xE1 0xEF a && continuation b.

Definition second_of_four (a b : ascii) : bool :=
  if (code a =? 0xF0)%N then in_range 0x90 0xBF b
  else if (code a =? 0xF4)%N then in_range 0x80 0x8F b
  else in_range 0xF1 0xF3 a && continuation b.

Fixpoint utf8_valid (s : string) : bool :=
  match s with
  | EmptyString => true
  | String a s1 =>
      if (code a <? 0x80)%N then utf8_valid s1 else
      match s1 with
      | EmptyString => false
      | String b s2 =>
          if in_range 0xC2 0xDF a then continuation b && utf8_valid s2 else
          match s2 with
          | EmptyString => false
          | String c s3 =>
              if in_range 0xE0 0xEF a then
                second_of_three a b && continuation c && utf8_valid s3 else
              match s3 with
              | EmptyString => false
              | String d s4 =>
                  second_of_four a b && continuation c && continuation d && utf8_valid s4
              end
          end
      end
  end.

(** [char::REPLACEMENT_CHARACTER]. *)
Definition replacement_character : string :=
  String (ascii_of_N 0xEF) (String (ascii_of_N 0xBF) (String (ascii_of_N 0xBD) EmptyString)).

(** [String::from_utf8_lossy]: every maximal prefix of a character that is
    not completed becomes one replacement character. *)
Fixpoint utf8_lossy (s : string) : string :=
  match s with
  | EmptyString => EmptyString
  | String a s1 =>
      if (code a <? 0x80)%N then String a (utf8_lossy s1)
      else if in_range 0xC2 0xDF a then
        match s1 with
        | String b s2 =>
            if continuation b then String a (String b (utf8_lossy s2)) else replacement_character +:+ utf8_lossy s1
        | EmptyString => replacement_character
        end
      else if in_range 0xE0 0xEF a then
        match s1 with
        | String b s2 =>
            if second_of_three a b then
              match s2 with
              | String c s3 =>
                  if continuation c then String a (String b (String c (utf8_lossy s3)))
                  else replacement_character +:+ utf8_lossy s2
              | EmptyString => replacement_character
              end
            else replacement_character +:+ utf8_lossy s1
        | EmptyString => replacement_character
        end
      else if in_range 0xF0 0xF4 a then
        match s1 with
        | String b s2 =>
            if second_of_four a b then
              match s2 with
              | String c s3 =>
                  if continuation c then
                    match s3 with
                    | String d s4 =>
                        if continuation d then String a (String b (String c (String d (utf8_lossy s4))))
                        else replacement_character +:+ utf8_lossy s3
                    | EmptyString => replacement_character
                    end
                  else replacement_character +:+ utf8_lossy s2
              | EmptyString => replacement_character
              end
            else replacement_character +:+ utf8_lossy s1
        | EmptyString => replacement_character
        end
      else replacement_character +:+ utf8_lossy s1
  end.

(** ** Components and lines *)

Definition cons_head (a : ascii) (l : list string) : list string :=
  match l with [] => [String a EmptyString] | s :: l => String a s :: l end.

(** [str::split] at a byte: never empty. *)
Fixpoint split_at (sep : ascii) (s : string) : list string :=
  match s with
  | EmptyString => [EmptyString]
  | String a s => if decide (a = sep) then EmptyString :: split_at sep s
                  else cons_head a (split_at sep s)
  end.

(** [s.rsplit(sep).next()]: what follows the last separator. *)
Definition after_last (sep : ascii) (s : string) : string :=
  default EmptyString (last (split_at sep s)).

Definition line_feed : ascii := ascii_of_nat 10.
Definition carriage_return : ascii := ascii_of_nat 13.

(** A line without the carriage return of its ending. *)
Fixpoint strip_return (s : string) : string :=
  match s with
  | EmptyString => EmptyString
  | String a EmptyString => if decide (a = carriage_return) then EmptyString else s
  | String a s => String a (strip_return s)
  end.

(** The pieces between line feeds: every one but the last was ended by a
    line feed, and an empty last one is no line. *)
Fixpoint end_lines (l : list string) : list string :=
  match l with
  | [] => []
  | [s] => if decide (s = EmptyString) then [] else [s]
  | s :: l => strip_return s :: end_lines l
  end.

(** [str::lines]. *)
Definition lines (s : string) : list string := end_lines (split_at line_feed s).

(** ** Order

    [Ord for str] compares bytes; a [BTreeMap] or [BTreeSet] is visited
    in the order of its keys. *)

Section ordered.
Context {A : Type} (key : A -> string).

Definition key_le (a b : A) : Prop := String.le (key a) (key b).

#[export] Instance key_le_dec : RelDecision key_le.
Proof. intros a b. apply Is_true_dec. Defined.

#[export] Instance key_le_total : Total key_le.
Proof. intros a b. apply (total String.le). Qed.

#[export] Instance key_le_trans : Transitive key_le.
Proof. intros a b c. unfold key_le. apply transitivity. Qed.

Definition sort_by_key (l : list A) : list A := merge_sort key_le l.

Lemma sort_by_key_perm l : sort_by_key l ≡ₚ l.
Proof. apply merge_sort_Permutation. Qed.

(** Sorting forgets the order of elements with distinct keys. *)
Lemma sort_by_key_canonical l k :
  NoDup (key <$> l) -> l ≡ₚ k -> sort_by_key l = sort_by_key k.
Proof.
  intros Hnd Hp. apply (Sorted_unique_strong key_le).
  - intros x y Hx Hy Hxy Hyx.
    assert (key x = key y) as E by (unfold key_le in *; by apply (anti_symm String.le)).
    rewrite sort_by_key_perm in Hx. rewrite sort_by_key_perm, <-Hp in Hy.
    apply list_elem_of_lookup in Hx as [i Hi], Hy as [j Hj].
    assert (i = j) as ->; [|naive_solver].
    eapply (NoDup_lookup (key <$> l)); [done| |]; rewrite list_lookup_fmap;
      [by rewrite Hi|by rewrite Hj, E].
  - apply (Sorted_merge_sort key_le).
  - apply (Sorted_merge_sort key_le).
  - by rewrite !sort_by_key_perm.
Qed.

Lemma sort_by_key_canonical_inj `{!Inj (=) (=) key} l k : l ≡ₚ k -> sort_by_key l = sort_by_key k.
Proof.
  intros Hp. apply (Sorted_unique_strong key_le); [|apply (Sorted_merge_sort key_le)..|].
  - intros x y _ _ Hxy Hyx. apply (inj key). by apply (anti_symm String.le).
  - by rewrite !sort_by_key_perm.
Qed.

End ordered.
Arguments sort_by_key {A} key l : simpl never.

(** [Iterator::find_map]. *)
Fixpoint find_map {A B} (f : A -> option B) (l : list A) : option B :=
  match l with
  | [] => None
  | x :: l => match f x with Some y => Some y | None => find_map f l end
  end.

(** [Ord] on tuples and on [Option], and the order a comparison gives. *)
Definition then_compare (c d : comparison) : comparison :=
  match c with Eq => d | _ => c end.

Definition option_compare {A} (f : A -> A -> comparison) (a b : option A) : comparison :=
  match a, b with
  | None, None => Eq
  | None, Some _ => Lt
  | Some _, None => Gt
  | Some a, Some b => f a b
  end.

Definition not_after {A} (f : A -> A -> comparison) (a b : A) : Prop := f a b <> Gt.

#[export] Instance not_after_dec {A} (f : A -> A -> comparison) : RelDecision (not_after f).
Proof. intros a b. unfold not_after. destruct (f a b); [left|left|right]; naive_solver. Defined.

(** [slice::sort_by], which is stable. *)
Definition sort_by {A} (f : A -> A -> comparison) (l : list A) : list A :=
  merge_sort (not_after f) l.
Arguments sort_by {A} f l : simpl never.

(** ** Lemmas *)

Lemma string_compare_le a b : String.compare a b <> Gt <-> String.le a b.
Proof. unfold String.le, String.leb. destruct (String.compare a b); naive_solver. Qed.

Lemma string_compare_Eq a b : String.compare a b = Eq <-> a = b.
Proof.
  split; [apply String.compare_eq_iff|]. intros ->. pose proof (String.compare_antisym b b) as H.
  by destruct (String.compare b b).
Qed.

Lemma sort_by_perm {A} (f : A -> A -> comparison) l : sort_by f l ≡ₚ l.
Proof. apply merge_sort_Permutation. Qed.

Lemma elem_of_sort_by {A} (f : A -> A -> comparison) l x : x ∈ sort_by f l <-> x ∈ l.
Proof. by rewrite sort_by_perm. Qed.

Lemma sort_by_nil_iff {A} (f : A -> A -> comparison) l : sort_by f l = [] <-> l = [].
Proof.
  split; intros E; [|by subst]. apply Permutation_nil_r. by rewrite <-(sort_by_perm f l), E.
Qed.

Lemma find_map_None {A B} (f : A -> option B) l :
  find_map f l = None <-> Forall (fun x => f x = None) l.
Proof.
  induction l as [|x l IH]; cbn; [split; [constructor|done]|].
  rewrite Forall_cons. destruct (f x); naive_solver.
Qed.

Lemma find_map_Some {A B} (f : A -> option B) l y :
  find_map f l = Some y -> exists x, x ∈ l /\ f x = Some y.
Proof.
  induction l as [|x l IH]; cbn; [done|].
  destruct (f x) eqn:E; [intros [= <-]; exists x; split; [left|done]|].
  intros (z & Hz & Ez)%IH. exists z. split; [by right|done].
Qed.

Lemma starts_with_spec p s : starts_with p s = true <-> exists t, s = p +:+ t.
Proof.
  unfold starts_with. destruct (strip_prefix p s) as [t|] eqn:E.
  - apply strip_prefix_Some in E. naive_solver.
  - split; [done|]. intros [t Ht]. apply strip_prefix_Some in Ht. congruence.
Qed.

Lemma contains_spec p s : contains p s = true <-> exists a b, s = a +:+ p +:+ b.
Proof.
  induction s as [|c s IH]; cbn; rewrite orb_true_iff, starts_with_spec.
  - split; [intros [[t Ht]|?]; [by exists EmptyString, t|done]|].
    intros (a & b & E). left. destruct a; [by exists b|done].
  - rewrite IH. split.
    + intros [[t Ht]|(a & b & ->)]; [by exists EmptyString, t|by exists (String c a), b].
    + intros (a & b & E). destruct a as [|d a]; [left; by exists b|].
      right. exists a, b. by injection E as _ ->.
Qed.

Lemma all_bytes_true f s : all_bytes f s = true <-> forall a, In a (String.list_ascii_of_string s) -> f a = true.
Proof.
  induction s as [|a s IH]; cbn; [naive_solver|].
  rewrite andb_true_iff, IH. naive_solver.
Qed.

Lemma all_bytes_app f s t : all_bytes f (s +:+ t) = all_bytes f s && all_bytes f t.
Proof. induction s as [|a s IH]; [done|]. cbn [all_bytes String.append]. rewrite <-andb_assoc, <-IH. done. Qed.

Lemma append_assoc (a b c : string) : a +:+ b +:+ c = (a +:+ b) +:+ c.
Proof. induction a as [|x a IH]; [done|].
  change (String x (a +:+ b +:+ c) = String x ((a +:+ b) +:+ c)). by rewrite IH.
Qed.
