(* ===== verification/Digest.v ===== *)
(** * Content identities

    [src/crates/alloyport-core/src/artifact.rs]: the canonical SHA-256
    identity, its text form and its parser.  The hash function itself is
    the [ring] crate's, a parameter of every definition that hashes. *)

From Stdlib Require Import Ascii NArith Lia List ProofIrrelevance.
From stdpp Require Import base numbers strings gmap list.
From S2P Require Import Prelude.

(** A [Vec<u8>] or [&[u8]]. *)
Definition bytes : Type := list Byte.byte.

Definition SHA256_PREFIX : string := "sha256:".
Definition SHA256_BYTES : nat := 32.

(** [struct Sha256Digest([u8; SHA256_BYTES])]. *)
Record Sha256Digest := MkDigest {
  digest_body : bytes;
  digest_length : bool_decide (length digest_body = SHA256_BYTES) = true;
}.

Lemma Sha256Digest_ext (a b : Sha256Digest) : digest_body a = digest_body b -> a = b.
Proof. destruct a, b; cbn. intros ->. f_equal. apply proof_irrelevance. Qed.

#[export] Instance byte_eq_dec : EqDecision Byte.byte := Byte.byte_eq_dec.

#[export] Instance bytes_eq_dec : EqDecision bytes := list_eq_dec.

#[export] Instance Sha256Digest_eq_dec : EqDecision Sha256Digest.
Proof.
  intros a b. destruct (decide (digest_body a = digest_body b)) as [H|H].
  - left. by apply Sha256Digest_ext.
  - right. by intros ->.
Defined.

#[export] Instance byte_countable : Countable Byte.byte.
Proof.
  apply (inj_countable Byte.to_N Byte.of_N). intros b. apply Byte.of_to_N.
Defined.

#[export] Instance Sha256Digest_countable : Countable Sha256Digest.
Proof.
  refine (inj_countable digest_body (fun l =>
    match decide (bool_decide (length l = SHA256_BYTES) = true) with
    | left H => Some (MkDigest l H)
    | right _ => None
    end) _).
  intros [l H]. cbn. case_match; [|done]. do 2 f_equal. apply proof_irrelevance.
Defined.

(** [Sha256Digest::digest_bytes]: SHA-256 of the [ring] crate, a
    parameter of the model. *)
Class Sha256 := digest_bytes : bytes -> Sha256Digest.

(** An array [[0_u8; 32]] whose first entries are overwritten by [l]. *)
Definition zero_filled (l : bytes) : bytes :=
  take SHA256_BYTES (l ++ replicate SHA256_BYTES Byte.x00).

Lemma zero_filled_length l : bool_decide (length (zero_filled l) = SHA256_BYTES) = true.
Proof.
  apply bool_decide_eq_true. unfold zero_filled.
  rewrite length_take, length_app, length_replicate. lia.
Qed.

(** [Sha256Digest::from_bytes] on that array. *)
Definition from_bytes (l : bytes) : Sha256Digest :=
  MkDigest (zero_filled l) (zero_filled_length l).

Inductive DigestParseError :=
| MissingPrefix
| WrongLength (length : nat)
| NonHexadecimal.

#[export] Instance DigestParseError_eq_dec : EqDecision DigestParseError.
Proof. solve_decision. Defined.

(** One digit of [write!("{byte:02x}")]. *)
Definition hex_digit (n : N) : ascii :=
  if (n <? 10)%N then ascii_of_N (48 + n) else ascii_of_N (87 + n).

Definition byte_hex (b : Byte.byte) (tail : string) : string :=
  String (hex_digit (N.shiftr (Byte.to_N b) 4))
    (String (hex_digit (N.land (Byte.to_N b) 15)) tail).

(** [Sha256Digest::hexadecimal]. *)
Definition hex_body (l : bytes) : string := foldr byte_hex EmptyString l.
Definition hexadecimal (d : Sha256Digest) : string := hex_body (digest_body d).

(** [Display for Sha256Digest]. *)
Definition digest_display (d : Sha256Digest) : string :=
  SHA256_PREFIX +:+ hexadecimal d.

(** [hex_nibble]. *)
Definition hex_nibble (byte : ascii) : option N :=
  let c := code byte in
  if ((48 <=? c) && (c <=? 57))%N then Some (c - 48)%N
  else if ((97 <=? c) && (c <=? 102))%N then Some (c - 97 + 10)%N
  else if ((65 <=? c) && (c <=? 70))%N then Some (c - 65 + 10)%N
  else None.

(** [(high << 4) | low] on [u8]. *)
Definition join_nibbles (high low : N) : Byte.byte :=
  match Byte.of_N (N.lor (N.shiftl high 4 mod 256) low) with
  | Some byte => byte
  | None => Byte.x00
  end.

(** The loop over [chunks_exact(2)]. *)
Fixpoint parse_pairs (s : string) : result DigestParseError bytes :=
  match s with
  | String a (String b rest) =>
      high ← ok_or (hex_nibble a) NonHexadecimal;
      low ← ok_or (hex_nibble b) NonHexadecimal;
      tail ← parse_pairs rest;
      Ok (join_nibbles high low :: tail)
  | _ => Ok []
  end.

(** [FromStr for Sha256Digest]. *)
Definition digest_from_str (value : string) : result DigestParseError Sha256Digest :=
  hexadecimal ← ok_or (strip_prefix SHA256_PREFIX value) MissingPrefix;
  _ ← guard_err (negb (String.length hexadecimal =? SHA256_BYTES * 2)%nat)
        (WrongLength (String.length hexadecimal));
  body ← parse_pairs hexadecimal;
  Ok (from_bytes body).

(** [struct ArtifactDescriptor]. *)
Record ArtifactDescriptor := MkArtifactDescriptor {
  ad_digest : Sha256Digest;
  ad_size_bytes : N;
  ad_media_type : string;
}.

#[export] Instance ArtifactDescriptor_eq_dec : EqDecision ArtifactDescriptor.
Proof. solve_decision. Defined.

(** ** Lemmas *)

Lemma digest_body_length d : length (digest_body d) = SHA256_BYTES.
Proof. destruct d as [l H]. cbn. by apply bool_decide_eq_true in H. Qed.

Lemma zero_filled_full l : length l = SHA256_BYTES -> zero_filled l = l.
Proof. intros H. unfold zero_filled. by rewrite take_app_length'. Qed.

Lemma from_bytes_digest d : from_bytes (digest_body d) = d.
Proof.
  apply Sha256Digest_ext. cbn. apply zero_filled_full, digest_body_length.
Qed.

(** *** Nibbles: exhaustive facts over the 256 bytes *)

(** The value below 16 of a nibble. *)
Definition nibbles : list N := N.of_nat <$> seq 0 16.

Lemma nibbles_spec x : (x < 16)%N -> x ∈ nibbles.
Proof.
  intros Hx. apply list_elem_of_fmap. exists (N.to_nat x).
  split; [lia|]. apply elem_of_seq. lia.
Qed.

Lemma byte_nibbles (b : Byte.byte) :
  (N.shiftr (Byte.to_N b) 4 < 16)%N /\ (N.land (Byte.to_N b) 15 < 16)%N
  /\ join_nibbles (N.shiftr (Byte.to_N b) 4) (N.land (Byte.to_N b) 15) = b.
Proof. destruct b; by vm_compute. Qed.

Lemma join_nibbles_split x y :
  (x < 16)%N -> (y < 16)%N ->
  N.shiftr (Byte.to_N (join_nibbles x y)) 4 = x
  /\ N.land (Byte.to_N (join_nibbles x y)) 15 = y.
Proof.
  intros Hx%nibbles_spec Hy%nibbles_spec.
  pose (ok x y := bool_decide (N.shiftr (Byte.to_N (join_nibbles x y)) 4 = x
                  /\ N.land (Byte.to_N (join_nibbles x y)) 15 = y)).
  assert (forallb (fun x => forallb (ok x) nibbles) nibbles = true) as F by by vm_compute.
  rewrite forallb_forall in F. setoid_rewrite forallb_forall in F.
  apply list_elem_of_In in Hx, Hy. specialize (F _ Hx _ Hy).
  by apply bool_decide_eq_true in F.
Qed.

Lemma hex_nibble_digit x : (x < 16)%N -> hex_nibble (hex_digit x) = Some x.
Proof.
  intros Hx%nibbles_spec.
  assert (forallb (fun x => bool_decide (hex_nibble (hex_digit x) = Some x)) nibbles = true)
    as F by by vm_compute.
  rewrite forallb_forall in F. apply list_elem_of_In in Hx.
  by eapply bool_decide_eq_true_1, F.
Qed.

(** Lower case of a hexadecimal digit. *)
Definition lower_hex (a : ascii) : ascii :=
  if ((65 <=? code a) && (code a <=? 70))%N then ascii_of_N (code a + 32) else a.

Fixpoint lower_hex_string (s : string) : string :=
  match s with
  | EmptyString => EmptyString
  | String a s => String (lower_hex a) (lower_hex_string s)
  end.

Fixpoint all_hex (s : string) : bool :=
  match s with
  | EmptyString => true
  | String a s => bool_decide (is_Some (hex_nibble a)) && all_hex s
  end.

Lemma hex_nibble_lower a x :
  hex_nibble a = Some x -> (x < 16)%N /\ hex_digit x = lower_hex a.
Proof.
  pose (ok a := match hex_nibble a with
                | Some x => (x <? 16)%N && (hex_digit x =? lower_hex a)%char
                | None => true end).
  assert (forallb (fun n => ok (ascii_of_nat n)) (seq 0 256) = true) as F by by vm_compute.
  rewrite forallb_forall in F. specialize (F (nat_of_ascii a)).
  rewrite ascii_nat_embedding in F. unfold ok in F. intros E. rewrite E in F.
  apply andb_prop in F as [Hx%N.ltb_lt Ha%Ascii.eqb_eq]; [done|].
  apply in_seq. pose proof (nat_ascii_bounded a). lia.
Qed.

(** *** Printing and parsing *)

Lemma hex_body_length l : String.length (hex_body l) = length l * 2.
Proof. induction l as [|b l IH]; [done|]. unfold hex_body in IH. cbn. lia. Qed.

Lemma parse_pairs_hex_body l : parse_pairs (hex_body l) = Ok l.
Proof.
  induction l as [|b l IH]; [done|]. cbn [hex_body foldr byte_hex parse_pairs].
  destruct (byte_nibbles b) as (Hx & Hy & Hb).
  rewrite !hex_nibble_digit by done. unfold hex_body in IH. cbn. by rewrite IH, Hb.
Qed.

(** What the pair loop accepts: pairs of digits, and it reads them. *)
Lemma parse_pairs_Ok n s l :
  String.length s = n * 2 ->
  parse_pairs s = Ok l <-> all_hex s = true /\ length l = n /\ hex_body l = lower_hex_string s.
Proof.
  revert s l. induction n as [|n IH]; intros s l Hs.
  { destruct s; [|done]. cbn. split; [by intros [= <-]|].
    intros (_ & Hl & _). by destruct l. }
  destruct s as [|a [|b s]]; cbn in Hs; [lia|lia|].
  assert (String.length s = n * 2) as Hs' by lia. cbn [parse_pairs all_hex lower_hex_string].
  destruct (hex_nibble a) as [x|] eqn:Ha; cbn; [|split; [done|by intros (? & _)]].
  destruct (hex_nibble b) as [y|] eqn:Hb; cbn; [|split; [done|by intros (? & _)]].
  apply hex_nibble_lower in Ha as [Hx <-]. apply hex_nibble_lower in Hb as [Hy <-].
  destruct (join_nibbles_split x y Hx Hy) as [Ex Ey].
  split.
  - intros H. inv_result. apply (IH _ _ Hs') in H as (? & ? & E).
    split_and!; [done|cbn; lia|]. cbn. unfold byte_hex. rewrite Ex, Ey. by rewrite <-E.
  - intros (Hall & Hl & E). destruct l as [|c l]; [done|]. cbn in E, Hl.
    injection E as E1 E2 E. injection Hl as Hl.
    assert (parse_pairs s = Ok l) as -> by (apply IH; auto). cbn.
    assert (forall u v, (u < 16)%N -> (v < 16)%N -> hex_digit u = hex_digit v -> u = v) as Inj.
    { intros u v Hu%hex_nibble_digit Hv%hex_nibble_digit Euv. rewrite Euv in Hu. congruence. }
    destruct (byte_nibbles c) as (Hc1 & Hc2 & <-).
    do 3 f_equal; symmetry; by apply Inj.
Qed.

Lemma digest_from_str_Ok s d :
  digest_from_str s = Ok d <->
  exists body, s = SHA256_PREFIX +:+ body /\ String.length body = 64
    /\ all_hex body = true /\ hexadecimal d = lower_hex_string body.
Proof.
  unfold digest_from_str. split.
  - intros H. inv_result. apply strip_prefix_Some in H. subst s. eexists.
    split; [done|]. apply negb_false_iff, Nat.eqb_eq in H0.
    apply (parse_pairs_Ok 32) in H1 as (? & ? & ?); [|done].
    split_and!; [done..|]. unfold hexadecimal, from_bytes. cbn [digest_body]. by rewrite zero_filled_full.
  - intros (body & -> & Hlen & Hall & Hd).
    assert (strip_prefix SHA256_PREFIX (SHA256_PREFIX +:+ body) = Some body)
      as -> by by apply strip_prefix_Some.
    cbn [ok_or mbind result_bind]. rewrite Hlen. cbn [guard_err Nat.eqb negb SHA256_BYTES Nat.mul Nat.add].
    assert (parse_pairs body = Ok (digest_body d)) as ->.
    { apply (parse_pairs_Ok 32); [done|]. split_and!; [done|apply digest_body_length|done]. }
    cbn. by rewrite from_bytes_digest.
Qed.

Lemma lower_hex_display l : all_hex (hex_body l) = true /\ lower_hex_string (hex_body l) = hex_body l.
Proof.
  destruct (parse_pairs_Ok (length l) (hex_body l) l) as [H _]; [apply hex_body_length|].
  destruct (H (parse_pairs_hex_body l)) as (? & _ & ?). done.
Qed.

Lemma digest_from_str_display d : digest_from_str (digest_display d) = Ok d.
Proof.
  apply digest_from_str_Ok. exists (hexadecimal d). unfold hexadecimal.
  destruct (lower_hex_display (digest_body d)).
  split_and!; [done| |done|done]. by rewrite hex_body_length, digest_body_length.
Qed.

#[export] Instance digest_display_inj : Inj (=) (=) digest_display.
Proof.
  intros a b E. pose proof (digest_from_str_display a) as Ha.
  rewrite E, digest_from_str_display in Ha. congruence.
Qed.

(** ** Property *)

(** The text form of a digest is a faithful and canonical encoding:
    parsing the printed text of any digest gives that digest back, and a
    text parses to the digest exactly when it is the [sha256:] prefix
    followed by 64 hexadecimal digits (of either case) whose lower case
    is the digest's own hexadecimal body. *)
Theorem digest_text_roundtrip (d : Sha256Digest) :
  digest_from_str (digest_display d) = Ok d
  /\ forall s, digest_from_str s = Ok d <->
       exists body, s = SHA256_PREFIX +:+ body /\ String.length body = 64
         /\ all_hex body = true /\ hexadecimal d = lower_hex_string body.
Proof. split; [apply digest_from_str_display|]. intros s. apply digest_from_str_Ok. Qed.
