(* ===== verification/Encoding.v ===== *)
(** * Byte encodings of identities

    How the components write what they hash: [to_be_bytes], [as_bytes] and
    texts and lists preceded by their length.  A prefix code can be read
    back from the front of any longer input, so a sequence of prefix codes
    determines every part; the components use this to show which of their
    fields an identity binds. *)

From Stdlib Require Import Ascii NArith Lia.
From stdpp Require Import base strings list sorting.
From S2P Require Import Prelude Text Digest.

(** [&str::as_bytes]. *)
Definition as_bytes (s : string) : bytes := byte_of_ascii <$> String.list_ascii_of_string s.

(** [std::str::from_utf8]. *)
Definition text_of_bytes (l : bytes) : string :=
  String.string_of_list_ascii (ascii_of_byte <$> l).

Definition from_utf8 (l : bytes) : option string :=
  let s := text_of_bytes l in if utf8_valid s then Some s else None.

(** The low [n] bytes of an integer, big endian ([to_be_bytes] of a type
    of that width). *)
Fixpoint be_bytes (n : nat) (v : N) : bytes :=
  match n with
  | O => []
  | S n => be_bytes n (N.shiftr v 8) ++ [byte_of_ascii (ascii_of_N (N.land v 255))]
  end.

(** [(length as u64).to_be_bytes()]. *)
Definition len_bytes (length : nat) : bytes := be_bytes 8 (N.of_nat length).

(** A text preceded by its length. *)
Definition text_bytes (s : string) : bytes := len_bytes (String.length s) ++ as_bytes s.

(** A list preceded by its length. *)
Definition list_bytes {A} (enc : A -> bytes) (l : list A) : bytes :=
  len_bytes (length l) ++ mjoin (enc <$> l).

#[global] Arguments be_bytes : simpl never.
#[global] Arguments len_bytes : simpl never.
#[global] Arguments text_bytes : simpl never.
#[global] Arguments list_bytes : simpl never.

(** A length that fits in [u64], as every length of a Rust value does. *)
Definition fits (n : nat) : Prop := (N.of_nat n <= u64_max)%N.
Definition text_fits (s : string) : Prop := fits (String.length s).
Definition list_fits {A} (P : A -> Prop) (l : list A) : Prop := fits (length l) /\ Forall P l.

#[export] Instance fits_dec n : Decision (fits n).
Proof. apply _. Defined.
#[export] Instance text_fits_dec s : Decision (text_fits s).
Proof. apply _. Defined.
#[export] Instance list_fits_dec {A} (P : A -> Prop) `{!forall x, Decision (P x)} l :
  Decision (list_fits P l).
Proof. apply _. Defined.

(** ** Injectivity *)

Lemma byte_of_ascii_inj a b : byte_of_ascii a = byte_of_ascii b -> a = b.
Proof.
  intros E. by rewrite <-(ascii_of_byte_of_ascii a), <-(ascii_of_byte_of_ascii b), E.
Qed.

Lemma as_bytes_inj s t : as_bytes s = as_bytes t -> s = t.
Proof.
  unfold as_bytes. intros E. rewrite <-(String.string_of_list_ascii_of_string s).
  rewrite <-(String.string_of_list_ascii_of_string t). f_equal.
  revert E. generalize (String.list_ascii_of_string t).
  induction (String.list_ascii_of_string s) as [|a l IH]; intros [|b k]; try done.
  cbn. intros [= Ea El]. f_equal; [|by apply IH].
  by apply byte_of_ascii_inj.
Qed.

Lemma text_of_bytes_as_bytes s : text_of_bytes (as_bytes s) = s.
Proof.
  unfold text_of_bytes, as_bytes. rewrite <-list_fmap_compose.
  rewrite (list_fmap_ext _ id), list_fmap_id; [apply String.string_of_list_ascii_of_string|].
  intros _ a _. apply ascii_of_byte_of_ascii.
Qed.

Lemma as_bytes_text_of_bytes l : as_bytes (text_of_bytes l) = l.
Proof.
  unfold as_bytes, text_of_bytes. rewrite String.list_ascii_of_string_of_list_ascii, <-list_fmap_compose.
  rewrite (list_fmap_ext _ id), list_fmap_id; [done|]. intros _ b _. apply byte_of_ascii_of_byte.
Qed.

Lemma from_utf8_bytes l v : from_utf8 l = Some v -> as_bytes v = l.
Proof. unfold from_utf8. case_match; [|done]. intros [= <-]. apply as_bytes_text_of_bytes. Qed.

Lemma as_bytes_length s : length (as_bytes s) = String.length s.
Proof. unfold as_bytes. rewrite length_fmap. induction s; cbn; congruence. Qed.

Lemma as_bytes_app s t : as_bytes (s +:+ t) = as_bytes s ++ as_bytes t.
Proof. induction s as [|a s IH]; [done|]. exact (f_equal (cons (byte_of_ascii a)) IH). Qed.

Lemma be_bytes_length n v : length (be_bytes n v) = n.
Proof. revert v. induction n as [|n IH]; intros v; [done|]. unfold be_bytes; fold be_bytes. rewrite length_app, IH. cbn. lia. Qed.

Lemma be_bytes_inj n v w :
  (v < 2 ^ (8 * N.of_nat n))%N -> (w < 2 ^ (8 * N.of_nat n))%N ->
  be_bytes n v = be_bytes n w -> v = w.
Proof.
  revert v w. induction n as [|n IH]; intros v w Hv Hw.
  - cbn in *. lia.
  - unfold be_bytes; fold be_bytes. intros E. apply app_inj_tail in E as [Eh El].
    replace (8 * N.of_nat (S n))%N with (8 * N.of_nat n + 8)%N in Hv, Hw by lia.
    rewrite N.pow_add_r in Hv, Hw. change (2 ^ 8)%N with 256%N in *.
    rewrite !N.shiftr_div_pow2 in Eh. change (2 ^ 8)%N with 256%N in Eh.
    apply IH in Eh; [|apply N.Div0.div_lt_upper_bound; lia..].
    apply byte_of_ascii_inj in El.
    change 255%N with (N.ones 8) in El. rewrite !N.land_ones in El. change (2 ^ 8)%N with 256%N in El.
    apply (f_equal N_of_ascii) in El. rewrite !N_ascii_embedding in El by (apply N.mod_lt; lia).
    rewrite (N.Div0.div_mod v 256), (N.Div0.div_mod w 256). congruence.
Qed.

(** The high bytes first. *)
Lemma be_bytes_split m n v :
  be_bytes (m + n) v = be_bytes m (N.shiftr v (8 * N.of_nat n)) ++ be_bytes n v.
Proof.
  revert v. induction n as [|n IH]; intros v.
  - rewrite Nat.add_0_r, N.shiftr_0_r. cbn. by rewrite app_nil_r.
  - rewrite Nat.add_succ_r. unfold be_bytes; fold be_bytes. rewrite IH, N.shiftr_shiftr.
    rewrite <-(assoc_L (++)). do 3 f_equal. lia.
Qed.

(** A length below 2^56 starts with a zero byte. *)
Lemma len_bytes_short n :
  (N.of_nat n < 2 ^ 56)%N -> exists t, len_bytes n = Byte.x00 :: t.
Proof.
  intros H. unfold len_bytes. rewrite (be_bytes_split 1 7).
  replace (N.shiftr (N.of_nat n) (8 * N.of_nat 7)) with 0%N; [by eexists|].
  rewrite N.shiftr_div_pow2. symmetry. apply N.div_small. done.
Qed.

(** ** Prefix codes *)

Definition prefix_code {A} (P : A -> Prop) (enc : A -> bytes) : Prop :=
  forall a b r r', P a -> P b -> enc a ++ r = enc b ++ r' -> a = b /\ r = r'.

Section codes.
Context {A : Type} (P : A -> Prop) (enc : A -> bytes).

(** A code of fixed length. *)
Lemma prefix_code_fixed n :
  (forall a, P a -> length (enc a) = n) ->
  (forall a b, P a -> P b -> enc a = enc b -> a = b) -> prefix_code P enc.
Proof.
  intros Hn Hi a b r r' Ha Hb E. apply app_inj_1 in E as [E ->]; [|by rewrite !Hn].
  split; [by apply Hi|done].
Qed.

Lemma prefix_code_inj a b : prefix_code P enc -> P a -> P b -> enc a = enc b -> a = b.
Proof. intros Hc Ha Hb E. apply (Hc a b [] [] Ha Hb). by rewrite E. Qed.

(** Equally many of them in a row. *)
Lemma prefix_code_join l k r r' :
  prefix_code P enc -> length l = length k -> Forall P l -> Forall P k ->
  mjoin (enc <$> l) ++ r = mjoin (enc <$> k) ++ r' -> l = k /\ r = r'.
Proof.
  intros Hc. revert k. induction l as [|a l IH]; intros [|b k] Hlen Hl Hk; try done.
  cbn. rewrite <-!(assoc_L (++)). intros E.
  apply Forall_cons in Hl as [Ha Hl], Hk as [Hb Hk].
  apply Hc in E as [-> E]; [|done..].
  apply IH in E as [-> ->]; [done|cbn in Hlen; lia|done..].
Qed.

End codes.

Lemma prefix_code_be n :
  prefix_code (fun v => v < 2 ^ (8 * N.of_nat n))%N (be_bytes n).
Proof. apply (prefix_code_fixed _ _ n); intros; [apply be_bytes_length|by apply (be_bytes_inj n)]. Qed.

Lemma fits_below n : fits n -> (N.of_nat n < 2 ^ (8 * N.of_nat 8))%N.
Proof.
  unfold fits, u64_max. change (2 ^ (8 * N.of_nat 8))%N with 18446744073709551616%N. lia.
Qed.

Lemma prefix_code_len : prefix_code fits len_bytes.
Proof.
  intros a b r r' Ha%fits_below Hb%fits_below E.
  destruct (prefix_code_be 8 _ _ _ _ Ha Hb E) as [E' ->]. split; [lia|done].
Qed.

Lemma prefix_code_digest : prefix_code (fun _ => True) digest_body.
Proof.
  apply (prefix_code_fixed _ _ SHA256_BYTES); intros; [apply digest_body_length|].
  by apply Sha256Digest_ext.
Qed.

Lemma prefix_code_text : prefix_code text_fits text_bytes.
Proof.
  intros s t r r' Hs Ht E. unfold text_bytes in E. rewrite <-!(assoc_L (++)) in E.
  apply prefix_code_len in E as [El E]; [|done..].
  apply app_inj_1 in E as [E ->]; [|by rewrite !as_bytes_length].
  split; [by apply as_bytes_inj|done].
Qed.

Lemma prefix_code_list {A} (P : A -> Prop) enc :
  prefix_code P enc -> prefix_code (list_fits P) (list_bytes enc).
Proof.
  intros Hc l k r r' [Hl Fl] [Hk Fk] E. unfold list_bytes in E. rewrite <-!(assoc_L (++)) in E.
  apply prefix_code_len in E as [El E]; [|done..]. by eapply prefix_code_join.
Qed.

(** Read one part off the front of an equation between two encodings. *)
Ltac read_part H code :=
  rewrite <-?(assoc_L (++)) in H;
  let E := fresh "E" in
  match type of H with
  | _ ++ ?r = _ ++ ?r' =>
      let C := fresh in
      assert (C := fun Ha Hb => code _ _ r r' Ha Hb H);
      destruct C as [E C]; [done..|]; clear H; rename C into H
  end.

(** ** A concrete hash for the examples *)

(** A polynomial checksum on 256 bits: a concrete [Sha256]. *)
Definition toy_checksum (l : bytes) : N :=
  foldl (fun h b => (h * 257 + Byte.to_N b + 1) mod (2 ^ 256))%N 7%N l.

Definition toy_sha : Sha256 := fun l => from_bytes (be_bytes 32 (toy_checksum l)).

Definition digest_of (s : string) : Sha256Digest := toy_sha (as_bytes s).
