(* ===== verification/Identity.v ===== *)
(** * Validated identities

    [src/crates/alloyport-core/src/identity.rs]: the [validated_id!]
    macro.  Its nine instances share one definition, indexed by the kind
    of the identity so that two kinds are never confused. *)

From Stdlib Require Import ProofIrrelevance.
From stdpp Require Import base strings countable.
From S2P Require Import Prelude.

(** The instances of [validated_id!]. *)
Inductive IdKind :=
| KAttempt | KAssignment | KTask | KCandidate | KSearchRun
| KEpisode | KTurn | KModelAttempt | KToolOperation.

#[export] Instance IdKind_eq_dec : EqDecision IdKind.
Proof. solve_decision. Defined.

(** [pub struct $name(String)]: the text was checked on construction. *)
Record ValidatedId (k : IdKind) := MkId {
  as_str : string;
  as_str_ok : trim_is_empty as_str = false;
}.
Arguments MkId {k} as_str as_str_ok.
Arguments as_str {k} v.
Arguments as_str_ok {k} v.

Definition AttemptId := ValidatedId KAttempt.
Definition AssignmentId := ValidatedId KAssignment.
Definition TaskId := ValidatedId KTask.
Definition CandidateId := ValidatedId KCandidate.
Definition SearchRunId := ValidatedId KSearchRun.
Definition EpisodeId := ValidatedId KEpisode.
Definition TurnId := ValidatedId KTurn.
Definition ModelAttemptId := ValidatedId KModelAttempt.
Definition ToolOperationId := ValidatedId KToolOperation.

(** The error of a kind: [struct $error;]. *)
Inductive IdError (k : IdKind) := EmptyId.
Arguments EmptyId {k}.

Definition parse_id_aux (k : IdKind) (value : string) (b : bool) :
  trim_is_empty value = b -> result (IdError k) (ValidatedId k) :=
  match b with
  | true => fun _ => Err EmptyId
  | false => fun H => Ok (MkId value H)
  end.

(** [TryFrom<String> for $name]. *)
Definition parse_id (k : IdKind) (value : string) : result (IdError k) (ValidatedId k) :=
  parse_id_aux k value (trim_is_empty value) eq_refl.

(** ** Lemmas *)

#[export] Instance as_str_inj k : Inj (=) (=) (@as_str k).
Proof. intros [a Ha] [b Hb]; cbn. intros ->. f_equal. apply proof_irrelevance. Qed.

#[export] Instance ValidatedId_eq_dec k : EqDecision (ValidatedId k).
Proof.
  intros a b. destruct (decide (as_str a = as_str b)) as [H|H].
  - left. by apply (inj as_str).
  - right. by intros ->.
Defined.

Lemma parse_id_aux_spec k value b (H : trim_is_empty value = b) :
  match parse_id_aux k value b H with
  | Ok id => as_str id = value /\ b = false
  | Err _ => b = true
  end.
Proof. by destruct b. Qed.

Lemma parse_id_Ok k value id :
  parse_id k value = Ok id <-> as_str id = value.
Proof.
  unfold parse_id.
  pose proof (parse_id_aux_spec k value _ eq_refl) as Hs.
  destruct (parse_id_aux _ _ _ _) as [id'|e].
  - split; [intros [= <-]; tauto|]. intros E. f_equal. apply (inj as_str). naive_solver.
  - split; [done|]. intros <-. by rewrite as_str_ok in Hs.
Qed.

Lemma parse_id_Err k value e :
  parse_id k value = Err e <-> trim_is_empty value = true.
Proof.
  unfold parse_id.
  pose proof (parse_id_aux_spec k value _ eq_refl) as Hs.
  destruct (parse_id_aux _ _ _ _) as [id'|[]], e; [|done].
  split; [done|]. intros ?. naive_solver congruence.
Qed.

Lemma parse_id_as_str {k} (id : ValidatedId k) : parse_id k (as_str id) = Ok id.
Proof. by apply parse_id_Ok. Qed.

Lemma parse_id_total k value :
  trim_is_empty value = false -> exists id, parse_id k value = Ok id /\ as_str id = value.
Proof.
  intros H. destruct (parse_id k value) as [id|e] eqn:E.
  - exists id. split; [done|]. by apply parse_id_Ok.
  - apply parse_id_Err in E. congruence.
Qed.

#[export] Instance ValidatedId_countable k : Countable (ValidatedId k).
Proof.
  apply (inj_countable as_str
    (fun s => match parse_id k s with Ok id => Some id | Err _ => None end)).
  intros id. by rewrite parse_id_as_str.
Defined.

(** A text that starts with a visible ASCII byte is an identity. *)
Lemma trim_is_empty_cons a s :
  white1 a = false -> (code a <? 128)%N = true -> trim_is_empty (String a s) = false.
Proof.
  intros Hw Hc%N.ltb_lt. cbn. rewrite Hw.
  destruct s as [|b s]; [done|].
  assert (white2 a b = false) as ->.
  { unfold white2. destruct (code a =? 0xC2)%N eqn:E; [apply N.eqb_eq in E; lia|done]. }
  destruct s as [|c s]; [done|].
  unfold white3.
  assert (forall n, (128 <= n)%N -> (code a =? n)%N = false) as Hne
    by (intros n ?; apply N.eqb_neq; lia).
  by rewrite !Hne by lia.
Qed.
