(* ===== verification/Migration.v ===== *)
(** * The migration contract

    [src/crates/alloyport-core/src/migration.rs]: the paths inside a
    source bundle, the parts of a [MigrationSpec] with their checks, and
    the identity that tasks, candidates and inspections are bound to.
    [serde] is left out: a document is its decoded fields. *)

From Stdlib Require Import Ascii NArith Lia ProofIrrelevance.
From stdpp Require Import base strings gmap list sorting.
From S2P Require Import Prelude Text Digest Encoding Identity.

Definition MIGRATION_SPEC_SCHEMA_V1 : N := 1.

(** [enum MigrationSpecError]. *)
Inductive MigrationSpecError :=
| UnsupportedSchemaVersion (version : N)
| InvalidBundlePath (path : string)
| MissingDeviceSource
| MissingHostSource
| MissingBuildFile
| MissingPublicSymbol
| MissingPublicContract
| MissingBuildTarget
| InvalidReferenceCommand
| MissingTargetFact (fact : string)
| MissingSourceRevision
| MissingSupportedDomain
| InvalidUnsupportedConstruct
| MissingFallback.

(** ** Paths *)

Definition slash : ascii := "/"%char.
Definition backslash : ascii := "\"%char.

(** A component no portable path has. *)
Definition special_component (c : string) : bool :=
  bool_decide (c = EmptyString) || bool_decide (c = ".") || bool_decide (c = "..").

(** The condition of [BundlePath::try_from]. *)
Definition path_invalid (value : string) : bool :=
  trim_is_empty value || starts_with "/" value
  || contains (String "000"%char EmptyString) value || contains (String backslash EmptyString) value
  || (negb (bool_decide (value = ".")) && existsb special_component (split_at slash value)).

(** [struct BundlePath(String)]: the text was checked on construction. *)
Record BundlePath := MkPath {
  bp_str : string;
  bp_ok : path_invalid bp_str = false;
}.

Definition path_try_from_aux (value : string) (b : bool) :
  path_invalid value = b -> result MigrationSpecError BundlePath :=
  match b with
  | true => fun _ => Err (InvalidBundlePath value)
  | false => fun H => Ok (MkPath value H)
  end.

(** [TryFrom<String> for BundlePath]. *)
Definition path_try_from (value : string) : result MigrationSpecError BundlePath :=
  path_try_from_aux value (path_invalid value) eq_refl.

#[export] Instance bp_str_inj : Inj (=) (=) bp_str.
Proof. intros [a Ha] [b Hb]; cbn. intros ->. f_equal. apply proof_irrelevance. Qed.

#[export] Instance BundlePath_eq_dec : EqDecision BundlePath.
Proof.
  intros a b. destruct (decide (bp_str a = bp_str b)) as [H|H].
  - left. by apply (inj bp_str).
  - right. by intros ->.
Defined.

#[export] Instance BundlePath_countable : Countable BundlePath.
Proof.
  refine (inj_countable bp_str (fun s =>
    match decide (path_invalid s = false) with
    | left H => Some (MkPath s H)
    | right _ => None
    end) _).
  intros [s H]. cbn. case_match; [|done]. do 2 f_equal. apply proof_irrelevance.
Defined.

(** A [BTreeSet<BundlePath>] in the order it is visited. *)
Definition set_paths (paths : gset BundlePath) : list BundlePath :=
  sort_by_key bp_str (elements paths).

(** ** The parts of a contract *)

(** [required_text]. *)
Definition required_text (value : string) (error : MigrationSpecError)
    : result MigrationSpecError string :=
  _ ← guard_err (trim_is_empty value) error; Ok value.

(** [struct CudaSourceSet]. *)
Record CudaSourceSet := MkSourceSet {
  device_sources : gset BundlePath;
  host_sources : gset BundlePath;
  build_files : gset BundlePath;
}.

(** [CudaSourceSet::new]. *)
Definition source_set_new (device host build : list BundlePath)
    : result MigrationSpecError CudaSourceSet :=
  let sources := MkSourceSet (list_to_set device) (list_to_set host) (list_to_set build) in
  _ ← guard_err (bool_decide (device_sources sources = ∅)) MissingDeviceSource;
  _ ← guard_err (bool_decide (host_sources sources = ∅)) MissingHostSource;
  _ ← guard_err (bool_decide (build_files sources = ∅)) MissingBuildFile;
  Ok sources.

(** [struct PublicEntryPoint]. *)
Record PublicEntryPoint := MkEntry {
  pe_symbol : string;
  pe_contract : string;
  pe_build_target : string;
}.

(** [PublicEntryPoint::new]. *)
Definition entry_new (symbol contract build_target : string)
    : result MigrationSpecError PublicEntryPoint :=
  symbol ← required_text symbol MissingPublicSymbol;
  contract ← required_text contract MissingPublicContract;
  build_target ← required_text build_target MissingBuildTarget;
  Ok (MkEntry symbol contract build_target).

(** [struct ReferenceWorkload]. *)
Record ReferenceWorkload := MkWorkload {
  rw_working_directory : BundlePath;
  rw_argv : list string;
  rw_library_target : string;
}.

(** [ReferenceWorkload::new]. *)
Definition workload_new (working_directory : BundlePath) (argv : list string)
    (library_target : string) : result MigrationSpecError ReferenceWorkload :=
  _ ← guard_err (bool_decide (argv = []) || existsb trim_is_empty argv
                 || trim_is_empty library_target) InvalidReferenceCommand;
  Ok (MkWorkload working_directory argv library_target).

(** [struct AscendTarget]. *)
Record AscendTarget := MkTarget {
  at_soc : string;
  at_cann : string;
  at_compiler : string;
  at_driver : string;
  at_runtime : string;
}.

(** [AscendTarget::new]. *)
Definition target_new (soc cann compiler driver runtime : string)
    : result MigrationSpecError AscendTarget :=
  soc ← required_text soc (MissingTargetFact "soc");
  cann ← required_text cann (MissingTargetFact "cann");
  compiler ← required_text compiler (MissingTargetFact "compiler");
  driver ← required_text driver (MissingTargetFact "driver");
  runtime ← required_text runtime (MissingTargetFact "runtime");
  Ok (MkTarget soc cann compiler driver runtime).

(** ** The contract *)

(** [struct MigrationSpec]. *)
Record MigrationSpec := MkSpec {
  ms_schema_version : N;
  ms_source_revision : string;
  ms_sources : CudaSourceSet;
  ms_public_entry : PublicEntryPoint;
  ms_reference : ReferenceWorkload;
  ms_target : AscendTarget;
  ms_supported_domain : string;
  ms_unsupported_constructs : list string;
  ms_fallback : string;
}.

(** [MigrationSpec::new_v1]. *)
Definition spec_new_v1 (source_revision : string) (sources : CudaSourceSet)
    (public_entry : PublicEntryPoint) (reference : ReferenceWorkload) (target : AscendTarget)
    (supported_domain : string) (unsupported_constructs : list string) (fallback : string)
    : result MigrationSpecError MigrationSpec :=
  source_revision ← required_text source_revision MissingSourceRevision;
  supported_domain ← required_text supported_domain MissingSupportedDomain;
  fallback ← required_text fallback MissingFallback;
  _ ← guard_err (existsb trim_is_empty unsupported_constructs) InvalidUnsupportedConstruct;
  Ok (MkSpec MIGRATION_SPEC_SCHEMA_V1 source_revision sources public_entry reference target
        supported_domain unsupported_constructs fallback).

(** [TryFrom<MigrationSpecDocument> for MigrationSpec]; the document has
    the fields of the contract. *)
Definition spec_try_from (document : MigrationSpec) : result MigrationSpecError MigrationSpec :=
  _ ← guard_err (negb (ms_schema_version document =? MIGRATION_SPEC_SCHEMA_V1)%N)
        (UnsupportedSchemaVersion (ms_schema_version document));
  spec_new_v1 (ms_source_revision document) (ms_sources document) (ms_public_entry document)
    (ms_reference document) (ms_target document) (ms_supported_domain document)
    (ms_unsupported_constructs document) (ms_fallback document).

(** [hash_text], [hash_strings] and [hash_paths] feed these bytes to the
    hash. *)
Definition hash_text (value : string) : bytes := text_bytes value.
Definition hash_strings (values : list string) : bytes := list_bytes hash_text values.
Definition hash_paths (paths : gset BundlePath) : bytes :=
  list_bytes (fun path => hash_text (bp_str path)) (set_paths paths).

(** What [MigrationSpec::digest] hashes. *)
Definition spec_bytes (self : MigrationSpec) : bytes :=
  as_bytes "alloyport-migration-spec-v1" ++ [Byte.x00]
  ++ be_bytes 2 (ms_schema_version self)
  ++ hash_text (ms_source_revision self)
  ++ hash_paths (device_sources (ms_sources self))
  ++ hash_paths (host_sources (ms_sources self))
  ++ hash_paths (build_files (ms_sources self))
  ++ hash_text (pe_symbol (ms_public_entry self))
  ++ hash_text (pe_contract (ms_public_entry self))
  ++ hash_text (bp_str (rw_working_directory (ms_reference self)))
  ++ hash_strings (rw_argv (ms_reference self))
  ++ hash_text (at_soc (ms_target self))
  ++ hash_text (at_cann (ms_target self))
  ++ hash_text (at_compiler (ms_target self))
  ++ hash_text (at_driver (ms_target self))
  ++ hash_text (at_runtime (ms_target self))
  ++ hash_text (ms_supported_domain self)
  ++ hash_strings (ms_unsupported_constructs self)
  ++ hash_text (ms_fallback self).

(** [MigrationSpec::digest]. *)
Definition spec_digest `{Sha256} (self : MigrationSpec) : Sha256Digest :=
  digest_bytes (spec_bytes self).

(** ** Paths stay inside the bundle

    What the file system makes of a path below a directory: the names of
    the directories entered, innermost first; [None] when the path leaves
    the directory it started in. *)

Fixpoint walk (inside : list string) (components : list string) : option (list string) :=
  match components with
  | [] => Some inside
  | c :: components =>
      if decide (c = EmptyString) then walk inside components
      else if decide (c = ".") then walk inside components
      else if decide (c = "..") then
        match inside with [] => None | _ :: inside => walk inside components end
      else walk (c :: inside) components
  end.

Definition plain_component (c : string) : Prop := special_component c = false.

Lemma plain_component_spec c :
  plain_component c <-> c <> EmptyString /\ c <> "." /\ c <> "..".
Proof.
  unfold plain_component, special_component. rewrite !orb_false_iff, !bool_decide_eq_false. tauto.
Qed.

Lemma walk_plain inside cs : Forall plain_component cs -> walk inside cs = Some (rev cs ++ inside).
Proof.
  intros H. revert inside. induction H as [|c cs Hc _ IH]; intros inside; [done|].
  apply plain_component_spec in Hc as (H1 & H2 & H3). cbn.
  rewrite !decide_False by done. rewrite IH. by rewrite <-(assoc_L (++)).
Qed.

Lemma existsb_false_Forall {A} (f : A -> bool) l :
  existsb f l = false <-> Forall (fun x => f x = false) l.
Proof.
  induction l as [|x l IH]; cbn; [split; [constructor|done]|].
  rewrite orb_false_iff, IH, Forall_cons. done.
Qed.

Lemma path_valid_walk p :
  path_invalid p = false -> exists inside, walk [] (split_at slash p) = Some inside
    /\ (p <> "." -> inside = rev (split_at slash p)).
Proof.
  unfold path_invalid. rewrite !orb_false_iff. intros [_ H].
  destruct (decide (p = ".")) as [->|Hp]; [by exists []|].
  rewrite bool_decide_false in H by done. cbn in H.
  apply existsb_false_Forall in H. rewrite (walk_plain _ _ H), app_nil_r. eauto.
Qed.

Lemma path_try_from_Ok value p : path_try_from value = Ok p <-> bp_str p = value.
Proof.
  unfold path_try_from.
  assert (forall b (H : path_invalid value = b), match path_try_from_aux value b H with
    | Ok q => bp_str q = value | Err _ => b = true end) as Hs by (by intros [] H).
  specialize (Hs _ eq_refl). destruct (path_try_from_aux _ _ _) as [q|e].
  - split; [congruence|]. intros <-. f_equal. by apply (inj bp_str).
  - split; [done|]. intros <-. by rewrite bp_ok in Hs.
Qed.

Lemma path_try_from_Err value e :
  path_try_from value = Err e <-> path_invalid value = true /\ e = InvalidBundlePath value.
Proof.
  unfold path_try_from. generalize (eq_refl (path_invalid value)).
  generalize (path_invalid value) at 2 3 4. intros [] E; cbn; naive_solver.
Qed.

(** ** The checks of the parts *)

Definition visible (s : string) : Prop := trim_is_empty s = false.

Lemma required_text_Ok v e s : required_text v e = Ok s <-> s = v /\ visible v.
Proof. unfold required_text. rewrite guard_bind_Ok. unfold visible. naive_solver. Qed.

Lemma source_set_new_Ok device host build s :
  source_set_new device host build = Ok s <->
  s = MkSourceSet (list_to_set device) (list_to_set host) (list_to_set build)
  /\ device <> [] /\ host <> [] /\ build <> [].
Proof.
  assert (forall l : list BundlePath, bool_decide (list_to_set l =@{gset BundlePath} ∅) = false <-> l <> []) as He.
  { intros [|x l]; rewrite bool_decide_eq_false; [set_solver|].
    split; [done|]. intros _ E. assert (x ∈ (∅ : gset BundlePath)); [rewrite <-E; set_solver|set_solver]. }
  unfold source_set_new. cbn. rewrite !guard_bind_Ok, !He. naive_solver.
Qed.

(** A contract accepts its own document, and a document is accepted as it
    is or not at all. *)
Definition spec_well_formed (d : MigrationSpec) : Prop :=
  ms_schema_version d = MIGRATION_SPEC_SCHEMA_V1
  /\ visible (ms_source_revision d) /\ visible (ms_supported_domain d)
  /\ visible (ms_fallback d) /\ Forall visible (ms_unsupported_constructs d).

Lemma required_text_bind {A} v e (k : string -> result MigrationSpecError A) a :
  (s ← required_text v e; k s) = Ok a <-> visible v /\ k v = Ok a.
Proof. unfold required_text, visible. destruct (trim_is_empty v); cbn; naive_solver. Qed.

Lemma spec_try_from_Ok d s : spec_try_from d = Ok s <-> s = d /\ spec_well_formed d.
Proof.
  unfold spec_try_from, spec_new_v1, spec_well_formed.
  rewrite guard_bind_Ok, !required_text_bind, guard_bind_Ok, existsb_false_Forall,
    negb_false_iff, N.eqb_eq.
  destruct d; cbn. split.
  - intros (-> & ? & ? & ? & ? & [= <-]). done.
  - intros (-> & -> & ? & ? & ? & ?). done.
Qed.

(** ** What the identity binds *)

Definition path_fits (p : BundlePath) : Prop := text_fits (bp_str p).
Definition paths_fit (paths : gset BundlePath) : Prop := list_fits path_fits (set_paths paths).

#[export] Instance path_fits_dec p : Decision (path_fits p).
Proof. apply _. Defined.

(** Every text and list of a contract has a length below 2^64. *)
Definition spec_fits (s : MigrationSpec) : Prop :=
  (ms_schema_version s <= u16_max)%N
  /\ Forall paths_fit [device_sources (ms_sources s); host_sources (ms_sources s);
                       build_files (ms_sources s)]
  /\ Forall (list_fits text_fits) [rw_argv (ms_reference s); ms_unsupported_constructs s]
  /\ path_fits (rw_working_directory (ms_reference s))
  /\ Forall text_fits
       [ms_source_revision s; pe_symbol (ms_public_entry s); pe_contract (ms_public_entry s);
        at_soc (ms_target s); at_cann (ms_target s); at_compiler (ms_target s);
        at_driver (ms_target s); at_runtime (ms_target s); ms_supported_domain s; ms_fallback s].

#[export] Instance spec_fits_dec s : Decision (spec_fits s).
Proof. apply _. Defined.

(** The contract with other build targets. *)
Definition with_targets (build_target library_target : string) (s : MigrationSpec)
    : MigrationSpec :=
  MkSpec (ms_schema_version s) (ms_source_revision s) (ms_sources s)
    (MkEntry (pe_symbol (ms_public_entry s)) (pe_contract (ms_public_entry s)) build_target)
    (MkWorkload (rw_working_directory (ms_reference s)) (rw_argv (ms_reference s)) library_target)
    (ms_target s) (ms_supported_domain s) (ms_unsupported_constructs s) (ms_fallback s).

Lemma set_paths_inj X Y : set_paths X = set_paths Y -> X = Y.
Proof.
  intros E. apply set_eq. intros p. rewrite <-!elem_of_elements.
  unfold set_paths in E. rewrite <-(sort_by_key_perm bp_str (elements X)), E.
  by rewrite (sort_by_key_perm bp_str).
Qed.

Lemma prefix_code_path : prefix_code path_fits (fun p => hash_text (bp_str p)).
Proof.
  intros a b r r' Ha Hb E.
  destruct (prefix_code_text _ _ _ _ Ha Hb E) as [Es ->]. split; [by apply (inj bp_str)|done].
Qed.

Lemma prefix_code_paths : prefix_code paths_fit hash_paths.
Proof.
  intros X Y r r' HX HY E.
  destruct (prefix_code_list _ _ prefix_code_path _ _ _ _ HX HY E) as [Es ->].
  split; [by apply set_paths_inj|done].
Qed.

Lemma prefix_code_strings : prefix_code (list_fits text_fits) hash_strings.
Proof. apply prefix_code_list, prefix_code_text. Qed.

Lemma prefix_code_u16 : prefix_code (fun v => v <= u16_max)%N (be_bytes 2).
Proof.
  assert (forall v, v <= u16_max -> v < 2 ^ (8 * N.of_nat 2))%N as Hw
    by (intros v; unfold u16_max; change (2 ^ (8 * N.of_nat 2))%N with 65536%N; lia).
  intros a b r r' Ha%Hw Hb%Hw E. exact (prefix_code_be 2 _ _ _ _ Ha Hb E).
Qed.

Lemma spec_bytes_inj a b :
  spec_fits a -> spec_fits b -> spec_bytes a = spec_bytes b ->
  b = with_targets (pe_build_target (ms_public_entry b)) (rw_library_target (ms_reference b)) a.
Proof.
  intros (Va & Pa & La & Wa & Ta) (Vb & Pb & Lb & Wb & Tb) H.
  repeat match goal with
  | H : Forall _ (_ :: _) |- _ => apply Forall_cons in H as [? H]
  end.
  unfold spec_bytes in H. apply app_inv_head in H.
  apply app_inv_head in H.
  read_part H prefix_code_u16.
  read_part H prefix_code_text.
  do 3 read_part H prefix_code_paths.
  do 2 read_part H prefix_code_text.
  read_part H prefix_code_path.
  read_part H prefix_code_strings.
  do 6 read_part H prefix_code_text.
  read_part H prefix_code_strings.
  apply (prefix_code_inj _ _ _ _ prefix_code_text) in H; [|done..].
  destruct a as [va ra [? ? ?] [? ? ?] [? ? ?] [? ? ? ? ?] da ua fa].
  destruct b as [vb rb [? ? ?] [? ? ?] [? ? ?] [? ? ? ? ?] db ub fb].
  cbn in *. by subst.
Qed.

(** The identity of a contract binds everything in it except its two
    build targets: two contracts are hashed from the same bytes exactly
    when they differ at most in the candidate's build target and the
    reference's library target, and such contracts have one identity
    under every hash. *)
Theorem spec_digest_binds `{Sha256} (a b : MigrationSpec) (Ha : spec_fits a) (Hb : spec_fits b) :
  (spec_bytes a = spec_bytes b <-> exists bt lt, b = with_targets bt lt a)
  /\ (forall bt lt, spec_digest (with_targets bt lt a) = spec_digest a).
Proof.
  split; [|done]. split.
  - intros E. eexists _, _. by apply spec_bytes_inj.
  - by intros (bt & lt & ->).
Qed.

(** ** A contract *)

Definition sample_path (s : string) : BundlePath :=
  match path_try_from s with Ok p => p | Err _ => MkPath "." eq_refl end.

Definition sample_sources : CudaSourceSet :=
  MkSourceSet {[ sample_path "src/reduce.cu" ]}
    {[ sample_path "include/reduce.h"; sample_path "src/reduce_host.cu" ]}
    {[ sample_path "CMakeLists.txt" ]}.

Definition sample_spec_for (build_target : string) : result MigrationSpecError MigrationSpec :=
  entry ← entry_new "reduce_sum" "sum contiguous fp32 input" build_target;
  reference ← workload_new (sample_path ".") ["./build/reference"] "reference_library";
  target ← target_new "Ascend950PR" "9.1" "ccec" "25.7" "acl-9.1";
  spec_new_v1 "source-sha" sample_sources entry reference target "1 <= elements <= 1024" []
    "return unsupported".

Definition sample_spec : MigrationSpec :=
  MkSpec 1 "source-sha" sample_sources
    (MkEntry "reduce_sum" "sum contiguous fp32 input" "reduce_sum_candidate")
    (MkWorkload (sample_path ".") ["./build/reference"] "reference_library")
    (MkTarget "Ascend950PR" "9.1" "ccec" "25.7" "acl-9.1") "1 <= elements <= 1024" []
    "return unsupported".

Example sample_spec_accepted : sample_spec_for "reduce_sum_candidate" = Ok sample_spec.
Proof. reflexivity. Qed.

Lemma sample_spec_fits t : text_fits t -> spec_fits (with_targets t "reference_library" sample_spec).
Proof. intros _. apply (bool_decide_unpack _). vm_compute. exact I. Qed.

(** Two accepted contracts that name different build targets and share
    their identity. *)
Lemma spec_digest_binds_witness :
  sample_spec_for "other_candidate" = Ok (with_targets "other_candidate" "reference_library" sample_spec)
  /\ with_targets "other_candidate" "reference_library" sample_spec <> sample_spec
  /\ (spec_bytes sample_spec = spec_bytes (with_targets "other_candidate" "reference_library" sample_spec)
      <-> exists bt lt, with_targets "other_candidate" "reference_library" sample_spec
                        = with_targets bt lt sample_spec).
Proof.
  split; [reflexivity|]. split; [intros E; discriminate E|].
  apply (spec_digest_binds (H := fun _ => from_bytes [])).
  - exact (sample_spec_fits "reduce_sum_candidate" ltac:(done)).
  - exact (sample_spec_fits "other_candidate" ltac:(done)).
Defined.
