(* ===== verification/Inspection.v ===== *)
(** * Intake inspection

    [src/crates/alloyport-core/src/inspection.rs]: the deterministic
    reading of the declared sources that decides whether a migration may
    be handed to a candidate author.  A function that pushes onto the two
    vectors of the source returns what it pushes. *)

From Stdlib Require Import Ascii NArith Lia.
From stdpp Require Import base strings pretty gmap list sorting.
From S2P Require Import Prelude Text Digest Encoding Identity Migration.

(** ** Records *)

(** [enum InspectionEvidenceKind]; the order of the constructors is the
    derived [Ord]. *)
Inductive InspectionEvidenceKind :=
| CudaKernel | CudaIndexing | BlockSynchronization | AtomicOperation | HostLaunch
| RuntimeErrorPropagation | PublicDeclaration | PublicImplementation | CudaBuild
| BuildSourceReference.

(** [enum InspectionFailureKind]. *)
Inductive InspectionFailureKind :=
| MissingDeclaredFile | MissingCudaKernel | MissingCudaIndexing | MissingHostLaunch
| MissingRuntimeErrorPropagation | MissingPublicDeclaration | MissingPublicImplementation
| MissingCudaBuild | MissingBuildSourceReference | UnsupportedCudaConstruct.

Definition evidence_rank (k : InspectionEvidenceKind) : nat :=
  match k with
  | CudaKernel => 0 | CudaIndexing => 1 | BlockSynchronization => 2 | AtomicOperation => 3
  | HostLaunch => 4 | RuntimeErrorPropagation => 5 | PublicDeclaration => 6
  | PublicImplementation => 7 | CudaBuild => 8 | BuildSourceReference => 9
  end.

Definition failure_rank (k : InspectionFailureKind) : nat :=
  match k with
  | MissingDeclaredFile => 0 | MissingCudaKernel => 1 | MissingCudaIndexing => 2
  | MissingHostLaunch => 3 | MissingRuntimeErrorPropagation => 4
  | MissingPublicDeclaration => 5 | MissingPublicImplementation => 6 | MissingCudaBuild => 7
  | MissingBuildSourceReference => 8 | UnsupportedCudaConstruct => 9
  end.

#[export] Instance InspectionEvidenceKind_eq_dec : EqDecision InspectionEvidenceKind.
Proof. solve_decision. Defined.
#[export] Instance InspectionFailureKind_eq_dec : EqDecision InspectionFailureKind.
Proof. solve_decision. Defined.

(** [struct InspectionEvidence]. *)
Record InspectionEvidence := MkEvidence {
  ie_kind : InspectionEvidenceKind;
  ie_path : BundlePath;
  ie_line : nat;
  ie_detail : string;
}.

(** [struct InspectionFailure]. *)
Record InspectionFailure := MkInspectionFailure {
  if_kind : InspectionFailureKind;
  if_path : option BundlePath;
  if_line : option nat;
  if_detail : string;
}.

#[export] Instance InspectionEvidence_eq_dec : EqDecision InspectionEvidence.
Proof. solve_decision. Defined.
#[export] Instance InspectionFailure_eq_dec : EqDecision InspectionFailure.
Proof. solve_decision. Defined.

(** [struct MigrationInspection]. *)
Record MigrationInspection := MkInspection {
  mi_passed : bool;
  mi_migration_spec_digest : Sha256Digest;
  mi_declared_source_digest : Sha256Digest;
  mi_inspected_files : nat;
  mi_evidence : list InspectionEvidence;
  mi_failures : list InspectionFailure;
}.

#[export] Instance MigrationInspection_eq_dec : EqDecision MigrationInspection.
Proof. solve_decision. Defined.

(** The comparisons [evidence] and [failures] are sorted by. *)
Definition evidence_compare (a b : InspectionEvidence) : comparison :=
  then_compare (Nat.compare (evidence_rank (ie_kind a)) (evidence_rank (ie_kind b)))
    (then_compare (String.compare (bp_str (ie_path a)) (bp_str (ie_path b)))
       (Nat.compare (ie_line a) (ie_line b))).

Definition failure_compare (a b : InspectionFailure) : comparison :=
  then_compare (Nat.compare (failure_rank (if_kind a)) (failure_rank (if_kind b)))
    (then_compare
       (option_compare (fun p q => String.compare (bp_str p) (bp_str q)) (if_path a) (if_path b))
       (option_compare Nat.compare (if_line a) (if_line b))).

(** What a check pushes. *)
Definition Findings : Type := list InspectionEvidence * list InspectionFailure.

Definition found_nothing : Findings := ([], []).

Definition both (a b : Findings) : Findings := (a.1 ++ b.1, a.2 ++ b.2).

(** ** Looking for text *)

(** A [BTreeMap<BundlePath, String>] and the files of it that are
    declared. *)
Abbreviation Files := (gmap BundlePath string).

Definition existing_files (paths : gset BundlePath) (files : Files)
    : list (BundlePath * string) :=
  omap (fun path => pair path <$> files !! path) (set_paths paths).

(** [struct PatternMatch]. *)
Record PatternMatch := MkMatch { pm_path : BundlePath; pm_line : nat; pm_pattern : string }.

(** [line_number]. *)
Definition line_number (contents pattern : string) : nat :=
  match find_text pattern contents with
  | Some offset => count_byte line_feed (take_text offset contents) + 1
  | None => 1
  end.

Definition match_in (path : BundlePath) (contents pattern : string) : option PatternMatch :=
  if contains pattern contents
  then Some (MkMatch path (line_number contents pattern) pattern) else None.

(** [find_first]. *)
Definition find_first (files : list (BundlePath * string)) (patterns : list string)
    : option PatternMatch :=
  find_map (fun f => find_map (match_in f.1 f.2) patterns) files.

(** [find_all]. *)
Definition find_all (files : list (BundlePath * string)) (pattern : string)
    : list PatternMatch :=
  (fun f => MkMatch f.1 (line_number f.2 pattern) pattern)
    <$> List.filter (fun f => contains pattern f.2) files.

Definition quoted (s : string) : string := "`" +:+ s +:+ "`".

Definition found_evidence (kind : InspectionEvidenceKind) (found : PatternMatch)
    : InspectionEvidence :=
  MkEvidence kind (pm_path found) (pm_line found) ("found " +:+ quoted (pm_pattern found)).

(** [require_pattern]. *)
Definition require_pattern (files : list (BundlePath * string)) (patterns : list string)
    (evidence_kind : InspectionEvidenceKind) (failure_kind : InspectionFailureKind)
    (failure_detail : string) : Findings :=
  match find_first files patterns with
  | Some found => ([found_evidence evidence_kind found], [])
  | None => ([], [MkInspectionFailure failure_kind None None failure_detail])
  end.

(** [optional_pattern]. *)
Definition optional_pattern (files : list (BundlePath * string)) (patterns : list string)
    (evidence_kind : InspectionEvidenceKind) : Findings :=
  match find_first files patterns with
  | Some found => ([found_evidence evidence_kind found], [])
  | None => found_nothing
  end.

(** [is_compilation_unit] and [is_header]. *)
Definition is_compilation_unit (path : string) : bool :=
  existsb (fun extension => ends_with extension path) [".cu"; ".c"; ".cc"; ".cpp"; ".cxx"].

Definition is_header (path : string) : bool :=
  existsb (fun extension => ends_with extension path) [".h"; ".hh"; ".hpp"; ".cuh"].

(** [path.rsplit('/').next()]. *)
Definition file_name (path : string) : string := after_last slash path.

(** ** The checks *)

(** The search for the implementation in [inspect_public_entry]. *)
Definition implementation_of (symbol : string) (host_files : list (BundlePath * string))
    : option PatternMatch :=
  find_map (fun f =>
    if is_header (bp_str f.1) then None
    else if contains symbol f.2 && contains "<<<" f.2
    then Some (MkMatch f.1 (line_number f.2 symbol) symbol) else None) host_files.

(** [inspect_public_entry]. *)
Definition inspect_public_entry (spec : MigrationSpec) (host_files : list (BundlePath * string))
    : Findings :=
  let symbol := pe_symbol (ms_public_entry spec) in
  let header_files := List.filter (fun f => is_header (bp_str f.1)) host_files in
  match head (find_all header_files symbol) with
  | None =>
      ([], [MkInspectionFailure MissingPublicDeclaration None None
              ("public symbol " +:+ quoted symbol +:+ " is absent from host sources")])
  | Some found =>
      both ([MkEvidence PublicDeclaration (pm_path found) (pm_line found)
               ("public symbol " +:+ quoted symbol +:+ " is declared")], [])
        match implementation_of symbol host_files with
        | Some found =>
            ([MkEvidence PublicImplementation (pm_path found) (pm_line found)
                ("public symbol " +:+ quoted symbol +:+ " owns the CUDA launch path")], [])
        | None =>
            ([], [MkInspectionFailure MissingPublicImplementation None None
                    ("public symbol " +:+ quoted symbol +:+ " is not connected to a CUDA launch")])
        end
  end.

(** One compilation unit in the loop of [inspect_build]. *)
Definition inspect_unit (build_files : list (BundlePath * string)) (path : BundlePath)
    : Findings :=
  match find_first build_files [file_name (bp_str path)] with
  | Some found =>
      ([MkEvidence BuildSourceReference (pm_path found) (pm_line found)
          ("build references " +:+ quoted (bp_str path))], [])
  | None =>
      ([], [MkInspectionFailure MissingBuildSourceReference (Some path) None
              ("no build file references compilation unit " +:+ quoted (bp_str path))])
  end.

Definition all_findings {A} (f : A -> Findings) (l : list A) : Findings :=
  foldr (fun x => both (f x)) found_nothing l.

(** [inspect_build]. *)
Definition inspect_build (spec : MigrationSpec) (build_files : list (BundlePath * string))
    : Findings :=
  both
    (require_pattern build_files
       ["LANGUAGES CXX CUDA"; "LANGUAGES CUDA"; "enable_language(CUDA)"]
       CudaBuild MissingCudaBuild "build files do not enable the CUDA language")
    (all_findings (inspect_unit build_files)
       (List.filter (fun path => is_compilation_unit (bp_str path))
          (set_paths (device_sources (ms_sources spec))
           ++ set_paths (host_sources (ms_sources spec))))).

(** The table of [inspect_unsupported_constructs]. *)
Definition UNSUPPORTED : list (string * string) :=
  [("cooperative_groups", "cooperative groups");
   ("cudaGraph", "CUDA Graphs");
   ("asm(", "inline PTX or assembly");
   ("asm volatile", "inline PTX or assembly");
   ("texture<", "CUDA texture references");
   ("surface<", "CUDA surface references");
   ("nvrtc", "runtime compilation");
   ("cudaStreamCreate", "owned non-default streams");
   ("cudaEventCreate", "CUDA events");
   ("cudaLaunchCooperativeKernel", "cooperative launch")].

(** [inspect_unsupported_constructs]. *)
Definition inspect_unsupported_constructs (device_files host_files : list (BundlePath * string))
    : Findings :=
  all_findings (fun entry : string * string =>
    ([], (fun found => MkInspectionFailure UnsupportedCudaConstruct (Some (pm_path found))
            (Some (pm_line found))
            ("Phase-1 intake contains unsupported " +:+ entry.2 +:+ ": " +:+ quoted entry.1))
         <$> find_all (device_files ++ host_files) entry.1)) UNSUPPORTED.

(** [declared_paths]. *)
Definition declared_paths (spec : MigrationSpec) : gset BundlePath :=
  device_sources (ms_sources spec) ∪ host_sources (ms_sources spec)
  ∪ build_files (ms_sources spec).

(** The first loop of [inspect_migration_source]. *)
Definition inspect_declared (declared : gset BundlePath) (files : Files) : Findings :=
  all_findings (fun path =>
    match files !! path with
    | Some _ => found_nothing
    | None => ([], [MkInspectionFailure MissingDeclaredFile (Some path) None
                      "file declared by MigrationSpec is absent from the bundle"])
    end) (set_paths declared).

(** What [digest_declared_sources] hashes. *)
Definition declared_file_bytes (file : BundlePath * option string) : bytes :=
  text_bytes (bp_str file.1)
  ++ match file.2 with
     | Some contents => Byte.x01 :: text_bytes contents
     | None => [Byte.x00]
     end.

Definition declared_bytes (declared : gset BundlePath) (files : Files) : bytes :=
  as_bytes "alloyport-declared-source-v1" ++ [Byte.x00]
  ++ list_bytes declared_file_bytes ((fun path => (path, files !! path)) <$> set_paths declared).

(** [digest_declared_sources]. *)
Definition digest_declared_sources `{Sha256} (declared : gset BundlePath) (files : Files)
    : Sha256Digest := digest_bytes (declared_bytes declared files).

(** All the checks, in the order of [inspect_migration_source]. *)
Definition inspect_all (spec : MigrationSpec) (files : Files) : Findings :=
  let device := existing_files (device_sources (ms_sources spec)) files in
  let host := existing_files (host_sources (ms_sources spec)) files in
  let build := existing_files (build_files (ms_sources spec)) files in
  foldr both found_nothing
    [inspect_declared (declared_paths spec) files;
     require_pattern device ["__global__"; "__device__"] CudaKernel MissingCudaKernel
       "CUDA device source declares no __global__ or __device__ function";
     require_pattern device ["threadIdx"; "blockIdx"; "blockDim"; "gridDim"]
       CudaIndexing MissingCudaIndexing
       "CUDA device source exposes no thread or block indexing semantics";
     optional_pattern device ["__syncthreads"; "__syncwarp"] BlockSynchronization;
     optional_pattern device ["atomicAdd"; "atomicMax"; "atomicMin"; "atomicCAS"] AtomicOperation;
     require_pattern host ["<<<"] HostLaunch MissingHostLaunch
       "host source does not launch a CUDA kernel";
     require_pattern host
       ["cudaGetLastError"; "cudaPeekAtLastError"; "cudaDeviceSynchronize";
        "cudaStreamSynchronize"]
       RuntimeErrorPropagation MissingRuntimeErrorPropagation
       "host launch path does not observe CUDA launch or synchronization errors";
     inspect_public_entry spec host;
     inspect_build spec build;
     inspect_unsupported_constructs device host].

(** [inspect_migration_source]. *)
Definition inspect_migration_source `{Sha256} (spec : MigrationSpec) (files : Files)
    : MigrationInspection :=
  let findings := inspect_all spec files in
  let evidence := sort_by evidence_compare findings.1 in
  let failures := sort_by failure_compare findings.2 in
  MkInspection (bool_decide (failures = [])) (spec_digest spec)
    (digest_declared_sources (declared_paths spec) files)
    (length (List.filter (fun path => bool_decide (is_Some (files !! path)))
               (set_paths (declared_paths spec))))
    evidence failures.

(** ** When an intake passes

    The reference definition, on the declared files as sets. *)

Definition some_file (paths : gset BundlePath) (files : Files)
    (P : BundlePath -> string -> Prop) : Prop :=
  exists p c, p ∈ paths /\ files !! p = Some c /\ P p c.

Definition mentions_one (patterns : list string) (_ : BundlePath) (c : string) : Prop :=
  exists q, q ∈ patterns /\ contains q c = true.

Record intake_ready (spec : MigrationSpec) (files : Files) : Prop := {
  ir_declared p : p ∈ declared_paths spec -> is_Some (files !! p);
  ir_kernel : some_file (device_sources (ms_sources spec)) files
    (mentions_one ["__global__"; "__device__"]);
  ir_indexing : some_file (device_sources (ms_sources spec)) files
    (mentions_one ["threadIdx"; "blockIdx"; "blockDim"; "gridDim"]);
  ir_launch : some_file (host_sources (ms_sources spec)) files (mentions_one ["<<<"]);
  ir_errors : some_file (host_sources (ms_sources spec)) files
    (mentions_one ["cudaGetLastError"; "cudaPeekAtLastError"; "cudaDeviceSynchronize";
                   "cudaStreamSynchronize"]);
  ir_declaration : some_file (host_sources (ms_sources spec)) files
    (fun p c => is_header (bp_str p) = true /\ contains (pe_symbol (ms_public_entry spec)) c = true);
  ir_implementation : some_file (host_sources (ms_sources spec)) files
    (fun p c => is_header (bp_str p) = false /\ contains (pe_symbol (ms_public_entry spec)) c = true
                /\ contains "<<<" c = true);
  ir_cuda : some_file (build_files (ms_sources spec)) files
    (mentions_one ["LANGUAGES CXX CUDA"; "LANGUAGES CUDA"; "enable_language(CUDA)"]);
  ir_units p : p ∈ device_sources (ms_sources spec) ∪ host_sources (ms_sources spec) ->
    is_compilation_unit (bp_str p) = true ->
    some_file (build_files (ms_sources spec)) files (mentions_one [file_name (bp_str p)]);
  ir_supported p c construct : p ∈ device_sources (ms_sources spec) ∪ host_sources (ms_sources spec) ->
    files !! p = Some c -> construct ∈ UNSUPPORTED -> contains construct.1 c = false;
}.

Lemma elem_of_set_paths p X : p ∈ set_paths X <-> p ∈ X.
Proof. unfold set_paths. by rewrite sort_by_key_perm, elem_of_elements. Qed.

Lemma elem_of_existing paths files p c :
  (p, c) ∈ existing_files paths files <-> p ∈ paths /\ files !! p = Some c.
Proof.
  unfold existing_files. rewrite list_elem_of_omap. setoid_rewrite elem_of_set_paths. split.
  - intros (q & Hq & E). destruct (files !! q) eqn:Ef; [|done]. cbn in E. naive_solver.
  - intros [Hp E]. exists p. by rewrite E.
Qed.

Lemma some_existing paths files (P : BundlePath -> string -> Prop) :
  some_file paths files P <-> exists f, f ∈ existing_files paths files /\ P f.1 f.2.
Proof.
  unfold some_file. split.
  - intros (p & c & Hp & Ec & H). exists (p, c). by rewrite elem_of_existing.
  - intros ([p c] & He & H). apply elem_of_existing in He. naive_solver.
Qed.

Lemma find_first_ready paths files patterns :
  is_Some (find_first (existing_files paths files) patterns) <->
  some_file paths files (mentions_one patterns).
Proof.
  rewrite some_existing, <-not_eq_None_Some. unfold find_first, mentions_one.
  rewrite find_map_None, Forall_forall. split.
  - intros H. destruct (decide (Exists (fun f : BundlePath * string =>
      Exists (fun q => contains q f.2 = true) patterns) (existing_files paths files))) as [He|He].
    + apply Exists_exists in He as (f & Hf & (q & Hq)%Exists_exists). naive_solver.
    + destruct H. intros f Hf. apply find_map_None, Forall_forall. intros q Hq. unfold match_in.
      destruct (contains q f.2) eqn:E; [|done]. destruct He.
      apply Exists_exists. exists f. split; [done|]. apply Exists_exists. eauto.
  - intros (f & Hf & q & Hq & E) H. specialize (H _ Hf). apply find_map_None in H.
    rewrite Forall_forall in H. specialize (H _ Hq). unfold match_in in H. by rewrite E in H.
Qed.

Lemma both_nil a b : (both a b).2 = [] <-> a.2 = [] /\ b.2 = [].
Proof. apply app_nil. Qed.

Lemma all_findings_nil {A} (f : A -> Findings) l :
  (all_findings f l).2 = [] <-> forall x, x ∈ l -> (f x).2 = [].
Proof.
  induction l as [|x l IH]; cbn.
  - split; [|done]. intros _ x H. by apply elem_of_nil in H.
  - rewrite app_nil, IH. setoid_rewrite elem_of_cons. naive_solver.
Qed.

Lemma require_pattern_nil paths files patterns k1 k2 d :
  (require_pattern (existing_files paths files) patterns k1 k2 d).2 = [] <->
  some_file paths files (mentions_one patterns).
Proof.
  rewrite <-find_first_ready. unfold require_pattern.
  destruct (find_first _ _); cbn; split; (done || by intros [? [=]]).
Qed.

Lemma optional_pattern_nil l patterns k : (optional_pattern l patterns k).2 = [].
Proof. unfold optional_pattern. by destruct (find_first _ _). Qed.

Lemma inspect_declared_nil D files :
  (inspect_declared D files).2 = [] <-> forall p, p ∈ D -> is_Some (files !! p).
Proof.
  unfold inspect_declared. rewrite all_findings_nil. setoid_rewrite elem_of_set_paths.
  split; intros H p Hp; specialize (H p Hp); destruct (files !! p); try done; try by destruct H.
Qed.

Lemma find_all_head_None l q :
  head (find_all l q) = None <-> forall f, f ∈ l -> contains q f.2 = false.
Proof.
  unfold find_all. induction l as [|f l IH]; cbn.
  - split; [|done]. intros _ f H. by apply elem_of_nil in H.
  - setoid_rewrite elem_of_cons. destruct (contains q f.2) eqn:E; cbn; [|rewrite IH]; naive_solver congruence.
Qed.

Lemma find_all_nil l q : find_all l q = [] <-> forall f, f ∈ l -> contains q f.2 = false.
Proof.
  rewrite <-find_all_head_None. destruct (find_all l q); cbn; naive_solver.
Qed.

Lemma implementation_ready spec files symbol :
  is_Some (implementation_of symbol (existing_files (host_sources (ms_sources spec)) files)) <->
  some_file (host_sources (ms_sources spec)) files
    (fun p c => is_header (bp_str p) = false /\ contains symbol c = true /\ contains "<<<" c = true).
Proof.
  rewrite some_existing. unfold implementation_of. split.
  - intros [m (f & Hf & E)%find_map_Some]. exists f. split; [done|].
    destruct (is_header _), (contains symbol _), (contains "<<<" _); done.
  - intros (f & Hf & E1 & E2 & E3). apply not_eq_None_Some. rewrite find_map_None, Forall_forall.
    intros H. specialize (H f Hf). cbn beta in H. by rewrite E1, E2, E3 in H.
Qed.

Lemma inspect_public_entry_nil spec files :
  (inspect_public_entry spec (existing_files (host_sources (ms_sources spec)) files)).2 = [] <->
  some_file (host_sources (ms_sources spec)) files
    (fun p c => is_header (bp_str p) = true /\ contains (pe_symbol (ms_public_entry spec)) c = true)
  /\ some_file (host_sources (ms_sources spec)) files
    (fun p c => is_header (bp_str p) = false /\ contains (pe_symbol (ms_public_entry spec)) c = true
                /\ contains "<<<" c = true).
Proof.
  rewrite <-implementation_ready. unfold inspect_public_entry.
  set (symbol := pe_symbol _). set (host := existing_files _ _).
  rewrite some_existing. fold host.
  destruct (head (find_all _ symbol)) as [m|] eqn:Eh; cbn.
  - assert (exists f, f ∈ host /\ is_header (bp_str f.1) = true /\ contains symbol f.2 = true) as Hd.
    { apply head_Some_elem_of in Eh. unfold find_all in Eh.
      apply list_elem_of_fmap in Eh as (f & _ & Hf).
      apply list_elem_of_In, filter_In in Hf as [[Hf Eheader]%filter_In Ec].
      exists f. by rewrite list_elem_of_In. }
    destruct (implementation_of _ _); cbn; split; intros; try done; naive_solver.
  - split; [done|]. intros [(f & Hf & Eheader & Ec) _].
    rewrite find_all_head_None in Eh. rewrite (Eh f) in Ec; [done|].
    apply list_elem_of_In, filter_In. by rewrite <-list_elem_of_In.
Qed.

Lemma inspect_build_nil spec files :
  (inspect_build spec (existing_files (build_files (ms_sources spec)) files)).2 = [] <->
  some_file (build_files (ms_sources spec)) files
    (mentions_one ["LANGUAGES CXX CUDA"; "LANGUAGES CUDA"; "enable_language(CUDA)"])
  /\ (forall p, p ∈ device_sources (ms_sources spec) ∪ host_sources (ms_sources spec) ->
      is_compilation_unit (bp_str p) = true ->
      some_file (build_files (ms_sources spec)) files (mentions_one [file_name (bp_str p)])).
Proof.
  unfold inspect_build. rewrite both_nil, require_pattern_nil, all_findings_nil.
  assert (forall p, (inspect_unit (existing_files (build_files (ms_sources spec)) files) p).2 = []
    <-> some_file (build_files (ms_sources spec)) files (mentions_one [file_name (bp_str p)])) as Hu.
  { intros p. rewrite <-find_first_ready. unfold inspect_unit.
    destruct (find_first _ _); cbn; split; (done || by intros [? [=]]). }
  setoid_rewrite Hu. setoid_rewrite list_elem_of_In. setoid_rewrite filter_In.
  setoid_rewrite in_app_iff. setoid_rewrite <-list_elem_of_In.
  setoid_rewrite elem_of_set_paths. set_solver.
Qed.

Lemma inspect_unsupported_nil spec files :
  (inspect_unsupported_constructs (existing_files (device_sources (ms_sources spec)) files)
     (existing_files (host_sources (ms_sources spec)) files)).2 = [] <->
  forall p c construct, p ∈ device_sources (ms_sources spec) ∪ host_sources (ms_sources spec) ->
    files !! p = Some c -> construct ∈ UNSUPPORTED -> contains construct.1 c = false.
Proof.
  unfold inspect_unsupported_constructs. rewrite all_findings_nil. cbn [snd].
  assert (forall (g : PatternMatch -> InspectionFailure) l, g <$> l = [] <-> l = []) as Hg by (by intros g []).
  setoid_rewrite Hg. setoid_rewrite find_all_nil. setoid_rewrite elem_of_app. split.
  - intros H p c x Hp Ec Hx. apply (H x Hx (p, c)). rewrite !elem_of_existing. set_solver.
  - intros H x Hx [p c] Hf. rewrite !elem_of_existing in Hf. apply (H p c x); set_solver.
Qed.

(** C38 An intake passes exactly when the declared files are all there
    and, read as sets of texts, they show a CUDA kernel with indexing, a
    host launch with error propagation, a header that declares the public
    symbol, an implementation that launches, a CUDA build that names every
    compilation unit, and none of the unsupported constructs. *)
Theorem inspection_passes_exactly `{Sha256} (spec : MigrationSpec) (files : Files) :
  mi_passed (inspect_migration_source spec files) = true <-> intake_ready spec files.
Proof.
  unfold inspect_migration_source. cbn [mi_passed]. rewrite bool_decide_eq_true, sort_by_nil_iff.
  unfold inspect_all. cbn [foldr].
  rewrite !both_nil, inspect_declared_nil, !require_pattern_nil, inspect_public_entry_nil,
    inspect_build_nil, inspect_unsupported_nil, !optional_pattern_nil.
  split; [|intros []; done]. intros (? & ? & ? & _ & _ & ? & ? & [] & [] & ? & _). by constructor.
Qed.

(** ** What the source identity binds *)

Definition declared_file_fits (file : BundlePath * option string) : Prop :=
  path_fits file.1 /\ match file.2 with Some c => text_fits c | None => True end.

#[export] Instance declared_file_fits_dec file : Decision (declared_file_fits file).
Proof. destruct file as [p [c|]]; apply _. Defined.

Definition declared_entries (declared : gset BundlePath) (files : Files)
    : list (BundlePath * option string) :=
  (fun path => (path, files !! path)) <$> set_paths declared.

Definition declared_fit (declared : gset BundlePath) (files : Files) : Prop :=
  list_fits declared_file_fits (declared_entries declared files).

Lemma prefix_code_declared_file : prefix_code declared_file_fits declared_file_bytes.
Proof.
  intros [p o] [q o'] r r' [Hp Ho] [Hq Ho'] E. unfold declared_file_bytes in E. cbn in *.
  rewrite <-!(assoc_L (++)) in E.
  destruct (prefix_code_path p q _ _ Hp Hq E) as [<- E']. clear E.
  destruct o as [c|], o' as [c'|]; try discriminate E'.
  - apply (f_equal tail) in E'. by destruct (prefix_code_text c c' r r' Ho Ho' E') as [<- <-].
  - apply (f_equal tail) in E'. by split.
Qed.

Lemma declared_bytes_inj D D' files files' :
  declared_fit D files -> declared_fit D' files' ->
  declared_bytes D files = declared_bytes D' files' ->
  D = D' /\ forall p, p ∈ D -> files !! p = files' !! p.
Proof.
  intros HD HD' E. unfold declared_bytes in E. do 2 apply app_inv_head in E.
  pose proof (prefix_code_inj _ _ _ _ (prefix_code_list _ _ prefix_code_declared_file) HD HD' E) as El.
  assert (set_paths D = set_paths D') as Es.
  { apply (f_equal (fmap fst)) in El. unfold declared_entries in El.
    by rewrite <-!list_fmap_compose, !list_fmap_id in El. }
  split; [by apply set_paths_inj|]. intros p [i Hi]%elem_of_set_paths%list_elem_of_lookup.
  unfold declared_entries in El. rewrite <-Es in El.
  apply (f_equal (fun l => l !! i)) in El. rewrite !list_lookup_fmap, Hi in El. by injection El.
Qed.
