(* ===== verification/Lifecycle.v ===== *)
(** * The verified delivery lifecycle

    [src/crates/alloyport-core/src/lib.rs]: the task state machine and the
    release manifest built from independent gate verdicts. *)

From stdpp Require Import base strings gmap sets list.
From S2P Require Import Prelude Digest Identity.

(** ** Task states *)

(** [enum GenerationStrategy]. *)
Inductive GenerationStrategy :=
| DirectAscendC
| AscendSimtBootstrap
| VerifiedTemplateAdaptation
| MemoryGuidedSynthesis.

(** [enum TaskState]. *)
Inductive TaskState :=
| Captured | Specified | Generating | Building | Verifying
| Optimizing | Integrating | Releasable | Released | TaskFailed.

#[export] Instance GenerationStrategy_eq_dec : EqDecision GenerationStrategy.
Proof. solve_decision. Defined.
#[export] Instance TaskState_eq_dec : EqDecision TaskState.
Proof. solve_decision. Defined.

(** [TaskState::can_transition_to]. *)
Definition task_can_transition_to (self next : TaskState) : bool :=
  match self, next with
  | Captured, (Specified | TaskFailed)
  | Specified, (Generating | TaskFailed)
  | Generating, (Building | TaskFailed)
  | Building, (Generating | Verifying | TaskFailed)
  | Verifying, (Generating | Optimizing | TaskFailed)
  | Optimizing, (Building | Integrating | TaskFailed)
  | Integrating, (Generating | Releasable | TaskFailed)
  | Releasable, (Released | TaskFailed) => true
  | _, _ => false
  end.

(** [struct Task]. *)
Record Task := MkTask {
  task_id : TaskId;
  task_source_revision : string;
  task_migration_spec_digest : option Sha256Digest;
  task_state : TaskState;
  task_generation_strategy : option GenerationStrategy;
}.

Record TransitionError := MkTransitionError { te_from : TaskState; te_to : TaskState }.

Definition set_task_state (t : Task) (s : TaskState) : Task :=
  MkTask (task_id t) (task_source_revision t) (task_migration_spec_digest t) s
    (task_generation_strategy t).

(** [Task::transition]. *)
Definition task_transition (self : Task) (next : TaskState) : result TransitionError Task :=
  _ ← guard_err (negb (task_can_transition_to (task_state self) next))
        (MkTransitionError (task_state self) next);
  Ok (set_task_state self next).

(** A run of requested transitions; the first refused one stops it. *)
Fixpoint task_run (self : Task) (steps : list TaskState) : result TransitionError Task :=
  match steps with
  | [] => Ok self
  | next :: rest => t ← task_transition self next; task_run t rest
  end.

(** ** Gates and the release manifest *)

(** [enum Gate] and [Gate::ALL]. *)
Inductive Gate :=
| GContract | GSource | GBuild | GCorrectness | GPerformance | GIntegration.

#[export] Instance Gate_eq_dec : EqDecision Gate.
Proof. solve_decision. Defined.

Definition Gate_ALL : list Gate :=
  [GContract; GSource; GBuild; GCorrectness; GPerformance; GIntegration].

#[export] Instance Gate_countable : Countable Gate.
Proof.
  apply (inj_countable'
    (fun g => match g with GContract => 0 | GSource => 1 | GBuild => 2
                         | GCorrectness => 3 | GPerformance => 4 | GIntegration => 5 end)
    (fun n => nth n Gate_ALL GContract)).
  by intros [].
Defined.

(** [struct Verdict]. *)
Record Verdict := MkVerdict {
  v_candidate_id : CandidateId;
  v_gate : Gate;
  v_passed : bool;
  v_receipt_digests : list Sha256Digest;
}.

(** [struct ReleaseManifest]; a [BTreeSet] is a finite set. *)
Record ReleaseManifest := MkReleaseManifest {
  rm_candidate_id : CandidateId;
  rm_supported_domain : string;
  rm_dispatch_guard : string;
  rm_fallback : string;
  rm_source_artifact_digests : gset Sha256Digest;
  rm_evidence_digests : gset Sha256Digest;
}.

(** [enum ReleaseError]. *)
Inductive ReleaseError :=
| CandidateMismatch
| DuplicateGate (g : Gate)
| FailedGate (g : Gate)
| MissingEvidence (g : Gate)
| MissingGate (g : Gate)
| MissingSourceArtifacts.

(** The loop over the verdicts, with the sets it accumulates. *)
Fixpoint verdict_loop (candidate_id : CandidateId) (verdicts : list Verdict)
    (passed : gset Gate) (evidence : gset Sha256Digest)
    : result ReleaseError (gset Gate * gset Sha256Digest) :=
  match verdicts with
  | [] => Ok (passed, evidence)
  | v :: rest =>
      _ ← guard_err (bool_decide (v_candidate_id v <> candidate_id)) CandidateMismatch;
      _ ← guard_err (bool_decide (v_gate v ∈ passed)) (DuplicateGate (v_gate v));
      _ ← guard_err (negb (v_passed v)) (FailedGate (v_gate v));
      _ ← guard_err (bool_decide (v_receipt_digests v = [])) (MissingEvidence (v_gate v));
      verdict_loop candidate_id rest ({[v_gate v]} ∪ passed)
        (evidence ∪ list_to_set (v_receipt_digests v))
  end.

(** The loop over [Gate::ALL]. *)
Fixpoint gate_loop (gates : list Gate) (passed : gset Gate) : result ReleaseError unit :=
  match gates with
  | [] => Ok tt
  | g :: rest =>
      _ ← guard_err (bool_decide (g ∉ passed)) (MissingGate g);
      gate_loop rest passed
  end.

(** [ReleaseManifest::from_verdicts]. *)
Definition from_verdicts (candidate_id : CandidateId)
    (supported_domain dispatch_guard fallback : string)
    (source_artifact_digests : gset Sha256Digest) (verdicts : list Verdict)
    : result ReleaseError ReleaseManifest :=
  _ ← guard_err (bool_decide (source_artifact_digests = ∅)) MissingSourceArtifacts;
  pe ← verdict_loop candidate_id verdicts ∅ ∅;
  _ ← gate_loop Gate_ALL pe.1;
  Ok (MkReleaseManifest candidate_id supported_domain dispatch_guard fallback
        source_artifact_digests pe.2).

(** ** Lemmas *)

(** The stages that must lie behind a task in a given state. *)
Definition task_behind (s : TaskState) : list TaskState :=
  match s with
  | Captured | TaskFailed => []
  | Specified => [Captured]
  | Generating => [Captured; Specified]
  | Building => [Captured; Specified; Generating]
  | Verifying => [Captured; Specified; Generating; Building]
  | Optimizing => [Captured; Specified; Generating; Building; Verifying]
  | Integrating => [Captured; Specified; Generating; Building; Verifying; Optimizing]
  | Releasable =>
      [Captured; Specified; Generating; Building; Verifying; Optimizing; Integrating]
  | Released =>
      [Captured; Specified; Generating; Building; Verifying; Optimizing; Integrating;
       Releasable]
  end.

Lemma task_behind_step s s' :
  task_can_transition_to s s' = true -> task_behind s' ⊆ s :: task_behind s.
Proof. destruct s, s'; try done; intros _; cbn; set_solver. Qed.

Lemma task_transition_Ok t s t' :
  task_transition t s = Ok t' <->
  task_can_transition_to (task_state t) s = true /\ t' = set_task_state t s.
Proof.
  unfold task_transition. destruct (task_can_transition_to _ _); cbn; naive_solver.
Qed.

Lemma task_run_behind t steps t' seen :
  task_run t steps = Ok t' ->
  task_behind (task_state t) ⊆ seen ->
  task_behind (task_state t') ⊆ seen ++ task_state t :: steps.
Proof.
  revert t seen. induction steps as [|s steps IH]; intros t seen H Hseen; cbn in H.
  - simplify_eq. set_solver.
  - inv_result. apply task_transition_Ok in H as [Hs ->].
    apply task_behind_step in Hs.
    specialize (IH _ (seen ++ [task_state t]) H0). cbn in IH. set_solver.
Qed.

Lemma task_closed t s t' :
  task_transition t s = Ok t' -> task_state t <> Released /\ task_state t <> TaskFailed.
Proof. intros [H _]%task_transition_Ok. by destruct (task_state t). Qed.

(** What one verdict must be to pass the loop. *)
Definition verdict_good (c : CandidateId) (v : Verdict) : Prop :=
  v_candidate_id v = c /\ v_passed v = true /\ v_receipt_digests v <> [].

Lemma verdict_loop_Ok c vs P E P' E' :
  verdict_loop c vs P E = Ok (P', E') <->
  Forall (verdict_good c) vs /\ NoDup (v_gate <$> vs)
  /\ (forall v, v ∈ vs -> v_gate v ∉ P)
  /\ P' = list_to_set (v_gate <$> vs) ∪ P
  /\ E' = E ∪ list_to_set (mjoin (v_receipt_digests <$> vs)).
Proof.
  revert P E. induction vs as [|v vs IH]; intros P E; cbn.
  { split.
    - intros [= <- <-]. split_and!; [constructor|constructor| |set_solver..].
      by intros ? ?%not_elem_of_nil.
    - intros (_ & _ & _ & -> & ->). do 2 f_equal; set_solver. }
  rewrite !guard_bind_Ok, IH. split.
  - intros (H1 & H2 & H3 & H4 & H).
    apply bool_decide_eq_false, dec_stable in H1.
    apply bool_decide_eq_false in H2, H4. apply negb_false_iff in H3.
    destruct H as (Hg & Hd & Hp & -> & ->).
    split_and!; [by repeat constructor| | |clear; set_solver|by rewrite list_to_set_app_L, (assoc_L (∪))].
    + apply NoDup_cons. split; [|done].
      intros (w & E1 & Hw)%list_elem_of_fmap. apply (Hp w Hw). set_solver.
    + intros w [->|Hw]%elem_of_cons; [done|]. specialize (Hp w Hw). set_solver.
  - intros (Hg & Hd & Hp & -> & ->).
    apply Forall_cons in Hg as [(H1 & H3 & H4) Hg]. apply NoDup_cons in Hd as [Hn Hd].
    split_and!; [apply bool_decide_eq_false; by intros []
      |apply bool_decide_eq_false, Hp; set_solver|by rewrite H3
      |by apply bool_decide_eq_false|done|done| |clear; set_solver
      |by rewrite list_to_set_app_L, (assoc_L (∪))].
    intros w Hw. assert (v_gate w <> v_gate v).
    { intros E1. apply Hn, list_elem_of_fmap. eauto. }
    specialize (Hp w). set_solver.
Qed.

Lemma gate_loop_Ok gs P u : gate_loop gs P = Ok u <-> forall g, g ∈ gs -> g ∈ P.
Proof.
  induction gs as [|g gs IH]; cbn.
  { destruct u. split; [|done]. by intros _ ? ?%not_elem_of_nil. }
  rewrite guard_bind_Ok, IH, bool_decide_eq_false. setoid_rewrite elem_of_cons. split.
  - intros (H%dec_stable & H') g' [->|]; auto.
  - intros H. split; [|by eauto]. intros []. eauto.
Qed.

Lemma gates_all g : g ∈ Gate_ALL.
Proof. destruct g; cbn; set_solver. Qed.

(** ** Properties *)

(** C37 A manifest is released exactly when there is a source artifact and
    the verdicts are one per gate, every gate of [Gate::ALL] exactly once, each for
    this candidate, passed and with at least one receipt; the manifest
    then carries the caller's fields and exactly the union of the
    receipts as evidence. *)
Theorem release_sound_and_complete c dom guard fb (src : gset Sha256Digest) vs m :
  from_verdicts c dom guard fb src vs = Ok m <->
  src <> ∅
  /\ Forall (verdict_good c) vs
  /\ (v_gate <$> vs) ≡ₚ Gate_ALL
  /\ m = MkReleaseManifest c dom guard fb src
           (list_to_set (mjoin (v_receipt_digests <$> vs))).
Proof.
  unfold from_verdicts. rewrite guard_bind_Ok, bool_decide_eq_false. split.
  - intros (Hs & H). apply result_bind_Ok in H as ([P E] & H & H').
    apply verdict_loop_Ok in H as (Hg & Hd & _ & -> & ->).
    apply result_bind_Ok in H' as (u & H0 & H'). cbn [fst snd] in *. simplify_eq.
    rewrite gate_loop_Ok in H0.
    split_and!; [done|done| |].
    + apply NoDup_Permutation; [done|repeat constructor; set_solver|].
      intros g. specialize (H0 g (gates_all g)). pose proof (gates_all g). set_solver.
    + f_equal. set_solver.
  - intros (Hs & Hg & Hp & ->). split; [done|].
    apply result_bind_Ok. exists (list_to_set (v_gate <$> vs) ∪ ∅,
      ∅ ∪ list_to_set (mjoin (v_receipt_digests <$> vs))). split.
    + apply verdict_loop_Ok. split_and!; [done| |set_solver|done..].
      rewrite Hp. repeat constructor; set_solver.
    + apply result_bind_Ok. exists tt. cbn [fst snd]. split.
      * apply gate_loop_Ok. intros g Hin. rewrite <-Hp in Hin. set_solver.
      * do 2 f_equal. set_solver.
Qed.

(** The only way to [Released] runs through every stage: a task that
    starts in [Captured] and is [Released] by a run of accepted
    transitions was specified, generated, built, verified, optimised,
    integrated and releasable on the way; and from [Released] or
    [Failed] no transition is accepted at all. *)
Theorem released_passed_every_stage (t t' : Task) (steps : list TaskState)
    (Hstart : task_state t = Captured) (Hrun : task_run t steps = Ok t')
    (Hend : task_state t' = Released) :
  [Specified; Generating; Building; Verifying; Optimizing; Integrating; Releasable] ⊆ steps
  /\ forall s, ~ exists t'', task_transition t' s = Ok t''.
Proof.
  split.
  - pose proof (task_run_behind _ _ _ [] Hrun) as H.
    rewrite Hstart, Hend in H. specialize (H ltac:(done)). cbn in H.
    intros s Hs. specialize (H s). set_solver.
  - intros s (t'' & H). apply task_closed in H. naive_solver.
Qed.

(** *** Witness *)

Definition sample_task : Task :=
  MkTask (MkId "task-1" eq_refl) "rev" None Captured (Some DirectAscendC).

Lemma released_passed_every_stage_witness :
  let path := [Specified; Generating; Building; Verifying; Generating; Building; Verifying;
               Optimizing; Integrating; Releasable; Released] in
  task_run sample_task path = Ok (set_task_state sample_task Released)
  /\ [Specified; Generating; Building; Verifying; Optimizing; Integrating; Releasable] ⊆ path.
Proof.
  split; [reflexivity|].
  apply (released_passed_every_stage sample_task (set_task_state sample_task Released));
    reflexivity.
Defined.
