(* ===== verification/Generation.v ===== *)
(** * Candidate authoring

    [src/crates/alloyport-core/src/generation.rs]: the request a candidate
    author is given, the generated sources it may propose, and their
    identities.  The deserializers call the constructors modelled here. *)

From Stdlib Require Import Ascii NArith Lia.
From stdpp Require Import base strings gmap list sorting.
From S2P Require Import Prelude Text Digest Encoding Identity Lifecycle Migration Inspection.

Definition AUTHORING_REQUEST_SCHEMA_V1 : N := 1.
Definition GENERATED_ROOT : string := "generated/".
Definition MAX_GENERATED_FILES : nat := 32.
Definition MAX_GENERATED_FILE_BYTES : N := 1048576.

(** ** The request *)

(** [struct SourceDocument]. *)
Record SourceDocument := MkSource { sd_path : BundlePath; sd_contents : string }.

(** [struct CandidateAuthoringRequest]. *)
Record CandidateAuthoringRequest := MkRequest {
  car_schema_version : N;
  car_migration_spec : MigrationSpec;
  car_migration_spec_digest : Sha256Digest;
  car_declared_source_digest : Sha256Digest;
  car_inspection : MigrationInspection;
  car_generation_strategy : GenerationStrategy;
  car_sources : list SourceDocument;
}.

(** [enum CandidateAuthoringError]. *)
Inductive CandidateAuthoringError :=
| InspectionDidNotPass
| SourceInspectionDidNotPass
| MigrationSpecMismatch
| InspectionMismatch
| MissingModelFact
| ZeroOutputBudget
| InvalidTemperature (value : N).

(** The declared paths in the order they are read: device, host, build. *)
Definition declared_order (spec : MigrationSpec) : list BundlePath :=
  set_paths (device_sources (ms_sources spec)) ++ set_paths (host_sources (ms_sources spec))
  ++ set_paths (build_files (ms_sources spec)).

(** The loop that collects the sources. *)
Fixpoint collect_sources (paths : list BundlePath) (files : Files)
    : result CandidateAuthoringError (list SourceDocument) :=
  match paths with
  | [] => Ok []
  | path :: paths =>
      contents ← ok_or (files !! path) SourceInspectionDidNotPass;
      sources ← collect_sources paths files;
      Ok (MkSource path contents :: sources)
  end.

(** [CandidateAuthoringRequest::new]. *)
Definition authoring_request_new `{Sha256} (spec : MigrationSpec)
    (inspection : MigrationInspection) (files : Files) (generation_strategy : GenerationStrategy)
    : result CandidateAuthoringError CandidateAuthoringRequest :=
  _ ← guard_err (negb (mi_passed inspection)) InspectionDidNotPass;
  _ ← guard_err (bool_decide (mi_migration_spec_digest inspection <> spec_digest spec))
        MigrationSpecMismatch;
  let reproduced := inspect_migration_source spec files in
  _ ← guard_err (negb (mi_passed reproduced)) SourceInspectionDidNotPass;
  _ ← guard_err (bool_decide (reproduced <> inspection)) InspectionMismatch;
  sources ← collect_sources (declared_order spec) files;
  Ok (MkRequest AUTHORING_REQUEST_SCHEMA_V1 spec (mi_migration_spec_digest inspection)
        (mi_declared_source_digest inspection) inspection generation_strategy sources).

Definition strategy_byte (s : GenerationStrategy) : Byte.byte :=
  match s with
  | DirectAscendC => Byte.x01
  | AscendSimtBootstrap => Byte.x02
  | VerifiedTemplateAdaptation => Byte.x03
  | MemoryGuidedSynthesis => Byte.x04
  end.

(** [CandidateAuthoringRequest::digest]. *)
Definition request_digest `{Sha256} (self : CandidateAuthoringRequest) : Sha256Digest :=
  digest_bytes (as_bytes "alloyport-candidate-authoring-request-v1" ++ [Byte.x00]
    ++ be_bytes 2 (car_schema_version self)
    ++ digest_body (car_migration_spec_digest self)
    ++ digest_body (car_declared_source_digest self)
    ++ [strategy_byte (car_generation_strategy self)]).

(** ** Generated sources *)

(** [enum GeneratedSourceKind]. *)
Inductive GeneratedSourceKind :=
| AscendCDevice | AscendHost | BuildIntegration | ComponentMapping.

#[export] Instance GeneratedSourceKind_eq_dec : EqDecision GeneratedSourceKind.
Proof. solve_decision. Defined.

(** [GeneratedSourceKind::ALL]. *)
Definition GeneratedSourceKind_ALL : list GeneratedSourceKind :=
  [AscendCDevice; AscendHost; BuildIntegration; ComponentMapping].

Definition kind_byte (k : GeneratedSourceKind) : Byte.byte :=
  match k with
  | AscendCDevice => Byte.x01
  | AscendHost => Byte.x02
  | BuildIntegration => Byte.x03
  | ComponentMapping => Byte.x04
  end.

(** [enum GeneratedSourceError]. *)
Inductive GeneratedSourceError :=
| OutsideGeneratedRoot (path : string)
| EmptyFile (path : string)
| FileTooLarge (path : string)
| TooManyFiles (count : nat)
| DuplicatePath (path : string)
| MissingKind (kind : GeneratedSourceKind)
| EmptyAuthorNote.

(** [struct GeneratedSourceFile]. *)
Record GeneratedSourceFile := MkGenerated {
  gf_path : BundlePath;
  gf_kind : GeneratedSourceKind;
  gf_contents : string;
}.

#[export] Instance GeneratedSourceFile_eq_dec : EqDecision GeneratedSourceFile.
Proof. solve_decision. Defined.

(** [GeneratedSourceFile::new]. *)
Definition generated_file_new (path : BundlePath) (kind : GeneratedSourceKind)
    (contents : string) : result GeneratedSourceError GeneratedSourceFile :=
  _ ← guard_err (negb (starts_with GENERATED_ROOT (bp_str path))
                 || (String.length (bp_str path) =? String.length GENERATED_ROOT)%nat)
        (OutsideGeneratedRoot (bp_str path));
  _ ← guard_err (trim_is_empty contents) (EmptyFile (bp_str path));
  _ ← guard_err (MAX_GENERATED_FILE_BYTES <? N.of_nat (String.length contents))%N
        (FileTooLarge (bp_str path));
  Ok (MkGenerated path kind contents).

(** [struct GeneratedSourceBundle] and [struct GeneratedSourceChange]. *)
Record GeneratedSourceBundle := MkBundle {
  gb_files : list GeneratedSourceFile;
  gb_author_notes : list string;
}.

Record GeneratedSourceChange := MkChange {
  gc_files : list GeneratedSourceFile;
  gc_author_notes : list string;
}.

(** The loop over the files: every path is new; the kinds seen. *)
Fixpoint scan_files (files : list GeneratedSourceFile) (paths : gset BundlePath)
    (kinds : list GeneratedSourceKind) : result GeneratedSourceError (list GeneratedSourceKind) :=
  match files with
  | [] => Ok kinds
  | file :: files =>
      if decide (gf_path file ∈ paths) then Err (DuplicatePath (bp_str (gf_path file)))
      else scan_files files ({[ gf_path file ]} ∪ paths) (gf_kind file :: kinds)
  end.

(** The loop over [GeneratedSourceKind::ALL]. *)
Definition require_kinds (kinds : list GeneratedSourceKind) : result GeneratedSourceError unit :=
  match List.filter (fun k => negb (bool_decide (k ∈ kinds))) GeneratedSourceKind_ALL with
  | [] => Ok tt
  | required :: _ => Err (MissingKind required)
  end.

(** [GeneratedSourceBundle::new]. *)
Definition bundle_new (files : list GeneratedSourceFile) (author_notes : list string)
    : result GeneratedSourceError GeneratedSourceBundle :=
  _ ← guard_err (MAX_GENERATED_FILES <? length files)%nat (TooManyFiles (length files));
  kinds ← scan_files files ∅ [];
  _ ← require_kinds kinds;
  _ ← guard_err (existsb trim_is_empty author_notes) EmptyAuthorNote;
  Ok (MkBundle files author_notes).

(** [GeneratedSourceChange::new]. *)
Definition change_new (files : list GeneratedSourceFile) (author_notes : list string)
    : result GeneratedSourceError GeneratedSourceChange :=
  _ ← guard_err (MAX_GENERATED_FILES <? length files)%nat (TooManyFiles (length files));
  _ ← scan_files files ∅ [];
  _ ← guard_err (existsb trim_is_empty author_notes) EmptyAuthorNote;
  Ok (MkChange files author_notes).

(** [GeneratedSourceChange::require_complete]. *)
Definition require_complete (self : GeneratedSourceChange) : result GeneratedSourceError unit :=
  require_kinds (gf_kind <$> gc_files self).

(** What [generated_source_digest] hashes. *)
Definition generated_file_bytes (file : GeneratedSourceFile) : bytes :=
  text_bytes (bp_str (gf_path file)) ++ [kind_byte (gf_kind file)]
  ++ text_bytes (gf_contents file).

Definition generated_source_bytes (files : list GeneratedSourceFile) (author_notes : list string)
    : bytes :=
  as_bytes "alloyport-generated-source-bundle-v1" ++ [Byte.x00]
  ++ mjoin (generated_file_bytes <$> sort_by_key (fun f => bp_str (gf_path f)) files)
  ++ mjoin (text_bytes <$> sort_by_key id author_notes).

(** [generated_source_digest], [GeneratedSourceBundle::digest] and
    [GeneratedSourceChange::digest]. *)
Definition generated_source_digest `{Sha256} (files : list GeneratedSourceFile)
    (author_notes : list string) : Sha256Digest :=
  digest_bytes (generated_source_bytes files author_notes).

Definition bundle_digest `{Sha256} (self : GeneratedSourceBundle) : Sha256Digest :=
  generated_source_digest (gb_files self) (gb_author_notes self).

Definition change_digest `{Sha256} (self : GeneratedSourceChange) : Sha256Digest :=
  generated_source_digest (gc_files self) (gc_author_notes self).

(** ** Invocations and proposals *)

(** [struct ModelInvocation]. *)
Record ModelInvocation := MkInvocation {
  mv_provider : string;
  mv_model : string;
  mv_prompt_revision : string;
  mv_max_output_tokens : N;
  mv_temperature_millis : N;
}.

(** [ModelInvocation::new]. *)
Definition invocation_new (provider model prompt_revision : string)
    (max_output_tokens temperature_millis : N)
    : result CandidateAuthoringError ModelInvocation :=
  _ ← guard_err (trim_is_empty provider || trim_is_empty model || trim_is_empty prompt_revision)
        MissingModelFact;
  _ ← guard_err (max_output_tokens =? 0)%N ZeroOutputBudget;
  _ ← guard_err (2000 <? temperature_millis)%N (InvalidTemperature temperature_millis);
  Ok (MkInvocation provider model prompt_revision max_output_tokens temperature_millis).

(** [struct CandidateProposal]. *)
Record CandidateProposal := MkProposal {
  cp_authoring_request_digest : Sha256Digest;
  cp_migration_spec_digest : Sha256Digest;
  cp_declared_source_digest : Sha256Digest;
  cp_generation_strategy : GenerationStrategy;
  cp_model_invocation : ModelInvocation;
  cp_generated_source : GeneratedSourceBundle;
}.

(** [CandidateProposal::from_authoring]. *)
Definition from_authoring `{Sha256} (request : CandidateAuthoringRequest)
    (model_invocation : ModelInvocation) (generated_source : GeneratedSourceBundle)
    : CandidateProposal :=
  MkProposal (request_digest request) (car_migration_spec_digest request)
    (car_declared_source_digest request) (car_generation_strategy request)
    model_invocation generated_source.

(** ** Requests *)

Lemma collect_sources_Ok paths files sources :
  collect_sources paths files = Ok sources <->
  Forall2 (fun p s => sd_path s = p /\ files !! p = Some (sd_contents s)) paths sources.
Proof.
  revert sources. induction paths as [|p paths IH]; intros sources; cbn.
  - split; [intros [= <-]; constructor|by intros ->%Forall2_nil_inv_l].
  - rewrite result_bind_Ok. setoid_rewrite ok_or_Ok. setoid_rewrite result_bind_Ok.
    setoid_rewrite IH. split.
    + intros (c & Ec & l & Hl & [= <-]). by constructor.
    + intros H. apply Forall2_cons_inv_l in H as ([p' c] & l & [E Ec] & Hl & ->).
      cbn in *. subst. eauto.
Qed.

Lemma declared_order_declared spec p : p ∈ declared_order spec <-> p ∈ declared_paths spec.
Proof.
  unfold declared_order, declared_paths. rewrite !elem_of_app, !elem_of_set_paths. set_solver.
Qed.

Lemma collect_sources_ready spec files :
  intake_ready spec files -> exists sources, collect_sources (declared_order spec) files = Ok sources.
Proof.
  intros Hr. assert (Forall (fun p => is_Some (files !! p)) (declared_order spec)) as Hd.
  { apply Forall_forall. intros p Hp. apply (ir_declared _ _ Hr). by apply declared_order_declared. }
  induction Hd as [|p l [c Ec] _ [sources IH]]; cbn; [eauto|]. rewrite Ec. cbn. rewrite IH. cbn. eauto.
Qed.

(** An author is asked exactly when the inspection it comes with is
    the inspection of these very sources and the intake is ready; the
    request then shows every declared file and no other, in the declared
    order with the contents inspected, and carries the identities of the
    contract and of the sources. *)
Theorem authoring_request_exact `{Sha256} (spec : MigrationSpec) (inspection : MigrationInspection)
    (files : Files) (strategy : GenerationStrategy) :
  ((exists r, authoring_request_new spec inspection files strategy = Ok r) <->
   inspection = inspect_migration_source spec files /\ intake_ready spec files)
  /\ (forall r, authoring_request_new spec inspection files strategy = Ok r ->
      Forall2 (fun p s => sd_path s = p /\ files !! p = Some (sd_contents s))
        (declared_order spec) (car_sources r)
      /\ (forall p, p ∈ sd_path <$> car_sources r <-> p ∈ declared_paths spec)
      /\ car_migration_spec r = spec
      /\ car_generation_strategy r = strategy
      /\ car_migration_spec_digest r = spec_digest spec
      /\ car_declared_source_digest r = digest_declared_sources (declared_paths spec) files).
Proof.
  assert (forall r, authoring_request_new spec inspection files strategy = Ok r <->
    inspection = inspect_migration_source spec files /\ intake_ready spec files
    /\ exists sources, collect_sources (declared_order spec) files = Ok sources
    /\ r = MkRequest AUTHORING_REQUEST_SCHEMA_V1 spec (mi_migration_spec_digest inspection)
        (mi_declared_source_digest inspection) inspection strategy sources) as Hnew.
  { intros r. unfold authoring_request_new. cbv zeta.
    rewrite !guard_bind_Ok, !negb_false_iff, !bool_decide_eq_false, inspection_passes_exactly,
      result_bind_Ok. split.
    - intros (_ & _ & Hr & Heq%dec_stable & sources & Es & [= <-]). eauto 10.
    - intros (-> & Hr & sources & Es & ->). pose proof Hr as Hp%inspection_passes_exactly.
      split_and!; try done; eauto. }
  split.
  - split.
    + intros [r Hr%Hnew]. tauto.
    + intros [-> Hr]. destruct (collect_sources_ready _ _ Hr) as [sources Es].
      eexists. apply Hnew. eauto.
  - intros r (-> & _ & sources & Es%collect_sources_Ok & ->)%Hnew. cbn.
    split_and!; try done. intros p. rewrite <-declared_order_declared.
    clear -Es. induction Es as [|q s l k [<- _] _ IH]; [done|]. cbn. rewrite !elem_of_cons, IH. done.
Qed.

(** ** Bundles and changes *)

Lemma scan_files_Ok files P K kinds :
  scan_files files P K = Ok kinds <->
  NoDup (gf_path <$> files) /\ Forall (fun f => gf_path f ∉ P) files
  /\ kinds = rev (gf_kind <$> files) ++ K.
Proof.
  revert P K. induction files as [|f files IH]; intros P K; cbn.
  - split; [intros [= <-]; split_and!; (done || constructor)|by intros (_ & _ & ->)].
  - rewrite NoDup_cons, Forall_cons, <-(assoc_L (++)). case_decide as Hd.
    + split; [done|tauto].
    + rewrite IH. cbn. setoid_rewrite not_elem_of_union. setoid_rewrite not_elem_of_singleton.
      rewrite list_elem_of_fmap, !Forall_forall. split.
      * intros (Hnd & HP & ->). split; [split; [|done]|split; [split; [done|]|done]].
        -- intros (g & E & Hg). destruct (HP g Hg) as [Hne _]. by apply Hne.
        -- intros g Hg. by apply (HP g Hg).
      * intros ([Hn Hnd] & [_ HP] & ->). split; [done|split; [|done]]. intros g Hg. split; [|by apply HP].
        intros E. apply Hn. by exists g.
Qed.

Lemma require_kinds_Ok kinds u :
  require_kinds kinds = Ok u <-> forall k : GeneratedSourceKind, k ∈ kinds.
Proof.
  destruct u. unfold require_kinds. destruct (List.filter _ _) as [|k l] eqn:E.
  - split; [|done]. intros _ k. apply dec_stable. intros Hk.
    assert (In k (List.filter (fun k => negb (bool_decide (k ∈ kinds))) GeneratedSourceKind_ALL)) as Hin.
    { apply filter_In. rewrite bool_decide_false by done. split; [destruct k; cbn; tauto|done]. }
    by rewrite E in Hin.
  - split; [done|]. intros H.
    assert (In k (List.filter (fun k => negb (bool_decide (k ∈ kinds))) GeneratedSourceKind_ALL)) as Hin
      by (rewrite E; by left).
    apply filter_In in Hin as [_ Hk]. by rewrite bool_decide_true in Hk.
Qed.

Definition notes_visible (notes : list string) : Prop := Forall visible notes.

Lemma change_new_Ok files notes c :
  change_new files notes = Ok c <->
  c = MkChange files notes /\ length files <= MAX_GENERATED_FILES
  /\ NoDup (gf_path <$> files) /\ notes_visible notes.
Proof.
  unfold change_new, notes_visible, visible. rewrite guard_bind_Ok, result_bind_Ok, Nat.ltb_ge.
  setoid_rewrite guard_bind_Ok. setoid_rewrite existsb_false_Forall. setoid_rewrite scan_files_Ok.
  split; [naive_solver|]. intros (-> & ? & ? & ?). split; [done|]. eexists. split_and!; try done.
  by apply Forall_true.
Qed.

Lemma bundle_new_Ok files notes b :
  bundle_new files notes = Ok b <->
  b = MkBundle files notes /\ length files <= MAX_GENERATED_FILES
  /\ NoDup (gf_path <$> files) /\ notes_visible notes
  /\ forall k, k ∈ gf_kind <$> files.
Proof.
  unfold bundle_new, notes_visible, visible. rewrite guard_bind_Ok, result_bind_Ok, Nat.ltb_ge.
  setoid_rewrite result_bind_Ok. setoid_rewrite require_kinds_Ok.
  setoid_rewrite guard_bind_Ok. setoid_rewrite existsb_false_Forall. setoid_rewrite scan_files_Ok.
  assert (forall k, k ∈ rev (gf_kind <$> files) ++ [] <-> k ∈ gf_kind <$> files) as Hk.
  { intros k. rewrite app_nil_r, !list_elem_of_In. symmetry. apply in_rev. }
  split.
  - intros (? & ? & (? & ? & ->) & _ & Hr & ? & [= <-]). split_and!; try done.
    intros k. specialize (Hr k). by apply Hk.
  - intros (-> & ? & ? & ? & Hr). split; [done|]. eexists. split_and!; try done; [by apply Forall_true|].
    exists tt. split_and!; try done. intros k. by apply Hk.
Qed.

(** ** The identity of a proposal *)

Definition generated_file_fits (f : GeneratedSourceFile) : Prop :=
  path_fits (gf_path f) /\ text_fits (gf_contents f).

(** A note shorter than 2^56 bytes. *)
Definition note_short (s : string) : Prop := (N.of_nat (String.length s) < 2 ^ 56)%N.

Lemma note_short_fits s : note_short s -> text_fits s.
Proof. unfold note_short, text_fits, fits, u64_max. lia. Qed.

Lemma kind_byte_inj k l : kind_byte k = kind_byte l -> k = l.
Proof. by destruct k, l. Qed.

Lemma prefix_code_generated_file : prefix_code generated_file_fits generated_file_bytes.
Proof.
  intros [p k c] [q l d] r r' [Hp Hc] [Hq Hd] E. unfold generated_file_bytes in E. cbn in *.
  rewrite <-!(assoc_L (++)) in E.
  destruct (prefix_code_path p q _ _ Hp Hq E) as [<- E']. clear E.
  injection (f_equal head E') as <-%kind_byte_inj. apply (f_equal tail) in E'.
  by destruct (prefix_code_text c d r r' Hc Hd E') as [<- <-].
Qed.

Lemma text_bytes_length s : 8 <= length (text_bytes s).
Proof. unfold text_bytes, len_bytes. rewrite length_app, be_bytes_length. lia. Qed.

(** Notes are never read as a file: the byte after a note is the first of
    a length, which is zero, or there is none. *)
Lemma notes_are_no_file ns f r :
  Forall note_short ns -> generated_file_fits f ->
  mjoin (text_bytes <$> ns) <> generated_file_bytes f ++ r.
Proof.
  intros Hn [Hp _] E. unfold generated_file_bytes in E. rewrite <-!(assoc_L (++)) in E.
  destruct ns as [|n ns]; cbn in E.
  - apply (f_equal length) in E. rewrite length_app in E.
    pose proof (text_bytes_length (bp_str (gf_path f))). cbn in E. lia.
  - apply Forall_cons in Hn as [Hn Hns].
    destruct (prefix_code_text _ _ _ _ (note_short_fits _ Hn) Hp E) as [_ E']. clear E.
    destruct ns as [|m ns]; [by destruct (gf_kind f)|]. cbn in E'.
    apply Forall_cons in Hns as [Hm _]. unfold text_bytes in E' at 1.
    destruct (len_bytes_short _ Hm) as [t Et]. rewrite Et in E'. by destruct (gf_kind f).
Qed.

Lemma notes_inj ns ns' :
  Forall note_short ns -> Forall note_short ns' ->
  mjoin (text_bytes <$> ns) = mjoin (text_bytes <$> ns') -> ns = ns'.
Proof.
  intros H. revert ns'. induction H as [|n ns Hn _ IH]; intros ns' H' E;
    destruct H' as [|n' ns' Hn' Hns']; [done|..]; cbn in E.
  - apply (f_equal length) in E. rewrite length_app in E. pose proof (text_bytes_length n').
    cbn in E. lia.
  - apply (f_equal length) in E. rewrite length_app in E. pose proof (text_bytes_length n).
    cbn in E. lia.
  - destruct (prefix_code_text n n' _ _ (note_short_fits _ Hn) (note_short_fits _ Hn') E) as [<- E'].
    f_equal. by apply IH.
Qed.

Lemma generated_items_inj fs fs' ns ns' :
  Forall generated_file_fits fs -> Forall generated_file_fits fs' ->
  Forall note_short ns -> Forall note_short ns' ->
  mjoin (generated_file_bytes <$> fs) ++ mjoin (text_bytes <$> ns)
  = mjoin (generated_file_bytes <$> fs') ++ mjoin (text_bytes <$> ns') -> fs = fs' /\ ns = ns'.
Proof.
  intros H. revert fs'. induction H as [|f fs Hf _ IH]; intros fs' H' Hn Hn' E;
    destruct H' as [|f' fs' Hf' Hfs']; cbn in E; rewrite <-?(assoc_L (++)) in E.
  - split; [done|]. by apply notes_inj.
  - by apply notes_are_no_file in E.
  - symmetry in E. by apply notes_are_no_file in E.
  - destruct (prefix_code_generated_file _ _ _ _ Hf Hf' E) as [<- E'].
    by destruct (IH fs' Hfs' Hn Hn' E') as [<- <-].
Qed.

Definition proposal_fits (files : list GeneratedSourceFile) (notes : list string) : Prop :=
  Forall generated_file_fits files /\ Forall note_short notes.

#[export] Instance proposal_fits_dec files notes : Decision (proposal_fits files notes).
Proof. unfold proposal_fits, generated_file_fits, note_short. apply _. Defined.

Lemma generated_source_bytes_perm files files' notes notes' :
  NoDup (gf_path <$> files) -> files ≡ₚ files' -> notes ≡ₚ notes' ->
  generated_source_bytes files notes = generated_source_bytes files' notes'.
Proof.
  intros Hnd Hf Hn. unfold generated_source_bytes. do 2 f_equal. f_equal.
  - do 2 f_equal. apply sort_by_key_canonical; [|done].
    apply (NoDup_fmap_2 bp_str) in Hnd. by rewrite <-list_fmap_compose in Hnd.
  - do 2 f_equal. by apply (sort_by_key_canonical_inj id).
Qed.

Lemma generated_source_bytes_inj files files' notes notes' :
  proposal_fits files notes -> proposal_fits files' notes' ->
  generated_source_bytes files notes = generated_source_bytes files' notes' ->
  files ≡ₚ files' /\ notes ≡ₚ notes'.
Proof.
  intros [Hf Hn] [Hf' Hn'] E. unfold generated_source_bytes in E. do 2 apply app_inv_head in E.
  apply generated_items_inj in E as [Ef En].
  - split.
    + rewrite <-(sort_by_key_perm (fun f => bp_str (gf_path f)) files), Ef. apply sort_by_key_perm.
    + rewrite <-(sort_by_key_perm id notes), En. apply sort_by_key_perm.
  - by rewrite sort_by_key_perm.
  - by rewrite sort_by_key_perm.
  - by rewrite sort_by_key_perm.
  - by rewrite sort_by_key_perm.
Qed.

(** The identity of a proposal is its content: two accepted changes
    are hashed from the same bytes exactly when they have the same files
    and the same notes, in whatever order, although files and notes follow
    each other without a count.  A change is a whole bundle exactly when
    it is complete, and then both have one identity. *)
Theorem bundle_identity_binds `{Sha256} (files files' : list GeneratedSourceFile)
    (notes notes' : list string) (c c' : GeneratedSourceChange)
    (Hc : change_new files notes = Ok c) (Hc' : change_new files' notes' = Ok c')
    (Hf : proposal_fits files notes) (Hf' : proposal_fits files' notes') :
  (generated_source_bytes files notes = generated_source_bytes files' notes'
     <-> files ≡ₚ files' /\ notes ≡ₚ notes')
  /\ (require_complete c = Ok tt <-> exists b, bundle_new files notes = Ok b)
  /\ (forall b, bundle_new files notes = Ok b -> bundle_digest b = change_digest c).
Proof.
  apply change_new_Ok in Hc as (-> & Hlen & Hnd & Hv), Hc' as (-> & _).
  split_and!.
  - split; [by apply generated_source_bytes_inj|]. intros []. by apply generated_source_bytes_perm.
  - unfold require_complete. cbn. rewrite require_kinds_Ok. setoid_rewrite bundle_new_Ok.
    naive_solver.
  - by intros b (-> & _)%bundle_new_Ok.
Qed.

(** ** A proposal *)

Definition sample_files : list GeneratedSourceFile :=
  [MkGenerated (sample_path "generated/device/reduce.cpp") AscendCDevice "kernel";
   MkGenerated (sample_path "generated/host/reduce.cpp") AscendHost "host";
   MkGenerated (sample_path "generated/CMakeLists.txt") BuildIntegration "build";
   MkGenerated (sample_path "generated/component-map.json") ComponentMapping "{}"].

Lemma bundle_identity_binds_witness :
  generated_source_bytes (rev sample_files) ["b"; "a"] = generated_source_bytes sample_files ["a"; "b"]
  /\ require_complete (MkChange (rev sample_files) ["b"; "a"]) = Ok tt.
Proof.
  assert (forall files notes, files = sample_files \/ files = rev sample_files ->
    notes = ["a"; "b"] \/ notes = ["b"; "a"] ->
    change_new files notes = Ok (MkChange files notes) /\ proposal_fits files notes) as Hok.
  { intros files notes Hf Hn.
    assert (bool_decide (proposal_fits files notes) = true)
      by (destruct Hf as [-> | ->], Hn as [-> | ->]; vm_compute; reflexivity).
    split; [|by apply (bool_decide_eq_true_1 _)].
    destruct Hf as [-> | ->], Hn as [-> | ->]; vm_compute; reflexivity. }
  destruct (Hok (rev sample_files) ["b"; "a"]) as [H1 H2]; [by right|by right|].
  destruct (Hok sample_files ["a"; "b"]) as [H3 H4]; [by left|by left|].
  destruct (bundle_identity_binds (H := fun _ => from_bytes []) _ _ _ _ _ _ H1 H3 H2 H4)
    as (Hb & Hr & _).
  split.
  - apply Hb. split; [|apply Permutation_swap]. symmetry. apply Permutation_rev.
  - apply Hr. eexists. vm_compute. reflexivity.
Defined.

(** An empty change is accepted. *)
Example empty_change_accepted : change_new [] [] = Ok (MkChange [] []).
Proof. reflexivity. Qed.
