(* ===== verification/SourceGate.v ===== *)
(** * Candidate sources and the Source Gate

    [src/crates/alloyport-core/src/candidate_source.rs]: the manifest of a
    candidate and the structural gate that reads its sources as text.  A
    function that pushes onto the vector of failures returns what it
    pushes. *)

From Stdlib Require Import Ascii NArith Lia.
From stdpp Require Import base strings gmap list sorting.
From S2P Require Import Prelude Text Digest Encoding Identity Lifecycle Migration Inspection.
From S2P Require Import Generation.

Definition CANDIDATE_SOURCE_MANIFEST_SCHEMA_V1 : N := 1.
Definition SOURCE_GATE_RECEIPT_SCHEMA_V1 : N := 1.
Definition SOURCE_GATE_REVISION_V2 : string := "source-gate-v2".

(** ** The manifest *)

(** [enum CandidateSourceError]. *)
Inductive CandidateSourceError :=
| OutsideGeneratedRoot | InvalidArtifact | IncompleteLineage | DuplicatePath
| MissingSourceCategory.

(** [struct CandidateSourceFile]. *)
Record CandidateSourceFile := MkSourceFile {
  cf_path : BundlePath;
  cf_kind : GeneratedSourceKind;
  cf_artifact : ArtifactDescriptor;
}.

(** [CandidateSourceFile::new]. *)
Definition source_file_new (path : BundlePath) (kind : GeneratedSourceKind)
    (artifact : ArtifactDescriptor) : result CandidateSourceError CandidateSourceFile :=
  _ ← guard_err (negb (starts_with GENERATED_ROOT (bp_str path))) OutsideGeneratedRoot;
  _ ← guard_err ((ad_size_bytes artifact =? 0)%N
                 || negb (bool_decide (ad_media_type artifact = "text/plain; charset=utf-8")))
        InvalidArtifact;
  Ok (MkSourceFile path kind artifact).

(** [struct CandidateSourceManifestSpec]. *)
Record CandidateSourceManifestSpec := MkManifestSpec {
  sp_candidate_id : CandidateId;
  sp_task_id : TaskId;
  sp_parent_candidate_id : option CandidateId;
  sp_migration_spec_digest : Sha256Digest;
  sp_generation_strategy : GenerationStrategy;
  sp_public_symbol : string;
  sp_build_target : string;
  sp_input_source_paths : gset BundlePath;
  sp_source_bundle_digest : Sha256Digest;
  sp_files : list CandidateSourceFile;
}.

(** [struct CandidateSourceManifest]. *)
Record CandidateSourceManifest := MkManifest {
  cm_schema_version : N;
  cm_spec : CandidateSourceManifestSpec;
}.

Definition cm_files (m : CandidateSourceManifest) : list CandidateSourceFile :=
  sp_files (cm_spec m).
Definition cm_public_symbol (m : CandidateSourceManifest) : string := sp_public_symbol (cm_spec m).
Definition cm_build_target (m : CandidateSourceManifest) : string := sp_build_target (cm_spec m).

(** The loop over the files. *)
Fixpoint scan_sources (files : list CandidateSourceFile) (paths : gset BundlePath)
    (kinds : list GeneratedSourceKind) : result CandidateSourceError (list GeneratedSourceKind) :=
  match files with
  | [] => Ok kinds
  | file :: files =>
      if decide (cf_path file ∈ paths) then Err DuplicatePath
      else scan_sources files ({[ cf_path file ]} ∪ paths) (cf_kind file :: kinds)
  end.

(** [CandidateSourceManifest::new]. *)
Definition manifest_new (spec : CandidateSourceManifestSpec)
    : result CandidateSourceError CandidateSourceManifest :=
  _ ← guard_err (trim_is_empty (sp_public_symbol spec) || trim_is_empty (sp_build_target spec)
                 || bool_decide (sp_input_source_paths spec = ∅)) IncompleteLineage;
  kinds ← scan_sources (sp_files spec) ∅ [];
  _ ← guard_err (existsb (fun required => negb (bool_decide (required ∈ kinds)))
                   GeneratedSourceKind_ALL) MissingSourceCategory;
  Ok (MkManifest CANDIDATE_SOURCE_MANIFEST_SCHEMA_V1 spec).

(** [CandidateSourceManifest::matches_context]. *)
Definition matches_context (self : CandidateSourceManifest) (task_id : TaskId)
    (migration_spec_digest : Sha256Digest) (generation_strategy : GenerationStrategy)
    (public_symbol build_target : string) (input_source_paths : gset BundlePath) : bool :=
  let s := cm_spec self in
  bool_decide (sp_task_id s = task_id)
  && bool_decide (sp_migration_spec_digest s = migration_spec_digest)
  && bool_decide (sp_generation_strategy s = generation_strategy)
  && bool_decide (sp_public_symbol s = public_symbol)
  && bool_decide (sp_build_target s = build_target)
  && bool_decide (sp_input_source_paths s = input_source_paths).

(** ** The receipt *)

(** [enum SourceGateSeverity]; the constructors are in the order of the
    derived [Ord]. *)
Inductive SourceGateSeverity := Blocking | Advisory.

#[export] Instance SourceGateSeverity_eq_dec : EqDecision SourceGateSeverity.
Proof. solve_decision. Defined.

(** [enum SourceGateFailureKind]. *)
Inductive SourceGateFailureKind :=
| ArtifactSetMismatch | ArtifactIdentityMismatch | NonUtf8Source | ForbiddenFallback
| MissingDeviceSource | MissingHostEntryPoint | MissingBuildReference | MissingBuildTarget
| IncompleteComponentMapping | UnrecognizedKernelStructure.

Definition severity_rank (s : SourceGateSeverity) : nat :=
  match s with Blocking => 0 | Advisory => 1 end.

Definition gate_failure_rank (k : SourceGateFailureKind) : nat :=
  match k with
  | ArtifactSetMismatch => 0 | ArtifactIdentityMismatch => 1 | NonUtf8Source => 2
  | ForbiddenFallback => 3 | MissingDeviceSource => 4 | MissingHostEntryPoint => 5
  | MissingBuildReference => 6 | MissingBuildTarget => 7 | IncompleteComponentMapping => 8
  | UnrecognizedKernelStructure => 9
  end.

(** [struct SourceGateFailure]. *)
Record SourceGateFailure := MkGateFailure {
  sf_kind : SourceGateFailureKind;
  sf_severity : SourceGateSeverity;
  sf_path : option BundlePath;
  sf_detail : string;
}.

(** [struct SourceGateReceipt]. *)
Record SourceGateReceipt := MkGateReceipt {
  sg_schema_version : N;
  sg_gate_revision : string;
  sg_candidate_id : CandidateId;
  sg_manifest_digest : Sha256Digest;
  sg_passed : bool;
  sg_inspected_artifacts : list Sha256Digest;
  sg_failures : list SourceGateFailure;
}.

(** [blocking] and [advisory]. *)
Definition blocking (kind : SourceGateFailureKind) (path : option BundlePath) (detail : string)
    : SourceGateFailure := MkGateFailure kind Blocking path detail.
Definition advisory (kind : SourceGateFailureKind) (path : option BundlePath) (detail : string)
    : SourceGateFailure := MkGateFailure kind Advisory path detail.

Definition gate_failure_compare (a b : SourceGateFailure) : comparison :=
  then_compare (Nat.compare (severity_rank (sf_severity a)) (severity_rank (sf_severity b)))
    (then_compare (Nat.compare (gate_failure_rank (sf_kind a)) (gate_failure_rank (sf_kind b)))
       (option_compare (fun p q => String.compare (bp_str p) (bp_str q)) (sf_path a) (sf_path b))).

(** ** Texts

    [BTreeMap<BundlePath, (GeneratedSourceKind, &str)>], visited in the
    order of its paths. *)

Abbreviation Texts := (gmap BundlePath (GeneratedSourceKind * string)).

Definition entries (sources : Texts) : list (BundlePath * (GeneratedSourceKind * string)) :=
  sort_by_key (fun e => bp_str e.1) (map_to_list sources).

(** [slice::join] of texts. *)
Definition join (separator : string) (l : list string) : string := String.concat separator l.

Definition texts_of (kind : GeneratedSourceKind) (sources : Texts) : list string :=
  (fun e => e.2.2) <$> List.filter (fun e => bool_decide (e.2.1 = kind)) (entries sources).

(** [inspect_forbidden]. *)
Definition FORBIDDEN : list string :=
  ["torch/"; "torch::"; "at::"; "aclnn"; "aclop"; "tbe/"; "tbe::"; "tvm/"; "tvm::"].

Definition inspect_forbidden (sources : Texts) : list SourceGateFailure :=
  omap (fun e => let lowercase := to_ascii_lowercase e.2.2 in
    (fun token => blocking ForbiddenFallback (Some e.1)
       ("generated source references " +:+ token +:+ ": the deliverable is Ascend C, not a call "
        +:+ "into a framework or a prebuilt operator"))
    <$> List.find (fun token => contains token lowercase) FORBIDDEN) (entries sources).

(** [ASCEND_C_MARKERS]. *)
Definition ASCEND_C_MARKERS : list string :=
  ["__aicore__"; "kernel_operator.h"; "GM_ADDR"; "GlobalTensor"; "AscendC::"; "tensor_api"].

(** [inspect_device]. *)
Definition inspect_device (sources : Texts) : list SourceGateFailure :=
  let device := List.filter (fun e => bool_decide (e.2.1 = AscendCDevice)) (entries sources) in
  if forallb (fun e => trim_is_empty e.2.2) device then
    [blocking MissingDeviceSource None
       "the candidate declares no non-empty Ascend C device source"]
  else
    omap (fun e =>
      if existsb (fun marker => contains marker e.2.2) ASCEND_C_MARKERS then None
      else Some (advisory UnrecognizedKernelStructure (Some e.1)
        "device source carries none of the usual Ascend C markers; the compiler decides")) device.

(** The text [extern] and a quoted [C]. *)
Definition quote : string := String (ascii_of_nat 34) EmptyString.
Definition extern_c : string := "extern " +:+ quote +:+ "C" +:+ quote.

(** [inspect_host]. *)
Definition inspect_host (manifest : CandidateSourceManifest) (sources : Texts)
    : list SourceGateFailure :=
  let symbol := cm_public_symbol manifest in
  let preserved := existsb (fun contents => contains symbol contents && contains extern_c contents)
                     (texts_of AscendHost sources) in
  if preserved then [] else
    [blocking MissingHostEntryPoint None
       ("no host source exposes the migration's public symbol " +:+ symbol +:+ " with C linkage")].

(** [includes]. *)
Definition includes (contents target : string) : bool :=
  existsb (fun line => let line := trim_start line in
    starts_with "#include" line && contains target line) (lines contents).

(** ** The sources a build reaches *)

Definition names (sources : Texts) : list string := (fun e => file_name (bp_str e.1)) <$> entries sources.

(** One candidate of the inner loop of [buildable_names]; the state is
    [reached] and [grew]. *)
Definition consider (contents : string) (st : gset string * bool) (candidate : string)
    : gset string * bool :=
  if decide (candidate ∉ st.1) then
    if includes contents candidate then ({[ candidate ]} ∪ st.1, true) else st
  else st.

(** One source of a pass. *)
Definition visit (sources : Texts) (st : gset string * bool)
    (e : BundlePath * (GeneratedSourceKind * string)) : gset string * bool :=
  if decide (file_name (bp_str e.1) ∈ st.1)
  then foldl (consider e.2.2) st (names sources) else st.

(** The passes; the loop ends early when nothing grew. *)
Fixpoint close_names (passes : nat) (sources : Texts) (reached : gset string) : gset string :=
  match passes with
  | O => reached
  | S passes =>
      let '(reached, grew) := foldl (visit sources) (reached, false) (entries sources) in
      if grew then close_names passes sources reached else reached
  end.

(** [buildable_names]. *)
Definition buildable_names (build : string) (sources : Texts) : gset string :=
  close_names (size sources) sources
    (list_to_set (List.filter (fun name => contains name build) (names sources))).

(** [inspect_build]. *)
Definition build_text (sources : Texts) : string :=
  join (String line_feed EmptyString) (texts_of BuildIntegration sources).

Definition must_be_built (k : GeneratedSourceKind) : bool :=
  match k with AscendCDevice | AscendHost => true | _ => false end.

Definition inspect_gate_build (manifest : CandidateSourceManifest) (sources : Texts)
    : list SourceGateFailure :=
  let build := build_text sources in
  let reachable := buildable_names build sources in
  let missing := List.filter (fun file => must_be_built (cf_kind file)
                   && negb (bool_decide (file_name (bp_str (cf_path file)) ∈ reachable)))
                   (cm_files manifest) in
  (if bool_decide (missing = []) then [] else
    [blocking MissingBuildReference None
       ("build integration does not reach these generated sources: "
        +:+ join ", " ((fun file => bp_str (cf_path file)) <$> missing)
        +:+ ". A source counts as reached when the build files name it, or when a source they do "
        +:+ "name includes it.")])
  ++ (if contains (cm_build_target manifest) build then [] else
    [blocking MissingBuildTarget None
       ("build integration does not define the migration's " +:+ cm_build_target manifest
        +:+ " target")]).

(** [inspect_mapping]. *)
Definition mapping_text (sources : Texts) : string :=
  join (String line_feed EmptyString) (texts_of ComponentMapping sources).

Definition must_be_mapped (manifest : CandidateSourceManifest) : list string :=
  (bp_str <$> set_paths (sp_input_source_paths (cm_spec manifest)))
  ++ ((fun file => bp_str (cf_path file))
        <$> List.filter (fun file => negb (bool_decide (cf_kind file = ComponentMapping)))
              (cm_files manifest)).

Definition inspect_mapping (manifest : CandidateSourceManifest) (sources : Texts)
    : list SourceGateFailure :=
  let mapping := mapping_text sources in
  let uncovered := List.filter (fun path => negb (contains path mapping)) (must_be_mapped manifest) in
  if bool_decide (uncovered = []) then [] else
    [blocking IncompleteComponentMapping None
       ("component mapping does not mention these paths: " +:+ join ", " uncovered
        +:+ ". Each input and generated implementation source must appear somewhere in the mapping "
        +:+ "document; the gate looks for the path text and does not require any particular format.")].

(** ** The gate *)

(** The bytes do not have the size or the digest of the Artifact. *)
Definition artifact_mismatch `{Sha256} (artifact : ArtifactDescriptor) (contents : bytes) : bool :=
  negb (ad_size_bytes artifact =? default u64_max (try_from_len u64_max (length contents)))%N
  || bool_decide (ad_digest artifact <> digest_bytes contents).

(** The loop over the manifest in [evaluate_source_gate]: the verified
    texts and the failures. *)
Definition read_file `{Sha256} (sources : gmap BundlePath bytes)
    (st : Texts * list SourceGateFailure) (file : CandidateSourceFile)
    : Texts * list SourceGateFailure :=
  match sources !! cf_path file with
  | None => st
  | Some contents =>
      if artifact_mismatch (cf_artifact file) contents
      then (st.1, st.2 ++ [blocking ArtifactIdentityMismatch (Some (cf_path file))
                             "source bytes do not match the immutable Artifact identity"])
      else match from_utf8 contents with
           | Some value => (<[ cf_path file := (cf_kind file, value) ]> st.1, st.2)
           | None => (st.1, st.2 ++ [blocking NonUtf8Source (Some (cf_path file))
                                       "generated source must be UTF-8"])
           end
  end.

Definition read_files `{Sha256} (sources : gmap BundlePath bytes)
    (files : list CandidateSourceFile) : Texts * list SourceGateFailure :=
  foldl (read_file sources) (∅, []) files.

(** [evaluate_source_gate]. *)
Definition evaluate_source_gate `{Sha256} (manifest : CandidateSourceManifest)
    (manifest_digest : Sha256Digest) (sources : gmap BundlePath bytes) : SourceGateReceipt :=
  let expected : gset BundlePath := list_to_set (cf_path <$> cm_files manifest) in
  let set_failures :=
    if bool_decide (expected <> dom sources) then
      [blocking ArtifactSetMismatch None
         "source Artifact set does not exactly match the candidate manifest"] else [] in
  let '(text, read_failures) := read_files sources (cm_files manifest) in
  let failures := sort_by gate_failure_compare
    (set_failures ++ read_failures ++ inspect_forbidden text ++ inspect_device text
     ++ inspect_host manifest text ++ inspect_gate_build manifest text
     ++ inspect_mapping manifest text) in
  let passed := forallb (fun item => bool_decide (sf_severity item = Advisory)) failures in
  MkGateReceipt SOURCE_GATE_RECEIPT_SCHEMA_V1 SOURCE_GATE_REVISION_V2
    (sp_candidate_id (cm_spec manifest)) manifest_digest passed
    ((fun file => ad_digest (cf_artifact file)) <$> cm_files manifest) failures.

(** [SourceGateReceipt::blocking] and [SourceGateReceipt::advisories]. *)
Definition receipt_blocking (self : SourceGateReceipt) : list SourceGateFailure :=
  List.filter (fun item => bool_decide (sf_severity item = Blocking)) (sg_failures self).
Definition receipt_advisories (self : SourceGateReceipt) : list SourceGateFailure :=
  List.filter (fun item => bool_decide (sf_severity item = Advisory)) (sg_failures self).

(** ** The reference: what a build reaches

    A source is reached when the build text names its file, or when a
    reached source includes its file.  As in the code a source is known by
    its file name. *)

Section reachable.
Context (build : string) (sources : Texts).

Inductive reaches : string -> Prop :=
| reached_named n : n ∈ names sources -> contains n build = true -> reaches n
| reached_included p k c n :
    sources !! p = Some (k, c) -> reaches (file_name (bp_str p)) ->
    n ∈ names sources -> includes c n = true -> reaches n.

Lemma elem_of_entries e : e ∈ entries sources <-> sources !! e.1 = Some e.2.
Proof.
  unfold entries. rewrite sort_by_key_perm. destruct e as [p v]. apply elem_of_map_to_list.
Qed.

Definition closed (R : gset string) : Prop :=
  forall p k c n, sources !! p = Some (k, c) -> file_name (bp_str p) ∈ R ->
    n ∈ names sources -> includes c n = true -> n ∈ R.

(** What a step of a pass does to [reached] and [grew]: the set only
    grows, the flag tells whether it did, and a step that left the flag
    down had nothing to add ([idle]). *)
Record growth (idle : gset string -> Prop) (st st' : gset string * bool) : Prop := {
  gr_mono : st.1 ⊆ st'.1;
  gr_names : (forall n, n ∈ st.1 -> n ∈ names sources) -> forall n, n ∈ st'.1 -> n ∈ names sources;
  gr_flag : st'.2 = true -> st.2 = true \/ size st.1 < size st'.1;
  gr_keep : st'.2 = false -> st.2 = false;
  gr_idle : st'.2 = false -> st'.1 = st.1 /\ idle st.1;
}.

Lemma growth_refl st (idle : gset string -> Prop) : (st.2 = false -> idle st.1) -> growth idle st st.
Proof. intros H. constructor; auto. Qed.

Lemma growth_foldl {A} (f : gset string * bool -> A -> gset string * bool)
    (idle : A -> gset string -> Prop) l st :
  (forall x st, x ∈ l -> growth (idle x) st (f st x)) ->
  growth (fun R => forall x, x ∈ l -> idle x R) st (foldl f st l).
Proof.
  revert st. induction l as [|x l IH]; intros st Hf; cbn.
  - apply growth_refl. intros _ x Hx. by apply elem_of_nil in Hx.
  - destruct (Hf x st) as [M1 N1 F1 K1 I1]; [by left|].
    destruct (IH (f st x)) as [M2 N2 F2 K2 I2]; [intros y st' Hy; apply Hf; by right|].
    constructor.
    + by etrans.
    + auto.
    + intros E. destruct (F2 E) as [E1|Hs]; [destruct (F1 E1) as [?|Hs]; [by left|]|]; right;
        pose proof (subseteq_size _ _ M1); pose proof (subseteq_size _ _ M2); lia.
    + auto.
    + intros E. destruct (I2 E) as [E2 H2], (I1 (K2 E)) as [E1 H1].
      rewrite E1 in *. split; [done|]. intros y [->|Hy]%elem_of_cons; auto.
Qed.

Lemma consider_growth c n st :
  n ∈ names sources -> growth (fun R => includes c n = true -> n ∈ R) st (consider c st n).
Proof.
  intros Hn. destruct st as [R g]. unfold consider. cbn. case_decide as Hd.
  - destruct (includes c n) eqn:Ei; [|apply growth_refl; intros _ Hx; discriminate Hx].
    constructor; cbn; [set_solver|set_solver| |done|done].
    intros _. right. rewrite size_union, size_singleton by set_solver. lia.
  - apply growth_refl. done.
Qed.

Lemma visit_growth e st :
  growth (fun R => file_name (bp_str e.1) ∈ R ->
            forall n, n ∈ names sources -> includes e.2.2 n = true -> n ∈ R)
    st (visit sources st e).
Proof.
  unfold visit. case_decide as Hd; [|by apply growth_refl].
  destruct (growth_foldl (consider e.2.2) (fun n R => includes e.2.2 n = true -> n ∈ R)
    (names sources) st) as [M N F K I]; [intros; by apply consider_growth|].
  constructor; auto. intros E. destruct (I E). split; [done|]. auto.
Qed.

Lemma pass_growth st : growth closed st (foldl (visit sources) st (entries sources)).
Proof.
  destruct (growth_foldl (visit sources) _ (entries sources) st
    (fun e st _ => visit_growth e st)) as [M N F K I].
  constructor; auto. intros E. destruct (I E) as [E1 H]. split; [done|].
  intros p k c n Hp Hr Hn Hi. apply (H (p, (k, c))); [|done..]. by apply elem_of_entries.
Qed.

Lemma size_list_to_set_le (l : list string) : size (list_to_set l : gset string) <= length l.
Proof.
  induction l as [|x l IH]; cbn; [by rewrite size_empty|].
  rewrite size_union_alt, size_singleton.
  assert (list_to_set l ∖ {[x]} ⊆ (list_to_set l : gset string)) as Hs by set_solver.
  apply subseteq_size in Hs. lia.
Qed.

Lemma names_size : size (list_to_set (names sources) : gset string) <= size sources.
Proof.
  rewrite size_list_to_set_le. unfold names, entries.
  rewrite length_fmap, (Permutation_length (sort_by_key_perm _ _)). by rewrite length_map_to_list.
Qed.

(** As many passes as sources reach a closed set. *)
Lemma close_names_closed passes R :
  (forall n, n ∈ R -> n ∈ names sources) -> size sources <= size R + passes ->
  R ⊆ close_names passes sources R /\ closed (close_names passes sources R).
Proof.
  revert R. induction passes as [|passes IH]; intros R HR Hp; cbn [close_names].
  - split; [done|]. intros p k c n _ _ Hn _.
    assert (R = list_to_set (names sources)) as ->; [|by apply elem_of_list_to_set].
    apply set_subseteq_size_eq; [|pose proof names_size; lia].
    intros m Hm. apply elem_of_list_to_set. auto.
  - destruct (pass_growth (R, false)) as [M N F K I].
    destruct (foldl (visit sources) (R, false) (entries sources)) as [R' grew]. cbn in *.
    destruct grew.
    + destruct (F eq_refl) as [?|Hs]; [done|].
      destruct (IH R') as [M' C']; [auto|lia|]. split; [by etrans|done].
    + destruct (I eq_refl) as [-> Hc]. done.
Qed.

(** Every name the passes add is reached. *)
Definition all_reached (R : gset string) : Prop := forall n, n ∈ R -> reaches n.

Lemma foldl_invariant {A B} (I : A -> Prop) (f : A -> B -> A) l st :
  (forall st x, x ∈ l -> I st -> I (f st x)) -> I st -> I (foldl f st l).
Proof.
  revert st. induction l as [|x l IH]; intros st Hf Hi; cbn; [done|].
  apply IH; [intros st' y Hy; apply Hf; by right|]. apply Hf; [by left|done].
Qed.

Lemma pass_reached st :
  all_reached st.1 -> all_reached (foldl (visit sources) st (entries sources)).1.
Proof.
  apply (foldl_invariant (fun st => all_reached st.1)). intros st' [p [k c]] Hp%elem_of_entries HR.
  unfold visit. cbn in *. case_decide as Hd; [|done].
  apply (foldl_invariant (fun st => all_reached st.1)); [|done]. intros st2 n Hn HR2.
  unfold consider. case_decide; [|done]. destruct (includes c n) eqn:Ei; [|done].
  intros m Hm. cbn in Hm. apply elem_of_union in Hm as [->%elem_of_singleton|Hm]; [|by apply HR2].
  eapply reached_included; eauto.
Qed.

Lemma close_names_reached passes R : all_reached R -> all_reached (close_names passes sources R).
Proof.
  revert R. induction passes as [|passes IH]; intros R HR; cbn [close_names]; [done|].
  pose proof (pass_reached (R, false) HR) as HR'.
  destruct (foldl _ _ _) as [R' []]; [by apply IH|done].
Qed.

(** One pass per source is enough, and the names found are exactly the
    reached ones. *)
Lemma elem_of_buildable_names n : n ∈ buildable_names build sources <-> reaches n.
Proof.
  unfold buildable_names. set (R0 := list_to_set (List.filter _ _) : gset string).
  assert (forall m, m ∈ R0 <-> m ∈ names sources /\ contains m build = true) as HR0.
  { intros m. unfold R0. rewrite elem_of_list_to_set, list_elem_of_In, filter_In, <-list_elem_of_In. done. }
  destruct (close_names_closed (size sources) R0) as [Hm Hc]; [intros m; rewrite HR0; tauto|lia|].
  split.
  - apply close_names_reached. intros m [Hn Hb]%HR0. by apply reached_named.
  - induction 1 as [m Hn Hb|p k c m Hp _ IH Hn Hi]; [by apply Hm, HR0|]. by apply (Hc p k c).
Qed.

End reachable.

(** ** When the gate passes *)

Section gate.
Context `{Sha256} (sources : gmap BundlePath bytes).

Definition clear (l : list SourceGateFailure) : Prop :=
  Forall (fun item => sf_severity item = Advisory) l.

Lemma clear_app l k : clear (l ++ k) <-> clear l /\ clear k.
Proof. apply Forall_app. Qed.

Lemma clear_blocking kind path detail : ~ clear [blocking kind path detail].
Proof. intros Hc. inversion Hc as [|x l Hx]. discriminate Hx. Qed.

Lemma clear_if (b : bool) kind path detail :
  clear (if b then [] else [blocking kind path detail]) <-> b = true.
Proof.
  unfold clear. destruct b; [split; [done|constructor]|].
  rewrite Forall_singleton. by split.
Qed.

Lemma clear_unless (b : bool) kind path detail :
  clear (if b then [blocking kind path detail] else []) <-> b = false.
Proof. unfold clear. destruct b; [rewrite Forall_singleton; by split|split; [done|constructor]]. Qed.

(** The text of a file whose bytes are the Artifact's. *)
Definition verified_text (file : CandidateSourceFile) : option string :=
  contents ← sources !! cf_path file;
  if artifact_mismatch (cf_artifact file) contents then None else from_utf8 contents.

Lemma read_file_spec text fs file :
  (is_Some (sources !! cf_path file) -> is_Some (verified_text file)) /\
    read_file sources (text, fs) file =
      (match verified_text file with
       | Some v => <[ cf_path file := (cf_kind file, v) ]> text | None => text end, fs)
  \/ is_Some (sources !! cf_path file) /\ verified_text file = None /\
    exists kind path detail,
      read_file sources (text, fs) file = (text, fs ++ [blocking kind path detail]).
Proof.
  unfold read_file, verified_text. destruct (sources !! cf_path file) as [c|]; cbn.
  - destruct (artifact_mismatch _ _); [right; eauto 10|].
    destruct (from_utf8 c); [left; eauto|right; eauto 10].
  - left. split; [by intros []|done].
Qed.

Lemma verified_text_found file v : verified_text file = Some v -> is_Some (sources !! cf_path file).
Proof. unfold verified_text. destruct (sources !! _); [eauto|done]. Qed.

Lemma read_files_spec files :
  NoDup (cf_path <$> files) ->
  let r := read_files sources files in
  (clear r.2 <-> forall file, file ∈ files -> is_Some (sources !! cf_path file) ->
     is_Some (verified_text file))
  /\ (forall p k v, r.1 !! p = Some (k, v) <->
      exists file, file ∈ files /\ cf_path file = p /\ cf_kind file = k
        /\ verified_text file = Some v).
Proof.
  unfold read_files. induction files as [|file files IH] using rev_ind; intros Hnd; cbn.
  - split; [split; [intros _ file Hf; by apply elem_of_nil in Hf|constructor]|].
    intros p k v. rewrite lookup_empty. split; [done|].
    intros (file & Hf & _). by apply elem_of_nil in Hf.
  - rewrite fmap_app, NoDup_app in Hnd. destruct Hnd as (Hnd & Hnew & _).
    specialize (IH Hnd). rewrite foldl_snoc. cbn in IH.
    destruct (foldl _ _ _) as [text fs]. destruct IH as [Hc Ht]. cbn in Hc, Ht.
    setoid_rewrite elem_of_app. setoid_rewrite list_elem_of_singleton.
    assert (forall g, g ∈ files -> cf_path g <> cf_path file) as Hfresh.
    { intros g Hg E. destruct (Hnew (cf_path g)); [apply list_elem_of_fmap; eauto|].
      rewrite E. by apply list_elem_of_singleton. }
    destruct (read_file_spec text fs file) as [[Hok ->]|(Hs & Hv & kind & path & detail & ->)]; cbn.
    + rewrite Hc. split.
      { split; [intros H' g [Hg| ->]; auto|intros H' g Hg; apply H'; by left]. }
      intros p k v.
      destruct (verified_text file) as [w|] eqn:Ew.
      * destruct (decide (p = cf_path file)) as [->|Hp].
        -- rewrite lookup_insert_eq. split; [intros [= <- <-]; eauto 10|].
           intros (g & [Hg| ->] & Ep & <- & Ev); [by apply Hfresh in Hg|congruence].
        -- rewrite lookup_insert_ne, Ht by done.
           split; [intros (g & Hg & ?); eauto|intros (g & [Hg| ->] & Ep & ?); [eauto|by destruct Hp]].
      * rewrite Ht. split; [intros (g & Hg & ?); eauto|].
        intros (g & [Hg| ->] & ? & ? & Ev); [eauto|congruence].
    + rewrite clear_app. split.
      * split; [intros [_ Hb%clear_blocking]; done|].
        intros H'. destruct (H' file); [by right|done|congruence].
      * intros p k v. rewrite Ht. split; [intros (g & Hg & ?); eauto|].
        intros (g & [Hg| ->] & ? & ? & Ev); [eauto|congruence].
Qed.

(** The reference definition: the sources a candidate is judged by, and
    what they must show. *)
Record source_ready (manifest : CandidateSourceManifest) (text : Texts) : Prop := {
  sr_set p : p ∈ cf_path <$> cm_files manifest <-> is_Some (sources !! p);
  sr_verified file : file ∈ cm_files manifest ->
    exists v, verified_text file = Some v /\ text !! cf_path file = Some (cf_kind file, v);
  sr_text p : is_Some (text !! p) -> p ∈ cf_path <$> cm_files manifest;
  sr_own p k v token : text !! p = Some (k, v) -> token ∈ FORBIDDEN ->
    contains token (to_ascii_lowercase v) = false;
  sr_device : exists p v, text !! p = Some (AscendCDevice, v) /\ visible v;
  sr_host : exists p v, text !! p = Some (AscendHost, v)
    /\ contains (cm_public_symbol manifest) v = true /\ contains extern_c v = true;
  sr_reached file : file ∈ cm_files manifest -> must_be_built (cf_kind file) = true ->
    reaches (build_text text) text (file_name (bp_str (cf_path file)));
  sr_target : contains (cm_build_target manifest) (build_text text) = true;
  sr_mapped_inputs p : p ∈ sp_input_source_paths (cm_spec manifest) ->
    contains (bp_str p) (mapping_text text) = true;
  sr_mapped_files file : file ∈ cm_files manifest -> cf_kind file <> ComponentMapping ->
    contains (bp_str (cf_path file)) (mapping_text text) = true;
}.

Lemma filter_nil_iff {A} (f : A -> bool) l : List.filter f l = [] <-> forall x, x ∈ l -> f x = false.
Proof.
  induction l as [|x l IH]; cbn.
  - split; [|done]. intros _ x Hx. by apply elem_of_nil in Hx.
  - setoid_rewrite elem_of_cons. destruct (f x) eqn:E.
    + split; [done|]. intros H'. rewrite (H' x) in E by auto. done.
    + rewrite IH. split; [intros H' y [->|Hy]; auto|auto].
Qed.

Lemma clear_omap {A} (f : A -> option SourceGateFailure) l :
  clear (omap f l) <-> forall x, x ∈ l -> forall y, f x = Some y -> sf_severity y = Advisory.
Proof.
  unfold clear. rewrite Forall_forall. setoid_rewrite list_elem_of_omap. naive_solver.
Qed.

Lemma clear_forbidden text :
  clear (inspect_forbidden text) <-> forall p k v token, text !! p = Some (k, v) ->
    token ∈ FORBIDDEN -> contains token (to_ascii_lowercase v) = false.
Proof.
  unfold inspect_forbidden. rewrite clear_omap. split.
  - intros H' p k v token Hp Htoken. specialize (H' (p, (k, v))). cbv zeta in H'.
    destruct (List.find _ FORBIDDEN) as [t|] eqn:Ef.
    + pose proof (H' (proj2 (elem_of_entries _ (p, (k, v))) Hp) _ eq_refl) as Hb. discriminate Hb.
    + eapply (List.find_none _ _ Ef). by apply list_elem_of_In.
  - intros H' [p [k v]] Hp%elem_of_entries y Hy. cbn in Hp.
    destruct (List.find _ FORBIDDEN) as [t|] eqn:Ef; [|done].
    apply List.find_some in Ef as [Ht Hc]. cbn [fst snd] in Hc.
    rewrite (H' p k v t Hp) in Hc; [done|by apply list_elem_of_In].
Qed.

Lemma clear_device text :
  clear (inspect_device text) <-> exists p v, text !! p = Some (AscendCDevice, v) /\ visible v.
Proof.
  unfold inspect_device. set (device := List.filter _ (entries text)).
  assert (forall e, e ∈ device <-> text !! e.1 = Some e.2 /\ e.2.1 = AscendCDevice) as Hd.
  { intros e. unfold device. rewrite list_elem_of_In, filter_In, <-list_elem_of_In, elem_of_entries.
    by rewrite bool_decide_eq_true. }
  destruct (forallb _ device) eqn:Ef.
  - split; [by intros ?%clear_blocking|]. intros (p & v & Hp & Hv).
    rewrite forallb_forall in Ef. unfold visible in Hv.
    assert (trim_is_empty v = true); [|congruence].
    apply (Ef (p, (AscendCDevice, v))). by apply list_elem_of_In, Hd.
  - split.
    + intros _. destruct (List.find (fun e => negb (trim_is_empty e.2.2)) device) as [[p [k v]]|] eqn:Ee.
      * apply List.find_some in Ee as [[Hp Hk]%list_elem_of_In%Hd Hv]. cbn in *. subst k.
        exists p, v. split; [done|]. by apply negb_true_iff.
      * assert (forallb (fun e => trim_is_empty e.2.2) device = true) as Ht; [|congruence].
        apply forallb_forall. intros e He.
        pose proof (List.find_none _ _ Ee e He) as Hn. by apply negb_false_iff in Hn.
    + intros _. apply clear_omap. intros e _ y. by destruct (existsb _ _); [|intros [= <-]].
Qed.

Lemma elem_of_texts_of k v text : v ∈ texts_of k text <-> exists p, text !! p = Some (k, v).
Proof.
  unfold texts_of. rewrite list_elem_of_fmap. split.
  - intros ([p [k' v']] & -> & He). apply list_elem_of_In, filter_In in He as [He Hk].
    apply list_elem_of_In, elem_of_entries in He. apply bool_decide_eq_true in Hk. cbn in *.
    subst. eauto.
  - intros [p Hp]. exists (p, (k, v)). split; [done|]. apply list_elem_of_In, filter_In.
    rewrite <-list_elem_of_In, elem_of_entries, bool_decide_eq_true. done.
Qed.

Lemma clear_host manifest text :
  clear (inspect_host manifest text) <-> exists p v, text !! p = Some (AscendHost, v)
    /\ contains (cm_public_symbol manifest) v = true /\ contains extern_c v = true.
Proof.
  unfold inspect_host. cbv zeta. rewrite clear_if, existsb_exists.
  setoid_rewrite <-list_elem_of_In. setoid_rewrite elem_of_texts_of.
  setoid_rewrite andb_true_iff. naive_solver.
Qed.

Lemma clear_build manifest text :
  clear (inspect_gate_build manifest text) <->
  (forall file, file ∈ cm_files manifest -> must_be_built (cf_kind file) = true ->
     reaches (build_text text) text (file_name (bp_str (cf_path file))))
  /\ contains (cm_build_target manifest) (build_text text) = true.
Proof.
  unfold inspect_gate_build. cbv zeta. rewrite clear_app, !clear_if, bool_decide_eq_true, filter_nil_iff.
  setoid_rewrite andb_false_iff. setoid_rewrite negb_false_iff. setoid_rewrite bool_decide_eq_true.
  setoid_rewrite elem_of_buildable_names.
  split; intros [Hr Ht]; (split; [|done]); intros file Hf; specialize (Hr file Hf);
    destruct (must_be_built (cf_kind file)); naive_solver.
Qed.

Lemma clear_mapping manifest text :
  clear (inspect_mapping manifest text) <->
  (forall p, p ∈ sp_input_source_paths (cm_spec manifest) -> contains (bp_str p) (mapping_text text) = true)
  /\ (forall file, file ∈ cm_files manifest -> cf_kind file <> ComponentMapping ->
      contains (bp_str (cf_path file)) (mapping_text text) = true).
Proof.
  unfold inspect_mapping. cbv zeta. rewrite clear_if, bool_decide_eq_true, filter_nil_iff.
  setoid_rewrite negb_false_iff. unfold must_be_mapped. setoid_rewrite elem_of_app. split.
  - intros Hm. split.
    + intros p Hp. apply Hm. left. apply list_elem_of_fmap. exists p. by rewrite elem_of_set_paths.
    + intros file Hf Hk. apply Hm. right. apply list_elem_of_fmap. exists file. split; [done|].
      apply list_elem_of_In, filter_In. rewrite <-list_elem_of_In. split; [done|].
      by rewrite bool_decide_false.
  - intros [Hi Hf] x [(p & -> & Hp%elem_of_set_paths)%list_elem_of_fmap|(file & -> & Hx)%list_elem_of_fmap];
      [by apply Hi|].
    apply list_elem_of_In, filter_In in Hx as [Hx%list_elem_of_In Hk]. apply Hf; [done|].
    by apply negb_true_iff, bool_decide_eq_false in Hk.
Qed.

Lemma passed_clear l :
  forallb (fun item => bool_decide (sf_severity item = Advisory)) (sort_by gate_failure_compare l) = true
  <-> clear l.
Proof.
  unfold clear. rewrite forallb_forall, Forall_forall. setoid_rewrite <-list_elem_of_In.
  setoid_rewrite elem_of_sort_by. by setoid_rewrite bool_decide_eq_true.
Qed.

Lemma scan_sources_paths files P K kinds :
  scan_sources files P K = Ok kinds -> NoDup (cf_path <$> files) /\ Forall (fun f => cf_path f ∉ P) files.
Proof.
  revert P K. induction files as [|f files IH]; intros P K; cbn; [by repeat constructor|].
  case_decide as Hd; [done|]. intros [Hnd HP]%IH. rewrite NoDup_cons, Forall_cons.
  rewrite Forall_forall in HP. split; [split; [|done]|split; [done|]].
  - intros (g & E & Hg)%list_elem_of_fmap. apply (HP g Hg). rewrite E. set_solver.
  - apply Forall_forall. intros g Hg Hp. apply (HP g Hg). set_solver.
Qed.

Lemma manifest_new_paths spec manifest :
  manifest_new spec = Ok manifest -> NoDup (cf_path <$> cm_files manifest).
Proof.
  unfold manifest_new. rewrite guard_bind_Ok, result_bind_Ok.
  intros (_ & kinds & Hk%scan_sources_paths & Hm). rewrite guard_bind_Ok in Hm.
  destruct Hm as [_ [= <-]]. tauto.
Qed.

Lemma scan_sources_kinds files P K kinds :
  scan_sources files P K = Ok kinds -> forall kind, kind ∈ kinds -> kind ∈ K \/ kind ∈ cf_kind <$> files.
Proof.
  revert P K. induction files as [|f files IH]; intros P K; cbn; [intros [= <-]; auto|].
  case_decide; [done|]. intros Hs kind Hk. rewrite elem_of_cons. destruct (IH _ _ Hs kind Hk) as [Hin|]; [|auto].
  apply elem_of_cons in Hin as [->|]; auto.
Qed.

(** What a manifest has. *)
Lemma manifest_new_made spec manifest :
  manifest_new spec = Ok manifest ->
  cm_spec manifest = spec /\ trim_is_empty (cm_public_symbol manifest) = false
  /\ forall kind, kind ∈ cf_kind <$> cm_files manifest.
Proof.
  unfold manifest_new. rewrite guard_bind_Ok, result_bind_Ok, !orb_false_iff.
  intros ([[Hs _] _] & kinds & Hk & Hm). rewrite guard_bind_Ok in Hm. destruct Hm as [Hall [= <-]].
  split; [done|]. split; [done|]. intros kind. unfold cm_files. cbn [cm_spec].
  destruct (scan_sources_kinds _ _ _ _ Hk kind) as [Hin|]; [|by apply elem_of_nil in Hin|done].
  apply dec_stable. intros Hn. assert (existsb (fun required => negb (bool_decide (required ∈ kinds)))
    GeneratedSourceKind_ALL = true) as Ht; [|congruence].
  apply existsb_exists. exists kind. split; [destruct kind; cbn; tauto|]. by rewrite bool_decide_false.
Qed.

(** The gate passes exactly the sources that are ready. *)
Lemma gate_passed_ready manifest manifest_digest :
  NoDup (cf_path <$> cm_files manifest) ->
  sg_passed (evaluate_source_gate manifest manifest_digest sources) = true
  <-> exists text, source_ready manifest text.
Proof.
  intros Hnd. destruct (read_files_spec _ Hnd) as [Hc Ht]. unfold evaluate_source_gate. cbv zeta.
  destruct (read_files sources (cm_files manifest)) as [text fs]. cbn [fst snd sg_passed] in *.
  rewrite passed_clear, !clear_app, clear_unless, bool_decide_eq_false, Hc, clear_forbidden,
    clear_device, clear_host, clear_build, clear_mapping.
  split.
  - intros (Hs%dec_stable & Hv & Hown & Hdev & Hhost & [Hr Htg] & Hmi & Hmf). exists text.
    assert (forall p, p ∈ cf_path <$> cm_files manifest <-> is_Some (sources !! p)) as Hset.
    { intros p. rewrite <-elem_of_dom, <-Hs, elem_of_list_to_set. done. }
    constructor; try done.
    + intros file Hf. destruct (Hv file Hf) as [v Ev].
      { apply Hset, list_elem_of_fmap. eauto. }
      exists v. split; [done|]. apply Ht. eauto.
    + intros p [[k v] (file & Hf & <- & _)%Ht]. apply list_elem_of_fmap. eauto.
  - intros (text' & [Hset Hv Htx Hown Hdev Hhost Hr Htg Hmi Hmf]).
    assert (text = text') as <-.
    { apply map_eq. intros p. apply option_eq. intros [k v]. rewrite Ht. split.
      - intros (file & Hf & <- & <- & Ev). destruct (Hv file Hf) as (w & Ew & ->). congruence.
      - intros E. assert (p ∈ cf_path <$> cm_files manifest) as Hp by (apply Htx; eauto).
        apply list_elem_of_fmap in Hp as (file & -> & Hf).
        destruct (Hv file Hf) as (w & Ew & E'). rewrite E' in E. injection E as <- <-. eauto. }
    split_and!; try done.
    + intros Hs. apply Hs. apply set_eq. intros p.
      by rewrite elem_of_list_to_set, elem_of_dom, Hset.
    + intros file Hf _. destruct (Hv file Hf) as (v & Ev & _). eauto.
Qed.

(** C35 The Source Gate passes a candidate exactly when its files are the
    sources given, byte for byte, they are text, none delegates to a
    framework, there is a device source and a host source that exports the
    public symbol, every device and host source is reached from the build
    text through includes (the fixed point is reached within one pass per
    file), the target is defined and the mapping mentions every path.
    Advisory findings never stop a candidate: it passes exactly when
    nothing blocking is reported. *)
Theorem source_gate_passes_exactly (spec : CandidateSourceManifestSpec)
    (manifest : CandidateSourceManifest) (manifest_digest : Sha256Digest)
    (Hm : manifest_new spec = Ok manifest) :
  let r := evaluate_source_gate manifest manifest_digest sources in
  (sg_passed r = true <-> exists text, source_ready manifest text)
  /\ (sg_passed r = true <-> receipt_blocking r = []).
Proof.
  cbn zeta. split; [by apply gate_passed_ready, (manifest_new_paths spec)|].
  unfold evaluate_source_gate. cbv zeta. destruct (read_files sources (cm_files manifest)) as [text fs].
  cbn [sg_passed].
  rewrite passed_clear. unfold receipt_blocking. cbn [sg_failures].
  set (l := _ ++ _). rewrite filter_nil_iff. setoid_rewrite elem_of_sort_by.
  unfold clear. rewrite Forall_forall. setoid_rewrite bool_decide_eq_false.
  split; intros Hl item Hi; specialize (Hl item Hi); destruct (sf_severity item); done.
Qed.

End gate.

(** ** A candidate *)

Definition candidate_text (name : string) : string :=
  if decide (name = "generated/kernel.cpp") then "__aicore__ void kernel();"
  else if decide (name = "generated/host.cpp") then
    "#include <kernel.cpp>" +:+ String line_feed EmptyString +:+ extern_c +:+ " int reduce_sum();"
  else if decide (name = "generated/CMakeLists.txt") then "add_library(reduce_sum_candidate host.cpp)"
  else "src/reduce.cu generated/kernel.cpp generated/host.cpp generated/CMakeLists.txt".

Definition candidate_file (name : string) (kind : GeneratedSourceKind) : CandidateSourceFile :=
  let contents := as_bytes (candidate_text name) in
  MkSourceFile (sample_path name) kind
    (MkArtifactDescriptor (toy_sha contents) (N.of_nat (length contents)) "text/plain; charset=utf-8").

Definition sample_manifest_spec : CandidateSourceManifestSpec :=
  MkManifestSpec (MkId "candidate-1" eq_refl) (MkId "task-1" eq_refl) None (digest_of "spec")
    DirectAscendC "reduce_sum" "reduce_sum_candidate" {[ sample_path "src/reduce.cu" ]}
    (digest_of "bundle")
    [candidate_file "generated/kernel.cpp" AscendCDevice;
     candidate_file "generated/host.cpp" AscendHost;
     candidate_file "generated/CMakeLists.txt" BuildIntegration;
     candidate_file "generated/map.json" ComponentMapping].

Definition sample_manifest : CandidateSourceManifest := MkManifest 1 sample_manifest_spec.

Definition sample_candidate_sources : gmap BundlePath bytes :=
  list_to_map ((fun file => (cf_path file, as_bytes (candidate_text (bp_str (cf_path file)))))
                 <$> sp_files sample_manifest_spec).

Lemma sample_manifest_new : manifest_new sample_manifest_spec = Ok sample_manifest.
Proof.
  assert (scan_sources (sp_files sample_manifest_spec) ∅ []
    = Ok [ComponentMapping; BuildIntegration; AscendHost; AscendCDevice]) as Hs
    by (vm_compute; reflexivity).
  assert (trim_is_empty (sp_public_symbol sample_manifest_spec)
    || trim_is_empty (sp_build_target sample_manifest_spec)
    || bool_decide (sp_input_source_paths sample_manifest_spec = ∅) = false) as Hl
    by (vm_compute; reflexivity).
  unfold manifest_new. rewrite Hs, Hl. done.
Qed.

Lemma sample_gate_passes :
  sg_passed (@evaluate_source_gate toy_sha sample_manifest (digest_of "manifest")
    sample_candidate_sources) = true.
Proof. vm_compute. reflexivity. Qed.

(** The kernel is reached through the host source that includes it. *)
Lemma source_gate_passes_exactly_witness :
  exists text, @source_ready toy_sha sample_candidate_sources sample_manifest text.
Proof.
  pose proof (@source_gate_passes_exactly toy_sha sample_candidate_sources sample_manifest_spec
    sample_manifest (digest_of "manifest") sample_manifest_new) as [H _].
  apply H, sample_gate_passes.
Defined.
