(* ===== verification/Binary.v ===== *)
(** * Binary floating point

    The [f32] and [f64] operations of the reduction oracle, on the
    Standard Library's specification of IEEE 754 (round to nearest, ties to
    even).  A value is a [spec_float]; a NaN has no payload, and its bits
    are those of the canonical quiet NaN. *)

From Stdlib Require Import ZArith NArith Lia SpecFloat.
From stdpp Require Import base numbers.
From S2P Require Import Prelude.

(** ** Formats *)

Definition f32_prec : Z := 24.
Definition f32_emax : Z := 128.
Definition f64_prec : Z := 53.
Definition f64_emax : Z := 1024.

Definition is_finite (x : spec_float) : bool :=
  match x with S754_zero _ | S754_finite _ _ _ => true | _ => false end.

(** A float from a sign, a positive significand and an exponent. *)
Definition finite_of (s : bool) (m : N) (e : Z) : spec_float :=
  match m with N0 => S754_zero s | Npos p => S754_finite s p e end.

(** [f32::from_bits]. *)
Definition f32_from_bits (bits : N) : spec_float :=
  let s := N.testbit bits 31 in
  let e := N.land (N.shiftr bits 23) 255 in
  let m := N.land bits (N.ones 23) in
  if (e =? 255)%N then if (m =? 0)%N then S754_infinity s else S754_nan
  else if (e =? 0)%N then finite_of s m (-149)
  else finite_of s (m + 2 ^ 23) (Z.of_N e - 150).

Definition sign_bit (s : bool) : N := if s then 2 ^ 31 else 0.

(** [f32::to_bits] of an [f32] value. *)
Definition f32_to_bits (x : spec_float) : N :=
  match x with
  | S754_zero s => sign_bit s
  | S754_infinity s => sign_bit s + N.shiftl 255 23
  | S754_nan => 0x7fc00000
  | S754_finite s m e =>
      if (N.pos m <? 2 ^ 23)%N then sign_bit s + N.pos m
      else sign_bit s + N.shiftl (Z.to_N (e + 150)) 23 + (N.pos m - 2 ^ 23)
  end%N.

(** ** Conversions *)

(** [f64::from(f32)], which is exact. *)
Definition f64_of_f32 (x : spec_float) : spec_float :=
  match x with S754_finite s m e => binary_round f64_prec f64_emax s m e | _ => x end.

(** [x as f32]. *)
Definition f32_of_f64 (x : spec_float) : spec_float :=
  match x with S754_finite s m e => binary_round f32_prec f32_emax s m e | _ => x end.

(** [f64::from(u32)]. *)
Definition f64_of_N (n : N) : spec_float :=
  binary_normalize f64_prec f64_emax (Z.of_N n) 0 false.

(** A decimal literal [p / q], correctly rounded. *)
Definition f32_of_N (n : N) : spec_float :=
  binary_normalize f32_prec f32_emax (Z.of_N n) 0 false.
Definition f32_literal (p q : N) : spec_float := SFdiv f32_prec f32_emax (f32_of_N p) (f32_of_N q).

(** [x as u64]: truncation that saturates; NaN is zero. *)
Definition f64_to_u64 (x : spec_float) : N :=
  match x with
  | S754_finite false m e =>
      N.min u64_max (if (0 <=? e)%Z then N.shiftl (N.pos m) (Z.to_N e)
                     else N.shiftr (N.pos m) (Z.to_N (- e)))
  | S754_infinity false => u64_max
  | _ => 0%N
  end.

(** ** Arithmetic *)

Definition f32_add : spec_float -> spec_float -> spec_float := SFadd f32_prec f32_emax.
Definition f32_mul : spec_float -> spec_float -> spec_float := SFmul f32_prec f32_emax.
Definition f64_sub : spec_float -> spec_float -> spec_float := SFsub f64_prec f64_emax.
Definition f64_mul : spec_float -> spec_float -> spec_float := SFmul f64_prec f64_emax.
Definition f64_div : spec_float -> spec_float -> spec_float := SFdiv f64_prec f64_emax.

(** [f32::mul_add]: one rounding.  The product of two non-zero finite
    values is exact before the addition; every other product is exact as a
    float. *)
Definition f32_mul_add (x y z : spec_float) : spec_float :=
  match x, y, z with
  | S754_finite sx mx ex, S754_finite sy my ey, S754_finite sz mz ez =>
      let e := Z.min (ex + ey) ez in
      let product := cond_Zopp (xorb sx sy) (Z.shiftl (Zpos (mx * my)) (ex + ey - e)) in
      binary_normalize f32_prec f32_emax
        (product + cond_Zopp sz (Z.shiftl (Zpos mz) (ez - e))) e false
  | S754_finite sx mx ex, S754_finite sy my ey, S754_zero _ =>
      binary_round f32_prec f32_emax (xorb sx sy) (mx * my) (ex + ey)
  | S754_finite _ _ _, S754_finite _ _ _, _ => z
  | _, _, _ => f32_add (f32_mul x y) z
  end.

(** [f64::max]: a NaN is ignored. *)
Definition f64_max (x y : spec_float) : spec_float :=
  match x, y with
  | S754_nan, _ => y
  | _, S754_nan => x
  | _, _ => if SFltb x y then y else x
  end.

(** [f64::ceil]. *)
Definition f64_ceil (x : spec_float) : spec_float :=
  match x with
  | S754_finite s m e =>
      if (0 <=? e)%Z then x else
      match (- ((- cond_Zopp s (Zpos m)) / Z.shiftl 1 (- e)))%Z with
      | Z0 => S754_zero s
      | c => binary_normalize f64_prec f64_emax c 0 s
      end
  | _ => x
  end.

(** ** Checks against known values *)

Example bits_of_literals :
  f32_to_bits (f32_literal 11 10) = 0x3F8CCCCD%N
  /\ f32_to_bits (f32_literal 1 100) = 0x3C23D70A%N
  /\ f32_to_bits (f32_literal 105 100) = 0x3F866666%N
  /\ f32_to_bits (f32_literal 1 8388608) = 0x34000000%N
  /\ f32_to_bits (f32_mul (f32_from_bits 0x7F7FFFFF) (f32_literal 11 10)) = 0x7F800000%N.
Proof. vm_compute. auto. Qed.

Example ceil_rounds_up :
  f64_to_u64 (f64_ceil (f64_div (f64_of_N 7) (f64_of_N 2))) = 4%N
  /\ f64_ceil (f64_sub (S754_zero false) (f64_div (f64_of_N 1) (f64_of_N 2))) = S754_zero true.
Proof. vm_compute. auto. Qed.

(** ** Signs

    Rounding keeps the sign and makes no NaN, so the arithmetic of
    non-negative values stays among them. *)

Definition signed (s : bool) (x : spec_float) : Prop :=
  match x with
  | S754_nan => False
  | S754_zero t | S754_infinity t | S754_finite t _ _ => t = s
  end.

Lemma iter_pos_invariant {A} (P : A -> Prop) (f : A -> A) n x :
  (forall y, P y -> P (f y)) -> P x -> P (SpecFloat.iter_pos f n x).
Proof. intros Hf. revert x. induction n as [n IH|n IH|]; intros x Hx; cbn; auto. Qed.

Lemma shr_nonneg mrs e n : (0 <= shr_m mrs)%Z -> (0 <= shr_m (shr mrs e n).1)%Z.
Proof.
  intros H. destruct n as [|p|p]; cbn; [done| |done].
  apply (iter_pos_invariant (fun mrs => 0 <= shr_m mrs)%Z); [|done].
  intros [m r s] Hm. destruct m as [|[q|q|]|[q|q|]]; cbn in *; lia.
Qed.

Lemma shr_record_of_loc_m m l : shr_m (shr_record_of_loc m l) = m.
Proof. by destruct l as [|[]]. Qed.

Lemma round_nearest_even_nonneg m l : (0 <= m)%Z -> (0 <= round_nearest_even m l)%Z.
Proof. destruct l as [|[]]; cbn; try lia. destruct (Z.even m); lia. Qed.

Section rounding.
Context (prec emax : Z).

Lemma shr_fexp_nonneg m e l : (0 <= m)%Z -> (0 <= shr_m (shr_fexp prec emax m e l).1)%Z.
Proof. intros H. apply shr_nonneg. by rewrite shr_record_of_loc_m. Qed.

Lemma binary_round_aux_signed s m e l :
  (0 <= m)%Z -> signed s (binary_round_aux prec emax s m e l).
Proof.
  intros H. unfold binary_round_aux.
  pose proof (shr_fexp_nonneg m e l H) as H1. destruct (shr_fexp _ _ m e l) as [mrs1 e1]. cbn in H1.
  pose proof (shr_fexp_nonneg _ e1 loc_Exact
    (round_nearest_even_nonneg _ (loc_of_shr_record mrs1) H1)) as H2.
  destruct (shr_fexp _ _ _ e1 loc_Exact) as [mrs2 e2]. cbn in H2.
  destruct (shr_m mrs2) as [|p|p]; [done| |lia]. by destruct (e2 <=? emax - prec)%Z.
Qed.

Lemma binary_round_signed s m e : signed s (binary_round prec emax s m e).
Proof.
  unfold binary_round. destruct (shl_align _ _ _). by apply binary_round_aux_signed.
Qed.

Lemma SFmul_signed s t x y :
  signed s x -> signed t y ->
  (forall u v, x = S754_infinity u -> y = S754_zero v -> False) ->
  (forall u v, x = S754_zero u -> y = S754_infinity v -> False) ->
  signed (xorb s t) (SFmul prec emax x y).
Proof.
  intros Hx Hy H1 H2.
  destruct x as [u|u| |u m e], y as [v|v| |v n f]; cbn in Hx, Hy; subst; try done; cbn.
  - by destruct (H2 s t).
  - by destruct (H1 s t).
  - by apply binary_round_aux_signed.
Qed.

Lemma SFdiv_core_nonneg m e n f :
  let '(q, _, _) := SFdiv_core_binary prec emax (Zpos m) e (Zpos n) f in (0 <= q)%Z.
Proof.
  unfold SFdiv_core_binary. cbv zeta.
  set (e' := Z.min _ _). set (m' := match (e - f - e')%Z with Z0 => _ | Zpos _ => _ | Zneg _ => _ end).
  assert (0 <= m')%Z as Hm.
  { unfold m'. destruct (e - f - e')%Z eqn:E; [lia| |lia]. apply Z.shiftl_nonneg. lia. }
  pose proof (Z.div_pos m' (Zpos n) Hm ltac:(lia)) as Hq. unfold Z.div in Hq.
  by destruct (Z.div_eucl m' (Zpos n)).
Qed.

(** A finite dividend and a non-zero finite divisor. *)
Lemma SFdiv_signed s t x n f :
  signed s x -> is_finite x = true ->
  signed (xorb s t) (SFdiv prec emax x (S754_finite t n f)).
Proof.
  intros Hx Hf. destruct x as [u|u| |u m e]; cbn in Hx, Hf; subst; try done. cbn.
  pose proof (SFdiv_core_nonneg m e n f) as Hq.
  destruct (SFdiv_core_binary _ _ _ _ _ _) as [[q ex] l]. by apply binary_round_aux_signed.
Qed.

End rounding.

(** ** Facts of the comparisons *)

Lemma SFabs_unsigned x : x <> S754_nan -> signed false (SFabs x).
Proof. by destruct x. Qed.

Lemma SFsub_self prec emax x : is_finite x = true -> SFsub prec emax x x = S754_zero false.
Proof. destruct x as [s| | |s m e]; try done; cbn; intros _; [by destruct s|]. by rewrite Z.sub_diag. Qed.

Lemma SFleb_zero y : signed false y -> SFleb (S754_zero false) y = true.
Proof. destruct y as [s|s| |s m e]; cbn; intros E; subst; done. Qed.

Lemma f64_max_unsigned x y : signed false x -> signed false y -> signed false (f64_max x y).
Proof. intros Hx Hy. destruct x, y; cbn in Hx, Hy; subst; cbn; try done; by case_match. Qed.

Lemma f64_max_zero_r x : signed false x -> f64_max x (S754_zero false) = x.
Proof. destruct x; cbn; intros E; subst; done. Qed.

Lemma f64_of_N_unsigned n : signed false (f64_of_N n).
Proof. unfold f64_of_N. destruct n; cbn; [done|]. apply binary_round_signed. Qed.

Lemma f64_of_f32_finite x : is_finite x = true -> f64_of_f32 x <> S754_nan.
Proof.
  destruct x as [s| | |s m e]; try done. intros _ E. cbn in E.
  pose proof (binary_round_signed f64_prec f64_emax s m e) as Hs. by rewrite E in Hs.
Qed.

(** ** Bits *)

Lemma f32_bits_roundtrip bits :
  (bits < 2 ^ 32)%N -> f32_from_bits bits <> S754_nan -> f32_to_bits (f32_from_bits bits) = bits.
Proof.
  intros Hb. unfold f32_from_bits.
  assert (bits = sign_bit (N.testbit bits 31) + N.shiftl (N.land (N.shiftr bits 23) 255) 23
    + N.land bits (N.ones 23))%N as Hsplit.
  { change 255%N with (N.ones 8). rewrite !N.land_ones, N.shiftl_mul_pow2, N.shiftr_div_pow2.
    assert (N.testbit bits 31 = N.odd (bits / 2 ^ 31)) as -> by (rewrite N.testbit_odd, N.shiftr_div_pow2; done).
    assert (bits / 2 ^ 31 < 2)%N by (apply N.Div0.div_lt_upper_bound; lia).
    assert (bits / 2 ^ 31 = (bits / 2 ^ 23) / 2 ^ 8)%N as E31 by (rewrite N.Div0.div_div; done).
    assert (sign_bit (N.odd (bits / 2 ^ 31)) = 2 ^ 31 * (bits / 2 ^ 31))%N as ->.
    { destruct (bits / 2 ^ 31)%N as [|[p|p|]] eqn:E; [done|lia..|done]. }
    rewrite E31. pose proof (N.Div0.div_mod bits (2 ^ 23)). pose proof (N.Div0.div_mod (bits / 2 ^ 23) (2 ^ 8)).
    lia. }
  set (s := N.testbit bits 31) in *. set (e := N.land (N.shiftr bits 23) 255) in *.
  set (m := N.land bits (N.ones 23)) in *.
  assert (m < 2 ^ 23)%N as Hm by (unfold m; rewrite N.land_ones; apply N.mod_lt; done).
  assert (e < 256)%N as He.
  { unfold e. change 255%N with (N.ones 8). rewrite N.land_ones. by apply N.mod_lt. }
  clearbody s e m. destruct (N.eqb_spec e 255) as [->|He1].
  - destruct (N.eqb_spec m 0) as [->|?]; [|done]. intros _. cbn. rewrite Hsplit. lia.
  - intros _. destruct (N.eqb_spec e 0) as [->|He0].
    + rewrite Hsplit. destruct m as [|p]; [by destruct s|]. unfold finite_of, f32_to_bits.
      rewrite (proj2 (N.ltb_lt _ _) Hm). rewrite N.shiftl_0_l. lia.
    + destruct (m + 2 ^ 23)%N as [|p] eqn:Ep; [lia|]. unfold finite_of, f32_to_bits. 
      rewrite (proj2 (N.ltb_ge _ _)) by lia.
      replace (Z.to_N (Z.of_N e - 150 + 150)) with e by lia. rewrite Hsplit. lia.
Qed.
