(* ===== verification/ReductionRun.v ===== *)
(** * Reduction runs and corpora

    [src/crates/alloyport-core/src/correctness.rs] (runs, receipts and
    identities), [correctness_execution.rs] (corpora and execution
    bundles), [correctness_attempt.rs] (the execution port) and
    [correctness_tolerance.rs] (plans and policies).  [serde_json]'s
    encoders are a parameter, one field per type that is digested. *)

From Stdlib Require Import Ascii NArith ZArith Lia.
From stdpp Require Import base strings pretty gmap list.
From S2P Require Import Prelude Text Digest Encoding Identity Migration.

Definition REDUCTION_RUN_RECEIPT_SCHEMA_V1 : N := 1.
Definition REDUCTION_NOISE_FLOOR_SCHEMA_V1 : N := 1.
Definition REDUCTION_CALIBRATION_RECEIPT_SCHEMA_V1 : N := 1.
Definition REDUCTION_CORRECTNESS_RECEIPT_SCHEMA_V1 : N := 1.
Definition REDUCTION_EXECUTION_BUNDLE_SCHEMA_V1 : N := 1.
Definition REDUCTION_ORACLE_REVISION_V1 : string := "cuda-reduction-differential-oracle-v1".
Definition REDUCTION_CORPUS_REVISION_V1 : string := "cuda-reduction-corpus-v1".
Definition MAX_EXECUTION_SOURCE_BYTES : N := 16 * 1024 * 1024.

(** ** Errors *)

(** [enum ReductionCorrectnessError]; [E] is [serde_json::Error]. *)
Inductive ReductionCorrectnessError (E : Type) :=
| InvalidObservation
| InvalidRunContext
| DuplicateObservation
| ReferenceRoleRequired
| ExperimentIdentityMismatch
| InvalidCorpus
| InvalidExecutionSource
| InvalidExecutionBundle
| NoiseFloorUnavailable
| Serialization (e : E).
Arguments InvalidObservation {E}.
Arguments InvalidRunContext {E}.
Arguments DuplicateObservation {E}.
Arguments ReferenceRoleRequired {E}.
Arguments ExperimentIdentityMismatch {E}.
Arguments InvalidCorpus {E}.
Arguments InvalidExecutionSource {E}.
Arguments InvalidExecutionBundle {E}.
Arguments NoiseFloorUnavailable {E}.
Arguments Serialization {E} e.

(** Why a document with the fields of a receipt is refused. *)
Inductive DocumentError (E : Type) :=
| UnsupportedDocument
| RejectedDocument (e : E)
| MismatchedDocument.
Arguments UnsupportedDocument {E}.
Arguments RejectedDocument {E} e.
Arguments MismatchedDocument {E}.

(** ** Runs *)

(** [enum ReductionRunRole]. *)
Inductive ReductionRunRole := CudaReference | AscendCandidate.

#[export] Instance ReductionRunRole_eq_dec : EqDecision ReductionRunRole.
Proof. solve_decision. Defined.

(** [struct ReductionObservation]; the bits are [u32]. *)
Record ReductionObservation := MkObservation {
  ob_case_id : string;
  ob_repetition : N;
  ob_elements : N;
  ob_input_digest : Sha256Digest;
  ob_status : Z;
  ob_output_bits : option N;
  ob_reorder_output_bits : option N;
}.

(** The characters of a case identity. *)
Definition case_id_byte (a : ascii) : bool :=
  is_ascii_alphanumeric a || bool_decide (a = "-"%char) || bool_decide (a = "_"%char).

Definition case_id_invalid (case_id : string) : bool :=
  bool_decide (case_id = EmptyString) || (128 <? String.length case_id)%nat
  || negb (all_bytes case_id_byte case_id).

(** [ReductionObservation::validate]. *)
Definition observation_validate {E : Type} (self : ReductionObservation)
    : result (ReductionCorrectnessError E) unit :=
  _ ← guard_err (case_id_invalid (ob_case_id self) || (ob_repetition self =? 0)%N)
        InvalidObservation;
  _ ← guard_err (negb (eqb (ob_status self =? 0)%Z (bool_decide (is_Some (ob_output_bits self)))))
        InvalidObservation;
  guard_err (bool_decide (is_Some (ob_reorder_output_bits self))
             && bool_decide (ob_output_bits self = None)) InvalidObservation.

(** [struct ReductionRunReceipt]. *)
Record ReductionRunReceipt := MkRun {
  rr_schema_version : N;
  rr_experiment_digest : Sha256Digest;
  rr_role : ReductionRunRole;
  rr_candidate_id : option CandidateId;
  rr_implementation_digest : Sha256Digest;
  rr_corpus_digest : Sha256Digest;
  rr_environment_digest : Sha256Digest;
  rr_implementation_invoked : bool;
  rr_synchronized : bool;
  rr_observations : list ReductionObservation;
}.

(** The key of an observation and of a case. *)
Definition Key : Type := string * N.
Definition ob_key (o : ReductionObservation) : Key := (ob_case_id o, ob_repetition o).

(** The loop of [ReductionRunReceipt::new]. *)
Fixpoint check_observations {E : Type} (observations : list ReductionObservation) (keys : gset Key)
    : result (ReductionCorrectnessError E) unit :=
  match observations with
  | [] => Ok tt
  | o :: observations =>
      _ ← observation_validate o;
      _ ← guard_err (bool_decide (ob_key o ∈ keys)) DuplicateObservation;
      check_observations observations ({[ ob_key o ]} ∪ keys)
  end.

(** [ReductionRunReceipt::new]. *)
Definition run_new {E : Type} (experiment_digest : Sha256Digest) (role : ReductionRunRole)
    (candidate_id : option CandidateId)
    (implementation_digest corpus_digest environment_digest : Sha256Digest)
    (implementation_invoked synchronized : bool) (observations : list ReductionObservation)
    : result (ReductionCorrectnessError E) ReductionRunReceipt :=
  _ ← guard_err (bool_decide (observations = [])
        || match role with
           | CudaReference => bool_decide (is_Some candidate_id)
           | AscendCandidate => bool_decide (candidate_id = None)
           end) InvalidRunContext;
  _ ← check_observations observations ∅;
  Ok (MkRun REDUCTION_RUN_RECEIPT_SCHEMA_V1 experiment_digest role candidate_id
        implementation_digest corpus_digest environment_digest implementation_invoked synchronized
        observations).

(** [Deserialize for ReductionRunReceipt], given a document with the
    fields of the receipt. *)
Definition run_from_document {E : Type} (document : ReductionRunReceipt)
    : result (DocumentError (ReductionCorrectnessError E)) ReductionRunReceipt :=
  _ ← guard_err (negb (rr_schema_version document =? REDUCTION_RUN_RECEIPT_SCHEMA_V1)%N)
        UnsupportedDocument;
  map_err RejectedDocument
    (run_new (rr_experiment_digest document) (rr_role document) (rr_candidate_id document)
       (rr_implementation_digest document) (rr_corpus_digest document)
       (rr_environment_digest document) (rr_implementation_invoked document)
       (rr_synchronized document) (rr_observations document)).

(** ** Corpora *)

(** [enum ReductionCaseKind]. *)
Inductive ReductionCaseKind := Valid | NullInput | NullOutput | UnsupportedSize.

(** [struct ReductionCorpusCase]. *)
Record ReductionCorpusCase := MkCase {
  rc_case_id : string;
  rc_repetition : N;
  rc_elements : N;
  rc_seed : N;
  rc_kind : ReductionCaseKind;
}.

Definition rc_key (c : ReductionCorpusCase) : Key := (rc_case_id c, rc_repetition c).

(** [struct ReductionCorpus]. *)
Record ReductionCorpus := MkCorpus {
  co_revision : string;
  co_cases : list ReductionCorpusCase;
}.

(** The condition on one case in [ReductionCorpus::new]. *)
Definition case_invalid (c : ReductionCorpusCase) (keys : gset Key) : bool :=
  case_id_invalid (rc_case_id c) || (rc_repetition c =? 0)%N || bool_decide (rc_key c ∈ keys)
  || match rc_kind c with
     | NullInput => (rc_elements c =? 0)%N
     | UnsupportedSize => (rc_elements c <=? 1048576)%N
     | _ => false
     end.

Fixpoint check_cases {E : Type} (cases : list ReductionCorpusCase) (keys : gset Key)
    : result (ReductionCorrectnessError E) unit :=
  match cases with
  | [] => Ok tt
  | c :: cases =>
      _ ← guard_err (case_invalid c keys) InvalidCorpus;
      check_cases cases ({[ rc_key c ]} ∪ keys)
  end.

(** [ReductionCorpus::new]. *)
Definition corpus_new {E : Type} (revision : string) (cases : list ReductionCorpusCase)
    : result (ReductionCorrectnessError E) ReductionCorpus :=
  _ ← guard_err (trim_is_empty revision || bool_decide (cases = []) || (256 <? length cases)%nat)
        InvalidCorpus;
  _ ← check_cases cases ∅;
  Ok (MkCorpus revision cases).

(** [ReductionCorpus::fixture_v1]. *)
Definition fixture_valid (entry : nat * N) : list ReductionCorpusCase :=
  (fun repetition => MkCase ("valid-" +:+ pretty entry.2) repetition entry.2
     ((0x5eed1234 + N.of_nat entry.1) mod 2 ^ 32)%N Valid) <$> [1%N; 2%N].

Definition fixture_invalid (entry : string * ReductionCaseKind * N) : list ReductionCorpusCase :=
  (fun repetition => MkCase entry.1.1 repetition entry.2 0x5eed9000 entry.1.2) <$> [1%N; 2%N].

Definition fixture_v1 : ReductionCorpus :=
  MkCorpus "cuda-reduction-corpus-v1"
    (mjoin (fixture_valid <$> imap pair [0; 1; 3; 255; 256; 257; 4097; 65536; 1048576]%N)
     ++ mjoin (fixture_invalid <$>
          [("invalid-null-input", NullInput, 1%N); ("invalid-null-output", NullOutput, 1%N);
           ("unsupported-size", UnsupportedSize, 1048577%N)])).

Definition case_kind_byte (k : ReductionCaseKind) : Byte.byte :=
  match k with
  | Valid => Byte.x01 | NullInput => Byte.x02 | NullOutput => Byte.x03 | UnsupportedSize => Byte.x04
  end.

(** What [ReductionCorpusCase::input_digest] hashes. *)
Definition input_bytes (self : ReductionCorpusCase) : bytes :=
  as_bytes "alloyport-reduction-input-v1" ++ [Byte.x00]
  ++ as_bytes (rc_case_id self) ++ be_bytes 2 (rc_repetition self) ++ be_bytes 8 (rc_elements self)
  ++ be_bytes 4 (rc_seed self) ++ [case_kind_byte (rc_kind self)].

(** [ReductionCorpusCase::input_digest]. *)
Definition case_input_digest `{Sha256} (self : ReductionCorpusCase) : Sha256Digest :=
  digest_bytes (input_bytes self).

(** ** Floors, plans and policies *)

(** [struct ReductionNoiseFloor]. *)
Record ReductionNoiseFloor := MkFloor {
  nf_schema_version : N;
  nf_corpus_digest : Sha256Digest;
  nf_reference_run_digest : Sha256Digest;
  nf_observed_absolute_nanos : N;
  nf_observed_relative_ppb : N;
  nf_repetition_pairs : N;
  nf_reorder_pairs : N;
  nf_deterministic : bool;
}.

(** [enum ToleranceProvenance]. *)
Inductive ToleranceProvenance :=
| MeasuredFloor (floor_digest : Sha256Digest) (slack_percent : N)
| Asserted (justification : string).

(** [struct ReductionTolerancePlan]. *)
Record ReductionTolerancePlan := MkPlan {
  tp_slack_percent : N;
  tp_required_repetitions : N;
}.

(** [ReductionTolerancePlan::fixture_v1]. *)
Definition plan_fixture_v1 : ReductionTolerancePlan := MkPlan 50 2.

(** [struct ReductionOraclePolicy]. *)
Record ReductionOraclePolicy := MkOraclePolicy {
  op_absolute_tolerance_nanos : N;
  op_relative_tolerance_ppb : N;
  op_required_repetitions : N;
  op_provenance : ToleranceProvenance;
}.

(** [ReductionOraclePolicy::asserted_v1]. *)
Definition asserted_v1 : ReductionOraclePolicy :=
  MkOraclePolicy 100000 20000 2
    (Asserted "first reduction specimen, chosen before any floor was measured").

(** ** Experiments and bundles *)

(** [struct ReductionCorrectnessExperiment]. *)
Record ReductionCorrectnessExperiment := MkExperiment {
  ex_experiment_digest : Sha256Digest;
  ex_task_id : TaskId;
  ex_candidate_id : CandidateId;
  ex_migration_spec_digest : Sha256Digest;
  ex_manifest_digest : Sha256Digest;
  ex_source_gate_receipt_digest : Sha256Digest;
  ex_build_gate_receipt_digest : Sha256Digest;
  ex_corpus_digest : Sha256Digest;
  ex_tolerance_plan_digest : Sha256Digest;
}.

(** What [ReductionCorrectnessExperiment::new] hashes. *)
Definition experiment_bytes (task_id : TaskId) (candidate_id : CandidateId)
    (digests : list Sha256Digest) : bytes :=
  as_bytes "alloyport-reduction-correctness-experiment-v1" ++ [Byte.x00]
  ++ as_bytes (as_str task_id) ++ as_bytes (as_str candidate_id)
  ++ mjoin (digest_body <$> digests).

(** [ReductionCorrectnessExperiment::new]. *)
Definition experiment_new `{Sha256} (task_id : TaskId) (candidate_id : CandidateId)
    (migration_spec_digest manifest_digest source_gate_receipt_digest build_gate_receipt_digest
     corpus_digest tolerance_plan_digest : Sha256Digest) : ReductionCorrectnessExperiment :=
  MkExperiment
    (digest_bytes (experiment_bytes task_id candidate_id
       [migration_spec_digest; manifest_digest; source_gate_receipt_digest;
        build_gate_receipt_digest; corpus_digest; tolerance_plan_digest]))
    task_id candidate_id migration_spec_digest manifest_digest source_gate_receipt_digest
    build_gate_receipt_digest corpus_digest tolerance_plan_digest.

(** [struct ReductionExecutionFile]. *)
Record ReductionExecutionFile := MkExecutionFile {
  ef_path : BundlePath;
  ef_digest : Sha256Digest;
  ef_size_bytes : N;
  ef_contents : string;
}.

(** [ReductionExecutionFile::new]. *)
Definition execution_file_new `{Sha256} {E : Type} (path : BundlePath) (contents : string)
    : result (ReductionCorrectnessError E) ReductionExecutionFile :=
  _ ← guard_err (bool_decide (contents = EmptyString)
                 || (MAX_EXECUTION_SOURCE_BYTES <? N.of_nat (String.length contents))%N)
        InvalidExecutionSource;
  Ok (MkExecutionFile path (digest_bytes (as_bytes contents))
        (default u64_max (try_from_len u64_max (String.length contents))) contents).

(** [Deserialize for ReductionExecutionFile]: the document names the
    identity its contents have. *)
Definition execution_file_from_document `{Sha256} {E : Type} (document : ReductionExecutionFile)
    : result (ReductionCorrectnessError E) ReductionExecutionFile :=
  file ← execution_file_new (ef_path document) (ef_contents document);
  if bool_decide (ef_digest file = ef_digest document)
     && (ef_size_bytes file =? ef_size_bytes document)%N
  then Ok file else Err InvalidExecutionSource.

(** [struct CorrectnessCallable]. *)
Record CorrectnessCallable := MkCallable {
  cc_public_symbol : string;
  cc_reference_build_target : string;
  cc_candidate_build_target : string;
}.

Definition starts_with_digit (s : string) : bool :=
  match s with String a _ => is_ascii_digit a | EmptyString => false end.

(** The names accepted by [CorrectnessCallable::is_valid]. *)
Definition callable_name_valid (name : string) : bool :=
  negb (bool_decide (name = EmptyString)) && (String.length name <=? 128)%nat
  && negb (starts_with_digit name)
  && all_bytes (fun c => is_ascii_alphanumeric c || bool_decide (c = "_"%char)) name.

(** [CorrectnessCallable::is_valid]. *)
Definition callable_is_valid (self : CorrectnessCallable) : bool :=
  forallb callable_name_valid
    [cc_public_symbol self; cc_reference_build_target self; cc_candidate_build_target self].

(** [CorrectnessCallable::build_target]. *)
Definition callable_build_target (self : CorrectnessCallable) (role : ReductionRunRole) : string :=
  match role with
  | CudaReference => cc_reference_build_target self
  | AscendCandidate => cc_candidate_build_target self
  end.

(** [struct ReductionExecutionBundle]. *)
Record ReductionExecutionBundle := MkExecutionBundle {
  eb_schema_version : N;
  eb_experiment : ReductionCorrectnessExperiment;
  eb_role : ReductionRunRole;
  eb_candidate_id : option CandidateId;
  eb_implementation_digest : Sha256Digest;
  eb_callable : CorrectnessCallable;
  eb_corpus : ReductionCorpus;
  eb_files : list ReductionExecutionFile;
}.

(** The sum of the sizes with [checked_add] of [usize]. *)
Fixpoint checked_total (files : list ReductionExecutionFile) (total : N) : option N :=
  match files with
  | [] => Some total
  | file :: files =>
      total ← checked_add u64_max total (N.of_nat (String.length (ef_contents file)));
      checked_total files total
  end.

Definition oversized (files : list ReductionExecutionFile) : bool :=
  match checked_total files 0 with
  | Some size => (MAX_EXECUTION_SOURCE_BYTES <? size)%N
  | None => true
  end.

Definition expected_root (role : ReductionRunRole) : string :=
  match role with CudaReference => "input/" | AscendCandidate => "generated/" end.

(** A path outside the root of the role or seen before. *)
Fixpoint misplaced_path (root : string) (files : list ReductionExecutionFile)
    (paths : gset BundlePath) : bool :=
  match files with
  | [] => false
  | file :: files =>
      negb (starts_with root (bp_str (ef_path file))) || bool_decide (ef_path file ∈ paths)
      || misplaced_path root files ({[ ef_path file ]} ∪ paths)
  end.

Definition implementation_bytes (files : list ReductionExecutionFile) : bytes :=
  as_bytes "alloyport-reduction-implementation-v1" ++ [Byte.x00]
  ++ mjoin ((fun file => as_bytes (bp_str (ef_path file)) ++ digest_body (ef_digest file)) <$> files).

(** [struct ReductionCorrectnessAttemptSpec] and
    [enum ReductionCorrectnessAttemptObservation] (correctness_attempt.rs). *)
Record ReductionCorrectnessAttemptSpec := MkAttemptSpec {
  as_experiment : ReductionCorrectnessExperiment;
  as_reference_bundle : ArtifactDescriptor;
  as_candidate_bundle : ArtifactDescriptor;
}.

Inductive ReductionCorrectnessAttemptObservation :=
| AttemptPending (diagnostic_digest : Sha256Digest)
| AttemptFinished (reference_run candidate_run : ArtifactDescriptor).

Inductive ReductionCorrectnessAttemptError :=
| AttemptUnavailable (detail : string)
| AttemptRejected (detail : string)
| AttemptIntegrity (detail : string).

(** [serde_json::to_vec] on the digested types. *)
Class ReductionJson := {
  rj_error : Type;
  corpus_to_vec : ReductionCorpus -> result rj_error bytes;
  run_to_vec : ReductionRunReceipt -> result rj_error bytes;
  floor_to_vec : ReductionNoiseFloor -> result rj_error bytes;
  plan_to_vec : ReductionTolerancePlan -> result rj_error bytes;
  policy_to_vec : ReductionOraclePolicy -> result rj_error bytes;
  bundle_to_vec : ReductionExecutionBundle -> result rj_error bytes;
}.

Section digests.
Context `{Sha256, ReductionJson}.

Abbreviation Error := (ReductionCorrectnessError rj_error).

(** [From<serde_json::Error>] at a [?]. *)
Definition digest_or {E : Type} (r : result E bytes) : result (ReductionCorrectnessError E) Sha256Digest :=
  map_err Serialization (digest_bytes <$> r).

(** The [digest] methods. *)
Definition corpus_digest (self : ReductionCorpus) : result Error Sha256Digest :=
  digest_or (corpus_to_vec self).
Definition run_digest (self : ReductionRunReceipt) : result Error Sha256Digest :=
  digest_or (run_to_vec self).
Definition floor_digest (self : ReductionNoiseFloor) : result Error Sha256Digest :=
  digest_or (floor_to_vec self).
Definition plan_digest (self : ReductionTolerancePlan) : result Error Sha256Digest :=
  digest_or (plan_to_vec self).
Definition oracle_policy_digest (self : ReductionOraclePolicy) : result Error Sha256Digest :=
  digest_or (policy_to_vec self).

Definition execution_bundle_digest (self : ReductionExecutionBundle) : result Error Sha256Digest :=
  digest_or (bundle_to_vec self).

(** [ReductionExecutionBundle::new]. *)
Definition execution_bundle_new (experiment : ReductionCorrectnessExperiment)
    (role : ReductionRunRole) (callable : CorrectnessCallable) (corpus : ReductionCorpus)
    (files : list ReductionExecutionFile) : result Error ReductionExecutionBundle :=
  _ ← guard_err (negb (callable_is_valid callable)) InvalidExecutionBundle;
  _ ← guard_err (bool_decide (files = [])) InvalidExecutionBundle;
  digest ← corpus_digest corpus;
  _ ← guard_err (bool_decide (digest <> ex_corpus_digest experiment) || oversized files)
        InvalidExecutionBundle;
  _ ← guard_err (misplaced_path (expected_root role) files ∅) InvalidExecutionBundle;
  Ok (MkExecutionBundle REDUCTION_EXECUTION_BUNDLE_SCHEMA_V1 experiment role
        match role with
        | CudaReference => None
        | AscendCandidate => Some (ex_candidate_id experiment)
        end
        (digest_bytes (implementation_bytes files)) callable corpus files).

(** [Deserialize for ReductionExecutionBundle], given a document with the
    fields of the bundle. *)
Definition execution_bundle_from_document (document : ReductionExecutionBundle)
    : result (DocumentError Error) ReductionExecutionBundle :=
  _ ← guard_err (negb (eb_schema_version document =? REDUCTION_EXECUTION_BUNDLE_SCHEMA_V1)%N)
        UnsupportedDocument;
  bundle ← map_err RejectedDocument
    (execution_bundle_new (eb_experiment document) (eb_role document) (eb_callable document)
       (eb_corpus document) (eb_files document));
  _ ← guard_err (bool_decide (eb_candidate_id bundle <> eb_candidate_id document)
        || bool_decide (eb_implementation_digest bundle <> eb_implementation_digest document))
        MismatchedDocument;
  Ok bundle.

(** The closure [widen]: [None] when [100 + slack] leaves [u16] or the
    result leaves [u32]. *)
Definition widen (slack_percent observed : N) : option N :=
  factor ← checked_add u16_max 100 slack_percent;
  let widened := (observed * factor / 100)%N in
  if (widened <=? u32_max)%N then Some widened else None.

(** [ReductionOraclePolicy::derive_from_floor]. *)
Definition derive_from_floor (floor : ReductionNoiseFloor) (slack_percent required_repetitions : N)
    : result Error ReductionOraclePolicy :=
  absolute ← ok_or (widen slack_percent (nf_observed_absolute_nanos floor)) InvalidCorpus;
  relative ← ok_or (widen slack_percent (nf_observed_relative_ppb floor)) InvalidCorpus;
  digest ← floor_digest floor;
  Ok (MkOraclePolicy absolute relative required_repetitions (MeasuredFloor digest slack_percent)).

(** [ReductionTolerancePlan::derive]. *)
Definition plan_derive (self : ReductionTolerancePlan) (floor : ReductionNoiseFloor)
    : result Error ReductionOraclePolicy :=
  derive_from_floor floor (tp_slack_percent self) (tp_required_repetitions self).

End digests.

(** ** Lemmas *)

(** What [validate] demands of an observation. *)
Record observation_ok (o : ReductionObservation) : Prop := {
  oo_case : case_id_invalid (ob_case_id o) = false;
  oo_repetition : ob_repetition o <> 0%N;
  oo_status : ob_status o = 0%Z <-> is_Some (ob_output_bits o);
  oo_reorder : is_Some (ob_reorder_output_bits o) -> is_Some (ob_output_bits o);
}.

Lemma observation_validate_Ok {E : Type} o u :
  observation_validate (E:=E) o = Ok u <-> observation_ok o.
Proof.
  unfold observation_validate. rewrite !guard_bind_Ok, guard_err_Ok, orb_false_iff, N.eqb_neq,
    negb_false_iff, eqb_true_iff, andb_false_iff, !bool_decide_eq_false.
  assert ((ob_status o =? 0)%Z = bool_decide (is_Some (ob_output_bits o))
    <-> (ob_status o = 0%Z <-> is_Some (ob_output_bits o))) as ->.
  { rewrite <-(Z.eqb_eq (ob_status o)). destruct (ob_status o =? 0)%Z; case_bool_decide; naive_solver. }
  split.
  - intros ([H1 H2] & H3 & H4). constructor; try done. intros Hr. apply not_eq_None_Some. tauto.
  - intros [H1 H2 H3 H4]. split_and!; try done. destruct (ob_reorder_output_bits o) as [b|].
    + right. apply not_eq_None_Some. eauto.
    + left. by intros [? [=]].
Qed.

Definition keys_of (observations : list ReductionObservation) : list Key := ob_key <$> observations.

Lemma check_observations_Ok {E : Type} l keys u :
  check_observations (E:=E) l keys = Ok u <->
  Forall observation_ok l /\ NoDup (keys_of l) /\ Forall (fun o => ob_key o ∉ keys) l.
Proof.
  revert keys. induction l as [|o l IH]; intros keys; cbn.
  - destruct u. split; [|done]. intros _. by repeat constructor.
  - rewrite result_bind_Ok, !Forall_cons, NoDup_cons.
    setoid_rewrite observation_validate_Ok. setoid_rewrite guard_bind_Ok.
    setoid_rewrite IH. setoid_rewrite bool_decide_eq_false.
    setoid_rewrite not_elem_of_union. setoid_rewrite not_elem_of_singleton.
    unfold keys_of. split.
    + intros (_ & Ho & Hk & Hl & Hnd & Hf). rewrite Forall_forall in Hf.
      split; [split; [exact Ho|exact Hl]|]. split; [split; [|exact Hnd]|split; [exact Hk|]].
      * intros (o' & E' & Ho')%list_elem_of_fmap. by destruct (Hf o' Ho') as [[] _].
      * apply Forall_forall. intros o' Ho'. by destruct (Hf o' Ho').
    + intros ([Ho Hl] & [Hn Hnd] & [Hk Hf]). exists tt. split; [exact Ho|]. split; [exact Hk|].
      split; [exact Hl|]. split; [exact Hnd|]. rewrite Forall_forall in Hf.
      apply Forall_forall. intros o' Ho'. split; [|by apply Hf].
      intros E'. apply Hn, list_elem_of_fmap. by exists o'.
Qed.

(** A receipt as its constructor leaves it. *)
Record run_ok (r : ReductionRunReceipt) : Prop := {
  ro_some : rr_observations r <> [];
  ro_candidate : rr_role r = CudaReference <-> rr_candidate_id r = None;
  ro_observations : Forall observation_ok (rr_observations r);
  ro_keys : NoDup (keys_of (rr_observations r));
}.

Lemma run_new_ok {E : Type} ed role cid impl cd env invoked sync obs r :
  run_new (E:=E) ed role cid impl cd env invoked sync obs = Ok r <->
  r = MkRun REDUCTION_RUN_RECEIPT_SCHEMA_V1 ed role cid impl cd env invoked sync obs /\ run_ok r.
Proof.
  unfold run_new. rewrite guard_bind_Ok, result_bind_Ok, orb_false_iff, bool_decide_eq_false.
  setoid_rewrite check_observations_Ok. split.
  - intros ([Hs Hrole] & u & (Ho & Hk & _) & [= <-]). split; [done|]. constructor; cbn; try done.
    destruct role; case_bool_decide as Hc; try done; destruct cid; naive_solver.
  - intros (-> & [Hs Hc Ho Hk]). cbn in *. split; [split; [done|]|].
    + destruct role, cid; try case_bool_decide; naive_solver.
    + exists tt. split; [|done]. split_and!; try done. by apply Forall_true.
Qed.

(** The experiment's identity does not say where the name of the task
    ends. *)
Lemma experiment_bytes_merge task id task' id' digests :
  as_str task +:+ as_str id = as_str task' +:+ as_str id' ->
  experiment_bytes task id digests = experiment_bytes task' id' digests.
Proof.
  intros E. unfold experiment_bytes. f_equal. f_equal. rewrite !(assoc_L (++)). f_equal.
  by rewrite <-!as_bytes_app, E.
Qed.

(** What [u16], [u64] and [u32] hold. *)
Record case_fits (c : ReductionCorpusCase) : Prop := {
  cf_repetition : (rc_repetition c <= u16_max)%N;
  cf_elements : (rc_elements c <= u64_max)%N;
  cf_seed : (rc_seed c <= u32_max)%N;
}.

(** The input of a case names the whole case. *)
Lemma input_bytes_inj c d : case_fits c -> case_fits d -> input_bytes c = input_bytes d -> c = d.
Proof.
  intros [C1 C2 C3] [D1 D2 D3] E. unfold input_bytes in E.
  apply app_inv_head in E. apply (f_equal tail) in E. cbn [tail app] in E.
  apply app_inj_2 in E as [Eid E]; [|by rewrite !length_app, !be_bytes_length].
  apply as_bytes_inj in Eid. apply app_inj_1 in E as [Er E]; [|by rewrite !be_bytes_length].
  apply app_inj_1 in E as [Ee E]; [|by rewrite !be_bytes_length].
  apply app_inj_1 in E as [Es E]; [|by rewrite !be_bytes_length].
  unfold u16_max, u32_max, u64_max in *.
  apply be_bytes_inj in Er; [|cbn; lia..]. apply be_bytes_inj in Ee; [|cbn; lia..].
  apply be_bytes_inj in Es; [|cbn; lia..].
  destruct c as [? ? ? ? k], d as [? ? ? ? k']; cbn in *. subst. f_equal.
  by destruct k, k'.
Qed.
