(* ===== verification/Oracle.v ===== *)
(** * The reduction correctness oracle

    [src/crates/alloyport-core/src/correctness.rs] (receipts),
    [correctness_evaluation.rs] (the comparison and the verdict),
    [correctness_mutation.rs] (the battery) and
    [correctness_calibration.rs] (the noise floor and the calibration). *)

From Stdlib Require Import Ascii NArith ZArith Lia SpecFloat.
From stdpp Require Import base strings gmap list sorting.
From S2P Require Import Prelude Text Digest Encoding Identity Binary ReductionRun.

(** ** Receipts *)

Module Mutant.

(** [enum ReductionMutantKind]; the last two before
    [JustOutsideTolerance] are retired. *)
Inductive ReductionMutantKind :=
| ArithmeticScale | IndexingSwap | BoundaryMask | AccumulationError | InvalidStatus | SignedZero
| NonFinite | Nondeterminism | FallbackBypass | MissingSynchronization | JustOutsideTolerance.

#[export] Instance ReductionMutantKind_eq_dec : EqDecision ReductionMutantKind.
Proof. solve_decision. Defined.

(** [ReductionMutantKind::ALL]. *)
Definition ALL : list ReductionMutantKind :=
  [ArithmeticScale; IndexingSwap; BoundaryMask; AccumulationError; InvalidStatus; SignedZero;
   NonFinite; Nondeterminism; JustOutsideTolerance].

End Mutant.

(** [struct ReductionMutationDetection]. *)
Record ReductionMutationDetection := MkDetection {
  md_mutant : Mutant.ReductionMutantKind;
  md_detected : bool;
}.

(** [enum ReductionBatteryScope]. *)
Inductive ReductionBatteryScope := ComparatorOnly | ComparatorAndImplementation.

(** [struct ReductionCalibrationChecks]. *)
Record ReductionCalibrationChecks := MkChecks {
  ck_tolerance_measured : bool;
  ck_reordered_authority_admitted : bool;
}.

(** [struct ReductionCalibrationReceipt]. *)
Record ReductionCalibrationReceipt := MkCalibration {
  cr_schema_version : N;
  cr_oracle_revision : string;
  cr_policy_digest : Sha256Digest;
  cr_corpus_digest : Sha256Digest;
  cr_reference_run_digest : Sha256Digest;
  cr_identity_passed : bool;
  cr_battery_scope : ReductionBatteryScope;
  cr_noise_floor : option ReductionNoiseFloor;
  cr_checks : ReductionCalibrationChecks;
  cr_detections : list ReductionMutationDetection;
  cr_undetected : list Mutant.ReductionMutantKind;
  cr_passed : bool;
}.

(** [ReductionCalibrationReceipt::passed]. *)
Definition calibration_passed (self : ReductionCalibrationReceipt) : bool :=
  cr_passed self && ck_tolerance_measured (cr_checks self)
  && ck_reordered_authority_admitted (cr_checks self) && bool_decide (cr_undetected self = []).

(** [enum ReductionOracleFailureKind]. *)
Inductive ReductionOracleFailureKind :=
| CalibrationUnavailable | ObservationSetMismatch | ReferenceNotAuthoritative
| CandidatePathNotInvoked | MissingSynchronization | StatusMismatch | MissingOutput
| NonFiniteOutput | SignedZeroMismatch | NumericMismatch | NondeterministicOutput.

(** [struct ReductionOracleFailure]. *)
Record ReductionOracleFailure := MkOracleFailure {
  of_kind : ReductionOracleFailureKind;
  of_case_id : option string;
  of_repetition : option N;
  of_detail : string;
}.

(** [enum UnverifiedAssumption] and [unverified_assumptions]. *)
Inductive UnverifiedAssumption := DeviceExecution | RunnerAttestation.

Definition unverified_assumptions : list UnverifiedAssumption := [DeviceExecution; RunnerAttestation].

(** [enum CorrectnessVerdict]. *)
Inductive CorrectnessVerdict := Pass | Fail | Unverifiable | InfraError.

#[export] Instance CorrectnessVerdict_eq_dec : EqDecision CorrectnessVerdict.
Proof. solve_decision. Defined.

(** [struct ReductionCorrectnessReceipt]. *)
Record ReductionCorrectnessReceipt := MkCorrectness {
  ct_schema_version : N;
  ct_oracle_revision : string;
  ct_experiment : ReductionCorrectnessExperiment;
  ct_reference_run_digest : Sha256Digest;
  ct_candidate_run_digest : Sha256Digest;
  ct_calibration_receipt_digest : Sha256Digest;
  ct_verdict : CorrectnessVerdict;
  ct_unverified : list UnverifiedAssumption;
  ct_failures : list ReductionOracleFailure;
}.

(** ** The tolerance *)

Definition billion : spec_float := f64_of_N 1000000000.

(** [tolerance_bound]. *)
Definition tolerance_bound (expected : spec_float) (policy : ReductionOraclePolicy) : spec_float :=
  let absolute := f64_div (f64_of_N (op_absolute_tolerance_nanos policy)) billion in
  let relative := f64_div (f64_mul (SFabs expected) (f64_of_N (op_relative_tolerance_ppb policy)))
                    billion in
  f64_max absolute relative.

(** [within_tolerance], on [f32] values. *)
Definition within_tolerance (expected actual : spec_float) (policy : ReductionOraclePolicy) : bool :=
  let expected := f64_of_f32 expected in
  let actual := f64_of_f32 actual in
  SFleb (SFabs (f64_sub actual expected)) (tolerance_bound expected policy).

(** ** The comparison *)

(** [failure]. *)
Definition failure (kind : ReductionOracleFailureKind) (case_id : option string)
    (repetition : option N) (detail : string) : ReductionOracleFailure :=
  MkOracleFailure kind case_id repetition detail.

(** [iter().map(|item| (key, item)).collect()] into a [BTreeMap]. *)
Definition by_key {A} (key : A -> Key) (l : list A) : gmap Key A :=
  foldl (fun m x => <[key x := x]> m) ∅ l.

Definition key_compare (a b : Key) : comparison :=
  then_compare (String.compare a.1 b.1) (N.compare a.2 b.2).

(** A map in the order of its keys. *)
Definition in_key_order {A} (m : gmap Key A) : list (Key * A) :=
  sort_by (fun a b => key_compare a.1 b.1) (map_to_list m).

Definition in_name_order {A} (m : gmap string A) : list (string * A) :=
  sort_by_key fst (map_to_list m).

(** The repetitions observed of each case. *)
Definition repetitions_of (observations : list ReductionObservation) : gmap string (gset N) :=
  foldl (fun m item =>
    <[ob_case_id item := {[ ob_repetition item ]} ∪ default ∅ (m !! ob_case_id item)]> m)
    ∅ observations.

(** [(1..=required).collect()]. *)
Definition repetition_range (required : N) : gset N :=
  list_to_set (N.of_nat <$> seq 1 (N.to_nat required)).

(** One round of the loop over the reference: what is pushed. *)
Definition compare_case `{Sha256} (policy : ReductionOraclePolicy)
    (expected actual : ReductionObservation) (corpus_case : ReductionCorpusCase)
    : option ReductionOracleFailure :=
  let report kind detail :=
    Some (failure kind (Some (ob_case_id expected)) (Some (ob_repetition expected)) detail) in
  if negb (ob_elements expected =? rc_elements corpus_case)%N
     || bool_decide (ob_input_digest expected <> case_input_digest corpus_case)
     || negb (ob_elements actual =? ob_elements expected)%N
     || bool_decide (ob_input_digest actual <> ob_input_digest expected)
  then report ObservationSetMismatch "input identity differs"
  else if negb (ob_status actual =? ob_status expected)%Z
  then report StatusMismatch "public API status differs"
  else match ob_output_bits expected, ob_output_bits actual with
  | Some expected_bits, Some actual_bits =>
      let expected_value := f32_from_bits expected_bits in
      let actual_value := f32_from_bits actual_bits in
      if negb (is_finite expected_value) || negb (is_finite actual_value)
      then report NonFiniteOutput "comparison contains a non-finite value"
      else if (expected_bits =? 0)%N && negb (actual_bits =? 0)%N
      then report SignedZeroMismatch "zero-element contract requires positive zero"
      else if negb (within_tolerance expected_value actual_value policy)
      then report NumericMismatch "candidate output exceeds the frozen absolute/relative tolerance"
      else None
  | _, _ =>
      if (ob_status expected =? 0)%Z
      then report MissingOutput "successful case lacks an fp32 output" else None
  end.

(** The outputs of the successful observations of one case. *)
Definition case_values (case_id : string) (observations : list ReductionObservation)
    : list spec_float :=
  omap (fun item => f32_from_bits <$> ob_output_bits item)
    (List.filter (fun item => bool_decide (ob_case_id item = case_id) && (ob_status item =? 0)%Z)
       observations).

(** One round of the loop over the cases. *)
Definition compare_repetitions (policy : ReductionOraclePolicy) (case_id : string)
    (observations : list ReductionObservation) : option ReductionOracleFailure :=
  match case_values case_id observations with
  | first :: values =>
      if existsb (fun value => negb (within_tolerance first value policy)) values
      then Some (failure NondeterministicOutput (Some case_id) None
                   "repeated candidate observations disagree beyond tolerance")
      else None
  | [] => None
  end.

(** [compare_runs].  The lookups of the loop cannot fail: the maps have
    the same keys there. *)
Definition compare_runs `{Sha256} (reference candidate : ReductionRunReceipt)
    (policy : ReductionOraclePolicy) (corpus : ReductionCorpus) : list ReductionOracleFailure :=
  if negb (rr_implementation_invoked reference) || negb (rr_synchronized reference) then
    [failure ReferenceNotAuthoritative None None
       "the CUDA authority path was not invoked and synchronized"]
  else
  let attested :=
    (if rr_implementation_invoked candidate then [] else
       [failure CandidatePathNotInvoked None None
          "the generated Ascend implementation was not observed"])
    ++ (if rr_synchronized candidate then [] else
       [failure MissingSynchronization None None
          "device completion was not synchronized before observation"]) in
  let reference_by_key := by_key ob_key (rr_observations reference) in
  let candidate_by_key := by_key ob_key (rr_observations candidate) in
  let corpus_by_key := by_key rc_key (co_cases corpus) in
  if bool_decide (dom reference_by_key <> dom corpus_by_key) then
    attested ++ [failure ObservationSetMismatch None None
                   "reference observations do not cover the exact frozen corpus"]
  else if bool_decide (dom reference_by_key <> dom candidate_by_key) then
    attested ++ [failure ObservationSetMismatch None None
                   "reference and candidate observation keys differ"]
  else
  let repetitions := repetitions_of (rr_observations reference) in
  let required := repetition_range (op_required_repetitions policy) in
  attested
  ++ (if existsb (fun entry => negb (bool_decide (entry.2 = required))) (in_name_order repetitions)
      then [failure ObservationSetMismatch None None "the required repetition count is absent"]
      else [])
  ++ omap (fun entry =>
       match candidate_by_key !! entry.1, corpus_by_key !! entry.1 with
       | Some actual, Some corpus_case => compare_case policy entry.2 actual corpus_case
       | _, _ => None
       end) (in_key_order reference_by_key)
  ++ omap (fun entry => compare_repetitions policy entry.1 (rr_observations candidate))
       (in_name_order repetitions).

(** ** The battery *)

(** [iter_mut().find(p)] followed by an update; [None] when nothing is
    found or the update gives up. *)
Fixpoint update_first (p : ReductionObservation -> bool)
    (f : ReductionObservation -> option ReductionObservation) (l : list ReductionObservation)
    : option (list ReductionObservation) :=
  match l with
  | [] => None
  | item :: l => if p item then (fun item => item :: l) <$> f item
                 else cons item <$> update_first p f l
  end.

Definition with_output (bits : option N) (o : ReductionObservation) : ReductionObservation :=
  MkObservation (ob_case_id o) (ob_repetition o) (ob_elements o) (ob_input_digest o) (ob_status o)
    bits (ob_reorder_output_bits o).

Definition with_status (status : Z) (o : ReductionObservation) : ReductionObservation :=
  MkObservation (ob_case_id o) (ob_repetition o) (ob_elements o) (ob_input_digest o) status
    (ob_output_bits o) (ob_reorder_output_bits o).

Definition as_candidate (run : ReductionRunReceipt) (candidate_id : option CandidateId)
    (observations : list ReductionObservation) : ReductionRunReceipt :=
  MkRun (rr_schema_version run) (rr_experiment_digest run) AscendCandidate candidate_id
    (rr_implementation_digest run) (rr_corpus_digest run) (rr_environment_digest run)
    (rr_implementation_invoked run) (rr_synchronized run) observations.

Definition succeeded (o : ReductionObservation) : bool := (ob_status o =? 0)%Z.

(** The output of an item replaced by a function of its value. *)
Definition map_value (mutation : spec_float -> spec_float) (item : ReductionObservation)
    : option ReductionObservation :=
  bits ← ob_output_bits item;
  Some (with_output (Some (f32_to_bits (mutation (f32_from_bits bits)))) item).

(** [mutate_value]. *)
Definition mutate_value (mutation : spec_float -> spec_float)
    : list ReductionObservation -> option (list ReductionObservation) :=
  update_first (fun item => succeeded item && negb (bool_decide (ob_output_bits item = Some 0%N)))
    (map_value mutation).

(** [mutate_sized_value]. *)
Definition mutate_sized_value (elements : N) (mutation : spec_float -> spec_float)
    : list ReductionObservation -> option (list ReductionObservation) :=
  update_first (fun item => succeeded item && (ob_repetition item =? 1)%N
                            && (ob_elements item =? elements)%N) (map_value mutation).

Definition f32_epsilon : spec_float := f32_literal 1 8388608.

(** The bits of the value just past the boundary of the policy. *)
Definition just_outside (policy : ReductionOraclePolicy) (bits : N) : option N :=
  let value := f32_from_bits bits in
  let bound := tolerance_bound (f64_of_f32 value) policy in
  let perturbed := f32_add value (f32_mul_add (f32_of_f64 bound) (f32_literal 105 100) f32_epsilon) in
  perturbed ← (if (f32_to_bits perturbed =? f32_to_bits value)%N
               then f32_from_bits <$> checked_add u32_max (f32_to_bits value) 1
               else Some perturbed);
  if (f32_to_bits perturbed =? f32_to_bits value)%N || negb (is_finite perturbed) then None
  else Some (f32_to_bits perturbed).

(** The positions of the first two observations to swap. *)
Definition swap_indices (observations : list ReductionObservation) : list nat :=
  take 2 (omap (fun entry => if succeeded entry.2 && (ob_repetition entry.2 =? 1)%N
                             then Some entry.1 else None) (imap pair observations)).

Definition swap_outputs (observations : list ReductionObservation) : option (list ReductionObservation) :=
  match swap_indices observations with
  | [i; j] =>
      a ← observations !! i;
      b ← observations !! j;
      Some (<[j := with_output (ob_output_bits a) b]>
              (<[i := with_output (ob_output_bits b) a]> observations))
  | _ => None
  end.

(** The observations [apply_mutant] leaves in the run. *)
Definition mutate (mutant : Mutant.ReductionMutantKind) (policy : ReductionOraclePolicy)
    (observations : list ReductionObservation) : option (list ReductionObservation) :=
  match mutant with
  | Mutant.FallbackBypass | Mutant.MissingSynchronization => None
  | Mutant.ArithmeticScale => mutate_value (fun value => f32_mul value (f32_literal 11 10)) observations
  | Mutant.BoundaryMask => mutate_sized_value 257 (fun _ => S754_zero false) observations
  | Mutant.AccumulationError => mutate_value (fun value => f32_add value (f32_literal 1 100)) observations
  | Mutant.InvalidStatus =>
      update_first (fun item => negb (succeeded item))
        (fun item => Some (with_output (Some 0%N) (with_status 0 item))) observations
  | Mutant.SignedZero =>
      update_first (fun item => bool_decide (ob_output_bits item = Some 0%N))
        (fun item => Some (with_output (Some (f32_to_bits (S754_zero true))) item)) observations
  | Mutant.NonFinite =>
      update_first succeeded
        (fun item => Some (with_output (Some (f32_to_bits (S754_infinity false))) item)) observations
  | Mutant.Nondeterminism =>
      update_first (fun item => succeeded item && (1 <? ob_repetition item)%N)
        (map_value (fun value => f32_add value (f32_of_N 1))) observations
  | Mutant.JustOutsideTolerance =>
      update_first (fun item => succeeded item && bool_decide (is_Some (ob_output_bits item)))
        (fun item => bits ← ob_output_bits item;
                     perturbed ← just_outside policy bits;
                     Some (with_output (Some perturbed) item)) observations
  | Mutant.IndexingSwap => swap_outputs observations
  end.

(** [CandidateId::try_from(..).ok()]. *)
Definition candidate_of (value : string) : option CandidateId :=
  match parse_id KCandidate value with Ok id => Some id | Err _ => None end.

(** [apply_mutant]. *)
Definition apply_mutant (run : ReductionRunReceipt) (mutant : Mutant.ReductionMutantKind)
    (policy : ReductionOraclePolicy) : option ReductionRunReceipt :=
  id ← candidate_of "candidate-calibration-mutant";
  as_candidate run (Some id) <$> mutate mutant policy (rr_observations run).

(** ** The noise floor *)

(** [spread]. *)
Definition spread {E : Type} (left right : N)
    : result (ReductionCorrectnessError E) (spec_float * spec_float) :=
  let left := f64_of_f32 (f32_from_bits left) in
  let right := f64_of_f32 (f32_from_bits right) in
  _ ← guard_err (negb (is_finite left) || negb (is_finite right)) InvalidObservation;
  let error := SFabs (f64_sub right left) in
  let relative := if SFeqb left (S754_zero false) then S754_zero false
                  else f64_div error (SFabs left) in
  Ok (error, relative).

(** [scale_to_units]. *)
Definition scale_to_units (value units_per_one : spec_float) : N :=
  let scaled := f64_ceil (f64_mul value units_per_one) in
  if negb (is_finite scaled) || SFleb scaled (S754_zero false) then 0%N
  else if SFleb (f64_of_N (2 ^ 64)) scaled then u64_max
  else f64_to_u64 scaled.

(** The local variables of [measure_reduction_noise_floor]. *)
Record Spread := MkSpread {
  sp_absolute : spec_float;
  sp_relative : spec_float;
  sp_pairs : N;
  sp_deterministic : bool;
}.

(** A pair of outputs compared. *)
Definition spread_pair {E : Type} (self : Spread) (left right : N)
    : result (ReductionCorrectnessError E) Spread :=
  measured ← spread left right;
  Ok (MkSpread (f64_max (sp_absolute self) measured.1) (f64_max (sp_relative self) measured.2)
        (saturating_add u32_max (sp_pairs self) 1) (sp_deterministic self && (left =? right)%N)).

(** The loop over the observations: the reordered pairs; [successful]
    counts the outputs. *)
Fixpoint spread_reordered {E : Type} (observations : list ReductionObservation) (self : Spread)
    (successful : N) : result (ReductionCorrectnessError E) (Spread * N) :=
  match observations with
  | [] => Ok (self, successful)
  | observation :: observations =>
      match ob_output_bits observation with
      | None => spread_reordered observations self successful
      | Some bits =>
          let successful := saturating_add u32_max successful 1 in
          match ob_reorder_output_bits observation with
          | None => spread_reordered observations self successful
          | Some reorder_bits =>
              self ← spread_pair self bits reorder_bits;
              spread_reordered observations self successful
          end
      end
  end.

(** [by_case]: the outputs of each case in the order observed. *)
Definition outputs_by_case (observations : list ReductionObservation) : gmap string (list N) :=
  foldl (fun m o => match ob_output_bits o with
                    | None => m
                    | Some bits => <[ob_case_id o := default [] (m !! ob_case_id o) ++ [bits]]> m
                    end) ∅ observations.

(** The loop over [outputs.windows(2)]. *)
Fixpoint spread_windows {E : Type} (outputs : list N) (self : Spread)
    : result (ReductionCorrectnessError E) Spread :=
  match outputs with
  | a :: (b :: _) as outputs =>
      self ← spread_pair self a b; spread_windows outputs self
  | _ => Ok self
  end.

Fixpoint spread_cases {E : Type} (cases : list (string * list N)) (self : Spread)
    : result (ReductionCorrectnessError E) Spread :=
  match cases with
  | [] => Ok self
  | case :: cases => self ← spread_windows case.2 self; spread_cases cases self
  end.

(** [serde_json::to_vec] on the two receipts. *)
Class OracleJson `{ReductionJson} := {
  calibration_to_vec : ReductionCalibrationReceipt -> result rj_error bytes;
  correctness_to_vec : ReductionCorrectnessReceipt -> result rj_error bytes;
}.

Section oracle.
Context `{!Sha256} `{OracleJson}.

Abbreviation Error := (ReductionCorrectnessError rj_error).

Definition calibration_digest (self : ReductionCalibrationReceipt) : result Error Sha256Digest :=
  digest_or (calibration_to_vec self).
Definition correctness_digest (self : ReductionCorrectnessReceipt) : result Error Sha256Digest :=
  digest_or (correctness_to_vec self).

Definition zero_spread : Spread := MkSpread (S754_zero false) (S754_zero false) 0 true.

(** [measure_reduction_noise_floor]. *)
Definition measure_reduction_noise_floor (reference : ReductionRunReceipt) (corpus : ReductionCorpus)
    : result Error ReductionNoiseFloor :=
  _ ← guard_err (bool_decide (rr_role reference <> CudaReference)) ReferenceRoleRequired;
  digest ← corpus_digest corpus;
  _ ← guard_err (bool_decide (digest <> rr_corpus_digest reference)) ExperimentIdentityMismatch;
  reordered ← spread_reordered (rr_observations reference) zero_spread 0;
  let '(measured, successful) := reordered in
  let reorder_pairs := sp_pairs measured in
  _ ← guard_err (negb (reorder_pairs =? 0)%N && negb (reorder_pairs =? successful)%N)
        NoiseFloorUnavailable;
  measured ← spread_cases (in_name_order (outputs_by_case (rr_observations reference)))
               (MkSpread (sp_absolute measured) (sp_relative measured) 0 (sp_deterministic measured));
  let repetition_pairs := sp_pairs measured in
  _ ← guard_err ((repetition_pairs =? 0)%N && (reorder_pairs =? 0)%N) NoiseFloorUnavailable;
  reference_digest ← run_digest reference;
  Ok (MkFloor REDUCTION_NOISE_FLOOR_SCHEMA_V1 (rr_corpus_digest reference) reference_digest
        (scale_to_units (sp_absolute measured) billion)
        (scale_to_units (sp_relative measured) billion)
        repetition_pairs reorder_pairs (sp_deterministic measured)).

(** ** The calibration *)

(** The loop that rotates the repetitions of each case. *)
Fixpoint rotate_outputs (by_case : gmap string (list N)) (consumed : gmap string nat)
    (observations : list ReductionObservation) : list ReductionObservation :=
  match observations with
  | [] => []
  | o :: observations =>
      match ob_output_bits o with
      | None => o :: rotate_outputs by_case consumed observations
      | Some _ =>
          let outputs := default [] (by_case !! ob_case_id o) in
          let index := default 0 (consumed !! ob_case_id o) in
          with_output (outputs !! ((index + 1) mod length outputs)) o
          :: rotate_outputs by_case (<[ob_case_id o := S index]> consumed) observations
      end
  end.

(** [reordered_authority]. *)
Definition reordered_authority (reference : ReductionRunReceipt) : option ReductionRunReceipt :=
  let observations := rr_observations reference in
  let reordered := as_candidate reference (candidate_of "candidate-reordered-authority") in
  if existsb (fun o => bool_decide (is_Some (ob_reorder_output_bits o))) observations then
    Some (reordered ((fun o => match ob_reorder_output_bits o with
                               | Some bits => with_output (Some bits) o
                               | None => o
                               end) <$> observations))
  else
    let by_case := outputs_by_case observations in
    if forallb (fun entry => (length entry.2 <? 2)%nat) (map_to_list by_case) then None
    else Some (reordered (rotate_outputs by_case ∅ observations)).

(** Whether the comparison notices a run. *)
Definition rejects (reference candidate : ReductionRunReceipt) (policy : ReductionOraclePolicy)
    (corpus : ReductionCorpus) : bool :=
  match compare_runs reference candidate policy corpus with [] => false | _ => true end.

(** One mutant of the battery. *)
Definition detect (reference : ReductionRunReceipt) (policy : ReductionOraclePolicy)
    (corpus : ReductionCorpus) (mutant : Mutant.ReductionMutantKind) : ReductionMutationDetection :=
  MkDetection mutant
    match apply_mutant reference mutant policy with
    | Some candidate => rejects reference candidate policy corpus
    | None => false
    end.

(** [measure_reduction_noise_floor(..).ok()]. *)
Definition floor_of (reference : ReductionRunReceipt) (corpus : ReductionCorpus)
    : option ReductionNoiseFloor :=
  match measure_reduction_noise_floor reference corpus with Ok floor => Some floor | Err _ => None end.

(** [.map(f).transpose()]. *)
Definition map_transpose {A B F : Type} (f : A -> result F B) (o : option A) : result F (option B) :=
  match o with None => Ok None | Some a => Some <$> f a end.

(** The policy both the calibration and the verdict derive. *)
Definition derived_policy (reference : ReductionRunReceipt) (plan : ReductionTolerancePlan)
    (corpus : ReductionCorpus) : result Error (option ReductionOraclePolicy) :=
  map_transpose (plan_derive plan) (floor_of reference corpus).

(** [calibrate_reduction_oracle]. *)
Definition calibrate_reduction_oracle (reference : ReductionRunReceipt)
    (plan : ReductionTolerancePlan) (corpus : ReductionCorpus)
    : result Error ReductionCalibrationReceipt :=
  _ ← guard_err (bool_decide (rr_role reference <> CudaReference)) ReferenceRoleRequired;
  digest ← corpus_digest corpus;
  _ ← guard_err (bool_decide (digest <> rr_corpus_digest reference)) ExperimentIdentityMismatch;
  policy ← derived_policy reference plan corpus;
  let '(tolerance_measured, reordered_authority_admitted, detections) :=
    match policy with
    | Some policy =>
        (true,
         match reordered_authority reference with
         | Some reordered => negb (rejects reference reordered policy corpus)
         | None => false
         end,
         detect reference policy corpus <$> Mutant.ALL)
    | None => (false, false, (fun mutant => MkDetection mutant false) <$> Mutant.ALL)
    end in
  let undetected := md_mutant <$> List.filter (fun item => negb (md_detected item)) detections in
  policy_digest ← map_transpose oracle_policy_digest policy;
  reference_digest ← run_digest reference;
  Ok (MkCalibration REDUCTION_CALIBRATION_RECEIPT_SCHEMA_V1 REDUCTION_ORACLE_REVISION_V1
        (default (digest_bytes (as_bytes "alloyport-reduction-no-derived-policy")) policy_digest)
        (rr_corpus_digest reference) reference_digest false ComparatorOnly
        (floor_of reference corpus)
        (MkChecks tolerance_measured reordered_authority_admitted) detections undetected
        (tolerance_measured && reordered_authority_admitted && bool_decide (undetected = []))).

(** ** The verdict *)

(** [validate_experiment_runs]. *)
Definition validate_experiment_runs (experiment : ReductionCorrectnessExperiment)
    (reference candidate : ReductionRunReceipt) (plan : ReductionTolerancePlan)
    (corpus : ReductionCorpus) : result Error unit :=
  _ ← guard_err
        (bool_decide (rr_role reference <> CudaReference)
         || bool_decide (rr_role candidate <> AscendCandidate)
         || bool_decide (rr_candidate_id candidate <> Some (ex_candidate_id experiment))
         || bool_decide (rr_experiment_digest reference <> ex_experiment_digest experiment)
         || bool_decide (rr_experiment_digest candidate <> ex_experiment_digest experiment)
         || bool_decide (rr_corpus_digest reference <> ex_corpus_digest experiment)
         || bool_decide (rr_corpus_digest candidate <> ex_corpus_digest experiment))
        ExperimentIdentityMismatch;
  plan_identity ← plan_digest plan;
  _ ← guard_err (bool_decide (plan_identity <> ex_tolerance_plan_digest experiment))
        ExperimentIdentityMismatch;
  corpus_identity ← corpus_digest corpus;
  guard_err (bool_decide (corpus_identity <> ex_corpus_digest experiment)) ExperimentIdentityMismatch.

(** [evaluate_reduction_correctness]. *)
Definition evaluate_reduction_correctness (experiment : ReductionCorrectnessExperiment)
    (reference candidate : ReductionRunReceipt) (plan : ReductionTolerancePlan)
    (corpus : ReductionCorpus) (calibration : ReductionCalibrationReceipt)
    : result Error ReductionCorrectnessReceipt :=
  _ ← validate_experiment_runs experiment reference candidate plan corpus;
  reference_run_digest ← run_digest reference;
  candidate_run_digest ← run_digest candidate;
  calibration_receipt_digest ← calibration_digest calibration;
  policy ← derived_policy reference plan corpus;
  derived_policy_digest ← map_transpose oracle_policy_digest policy;
  let calibrated :=
    calibration_passed calibration
    && bool_decide (cr_oracle_revision calibration = REDUCTION_ORACLE_REVISION_V1)
    && bool_decide (cr_corpus_digest calibration = ex_corpus_digest experiment)
    && bool_decide (cr_reference_run_digest calibration = reference_run_digest)
    && bool_decide (derived_policy_digest = Some (cr_policy_digest calibration)) in
  let '(verdict, failures) :=
    match calibrated, policy with
    | true, Some policy =>
        let failures := compare_runs reference candidate policy corpus in
        (match failures with [] => Pass | _ => Fail end, failures)
    | _, _ =>
        (Unverifiable,
         [failure CalibrationUnavailable None None
            ("the exact oracle, tolerance plan, corpus, and reference run were not calibrated "
             +:+ "against a measured floor")])
    end in
  Ok (MkCorrectness REDUCTION_CORRECTNESS_RECEIPT_SCHEMA_V1 REDUCTION_ORACLE_REVISION_V1 experiment
        reference_run_digest candidate_run_digest calibration_receipt_digest verdict
        unverified_assumptions failures).

End oracle.
