(* ===== verification/OracleTheorems.v ===== *)
(** * What the reduction oracle decides

    The comparison against a declarative acceptance relation, the verdict
    of an evaluation, and what the noise floor and the battery establish. *)

From Stdlib Require Import Ascii NArith ZArith Lia SpecFloat.
From stdpp Require Import base strings gmap list sorting.
From S2P Require Import Prelude Text Digest Encoding Identity Binary ReductionRun Oracle.

(** ** Maps collected from lists *)

Section by_key.
Context {A : Type} (key : A -> Key).

Lemma by_key_snoc l x : by_key key (l ++ [x]) = <[key x := x]> (by_key key l).
Proof. unfold by_key. by rewrite foldl_app. Qed.

Lemma by_key_Some l k x : by_key key l !! k = Some x -> x ∈ l /\ key x = k.
Proof.
  induction l as [|y l IH] using rev_ind; [done|]. rewrite by_key_snoc, lookup_insert_Some.
  intros [[<- <-]|[_ Hx]]; [set_solver|]. destruct (IH Hx). set_solver.
Qed.

Lemma dom_by_key l : dom (by_key key l) = list_to_set (key <$> l).
Proof.
  induction l as [|y l IH] using rev_ind; [by apply leibniz_equiv; set_solver|].
  rewrite by_key_snoc, dom_insert_L, IH, fmap_app, list_to_set_app_L. cbn. set_solver.
Qed.

Lemma elem_of_dom_by_key l k : k ∈ dom (by_key key l) <-> k ∈ key <$> l.
Proof. rewrite dom_by_key. apply elem_of_list_to_set. Qed.

Lemma by_key_unique l x : NoDup (key <$> l) -> x ∈ l -> by_key key l !! key x = Some x.
Proof.
  induction l as [|y l IH] using rev_ind; [set_solver|].
  rewrite fmap_app, NoDup_app, by_key_snoc, elem_of_app, list_elem_of_singleton. cbn.
  intros (Hnd & Hd & _) [Hx| ->]; [|apply lookup_insert_eq].
  rewrite lookup_insert_ne; [by apply IH|]. intros E. apply (Hd (key y)); [|by left].
  rewrite E. by apply list_elem_of_fmap_2.
Qed.
End by_key.

(** The repetitions collected of a case. *)
Lemma repetitions_of_snoc l o :
  repetitions_of (l ++ [o])
  = <[ob_case_id o := {[ ob_repetition o ]} ∪ default ∅ (repetitions_of l !! ob_case_id o)]> (repetitions_of l).
Proof. unfold repetitions_of. by rewrite foldl_app. Qed.

Lemma repetitions_of_None l id : repetitions_of l !! id = None <-> forall n, (id, n) ∉ keys_of l.
Proof.
  induction l as [|o l IH] using rev_ind; [cbn; split; [by intros _ n ?%elem_of_nil|done]|].
  rewrite repetitions_of_snoc, lookup_insert_None, IH. unfold keys_of.
  setoid_rewrite fmap_app. setoid_rewrite elem_of_app. cbn. setoid_rewrite list_elem_of_singleton.
  split; [intros [H1 H2] n [?|[= -> ->]]; [by eapply H1|by apply H2]|].
  intros Hn. split; [intros n ?; apply (Hn n); by left|]. intros <-.
  apply (Hn (ob_repetition o)). by right.
Qed.

Lemma elem_of_repetitions_of l id n :
  n ∈ default ∅ (repetitions_of l !! id) <-> (id, n) ∈ keys_of l.
Proof.
  induction l as [|o l IH] using rev_ind; [cbn; set_solver|].
  rewrite repetitions_of_snoc. unfold keys_of. rewrite fmap_app, elem_of_app. cbn.
  rewrite list_elem_of_singleton. destruct (decide (ob_case_id o = id)) as [<-|Hne].
  - rewrite lookup_insert_eq. cbn. rewrite elem_of_union, elem_of_singleton, IH. unfold ob_key. naive_solver.
  - rewrite lookup_insert_ne by done. rewrite IH. unfold ob_key. naive_solver.
Qed.

Lemma elem_of_repetition_range n required :
  n ∈ repetition_range required <-> (1 <= n <= required)%N.
Proof.
  unfold repetition_range. rewrite elem_of_list_to_set, list_elem_of_fmap. split.
  - intros (i & -> & Hi%elem_of_seq). lia.
  - intros Hn. exists (N.to_nat n). split; [lia|]. apply elem_of_seq. lia.
Qed.

(** ** Acceptance *)

(** What the gate demands of one case: both runs answered the same input
    with the same status, and a success has two finite outputs, the second
    within the tolerance of the first and +0 where the first is. *)
Record case_accepted `{Sha256} (policy : ReductionOraclePolicy)
    (expected actual : ReductionObservation) (c : ReductionCorpusCase) : Prop := {
  ca_elements : ob_elements expected = rc_elements c;
  ca_input : ob_input_digest expected = case_input_digest c;
  ca_actual_elements : ob_elements actual = rc_elements c;
  ca_actual_input : ob_input_digest actual = case_input_digest c;
  ca_status : ob_status actual = ob_status expected;
  ca_output : ob_status expected = 0%Z -> exists e a,
    ob_output_bits expected = Some e /\ ob_output_bits actual = Some a
    /\ is_finite (f32_from_bits e) = true /\ is_finite (f32_from_bits a) = true
    /\ (e = 0%N -> a = 0%N)
    /\ within_tolerance (f32_from_bits e) (f32_from_bits a) policy = true;
}.

(** What the gate demands of two runs over a corpus. *)
Record accepted `{Sha256} (reference candidate : ReductionRunReceipt)
    (policy : ReductionOraclePolicy) (corpus : ReductionCorpus) : Prop := {
  ac_reference : rr_implementation_invoked reference = true /\ rr_synchronized reference = true;
  ac_candidate : rr_implementation_invoked candidate = true /\ rr_synchronized candidate = true;
  ac_corpus : forall k, k ∈ keys_of (rr_observations reference) <-> k ∈ rc_key <$> co_cases corpus;
  ac_keys : forall k,
    k ∈ keys_of (rr_observations reference) <-> k ∈ keys_of (rr_observations candidate);
  ac_repetitions : forall e n, e ∈ rr_observations reference ->
    (ob_case_id e, n) ∈ keys_of (rr_observations reference)
    <-> (1 <= n <= op_required_repetitions policy)%N;
  ac_cases : forall e a c, e ∈ rr_observations reference -> a ∈ rr_observations candidate ->
    c ∈ co_cases corpus -> ob_key a = ob_key e -> rc_key c = ob_key e ->
    case_accepted policy e a c;
  ac_repeatable : forall id first values,
    case_values id (rr_observations candidate) = first :: values ->
    Forall (fun value => within_tolerance first value policy = true) values;
}.

Section comparison.
Context `{Sha256}.

Lemma compare_case_None policy e a c :
  observation_ok e -> observation_ok a ->
  compare_case policy e a c = None <-> case_accepted policy e a c.
Proof.
  intros He Ha. unfold compare_case.
  destruct (negb (ob_elements e =? rc_elements c)%N || _ || _ || _) eqn:Hid.
  { split; [done|]. intros [E1 E2 E3 E4 _ _]. rewrite !orb_true_iff, !negb_true_iff, !N.eqb_neq,
      !bool_decide_eq_true in Hid. destruct Hid as [[[?|?]|?]|?]; congruence. }
  rewrite !orb_false_iff, !negb_false_iff, !N.eqb_eq, !bool_decide_eq_false in Hid.
  destruct Hid as [[[E1 E2%dec_stable] E3] E4%dec_stable].
  destruct (ob_status a =? ob_status e)%Z eqn:Hs; cbn;
    [apply Z.eqb_eq in Hs|apply Z.eqb_neq in Hs; split; [done|]; by intros []].
  assert (is_Some (ob_output_bits e) <-> ob_status e = 0%Z) as Hoe by (symmetry; apply (oo_status e He)).
  assert (is_Some (ob_output_bits a) <-> ob_status e = 0%Z) as Hoa
    by (rewrite <-Hs; symmetry; apply (oo_status a Ha)).
  assert (case_accepted policy e a c <-> (ob_status e = 0%Z -> exists x y,
    ob_output_bits e = Some x /\ ob_output_bits a = Some y
    /\ is_finite (f32_from_bits x) = true /\ is_finite (f32_from_bits y) = true
    /\ (x = 0%N -> y = 0%N) /\ within_tolerance (f32_from_bits x) (f32_from_bits y) policy = true)) as ->.
  { split; [by intros []|]. intros Hout. constructor; congruence || done. }
  destruct (ob_output_bits e) as [x|], (ob_output_bits a) as [y|].
  - assert (ob_status e = 0%Z) as Hz by (apply Hoe; eauto).
    transitivity (is_finite (f32_from_bits x) = true /\ is_finite (f32_from_bits y) = true
      /\ (x = 0%N -> y = 0%N) /\ within_tolerance (f32_from_bits x) (f32_from_bits y) policy = true).
    { destruct (is_finite (f32_from_bits x)), (is_finite (f32_from_bits y)); cbn;
        [|by intuition congruence..].
      destruct (N.eqb_spec x 0), (N.eqb_spec y 0), (within_tolerance _ _ _); cbn;
        intuition congruence. }
    split; [by intros Hc _; exists x, y|]. intros Hc. by destruct (Hc Hz) as (? & ? & [= <-] & [= <-] & Hr).
  - exfalso. destruct Hoa as [_ Hoa]. destruct Hoe as [Hoe _].
    destruct (Hoa (Hoe (ex_intro _ x eq_refl))) as [? [=]].
  - exfalso. destruct Hoa as [Hoa _]. destruct Hoe as [_ Hoe].
    destruct (Hoe (Hoa (ex_intro _ y eq_refl))) as [? [=]].
  - destruct (ob_status e =? 0)%Z eqn:Hz; [apply Z.eqb_eq in Hz|apply Z.eqb_neq in Hz]; split; try done.
    intros _. destruct Hoe as [_ Hoe]. destruct (Hoe Hz) as [? [=]].
Qed.

Lemma compare_repetitions_None policy id l :
  compare_repetitions policy id l = None <->
  forall first values, case_values id l = first :: values ->
    Forall (fun value => within_tolerance first value policy = true) values.
Proof.
  unfold compare_repetitions. destruct (case_values id l) as [|first values]; [naive_solver|].
  destruct (existsb _ values) eqn:Hx.
  - split; [done|]. intros Hf. apply existsb_exists in Hx as (v & Hv & Hw).
    specialize (Hf _ _ eq_refl). rewrite Forall_forall in Hf.
    rewrite Hf in Hw by by apply list_elem_of_In. done.
  - split; [intros _ ? ? [= <- <-]|done]. apply Forall_forall. intros v Hv.
    destruct (within_tolerance first v policy) eqn:Hw; [done|].
    assert (existsb (fun value => negb (within_tolerance first value policy)) values = true); [|congruence].
    apply existsb_exists. exists v. rewrite Hw. split; [by apply list_elem_of_In|done].
Qed.

Lemma omap_nil_iff {A B} (f : A -> option B) l : omap f l = [] <-> forall x, x ∈ l -> f x = None.
Proof.
  induction l as [|x l IH]; cbn; [set_solver|]. destruct (f x) eqn:E; [set_solver|]. set_solver.
Qed.

Lemma elem_of_in_key_order {A} (m : gmap Key A) k x : (k, x) ∈ in_key_order m <-> m !! k = Some x.
Proof. unfold in_key_order. by rewrite elem_of_sort_by, elem_of_map_to_list. Qed.

Lemma elem_of_in_name_order {A} (m : gmap string A) k x : (k, x) ∈ in_name_order m <-> m !! k = Some x.
Proof. unfold in_name_order. by rewrite sort_by_key_perm, elem_of_map_to_list. Qed.

Lemma case_values_keys id l : case_values id l <> [] -> exists n, (id, n) ∈ keys_of l.
Proof.
  unfold case_values. intros Hv. destruct (List.filter _ l) as [|o k] eqn:Hf; [done|].
  assert (In o (List.filter (fun item => bool_decide (ob_case_id item = id) && (ob_status item =? 0)%Z) l))
    as Ho by (rewrite Hf; by left).
  apply filter_In in Ho as [Ho Hb]. apply andb_true_iff in Hb as [Hid _].
  apply bool_decide_eq_true in Hid. exists (ob_repetition o). rewrite <-Hid.
  change (ob_case_id o, ob_repetition o) with (ob_key o). apply list_elem_of_fmap_2. by apply list_elem_of_In.
Qed.

End comparison.

Section runs.
Context `{Sha256} (reference candidate : ReductionRunReceipt) (corpus : ReductionCorpus).
Context (reference_keys : NoDup (keys_of (rr_observations reference))).
Context (candidate_keys : NoDup (keys_of (rr_observations candidate))).
Context (corpus_keys : NoDup (rc_key <$> co_cases corpus)).

Lemma repetitions_exact required :
  existsb (fun entry => negb (bool_decide (entry.2 = repetition_range required)))
    (in_name_order (repetitions_of (rr_observations reference))) = false <->
  forall e n, e ∈ rr_observations reference ->
    (ob_case_id e, n) ∈ keys_of (rr_observations reference) <-> (1 <= n <= required)%N.
Proof.
  rewrite <-not_true_iff_false, existsb_exists. split.
  - intros Hn e n He. rewrite <-elem_of_repetition_range, <-elem_of_repetitions_of.
    destruct (repetitions_of (rr_observations reference) !! ob_case_id e) as [s|] eqn:Hs.
    + destruct (decide (s = repetition_range required)) as [->|Hne]; [done|]. exfalso. apply Hn.
      exists (ob_case_id e, s). split; [by apply list_elem_of_In, elem_of_in_name_order|].
      by rewrite bool_decide_eq_false_2.
    + exfalso. rewrite repetitions_of_None in Hs. apply (Hs (ob_repetition e)).
      by apply (list_elem_of_fmap_2 ob_key).
  - intros Hall ([id s] & Hin & Hs). apply list_elem_of_In, elem_of_in_name_order in Hin.
    rewrite negb_true_iff, bool_decide_eq_false in Hs. apply Hs. cbn. apply leibniz_equiv. intros n.
    assert (forall n, n ∈ s <-> (id, n) ∈ keys_of (rr_observations reference)) as Hdef
      by (intros k; by rewrite <-elem_of_repetitions_of, Hin).
    rewrite elem_of_repetition_range, Hdef.
    destruct (set_choose_or_empty s) as [[m Hm]|Hemp].
    + apply Hdef in Hm. apply list_elem_of_fmap in Hm as (o & [= -> ->] & He). by apply Hall.
    + exfalso. assert (repetitions_of (rr_observations reference) !! id <> None) as Hne by by rewrite Hin.
      apply Hne, repetitions_of_None. intros k. rewrite <-Hdef. set_solver.
Qed.

Lemma cases_agree policy :
  (forall k, k ∈ keys_of (rr_observations reference) <-> k ∈ rc_key <$> co_cases corpus) ->
  (forall k, k ∈ keys_of (rr_observations reference) <-> k ∈ keys_of (rr_observations candidate)) ->
  omap (fun entry =>
       match by_key ob_key (rr_observations candidate) !! entry.1,
             by_key rc_key (co_cases corpus) !! entry.1 with
       | Some actual, Some corpus_case => compare_case policy entry.2 actual corpus_case
       | _, _ => None
       end) (in_key_order (by_key ob_key (rr_observations reference))) = [] <->
  forall e a c, e ∈ rr_observations reference -> a ∈ rr_observations candidate ->
    c ∈ co_cases corpus -> ob_key a = ob_key e -> rc_key c = ob_key e ->
    compare_case policy e a c = None.
Proof.
  intros Hcorpus Hkeys. rewrite omap_nil_iff. split.
  - intros Hall e a c He Ha Hc Ea Ec.
    specialize (Hall (ob_key e, e)). cbn in Hall.
    pose proof (by_key_unique ob_key _ a candidate_keys Ha) as La. rewrite Ea in La.
    pose proof (by_key_unique rc_key _ c corpus_keys Hc) as Lc. rewrite Ec in Lc.
    rewrite La, Lc in Hall.
    apply Hall, elem_of_in_key_order. by apply by_key_unique.
  - intros Hall [k e] Hin%elem_of_in_key_order. cbn. apply by_key_Some in Hin as [He <-].
    destruct (by_key ob_key _ !! _) as [a|] eqn:Ha; [|done]. apply by_key_Some in Ha as [Ha Ea].
    destruct (by_key rc_key _ !! _) as [c|] eqn:Hc; [|done]. apply by_key_Some in Hc as [Hc Ec].
    by apply Hall.
Qed.

Lemma repetitions_agree policy :
  (forall k, k ∈ keys_of (rr_observations reference) <-> k ∈ keys_of (rr_observations candidate)) ->
  omap (fun entry => compare_repetitions policy entry.1 (rr_observations candidate))
       (in_name_order (repetitions_of (rr_observations reference))) = [] <->
  forall id first values, case_values id (rr_observations candidate) = first :: values ->
    Forall (fun value => within_tolerance first value policy = true) values.
Proof.
  intros Hkeys. rewrite omap_nil_iff. setoid_rewrite <-compare_repetitions_None. split.
  - intros Hall id. destruct (repetitions_of (rr_observations reference) !! id) as [s|] eqn:Hs.
    + apply (Hall (id, s)), elem_of_in_name_order, Hs.
    + rewrite repetitions_of_None in Hs. unfold compare_repetitions.
      destruct (case_values id (rr_observations candidate)) as [|v l] eqn:Hv; [done|].
      destruct (case_values_keys id (rr_observations candidate)) as [n Hn]; [by rewrite Hv|].
      destruct (Hs n). by apply Hkeys.
  - intros Hall [id s] _. apply Hall.
Qed.

Lemma dom_by_key_eq {A B} (f : A -> Key) (g : B -> Key) l k :
  dom (by_key f l) = dom (by_key g k) <-> forall key, key ∈ f <$> l <-> key ∈ g <$> k.
Proof.
  split.
  - intros E key. by rewrite <-(elem_of_dom_by_key f), <-(elem_of_dom_by_key g), E.
  - intros Hk. apply leibniz_equiv. intros key. by rewrite !elem_of_dom_by_key.
Qed.

(** The comparison is silent exactly when its five checks are. *)
Lemma compare_runs_nil policy :
  compare_runs reference candidate policy corpus = [] <->
  (rr_implementation_invoked reference = true /\ rr_synchronized reference = true)
  /\ (rr_implementation_invoked candidate = true /\ rr_synchronized candidate = true)
  /\ (forall k, k ∈ keys_of (rr_observations reference) <-> k ∈ rc_key <$> co_cases corpus)
  /\ (forall k, k ∈ keys_of (rr_observations reference) <-> k ∈ keys_of (rr_observations candidate))
  /\ (forall e n, e ∈ rr_observations reference ->
        (ob_case_id e, n) ∈ keys_of (rr_observations reference)
        <-> (1 <= n <= op_required_repetitions policy)%N)
  /\ (forall e a c, e ∈ rr_observations reference -> a ∈ rr_observations candidate ->
        c ∈ co_cases corpus -> ob_key a = ob_key e -> rc_key c = ob_key e ->
        compare_case policy e a c = None)
  /\ (forall id first values, case_values id (rr_observations candidate) = first :: values ->
        Forall (fun value => within_tolerance first value policy = true) values).
Proof.
  rewrite <-(repetitions_exact (op_required_repetitions policy)).
  rewrite <-(dom_by_key_eq ob_key rc_key), <-(dom_by_key_eq ob_key ob_key). unfold compare_runs.
  destruct (rr_implementation_invoked reference); cbn; [|naive_solver].
  destruct (rr_synchronized reference); cbn; [|naive_solver].
  case_bool_decide as Hcorpus; [split; [by intros []%app_nil|tauto]|].
  case_bool_decide as Hkeys; [split; [by intros []%app_nil|tauto]|].
  pose proof (proj1 (dom_by_key_eq _ _ _ _) Hcorpus) as Hcorpus'.
  pose proof (proj1 (dom_by_key_eq _ _ _ _) Hkeys) as Hkeys'.
  rewrite <-(cases_agree policy Hcorpus' Hkeys'), <-(repetitions_agree policy Hkeys').
  rewrite !app_nil.
  destruct (rr_implementation_invoked candidate), (rr_synchronized candidate); cbn;
    [|by split; [intros ((? & ?) & ?)|intros (? & (? & ?) & ?)]..].
  destruct (existsb _ _); cbn; [split; [by intros (_ & ? & _)|by intros (_ & _ & _ & _ & ? & _)]|tauto].
Qed.

End runs.

(** The comparison decides acceptance. *)
Lemma compare_runs_accepted `{Sha256} reference candidate policy corpus :
  run_ok reference -> run_ok candidate -> NoDup (rc_key <$> co_cases corpus) ->
  compare_runs reference candidate policy corpus = [] <-> accepted reference candidate policy corpus.
Proof.
  intros [_ _ Hr Hrk] [_ _ Hc Hck] Hnd. rewrite compare_runs_nil by done.
  rewrite Forall_forall in Hr, Hc.
  split.
  - intros (H1 & H2 & H3 & H4 & H5 & H6 & H7). constructor; try done.
    intros e a c He Ha Hin Ea Ec. apply compare_case_None; auto.
  - intros [H1 H2 H3 H4 H5 H6 H7]. do 5 (split; [done|]). split; [|done].
    intros e a c He Ha Hin Ea Ec. apply compare_case_None; auto.
Qed.

(** ** The verdict *)

Section verdict.
Context `{!Sha256} `{OracleJson}.

Abbreviation Error := (ReductionCorrectnessError rj_error).

(** The runs, the plan and the corpus are those the experiment names. *)
Record of_experiment (experiment : ReductionCorrectnessExperiment)
    (reference candidate : ReductionRunReceipt) (plan : ReductionTolerancePlan)
    (corpus : ReductionCorpus) : Prop := {
  oe_reference : rr_role reference = CudaReference
    /\ rr_experiment_digest reference = ex_experiment_digest experiment
    /\ rr_corpus_digest reference = ex_corpus_digest experiment;
  oe_candidate : rr_role candidate = AscendCandidate
    /\ rr_candidate_id candidate = Some (ex_candidate_id experiment)
    /\ rr_experiment_digest candidate = ex_experiment_digest experiment
    /\ rr_corpus_digest candidate = ex_corpus_digest experiment;
  oe_plan : plan_digest plan = Ok (ex_tolerance_plan_digest experiment);
  oe_corpus : corpus_digest corpus = Ok (ex_corpus_digest experiment);
}.

Lemma validate_experiment_runs_Ok experiment reference candidate plan corpus u :
  validate_experiment_runs experiment reference candidate plan corpus = Ok u <->
  of_experiment experiment reference candidate plan corpus.
Proof.
  unfold validate_experiment_runs. rewrite guard_bind_Ok, result_bind_Ok, !orb_false_iff,
    !bool_decide_eq_false. setoid_rewrite guard_bind_Ok. setoid_rewrite result_bind_Ok.
  setoid_rewrite guard_err_Ok. setoid_rewrite bool_decide_eq_false. split.
  - intros ([[[[[[P1 P2] P3] P4] P5] P6] P7] & p & Hp & Hp' & c & Hc & Hc').
    apply dec_stable in P1, P2, P3, P4, P5, P6, P7, Hp', Hc'. subst p c. by constructor.
  - intros [(P1 & P4 & P6) (P2 & P3 & P5 & P7) Hp Hc]. split; [tauto|].
    eexists. split; [exact Hp|]. split; [tauto|]. eexists. split; [exact Hc|tauto].
Qed.

(** The tolerance a plan grants a reference: the one derived from the
    spread measured in it. *)
Definition granted (reference : ReductionRunReceipt) (plan : ReductionTolerancePlan)
    (corpus : ReductionCorpus) (policy : ReductionOraclePolicy) : Prop :=
  exists floor, measure_reduction_noise_floor reference corpus = Ok floor
    /\ plan_derive plan floor = Ok policy.

Lemma derived_policy_granted reference plan corpus o :
  derived_policy reference plan corpus = Ok o ->
  forall policy, o = Some policy <-> granted reference plan corpus policy.
Proof.
  unfold derived_policy, granted, floor_of. intros E policy.
  destruct (measure_reduction_noise_floor reference corpus) as [floor|e] eqn:Hm; cbn in E.
  - destruct (plan_derive plan floor) as [p|e] eqn:Hp; [|done]. injection E as <-.
    split; [intros [= ->]; by exists floor|]. intros (f & [= <-] & Hf). congruence.
  - injection E as <-. split; [done|]. by intros (f & ? & _).
Qed.

(** A calibration vouches for a policy on a reference run. *)
Record vouches (calibration : ReductionCalibrationReceipt) (reference : ReductionRunReceipt)
    (policy : ReductionOraclePolicy) : Prop := {
  vo_passed : calibration_passed calibration = true;
  vo_revision : cr_oracle_revision calibration = REDUCTION_ORACLE_REVISION_V1;
  vo_corpus : cr_corpus_digest calibration = rr_corpus_digest reference;
  vo_reference : run_digest reference = Ok (cr_reference_run_digest calibration);
  vo_policy : oracle_policy_digest policy = Ok (cr_policy_digest calibration);
}.

(** A verdict, whatever the runs: the calibration vouches for the granted
    policy or nothing was decided. *)
Lemma evaluate_Ok experiment reference candidate plan corpus calibration r :
  evaluate_reduction_correctness experiment reference candidate plan corpus calibration = Ok r ->
  of_experiment experiment reference candidate plan corpus
  /\ ct_experiment r = experiment
  /\ run_digest reference = Ok (ct_reference_run_digest r)
  /\ run_digest candidate = Ok (ct_candidate_run_digest r)
  /\ calibration_digest calibration = Ok (ct_calibration_receipt_digest r)
  /\ ((exists policy, granted reference plan corpus policy /\ vouches calibration reference policy
        /\ ct_failures r = compare_runs reference candidate policy corpus
        /\ ct_verdict r = match ct_failures r with [] => Pass | _ => Fail end)
      \/ ((forall policy, granted reference plan corpus policy ->
             ~ vouches calibration reference policy)
          /\ ct_verdict r = Unverifiable /\ ct_failures r <> [])).
Proof.
  unfold evaluate_reduction_correctness.
  intros (u & Hv & (rd & Hrd & (cd & Hcd & (kd & Hkd & (o & Ho & (pd & Hpd & E)%result_bind_Ok)%result_bind_Ok)%result_bind_Ok)%result_bind_Ok)%result_bind_Ok)%result_bind_Ok.
  apply validate_experiment_runs_Ok in Hv. pose proof (derived_policy_granted _ _ _ _ Ho) as Hg.
  assert (forall policy, o = Some policy -> calibration_passed calibration
    && bool_decide (cr_oracle_revision calibration = REDUCTION_ORACLE_REVISION_V1)
    && bool_decide (cr_corpus_digest calibration = ex_corpus_digest experiment)
    && bool_decide (cr_reference_run_digest calibration = rd)
    && bool_decide (pd = Some (cr_policy_digest calibration)) = true
    <-> vouches calibration reference policy) as Hvouch.
  { intros policy ->. cbn in Hpd. destruct (oracle_policy_digest policy) as [d|] eqn:Hd; [|done].
    injection Hpd as <-. rewrite !andb_true_iff, !bool_decide_eq_true.
    destruct Hv as [(_ & _ & Hco) _ _ _]. split.
    - intros [[[[P1 P2] P3] P4] P5]. constructor; congruence.
    - intros [P1 P2 P3 P4 P5]. rewrite Hd in P5. rewrite Hrd in P4. split_and!; congruence. }
  destruct (_ && bool_decide (pd = _)) eqn:Hc; destruct o as [policy|]; injection E as <-; cbn;
    do 5 (split; [done|]).
  - left. exists policy. split; [by apply Hg|]. split; [by apply Hvouch|done].
  - exfalso. rewrite andb_true_iff, bool_decide_eq_true in Hc. cbn in Hpd. destruct Hc as [_ Hc]. congruence.
  - right. split; [|done]. intros p Hp Hvo. apply Hg in Hp. injection Hp as ->.
    apply (Hvouch p) in Hvo; [congruence|done].
  - right. split; [|done]. intros p Hp. apply Hg in Hp. done.
Qed.

(** C34 A correctness receipt is issued only for the runs, plan and corpus
    its experiment names, and its verdict is exact: it is [Pass] if and only
    if the tolerance derived from the reference's own noise floor is the one
    the calibration vouched for and the comparison accepts the candidate at
    it (same cases, inputs and statuses, outputs finite, zeros kept, within
    tolerance of the reference and of each other); it is [Unverifiable] if
    and only if no vouched tolerance exists; [InfraError] is never issued
    and a [Pass] is the receipts without failures. *)
Theorem verdict_exact experiment reference candidate plan corpus calibration r :
  run_ok reference -> run_ok candidate -> NoDup (rc_key <$> co_cases corpus) ->
  evaluate_reduction_correctness experiment reference candidate plan corpus calibration = Ok r ->
  of_experiment experiment reference candidate plan corpus
  /\ (ct_verdict r = Pass <-> exists policy, granted reference plan corpus policy
        /\ vouches calibration reference policy /\ accepted reference candidate policy corpus)
  /\ (ct_verdict r = Unverifiable <-> forall policy, granted reference plan corpus policy ->
        ~ vouches calibration reference policy)
  /\ ct_verdict r <> InfraError
  /\ (ct_verdict r = Pass <-> ct_failures r = []).
Proof.
  intros Href Hcand Hnd (Hv & _ & _ & _ & _ & Hcase)%evaluate_Ok. split; [done|].
  setoid_rewrite <-compare_runs_accepted; [|done..].
  destruct Hcase as [(policy & Hg & Hvo & Hf & ->)|(Hno & -> & Hf)].
  - assert (forall p, granted reference plan corpus p -> p = policy) as Huniq.
    { destruct Hg as (f & Hf1 & Hf2). intros p (f' & Hf1' & Hf2'). congruence. }
    destruct (ct_failures r) as [|x l] eqn:Hl.
    + split_and!; try done. split; [intros _; by exists policy|done]. split; [done|].
      intros Hn. by destruct (Hn policy).
    + split_and!; try done. split; [done|]. intros (p & Hp & _ & Hp'). apply Huniq in Hp as ->. congruence.
      split; [done|]. intros Hn. by destruct (Hn policy).
  - split_and!; try done. split; [done|]. intros (p & Hp & Hvo & _). by destruct (Hno p).
Qed.

(** ** The calibration *)

(** What the battery shows of a policy: another correct order is admitted
    and every planted defect is noticed. *)
Record battery_passes (reference : ReductionRunReceipt) (policy : ReductionOraclePolicy)
    (corpus : ReductionCorpus) : Prop := {
  bp_admits : exists reordered, reordered_authority reference = Some reordered
    /\ compare_runs reference reordered policy corpus = [];
  bp_detects : forall kind, kind ∈ Mutant.ALL -> exists mutant,
    apply_mutant reference kind policy = Some mutant
    /\ compare_runs reference mutant policy corpus <> [];
}.

Lemma rejects_true reference candidate policy corpus :
  rejects reference candidate policy corpus = true <->
  compare_runs reference candidate policy corpus <> [].
Proof. unfold rejects. by destruct (compare_runs _ _ _ _). Qed.

Lemma detected_true reference policy corpus kind :
  md_detected (detect reference policy corpus kind) = true <->
  exists mutant, apply_mutant reference kind policy = Some mutant
    /\ compare_runs reference mutant policy corpus <> [].
Proof.
  unfold detect. cbn. setoid_rewrite <-rejects_true. destruct (apply_mutant _ _ _) as [m|].
  - split; [by exists m|]. by intros (? & [= <-] & ?).
  - split; [done|]. by intros (? & ? & _).
Qed.

Lemma all_detected reference policy corpus :
  md_mutant <$> List.filter (fun item => negb (md_detected item))
    (detect reference policy corpus <$> Mutant.ALL) = [] <->
  forall kind, kind ∈ Mutant.ALL -> md_detected (detect reference policy corpus kind) = true.
Proof.
  induction Mutant.ALL as [|kind l IH]; cbn [fmap list_fmap]; [cbn; set_solver|].
  cbn [List.filter].
  setoid_rewrite elem_of_cons.
  destruct (md_detected (detect reference policy corpus kind)) eqn:Hd; cbn [negb].
  - rewrite IH. split; [intros Hl k [->|Hk]; auto|auto].
  - split; [done|]. intros Hl. rewrite Hl in Hd; [done|by left].
Qed.

Lemma calibrate_Ok reference plan corpus calibration :
  calibrate_reduction_oracle reference plan corpus = Ok calibration ->
  cr_oracle_revision calibration = REDUCTION_ORACLE_REVISION_V1
  /\ cr_corpus_digest calibration = rr_corpus_digest reference
  /\ run_digest reference = Ok (cr_reference_run_digest calibration)
  /\ (forall policy, granted reference plan corpus policy ->
        oracle_policy_digest policy = Ok (cr_policy_digest calibration))
  /\ (calibration_passed calibration = true <-> exists policy,
        granted reference plan corpus policy /\ battery_passes reference policy corpus).
Proof.
  unfold calibrate_reduction_oracle. rewrite guard_bind_Ok. intros (_ & E).
  apply result_bind_Ok in E as (d & _ & E). rewrite guard_bind_Ok in E. destruct E as (_ & E).
  apply result_bind_Ok in E as (o & Ho & E). pose proof (derived_policy_granted _ _ _ _ Ho) as Hg.
  destruct o as [policy|].
  - apply result_bind_Ok in E as (pd & Hpd & E). apply result_bind_Ok in E as (rd & Hrd & E).
    apply Ok_inj in E. subst calibration. cbn in Hpd. destruct (oracle_policy_digest policy) as [pd'|] eqn:Hd; [|done].
    injection Hpd as <-. split_and!; try done.
    { intros p Hp. apply Hg in Hp. injection Hp as <-. by rewrite Hd. }
    unfold calibration_passed. cbn [cr_passed cr_checks cr_undetected ck_tolerance_measured
      ck_reordered_authority_admitted andb].
    rewrite !andb_true_iff, !bool_decide_eq_true, all_detected. setoid_rewrite detected_true. split.
    + intros [[_ Ha] Hu]. exists policy. split; [by apply Hg|]. constructor; [|done].
      destruct (reordered_authority reference) as [reordered|]; [|done]. exists reordered. split; [done|].
      apply negb_true_iff in Ha. unfold rejects in Ha. by destruct (compare_runs _ _ _ _).
    + intros (p & Hp & [(reordered & Hr & Hc) Hu]). apply Hg in Hp. injection Hp as ->.
      rewrite Hr. unfold rejects. by rewrite Hc.
  - apply result_bind_Ok in E as (pd & Hpd & E). apply result_bind_Ok in E as (rd & Hrd & E).
    injection E as <-. split_and!; try done.
    { intros p Hp. by apply Hg in Hp. }
    split; [done|]. intros (p & Hp & _). by apply Hg in Hp.
Qed.

(** Calibrating the oracle on a reference and then judging a candidate
    against that reference passes the candidate exactly when the reference
    has a measurable noise floor that grants a tolerance, the authority's
    own second order (or its rotated repetitions) is accepted at it, each
    of the nine planted defects can be built and is noticed at it, and the
    candidate is accepted at it. *)
Theorem calibrated_verdict_exact experiment reference candidate plan corpus calibration r :
  run_ok reference -> run_ok candidate -> NoDup (rc_key <$> co_cases corpus) ->
  calibrate_reduction_oracle reference plan corpus = Ok calibration ->
  evaluate_reduction_correctness experiment reference candidate plan corpus calibration = Ok r ->
  ct_verdict r = Pass <-> exists policy, granted reference plan corpus policy
    /\ battery_passes reference policy corpus /\ accepted reference candidate policy corpus.
Proof.
  intros Href Hcand Hnd (Hrev & Hco & Hrd & Hpol & Hpass)%calibrate_Ok
    (_ & _ & _ & _ & _ & Hcase)%evaluate_Ok.
  assert (forall p q, granted reference plan corpus p -> granted reference plan corpus q -> p = q) as Huniq.
  { intros p q (f & P1 & P2) (g & Q1 & Q2). congruence. }
  setoid_rewrite <-compare_runs_accepted; [|done..].
  destruct Hcase as [(policy & Hg & Hvo & Hf & ->)|(Hno & -> & Hf)].
  - destruct (proj1 Hpass (vo_passed _ _ _ Hvo)) as (p & Hp & Hb).
    rewrite (Huniq _ _ Hp Hg) in Hb. rewrite Hf. split.
    + intros E. exists policy. split_and!; try done. by destruct (compare_runs _ _ _ _).
    + intros (q & Hq & _ & Hc). rewrite (Huniq _ _ Hq Hg) in Hc. by rewrite Hc.
  - split; [done|]. intros (p & Hp & Hb & _). destruct (Hno p Hp). constructor; try done; [|by apply Hpol].
    apply Hpass. by exists p.
Qed.

End verdict.

(** ** The noise floor *)

Section floor.
Context `{!Sha256} `{OracleJson}.

Lemma spread_self {E : Type} bits m :
  spread (E:=E) bits bits = Ok m -> m = (S754_zero false, S754_zero false).
Proof.
  unfold spread. rewrite guard_bind_Ok, orb_diag, negb_false_iff. intros [Hf E'%Ok_inj].
  subst m. unfold f64_sub. rewrite SFsub_self by exact Hf. revert Hf.
  generalize (f64_of_f32 (f32_from_bits bits)). intros x Hf.
  destruct x as [s| | |[] p e]; try discriminate Hf; reflexivity.
Qed.

(** While every pair is equal nothing has been measured. *)
Definition nothing_measured (s : Spread) : Prop :=
  sp_deterministic s = true ->
  sp_absolute s = S754_zero false /\ sp_relative s = S754_zero false.

Lemma spread_pair_nothing {E : Type} s a b s' :
  spread_pair (E:=E) s a b = Ok s' -> nothing_measured s -> nothing_measured s'.
Proof.
  unfold spread_pair. intros (m & Hm & E'%Ok_inj)%result_bind_Ok Hs. subst s'.
  unfold nothing_measured. cbn [sp_deterministic sp_absolute sp_relative].
  intros [Hd ->%N.eqb_eq]%andb_true_iff. apply spread_self in Hm as ->. by destruct (Hs Hd) as [-> ->].
Qed.

Lemma spread_reordered_nothing {E : Type} l s n s' n' :
  spread_reordered (E:=E) l s n = Ok (s', n') -> nothing_measured s -> nothing_measured s'.
Proof.
  revert s n. induction l as [|o l IH]; cbn [spread_reordered]; intros s n; [by intros [= <- <-]|].
  destruct (ob_output_bits o) as [bits|]; [|eauto].
  destruct (ob_reorder_output_bits o) as [other|]; [|eauto].
  intros (s1 & Hp & Hr)%result_bind_Ok Hs. eauto using spread_pair_nothing.
Qed.

Lemma spread_windows_nothing {E : Type} l s s' :
  spread_windows (E:=E) l s = Ok s' -> nothing_measured s -> nothing_measured s'.
Proof.
  revert s. induction l as [|a [|b l] IH]; intros s; [by intros [= <-]..|].
  change (spread_windows (a :: b :: l) s) with (s ← spread_pair (E:=E) s a b; spread_windows (b :: l) s).
  intros (s1 & Hp & Hr)%result_bind_Ok Hs. eauto using spread_pair_nothing.
Qed.

Lemma spread_cases_nothing {E : Type} l s s' :
  spread_cases (E:=E) l s = Ok s' -> nothing_measured s -> nothing_measured s'.
Proof.
  revert s. induction l as [|c l IH]; intros s; [by intros [= <-]|]. cbn [spread_cases].
  intros (s1 & Hp & Hr)%result_bind_Ok Hs. eauto using spread_windows_nothing.
Qed.

(** The value is computed by the virtual machine: both are closed. *)
Lemma scale_zero : scale_to_units (S754_zero false) billion = 0%N.
Proof. by vm_compute. Qed.

Lemma zero_tolerance policy expected :
  op_absolute_tolerance_nanos policy = 0%N -> op_relative_tolerance_ppb policy = 0%N ->
  tolerance_bound expected policy = S754_zero false.
Proof.
  intros Ha Hr. unfold tolerance_bound. rewrite Ha, Hr.
  assert (f64_of_N 0 = S754_zero false) as -> by by vm_compute.
  assert (f64_div (S754_zero false) billion = S754_zero false) as -> by by vm_compute.
  destruct expected as [s|s| |s m e]; by vm_compute.
Qed.

Lemma within_zero e a policy :
  op_absolute_tolerance_nanos policy = 0%N -> op_relative_tolerance_ppb policy = 0%N ->
  within_tolerance e a policy = true <->
  exists s, f64_sub (f64_of_f32 a) (f64_of_f32 e) = S754_zero s.
Proof.
  intros Ha Hr. unfold within_tolerance. rewrite zero_tolerance by done.
  destruct (f64_sub (f64_of_f32 a) (f64_of_f32 e)) as [s|s| |s m x]; cbn; naive_solver.
Qed.

Lemma measured_Ok reference corpus floor :
  measure_reduction_noise_floor reference corpus = Ok floor ->
  exists s n r, spread_reordered (E:=rj_error) (rr_observations reference) zero_spread 0 = Ok (s, n)
    /\ spread_cases (E:=rj_error) (in_name_order (outputs_by_case (rr_observations reference)))
         (MkSpread (sp_absolute s) (sp_relative s) 0 (sp_deterministic s)) = Ok r
    /\ nf_observed_absolute_nanos floor = scale_to_units (sp_absolute r) billion
    /\ nf_observed_relative_ppb floor = scale_to_units (sp_relative r) billion
    /\ nf_deterministic floor = sp_deterministic r.
Proof.
  unfold measure_reduction_noise_floor. rewrite guard_bind_Ok. intros (_ & E).
  apply result_bind_Ok in E as (d & _ & E). rewrite guard_bind_Ok in E. destruct E as (_ & E).
  apply result_bind_Ok in E as ([s n] & Hs & E). rewrite guard_bind_Ok in E. destruct E as (_ & E).
  apply result_bind_Ok in E as (r & Hr & E). rewrite guard_bind_Ok in E. destruct E as (_ & E).
  apply result_bind_Ok in E as (rd & _ & E). injection E as <-. by exists s, n, r.
Qed.

(** A reference whose repetitions and second orders all agree bit for
    bit measures a floor of exactly zero, and every tolerance a plan
    derives from it, whatever its slack, then admits an output only when
    its computed difference from the reference is a zero. *)
Theorem deterministic_floor_is_exact reference corpus floor :
  measure_reduction_noise_floor reference corpus = Ok floor -> nf_deterministic floor = true ->
  nf_observed_absolute_nanos floor = 0%N /\ nf_observed_relative_ppb floor = 0%N
  /\ forall plan policy, plan_derive plan floor = Ok policy -> forall e a,
       within_tolerance e a policy = true <->
       exists s, f64_sub (f64_of_f32 a) (f64_of_f32 e) = S754_zero s.
Proof.
  intros (s & n & r & Hs & Hr & Ha & Hp & Hd)%measured_Ok Hdet. rewrite Hdet in Hd.
  assert (nothing_measured r) as Hn.
  { eapply spread_cases_nothing; [exact Hr|]. unfold nothing_measured. cbn.
    eapply (spread_reordered_nothing _ _ _ _ _ Hs). by intros _. }
  destruct (Hn (eq_sym Hd)) as [Ea Ep]. rewrite Ea, scale_zero in Ha. rewrite Ep, scale_zero in Hp.
  split; [done|]. split; [done|]. intros plan policy Hder. unfold plan_derive, derive_from_floor in Hder.
  rewrite Ha, Hp in Hder. unfold widen in Hder.
  destruct (checked_add u16_max 100 (tp_slack_percent plan)) as [factor|]; [|done].
  apply result_bind_Ok in Hder as (x & Hx & Hder). apply result_bind_Ok in Hder as (y & Hy & Hder).
  apply result_bind_Ok in Hder as (d & _ & Hder). injection Hder as <-.
  cbn in Hx, Hy. injection Hx as <-. injection Hy as <-. intros e a. by apply within_zero.
Qed.

End floor.

(** ** The edge of the tolerance *)

Section edge.
Context `{Sha256}.

Lemma update_first_Some p f l l' :
  update_first p f l = Some l' -> exists l1 x y l2,
    l = l1 ++ x :: l2 /\ l' = l1 ++ y :: l2 /\ f x = Some y /\ List.find p l = Some x.
Proof.
  revert l'. induction l as [|x l IH]; cbn; [done|]. intros l'. destruct (p x) eqn:Hp.
  - destruct (f x) as [y|] eqn:Hy; [|done]. intros [= <-]. by exists [], x, y, l.
  - destruct (update_first p f l) as [k|]; [|done]. intros [= <-].
    destruct (IH _ eq_refl) as (l1 & z & y & l2 & -> & -> & Hy & Hf). by exists (x :: l1), z, y, l2.
Qed.

Lemma just_outside_zero policy b : just_outside policy 0 = Some b -> b <> 0%N.
Proof.
  unfold just_outside. assert (f32_to_bits (f32_from_bits 0) = 0%N) as -> by by vm_compute.
  destruct (if (_ =? 0)%N then _ else _) as [perturbed|]; [|done]. cbn.
  destruct (N.eqb_spec (f32_to_bits perturbed) 0); cbn; [done|].
  destruct (is_finite perturbed); [|done]. cbn. by intros [= <-].
Qed.

(** The first output the edge mutant perturbs. *)
Definition edge_item (reference : ReductionRunReceipt) : option ReductionObservation :=
  List.find (fun item => succeeded item && bool_decide (is_Some (ob_output_bits item)))
    (rr_observations reference).

(** The mutant that is sized by the policy to sit just outside the
    tolerance perturbs the first successful output.  Where that output is
    +0, as for the first case of the frozen corpus, whose sum is empty, the
    mutant of any policy is rejected under every other policy, however
    wide: the signed-zero rule notices it and its detection says nothing
    about where the tolerance ends. *)
Theorem edge_mutant_blind_at_zero reference sized judged corpus item mutant :
  NoDup (keys_of (rr_observations reference)) -> NoDup (rc_key <$> co_cases corpus) ->
  edge_item reference = Some item -> ob_output_bits item = Some 0%N ->
  apply_mutant reference Mutant.JustOutsideTolerance sized = Some mutant ->
  compare_runs reference mutant judged corpus <> [].
Proof.
  intros Hnd Hco Hitem Hzero Hm. unfold apply_mutant in Hm.
  destruct (candidate_of _) as [id|]; [|done]. cbn [option_bind mbind] in Hm.
  cbn [mutate] in Hm.
  destruct (update_first _ _ _) as [l|] eqn:Hu; [|done]. injection Hm as <-.
  apply update_first_Some in Hu as (l1 & x & y & l2 & Hl & -> & Hy & Hf).
  unfold edge_item in Hitem. rewrite Hf in Hitem. injection Hitem as ->. rewrite Hzero in Hy.
  cbn [mbind option_bind] in Hy. destruct (just_outside sized 0) as [b|] eqn:Hb; [|done].
  injection Hy as <-. apply just_outside_zero in Hb.
  assert (keys_of (l1 ++ with_output (Some b) item :: l2) = keys_of (rr_observations reference)) as Hk
    by (rewrite Hl; unfold keys_of; by rewrite !fmap_app).
  intros Hnil. apply compare_runs_nil in Hnil; [|done| |done];
    [|change (NoDup (keys_of (l1 ++ with_output (Some b) item :: l2))); by rewrite Hk].
  destruct Hnil as (_ & _ & Hcorpus & _ & _ & Hcases & _). cbn [rr_observations as_candidate] in Hcases.
  assert (item ∈ rr_observations reference) as Hin by (rewrite Hl; set_solver).
  assert (ob_key item ∈ rc_key <$> co_cases corpus) as (c & Ec & Hc)%list_elem_of_fmap
    by (apply Hcorpus; by apply list_elem_of_fmap_2).
  specialize (Hcases item (with_output (Some b) item) c Hin). ospecialize* Hcases; try done.
  { set_solver. }
  revert Hcases. unfold compare_case. cbn. destruct (_ || _ || _ || _); [done|].
  rewrite Z.eqb_refl. cbn. rewrite Hzero. destruct (negb _ || negb _); [done|].
  rewrite (proj2 (N.eqb_neq b 0)) by done. done.
Qed.

End edge.

(** ** A calibrated run

    A corpus with an empty sum, a sum of 257 elements and an invalid call,
    each repeated; the reference is deterministic. *)

(** A result that is used in a second one. *)
Definition bind_both {E A B} (c : result E A) (f : A -> result E B) : result E (A * B) :=
  a ← c; b ← f a; Ok (a, b).

Definition is_ok_and {E A} (f : A -> bool) (r : result E A) : bool :=
  match r with Ok a => f a | Err _ => false end.

Lemma is_ok_and_both {E A B} (p : A * B -> bool) (c : result E A) (f : A -> result E B) :
  is_ok_and p (bind_both c f) = true -> exists a b, c = Ok a /\ f a = Ok b /\ p (a, b) = true.
Proof.
  unfold bind_both. destruct c as [a|]; cbn; [|done]. destruct (f a) as [b|] eqn:Hb; cbn; [|done].
  intros Hp. by exists a, b.
Qed.

Lemma is_ok_and_Ok {E A} (p : A -> bool) (r : result E A) :
  is_ok_and p r = true -> exists a, r = Ok a /\ p a = true.
Proof. destruct r as [a|]; cbn; [|done]. by exists a. Qed.

Module Sample.

Definition observation_bytes (o : ReductionObservation) : bytes :=
  text_bytes (ob_case_id o) ++ be_bytes 2 (ob_repetition o) ++ be_bytes 4 (default 0%N (ob_output_bits o)).

Definition json : ReductionJson := {|
  rj_error := unit;
  corpus_to_vec c := Ok (text_bytes (co_revision c) ++ list_bytes input_bytes (co_cases c));
  run_to_vec r := Ok (list_bytes observation_bytes (rr_observations r));
  floor_to_vec f := Ok (be_bytes 8 (nf_observed_absolute_nanos f) ++ be_bytes 8 (nf_observed_relative_ppb f));
  plan_to_vec p := Ok (be_bytes 2 (tp_slack_percent p) ++ be_bytes 2 (tp_required_repetitions p));
  policy_to_vec p := Ok (be_bytes 4 (op_absolute_tolerance_nanos p)
                         ++ be_bytes 4 (op_relative_tolerance_ppb p));
  bundle_to_vec b := Ok (digest_body (eb_implementation_digest b));
|}.

Definition oracle_json : @OracleJson json := {|
  calibration_to_vec c := Ok (digest_body (cr_policy_digest c) ++ digest_body (cr_reference_run_digest c));
  correctness_to_vec c := Ok (digest_body (ct_candidate_run_digest c));
|}.

#[local] Existing Instances toy_sha json oracle_json.

Definition corpus : ReductionCorpus :=
  MkCorpus "cuda-reduction-corpus-v1"
    [MkCase "valid-0" 1 0 7 Valid; MkCase "valid-0" 2 0 7 Valid;
     MkCase "valid-257" 1 257 8 Valid; MkCase "valid-257" 2 257 8 Valid;
     MkCase "invalid-null-input" 1 1 9 NullInput; MkCase "invalid-null-input" 2 1 9 NullInput].

(** The bits of 100.0. *)
Definition hundred : N := 0x42C80000.

Definition observe (c : ReductionCorpusCase) : ReductionObservation :=
  let status := match rc_kind c with Valid => 0%Z | _ => (-1)%Z end in
  MkObservation (rc_case_id c) (rc_repetition c) (rc_elements c) (case_input_digest c) status
    match rc_kind c with
    | Valid => Some (if (rc_elements c =? 0)%N then 0%N else hundred)
    | _ => None
    end None.

Definition plan : ReductionTolerancePlan := plan_fixture_v1.

Definition corpus_identity : Sha256Digest :=
  match corpus_digest corpus with Ok d => d | Err _ => digest_of "" end.

Definition plan_identity : Sha256Digest :=
  match plan_digest plan with Ok d => d | Err _ => digest_of "" end.

Definition reference : ReductionRunReceipt :=
  MkRun REDUCTION_RUN_RECEIPT_SCHEMA_V1 (digest_of "experiment") CudaReference None
    (digest_of "implementation") corpus_identity (digest_of "environment") true true
    (observe <$> co_cases corpus).

Definition candidate (id : CandidateId) : ReductionRunReceipt :=
  as_candidate reference (Some id) (rr_observations reference).

Definition experiment (task : TaskId) (id : CandidateId) : ReductionCorrectnessExperiment :=
  MkExperiment (digest_of "experiment") task id (digest_of "spec") (digest_of "manifest")
    (digest_of "source") (digest_of "build") corpus_identity plan_identity.

(** Whether the candidate passes once the oracle is calibrated. *)
Definition passes (task : result (IdError KTask) TaskId) (id : result (IdError KCandidate) CandidateId)
    : bool :=
  match task, id with
  | Ok task, Ok id =>
      is_ok_and (fun receipt => bool_decide (ct_verdict receipt.2 = Pass))
        (bind_both (calibrate_reduction_oracle reference plan corpus)
           (evaluate_reduction_correctness (experiment task id) reference (candidate id) plan corpus))
  | _, _ => false
  end.

Lemma run_new_reference (r : result (ReductionCorrectnessError unit) ReductionRunReceipt) :
  is_ok_and (fun _ => true) r = true ->
  (forall x, r = Ok x -> x = reference /\ run_ok x) -> run_ok reference.
Proof. intros (x & Hx & _)%is_ok_and_Ok Hr. destruct (Hr x Hx) as [-> Hok]. exact Hok. Qed.

Lemma reference_ok : run_ok reference.
Proof.
  eapply run_new_reference; [|intros x Hx; apply run_new_ok in Hx; exact Hx].
  vm_compute. reflexivity.
Qed.

Lemma candidate_ok id : run_ok (candidate id).
Proof. destruct reference_ok as [P1 _ P3 P4]. by constructor. Qed.

Lemma corpus_keys : NoDup (rc_key <$> co_cases corpus).
Proof. apply (bool_decide_eq_true_1 _). by vm_compute. Qed.

(** The calibrated oracle passes the candidate that answers alike. *)
Lemma passes_judged task id : passes task id = true ->
  exists task id calibration receipt,
  calibrate_reduction_oracle reference plan corpus = Ok calibration
  /\ evaluate_reduction_correctness (experiment task id) reference (candidate id) plan corpus calibration
     = Ok receipt
  /\ ct_verdict receipt = Pass.
Proof.
  unfold passes. destruct task as [task|]; [|discriminate]. destruct id as [id|]; [|discriminate].
  intros (calibration & receipt & Hc & Hr & Hp)%is_ok_and_both. apply bool_decide_eq_true in Hp.
  exists task, id, calibration, receipt. split; [exact Hc|]. split; [exact Hr|exact Hp].
Qed.

Lemma judged_passes : exists task id calibration receipt,
  calibrate_reduction_oracle reference plan corpus = Ok calibration
  /\ evaluate_reduction_correctness (experiment task id) reference (candidate id) plan corpus calibration
     = Ok receipt
  /\ ct_verdict receipt = Pass.
Proof.
  apply (passes_judged (parse_id KTask "task-1") (parse_id KCandidate "candidate-1")).
  vm_compute. reflexivity.
Qed.

Lemma verdict_exact_witness : exists experiment id calibration receipt,
  evaluate_reduction_correctness experiment reference (candidate id) plan corpus calibration = Ok receipt
  /\ exists policy, granted reference plan corpus policy /\ vouches calibration reference policy
       /\ accepted reference (candidate id) policy corpus.
Proof.
  destruct judged_passes as (task & id & calibration & receipt & _ & E & Hpass).
  exists (experiment task id), id, calibration, receipt. split; [exact E|].
  apply (verdict_exact _ _ _ _ _ _ _ reference_ok (candidate_ok id) corpus_keys E). exact Hpass.
Defined.

Lemma calibrated_verdict_exact_witness : exists policy,
  granted reference plan corpus policy /\ battery_passes reference policy corpus
  /\ exists id, accepted reference (candidate id) policy corpus.
Proof.
  destruct judged_passes as (task & id & calibration & receipt & Ec & E & Hpass).
  apply (calibrated_verdict_exact _ _ _ _ _ _ _ reference_ok (candidate_ok id) corpus_keys Ec E) in Hpass
    as (policy & Hg & Hb & Ha).
  exists policy. split; [exact Hg|]. split; [exact Hb|]. exists id. exact Ha.
Defined.

Lemma measured : exists floor, measure_reduction_noise_floor reference corpus = Ok floor
  /\ nf_deterministic floor = true.
Proof. apply is_ok_and_Ok. vm_compute. reflexivity. Qed.

Lemma deterministic_floor_is_exact_witness : exists floor,
  measure_reduction_noise_floor reference corpus = Ok floor
  /\ nf_observed_absolute_nanos floor = 0%N /\ nf_observed_relative_ppb floor = 0%N.
Proof.
  destruct measured as (floor & Hm & Hd). exists floor. split; [exact Hm|].
  destruct (deterministic_floor_is_exact _ _ _ Hm Hd) as (Ha & Hr & _). split; assumption.
Defined.

Lemma edge_mutant_built : is_ok (ok_or (edge_item reference) tt) = true
  /\ bool_decide ((ob_output_bits <$> edge_item reference) = Some (Some 0%N)) = true
  /\ bool_decide (is_Some (rr_observations <$>
       apply_mutant reference Mutant.JustOutsideTolerance asserted_v1)) = true.
Proof. by vm_compute. Qed.

(** A policy that admits errors of four units. *)
Definition generous : ReductionOraclePolicy := MkOraclePolicy u32_max u32_max 2 (Asserted "generous").

Lemma edge_mutant_blind_at_zero_witness : exists mutant,
  apply_mutant reference Mutant.JustOutsideTolerance asserted_v1 = Some mutant
  /\ compare_runs reference mutant generous corpus <> [].
Proof.
  destruct edge_mutant_built as (_ & Hb & Hm). apply bool_decide_eq_true in Hb, Hm.
  destruct (edge_item reference) as [item|] eqn:Hitem; [|discriminate Hb].
  assert (ob_output_bits item = Some 0%N) as Hzero by (cbn in Hb; by injection Hb).
  destruct (apply_mutant reference Mutant.JustOutsideTolerance asserted_v1) as [mutant|] eqn:E;
    [|destruct Hm as [x Hx]; discriminate Hx].
  exists mutant. split; [exact eq_refl|].
  exact (edge_mutant_blind_at_zero _ _ _ _ _ _ (ro_keys _ reference_ok) corpus_keys Hitem Hzero E).
Defined.

End Sample.

(** The first case of the frozen corpus has no elements. *)
Example fixture_starts_empty :
  (rc_elements <$> head (co_cases fixture_v1)) = Some 0%N /\ is_ok (corpus_new (E:=unit)
    (co_revision fixture_v1) (co_cases fixture_v1)) = true.
Proof. by vm_compute. Qed.
