(* ===== verification/Vocabulary.v ===== *)
(** * The execution vocabulary

    [src/crates/alloyport-core/src/execution.rs], [device.rs] and
    [assignment.rs]: the enumerations that cross the wire and the disk as
    [i32] codes, and the immutable assignment contract. *)

From stdpp Require Import base strings list numbers.
From S2P Require Import Prelude Digest Identity.

Local Open Scope Z_scope.

(** ** Coded enumerations *)

(** [enum ExecutionKind]. *)
Inductive ExecutionKind :=
| Process | Container | Shell | CudaFixture | AscendFixture | AscendBuild
| CudaCorrectness | AscendCorrectness.

(** [ExecutionKind::as_str_name]. *)
Definition execution_kind_name (k : ExecutionKind) : string :=
  match k with
  | Process => "EXECUTOR_KIND_PROCESS"
  | Container => "EXECUTOR_KIND_CONTAINER"
  | Shell => "EXECUTOR_KIND_SHELL"
  | CudaFixture => "EXECUTOR_KIND_CUDA_FIXTURE"
  | AscendFixture => "EXECUTOR_KIND_ASCEND_FIXTURE"
  | AscendBuild => "EXECUTOR_KIND_ASCEND_BUILD"
  | CudaCorrectness => "EXECUTOR_KIND_CUDA_CORRECTNESS"
  | AscendCorrectness => "EXECUTOR_KIND_ASCEND_CORRECTNESS"
  end.

(** [From<ExecutionKind> for i32]. *)
Definition execution_kind_code (k : ExecutionKind) : Z :=
  match k with
  | Process => 1 | Container => 2 | Shell => 3 | CudaFixture => 4 | AscendFixture => 5
  | AscendBuild => 6 | CudaCorrectness => 7 | AscendCorrectness => 8
  end.

(** The errors carry the refused code: [struct ExecutionKindError(pub i32)]
    and its siblings. *)
Inductive CodeError := InvalidCode (value : Z).

(** [TryFrom<i32> for ExecutionKind]. *)
Definition execution_kind_try_from (value : Z) : result CodeError ExecutionKind :=
  match value with
  | 1 => Ok Process | 2 => Ok Container | 3 => Ok Shell | 4 => Ok CudaFixture
  | 5 => Ok AscendFixture | 6 => Ok AscendBuild | 7 => Ok CudaCorrectness
  | 8 => Ok AscendCorrectness
  | _ => Err (InvalidCode value)
  end.

(** [enum NetworkPolicy] and its conversions. *)
Inductive NetworkPolicy := NetworkUnspecified | NetworkDisabled | DependencyFetch.

Definition network_policy_code (p : NetworkPolicy) : Z :=
  match p with NetworkUnspecified => 0 | NetworkDisabled => 1 | DependencyFetch => 2 end.

Definition network_policy_try_from (value : Z) : result CodeError NetworkPolicy :=
  match value with
  | 0 => Ok NetworkUnspecified | 1 => Ok NetworkDisabled | 2 => Ok DependencyFetch
  | _ => Err (InvalidCode value)
  end.

(** [enum AttemptOutcome] and its conversions. *)
Inductive AttemptOutcome :=
| OutcomeSucceeded | CandidateFailed | OutcomeTimedOut | OutcomeCancelled | OutcomeInfraError
| IntegrityViolation.

Definition attempt_outcome_name (o : AttemptOutcome) : string :=
  match o with
  | OutcomeSucceeded => "ATTEMPT_OUTCOME_SUCCEEDED"
  | CandidateFailed => "ATTEMPT_OUTCOME_CANDIDATE_FAILED"
  | OutcomeTimedOut => "ATTEMPT_OUTCOME_TIMED_OUT"
  | OutcomeCancelled => "ATTEMPT_OUTCOME_CANCELLED"
  | OutcomeInfraError => "ATTEMPT_OUTCOME_INFRA_ERROR"
  | IntegrityViolation => "ATTEMPT_OUTCOME_INTEGRITY_VIOLATION"
  end.

Definition attempt_outcome_code (o : AttemptOutcome) : Z :=
  match o with
  | OutcomeSucceeded => 1 | CandidateFailed => 2 | OutcomeTimedOut => 3 | OutcomeCancelled => 4
  | OutcomeInfraError => 5 | IntegrityViolation => 6
  end.

Definition attempt_outcome_try_from (value : Z) : result CodeError AttemptOutcome :=
  match value with
  | 1 => Ok OutcomeSucceeded | 2 => Ok CandidateFailed | 3 => Ok OutcomeTimedOut
  | 4 => Ok OutcomeCancelled | 5 => Ok OutcomeInfraError | 6 => Ok IntegrityViolation
  | _ => Err (InvalidCode value)
  end.

(** [enum RejectionReason] and its conversions. *)
Inductive RejectionReason :=
| RejectInvalid | RejectUnsupported | RejectPolicy | RejectCapacity | RejectConflict.

Definition rejection_reason_code (r : RejectionReason) : Z :=
  match r with
  | RejectInvalid => 1 | RejectUnsupported => 2 | RejectPolicy => 3 | RejectCapacity => 4
  | RejectConflict => 5
  end.

Definition rejection_reason_try_from (value : Z) : result CodeError RejectionReason :=
  match value with
  | 1 => Ok RejectInvalid | 2 => Ok RejectUnsupported | 3 => Ok RejectPolicy
  | 4 => Ok RejectCapacity | 5 => Ok RejectConflict
  | _ => Err (InvalidCode value)
  end.

(** [enum DeviceHealth] and its conversions. *)
Inductive DeviceHealth := DeviceReady | DeviceDegraded | DeviceUnhealthy | DeviceRecovering.

Definition device_health_code (h : DeviceHealth) : Z :=
  match h with
  | DeviceReady => 1 | DeviceDegraded => 2 | DeviceUnhealthy => 3 | DeviceRecovering => 4
  end.

Definition device_health_try_from (value : Z) : result CodeError DeviceHealth :=
  match value with
  | 1 => Ok DeviceReady | 2 => Ok DeviceDegraded | 3 => Ok DeviceUnhealthy
  | 4 => Ok DeviceRecovering
  | _ => Err (InvalidCode value)
  end.

#[export] Instance ExecutionKind_eq_dec : EqDecision ExecutionKind.
Proof. solve_decision. Defined.
#[export] Instance NetworkPolicy_eq_dec : EqDecision NetworkPolicy.
Proof. solve_decision. Defined.
#[export] Instance AttemptOutcome_eq_dec : EqDecision AttemptOutcome.
Proof. solve_decision. Defined.
#[export] Instance RejectionReason_eq_dec : EqDecision RejectionReason.
Proof. solve_decision. Defined.
#[export] Instance DeviceHealth_eq_dec : EqDecision DeviceHealth.
Proof. solve_decision. Defined.

(** ** Devices *)

(** [struct AcceleratorDevice]. *)
Record AcceleratorDevice := MkAccelerator {
  acc_device_id : string;
  acc_product_name : string;
  acc_serial_number : string;
  acc_firmware_version : string;
}.

(** [struct DeviceObservation]. *)
Record DeviceObservation := MkObservation {
  obs_device_id : string;
  obs_health : DeviceHealth;
  obs_process_count : N;
  obs_utilization_percent : N;
  obs_memory_used_bytes : N;
  obs_memory_total_bytes : N;
  obs_temperature_millicelsius : N;
  obs_power_milliwatts : N;
  obs_observed_at_ms : N;
  obs_detail : string;
}.

(** [struct DeviceLease]. *)
Record DeviceLease := MkLease {
  lease_attempt_id : AttemptId;
  lease_device_id : string;
  lease_acquired_at_ms : N;
}.

#[export] Instance DeviceObservation_eq_dec : EqDecision DeviceObservation.
Proof. solve_decision. Defined.
#[export] Instance DeviceLease_eq_dec : EqDecision DeviceLease.
Proof. solve_decision. Defined.

(** ** The assignment contract *)

(** [struct EnvironmentEntry]. *)
Record EnvironmentEntry := MkEnvironment { env_name : string; env_value : string }.

(** [struct ResourceContract]. *)
Record ResourceContract := MkResources {
  cpu_millis : N;
  memory_bytes : N;
  disk_bytes : N;
  process_count : N;
  output_bytes : N;
  device_count : N;
  network : NetworkPolicy;
}.

(** [struct ExecutionContract]. *)
Record ExecutionContract := MkExecution {
  executor_kind : ExecutionKind;
  argv : list string;
  working_directory : string;
  environment : list EnvironmentEntry;
  timeout_ms : N;
  bundle : ArtifactDescriptor;
  image : ArtifactDescriptor;
  limits : option ResourceContract;
}.

(** [struct AssignmentContract]. *)
Record AssignmentContract := MkAssignment {
  ac_assignment_id : AssignmentId;
  ac_attempt_id : AttemptId;
  ac_attempt_number : N;
  ac_idempotency_key : string;
  ac_task_id : TaskId;
  ac_candidate_id : CandidateId;
  ac_execution : ExecutionContract;
  ac_required_features : list string;
}.

#[export] Instance EnvironmentEntry_eq_dec : EqDecision EnvironmentEntry.
Proof. solve_decision. Defined.
#[export] Instance ResourceContract_eq_dec : EqDecision ResourceContract.
Proof. solve_decision. Defined.
#[export] Instance ExecutionContract_eq_dec : EqDecision ExecutionContract.
Proof. solve_decision. Defined.
#[export] Instance AssignmentContract_eq_dec : EqDecision AssignmentContract.
Proof. solve_decision. Defined.

(** ** Codes *)

(** A decoder accepts exactly the codes the encoder produces. *)
Definition codec {A} (code : A -> Z) (try_from : Z -> result CodeError A) : Prop :=
  forall value a, try_from value = Ok a <-> code a = value.

Lemma codec_intro {A} (code : A -> Z) (try_from : Z -> result CodeError A) :
  (forall a, try_from (code a) = Ok a) ->
  (forall value a, try_from value = Ok a -> code a = value) -> codec code try_from.
Proof. intros H1 H2 value a. split; [apply H2|]. intros <-. apply H1. Qed.

(** The first codes of an enumeration, one case each. *)
Ltac decode_cases :=
  apply codec_intro; [by intros []|];
  intros value a Ha; cbv in Ha;
  repeat match type of Ha with context [match ?p with _ => _ end] => destruct p; simplify_eq/= end;
  done.

Lemma kind_codec : codec execution_kind_code execution_kind_try_from.
Proof. decode_cases. Qed.
Lemma network_codec : codec network_policy_code network_policy_try_from.
Proof. decode_cases. Qed.
Lemma outcome_codec : codec attempt_outcome_code attempt_outcome_try_from.
Proof. decode_cases. Qed.
Lemma reason_codec : codec rejection_reason_code rejection_reason_try_from.
Proof. decode_cases. Qed.

(** Every enumeration of the execution vocabulary survives the wire
    and the disk: decoding accepts exactly the codes encoding produces, so
    each round trip is the identity and no unknown code is ever accepted. *)
Theorem vocabulary_codes :
  codec execution_kind_code execution_kind_try_from
  /\ codec network_policy_code network_policy_try_from
  /\ codec attempt_outcome_code attempt_outcome_try_from
  /\ codec rejection_reason_code rejection_reason_try_from
  /\ codec device_health_code device_health_try_from.
Proof.
  split; [exact kind_codec|]. split; [exact network_codec|]. split; [exact outcome_codec|].
  split; [exact reason_codec|decode_cases].
Qed.
