(* ===== verification/BuildGate.v ===== *)
(** * Build bundles and the Build Gate

    [src/crates/alloyport-core/src/candidate_build.rs]: the input of a
    build, which exists only for a candidate that passed the Source Gate,
    the facts a build worker reports and the receipt the gate makes of
    them.  What [serde_json] encodes is a parameter; a deserializer is
    given the document with its fields. *)

From Stdlib Require Import Ascii NArith Lia.
From stdpp Require Import base strings gmap list sorting.
From S2P Require Import Prelude Text Digest Encoding Identity Lifecycle Migration Generation SourceGate Vocabulary.

Definition CANDIDATE_BUILD_BUNDLE_SCHEMA_V1 : N := 1.
Definition ASCEND_BUILD_RECEIPT_SCHEMA_V1 : N := 1.
Definition ASCEND_BUILD_GATE_REVISION_V1 : string := "ascend-build-gate-v1".
Definition ASCEND_BUILD_BUNDLE_MEDIA_TYPE : string := "application/vnd.alloyport.ascend-build-bundle.v1+json".
Definition ASCEND_BUILD_FEATURE : string := "ascend-build-v1".
Definition MAX_BUILD_SOURCE_BYTES : N := 8 * 1024 * 1024.

(** [enum CandidateBuildError]. *)
Inductive CandidateBuildError :=
| SourceGateDidNotPass | SourceGateReceiptMismatch | InvalidSourceSet | InvalidSourceIdentity | IncompleteContext
| SourceBoundExceeded | BuildDuplicatePath | BuildMissingSourceCategory | AttemptIdentityMismatch
| IncompleteEnvironment.

(** ** Build files *)

(** [struct CandidateBuildFile]. *)
Record CandidateBuildFile := MkBuildFile {
  bf_path : BundlePath;
  bf_kind : GeneratedSourceKind;
  bf_digest : Sha256Digest;
  bf_size_bytes : N;
  bf_contents : string;
}.

(** [CandidateBuildFile::new]. *)
Definition build_file_new `{Sha256} (path : BundlePath) (kind : GeneratedSourceKind) (digest : Sha256Digest)
    (size_bytes : N) (contents : string) : result CandidateBuildError CandidateBuildFile :=
  let actual_size := default u64_max (try_from_len u64_max (String.length contents)) in
  _ ← guard_err (negb (starts_with "generated/" (bp_str path)) || (size_bytes =? 0)%N
                 || negb (size_bytes =? actual_size)%N
                 || bool_decide (digest <> digest_bytes (as_bytes contents))) InvalidSourceIdentity;
  Ok (MkBuildFile path kind digest size_bytes contents).

(** [Deserialize for CandidateBuildFile]. *)
Definition build_file_from_document `{Sha256} (document : CandidateBuildFile) :
    result CandidateBuildError CandidateBuildFile :=
  build_file_new (bf_path document) (bf_kind document) (bf_digest document) (bf_size_bytes document)
    (bf_contents document).

(** ** Build bundles *)

(** [struct CandidateBuildBundle]. *)
Record CandidateBuildBundle := MkBuildBundle {
  bb_schema_version : N;
  bb_candidate_id : CandidateId;
  bb_task_id : TaskId;
  bb_manifest_digest : Sha256Digest;
  bb_source_gate_receipt_digest : Sha256Digest;
  bb_migration_spec_digest : Sha256Digest;
  bb_generation_strategy : GenerationStrategy;
  bb_public_symbol : string;
  bb_target_architecture : string;
  bb_files : list CandidateBuildFile;
}.

(** The [try_fold] with [checked_add] of [usize]. *)
Fixpoint build_total (files : list CandidateBuildFile) (total : N) : option N :=
  match files with
  | [] => Some total
  | file :: files =>
      total ← checked_add u64_max total (N.of_nat (String.length (bf_contents file)));
      build_total files total
  end.

(** The kinds of the files, whose paths differ. *)
Fixpoint build_kinds (files : list CandidateBuildFile) (paths : gset BundlePath) :
    result CandidateBuildError (list GeneratedSourceKind) :=
  match files with
  | [] => Ok []
  | file :: files =>
      _ ← guard_err (bool_decide (bf_path file ∈ paths)) BuildDuplicatePath;
      kinds ← build_kinds files ({[bf_path file]} ∪ paths);
      Ok (bf_kind file :: kinds)
  end.

(** [CandidateBuildBundle::from_parts]. *)
Definition build_from_parts (candidate_id : CandidateId) (task_id : TaskId)
    (manifest_digest source_gate_receipt_digest migration_spec_digest : Sha256Digest)
    (generation_strategy : GenerationStrategy) (public_symbol target_architecture : string)
    (files : list CandidateBuildFile) : result CandidateBuildError CandidateBuildBundle :=
  _ ← guard_err (trim_is_empty public_symbol || trim_is_empty target_architecture) IncompleteContext;
  _ ← guard_err (match build_total files 0 with
                 | Some bytes => (MAX_BUILD_SOURCE_BYTES <? bytes)%N
                 | None => true
                 end) SourceBoundExceeded;
  kinds ← build_kinds files ∅;
  _ ← guard_err (existsb (fun required => negb (bool_decide (required ∈ kinds))) GeneratedSourceKind_ALL)
        BuildMissingSourceCategory;
  Ok (MkBuildBundle CANDIDATE_BUILD_BUNDLE_SCHEMA_V1 candidate_id task_id manifest_digest source_gate_receipt_digest
        migration_spec_digest generation_strategy public_symbol target_architecture files).

(** [Deserialize for CandidateBuildBundle]; [None] is an unknown schema. *)
Definition build_bundle_from_document `{Sha256} (document : CandidateBuildBundle) :
    result (option CandidateBuildError) CandidateBuildBundle :=
  files ← map_err Some (mapM build_file_from_document (bb_files document));
  _ ← guard_err (negb (bb_schema_version document =? CANDIDATE_BUILD_BUNDLE_SCHEMA_V1)%N) None;
  map_err Some
    (build_from_parts (bb_candidate_id document) (bb_task_id document) (bb_manifest_digest document)
       (bb_source_gate_receipt_digest document) (bb_migration_spec_digest document) (bb_generation_strategy document)
       (bb_public_symbol document) (bb_target_architecture document) files).

(** ** Worker facts *)

(** [struct AscendBuildEnvironment]. *)
Record AscendBuildEnvironment := MkBuildEnvironment {
  be_architecture : string;
  be_cann_version : string;
  be_driver_version : string;
  be_firmware_version : string;
}.

(** [AscendBuildEnvironment::is_complete]. *)
Definition environment_is_complete (self : AscendBuildEnvironment) : bool :=
  forallb (fun value => negb (trim_is_empty value))
    [be_architecture self; be_cann_version self; be_driver_version self; be_firmware_version self].

(** [struct AscendBuildTerminal]. *)
Record AscendBuildTerminal := MkBuildTerminal {
  bt_assignment_id : AssignmentId;
  bt_attempt_id : AttemptId;
  bt_outcome : AttemptOutcome;
  bt_exit_code : option Z;
  bt_elapsed_ms : N;
  bt_detail : string;
  bt_build_completed : bool;
  bt_environment : AscendBuildEnvironment;
  bt_worker_receipt : option ArtifactDescriptor;
  bt_stdout : option ArtifactDescriptor;
  bt_stderr : option ArtifactDescriptor;
}.

(** [enum AscendBuildAttemptObservation] and [enum AscendBuildAttemptError]. *)
Inductive AscendBuildAttemptObservation :=
| BuildPending (diagnostic_digest : Sha256Digest)
| BuildFinished (terminal : AscendBuildTerminal).

Inductive AscendBuildAttemptError :=
| BuildUnavailable (detail : string)
| BuildRejected (detail : string)
| BuildIntegrity (detail : string).

(** ** The receipt of the gate *)

(** [struct AscendBuildReceipt]. *)
Record AscendBuildReceipt := MkBuildReceipt {
  br_schema_version : N;
  br_gate_revision : string;
  br_candidate_id : CandidateId;
  br_manifest_digest : Sha256Digest;
  br_source_gate_receipt_digest : Sha256Digest;
  br_assignment : AssignmentContract;
  br_passed : bool;
  br_outcome : AttemptOutcome;
  br_exit_code : option Z;
  br_elapsed_ms : N;
  br_detail : string;
  br_environment : AscendBuildEnvironment;
  br_worker_receipt : option ArtifactDescriptor;
  br_stdout : option ArtifactDescriptor;
  br_stderr : option ArtifactDescriptor;
}.

(** [AscendBuildReceipt::new]. *)
Definition build_receipt_new (bundle : CandidateBuildBundle) (assignment : AssignmentContract)
    (terminal : AscendBuildTerminal) : result CandidateBuildError AscendBuildReceipt :=
  _ ← guard_err (bool_decide (ac_assignment_id assignment <> bt_assignment_id terminal)
                 || bool_decide (ac_attempt_id assignment <> bt_attempt_id terminal)
                 || bool_decide (ac_candidate_id assignment <> bb_candidate_id bundle)
                 || bool_decide (ac_task_id assignment <> bb_task_id bundle)) AttemptIdentityMismatch;
  _ ← guard_err (negb (environment_is_complete (bt_environment terminal))
                 || bool_decide (be_architecture (bt_environment terminal) <> bb_target_architecture bundle))
        IncompleteEnvironment;
  let passed := bool_decide (bt_outcome terminal = OutcomeSucceeded) && bool_decide (bt_exit_code terminal = Some 0%Z)
                && bt_build_completed terminal in
  Ok (MkBuildReceipt ASCEND_BUILD_RECEIPT_SCHEMA_V1 ASCEND_BUILD_GATE_REVISION_V1 (bb_candidate_id bundle)
        (bb_manifest_digest bundle) (bb_source_gate_receipt_digest bundle) assignment passed (bt_outcome terminal)
        (bt_exit_code terminal) (bt_elapsed_ms terminal) (bt_detail terminal) (bt_environment terminal)
        (bt_worker_receipt terminal) (bt_stdout terminal) (bt_stderr terminal)).

(** [Deserialize for AscendBuildReceipt]. *)
Definition build_receipt_from_document (document : AscendBuildReceipt) : option AscendBuildReceipt :=
  if negb (br_schema_version document =? ASCEND_BUILD_RECEIPT_SCHEMA_V1)%N
     || negb (bool_decide (br_gate_revision document = ASCEND_BUILD_GATE_REVISION_V1))
     || bool_decide (ac_candidate_id (br_assignment document) <> br_candidate_id document)
     || negb (environment_is_complete (br_environment document))
     || br_passed document
        && negb (bool_decide (br_outcome document = OutcomeSucceeded) && bool_decide (br_exit_code document = Some 0%Z))
  then None else Some document.

(** [serde_json::to_vec] on the receipts and the bundle. *)
Class BuildJson := {
  gate_receipt_to_vec : SourceGateReceipt -> option bytes;
  build_bundle_to_vec : CandidateBuildBundle -> option bytes;
  build_receipt_to_vec : AscendBuildReceipt -> option bytes;
}.

Section gate.
Context `{Sha256} `{BuildJson}.

(** [SourceGateReceipt::digest] and the [digest] methods of the bundle and
    the receipt. *)
Definition gate_receipt_digest (receipt : SourceGateReceipt) : option Sha256Digest :=
  digest_bytes <$> gate_receipt_to_vec receipt.
Definition build_bundle_digest (bundle : CandidateBuildBundle) : option Sha256Digest :=
  digest_bytes <$> build_bundle_to_vec bundle.
Definition build_receipt_digest (receipt : AscendBuildReceipt) : option Sha256Digest :=
  digest_bytes <$> build_receipt_to_vec receipt.

(** The file of the bundle for a source of the manifest. *)
Definition build_file_of (sources : gmap BundlePath bytes) (source : CandidateSourceFile) :
    result CandidateBuildError CandidateBuildFile :=
  content ← ok_or (sources !! cf_path source) InvalidSourceSet;
  contents ← ok_or (from_utf8 content) InvalidSourceIdentity;
  build_file_new (cf_path source) (cf_kind source) (ad_digest (cf_artifact source))
    (ad_size_bytes (cf_artifact source)) contents.

(** [CandidateBuildBundle::new]. *)
Definition build_bundle_new (manifest : CandidateSourceManifest)
    (manifest_digest source_gate_receipt_digest : Sha256Digest) (target_architecture : string)
    (sources : gmap BundlePath bytes) : result CandidateBuildError CandidateBuildBundle :=
  let receipt := evaluate_source_gate manifest manifest_digest sources in
  _ ← guard_err (negb (sg_passed receipt)) SourceGateDidNotPass;
  digest ← ok_or (gate_receipt_digest receipt) SourceGateReceiptMismatch;
  _ ← guard_err (bool_decide (digest <> source_gate_receipt_digest)) SourceGateReceiptMismatch;
  files ← mapM (build_file_of sources) (cm_files manifest);
  let spec := cm_spec manifest in
  build_from_parts (sp_candidate_id spec) (sp_task_id spec) manifest_digest source_gate_receipt_digest
    (sp_migration_spec_digest spec) (sp_generation_strategy spec) (cm_public_symbol manifest) target_architecture files.

End gate.

(** ** What a bundle holds *)

(** The bytes of all files. *)
Fixpoint build_bytes (files : list CandidateBuildFile) : N :=
  match files with
  | [] => 0
  | file :: files => N.of_nat (String.length (bf_contents file)) + build_bytes files
  end.

Lemma build_total_Some files total n :
  (total <= u64_max)%N ->
  build_total files total = Some n <-> n = (total + build_bytes files)%N /\ (n <= u64_max)%N.
Proof.
  revert total. induction files as [|file files IH]; intros total Ht; cbn.
  - rewrite N.add_0_r. split; [intros [= <-]; done|by intros [-> _]].
  - rewrite bind_Some. setoid_rewrite checked_add_Some. split.
    + intros (m & [-> Hm] & Hn). apply IH in Hn as [-> Hn]; [|done]. split; [lia|done].
    + intros [-> Hn]. eexists. split; [split; [done|lia]|]. apply IH; [lia|]. split; [lia|done].
Qed.

Lemma build_kinds_Ok files paths kinds :
  build_kinds files paths = Ok kinds <->
  kinds = bf_kind <$> files /\ NoDup (bf_path <$> files) /\ Forall (fun file => bf_path file ∉ paths) files.
Proof.
  revert paths kinds. induction files as [|file files IH]; intros paths kinds; cbn.
  - split; [intros [= <-]; by repeat constructor|by intros [-> _]].
  - rewrite guard_bind_Ok, bool_decide_eq_false, result_bind_Ok, NoDup_cons, Forall_cons. setoid_rewrite IH.
    split.
    + intros (Hn & k & (-> & Hnd & Hf) & [= <-]). rewrite Forall_forall in Hf.
      split; [done|]. split; [split; [|done]|split; [done|]].
      * intros (g & E & Hg)%list_elem_of_fmap. apply (Hf g Hg). rewrite E. set_solver.
      * apply Forall_forall. intros g Hg. specialize (Hf g Hg). set_solver.
    + intros (-> & [Hn Hnd] & Hf & Hfs). rewrite Forall_forall in Hfs. split; [done|]. eexists. split; [|done]. split; [done|]. split; [done|].
      apply Forall_forall. intros g Hg. rewrite not_elem_of_union, not_elem_of_singleton. split; [|by apply Hfs].
      intros E. apply Hn, list_elem_of_fmap. eauto.
Qed.

(** What [from_parts] makes of its arguments. *)
Lemma build_from_parts_Ok c t m g s strategy symbol target files b :
  build_from_parts c t m g s strategy symbol target files = Ok b <->
  trim_is_empty symbol = false /\ trim_is_empty target = false /\ (build_bytes files <= MAX_BUILD_SOURCE_BYTES)%N
  /\ NoDup (bf_path <$> files) /\ (forall kind, kind ∈ bf_kind <$> files)
  /\ b = MkBuildBundle CANDIDATE_BUILD_BUNDLE_SCHEMA_V1 c t m g s strategy symbol target files.
Proof.
  unfold build_from_parts. rewrite guard_bind_Ok, orb_false_iff, guard_bind_Ok, result_bind_Ok.
  assert ((match build_total files 0 with Some bytes => (MAX_BUILD_SOURCE_BYTES <? bytes)%N | None => true end) = false
    <-> (build_bytes files <= MAX_BUILD_SOURCE_BYTES)%N) as ->.
  { destruct (build_total files 0) as [n|] eqn:E.
    - apply build_total_Some in E as [-> _]; [|done]. rewrite N.ltb_ge. by rewrite N.add_0_l.
    - split; [done|]. intros Hle. assert (build_total files 0 = Some (build_bytes files)) as E'; [|congruence].
      apply build_total_Some; [done|]. split; [lia|]. unfold MAX_BUILD_SOURCE_BYTES, u64_max in *. lia. }
  setoid_rewrite build_kinds_Ok. setoid_rewrite guard_bind_Ok.
  assert (forall kinds : list GeneratedSourceKind,
    existsb (fun required => negb (bool_decide (required ∈ kinds))) GeneratedSourceKind_ALL = false
    <-> forall kind, kind ∈ kinds) as Hkinds.
  { intros kinds. cbn. rewrite !orb_false_iff, !negb_false_iff, !bool_decide_eq_true. split; [|naive_solver].
    intros (? & ? & ? & ? & _) []; done. }
  setoid_rewrite Hkinds. split.
  - intros ([Hs Ht] & Hb & kinds & (-> & Hnd & _) & Hk & [= <-]). auto 10.
  - intros (Hs & Ht & Hb & Hnd & Hk & ->). split_and!; try done. eexists. split; [split; [done|]|done].
    split; [done|]. apply Forall_forall. intros file _. apply not_elem_of_empty.
Qed.

Section bundle.
Context `{Sha256} `{BuildJson}.

(** A file as its constructor leaves it. *)
Definition build_file_ok (file : CandidateBuildFile) : Prop :=
  starts_with "generated/" (bp_str (bf_path file)) = true /\ bf_size_bytes file <> 0%N
  /\ bf_size_bytes file = N.of_nat (String.length (bf_contents file)) /\ (bf_size_bytes file <= u64_max)%N
  /\ bf_digest file = digest_bytes (as_bytes (bf_contents file)).

Lemma build_file_new_Ok path kind digest size contents file :
  fits (String.length contents) ->
  build_file_new path kind digest size contents = Ok file <->
  file = MkBuildFile path kind digest size contents /\ build_file_ok file.
Proof.
  intros Hfits. unfold build_file_new, try_from_len. rewrite guard_bind_Ok, !orb_false_iff.
  rewrite (proj2 (N.leb_le _ _)) by exact Hfits. cbn [default from_option id].
  rewrite !negb_false_iff, N.eqb_eq, N.eqb_neq, bool_decide_eq_false. unfold build_file_ok, fits in *. split.
  - intros ((((Hp & Hn) & Hs) & Hd) & [= <-]). cbn. split; [done|]. split_and!; try done; [lia|by apply dec_stable].
  - intros (-> & Hp & Hn & Hs & Hle & Hd). cbn in *. split_and!; try done. by intros ?.
Qed.

(** The file of a source whose bytes are its artifact's, given that a
    length of the host fits in [u64]. *)
Lemma build_file_of_Ok sources source :
  starts_with GENERATED_ROOT (bp_str (cf_path source)) = true -> ad_size_bytes (cf_artifact source) <> 0%N ->
  map_Forall (fun _ content => fits (length content)) sources ->
  is_Some (verified_text sources source) ->
  exists contents, sources !! cf_path source = Some (as_bytes contents) /\ fits (String.length contents)
    /\ let file := MkBuildFile (cf_path source) (cf_kind source) (ad_digest (cf_artifact source))
                     (ad_size_bytes (cf_artifact source)) contents in
       build_file_of sources source = Ok file /\ build_file_ok file.
Proof.
  intros Hroot Hsize Hall [v Hv]. unfold verified_text in Hv. apply bind_Some in Hv as (content & Hc & Hv).
  destruct (artifact_mismatch _ _) eqn:Hm; [done|]. apply from_utf8_bytes in Hv as Hb.
  pose proof (Hall _ _ Hc) as Hfits. cbn in Hfits. rewrite <-Hb, as_bytes_length in Hfits.
  exists v. split; [congruence|]. split; [done|].
  unfold artifact_mismatch, try_from_len in Hm. rewrite <-Hb, as_bytes_length in Hm.
  rewrite (proj2 (N.leb_le _ _)) in Hm by exact Hfits. cbn [default from_option id] in Hm.
  rewrite orb_false_iff, negb_false_iff, N.eqb_eq, bool_decide_eq_false in Hm. destruct Hm as [Hl Hd%dec_stable].
  assert (build_file_ok (MkBuildFile (cf_path source) (cf_kind source) (ad_digest (cf_artifact source))
            (ad_size_bytes (cf_artifact source)) v)) as Hok.
  { unfold build_file_ok, fits in *. cbn. split_and!; try done; lia. }
  split; [|done]. unfold build_file_of. rewrite Hc. cbn. rewrite Hv. cbn. by apply build_file_new_Ok.
Qed.

Lemma build_file_from_document_Ok file :
  fits (String.length (bf_contents file)) -> build_file_ok file -> build_file_from_document file = Ok file.
Proof. intros Hfits Hok. apply build_file_new_Ok; [done|]. by destruct file. Qed.

(** A manifest whose constructors accepted it. *)
Definition manifest_made (spec : CandidateSourceManifestSpec) (manifest : CandidateSourceManifest) : Prop :=
  manifest_new spec = Ok manifest
  /\ Forall (fun source => source_file_new (cf_path source) (cf_kind source) (cf_artifact source) = Ok source) (sp_files spec).

Definition build_size (manifest : CandidateSourceManifest) : N :=
  foldr (fun source total => ad_size_bytes (cf_artifact source) + total)%N 0%N (cm_files manifest).

(** The file of the bundle is the source of the candidate. *)
Definition same_source (sources : gmap BundlePath bytes) (source : CandidateSourceFile) (file : CandidateBuildFile) : Prop :=
  bf_path file = cf_path source /\ bf_kind file = cf_kind source /\ bf_digest file = ad_digest (cf_artifact source)
  /\ bf_size_bytes file = ad_size_bytes (cf_artifact source)
  /\ sources !! cf_path source = Some (as_bytes (bf_contents file)).

(** The files of a candidate that passed the gate. *)
Lemma gated_files manifest spec sources :
  manifest_made spec manifest -> map_Forall (fun _ content => fits (length content)) sources ->
  (exists text, source_ready sources manifest text) ->
  exists files, mapM (build_file_of sources) (cm_files manifest) = Ok files
    /\ Forall2 (same_source sources) (cm_files manifest) files
    /\ Forall (fun file => build_file_ok file /\ fits (String.length (bf_contents file))) files.
Proof.
  intros [Hnew Hsources] Hall [text Hready]. pose proof (sr_verified _ _ _ Hready) as Hver.
  assert (cm_files manifest = sp_files spec) as Hfiles by (unfold cm_files; by destruct (manifest_new_made _ _ Hnew) as [-> _]).
  rewrite <-Hfiles in Hsources. clear Hfiles Hready. induction (cm_files manifest) as [|source l IH].
  { exists []. split; [done|]. by split; constructor. }
  apply Forall_cons in Hsources as [Hs Hl].
  destruct IH as (files & Hm & Hsame & Hok); [done|intros file Hf; apply Hver; by right|].
  unfold source_file_new in Hs. rewrite !guard_bind_Ok, orb_false_iff, !negb_false_iff, N.eqb_neq in Hs.
  destruct Hs as (Hroot & [Hsize _] & _). destruct (Hver source) as (v & Hv & _); [by left|].
  destruct (build_file_of_Ok sources source Hroot Hsize Hall) as (contents & Hc & Hfit & Hf & Hfok); [by rewrite Hv|].
  eexists (_ :: files). split.
  { apply mapM_Ok. constructor; [exact Hf|]. by apply mapM_Ok. }
  split; constructor; try done.
Qed.

(** What those files give to [from_parts] and to a reader of the document. *)
Lemma gated_parts spec manifest sources files :
  manifest_new spec = Ok manifest -> Forall2 (same_source sources) (cm_files manifest) files ->
  Forall (fun file => build_file_ok file /\ fits (String.length (bf_contents file))) files ->
  build_bytes files = build_size manifest /\ NoDup (bf_path <$> files) /\ (forall kind, kind ∈ bf_kind <$> files)
  /\ mapM build_file_from_document files = Ok files /\ trim_is_empty (cm_public_symbol manifest) = false.
Proof.
  intros Hnew Hsame Hok. destruct (manifest_new_made _ _ Hnew) as (_ & Hsym & Hkinds).
  pose proof (manifest_new_paths _ _ Hnew) as Hnd.
  assert (bf_path <$> files = cf_path <$> cm_files manifest /\ bf_kind <$> files = cf_kind <$> cm_files manifest
    /\ build_bytes files = build_size manifest) as (-> & -> & Hsize).
  { unfold build_size. clear -Hsame Hok. induction Hsame as [|source file l files Hs _ IH]; [done|].
    apply Forall_cons in Hok as [[(_ & _ & Hlen & _) _] Hok]. destruct (IH Hok) as (E1 & E2 & E3).
    destruct Hs as (P1 & P2 & _ & P3 & _). cbn. split_and!; f_equal; try done. lia. }
  split_and!; try done. apply mapM_Ok. clear -Hok. induction Hok as [|file files [Hf Hl] _ IH]; constructor; [|done].
  by apply build_file_from_document_Ok.
Qed.

(** C36 A build bundle is exactly a candidate that passed the Source Gate.
    It is made when the gate passes under the named receipt, the target is
    named and the sources fit; it holds the files of the manifest, in its
    order, byte for byte, and a worker that reads the document back gets the
    same bundle. *)
Theorem build_bundle_is_the_gated_candidate (spec : CandidateSourceManifestSpec) (manifest : CandidateSourceManifest)
    (manifest_digest gate_digest : Sha256Digest) (target : string) (sources : gmap BundlePath bytes)
    (Hm : manifest_made spec manifest) (Hlen : map_Forall (fun _ content => fits (length content)) sources) :
  let receipt := evaluate_source_gate manifest manifest_digest sources in
  (is_ok (build_bundle_new manifest manifest_digest gate_digest target sources) = true <->
   sg_passed receipt = true /\ gate_receipt_digest receipt = Some gate_digest /\ trim_is_empty target = false
   /\ (build_size manifest <= MAX_BUILD_SOURCE_BYTES)%N)
  /\ forall bundle, build_bundle_new manifest manifest_digest gate_digest target sources = Ok bundle ->
     Forall2 (same_source sources) (cm_files manifest) (bb_files bundle)
     /\ bb_source_gate_receipt_digest bundle = gate_digest
     /\ build_bundle_from_document bundle = Ok bundle.
Proof.
  cbn zeta. set (receipt := evaluate_source_gate _ _ _). unfold build_bundle_new. fold receipt.
  destruct Hm as [Hnew Hmade]. pose proof (manifest_new_paths _ _ Hnew) as Hnd.
  pose proof (gate_passed_ready sources manifest manifest_digest Hnd) as Hready. fold receipt in Hready.
  destruct (sg_passed receipt) eqn:Hp; cbn [negb guard_err mbind result_bind];
    [|split; [split; [done|by intros (? & _)]|done]].
  destruct (gated_files manifest spec sources) as (files & Hf & Hsame & Hok); [done|done|by apply Hready|].
  destruct (gate_receipt_digest receipt) as [d|]; cbn [ok_or mbind result_bind]; [|split; [split; [done|naive_solver]|done]].
  destruct (decide (d = gate_digest)) as [->|Hd]; [rewrite bool_decide_false by naive_solver|rewrite bool_decide_true by done];
    cbn [guard_err mbind result_bind]; [|split; [split; [done|naive_solver]|done]].
  rewrite Hf. cbn [mbind result_bind].
  destruct (gated_parts spec manifest sources files Hnew Hsame Hok) as (Hsize & Hpaths & Hkinds & Hdoc & Hsym).
  split.
  - rewrite is_ok_true. setoid_rewrite build_from_parts_Ok. rewrite Hsize. naive_solver.
  - intros bundle Hb. apply build_from_parts_Ok in Hb as Hparts. destruct Hparts as (_ & _ & _ & _ & _ & ->).
    split; [done|]. split; [done|]. unfold build_bundle_from_document. cbn -[mapM]. rewrite Hdoc. cbn. by rewrite Hb.
Qed.

End bundle.

(** ** A bundle *)

#[local] Instance sample_json : BuildJson := {|
  gate_receipt_to_vec := fun receipt => Some (as_bytes (sg_gate_revision receipt));
  build_bundle_to_vec := fun bundle => Some (as_bytes (bb_target_architecture bundle));
  build_receipt_to_vec := fun receipt => Some (as_bytes (br_detail receipt));
|}.

Definition sample_build_bundle : result CandidateBuildError CandidateBuildBundle :=
  @build_bundle_new toy_sha sample_json sample_manifest (digest_of "manifest") (digest_of SOURCE_GATE_REVISION_V2)
    "Ascend910B" sample_candidate_sources.

Lemma sample_manifest_made : manifest_made sample_manifest_spec sample_manifest.
Proof. split; [exact sample_manifest_new|]. repeat (constructor; [vm_compute; reflexivity|]). constructor. Qed.

Lemma sample_sources_fit : map_Forall (fun _ content => fits (length content)) sample_candidate_sources.
Proof. refine (bool_decide_unpack _ _). vm_compute. exact I. Qed.

Lemma build_bundle_is_the_gated_candidate_witness :
  exists bundle, sample_build_bundle = Ok bundle
    /\ Forall2 (same_source sample_candidate_sources) (cm_files sample_manifest) (bb_files bundle)
    /\ @build_bundle_from_document toy_sha bundle = Ok bundle.
Proof.
  destruct (@build_bundle_is_the_gated_candidate toy_sha sample_json sample_manifest_spec sample_manifest
    (digest_of "manifest") (digest_of SOURCE_GATE_REVISION_V2) "Ascend910B" sample_candidate_sources
    sample_manifest_made sample_sources_fit) as [Hok Hb].
  apply proj2 in Hok.
  apply (is_ok_true sample_build_bundle) in Hok as [bundle E].
  - exists bundle. destruct (Hb bundle E) as (Hf & _ & Hd). exact (conj E (conj Hf Hd)).
  - split; [exact sample_gate_passes|]. vm_compute. repeat split; discriminate.
Defined.
