(* ===== verification/RunEvents.v ===== *)
(** * Interaction events of a run

    [src/crates/alloyport-events/src]: the event vocabulary and the
    sequencer ([lib.rs]), the streaming check of a run ([reducer.rs]) and
    the plain-text rendering ([rendering.rs]).  JSON values that an event
    carries are a type parameter [V]. *)

From Stdlib Require Import Ascii.
From stdpp Require Import base strings pretty gmap list sorting.
From S2P Require Import Prelude.

(** ** Vocabulary *)

Definition SCHEMA_VERSION : N := 1.

Record Producer := MkProducer { pr_component : string; pr_instance : string }.

Inductive Authority := Narrative | Reported | Observed | Verified.
Inductive Visibility := User | Diagnostic.
Inductive MessageRole := RoleAssistant | RoleUser | RoleSystem.
Inductive OutputStream := Stdout | Stderr.
Inductive FileChangeKind := Added | Modified | Deleted | Renamed | Binary.

Record FileChange := MkFileChange {
  fc_path : string;
  fc_kind : FileChangeKind;
  fc_additions : option N;
  fc_deletions : option N;
  fc_before_digest : option string;
  fc_after_digest : option string;
}.

Record ArtifactRef := MkArtifactRef {
  ar_digest : string;
  ar_media_type : string;
  ar_size_bytes : N;
  ar_reference : string;
}.

(** [enum Event]. *)
Inductive Event (V : Type) :=
| RunStarted (task : string)
| TurnStarted (turn : N)
| TurnCompleted (turn : N) (outcome : string)
| TurnFailed (turn : N) (error : string)
| RunCompleted (result : string)
| RunFailed (error : string)
| MessageStarted (role : MessageRole)
| MessageDelta (text : string)
| MessageCompleted
| PlanUpdated (entries : V)
| ToolStarted (name : string) (arguments : V)
| ToolCompleted (name output : string)
| ToolFailed (name error : string) (output : option string)
| CommandStarted (command : string) (cwd : option string) (execution_site : string)
    (description : option string)
| CommandOutput (stream : OutputStream) (byte_offset : N) (text : string)
    (display_sanitized : bool)
| CommandCompleted (exit_code : Z) (elapsed_ms : N) (timed_out : bool)
    (output_artifact : option ArtifactRef)
| WorkspaceDelta (changes : list FileChange) (diff commit : option string)
| ApprovalRequested (action reason risk : string)
| ApprovalResolved (decision : string)
| GateStarted (gate : string)
| GateCompleted (gate : string) (passed : bool) (evidence : list ArtifactRef)
| ArtifactProduced (artifact : ArtifactRef)
| Warning (message : string)
| EError (message : string).
Arguments RunStarted {V}. Arguments TurnStarted {V}. Arguments TurnCompleted {V}.
Arguments TurnFailed {V}. Arguments RunCompleted {V}. Arguments RunFailed {V}.
Arguments MessageStarted {V}. Arguments MessageDelta {V}. Arguments MessageCompleted {V}.
Arguments PlanUpdated {V}. Arguments ToolStarted {V}. Arguments ToolCompleted {V}.
Arguments ToolFailed {V}. Arguments CommandStarted {V}. Arguments CommandOutput {V}.
Arguments CommandCompleted {V}. Arguments WorkspaceDelta {V}. Arguments ApprovalRequested {V}.
Arguments ApprovalResolved {V}. Arguments GateStarted {V}. Arguments GateCompleted {V}.
Arguments ArtifactProduced {V}. Arguments Warning {V}. Arguments EError {V}.

Record ProducerEvent (V : Type) := MkFrame {
  pe_schema_version : N;
  pe_run_id : string;
  pe_task_id : option string;
  pe_turn_id : option string;
  pe_operation_id : option string;
  pe_parent_operation_id : option string;
  pe_producer_sequence : option N;
  pe_emitted_at_unix_ms : N;
  pe_producer : Producer;
  pe_authority : Authority;
  pe_visibility : Visibility;
  pe_event : Event V;
}.
Arguments MkFrame {V}. Arguments pe_schema_version {V}. Arguments pe_run_id {V}.
Arguments pe_task_id {V}. Arguments pe_turn_id {V}. Arguments pe_operation_id {V}.
Arguments pe_parent_operation_id {V}. Arguments pe_producer_sequence {V}.
Arguments pe_emitted_at_unix_ms {V}. Arguments pe_producer {V}. Arguments pe_authority {V}.
Arguments pe_visibility {V}. Arguments pe_event {V}.

Record EventEnvelope (V : Type) := MkEnvelope {
  ev_schema_version : N;
  ev_event_id : string;
  ev_run_id : string;
  ev_task_id : option string;
  ev_turn_id : option string;
  ev_operation_id : option string;
  ev_parent_operation_id : option string;
  ev_producer_sequence : option N;
  ev_sequence : N;
  ev_emitted_at_unix_ms : N;
  ev_producer : Producer;
  ev_authority : Authority;
  ev_visibility : Visibility;
  ev_event : Event V;
}.
Arguments MkEnvelope {V}. Arguments ev_schema_version {V}. Arguments ev_event_id {V}.
Arguments ev_run_id {V}. Arguments ev_task_id {V}. Arguments ev_turn_id {V}.
Arguments ev_operation_id {V}. Arguments ev_parent_operation_id {V}.
Arguments ev_producer_sequence {V}. Arguments ev_sequence {V}.
Arguments ev_emitted_at_unix_ms {V}. Arguments ev_producer {V}. Arguments ev_authority {V}.
Arguments ev_visibility {V}. Arguments ev_event {V}.

(** [ProducerEvent::new]; the clock is the caller's. *)
Definition producer_event_new {V} (now : N) (run_id : string) (producer : Producer)
    (event : Event V) : ProducerEvent V :=
  MkFrame SCHEMA_VERSION run_id None None None None None now producer Observed User event.

(** ** The sequencer *)

Record EventSequencer := MkSequencer { sq_run_id : string; sq_next_sequence : N }.

Inductive ProtocolError :=
| PUnsupportedSchema (version : N)
| PRunMismatch (expected actual : string).

(** [EventSequencer::new]. *)
Definition sequencer_new (run_id : string) : EventSequencer := MkSequencer run_id 1.

(** [format!("{sequence:020}")]. *)
Definition pad20 (n : N) : string :=
  let digits := pretty n in
  String.concat "" (replicate (20 - String.length digits) "0") +:+ digits.

(** [EventSequencer::ingest]. *)
Definition sequencer_ingest {V} (self : EventSequencer) (frame : ProducerEvent V)
    : EventSequencer * result ProtocolError (EventEnvelope V) :=
  if negb (pe_schema_version frame =? SCHEMA_VERSION)%N then
    (self, Err (PUnsupportedSchema (pe_schema_version frame)))
  else if negb (String.eqb (pe_run_id frame) (sq_run_id self)) then
    (self, Err (PRunMismatch (sq_run_id self) (pe_run_id frame)))
  else
    let sequence := sq_next_sequence self in
    (MkSequencer (sq_run_id self) (saturating_add u64_max sequence 1),
     Ok (MkEnvelope SCHEMA_VERSION (sq_run_id self +:+ ":" +:+ pad20 sequence) (sq_run_id self)
           (pe_task_id frame) (pe_turn_id frame) (pe_operation_id frame)
           (pe_parent_operation_id frame) (pe_producer_sequence frame) sequence
           (pe_emitted_at_unix_ms frame) (pe_producer frame) (pe_authority frame)
           (pe_visibility frame) (pe_event frame))).

(** ** The reducer *)

Inductive OperationKind := OpMessage | OpTool | OpCommand | OpApproval | OpGate.

#[export] Instance OperationKind_eq_dec : EqDecision OperationKind.
Proof. solve_decision. Defined.

(** [struct RunReducer]. *)
Record RunReducer := MkReducer {
  rr_run_id : option string;
  rr_next_sequence : N;
  rr_started : bool;
  rr_terminal : bool;
  rr_active_operations : gmap string OperationKind;
}.

Inductive ReduceError :=
| UnsupportedSchema (version : N)
| UnexpectedSequence (expected actual : N)
| RunMismatch
| InvalidRunStart
| RunNotStarted
| EventAfterTerminal
| MissingOperationId
| DuplicateOperation (id : string)
| OperationNotActive (id : string)
| OperationsStillActive (ids : list string).

(** [RunReducer::new]. *)
Definition reducer_new : RunReducer := MkReducer None 1 false false ∅.

Definition with_run_id (self : RunReducer) v : RunReducer :=
  MkReducer v (rr_next_sequence self) (rr_started self) (rr_terminal self)
    (rr_active_operations self).
Definition with_next_sequence (self : RunReducer) v : RunReducer :=
  MkReducer (rr_run_id self) v (rr_started self) (rr_terminal self) (rr_active_operations self).
Definition with_started (self : RunReducer) v : RunReducer :=
  MkReducer (rr_run_id self) (rr_next_sequence self) v (rr_terminal self)
    (rr_active_operations self).
Definition with_terminal (self : RunReducer) v : RunReducer :=
  MkReducer (rr_run_id self) (rr_next_sequence self) (rr_started self) v
    (rr_active_operations self).
Definition with_active (self : RunReducer) v : RunReducer :=
  MkReducer (rr_run_id self) (rr_next_sequence self) (rr_started self) (rr_terminal self) v.

(** [Self::operation_id]. *)
Definition operation_id {V} (envelope : EventEnvelope V) : result ReduceError string :=
  ok_or (ev_operation_id envelope) MissingOperationId.

(** The keys of a [BTreeMap], in order. *)
Definition sorted_keys (m : gmap string OperationKind) : list string :=
  merge_sort (fun a b => Is_true (String.leb a b)) (fst <$> map_to_list m).

(** [start_operation]: the new kind replaces the old one even when the
    event is refused. *)
Definition start_operation {V} (self : RunReducer) (envelope : EventEnvelope V)
    (kind : OperationKind) : RunReducer * result ReduceError unit :=
  match operation_id envelope with
  | Err e => (self, Err e)
  | Ok id =>
      let old := rr_active_operations self !! id in
      let self := with_active self (<[id := kind]> (rr_active_operations self)) in
      (self, match old with Some _ => Err (DuplicateOperation id) | None => Ok tt end)
  end.

(** [require_operation]. *)
Definition require_operation {V} (self : RunReducer) (envelope : EventEnvelope V)
    (expected : OperationKind) : result ReduceError unit :=
  id ← operation_id envelope;
  match rr_active_operations self !! id with
  | Some actual => guard_err (bool_decide (actual <> expected)) (OperationNotActive id)
  | None => Err (OperationNotActive id)
  end.

(** [finish_operation]. *)
Definition finish_operation {V} (self : RunReducer) (envelope : EventEnvelope V)
    (expected : OperationKind) : RunReducer * result ReduceError unit :=
  match (_ ← require_operation self envelope expected; operation_id envelope) with
  | Err e => (self, Err e)
  | Ok id => (with_active self (delete id (rr_active_operations self)), Ok tt)
  end.

(** The match on the event in [RunReducer::apply]. *)
Definition apply_event {V} (self : RunReducer) (envelope : EventEnvelope V)
    : RunReducer * result ReduceError unit :=
  let require kind := (self, require_operation self envelope kind) in
  match ev_event envelope with
  | RunStarted _ =>
      if rr_started self || negb (ev_sequence envelope =? 1)%N then (self, Err InvalidRunStart)
      else (with_started self true, Ok tt)
  | RunCompleted _ | RunFailed _ =>
      if negb (rr_started self) then (self, Err RunNotStarted)
      else if negb (bool_decide (rr_active_operations self = ∅)) then
        (self, Err (OperationsStillActive (sorted_keys (rr_active_operations self))))
      else (with_terminal self true, Ok tt)
  | MessageStarted _ => start_operation self envelope OpMessage
  | MessageDelta _ => require OpMessage
  | MessageCompleted => finish_operation self envelope OpMessage
  | ToolStarted _ _ => start_operation self envelope OpTool
  | ToolCompleted _ _ | ToolFailed _ _ _ => finish_operation self envelope OpTool
  | CommandStarted _ _ _ _ => start_operation self envelope OpCommand
  | CommandOutput _ _ _ _ => require OpCommand
  | CommandCompleted _ _ _ _ => finish_operation self envelope OpCommand
  | ApprovalRequested _ _ _ => start_operation self envelope OpApproval
  | ApprovalResolved _ => finish_operation self envelope OpApproval
  | GateStarted _ => start_operation self envelope OpGate
  | GateCompleted _ _ _ => finish_operation self envelope OpGate
  | TurnStarted _ | TurnCompleted _ _ | TurnFailed _ _ | PlanUpdated _ | WorkspaceDelta _ _ _
  | ArtifactProduced _ | Warning _ | EError _ => (self, Ok tt)
  end.

Definition is_run_started {V} (e : Event V) : bool :=
  match e with RunStarted _ => true | _ => false end.

(** [RunReducer::apply]. *)
Definition reducer_apply {V} (self : RunReducer) (envelope : EventEnvelope V)
    : RunReducer * result ReduceError unit :=
  if negb (ev_schema_version envelope =? SCHEMA_VERSION)%N then
    (self, Err (UnsupportedSchema (ev_schema_version envelope)))
  else if negb (ev_sequence envelope =? rr_next_sequence self)%N then
    (self, Err (UnexpectedSequence (rr_next_sequence self) (ev_sequence envelope)))
  else
    let bound :=
      match rr_run_id self with
      | Some run_id => guard_err (negb (String.eqb run_id (ev_run_id envelope))) RunMismatch
      | None => Ok tt
      end in
    match bound with
    | Err e => (self, Err e)
    | Ok _ =>
        let self := match rr_run_id self with
                    | Some _ => self
                    | None => with_run_id self (Some (ev_run_id envelope))
                    end in
        if rr_terminal self then (self, Err EventAfterTerminal)
        else if negb (rr_started self) && negb (is_run_started (ev_event envelope)) then
          (self, Err RunNotStarted)
        else
          match apply_event self envelope with
          | (self, Err e) => (self, Err e)
          | (self, Ok _) =>
              (with_next_sequence self (saturating_add u64_max (rr_next_sequence self) 1), Ok tt)
          end
    end.

(** A stream applied to a fresh reducer, as the renderers do: the first
    refusal ends it. *)
Fixpoint reduce_all {V} (self : RunReducer) (l : list (EventEnvelope V))
    : result ReduceError RunReducer :=
  match l with
  | [] => Ok self
  | e :: l => match reducer_apply self e with
              | (self, Ok _) => reduce_all self l
              | (_, Err e) => Err e
              end
  end.

(** ** What a run is

    The reference definition: no state, only the stream.  Each operation
    is judged by its own events alone. *)

Inductive Role := RStart (k : OperationKind) | RMiddle (k : OperationKind)
| RFinish (k : OperationKind).

Section reference.
Context {V : Type}.
Implicit Types (e : EventEnvelope V) (l : list (EventEnvelope V)).

Definition op_role (e : Event V) : option Role :=
  match e with
  | MessageStarted _ => Some (RStart OpMessage)
  | MessageDelta _ => Some (RMiddle OpMessage)
  | MessageCompleted => Some (RFinish OpMessage)
  | ToolStarted _ _ => Some (RStart OpTool)
  | ToolCompleted _ _ | ToolFailed _ _ _ => Some (RFinish OpTool)
  | CommandStarted _ _ _ _ => Some (RStart OpCommand)
  | CommandOutput _ _ _ _ => Some (RMiddle OpCommand)
  | CommandCompleted _ _ _ _ => Some (RFinish OpCommand)
  | ApprovalRequested _ _ _ => Some (RStart OpApproval)
  | ApprovalResolved _ => Some (RFinish OpApproval)
  | GateStarted _ => Some (RStart OpGate)
  | GateCompleted _ _ _ => Some (RFinish OpGate)
  | _ => None
  end.

Definition is_run_end (e : Event V) : bool :=
  match e with RunCompleted _ | RunFailed _ => true | _ => false end.

(** The events of one operation. *)
Definition roles_of (id : string) l : list Role :=
  omap (fun e => if bool_decide (ev_operation_id e = Some id) then op_role (ev_event e) else None) l.

(** [(start middle* finish)*], and possibly one more that is still open
    with the kind [p]. *)
Inductive bracketed : list Role -> option OperationKind -> Prop :=
| br_none : bracketed [] None
| br_start rs k : bracketed rs None -> bracketed (rs ++ [RStart k]) (Some k)
| br_middle rs k : bracketed rs (Some k) -> bracketed (rs ++ [RMiddle k]) (Some k)
| br_finish rs k : bracketed rs (Some k) -> bracketed (rs ++ [RFinish k]) None.

Definition all_closed l : Prop := forall id, bracketed (roles_of id l) None.

(** Event number [i] of a stream of [n] events of the run [run]. *)
Definition event_ok (run : string) l (i : nat) e : Prop :=
  ev_schema_version e = SCHEMA_VERSION
  /\ ev_run_id e = run
  /\ ev_sequence e = N.min u64_max (N.of_nat i + 1)
  /\ (is_run_started (ev_event e) = true <-> i = 0)
  /\ (is_run_end (ev_event e) = true -> S i = length l /\ all_closed (take i l))
  /\ (is_Some (op_role (ev_event e)) -> is_Some (ev_operation_id e)).

Definition run_stream (run : string) l : Prop :=
  indexed (event_ok run l) l /\ forall id, exists p, bracketed (roles_of id l) p.

(** *** Facts of the reference *)

Lemma bracketed_snoc_inv rs r p :
  bracketed (rs ++ [r]) p ->
  exists q, bracketed rs q /\
    match r with
    | RStart k => q = None /\ p = Some k
    | RMiddle k => q = Some k /\ p = Some k
    | RFinish k => q = Some k /\ p = None
    end.
Proof.
  inversion 1 as [E|rs' k Hb E|rs' k Hb E|rs' k Hb E]; [by destruct rs|..];
    apply app_inj_tail in E as [-> <-]; eauto.
Qed.

Lemma bracketed_det rs p q : bracketed rs p -> bracketed rs q -> p = q.
Proof.
  revert p q. induction rs as [|r rs IH] using rev_ind; intros p q Hp Hq.
  - inversion Hp as [|? ? ? E|? ? ? E|? ? ? E]; try by destruct rs.
    inversion Hq as [|? ? ? E|? ? ? E|? ? ? E]; try by destruct rs. done.
  - apply bracketed_snoc_inv in Hp as (p' & Hp & Hr), Hq as (q' & Hq & Hr').
    pose proof (IH _ _ Hp Hq). destruct r; naive_solver.
Qed.

Lemma roles_of_snoc id l e :
  roles_of id (l ++ [e]) = roles_of id l ++ roles_of id [e].
Proof. apply omap_app. Qed.

Lemma roles_of_one id e :
  roles_of id [e] = match op_role (ev_event e) with
                    | Some r => if bool_decide (ev_operation_id e = Some id) then [r] else []
                    | None => [] end.
Proof. unfold roles_of. cbn. case_bool_decide; by destruct (op_role _). Qed.

End reference.

(** ** The reducer recognizes the runs *)

Section equivalence.
Context {V : Type}.
Implicit Types (e : EventEnvelope V) (l : list (EventEnvelope V)).

Lemma start_operation_Ok self e k self' :
  start_operation self e k = (self', Ok tt) <->
  exists id, ev_operation_id e = Some id /\ rr_active_operations self !! id = None
    /\ self' = with_active self (<[id := k]> (rr_active_operations self)).
Proof.
  unfold start_operation, operation_id. destruct (ev_operation_id e) as [id|]; cbn; [|naive_solver].
  destruct (rr_active_operations self !! id) eqn:E; naive_solver.
Qed.

Lemma require_operation_Ok self e k u :
  require_operation self e k = Ok u <->
  exists id, ev_operation_id e = Some id /\ rr_active_operations self !! id = Some k.
Proof.
  unfold require_operation, operation_id. destruct (ev_operation_id e) as [id|]; cbn; [|naive_solver].
  destruct (rr_active_operations self !! id) as [k'|] eqn:E; [|naive_solver].
  rewrite guard_err_Ok, bool_decide_eq_false. split.
  - intros Hk. exists id. split; [done|]. rewrite E. f_equal. by apply dec_stable.
  - intros (i & [= <-] & Hi). intros Hn. apply Hn. congruence.
Qed.

Lemma finish_operation_Ok self e k self' :
  finish_operation self e k = (self', Ok tt) <->
  exists id, ev_operation_id e = Some id /\ rr_active_operations self !! id = Some k
    /\ self' = with_active self (delete id (rr_active_operations self)).
Proof.
  unfold finish_operation. destruct (require_operation self e k) as [u|er] eqn:E; cbn.
  - apply require_operation_Ok in E as (id & Hid & Ha). unfold operation_id. rewrite Hid. cbn.
    naive_solver.
  - split; [done|]. intros (id & Hid & Ha & _).
    assert (require_operation self e k = Ok tt) as E' by (apply require_operation_Ok; eauto).
    congruence.
Qed.

Lemma apply_event_Ok self e self' :
  apply_event self e = (self', Ok tt) <->
  match op_role (ev_event e) with
  | Some r => exists id, ev_operation_id e = Some id /\
      match r with
      | RStart k => rr_active_operations self !! id = None
          /\ self' = with_active self (<[id := k]> (rr_active_operations self))
      | RMiddle k => rr_active_operations self !! id = Some k /\ self' = self
      | RFinish k => rr_active_operations self !! id = Some k
          /\ self' = with_active self (delete id (rr_active_operations self))
      end
  | None =>
      if is_run_started (ev_event e) then
        rr_started self = false /\ ev_sequence e = 1%N /\ self' = with_started self true
      else if is_run_end (ev_event e) then
        rr_started self = true /\ rr_active_operations self = ∅ /\ self' = with_terminal self true
      else self' = self
  end.
Proof.
  assert (forall k, (self, require_operation self e k) = (self', Ok tt) <->
    exists id, ev_operation_id e = Some id /\ rr_active_operations self !! id = Some k
      /\ self' = self) as Hreq.
  { intros k. split.
    - intros [= <- (id & ? & ?)%require_operation_Ok]. eauto.
    - intros (id & ? & ? & ->). f_equal. apply require_operation_Ok. eauto. }
  unfold apply_event. destruct (ev_event e) eqn:Ee; cbn [op_role is_run_started is_run_end];
    rewrite ?start_operation_Ok, ?finish_operation_Ok, ?Hreq; try done;
    try (split; [by intros [= <-]|by intros ->]).
  - destruct (rr_started self); cbn; [naive_solver|].
    destruct (N.eqb_spec (ev_sequence e) 1); cbn; naive_solver.
  - destruct (rr_started self); cbn; [|naive_solver]. case_bool_decide; cbn; naive_solver.
  - destruct (rr_started self); cbn; [|naive_solver]. case_bool_decide; cbn; naive_solver.
Qed.

Lemma reducer_apply_Ok self e self' :
  reducer_apply self e = (self', Ok tt) <->
  ev_schema_version e = SCHEMA_VERSION
  /\ ev_sequence e = rr_next_sequence self
  /\ (forall run, rr_run_id self = Some run -> ev_run_id e = run)
  /\ rr_terminal self = false
  /\ (rr_started self = false -> is_run_started (ev_event e) = true)
  /\ exists self1, apply_event (with_run_id self (Some (ev_run_id e))) e = (self1, Ok tt)
     /\ self' = with_next_sequence self1 (saturating_add u64_max (rr_next_sequence self1) 1).
Proof.
  unfold reducer_apply.
  destruct (N.eqb_spec (ev_schema_version e) SCHEMA_VERSION); cbn; [|naive_solver].
  destruct (N.eqb_spec (ev_sequence e) (rr_next_sequence self)); cbn; [|naive_solver].
  assert (forall s, rr_terminal s = rr_terminal self -> rr_started s = rr_started self ->
    (if rr_terminal s then (s, Err EventAfterTerminal)
     else if negb (rr_started s) && negb (is_run_started (ev_event e)) then (s, Err RunNotStarted)
     else match apply_event s e with
          | (self0, Ok _) =>
              (with_next_sequence self0 (saturating_add u64_max (rr_next_sequence self0) 1), Ok tt)
          | (self0, Err e0) => (self0, Err e0)
          end) = (self', Ok tt) <->
    rr_terminal self = false /\ (rr_started self = false -> is_run_started (ev_event e) = true)
    /\ exists self1, apply_event s e = (self1, Ok tt)
     /\ self' = with_next_sequence self1 (saturating_add u64_max (rr_next_sequence self1) 1))
    as Hrest.
  { intros s -> ->. destruct (rr_terminal self); [naive_solver|].
    destruct (rr_started self), (is_run_started (ev_event e)); cbn;
      destruct (apply_event s e) as [s1 [[]|er]]; naive_solver. }
  destruct (rr_run_id self) as [run|] eqn:Er.
  - destruct (String.eqb_spec run (ev_run_id e)) as [->|Hne]; cbn [negb guard_err]; [|naive_solver].
    etrans; [by apply Hrest|].
    assert (with_run_id self (Some (ev_run_id e)) = self) as -> by (destruct self; naive_solver).
    naive_solver.
  - etrans; [by apply Hrest|]. naive_solver.
Qed.

(** What the reducer remembers of the stream so far. *)
Record reduced l (self : RunReducer) : Prop := {
  rd_run : rr_run_id self = ev_run_id <$> head l;
  rd_next : rr_next_sequence self = N.min u64_max (N.of_nat (length l) + 1);
  rd_started : rr_started self = negb (bool_decide (l = []));
  rd_terminal : rr_terminal self = existsb (fun e => is_run_end (ev_event e)) l;
  rd_active : forall id, bracketed (roles_of id l) (rr_active_operations self !! id);
}.

Lemma reduced_new : reduced [] reducer_new.
Proof.
  split; try done. intros id. unfold reducer_new. cbn [rr_active_operations].
  rewrite lookup_empty. constructor.
Qed.

(** An event of no operation leaves every operation alone. *)
Lemma roles_of_other id l e :
  op_role (ev_event e) = None \/ ev_operation_id e <> Some id ->
  roles_of id (l ++ [e]) = roles_of id l.
Proof.
  intros Ho. rewrite roles_of_snoc, roles_of_one.
  destruct (op_role (ev_event e)); [|by rewrite app_nil_r].
  destruct Ho; [done|]. rewrite bool_decide_eq_false_2 by done. by rewrite app_nil_r.
Qed.

Lemma roles_of_own id l e r :
  op_role (ev_event e) = Some r -> ev_operation_id e = Some id ->
  roles_of id (l ++ [e]) = roles_of id l ++ [r].
Proof.
  intros Hr Ho. rewrite roles_of_snoc, roles_of_one, Hr. by rewrite bool_decide_eq_true_2.
Qed.

(** The operations after an accepted event. *)
Lemma apply_event_active l self e self' :
  reduced l self -> apply_event (with_run_id self (Some (ev_run_id e))) e = (self', Ok tt) ->
  forall id, bracketed (roles_of id (l ++ [e])) (rr_active_operations self' !! id).
Proof.
  intros Hrd Ha id. apply apply_event_Ok in Ha. pose proof (rd_active _ _ Hrd id) as Hb.
  destruct (op_role (ev_event e)) as [r|] eqn:Er.
  - destruct Ha as (id' & Hid & Ha). cbn in Ha. destruct (decide (id' = id)) as [->|Hne].
    + rewrite (roles_of_own id l e r) by done. destruct r as [k|k|k]; destruct Ha as [Hl ->]; cbn.
      * rewrite lookup_insert_eq. rewrite Hl in Hb. by constructor.
      * rewrite Hl in *. by constructor.
      * rewrite lookup_delete_eq. rewrite Hl in Hb. by econstructor.
    + rewrite roles_of_other by (right; congruence).
      destruct r; destruct Ha as [_ ->]; cbn; [by rewrite lookup_insert_ne|done|
        by rewrite lookup_delete_ne].
  - rewrite roles_of_other by (by left). repeat case_match; destruct_and?; by subst.
Qed.

Lemma no_end_before l :
  existsb (fun e => is_run_end (ev_event e)) l = false <->
  forall e, e ∈ l -> is_run_end (ev_event e) = false.
Proof.
  induction l as [|x l IH]; cbn; [set_solver|]. rewrite orb_false_iff, IH. set_solver.
Qed.

(** A stream with an event after it: the run has not ended in it. *)
Lemma run_stream_snoc run l e :
  run_stream run (l ++ [e]) <->
  run_stream run l
  /\ existsb (fun e => is_run_end (ev_event e)) l = false
  /\ ev_schema_version e = SCHEMA_VERSION /\ ev_run_id e = run
  /\ ev_sequence e = N.min u64_max (N.of_nat (length l) + 1)
  /\ (is_run_started (ev_event e) = true <-> l = [])
  /\ (is_run_end (ev_event e) = true -> all_closed l)
  /\ (is_Some (op_role (ev_event e)) -> is_Some (ev_operation_id e))
  /\ (forall id, exists p, bracketed (roles_of id (l ++ [e])) p).
Proof.
  unfold run_stream at 1. rewrite indexed_snoc. unfold event_ok at 2.
  rewrite length_app, take_app_le, firstn_all by lia. cbn. split.
  - intros [[Hl (H1 & H2 & H3 & H4 & H5 & H6)] Hb].
    assert (existsb (fun e => is_run_end (ev_event e)) l = false) as Hne.
    { apply no_end_before. intros x (i & Hi)%list_elem_of_lookup.
      destruct (Hl i x Hi) as (_ & _ & _ & _ & He & _).
      apply not_true_iff_false. intros Hx. destruct (He Hx) as [Hlen _].
      rewrite length_app in Hlen. cbn in Hlen. apply lookup_lt_Some in Hi. lia. }
    rewrite length_zero_iff_nil in H4.
    split; [|split_and!; try done; intros Hx; by destruct (H5 Hx)]. split.
    + intros i x Hi. destruct (Hl i x Hi) as (A1 & A2 & A3 & A4 & A5 & A6). split_and!; try done.
      intros Hx. rewrite (proj1 (no_end_before l) Hne x) in Hx; [done|].
      by eapply list_elem_of_lookup_2.
    + intros id. destruct (Hb id) as [p Hp]. rewrite roles_of_snoc, roles_of_one in Hp.
      destruct (op_role (ev_event e)); [case_bool_decide|]; try (rewrite app_nil_r in Hp; eauto).
      apply bracketed_snoc_inv in Hp as (q & Hq & _). eauto.
  - intros ([Hl _] & Hne & H1 & H2 & H3 & H4 & H5 & H6 & Hb).
    rewrite <-length_zero_iff_nil in H4.
    split; [|done]. split; [|split_and!; try done; intros Hx; split; [lia|auto]].
    intros i x Hi. destruct (Hl i x Hi) as (A1 & A2 & A3 & A4 & A5 & A6). split_and!; try done.
    intros Hx. rewrite (proj1 (no_end_before l) Hne x) in Hx; [done|].
    by eapply list_elem_of_lookup_2.
Qed.

Lemma run_of_head run l self e :
  run_stream run l -> reduced l self -> (l = [] -> run = ev_run_id e) ->
  ((forall r, rr_run_id self = Some r -> ev_run_id e = r) <-> ev_run_id e = run).
Proof.
  intros [Hl _] Hr Hrun. rewrite (rd_run _ _ Hr). destruct l as [|x l]; cbn.
  - rewrite Hrun by done. naive_solver.
  - destruct (Hl 0 x eq_refl) as (_ & <- & _). naive_solver.
Qed.

(** An accepted event extends the run. *)
Lemma accept_step run l self e self' :
  run_stream run l -> reduced l self -> (l = [] -> run = ev_run_id e) ->
  reducer_apply self e = (self', Ok tt) -> run_stream run (l ++ [e]) /\ reduced (l ++ [e]) self'.
Proof.
  intros Hs Hr Hrun (H1 & H2 & H3 & H4 & H5 & self1 & Ha & ->)%reducer_apply_Ok.
  pose proof (apply_event_active _ _ _ _ Hr Ha) as Hact.
  apply (run_of_head run l self e Hs Hr Hrun) in H3.
  rewrite (rd_next _ _ Hr) in H2. rewrite (rd_terminal _ _ Hr) in H4.
  rewrite (rd_started _ _ Hr) in H5.
  apply apply_event_Ok in Ha. cbn in Ha. rewrite (rd_started _ _ Hr) in Ha.
  assert (is_run_started (ev_event e) = true <-> l = []) as Hst.
  { split.
    - intros Hx. rewrite Hx in Ha. destruct (op_role (ev_event e)) eqn:Er.
      + destruct (ev_event e); done.
      + destruct Ha as [Hl _]. apply negb_false_iff, bool_decide_eq_true in Hl. done.
    - intros ->. by apply H5. }
  assert (rr_run_id self1 = Some (ev_run_id e) /\ rr_next_sequence self1 = rr_next_sequence self
    /\ rr_started self1 = true /\ rr_terminal self1 = is_run_end (ev_event e)) as (R1 & R2 & R3 & R4).
  { assert (is_run_started (ev_event e) = false -> rr_started self = true) as Hs1.
    { intros Hx. rewrite (rd_started _ _ Hr). apply negb_true_iff, bool_decide_eq_false.
      intros Hn. apply Hst in Hn. congruence. }
    assert (rr_terminal self = false) as Ht by (by rewrite (rd_terminal _ _ Hr)).
    destruct (ev_event e); cbn in *; try (destruct Ha as (id & _ & Ha)); destruct_and?; subst;
      cbn; auto. }
  split.
  - apply run_stream_snoc. split_and!; try done.
    + intros Hx. assert (rr_active_operations self = ∅) as He.
      { rewrite Hx in Ha. destruct (ev_event e); try done; cbn in Ha; by destruct_and!. }
      intros id. pose proof (rd_active _ _ Hr id) as Hb. by rewrite He, lookup_empty in Hb.
    + intros [r Hx]. rewrite Hx in Ha. destruct Ha as (id & -> & _). by eexists.
    + eauto.
  - split; cbn.
    + rewrite R1. destruct l as [|x l]; [done|]. cbn. f_equal. rewrite H3.
      destruct Hs as [Hl _]. by destruct (Hl 0 x eq_refl) as (_ & -> & _).
    + rewrite R2, (rd_next _ _ Hr), length_app. cbn. unfold saturating_add.
      assert (0 < u64_max)%N by done. lia.
    + rewrite R3. by destruct l.
    + rewrite R4, existsb_app, H4. cbn. by rewrite orb_false_r.
    + done.
Qed.

(** An event that extends the run is accepted. *)
Lemma complete_step run l self e :
  run_stream run (l ++ [e]) -> reduced l self -> exists self', reducer_apply self e = (self', Ok tt).
Proof.
  intros (Hs & Hne & H1 & H2 & H3 & H4 & H5 & H6 & Hb)%run_stream_snoc Hr.
  assert (exists self1, apply_event (with_run_id self (Some (ev_run_id e))) e = (self1, Ok tt))
    as [self1 Ha].
  { pose proof (fun x => proj2 (apply_event_Ok (with_run_id self (Some (ev_run_id e))) e x)) as Hap.
    cbn in Hap. destruct (op_role (ev_event e)) as [r|] eqn:Er.
    - destruct (H6 ltac:(by eexists)) as [id Hid]. destruct (Hb id) as [p Hp].
      rewrite (roles_of_own id l e r) in Hp by done.
      apply bracketed_snoc_inv in Hp as (q & Hq & Hr2).
      pose proof (bracketed_det _ _ _ Hq (rd_active _ _ Hr id)) as E.
      destruct r as [k|k|k]; destruct Hr2 as [-> _]; eexists; apply Hap; exists id; by split_and!.
    - destruct (is_run_started (ev_event e)) eqn:Es.
      + eexists. apply Hap. rewrite (rd_started _ _ Hr), H3. rewrite (proj1 H4 eq_refl). cbn.
        by split_and!.
      + destruct (is_run_end (ev_event e)) eqn:Ee; [|by eexists; apply Hap].
        eexists. apply Hap. split_and!; [| |done].
        * rewrite (rd_started _ _ Hr). apply negb_true_iff, bool_decide_eq_false.
          intros Hn. apply H4 in Hn. congruence.
        * apply map_eq. intros id. rewrite lookup_empty.
          eapply bracketed_det; [apply (rd_active _ _ Hr id)|by apply H5]. }
  eexists. apply reducer_apply_Ok. split_and!.
  - done.
  - by rewrite (rd_next _ _ Hr).
  - intros r. rewrite (rd_run _ _ Hr). destruct l as [|x l]; [done|]. cbn. intros [= <-].
    destruct Hs as [Hl _]. by destruct (Hl 0 x eq_refl) as (_ & -> & _).
  - by rewrite (rd_terminal _ _ Hr).
  - rewrite (rd_started _ _ Hr). intros Hn%negb_false_iff%bool_decide_eq_true. by apply H4.
  - by eexists.
Qed.

Lemma reduce_all_snoc self l e self' :
  reduce_all self (l ++ [e]) = Ok self' <->
  exists self1, reduce_all self l = Ok self1 /\ reducer_apply self1 e = (self', Ok tt).
Proof.
  revert self. induction l as [|x l IH]; intros self; cbn.
  - destruct (reducer_apply self e) as [s [[]|er]] eqn:E; split; intros Hx;
      [injection Hx as <-; eauto|destruct Hx as (s1 & [= <-] & Hx); congruence|done
      |destruct Hx as (s1 & [= <-] & Hx); congruence].
  - destruct (reducer_apply self x) as [s [[]|er]]; [apply IH|naive_solver].
Qed.

Lemma run_stream_nil run : run_stream run ([] : list (EventEnvelope V)).
Proof. split; [apply indexed_nil|]. exists None. constructor. Qed.

Lemma reduce_all_sound l : forall self, reduce_all reducer_new l = Ok self ->
  exists run, run_stream run l /\ reduced l self.
Proof.
  induction l as [|e l IH] using rev_ind; intros self Hr.
  - injection Hr as <-. exists (String.EmptyString). split; [apply run_stream_nil|apply reduced_new].
  - apply reduce_all_snoc in Hr as (self1 & Hl & Ha). destruct (IH _ Hl) as (run & Hs & Hd).
    destruct l as [|x l].
    + exists (ev_run_id e). eapply accept_step; [apply run_stream_nil|exact Hd|done|exact Ha].
    + exists run. by eapply accept_step.
Qed.

Lemma reduce_all_complete run l : run_stream run l -> exists self, reduce_all reducer_new l = Ok self.
Proof.
  induction l as [|e l IH] using rev_ind; intros Hs; [by eexists|].
  destruct (IH (proj1 (proj1 (run_stream_snoc _ _ _) Hs))) as [self Hl].
  destruct (reduce_all_sound _ _ Hl) as (run' & _ & Hd).
  destruct (complete_step _ _ _ _ Hs Hd) as [self' Ha]. exists self'.
  apply reduce_all_snoc. eauto.
Qed.

(** A refusal does not advance the sequence. *)
Lemma refused_next self e self' er :
  reducer_apply self e = (self', Err er) -> rr_next_sequence self' = rr_next_sequence self.
Proof.
  assert (forall s s' er', apply_event s e = (s', Err er') -> rr_next_sequence s' = rr_next_sequence s)
    as Hap.
  { intros s s' er'. unfold apply_event, start_operation, finish_operation.
    destruct (ev_event e); repeat case_match; naive_solver. }
  unfold reducer_apply.
  repeat first [case_match|progress intros [= <- <-]|done];
    match goal with H : apply_event _ _ = _ |- _ => apply Hap in H; done end.
Qed.

(** *** The sequencer's streams *)

(** The frames fed to one sequencer; refused frames produce nothing. *)
Fixpoint ingest_all (self : EventSequencer) (frames : list (ProducerEvent V))
    : list (EventEnvelope V) :=
  match frames with
  | [] => []
  | f :: frames =>
      match sequencer_ingest self f with
      | (self, Ok e) => e :: ingest_all self frames
      | (self, Err _) => ingest_all self frames
      end
  end.

Lemma ingest_all_headers frames : forall self k,
  sq_next_sequence self = N.min u64_max (N.of_nat k + 1) ->
  indexed (fun i e => ev_schema_version e = SCHEMA_VERSION /\ ev_run_id e = sq_run_id self
    /\ ev_sequence e = N.min u64_max (N.of_nat (k + i) + 1)) (ingest_all self frames).
Proof.
  induction frames as [|f frames IH]; intros self k Hk; cbn; [apply indexed_nil|].
  unfold sequencer_ingest. destruct (negb _); [by apply IH|]. destruct (negb _); [by apply IH|].
  intros [|i] e Hi; cbn in Hi.
  - injection Hi as <-. cbn. by rewrite Nat.add_0_r.
  - assert (sq_next_sequence (MkSequencer (sq_run_id self)
      (saturating_add u64_max (sq_next_sequence self) 1)) = N.min u64_max (N.of_nat (S k) + 1)) as Hk'.
    { cbn [sq_next_sequence]. rewrite Hk. unfold saturating_add. lia. }
    destruct (IH _ _ Hk' i e Hi) as (A & B & C). split_and!; [done|done|].
    rewrite C. f_equal. lia.
Qed.

(** C39 The streaming reducer recognizes exactly the runs: a stream is
    accepted by a fresh reducer if and only if it is numbered and bound
    to one run, starts with the one [run.started], ends at the first
    terminal event with nothing open, and the events of every operation
    taken alone are well bracketed.  An accepting reducer holds exactly
    the open operations, a refusal leaves it waiting for the sequence it
    refused, and a stream numbered by the sequencer never fails on its
    headers. *)
Theorem reducer_recognizes_runs (l : list (EventEnvelope V)) :
  ((exists self, reduce_all reducer_new l = Ok self) <-> exists run, run_stream run l)
  /\ (forall self, reduce_all reducer_new l = Ok self -> reduced l self)
  /\ (forall self e self' er, reducer_apply self e = (self', Err er) ->
        rr_next_sequence self' = rr_next_sequence self)
  /\ (forall run frames,
        indexed (fun i e => ev_schema_version e = SCHEMA_VERSION /\ ev_run_id e = run
          /\ ev_sequence e = N.min u64_max (N.of_nat i + 1)) (ingest_all (sequencer_new run) frames)).
Proof.
  split_and!.
  - split.
    + intros [self Hs]. destruct (reduce_all_sound _ _ Hs) as (run & Hr & _). eauto.
    + intros [run Hr]. by eapply reduce_all_complete.
  - intros self Hs. by destruct (reduce_all_sound _ _ Hs) as (run & _ & Hd).
  - apply refused_next.
  - intros run frames. by apply (ingest_all_headers frames (sequencer_new run) 0).
Qed.

End equivalence.

(** ** Plain rendering *)

(** [Display] of [serde_json::Value]. *)
Class JsonDisplay (V : Type) := value_display : V -> string.

Definition newline : string := String (ascii_of_nat 10) EmptyString.

(** The derived [Debug] text. *)
Definition FileChangeKind_debug (k : FileChangeKind) : string :=
  match k with
  | Added => "Added" | Modified => "Modified" | Deleted => "Deleted"
  | Renamed => "Renamed" | Binary => "Binary"
  end.

(** [message_role_label]. *)
Definition message_role_label (role : MessageRole) : string :=
  match role with
  | RoleAssistant => "assistant" | RoleUser => "user" | RoleSystem => "system"
  end.

(** [str::ends_with('\n')]. *)
Fixpoint ends_with_newline (s : string) : bool :=
  match s with
  | EmptyString => false
  | String a EmptyString => bool_decide (a = ascii_of_nat 10)
  | String _ s => ends_with_newline s
  end.

Definition or_unknown (n : option N) : string :=
  match n with Some v => pretty v | None => "?" end.

(** [render_workspace_delta]. *)
Definition render_workspace_delta (changes : list FileChange) (diff commit : option string)
    : string :=
  newline +:+ "workspace changes"
  +:+ match commit with Some c => " · commit " +:+ c | None => EmptyString end
  +:+ newline
  +:+ String.concat EmptyString ((fun c =>
        "  " +:+ FileChangeKind_debug (fc_kind c) +:+ " " +:+ fc_path c
        +:+ " +" +:+ or_unknown (fc_additions c) +:+ "/-" +:+ or_unknown (fc_deletions c)
        +:+ newline) <$> changes)
  +:+ match diff with
      | Some d => d +:+ (if ends_with_newline d then EmptyString else newline)
      | None => EmptyString
      end.

(** [render_plain]. *)
Definition render_plain `{JsonDisplay V} (envelope : EventEnvelope V) : string :=
  match ev_event envelope with
  | RunStarted task => "AlloyPort · " +:+ task +:+ newline
  | TurnStarted _ | TurnCompleted _ _ => EmptyString
  | TurnFailed turn error => "! turn " +:+ pretty turn +:+ " failed: " +:+ error +:+ newline
  | RunCompleted _ => newline +:+ "✓ run completed" +:+ newline
  | RunFailed error => newline +:+ "✗ run failed: " +:+ error +:+ newline
  | MessageStarted role => newline +:+ message_role_label role +:+ newline
  | MessageDelta text => text
  | MessageCompleted => newline
  | PlanUpdated entries => "plan: " +:+ value_display entries +:+ newline
  | ToolStarted name arguments =>
      newline +:+ "→ " +:+ name +:+ " " +:+ value_display arguments +:+ newline
  | ToolCompleted name output =>
      "← " +:+ name +:+ " completed" +:+ newline +:+ output +:+ newline
  | ToolFailed name error output =>
      "← " +:+ name +:+ " failed: " +:+ error
      +:+ match output with Some v => newline +:+ v | None => EmptyString end +:+ newline
  | CommandStarted command cwd execution_site description =>
      newline +:+ "$ " +:+ command +:+ newline +:+ "  @ " +:+ execution_site
      +:+ match cwd with Some v => " · cwd " +:+ v | None => EmptyString end
      +:+ match description with Some v => " · " +:+ v | None => EmptyString end +:+ newline
  | CommandOutput Stdout _ text _ => text
  | CommandOutput Stderr _ text _ => "[stderr]" +:+ newline +:+ text
  | CommandCompleted exit_code elapsed_ms timed_out _ =>
      newline +:+ "  exit " +:+ pretty exit_code +:+ " · " +:+ pretty elapsed_ms +:+ " ms"
      +:+ (if timed_out then " · timed out" else EmptyString) +:+ newline
  | WorkspaceDelta changes diff commit => render_workspace_delta changes diff commit
  | ApprovalRequested action reason risk =>
      "approval required [" +:+ risk +:+ "]: " +:+ action +:+ newline +:+ "  " +:+ reason
      +:+ newline
  | ApprovalResolved decision => "approval: " +:+ decision +:+ newline
  | GateStarted gate => "gate " +:+ gate +:+ ": running" +:+ newline
  | GateCompleted gate passed _ =>
      (if passed then "✓" else "✗") +:+ " gate " +:+ gate +:+ ": "
      +:+ (if passed then "PASS" else "FAIL") +:+ newline
  | ArtifactProduced artifact =>
      "artifact " +:+ ar_reference artifact +:+ " (" +:+ ar_digest artifact +:+ ")" +:+ newline
  | Warning message => "! " +:+ message +:+ newline
  | EError message => "✗ " +:+ message +:+ newline
  end.

(** A small run through sequencer and reducer. *)
Definition sample_frames : list (ProducerEvent unit) :=
  let frame op e := MkFrame SCHEMA_VERSION "run-1" None None op None None 0
                      (MkProducer "cli" "demo") Observed User e in
  [frame None (RunStarted "task"); frame (Some "op-1") (CommandStarted "make" None "host" None);
   frame (Some "op-2") (GateStarted "build"); frame (Some "op-1") (CommandCompleted 0 5 false None);
   frame (Some "op-2") (GateCompleted "build" true []); frame None (RunCompleted "done")].

Example sample_run_accepted :
  match reduce_all reducer_new (ingest_all (sequencer_new "run-1") sample_frames) with
  | Ok self => rr_terminal self = true /\ rr_next_sequence self = 7%N
  | Err _ => False
  end.
Proof. vm_compute. split; reflexivity. Qed.

Example sample_run_unfinished :
  match reduce_all reducer_new (ingest_all (sequencer_new "run-1")
    (take 3 sample_frames ++ drop 5 sample_frames)) with
  | Err e => e = OperationsStillActive ["op-1"; "op-2"]
  | Ok _ => False
  end.
Proof. vm_compute. reflexivity. Qed.
