(* ===== verification/Sanitizer.v ===== *)
(** * Display policy for worker events

    [src/crates/alloyport-server/src/interaction/sanitizer.rs].  A text is
    the list of its characters, each the bytes of one [char] ([chars]); the
    texts of Rust are well-formed UTF-8, so that is no loss ([chars_join]).
    [strip_terminal_sequences] is the state machine of the source,
    [sanitize_display_text] its pass over the words of a text. *)

From Stdlib Require Import Ascii NArith Lia.
From stdpp Require Import base strings list.
From S2P Require Import Prelude Text RunEvents.

(** ** Characters *)

Fixpoint join_text (l : list string) : string :=
  match l with [] => EmptyString | c :: l => c +:+ join_text l end.

(** [str::chars]: the lead byte tells how many bytes a character has. *)
Fixpoint chars (s : string) : list string :=
  match s with
  | EmptyString => []
  | String a s1 =>
      if (code a <? 0x80)%N then String a EmptyString :: chars s1 else
      match s1 with
      | EmptyString => [s]
      | String b s2 =>
          if in_range 0xC2 0xDF a then String a (String b EmptyString) :: chars s2 else
          match s2 with
          | EmptyString => [s]
          | String c s3 =>
              if in_range 0xE0 0xEF a
              then String a (String b (String c EmptyString)) :: chars s3 else
              match s3 with
              | EmptyString => [s]
              | String d s4 => String a (String b (String c (String d EmptyString))) :: chars s4
              end
          end
      end
  end.

(** [char::is_whitespace] and [char::is_control]. *)
Definition is_whitespace (c : string) : bool :=
  match c with
  | String a EmptyString => white1 a
  | String a (String b EmptyString) => white2 a b
  | String a (String b (String d EmptyString)) => white3 a b d
  | _ => false
  end.

Definition is_control (c : string) : bool :=
  match c with
  | String a EmptyString => (code a <? 0x20)%N || (code a =? 0x7F)%N
  | String a (String b EmptyString) => (code a =? 0xC2)%N && in_range 0x80 0x9F b
  | _ => false
  end.

Definition control_char (n : nat) : string := String (ascii_of_nat n) EmptyString.
Definition escape : string := control_char 27.
Definition bell : string := control_char 7.
Definition newline : string := control_char 10.
Definition tab : string := control_char 9.

(** ** Terminal sequences *)

Module Strip.

(** [enum State] of [strip_terminal_sequences]. *)
Inductive State :=
| Text | Escape | ControlSequence | OperatingSystemCommand | OperatingSystemCommandEscape.

End Strip.

(** What is kept of the text. *)
Definition displayable (c : string) : bool :=
  negb (is_control c) || bool_decide (c = newline) || bool_decide (c = tab).

Definition in_final_range (c : string) : bool :=
  match c with String a EmptyString => in_range 0x40 0x7E a | _ => false end.

(** The match of the loop: the next state, and whether the character is
    pushed. *)
Definition strip_next (state : Strip.State) (c : string) : Strip.State * bool :=
  match state with
  | Strip.Text => if bool_decide (c = escape) then (Strip.Escape, false) else (Strip.Text, displayable c)
  | Strip.Escape =>
      if bool_decide (c = "[") then (Strip.ControlSequence, false)
      else if bool_decide (c = "]") then (Strip.OperatingSystemCommand, false)
      else (Strip.Text, false)
  | Strip.ControlSequence => (if in_final_range c then Strip.Text else Strip.ControlSequence, false)
  | Strip.OperatingSystemCommand =>
      (if bool_decide (c = bell) then Strip.Text
       else if bool_decide (c = escape) then Strip.OperatingSystemCommandEscape
       else Strip.OperatingSystemCommand, false)
  | Strip.OperatingSystemCommandEscape =>
      (if bool_decide (c = "\") then Strip.Text
       else if bool_decide (c = escape) then Strip.OperatingSystemCommandEscape
       else Strip.OperatingSystemCommand, false)
  end.

Fixpoint strip_chars (state : Strip.State) (cs : list string) : list string :=
  match cs with
  | [] => []
  | c :: cs =>
      let '(state, push) := strip_next state c in
      if push then c :: strip_chars state cs else strip_chars state cs
  end.

(** [strip_terminal_sequences]. *)
Definition strip_terminal_sequences (input : string) : string :=
  join_text (strip_chars Strip.Text (chars input)).

(** ** Words *)

(** [str::split_inclusive]. *)
Fixpoint split_inclusive (p : string -> bool) (cs : list string) : list (list string) :=
  match cs with
  | [] => []
  | c :: cs =>
      if p c then [c] :: split_inclusive p cs
      else match split_inclusive p cs with
           | [] => [[c]]
           | segment :: segments => (c :: segment) :: segments
           end
  end.

(** [str::trim_end_matches] and [str::trim_matches]. *)
Fixpoint trim_start_matches (p : string -> bool) (cs : list string) : list string :=
  match cs with
  | [] => []
  | c :: cs' => if p c then trim_start_matches p cs' else cs
  end.

Definition trim_end_matches (p : string -> bool) (cs : list string) : list string :=
  reverse (trim_start_matches p (reverse cs)).

Definition trim_matches (p : string -> bool) (cs : list string) : list string :=
  trim_end_matches p (trim_start_matches p cs).

(** [split_once('=')]: the part before. *)
Fixpoint before_equals (cs : list string) : option (list string) :=
  match cs with
  | [] => None
  | c :: cs => if bool_decide (c = "=") then Some [] else (c ::.) <$> before_equals cs
  end.

Definition outside_key (c : string) : bool :=
  match c with
  | String a EmptyString => negb (is_ascii_alphanumeric a) && negb (bool_decide (a = "_"%char))
  | _ => true
  end.

(** [is_sensitive_key]. *)
Definition is_sensitive_key (value : list string) : bool :=
  let normalized := to_ascii_lowercase (join_text (trim_matches outside_key value)) in
  existsb (fun sensitive => contains sensitive normalized)
    ["password"; "passwd"; "token"; "secret"; "api_key"; "apikey"; "access_key"; "private_key";
     "authorization"; "cookie"].

Definition uppercase_or_underscore (c : string) : bool :=
  match c with
  | String a EmptyString => in_range 0x41 0x5A a || bool_decide (a = "_"%char)
  | _ => false
  end.

(** [looks_like_sensitive_label]. *)
Definition looks_like_sensitive_label (value : list string) : bool :=
  is_sensitive_key value
  && (bool_decide (head value = Some "-") || bool_decide (last value = Some ":")
      || forallb uppercase_or_underscore value).

Definition redacted : list string := chars "[REDACTED]".

(** The loop body of [sanitize_display_text]: what a segment pushes, and
    [redact_next] after it. *)
Definition redact_segment (redact_next : bool) (segment : list string) : list string * bool :=
  let word := trim_end_matches is_whitespace segment in
  let whitespace := drop (length word) segment in
  match word with
  | [] => (segment, redact_next)
  | _ :: _ =>
      if redact_next then (redacted ++ whitespace, false)
      else if bool_decide (to_ascii_lowercase (join_text word) = "bearer") then (word ++ whitespace, true)
      else match before_equals word with
           | Some key =>
               ((if is_sensitive_key key then key ++ ["="] ++ redacted else word) ++ whitespace, false)
           | None => (word ++ whitespace, looks_like_sensitive_label word)
           end
  end.

Fixpoint redact_segments (redact_next : bool) (segments : list (list string)) : list (list string) :=
  match segments with
  | [] => []
  | segment :: segments =>
      let '(output, redact_next) := redact_segment redact_next segment in
      output :: redact_segments redact_next segments
  end.

(** [sanitize_display_text]. *)
Definition sanitize_display_text (input : string) : string :=
  join_text (concat (redact_segments false
    (split_inclusive is_whitespace (chars (strip_terminal_sequences input))))).

(** [redact_worker_event]. *)
Definition redact_worker_event {V} (event : Event V) : Event V :=
  match event with
  | CommandStarted command cwd site description =>
      CommandStarted (sanitize_display_text command) (strip_terminal_sequences <$> cwd) site
        (sanitize_display_text <$> description)
  | CommandOutput stream byte_offset text _ =>
      CommandOutput stream byte_offset (sanitize_display_text text) true
  | Warning message => Warning (sanitize_display_text message)
  | EError message => EError (sanitize_display_text message)
  | event => event
  end.

(** ** Lemmas: characters *)

Lemma append_empty (a : string) : a +:+ EmptyString = a.
Proof. induction a as [|x a IH]; [done|]. change (String x (a +:+ EmptyString) = String x a). by rewrite IH. Qed.

Lemma join_text_app l k : join_text (l ++ k) = join_text l +:+ join_text k.
Proof. induction l as [|c l IH]; [done|]. cbn [app join_text]. by rewrite IH, append_assoc. Qed.

(** A text made of characters reads as these characters. *)
Definition is_char (c : string) : Prop := forall s, chars (c +:+ s) = c :: chars s.

Lemma chars_join l : Forall is_char l -> chars (join_text l) = l.
Proof. induction 1 as [|c l Hc _ IH]; [done|]. cbn [join_text]. by rewrite Hc, IH. Qed.

Lemma chars_app l s : Forall is_char l -> chars (join_text l +:+ s) = l ++ chars s.
Proof.
  induction 1 as [|c l Hc _ IH]; [done|]. cbn [app join_text]. by rewrite <-append_assoc, Hc, IH.
Qed.

Lemma ascii_is_char a : (code a < 0x80)%N -> is_char (String a EmptyString).
Proof. intros H s. unfold String.app; cbn [chars]. apply N.ltb_lt in H. by rewrite H. Qed.

(** A well-formed text is a list of characters, and nothing is lost. *)
Lemma chars_valid s : utf8_valid s = true -> Forall is_char (chars s) /\ join_text (chars s) = s.
Proof.
  remember (String.length s) as n eqn:En. revert s En.
  induction n as [n IH] using lt_wf_ind. intros s -> H.
  assert (forall t, (String.length t < String.length s)%nat -> utf8_valid t = true ->
            Forall is_char (chars t) /\ join_text (chars t) = t) as IHt by (intros t Ht; by apply (IH _ Ht t)).
  clear IH. destruct s as [|a s1]; [by split; [constructor|]|]. cbn in H |- *.
  destruct (code a <? 0x80)%N eqn:Ea.
  { destruct (IHt s1 ltac:(cbn; lia) H) as [H1 H2]. split; [|cbn [join_text]; by rewrite H2].
    constructor; [|done]. by apply ascii_is_char, N.ltb_lt. }
  destruct s1 as [|b s2]; [done|]. destruct (in_range 0xC2 0xDF a) eqn:Er.
  { apply andb_true_iff in H as [_ H]. destruct (IHt s2 ltac:(cbn; lia) H) as [H1 H2].
    split; [|cbn [join_text]; by rewrite H2]. constructor; [|done]. intros t. unfold String.app; cbn [chars]. by rewrite Ea, Er. }
  destruct s2 as [|c s3]; [done|]. destruct (in_range 0xE0 0xEF a) eqn:Er'.
  { apply andb_true_iff in H as [_ H]. destruct (IHt s3 ltac:(cbn; lia) H) as [H1 H2].
    split; [|cbn [join_text]; by rewrite H2]. constructor; [|done]. intros t. unfold String.app; cbn [chars]. by rewrite Ea, Er, Er'. }
  destruct s3 as [|d s4]; [done|]. apply andb_true_iff in H as [_ H].
  destruct (IHt s4 ltac:(cbn; lia) H) as [H1 H2].
  split; [|cbn [join_text]; by rewrite H2]. constructor; [|done]. intros t. unfold String.app; cbn [chars]. by rewrite Ea, Er, Er'.
Qed.

(** ** Lemmas: terminal sequences *)

Definition printable (c : string) : Prop := is_char c /\ displayable c = true.

Lemma strip_displayable state cs : Forall is_char cs -> Forall printable (strip_chars state cs).
Proof.
  intros H. revert state. induction H as [|c cs Hc _ IH]; intros state; [constructor|]. cbn.
  destruct (strip_next state c) as [state' push] eqn:E. destruct push; [|done]. constructor; [|done].
  split; [done|]. destruct state; cbn in E; repeat case_bool_decide; congruence.
Qed.

Lemma escape_hidden c : displayable c = true -> c <> escape.
Proof. by intros H ->. Qed.

(** A text that can be displayed is kept. *)
Lemma strip_printable cs : Forall printable cs -> strip_chars Strip.Text cs = cs.
Proof.
  induction 1 as [|c cs [_ Hc] _ IH]; [done|]. cbn.
  rewrite bool_decide_false by (by apply escape_hidden). by rewrite Hc, IH.
Qed.

Lemma strip_terminal_spec s : utf8_valid s = true ->
  chars (strip_terminal_sequences s) = strip_chars Strip.Text (chars s)
  /\ Forall printable (chars (strip_terminal_sequences s)).
Proof.
  intros [Hs _]%chars_valid. pose proof (strip_displayable Strip.Text _ Hs) as Hp.
  unfold strip_terminal_sequences. rewrite chars_join by (eapply Forall_impl; [exact Hp|]; by intros c []).
  done.
Qed.

(** ** Lemmas: segments *)

(** The segments of a text: each a word and the white space that ends it,
    the last one possibly without. *)
Fixpoint segmented (segments : list (list string)) : Prop :=
  match segments with
  | [] => True
  | segment :: segments =>
      (exists word w, segment = word ++ [w] /\ Forall (fun c => is_whitespace c = false) word
                      /\ is_whitespace w = true) /\ segmented segments
      \/ segment <> [] /\ Forall (fun c => is_whitespace c = false) segment /\ segments = []
  end.

Lemma split_segmented cs :
  segmented (split_inclusive is_whitespace cs) /\ concat (split_inclusive is_whitespace cs) = cs.
Proof.
  induction cs as [|c cs [IH1 IH2]]; [done|]. cbn. destruct (is_whitespace c) eqn:Ec; cbn.
  { split; [|by rewrite IH2]. left. split; [|done]. exists [], c. done. }
  destruct (split_inclusive is_whitespace cs) as [|segment segments] eqn:E; cbn in *.
  { subst. split; [|done]. right. by repeat constructor. }
  rewrite IH2. split; [|done]. destruct IH1 as [[(word & w & -> & Hw & Hww) H]|(Hn & H & ->)].
  - left. split; [|done]. exists (c :: word), w. split_and!; [done| |done]. by constructor.
  - right. split_and!; [done| |done]. by constructor.
Qed.

Lemma split_word word w cs :
  Forall (fun c => is_whitespace c = false) word -> is_whitespace w = true ->
  split_inclusive is_whitespace (word ++ w :: cs) = (word ++ [w]) :: split_inclusive is_whitespace cs.
Proof. intros H Hw. induction H as [|c word Hc _ IH]; cbn; [by rewrite Hw|by rewrite Hc, IH]. Qed.

Lemma split_last word :
  Forall (fun c => is_whitespace c = false) word -> word <> [] ->
  split_inclusive is_whitespace word = [word].
Proof.
  induction 1 as [|c word Hc H IH]; [done|]. intros _. cbn. rewrite Hc.
  destruct word as [|d word]; [done|]. by rewrite IH.
Qed.

Lemma split_concat segments : segmented segments -> split_inclusive is_whitespace (concat segments) = segments.
Proof.
  induction segments as [|segment segments IH]; [done|]. cbn.
  intros [[(word & w & -> & Hw & Hww) H]|(Hn & H & ->)].
  - rewrite <-(assoc app). cbn. by rewrite split_word, IH.
  - cbn. rewrite (right_id_L [] app). by apply split_last.
Qed.

Lemma trim_start_app p ws cs :
  Forall (fun c => p c = true) ws -> Forall (fun c => p c = false) cs ->
  trim_start_matches p (ws ++ cs) = cs.
Proof.
  intros Hws Hcs. induction Hws as [|c ws Hc _ IH]; cbn; [|by rewrite Hc].
  destruct Hcs as [|c cs Hc _]; [done|]. cbn. by rewrite Hc.
Qed.

Lemma trim_end_app p word ws :
  Forall (fun c => p c = false) word -> Forall (fun c => p c = true) ws ->
  trim_end_matches p (word ++ ws) = word.
Proof.
  intros Hword Hws. unfold trim_end_matches. rewrite reverse_app, trim_start_app.
  - apply reverse_involutive.
  - by rewrite Forall_reverse.
  - by rewrite Forall_reverse.
Qed.

(** ** Lemmas: redaction *)

(** What becomes of a word. *)
Definition redact_word (redact_next : bool) (word : list string) : list string * bool :=
  if redact_next then (redacted, false)
  else if bool_decide (to_ascii_lowercase (join_text word) = "bearer") then (word, true)
  else match before_equals word with
       | Some key => (if is_sensitive_key key then key ++ ["="] ++ redacted else word, false)
       | None => (word, looks_like_sensitive_label word)
       end.

Definition shown_word (word : list string) : Prop :=
  Forall printable word /\ Forall (fun c => is_whitespace c = false) word.

Lemma redact_segment_word b word ws :
  word <> [] -> Forall (fun c => is_whitespace c = false) word ->
  Forall (fun c => is_whitespace c = true) ws ->
  redact_segment b (word ++ ws) = ((redact_word b word).1 ++ ws, (redact_word b word).2).
Proof.
  intros Hn Hw Hws. unfold redact_segment, redact_word. rewrite trim_end_app, drop_app_length by done.
  destruct word as [|c word]; [done|]. destruct b; [done|]. case_bool_decide; [done|].
  by destruct (before_equals _).
Qed.

Lemma redact_segment_space b ws :
  Forall (fun c => is_whitespace c = true) ws -> redact_segment b ws = (ws, b).
Proof. intros H. unfold redact_segment. by rewrite (trim_end_app _ [] ws). Qed.

Lemma before_equals_Some word key :
  before_equals word = Some key <->
  exists rest, word = key ++ "=" :: rest /\ "=" ∉ key.
Proof.
  revert key. induction word as [|c word IH]; intros key; cbn.
  { split; [done|]. intros (rest & E & _). by destruct key. }
  case_bool_decide as Hc.
  - subst. split.
    + intros [= <-]. exists word. split; [done|]. apply not_elem_of_nil.
    + intros (rest & E & Hk). destruct key as [|d key]; [done|]. injection E as <- _.
      destruct Hk. left.
  - rewrite fmap_Some. split.
    + intros (k & (rest & -> & Hk)%IH & ->). exists rest. split; [done|].
      apply not_elem_of_cons. done.
    + intros (rest & E & Hk). destruct key as [|d key]; [by injection E|]. injection E as <- E.
      apply not_elem_of_cons in Hk. exists key. split; [|done]. apply IH. naive_solver.
Qed.

Lemma to_ascii_lowercase_length s : String.length (to_ascii_lowercase s) = String.length s.
Proof. induction s as [|a s IH]; [done|]. cbn. by rewrite IH. Qed.

Lemma string_length_app (a b : string) : String.length (a +:+ b) = (String.length a + String.length b)%nat.
Proof. induction a as [|c a IH]; [done|]. change (S (String.length (a +:+ b)) = S (String.length a + String.length b)). by rewrite IH. Qed.

Lemma long_is_not_bearer word :
  (6 < String.length (join_text word))%nat -> to_ascii_lowercase (join_text word) <> "bearer".
Proof. intros H E. pose proof (to_ascii_lowercase_length (join_text word)) as L. rewrite E in L. cbn in L. lia. Qed.

(** A closed ASCII text is a word. *)
Ltac shown_text :=
  split; [cbn; repeat (constructor; [split; [by apply ascii_is_char|done]|]); constructor
         |by repeat constructor].

Lemma redacted_shown : shown_word redacted.
Proof. unfold redacted. shown_text. Qed.

(** The output of a word is a word again, and is left alone by a second
    pass. *)
Lemma redact_word_shown b word :
  word <> [] -> shown_word word ->
  let o := (redact_word b word).1 in
  o <> [] /\ shown_word o /\ redact_word b o = redact_word b word.
Proof.
  intros Hn Hw o. unfold o, redact_word. clear o. destruct b; [split_and!; [done|apply redacted_shown|done]|].
  case_bool_decide as Hb; [cbn [fst]; by rewrite bool_decide_true|].
  destruct (before_equals word) as [key|] eqn:Ek; [|cbn [fst]; by rewrite bool_decide_false, Ek].
  destruct (is_sensitive_key key) eqn:Es; [|cbn [fst]; by rewrite bool_decide_false, Ek, Es].
  apply before_equals_Some in Ek as (rest & -> & Hk). cbn [fst].
  split; [by destruct key|]. split.
  - destruct Hw as [[Hp _]%Forall_app [Hs _]%Forall_app]. destruct redacted_shown as [Rp Rs].
    split; (apply Forall_app; split; [done|]); (apply Forall_app; split; [|done]); apply Forall_singleton;
      [split; [by apply ascii_is_char|done]|done].
  - rewrite bool_decide_false.
    2:{ apply long_is_not_bearer. rewrite !join_text_app, !string_length_app.
      change (String.length (join_text redacted)) with 10%nat. lia. }
    assert (before_equals (key ++ ["="] ++ redacted) = Some key) as ->; [|by rewrite Es].
    apply before_equals_Some. by exists redacted.
Qed.

(** A second pass over the segments finds nothing to do. *)
Lemma redact_segments_fixed b segments :
  segmented segments -> Forall printable (concat segments) ->
  let out := redact_segments b segments in
  segmented out /\ Forall printable (concat out) /\ redact_segments b out = out.
Proof.
  revert b. induction segments as [|segment segments IH]; intros b; [done|]. cbn.
  intros [[(word & w & -> & Hw & Hww) H]|(Hn & Hw & ->)] [Hp Hps]%Forall_app.
  - apply Forall_app in Hp as [Hp Hpw].
    assert (Forall (fun c => is_whitespace c = true) [w]) as Hws by (by apply Forall_singleton).
    destruct (decide (word = [])) as [->|Hne].
    + cbn [app]. rewrite redact_segment_space by done. specialize (IH b H Hps) as (I1 & I2 & I3). cbn.
      rewrite (redact_segment_space b [w]), I3 by done. split_and!; [|by constructor; [by apply Forall_singleton|]|done].
      left. split; [|done]. by exists [], w.
    + rewrite redact_segment_word by done. cbn.
      destruct (redact_word_shown b word Hne ltac:(done)) as (On & [Op Os] & Oe).
      destruct (IH (redact_word b word).2 H Hps) as (I1 & I2 & I3).
      rewrite redact_segment_word by done. rewrite Oe, I3. split_and!; [| |done].
      * left. split; [|done]. by exists (redact_word b word).1, w.
      * rewrite !Forall_app. done.
  - pose proof (redact_segment_word b segment [] Hn Hw ltac:(constructor)) as E.
    rewrite !(right_id_L [] app) in E. rewrite E. cbn.
    destruct (redact_word_shown b segment Hn ltac:(done)) as (On & [Op Os] & Oe).
    pose proof (redact_segment_word b _ [] On Os ltac:(constructor)) as E'.
    rewrite !(right_id_L [] app) in E'. rewrite E', Oe. cbn. split_and!; [|by rewrite (right_id_L [] app)|done].
    right. done.
Qed.

(** ** What is displayed *)

(** A text the policy lets through is displayable: it is made of
    characters none of which is a control character other than a line
    feed or a tab, so no terminal sequence survives.  And it is settled:
    applying the policy again, or stripping again, changes nothing. *)
Theorem sanitized_text_is_settled (s : string) (Hs : utf8_valid s = true) :
  let shown := sanitize_display_text s in
  Forall (fun c => is_char c /\ (is_control c = false \/ c = newline \/ c = tab)) (chars shown)
  /\ strip_terminal_sequences shown = shown
  /\ sanitize_display_text shown = shown.
Proof.
  cbn zeta. destruct (strip_terminal_spec s Hs) as [_ Hp].
  destruct (split_segmented (chars (strip_terminal_sequences s))) as [Hseg Hcat].
  rewrite <-Hcat in Hp. destruct (redact_segments_fixed false _ Hseg Hp) as (Sout & Pout & Fix_).
  unfold sanitize_display_text at 1 2 3 5 6. set (out := redact_segments _ _) in *. clearbody out.
  assert (Forall is_char (concat out)) as Hc by (eapply Forall_impl; [exact Pout|]; by intros c []).
  assert (strip_terminal_sequences (join_text (concat out)) = join_text (concat out)) as Hstrip.
  { unfold strip_terminal_sequences. by rewrite chars_join, strip_printable. }
  rewrite chars_join by done. split_and!; [|done|].
  - eapply Forall_impl; [exact Pout|]. intros c [H1 H2]. split; [done|]. unfold displayable in H2.
    destruct (is_control c); [|by left]. right. cbn in H2. repeat case_bool_decide; naive_solver.
  - unfold sanitize_display_text. by rewrite Hstrip, chars_join, split_concat, Fix_.
Qed.

(** A word of a secret: displayable, without white space and without an
    equals sign. *)
Definition secret_word (w : list string) : Prop :=
  Forall (fun c => is_char c /\ displayable c = true /\ is_whitespace c = false /\ c <> "=") w /\ w <> [].

Lemma secret_word_shown w : secret_word w -> shown_word w /\ before_equals w = None.
Proof.
  intros [H _]. split.
  - split; (eapply Forall_impl; [exact H|]); intros c (? & ? & ? & ?); [by split|done].
  - destruct (before_equals w) as [key|] eqn:E; [|done].
    apply before_equals_Some in E as (rest & -> & _). apply Forall_app in H as [_ H].
    apply Forall_cons in H as [(_ & _ & _ & []) _]. done.
Qed.

(** The text of one line of words separated by spaces. *)
Lemma sanitize_line (ws : list (list string)) (w : list string) :
  Forall (fun v => shown_word v /\ v <> []) ws -> shown_word w /\ w <> [] ->
  sanitize_display_text (join_text (concat ((.++ [" "]) <$> ws) ++ w))
  = join_text (concat (redact_segments false (((.++ [" "]) <$> ws) ++ [w]))).
Proof.
  intros Hws [[Hp Hs] Hn].
  assert (Forall printable (concat ((.++ [" "]) <$> ws) ++ w)) as Hprint.
  { apply Forall_app. split; [|done]. induction Hws as [|v ws [[Hv _] _] _ IH]; [constructor|]. cbn.
    rewrite !Forall_app. split_and!; [done| |done]. constructor; [|done].
    split; [by apply ascii_is_char|done]. }
  assert (Forall is_char (concat ((.++ [" "]) <$> ws) ++ w)) as Hc
    by (eapply Forall_impl; [exact Hprint|]; by intros c []).
  unfold sanitize_display_text, strip_terminal_sequences.
  rewrite (chars_join (concat _ ++ w)), strip_printable, chars_join by done.
  assert (split_inclusive is_whitespace (concat ((.++ [" "]) <$> ws) ++ w) = ((.++ [" "]) <$> ws) ++ [w]) as ->;
    [|done].
  clear -Hws Hs Hn. induction Hws as [|v ws [[_ Hv] _] _ IH]; cbn; [by apply split_last|].
  rewrite <-!(assoc app). cbn. by rewrite split_word, IH.
Qed.

Lemma redact_segments_cons b segment segments :
  redact_segments b (segment :: segments)
  = (redact_segment b segment).1 :: redact_segments (redact_segment b segment).2 segments.
Proof. cbn. by destruct (redact_segment b segment). Qed.

(** A credential after the scheme name is hidden, and so is one after a
    label, but not the credential of the usual header: the label takes the
    scheme name for the secret, redacts that, and shows the secret. *)
Theorem authorization_header_leaks (secret : list string) (Hsecret : secret_word secret) :
  let s := join_text secret in
  sanitize_display_text ("Bearer " +:+ s) = "Bearer [REDACTED]"
  /\ sanitize_display_text ("Authorization: " +:+ s) = "Authorization: [REDACTED]"
  /\ sanitize_display_text ("Authorization: Bearer " +:+ s) = "Authorization: [REDACTED] " +:+ s.
Proof.
  pose proof (secret_word_shown _ Hsecret) as [Hw He]. destruct Hsecret as [_ Hn]. cbn zeta.
  assert (shown_word (chars "Bearer")) as Hbearer by shown_text.
  assert (shown_word (chars "Authorization:")) as Hlabel by shown_text.
  assert (forall b, redact_segment b secret = redact_word b secret) as Hseg.
  { intros b. pose proof (redact_segment_word b secret [] Hn ltac:(apply Hw) ltac:(constructor)) as E.
    rewrite !(right_id_L [] app) in E. rewrite E. by destruct (redact_word b secret). }
  assert ((redact_word false secret).1 = secret) as Hkept.
  { unfold redact_word. rewrite He. by case_bool_decide. }
  pose proof (fun ws H => sanitize_line ws secret H (conj Hw Hn)) as E.
  setoid_rewrite join_text_app in E. split_and!.
  - etrans; [apply (E [chars "Bearer"] ltac:(by repeat constructor))|]. cbn [fmap list_fmap app].
    rewrite !redact_segments_cons.
    change (redact_segment false (chars "Bearer" ++ [" "])) with (chars "Bearer" ++ [" "], true).
    cbn [fst snd]. by rewrite Hseg.
  - etrans; [apply (E [chars "Authorization:"] ltac:(by repeat constructor))|]. cbn [fmap list_fmap app].
    rewrite !redact_segments_cons.
    change (redact_segment false (chars "Authorization:" ++ [" "])) with (chars "Authorization:" ++ [" "], true).
    cbn [fst snd]. by rewrite Hseg.
  - etrans; [apply (E [chars "Authorization:"; chars "Bearer"] ltac:(by repeat constructor))|].
    cbn [fmap list_fmap app]. rewrite !redact_segments_cons.
    change (redact_segment false (chars "Authorization:" ++ [" "])) with (chars "Authorization:" ++ [" "], true).
    cbn [fst snd].
    change (redact_segment true (chars "Bearer" ++ [" "])) with (redacted ++ [" "], false).
    cbn [fst snd]. rewrite Hseg, Hkept. cbn [redact_segments]. rewrite !concat_cons, !join_text_app. cbn [concat join_text].
    by rewrite (append_empty (join_text secret)).
Qed.

(** ** Witnesses *)

Lemma sanitized_text_is_settled_witness :
  utf8_valid (escape +:+ "[31mTOKEN=top" +:+ escape +:+ "[0m ok") = true
  /\ sanitize_display_text (sanitize_display_text (escape +:+ "[31mTOKEN=top" +:+ escape +:+ "[0m ok"))
     = "TOKEN=[REDACTED] ok".
Proof.
  split; [vm_compute; reflexivity|].
  destruct (sanitized_text_is_settled (escape +:+ "[31mTOKEN=top" +:+ escape +:+ "[0m ok")) as (_ & _ & E);
    [vm_compute; reflexivity|].
  rewrite E. vm_compute. reflexivity.
Defined.

Lemma authorization_header_leaks_witness :
  secret_word (chars "s3cr3t")
  /\ sanitize_display_text "Authorization: Bearer s3cr3t" = "Authorization: [REDACTED] s3cr3t".
Proof.
  assert (secret_word (chars "s3cr3t")) as H.
  { split; [|done]. cbn. repeat (constructor; [split_and!; [by apply ascii_is_char|done|done|done]|]). constructor. }
  split; [exact H|]. exact (proj2 (proj2 (authorization_header_leaks (chars "s3cr3t") H))).
Defined.
