(* ===== verification/WorkerJournal.v ===== *)
(** * The worker's durable journal

    [src/crates/alloyport-worker/src/journal.rs] and its SQLite adapter
    [adapters/sqlite/attempt_store/*.rs]: attempt lifecycle, outbox,
    device leases.  Each table is a finite map on its primary key; an
    operation is one immediate transaction, so it either returns the new
    journal or an error that leaves the journal as it was.  Values stored
    as JSON are compared as values: the serializer is a function of the
    value and loses nothing of these types.  The
    constraints of the schema that the statements rely on (primary keys,
    the reference of a delivery to its message with its cascade, the unique
    index of active leases) are written out in the operations.  Storage
    failures abort the transaction, so they only add steps that change
    nothing. *)

From stdpp Require Import base strings gmap list sorting numbers sets.
From S2P Require Import Prelude Digest Identity Vocabulary.

Local Open Scope N_scope.

(** [enum LocalAttemptPhase], [#[repr(i64)]]. *)
Inductive LocalAttemptPhase := PhaseAccepted | PhaseRunning | PhaseFinished.

#[export] Instance LocalAttemptPhase_eq_dec : EqDecision LocalAttemptPhase.
Proof. solve_decision. Defined.

(** [struct StoredFinished]. *)
Record StoredFinished := MkFinished {
  sf_outcome : AttemptOutcome;
  sf_exit_code : option Z;
  sf_elapsed_ms : N;
  sf_receipt : option ArtifactDescriptor;
  sf_stdout : option ArtifactDescriptor;
  sf_stderr : option ArtifactDescriptor;
  sf_detail : string;
}.

(** [enum WorkerOutboxPayload]. *)
Inductive WorkerOutboxPayload :=
| AssignmentAccepted (assignment_id : AssignmentId) (attempt_id : AttemptId) (already_known : bool)
| AssignmentRejected (assignment_id attempt_id : string) (reason : RejectionReason)
    (detail : string)
| ExecutionStarted (assignment_id : AssignmentId) (attempt_id : AttemptId)
| ExecutionFinished (assignment_id : AssignmentId) (attempt_id : AttemptId)
    (finished : StoredFinished)
| CancellationAcknowledged (assignment_id : AssignmentId) (attempt_id : AttemptId)
    (already_terminal : bool).

#[export] Instance StoredFinished_eq_dec : EqDecision StoredFinished.
Proof. solve_decision. Defined.
#[export] Instance WorkerOutboxPayload_eq_dec : EqDecision WorkerOutboxPayload.
Proof. solve_decision. Defined.

(** [struct WorkerOutboxMessage]. *)
Record WorkerOutboxMessage := MkMessage {
  om_message_id : string;
  om_attempt_id : string;
  om_payload : WorkerOutboxPayload;
}.

(** [struct LocalAttemptRecord]. *)
Record LocalAttemptRecord := MkLocalAttempt {
  la_assignment : AssignmentContract;
  la_phase : LocalAttemptPhase;
  la_admitted_at_ms : N;
  la_updated_at_ms : N;
  la_finished : option StoredFinished;
}.

Inductive StoreAdmissionOutcome := AdmissionInserted | AdmissionDuplicate.
Inductive StoreOutboxOutcome := OutboxInserted | OutboxDuplicate.
Inductive DeviceLeaseOutcome := LeaseAcquired | LeaseDuplicate.
Inductive DeviceReleaseOutcome := LeaseReleased | LeaseAlreadyReleased.
Inductive DevicePreflightOutcome := PreflightRecorded | PreflightDuplicate.

(** [enum AttemptStoreError]; the texts of [Corrupt] and the inner error
    of [Storage] are dropped. *)
Inductive AttemptStoreError :=
| Storage
| NotFound (attempt : string)
| ConflictingAttempt (attempt : string)
| InvalidTransition (from to : LocalAttemptPhase)
| ConflictingFinished (attempt : string)
| ConflictingOutboxMessage (message_id : string)
| WorkerIdentityMismatch (stored requested : string)
| DeviceAlreadyLeased (device_id attempt_id : string)
| ConflictingDeviceLease (attempt_id device_id : string)
| ConflictingDevicePreflight (attempt_id : string)
| Corrupt.

(** ** Tables *)

(** A row of [attempts]: the record and the assignment column. *)
Record AttemptRow := MkAttemptRow {
  row_assignment_id : string;
  row_record : LocalAttemptRecord;
}.

(** A row of [worker_outbox_messages]. *)
Record OutboxRow := MkOutboxRow {
  ob_attempt_id : string;
  ob_payload : WorkerOutboxPayload;
  ob_created_at_ms : N;
}.

(** A row of [worker_outbox_deliveries], keyed by connection and sequence. *)
Record DeliveryRow := MkDelivery {
  dl_message_id : string;
  dl_delivered_at_ms : N;
}.

(** A row of [device_leases]. *)
Record LeaseRow := MkLeaseRow {
  lr_device_id : string;
  lr_acquired_at_ms : N;
  lr_released_at_ms : option N;
}.

Record Journal := MkJournal {
  j_worker_id : option string;
  j_attempts : gmap string AttemptRow;
  j_outbox : gmap string OutboxRow;
  j_deliveries : gmap (string * N) DeliveryRow;
  j_leases : gmap string LeaseRow;
  j_preflights : gmap string DeviceObservation;
}.

(** The journal after [SCHEMA]. *)
Definition journal_empty : Journal := MkJournal None ∅ ∅ ∅ ∅ ∅.

Definition set_attempts (j : Journal) t :=
  MkJournal (j_worker_id j) t (j_outbox j) (j_deliveries j) (j_leases j) (j_preflights j).
Definition set_outbox (j : Journal) t :=
  MkJournal (j_worker_id j) (j_attempts j) t (j_deliveries j) (j_leases j) (j_preflights j).
Definition set_deliveries (j : Journal) t :=
  MkJournal (j_worker_id j) (j_attempts j) (j_outbox j) t (j_leases j) (j_preflights j).
Definition set_leases (j : Journal) t :=
  MkJournal (j_worker_id j) (j_attempts j) (j_outbox j) (j_deliveries j) t (j_preflights j).
Definition set_preflights (j : Journal) t :=
  MkJournal (j_worker_id j) (j_attempts j) (j_outbox j) (j_deliveries j) (j_leases j) t.

(** A transaction that returns an outcome. *)
Definition Txn (A : Type) : Type := Journal -> result AttemptStoreError (A * Journal).

(** [to_i64]. *)
Definition to_i64 (value : N) : result AttemptStoreError N :=
  if value <=? i64_max then Ok value else Err Corrupt.

(** ** Outbox *)

(** The payloads are admissions of the same attempt. *)
Definition compatible_admission (left right : WorkerOutboxPayload) : bool :=
  match left, right with
  | AssignmentAccepted la lt _, AssignmentAccepted ra rt _ => bool_decide (la = ra /\ lt = rt)
  | _, _ => false
  end.

(** [enqueue_outbox_transaction]. *)
Definition enqueue_outbox (message : WorkerOutboxMessage) (at_ms : N) : Txn StoreOutboxOutcome :=
  fun j =>
  match j_outbox j !! om_message_id message with
  | Some existing =>
      let compatible := bool_decide (ob_attempt_id existing = om_attempt_id message)
        && compatible_admission (ob_payload existing) (om_payload message) in
      if negb (bool_decide (ob_payload existing = om_payload message)) && negb compatible
      then Err (ConflictingOutboxMessage (om_message_id message))
      else Ok (OutboxDuplicate, j)
  | None =>
      created ← to_i64 at_ms;
      Ok (OutboxInserted, set_outbox j
        (<[om_message_id message := MkOutboxRow (om_attempt_id message) (om_payload message) created]>
           (j_outbox j)))
  end.

(** [ORDER BY created_at_ms, message_id], in the binary collation. *)
Definition outbox_before (a b : string * OutboxRow) : Prop :=
  ob_created_at_ms a.2 < ob_created_at_ms b.2
  \/ (ob_created_at_ms a.2 = ob_created_at_ms b.2 /\ String.le a.1 b.1).
#[export] Instance outbox_before_dec : RelDecision outbox_before.
Proof. intros a b. unfold outbox_before. apply _. Defined.

(** [pending_outbox]. *)
Definition pending_outbox (j : Journal) : list WorkerOutboxMessage :=
  (fun '(id, row) => MkMessage id (ob_attempt_id row) (ob_payload row))
  <$> merge_sort outbox_before (map_to_list (j_outbox j)).

(** [record_outbox_delivery]: the primary key and the reference to the
    message are checked by the database. *)
Definition record_outbox_delivery (connection_id : string) (sequence : N) (message_id : string)
    (at_ms : N) : Txn unit := fun j =>
  sequence ← to_i64 sequence;
  at_ms ← to_i64 at_ms;
  match j_deliveries j !! (connection_id, sequence), j_outbox j !! message_id with
  | None, Some _ => Ok (tt, set_deliveries j
      (<[(connection_id, sequence) := MkDelivery message_id at_ms]> (j_deliveries j)))
  | _, _ => Err Storage
  end.

(** [DELETE FROM worker_outbox_messages WHERE message_id = ?1], with the
    cascade to the deliveries; the number of rows deleted. *)
Definition delete_message (message_id : string) (j : Journal) : nat * Journal :=
  match j_outbox j !! message_id with
  | None => (0%nat, j)
  | Some _ => (1%nat, set_deliveries
      (set_outbox j (delete message_id (j_outbox j)))
      (filter (fun kd => dl_message_id kd.2 <> message_id) (j_deliveries j)))
  end.

(** The loop of [acknowledge_outbox]. *)
Fixpoint delete_messages (ids : list string) (deleted : nat) (j : Journal) : nat * Journal :=
  match ids with
  | [] => (deleted, j)
  | id :: ids => let '(n, j) := delete_message id j in delete_messages ids (deleted + n) j
  end.

(** The messages delivered on the connection up to the acknowledgement. *)
Definition delivered_through (connection_id : string) (through : N) (j : Journal) : list string :=
  (fun kd => dl_message_id kd.2)
  <$> filter (fun kd => kd.1.1 = connection_id /\ kd.1.2 <= through) (map_to_list (j_deliveries j)).

(** [acknowledge_outbox]. *)
Definition acknowledge_outbox (connection_id : string) (acknowledged_through : N) : Txn nat :=
  fun j =>
  through ← to_i64 acknowledged_through;
  Ok (delete_messages (delivered_through connection_id through j) 0 j).

(** [prune_outbox_deliveries]. *)
Definition prune_outbox_deliveries (older_than_ms : N) : Txn nat := fun j =>
  older ← to_i64 older_than_ms;
  let kept := filter (fun kd => ~ dl_delivered_at_ms kd.2 < older) (j_deliveries j) in
  Ok ((size (j_deliveries j) - size kept)%nat, set_deliveries j kept).

(** [outbox_len]. *)
Definition outbox_len (j : Journal) : nat := size (j_outbox j).

(** ** Lifecycle *)

(** [bind_worker]. *)
Definition bind_worker (worker_id : string) : Txn unit := fun j =>
  match j_worker_id j with
  | Some stored =>
      guard_err (negb (bool_decide (stored = worker_id))) (WorkerIdentityMismatch stored worker_id) ;;
      Ok (tt, j)
  | None =>
      Ok (tt, MkJournal (Some worker_id) (j_attempts j) (j_outbox j) (j_deliveries j) (j_leases j)
        (j_preflights j))
  end.

(** [admit]. *)
Definition journal_admit (assignment : AssignmentContract) (admitted_at_ms : N) :
    Txn StoreAdmissionOutcome := fun j =>
  let key := as_str (ac_attempt_id assignment) in
  x ← (match j_attempts j !! key with
       | Some existing =>
           guard_err (negb (bool_decide (la_assignment (row_record existing) = assignment)))
             (ConflictingAttempt key) ;;
           Ok (AdmissionDuplicate, j)
       | None =>
           at_ms ← to_i64 admitted_at_ms;
           Ok (AdmissionInserted, set_attempts j
             (<[key := MkAttemptRow (as_str (ac_assignment_id assignment))
                 (MkLocalAttempt assignment PhaseAccepted at_ms at_ms None)]> (j_attempts j)))
       end);
  let '(outcome, j1) := x in
  y ← enqueue_outbox (MkMessage ("assignment-accepted:" +:+ key) key
        (AssignmentAccepted (ac_assignment_id assignment) (ac_attempt_id assignment)
           (match outcome with AdmissionDuplicate => true | AdmissionInserted => false end)))
        admitted_at_ms j1;
  Ok (outcome, y.2).

(** [attempt]. *)
Definition journal_attempt (attempt_id : string) (j : Journal) : option LocalAttemptRecord :=
  row_record <$> j_attempts j !! attempt_id.

(** [ORDER BY admitted_at_ms, attempt_id]. *)
Definition attempt_before (a b : string * AttemptRow) : Prop :=
  la_admitted_at_ms (row_record a.2) < la_admitted_at_ms (row_record b.2)
  \/ (la_admitted_at_ms (row_record a.2) = la_admitted_at_ms (row_record b.2)
      /\ String.le a.1 b.1).
#[export] Instance attempt_before_dec : RelDecision attempt_before.
Proof. intros a b. unfold attempt_before. apply _. Defined.

(** [attempts]. *)
Definition journal_attempts (j : Journal) : list LocalAttemptRecord :=
  (fun kr => row_record kr.2) <$> merge_sort attempt_before (map_to_list (j_attempts j)).

(** [phase]. *)
Definition row_of (attempt_id : string) (j : Journal) : result AttemptStoreError AttemptRow :=
  ok_or (j_attempts j !! attempt_id) (NotFound attempt_id).

(** [durable_identity]. *)
Definition durable_identity (attempt_id : string) (j : Journal) :
    result AttemptStoreError (AssignmentId * AttemptId) :=
  row ← ok_or (j_attempts j !! attempt_id) Storage;
  assignment ← map_err (fun _ => Corrupt) (parse_id KAssignment (row_assignment_id row));
  attempt ← map_err (fun _ => Corrupt) (parse_id KAttempt attempt_id);
  Ok (assignment, attempt).

(** [UPDATE attempts SET phase, updated_at_ms, finished_json] of one row. *)
Definition update_attempt (attempt_id : string) (row : AttemptRow) (phase : LocalAttemptPhase)
    (at_ms : N) (finished : option StoredFinished) (j : Journal) : Journal :=
  let r := row_record row in
  set_attempts j (<[attempt_id := MkAttemptRow (row_assignment_id row)
    (MkLocalAttempt (la_assignment r) phase (la_admitted_at_ms r) at_ms finished)]> (j_attempts j)).

(** [mark_running]. *)
Definition mark_running (attempt_id : string) (at_ms : N) : Txn unit := fun j =>
  row ← row_of attempt_id j;
  j1 ← (match la_phase (row_record row) with
        | PhaseAccepted =>
            t ← to_i64 at_ms;
            Ok (update_attempt attempt_id row PhaseRunning t (la_finished (row_record row)) j)
        | PhaseRunning => Ok j
        | PhaseFinished => Err (InvalidTransition PhaseFinished PhaseRunning)
        end);
  ids ← durable_identity attempt_id j1;
  y ← enqueue_outbox (MkMessage ("execution-started:" +:+ attempt_id) attempt_id
        (ExecutionStarted ids.1 ids.2)) at_ms j1;
  Ok (tt, y.2).

(** [mark_finished]. *)
Definition mark_finished (attempt_id : string) (finished : StoredFinished) (at_ms : N) : Txn unit :=
  fun j =>
  row ← row_of attempt_id j;
  j1 ← (match la_phase (row_record row) with
        | PhaseFinished =>
            match la_finished (row_record row) with
            | Some existing =>
                guard_err (negb (bool_decide (existing = finished))) (ConflictingFinished attempt_id) ;;
                Ok j
            | None => Err Storage
            end
        | _ =>
            t ← to_i64 at_ms;
            Ok (update_attempt attempt_id row PhaseFinished t (Some finished) j)
        end);
  ids ← durable_identity attempt_id j1;
  y ← enqueue_outbox (MkMessage ("execution-finished:" +:+ attempt_id) attempt_id
        (ExecutionFinished ids.1 ids.2 finished)) at_ms j1;
  Ok (tt, y.2).

(** [lifecycle_identity] of [wire_mapping.rs]. *)
Definition lifecycle_identity (payload : WorkerOutboxPayload) : string * string :=
  let '(kind, attempt_id) :=
    match payload with
    | AssignmentAccepted _ attempt_id _ => ("assignment-accepted", as_str attempt_id)
    | AssignmentRejected _ attempt_id _ _ => ("assignment-rejected", attempt_id)
    | ExecutionStarted _ attempt_id => ("execution-started", as_str attempt_id)
    | ExecutionFinished _ attempt_id _ => ("execution-finished", as_str attempt_id)
    | CancellationAcknowledged _ attempt_id _ => ("cancellation-acknowledged", as_str attempt_id)
    end in
  (kind +:+ ":" +:+ attempt_id, attempt_id).

(** [WorkerState::enqueue_lifecycle]. *)
Definition enqueue_lifecycle (payload : WorkerOutboxPayload) (at_ms : N) : Txn string := fun j =>
  let '(message_id, attempt_id) := lifecycle_identity payload in
  y ← enqueue_outbox (MkMessage message_id attempt_id payload) at_ms j;
  Ok (message_id, y.2).

(** The journal part of [OutboundWorker::handle_cancel], up to
    [already_terminal]: [None] is the protocol error for an unknown
    attempt. *)
Definition acknowledge_cancel (attempt_id : string) (at_ms : N) (j : Journal) :
    option (result AttemptStoreError (bool * Journal)) :=
  attempt ← journal_attempt attempt_id j;
  let already_terminal := bool_decide (la_phase attempt = PhaseFinished) in
  Some (y ← enqueue_lifecycle (CancellationAcknowledged (ac_assignment_id (la_assignment attempt))
             (ac_attempt_id (la_assignment attempt)) already_terminal) at_ms j;
        Ok (already_terminal, y.2)).

(** ** Device leases *)

(** The attempt that holds the device now: at most one, by the unique
    index [active_device_lease]. *)
Definition active_owner (device_id : string) (j : Journal) : option string :=
  fst <$> head (filter (fun kl => lr_device_id kl.2 = device_id /\ lr_released_at_ms kl.2 = None)
    (map_to_list (j_leases j))).

(** [acquire_device_lease]. *)
Definition acquire_device_lease (attempt_id : AttemptId) (device_id : string) (at_ms : N) :
    Txn DeviceLeaseOutcome := fun j =>
  let key := as_str attempt_id in
  guard_err (trim_is_empty device_id) (ConflictingDeviceLease key device_id) ;;
  row ← row_of key j;
  guard_err (bool_decide (la_phase (row_record row) = PhaseFinished))
    (InvalidTransition PhaseFinished PhaseRunning) ;;
  let claim :=
    match active_owner device_id j with
    | Some owner => Err (DeviceAlreadyLeased device_id owner)
    | None =>
        t ← to_i64 at_ms;
        Ok (LeaseAcquired, set_leases j (<[key := MkLeaseRow device_id t None]> (j_leases j)))
    end in
  match j_leases j !! key with
  | Some existing =>
      if bool_decide (lr_device_id existing = device_id)
         && bool_decide (lr_released_at_ms existing = None)
      then Ok (LeaseDuplicate, j)
      else if negb (bool_decide (lr_device_id existing = device_id))
      then Err (ConflictingDeviceLease key (lr_device_id existing))
      else claim
  | None => claim
  end.

(** [release_device_lease]. *)
Definition release_device_lease (attempt_id : AttemptId) (at_ms : N) : Txn DeviceReleaseOutcome :=
  fun j =>
  let key := as_str attempt_id in
  lease ← ok_or (j_leases j !! key) (NotFound key);
  match lr_released_at_ms lease with
  | Some _ => Ok (LeaseAlreadyReleased, j)
  | None =>
      t ← to_i64 at_ms;
      Ok (LeaseReleased, set_leases j
        (<[key := MkLeaseRow (lr_device_id lease) (lr_acquired_at_ms lease) (Some t)]> (j_leases j)))
  end.

(** [ORDER BY device_id, attempt_id]. *)
Definition lease_before (a b : string * LeaseRow) : Prop :=
  (lr_device_id a.2 <> lr_device_id b.2 /\ String.le (lr_device_id a.2) (lr_device_id b.2))
  \/ (lr_device_id a.2 = lr_device_id b.2 /\ String.le a.1 b.1).
#[export] Instance lease_before_dec : RelDecision lease_before.
Proof. intros a b. unfold lease_before. apply _. Defined.

(** [active_device_leases]. *)
Definition active_device_leases (j : Journal) : result AttemptStoreError (list DeviceLease) :=
  mapM (fun kl : string * LeaseRow =>
    attempt ← map_err (fun _ => Corrupt) (parse_id KAttempt kl.1);
    Ok (MkLease attempt (lr_device_id kl.2) (lr_acquired_at_ms kl.2)))
  (merge_sort lease_before
    (filter (fun kl => lr_released_at_ms kl.2 = None) (map_to_list (j_leases j)))).

(** [record_device_preflight]. *)
Definition record_device_preflight (attempt_id : AttemptId) (observation : DeviceObservation) :
    Txn DevicePreflightOutcome := fun j =>
  let key := as_str attempt_id in
  match j_preflights j !! key with
  | Some existing =>
      if bool_decide (existing = observation) then Ok (PreflightDuplicate, j)
      else Err (ConflictingDevicePreflight key)
  | None =>
      match j_attempts j !! key, j_leases j !! key with
      | Some row, Some (MkLeaseRow leased_device _ None) =>
          let phase := la_phase (row_record row) in
          guard_err (negb (bool_decide (phase = PhaseAccepted))) (InvalidTransition phase PhaseRunning) ;;
          guard_err (negb (bool_decide (leased_device = obs_device_id observation)))
            (ConflictingDeviceLease key leased_device) ;;
          Ok (PreflightRecorded, set_preflights j (<[key := observation]> (j_preflights j)))
      | _, _ => Err (NotFound key)
      end
  end.

(** [device_preflight]. *)
Definition device_preflight (attempt_id : AttemptId) (j : Journal) : option DeviceObservation :=
  j_preflights j !! as_str attempt_id.

(** ** Operations as steps *)

(** The calls the worker makes.  [enqueue_lifecycle] is only called for
    rejections and cancellations. *)
Inductive JournalOp :=
| OpBind (worker_id : string)
| OpAdmit (assignment : AssignmentContract) (at_ms : N)
| OpRunning (attempt_id : string) (at_ms : N)
| OpFinished (attempt_id : string) (finished : StoredFinished) (at_ms : N)
| OpReject (assignment_id attempt_id : string) (reason : RejectionReason) (detail : string) (at_ms : N)
| OpCancel (attempt_id : string) (at_ms : N)
| OpDeliver (connection_id : string) (sequence : N) (message_id : string) (at_ms : N)
| OpAcknowledge (connection_id : string) (through : N)
| OpPrune (older_than_ms : N)
| OpAcquire (attempt_id : AttemptId) (device_id : string) (at_ms : N)
| OpRelease (attempt_id : AttemptId) (at_ms : N)
| OpPreflight (attempt_id : AttemptId) (observation : DeviceObservation).

(** A failed transaction rolls back. *)
Definition settle {A} (j : Journal) (r : result AttemptStoreError (A * Journal)) : Journal :=
  match r with Ok (_, j') => j' | Err _ => j end.

Definition run_op (op : JournalOp) (j : Journal) : Journal :=
  match op with
  | OpBind w => settle j (bind_worker w j)
  | OpAdmit a t => settle j (journal_admit a t j)
  | OpRunning id t => settle j (mark_running id t j)
  | OpFinished id f t => settle j (mark_finished id f t j)
  | OpReject a t r d ms => settle j (enqueue_lifecycle (AssignmentRejected a t r d) ms j)
  | OpCancel id t => match acknowledge_cancel id t j with Some r => settle j r | None => j end
  | OpDeliver c s m t => settle j (record_outbox_delivery c s m t j)
  | OpAcknowledge c n => settle j (acknowledge_outbox c n j)
  | OpPrune t => settle j (prune_outbox_deliveries t j)
  | OpAcquire a d t => settle j (acquire_device_lease a d t j)
  | OpRelease a t => settle j (release_device_lease a t j)
  | OpPreflight a o => settle j (record_device_preflight a o j)
  end.

Definition run_ops (ops : list JournalOp) (j : Journal) : Journal :=
  foldl (fun j op => run_op op j) j ops.

(** ** Invariant *)

(** A row of [attempts] under its key. *)
Definition row_ok (key : string) (row : AttemptRow) : Prop :=
  let r := row_record row in
  key = as_str (ac_attempt_id (la_assignment r))
  /\ row_assignment_id row = as_str (ac_assignment_id (la_assignment r))
  /\ (la_phase r = PhaseFinished <-> is_Some (la_finished r)).

(** The attempt of that identity and assignment, with a property. *)
Definition recorded (attempts : gmap string AttemptRow) (a : AssignmentId) (t : AttemptId)
    (P : LocalAttemptRecord -> Prop) : Prop :=
  exists row, attempts !! as_str t = Some row
    /\ ac_assignment_id (la_assignment (row_record row)) = a /\ P (row_record row).

(** What a lifecycle message asserts is in the journal. *)
Definition truthful (attempts : gmap string AttemptRow) (payload : WorkerOutboxPayload) : Prop :=
  match payload with
  | AssignmentAccepted a t _ => recorded attempts a t (fun _ => True)
  | AssignmentRejected _ _ _ _ => True
  | ExecutionStarted a t => recorded attempts a t (fun r => la_phase r <> PhaseAccepted)
  | ExecutionFinished a t f => recorded attempts a t (fun r => la_finished r = Some f)
  | CancellationAcknowledged a t b =>
      recorded attempts a t (fun r => b = true -> la_phase r = PhaseFinished)
  end.

Record JInv (j : Journal) : Prop := {
  ji_attempts : forall key row, j_attempts j !! key = Some row -> row_ok key row;
  ji_identity : forall id row, j_outbox j !! id = Some row ->
    lifecycle_identity (ob_payload row) = (id, ob_attempt_id row);
  ji_truth : forall id row, j_outbox j !! id = Some row ->
    truthful (j_attempts j) (ob_payload row);
  ji_deliveries : forall k d, j_deliveries j !! k = Some d ->
    is_Some (j_outbox j !! dl_message_id d);
  ji_lease_attempt : forall key l, j_leases j !! key = Some l -> is_Some (j_attempts j !! key);
  ji_exclusive : forall k1 k2 l1 l2, j_leases j !! k1 = Some l1 -> j_leases j !! k2 = Some l2 ->
    lr_device_id l1 = lr_device_id l2 -> lr_released_at_ms l1 = None ->
    lr_released_at_ms l2 = None -> k1 = k2;
  ji_preflight : forall key o, j_preflights j !! key = Some o ->
    exists l, j_leases j !! key = Some l /\ lr_device_id l = obs_device_id o;
}.

(** A later version of an attempt row: the phase only advances and a
    result once recorded stays. *)
Definition phase_code (p : LocalAttemptPhase) : N :=
  match p with PhaseAccepted => 1 | PhaseRunning => 2 | PhaseFinished => 3 end.

Definition row_later (r r' : AttemptRow) : Prop :=
  row_assignment_id r' = row_assignment_id r
  /\ la_assignment (row_record r') = la_assignment (row_record r)
  /\ la_admitted_at_ms (row_record r') = la_admitted_at_ms (row_record r)
  /\ phase_code (la_phase (row_record r)) <= phase_code (la_phase (row_record r'))
  /\ forall f, la_finished (row_record r) = Some f -> la_finished (row_record r') = Some f.

Definition attempts_later (a b : gmap string AttemptRow) : Prop :=
  forall key r, a !! key = Some r -> exists r', b !! key = Some r' /\ row_later r r'.

(** What a journal never forgets. *)
Record journal_later (j j' : Journal) : Prop := {
  jl_worker : forall w, j_worker_id j = Some w -> j_worker_id j' = Some w;
  jl_attempts : attempts_later (j_attempts j) (j_attempts j');
  jl_leases : forall key l, j_leases j !! key = Some l ->
    exists l', j_leases j' !! key = Some l' /\ lr_device_id l' = lr_device_id l;
  jl_preflights : forall key o, j_preflights j !! key = Some o -> j_preflights j' !! key = Some o;
}.

#[export] Instance row_later_preorder : PreOrder row_later.
Proof.
  split; [intros r; split_and!; auto; lia|].
  intros a b c (?&?&?&?&?) (?&?&?&?&?). split_and!; try congruence; [lia|auto].
Qed.

#[export] Instance attempts_later_preorder : PreOrder attempts_later.
Proof.
  split; [intros a key r ?; by exists r|].
  intros a b c Hab Hbc key r (r1 & (r2 & ? & ?)%Hbc & ?)%Hab. exists r2. split; [done|by etrans].
Qed.

#[export] Instance journal_later_preorder : PreOrder journal_later.
Proof.
  split.
  - intros j. split; [done|done|by eauto|done].
  - intros a b c [Hw Ha Hl Hp] [Hw' Ha' Hl' Hp']. split.
    + auto.
    + by etrans.
    + intros key l (l1 & (l2 & ? & E)%Hl' & E')%Hl. exists l2. split; [done|congruence].
    + auto.
Qed.

Lemma attempts_later_insert attempts key row row' :
  attempts !! key = Some row -> row_later row row' ->
  attempts_later attempts (<[key := row']> attempts).
Proof.
  intros Hk Hr k r Hkr. destruct (decide (k = key)) as [->|Hne].
  - rewrite lookup_insert_eq. simplify_eq. eauto.
  - rewrite lookup_insert_ne by done. exists r. split; [done|reflexivity].
Qed.

Lemma attempts_later_new attempts key row :
  attempts !! key = None -> attempts_later attempts (<[key := row]> attempts).
Proof.
  intros Hk k r Hkr. rewrite lookup_insert_ne by congruence. exists r. split; [done|reflexivity].
Qed.

Lemma recorded_later a b s t (P Q : LocalAttemptRecord -> Prop) :
  attempts_later a b -> (forall r r', row_later r r' -> P (row_record r) -> Q (row_record r')) ->
  recorded a s t P -> recorded b s t Q.
Proof.
  intros Hab HPQ (row & (row' & Hr' & Hlater)%Hab & <- & Hp). exists row'.
  split_and!; [done| |by eapply HPQ]. destruct Hlater as (_ & E & _). by rewrite E.
Qed.

Lemma truthful_later a b payload : attempts_later a b -> truthful a payload -> truthful b payload.
Proof.
  intros Hab. destruct payload; cbn [truthful]; try done;
    apply recorded_later; try done; intros r r' (_ & _ & _ & Hphase & Hfin); [|by auto|].
  - intros Hp E. rewrite E in Hphase. by destruct (la_phase (row_record r)).
  - intros Hp Hb%Hp. rewrite Hb in Hphase. by destruct (la_phase (row_record r')).
Qed.

(** ** Table lemmas *)

Lemma to_i64_Ok t x : to_i64 t = Ok x <-> t <= i64_max /\ x = t.
Proof. unfold to_i64. destruct (N.leb_spec t i64_max); naive_solver lia. Qed.

Lemma enqueue_outbox_Ok m t j o j' :
  enqueue_outbox m t j = Ok (o, j') ->
  (exists row, j_outbox j !! om_message_id m = Some row /\ j' = j /\ o = OutboxDuplicate
     /\ (ob_payload row = om_payload m
         \/ (ob_attempt_id row = om_attempt_id m
             /\ compatible_admission (ob_payload row) (om_payload m) = true)))
  \/ (j_outbox j !! om_message_id m = None /\ t <= i64_max /\ o = OutboxInserted
      /\ j' = set_outbox j (<[om_message_id m := MkOutboxRow (om_attempt_id m) (om_payload m) t]>
                              (j_outbox j))).
Proof.
  unfold enqueue_outbox. destruct (j_outbox j !! om_message_id m) as [row|].
  - left. exists row. destruct (decide (ob_payload row = om_payload m)) as [Hp|Hp].
    + rewrite (bool_decide_true (_ = om_payload m)) in H by done. cbn in H. naive_solver.
    + rewrite (bool_decide_false (_ = om_payload m)) in H by done. cbn in H.
      destruct (_ && _) eqn:E; cbn in H; [|done]. apply andb_true_iff in E as [E%bool_decide_eq_true ?].
      naive_solver.
  - intros (c & Hc%to_i64_Ok & [= <- <-])%result_bind_Ok. right. naive_solver.
Qed.

(** Enqueueing a truthful message of its own identity. *)
Lemma JInv_enqueue m t j o j' :
  JInv j -> lifecycle_identity (om_payload m) = (om_message_id m, om_attempt_id m) ->
  truthful (j_attempts j) (om_payload m) ->
  enqueue_outbox m t j = Ok (o, j') -> JInv j'.
Proof.
  intros Hi Hid Ht [(row & Hr & -> & _)|(Hn & _ & _ & ->)]%enqueue_outbox_Ok; [done|].
  destruct Hi. split; cbn; try done.
  - intros id row [[<- <-]|[? ?]]%lookup_insert_Some; [done|eauto].
  - intros id row [[<- <-]|[? ?]]%lookup_insert_Some; [done|eauto].
  - intros k d Hd%ji_deliveries0. destruct (decide (dl_message_id d = om_message_id m)) as [->|?].
    + rewrite lookup_insert_eq. eauto.
    + by rewrite lookup_insert_ne.
Qed.

(** Growing the attempts. *)
Lemma JInv_attempts j attempts :
  JInv j -> attempts_later (j_attempts j) attempts ->
  (forall key row, attempts !! key = Some row -> row_ok key row) ->
  JInv (set_attempts j attempts).
Proof.
  intros [] Hl Hok. split; cbn; try done.
  - intros id row Hr. by eapply truthful_later, ji_truth0.
  - intros key l (row & (r' & Hr' & _)%Hl)%ji_lease_attempt0. eauto.
Qed.

Lemma enqueue_outbox_later m t j o j' : enqueue_outbox m t j = Ok (o, j') ->
  j_attempts j' = j_attempts j /\ journal_later j j'.
Proof.
  intros [(row & _ & -> & _)|(_ & _ & _ & ->)]%enqueue_outbox_Ok; [by split|].
  split; [done|]. split; cbn; [done|reflexivity|by eauto|done].
Qed.

Lemma set_attempts_later j attempts :
  attempts_later (j_attempts j) attempts -> journal_later j (set_attempts j attempts).
Proof. intros H. split; cbn; [done|done|by eauto|done]. Qed.

(** The row [update_attempt] writes. *)
Lemma update_attempt_later key row phase t finished j :
  j_attempts j !! key = Some row ->
  phase_code (la_phase (row_record row)) <= phase_code phase ->
  (forall f, la_finished (row_record row) = Some f -> finished = Some f) ->
  attempts_later (j_attempts j) (j_attempts (update_attempt key row phase t finished j)).
Proof. intros Hk Hp Hf. eapply attempts_later_insert; [done|]. by split_and!. Qed.

Lemma update_attempt_JInv key row phase t finished j :
  JInv j -> j_attempts j !! key = Some row ->
  phase_code (la_phase (row_record row)) <= phase_code phase ->
  (forall f, la_finished (row_record row) = Some f -> finished = Some f) ->
  (phase = PhaseFinished <-> is_Some finished) ->
  JInv (update_attempt key row phase t finished j).
Proof.
  intros Hi Hk Hp Hf Hs. apply JInv_attempts; [done|by apply (update_attempt_later key row phase t finished j)|].
  intros k r [[<- <-]|[? Hr]]%lookup_insert_Some; [|by apply (ji_attempts j Hi)].
  destruct (ji_attempts j Hi _ _ Hk) as (? & ? & _). by split_and!.
Qed.

Lemma durable_identity_Ok key j a t :
  durable_identity key j = Ok (a, t) <->
  exists row, j_attempts j !! key = Some row /\ row_assignment_id row = as_str a /\ key = as_str t.
Proof.
  unfold durable_identity. rewrite result_bind_Ok. setoid_rewrite result_bind_Ok.
  setoid_rewrite result_bind_Ok. setoid_rewrite ok_or_Ok. setoid_rewrite map_err_Ok.
  setoid_rewrite parse_id_Ok. naive_solver.
Qed.

(** In a journal that satisfies the invariant every attempt has its
    identity. *)
Lemma durable_identity_total key row j :
  JInv j -> j_attempts j !! key = Some row ->
  durable_identity key j = Ok (ac_assignment_id (la_assignment (row_record row)),
                               ac_attempt_id (la_assignment (row_record row))).
Proof.
  intros Hi Hk. apply durable_identity_Ok. destruct (ji_attempts j Hi _ _ Hk) as (? & ? & _). eauto.
Qed.

(** ** Lifecycle operations *)

(** After a message was enqueued it is pending, itself or as the first
    admission notice of the same attempt. *)
Definition pending (m : WorkerOutboxMessage) (j : Journal) : Prop :=
  exists row, j_outbox j !! om_message_id m = Some row
    /\ (ob_payload row = om_payload m
        \/ (ob_attempt_id row = om_attempt_id m
            /\ compatible_admission (ob_payload row) (om_payload m) = true)).

Lemma enqueue_pending m t j o j' : enqueue_outbox m t j = Ok (o, j') -> pending m j'.
Proof.
  intros [(row & Hr & -> & _ & Hp)|(_ & _ & _ & ->)]%enqueue_outbox_Ok; [by exists row|].
  exists (MkOutboxRow (om_attempt_id m) (om_payload m) t). cbn. rewrite lookup_insert_eq. by split; [|left].
Qed.

(** An attempt that is not finished has no result. *)
Lemma unfinished key row j :
  JInv j -> j_attempts j !! key = Some row -> la_phase (row_record row) <> PhaseFinished ->
  la_finished (row_record row) = None.
Proof.
  intros Hi Hk Hp. destruct (ji_attempts j Hi _ _ Hk) as (_ & _ & Hf).
  apply eq_None_not_Some. by intros Hs%Hf.
Qed.

(** What a successful operation leaves behind. *)
Definition sound_step (j j' : Journal) : Prop := JInv j -> JInv j' /\ journal_later j j'.

Lemma journal_admit_Ok a t j o j' :
  journal_admit a t j = Ok (o, j') ->
  sound_step j j'
  /\ (exists row, j_attempts j' !! as_str (ac_attempt_id a) = Some row
        /\ la_assignment (row_record row) = a)
  /\ (o = AdmissionInserted <-> j_attempts j !! as_str (ac_attempt_id a) = None)
  /\ exists known, pending (MkMessage ("assignment-accepted:" +:+ as_str (ac_attempt_id a))
       (as_str (ac_attempt_id a))
       (AssignmentAccepted (ac_assignment_id a) (ac_attempt_id a) known)) j'.
Proof.
  unfold journal_admit. intros ([o1 j1] & Hx & ([o2 j2] & Hq & [= <- <-])%result_bind_Ok)%result_bind_Ok.
  pose proof (enqueue_pending _ _ _ _ _ Hq) as Hp.
  pose proof (enqueue_outbox_later _ _ _ _ _ Hq) as [Ha2 Hl2]. cbn [snd] in *.
  assert (sound_step j j1 /\ (exists row, j_attempts j1 !! as_str (ac_attempt_id a) = Some row
    /\ la_assignment (row_record row) = a)
    /\ (o1 = AdmissionInserted <-> j_attempts j !! as_str (ac_attempt_id a) = None)) as (Hs & Hrow & Ho).
  { destruct (j_attempts j !! as_str (ac_attempt_id a)) as [row|] eqn:Hk.
    - apply guard_bind_Ok in Hx as [E [= <- <-]].
      apply negb_false_iff, bool_decide_eq_true in E.
      split_and!; [by intros Hi; split|by exists row|done].
    - apply result_bind_Ok in Hx as (t1 & Ht%to_i64_Ok & [= <- <-]).
      assert (attempts_later (j_attempts j) (j_attempts (set_attempts j
        (<[as_str (ac_attempt_id a) := MkAttemptRow (as_str (ac_assignment_id a))
          (MkLocalAttempt a PhaseAccepted t1 t1 None)]> (j_attempts j))))) as Hlater
        by by apply attempts_later_new.
      split_and!; [|cbn; rewrite lookup_insert_eq; by eexists|done].
      intros Hi. split; [|by apply set_attempts_later].
      apply JInv_attempts; [done..|].
      intros k r [[<- <-]|[? Hr]]%lookup_insert_Some; [|by apply (ji_attempts j Hi)].
      split_and!; try done. by split; [|intros [? ?]]. }
  split_and!; [|by rewrite Ha2|done|by eexists].
  intros Hi. destruct (Hs Hi) as [Hi1 Hl1]. split; [|by etrans].
  eapply JInv_enqueue; [done| | |done]; [done|].
  destruct Hrow as (row & Hr & <-). by exists row.
Qed.

Lemma mark_running_Ok key t j u j' :
  mark_running key t j = Ok (u, j') -> sound_step j j'.
Proof.
  unfold mark_running.
  intros (row & Hrow%ok_or_Ok & (j1 & Hx & ([a s] & Hids & ([o j2] & Hq & [= _ <-])%result_bind_Ok)
    %result_bind_Ok)%result_bind_Ok)%result_bind_Ok Hi.
  cbn [fst snd] in *. pose proof (enqueue_outbox_later _ _ _ _ _ Hq) as [_ Hl2].
  assert (JInv j1 /\ journal_later j j1
    /\ forall r, j_attempts j1 !! key = Some r -> la_phase (row_record r) <> PhaseAccepted)
    as (Hi1 & Hl1 & Hphase).
  { destruct (la_phase (row_record row)) eqn:Ep; [|injection Hx as <-|done].
    - apply result_bind_Ok in Hx as (t1 & _ & [= <-]).
      assert (la_finished (row_record row) = None) as Hn by (eapply unfinished; [done..|congruence]).
      split_and!.
      + apply update_attempt_JInv; rewrite ?Ep, ?Hn; done.
      + apply set_attempts_later, update_attempt_later; rewrite ?Ep; done.
      + intros r. cbn. rewrite lookup_insert_eq. by intros [= <-].
    - split_and!; [done|done|]. intros r Hr. simplify_eq. by rewrite Ep. }
  split; [|by etrans].
  apply durable_identity_Ok in Hids as (r & Hr & Ea & ->).
  eapply JInv_enqueue; [done| | |done]; [done|]. exists r.
  destruct (ji_attempts j1 Hi1 _ _ Hr) as (_ & Ea' & _).
  split_and!; [done| |by apply Hphase]. apply (inj as_str). congruence.
Qed.

Lemma mark_finished_Ok key f t j u j' :
  JInv j -> mark_finished key f t j = Ok (u, j') ->
  JInv j' /\ journal_later j j'
  /\ exists row, j_attempts j' !! key = Some row /\ la_finished (row_record row) = Some f
     /\ pending (MkMessage ("execution-finished:" +:+ key) key
          (ExecutionFinished (ac_assignment_id (la_assignment (row_record row)))
             (ac_attempt_id (la_assignment (row_record row))) f)) j'.
Proof.
  unfold mark_finished.
  intros Hi (row & Hrow%ok_or_Ok & (j1 & Hx & ([a s] & Hids & ([o j2] & Hq & [= _ <-])%result_bind_Ok)
    %result_bind_Ok)%result_bind_Ok)%result_bind_Ok.
  cbn [fst snd] in *. pose proof (enqueue_outbox_later _ _ _ _ _ Hq) as [Ha2 Hl2].
  pose proof (enqueue_pending _ _ _ _ _ Hq) as Hp.
  assert (JInv j1 /\ journal_later j j1
    /\ exists r, j_attempts j1 !! key = Some r /\ la_finished (row_record r) = Some f)
    as (Hi1 & Hl1 & r & Hr & Hf).
  { destruct (decide (la_phase (row_record row) = PhaseFinished)) as [Ep|Ep].
    - rewrite Ep in Hx. destruct (la_finished (row_record row)) as [g|] eqn:Eg; [|done].
      apply guard_bind_Ok in Hx as [E [= <-]]. apply negb_false_iff, bool_decide_eq_true in E as ->.
      split_and!; [done|done|by exists row].
    - pose proof (unfinished _ _ _ Hi Hrow Ep) as Hn.
      assert (exists t1, j1 = update_attempt key row PhaseFinished t1 (Some f) j) as [t1 ->].
      { destruct (la_phase (row_record row)); [| |done];
          apply result_bind_Ok in Hx as (t1 & _ & [= <-]); by exists t1. }
      assert (phase_code (la_phase (row_record row)) <= phase_code PhaseFinished)
        by by destruct (la_phase (row_record row)).
      split_and!.
      + apply update_attempt_JInv; rewrite ?Hn; try done.
      + apply set_attempts_later, update_attempt_later; rewrite ?Hn; done.
      + cbn. rewrite lookup_insert_eq. by eexists. }
  rewrite (durable_identity_total _ _ _ Hi1 Hr) in Hids. simplify_eq.
  split_and!; [|by etrans|].
  - destruct (ji_attempts j1 Hi1 _ _ Hr) as (-> & _).
    eapply JInv_enqueue; [done| | |done]; [done|]. by exists r.
  - exists r. by rewrite Ha2.
Qed.

(** ** The other operations *)

Lemma bind_worker_Ok w j u j' : bind_worker w j = Ok (u, j') -> sound_step j j'.
Proof.
  unfold bind_worker. destruct (j_worker_id j) as [stored|] eqn:E.
  - intros [_ [= _ <-]]%guard_bind_Ok Hi. by split.
  - intros [= _ <-] []. split; [by split|]. split; cbn; [congruence|done|by eauto|done].
Qed.

Lemma enqueue_lifecycle_Ok payload t j id j' :
  truthful (j_attempts j) payload ->
  enqueue_lifecycle payload t j = Ok (id, j') -> sound_step j j'.
Proof.
  intros Ht. unfold enqueue_lifecycle.
  destruct (lifecycle_identity payload) as [mid aid] eqn:El.
  intros ([o j2] & Hq & [= _ <-])%result_bind_Ok Hi. split.
  - exact (JInv_enqueue (MkMessage mid aid payload) _ _ _ _ Hi El Ht Hq).
  - by apply enqueue_outbox_later in Hq as [_ ?].
Qed.

Lemma acknowledge_cancel_Ok key t j b j' :
  JInv j -> acknowledge_cancel key t j = Some (Ok (b, j')) -> JInv j' /\ journal_later j j'.
Proof.
  intros Hi. unfold acknowledge_cancel, journal_attempt.
  destruct (j_attempts j !! key) as [row|] eqn:Hk; [|done]. cbn [fmap option_fmap option_map mbind option_bind].
  intros [= ([id j2] & Hq & [= _ <-])%result_bind_Ok].
  eapply enqueue_lifecycle_Ok; [|done|done].
  exists row. destruct (ji_attempts j Hi _ _ Hk) as (E & _). rewrite <-E.
  split_and!; [done..|]. by intros ?%bool_decide_eq_true.
Qed.

Lemma record_outbox_delivery_Ok c s m t j u j' :
  record_outbox_delivery c s m t j = Ok (u, j') -> sound_step j j'.
Proof.
  unfold record_outbox_delivery.
  intros (s1 & _ & (t1 & _ & H)%result_bind_Ok)%result_bind_Ok Hi.
  destruct (j_deliveries j !! (c, s1)); [done|].
  destruct (j_outbox j !! m) as [row|] eqn:Em; [|done]. injection H as _ <-.
  destruct Hi. split; [|split; cbn; [done|done|by eauto|done]].
  split; cbn; try done. intros k d [[_ <-]|[_ ?]]%lookup_insert_Some; [cbn; rewrite Em; by eexists|eauto].
Qed.

Lemma delete_message_sound id j : sound_step j (delete_message id j).2.
Proof.
  intros Hi. unfold delete_message. destruct (j_outbox j !! id) as [row|] eqn:E; [|by split].
  destruct Hi. cbn [snd]. split; [|split; cbn; [done|done|by eauto|done]].
  split; cbn; try done.
  - intros k r [_ ?]%lookup_delete_Some. eauto.
  - intros k r [_ ?]%lookup_delete_Some. eauto.
  - intros k d [Hd Hne]%map_lookup_filter_Some. cbn in Hne. rewrite lookup_delete_ne by done. eauto.
Qed.

Lemma delete_messages_sound ids n j : sound_step j (delete_messages ids n j).2.
Proof.
  revert n j. induction ids as [|id ids IH]; intros n j Hi; [by split|]. cbn [delete_messages].
  pose proof (delete_message_sound id j Hi) as [Hi1 Hl1].
  destruct (delete_message id j) as [k j1]. cbn [snd] in *.
  destruct (IH (n + k)%nat j1 Hi1) as [Hi2 Hl2]. split; [done|by etrans].
Qed.

Lemma acknowledge_outbox_Ok c n j k j' : acknowledge_outbox c n j = Ok (k, j') -> sound_step j j'.
Proof.
  unfold acknowledge_outbox. intros (m & _ & H)%result_bind_Ok.
  pose proof (delete_messages_sound (delivered_through c m j) 0 j) as Hd.
  injection H as H. by rewrite H in Hd.
Qed.

Lemma prune_outbox_deliveries_Ok t j k j' :
  prune_outbox_deliveries t j = Ok (k, j') -> sound_step j j'.
Proof.
  unfold prune_outbox_deliveries. intros (m & _ & [= _ <-])%result_bind_Ok [].
  split; [|split; cbn; [done|done|by eauto|done]].
  split; cbn; try done. intros k' d [Hd _]%map_lookup_filter_Some. eauto.
Qed.

(** The query for the owner of a device finds every active lease. *)
Lemma active_owner_None d j :
  active_owner d j = None ->
  forall key l, j_leases j !! key = Some l -> lr_device_id l = d -> lr_released_at_ms l <> None.
Proof.
  unfold active_owner. intros H key l Hk Hd Hr.
  assert ((key, l) ∈ filter (fun kl : string * LeaseRow =>
    lr_device_id kl.2 = d /\ lr_released_at_ms kl.2 = None) (map_to_list (j_leases j))) as Hin.
  { apply list_elem_of_filter. split; [done|]. by apply elem_of_map_to_list. }
  destruct (filter _ _) as [|x l']; [by apply not_elem_of_nil in Hin|done].
Qed.

Lemma active_owner_Some d j key :
  active_owner d j = Some key ->
  exists l, j_leases j !! key = Some l /\ lr_device_id l = d /\ lr_released_at_ms l = None.
Proof.
  unfold active_owner. destruct (filter _ _) as [|[k l] l'] eqn:E; [done|]. intros [= <-].
  assert ((k, l) ∈ filter (fun kl : string * LeaseRow =>
    lr_device_id kl.2 = d /\ lr_released_at_ms kl.2 = None) (map_to_list (j_leases j))) as Hin
    by (rewrite E; left).
  apply list_elem_of_filter in Hin as [[? ?] ?%elem_of_map_to_list]. eauto.
Qed.

(** A granted lease: on an unfinished attempt and a free device. *)
Lemma acquire_device_lease_Ok a d t j o j' :
  acquire_device_lease a d t j = Ok (o, j') ->
  (exists row, j_attempts j !! as_str a = Some row /\ la_phase (row_record row) <> PhaseFinished)
  /\ ((o = LeaseDuplicate /\ j' = j /\ exists l, j_leases j !! as_str a = Some l
         /\ lr_device_id l = d /\ lr_released_at_ms l = None)
      \/ (o = LeaseAcquired /\ active_owner d j = None
         /\ (forall l, j_leases j !! as_str a = Some l -> lr_device_id l = d)
         /\ j' = set_leases j (<[as_str a := MkLeaseRow d t None]> (j_leases j)))).
Proof.
  unfold acquire_device_lease.
  intros [_ (row & Hrow%ok_or_Ok & [Hp%bool_decide_eq_false H]%guard_bind_Ok)%result_bind_Ok]%guard_bind_Ok.
  split; [by exists row|].
  assert ((match active_owner d j with
     | Some owner => Err (DeviceAlreadyLeased d owner)
     | None => t' ← to_i64 t;
         Ok (LeaseAcquired, set_leases j (<[as_str a := MkLeaseRow d t' None]> (j_leases j)))
     end) = Ok (o, j') ->
     o = LeaseAcquired /\ active_owner d j = None
     /\ j' = set_leases j (<[as_str a := MkLeaseRow d t None]> (j_leases j))) as Hclaim.
  { destruct (active_owner d j); [done|]. by intros (t' & [_ ->]%to_i64_Ok & [= <- <-])%result_bind_Ok. }
  destruct (j_leases j !! as_str a) as [l|] eqn:El.
  - destruct (decide (lr_device_id l = d)) as [Hd|Hd].
    + rewrite (bool_decide_true (_ = d)) in H by done. cbn in H.
      case_bool_decide as Hr; [left; naive_solver|]. right. naive_solver.
    + rewrite (bool_decide_false (_ = d)) in H by done. by cbn in H.
  - right. naive_solver.
Qed.

Lemma set_leases_sound j key l :
  is_Some (j_attempts j !! key) ->
  (forall l0, j_leases j !! key = Some l0 -> lr_device_id l0 = lr_device_id l) ->
  (lr_released_at_ms l = None -> forall k2 l2, j_leases j !! k2 = Some l2 ->
     lr_device_id l2 = lr_device_id l -> lr_released_at_ms l2 = None -> k2 = key) ->
  sound_step j (set_leases j (<[key := l]> (j_leases j))).
Proof.
  intros Ha Hdev Hex [].
  assert (forall k0 l0, j_leases j !! k0 = Some l0 ->
    exists l', <[key := l]> (j_leases j) !! k0 = Some l' /\ lr_device_id l' = lr_device_id l0) as Hl.
  { intros k0 l0 Hk. destruct (decide (k0 = key)) as [->|?].
    - rewrite lookup_insert_eq. exists l. split; [done|]. symmetry. by apply Hdev.
    - rewrite lookup_insert_ne by done. eauto. }
  split; [|by split]. split; cbn; try done.
  - intros k0 l0 [[<- _]|[_ ?]]%lookup_insert_Some; eauto.
  - intros k1 k2 l1 l2 [[<- <-]|[? H1]]%lookup_insert_Some [[<- <-]|[? H2]]%lookup_insert_Some Hd R1 R2;
      [done|symmetry; by eapply Hex|by eapply Hex|by eapply ji_exclusive0].
  - intros k0 o (l0 & (l' & ? & ?)%Hl & ?)%ji_preflight0. exists l'. split; [done|congruence].
Qed.

Lemma acquire_device_lease_sound a d t j o j' :
  acquire_device_lease a d t j = Ok (o, j') -> sound_step j j'.
Proof.
  intros ((row & Hrow & _) & [(_ & -> & _)|(_ & Hn & Hd & ->)])%acquire_device_lease_Ok;
    [by intros Hi; split|].
  apply set_leases_sound; cbn; [by eauto|done|].
  intros _ k2 l2 H2 E R. by destruct (active_owner_None _ _ Hn _ _ H2 E R).
Qed.

Lemma release_device_lease_Ok a t j o j' :
  release_device_lease a t j = Ok (o, j') -> sound_step j j'.
Proof.
  unfold release_device_lease. intros (l & Hl%ok_or_Ok & H)%result_bind_Ok Hi.
  destruct (lr_released_at_ms l) as [r|]; [injection H as _ <-; by split|].
  apply result_bind_Ok in H as (t' & _ & [= _ <-]).
  apply set_leases_sound; cbn; [|by intros ? [= <-]%(eq_trans (eq_sym Hl))|done|done].
  by eapply ji_lease_attempt.
Qed.

Lemma record_device_preflight_Ok a o j x j' :
  record_device_preflight a o j = Ok (x, j') -> sound_step j j'.
Proof.
  unfold record_device_preflight.
  destruct (j_preflights j !! as_str a) as [existing|] eqn:Ep.
  { case_bool_decide; [|done]. intros [= _ <-] Hi. by split. }
  destruct (j_attempts j !! as_str a) as [row|] eqn:Ea; [|done].
  destruct (j_leases j !! as_str a) as [[d t [r|]]|] eqn:El; [done| |done].
  intros [_ [Hd [= _ <-]]%guard_bind_Ok]%guard_bind_Ok [].
  apply negb_false_iff, bool_decide_eq_true in Hd.
  split; [split; cbn; try done|].
  - intros k p [[<- <-]|[_ ?]]%lookup_insert_Some; [|by eauto]. rewrite El. by eexists.
  - split; cbn; [done|done|by eauto|]. intros k p Hk.
    destruct (decide (k = as_str a)) as [->|?]; [congruence|]. by rewrite lookup_insert_ne.
Qed.

Lemma run_op_sound op j : sound_step j (run_op op j).
Proof.
  intros Hi.
  assert (JInv j /\ journal_later j j) as Hself by by split.
  destruct op; cbn [run_op];
    try (match goal with |- context [settle j ?r] =>
      destruct r as [[x j']|e] eqn:E; cbn [settle]; [|exact Hself] end).
  - by eapply bind_worker_Ok.
  - apply journal_admit_Ok in E as [Hs _]. by apply Hs.
  - by eapply mark_running_Ok.
  - apply mark_finished_Ok in E as (? & ? & _); [by split|done].
  - by eapply enqueue_lifecycle_Ok; [..|exact Hi]; [|exact E].
  - destruct (acknowledge_cancel attempt_id at_ms j) as [[[x j']|e]|] eqn:E; cbn [settle]; [|done..].
    by eapply acknowledge_cancel_Ok.
  - by eapply record_outbox_delivery_Ok.
  - by eapply acknowledge_outbox_Ok.
  - by eapply prune_outbox_deliveries_Ok.
  - by eapply acquire_device_lease_sound.
  - by eapply release_device_lease_Ok.
  - by eapply record_device_preflight_Ok.
Qed.

Lemma run_ops_sound ops j : sound_step j (run_ops ops j).
Proof.
  revert j. induction ops as [|op ops IH]; intros j Hi; [by split|].
  destruct (run_op_sound op j Hi) as [Hi1 Hl1]. destruct (IH _ Hi1) as [Hi2 Hl2].
  split; [done|by etrans].
Qed.

Lemma JInv_empty : JInv journal_empty.
Proof. by split. Qed.

(** ** Delivery of the outbox *)

(** The operation keeps every pending message as it is. *)
Definition keeps_outbox (j j' : Journal) : Prop :=
  forall id row, j_outbox j !! id = Some row -> j_outbox j' !! id = Some row.

Lemma enqueue_keeps m t j o j' : enqueue_outbox m t j = Ok (o, j') -> keeps_outbox j j'.
Proof.
  intros [(row & _ & -> & _)|(Hn & _ & _ & ->)]%enqueue_outbox_Ok id r Hr; [done|].
  cbn. rewrite lookup_insert_ne by congruence. done.
Qed.

Lemma admit_keeps a t j o j' : journal_admit a t j = Ok (o, j') -> keeps_outbox j j'.
Proof.
  unfold journal_admit. intros ([o1 j1] & Hx & ([o2 j2] & Hq & [= <- <-])%result_bind_Ok)%result_bind_Ok.
  apply enqueue_keeps in Hq. destruct (j_attempts j !! _).
  - by apply guard_bind_Ok in Hx as [_ [= <- <-]].
  - by apply result_bind_Ok in Hx as (t1 & _ & [= <- <-]).
Qed.

Lemma mark_running_keeps key t j u j' : mark_running key t j = Ok (u, j') -> keeps_outbox j j'.
Proof.
  unfold mark_running.
  intros (row & _ & (j1 & Hx & (ids & _ & ([o j2] & Hq & [= _ <-])
    %result_bind_Ok)%result_bind_Ok)%result_bind_Ok)%result_bind_Ok.
  apply enqueue_keeps in Hq. destruct (la_phase (row_record row)); [|by injection Hx as <-|done].
  by apply result_bind_Ok in Hx as (t1 & _ & [= <-]).
Qed.

Lemma mark_finished_keeps key f t j u j' :
  mark_finished key f t j = Ok (u, j') -> keeps_outbox j j'.
Proof.
  unfold mark_finished.
  intros (row & _ & (j1 & Hx & (ids & _ & ([o j2] & Hq & [= _ <-])
    %result_bind_Ok)%result_bind_Ok)%result_bind_Ok)%result_bind_Ok.
  apply enqueue_keeps in Hq. destruct (la_phase (row_record row)).
  - by apply result_bind_Ok in Hx as (t1 & _ & [= <-]).
  - by apply result_bind_Ok in Hx as (t1 & _ & [= <-]).
  - destruct (la_finished _); [|done]. by apply guard_bind_Ok in Hx as [_ [= <-]].
Qed.

Lemma enqueue_lifecycle_keeps p t j id j' :
  enqueue_lifecycle p t j = Ok (id, j') -> keeps_outbox j j'.
Proof.
  unfold enqueue_lifecycle. destruct (lifecycle_identity p).
  intros ([o j2] & Hq & [= _ <-])%result_bind_Ok. by apply enqueue_keeps in Hq.
Qed.

Lemma acknowledge_cancel_keeps key t j b j' :
  acknowledge_cancel key t j = Some (Ok (b, j')) -> keeps_outbox j j'.
Proof.
  unfold acknowledge_cancel. destruct (journal_attempt key j); [|done]. cbn [mbind option_bind].
  intros [= ([id j2] & Hq & [= _ <-])%result_bind_Ok]. by apply enqueue_lifecycle_keeps in Hq.
Qed.

(** Deleting messages removes exactly the listed ones. *)
Lemma delete_message_outbox id j :
  j_outbox (delete_message id j).2 = delete id (j_outbox j).
Proof.
  unfold delete_message. destruct (j_outbox j !! id) eqn:E; [done|]. by rewrite delete_id.
Qed.

Lemma delete_messages_outbox ids n j id :
  j_outbox (delete_messages ids n j).2 !! id
  = if decide (id ∈ ids) then None else j_outbox j !! id.
Proof.
  revert n j. induction ids as [|x ids IH]; intros n j; [done|]. cbn [delete_messages].
  pose proof (delete_message_outbox x j) as E.
  destruct (delete_message x j) as [k j1]. cbn [snd] in E. rewrite IH, E.
  destruct (decide (id = x)) as [->|Hne].
  - rewrite lookup_delete_eq. rewrite (decide_True _ _ (P := x ∈ x :: ids)) by left. by case_decide.
  - rewrite lookup_delete_ne by done. repeat case_decide; set_solver.
Qed.

Lemma elem_of_delivered id c n j :
  id ∈ delivered_through c n j
  <-> exists s d, j_deliveries j !! (c, s) = Some d /\ dl_message_id d = id /\ s <= n.
Proof.
  unfold delivered_through. rewrite list_elem_of_fmap. split.
  - intros ([[c' s] d] & -> & [[Hc Hs] Hin%elem_of_map_to_list]%list_elem_of_filter). cbn in *.
    subst c'. by exists s, d.
  - intros (s & d & Hd & <- & Hs). exists ((c, s), d). split; [done|].
    apply list_elem_of_filter. split; [done|]. by apply elem_of_map_to_list.
Qed.

(** The worker's outbox delivers at least once: a pending lifecycle
    message is unchanged by every operation, whether it succeeds or fails,
    until an acknowledgement of a connection reaches a sequence number
    under which that very message was delivered on that connection; and
    such an acknowledgement does remove it. *)
Theorem outbox_at_least_once (op : JournalOp) (j : Journal) (id : string) (row : OutboxRow)
    (Hid : j_outbox j !! id = Some row) :
  j_outbox (run_op op j) !! id = Some row
  \/ exists c through s d, op = OpAcknowledge c through /\ through <= i64_max
       /\ j_deliveries j !! (c, s) = Some d /\ dl_message_id d = id /\ s <= through
       /\ j_outbox (run_op op j) !! id = None.
Proof.
  assert (forall j', keeps_outbox j j' -> j_outbox j' !! id = Some row) as Hk by (intros j' H; by apply H).
  assert (forall A (r : result AttemptStoreError (A * Journal)),
    (forall a j', r = Ok (a, j') -> keeps_outbox j j') -> j_outbox (settle j r) !! id = Some row) as Hs.
  { intros A [[a j']|e] Hr; cbn; [by eapply Hk, Hr|done]. }
  destruct op; cbn [run_op]; try (lazymatch goal with
    | |- context [acknowledge_outbox] => fail
    | _ => left; apply Hs; intros x j'
    end).
  - unfold bind_worker. destruct (j_worker_id j); [intros [_ [= _ <-]]%guard_bind_Ok|intros [= _ <-]]; exact (fun _ _ H => H).
  - apply admit_keeps.
  - apply mark_running_keeps.
  - apply mark_finished_keeps.
  - apply enqueue_lifecycle_keeps.
  - left. destruct (acknowledge_cancel attempt_id at_ms j) as [r|] eqn:E; [|done].
    apply Hs. intros b j' ->. by eapply acknowledge_cancel_keeps.
  - unfold record_outbox_delivery. intros (s1 & _ & (t1 & _ & H)%result_bind_Ok)%result_bind_Ok.
    destruct (j_deliveries j !! _); [done|].
    destruct (j_outbox j !! message_id); [|done]. injection H as _ <-. exact (fun _ _ H => H).
  - unfold acknowledge_outbox. destruct (to_i64 through) as [m|e] eqn:Em; cbn [mbind result_bind settle].
    2:{ by left. }
    apply to_i64_Ok in Em as [Hm ->].
    pose proof (delete_messages_outbox (delivered_through connection_id through j) 0 j id) as E.
    destruct (delete_messages _ _ _) as [k j']. cbn [snd settle] in *. rewrite E.
    case_decide as Hin; [|by left]. right.
    apply elem_of_delivered in Hin as (s & d & ? & ? & ?). by exists connection_id, through, s, d.
  - unfold prune_outbox_deliveries. intros (m & _ & [= _ <-])%result_bind_Ok. exact (fun _ _ H => H).
  - intros (_ & [(_ & -> & _)|(_ & _ & _ & ->)])%acquire_device_lease_Ok;
      exact (fun _ _ H => H).
  - unfold release_device_lease. intros (l & _ & H)%result_bind_Ok.
    destruct (lr_released_at_ms l); [injection H as _ <-|apply result_bind_Ok in H as (t' & _ & [= _ <-])];
      exact (fun _ _ H => H).
  - unfold record_device_preflight. repeat case_match; try done; [intros [= _ <-]|
      intros [_ [_ [= _ <-]]%guard_bind_Ok]%guard_bind_Ok]; exact (fun _ _ H => H).
Qed.

Lemma journal_reachable ops : JInv (run_ops ops journal_empty).
Proof. apply run_ops_sound, JInv_empty. Qed.

(** ** Guarantees over any sequence of operations *)

(** C23 Whatever the worker does, its journal stays consistent: every
    attempt row carries its own identity and has a result exactly when it
    is finished; every pending lifecycle message has the identity of its
    payload and asserts only what the attempts table holds (accepted,
    started, finished with that very result); every delivery refers to a
    pending message; every lease and preflight belongs to a recorded
    attempt and device; and no device is leased to two attempts. *)
Theorem journal_invariant (ops : list JournalOp) : JInv (run_ops ops journal_empty).
Proof. exact (journal_reachable ops). Qed.

(** The journal never forgets: the worker identity, the assignment and
    admission time of every attempt, a recorded result, the device of a
    lease and the preflight evidence never change again, and the phase of
    an attempt never goes back, across any further operations. *)
Theorem journal_is_durable (ops ops' : list JournalOp) :
  journal_later (run_ops ops journal_empty) (run_ops (ops ++ ops') journal_empty).
Proof.
  unfold run_ops. rewrite foldl_app.
  exact (proj2 (run_ops_sound ops' _ (journal_reachable ops))).
Qed.

(** Which payload a message of that name carries. *)
Lemma finished_identity payload key aid :
  lifecycle_identity payload = ("execution-finished:" +:+ key, aid) ->
  exists a s f, payload = ExecutionFinished a s f /\ key = as_str s.
Proof.
  destruct payload; cbn [lifecycle_identity]; intros [= E _]; try discriminate E.
  do 3 eexists. split; [reflexivity|]. symmetry. exact E.
Qed.

Lemma mark_finished_succeeds key f t j row :
  JInv j -> j_attempts j !! key = Some row ->
  (forall g, la_finished (row_record row) = Some g -> g = f) -> t <= i64_max ->
  exists j', mark_finished key f t j = Ok (tt, j').
Proof.
  intros Hi Hk Hf Ht.
  assert (to_i64 t = Ok t) as Hto by by apply to_i64_Ok.
  destruct (ji_attempts j Hi _ _ Hk) as (Hkey & _ & Hfin).
  set (a := ac_assignment_id (la_assignment (row_record row))).
  set (s := ac_attempt_id (la_assignment (row_record row))) in *.
  (* the message, if pending, is the one this call would enqueue *)
  assert (forall j1, j_outbox j1 = j_outbox j -> exists o j2,
    enqueue_outbox (MkMessage ("execution-finished:" +:+ key) key (ExecutionFinished a s f)) t j1
    = Ok (o, j2)) as Hq.
  { intros j1 Ho. unfold enqueue_outbox. cbn [om_message_id om_attempt_id om_payload]. rewrite Ho.
    destruct (j_outbox j !! _) as [msg|] eqn:Em; [|rewrite Hto; by do 2 eexists].
    pose proof (ji_identity j Hi _ _ Em) as (a' & s' & g & Ep & Es)%finished_identity.
    pose proof (ji_truth j Hi _ _ Em) as Hr. rewrite Ep in Hr |- *.
    destruct Hr as (r & Hr & <- & Hg). rewrite Es in Hk. simplify_eq. apply Hf in Hg as ->.
    rewrite bool_decide_true by done. by do 2 eexists. }
  unfold mark_finished, row_of. rewrite Hk. cbn [ok_or mbind result_bind].
  destruct (decide (la_phase (row_record row) = PhaseFinished)) as [Ep|Ep].
  - rewrite Ep. apply Hfin in Ep as [g Hg]. rewrite Hg.
    rewrite (Hf g Hg), bool_decide_true by done. cbn [negb guard_err mbind result_bind].
    rewrite (durable_identity_total _ _ _ Hi Hk). fold a s. cbn [mbind result_bind fst snd].
    destruct (Hq j eq_refl) as (o & j2 & ->). by eexists.
  - pose proof (unfinished _ _ _ Hi Hk Ep) as Hn.
    assert (JInv (update_attempt key row PhaseFinished t (Some f) j)) as Hi1.
    { apply update_attempt_JInv; rewrite ?Hn; try done. by destruct (la_phase (row_record row)). }
    assert (j_attempts (update_attempt key row PhaseFinished t (Some f) j) !! key
      = Some (MkAttemptRow (row_assignment_id row) (MkLocalAttempt (la_assignment (row_record row))
          PhaseFinished (la_admitted_at_ms (row_record row)) t (Some f)))) as Hk1
      by (cbn; by rewrite lookup_insert_eq).
    pose proof (durable_identity_total _ _ _ Hi1 Hk1) as Hd.
    destruct (Hq (update_attempt key row PhaseFinished t (Some f) j) eq_refl) as (o & j2 & Hq2).
    cbn [row_record la_assignment] in Hd.
    exists j2.
    destruct (la_phase (row_record row)); [| |done]; rewrite Hto; cbn [mbind result_bind];
      rewrite Hd; fold a s; cbn [mbind result_bind fst snd]; by rewrite Hq2.
Qed.

(** C28 A result is recorded and reported together: on any journal the
    worker can have, [mark_finished] of a known attempt that has no other
    result always succeeds, and leaves the attempt finished with exactly
    that result and a pending message that carries it. *)
Theorem finish_is_reported (ops : list JournalOp) (key : string) (f : StoredFinished) (t : N)
    (row : AttemptRow) (Hk : j_attempts (run_ops ops journal_empty) !! key = Some row)
    (Hf : forall g, la_finished (row_record row) = Some g -> g = f) (Ht : t <= i64_max) :
  exists j' row' msg, mark_finished key f t (run_ops ops journal_empty) = Ok (tt, j')
    /\ j_attempts j' !! key = Some row' /\ la_phase (row_record row') = PhaseFinished
    /\ la_finished (row_record row') = Some f
    /\ la_assignment (row_record row') = la_assignment (row_record row)
    /\ j_outbox j' !! ("execution-finished:" +:+ key) = Some msg
    /\ ob_payload msg = ExecutionFinished (ac_assignment_id (la_assignment (row_record row)))
         (ac_attempt_id (la_assignment (row_record row))) f.
Proof.
  pose proof (journal_reachable ops) as Hi. set (j := run_ops ops journal_empty) in *. clearbody j.
  assert (exists j', mark_finished key f t j = Ok (tt, j')) as [j' Hm] by by eapply mark_finished_succeeds.
  destruct (mark_finished_Ok _ _ _ _ _ _ Hi Hm) as (Hi' & Hl & row' & Hr' & Hf' & msg & Hmsg & Hp).
  destruct (jl_attempts _ _ Hl _ _ Hk) as (r1 & Hr1 & (_ & Ea & _)). simplify_eq.
  exists j', row', msg. split_and!; try done.
  - apply (ji_attempts _ Hi' _ _ Hr'). by rewrite Hf'.
  - cbn in Hp. rewrite <-Ea. destruct Hp as [->|[_ Hc]]; [done|]. by destruct (ob_payload msg).
Qed.

(** ** Leases *)

Lemma enqueue_leases m t j o j' : enqueue_outbox m t j = Ok (o, j') -> j_leases j' = j_leases j.
Proof. by intros [(row & _ & -> & _)|(_ & _ & _ & ->)]%enqueue_outbox_Ok. Qed.

Lemma delete_messages_leases ids n j : j_leases (delete_messages ids n j).2 = j_leases j.
Proof.
  revert n j. induction ids as [|id ids IH]; intros n j; [done|]. cbn [delete_messages].
  assert (j_leases (delete_message id j).2 = j_leases j) as E
    by (unfold delete_message; by destruct (j_outbox j !! id)).
  destruct (delete_message id j) as [k j1]. cbn [snd] in E. by rewrite IH.
Qed.

Definition lease_op (op : JournalOp) : bool :=
  match op with OpAcquire _ _ _ | OpRelease _ _ => true | _ => false end.

(** Peeling the binds of a successful transaction. *)
Ltac peel_Ok :=
  repeat match goal with
  | H : _ ≫= _ = Ok _ |- _ => apply result_bind_Ok in H as (? & ? & ?)
  | H : enqueue_outbox _ _ _ = Ok (?o, ?j) |- _ => apply enqueue_leases in H
  | H : enqueue_outbox _ _ _ = Ok ?p |- _ => destruct p as [? ?]; cbn [snd] in *
  | H : (match ?x with _ => _ end) = Ok _ |- _ => destruct x eqn:?
  | H : Ok _ = Ok _ |- _ => injection H; clear H; intros
  | H : Err _ = Ok _ |- _ => discriminate H
  end; subst; cbn in *; try congruence.

Lemma leases_frame op j : lease_op op = false -> j_leases (run_op op j) = j_leases j.
Proof.
  intros Hop.
  assert (forall A (r : result AttemptStoreError (A * Journal)),
    (forall a j', r = Ok (a, j') -> j_leases j' = j_leases j) -> j_leases (settle j r) = j_leases j) as Hs.
  { intros A [[a j']|e] Hr; cbn; [by eapply Hr|done]. }
  destruct op; try discriminate Hop; cbn [run_op].
  - apply Hs. intros x j'. unfold bind_worker. intros H. peel_Ok.
  - apply Hs. intros x j'. unfold journal_admit. intros H. peel_Ok.
  - apply Hs. intros x j'. unfold mark_running. intros H. peel_Ok.
  - apply Hs. intros x j'. unfold mark_finished. intros H. peel_Ok.
  - apply Hs. intros x j'. unfold enqueue_lifecycle. intros H. peel_Ok.
  - unfold acknowledge_cancel. destruct (journal_attempt attempt_id j); [|done].
    cbn [mbind option_bind]. apply Hs. intros x j'. unfold enqueue_lifecycle. intros H. peel_Ok.
  - apply Hs. intros x j'. unfold record_outbox_delivery. intros H. peel_Ok.
  - apply Hs. intros x j'. unfold acknowledge_outbox. intros (m & _ & H)%result_bind_Ok.
    pose proof (delete_messages_leases (delivered_through connection_id m j) 0 j) as E.
    injection H as H. by rewrite H in E.
  - apply Hs. intros x j'. unfold prune_outbox_deliveries. intros H. peel_Ok.
  - apply Hs. intros x j'. unfold record_device_preflight. intros H. peel_Ok.
Qed.

(** A leased device stays with its attempt: no operation of the worker
    changes an active lease except the explicit release by its own
    attempt (finishing the attempt does not), and only the holder can
    claim the device in the meantime. *)
Theorem device_lease_is_exclusive (ops : list JournalOp) (key : string) (l : LeaseRow)
    (Hl : j_leases (run_ops ops journal_empty) !! key = Some l)
    (Ha : lr_released_at_ms l = None) :
  (forall op, j_leases (run_op op (run_ops ops journal_empty)) !! key = Some l
     \/ exists a t, op = OpRelease a t /\ as_str a = key)
  /\ forall a t o j',
       acquire_device_lease a (lr_device_id l) t (run_ops ops journal_empty) = Ok (o, j') ->
       as_str a = key /\ o = LeaseDuplicate /\ j' = run_ops ops journal_empty.
Proof.
  pose proof (journal_reachable ops) as Hi. set (j := run_ops ops journal_empty) in *. clearbody j.
  assert (forall a t o j', acquire_device_lease a (lr_device_id l) t j = Ok (o, j') ->
    as_str a = key /\ o = LeaseDuplicate /\ j' = j) as Hacq.
  { intros a t o j' (_ & [(-> & -> & l2 & H2 & E & R)|(_ & Hn & _)])%acquire_device_lease_Ok.
    - split_and!; [|done|done]. by eapply (ji_exclusive j Hi).
    - by destruct (active_owner_None _ _ Hn _ _ Hl eq_refl Ha). }
  split; [|done]. intros op.
  destruct (lease_op op) eqn:Eop; [|left; by rewrite leases_frame].
  destruct op; try discriminate Eop; cbn [run_op].
  - left. destruct (acquire_device_lease attempt_id device_id at_ms j) as [[o j']|e] eqn:E; [|done].
    cbn [settle]. apply acquire_device_lease_Ok in E as (_ & [(_ & -> & _)|(_ & Hn & Hd & ->)]); [done|].
    cbn. rewrite lookup_insert_ne; [done|]. intros E.
    rewrite <-E in Hl. destruct (active_owner_None _ _ Hn _ _ Hl (Hd _ Hl) Ha).
  - destruct (decide (as_str attempt_id = key)) as [E|Hne]; [right; by exists attempt_id, at_ms|left].
    destruct (release_device_lease attempt_id at_ms j) as [[o j']|e] eqn:E; [|done]. cbn [settle].
    unfold release_device_lease in E. apply result_bind_Ok in E as (l2 & _ & H).
    destruct (lr_released_at_ms l2); [by injection H as _ <-|].
    apply result_bind_Ok in H as (t' & _ & [= _ <-]). cbn. by rewrite lookup_insert_ne.
Qed.

(** A cancellation repeated after the attempt ended cannot be
    acknowledged while the first acknowledgement is still pending: the
    second message has the same name but says [already_terminal], and,
    unlike a repeated admission, the two are not treated as compatible, so
    the call fails with a conflict. *)
Theorem repeated_cancel_conflicts (ops : list JournalOp) (key : string) (t : N)
    (r : LocalAttemptRecord) (msg : OutboxRow)
    (Hk : journal_attempt key (run_ops ops journal_empty) = Some r)
    (Hp : la_phase r = PhaseFinished)
    (Hm : j_outbox (run_ops ops journal_empty) !! ("cancellation-acknowledged:" +:+ key) = Some msg)
    (Hb : ob_payload msg = CancellationAcknowledged (ac_assignment_id (la_assignment r))
            (ac_attempt_id (la_assignment r)) false) :
  acknowledge_cancel key t (run_ops ops journal_empty)
  = Some (Err (ConflictingOutboxMessage ("cancellation-acknowledged:" +:+ key))).
Proof.
  pose proof (journal_reachable ops) as Hi. set (j := run_ops ops journal_empty) in *. clearbody j.
  unfold acknowledge_cancel. rewrite Hk. cbn [mbind option_bind].
  unfold journal_attempt in Hk. apply fmap_Some in Hk as (row & Hrow & ->).
  destruct (ji_attempts j Hi _ _ Hrow) as (Ekey & _).
  rewrite bool_decide_true by done. unfold enqueue_lifecycle, lifecycle_identity. rewrite <-Ekey.
  unfold enqueue_outbox. cbn [om_message_id om_attempt_id om_payload].
  change ("cancellation-acknowledged" +:+ ":" +:+ key) with ("cancellation-acknowledged:" +:+ key).
  rewrite Hm, Hb. rewrite bool_decide_false by done. cbn [compatible_admission negb].
  by rewrite andb_false_r.
Qed.

(** ** Witnesses *)

Definition sample_attempt_id : AttemptId := MkId "attempt-1" eq_refl.

Definition sample_assignment : AssignmentContract :=
  MkAssignment (MkId "assignment-1" eq_refl) sample_attempt_id 1 "task-1:candidate-1"
    (MkId "task-1" eq_refl) (MkId "candidate-1" eq_refl)
    (MkExecution Container ["true"] "." [] 1000
       (MkArtifactDescriptor (from_bytes []) 8 "application/octet-stream")
       (MkArtifactDescriptor (from_bytes []) 8 "application/octet-stream") None) [].

Definition sample_finished : StoredFinished :=
  MkFinished OutcomeCancelled None 0 None None None "cancelled".

(** Admitted, leased, started, cancelled, delivered; then finished. *)
Definition sample_ops : list JournalOp :=
  [OpBind "worker-1"; OpAdmit sample_assignment 10; OpAcquire sample_attempt_id "npu-0" 11;
   OpRunning "attempt-1" 12; OpCancel "attempt-1" 13;
   OpDeliver "connection-1" 1 "assignment-accepted:attempt-1" 14].

Definition sample_outbox_row : OutboxRow :=
  MkOutboxRow "attempt-1" (AssignmentAccepted (MkId "assignment-1" eq_refl) sample_attempt_id false) 10.

Lemma outbox_at_least_once_witness :
  j_outbox (run_op (OpAcknowledge "connection-1" 0) (run_ops sample_ops journal_empty))
    !! "assignment-accepted:attempt-1" = Some sample_outbox_row.
Proof.
  destruct (outbox_at_least_once (OpAcknowledge "connection-1" 0)
    (run_ops sample_ops journal_empty) "assignment-accepted:attempt-1" sample_outbox_row)
    as [H|(c & n & s & d & _ & _ & _ & _ & _ & H)].
  - vm_compute. reflexivity.
  - exact H.
  - vm_compute in H. discriminate H.
Defined.

Lemma finish_is_reported_witness :
  exists j', mark_finished "attempt-1" sample_finished 20 (run_ops sample_ops journal_empty)
    = Ok (tt, j').
Proof.
  destruct (finish_is_reported sample_ops "attempt-1" sample_finished 20
    (MkAttemptRow "assignment-1" (MkLocalAttempt sample_assignment PhaseRunning 10 12 None)))
    as (j' & _ & _ & Hm & _).
  - vm_compute. reflexivity.
  - cbn. intros g Hg. discriminate Hg.
  - by apply N.leb_le.
  - exists j'. exact Hm.
Defined.

Lemma device_lease_is_exclusive_witness :
  j_leases (run_op (OpFinished "attempt-1" sample_finished 20) (run_ops sample_ops journal_empty))
    !! "attempt-1" = Some (MkLeaseRow "npu-0" 11 None).
Proof.
  destruct (device_lease_is_exclusive sample_ops "attempt-1" (MkLeaseRow "npu-0" 11 None))
    as [H _].
  - vm_compute. reflexivity.
  - reflexivity.
  - destruct (H (OpFinished "attempt-1" sample_finished 20)) as [E|(a & t & E & _)];
      [exact E|discriminate E].
Defined.

Lemma repeated_cancel_conflicts_witness :
  acknowledge_cancel "attempt-1" 30
    (run_ops (sample_ops ++ [OpFinished "attempt-1" sample_finished 20]) journal_empty)
  = Some (Err (ConflictingOutboxMessage "cancellation-acknowledged:attempt-1")).
Proof.
  refine (repeated_cancel_conflicts (sample_ops ++ [OpFinished "attempt-1" sample_finished 20])
    "attempt-1" 30 (MkLocalAttempt sample_assignment PhaseFinished 10 20 (Some sample_finished))
    (MkOutboxRow "attempt-1" (CancellationAcknowledged (MkId "assignment-1" eq_refl)
       sample_attempt_id false) 13) _ _ _ _); vm_compute; reflexivity.
Defined.
