(* ===== verification/ControlPlane.v ===== *)
(** * The control plane's durable repository

    [src/crates/alloyport-server/src/storage/model.rs],
    [storage/repository.rs] and the SQLite adapter
    [adapters/sqlite/control_*.rs] and [assignment_delivery.rs]: workers
    and connections, assignments, deliveries, leases, observations and the
    frames to the workers.  Each table is a finite map on its primary key
    (the observations a list in the order of their number); an operation is
    one immediate transaction, and where the code uses separate statements
    or commits on an error the operation returns the repository along with
    its error.  Values stored as JSON are compared as values.  The
    constraints of the schema (primary keys, foreign keys, the unique
    replacement) are written out where a statement can violate them. *)

From stdpp Require Import base strings gmap list sorting numbers sets.
From S2P Require Import Prelude Digest Identity Vocabulary.

Local Open Scope N_scope.

(** ** Data *)

Module State.

(** [enum AttemptState]. *)
Inductive AttemptState :=
| Preparing | Dispatchable | Sent | Accepted | Running | Finished | Rejected | LeaseExpired
| CancelRequested | Cancelled.

(** The codes of [repr(i64)]. *)
Definition attempt_state_code (s : AttemptState) : Z :=
  match s with
  | Preparing => 10 | Dispatchable => 1 | Sent => 2 | Accepted => 3 | Running => 4 | Finished => 5
  | Rejected => 6 | LeaseExpired => 7 | CancelRequested => 8 | Cancelled => 9
  end.

(** [AttemptState::is_replayable]. *)
Definition is_replayable (s : AttemptState) : bool :=
  match s with Dispatchable | Sent | Accepted | Running | CancelRequested => true | _ => false end.

(** [state IN (2, 3, 4, 8)]. *)
Definition leasable (s : AttemptState) : bool :=
  match s with Sent | Accepted | Running | CancelRequested => true | _ => false end.

(** [transition_allowed]. *)
Definition transition_allowed (from to : AttemptState) : bool :=
  match from, to with
  | Sent, (Accepted | Rejected) => true
  | Accepted, (Running | Finished) => true
  | (Running | CancelRequested), Finished => true
  | CancelRequested, Rejected => true
  | _, _ => false
  end.

End State.
Import State (AttemptState, is_replayable, leasable, transition_allowed).

#[export] Instance AttemptState_eq_dec : EqDecision AttemptState.
Proof. solve_decision. Defined.

Module Repo.

(** [enum RepositoryError]; the inner errors and the texts of [Corrupt] and
    [InvalidIdentity] are dropped. *)
Inductive RepositoryError :=
| Storage
| Encoding
| LockPoisoned
| NotFound (attempt : string)
| IdentityMismatch (attempt : string)
| InvalidIdentity
| InvalidTransition (from to : AttemptState)
| ConflictingAttempt (attempt : string)
| Corrupt.

End Repo.
Abbreviation CError := Repo.RepositoryError.

(** [AttemptState::from_i64]. *)
Definition attempt_state_from_i64 (value : Z) : result CError AttemptState :=
  match value with
  | 1 => Ok State.Dispatchable | 2 => Ok State.Sent | 3 => Ok State.Accepted
  | 4 => Ok State.Running | 5 => Ok State.Finished | 6 => Ok State.Rejected
  | 7 => Ok State.LeaseExpired | 8 => Ok State.CancelRequested | 9 => Ok State.Cancelled
  | 10 => Ok State.Preparing
  | _ => Err Repo.Corrupt
  end%Z.

(** [struct WorkerCapabilities]. *)
Record WorkerCapabilities := MkCapabilities {
  wc_backend : Z;
  wc_architecture : string;
  wc_device_count : N;
  wc_max_concurrency : N;
  wc_driver_version : string;
  wc_toolkit_version : string;
  wc_container_runtime : string;
  wc_devices : list AcceleratorDevice;
}.

(** [struct WorkerRegistration]. *)
Record WorkerRegistration := MkRegistration {
  wr_protocol_major : N;
  wr_protocol_minor : N;
  wr_worker_id : string;
  wr_instance_id : string;
  wr_worker_version : string;
  wr_features : list string;
  wr_capabilities : WorkerCapabilities;
}.

(** [struct ConnectionRegistration]. *)
Record ConnectionRegistration := MkConnection {
  cn_connection_id : string;
  cn_worker_id : string;
  cn_instance_id : string;
  cn_connected_at_ms : N;
}.

(** [struct AssignmentRecord]. *)
Record AssignmentRecord := MkAssignmentRecord {
  as_worker_id : string;
  as_contract : AssignmentContract;
  as_state : AttemptState;
  as_created_at_ms : N;
  as_updated_at_ms : N;
  as_cancellation_reason : option string;
}.

(** [struct LeaseRecord]. *)
Record LeaseRecord := MkLeaseRecord {
  lc_attempt_id : string;
  lc_lease_id : string;
  lc_worker_id : string;
  lc_granted_at_ms : N;
  lc_renewed_at_ms : N;
  lc_expires_at_ms : N;
  lc_expired_at_ms : option N;
}.

(** [struct FinishedObservation]. *)
Record FinishedObservation := MkFinishedObservation {
  fo_outcome : AttemptOutcome;
  fo_exit_code : option Z;
  fo_elapsed_ms : N;
  fo_receipt : option ArtifactDescriptor;
  fo_stdout : option ArtifactDescriptor;
  fo_stderr : option ArtifactDescriptor;
  fo_detail : string;
}.

(** [enum AttemptObservation]. *)
Inductive AttemptObservation :=
| OAccepted (already_known : bool)
| ORejected (reason : RejectionReason) (detail : string)
| OStarted
| OFinished (finished : FinishedObservation)
| OCancellationAcknowledged (already_terminal : bool).

(** [AttemptObservation::target_state]. *)
Definition target_state (o : AttemptObservation) : option AttemptState :=
  match o with
  | OAccepted _ => Some State.Accepted
  | ORejected _ _ => Some State.Rejected
  | OStarted => Some State.Running
  | OFinished _ => Some State.Finished
  | OCancellationAcknowledged _ => None
  end.

(** [struct ObservedAttempt]. *)
Record ObservedAttempt := MkObserved {
  ov_assignment_id : AssignmentId;
  ov_attempt_id : AttemptId;
  ov_worker_id : string;
  ov_observed_at_ms : N;
  ov_observation : AttemptObservation;
}.

(** [enum ObservationDisposition]. *)
Inductive ObservationDisposition := Applied | Duplicate | Stale.

#[export] Instance ObservationDisposition_eq_dec : EqDecision ObservationDisposition.
Proof. solve_decision. Defined.

(** [enum StoreAssignmentOutcome] and [struct ReassignmentRecord]. *)
Inductive StoreAssignmentOutcome := AssignmentInserted | AssignmentDuplicate.

Record ReassignmentRecord := MkReassignment {
  re_outcome : StoreAssignmentOutcome;
  re_assignment : AssignmentRecord;
}.

(** [enum CancellationStoreOutcome] ([CancelStored] is its [Requested]) and
    [struct CancellationRecord]. *)
Inductive CancellationStoreOutcome :=
| CancelStored | CancelDuplicate | CancelledBeforeSend | AlreadyTerminal.

Record CancellationRecord := MkCancellation {
  ca_worker_id : string;
  ca_outcome : CancellationStoreOutcome;
}.

(** [enum ServerFrameKind]. *)
Inductive ServerFrameKind := FrameAssignment | FrameCancel.

#[export] Instance ServerFrameKind_eq_dec : EqDecision ServerFrameKind.
Proof. solve_decision. Defined.

(** [struct ServerOutboxFrame]. *)
Record ServerOutboxFrame := MkFrame {
  fr_connection_id : string;
  fr_sequence : N;
  fr_message_id : string;
  fr_worker_id : string;
  fr_kind : ServerFrameKind;
  fr_attempt_id : option string;
}.

(** [struct AssignmentDeliveryPreparation]. *)
Record AssignmentDeliveryPreparation := MkPreparation {
  dp_frame : ServerOutboxFrame;
  dp_lease_id : string;
  dp_last_worker_sequence : N;
  dp_last_server_acknowledged_by_worker : N;
  dp_now_ms : N;
  dp_lease_duration_ms : N;
}.

(** ** Tables *)

(** A row of [workers]. *)
Record WorkerRow := MkWorkerRow {
  wk_registration : WorkerRegistration;
  wk_registered_at_ms : N;
  wk_last_seen_at_ms : N;
}.

(** A row of [worker_connections]. *)
Record ConnectionRow := MkConnectionRow {
  cw_worker_id : string;
  cw_instance_id : string;
  cw_connected_at_ms : N;
  cw_disconnected_at_ms : option N;
  cw_last_worker_sequence : N;
  cw_last_server_sequence : N;
  cw_last_server_acknowledged_by_worker : N;
}.

(** A row of [assignments]. *)
Record AssignmentRow := MkAssignmentRow {
  ar_assignment_id : string;
  ar_worker_id : string;
  ar_contract : AssignmentContract;
  ar_state : AttemptState;
  ar_created_at_ms : N;
  ar_updated_at_ms : N;
  ar_last_sent_at_ms : option N;
  ar_cancellation_reason : option string;
}.

(** A row of [attempt_reassignments]. *)
Record ReassignmentRow := MkReassignmentRow {
  rx_replacement_attempt_id : string;
  rx_replacement_worker_id : string;
  rx_created_at_ms : N;
}.

(** A row of [attempt_leases]. *)
Record AttemptLeaseRow := MkAttemptLease {
  le_lease_id : string;
  le_worker_id : string;
  le_granted_at_ms : N;
  le_renewed_at_ms : N;
  le_expires_at_ms : N;
  le_expired_at_ms : option N;
}.

(** A row of [attempt_observations]. *)
Record ObservationRow := MkObservationRow {
  or_attempt_id : string;
  or_worker_id : string;
  or_observed_at_ms : N;
  or_disposition : ObservationDisposition;
  or_observation : AttemptObservation;
}.

(** A row of [server_outbox_frames]. *)
Record FrameRow := MkFrameRow {
  fw_message_id : string;
  fw_worker_id : string;
  fw_kind : ServerFrameKind;
  fw_attempt_id : option string;
  fw_created_at_ms : N;
  fw_acknowledged_at_ms : option N;
}.

Record Control := MkControl {
  c_workers : gmap string WorkerRow;
  c_connections : gmap string ConnectionRow;
  c_assignments : gmap string AssignmentRow;
  c_reassignments : gmap string ReassignmentRow;
  c_leases : gmap string AttemptLeaseRow;
  c_observations : list ObservationRow;
  c_frames : gmap (string * N) FrameRow;
}.

(** The repository after [SCHEMA]. *)
Definition control_empty : Control := MkControl ∅ ∅ ∅ ∅ ∅ [] ∅.

Definition with_workers (c : Control) t := MkControl t (c_connections c) (c_assignments c)
  (c_reassignments c) (c_leases c) (c_observations c) (c_frames c).
Definition with_connections (c : Control) t := MkControl (c_workers c) t (c_assignments c)
  (c_reassignments c) (c_leases c) (c_observations c) (c_frames c).
Definition with_assignments (c : Control) t := MkControl (c_workers c) (c_connections c) t
  (c_reassignments c) (c_leases c) (c_observations c) (c_frames c).
Definition with_reassignments (c : Control) t := MkControl (c_workers c) (c_connections c)
  (c_assignments c) t (c_leases c) (c_observations c) (c_frames c).
Definition with_leases (c : Control) t := MkControl (c_workers c) (c_connections c)
  (c_assignments c) (c_reassignments c) t (c_observations c) (c_frames c).
Definition with_observations (c : Control) t := MkControl (c_workers c) (c_connections c)
  (c_assignments c) (c_reassignments c) (c_leases c) t (c_frames c).
Definition with_frames (c : Control) t := MkControl (c_workers c) (c_connections c)
  (c_assignments c) (c_reassignments c) (c_leases c) (c_observations c) t.

(** A transaction that returns an outcome; an error rolls it back. *)
Definition CTxn (A : Type) : Type := Control -> result CError (A * Control).

(** [to_i64]. *)
Definition to_sql (value : N) : result CError N :=
  if value <=? i64_max then Ok value else Err Repo.Corrupt.

(** The record of a row. *)
Definition record_of (row : AssignmentRow) : AssignmentRecord :=
  MkAssignmentRecord (ar_worker_id row) (ar_contract row) (ar_state row) (ar_created_at_ms row)
    (ar_updated_at_ms row) (ar_cancellation_reason row).

(** [UPDATE assignments SET state, updated_at_ms] of one row. *)
Definition moved (row : AssignmentRow) (state : AttemptState) (at_ms : N) : AssignmentRow :=
  MkAssignmentRow (ar_assignment_id row) (ar_worker_id row) (ar_contract row) state
    (ar_created_at_ms row) at_ms (ar_last_sent_at_ms row) (ar_cancellation_reason row).

Definition move_assignment (attempt_id : string) (state : AttemptState) (at_ms : N) (c : Control)
    : Control :=
  with_assignments c (alter (fun row => moved row state at_ms) attempt_id (c_assignments c)).

(** ** Workers and connections *)

(** [register_worker]. *)
Definition register_worker (registration : WorkerRegistration) (connection : ConnectionRegistration)
    : CTxn unit := fun c =>
  at_ms ← to_sql (cn_connected_at_ms connection);
  let registered :=
    match c_workers c !! wr_worker_id registration with
    | Some row => wk_registered_at_ms row
    | None => at_ms
    end in
  let workers := <[wr_worker_id registration := MkWorkerRow registration registered at_ms]> (c_workers c) in
  match c_connections c !! cn_connection_id connection, workers !! cn_worker_id connection with
  | None, Some _ =>
      Ok (tt, with_connections (with_workers c workers)
        (<[cn_connection_id connection := MkConnectionRow (cn_worker_id connection)
             (cn_instance_id connection) at_ms None 1 1 0]> (c_connections c)))
  | _, _ => Err Repo.Storage
  end.

Definition with_sequences (row : ConnectionRow) (worker server acknowledged : N) : ConnectionRow :=
  MkConnectionRow (cw_worker_id row) (cw_instance_id row) (cw_connected_at_ms row)
    (cw_disconnected_at_ms row) worker server acknowledged.

Definition seen (row : WorkerRow) (at_ms : N) : WorkerRow :=
  MkWorkerRow (wk_registration row) (wk_registered_at_ms row) at_ms.

(** [update_connection_sequences]: two statements, so the first stands
    when the second fails. *)
Definition update_connection_sequences (connection_id : string)
    (last_worker_sequence last_server_sequence last_server_acknowledged_by_worker observed_at_ms : N)
    (c : Control) : Control * result CError unit :=
  match (w ← to_sql last_worker_sequence;
         s ← to_sql last_server_sequence;
         a ← to_sql last_server_acknowledged_by_worker;
         Ok (w, s, a)) with
  | Err e => (c, Err e)
  | Ok (w, s, a) =>
      let c := with_connections c
        (alter (fun row => with_sequences row w s a) connection_id (c_connections c)) in
      match to_sql observed_at_ms with
      | Err e => (c, Err e)
      | Ok at_ms =>
          (match c_connections c !! connection_id with
           | Some row => with_workers c (alter (fun w => seen w at_ms) (cw_worker_id row) (c_workers c))
           | None => c
           end, Ok tt)
      end
  end.

(** [COALESCE]. *)
Definition coalesce (o : option N) (v : N) : option N :=
  match o with Some _ => o | None => Some v end.

(** [disconnect]. *)
Definition disconnect (connection_id : string) (at_ms : N) : CTxn unit := fun c =>
  at_ms ← to_sql at_ms;
  Ok (tt, with_connections c
    (alter (fun row => MkConnectionRow (cw_worker_id row) (cw_instance_id row) (cw_connected_at_ms row)
              (coalesce (cw_disconnected_at_ms row) at_ms) (cw_last_worker_sequence row)
              (cw_last_server_sequence row) (cw_last_server_acknowledged_by_worker row))
       connection_id (c_connections c))).

(** ** Assignments *)

(** [store_assignment]. *)
Definition store_assignment (worker_id : string) (contract : AssignmentContract) (at_ms : N)
    : CTxn StoreAssignmentOutcome := fun c =>
  let key := as_str (ac_attempt_id contract) in
  match c_assignments c !! key with
  | Some existing =>
      if bool_decide (ar_worker_id existing = worker_id) && bool_decide (ar_contract existing = contract)
      then Ok (AssignmentDuplicate, c) else Err (Repo.ConflictingAttempt key)
  | None =>
      at_ms ← to_sql at_ms;
      Ok (AssignmentInserted, with_assignments c
        (<[key := MkAssignmentRow (as_str (ac_assignment_id contract)) worker_id contract
             State.Preparing at_ms at_ms None None]> (c_assignments c)))
  end.

(** [assignment_identity]. *)
Definition assignment_identity (attempt_id worker_id : string) (assignment_id : option string)
    (c : Control) : result CError AttemptState :=
  row ← ok_or (c_assignments c !! attempt_id) (Repo.NotFound attempt_id);
  _ ← guard_err (negb (bool_decide (ar_worker_id row = worker_id))
        || match assignment_id with
           | Some expected => negb (bool_decide (ar_assignment_id row = expected))
           | None => false
           end) (Repo.IdentityMismatch attempt_id);
  Ok (ar_state row).

(** [mark_assignment_dispatchable]. *)
Definition mark_assignment_dispatchable (attempt_id worker_id : string) (at_ms : N) : CTxn bool :=
  fun c =>
  state ← assignment_identity attempt_id worker_id None c;
  if bool_decide (state = State.Preparing)
  then at_ms ← to_sql at_ms; Ok (true, move_assignment attempt_id State.Dispatchable at_ms c)
  else Ok (false, c).

(** [defer_preparation]. *)
Definition defer_assignment_preparation (attempt_id worker_id : string) (retry_at_ms : N) : CTxn bool :=
  fun c =>
  retry_at_ms ← to_sql retry_at_ms;
  match c_assignments c !! attempt_id with
  | Some row =>
      if bool_decide (ar_worker_id row = worker_id) && bool_decide (ar_state row = State.Preparing)
      then Ok (true, move_assignment attempt_id State.Preparing retry_at_ms c)
      else Ok (false, c)
  | None => Ok (false, c)
  end.

(** [existing_reassignment]. *)
Definition existing_reassignment (expired_attempt_id replacement_worker_id replacement_attempt_id : string)
    (c : Control) : result CError (option AssignmentRecord) :=
  match c_reassignments c !! expired_attempt_id with
  | None => Ok None
  | Some existing =>
      _ ← guard_err (negb (bool_decide (rx_replacement_attempt_id existing = replacement_attempt_id))
            || negb (bool_decide (rx_replacement_worker_id existing = replacement_worker_id)))
            (Repo.ConflictingAttempt expired_attempt_id);
      row ← ok_or (c_assignments c !! replacement_attempt_id) (Repo.NotFound replacement_attempt_id);
      Ok (Some (record_of row))
  end.

(** The contract of a replacement. *)
Definition renumbered (contract : AssignmentContract) (attempt_id : AttemptId) : AssignmentContract :=
  MkAssignment (ac_assignment_id contract) attempt_id
    (saturating_add u32_max (ac_attempt_number contract) 1) (ac_idempotency_key contract)
    (ac_task_id contract) (ac_candidate_id contract) (ac_execution contract)
    (ac_required_features contract).

(** [insert_reassignment]; the primary key of [attempt_reassignments] was
    looked up before, its unique replacement is checked by the database. *)
Definition insert_reassignment (original : AssignmentRow)
    (expired_attempt_id replacement_worker_id replacement_attempt_id : string) (at_ms : N)
    : CTxn AssignmentRecord := fun c =>
  _ ← guard_err (bool_decide (is_Some (c_assignments c !! replacement_attempt_id)))
        (Repo.ConflictingAttempt replacement_attempt_id);
  id ← map_err (fun _ => Repo.InvalidIdentity) (parse_id KAttempt replacement_attempt_id);
  at_ms ← to_sql at_ms;
  let row := MkAssignmentRow (as_str (ac_assignment_id (ar_contract original))) replacement_worker_id
    (renumbered (ar_contract original) id) State.Preparing at_ms at_ms None None in
  _ ← guard_err (bool_decide (replacement_attempt_id
                   ∈ (rx_replacement_attempt_id ∘ snd <$> map_to_list (c_reassignments c)))) Repo.Storage;
  Ok (record_of row,
      with_reassignments
        (with_assignments c (<[replacement_attempt_id := row]> (c_assignments c)))
        (<[expired_attempt_id := MkReassignmentRow replacement_attempt_id replacement_worker_id at_ms]>
           (c_reassignments c))).

(** [reassign_expired]. *)
Definition reassign_expired (expired_attempt_id replacement_worker_id replacement_attempt_id : string)
    (at_ms : N) : CTxn ReassignmentRecord := fun c =>
  existing ← existing_reassignment expired_attempt_id replacement_worker_id replacement_attempt_id c;
  match existing with
  | Some assignment => Ok (MkReassignment AssignmentDuplicate assignment, c)
  | None =>
      original ← ok_or (c_assignments c !! expired_attempt_id) (Repo.NotFound expired_attempt_id);
      _ ← guard_err (negb (bool_decide (ar_state original = State.LeaseExpired)))
            (Repo.InvalidTransition (ar_state original) State.Dispatchable);
      _ ← guard_err (bool_decide (replacement_attempt_id = EmptyString)
                     || bool_decide (replacement_attempt_id = expired_attempt_id))
            (Repo.ConflictingAttempt replacement_attempt_id);
      inserted ← insert_reassignment original expired_attempt_id replacement_worker_id
                   replacement_attempt_id at_ms c;
      Ok (MkReassignment AssignmentInserted inserted.1, inserted.2)
  end.

(** [assignment]. *)
Definition assignment (attempt_id : string) (c : Control) : option AssignmentRecord :=
  record_of <$> c_assignments c !! attempt_id.

(** The most recent terminal observation of an attempt. *)
Definition latest_finished (attempt_id : string) (observations : list ObservationRow)
    : option FinishedObservation :=
  head (omap (fun row => if bool_decide (or_attempt_id row = attempt_id)
                         then match or_observation row with OFinished f => Some f | _ => None end
                         else None) (reverse observations)).

(** [finished_observation]. *)
Definition finished_observation (attempt_id : string) (c : Control)
    : result CError (option FinishedObservation) :=
  match c_assignments c !! attempt_id with
  | Some row =>
      if bool_decide (ar_state row = State.Finished) then
        f ← ok_or (latest_finished attempt_id (c_observations c)) Repo.Corrupt; Ok (Some f)
      else Ok None
  | None => Ok None
  end.

(** [ORDER BY updated_at_ms, attempt_id] and [ORDER BY created_at_ms,
    attempt_id]. *)
Definition ordered_by (at_ms : AssignmentRow -> N) (a b : string * AssignmentRow) : Prop :=
  at_ms a.2 < at_ms b.2 \/ (at_ms a.2 = at_ms b.2 /\ String.le a.1 b.1).
#[export] Instance ordered_by_dec at_ms : RelDecision (ordered_by at_ms).
Proof. intros a b. unfold ordered_by. apply _. Defined.

Definition rows_in_state (p : AttemptState -> bool) (c : Control) : list (string * AssignmentRow) :=
  filter (fun kr => Is_true (p (ar_state kr.2))) (map_to_list (c_assignments c)).

(** [load_preparing]. *)
Definition preparing_assignments (limit : N) (c : Control) : result CError (list AssignmentRecord) :=
  if limit =? 0 then Ok [] else
  limit ← to_sql limit;
  Ok (take (N.to_nat limit) ((record_of ∘ snd) <$>
    merge_sort (ordered_by ar_updated_at_ms)
      (rows_in_state (fun s => bool_decide (s = State.Preparing)) c))).

(** [preparing_count]. *)
Definition preparing_assignment_count (c : Control) : nat :=
  length (rows_in_state (fun s => bool_decide (s = State.Preparing)) c).

(** [replayable_assignments]. *)
Definition replayable_assignments (worker_id : string) (c : Control) : list AssignmentRecord :=
  (record_of ∘ snd) <$>
    filter (fun kr => ar_worker_id kr.2 = worker_id)
      (merge_sort (ordered_by ar_created_at_ms) (rows_in_state is_replayable c)).

(** ** Leases *)

(** [expire_one] and [expire]. *)
Definition expire_one (attempt_id : string) (now_ms : N) (c : Control) : result CError Control :=
  now_ms ← to_sql now_ms;
  let c := with_leases c
    (alter (fun l => MkAttemptLease (le_lease_id l) (le_worker_id l) (le_granted_at_ms l)
              (le_renewed_at_ms l) (le_expires_at_ms l) (coalesce (le_expired_at_ms l) now_ms))
       attempt_id (c_leases c)) in
  Ok match c_assignments c !! attempt_id with
     | Some row =>
         if leasable (ar_state row) then move_assignment attempt_id State.LeaseExpired now_ms c else c
     | None => c
     end.

(** The loop body of [renew_active_leases]. *)
Definition renew_lease (worker_id attempt_id : string) (now_ms lease_duration_ms : N) (c : Control)
    : result CError Control :=
  state ← assignment_identity attempt_id worker_id None c;
  if is_replayable state then
    match c_leases c !! attempt_id with
    | None => Ok c
    | Some l =>
        if bool_decide (is_Some (le_expired_at_ms l)) || (le_expires_at_ms l <=? now_ms)
        then expire_one attempt_id now_ms c
        else
          now_ms' ← to_sql now_ms;
          expires ← to_sql (saturating_add u64_max now_ms lease_duration_ms);
          Ok (with_leases c (<[attempt_id := MkAttemptLease (le_lease_id l) (le_worker_id l)
                (le_granted_at_ms l) now_ms' expires (le_expired_at_ms l)]> (c_leases c)))
    end
  else Ok c.

(** [renew_active_leases]. *)
Fixpoint renew_active_leases (worker_id : string) (attempt_ids : list string)
    (now_ms lease_duration_ms : N) (c : Control) : result CError (unit * Control) :=
  match attempt_ids with
  | [] => Ok (tt, c)
  | attempt_id :: attempt_ids =>
      c ← renew_lease worker_id attempt_id now_ms lease_duration_ms c;
      renew_active_leases worker_id attempt_ids now_ms lease_duration_ms c
  end.

(** The attempts whose lease is due, in their order. *)
Definition due_leases (now_ms : N) (c : Control) : list string :=
  merge_sort String.le (fst <$>
    filter (fun kl => le_expired_at_ms kl.2 = None /\ le_expires_at_ms kl.2 <= now_ms
                      /\ Is_true (match c_assignments c !! kl.1 with
                                  | Some row => leasable (ar_state row)
                                  | None => false
                                  end)) (map_to_list (c_leases c))).

Fixpoint expire_all (attempt_ids : list string) (now_ms : N) (c : Control) : result CError Control :=
  match attempt_ids with
  | [] => Ok c
  | attempt_id :: attempt_ids =>
      c ← expire_one attempt_id now_ms c;
      expire_all attempt_ids now_ms c
  end.

(** [expire_leases]. *)
Definition expire_leases (now_ms : N) : CTxn (list string) := fun c =>
  now ← to_sql now_ms;
  let expired := due_leases now c in
  c ← expire_all expired now_ms c;
  Ok (expired, c).

(** [lease]. *)
Definition lease (attempt_id : string) (c : Control) : option LeaseRecord :=
  (fun l => MkLeaseRecord attempt_id (le_lease_id l) (le_worker_id l) (le_granted_at_ms l)
     (le_renewed_at_ms l) (le_expires_at_ms l) (le_expired_at_ms l)) <$> c_leases c !! attempt_id.

(** ** Observations *)

(** Whether there is a lease that ends by now ([lease_expiry] of
    [observe_attempt], [reject_expired_lease]). *)
Definition lease_is_due (attempt_id : string) (now_ms : N) (c : Control) : bool :=
  match c_leases c !! attempt_id with Some l => le_expires_at_ms l <=? now_ms | None => false end.

(** The observation changes the state, or is classified without. *)
Inductive Classified :=
| Advance (target : AttemptState)
| Late
| Repeated
| Acknowledged (disposition : ObservationDisposition).

(** The match on the target of an observation. *)
Definition classify (current : AttemptState) (target : option AttemptState) (lease_due : bool)
    : result CError Classified :=
  match target with
  | None =>
      match current with
      | State.CancelRequested => Ok (Acknowledged Applied)
      | State.Finished | State.Cancelled => Ok (Acknowledged Duplicate)
      | State.LeaseExpired => Ok (Acknowledged Stale)
      | _ => Err (Repo.InvalidTransition current State.CancelRequested)
      end
  | Some target =>
      let is_late :=
        bool_decide (current = State.LeaseExpired)
        || (bool_decide (current = State.Rejected) && bool_decide (target = State.Finished))
        || (bool_decide (target = State.Finished) && negb (bool_decide (current = State.Finished))
            && lease_due) in
      if is_late then Ok Late
      else if bool_decide (current = target) || bool_decide (current = State.Finished)
              || (bool_decide (current = State.Running) && bool_decide (target = State.Accepted))
              || (bool_decide (current = State.CancelRequested) && bool_decide (target = State.Accepted))
      then Ok Repeated
      else if transition_allowed current target then Ok (Advance target)
      else Err (Repo.InvalidTransition current target)
  end.

(** [observe_attempt]. *)
Definition observe_attempt (observation : ObservedAttempt) : CTxn ObservationDisposition := fun c =>
  let attempt_id := as_str (ov_attempt_id observation) in
  let at_ms := ov_observed_at_ms observation in
  current ← assignment_identity attempt_id (ov_worker_id observation)
              (Some (as_str (ov_assignment_id observation))) c;
  class ← classify current (target_state (ov_observation observation)) (lease_is_due attempt_id at_ms c);
  classified ← match class with
    | Acknowledged disposition => Ok (disposition, c)
    | Late => c ← expire_one attempt_id at_ms c; Ok (Stale, c)
    | Repeated => Ok (Duplicate, c)
    | Advance target => at_ms ← to_sql at_ms; Ok (Applied, move_assignment attempt_id target at_ms c)
    end;
  let '(disposition, c) := classified in
  at_ms ← to_sql at_ms;
  Ok (disposition, with_observations c
        (c_observations c ++ [MkObservationRow attempt_id (ov_worker_id observation) at_ms disposition
                                (ov_observation observation)])).

(** [request_cancellation]. *)
Definition request_cancellation (attempt_id reason : string) (now_ms : N) : CTxn CancellationRecord :=
  fun c =>
  row ← ok_or (c_assignments c !! attempt_id) (Repo.NotFound attempt_id);
  let store state outcome :=
    now_ms ← to_sql now_ms;
    Ok (MkCancellation (ar_worker_id row) outcome,
        with_assignments c (<[attempt_id := MkAssignmentRow (ar_assignment_id row) (ar_worker_id row)
          (ar_contract row) state (ar_created_at_ms row) now_ms (ar_last_sent_at_ms row)
          (Some reason)]> (c_assignments c))) in
  match ar_state row with
  | State.Preparing | State.Dispatchable => store State.Cancelled CancelledBeforeSend
  | State.Sent | State.Accepted | State.Running => store State.CancelRequested CancelStored
  | State.CancelRequested => store State.CancelRequested CancelDuplicate
  | State.Finished | State.Rejected | State.LeaseExpired | State.Cancelled =>
      Ok (MkCancellation (ar_worker_id row) AlreadyTerminal, c)
  end.

(** ** Deliveries and frames *)

(** [load_assignment]. *)
Definition load_assignment (preparation : AssignmentDeliveryPreparation) (attempt_id : string)
    (c : Control) : result CError AssignmentRow :=
  row ← ok_or (c_assignments c !! attempt_id) (Repo.NotFound attempt_id);
  _ ← guard_err (negb (bool_decide (ar_worker_id row = fr_worker_id (dp_frame preparation))))
        (Repo.IdentityMismatch attempt_id);
  Ok row.

(** What [prepare] checks before it looks at the lease. *)
Definition deliverable (preparation : AssignmentDeliveryPreparation) (c : Control)
    : result CError (string * AssignmentRow) :=
  attempt_id ← ok_or (fr_attempt_id (dp_frame preparation)) Repo.Corrupt;
  _ ← guard_err (negb (bool_decide (fr_kind (dp_frame preparation) = FrameAssignment))) Repo.Corrupt;
  row ← load_assignment preparation attempt_id c;
  _ ← guard_err (negb (is_replayable (ar_state row)))
        (Repo.InvalidTransition (ar_state row) State.Sent);
  Ok (attempt_id, row).

(** [INSERT INTO server_outbox_frames]. *)
Definition insert_frame (frame : ServerOutboxFrame) (now_ms : N) (c : Control) : result CError Control :=
  sequence ← to_sql (fr_sequence frame);
  now_ms ← to_sql now_ms;
  match c_frames c !! (fr_connection_id frame, sequence) with
  | Some _ => Err Repo.Storage
  | None => Ok (with_frames c
      (<[(fr_connection_id frame, sequence) := MkFrameRow (fr_message_id frame) (fr_worker_id frame)
           (fr_kind frame) (fr_attempt_id frame) now_ms None]> (c_frames c)))
  end.

(** The row of a delivered assignment. *)
Definition sent_row (row : AssignmentRow) (now_ms : N) : AssignmentRow :=
  MkAssignmentRow (ar_assignment_id row) (ar_worker_id row) (ar_contract row)
    (if bool_decide (ar_state row = State.Dispatchable) then State.Sent else ar_state row)
    (ar_created_at_ms row) now_ms (Some now_ms) (ar_cancellation_reason row).

(** The lease of a delivery: granted, or extended and no longer expired. *)
Definition granted_lease (preparation : AssignmentDeliveryPreparation) (existing : option AttemptLeaseRow)
    (now_ms expires_at_ms : N) : AttemptLeaseRow :=
  match existing with
  | Some l => MkAttemptLease (le_lease_id l) (le_worker_id l) (le_granted_at_ms l) now_ms
                expires_at_ms None
  | None => MkAttemptLease (dp_lease_id preparation) (fr_worker_id (dp_frame preparation)) now_ms now_ms
              expires_at_ms None
  end.

(** The statements of [prepare] after its checks. *)
Definition publish (preparation : AssignmentDeliveryPreparation) (attempt_id : string)
    (row : AssignmentRow) (c : Control) : result CError Control :=
  let frame := dp_frame preparation in
  now_ms ← to_sql (dp_now_ms preparation);
  let c := with_assignments c (<[attempt_id := sent_row row now_ms]> (c_assignments c)) in
  expires ← to_sql (saturating_add u64_max (dp_now_ms preparation) (dp_lease_duration_ms preparation));
  let c := with_leases c (<[attempt_id :=
    granted_lease preparation (c_leases c !! attempt_id) now_ms expires]> (c_leases c)) in
  c ← insert_frame frame (dp_now_ms preparation) c;
  worker ← to_sql (dp_last_worker_sequence preparation);
  server ← to_sql (fr_sequence frame);
  acknowledged ← to_sql (dp_last_server_acknowledged_by_worker preparation);
  match c_connections c !! fr_connection_id frame with
  | Some connection =>
      if bool_decide (cw_worker_id connection = fr_worker_id frame)
         && bool_decide (cw_disconnected_at_ms connection = None)
      then
        let c := with_connections c (<[fr_connection_id frame :=
          with_sequences connection worker server acknowledged]> (c_connections c)) in
        Ok (with_workers c (alter (fun w => seen w now_ms) (fr_worker_id frame) (c_workers c)))
      else Err Repo.Corrupt
  | None => Err Repo.Corrupt
  end.

(** [prepare_assignment_delivery]: the refusal of a due lease, which
    expires it, is committed. *)
Definition prepare_assignment_delivery (preparation : AssignmentDeliveryPreparation) (c : Control)
    : Control * result CError AssignmentContract :=
  match deliverable preparation c with
  | Err e => (c, Err e)
  | Ok (attempt_id, row) =>
      if lease_is_due attempt_id (dp_now_ms preparation) c then
        match expire_one attempt_id (dp_now_ms preparation) c with
        | Ok c' => (c', Err (Repo.InvalidTransition State.LeaseExpired State.Sent))
        | Err e => (c, Err e)
        end
      else
        match publish preparation attempt_id row c with
        | Ok c' => (c', Ok (ar_contract row))
        | Err e => (c, Err e)
        end
  end.

(** [record_server_frame]. *)
Definition record_server_frame (frame : ServerOutboxFrame) (now_ms : N) : CTxn unit := fun c =>
  c ← insert_frame frame now_ms c; Ok (tt, c).

(** The update of [compact_server_frames]. *)
Definition acknowledge_frame (connection_id : string) (through now_ms : N) (k : string * N) (f : FrameRow)
    : FrameRow :=
  if bool_decide (k.1 = connection_id) && (k.2 <=? through)
     && bool_decide (fw_acknowledged_at_ms f = None)
  then MkFrameRow (fw_message_id f) (fw_worker_id f) (fw_kind f) (fw_attempt_id f) (fw_created_at_ms f)
         (Some now_ms)
  else f.

(** [compact_server_frames]. *)
Definition compact_server_frames (connection_id : string) (acknowledged_through now_ms : N) : CTxn nat :=
  fun c =>
  through ← to_sql acknowledged_through;
  now_ms ← to_sql now_ms;
  let frames := map_imap (fun k f => Some (acknowledge_frame connection_id through now_ms k f)) (c_frames c) in
  let kept := filter (fun kf => ~ (kf.1.1 = connection_id /\ is_Some (fw_acknowledged_at_ms kf.2))) frames in
  Ok ((size frames - size kept)%nat, with_frames c kept).

(** [server_outbox_len]. *)
Definition server_outbox_len (connection_id : string) (c : Control) : nat :=
  size (filter (fun kf => kf.1.1 = connection_id) (c_frames c)).

(** [prune_orphaned_server_frames]. *)
Definition prune_orphaned_server_frames (disconnected_before_ms : N) : CTxn nat := fun c =>
  before ← to_sql disconnected_before_ms;
  let orphaned connection_id :=
    match c_connections c !! connection_id with
    | Some row => match cw_disconnected_at_ms row with Some t => t <? before | None => false end
    | None => false
    end in
  let kept := filter (fun kf => orphaned kf.1.1 = false) (c_frames c) in
  Ok ((size (c_frames c) - size kept)%nat, with_frames c kept).

(** ** Operations as steps *)

(** The calls that change the repository. *)
Inductive ControlOp :=
| COpRegister (registration : WorkerRegistration) (connection : ConnectionRegistration)
| COpSequences (connection_id : string) (worker server acknowledged at_ms : N)
| COpDisconnect (connection_id : string) (at_ms : N)
| COpStore (worker_id : string) (contract : AssignmentContract) (at_ms : N)
| COpDispatchable (attempt_id worker_id : string) (at_ms : N)
| COpDefer (attempt_id worker_id : string) (retry_at_ms : N)
| COpReassign (expired_attempt_id worker_id replacement_attempt_id : string) (at_ms : N)
| COpPrepare (preparation : AssignmentDeliveryPreparation)
| COpObserve (observation : ObservedAttempt)
| COpRenew (worker_id : string) (attempt_ids : list string) (now_ms lease_duration_ms : N)
| COpExpire (now_ms : N)
| COpCancel (attempt_id reason : string) (now_ms : N)
| COpFrame (frame : ServerOutboxFrame) (now_ms : N)
| COpCompact (connection_id : string) (acknowledged_through now_ms : N)
| COpPruneFrames (disconnected_before_ms : N).

(** A failed transaction rolls back. *)
Definition committed {A} (c : Control) (r : result CError (A * Control)) : Control :=
  match r with Ok (_, c') => c' | Err _ => c end.

Definition run_control (op : ControlOp) (c : Control) : Control :=
  match op with
  | COpRegister r n => committed c (register_worker r n c)
  | COpSequences id w s a t => (update_connection_sequences id w s a t c).1
  | COpDisconnect id t => committed c (disconnect id t c)
  | COpStore w a t => committed c (store_assignment w a t c)
  | COpDispatchable a w t => committed c (mark_assignment_dispatchable a w t c)
  | COpDefer a w t => committed c (defer_assignment_preparation a w t c)
  | COpReassign e w r t => committed c (reassign_expired e w r t c)
  | COpPrepare p => (prepare_assignment_delivery p c).1
  | COpObserve o => committed c (observe_attempt o c)
  | COpRenew w l t d => committed c (renew_active_leases w l t d c)
  | COpExpire t => committed c (expire_leases t c)
  | COpCancel a r t => committed c (request_cancellation a r t c)
  | COpFrame f t => committed c (record_server_frame f t c)
  | COpCompact id n t => committed c (compact_server_frames id n t c)
  | COpPruneFrames t => committed c (prune_orphaned_server_frames t c)
  end.

Definition run_controls (ops : list ControlOp) (c : Control) : Control :=
  foldl (fun c op => run_control op c) c ops.

(** ** The lifecycle *)

(** Every change of state any operation makes. *)
Definition lifecycle_step (from to : AttemptState) : bool :=
  transition_allowed from to
  || match from, to with
     | State.Preparing, (State.Dispatchable | State.Cancelled) => true
     | State.Dispatchable, (State.Sent | State.Cancelled) => true
     | (State.Sent | State.Accepted | State.Running), State.CancelRequested => true
     | (State.Sent | State.Accepted | State.Running | State.CancelRequested), State.LeaseExpired => true
     | _, _ => false
     end.

(** How far an attempt has come. *)
Definition progress (s : AttemptState) : nat :=
  match s with
  | State.Preparing => 0 | State.Dispatchable => 1 | State.Sent => 2 | State.Accepted => 3
  | State.Running => 4 | State.CancelRequested => 5
  | State.Finished | State.Rejected | State.LeaseExpired | State.Cancelled => 6
  end.

Definition is_final (s : AttemptState) : bool := bool_decide (progress s = 6%nat).

Lemma lifecycle_step_progress a b : lifecycle_step a b = true -> (progress a < progress b)%nat.
Proof. destruct a, b; cbn; try done; lia. Qed.

Lemma lifecycle_step_not_final a b : lifecycle_step a b = true -> is_final a = false.
Proof. by destruct a, b. Qed.

Definition lifecycle_path : relation AttemptState := rtc (fun a b => lifecycle_step a b = true).

Lemma lifecycle_path_final a b : lifecycle_path a b -> is_final a = true -> b = a.
Proof.
  induction 1 as [|a b c Hs _ IH]; [done|].
  intros Hf. by rewrite (lifecycle_step_not_final _ _ Hs) in Hf.
Qed.

Lemma lifecycle_path_progress a b : lifecycle_path a b -> (progress a <= progress b)%nat.
Proof. induction 1 as [|a b c Hs%lifecycle_step_progress _ IH]; lia. Qed.

(** The same attempt at a later time. *)
Record row_after (r r' : AssignmentRow) : Prop := {
  ra_assignment_id : ar_assignment_id r' = ar_assignment_id r;
  ra_worker_id : ar_worker_id r' = ar_worker_id r;
  ra_contract : ar_contract r' = ar_contract r;
  ra_created : ar_created_at_ms r' = ar_created_at_ms r;
  ra_state : lifecycle_path (ar_state r) (ar_state r');
}.

(** The same lease at a later time; what has expired stays as it was. *)
Record lease_after (l l' : AttemptLeaseRow) : Prop := {
  la_lease_id : le_lease_id l' = le_lease_id l;
  la_worker : le_worker_id l' = le_worker_id l;
  la_granted : le_granted_at_ms l' = le_granted_at_ms l;
  la_expired : is_Some (le_expired_at_ms l) -> l' = l;
}.

#[export] Instance row_after_preorder : PreOrder row_after.
Proof.
  split; [by intros r; constructor|].
  intros a b c [] []. constructor; try congruence. by etrans.
Qed.

#[export] Instance lease_after_preorder : PreOrder lease_after.
Proof.
  split; [by intros l; constructor|].
  intros a b c [A1 A2 A3 A4] [B1 B2 B3 B4]. constructor; try congruence.
  intros Hs. specialize (A4 Hs). subst b. by apply B4.
Qed.

(** Every entry of a table survives, at a later time. *)
Definition table_after {A} (R : A -> A -> Prop) (m m' : gmap string A) : Prop :=
  forall k x, m !! k = Some x -> exists x', m' !! k = Some x' /\ R x x'.

#[export] Instance table_after_preorder {A} (R : A -> A -> Prop) `{!PreOrder R} :
  PreOrder (table_after R).
Proof.
  split; [intros m k x ?; by exists x|].
  intros a b c Hab Hbc k x (y & (z & ? & ?)%Hbc & ?)%Hab. exists z. split; [done|by etrans].
Qed.

(** What the repository never forgets. *)
Record control_after (c c' : Control) : Prop := {
  cf_assignments : table_after row_after (c_assignments c) (c_assignments c');
  cf_leases : table_after lease_after (c_leases c) (c_leases c');
  cf_reassignments : table_after eq (c_reassignments c) (c_reassignments c');
  cf_observations : c_observations c `prefix_of` c_observations c';
}.

#[export] Instance control_after_preorder : PreOrder control_after.
Proof.
  split; [by intros c; constructor|].
  intros a b c [] []. constructor; by etrans.
Qed.

(** ** Invariant *)

(** The attempt was sent at some time. *)
Definition was_sent (s : AttemptState) : bool :=
  match s with State.Preparing | State.Dispatchable | State.Cancelled => false | _ => true end.

(** The applied terminal observation of an attempt. *)
Definition applied_finish (attempt_id : string) (row : ObservationRow) : Prop :=
  or_attempt_id row = attempt_id /\ or_disposition row = Applied
  /\ exists f, or_observation row = OFinished f.

(** An attempt, its lease and its observations agree. *)
Record attempt_ok (k : string) (r : AssignmentRow) (ol : option AttemptLeaseRow)
    (observations : list ObservationRow) : Prop := {
  ao_key : as_str (ac_attempt_id (ar_contract r)) = k;
  ao_assignment : ar_assignment_id r = as_str (ac_assignment_id (ar_contract r));
  ao_sent : was_sent (ar_state r) = true <-> is_Some ol;
  ao_worker : forall l, ol = Some l -> le_worker_id l = ar_worker_id r;
  ao_expired : forall l, ol = Some l -> is_Some (le_expired_at_ms l) -> is_final (ar_state r) = true;
  ao_lapsed : ar_state r = State.LeaseExpired ->
    exists l, ol = Some l /\ is_Some (le_expired_at_ms l);
  ao_finished : ar_state r = State.Finished <-> exists o, o ∈ observations /\ applied_finish k o;
  ao_cancel : ar_state r = State.CancelRequested \/ ar_state r = State.Cancelled ->
    is_Some (ar_cancellation_reason r);
}.

Record CInv (c : Control) : Prop := {
  ci_attempt : forall k r, c_assignments c !! k = Some r ->
    attempt_ok k r (c_leases c !! k) (c_observations c);
  ci_lease : forall k l, c_leases c !! k = Some l -> is_Some (c_assignments c !! k);
  ci_observed : forall o, o ∈ c_observations c -> is_Some (c_assignments c !! or_attempt_id o);
  ci_reassigned : forall k x, c_reassignments c !! k = Some x ->
    exists r r', c_assignments c !! k = Some r /\ ar_state r = State.LeaseExpired
    /\ c_assignments c !! rx_replacement_attempt_id x = Some r'
    /\ ar_worker_id r' = rx_replacement_worker_id x
    /\ ar_contract r' = renumbered (ar_contract r) (ac_attempt_id (ar_contract r'));
  ci_replacement : forall k1 k2 x1 x2, c_reassignments c !! k1 = Some x1 ->
    c_reassignments c !! k2 = Some x2 -> rx_replacement_attempt_id x1 = rx_replacement_attempt_id x2 ->
    k1 = k2;
}.

Lemma control_empty_inv : CInv control_empty.
Proof. constructor; cbn; try done. by intros o ?%elem_of_nil. Qed.

(** The invariant survives and nothing is forgotten. *)
Definition keeps (c c' : Control) : Prop := CInv c -> CInv c' /\ control_after c c'.

Lemma keeps_refl c : keeps c c.
Proof. by intros H. Qed.

Lemma keeps_trans a b c : keeps a b -> keeps b c -> keeps a c.
Proof. intros Hab Hbc [Hb Ha]%Hab. destruct (Hbc Hb) as [Hc Hb']. split; [done|by etrans]. Qed.

(** Only workers, connections or frames changed. *)
Lemma keeps_core c c' :
  c_assignments c' = c_assignments c -> c_leases c' = c_leases c ->
  c_reassignments c' = c_reassignments c -> c_observations c' = c_observations c -> keeps c c'.
Proof.
  intros E1 E2 E3 E4 [I1 I2 I3 I4 I5].
  split; constructor; rewrite ?E1, ?E2, ?E3, ?E4; done.
Qed.

(** One attempt changed: its row, its lease, and observations of it. *)
Record touched (k : string) (r' : AssignmentRow) (ol' : option AttemptLeaseRow)
    (new : list ObservationRow) (c c' : Control) : Prop := {
  to_row : c_assignments c' = <[k := r']> (c_assignments c);
  to_lease : c_leases c' !! k = ol';
  to_leases : forall j, j <> k -> c_leases c' !! j = c_leases c !! j;
  to_observations : c_observations c' = c_observations c ++ new;
  to_new : forall o, o ∈ new -> or_attempt_id o = k;
  to_reassignments : c_reassignments c' = c_reassignments c;
}.

Lemma lifecycle_path_sent a b : lifecycle_path a b -> was_sent a = true -> was_sent b = true.
Proof. induction 1 as [|a b c Hs _ IH]; [done|]. intros Ha. apply IH. by destruct a, b. Qed.

Lemma touched_keeps k r r' ol' new c c' :
  c_assignments c !! k = Some r -> touched k r' ol' new c c' -> row_after r r' ->
  (forall l, c_leases c !! k = Some l -> exists l', ol' = Some l' /\ lease_after l l') ->
  attempt_ok k r' ol' (c_observations c ++ new) -> keeps c c'.
Proof.
  intros Hr [T1 T2 T3 T4 T5 T6] Hafter Hlease Hok [I1 I2 I3 I4 I5].
  assert (table_after row_after (c_assignments c) (c_assignments c')) as Hrows.
  { intros j x Hj. rewrite T1. destruct (decide (j = k)) as [->|Hne].
    - rewrite lookup_insert_eq. exists r'. split; [done|]. by simplify_eq.
    - rewrite lookup_insert_ne by done. by exists x. }
  split.
  - constructor.
    + intros j x. rewrite T1, T4. destruct (decide (j = k)) as [->|Hne].
      * rewrite lookup_insert_eq, T2. by intros [= <-].
      * rewrite lookup_insert_ne, T3 by done. intros Hj. destruct (I1 _ _ Hj) as [A1 A2 A3 A4 A5 A6 A7 A8].
        constructor; try done. rewrite A7. split; intros (o & Ho & Hf); exists o;
          rewrite ?elem_of_app in *; [by auto|]. split; [|done]. destruct Ho as [Ho|Ho]; [done|].
        exfalso. apply Hne. rewrite <-(T5 _ Ho). symmetry. apply Hf.
    + intros j l Hj. destruct (decide (j = k)) as [->|Hne]; [rewrite T1, lookup_insert_eq; by eexists|].
      rewrite T3 in Hj by done. destruct (I2 _ _ Hj) as [x Hx]. rewrite T1, lookup_insert_ne by done. by exists x.
    + intros o. rewrite T4, elem_of_app. intros [Ho|Ho].
      * destruct (I3 _ Ho) as [x Hx]. destruct (Hrows _ _ Hx) as (x' & ? & _). by exists x'.
      * rewrite (T5 _ Ho), T1, lookup_insert_eq. by eexists.
    + intros j x. rewrite T6. intros (a & b & Ha & Hs & Hb & Hw & Hc)%I4.
      destruct (Hrows _ _ Ha) as (a' & Ha' & Raa). destruct (Hrows _ _ Hb) as (b' & Hb' & Rbb).
      exists a', b'. split; [done|]. split.
      { rewrite <-Hs. apply lifecycle_path_final; [apply Raa|]. by rewrite Hs. }
      destruct Raa, Rbb. split_and!; [done|congruence|]. rewrite ra_contract1, ra_contract0. done.
    + rewrite T6. done.
  - constructor; [done| |by rewrite T6|rewrite T4; by eexists].
    intros j l Hj. destruct (decide (j = k)) as [->|Hne].
    + rewrite T2. by apply Hlease.
    + rewrite T3 by done. by exists l.
Qed.

(** A fresh attempt. *)
Lemma fresh_keeps k r c c' :
  c_assignments c !! k = None -> c_assignments c' = <[k := r]> (c_assignments c) ->
  c_leases c' = c_leases c -> c_observations c' = c_observations c ->
  c_reassignments c' = c_reassignments c ->
  as_str (ac_attempt_id (ar_contract r)) = k ->
  ar_assignment_id r = as_str (ac_assignment_id (ar_contract r)) -> ar_state r = State.Preparing ->
  keeps c c'.
Proof.
  intros Hk E1 E2 E3 E4 R1 R2 R3 [I1 I2 I3 I4 I5].
  assert (forall j x, c_assignments c !! j = Some x -> c_assignments c' !! j = Some x) as Hold.
  { intros j x Hj. rewrite E1, lookup_insert_ne; [done|]. intros ->. congruence. }
  split.
  - constructor.
    + intros j x. rewrite E1, E2, E3. destruct (decide (j = k)) as [->|Hne].
      * rewrite lookup_insert_eq. intros [= <-].
        assert (c_leases c !! k = None) as ->.
        { destruct (c_leases c !! k) as [l|] eqn:Hl; [|done]. apply I2 in Hl as [y Hy]. congruence. }
        constructor; rewrite ?R3; try done; [split; [done|]|by intros []].
        intros (o & Ho & <- & _). apply I3 in Ho as [y Hy]. congruence.
      * rewrite lookup_insert_ne by done. apply I1.
    + intros j l. rewrite E2. intros Hl. destruct (I2 _ _ Hl) as [y Hy]. eauto.
    + intros o. rewrite E3. intros Ho. destruct (I3 _ Ho) as [y Hy]. eauto.
    + intros j x. rewrite E4. intros (a & b & Ha & Hs & Hb & Hw & Hc)%I4. exists a, b. auto.
    + by rewrite E4.
  - constructor; rewrite ?E2, ?E3, ?E4; try done. intros j x Hj. exists x. split; [auto|done].
Qed.

Lemma alter_missing {A} (f : A -> A) (m : gmap string A) k : m !! k = None -> alter f k m = m.
Proof.
  intros Hk. apply map_eq. intros j. destruct (decide (k = j)) as [->|Hne].
  - by rewrite lookup_alter_eq, Hk.
  - by rewrite lookup_alter_ne.
Qed.

Lemma alter_insert_found {A} (f : A -> A) (m : gmap string A) k x :
  m !! k = Some x -> alter f k m = <[k := f x]> m.
Proof.
  intros Hk. apply map_eq. intros j. destruct (decide (k = j)) as [->|Hne].
  - by rewrite lookup_alter_eq, lookup_insert_eq, Hk.
  - by rewrite lookup_alter_ne, lookup_insert_ne.
Qed.

Lemma to_sql_Ok v x : to_sql v = Ok x <-> v <= i64_max /\ x = v.
Proof. unfold to_sql. destruct (N.leb_spec v i64_max); naive_solver lia. Qed.

Definition expired_lease (l : AttemptLeaseRow) (now_ms : N) : AttemptLeaseRow :=
  MkAttemptLease (le_lease_id l) (le_worker_id l) (le_granted_at_ms l) (le_renewed_at_ms l)
    (le_expires_at_ms l) (coalesce (le_expired_at_ms l) now_ms).

Lemma expired_lease_after l now_ms : lease_after l (expired_lease l now_ms).
Proof. constructor; try done. destruct l as [? ? ? ? ? [t|]]; cbn; [done|by intros []]. Qed.

Lemma expired_lease_expired l now_ms : is_Some (le_expired_at_ms (expired_lease l now_ms)).
Proof. cbn. destruct (le_expired_at_ms l); cbn; by eexists. Qed.

Lemma leasable_step s : leasable s = true -> lifecycle_step s State.LeaseExpired = true.
Proof. by destruct s. Qed.

Lemma sent_final_or_leasable s : was_sent s = true -> leasable s = false -> is_final s = true.
Proof. by destruct s. Qed.

Lemma leasable_sent s : leasable s = true -> was_sent s = true.
Proof. by destruct s. Qed.

Lemma moved_after row state at_ms :
  lifecycle_path (ar_state row) state -> row_after row (moved row state at_ms).
Proof. by constructor. Qed.

(** What expiry does to an attempt that exists. *)
Lemma expire_one_row k now_ms c c' r :
  expire_one k now_ms c = Ok c' -> c_assignments c !! k = Some r ->
  touched k (if leasable (ar_state r) then moved r State.LeaseExpired now_ms else r)
    ((fun l => expired_lease l now_ms) <$> c_leases c !! k) [] c c'.
Proof.
  unfold expire_one. intros (t & [Ht ->]%to_sql_Ok & E%Ok_inj)%result_bind_Ok Hr. subst c'.
  cbn. rewrite Hr. destruct (leasable (ar_state r)); constructor; cbn; rewrite ?app_nil_r; try done.
  - by apply (alter_insert_found (fun row => moved row State.LeaseExpired now_ms)).
  - by rewrite lookup_alter_eq.
  - intros j Hj. by rewrite lookup_alter_ne.
  - by intros o ?%elem_of_nil.
  - by rewrite insert_id.
  - by rewrite lookup_alter_eq.
  - intros j Hj. by rewrite lookup_alter_ne.
  - by intros o ?%elem_of_nil.
Qed.

Lemma expire_one_keeps k now_ms c c' : expire_one k now_ms c = Ok c' -> keeps c c'.
Proof.
  intros E Hinv. destruct (c_assignments c !! k) as [r|] eqn:Hr.
  - pose proof (ci_attempt _ Hinv _ _ Hr) as [A1 A2 A3 A4 A5 A6 A7 A8]. revert Hinv.
    eapply touched_keeps; [exact Hr|by apply expire_one_row|..].
    + destruct (leasable (ar_state r)) eqn:Hs; [|done]. apply moved_after, rtc_once.
      by apply leasable_step.
    + intros l ->. cbn. exists (expired_lease l now_ms). split; [done|apply expired_lease_after].
    + rewrite app_nil_r. destruct (leasable (ar_state r)) eqn:Hs.
      * constructor; cbn; try done.
        -- rewrite fmap_is_Some, <-A3. split; [|done]. intros _. by apply leasable_sent.
        -- intros l (l0 & Hl & ->)%fmap_Some. cbn. by apply A4.
        -- intros _. apply leasable_sent, A3 in Hs as [l ->]. cbn. exists (expired_lease l now_ms).
           split; [done|apply expired_lease_expired].
        -- rewrite <-A7. split; [done|]. intros E'. by rewrite E' in Hs.
        -- by intros [].
      * constructor; try done.
        -- by rewrite fmap_is_Some.
        -- intros l (l0 & Hl & ->)%fmap_Some. cbn. by apply A4.
        -- intros l (l0 & Hl & _)%fmap_Some _. apply sent_final_or_leasable; [|done]. apply A3. by exists l0.
        -- intros Hl. destruct (A6 Hl) as (l & -> & _). cbn. exists (expired_lease l now_ms).
           split; [done|apply expired_lease_expired].
  - assert (c_leases c !! k = None) as Hl.
    { destruct (c_leases c !! k) eqn:Hl; [|done]. apply (ci_lease _ Hinv) in Hl as [? ?]. congruence. }
    unfold expire_one in E. apply result_bind_Ok in E as (t & _ & E%Ok_inj). subst c'. cbn.
    rewrite Hr. revert Hinv. apply keeps_core; try done. by apply alter_missing.
Qed.

(** The row alone changed, and neither whether it was sent, nor whether it
    has finished or lapsed. *)
Lemma row_change_keeps k r r' c :
  c_assignments c !! k = Some r -> row_after r r' ->
  was_sent (ar_state r') = was_sent (ar_state r) ->
  (ar_state r' = State.LeaseExpired -> ar_state r = State.LeaseExpired) ->
  (ar_state r' = State.Finished -> ar_state r = State.Finished) ->
  (ar_state r' = State.CancelRequested \/ ar_state r' = State.Cancelled ->
     is_Some (ar_cancellation_reason r')) ->
  keeps c (with_assignments c (<[k := r']> (c_assignments c))).
Proof.
  intros Hr Ha Hs Hl Hf Hc Hinv. pose proof (ci_attempt _ Hinv _ _ Hr) as [A1 A2 A3 A4 A5 A6 A7 A8].
  destruct Ha as [R1 R2 R3 R4 R5]. revert Hinv.
  eapply (touched_keeps k r r' (c_leases c !! k) []); [done| |by constructor| |].
  - constructor; cbn; rewrite ?app_nil_r; try done. by intros o ?%elem_of_nil.
  - intros l ->. by exists l.
  - rewrite app_nil_r. constructor; try done.
    + by rewrite R3.
    + by rewrite R1, R3.
    + by rewrite Hs.
    + intros l Hk. rewrite R2. by apply A4.
    + intros l Hk He. rewrite (lifecycle_path_final _ _ R5); by eapply A5.
    + auto.
    + rewrite <-A7. split; [done|]. intros E. rewrite <-E. apply (lifecycle_path_final _ _ R5). by rewrite E.
Qed.

Lemma move_keeps k r s t c :
  c_assignments c !! k = Some r -> lifecycle_path (ar_state r) s -> was_sent s = was_sent (ar_state r) ->
  (s = State.LeaseExpired -> ar_state r = State.LeaseExpired) ->
  (s = State.Finished -> ar_state r = State.Finished) ->
  (s = State.CancelRequested \/ s = State.Cancelled -> is_Some (ar_cancellation_reason r)) ->
  keeps c (move_assignment k s t c).
Proof.
  intros Hr Hp Hs Hl Hf Hc. unfold move_assignment.
  rewrite (alter_insert_found (fun row => moved row s t) _ _ _ Hr).
  by eapply row_change_keeps.
Qed.

Lemma assignment_identity_Ok k w a c s :
  assignment_identity k w a c = Ok s <-> exists r, c_assignments c !! k = Some r
    /\ ar_worker_id r = w /\ (forall x, a = Some x -> ar_assignment_id r = x) /\ ar_state r = s.
Proof.
  unfold assignment_identity. destruct (c_assignments c !! k) as [r|]; cbn; [|naive_solver].
  rewrite guard_bind_Ok, orb_false_iff, negb_false_iff, bool_decide_eq_true. split.
  - intros ([Hw Ha] & [= Hs]). exists r. split_and!; try done. intros x ->.
    by rewrite negb_false_iff, bool_decide_eq_true in Ha.
  - intros (r' & [= <-] & Hw & Ha & Hs). subst s. split; [|done]. split; [done|].
    destruct a as [x|]; [|done]. rewrite negb_false_iff, bool_decide_eq_true. by apply Ha.
Qed.

Lemma mark_keeps a w t c : keeps c (committed c (mark_assignment_dispatchable a w t c)).
Proof.
  destruct (mark_assignment_dispatchable a w t c) as [[b c']|] eqn:E; [|apply keeps_refl]. cbn.
  unfold mark_assignment_dispatchable in E. apply result_bind_Ok in E as (s & Hs & E).
  apply assignment_identity_Ok in Hs as (r & Hr & _ & _ & <-).
  case_bool_decide as Hp; [|injection E as <- <-; apply keeps_refl].
  apply result_bind_Ok in E as (t' & _ & [= <- <-]).
  eapply move_keeps; try done; rewrite ?Hp; [by apply rtc_once|done|by intros []].
Qed.

Lemma defer_keeps a w t c : keeps c (committed c (defer_assignment_preparation a w t c)).
Proof.
  destruct (defer_assignment_preparation a w t c) as [[b c']|] eqn:E; [|apply keeps_refl]. cbn.
  unfold defer_assignment_preparation in E. apply result_bind_Ok in E as (t' & _ & E).
  destruct (c_assignments c !! a) as [r|] eqn:Hr; [|injection E as <- <-; apply keeps_refl].
  destruct (bool_decide (ar_worker_id r = w)), (bool_decide_reflect (ar_state r = State.Preparing)) as [Hp|];
    cbn in E; injection E as <- <-; try apply keeps_refl.
  eapply move_keeps; try done; rewrite ?Hp; [apply rtc_refl|done|by intros []].
Qed.

Lemma store_keeps w k t c : keeps c (committed c (store_assignment w k t c)).
Proof.
  destruct (store_assignment w k t c) as [[b c']|] eqn:E; [|apply keeps_refl]. cbn.
  unfold store_assignment in E. destruct (c_assignments c !! _) as [r|] eqn:Hr.
  - destruct (_ && _); [|done]. injection E as <- <-. apply keeps_refl.
  - apply result_bind_Ok in E as (t' & _ & E%Ok_inj). injection E as <- <-.
    eapply fresh_keeps; [exact Hr|done..].
Qed.

Lemma cancel_keeps a reason t c : keeps c (committed c (request_cancellation a reason t c)).
Proof.
  destruct (request_cancellation a reason t c) as [[b c']|] eqn:E; [|apply keeps_refl]. cbn.
  unfold request_cancellation in E. apply result_bind_Ok in E as (r & Hr%ok_or_Ok & E).
  destruct (ar_state r) eqn:Hs; try (injection E as <- <-; apply keeps_refl);
    apply result_bind_Ok in E as (t' & _ & E%Ok_inj); injection E as <- <-;
    (eapply row_change_keeps; [exact Hr|constructor; try done; cbn; rewrite Hs|..]; cbn;
      rewrite ?Hs; try done; by apply rtc_once).
Qed.

Lemma renew_lease_keeps w k t d c c' : renew_lease w k t d c = Ok c' -> keeps c c'.
Proof.
  unfold renew_lease. intros (s & Hs & E)%result_bind_Ok.
  apply assignment_identity_Ok in Hs as (r & Hr & _ & _ & <-).
  destruct (is_replayable (ar_state r)); [|injection E as <-; apply keeps_refl].
  destruct (c_leases c !! k) as [l|] eqn:Hl; [|injection E as <-; apply keeps_refl].
  case_bool_decide as Hne; cbn [orb] in E; [by eapply expire_one_keeps|]. destruct (_ <=? _); [by eapply expire_one_keeps|].
  apply result_bind_Ok in E as (t' & _ & E). apply result_bind_Ok in E as (x & _ & E%Ok_inj). subst c'.
  intros Hinv. pose proof (ci_attempt _ Hinv _ _ Hr) as [A1 A2 A3 A4 A5 A6 A7 A8]. revert Hinv.
  set (l' := MkAttemptLease _ _ _ _ _ _).
  eapply (touched_keeps k r r (Some l') []); [done| |done| |].
  - constructor; cbn; rewrite ?app_nil_r.
    + by rewrite insert_id.
    + apply lookup_insert_eq.
    + intros j Hj. by rewrite lookup_insert_ne.
    + done.
    + by intros o ?%elem_of_nil.
    + done.
  - rewrite Hl. intros l0 [= <-]. eexists. split; [done|]. by constructor.
  - rewrite app_nil_r. rewrite Hl in A3, A4, A5, A6. constructor; try done.
    + rewrite A3. by split; intros _; eexists.
    + intros l0 [= <-]. cbn. by apply A4.
    + intros l0 [= <-]. cbn. done.
    + intros (l0 & [= <-] & He)%A6. done.
Qed.

Lemma renew_keeps w ids t d c : keeps c (committed c (renew_active_leases w ids t d c)).
Proof.
  destruct (renew_active_leases w ids t d c) as [[u c']|] eqn:E; [|apply keeps_refl]. cbn.
  revert c E. induction ids as [|k ids IH]; intros c E; cbn in E.
  - injection E as _ <-. apply keeps_refl.
  - apply result_bind_Ok in E as (c1 & H1%renew_lease_keeps & E). by eapply keeps_trans; [|apply IH].
Qed.

Lemma expire_all_keeps ids t c c' : expire_all ids t c = Ok c' -> keeps c c'.
Proof.
  revert c. induction ids as [|k ids IH]; intros c E; cbn in E.
  - injection E as <-. apply keeps_refl.
  - apply result_bind_Ok in E as (c1 & H1%expire_one_keeps & E). by eapply keeps_trans; [|apply IH].
Qed.

Lemma expire_leases_keeps t c : keeps c (committed c (expire_leases t c)).
Proof.
  destruct (expire_leases t c) as [[l c']|] eqn:E; [|apply keeps_refl]. cbn. unfold expire_leases in E.
  apply result_bind_Ok in E as (t' & _ & E). apply result_bind_Ok in E as (c1 & H1%expire_all_keeps & E).
  by injection E as _ <-.
Qed.

(** A further observation of an attempt that exists. *)
Lemma observation_keeps r o c :
  c_assignments c !! or_attempt_id o = Some r -> ~ applied_finish (or_attempt_id o) o ->
  keeps c (with_observations c (c_observations c ++ [o])).
Proof.
  intros Hr Hn Hinv. pose proof (ci_attempt _ Hinv _ _ Hr) as [A1 A2 A3 A4 A5 A6 A7 A8]. revert Hinv.
  eapply (touched_keeps _ r r _ [o]); [exact Hr| |done| |].
  - constructor; cbn; try done; [by rewrite insert_id|]. by intros x ->%list_elem_of_singleton.
  - intros l Hl. by exists l.
  - constructor; try done. rewrite A7. split; intros (x & Hx & Hf); exists x.
    + split; [|done]. apply elem_of_app. by left.
    + split; [|done]. apply elem_of_app in Hx as [Hx| ->%list_elem_of_singleton]; [done|]. by destruct Hn.
Qed.

Lemma transition_allowed_spec a b : transition_allowed a b = true ->
  lifecycle_step a b = true /\ was_sent a = true /\ was_sent b = true
  /\ b <> State.LeaseExpired /\ b <> State.CancelRequested /\ b <> State.Cancelled.
Proof. intros H. split; [unfold lifecycle_step; by rewrite H|]. by destruct a, b. Qed.

(** What is classified as an advance or an acknowledgement. *)
Lemma classify_Ok current target due class : classify current target due = Ok class ->
  match class with
  | Advance s => target = Some s /\ transition_allowed current s = true
  | Late => exists s, target = Some s
  | Repeated => exists s, target = Some s
  | Acknowledged _ => target = None
  end.
Proof.
  unfold classify. destruct target as [s|].
  - cbv zeta. match goal with |- (if ?b then _ else _) = _ -> _ => destruct b end; [intros [= <-]; by exists s|].
    match goal with |- (if ?b then _ else _) = _ -> _ => destruct b end; [intros [= <-]; by exists s|].
    destruct (transition_allowed current s) eqn:Ht; [|done]. by intros [= <-].
  - by destruct current; intros [= <-].
Qed.

Lemma observe_keeps o c : keeps c (committed c (observe_attempt o c)).
Proof.
  destruct (observe_attempt o c) as [[d c']|] eqn:E; [|apply keeps_refl]. cbn. unfold observe_attempt in E.
  set (k := as_str (ov_attempt_id o)) in *. apply result_bind_Ok in E as (s & Hs & E).
  apply assignment_identity_Ok in Hs as (r & Hr & _ & _ & <-).
  apply result_bind_Ok in E as (class & Hclass%classify_Ok & E).
  apply result_bind_Ok in E as ([d0 c1] & H1 & E). apply result_bind_Ok in E as (t & _ & E%Ok_inj).
  apply pair_equal_spec in E as [<- <-].
  destruct class as [s| | |d].
  - destruct Hclass as [Htarget Ht]. apply result_bind_Ok in H1 as (t' & _ & E%Ok_inj).
    apply pair_equal_spec in E as [<- <-].
    destruct (transition_allowed_spec _ _ Ht) as (Hstep & Hs1 & Hs2 & N1 & N2 & N3).
    intros Hinv. pose proof (ci_attempt _ Hinv _ _ Hr) as [A1 A2 A3 A4 A5 A6 A7 A8]. revert Hinv.
    set (x := MkObservationRow _ _ _ _ _).
    eapply (touched_keeps k r (moved r s t') _ [x]); [exact Hr| | | |].
    + constructor; cbn; try done.
      * by apply (alter_insert_found (fun row => moved row s t')).
      * by intros y ->%list_elem_of_singleton.
    + apply moved_after. by apply rtc_once.
    + intros l Hl. exists l. by rewrite Hl.
    + assert (ar_state r <> State.Finished) as Hnf
        by (intros Hf; rewrite Hf in Hstep; by destruct s).
      constructor; cbn; try done.
      * by rewrite Hs2, <-A3, Hs1.
      * intros l Hl He. specialize (A5 l Hl He). by rewrite (lifecycle_step_not_final _ _ Hstep) in A5.
      * split.
        -- intros ->. exists x. rewrite elem_of_app, list_elem_of_singleton. split; [by right|].
           split; [done|]. split; [done|]. cbn. destruct (ov_observation o); cbn in Htarget; try done.
           by eexists.
        -- intros (y & Hy & Hf). rewrite elem_of_app, list_elem_of_singleton in Hy. destruct Hy as [Hy| ->].
           ++ destruct Hnf. apply A7. by exists y.
           ++ destruct Hf as (_ & _ & f & Hf). cbn in Hf. rewrite Hf in Htarget. by injection Htarget.
      * by intros [].
  - apply result_bind_Ok in H1 as (c2 & Hexp & E%Ok_inj). apply pair_equal_spec in E as [<- <-].
    eapply keeps_trans; [by eapply expire_one_keeps|]. pose proof (expire_one_row _ _ _ _ _ Hexp Hr) as [T1 _ _ _ _ _].
    eapply observation_keeps; cbn; [rewrite T1; apply lookup_insert_eq|]. by intros (_ & Hd & _).
  - apply Ok_inj, pair_equal_spec in H1 as [<- <-].
    eapply observation_keeps; cbn; [exact Hr|]. by intros (_ & Hd & _).
  - apply Ok_inj, pair_equal_spec in H1 as [<- <-].
    eapply observation_keeps; cbn; [exact Hr|]. intros (_ & _ & f & Hf). cbn in Hf. by rewrite Hf in Hclass.
Qed.

Lemma insert_frame_core frame t c c' : insert_frame frame t c = Ok c' ->
  c_assignments c' = c_assignments c /\ c_leases c' = c_leases c
  /\ c_reassignments c' = c_reassignments c /\ c_observations c' = c_observations c
  /\ c_connections c' = c_connections c /\ c_workers c' = c_workers c
  /\ c_frames c !! (fr_connection_id frame, fr_sequence frame) = None
  /\ c_frames c' = <[(fr_connection_id frame, fr_sequence frame) := MkFrameRow (fr_message_id frame)
       (fr_worker_id frame) (fr_kind frame) (fr_attempt_id frame) t None]> (c_frames c).
Proof.
  unfold insert_frame. intros (s & [_ ->]%to_sql_Ok & E)%result_bind_Ok.
  apply result_bind_Ok in E as (t' & [_ ->]%to_sql_Ok & E).
  destruct (c_frames c !! _) eqn:Hf; [done|]. by injection E as <-.
Qed.

(** What a delivery leaves behind. *)
Record published (p : AssignmentDeliveryPreparation) (k : string) (row : AssignmentRow) (c c' : Control)
    : Prop := {
  pu_touched : touched k (sent_row row (dp_now_ms p))
    (Some (granted_lease p (c_leases c !! k) (dp_now_ms p)
             (saturating_add u64_max (dp_now_ms p) (dp_lease_duration_ms p)))) [] c c';
  pu_frames : c_frames c !! (fr_connection_id (dp_frame p), fr_sequence (dp_frame p)) = None
    /\ c_frames c' = <[(fr_connection_id (dp_frame p), fr_sequence (dp_frame p)) :=
         MkFrameRow (fr_message_id (dp_frame p)) (fr_worker_id (dp_frame p)) (fr_kind (dp_frame p))
           (fr_attempt_id (dp_frame p)) (dp_now_ms p) None]> (c_frames c);
  pu_connection : exists n, c_connections c !! fr_connection_id (dp_frame p) = Some n
    /\ cw_worker_id n = fr_worker_id (dp_frame p) /\ cw_disconnected_at_ms n = None
    /\ c_connections c' = <[fr_connection_id (dp_frame p) :=
         with_sequences n (dp_last_worker_sequence p) (fr_sequence (dp_frame p))
           (dp_last_server_acknowledged_by_worker p)]> (c_connections c);
}.

Lemma publish_Ok p k row c c' : publish p k row c = Ok c' -> published p k row c c'.
Proof.
  unfold publish. intros (t & [_ ->]%to_sql_Ok & E)%result_bind_Ok.
  apply result_bind_Ok in E as (x & [_ ->]%to_sql_Ok & E). apply result_bind_Ok in E as (c1 & Hf & E).
  apply insert_frame_core in Hf as (F1 & F2 & F3 & F4 & F5 & F6 & F7 & F8). cbn in *.
  apply result_bind_Ok in E as (w & [_ ->]%to_sql_Ok & E).
  apply result_bind_Ok in E as (s & [_ ->]%to_sql_Ok & E).
  apply result_bind_Ok in E as (a & [_ ->]%to_sql_Ok & E).
  rewrite F5 in E. destruct (c_connections c !! _) as [n|] eqn:Hn; [|done].
  case_bool_decide as Hw; cbn [andb] in E; [|done]. case_bool_decide as Hd; [|done].
  apply Ok_inj in E. subst c'. constructor; cbn.
  - constructor; cbn; rewrite ?F1, ?F2, ?F3, ?F4, ?app_nil_r; try done.
    + apply lookup_insert_eq.
    + intros j Hj. by rewrite lookup_insert_ne.
    + by intros o ?%elem_of_nil.
  - done.
  - by exists n.
Qed.

Lemma deliverable_Ok p c k r : deliverable p c = Ok (k, r) <->
  fr_attempt_id (dp_frame p) = Some k /\ fr_kind (dp_frame p) = FrameAssignment
  /\ c_assignments c !! k = Some r /\ ar_worker_id r = fr_worker_id (dp_frame p)
  /\ is_replayable (ar_state r) = true.
Proof.
  unfold deliverable, load_assignment. destruct (fr_attempt_id (dp_frame p)) as [k0|]; cbn; [|naive_solver].
  rewrite guard_bind_Ok, negb_false_iff, bool_decide_eq_true.
  destruct (c_assignments c !! k0) as [r0|] eqn:Hr0; cbn.
  - case_bool_decide as Hw; cbn.
    + rewrite guard_bind_Ok, negb_false_iff. naive_solver.
    + naive_solver.
  - naive_solver.
Qed.

Lemma prepare_keeps p c : keeps c (prepare_assignment_delivery p c).1.
Proof.
  unfold prepare_assignment_delivery.
  destruct (deliverable p c) as [[k r]|] eqn:Hd; [|apply keeps_refl].
  apply deliverable_Ok in Hd as (Hk & Hkind & Hr & Hw & Hs).
  destruct (lease_is_due _ _ _) eqn:Hdue.
  - destruct (expire_one _ _ _) eqn:He; [by eapply expire_one_keeps|apply keeps_refl].
  - destruct (publish _ _ _ _) as [c'|] eqn:Hp; [|apply keeps_refl]. cbn.
    apply publish_Ok in Hp as [Ht _ _]. intros Hinv.
    pose proof (ci_attempt _ Hinv _ _ Hr) as [A1 A2 A3 A4 A5 A6 A7 A8]. revert Hinv.
    assert (is_final (ar_state r) = false) as Hnf by (by destruct (ar_state r)).
    assert (was_sent (ar_state (sent_row r (dp_now_ms p))) = true) as Hsent
      by (cbn; case_bool_decide; [done|by destruct (ar_state r)]).
    eapply touched_keeps; [exact Hr|exact Ht| | |].
    + constructor; try done. cbn. case_bool_decide as Hds; [|apply rtc_refl].
      rewrite Hds. by apply rtc_once.
    + intros l Hl. rewrite Hl. eexists. split; [done|]. constructor; try done.
      intros He. by rewrite (A5 _ Hl He) in Hnf.
    + rewrite app_nil_r. constructor; try done.
      * intros l <-%(inj Some). unfold granted_lease. cbn. destruct (c_leases c !! k) as [l|] eqn:Hl; cbn; [by apply A4|by rewrite Hw].
      * intros l <-%(inj Some). unfold granted_lease. cbn. destruct (c_leases c !! k); by intros [].
      * cbn. case_bool_decide; [done|]. intros E. by rewrite E in Hs.
      * cbn. case_bool_decide as Hds; [|done]. rewrite <-A7, Hds. done.
      * cbn. case_bool_decide; [by intros []|]. done.
Qed.

Lemma reassignment_keeps k x r r' c :
  c_reassignments c !! k = None -> c_assignments c !! k = Some r -> ar_state r = State.LeaseExpired ->
  c_assignments c !! rx_replacement_attempt_id x = Some r' -> ar_worker_id r' = rx_replacement_worker_id x ->
  ar_contract r' = renumbered (ar_contract r) (ac_attempt_id (ar_contract r')) ->
  rx_replacement_attempt_id x ∉ (rx_replacement_attempt_id ∘ snd <$> map_to_list (c_reassignments c)) ->
  keeps c (with_reassignments c (<[k := x]> (c_reassignments c))).
Proof.
  intros Hk Hr Hs Hr' Hw Hc Hfresh [I1 I2 I3 I4 I5].
  assert (forall j y, c_reassignments c !! j = Some y ->
    rx_replacement_attempt_id y <> rx_replacement_attempt_id x) as Hne.
  { intros j y Hj E. apply Hfresh. apply list_elem_of_fmap. exists (j, y).
    split; [done|]. by apply elem_of_map_to_list. }
  split.
  - constructor; cbn; try done.
    + intros j y. rewrite lookup_insert_Some. intros [[<- <-]|[_ Hj]]; [by exists r, r'|by apply I4].
    + intros k1 k2 x1 x2. rewrite !lookup_insert_Some.
      intros [[<- <-]|[N1 H1]] [[<- <-]|[N2 H2]] E; try done; [by destruct (Hne _ _ H2)|by destruct (Hne _ _ H1)|eauto].
  - constructor; cbn; try done. intros j y Hj. exists y. split; [|done].
    rewrite lookup_insert_ne; [done|]. intros ->. congruence.
Qed.

Lemma reassign_keeps e w rep t c : keeps c (committed c (reassign_expired e w rep t c)).
Proof.
  destruct (reassign_expired e w rep t c) as [[b c']|] eqn:E; [|apply keeps_refl]. cbn.
  unfold reassign_expired in E. apply result_bind_Ok in E as ([a|] & Hex & E);
    [injection E as _ <-; apply keeps_refl|].
  apply result_bind_Ok in E as (r & Hr%ok_or_Ok & E).
  rewrite guard_bind_Ok, negb_false_iff, bool_decide_eq_true in E. destruct E as [Hs E].
  rewrite guard_bind_Ok, orb_false_iff, !bool_decide_eq_false in E. destruct E as [[_ Hne] E].
  apply result_bind_Ok in E as ([a c1] & Hi & E%Ok_inj). apply pair_equal_spec in E as [_ <-].
  unfold insert_reassignment in Hi. rewrite guard_bind_Ok, bool_decide_eq_false in Hi.
  destruct Hi as [Hnone Hi]. apply eq_None_not_Some in Hnone.
  apply result_bind_Ok in Hi as (id & Hid%map_err_Ok%parse_id_Ok & Hi).
  apply result_bind_Ok in Hi as (t' & _ & Hi). rewrite guard_bind_Ok, bool_decide_eq_false in Hi.
  destruct Hi as [Hfresh Hi%Ok_inj]. apply pair_equal_spec in Hi as [_ <-]. cbn [snd].
  set (row := MkAssignmentRow _ _ _ _ _ _ _ _).
  apply (keeps_trans _ (with_assignments c (<[rep := row]> (c_assignments c)))).
  - exact (fresh_keeps rep row c (with_assignments c (<[rep := row]> (c_assignments c)))
             Hnone eq_refl eq_refl eq_refl eq_refl Hid eq_refl eq_refl).
  - eapply (reassignment_keeps e (MkReassignmentRow rep w t') r row
              (with_assignments c (<[rep := row]> (c_assignments c)))); cbn.
    + unfold existing_reassignment in Hex. destruct (c_reassignments c !! e) as [x|]; [|done].
      rewrite guard_bind_Ok in Hex. destruct Hex as [_ Hex].
      by apply result_bind_Ok in Hex as (? & _ & ?%Ok_inj).
    + by rewrite lookup_insert_ne.
    + done.
    + apply lookup_insert_eq.
    + done.
    + done.
    + done.
Qed.

(** The operations on workers, connections and frames. *)
Lemma register_keeps r n c : keeps c (committed c (register_worker r n c)).
Proof.
  destruct (register_worker r n c) as [[u c']|] eqn:E; [|apply keeps_refl]. cbn. unfold register_worker in E.
  apply result_bind_Ok in E as (t & _ & E). destruct (c_connections c !! _); [done|].
  destruct (_ !! _); [|done]. injection E as _ <-. by apply keeps_core.
Qed.

Lemma sequences_keeps id w s a t c : keeps c (update_connection_sequences id w s a t c).1.
Proof.
  unfold update_connection_sequences. destruct (to_sql w ≫= _) as [[[w' s'] a']|]; [|apply keeps_refl].
  destruct (to_sql t); cbn; [|by apply keeps_core]. destruct (alter _ _ _ !! _); by apply keeps_core.
Qed.

Lemma disconnect_keeps id t c : keeps c (committed c (disconnect id t c)).
Proof.
  destruct (disconnect id t c) as [[u c']|] eqn:E; [|apply keeps_refl]. cbn. unfold disconnect in E.
  apply result_bind_Ok in E as (t' & _ & E%Ok_inj). apply pair_equal_spec in E as [_ <-]. by apply keeps_core.
Qed.

Lemma frame_keeps f t c : keeps c (committed c (record_server_frame f t c)).
Proof.
  destruct (record_server_frame f t c) as [[u c']|] eqn:E; [|apply keeps_refl]. cbn.
  unfold record_server_frame in E. apply result_bind_Ok in E as (c1 & Hf & E%Ok_inj).
  apply pair_equal_spec in E as [_ <-]. apply insert_frame_core in Hf as (? & ? & ? & ? & _).
  by apply keeps_core.
Qed.

Lemma compact_keeps id n t c : keeps c (committed c (compact_server_frames id n t c)).
Proof.
  destruct (compact_server_frames id n t c) as [[u c']|] eqn:E; [|apply keeps_refl]. cbn.
  unfold compact_server_frames in E. apply result_bind_Ok in E as (x & _ & E).
  apply result_bind_Ok in E as (y & _ & E%Ok_inj). apply pair_equal_spec in E as [_ <-]. by apply keeps_core.
Qed.

Lemma prune_keeps t c : keeps c (committed c (prune_orphaned_server_frames t c)).
Proof.
  destruct (prune_orphaned_server_frames t c) as [[u c']|] eqn:E; [|apply keeps_refl]. cbn.
  unfold prune_orphaned_server_frames in E. apply result_bind_Ok in E as (x & _ & E%Ok_inj).
  apply pair_equal_spec in E as [_ <-]. by apply keeps_core.
Qed.

Lemma run_control_keeps op c : keeps c (run_control op c).
Proof.
  destruct op; cbn [run_control]; auto using register_keeps, sequences_keeps, disconnect_keeps, store_keeps,
    mark_keeps, defer_keeps, reassign_keeps, prepare_keeps, observe_keeps, renew_keeps, expire_leases_keeps,
    cancel_keeps, frame_keeps, compact_keeps, prune_keeps.
Qed.

Lemma run_controls_keeps ops c : keeps c (run_controls ops c).
Proof.
  revert c. induction ops as [|op ops IH]; intros c; [apply keeps_refl|].
  eapply keeps_trans; [apply run_control_keeps|apply IH].
Qed.

Lemma control_reachable ops : CInv (run_controls ops control_empty).
Proof. by apply (run_controls_keeps ops control_empty), control_empty_inv. Qed.
