(* ===== verification/ControlTheorems.v ===== *)
(** * What the control plane promises

    The contract stated in [storage/repository.rs], proved of the SQLite
    repository of [ControlPlane]. *)

From stdpp Require Import base strings gmap list sorting numbers sets.
From S2P Require Import Prelude Digest Identity Vocabulary ControlPlane.
Import State (AttemptState, is_replayable, leasable, transition_allowed).

Local Open Scope N_scope.

(** C18 Whatever calls are made in whatever order, each atomic or failed:
    rows, leases, observations and reassignments agree (an attempt has a
    lease exactly once it was sent, held by its own worker; what lapsed has
    an expired lease and an expired lease belongs to an attempt that is
    over; an attempt is finished exactly when one of its terminal
    observations was applied; a replacement copies the contract of an
    attempt that lapsed and stands for it alone), and nothing is forgotten:
    every attempt keeps its worker, contract and creation, moves only along
    the lifecycle and stays where it ended, an expired lease is never
    renewed or rewritten, observations and reassignments only grow. *)
Theorem control_plane_invariant ops later :
  CInv (run_controls ops control_empty)
  /\ control_after (run_controls ops control_empty) (run_controls (ops ++ later) control_empty)
  /\ forall k r, c_assignments (run_controls ops control_empty) !! k = Some r ->
       is_final (ar_state r) = true ->
       exists r', c_assignments (run_controls (ops ++ later) control_empty) !! k = Some r'
         /\ ar_state r' = ar_state r.
Proof.
  assert (run_controls (ops ++ later) control_empty = run_controls later (run_controls ops control_empty)) as ->
    by (unfold run_controls; apply foldl_app).
  destruct (run_controls_keeps later _ (control_reachable ops)) as [_ Hafter].
  split; [apply control_reachable|]. split; [done|]. intros k r Hr Hf.
  destruct (cf_assignments _ _ Hafter _ _ Hr) as (r' & Hr' & Ha). exists r'. split; [done|].
  by apply (lifecycle_path_final _ _ (ra_state _ _ Ha)).
Qed.

(** ** Observations *)

Definition at_time (t : N) (o : ObservedAttempt) : ObservedAttempt :=
  MkObserved (ov_assignment_id o) (ov_attempt_id o) (ov_worker_id o) t (ov_observation o).

Lemma observe_Ok o c d c' : observe_attempt o c = Ok (d, c') <->
  exists r class c1, c_assignments c !! as_str (ov_attempt_id o) = Some r
  /\ ar_worker_id r = ov_worker_id o /\ ar_assignment_id r = as_str (ov_assignment_id o)
  /\ classify (ar_state r) (target_state (ov_observation o))
       (lease_is_due (as_str (ov_attempt_id o)) (ov_observed_at_ms o) c) = Ok class
  /\ ov_observed_at_ms o <= i64_max
  /\ match class with
     | Acknowledged d0 => d = d0 /\ c1 = c
     | Late => d = Stale /\ expire_one (as_str (ov_attempt_id o)) (ov_observed_at_ms o) c = Ok c1
     | Repeated => d = Duplicate /\ c1 = c
     | Advance s => d = Applied /\ c1 = move_assignment (as_str (ov_attempt_id o)) s (ov_observed_at_ms o) c
     end
  /\ c' = with_observations c1 (c_observations c1 ++
       [MkObservationRow (as_str (ov_attempt_id o)) (ov_worker_id o) (ov_observed_at_ms o) d (ov_observation o)]).
Proof.
  unfold observe_attempt. split.
  - intros (s & Hs & E)%result_bind_Ok. apply assignment_identity_Ok in Hs as (r & Hr & Hw & Ha & <-).
    apply result_bind_Ok in E as (class & Hclass & E). apply result_bind_Ok in E as ([d0 c1] & H1 & E).
    apply result_bind_Ok in E as (t & [Ht ->]%to_sql_Ok & E%Ok_inj). apply pair_equal_spec in E as [<- <-].
    exists r, class, c1. split_and!; try done; [by apply Ha|].
    destruct class.
    + apply result_bind_Ok in H1 as (t' & [_ ->]%to_sql_Ok & E%Ok_inj). by apply pair_equal_spec in E as [<- <-].
    + apply result_bind_Ok in H1 as (c2 & Hc & E%Ok_inj). by apply pair_equal_spec in E as [<- <-].
    + by apply Ok_inj, pair_equal_spec in H1 as [<- <-].
    + by apply Ok_inj, pair_equal_spec in H1 as [<- <-].
  - intros (r & class & c1 & Hr & Hw & Ha & Hclass & Ht & H1 & ->).
    assert (to_sql (ov_observed_at_ms o) = Ok (ov_observed_at_ms o)) as Ets by by apply to_sql_Ok.
    assert (assignment_identity (as_str (ov_attempt_id o)) (ov_worker_id o)
      (Some (as_str (ov_assignment_id o))) c = Ok (ar_state r)) as ->.
    { apply assignment_identity_Ok. exists r. split_and!; try done. intros x [= <-]. done. }
    cbn. rewrite Hclass. cbn. rewrite Ets.
    destruct class; cbn in *; destruct H1 as [-> H1]; rewrite ?H1; cbn; rewrite ?Ets; by subst.
Qed.

(** Classifying again after a successful classification. *)
Lemma classify_again s o due due' class :
  classify s (target_state o) due = Ok class ->
  match class with
  | Advance s' => classify s' (target_state o) due' = Ok Repeated
  | Late => (due = true -> due' = true) ->
      classify (if leasable s then State.LeaseExpired else s) (target_state o) due' = Ok Late
  | Repeated => classify s (target_state o) due' = Ok Repeated
  | Acknowledged d => classify s (target_state o) due' = Ok (Acknowledged d)
  end.
Proof.
  destruct s, o, due, due'; cbn; intros [= <-]; cbn; try done; intros Hd; by specialize (Hd eq_refl).
Qed.

Lemma lease_due_later k t t' c : t <= t' -> lease_is_due k t c = true -> lease_is_due k t' c = true.
Proof. unfold lease_is_due. intros Ht. destruct (c_leases c !! k); [|done]. rewrite !N.leb_le. lia. Qed.

(** A lease is due when its entry says so, expired or not. *)
Lemma lease_due_expired k t t' c c1 r :
  expire_one k t c = Ok c1 -> c_assignments c !! k = Some r ->
  lease_is_due k t' c1 = lease_is_due k t' c.
Proof.
  intros E Hr. pose proof (to_lease _ _ _ _ _ _ (expire_one_row _ _ _ _ _ E Hr)) as Hl.
  unfold lease_is_due. rewrite Hl. by destruct (c_leases c !! k).
Qed.

Lemma coalesce_coalesce o v w : coalesce (coalesce o v) w = coalesce o v.
Proof. by destruct o. Qed.

(** Expiring twice is expiring once. *)
Lemma expire_again k t t' c c1 r :
  expire_one k t c = Ok c1 -> c_assignments c !! k = Some r -> t' <= i64_max ->
  exists c2, expire_one k t' c1 = Ok c2 /\ c_assignments c2 = c_assignments c1
    /\ c_leases c2 = c_leases c1.
Proof.
  intros E Hr Ht'. destruct (expire_one_row _ _ _ _ _ E Hr) as [T1 T2 T3 T4 T5 T6].
  unfold expire_one. assert (to_sql t' = Ok t') as -> by by apply to_sql_Ok. cbn.
  eexists. split; [done|]. cbn. rewrite T1, lookup_insert_eq.
  assert (leasable (ar_state (if leasable (ar_state r) then moved r State.LeaseExpired t else r)) = false)
    as -> by (by destruct (leasable (ar_state r)) eqn:Hs).
  cbn. split; [by rewrite T1|]. apply map_eq. intros j. destruct (decide (j = k)) as [->|Hne].
  - rewrite lookup_alter_eq, T2. destruct (c_leases c !! k) as [l|]; [|done]. cbn. f_equal.
    unfold expired_lease. cbn. by rewrite coalesce_coalesce.
  - by rewrite lookup_alter_ne.
Qed.

(** The worker's outbox redelivers until it is acknowledged, and an
    observation that was once processed can be repeated at any later time:
    it succeeds again, changes no attempt and no lease, and is classified
    as it was, except that what was applied the first time is a duplicate
    (a cancellation acknowledgement, which never moves an attempt, is
    applied as often as it comes). *)
Theorem observation_idempotent o c d c1 t :
  observe_attempt o c = Ok (d, c1) -> ov_observed_at_ms o <= t -> t <= i64_max ->
  exists d' c2, observe_attempt (at_time t o) c1 = Ok (d', c2)
    /\ c_assignments c2 = c_assignments c1 /\ c_leases c2 = c_leases c1
    /\ d' = match d, target_state (ov_observation o) with Applied, Some _ => Duplicate | _, _ => d end.
Proof.
  intros (r & class & c0 & Hr & Hw & Ha & Hclass & Ht & Hc0 & ->)%observe_Ok Hle Hmax.
  set (k := as_str (ov_attempt_id o)) in *. set (x := MkObservationRow _ _ _ _ _).
  set (y d := MkObservationRow k (ov_worker_id o) t d (ov_observation o)).
  set (again c d := with_observations c (c_observations c ++ [y d])).
  pose proof (classify_Ok _ _ _ _ Hclass) as Htarget.
  pose proof (classify_again _ _ _ (lease_is_due k t (with_observations c0 (c_observations c0 ++ [x])))
    _ Hclass) as Hagain.
  destruct class as [s| | |d0].
  - destruct Hc0 as [-> ->]. destruct Htarget as [Htarget _]. rewrite Htarget. exists Duplicate, (again (with_observations (move_assignment k s (ov_observed_at_ms o) c) (c_observations c ++ [x])) Duplicate).
    split; [|by split_and!]. apply observe_Ok. exists (moved r s (ov_observed_at_ms o)), Repeated.
    eexists. cbn. fold k.
    split; [by rewrite lookup_alter_eq, Hr|].
    split; [exact Hw|]. split; [exact Ha|]. split; [exact Hagain|]. by split_and!.
  - destruct Hc0 as [-> He]. pose proof (expire_one_row _ _ _ _ _ He Hr) as [T1 T2 T3 T4 T5 T6].
    destruct (expire_again _ _ t _ _ _ He Hr Hmax) as (c2 & He2 & Ea & El).
    exists Stale, (again (with_observations c2 (c_observations c0 ++ [x])) Stale).
    assert (expire_one k t (with_observations c0 (c_observations c0 ++ [x]))
      = Ok (with_observations c2 (c_observations c0 ++ [x]))) as He3.
    { unfold expire_one in *. apply result_bind_Ok in He2 as (t2 & -> & E%Ok_inj). cbn. subst c2. cbn.
      destruct (c_assignments c0 !! k) as [r2|]; [|done]. by destruct (leasable (ar_state r2)). }
    split; [|split; [exact Ea|split; [exact El|done]]].
    apply observe_Ok. eexists _, Late, _. fold k. cbn [c_assignments with_observations at_time ov_attempt_id
      ov_worker_id ov_assignment_id ov_observed_at_ms ov_observation].
    split; [rewrite T1; apply lookup_insert_eq|].
    split; [by destruct (leasable (ar_state r))|]. split; [by destruct (leasable (ar_state r))|].
    split; [|split; [done|split; [split; [done|exact He3]|done]]].
    assert (lease_is_due k t (with_observations c0 (c_observations c0 ++ [x])) = lease_is_due k t c0) as Edue by done.
    rewrite Edue in *. rewrite <-Hagain.
    + by destruct (leasable (ar_state r)).
    + rewrite (lease_due_expired _ _ _ _ _ _ He Hr). by apply lease_due_later.
  - destruct Hc0 as [-> ->]. exists Duplicate, (again (with_observations c (c_observations c ++ [x])) Duplicate).
    split; [|by split_and!].
    apply observe_Ok. eexists r, Repeated, _. cbn. fold k. by split_and!.
  - destruct Hc0 as [-> ->]. cbn in Htarget. rewrite Htarget.
    exists d0, (again (with_observations c (c_observations c ++ [x])) d0).
    split; [|by split_and!; destruct d0].
    apply observe_Ok. eexists r, (Acknowledged d0), _. cbn. fold k. by split_and!.
Qed.

(** ** Deliveries *)

(** When a delivery may go out: the frame is for an attempt of this worker
    that may be replayed, no lease of the attempt has run out, the sequence
    number is unused on the connection, which is the worker's and open, and
    everything that is written fits the database. *)
Record delivery_authorised (c : Control) (p : AssignmentDeliveryPreparation) (k : string) (r : AssignmentRow)
    (n : ConnectionRow) : Prop := {
  da_attempt : fr_attempt_id (dp_frame p) = Some k;
  da_kind : fr_kind (dp_frame p) = FrameAssignment;
  da_row : c_assignments c !! k = Some r;
  da_worker : ar_worker_id r = fr_worker_id (dp_frame p);
  da_state : ar_state r ∈ [State.Dispatchable; State.Sent; State.Accepted; State.Running; State.CancelRequested];
  da_lease : forall l, c_leases c !! k = Some l -> dp_now_ms p < le_expires_at_ms l;
  da_unused : c_frames c !! (fr_connection_id (dp_frame p), fr_sequence (dp_frame p)) = None;
  da_connection : c_connections c !! fr_connection_id (dp_frame p) = Some n;
  da_owner : cw_worker_id n = fr_worker_id (dp_frame p);
  da_open : cw_disconnected_at_ms n = None;
  da_fits : Forall (fun v => v <= i64_max)
    [dp_now_ms p; saturating_add u64_max (dp_now_ms p) (dp_lease_duration_ms p); fr_sequence (dp_frame p);
     dp_last_worker_sequence p; dp_last_server_acknowledged_by_worker p];
}.

Lemma replayable_states s :
  is_replayable s = true <-> s ∈ [State.Dispatchable; State.Sent; State.Accepted; State.Running; State.CancelRequested].
Proof. destruct s; cbn; set_solver. Qed.

Lemma lease_not_due k now c :
  lease_is_due k now c = false <-> forall l, c_leases c !! k = Some l -> now < le_expires_at_ms l.
Proof.
  unfold lease_is_due. destruct (c_leases c !! k) as [l|]; [|naive_solver]. rewrite N.leb_gt. naive_solver.
Qed.

(** What [publish] needs. *)
Lemma publish_possible p k r c : (exists c', publish p k r c = Ok c') <->
  c_frames c !! (fr_connection_id (dp_frame p), fr_sequence (dp_frame p)) = None
  /\ (exists n, c_connections c !! fr_connection_id (dp_frame p) = Some n
        /\ cw_worker_id n = fr_worker_id (dp_frame p) /\ cw_disconnected_at_ms n = None)
  /\ Forall (fun v => v <= i64_max)
       [dp_now_ms p; saturating_add u64_max (dp_now_ms p) (dp_lease_duration_ms p); fr_sequence (dp_frame p);
        dp_last_worker_sequence p; dp_last_server_acknowledged_by_worker p].
Proof.
  rewrite !Forall_cons. unfold publish, insert_frame. split.
  - intros (c' & E). apply result_bind_Ok in E as (t & [B1 ->]%to_sql_Ok & E).
    apply result_bind_Ok in E as (x & [B2 ->]%to_sql_Ok & E). apply result_bind_Ok in E as (c1 & Hf & E).
    apply result_bind_Ok in Hf as (q & [B3 ->]%to_sql_Ok & Hf). apply result_bind_Ok in Hf as (t' & _ & Hf). cbn in Hf.
    destruct (c_frames c !! _) as [f|] eqn:Ef; [done|]. apply Ok_inj in Hf as <-.
    apply result_bind_Ok in E as (a1 & [B4 ->]%to_sql_Ok & E). apply result_bind_Ok in E as (a2 & _ & E).
    apply result_bind_Ok in E as (a3 & [B5 ->]%to_sql_Ok & E). cbn in E.
    destruct (c_connections c !! _) as [n|] eqn:En; [|done].
    case_bool_decide as Hw; cbn [andb] in E; [|done]. case_bool_decide as Hd; [|done].
    split; [done|]. split; [by exists n|]. by split_and!.
  - intros (Ef & (n & En & Hw & Hd) & B1 & B2 & B3 & B4 & B5 & _).
    assert (forall v, v <= i64_max -> to_sql v = Ok v) as Hfit by (intros v Hv; by apply to_sql_Ok).
    repeat first [rewrite Hfit by done; cbn | rewrite Ef; cbn | rewrite En; cbn].
    rewrite !bool_decide_true by done. by eexists.
Qed.

(** C19 A delivery is prepared exactly when it is authorised, and then says
    all at once: the attempt is sent now if it was not before, its lease,
    held by this worker, runs for the whole duration from now and has not
    expired; the frame is recorded under its sequence number and the
    connection has reached that number; the contract sent is the stored
    one.  A refused delivery changes nothing, except that a lease of the
    attempt that is found due is expired, with the attempt. *)
Theorem delivery_is_authorised ops p :
  let c := run_controls ops control_empty in
  let frame := dp_frame p in
  let '(c', answer) := prepare_assignment_delivery p c in
  ((exists contract, answer = Ok contract) <-> exists k r n, delivery_authorised c p k r n)
  /\ match answer with
  | Ok contract => exists k r n n',
      delivery_authorised c p k r n /\ contract = ar_contract r
      /\ c_assignments c' = <[k := sent_row r (dp_now_ms p)]> (c_assignments c)
      /\ leasable (ar_state (sent_row r (dp_now_ms p))) = true
      /\ (exists l, c_leases c' !! k = Some l /\ le_worker_id l = fr_worker_id frame
            /\ le_expires_at_ms l = saturating_add u64_max (dp_now_ms p) (dp_lease_duration_ms p)
            /\ le_expired_at_ms l = None)
      /\ (exists f, c_frames c' !! (fr_connection_id frame, fr_sequence frame) = Some f
            /\ fw_attempt_id f = Some k /\ fw_message_id f = fr_message_id frame)
      /\ c_connections c' !! fr_connection_id frame = Some n' /\ cw_last_server_sequence n' = fr_sequence frame
  | Err e =>
      match deliverable p c with
      | Ok (k, r) =>
          if lease_is_due k (dp_now_ms p) c && (dp_now_ms p <=? i64_max) then
            e = Repo.InvalidTransition State.LeaseExpired State.Sent
            /\ c_assignments c' = <[k := moved r State.LeaseExpired (dp_now_ms p)]> (c_assignments c)
            /\ (exists l l', c_leases c !! k = Some l /\ c_leases c' !! k = Some l' /\ is_Some (le_expired_at_ms l'))
            /\ c_frames c' = c_frames c /\ c_connections c' = c_connections c
          else c' = c
      | Err _ => c' = c
      end
  end.
Proof.
  intros c frame. pose proof (control_reachable ops) as Hinv. fold c in Hinv. unfold prepare_assignment_delivery.
  assert (forall k r n, delivery_authorised c p k r n -> deliverable p c = Ok (k, r) /\ lease_is_due k (dp_now_ms p) c = false
            /\ exists c', publish p k r c = Ok c') as Hauth.
  { intros k r n []. split_and!.
    - apply deliverable_Ok. split_and!; try done. by apply replayable_states.
    - by apply lease_not_due.
    - apply publish_possible. split; [done|]. split; [by exists n|done]. }
  destruct (deliverable p c) as [[k r]|e] eqn:Hd.
  2:{ split; [|done]. split; [by intros [? ?]|]. intros (k & r & n & (H & _)%Hauth). done. }
  assert (forall k' r' n, delivery_authorised c p k' r' n -> k' = k /\ r' = r /\ lease_is_due k (dp_now_ms p) c = false
            /\ exists c', publish p k r c = Ok c') as Hone.
  { intros k' r' n (H & Hl & Hp)%Hauth. injection H as <- <-. done. }
  pose proof Hd as Hd'. apply deliverable_Ok in Hd' as (Hk & Hkind & Hr & Hw & Hs).
  pose proof (ci_attempt _ Hinv _ _ Hr) as [A1 A2 A3 A4 A5 A6 A7 A8].
  destruct (lease_is_due _ _ _) eqn:Hdue; cbn [andb].
  - assert (~ exists k' r' n, delivery_authorised c p k' r' n) as Hno
      by (intros (k' & r' & n & (_ & _ & H & _)%Hone); done).
    destruct (N.leb_spec (dp_now_ms p) i64_max) as [Hn|Hn].
    + unfold expire_one. assert (to_sql (dp_now_ms p) = Ok (dp_now_ms p)) as -> by (by apply to_sql_Ok). cbn. split.
      { split; [by intros [? ?]|done]. }
      rewrite Hr. unfold lease_is_due in Hdue. destruct (c_leases c !! k) as [l|] eqn:Hl; [|done].
      assert (leasable (ar_state r) = true) as ->.
      { assert (was_sent (ar_state r) = true) as Hsent by (apply A3; by eexists). by destruct (ar_state r). }
      split_and!; try done.
      * unfold move_assignment. cbn. apply map_eq. intros i. destruct (decide (i = k)) as [->|Hne].
        -- by rewrite lookup_insert_eq, lookup_alter_eq, Hr.
        -- by rewrite lookup_insert_ne, lookup_alter_ne.
      * exists l. eexists. split; [done|]. split; [cbn; by rewrite lookup_alter_eq, Hl|]. cbn. by destruct (le_expired_at_ms l).
    + unfold expire_one. destruct (to_sql (dp_now_ms p)) as [v|e] eqn:E; [apply to_sql_Ok in E; lia|]. cbn.
      split; [|done]. split; [by intros [? ?]|done].
  - destruct (publish p k r c) as [c'|e] eqn:Hp.
    + destruct (proj1 (publish_possible p k r c) ltac:(by eexists)) as (Ef & (n & En & Hnw & Hno) & Hfit).
      assert (delivery_authorised c p k r n) as Ha.
      { split; try done; [by apply replayable_states|by apply lease_not_due]. }
      split; [split; [by eauto|by eauto]|].
      apply publish_Ok in Hp as [[T1 T2 T3 T4 T5 T6] [F1 F2] (n' & N1 & N2 & N3 & N4)].
      assert (n' = n) as -> by congruence.
      exists k, r, n. eexists. split; [done|]. split; [done|]. split; [done|]. split.
      { cbn. case_bool_decide; [done|]. by destruct (ar_state r). }
      split.
      { eexists. split; [exact T2|]. unfold granted_lease.
        destruct (c_leases c !! k) as [l|] eqn:Hl; cbn; [|done]. split; [by rewrite (A4 _ eq_refl)|done]. }
      split; [rewrite F2, lookup_insert_eq; eexists; by split_and!|].
      split; [by rewrite N4, lookup_insert_eq|done].
    + split; [|done]. split; [by intros [? ?]|]. intros (k' & r' & n & (_ & _ & _ & [c' H])%Hone). congruence.
Qed.

(** ** Terminal results *)

Lemma latest_finished_snoc k observations o :
  latest_finished k (observations ++ [o]) =
  match (if bool_decide (or_attempt_id o = k)
         then match or_observation o with OFinished f => Some f | _ => None end else None) with
  | Some f => Some f
  | None => latest_finished k observations
  end.
Proof.
  unfold latest_finished. rewrite reverse_snoc. cbn. by destruct (if bool_decide _ then _ else _).
Qed.

Lemma latest_finished_Some k observations : (exists o, o ∈ observations /\ applied_finish k o) ->
  is_Some (latest_finished k observations).
Proof.
  induction observations as [|o l IH] using rev_ind; [intros (o & ?%elem_of_nil & _); done|].
  intros (x & Hx & Hf). rewrite latest_finished_snoc. apply elem_of_app in Hx as [Hx| ->%list_elem_of_singleton].
  - destruct (if bool_decide _ then _ else _); [by eexists|]. apply IH. by exists x.
  - destruct Hf as (<- & _ & f & Hf). rewrite bool_decide_eq_true_2, Hf by done. by eexists.
Qed.

(** The result of a finished attempt can always be read: reading fails
    for no attempt and gives a result exactly for the finished ones.  The
    result is not bound to the observation that finished the attempt: a
    further terminal observation from the worker, although classified a
    duplicate, replaces the result that is read. *)
Theorem terminal_result_is_latest ops o f :
  let c := run_controls ops control_empty in
  let k := as_str (ov_attempt_id o) in
  (forall id, exists result, finished_observation id c = Ok result
     /\ (is_Some result <-> (ar_state <$> c_assignments c !! id) = Some State.Finished))
  /\ (ov_observation o = OFinished f -> ov_observed_at_ms o <= i64_max ->
      (exists r, c_assignments c !! k = Some r /\ ar_state r = State.Finished
         /\ ar_worker_id r = ov_worker_id o /\ ar_assignment_id r = as_str (ov_assignment_id o)) ->
      exists c', observe_attempt o c = Ok (Duplicate, c')
        /\ finished_observation k c' = Ok (Some f)).
Proof.
  intros c k. pose proof (control_reachable ops) as Hinv. fold c in Hinv. split.
  - intros id. unfold finished_observation. destruct (c_assignments c !! id) as [r|] eqn:Hr; cbn.
    + case_bool_decide as Hs.
      * pose proof (ci_attempt _ Hinv _ _ Hr) as [A1 A2 A3 A4 A5 A6 A7 A8].
        destruct (latest_finished_Some id (c_observations c)) as [g Hg]; [by apply A7|].
        rewrite Hg. cbn. exists (Some g). split; [done|]. rewrite Hs. split; [done|by eexists].
      * exists None. split; [done|]. split; [by intros []|congruence].
    + exists None. split; [done|]. split; [by intros []|done].
  - intros Hf Ht (r & Hr & Hs & Hw & Ha).
    set (x := MkObservationRow k (ov_worker_id o) (ov_observed_at_ms o) Duplicate (ov_observation o)).
    exists (with_observations c (c_observations c ++ [x])). split.
    + apply observe_Ok. exists r, Repeated, c. do 3 (split; [done|]). split; [by rewrite Hs, Hf|].
      by split_and!.
    + unfold finished_observation. cbn. rewrite Hr, bool_decide_eq_true_2 by done.
      rewrite latest_finished_snoc. cbn. rewrite bool_decide_eq_true_2, Hf by done. done.
Qed.

(** ** Samples *)

Module Sample.

Definition attempt_id : AttemptId := MkId "attempt-1" eq_refl.
Definition assignment_id : AssignmentId := MkId "assignment-1" eq_refl.
Definition descriptor : ArtifactDescriptor := MkArtifactDescriptor (from_bytes []) 1 "text/plain".
Definition contract : AssignmentContract :=
  MkAssignment assignment_id attempt_id 1 "key-1" (MkId "task-1" eq_refl) (MkId "candidate-1" eq_refl)
    (MkExecution Process ["true"] "." [] 1000 descriptor descriptor None) [].
Definition control : Control :=
  with_assignments control_empty
    {["attempt-1" := MkAssignmentRow "assignment-1" "worker-1" contract State.Running 1 2 (Some 2) None]}.
Definition finished : ObservedAttempt :=
  MkObserved assignment_id attempt_id "worker-1" 5
    (OFinished (MkFinishedObservation OutcomeSucceeded (Some 0%Z) 3 None None None "done")).

Lemma observation_idempotent_witness :
  exists d c1 d' c2, observe_attempt finished control = Ok (d, c1)
    /\ observe_attempt (at_time 9 finished) c1 = Ok (d', c2)
    /\ c_assignments c2 = c_assignments c1 /\ d = Applied /\ d' = Duplicate.
Proof.
  destruct (observe_attempt finished control) as [[d c1]|e] eqn:E; [|vm_compute in E; discriminate E].
  assert (d = Applied) as ->.
  { assert (exists c, observe_attempt finished control = Ok (Applied, c)) as [c E']
      by (eexists; vm_compute; reflexivity).
    rewrite E in E'. by injection E' as -> _. }
  destruct (observation_idempotent finished control Applied c1 9) as (d' & c2 & H1 & H2 & _ & H3);
    [exact E|vm_compute; discriminate|vm_compute; discriminate|].
  exists Applied, c1, d', c2. split; [reflexivity|]. split; [exact H1|]. split; [exact H2|].
  split; [reflexivity|exact H3].
Defined.

End Sample.
