(* ===== verification/Wire.v ===== *)
(** * The worker-control protocol at the RPC boundary

    [src/crates/alloyport-proto/proto/alloyport/worker/v1/worker_control.proto],
    the checks of [src/crates/alloyport-proto/src/lib.rs], and the mappings
    between the wire and the domain: the server's
    [control_transport.rs] and the worker's [wire_mapping.rs].  Enumeration
    fields arrive as [i32]; the generated [try_from] accepts exactly the
    declared numbers.  An [expect] is an [option] that is [None] where the
    code panics. *)

From Stdlib Require Import Ascii.
From stdpp Require Import base strings gmap sorting numbers list.
From S2P Require Import Prelude Text Digest Identity Vocabulary WorkerJournal ControlPlane.

Local Open Scope Z_scope.

(** ** Messages *)

(** [message ArtifactRef]. *)
Record WireArtifact := MkWireArtifact { wa_digest : string; wa_size_bytes : N; wa_media_type : string }.

(** [message EnvironmentVariable]. *)
Record WireEnvironment := MkWireEnvironment { wv_name : string; wv_value : string }.

(** [message ResourceLimits]. *)
Record WireLimits := MkWireLimits {
  wl_cpu_millis : N;
  wl_memory_bytes : N;
  wl_disk_bytes : N;
  wl_process_count : N;
  wl_output_bytes : N;
  wl_device_count : N;
  wl_network : Z;
}.

(** [message ExecutionSpec]. *)
Record WireExecution := MkWireExecution {
  wx_executor_kind : Z;
  wx_argv : list string;
  wx_working_directory : string;
  wx_environment : list WireEnvironment;
  wx_timeout_ms : N;
  wx_bundle : option WireArtifact;
  wx_image : option WireArtifact;
  wx_limits : option WireLimits;
}.

(** [message Assignment]. *)
Record WireAssignment := MkWireAssignment {
  ws_assignment_id : string;
  ws_attempt_id : string;
  ws_attempt_number : N;
  ws_idempotency_key : string;
  ws_task_id : string;
  ws_candidate_id : string;
  ws_execution : option WireExecution;
  ws_required_features : list string;
}.

(** [message WorkerCapabilities]; its devices are those of the domain. *)
Record WireCapabilities := MkWireCapabilities {
  wcp_backend : Z;
  wcp_architecture : string;
  wcp_device_count : N;
  wcp_max_concurrency : N;
  wcp_driver_version : string;
  wcp_toolkit_version : string;
  wcp_container_runtime : string;
  wcp_devices : list AcceleratorDevice;
}.

(** [message ActiveAttempt]. *)
Record WireActive := MkWireActive { wt_assignment_id : string; wt_attempt_id : string; wt_phase : Z }.

(** [message WorkerHello]. *)
Record WorkerHello := MkHello {
  wh_protocol_major : N;
  wh_protocol_minor : N;
  wh_worker_id : string;
  wh_instance_id : string;
  wh_worker_version : string;
  wh_features : list string;
  wh_capabilities : option WireCapabilities;
  wh_active_attempts : list WireActive;
}.

(** [message DeviceObservation]. *)
Record WireDevice := MkWireDevice {
  wd_device_id : string;
  wd_health : Z;
  wd_process_count : N;
  wd_utilization_percent : N;
  wd_memory_used_bytes : N;
  wd_memory_total_bytes : N;
  wd_temperature_millicelsius : N;
  wd_power_milliwatts : N;
  wd_observed_at_ms : N;
  wd_detail : string;
}.

(** [message DeviceLease]. *)
Record WireLease := MkWireLease { we_attempt_id : string; we_device_id : string; we_acquired_at_ms : N }.

(** [message Heartbeat]. *)
Record Heartbeat := MkHeartbeat {
  hb_active_attempts : list WireActive;
  hb_available_slots : N;
  hb_device_free_slots : N;
  hb_health : Z;
  hb_devices : list WireDevice;
  hb_device_leases : list WireLease;
}.

(** [message OutputChunk]. *)
Record OutputChunk := MkOutputChunk {
  ou_attempt_id : string;
  ou_stream : Z;
  ou_byte_offset : N;
  ou_payload : bytes;
  ou_display_sanitized : bool;
}.

(** [message ExecutionFinished]. *)
Record WireFinished := MkWireFinished {
  wf_assignment_id : string;
  wf_attempt_id : string;
  wf_outcome : Z;
  wf_exit_code : option Z;
  wf_elapsed_ms : N;
  wf_receipt : option WireArtifact;
  wf_stdout : option WireArtifact;
  wf_stderr : option WireArtifact;
  wf_detail : string;
}.

(** [oneof message] of [WorkerToServer]. *)
Inductive WorkerMessage :=
| WHello (hello : WorkerHello)
| WHeartbeat (heartbeat : Heartbeat)
| WAccepted (assignment_id attempt_id : string) (already_known : bool)
| WRejected (assignment_id attempt_id : string) (reason : Z) (detail : string)
| WStarted (assignment_id attempt_id : string)
| WOutput (output : OutputChunk)
| WFinished (finished : WireFinished)
| WStatus (health : Z) (detail : string)
| WCancelAcknowledged (assignment_id attempt_id : string) (already_terminal : bool).

(** [message WorkerToServer]. *)
Record WorkerToServer := MkWorkerFrame {
  wm_sequence : N;
  wm_acknowledges_server_through : N;
  wm_message_id : string;
  wm_message : option WorkerMessage;
}.

(** [message ServerWelcome]. *)
Record ServerWelcome := MkWelcome {
  sw_connection_id : string;
  sw_protocol_major : N;
  sw_protocol_minor : N;
  sw_heartbeat_interval_ms : N;
  sw_attempt_lease_ms : N;
}.

(** [oneof message] of [ServerToWorker]. *)
Inductive ServerMessage :=
| SWelcome (welcome : ServerWelcome)
| SAssignment (assignment : WireAssignment)
| SCancel (attempt_id reason : string)
| SDrain (reason : string)
| SAcknowledgement.

(** [message ServerToWorker]. *)
Record ServerToWorker := MkServerFrame {
  sm_sequence : N;
  sm_acknowledges_worker_through : N;
  sm_message_id : string;
  sm_message : option ServerMessage;
}.

(** [enum Backend]. *)
Inductive Backend := BackendUnspecified | BackendCuda | BackendAscend.
#[export] Instance Backend_eq_dec : EqDecision Backend.
Proof. solve_decision. Defined.

(** [Backend::try_from(..).unwrap_or(Unspecified)]. *)
Definition backend_or_unspecified (value : Z) : Backend :=
  match value with 1 => BackendCuda | 2 => BackendAscend | _ => BackendUnspecified end.

(** [try_from(..).unwrap_or(Unspecified) == Unspecified] for an enumeration
    whose greatest number is [last]. *)
Definition unspecified (last value : Z) : bool := negb ((1 <=? value) && (value <=? last)).

(** ** Checks *)

Definition PROTOCOL_MAJOR : N := 1.
Definition PROTOCOL_MINOR : N := 7.
Definition MAX_OUTPUT_PREVIEW_CHUNK_BYTES : N := 64 * 1024.

(** [struct ValidationError]. *)
Inductive ValidationError := Invalid (field detail : string).

Definition Checked : Type := result ValidationError unit.

(** [require_text]. *)
Definition require_text (field value : string) : Checked :=
  guard_err (trim_is_empty value) (Invalid field "missing").

(** [validate_worker_frame]. *)
Definition validate_worker_frame (frame : WorkerToServer) : Checked :=
  match wm_message frame with
  | Some (WOutput output) =>
      guard_err (MAX_OUTPUT_PREVIEW_CHUNK_BYTES <? N.of_nat (length (ou_payload output)))%N
        (Invalid "output_chunk.payload" "exceeds the per-frame preview limit")
  | _ => Ok tt
  end.

(** The loop of [validate_accelerator_devices] with its two sets. *)
Fixpoint validate_device_identities (ids serials : list string) (devices : list AcceleratorDevice) : Checked :=
  match devices with
  | [] => Ok tt
  | device :: devices =>
      _ ← require_text "hello.capabilities.devices.device_id" (acc_device_id device);
      _ ← require_text "hello.capabilities.devices.product_name" (acc_product_name device);
      _ ← require_text "hello.capabilities.devices.serial_number" (acc_serial_number device);
      _ ← require_text "hello.capabilities.devices.firmware_version" (acc_firmware_version device);
      _ ← guard_err (bool_decide (acc_device_id device ∈ ids))
            (Invalid "hello.capabilities.devices.device_id" "duplicate");
      _ ← guard_err (bool_decide (acc_serial_number device ∈ serials))
            (Invalid "hello.capabilities.devices.serial_number" "duplicate");
      validate_device_identities (acc_device_id device :: ids) (acc_serial_number device :: serials) devices
  end.

(** [validate_accelerator_devices]. *)
Definition validate_accelerator_devices (capabilities : WireCapabilities) : Checked :=
  let devices := wcp_devices capabilities in
  _ ← guard_err (negb (bool_decide (devices = []))
                 && negb (N.of_nat (length devices) =? wcp_device_count capabilities)%N)
        (Invalid "hello.capabilities.devices" "must be empty or match device_count");
  validate_device_identities [] [] devices.

(** The features bound to the Ascend backend. *)
Definition fixed_ascend_feature (feature : string) : bool :=
  String.eqb feature "ascend-fixture-v1" || String.eqb feature "ascend-build-v1"
  || String.eqb feature "ascend-reduction-correctness-v1".

(** [validate_worker_hello]. *)
Definition validate_worker_hello (hello : WorkerHello) : Checked :=
  _ ← guard_err (negb (wh_protocol_major hello =? PROTOCOL_MAJOR)%N)
        (Invalid "hello.protocol_major" "unsupported major version");
  _ ← require_text "hello.worker_id" (wh_worker_id hello);
  _ ← require_text "hello.instance_id" (wh_instance_id hello);
  _ ← require_text "hello.worker_version" (wh_worker_version hello);
  capabilities ← ok_or (wh_capabilities hello) (Invalid "hello.capabilities" "missing");
  let backend := backend_or_unspecified (wcp_backend capabilities) in
  _ ← guard_err (bool_decide (backend = BackendUnspecified))
        (Invalid "hello.capabilities.backend" "unspecified or unknown");
  _ ← guard_err (wcp_device_count capabilities =? 0)%N
        (Invalid "hello.capabilities.device_count" "must be greater than zero");
  _ ← guard_err (wcp_max_concurrency capabilities =? 0)%N
        (Invalid "hello.capabilities.max_concurrency" "must be greater than zero");
  _ ← validate_accelerator_devices capabilities;
  _ ← (if existsb fixed_ascend_feature (wh_features hello) then
         _ ← guard_err (bool_decide (backend <> BackendAscend))
               (Invalid "hello.features" "fixed Ascend features require the Ascend backend");
         guard_err (negb (N.of_nat (length (wcp_devices capabilities)) =? wcp_device_count capabilities)%N)
           (Invalid "hello.capabilities.devices" "fixed Ascend workers must identify every advertised device")
       else Ok tt);
  guard_err (existsb (String.eqb "cuda-reduction-correctness-v1") (wh_features hello)
             && bool_decide (backend <> BackendCuda))
    (Invalid "hello.features" "cuda-reduction-correctness-v1 requires the CUDA backend").

(** The loop over the observed devices. *)
Fixpoint validate_observed_devices (seen : list string) (devices : list WireDevice) : Checked :=
  match devices with
  | [] => Ok tt
  | device :: devices =>
      _ ← require_text "heartbeat.devices.device_id" (wd_device_id device);
      _ ← guard_err (bool_decide (wd_device_id device ∈ seen))
            (Invalid "heartbeat.devices.device_id" "duplicate");
      _ ← guard_err (unspecified 4 (wd_health device))
            (Invalid "heartbeat.devices.health" "unspecified or unknown");
      _ ← guard_err (100 <? wd_utilization_percent device)%N
            (Invalid "heartbeat.devices.utilization_percent" "must not exceed 100");
      _ ← guard_err (wd_memory_total_bytes device <? wd_memory_used_bytes device)%N
            (Invalid "heartbeat.devices.memory_used_bytes" "must not exceed total memory");
      _ ← guard_err (1024 <? String.length (wd_detail device))%nat
            (Invalid "heartbeat.devices.detail" "exceeds 1024 bytes");
      validate_observed_devices (wd_device_id device :: seen) devices
  end.

(** The loop over the device leases. *)
Fixpoint validate_leases (attempts devices : list string) (leases : list WireLease) : Checked :=
  match leases with
  | [] => Ok tt
  | lease :: leases =>
      _ ← require_text "heartbeat.device_leases.attempt_id" (we_attempt_id lease);
      _ ← require_text "heartbeat.device_leases.device_id" (we_device_id lease);
      _ ← guard_err (bool_decide (we_attempt_id lease ∈ attempts))
            (Invalid "heartbeat.device_leases.attempt_id" "duplicate");
      _ ← guard_err (bool_decide (we_device_id lease ∈ devices))
            (Invalid "heartbeat.device_leases.device_id" "duplicate active device lease");
      validate_leases (we_attempt_id lease :: attempts) (we_device_id lease :: devices) leases
  end.

(** [validate_heartbeat]. *)
Definition validate_heartbeat (heartbeat : Heartbeat) : Checked :=
  _ ← guard_err (unspecified 3 (hb_health heartbeat))
        (Invalid "heartbeat.health" "unspecified or unknown");
  _ ← validate_observed_devices [] (hb_devices heartbeat);
  validate_leases [] [] (hb_device_leases heartbeat).

(** [Path::components] on Unix: separators are collapsed, a dot is kept
    only at the front of a relative path. *)
Inductive Component := RootDir | CurDir | ParentDir | Normal (name : string).
#[export] Instance Component_eq_dec : EqDecision Component.
Proof. solve_decision. Defined.

Definition component (name : string) : option Component :=
  if String.eqb name EmptyString || String.eqb name "." then None
  else if String.eqb name ".." then Some ParentDir else Some (Normal name).

Definition components (path : string) : list Component :=
  let names := split_at "/"%char path in
  (if starts_with "/" path then [RootDir]
   else if bool_decide (head names = Some ".") then [CurDir] else [])
  ++ omap component names.

(** [validate_sandbox_path]; a Unix path has no [Prefix] component. *)
Definition validate_sandbox_path (path : string) : Checked :=
  _ ← guard_err (String.eqb path EmptyString) (Invalid "assignment.execution.working_directory" "missing");
  guard_err (existsb (fun c => bool_decide (c = ParentDir \/ c = RootDir)) (components path))
    (Invalid "assignment.execution.working_directory" "must stay relative to the sandbox").

(** [validate_artifact]. *)
Definition validate_artifact (field : string) (artifact : option WireArtifact) : Checked :=
  artifact ← ok_or artifact (Invalid field "missing");
  _ ← map_err (fun _ => Invalid field "digest must be canonical SHA-256") (digest_from_str (wa_digest artifact));
  Ok tt.

(** [validate_assignment]. *)
Definition validate_assignment (assignment : WireAssignment) : Checked :=
  _ ← require_text "assignment.assignment_id" (ws_assignment_id assignment);
  _ ← require_text "assignment.attempt_id" (ws_attempt_id assignment);
  _ ← require_text "assignment.idempotency_key" (ws_idempotency_key assignment);
  _ ← require_text "assignment.task_id" (ws_task_id assignment);
  _ ← require_text "assignment.candidate_id" (ws_candidate_id assignment);
  execution ← ok_or (ws_execution assignment) (Invalid "assignment.execution" "missing");
  _ ← guard_err (unspecified 8 (wx_executor_kind execution))
        (Invalid "assignment.execution.executor_kind" "unspecified or unknown");
  _ ← guard_err (match wx_argv execution with [] => true | executable :: _ => String.eqb executable EmptyString end)
        (Invalid "assignment.execution.argv" "must contain a non-empty executable");
  _ ← validate_sandbox_path (wx_working_directory execution);
  _ ← validate_artifact "assignment.execution.bundle" (wx_bundle execution);
  validate_artifact "assignment.execution.image" (wx_image execution).

(** ** Mappings *)

(** A result whose error is a panic. *)
Definition expect {E A} (r : result E A) : option A :=
  match r with Ok a => Some a | Err _ => None end.

(** [artifact_to_identity], and the worker's [artifact_to_stored]. *)
Definition artifact_to_identity (artifact : WireArtifact) : option ArtifactDescriptor :=
  digest ← expect (digest_from_str (wa_digest artifact));
  Some (MkArtifactDescriptor digest (wa_size_bytes artifact) (wa_media_type artifact)).

Definition artifact_to_stored (artifact : WireArtifact) : option ArtifactDescriptor :=
  digest ← expect (digest_from_str (wa_digest artifact));
  Some (MkArtifactDescriptor digest (wa_size_bytes artifact) (wa_media_type artifact)).

(** [identity_to_artifact], and the worker's [stored_to_artifact]. *)
Definition identity_to_artifact (identity : ArtifactDescriptor) : WireArtifact :=
  MkWireArtifact (digest_display (ad_digest identity)) (ad_size_bytes identity) (ad_media_type identity).

Definition stored_to_artifact (artifact : ArtifactDescriptor) : WireArtifact :=
  MkWireArtifact (digest_display (ad_digest artifact)) (ad_size_bytes artifact) (ad_media_type artifact).

(** The limits of either mapping. *)
Definition limits_to_contract (limits : WireLimits) : option ResourceContract :=
  network ← expect (network_policy_try_from (wl_network limits));
  Some (MkResources (wl_cpu_millis limits) (wl_memory_bytes limits) (wl_disk_bytes limits)
    (wl_process_count limits) (wl_output_bytes limits) (wl_device_count limits) network).

(** [Option::map] of a function that may panic. *)
Definition map_panicking {A B} (f : A -> option B) (o : option A) : option (option B) :=
  match o with None => Some None | Some a => Some <$> f a end.

(** [assignment_to_contract]. *)
Definition assignment_to_contract (assignment : WireAssignment) : option AssignmentContract :=
  execution ← ws_execution assignment;
  assignment_id ← expect (parse_id KAssignment (ws_assignment_id assignment));
  attempt_id ← expect (parse_id KAttempt (ws_attempt_id assignment));
  task_id ← expect (parse_id KTask (ws_task_id assignment));
  candidate_id ← expect (parse_id KCandidate (ws_candidate_id assignment));
  executor_kind ← expect (execution_kind_try_from (wx_executor_kind execution));
  bundle ← wx_bundle execution ≫= artifact_to_identity;
  image ← wx_image execution ≫= artifact_to_identity;
  limits ← map_panicking limits_to_contract (wx_limits execution);
  Some (MkAssignment assignment_id attempt_id (ws_attempt_number assignment)
    (ws_idempotency_key assignment) task_id candidate_id
    (MkExecution executor_kind (wx_argv execution) (wx_working_directory execution)
       ((fun e => MkEnvironment (wv_name e) (wv_value e)) <$> wx_environment execution)
       (wx_timeout_ms execution) bundle image limits)
    (ws_required_features assignment)).

(** [assignment_to_stored] of the worker. *)
Definition assignment_to_stored (assignment : WireAssignment) : option AssignmentContract :=
  execution ← ws_execution assignment;
  assignment_id ← expect (parse_id KAssignment (ws_assignment_id assignment));
  attempt_id ← expect (parse_id KAttempt (ws_attempt_id assignment));
  task_id ← expect (parse_id KTask (ws_task_id assignment));
  candidate_id ← expect (parse_id KCandidate (ws_candidate_id assignment));
  executor_kind ← expect (execution_kind_try_from (wx_executor_kind execution));
  bundle ← wx_bundle execution ≫= artifact_to_stored;
  image ← wx_image execution ≫= artifact_to_stored;
  limits ← map_panicking limits_to_contract (wx_limits execution);
  Some (MkAssignment assignment_id attempt_id (ws_attempt_number assignment)
    (ws_idempotency_key assignment) task_id candidate_id
    (MkExecution executor_kind (wx_argv execution) (wx_working_directory execution)
       ((fun e => MkEnvironment (wv_name e) (wv_value e)) <$> wx_environment execution)
       (wx_timeout_ms execution) bundle image limits)
    (ws_required_features assignment)).

(** [contract_to_assignment]. *)
Definition contract_to_assignment (contract : AssignmentContract) : WireAssignment :=
  let execution := ac_execution contract in
  MkWireAssignment (as_str (ac_assignment_id contract)) (as_str (ac_attempt_id contract))
    (ac_attempt_number contract) (ac_idempotency_key contract) (as_str (ac_task_id contract))
    (as_str (ac_candidate_id contract))
    (Some (MkWireExecution (execution_kind_code (executor_kind execution)) (argv execution)
       (working_directory execution)
       ((fun e => MkWireEnvironment (env_name e) (env_value e)) <$> environment execution)
       (timeout_ms execution) (Some (identity_to_artifact (bundle execution)))
       (Some (identity_to_artifact (image execution)))
       ((fun l => MkWireLimits (cpu_millis l) (memory_bytes l) (disk_bytes l) (process_count l)
                    (output_bytes l) (device_count l) (network_policy_code (network l)))
        <$> limits execution)))
    (ac_required_features contract).

(** [hello_to_registration]. *)
Definition hello_to_registration (hello : WorkerHello) : option WorkerRegistration :=
  capabilities ← wh_capabilities hello;
  Some (MkRegistration (wh_protocol_major hello) (wh_protocol_minor hello) (wh_worker_id hello)
    (wh_instance_id hello) (wh_worker_version hello) (wh_features hello)
    (MkCapabilities (wcp_backend capabilities) (wcp_architecture capabilities)
       (wcp_device_count capabilities) (wcp_max_concurrency capabilities)
       (wcp_driver_version capabilities) (wcp_toolkit_version capabilities)
       (wcp_container_runtime capabilities) (wcp_devices capabilities))).

(** [stored_to_finished]. *)
Definition stored_to_finished (assignment_id attempt_id : string) (finished : StoredFinished) : WireFinished :=
  MkWireFinished assignment_id attempt_id (attempt_outcome_code (sf_outcome finished))
    (sf_exit_code finished) (sf_elapsed_ms finished) (stored_to_artifact <$> sf_receipt finished)
    (stored_to_artifact <$> sf_stdout finished) (stored_to_artifact <$> sf_stderr finished)
    (sf_detail finished).

(** [outbox_to_wire]. *)
Definition outbox_to_wire (payload : WorkerOutboxPayload) : WorkerMessage :=
  match payload with
  | AssignmentAccepted a t known => WAccepted (as_str a) (as_str t) known
  | AssignmentRejected a t reason detail => WRejected a t (rejection_reason_code reason) detail
  | ExecutionStarted a t => WStarted (as_str a) (as_str t)
  | ExecutionFinished a t finished => WFinished (stored_to_finished (as_str a) (as_str t) finished)
  | CancellationAcknowledged a t terminal => WCancelAcknowledged (as_str a) (as_str t) terminal
  end.

(** [expected_worker_message_id]. *)
Definition expected_worker_message_id (message : option WorkerMessage) : option string :=
  match message with
  | Some (WAccepted _ t _) => Some ("assignment-accepted:" +:+ t)
  | Some (WRejected _ t _ _) => Some ("assignment-rejected:" +:+ t)
  | Some (WStarted _ t) => Some ("execution-started:" +:+ t)
  | Some (WFinished f) => Some ("execution-finished:" +:+ wf_attempt_id f)
  | Some (WCancelAcknowledged _ t _) => Some ("cancellation-acknowledged:" +:+ t)
  | Some (WHello _ | WHeartbeat _ | WOutput _ | WStatus _ _) | None => None
  end.

(** [expected_server_message_id]. *)
Definition expected_server_message_id (message : option ServerMessage) : option string :=
  match message with
  | Some (SAssignment a) => Some ("assignment:" +:+ ws_attempt_id a)
  | Some (SCancel t _) => Some ("cancel:" +:+ t)
  | Some (SWelcome _ | SDrain _ | SAcknowledgement) | None => None
  end.

(** ** Lemmas *)

Lemma expect_Some {E A} (r : result E A) a : expect r = Some a <-> r = Ok a.
Proof. destruct r; cbn; naive_solver. Qed.

Lemma artifact_roundtrip d : artifact_to_identity (identity_to_artifact d) = Some d.
Proof. unfold artifact_to_identity. cbn. rewrite digest_from_str_display. by destruct d. Qed.

Lemma limits_roundtrip limits :
  map_panicking limits_to_contract
    ((fun l => MkWireLimits (cpu_millis l) (memory_bytes l) (disk_bytes l) (process_count l)
                 (output_bytes l) (device_count l) (network_policy_code (network l))) <$> limits)
  = Some limits.
Proof.
  destruct limits as [[? ? ? ? ? ? n]|]; [|done]. unfold map_panicking, limits_to_contract. cbn.
  by destruct n.
Qed.

Lemma environment_roundtrip (l : list EnvironmentEntry) :
  (fun e => MkEnvironment (wv_name e) (wv_value e)) <$>
    ((fun e => MkWireEnvironment (env_name e) (env_value e)) <$> l) = l.
Proof. induction l as [|[] l IH]; [done|]. cbn. by rewrite IH. Qed.

Lemma contract_roundtrip c : assignment_to_contract (contract_to_assignment c) = Some c.
Proof.
  destruct c as [a t number key task candidate [kind arg dir env timeout b i lim] features].
  unfold assignment_to_contract, contract_to_assignment.
  cbn -[parse_id expect execution_kind_try_from execution_kind_code artifact_to_identity identity_to_artifact
    map_panicking fmap].
  rewrite !parse_id_as_str. cbn [expect mbind option_bind].
  assert (execution_kind_try_from (execution_kind_code kind) = Ok kind) as -> by (by apply kind_codec).
  cbn [expect mbind option_bind]. rewrite !artifact_roundtrip. cbn [mbind option_bind].
  rewrite limits_roundtrip. cbn [mbind option_bind]. by rewrite environment_roundtrip.
Qed.

Lemma require_text_Ok field value u : require_text field value = Ok u <-> trim_is_empty value = false.
Proof. apply guard_err_Ok. Qed.

Lemma validate_artifact_Ok field o u : validate_artifact field o = Ok u <->
  exists w d, o = Some w /\ digest_from_str (wa_digest w) = Ok d.
Proof.
  unfold validate_artifact. destruct o as [w|]; cbn [ok_or mbind result_bind]; [|split; [done|by intros (w & d & [=] & _)]].
  destruct (digest_from_str (wa_digest w)) as [d|] eqn:E; cbn; destruct u.
  - split; [by exists w, d|done].
  - split; [done|]. intros (w' & d & [= <-] & E'). congruence.
Qed.

(** What an assignment that passed the checks has. *)
Record assignment_ok (a : WireAssignment) (x : WireExecution) (kind : ExecutionKind)
    (b i : WireArtifact) (db di : Sha256Digest) : Prop := {
  ao_assignment_id : trim_is_empty (ws_assignment_id a) = false;
  ao_attempt_id : trim_is_empty (ws_attempt_id a) = false;
  ao_task_id : trim_is_empty (ws_task_id a) = false;
  ao_candidate_id : trim_is_empty (ws_candidate_id a) = false;
  ao_execution : ws_execution a = Some x;
  ao_kind : execution_kind_try_from (wx_executor_kind x) = Ok kind;
  ao_bundle : wx_bundle x = Some b;
  ao_bundle_digest : digest_from_str (wa_digest b) = Ok db;
  ao_image : wx_image x = Some i;
  ao_image_digest : digest_from_str (wa_digest i) = Ok di;
}.

Lemma specified_kind value : unspecified 8 value = false -> exists kind, execution_kind_try_from value = Ok kind.
Proof.
  unfold unspecified. rewrite negb_false_iff, andb_true_iff, !Z.leb_le. intros [H1 H2].
  assert (value = 1 \/ value = 2 \/ value = 3 \/ value = 4 \/ value = 5 \/ value = 6 \/ value = 7 \/ value = 8) by lia.
  naive_solver.
Qed.

Lemma validate_assignment_Ok a u : validate_assignment a = Ok u ->
  exists x kind b i db di, assignment_ok a x kind b i db di.
Proof.
  unfold validate_assignment. intros E. do 5 (apply result_bind_Ok in E as ([] & ?%require_text_Ok & E)).
  apply result_bind_Ok in E as (x & Hx%ok_or_Ok & E). apply guard_bind_Ok in E as [Hk E].
  apply specified_kind in Hk as [kind Hk].
  apply guard_bind_Ok in E as [_ E]. apply result_bind_Ok in E as ([] & _ & E).
  apply result_bind_Ok in E as ([] & (b & db & Hb & Hdb)%validate_artifact_Ok & (i & di & Hi & Hdi)%validate_artifact_Ok).
  by exists x, kind, b, i, db, di.
Qed.

Lemma parse_id_present k value : trim_is_empty value = false -> exists id, expect (parse_id k value) = Some id /\ as_str id = value.
Proof.
  intros H. destruct (parse_id_total k value H) as (id & Hid & E). exists id. by rewrite Hid.
Qed.

(** A digest text in the canonical spelling. *)
Definition canonical_artifact (w : WireArtifact) : WireArtifact :=
  match digest_from_str (wa_digest w) with
  | Ok d => MkWireArtifact (digest_display d) (wa_size_bytes w) (wa_media_type w)
  | Err _ => w
  end.

Definition canonical_assignment (a : WireAssignment) : WireAssignment :=
  MkWireAssignment (ws_assignment_id a) (ws_attempt_id a) (ws_attempt_number a) (ws_idempotency_key a)
    (ws_task_id a) (ws_candidate_id a)
    ((fun x => MkWireExecution (wx_executor_kind x) (wx_argv x) (wx_working_directory x) (wx_environment x)
                 (wx_timeout_ms x) (canonical_artifact <$> wx_bundle x) (canonical_artifact <$> wx_image x)
                 (wx_limits x)) <$> ws_execution a)
    (ws_required_features a).

Lemma limits_to_contract_Some l r : limits_to_contract l = Some r ->
  MkWireLimits (cpu_millis r) (memory_bytes r) (disk_bytes r) (process_count r)
    (output_bytes r) (device_count r) (network_policy_code (network r)) = l.
Proof.
  unfold limits_to_contract. destruct (network_policy_try_from (wl_network l)) as [n|] eqn:Hn; [|done].
  cbn. intros [= <-]. cbn. apply network_codec in Hn. rewrite Hn. by destruct l.
Qed.

(** C22 The wire and the domain agree on assignments.  Every contract
    survives the wire, on the server and on the worker, which read it
    alike.  An assignment that passed the checks is either converted to a
    contract that stands for the same assignment, digests spelled
    canonically, or the conversion panics, and that exactly when its limits
    name an unknown network policy: the checks do not look at the limits
    although the conversion says they do. *)
Theorem validated_assignment_converts :
  (forall c, assignment_to_contract (contract_to_assignment c) = Some c)
  /\ (forall a, assignment_to_stored a = assignment_to_contract a)
  /\ (forall a, validate_assignment a = Ok tt ->
        match assignment_to_contract a with
        | Some c => contract_to_assignment c = canonical_assignment a
        | None => exists x l, ws_execution a = Some x /\ wx_limits x = Some l
            /\ forall n, network_policy_try_from (wl_network l) <> Ok n
        end).
Proof.
  split; [exact contract_roundtrip|]. split; [done|]. intros a (x & kind & b & i & db & di & [])%validate_assignment_Ok.
  unfold assignment_to_contract. rewrite ao_execution0. cbn [mbind option_bind].
  destruct (parse_id_present KAssignment _ ao_assignment_id0) as (ia & -> & Ea).
  destruct (parse_id_present KAttempt _ ao_attempt_id0) as (it & -> & Et).
  destruct (parse_id_present KTask _ ao_task_id0) as (ik & -> & Ek).
  destruct (parse_id_present KCandidate _ ao_candidate_id0) as (ic & -> & Ec).
  cbn [mbind option_bind]. rewrite ao_kind0. cbn [mbind option_bind expect]. rewrite ao_bundle0, ao_image0.
  cbn [mbind option_bind]. unfold artifact_to_identity. rewrite ao_bundle_digest0, ao_image_digest0.
  cbn [mbind option_bind expect]. destruct (map_panicking limits_to_contract (wx_limits x)) as [limits|] eqn:Hl; cbn [mbind option_bind].
  - unfold contract_to_assignment, canonical_assignment. rewrite ao_execution0. cbn.
    rewrite ao_bundle0, ao_image0. cbn. unfold canonical_artifact. rewrite ao_bundle_digest0, ao_image_digest0.
    rewrite Ea, Et, Ek, Ec. unfold identity_to_artifact. cbn. do 2 f_equal. f_equal.
    + by apply kind_codec.
    + clear. induction (wx_environment x) as [|[] l IH]; [done|]. cbn. by rewrite IH.
    + unfold map_panicking in Hl. destruct (wx_limits x) as [l|]; [|by injection Hl as <-].
      destruct (limits_to_contract l) as [r|] eqn:Hr; [|done]. cbn in Hl. injection Hl as <-. cbn.
      f_equal. by apply limits_to_contract_Some.
  - exists x. unfold map_panicking in Hl. destruct (wx_limits x) as [l|]; [|done]. exists l. split_and!; try done.
    intros n Hn. unfold limits_to_contract in Hl. by rewrite Hn in Hl.
Qed.

(** ** Message identities *)

Lemma worker_message_id payload :
  expected_worker_message_id (Some (outbox_to_wire payload)) = Some (lifecycle_identity payload).1.
Proof. by destruct payload. Qed.
