(* ===== verification/Interactions.v ===== *)
(** * The durable interaction log and its subscribers

    [src/crates/alloyport-server/src/interaction.rs], its SQLite adapter
    [adapters/sqlite/interaction_store.rs] and [interaction_store/*.rs],
    and the replay-to-live hub [interaction/hub.rs].  Each table is a
    finite map on its primary key and an operation is one immediate
    transaction.  Values stored as JSON (an event's fingerprint, its
    envelope) are compared as values; [V] is the type of the JSON values
    that events carry.  Storage failures abort a transaction, so they only
    add steps that change nothing.  The broadcast channel of the hub
    belongs to tokio: what a receiver gets from it is an argument. *)

From Stdlib Require Import Ascii.
From stdpp Require Import base strings pretty gmap sorting numbers list.
From S2P Require Import Prelude Text Digest RunEvents.

Local Open Scope N_scope.

#[export] Instance Producer_eq_dec : EqDecision Producer.
Proof. solve_decision. Defined.
#[export] Instance Authority_eq_dec : EqDecision Authority.
Proof. solve_decision. Defined.
#[export] Instance Visibility_eq_dec : EqDecision Visibility.
Proof. solve_decision. Defined.
#[export] Instance MessageRole_eq_dec : EqDecision MessageRole.
Proof. solve_decision. Defined.
#[export] Instance OutputStream_eq_dec : EqDecision OutputStream.
Proof. solve_decision. Defined.
#[export] Instance FileChangeKind_eq_dec : EqDecision FileChangeKind.
Proof. solve_decision. Defined.
#[export] Instance FileChange_eq_dec : EqDecision FileChange.
Proof. solve_decision. Defined.
#[export] Instance ArtifactRef_eq_dec : EqDecision ArtifactRef.
Proof. solve_decision. Defined.
#[export] Instance Event_eq_dec `{EqDecision V} : EqDecision (Event V).
Proof. solve_decision. Defined.

(** [enum InteractionError]; the inner errors and the texts of
    [InvalidFrame] are dropped. *)
Inductive InteractionError :=
| IStorage
| IEncoding
| InvalidFrame
| ConflictingDedupKey (key : string)
| ConflictingOutput (attempt_id : string) (stream : Z) (byte_offset : N)
| InvalidCursor (run_id : string) (after_sequence latest_sequence : N)
| RevokedRunGrant (run_id owner_id : string)
| MissingRunGrant (run_id owner_id : string)
| ValueOutOfRange (value : N)
| InvalidSubscriptionCapacity
| ILockPoisoned.

Inductive RunGrantOutcome := Granted | GrantDuplicate.
Inductive RunRevokeOutcome := Revoked | RevokeDuplicate.

(** [enum AppendOutcome]. *)
Inductive AppendOutcome (V : Type) :=
| Inserted (envelope : EventEnvelope V)
| AppendDuplicate (envelope : EventEnvelope V).
Arguments Inserted {V}. Arguments AppendDuplicate {V}.

(** [AppendOutcome::envelope]. *)
Definition outcome_envelope {V} (o : AppendOutcome V) : EventEnvelope V :=
  match o with Inserted e | AppendDuplicate e => e end.

(** [struct OutputAppend]. *)
Record OutputAppend (V : Type) := MkOutputAppend {
  oa_outcome : AppendOutcome V;
  oa_missing_bytes_before : N;
}.
Arguments MkOutputAppend {V}. Arguments oa_outcome {V}. Arguments oa_missing_bytes_before {V}.

(** [struct EventFingerprint]. *)
Record EventFingerprint (V : Type) := MkFingerprint {
  ef_schema_version : N;
  ef_run_id : string;
  ef_task_id : option string;
  ef_turn_id : option string;
  ef_operation_id : option string;
  ef_parent_operation_id : option string;
  ef_producer_component : string;
  ef_authority : Authority;
  ef_visibility : Visibility;
  ef_event : Event V;
}.
Arguments MkFingerprint {V}.

#[export] Instance EventFingerprint_eq_dec `{EqDecision V} : EqDecision (EventFingerprint V).
Proof. solve_decision. Defined.

(** ** Tables *)

(** A row of [interaction_events]. *)
Record EventRow (V : Type) := MkEventRow {
  ie_event_id : string;
  ie_dedup_key : string;
  ie_fingerprint : EventFingerprint V;
  ie_envelope : EventEnvelope V;
}.
Arguments MkEventRow {V}. Arguments ie_event_id {V}. Arguments ie_dedup_key {V}.
Arguments ie_fingerprint {V}. Arguments ie_envelope {V}.

(** A row of [interaction_output_chunks]. *)
Record ChunkRow := MkChunkRow {
  ic_payload : bytes;
  ic_run_id : string;
  ic_event_sequence : N;
}.

(** A row of [interaction_run_grants]. *)
Record GrantRow := MkGrantRow {
  ig_state : Z;
  ig_granted_at_ms : N;
  ig_revoked_at_ms : option N;
}.

Record InteractionLog (V : Type) := MkLog {
  il_runs : gmap string N;
  il_events : gmap (string * N) (EventRow V);
  il_chunks : gmap (string * Z * N) ChunkRow;
  il_offsets : gmap (string * Z) N;
  il_grants : gmap (string * string) GrantRow;
}.
Arguments MkLog {V}. Arguments il_runs {V}. Arguments il_events {V}. Arguments il_chunks {V}.
Arguments il_offsets {V}. Arguments il_grants {V}.

(** The store after [SCHEMA]. *)
Definition log_empty {V} : InteractionLog V := MkLog ∅ ∅ ∅ ∅ ∅.

(** [to_i64]. *)
Definition interaction_i64 (value : N) : result InteractionError N :=
  if value <=? i64_max then Ok value else Err (ValueOutOfRange value).

Section store.
Context {V : Type} `{EqDecision V}.

Definition ITxn (A : Type) : Type := InteractionLog V -> result InteractionError (A * InteractionLog V).

(** [fingerprint]. *)
Definition fingerprint (frame : ProducerEvent V) : EventFingerprint V :=
  MkFingerprint (pe_schema_version frame) (pe_run_id frame) (pe_task_id frame) (pe_turn_id frame)
    (pe_operation_id frame) (pe_parent_operation_id frame) (pr_component (pe_producer frame))
    (pe_authority frame) (pe_visibility frame) (pe_event frame).

(** [validate_input]. *)
Definition validate_input (dedup_key : string) (frame : ProducerEvent V) : result InteractionError unit :=
  _ ← guard_err (trim_is_empty dedup_key) InvalidFrame;
  _ ← guard_err (negb (pe_schema_version frame =? SCHEMA_VERSION)) InvalidFrame;
  guard_err (trim_is_empty (pe_run_id frame)) InvalidFrame.

(** [SELECT ... WHERE run_id = ?1 AND dedup_key = ?2]. *)
Definition event_by_key (run_id dedup_key : string) (l : InteractionLog V) : option (EventRow V) :=
  snd <$> head (filter (fun kr => kr.1.1 = run_id /\ ie_dedup_key kr.2 = dedup_key)
                  (map_to_list (il_events l))).

(** [event_id TEXT NOT NULL UNIQUE]. *)
Definition event_id_taken (event_id : string) (l : InteractionLog V) : bool :=
  existsb (fun kr => String.eqb (ie_event_id kr.2) event_id) (map_to_list (il_events l)).

(** The envelope of a frame stored under a sequence number. *)
Definition envelope_of (sequence : N) (frame : ProducerEvent V) : EventEnvelope V :=
  MkEnvelope SCHEMA_VERSION (pe_run_id frame +:+ ":" +:+ pad20 sequence) (pe_run_id frame)
    (pe_task_id frame) (pe_turn_id frame) (pe_operation_id frame) (pe_parent_operation_id frame)
    (pe_producer_sequence frame) sequence (pe_emitted_at_unix_ms frame) (pe_producer frame)
    (pe_authority frame) (pe_visibility frame) (pe_event frame).

(** [append_transaction]. *)
Definition append_transaction (dedup_key : string) (print : EventFingerprint V)
    (frame : ProducerEvent V) : ITxn (AppendOutcome V) := fun l =>
  match event_by_key (pe_run_id frame) dedup_key l with
  | Some row =>
      if bool_decide (ie_fingerprint row = print) then Ok (AppendDuplicate (ie_envelope row), l)
      else Err (ConflictingDedupKey dedup_key)
  | None =>
      let sequence := default 1 (il_runs l !! pe_run_id frame) in
      let envelope := envelope_of sequence frame in
      _ ← interaction_i64 sequence;
      _ ← guard_err (bool_decide (is_Some (il_events l !! (pe_run_id frame, sequence)))
                     || event_id_taken (ev_event_id envelope) l) IStorage;
      next ← interaction_i64 (saturating_add u64_max sequence 1);
      Ok (Inserted envelope,
          MkLog (<[pe_run_id frame := next]> (il_runs l))
            (<[(pe_run_id frame, sequence) :=
                MkEventRow (ev_event_id envelope) dedup_key print envelope]> (il_events l))
            (il_chunks l) (il_offsets l) (il_grants l))
  end.

(** [InteractionEventWriter::append]. *)
Definition append (dedup_key : string) (frame : ProducerEvent V) : ITxn (AppendOutcome V) := fun l =>
  _ ← validate_input dedup_key frame;
  append_transaction dedup_key (fingerprint frame) frame l.

(** [output_chunk]: the join with the event. *)
Definition output_chunk (attempt_id : string) (stream : Z) (byte_offset : N) (l : InteractionLog V) :
    result InteractionError (option (ChunkRow * EventFingerprint V)) :=
  offset ← interaction_i64 byte_offset;
  Ok (chunk ← il_chunks l !! (attempt_id, stream, offset);
      row ← il_events l !! (ic_run_id chunk, ic_event_sequence chunk);
      Some (chunk, ie_fingerprint row)).

(** [output_offset]. *)
Definition output_offset (attempt_id : string) (stream : Z) (l : InteractionLog V) : N :=
  default 0 (il_offsets l !! (attempt_id, stream)).

(** [event_at]. *)
Definition event_at (run_id : string) (sequence : N) (l : InteractionLog V) :
    result InteractionError (EventEnvelope V) :=
  ok_or (ie_envelope <$> il_events l !! (run_id, sequence)) IStorage.

(** [InteractionEventWriter::append_output]. *)
Definition append_output (dedup_key attempt_id : string) (stream : Z) (byte_offset : N)
    (payload : bytes) (frame : ProducerEvent V) : ITxn (OutputAppend V) := fun l =>
  _ ← validate_input dedup_key frame;
  _ ← guard_err (trim_is_empty attempt_id) InvalidFrame;
  let print := fingerprint frame in
  stored ← output_chunk attempt_id stream byte_offset l;
  match stored with
  | Some (chunk, stored_print) =>
      _ ← guard_err (bool_decide (ic_payload chunk <> payload) || bool_decide (stored_print <> print))
            (ConflictingOutput attempt_id stream byte_offset);
      envelope ← event_at (ic_run_id chunk) (ic_event_sequence chunk) l;
      Ok (MkOutputAppend (AppendDuplicate envelope) 0, l)
  | None =>
      let expected := output_offset attempt_id stream l in
      _ ← guard_err (byte_offset <? expected) (ConflictingOutput attempt_id stream byte_offset);
      appended ← append_transaction dedup_key print frame l;
      let sequence := ev_sequence (outcome_envelope appended.1) in
      offset ← interaction_i64 byte_offset;
      sequence ← interaction_i64 sequence;
      next ← interaction_i64 (saturating_add u64_max byte_offset (N.of_nat (length payload)));
      let l := appended.2 in
      Ok (MkOutputAppend appended.1 (saturating_sub byte_offset expected),
          MkLog (il_runs l) (il_events l)
            (<[(attempt_id, stream, offset) := MkChunkRow payload (pe_run_id frame) sequence]> (il_chunks l))
            (<[(attempt_id, stream) := next]> (il_offsets l)) (il_grants l))
  end.

(** [ORDER BY sequence]. *)
Definition sequence_before (a b : N * EventRow V) : Prop := a.1 <= b.1.
#[export] Instance sequence_before_dec : RelDecision sequence_before.
Proof. intros a b. unfold sequence_before. apply _. Defined.

(** The rows of a run whose sequence number passes a test, in order. *)
Definition run_rows (run_id : string) (p : N -> bool) (l : InteractionLog V) : list (N * EventRow V) :=
  merge_sort sequence_before
    (omap (fun kr : string * N * EventRow V =>
             if bool_decide (kr.1.1 = run_id) && p kr.1.2 then Some (kr.1.2, kr.2) else None)
       (map_to_list (il_events l))).

(** [InteractionEventReader::events]. *)
Definition events (run_id : string) (l : InteractionLog V) : list (EventEnvelope V) :=
  (ie_envelope ∘ snd) <$> run_rows run_id (fun _ => true) l.

(** [InteractionEventReader::events_after]; a negative limit would mean
    none, so it is refused. *)
Definition events_after (run_id : string) (after_sequence limit : N) (l : InteractionLog V) :
    result InteractionError (list (EventEnvelope V)) :=
  if limit =? 0 then Ok [] else
  after ← interaction_i64 after_sequence;
  limit ← map_err (fun _ => ValueOutOfRange u64_max) (interaction_i64 limit);
  Ok (take (N.to_nat limit) ((ie_envelope ∘ snd) <$> run_rows run_id (fun s => after <? s) l)).

(** [InteractionEventReader::latest_sequence]. *)
Definition latest_sequence (run_id : string) (l : InteractionLog V) : option N :=
  fst <$> last (run_rows run_id (fun _ => true) l).

(** ** Access to a run *)

(** [validate_run_owner]. *)
Definition validate_run_owner (run_id owner_id : string) : result InteractionError unit :=
  guard_err (trim_is_empty run_id || trim_is_empty owner_id) InvalidFrame.

(** [InteractionRunAccessStore::grant_run_access]. *)
Definition grant_run_access (run_id owner_id : string) (now_ms : N) : ITxn RunGrantOutcome := fun l =>
  _ ← validate_run_owner run_id owner_id;
  match il_grants l !! (run_id, owner_id) with
  | Some row =>
      if (ig_state row =? 1)%Z then Ok (GrantDuplicate, l)
      else if (ig_state row =? 2)%Z then Err (RevokedRunGrant run_id owner_id)
      else Err InvalidFrame
  | None =>
      now ← interaction_i64 now_ms;
      Ok (Granted, MkLog (il_runs l) (il_events l) (il_chunks l) (il_offsets l)
        (<[(run_id, owner_id) := MkGrantRow 1 now None]> (il_grants l)))
  end.

(** [InteractionRunAccessStore::revoke_run_access]. *)
Definition revoke_run_access (run_id owner_id : string) (now_ms : N) : ITxn RunRevokeOutcome := fun l =>
  _ ← validate_run_owner run_id owner_id;
  row ← ok_or (il_grants l !! (run_id, owner_id)) (MissingRunGrant run_id owner_id);
  if (ig_state row =? 2)%Z then Ok (RevokeDuplicate, l)
  else if (ig_state row =? 1)%Z then
    now ← interaction_i64 now_ms;
    Ok (Revoked, MkLog (il_runs l) (il_events l) (il_chunks l) (il_offsets l)
      (<[(run_id, owner_id) := MkGrantRow 2 (ig_granted_at_ms row) (Some now)]> (il_grants l)))
  else Err InvalidFrame.

(** [InteractionRunAccessStore::can_read_run]. *)
Definition can_read_run (run_id owner_id : string) (l : InteractionLog V) :
    result InteractionError bool :=
  _ ← validate_run_owner run_id owner_id;
  Ok (bool_decide ((ig_state <$> il_grants l !! (run_id, owner_id)) = Some 1%Z)).

(** ** Sequences of calls *)

Inductive InteractionOp :=
| AppendEvent (dedup_key : string) (frame : ProducerEvent V)
| AppendOutput (dedup_key attempt_id : string) (stream : Z) (byte_offset : N) (payload : bytes)
    (frame : ProducerEvent V)
| GrantRun (run_id owner_id : string) (now_ms : N)
| RevokeRun (run_id owner_id : string) (now_ms : N).

Definition settled {A} (l : InteractionLog V) (r : result InteractionError (A * InteractionLog V)) :
    InteractionLog V :=
  match r with Ok (_, l') => l' | Err _ => l end.

(** The log after a call: a failed transaction leaves it as it was. *)
Definition run_interaction (op : InteractionOp) (l : InteractionLog V) : InteractionLog V :=
  match op with
  | AppendEvent key frame => settled l (append key frame l)
  | AppendOutput key attempt stream offset payload frame =>
      settled l (append_output key attempt stream offset payload frame l)
  | GrantRun run owner now => settled l (grant_run_access run owner now l)
  | RevokeRun run owner now => settled l (revoke_run_access run owner now l)
  end.

Definition run_interactions (ops : list InteractionOp) (l : InteractionLog V) : InteractionLog V :=
  foldl (fun l op => run_interaction op l) l ops.

End store.

(** ** Event identities

    An event's identity is its run, a colon and twenty digits; it
    determines the run and the number. *)

Definition colon : ascii := ":"%char.
Definition colon_free (s : string) : bool := all_bytes (fun a => bool_decide (a <> colon)) s.

Lemma colon_free_app s t : colon_free (s +:+ t) = colon_free s && colon_free t.
Proof. apply all_bytes_app. Qed.

Lemma split_last_colon r r' d d' :
  colon_free d = true -> colon_free d' = true -> r +:+ ":" +:+ d = r' +:+ ":" +:+ d' -> r = r' /\ d = d'.
Proof.
  intros Hd Hd'. revert r'.
  assert (forall s t, colon_free (s +:+ String colon t) = false) as Hno.
  { intros s t. rewrite colon_free_app. apply andb_false_r. }
  induction r as [|a r IH]; intros [|a' r']; intros E.
  - injection E as E. done.
  - injection E as _ E. change (d = r' +:+ String colon d') in E. by rewrite E, Hno in Hd.
  - injection E as _ E. change (r +:+ String colon d = d') in E. by rewrite <-E, Hno in Hd'.
  - injection E as -> E. by destruct (IH _ E) as [-> ->].
Qed.

(** Reading decimal digits. *)
Fixpoint read_decimal (acc : N) (s : string) : N :=
  match s with
  | EmptyString => acc
  | String a s => read_decimal (10 * acc + (code a - 48)) s
  end.

Lemma read_pretty_go x s : read_decimal 0 (pretty_N_go x s) = read_decimal x s.
Proof.
  revert s. induction (N.lt_wf_0 x) as [x _ IH]; intros s.
  destruct (decide (x = 0)) as [->|Hx]; [by rewrite pretty_N_go_0|].
  rewrite pretty_N_go_step by lia. rewrite IH by (apply N.div_lt; lia). cbn. f_equal.
  assert (code (pretty_N_char (x mod 10)) - 48 = x mod 10) as ->.
  { assert (x mod 10 < 10) as H by by apply N.mod_lt. revert H. generalize (x mod 10) as d. intros d Hd.
    assert (d = 0 \/ d = 1 \/ d = 2 \/ d = 3 \/ d = 4 \/ d = 5 \/ d = 6 \/ d = 7 \/ d = 8 \/ d = 9) by lia.
    naive_solver. }
  pose proof (N.div_mod x 10). lia.
Qed.

Lemma read_pretty (n : N) : read_decimal 0 (pretty n) = n.
Proof.
  unfold pretty, pretty_N. case_decide as H; [by subst|]. apply read_pretty_go.
Qed.

Lemma read_zeros k t :
  read_decimal 0 (String.concat EmptyString (replicate k "0") +:+ t) = read_decimal 0 t.
Proof.
  induction k as [|k IH]; [done|]. destruct k as [|k]; [done|]. cbn in IH |- *. exact IH.
Qed.

Lemma pad20_inj : Inj (=) (=) pad20.
Proof.
  intros m n E%(f_equal (read_decimal 0)). unfold pad20 in E. by rewrite !read_zeros, !read_pretty in E.
Qed.

Lemma pad20_colon_free n : colon_free (pad20 n) = true.
Proof.
  assert (forall k t, colon_free (String.concat EmptyString (replicate k "0") +:+ t) = colon_free t) as Hz.
  { intros k t. induction k as [|k IH]; [done|]. destruct k as [|k]; [done|]. cbn in IH |- *. exact IH. }
  unfold pad20. rewrite Hz. unfold pretty, pretty_N. case_decide; [done|].
  assert (forall x s, colon_free (pretty_N_go x s) = colon_free s) as Hgo.
  { intros x. induction (N.lt_wf_0 x) as [x _ IH]; intros s.
    destruct (decide (x = 0)) as [->|Hx]; [by rewrite pretty_N_go_0|].
    rewrite pretty_N_go_step by lia. rewrite IH by (apply N.div_lt; lia).
    unfold colon_free. cbn [all_bytes]. unfold pretty_N_char. by repeat case_match. }
  apply Hgo.
Qed.

Lemma event_id_inj r r' s s' :
  r +:+ ":" +:+ pad20 s = r' +:+ ":" +:+ pad20 s' -> r = r' /\ s = s'.
Proof.
  intros E%split_last_colon; [|apply pad20_colon_free..]. destruct E as [-> E]. split; [done|].
  by apply pad20_inj.
Qed.

(** ** What the log promises

    A run's history is the list of the frames it accepted, with their
    deduplication keys; a frame with a known key is answered from the
    history, a new one is numbered by its position. *)

Abbreviation History V := (gmap string (list (string * ProducerEvent V))).

Section refinement.
Context {V : Type} `{EqDecision V}.
Implicit Types (l : InteractionLog V) (frame : ProducerEvent V).

Definition accepted (run : string) (a : History V) : list (string * ProducerEvent V) :=
  default [] (a !! run).

Definition history_append (dedup_key : string) (frame : ProducerEvent V) (a : History V) :
    result InteractionError (AppendOutcome V * History V) :=
  let fs := accepted (pe_run_id frame) a in
  match list_find (fun kf => kf.1 = dedup_key) fs with
  | Some (i, (_, first)) =>
      if bool_decide (fingerprint first = fingerprint frame)
      then Ok (AppendDuplicate (envelope_of (N.of_nat i + 1) first), a)
      else Err (ConflictingDedupKey dedup_key)
  | None =>
      let sequence := N.of_nat (length fs) + 1 in
      if sequence <? i64_max
      then Ok (Inserted (envelope_of sequence frame),
               <[pe_run_id frame := fs ++ [(dedup_key, frame)]]> a)
      else Err (ValueOutOfRange (sequence + 1))
  end.

(** The row of the [i]-th accepted frame. *)
Definition row_at (i : nat) (kf : string * ProducerEvent V) : EventRow V :=
  let envelope := envelope_of (N.of_nat i + 1) kf.2 in
  MkEventRow (ev_event_id envelope) kf.1 (fingerprint kf.2) envelope.

Record represents (l : InteractionLog V) (a : History V) : Prop := {
  rp_runs r : il_runs l !! r = (fun fs => N.of_nat (length fs) + 1) <$> a !! r;
  rp_events r s row : il_events l !! (r, s) = Some row <->
    exists i kf, accepted r a !! i = Some kf /\ s = N.of_nat i + 1 /\ row = row_at i kf;
  rp_frames r i kf : accepted r a !! i = Some kf ->
    pe_run_id kf.2 = r /\ pe_schema_version kf.2 = SCHEMA_VERSION;
  rp_keys r : NoDup (accepted r a).*1;
  rp_bound r : N.of_nat (length (accepted r a)) < i64_max;
}.

Lemma represents_empty : represents log_empty ∅.
Proof.
  split; unfold accepted; intros *; rewrite ?lookup_empty; cbn.
  - done.
  - split; [done|]. by intros (i & kf & [=] & _).
  - done.
  - constructor.
  - done.
Qed.

Lemma event_by_key_found l a r key : represents l a ->
  event_by_key r key l =
  (fun ik => row_at ik.1 ik.2) <$> list_find (fun kf => kf.1 = key) (accepted r a).
Proof.
  intros Hr. unfold event_by_key.
  set (rows := filter _ _).
  assert (forall r' s row, ((r', s), row) ∈ rows <->
    exists i kf, accepted r' a !! i = Some kf /\ s = N.of_nat i + 1 /\ row = row_at i kf /\ r' = r /\ kf.1 = key)
    as Hin.
  { intros r' s row. unfold rows. rewrite list_elem_of_filter, elem_of_map_to_list, (rp_events _ _ Hr).
    cbn. split.
    - intros [[-> <-] (i & kf & Hi & -> & ->)]. by exists i, kf.
    - intros (i & kf & Hi & -> & -> & -> & <-). split; [done|]. by exists i, kf. }
  destruct (list_find _ _) as [[i kf]|] eqn:Hf; cbn.
  - apply list_find_Some in Hf as (Hi & Hk & _).
    destruct rows as [|[[r' s] row] rows'] eqn:E; cbn.
    + assert ((r, N.of_nat i + 1, row_at i kf) ∈ ([] : list (string * N * EventRow V))) as []%elem_of_nil.
      apply Hin. by exists i, kf.
    + assert ((r', s, row) ∈ (r', s, row) :: rows') as (j & kf' & Hj & -> & -> & -> & Hk')%Hin by left.
      assert (j = i) as ->; [|by rewrite Hi in Hj; injection Hj as ->].
      apply (NoDup_lookup (accepted r a).*1 _ _ key); [apply (rp_keys _ _ Hr)|..];
        by rewrite list_lookup_fmap, ?Hi, ?Hj; cbn; congruence.
  - apply list_find_None in Hf. destruct rows as [|[[r' s] row] rows'] eqn:E; [done|].
    assert ((r', s, row) ∈ (r', s, row) :: rows') as (j & kf & Hj & _ & _ & -> & Hk)%Hin by left.
    rewrite Forall_lookup in Hf. by specialize (Hf _ _ Hj).
Qed.

Lemma event_id_fresh l a r frame : represents l a -> pe_run_id frame = r ->
  event_id_taken (ev_event_id (envelope_of (N.of_nat (length (accepted r a)) + 1) frame)) l = false.
Proof.
  intros Hr <-. unfold event_id_taken. apply not_true_is_false. intros ([[r s] row] & Hin & E)%existsb_exists.
  apply list_elem_of_In, elem_of_map_to_list, (rp_events _ _ Hr) in Hin as (i & kf & Hi & -> & ->).
  apply String.eqb_eq in E. cbn in E. apply event_id_inj in E as [E1 E2].
  destruct (rp_frames _ _ Hr _ _ _ Hi) as [<- _]. rewrite E1 in Hi. apply lookup_lt_Some in Hi. lia.
Qed.

Lemma accepted_insert r r' fs (a : History V) :
  accepted r (<[r' := fs]> a) = if decide (r = r') then fs else accepted r a.
Proof.
  unfold accepted. case_decide as H; [subst; by rewrite lookup_insert_eq|]. by rewrite lookup_insert_ne.
Qed.

(** The history after one more frame. *)
Lemma represents_snoc l a key frame : represents l a ->
  pe_schema_version frame = SCHEMA_VERSION ->
  list_find (fun kf => kf.1 = key) (accepted (pe_run_id frame) a) = None ->
  let r := pe_run_id frame in
  let fs := accepted r a in
  let sequence := N.of_nat (length fs) + 1 in
  sequence < i64_max ->
  represents
    (MkLog (<[r := sequence + 1]> (il_runs l)) (<[(r, sequence) := row_at (length fs) (key, frame)]> (il_events l))
       (il_chunks l) (il_offsets l) (il_grants l))
    (<[r := fs ++ [(key, frame)]]> a).
Proof.
  intros Hr Hschema Hnew r fs sequence Hbound. split; cbn [il_runs il_events].
  - intros r'. destruct (decide (r' = r)) as [->|Hne].
    + rewrite !lookup_insert_eq. cbn. rewrite length_app. cbn. f_equal. unfold sequence. lia.
    + rewrite !lookup_insert_ne by done. apply (rp_runs _ _ Hr).
  - intros r' s row. rewrite accepted_insert.
    destruct (decide ((r', s) = (r, sequence))) as [[= -> ->]|Hne].
    + rewrite lookup_insert_eq, decide_True by done. split.
      * intros [= <-]. exists (length fs), (key, frame). split; [|done].
        by rewrite lookup_app_r, Nat.sub_diag by done.
      * intros (i & kf & Hi & Hs & ->). assert (i = length fs) as -> by (unfold sequence in Hs; lia).
        rewrite lookup_app_r, Nat.sub_diag in Hi by done. by injection Hi as <-.
    + rewrite lookup_insert_ne by done. rewrite (rp_events _ _ Hr).
      case_decide as Hd; [subst r'|done]. fold fs. split.
      * intros (i & kf & Hi & -> & ->). exists i, kf. by rewrite (lookup_app_l_Some _ _ _ _ Hi).
      * intros (i & kf & [Hi|[Hi Hkf]]%lookup_app_Some & -> & ->); [by exists i, kf|].
        apply list_lookup_singleton_Some in Hkf as [Hi' <-].
        exfalso. apply Hne. unfold sequence. f_equal. lia.
  - intros r' i kf. rewrite accepted_insert. case_decide as Hd; [subst r'|apply (rp_frames _ _ Hr)].
    intros [Hi|[Hi [Hi' <-]%list_lookup_singleton_Some]]%lookup_app_Some; [by apply (rp_frames _ _ Hr) in Hi|done].
  - intros r'. rewrite accepted_insert. case_decide as Hd; [subst r'|apply (rp_keys _ _ Hr)].
    rewrite fmap_app. cbn. apply NoDup_app. split; [apply (rp_keys _ _ Hr)|]. split; [|apply NoDup_singleton].
    intros k (kf & Hk & Hkf)%list_elem_of_fmap Hk'%list_elem_of_singleton.
    apply list_find_None in Hnew. rewrite Forall_forall in Hnew. apply (Hnew _ Hkf). congruence.
  - intros r'. rewrite accepted_insert. case_decide; [|apply (rp_bound _ _ Hr)].
    rewrite length_app. cbn. unfold sequence in Hbound. lia.
Qed.

(** Agreement of a stored result with a promised one. *)
Definition agree {A} (x : result InteractionError (A * InteractionLog V))
    (y : result InteractionError (A * History V)) : Prop :=
  match x, y with
  | Ok (o, l'), Ok (o', a') => o = o' /\ represents l' a'
  | Err e, Err e' => e = e'
  | _, _ => False
  end.

Lemma i64_below n : (n <=? i64_max) = true -> interaction_i64 n = Ok n.
Proof. unfold interaction_i64. by intros ->. Qed.

Lemma append_transaction_agrees l a key frame :
  represents l a -> pe_schema_version frame = SCHEMA_VERSION ->
  agree (append_transaction key (fingerprint frame) frame l) (history_append key frame a).
Proof.
  intros Hr Hs. unfold append_transaction, history_append.
  rewrite (event_by_key_found _ _ _ _ Hr). destruct (list_find _ _) as [[i [k first]]|] eqn:Hf; cbn [fmap option_fmap option_map].
  - cbn. by case_bool_decide.
  - rewrite (rp_runs _ _ Hr). set (fs := accepted _ a).
    assert (default 1 ((fun fs => N.of_nat (length fs) + 1) <$> (a !! pe_run_id frame)) = N.of_nat (length fs) + 1) as ->.
    { unfold fs, accepted. by destruct (a !! pe_run_id frame). }
    pose proof (rp_bound _ _ Hr (pe_run_id frame)) as Hb. fold fs in Hb.
    rewrite (i64_below (N.of_nat (length fs) + 1)) by (apply N.leb_le; lia). cbn [mbind result_bind].
    assert (il_events l !! (pe_run_id frame, N.of_nat (length fs) + 1) = None) as ->.
    { apply eq_None_not_Some. intros [row (i & kf & Hi & E & _)%(rp_events _ _ Hr)].
      apply lookup_lt_Some in Hi. fold fs in Hi. lia. }
    pose proof (event_id_fresh _ _ _ frame Hr eq_refl) as Hid. fold fs in Hid. rewrite Hid. cbn [guard_err bool_decide is_Some_dec decide_rel orb mbind result_bind].
    unfold bool_decide. cbn [decide is_Some_dec orb guard_err mbind result_bind].
    assert (saturating_add u64_max (N.of_nat (length fs) + 1) 1 = N.of_nat (length fs) + 1 + 1) as ->.
    { unfold saturating_add. assert (i64_max < u64_max) by done. lia. }
    destruct (N.ltb_spec (N.of_nat (length fs) + 1) i64_max) as [Hlt|Hge].
    + rewrite (i64_below (N.of_nat (length fs) + 1 + 1)) by (apply N.leb_le; lia). cbn. split; [done|].
      by apply (represents_snoc l a key frame).
    + unfold interaction_i64. destruct (N.leb_spec (N.of_nat (length fs) + 1 + 1) i64_max); [lia|]. done.
Qed.


(** ** What readers see *)

(** The accepted frames with their numbers. *)
Definition numbered (fs : list (string * ProducerEvent V)) : list (N * EventRow V) :=
  imap (fun i kf => (N.of_nat i + 1, row_at i kf)) fs.

Definition envelopes (fs : list (string * ProducerEvent V)) : list (EventEnvelope V) :=
  imap (fun i kf => envelope_of (N.of_nat i + 1) kf.2) fs.

Lemma numbered_lookup fs i sr :
  numbered fs !! i = Some sr <-> exists kf, fs !! i = Some kf /\ sr = (N.of_nat i + 1, row_at i kf).
Proof. unfold numbered. rewrite list_lookup_imap, fmap_Some. done. Qed.

#[export] Instance sequence_before_trans : Transitive (sequence_before (V:=V)).
Proof. intros x y z. unfold sequence_before. lia. Qed.
#[export] Instance sequence_before_total : Total (sequence_before (V:=V)).
Proof. intros x y. unfold sequence_before. lia. Qed.

Lemma numbered_sorted fs : StronglySorted sequence_before (numbered fs).
Proof.
  apply Sorted_StronglySorted; [apply _|].
  unfold numbered. induction fs as [|kf fs IH] using rev_ind; [constructor|].
  rewrite imap_app. cbn. apply StronglySorted_Sorted.
  apply Sorted_StronglySorted in IH; [|apply _].
  apply StronglySorted_app. split; [|split; [done|repeat constructor]].
  intros x y (i & z & -> & Hi)%elem_of_lookup_imap ->%list_elem_of_singleton.
  apply lookup_lt_Some in Hi. unfold sequence_before. cbn. lia.
Qed.

Lemma run_rows_accepted l a r p : represents l a ->
  run_rows r p l = filter (fun sr => Is_true (p sr.1)) (numbered (accepted r a)).
Proof.
  intros Hr. unfold run_rows. set (rows := omap _ _).
  assert (forall sr, sr ∈ rows <-> il_events l !! (r, sr.1) = Some sr.2 /\ p sr.1 = true) as Hrows.
  { intros [s row]. unfold rows. rewrite list_elem_of_omap. split.
    - intros ([[r' s'] row'] & Hin%elem_of_map_to_list & E). cbn in E.
      destruct (bool_decide (r' = r) && p s') eqn:Ep; [|done].
      apply andb_true_iff in Ep as [->%bool_decide_eq_true Ep]. by injection E as -> ->.
    - intros [Hs Hp]. cbn in Hs, Hp. exists ((r, s), row). rewrite elem_of_map_to_list. split; [done|].
      cbn. by rewrite bool_decide_eq_true_2, Hp. }
  assert (NoDup rows) as Hnd.
  { apply NoDup_omap; [apply NoDup_map_to_list|].
    intros [[r1 s1] row1] [[r2 s2] row2] x. cbn.
    case_bool_decide; [|done]. case_bool_decide; [|done]. subst. destruct (p s1), (p s2); cbn; congruence. }
  assert (StronglySorted sequence_before (filter (fun sr => Is_true (p sr.1)) (numbered (accepted r a)))) as Hsorted
    by apply StronglySorted_filter, numbered_sorted.
  apply (Sorted_unique_strong sequence_before).
  - intros [s1 row1] [s2 row2] H1 H2 H3 H4.
    rewrite merge_sort_Permutation in H1. apply Hrows in H1 as [H1 _].
    rewrite list_elem_of_filter in H2. destruct H2 as [_ (i & Hi)%list_elem_of_lookup].
    apply numbered_lookup in Hi as (kf & Hi & [= -> ->]).
    unfold sequence_before in H3, H4. cbn in *. assert (s1 = N.of_nat i + 1) as -> by lia. f_equal.
    apply (rp_events _ _ Hr) in H1 as (j & kf' & Hj & E & ->). assert (j = i) as -> by lia.
    by rewrite Hi in Hj; injection Hj as <-.
  - apply (Sorted_merge_sort sequence_before).
  - by apply StronglySorted_Sorted.
  - rewrite merge_sort_Permutation. apply NoDup_Permutation; [done| |].
    + apply NoDup_filter, NoDup_alt. intros i j x Hi Hj.
      apply numbered_lookup in Hi as (? & _ & ->), Hj as (? & _ & [= ? _]). lia.
    + intros [s row]. rewrite Hrows, list_elem_of_filter. cbn. rewrite (rp_events _ _ Hr). split.
      * intros [(i & kf & Hi & -> & ->) Hp]. split; [by rewrite Hp|].
        apply list_elem_of_lookup. exists i. apply numbered_lookup. by exists kf.
      * intros [Hp (i & Hi)%list_elem_of_lookup]. apply numbered_lookup in Hi as (kf & Hi & [= -> ->]).
        split; [by exists i, kf|]. by apply Is_true_true.
Qed.

Lemma events_accepted l a r : represents l a -> events r l = envelopes (accepted r a).
Proof.
  intros Hr. unfold events. rewrite (run_rows_accepted _ _ _ _ Hr). unfold envelopes, numbered.
  induction (accepted r a) as [|kf fs IH] using rev_ind; [done|].
  rewrite !imap_app, filter_app, fmap_app, IH. done.
Qed.

Lemma later_accepted l a r after : represents l a ->
  (ie_envelope ∘ snd) <$> run_rows r (fun s => after <? s) l
  = drop (N.to_nat after) (envelopes (accepted r a)).
Proof.
  intros Hr. rewrite (run_rows_accepted _ _ _ _ Hr). unfold envelopes, numbered.
  induction (accepted r a) as [|kf fs IH] using rev_ind; [by cbn; rewrite drop_nil|].
  rewrite !imap_app, filter_app, fmap_app, IH, drop_app, length_imap. f_equal. cbn [imap].
  rewrite filter_cons, filter_nil. cbn -[N.ltb]. destruct (N.ltb_spec after (N.of_nat (length fs + 0) + 1)) as [Hlt|Hge].
  - rewrite decide_True by done. replace (N.to_nat after - length fs)%nat with 0%nat by lia. done.
  - rewrite decide_False by (intros []).
    replace (N.to_nat after - length fs)%nat with (S (N.to_nat after - S (length fs))) by lia.
    cbn. by rewrite drop_nil.
Qed.

Lemma latest_accepted l a r : represents l a ->
  latest_sequence r l =
  match accepted r a with [] => None | fs => Some (N.of_nat (length fs)) end.
Proof.
  intros Hr. unfold latest_sequence. rewrite (run_rows_accepted _ _ _ _ Hr). unfold numbered.
  destruct (accepted r a) as [|kf fs _] using rev_ind; [done|].
  rewrite imap_app, filter_app.
  change (filter _ (imap _ [kf])) with [(N.of_nat (length fs + 0) + 1, row_at (length fs + 0) kf)].
  rewrite last_snoc. destruct (fs ++ [kf]) as [|p ps] eqn:E; [by destruct fs|].
  apply (f_equal length) in E. rewrite length_app in E. cbn in E |- *. f_equal. lia.
Qed.

(** The stored envelopes are those the sequencer assigns. *)
Lemma envelopes_sequenced l a r : represents l a ->
  envelopes (accepted r a) = ingest_all (sequencer_new r) (accepted r a).*2.
Proof.
  intros Hr. pose proof (rp_bound _ _ Hr r) as Hb.
  assert (Forall (fun kf => pe_run_id kf.2 = r /\ pe_schema_version kf.2 = SCHEMA_VERSION) (accepted r a)) as Hfs.
  { apply Forall_lookup. apply (rp_frames _ _ Hr). }
  unfold envelopes, sequencer_new. change 1 with (N.of_nat 0 + 1) at 2.
  assert (forall k fs, N.of_nat (k + length fs) < i64_max ->
    Forall (fun kf => pe_run_id kf.2 = r /\ pe_schema_version kf.2 = SCHEMA_VERSION) fs ->
    imap (fun i (kf : string * ProducerEvent V) => envelope_of (N.of_nat (k + i) + 1) kf.2) fs
    = ingest_all (MkSequencer r (N.of_nat k + 1)) fs.*2) as Hgo; [|by apply (Hgo 0%nat)].
  clear. intros k fs. revert k. induction fs as [|[key f] fs IH]; intros k Hk Hfs; [done|].
  apply Forall_cons in Hfs as [[E1 E2] Hfs]. cbn [length] in Hk. cbn [fmap list_fmap snd] in *.
  cbn [ingest_all]. unfold sequencer_ingest. cbn [sq_run_id sq_next_sequence].
  rewrite E1, E2, N.eqb_refl, String.eqb_refl. cbn [negb].
  assert (saturating_add u64_max (N.of_nat k + 1) 1 = N.of_nat (S k) + 1) as ->.
  { unfold saturating_add. assert (i64_max < u64_max) by done. lia. }
  rewrite <-IH by (done || lia). cbn [imap snd]. rewrite Nat.add_0_r.
  unfold envelope_of at 1. rewrite E1. f_equal.
  apply imap_ext. intros i x _. unfold compose. by replace (k + S i)%nat with (S (k + i)) by lia.
Qed.

(** ** Every call refines its promise *)

Lemma represents_tables l l' a : represents l a ->
  il_runs l' = il_runs l -> il_events l' = il_events l -> represents l' a.
Proof. intros [R1 R2 R3 R4 R5] E1 E2. split; try done; intros; by rewrite ?E1, ?E2. Qed.

Lemma validate_input_Ok key frame u : validate_input key frame = Ok u ->
  pe_schema_version frame = SCHEMA_VERSION /\ trim_is_empty (pe_run_id frame) = false.
Proof.
  unfold validate_input. rewrite !guard_bind_Ok, guard_err_Ok, negb_false_iff, N.eqb_eq. tauto.
Qed.

Lemma history_append_extends key frame a o a' : history_append key frame a = Ok (o, a') ->
  forall r, accepted r a `prefix_of` accepted r a'.
Proof.
  unfold history_append. destruct (list_find _ _) as [[i [k first]]|].
  - case_bool_decide; [|done]. by intros [= _ <-].
  - destruct (_ <? _); [|done]. intros [= _ <-] r. rewrite accepted_insert.
    case_decide as E; [subst r|done]. by apply prefix_app_r.
Qed.

(** The history after a call. *)
Definition extends (l' : InteractionLog V) (a : History V) : Prop :=
  exists a', represents l' a' /\ forall r, accepted r a `prefix_of` accepted r a'.

Lemma append_transaction_extends l a key frame o l' : represents l a ->
  pe_schema_version frame = SCHEMA_VERSION ->
  append_transaction key (fingerprint frame) frame l = Ok (o, l') -> extends l' a.
Proof.
  intros Hr Hs E. pose proof (append_transaction_agrees l a key frame Hr Hs) as Ha. rewrite E in Ha.
  destruct (history_append key frame a) as [[o' a']|] eqn:Eh; [|done]. destruct Ha as [_ Ha].
  exists a'. split; [done|]. by eapply history_append_extends.
Qed.

Lemma run_interaction_extends op l a : represents l a -> extends (run_interaction op l) a.
Proof.
  intros Hr. assert (extends l a) as Hsame by by exists a.
  destruct op as [key frame|key att st off payload frame|r o now|r o now]; cbn [run_interaction].
  - destruct (append key frame l) as [[o l']|] eqn:E; [|done]. cbn. unfold append in E.
    apply result_bind_Ok in E as ([] & [Hs _]%validate_input_Ok & E).
    by eapply append_transaction_extends.
  - destruct (append_output _ _ _ _ _ _ _) as [[o l']|] eqn:E; [|done]. cbn. unfold append_output in E.
    apply result_bind_Ok in E as ([] & [Hs _]%validate_input_Ok & E).
    apply guard_bind_Ok in E as [_ E]. apply result_bind_Ok in E as (stored & _ & E).
    destruct stored as [[chunk print]|].
    + apply guard_bind_Ok in E as [_ E]. apply result_bind_Ok in E as (e & _ & E).
      apply Ok_inj, pair_equal_spec in E as [_ <-]. done.
    + apply guard_bind_Ok in E as [_ E]. apply result_bind_Ok in E as ([o1 l1] & E1 & E).
      apply result_bind_Ok in E as (x & _ & E). apply result_bind_Ok in E as (y & _ & E).
      apply result_bind_Ok in E as (z & _ & E). apply Ok_inj, pair_equal_spec in E as [_ <-].
      destruct (append_transaction_extends _ _ _ _ _ _ Hr Hs E1) as (a' & Ha & Hp).
      exists a'. split; [by eapply represents_tables|done].
  - unfold grant_run_access. destruct (validate_run_owner r o); [|done]. cbn.
    destruct (_ !! _) as [row|]; cbn.
    + destruct (_ =? _)%Z; [done|]. by destruct (_ =? _)%Z.
    + destruct (interaction_i64 now); [|done]. cbn. exists a. split; [by eapply represents_tables|done].
  - unfold revoke_run_access. destruct (validate_run_owner r o); [|done]. cbn.
    destruct (_ !! _) as [row|]; [|done]. cbn. destruct (_ =? _)%Z; [done|]. destruct (_ =? _)%Z; [|done].
    destruct (interaction_i64 now); [|done]. cbn. exists a. split; [by eapply represents_tables|done].
Qed.

Lemma run_interactions_extend ops l a : represents l a -> extends (run_interactions ops l) a.
Proof.
  revert l a. induction ops as [|op ops IH]; intros l a Hr; [by exists a|].
  destruct (run_interaction_extends op l a Hr) as (a1 & Hr1 & Hp1).
  destruct (IH _ _ Hr1) as (a2 & Hr2 & Hp2). exists a2. split; [done|].
  intros r. by transitivity (accepted r a1).
Qed.

Lemma interactions_reachable ops : exists a, represents (run_interactions ops log_empty) a.
Proof.
  destruct (run_interactions_extend ops log_empty ∅ represents_empty) as (a & Ha & _). by exists a.
Qed.

(** ** Output previews in the history

    Of a stream of output the history keeps the chunks in the order of
    their acceptance, each with the event that shows it. *)

Record OutputEntry := MkOutputEntry {
  ot_offset : N;
  ot_payload : bytes;
  ot_run : string;
  ot_sequence : N;
}.

Abbreviation Outputs := (gmap (string * Z) (list OutputEntry)).

(** Events and output of all runs. *)
Definition LogHistory : Type := History V * Outputs.

Definition shown (attempt_id : string) (stream : Z) (h : LogHistory) : list OutputEntry :=
  default [] (h.2 !! (attempt_id, stream)).

Definition entry_end (e : OutputEntry) : N := ot_offset e + N.of_nat (length (ot_payload e)).

(** The end of what a stream has received. *)
Definition received (es : list OutputEntry) : N := match last es with Some e => entry_end e | None => 0 end.

(** The event an entry refers to. *)
Definition entry_frame (e : OutputEntry) (h : LogHistory) : option (ProducerEvent V) :=
  snd <$> accepted (ot_run e) h.1 !! N.to_nat (ot_sequence e - 1).

(** The promised answer to a call of [append]. *)
Definition spec_append (dedup_key : string) (frame : ProducerEvent V) (h : LogHistory) :
    result InteractionError (AppendOutcome V * LogHistory) :=
  _ ← validate_input dedup_key frame;
  r ← history_append dedup_key frame h.1;
  Ok (r.1, (r.2, h.2)).

(** The promised answer to a call of [append_output]: a chunk that is known
    by its offset is repeated or in conflict; another one starts at or
    after the end of what was received, and reports what it skipped. *)
Definition spec_append_output (dedup_key attempt_id : string) (stream : Z) (byte_offset : N) (payload : bytes)
    (frame : ProducerEvent V) (h : LogHistory) : result InteractionError (OutputAppend V * LogHistory) :=
  _ ← validate_input dedup_key frame;
  _ ← guard_err (trim_is_empty attempt_id) InvalidFrame;
  _ ← guard_err (i64_max <? byte_offset) (ValueOutOfRange byte_offset);
  let es := shown attempt_id stream h in
  match list_find (fun e => ot_offset e = byte_offset) es with
  | Some (_, e) =>
      match entry_frame e h with
      | Some first =>
          if bool_decide (ot_payload e = payload) && bool_decide (fingerprint first = fingerprint frame)
          then Ok (MkOutputAppend (AppendDuplicate (envelope_of (ot_sequence e) first)) 0, h)
          else Err (ConflictingOutput attempt_id stream byte_offset)
      | None => Err IStorage
      end
  | None =>
      if byte_offset <? received es then Err (ConflictingOutput attempt_id stream byte_offset) else
      r ← history_append dedup_key frame h.1;
      let next := byte_offset + N.of_nat (length payload) in
      _ ← guard_err (i64_max <? next) (ValueOutOfRange (N.min u64_max next));
      Ok (MkOutputAppend r.1 (byte_offset - received es),
          (r.2, <[(attempt_id, stream) :=
             es ++ [MkOutputEntry byte_offset payload (pe_run_id frame) (ev_sequence (outcome_envelope r.1))]]> h.2))
  end.

(** The tables hold the history. *)
Record simulates (l : InteractionLog V) (h : LogHistory) : Prop := {
  sm_frames : represents l h.1;
  sm_chunks att st off c : il_chunks l !! (att, st, off) = Some c <->
    exists e, e ∈ shown att st h /\ ot_offset e = off /\ c = MkChunkRow (ot_payload e) (ot_run e) (ot_sequence e);
  sm_offsets att st : output_offset att st l = received (shown att st h);
  sm_entries att st e : e ∈ shown att st h ->
    1 <= ot_sequence e /\ is_Some (entry_frame e h) /\ entry_end e <= received (shown att st h);
  sm_distinct att st : NoDup (ot_offset <$> shown att st h);
}.

(** An answer of the store and the promised one. *)
Definition answers {A} (x : result InteractionError (A * InteractionLog V)) (y : result InteractionError (A * LogHistory)) : Prop :=
  match x, y with
  | Ok (o, l'), Ok (o', h') => o = o' /\ simulates l' h'
  | Err e, Err e' => e = e'
  | _, _ => False
  end.

(** What a history is extended by. *)
Definition history_prefix (h h' : LogHistory) : Prop :=
  (forall r, accepted r h.1 `prefix_of` accepted r h'.1) /\ (forall att st, shown att st h `prefix_of` shown att st h').

#[export] Instance history_prefix_preorder : PreOrder history_prefix.
Proof.
  split; [by split|]. intros h1 h2 h3 [F1 O1] [F2 O2]. split; [intros r|intros att st].
  - by transitivity (accepted r h2.1).
  - by transitivity (shown att st h2).
Qed.

Lemma simulates_empty : simulates log_empty (∅, ∅).
Proof.
  split; unfold shown; cbn [fst snd].
  - apply represents_empty.
  - intros att st off c. cbn [il_chunks log_empty]. rewrite !lookup_empty. cbn. split; [done|].
    by intros (e & He%elem_of_nil & _).
  - intros att st. unfold output_offset. cbn [il_offsets log_empty]. by rewrite !lookup_empty.
  - intros att st e. rewrite lookup_empty. cbn. by intros ?%elem_of_nil.
  - intros att st. rewrite lookup_empty. cbn. constructor.
Qed.

Lemma shown_insert att st att' st' es (h : LogHistory) a :
  shown att' st' (a, <[(att, st) := es]> h.2) = if decide ((att', st') = (att, st)) then es else shown att' st' h.
Proof.
  unfold shown. cbn [snd]. case_decide as E; [injection E as -> ->; by rewrite lookup_insert_eq|].
  by rewrite lookup_insert_ne by congruence.
Qed.

Lemma received_snoc es e : received (es ++ [e]) = entry_end e.
Proof. unfold received. by rewrite last_snoc. Qed.

(** An event that was accepted is found under its number. *)
Lemma history_append_found key frame a o a' : history_append key frame a = Ok (o, a') ->
  let n := ev_sequence (outcome_envelope o) in
  1 <= n /\ (exists kf, accepted (pe_run_id frame) a' !! N.to_nat (n - 1) = Some kf /\ fingerprint kf.2 = fingerprint frame)
  /\ (forall r, accepted r a `prefix_of` accepted r a').
Proof.
  intros E. pose proof (history_append_extends _ _ _ _ _ E) as Hp. unfold history_append in E.
  destruct (list_find _ _) as [[i [key' first]]|] eqn:Hf.
  - apply list_find_Some in Hf as (Hi & _ & _). case_bool_decide as Hfp; [|done]. apply Ok_inj, pair_equal_spec in E as [<- <-]. cbn.
    split; [lia|]. split; [|done]. exists (key', first). replace (N.to_nat _) with i by lia. by split.
  - destruct (_ <? _); [|done]. apply Ok_inj, pair_equal_spec in E as [<- <-]. cbn. split; [lia|]. split; [|done].
    exists (key, frame). split; [|done]. rewrite accepted_insert, decide_True by done.
    rewrite lookup_app_r by lia. by replace (N.to_nat _ - _)%nat with 0%nat by lia.
Qed.

Lemma entry_frame_prefix e h h' : (forall r, accepted r h.1 `prefix_of` accepted r h'.1) ->
  is_Some (entry_frame e h) -> is_Some (entry_frame e h').
Proof.
  intros Hp. unfold entry_frame. rewrite !fmap_is_Some. intros [kf Hkf]. exists kf. by eapply prefix_lookup_Some.
Qed.

(** Only the events change. *)
Lemma simulates_events l l' h a' : simulates l h -> represents l' a' ->
  (forall r, accepted r h.1 `prefix_of` accepted r a') ->
  il_chunks l' = il_chunks l -> il_offsets l' = il_offsets l -> simulates l' (a', h.2).
Proof.
  intros [S1 S2 S3 S4 S5] Ha Hp Ec Eo. split; [done| | | |done].
  - intros att st off c. rewrite Ec. apply S2.
  - intros att st. unfold output_offset. rewrite Eo. apply S3.
  - intros att st e He. destruct (S4 att st e He) as (H1 & H2 & H3). split; [done|]. split; [|done].
    by apply (entry_frame_prefix e h).
Qed.

Lemma append_transaction_tables key print frame l o l' : append_transaction key print frame l = Ok (o, l') ->
  il_chunks l' = il_chunks l /\ il_offsets l' = il_offsets l.
Proof.
  unfold append_transaction. destruct (event_by_key _ _ _) as [row|]; [case_bool_decide; [|done]; by intros [= _ <-]|].
  intros E. apply result_bind_Ok in E as (x & _ & E). apply guard_bind_Ok in E as [_ E].
  apply result_bind_Ok in E as (next & _ & E). by apply Ok_inj, pair_equal_spec in E as [_ <-].
Qed.

Lemma transaction_answers l h key frame : simulates l h -> pe_schema_version frame = SCHEMA_VERSION ->
  match append_transaction key (fingerprint frame) frame l, history_append key frame h.1 with
  | Ok (o, l'), Ok (o', a') => o = o' /\ simulates l' (a', h.2)
  | Err e, Err e' => e = e'
  | _, _ => False
  end.
Proof.
  intros Hs Hv. pose proof (append_transaction_agrees l h.1 key frame (sm_frames _ _ Hs) Hv) as Ha. unfold agree in Ha.
  destruct (append_transaction _ _ _ _) as [[o l']|e] eqn:E; destruct (history_append _ _ _) as [[o' a']|e'] eqn:E'; try done.
  destruct Ha as [-> Ha]. split; [done|]. apply append_transaction_tables in E as [Ec Eo].
  apply (simulates_events l); [done..| |done|done]. by apply (history_append_found _ _ _ _ _ E').
Qed.

Lemma append_answers l h key frame : simulates l h -> answers (append key frame l) (spec_append key frame h).
Proof.
  intros Hs. unfold append, spec_append. destruct (validate_input key frame) as [[]|e] eqn:Hv; cbn; [|done].
  apply validate_input_Ok in Hv as [Hv _]. pose proof (transaction_answers l h key frame Hs Hv) as Ht.
  destruct (append_transaction _ _ _ _) as [[o l']|e], (history_append _ _ _) as [[o' a']|e']; done.
Qed.

(** The chunk of a known offset. *)
Lemma chunk_known l h att st off i e : simulates l h ->
  list_find (fun e => ot_offset e = off) (shown att st h) = Some (i, e) ->
  exists kf, il_chunks l !! (att, st, off) = Some (MkChunkRow (ot_payload e) (ot_run e) (ot_sequence e))
    /\ entry_frame e h = Some kf.2
    /\ il_events l !! (ot_run e, ot_sequence e) = Some (row_at (N.to_nat (ot_sequence e - 1)) kf)
    /\ N.of_nat (N.to_nat (ot_sequence e - 1)) + 1 = ot_sequence e.
Proof.
  intros Hs (Hi & Hoff & _)%list_find_Some. apply list_elem_of_lookup_2 in Hi.
  destruct (sm_entries _ _ Hs _ _ _ Hi) as (H1 & [f Hf] & _). unfold entry_frame in Hf |- *.
  apply fmap_Some in Hf as (kf & Hkf & ->). exists kf. rewrite Hkf. split; [apply (sm_chunks _ _ Hs); by exists e|].
  split; [done|]. split; [|lia]. apply (rp_events _ _ (sm_frames _ _ Hs)). exists (N.to_nat (ot_sequence e - 1)), kf.
  split_and!; [done|lia|done].
Qed.

Lemma chunk_unknown l h att st off : simulates l h ->
  list_find (fun e => ot_offset e = off) (shown att st h) = None -> il_chunks l !! (att, st, off) = None.
Proof.
  intros Hs Hn%list_find_None. destruct (il_chunks l !! _) as [c|] eqn:E; [|done].
  apply (sm_chunks _ _ Hs) in E as (e & He & Hoff & _). rewrite Forall_forall in Hn. by destruct (Hn e He).
Qed.

(** A new chunk, behind what was received. *)
Lemma simulates_chunk l h a att st off payload run sequence :
  simulates l (a, h.2) -> il_chunks l !! (att, st, off) = None -> received (shown att st h) <= off -> 1 <= sequence ->
  is_Some (accepted run a !! N.to_nat (sequence - 1)) ->
  simulates
    (MkLog (il_runs l) (il_events l) (<[(att, st, off) := MkChunkRow payload run sequence]> (il_chunks l))
       (<[(att, st) := off + N.of_nat (length payload)]> (il_offsets l)) (il_grants l))
    (a, <[(att, st) := shown att st h ++ [MkOutputEntry off payload run sequence]]> h.2).
Proof.
  intros [S1 S2 S3 S4 S5] Hfree Hlo H1 Hrun. cbn [fst] in S1.
  assert (forall att' st', shown att' st' (a, h.2) = shown att' st' h) as Hsame by done. split.
  - by eapply represents_tables.
  - intros att' st' off' c. rewrite shown_insert. cbn [il_chunks].
    destruct (decide ((att', st', off') = (att, st, off))) as [[= -> -> ->]|Hne].
    + rewrite lookup_insert_eq, decide_True by done. split.
      * intros [= <-]. eexists. split; [apply elem_of_app; right; by apply list_elem_of_singleton|done].
      * intros (e & [He|He%list_elem_of_singleton]%elem_of_app & Ho & ->); [|by subst e].
        assert (il_chunks l !! (att, st, off) = Some (MkChunkRow (ot_payload e) (ot_run e) (ot_sequence e))); [|congruence].
        apply S2. by exists e.
    + rewrite lookup_insert_ne by done. rewrite S2, Hsame. case_decide as Hd; [|done]. injection Hd as -> ->. split.
      * intros (e & He & Hr). exists e. split; [apply elem_of_app; by left|done].
      * intros (e & [He|He%list_elem_of_singleton]%elem_of_app & Ho & ->); [by exists e|]. subst e. cbn in Ho. by subst off'.
  - intros att' st'. rewrite shown_insert. unfold output_offset. cbn [il_offsets]. case_decide as Hd.
    + injection Hd as -> ->. rewrite lookup_insert_eq, received_snoc. done.
    + rewrite lookup_insert_ne by congruence. apply S3.
  - intros att' st' e. rewrite shown_insert. case_decide as Hd; [|apply S4]. injection Hd as -> ->.
    rewrite received_snoc. unfold entry_end at 2. cbn [ot_offset ot_payload].
    intros [He|He%list_elem_of_singleton]%elem_of_app; [|subst e].
    + destruct (S4 att st e He) as (B1 & B2 & B3). rewrite Hsame in B3. split; [done|]. split; [done|]. lia.
    + split; [done|]. split; [|unfold entry_end; cbn; lia]. unfold entry_frame. cbn [ot_run ot_sequence fst]. by apply fmap_is_Some.
  - intros att' st'. rewrite shown_insert. case_decide as Hd; [|apply S5]. rewrite fmap_app. apply NoDup_app.
    split; [apply S5|]. split; [|apply NoDup_singleton].
    intros x (e & -> & He)%list_elem_of_fmap Hx%list_elem_of_singleton. cbn in Hx. injection Hd as -> ->.
    assert (il_chunks l !! (att, st, off) = Some (MkChunkRow (ot_payload e) (ot_run e) (ot_sequence e))); [|congruence].
    apply S2. by exists e.
Qed.

Lemma i64_above n : i64_max < n -> interaction_i64 n = Err (ValueOutOfRange n).
Proof. intros Hn. unfold interaction_i64. destruct (N.leb_spec n i64_max); [lia|done]. Qed.

Lemma next_offset off len : off <= i64_max ->
  interaction_i64 (saturating_add u64_max off len) =
  if i64_max <? off + len then Err (ValueOutOfRange (N.min u64_max (off + len))) else Ok (off + len).
Proof.
  intros Hoff. unfold interaction_i64, saturating_add. assert (i64_max < u64_max) by done.
  destruct (N.ltb_spec i64_max (off + len)), (N.leb_spec (N.min u64_max (off + len)) i64_max); try lia; [done|].
  f_equal. lia.
Qed.

Lemma append_output_answers l h key att st off payload frame :
  simulates l h -> answers (append_output key att st off payload frame l) (spec_append_output key att st off payload frame h).
Proof.
  intros Hs. unfold append_output, spec_append_output.
  destruct (validate_input key frame) as [[]|e] eqn:Hv; cbn [mbind result_bind answers]; [|done].
  apply validate_input_Ok in Hv as [Hv _].
  destruct (trim_is_empty att); cbn [guard_err mbind result_bind answers]; [done|].
  unfold output_chunk. destruct (N.ltb_spec i64_max off) as [Hoff|Hoff].
  { rewrite (i64_above off) by done. reflexivity. }
  rewrite (i64_below off) by (by apply N.leb_le). cbn [guard_err mbind result_bind].
  destruct (list_find _ (shown att st h)) as [[i e]|] eqn:Hf.
  - destruct (chunk_known _ _ _ _ _ _ _ Hs Hf) as (kf & Hc & He & Hrow & Hseq). rewrite Hc. cbn. rewrite Hrow. cbn. rewrite He.
    unfold event_at. rewrite Hrow. cbn.
    rewrite Hseq, !bool_decide_not.
    by destruct (bool_decide (ot_payload e = payload)), (bool_decide (fingerprint kf.2 = fingerprint frame)).
  - rewrite (chunk_unknown _ _ _ _ _ Hs Hf). cbn. rewrite (sm_offsets _ _ Hs).
    destruct (N.ltb_spec off (received (shown att st h))) as [Hlt|Hge]; cbn [guard_err mbind result_bind answers]; [done|].
    pose proof (transaction_answers l h key frame Hs Hv) as Ht.
    destruct (append_transaction key (fingerprint frame) frame l) as [[o l1]|e] eqn:E1;
      destruct (history_append key frame h.1) as [[o' a']|e'] eqn:E2; try done.
    destruct Ht as [-> Ht]. cbn [mbind result_bind fst snd].
    destruct (history_append_found _ _ _ _ _ E2) as (Hn & (kf & Hkf & _) & _).
    assert (ev_sequence (outcome_envelope o') <= i64_max) as Hmax.
    { pose proof (rp_bound _ _ (sm_frames _ _ Ht) (pe_run_id frame)) as Hb. cbn [fst] in Hb. apply lookup_lt_Some in Hkf. lia. }
    rewrite (i64_below (ev_sequence (outcome_envelope o'))) by (by apply N.leb_le). cbn [mbind result_bind].
    rewrite next_offset by done. destruct (N.ltb_spec i64_max (off + N.of_nat (length payload))); cbn [mbind result_bind guard_err answers]; [done|].
    split; [done|]. apply simulates_chunk; [done| |done|done|by eexists].
    apply append_transaction_tables in E1 as [-> _]. by apply (chunk_unknown _ h).
Qed.

Lemma spec_append_prefix key frame h o h' : spec_append key frame h = Ok (o, h') -> history_prefix h h'.
Proof.
  unfold spec_append. intros E. apply result_bind_Ok in E as (u & _ & E). apply result_bind_Ok in E as ([o1 a1] & E1 & E).
  apply Ok_inj, pair_equal_spec in E as [_ <-]. split; [|done]. by apply (history_append_found _ _ _ _ _ E1).
Qed.

Lemma spec_append_output_prefix key att st off payload frame h o h' :
  spec_append_output key att st off payload frame h = Ok (o, h') -> history_prefix h h'.
Proof.
  unfold spec_append_output. intros E. apply result_bind_Ok in E as (u & _ & E). apply guard_bind_Ok in E as [_ E].
  apply guard_bind_Ok in E as [_ E]. destruct (list_find _ _) as [[i e]|].
  - destruct (entry_frame e h); [|done]. destruct (_ && _); [|done]. by apply Ok_inj, pair_equal_spec in E as [_ <-].
  - destruct (_ <? _); [done|]. apply result_bind_Ok in E as ([o1 a1] & E1 & E). apply guard_bind_Ok in E as [_ E].
    apply Ok_inj, pair_equal_spec in E as [_ <-]. split; [by apply (history_append_found _ _ _ _ _ E1)|].
    intros att' st'. rewrite shown_insert. case_decide as Hd; [injection Hd as -> ->; by apply prefix_app_r|done].
Qed.

Lemma run_interaction_simulates op l h : simulates l h -> exists h', simulates (run_interaction op l) h' /\ history_prefix h h'.
Proof.
  intros Hs. assert (exists h', simulates l h' /\ history_prefix h h') as Hsame by by exists h.
  assert (forall l', il_runs l' = il_runs l -> il_events l' = il_events l -> il_chunks l' = il_chunks l -> il_offsets l' = il_offsets l ->
            exists h', simulates l' h' /\ history_prefix h h') as Htables.
  { intros l' E1 E2 E3 E4. exists (h.1, h.2). split; [|by split].
    apply (simulates_events l); [done|eapply represents_tables; [exact (sm_frames _ _ Hs)|done..]|done|done|done]. }
  destruct op as [key frame|key att st off payload frame|r o now|r o now]; cbn [run_interaction].
  - pose proof (append_answers l h key frame Hs) as Ha. destruct (append key frame l) as [[o l']|e]; [|done]. cbn.
    destruct (spec_append key frame h) as [[o' h']|e'] eqn:E; [|done]. exists h'. split; [by apply Ha|]. by eapply spec_append_prefix.
  - pose proof (append_output_answers l h key att st off payload frame Hs) as Ha.
    destruct (append_output _ _ _ _ _ _ l) as [[o l']|e]; [|done]. cbn.
    destruct (spec_append_output _ _ _ _ _ _ h) as [[o' h']|e'] eqn:E; [|done]. exists h'. split; [by apply Ha|].
    by eapply spec_append_output_prefix.
  - unfold grant_run_access. destruct (validate_run_owner r o); [|done]. cbn. destruct (_ !! _) as [row|]; cbn.
    + destruct (_ =? _)%Z; [done|]. by destruct (_ =? _)%Z.
    + destruct (interaction_i64 now); [|done]. by apply Htables.
  - unfold revoke_run_access. destruct (validate_run_owner r o); [|done]. cbn.
    destruct (_ !! _) as [row|]; [|done]. cbn. destruct (_ =? _)%Z; [done|]. destruct (_ =? _)%Z; [|done].
    destruct (interaction_i64 now); [|done]. by apply Htables.
Qed.

Lemma run_interactions_simulate ops l h : simulates l h -> exists h', simulates (run_interactions ops l) h' /\ history_prefix h h'.
Proof.
  revert l h. induction ops as [|op ops IH]; intros l h Hs; [by exists h|].
  destruct (run_interaction_simulates op l h Hs) as (h1 & Hs1 & Hp1). destruct (IH _ _ Hs1) as (h2 & Hs2 & Hp2).
  exists h2. split; [done|]. by etransitivity.
Qed.

(** C20 The durable log implements the promised history: whatever calls are
    made, the store holds for every run exactly the frames it accepted, each
    under its own key, numbered without a gap from one in the order of their
    acceptance, and for every stream of output exactly the chunks it
    accepted; later calls only extend both.  A next call is answered exactly
    as the history says, refusals included.  [append]: a known key returns
    the envelope first stored for it, or a conflict when the canonical
    content differs, and a new key is appended.  [append_output]: a chunk at
    a known offset returns the event it was shown by, or a conflict when
    payload or content differ; one that starts before the end of what was
    received is a conflict; another one is appended with its event and
    reports the bytes that were skipped.  Reading gives the history: all of
    it, what follows a cursor up to a limit, and its greatest number. *)
Theorem interaction_log_refines (ops later : list (InteractionOp (V:=V))) :
  let l := run_interactions ops log_empty in
  let l' := run_interactions (ops ++ later) log_empty in
  exists h h', simulates l h /\ simulates l' h' /\ history_prefix h h'
  /\ (forall key frame, answers (append key frame l) (spec_append key frame h))
  /\ (forall key att st off payload frame,
        answers (append_output key att st off payload frame l) (spec_append_output key att st off payload frame h))
  /\ (forall r, events r l = ingest_all (sequencer_new r) (accepted r h.1).*2
        /\ latest_sequence r l =
           match accepted r h.1 with [] => None | fs => Some (N.of_nat (length fs)) end
        /\ (forall after limit, after <= i64_max -> limit <= i64_max ->
              events_after r after limit l
              = Ok (take (N.to_nat limit) (drop (N.to_nat after) (events r l))))).
Proof.
  intros l l'. destruct (run_interactions_simulate ops log_empty _ simulates_empty) as (h & Hs & _). fold l in Hs.
  destruct (run_interactions_simulate later l h Hs) as (h' & Hs' & Hp).
  assert (l' = run_interactions later l) as El by (unfold l', l, run_interactions; apply foldl_app).
  rewrite <-El in Hs'. exists h, h'. do 3 (split; [done|]).
  split; [intros key frame; by apply append_answers|]. split; [intros *; by apply append_output_answers|].
  pose proof (sm_frames _ _ Hs) as Ha.
  intros r. rewrite (events_accepted _ _ _ Ha). split; [by apply envelopes_sequenced with l|].
  split; [by apply latest_accepted|]. intros after limit H1 H2. unfold events_after.
  destruct (N.eqb_spec limit 0) as [->|_]; [done|]. rewrite !i64_below by by apply N.leb_le.
  cbn [mbind result_bind map_err]. by rewrite (later_accepted _ _ _ _ Ha).
Qed.

(** ** Output previews *)

(** Chunks end at or before the offset of their stream, refer to a stored
    event and do not overlap. *)
Record output_ok (l : InteractionLog V) : Prop := {
  oo_chunk att st off c : il_chunks l !! (att, st, off) = Some c ->
    off + N.of_nat (length (ic_payload c)) <= output_offset att st l
    /\ is_Some (il_events l !! (ic_run_id c, ic_event_sequence c));
  oo_disjoint att st off c off' c' :
    il_chunks l !! (att, st, off) = Some c -> il_chunks l !! (att, st, off') = Some c' ->
    off < off' -> off + N.of_nat (length (ic_payload c)) <= off';
}.

(** What no call changes: stored events and chunks. *)
Record grown (l l' : InteractionLog V) : Prop := {
  gr_events k row : il_events l !! k = Some row -> il_events l' !! k = Some row;
  gr_chunks k c : il_chunks l !! k = Some c -> il_chunks l' !! k = Some c;
}.

#[export] Instance grown_preorder : PreOrder grown.
Proof. split; [by intros l|]. intros l1 l2 l3 [] []. split; eauto. Qed.

Lemma append_transaction_grown key print frame l o l' :
  append_transaction key print frame l = Ok (o, l') ->
  grown l l' /\ il_chunks l' = il_chunks l /\ il_offsets l' = il_offsets l
  /\ il_grants l' = il_grants l
  /\ exists s row, il_events l' !! (pe_run_id frame, s) = Some row
       /\ ie_fingerprint row = print /\ ie_envelope row = outcome_envelope o
       /\ (forall a, represents l a -> ev_sequence (outcome_envelope o) = s).
Proof.
  unfold append_transaction. destruct (event_by_key _ _ _) as [row|] eqn:Hk.
  - case_bool_decide as Hp; [|done]. intros [= <- <-]. do 4 (split; [done|]).
    unfold event_by_key in Hk. apply fmap_Some in Hk as ([[r s] row'] & Hh & ->). cbn.
    apply head_Some_elem_of, list_elem_of_filter in Hh as [[Er Ek] Hh%elem_of_map_to_list]. cbn in *. subst.
    exists s, row'. split_and!; [done..|].
    intros a Ha. destruct (proj1 (rp_events _ _ Ha _ _ _) Hh) as (i & kf & _ & Es & Erow). by rewrite Erow, Es.
  - intros E. apply result_bind_Ok in E as (x & _ & E). apply guard_bind_Ok in E as [Hfree E].
    apply result_bind_Ok in E as (next & _ & E). apply Ok_inj, pair_equal_spec in E as [<- <-]. cbn.
    apply orb_false_iff in Hfree as [Hfree _]. apply bool_decide_eq_false in Hfree.
    split; [|do 3 (split; [done|])].
    + split; [|done]. intros k row Hrow. cbn. rewrite lookup_insert_ne; [done|].
      intros <-. apply Hfree. by eexists.
    + eexists _, _. rewrite lookup_insert_eq. split; [reflexivity|]. cbn. by split_and!.
Qed.

(** A successful output call: a repetition, or a new chunk at or behind
    the offset of its stream. *)
Lemma append_output_Ok key att st off payload frame l r l' :
  append_output key att st off payload frame l = Ok (r, l') ->
  validate_input key frame = Ok tt /\ trim_is_empty att = false /\ off <= i64_max /\
  ((exists c row, l' = l /\ il_chunks l !! (att, st, off) = Some c
      /\ il_events l !! (ic_run_id c, ic_event_sequence c) = Some row
      /\ ic_payload c = payload /\ ie_fingerprint row = fingerprint frame
      /\ r = MkOutputAppend (AppendDuplicate (ie_envelope row)) 0)
   \/ exists o l1, append_transaction key (fingerprint frame) frame l = Ok (o, l1)
        /\ output_offset att st l <= off
        /\ off + N.of_nat (length payload) <= i64_max
        /\ r = MkOutputAppend o (off - output_offset att st l)
        /\ l' = MkLog (il_runs l1) (il_events l1)
             (<[(att, st, off) := MkChunkRow payload (pe_run_id frame) (ev_sequence (outcome_envelope o))]> (il_chunks l1))
             (<[(att, st) := off + N.of_nat (length payload)]> (il_offsets l1)) (il_grants l1)
        /\ (output_ok l -> il_chunks l !! (att, st, off) = None)).
Proof.
  unfold append_output. intros E. apply result_bind_Ok in E as ([] & Hv & E).
  apply guard_bind_Ok in E as [Hatt E]. apply result_bind_Ok in E as (stored & Hs & E).
  unfold output_chunk in Hs. apply result_bind_Ok in Hs as (o' & Ho & Hs%Ok_inj).
  unfold interaction_i64 in Ho. destruct (N.leb_spec off i64_max) as [Hoff|]; [|done]. injection Ho as <-.
  do 3 (split; [done|]). destruct stored as [[c print]|].
  - left. destruct (il_chunks l !! _) as [c'|] eqn:Hc; [|done]. cbn in Hs.
    destruct (il_events l !! (ic_run_id c', _)) as [row|] eqn:Hrow; [|done]. cbn in Hs. injection Hs as <- <-.
    apply guard_bind_Ok in E as [Hg E]. apply orb_false_iff in Hg as [Hg1 Hg2].
    apply bool_decide_eq_false, dec_stable in Hg1, Hg2.
    unfold event_at in E. rewrite Hrow in E. cbn in E. apply Ok_inj, pair_equal_spec in E as [<- <-].
    by exists c', row.
  - right. apply guard_bind_Ok in E as [Hlt%N.ltb_ge E]. apply result_bind_Ok in E as ([o l1] & E1 & E).
    apply result_bind_Ok in E as (x & Hx & E). apply result_bind_Ok in E as (y & Hy & E).
    apply result_bind_Ok in E as (z & Hz & E). apply Ok_inj, pair_equal_spec in E as [<- <-].
    unfold interaction_i64 in Hx, Hy, Hz. cbn in Hy.
    destruct (off <=? i64_max); [|done]. destruct (_ <=? i64_max) in Hy; [|done].
    destruct (N.leb_spec (saturating_add u64_max off (N.of_nat (length payload))) i64_max) as [Hn|]; [|done].
    injection Hx as <-. injection Hy as <-. injection Hz as <-.
    assert (saturating_add u64_max off (N.of_nat (length payload)) = off + N.of_nat (length payload)) as Hsat.
    { unfold saturating_add in *. assert (i64_max < u64_max) by done. lia. }
    rewrite Hsat in *. exists o, l1. split_and!; [done..|]. intros Hok.
    destruct (il_chunks l !! (att, st, off)) as [c|] eqn:Hc; [|done].
    destruct (oo_chunk _ Hok _ _ _ _ Hc) as [_ [row Hrow]]. cbn in Hs. by rewrite Hrow in Hs.
Qed.

Lemma append_output_grown key att st off payload frame l r l' :
  append_output key att st off payload frame l = Ok (r, l') -> output_ok l -> (exists a, represents l a) ->
  grown l l' /\ output_ok l'
  /\ exists c row, il_chunks l' !! (att, st, off) = Some c
      /\ il_events l' !! (ic_run_id c, ic_event_sequence c) = Some row
      /\ ic_payload c = payload /\ ie_fingerprint row = fingerprint frame
      /\ ie_envelope row = outcome_envelope (oa_outcome r).
Proof.
  intros (_ & _ & _ & [(c & row & -> & Hc & Hrow & Hp & Hf & ->)|(o & l1 & E1 & Hlo & Hhi & -> & -> & Hfresh)])%append_output_Ok Hok [a Ha].
  { split; [done|]. split; [done|]. by exists c, row. }
  specialize (Hfresh Hok).
  apply append_transaction_grown in E1 as (Hg & Ec & Eo & _ & s & row & Hrow & Hf & He & Hseq).
  rewrite (Hseq _ Ha). rewrite Ec, Eo. split; [|split].
  - split; cbn; [apply (gr_events _ _ Hg)|]. intros k c Hc. rewrite lookup_insert_ne; [done|].
    intros <-. congruence.
  - split; cbn [il_chunks il_events].
    + intros att' st' off' c. unfold output_offset. cbn [il_offsets].
      destruct (decide ((att', st', off') = (att, st, off))) as [[= -> -> ->]|Hne].
      * rewrite !lookup_insert_eq. intros [= <-]. cbn. split; [lia|]. by exists row.
      * rewrite lookup_insert_ne by done. intros Hc. destruct (oo_chunk _ Hok _ _ _ _ Hc) as [H1 [row' H2]].
        split; [|exists row'; by apply (gr_events _ _ Hg)].
        destruct (decide ((att', st') = (att, st))) as [[= -> ->]|Hne'].
        -- rewrite lookup_insert_eq. cbn. unfold output_offset in *. lia.
        -- by rewrite lookup_insert_ne.
    + intros att' st' o1 c1 o2 c2.
      destruct (decide ((att', st', o1) = (att, st, off))) as [[= -> -> ->]|Hne1].
      * rewrite lookup_insert_eq. intros [= <-]. cbn. intros H2 Hlt. rewrite lookup_insert_ne in H2 by congruence || (intros [=]; lia).
        destruct (oo_chunk _ Hok _ _ _ _ H2). lia.
      * rewrite lookup_insert_ne by done. intros H1.
        destruct (decide ((att', st', o2) = (att, st, off))) as [[= -> -> ->]|Hne2].
        -- intros _ _. destruct (oo_chunk _ Hok _ _ _ _ H1). lia.
        -- rewrite lookup_insert_ne by done. intros H2. by apply (oo_disjoint _ Hok _ _ _ _ _ _ H1 H2).
  - eexists _, row. cbn. rewrite lookup_insert_eq. split_and!; [done|cbn; by rewrite Hrow|done..].
Qed.

Lemma outputs_frame l l' : output_ok l -> il_events l' = il_events l ->
  il_chunks l' = il_chunks l -> il_offsets l' = il_offsets l -> grown l l' /\ output_ok l'.
Proof.
  intros [H1 H2] E1 E2 E3. split; split; intros *; unfold output_offset in *; rewrite ?E1, ?E2, ?E3; eauto.
Qed.

(** Every call keeps the previews in order and forgets no event. *)
Lemma run_interaction_outputs op l : output_ok l -> (exists a, represents l a) ->
  grown l (run_interaction op l) /\ output_ok (run_interaction op l).
Proof.
  intros Hok Ha. destruct op as [key frame|key att st off payload frame|r o now|r o now]; cbn [run_interaction].
  - destruct (append key frame l) as [[o l']|] eqn:E; [|done]. cbn. unfold append in E.
    apply result_bind_Ok in E as ([] & _ & E). apply append_transaction_grown in E as (Hg & Ec & Eo & _).
    split; [done|]. split; unfold output_offset; rewrite ?Ec, ?Eo; [|apply (oo_disjoint _ Hok)].
    intros att st off c Hc. destruct (oo_chunk _ Hok _ _ _ _ Hc) as [H1 [row H2]].
    split; [done|]. exists row. by apply (gr_events _ _ Hg).
  - destruct (append_output _ _ _ _ _ _ _) as [[o l']|] eqn:E; [|done].
    by destruct (append_output_grown _ _ _ _ _ _ _ _ _ E Hok Ha) as (? & ? & _).
  - unfold grant_run_access. destruct (validate_run_owner r o); [|done]. cbn.
    destruct (_ !! _) as [row|]; cbn.
    + destruct (_ =? _)%Z; [done|]. by destruct (_ =? _)%Z.
    + destruct (interaction_i64 now); [|done]. by apply outputs_frame.
  - unfold revoke_run_access. destruct (validate_run_owner r o); [|done]. cbn.
    destruct (_ !! _) as [row|]; [|done]. cbn. destruct (_ =? _)%Z; [done|]. destruct (_ =? _)%Z; [|done].
    destruct (interaction_i64 now); [|done]. by apply outputs_frame.
Qed.

Lemma run_interactions_outputs ops l : output_ok l -> (exists a, represents l a) ->
  grown l (run_interactions ops l) /\ output_ok (run_interactions ops l).
Proof.
  revert l. induction ops as [|op ops IH]; intros l Hok [a Ha]; [done|].
  destruct (run_interaction_outputs op l Hok) as [Hg Hok']; [by exists a|].
  destruct (run_interaction_extends op l a Ha) as (a' & Ha' & _).
  destruct (IH _ Hok') as [Hg' Hok'']; [by exists a'|]. split; [|done]. cbn. by etransitivity.
Qed.

Lemma output_ok_empty : output_ok log_empty.
Proof. split; intros *; cbn; by rewrite lookup_empty. Qed.

(** A call that repeats a stored chunk succeeds and changes nothing. *)
Lemma append_output_repeated key att st off payload frame l c row :
  validate_input key frame = Ok tt -> trim_is_empty att = false -> off <= i64_max ->
  il_chunks l !! (att, st, off) = Some c -> il_events l !! (ic_run_id c, ic_event_sequence c) = Some row ->
  append_output key att st off payload frame l =
  if decide (ic_payload c = payload /\ ie_fingerprint row = fingerprint frame)
  then Ok (MkOutputAppend (AppendDuplicate (ie_envelope row)) 0, l)
  else Err (ConflictingOutput att st off).
Proof.
  intros Hv Hatt Hoff Hc Hrow. unfold append_output, output_chunk. rewrite Hv, Hatt.
  cbn [mbind result_bind guard_err]. rewrite (i64_below off) by (by apply N.leb_le). cbn [mbind result_bind].
  rewrite Hc. cbn. rewrite Hrow. cbn. unfold event_at. rewrite Hrow. cbn.
  destruct (decide (ic_payload c = payload)) as [->|Hp]; [destruct (decide (ie_fingerprint row = fingerprint frame)) as [->|Hf]|].
  - rewrite !bool_decide_eq_false_2 by (by intros []). cbn. by rewrite decide_True.
  - rewrite bool_decide_eq_false_2 by (by intros []). rewrite bool_decide_eq_true_2 by done. cbn.
    rewrite decide_False by tauto. done.
  - rewrite bool_decide_eq_true_2 by done. cbn. rewrite decide_False by tauto. done.
Qed.

(** Live output of an attempt is previewed byte for byte or not at
    all: the chunks kept for a stream never overlap and each belongs to a
    stored event; a chunk that starts before the end of what was received
    is a conflict unless it is that very chunk again; a call that once
    succeeded is answered at any later time with the same event and changes
    nothing; and a new chunk moves the offset of its stream to its end and
    reports exactly the bytes that were skipped. *)
Theorem output_correlation (ops : list (InteractionOp (V:=V))) key att st off payload frame :
  let l := run_interactions ops log_empty in
  output_ok l
  /\ match append_output key att st off payload frame l with
     | Ok (r, l1) =>
         (forall later, exists l2, run_interactions later l1 = l2
            /\ append_output key att st off payload frame l2
               = Ok (MkOutputAppend (AppendDuplicate (outcome_envelope (oa_outcome r))) 0, l2))
         /\ (l1 = l \/ output_offset att st l + oa_missing_bytes_before r = off
               /\ output_offset att st l1 = off + N.of_nat (length payload))
     | Err _ => True
     end
  /\ (validate_input key frame = Ok tt -> trim_is_empty att = false -> off <= i64_max ->
      off < output_offset att st l ->
      append_output key att st off payload frame l = Err (ConflictingOutput att st off)
      \/ exists c row, il_chunks l !! (att, st, off) = Some c /\ ic_payload c = payload
           /\ il_events l !! (ic_run_id c, ic_event_sequence c) = Some row
           /\ ie_fingerprint row = fingerprint frame).
Proof.
  intros l. destruct (interactions_reachable ops) as [a Ha]. fold l in Ha.
  destruct (run_interactions_outputs ops log_empty output_ok_empty) as [_ Hok]; [by exists ∅; apply represents_empty|].
  fold l in Hok. split; [done|]. split.
  - destruct (append_output key att st off payload frame l) as [[r l1]|] eqn:E; [|done].
    destruct (append_output_grown _ _ _ _ _ _ _ _ _ E Hok) as (_ & Hok1 & c & row & Hc & Hrow & Hp & Hf & He);
      [by exists a|].
    pose proof (run_interaction_extends (AppendOutput key att st off payload frame) l a Ha) as (a1 & Ha1 & _).
    cbn [run_interaction] in Ha1. rewrite E in Ha1. cbn in Ha1.
    apply append_output_Ok in E as (Hv & Hatt & Hoff & E). split.
    + intros later. eexists. split; [done|].
      destruct (run_interactions_outputs later l1 Hok1) as [Hg _]; [by exists a1|].
      rewrite (append_output_repeated _ _ _ _ _ _ _ c row); [|done..|by apply (gr_chunks _ _ Hg)|by apply (gr_events _ _ Hg)].
      rewrite decide_True by done. by rewrite He.
    + destruct E as [(c' & row' & -> & _)|(o & l2 & _ & Hlo & _ & -> & -> & _)]; [by left|]. right. cbn.
      split; [lia|]. unfold output_offset. cbn. by rewrite lookup_insert_eq.
  - intros Hv Hatt Hoff Hlt. destruct (il_chunks l !! (att, st, off)) as [c|] eqn:Hc.
    + destruct (oo_chunk _ Hok _ _ _ _ Hc) as [_ [row Hrow]].
      rewrite (append_output_repeated _ _ _ _ _ _ _ c row) by done.
      case_decide as Hd; [|by left]. right. destruct Hd. by exists c, row.
    + left. unfold append_output, output_chunk. rewrite Hv, Hatt. cbn [mbind result_bind guard_err].
      rewrite (i64_below off) by (by apply N.leb_le). cbn [mbind result_bind]. rewrite Hc. cbn.
      by destruct (N.ltb_spec off (output_offset att st l)); [|lia].
Qed.

(** ** Access *)

Definition grant_state (run owner : string) (l : InteractionLog V) : option Z :=
  ig_state <$> il_grants l !! (run, owner).

(** A grant is only ever given, and then only revoked. *)
Lemma revoked_stays op run owner l :
  grant_state run owner l = Some 2%Z -> grant_state run owner (run_interaction op l) = Some 2%Z.
Proof.
  unfold grant_state. intros Hg.
  assert (forall l', il_grants l' = il_grants l -> ig_state <$> il_grants l' !! (run, owner) = Some 2%Z) as Hsame
    by by intros l' ->.
  destruct op as [key frame|key att st off payload frame|r o now|r o now]; cbn [run_interaction].
  - destruct (append key frame l) as [[x l']|] eqn:E; [|done]. unfold append in E.
    apply result_bind_Ok in E as ([] & _ & E). apply append_transaction_grown in E as (_ & _ & _ & E & _).
    by apply Hsame.
  - destruct (append_output _ _ _ _ _ _ _) as [[x l']|] eqn:E; [|done]. apply Hsame.
    apply append_output_Ok in E as (_ & _ & _ & [(c & row & -> & _)|(y & l1 & E & _ & _ & _ & -> & _)]); [done|].
    by apply append_transaction_grown in E as (_ & _ & _ & E & _).
  - unfold grant_run_access. destruct (validate_run_owner r o); [|done]. cbn.
    destruct (il_grants l !! (r, o)) as [row|] eqn:Hro; cbn.
    + destruct (_ =? _)%Z; [done|]. by destruct (_ =? _)%Z.
    + destruct (interaction_i64 now); [|done]. cbn. rewrite lookup_insert_ne; [done|].
      intros [= -> ->]. by rewrite Hro in Hg.
  - unfold revoke_run_access. destruct (validate_run_owner r o); [|done]. cbn.
    destruct (il_grants l !! (r, o)) as [row|] eqn:Hro; [|done]. cbn.
    destruct (Z.eqb_spec (ig_state row) 2); [done|]. destruct (_ =? _)%Z; [|done].
    destruct (interaction_i64 now); [|done]. cbn.
    destruct (decide ((r, o) = (run, owner))) as [[= -> ->]|Hne]; [|by rewrite lookup_insert_ne].
    by rewrite lookup_insert_eq.
Qed.

(** Revocation is final: the owner never reads the run again and can not
    be granted it again. *)
Theorem revocation_is_final l run owner now l1 out later :
  revoke_run_access run owner now l = Ok (out, l1) ->
  can_read_run run owner (run_interactions later l1) = Ok false
  /\ forall t, grant_run_access run owner t (run_interactions later l1) = Err (RevokedRunGrant run owner).
Proof.
  intros E. unfold revoke_run_access in E. apply result_bind_Ok in E as (u & Hv & E).
  apply result_bind_Ok in E as (row & Hrow%ok_or_Ok & E).
  assert (grant_state run owner l1 = Some 2%Z) as H1.
  { unfold grant_state. destruct (Z.eqb_spec (ig_state row) 2) as [H2|_].
    - apply Ok_inj, pair_equal_spec in E as [_ <-]. rewrite Hrow. cbn. by rewrite H2.
    - destruct (_ =? _)%Z; [|done]. apply result_bind_Ok in E as (t & _ & E%Ok_inj).
      apply pair_equal_spec in E as [_ <-]. cbn. by rewrite lookup_insert_eq. }
  assert (grant_state run owner (run_interactions later l1) = Some 2%Z) as H2.
  { clear E Hrow. revert l1 H1. induction later as [|op later IH]; intros l1 H1; [done|].
    cbn. by apply IH, revoked_stays. }
  unfold grant_state in H2. split.
  - unfold can_read_run. rewrite Hv. cbn. by rewrite H2.
  - intros t. unfold grant_run_access. rewrite Hv. cbn.
    destruct (il_grants (run_interactions later l1) !! (run, owner)) as [row'|]; [|done]. cbn in H2 |- *. injection H2 as H2. by rewrite H2.
Qed.

End refinement.
