(* ===== verification/InteractionHub.v ===== *)
(** * Replay-to-live subscriptions

    [src/crates/alloyport-server/src/interaction/hub.rs]: the hub stores
    an event first and publishes it afterwards, outside of the store's
    lock, so that calls publish in any order; a subscriber replays the
    durable log up to the number it saw when it subscribed and then
    follows its channel.  What [broadcast::Receiver::recv] returns is an
    argument: the channel is tokio's, and all that is used of it is that
    it only yields what was sent. *)

From stdpp Require Import base strings gmap sorting numbers list sets.
From S2P Require Import Prelude Digest RunEvents Interactions.

Local Open Scope N_scope.

(** [enum SubscriptionError]. *)
Inductive SubscriptionError :=
| SubscriptionStore (e : InteractionError)
| SlowConsumer (last_sequence skipped_notifications : N)
| SequenceGap (expected_sequence observed_sequence : N)
| SubscriptionClosed.

(** What [receiver.recv()] returns. *)
Inductive RecvAnswer (V : Type) :=
| Received (envelope : EventEnvelope V)
| Lagged (skipped : N)
| ChannelClosed.
Arguments Received {V}. Arguments Lagged {V}. Arguments ChannelClosed {V}.

(** [struct InteractionSubscription]; the store is read where it is used. *)
Record InteractionSubscription (V : Type) := MkSubscription {
  is_run_id : string;
  is_last_sequence : N;
  is_replay_through : N;
  is_replay_batch_size : N;
  is_replay : list (EventEnvelope V);
  is_terminated : bool;
}.
Arguments MkSubscription {V}. Arguments is_run_id {V}. Arguments is_last_sequence {V}.
Arguments is_replay_through {V}. Arguments is_replay_batch_size {V}. Arguments is_replay {V}.
Arguments is_terminated {V}.

(** [struct InteractionHub]: the store, the runs with a channel, and of the
    calls in progress the events stored but not yet published; [h_sent] is
    everything sent so far. *)
Record InteractionHub (V : Type) := MkHub {
  h_store : InteractionLog V;
  h_live : gset string;
  h_unpublished : list (EventEnvelope V);
  h_sent : list (EventEnvelope V);
  h_live_capacity : N;
  h_replay_batch_size : N;
}.
Arguments MkHub {V}. Arguments h_store {V}. Arguments h_live {V}. Arguments h_unpublished {V}.
Arguments h_sent {V}. Arguments h_live_capacity {V}. Arguments h_replay_batch_size {V}.

Section hub.
Context {V : Type} `{EqDecision V}.

(** [InteractionHub::new]. *)
Definition hub_new (store : InteractionLog V) (live_capacity replay_batch_size : N) :
    result InteractionError (InteractionHub V) :=
  if (live_capacity =? 0) || (replay_batch_size =? 0) then Err InvalidSubscriptionCapacity
  else Ok (MkHub store ∅ [] [] live_capacity replay_batch_size).

(** [InteractionHub::subscribe]: the receiver is attached before the
    greatest stored number is read. *)
Definition hub_subscribe (run_id : string) (after_sequence : N) (h : InteractionHub V) :
    InteractionHub V * result InteractionError (InteractionSubscription V) :=
  let h := MkHub (h_store h) ({[run_id]} ∪ h_live h) (h_unpublished h) (h_sent h)
             (h_live_capacity h) (h_replay_batch_size h) in
  let replay_through := default 0 (latest_sequence run_id (h_store h)) in
  (h, if replay_through <? after_sequence
      then Err (InvalidCursor run_id after_sequence replay_through)
      else Ok (MkSubscription run_id after_sequence replay_through (h_replay_batch_size h) [] false)).

(** The outcome a call has to publish. *)
Definition stored_outcome (op : InteractionOp (V:=V)) (l : InteractionLog V) : option (AppendOutcome V) :=
  match op with
  | AppendEvent key frame =>
      match append key frame l with Ok (o, _) => Some o | Err _ => None end
  | AppendOutput key attempt stream offset payload frame =>
      match append_output key attempt stream offset payload frame l with
      | Ok (o, _) => Some (oa_outcome o) | Err _ => None
      end
  | GrantRun _ _ _ | RevokeRun _ _ _ => None
  end.

(** The first half of a call to the hub: the store has answered. *)
Definition hub_store (op : InteractionOp (V:=V)) (h : InteractionHub V) : InteractionHub V :=
  MkHub (run_interaction op (h_store h)) (h_live h)
    (h_unpublished h ++ match stored_outcome op (h_store h) with Some (Inserted e) => [e] | _ => [] end)
    (h_sent h) (h_live_capacity h) (h_replay_batch_size h).

(** [publish], the second half of some call in progress. *)
Definition hub_publish (i : nat) (h : InteractionHub V) : InteractionHub V :=
  match h_unpublished h !! i with
  | None => h
  | Some envelope =>
      MkHub (h_store h) (h_live h) (delete i (h_unpublished h))
        (h_sent h ++ if bool_decide (ev_run_id envelope ∈ h_live h) then [envelope] else [])
        (h_live_capacity h) (h_replay_batch_size h)
  end.

Inductive HubStep := HubStore (op : InteractionOp (V:=V)) | HubPublish (i : nat) | HubSubscribe (run_id : string) (after : N).

Definition hub_step (s : HubStep) (h : InteractionHub V) : InteractionHub V :=
  match s with
  | HubStore op => hub_store op h
  | HubPublish i => hub_publish i h
  | HubSubscribe run after => (hub_subscribe run after h).1
  end.

Definition hub_steps (ss : list HubStep) (h : InteractionHub V) : InteractionHub V :=
  foldl (fun h s => hub_step s h) h ss.

(** ** The subscriber *)

Definition with_replay (s : InteractionSubscription V) (q : list (EventEnvelope V)) :=
  MkSubscription (is_run_id s) (is_last_sequence s) (is_replay_through s) (is_replay_batch_size s) q
    (is_terminated s).

(** [terminate]. *)
Definition terminate (s : InteractionSubscription V) : InteractionSubscription V :=
  MkSubscription (is_run_id s) (is_last_sequence s) (is_replay_through s) (is_replay_batch_size s)
    (is_replay s) true.

Definition RecvResult : Type :=
  InteractionSubscription V * option (result SubscriptionError (EventEnvelope V)).

(** [accept]. *)
Definition accept (s : InteractionSubscription V) (envelope : EventEnvelope V) : RecvResult :=
  let expected := saturating_add u64_max (is_last_sequence s) 1 in
  if negb (ev_sequence envelope =? expected)
  then (terminate s, Some (Err (SequenceGap expected (ev_sequence envelope))))
  else (MkSubscription (is_run_id s) (ev_sequence envelope) (is_replay_through s)
          (is_replay_batch_size s) (is_replay s) (is_terminated s), Some (Ok envelope)).

(** The live part of the loop of [recv]: [None] while the channel has
    nothing to say. *)
Fixpoint recv_live (s : InteractionSubscription V) (answers : list (RecvAnswer V)) : RecvResult :=
  match answers with
  | [] => (s, None)
  | Received envelope :: answers =>
      if negb (String.eqb (ev_run_id envelope) (is_run_id s)) then recv_live s answers
      else if ev_sequence envelope <=? is_last_sequence s then recv_live s answers
      else accept s envelope
  | Lagged skipped :: _ => (terminate s, Some (Err (SlowConsumer (is_last_sequence s) skipped)))
  | ChannelClosed :: _ => (terminate s, Some (Err SubscriptionClosed))
  end.

(** [take_while] on the batch read from the store. *)
Fixpoint take_through (through : N) (es : list (EventEnvelope V)) : list (EventEnvelope V) :=
  match es with
  | e :: es => if ev_sequence e <=? through then e :: take_through through es else []
  | [] => []
  end.

(** [InteractionSubscription::recv].  The loop reads a batch at most once
    before it returns: a batch is either empty, an error, or popped. *)
Definition recv (l : InteractionLog V) (answers : list (RecvAnswer V)) (s : InteractionSubscription V) :
    RecvResult :=
  if is_terminated s then (s, Some (Err SubscriptionClosed)) else
  match is_replay s with
  | envelope :: q => accept (with_replay s q) envelope
  | [] =>
      if is_last_sequence s <? is_replay_through s then
        match events_after (is_run_id s) (is_last_sequence s) (is_replay_batch_size s) l with
        | Err e => (terminate s, Some (Err (SubscriptionStore e)))
        | Ok batch =>
            match take_through (is_replay_through s) batch with
            | [] => (terminate s, Some (Err (SequenceGap (saturating_add u64_max (is_last_sequence s) 1)
                                              (is_replay_through s))))
            | envelope :: q => accept (with_replay s q) envelope
            end
        end
      else recv_live s answers
  end.

(** A client that calls [recv] again and again while the hub goes on: what
    happens before each call, and what the channel answers during it. *)
Fixpoint listen (script : list (list HubStep * list (RecvAnswer V))) (h : InteractionHub V)
    (s : InteractionSubscription V) : list (EventEnvelope V) * InteractionHub V * InteractionSubscription V :=
  match script with
  | [] => ([], h, s)
  | (steps, answers) :: script =>
      let h := hub_steps steps h in
      let '(s, r) := recv (h_store h) answers s in
      let '(delivered, h, s) := listen script h s in
      (match r with Some (Ok e) => e :: delivered | _ => delivered end, h, s)
  end.

End hub.

Section theorems.
Context {V : Type} `{EqDecision V}.
Implicit Types (l : InteractionLog V) (h : InteractionHub V) (s : InteractionSubscription V).

(** ** The hub only publishes what the log holds *)

Definition in_history (a : History V) (e : EventEnvelope V) : Prop :=
  e ∈ envelopes (accepted (ev_run_id e) a).

Definition hub_ok h : Prop :=
  exists a, represents (h_store h) a /\ Forall (in_history a) (h_unpublished h ++ h_sent h).

Lemma envelopes_prefix (fs gs : list (string * ProducerEvent V)) :
  fs `prefix_of` gs -> envelopes fs `prefix_of` envelopes gs.
Proof. intros [k ->]. unfold envelopes. rewrite imap_app. by apply prefix_app_r. Qed.

Lemma envelopes_lookup (fs : list (string * ProducerEvent V)) i e :
  envelopes fs !! i = Some e -> ev_sequence e = N.of_nat i + 1.
Proof.
  unfold envelopes. rewrite list_lookup_imap. destruct (fs !! i); [|done]. by intros [= <-].
Qed.

Lemma in_history_prefix a a' e : (forall r, accepted r a `prefix_of` accepted r a') ->
  in_history a e -> in_history a' e.
Proof.
  intros Hp He. unfold in_history in *. eapply elem_of_prefix; [exact He|]. by apply envelopes_prefix.
Qed.

Lemma append_transaction_inserted l a key frame e l' : represents l a ->
  pe_schema_version frame = SCHEMA_VERSION ->
  append_transaction key (fingerprint frame) frame l = Ok (Inserted e, l') ->
  exists a', represents l' a' /\ (forall r, accepted r a `prefix_of` accepted r a')
    /\ ev_run_id e = pe_run_id frame
    /\ envelopes (accepted (pe_run_id frame) a') = envelopes (accepted (pe_run_id frame) a) ++ [e].
Proof.
  intros Hr Hs E. pose proof (append_transaction_agrees l a key frame Hr Hs) as Ha. rewrite E in Ha.
  destruct (history_append key frame a) as [[o a']|] eqn:Eh; [|done]. destruct Ha as [<- Ha].
  exists a'. split; [done|]. split; [by eapply history_append_extends|].
  unfold history_append in Eh. destruct (list_find _ _) as [[i [k first]]|]; [by case_bool_decide|].
  destruct (_ <? _); [|done]. injection Eh as <- <-. split; [done|].
  rewrite accepted_insert, decide_True by done. unfold envelopes. rewrite imap_app. cbn. by rewrite Nat.add_0_r.
Qed.

Lemma stored_outcome_inserted op l a e : represents l a -> stored_outcome op l = Some (Inserted e) ->
  exists a', represents (run_interaction op l) a' /\ (forall r, accepted r a `prefix_of` accepted r a')
    /\ envelopes (accepted (ev_run_id e) a') = envelopes (accepted (ev_run_id e) a) ++ [e].
Proof.
  intros Hr. destruct op as [key frame|key att st off payload frame| |]; cbn; [..|done|done].
  - destruct (append key frame l) as [[o l']|] eqn:E; [|done]. intros [= ->]. unfold append in E.
    apply result_bind_Ok in E as ([] & [Hs _]%validate_input_Ok & E).
    destruct (append_transaction_inserted _ _ _ _ _ _ Hr Hs E) as (a' & Ha' & Hp & Er & Ee).
    exists a'. by rewrite Er.
  - destruct (append_output _ _ _ _ _ _ _) as [[o l']|] eqn:E; [|done]. intros [= Eo].
    apply append_output_Ok in E as ([Hs _]%validate_input_Ok & _ & _ & [(c & row & _ & _ & _ & _ & _ & ->)|(o' & l1 & E & _ & _ & -> & -> & _)]);
      [done|]. cbn in Eo. subst o'.
    destruct (append_transaction_inserted _ _ _ _ _ _ Hr Hs E) as (a' & Ha' & Hp & Er & Ee).
    exists a'. rewrite Er. split; [by eapply represents_tables|done].
Qed.

Lemma hub_step_ok x h : hub_ok h -> hub_ok (hub_step x h) /\
  forall a, represents (h_store h) a -> exists a', represents (h_store (hub_step x h)) a'
    /\ forall r, accepted r a `prefix_of` accepted r a'.
Proof.
  intros (a & Ha & Hf). destruct x as [op|i|run after].
  - split; [|intros a0; apply run_interaction_extends]. cbn.
    destruct (stored_outcome op (h_store h)) as [[e|e]|] eqn:Eo.
    + destruct (stored_outcome_inserted _ _ _ _ Ha Eo) as (a' & Ha' & Hp & Ee). exists a'. split; [done|]. cbn. rewrite Eo.
      apply Forall_app in Hf as [Hf1 Hf2].
      apply Forall_app. split; [apply Forall_app; split; [|apply Forall_singleton]|].
      * eapply Forall_impl; [exact Hf1|]. intros x. by apply in_history_prefix.
      * unfold in_history. rewrite Ee. set_solver.
      * eapply Forall_impl; [exact Hf2|]. intros x. by apply in_history_prefix.
    + destruct (run_interaction_extends op _ _ Ha) as (a' & Ha' & Hp). exists a'. split; [done|]. cbn. rewrite Eo.
      rewrite app_nil_r. eapply Forall_impl; [exact Hf|]. intros x. by apply in_history_prefix.
    + destruct (run_interaction_extends op _ _ Ha) as (a' & Ha' & Hp). exists a'. split; [done|]. cbn. rewrite Eo.
      rewrite app_nil_r. eapply Forall_impl; [exact Hf|]. intros x. by apply in_history_prefix.
  - cbn. unfold hub_publish. destruct (h_unpublished h !! i) as [e|] eqn:Hi; [|split; [by exists a|by intros a0; exists a0]].
    split; [|by intros a0; exists a0]. exists a. split; [done|]. cbn. rewrite Forall_app in Hf. destruct Hf as [Hf1 Hf2].
    rewrite !Forall_app. split_and!; [by apply Forall_delete|done|].
    case_bool_decide; [|done]. apply Forall_singleton. exact (Forall_lookup_1 _ _ _ _ Hf1 Hi).
  - cbn. split; [|by intros a0; exists a0]. by exists a.
Qed.

Lemma hub_steps_ok xs h : hub_ok h -> hub_ok (hub_steps xs h) /\
  forall a, represents (h_store h) a -> exists a', represents (h_store (hub_steps xs h)) a'
    /\ forall r, accepted r a `prefix_of` accepted r a'.
Proof.
  revert h. induction xs as [|x xs IH]; intros h Hok; [split; [done|by intros a; exists a]|].
  destruct (hub_step_ok x h Hok) as [Hok1 H1]. destruct (IH _ Hok1) as [Hok2 H2]. split; [done|].
  intros a Ha. destruct (H1 a Ha) as (a1 & Ha1 & P1). destruct (H2 a1 Ha1) as (a2 & Ha2 & P2).
  exists a2. split; [done|]. intros r. by transitivity (accepted r a1).
Qed.

(** What the channel yields was sent. *)
Definition truthful_answers (answers : list (RecvAnswer V)) h : Prop :=
  forall e, Received e ∈ answers -> e ∈ h_sent h.

(** ** One call of the subscriber *)

(** [es] is the run's log, now or later. *)
Record following (es : list (EventEnvelope V)) s : Prop := {
  fo_replay : is_replay s `prefix_of` drop (N.to_nat (is_last_sequence s)) es;
  fo_last : is_last_sequence s <= N.of_nat (length es);
}.

Definition advanced (es : list (EventEnvelope V)) s (out : RecvResult (V:=V)) : Prop :=
  let s' := out.1 in
  following es s' /\ is_run_id s' = is_run_id s /\ is_replay_through s' = is_replay_through s
  /\ is_replay_batch_size s' = is_replay_batch_size s
  /\ match out.2 with
     | Some (Ok e) => es !! N.to_nat (is_last_sequence s) = Some e
         /\ is_last_sequence s' = is_last_sequence s + 1
     | _ => is_last_sequence s' = is_last_sequence s
     end.

Lemma accept_advances es s e q :
  (forall i e, es !! i = Some e -> ev_sequence e = N.of_nat i + 1) -> N.of_nat (length es) < i64_max ->
  e ∈ es -> is_replay s = e :: q \/ is_replay s = q /\ q = [] -> following es s ->
  advanced es s (accept (with_replay s q) e).
Proof.
  intros Hseq Hlen (i & Hi)%list_elem_of_lookup Hq [Hpre Hlast]. unfold accept.
  cbn [with_replay is_last_sequence]. rewrite (Hseq _ _ Hi).
  pose proof (lookup_lt_Some _ _ _ Hi) as Hil. assert (i64_max < u64_max) as Hmax by done.
  destruct (N.eqb_spec (N.of_nat i + 1) (saturating_add u64_max (is_last_sequence s) 1)) as [E|E]; cbn.
  - assert (N.to_nat (is_last_sequence s) = i) as Ei by (unfold saturating_add in E; lia).
    unfold advanced. cbn. rewrite Ei. split; [|split_and!; [done..|lia]].
    split; cbn; [|lia]. replace (N.to_nat (N.of_nat i + 1)) with (S i) by lia.
    destruct Hq as [Hq|[Hq ->]]; [|by apply prefix_nil].
    rewrite Hq, Ei, (drop_S _ e) in Hpre by done. by apply prefix_cons_inv_2 in Hpre.
  - unfold advanced. cbn. split; [|done]. split; cbn; [|done].
    destruct Hq as [Hq|[Hq ->]]; [|by apply prefix_nil].
    exfalso. apply E. rewrite Hq in Hpre. destruct Hpre as [k Hk].
    assert (es !! N.to_nat (is_last_sequence s) = Some e) as Hl.
    { replace (N.to_nat (is_last_sequence s)) with (N.to_nat (is_last_sequence s) + 0)%nat by lia.
      by rewrite <-lookup_drop, Hk. }
    pose proof (Hseq _ _ Hi) as E1. rewrite (Hseq _ _ Hl) in E1. unfold saturating_add.
    apply lookup_lt_Some in Hl. lia.
Qed.

Lemma terminate_advances es s e : following es s -> advanced es s (terminate s, Some (Err e)).
Proof. intros [H1 H2]. unfold advanced. by split_and!. Qed.

Lemma recv_live_advances es s answers :
  (forall i e, es !! i = Some e -> ev_sequence e = N.of_nat i + 1) -> N.of_nat (length es) < i64_max ->
  (forall e, Received e ∈ answers -> ev_run_id e = is_run_id s -> e ∈ es) ->
  is_replay s = [] -> following es s -> advanced es s (recv_live s answers).
Proof.
  intros Hseq Hlen Hin Hq Hf. induction answers as [|[e|n|] answers IH]; cbn; [done| |by apply terminate_advances..].
  destruct (String.eqb_spec (ev_run_id e) (is_run_id s)) as [Er|Er]; cbn; [|apply IH; set_solver].
  destruct (_ <=? _); [apply IH; set_solver|].
  replace (accept s e) with (accept (with_replay s []) e) by (rewrite <-Hq; by destruct s).
  apply accept_advances; try done; [apply Hin; [left|done]|by right].
Qed.

Lemma take_through_prefix n (es : list (EventEnvelope V)) : take_through n es `prefix_of` es.
Proof.
  induction es as [|e es IH]; [done|]. cbn. destruct (_ <=? _); [by apply prefix_cons|by apply prefix_nil].
Qed.

Lemma take_prefix {A} n (xs : list A) : take n xs `prefix_of` xs.
Proof. exists (drop n xs). by rewrite take_drop. Qed.

Lemma prefix_drop_elem {A} (x : A) q n (xs : list A) : x :: q `prefix_of` drop n xs -> x ∈ xs.
Proof. intros [k Hk]. rewrite <-(take_drop n xs), Hk. set_solver. Qed.

(** One call: either the next event of the log, or nothing. *)
Lemma recv_advances l a gs s answers : represents l a ->
  accepted (is_run_id s) a `prefix_of` gs -> N.of_nat (length gs) < i64_max ->
  (forall e, Received e ∈ answers -> ev_run_id e = is_run_id s -> e ∈ envelopes gs) ->
  following (envelopes gs) s -> advanced (envelopes gs) s (recv l answers s).
Proof.
  intros Hr Hp Hlen Hin Hf. set (es := envelopes gs) in *.
  assert (forall i e, es !! i = Some e -> ev_sequence e = N.of_nat i + 1) as Hseq by apply envelopes_lookup.
  assert (N.of_nat (length es) < i64_max) as Hes by (unfold es, envelopes; by rewrite length_imap).
  unfold recv. destruct (is_terminated s); [done|]. destruct (is_replay s) as [|e q] eqn:Hq.
  - destruct (_ <? _); [|by apply recv_live_advances].
    unfold events_after. destruct (_ =? 0); [by apply terminate_advances|].
    destruct (interaction_i64 (is_last_sequence s)) as [n|] eqn:Hn; [|by apply terminate_advances].
    unfold interaction_i64 in Hn. destruct (_ <=? _) in Hn; [|done]. injection Hn as <-.
    cbn [mbind result_bind]. destruct (interaction_i64 _) as [m|]; [|by apply terminate_advances]. cbn [map_err mbind result_bind].
    rewrite (later_accepted _ _ _ _ Hr). set (batch := take _ _).
    assert (take_through (is_replay_through s) batch `prefix_of` drop (N.to_nat (is_last_sequence s)) es) as Hb.
    { etransitivity; [apply take_through_prefix|]. etransitivity; [apply take_prefix|].
      destruct (envelopes_prefix _ _ Hp) as [k Hk]. unfold es. rewrite Hk, drop_app. by apply prefix_app_r. }
    destruct (take_through _ batch) as [|e q]; [by apply terminate_advances|].
    change (advanced es s (accept (with_replay (with_replay s (e :: q)) q) e)).
    assert (following es (with_replay s (e :: q))) as Hf' by (split; [done|apply (fo_last _ _ Hf)]).
    destruct (accept_advances es (with_replay s (e :: q)) e q Hseq Hes) as (A1 & A2 & A3 & A4 & A5);
      [|by left|done|by split_and!].
    by eapply prefix_drop_elem.
  - apply accept_advances; try done; [|by left].
    destruct Hf as [Hpre _]. rewrite Hq in Hpre. by eapply prefix_drop_elem.
Qed.


(** ** A subscription *)

Fixpoint truthful_script (script : list (list HubStep * list (RecvAnswer V))) h : Prop :=
  match script with
  | [] => True
  | (steps, answers) :: script =>
      truthful_answers answers (hub_steps steps h) /\ truthful_script script (hub_steps steps h)
  end.

Lemma drop_S_lookup {A} (xs : list A) n x k : xs !! n = Some x ->
  x :: take k (drop (S n) xs) = take (S k) (drop n xs).
Proof. intros Hx. by rewrite (drop_S _ x n Hx). Qed.

(** Nothing but the log from the cursor on, in order and without a gap. *)
Lemma listen_delivers script : forall h s a, hub_ok h -> represents (h_store h) a ->
  following (envelopes (accepted (is_run_id s) a)) s -> truthful_script script h ->
  let '(delivered, h', s') := listen script h s in
  hub_ok h' /\ exists a', represents (h_store h') a'
  /\ (forall r, accepted r a `prefix_of` accepted r a')
  /\ following (envelopes (accepted (is_run_id s) a')) s'
  /\ is_run_id s' = is_run_id s /\ is_replay_through s' = is_replay_through s
  /\ is_replay_batch_size s' = is_replay_batch_size s
  /\ is_last_sequence s' = is_last_sequence s + N.of_nat (length delivered)
  /\ delivered = take (length delivered)
       (drop (N.to_nat (is_last_sequence s)) (envelopes (accepted (is_run_id s) a'))).
Proof.
  induction script as [|[steps answers] script IH]; intros h s a Hok Ha Hf Ht; cbn [listen].
  { split; [done|]. exists a. split_and!; try done. cbn. lia. }
  destruct Ht as [Htr Ht]. destruct (hub_steps_ok steps h Hok) as [Hok1 Hstep].
  destruct (Hstep a Ha) as (a1 & Ha1 & P1). set (h1 := hub_steps steps h) in *.
  assert (following (envelopes (accepted (is_run_id s) a1)) s) as Hf1.
  { destruct (envelopes_prefix _ _ (P1 (is_run_id s))) as [k Ek]. destruct Hf as [F1 F2]. split.
    - etransitivity; [exact F1|]. rewrite Ek, drop_app. by apply prefix_app_r.
    - rewrite Ek, length_app. lia. }
  pose proof (recv_advances (h_store h1) a1 (accepted (is_run_id s) a1) s answers Ha1 ltac:(done)
    (rp_bound _ _ Ha1 _)) as Hadv.
  destruct (recv (h_store h1) answers s) as [s1 r]. destruct Hadv as (A1 & A2 & A3 & A4 & A5); [|done|].
  { intros e He Er. destruct Hok1 as (a0 & Ha0 & Hall). specialize (Htr e He).
    rewrite Forall_forall in Hall. specialize (Hall e ltac:(set_solver)). unfold in_history in Hall.
    rewrite Er in Hall. by rewrite <-(events_accepted _ _ _ Ha0), (events_accepted _ _ _ Ha1) in Hall. }
  cbn [fst snd] in *. specialize (IH h1 s1 a1 Hok1 Ha1). rewrite A2 in IH. specialize (IH A1 Ht).
  destruct (listen script h1 s1) as [[delivered h2] s2].
  destruct IH as (Hok2 & a2 & Ha2 & P2 & F2 & I1 & I2 & I3 & I4 & I5).
  split; [done|]. exists a2. split; [done|]. split; [intros r0; by transitivity (accepted r0 a1)|].
  split; [done|]. split_and!; [done|congruence|congruence|..].
  - destruct r as [[e|e]|]; cbn [length]; [destruct A5 as [_ A5]|..]; lia.
  - destruct r as [[e|e]|]; [|by rewrite <-A5..]. destruct A5 as [He A5].
    cbn [length]. rewrite <-drop_S_lookup with (x := e).
    + f_equal. rewrite I5 at 1. f_equal. f_equal. lia.
    + eapply prefix_lookup_Some; [exact He|]. by apply envelopes_prefix.
Qed.

(** While history is left a call returns the next event of it. *)
Lemma recv_replays l a s answers : represents l a ->
  following (envelopes (accepted (is_run_id s) a)) s ->
  is_terminated s = false -> is_last_sequence s < is_replay_through s ->
  is_replay_through s <= N.of_nat (length (accepted (is_run_id s) a)) ->
  0 < is_replay_batch_size s <= i64_max ->
  exists e s', recv l answers s = (s', Some (Ok e)).
Proof.
  intros Hr [Hpre Hlast] Ht Hlt Hthrough Hbatch. set (es := envelopes _) in *.
  pose proof (rp_bound _ _ Hr (is_run_id s)) as Hbound. assert (i64_max < u64_max) as Hmax by done.
  assert (length es = length (accepted (is_run_id s) a)) as Hes by (unfold es, envelopes; by rewrite length_imap).
  unfold recv. rewrite Ht.
  assert (forall e s', es !! N.to_nat (is_last_sequence s) = Some e -> is_last_sequence s' = is_last_sequence s ->
    exists e' s'', accept s' e = (s'', Some (Ok e'))) as Haccept.
  { intros e s' He El. unfold accept. rewrite (envelopes_lookup _ _ _ He), El.
    assert (saturating_add u64_max (is_last_sequence s) 1 = N.of_nat (N.to_nat (is_last_sequence s)) + 1) as ->
      by (unfold saturating_add; lia).
    rewrite N.eqb_refl. cbn. eauto. }
  destruct (is_replay s) as [|e q] eqn:Hq.
  - destruct (N.ltb_spec (is_last_sequence s) (is_replay_through s)) as [_|]; [|lia].
    unfold events_after. destruct (N.eqb_spec (is_replay_batch_size s) 0); [lia|].
    rewrite (i64_below (is_last_sequence s)) by (apply N.leb_le; lia).
    rewrite (i64_below (is_replay_batch_size s)) by (apply N.leb_le; lia). cbn [mbind result_bind map_err].
    rewrite (later_accepted _ _ _ _ Hr). fold es.
    destruct (es !! N.to_nat (is_last_sequence s)) as [e|] eqn:He;
      [|apply lookup_ge_None in He; lia].
    rewrite (drop_S _ e _ He). destruct (N.to_nat (is_replay_batch_size s)) as [|size] eqn:En; [lia|]. cbn [take take_through].
    rewrite (envelopes_lookup _ _ _ He).
    destruct (N.leb_spec (N.of_nat (N.to_nat (is_last_sequence s)) + 1) (is_replay_through s)); [|lia].
    by apply Haccept.
  - apply Haccept; [|done]. destruct Hpre as [k Hk].
    replace (N.to_nat (is_last_sequence s)) with (N.to_nat (is_last_sequence s) + 0)%nat by lia.
    by rewrite <-lookup_drop, Hk.
Qed.

Lemma hub_new_ok ops cap batch h :
  hub_new (run_interactions ops log_empty) cap batch = Ok h ->
  hub_ok h /\ h_replay_batch_size h = batch /\ 0 < batch.
Proof.
  unfold hub_new. destruct (N.eqb_spec cap 0), (N.eqb_spec batch 0); cbn; try done. intros [= <-].
  split; [|split; [done|lia]]. destruct (interactions_reachable ops) as [a Ha]. exists a. split; [done|constructor].
Qed.

Lemma hub_steps_batch xs h : h_replay_batch_size (hub_steps xs h) = h_replay_batch_size h.
Proof.
  revert h. induction xs as [|x xs IH]; intros h; [done|].
  change (hub_steps (x :: xs) h) with (hub_steps xs (hub_step x h)). rewrite IH.
  destruct x; cbn; [done| |done]. unfold hub_publish. by destruct (_ !! _).
Qed.

(** C21 A subscriber receives the run's durable log from its cursor on:
    whatever else happens to the hub meanwhile, in whatever order the calls
    in progress publish, and whatever part of what was sent the channel
    delivers, loses or repeats, the events received are consecutive events
    of the log, each exactly once and in order.  No history is lost at the
    hand-over: as long as events stored before the subscription are left,
    every call returns the next one. *)
Theorem subscription_delivers ops cap batch h0 setup run after h s script :
  hub_new (run_interactions ops log_empty) cap batch = Ok h0 -> batch <= i64_max ->
  hub_subscribe run after (hub_steps setup h0) = (h, Ok s) ->
  truthful_script script h ->
  let '(delivered, h', s') := listen script h s in
  delivered = take (length delivered) (drop (N.to_nat after) (events run (h_store h')))
  /\ (is_terminated s' = false -> after + N.of_nat (length delivered) < is_replay_through s ->
      forall answers, exists e s'', recv (h_store h') answers s' = (s'', Some (Ok e)))
  /\ is_replay_through s = N.of_nat (length (events run (h_store h))).
Proof.
  intros (Hok & Hbatch & Hpos)%hub_new_ok Hmax Hsub Ht.
  destruct (hub_steps_ok setup h0 Hok) as [Hok1 _].
  destruct (hub_step_ok (HubSubscribe run after) _ Hok1) as [Hok2 _].
  pose proof (hub_steps_batch setup h0) as Eb. cbn [hub_step] in Hok2. rewrite Hsub in Hok2. cbn [fst] in Hok2.
  unfold hub_subscribe in Hsub. cbn zeta in Hsub. cbn [h_store h_replay_batch_size] in Hsub.
  destruct (N.ltb_spec (default 0 (latest_sequence run (h_store (hub_steps setup h0)))) after) as [|Hle]; [discriminate|].
  injection Hsub as <- <-. set (h := MkHub _ _ _ _ _ _) in *.
  destruct Hok2 as (a & Ha & Hall).
  assert (default 0 (latest_sequence run (h_store (hub_steps setup h0))) = N.of_nat (length (accepted run a))) as Elatest.
  { change (h_store (hub_steps setup h0)) with (h_store h). rewrite (latest_accepted _ _ _ Ha). by destruct (accepted run a). }
  rewrite Elatest in *.
  set (s := MkSubscription run after _ _ _ _) in *.
  assert (following (envelopes (accepted (is_run_id s) a)) s) as Hf.
  { split; cbn; [apply prefix_nil|]. unfold envelopes. rewrite length_imap. lia. }
  pose proof (listen_delivers script h s a ltac:(by exists a) Ha Hf Ht) as Hd.
  destruct (listen script h s) as [[delivered h'] s'].
  destruct Hd as (_ & a' & Ha' & P & F & I1 & I2 & I3 & I4 & I5). cbn in I1, I2, I3, I4, I5.
  rewrite (events_accepted _ _ _ Ha'), (events_accepted _ _ _ Ha). split; [done|]. split.
  - intros Hterm Hlt answers. apply (recv_replays _ a'); rewrite ?I1, ?I2, ?I3, ?I4; try done.
    + cbn. destruct (P run) as [k ->]. rewrite length_app. lia.
    + rewrite Eb, Hbatch. lia.
  - cbn. unfold envelopes. by rewrite length_imap.
Qed.

(** Publication is not ordered by the store: when two calls store two
    events of a run in succession and the second publishes first, a
    subscriber that had everything so far is ended with a sequence gap
    although the log has none. *)
Theorem reordered_publication_ends_subscription ops cap batch h0 key1 frame1 key2 frame2 e1 e2 s :
  let run := is_run_id s in
  hub_new (run_interactions ops log_empty) cap batch = Ok h0 ->
  let h := (hub_subscribe run 0 h0).1 in
  stored_outcome (AppendEvent key1 frame1) (h_store h) = Some (Inserted e1) ->
  stored_outcome (AppendEvent key2 frame2) (h_store (hub_store (AppendEvent key1 frame1) h)) = Some (Inserted e2) ->
  pe_run_id frame1 = run -> pe_run_id frame2 = run ->
  is_terminated s = false -> is_replay s = [] -> is_replay_through s <= is_last_sequence s ->
  is_last_sequence s = N.of_nat (length (events run (h_store h))) ->
  let h' := hub_steps [HubStore (AppendEvent key1 frame1); HubStore (AppendEvent key2 frame2);
                       HubPublish 1; HubPublish 0] h in
  h_sent h' = [e2; e1]
  /\ events run (h_store h') = events run (h_store h) ++ [e1; e2]
  /\ recv (h_store h') (Received <$> h_sent h') s
     = (terminate s, Some (Err (SequenceGap (is_last_sequence s + 1) (is_last_sequence s + 2)))).
Proof.
  intros run Hnew h H1 H2 R1 R2 Ht Hq Hthrough Hlast h'.
  assert (h_unpublished h = [] /\ h_sent h = [] /\ run ∈ h_live h) as (Hu & Hs & Hl).
  { unfold hub_new in Hnew. destruct (_ || _); [done|]. injection Hnew as <-. cbn. split_and!; [done|done|set_solver]. }
  apply hub_new_ok in Hnew as (Hok & _). destruct Hok as (a & Ha & _).
  change (h_store h0) with (h_store h) in Ha. clearbody h.
  destruct (stored_outcome_inserted _ _ _ _ Ha H1) as (a1 & Ha1 & P1 & E1).
  destruct (stored_outcome_inserted _ _ _ _ Ha1 H2) as (a2 & Ha2 & P2 & E2).
  assert (forall key frame l e, stored_outcome (AppendEvent key frame) l = Some (Inserted e) ->
    ev_run_id e = pe_run_id frame) as Hrun.
  { intros key frame l e E. cbn in E. destruct (append key frame l) as [[o l']|] eqn:Ea; [|done].
    injection E as ->. unfold append in Ea. apply result_bind_Ok in Ea as ([] & _ & Ea).
    unfold append_transaction in Ea. destruct (event_by_key _ _ _); [by case_bool_decide|].
    apply result_bind_Ok in Ea as (? & _ & Ea). apply guard_bind_Ok in Ea as [_ Ea].
    apply result_bind_Ok in Ea as (? & _ & Ea). by injection Ea as <- _. }
  pose proof (Hrun _ _ _ _ H1) as Er1. pose proof (Hrun _ _ _ _ H2) as Er2. rewrite R1 in Er1. rewrite R2 in Er2.
  rewrite Er1 in E1. rewrite Er2 in E2.
  assert (h' = MkHub (run_interaction (AppendEvent key2 frame2) (run_interaction (AppendEvent key1 frame1) (h_store h)))
    (h_live h) [] [e2; e1] (h_live_capacity h) (h_replay_batch_size h)) as Eh'.
  { unfold h', hub_steps. cbn [foldl hub_step]. unfold hub_store at 1. rewrite H2.
    unfold hub_store in *. rewrite H1 in *. rewrite Hu. cbn [h_unpublished app].
    unfold hub_publish at 2. cbn [h_unpublished lookup list_lookup h_live].
    rewrite bool_decide_eq_true_2 by by rewrite Er2. cbn [h_store h_live h_unpublished h_sent].
    unfold hub_publish. cbn [h_unpublished lookup list_lookup delete list_delete h_live].
    rewrite bool_decide_eq_true_2 by by rewrite Er1. cbn. by rewrite Hs. }
  rewrite Eh'. cbn [h_sent h_store]. split; [done|].
  rewrite (events_accepted _ _ _ Ha2), (events_accepted _ _ _ Ha), E2, E1, <-app_assoc. split; [done|].
  unfold recv. rewrite Ht, Hq. destruct (N.ltb_spec (is_last_sequence s) (is_replay_through s)); [lia|].
  cbn [fmap list_fmap recv_live]. fold run. rewrite Er2, String.eqb_refl. cbn [negb].
  rewrite (events_accepted _ _ _ Ha) in Hlast. set (es := envelopes (accepted run a)) in *.
  assert (ev_sequence e2 = is_last_sequence s + 2) as Eseq.
  { assert (envelopes (accepted run a2) !! S (length es) = Some e2) as Hi.
    { rewrite E2, E1, <-app_assoc, lookup_app_r by lia. by replace (S (length es) - length es)%nat with 1%nat by lia. }
    rewrite (envelopes_lookup _ _ _ Hi), Hlast. lia. }
  rewrite Eseq. destruct (N.leb_spec (is_last_sequence s + 2) (is_last_sequence s)); [lia|].
  unfold accept. rewrite Eseq.
  assert (saturating_add u64_max (is_last_sequence s) 1 = is_last_sequence s + 1) as ->.
  { pose proof (rp_bound _ _ Ha run). unfold saturating_add. assert (i64_max < u64_max) by done.
    unfold es, envelopes in Hlast. rewrite length_imap in Hlast. lia. }
  destruct (N.eqb_spec (is_last_sequence s + 2) (is_last_sequence s + 1)); [lia|]. done.
Qed.

End theorems.

(** ** Samples *)

Module Sample.

Definition frame (text : string) : ProducerEvent unit :=
  producer_event_new 7 "run-1" (MkProducer "alloyport-worker" "worker-1") (Warning text).
Definition log : InteractionLog unit := run_interactions [AppendEvent "key-1" (frame "one")] log_empty.
Definition hub0 : InteractionHub unit := MkHub log ∅ [] [] 1024 256.
Definition hub : InteractionHub unit := (hub_subscribe "run-1" 0 hub0).1.
Definition subscription : InteractionSubscription unit := MkSubscription "run-1" 0 1 256 [] false.
Definition script : list (list HubStep * list (RecvAnswer unit)) :=
  [([], []);
   ([HubStore (AppendEvent "key-2" (frame "two")); HubPublish 0], [Received (envelope_of 2 (frame "two"))])].

Lemma subscription_delivers_witness :
  let '(delivered, h', s') := listen script hub subscription in
  length delivered = 2%nat
  /\ delivered = take (length delivered) (drop 0 (events "run-1" (h_store h'))).
Proof.
  pose proof (subscription_delivers [AppendEvent "key-1" (frame "one")] 1024 256 hub0 [] "run-1" 0 hub
    subscription script) as H.
  assert (length (listen script hub subscription).1.1 = 2%nat) as Hlen by (vm_compute; reflexivity).
  destruct (listen script hub subscription) as [[delivered h'] s'].
  split; [exact Hlen|]. apply H; [vm_compute; reflexivity|vm_compute; discriminate|vm_compute; reflexivity|].
  split; [|split; [|exact I]].
  - intros e He. by apply elem_of_nil in He.
  - intros e He%list_elem_of_singleton. injection He as ->.
    assert (h_sent (hub_steps [HubStore (AppendEvent "key-2" (frame "two")); HubPublish 0] (hub_steps [] hub))
      = [envelope_of 2 (frame "two")]) as -> by (vm_compute; reflexivity).
    by apply list_elem_of_singleton.
Defined.

Lemma reordered_publication_ends_subscription_witness :
  let h' := hub_steps [HubStore (AppendEvent "key-2" (frame "two")); HubStore (AppendEvent "key-3" (frame "three"));
                       HubPublish 1; HubPublish 0] hub in
  exists s, recv (h_store h') (Received <$> h_sent h') s = (terminate s, Some (Err (SequenceGap 2 3))).
Proof.
  exists (MkSubscription "run-1" 1 1 256 [] false).
  destruct (reordered_publication_ends_subscription [AppendEvent "key-1" (frame "one")] 1024 256 hub0
    "key-2" (frame "two") "key-3" (frame "three") (envelope_of 2 (frame "two")) (envelope_of 3 (frame "three"))
    (MkSubscription "run-1" 1 1 256 [] false)) as (_ & _ & H);
    [vm_compute; reflexivity..|vm_compute; discriminate|vm_compute; reflexivity|].
  exact H.
Defined.

End Sample.
