(* ===== verification/MigrationTasks.v ===== *)
(** * Migration tasks

    [src/crates/alloyport-server/src/migration_task.rs] and the adapter
    [adapters/sqlite/migration_task_store.rs]: the durable queue of what the
    operators submitted.  The table is a finite map on its primary key; an
    operation returns the table along with its answer, since [cancel] and
    [resume] commit before they read the row back.  Failures of SQLite
    itself are left out; the primary key and what a column can hold are
    written out. *)

From stdpp Require Import base strings gmap list sorting relations.
From S2P Require Import Prelude Text Digest.

Local Open Scope N_scope.

(** ** Data *)

Module Task.

(** [enum MigrationTaskState]. *)
Inductive MigrationTaskState := Captured | Running | Completed | Failed | Cancelled.

(** The codes of [repr(i64)]. *)
Definition state_code (s : MigrationTaskState) : Z :=
  match s with Captured => 1 | Running => 2 | Completed => 3 | Failed => 4 | Cancelled => 5 end.

(** [enum MigrationTaskError]; the texts of [Corrupt] are dropped. *)
Inductive MigrationTaskError := Storage | Conflict | NotFound | Corrupt.

End Task.
Abbreviation TError := Task.MigrationTaskError.
Abbreviation TaskState := Task.MigrationTaskState.

#[export] Instance MigrationTaskState_eq_dec : EqDecision TaskState.
Proof. solve_decision. Defined.

(** [struct MigrationTaskRecord]. *)
Record MigrationTaskRecord := MkTask {
  mt_owner_id : string;
  mt_task_id : string;
  mt_project_name : string;
  mt_project_digest : Sha256Digest;
  mt_project_size_bytes : N;
  mt_file_count : N;
  mt_state : TaskState;
  mt_created_at_ms : N;
}.

(** [struct MigrationTaskSubmission]. *)
Record MigrationTaskSubmission := MkSubmission {
  ms_owner_id : string;
  ms_request_id : string;
  ms_task_id : string;
  ms_project_name : string;
  ms_project_digest : Sha256Digest;
  ms_project_size_bytes : N;
  ms_file_count : N;
  ms_created_at_ms : N;
}.

(** A row of [migration_tasks] without its key, the columns as stored. *)
Record TaskRow := MkTaskRow {
  tr_owner_id : string;
  tr_request_id : string;
  tr_project_name : string;
  tr_project_digest : string;
  tr_project_size_bytes : Z;
  tr_file_count : Z;
  tr_state : Z;
  tr_created_at_ms : Z;
}.

#[export] Instance TaskRow_eq_dec : EqDecision TaskRow.
Proof. solve_decision. Defined.

Abbreviation TaskTable := (gmap string TaskRow).

(** [SET state = ..]. *)
Definition with_task_state (s : TaskState) (row : TaskRow) : TaskRow :=
  MkTaskRow (tr_owner_id row) (tr_request_id row) (tr_project_name row) (tr_project_digest row)
    (tr_project_size_bytes row) (tr_file_count row) (Task.state_code s) (tr_created_at_ms row).

(** ** Columns *)

(** [decode_state]. *)
Definition decode_state (state : Z) : result TError TaskState :=
  match state with
  | 1 => Ok Task.Captured
  | 2 => Ok Task.Running
  | 3 => Ok Task.Completed
  | 4 => Ok Task.Failed
  | 5 => Ok Task.Cancelled
  | _ => Err Task.Storage
  end%Z.

(** [to_i64], [usize_to_i64] and [from_i64]. *)
Definition task_to_i64 (value : N) : result TError Z :=
  if value <=? i64_max then Ok (Z.of_N value) else Err Task.Corrupt.

Definition task_from_i64 (value : Z) : result TError N :=
  if (0 <=? value)%Z then Ok (Z.to_N value) else Err Task.Storage.

(** [row_to_record] and [row_to_claimed_record]: the first leaves the owner
    empty. *)
Definition row_to_record (task_id : string) (row : TaskRow) : result TError MigrationTaskRecord :=
  project_digest ← map_err (fun _ => Task.Storage) (digest_from_str (tr_project_digest row));
  project_size_bytes ← task_from_i64 (tr_project_size_bytes row);
  file_count ← task_from_i64 (tr_file_count row);
  state ← decode_state (tr_state row);
  created_at_ms ← task_from_i64 (tr_created_at_ms row);
  Ok (MkTask EmptyString task_id (tr_project_name row) project_digest project_size_bytes file_count state created_at_ms).

Definition with_task_owner (owner_id : string) (record : MigrationTaskRecord) : MigrationTaskRecord :=
  MkTask owner_id (mt_task_id record) (mt_project_name record) (mt_project_digest record)
    (mt_project_size_bytes record) (mt_file_count record) (mt_state record) (mt_created_at_ms record).

Definition row_to_claimed_record (task_id : string) (row : TaskRow) : result TError MigrationTaskRecord :=
  record ← row_to_record task_id row;
  Ok (with_task_owner (tr_owner_id row) record).

(** ** Selections *)

Definition rows_where (p : TaskRow -> bool) (t : TaskTable) : list (string * TaskRow) :=
  filter (fun kr => p kr.2 = true) (map_to_list t).

(** [select_by_request]; the pair is unique in the table. *)
Definition select_by_request (owner_id request_id : string) (t : TaskTable) : option (string * TaskRow) :=
  head (rows_where (fun row => bool_decide (tr_owner_id row = owner_id) && bool_decide (tr_request_id row = request_id)) t).

(** [select_by_id]. *)
Definition select_by_id (owner_id task_id : string) (t : TaskTable) : result TError (option MigrationTaskRecord) :=
  match t !! task_id with
  | Some row =>
      if bool_decide (tr_owner_id row = owner_id) then
        record ← row_to_record task_id row;
        Ok (Some record)
      else Ok None
  | None => Ok None
  end.

(** [select_by_id(..)?.ok_or(MigrationTaskError::NotFound)]. *)
Definition task_get (owner_id task_id : string) (t : TaskTable) : result TError MigrationTaskRecord :=
  record ← select_by_id owner_id task_id t;
  ok_or record Task.NotFound.

(** [ORDER BY created_at_ms DESC, task_id DESC]. *)
Definition newest_first (a b : string * TaskRow) : comparison :=
  then_compare (Z.compare (tr_created_at_ms b.2) (tr_created_at_ms a.2)) (String.compare b.1 a.1).

(** [MigrationTaskStore::list]. *)
Definition task_list (owner_id : string) (limit : N) (t : TaskTable) : result TError (list MigrationTaskRecord) :=
  limit ← task_to_i64 limit;
  mapM (fun kr => row_to_record kr.1 kr.2)
    (take (Z.to_nat limit) (sort_by newest_first (rows_where (fun row => bool_decide (tr_owner_id row = owner_id)) t))).

(** ** Operations *)

(** [MigrationTaskStore::submit]. *)
Definition task_submit (s : MigrationTaskSubmission) (t : TaskTable) : TaskTable * result TError MigrationTaskRecord :=
  match select_by_request (ms_owner_id s) (ms_request_id s) t with
  | Some (task_id, row) =>
      (t, existing ← row_to_record task_id row;
          if bool_decide (mt_task_id existing = ms_task_id s)
             && bool_decide (mt_project_name existing = ms_project_name s)
             && bool_decide (mt_project_digest existing = ms_project_digest s)
             && (mt_project_size_bytes existing =? ms_project_size_bytes s)
             && (mt_file_count existing =? ms_file_count s)
          then Ok existing else Err Task.Conflict)
  | None =>
      match
        (size ← task_to_i64 (ms_project_size_bytes s);
         files ← task_to_i64 (ms_file_count s);
         created ← task_to_i64 (ms_created_at_ms s);
         _ ← guard_err (bool_decide (is_Some (t !! ms_task_id s))) Task.Storage;
         let t' := <[ms_task_id s := MkTaskRow (ms_owner_id s) (ms_request_id s) (ms_project_name s)
                       (digest_display (ms_project_digest s)) size files (Task.state_code Task.Captured) created]> t in
         found ← select_by_id (ms_owner_id s) (ms_task_id s) t';
         record ← ok_or found Task.Corrupt;
         Ok (record, t'))
      with
      | Ok (record, t') => (t', Ok record)
      | Err e => (t, Err e)
      end
  end.

(** [UPDATE migration_tasks SET state = .. WHERE ..]: the rows it changed,
    of one key. *)
Definition update_state (task_id : string) (p : TaskRow -> bool) (s : TaskState) (t : TaskTable) : TaskTable * bool :=
  match t !! task_id with
  | Some row => if p row then (<[task_id := with_task_state s row]> t, true) else (t, false)
  | None => (t, false)
  end.

Definition state_is (s : TaskState) (row : TaskRow) : bool := (tr_state row =? Task.state_code s)%Z.
Definition owned_by (owner_id : string) (row : TaskRow) : bool := bool_decide (tr_owner_id row = owner_id).
(** [state IN (Captured, Running)]. *)
Definition open_task (row : TaskRow) : bool := state_is Task.Captured row || state_is Task.Running row.

(** [MigrationTaskStore::cancel]. *)
Definition task_cancel (owner_id task_id : string) (t : TaskTable) : TaskTable * result TError MigrationTaskRecord :=
  let '(t, _) := update_state task_id (fun row => owned_by owner_id row && open_task row) Task.Cancelled t in
  (t, task_get owner_id task_id t).

(** [ORDER BY CASE state WHEN Running THEN 0 ELSE 1 END, created_at_ms,
    task_id]. *)
Definition claim_rank (row : TaskRow) : Z := if state_is Task.Running row then 0 else 1.
Definition claim_order (a b : string * TaskRow) : comparison :=
  then_compare (Z.compare (claim_rank a.2) (claim_rank b.2))
    (then_compare (Z.compare (tr_created_at_ms a.2) (tr_created_at_ms b.2)) (String.compare a.1 b.1)).

(** The queue, in the order in which it is served. *)
Definition task_queue (t : TaskTable) : list (string * TaskRow) := sort_by claim_order (rows_where open_task t).

Definition with_running (record : MigrationTaskRecord) : MigrationTaskRecord :=
  MkTask (mt_owner_id record) (mt_task_id record) (mt_project_name record) (mt_project_digest record)
    (mt_project_size_bytes record) (mt_file_count record) Task.Running (mt_created_at_ms record).

(** [MigrationTaskStore::claim_next]. *)
Definition task_claim_next (t : TaskTable) : TaskTable * result TError (option MigrationTaskRecord) :=
  match head (task_queue t) with
  | None => (t, Ok None)
  | Some (task_id, row) =>
      match row_to_claimed_record task_id row with
      | Err e => (t, Err e)
      | Ok record =>
          if bool_decide (mt_state record = Task.Captured) then
            ((update_state (mt_task_id record) (state_is Task.Captured) Task.Running t).1, Ok (Some (with_running record)))
          else (t, Ok (Some record))
      end
  end.

(** [MigrationTaskStore::finish]. *)
Definition task_finish (task_id : string) (state : TaskState) (t : TaskTable) : TaskTable * result TError unit :=
  match state with
  | Task.Completed | Task.Failed => ((update_state task_id (state_is Task.Running) state t).1, Ok tt)
  | _ => (t, Err Task.Corrupt)
  end.

(** [MigrationTaskStore::resume]. *)
Definition task_resume (owner_id task_id : string) (t : TaskTable) : TaskTable * result TError MigrationTaskRecord :=
  let '(t, changed) := update_state task_id (fun row => owned_by owner_id row && state_is Task.Failed row) Task.Captured t in
  if changed then (t, task_get owner_id task_id t) else (t, Err Task.Corrupt).

(** [MigrationTaskStore::is_cancelled]. *)
Definition task_is_cancelled (task_id : string) (t : TaskTable) : result TError bool :=
  row ← ok_or (t !! task_id) Task.NotFound;
  Ok (state_is Task.Cancelled row).

(** ** Histories *)

(** The calls that write, by whoever makes them. *)
Inductive TaskOp :=
| OpSubmit (s : MigrationTaskSubmission)
| OpCancel (owner_id task_id : string)
| OpClaim
| OpFinish (task_id : string) (state : TaskState)
| OpResume (owner_id task_id : string).

Definition run_task_op (op : TaskOp) (t : TaskTable) : TaskTable :=
  match op with
  | OpSubmit s => (task_submit s t).1
  | OpCancel owner_id task_id => (task_cancel owner_id task_id t).1
  | OpClaim => (task_claim_next t).1
  | OpFinish task_id state => (task_finish task_id state t).1
  | OpResume owner_id task_id => (task_resume owner_id task_id t).1
  end.

Definition run_task_ops (ops : list TaskOp) (t : TaskTable) : TaskTable := foldl (fun t op => run_task_op op t) t ops.

(** The lifecycle of a task. *)
Inductive task_moves : TaskState -> TaskState -> Prop :=
| move_claimed : task_moves Task.Captured Task.Running
| move_finished s : s = Task.Completed \/ s = Task.Failed -> task_moves Task.Running s
| move_cancelled s : s = Task.Captured \/ s = Task.Running -> task_moves s Task.Cancelled
| move_resumed : task_moves Task.Failed Task.Captured.

(** ** Rows *)

(** A row as the operations write it. *)
Record row_ok (row : TaskRow) : Prop := {
  ro_state : exists s, tr_state row = Task.state_code s;
  ro_digest : exists d, tr_project_digest row = digest_display d;
  ro_size : (0 <= tr_project_size_bytes row)%Z;
  ro_files : (0 <= tr_file_count row)%Z;
  ro_created : (0 <= tr_created_at_ms row)%Z;
}.

#[export] Instance state_code_inj : Inj (=) (=) Task.state_code.
Proof. by intros [] []. Qed.

Lemma decode_state_code s : decode_state (Task.state_code s) = Ok s.
Proof. by destruct s. Qed.

Lemma state_is_code s s' row : tr_state row = Task.state_code s' -> state_is s row = bool_decide (s' = s).
Proof. unfold state_is. intros ->. by destruct s, s'. Qed.

Lemma task_to_i64_Ok n z : task_to_i64 n = Ok z <-> n <= i64_max /\ z = Z.of_N n.
Proof. unfold task_to_i64. destruct (N.leb_spec n i64_max); naive_solver lia. Qed.

Lemma task_from_i64_Ok z : (0 <= z)%Z -> task_from_i64 z = Ok (Z.to_N z).
Proof. unfold task_from_i64. intros H. by rewrite (proj2 (Z.leb_le 0 z) H). Qed.

(** Reading a row that was written this way succeeds. *)
Lemma row_to_record_ok id row s d :
  row_ok row -> tr_state row = Task.state_code s -> tr_project_digest row = digest_display d ->
  row_to_record id row =
    Ok (MkTask EmptyString id (tr_project_name row) d (Z.to_N (tr_project_size_bytes row)) (Z.to_N (tr_file_count row))
          s (Z.to_N (tr_created_at_ms row))).
Proof.
  intros [_ _ H1 H2 H3] Hs Hd. unfold row_to_record. rewrite Hs, Hd, digest_from_str_display, decode_state_code.
  by rewrite !task_from_i64_Ok.
Qed.

Lemma row_ok_state s row : row_ok row -> row_ok (with_task_state s row).
Proof. intros []. split; cbn; eauto. Qed.
#[export] Hint Resolve row_ok_state : core.

Lemma with_task_state_twice s s' row : with_task_state s (with_task_state s' row) = with_task_state s row.
Proof. done. Qed.

Lemma with_task_state_same s row : tr_state row = Task.state_code s -> with_task_state s row = row.
Proof. destruct row; cbn. by intros ->. Qed.

(** What becomes of a row: only its state changes, along the lifecycle. *)
Definition row_after (row row' : TaskRow) : Prop :=
  exists s s', tr_state row = Task.state_code s /\ row' = with_task_state s' row /\ rtc task_moves s s'.

Lemma row_after_refl row : row_ok row -> row_after row row.
Proof. intros [[s Hs] _ _ _ _]. exists s, s. by rewrite with_task_state_same. Qed.

Lemma row_after_trans a b c : row_after a b -> row_after b c -> row_after a c.
Proof.
  intros (s1 & s2 & H1 & -> & R1) (s3 & s4 & H3 & -> & R2). cbn in H3. apply (inj _) in H3 as <-.
  exists s1, s4. split_and!; [done..|]. by etrans.
Qed.

Lemma row_after_once row s s' : tr_state row = Task.state_code s -> task_moves s s' -> row_after row (with_task_state s' row).
Proof. intros H M. exists s, s'. split_and!; [done..|]. by apply rtc_once. Qed.

(** ** The invariant of the table *)

Record task_inv (t : TaskTable) : Prop := {
  ti_rows : forall id row, t !! id = Some row -> row_ok row;
  ti_requests : forall id1 id2 row1 row2, t !! id1 = Some row1 -> t !! id2 = Some row2 ->
    tr_owner_id row1 = tr_owner_id row2 -> tr_request_id row1 = tr_request_id row2 -> id1 = id2;
  ti_running : forall id1 id2 row1 row2, t !! id1 = Some row1 -> t !! id2 = Some row2 ->
    tr_state row1 = Task.state_code Task.Running -> tr_state row2 = Task.state_code Task.Running -> id1 = id2;
}.

Definition task_later (t t' : TaskTable) : Prop :=
  forall id row, t !! id = Some row -> exists row', t' !! id = Some row' /\ row_after row row'.

Lemma task_later_refl t : task_inv t -> task_later t t.
Proof. intros Hi id row H. exists row. split; [done|]. eapply row_after_refl, ti_rows; eauto. Qed.

Lemma task_later_trans a b c : task_later a b -> task_later b c -> task_later a c.
Proof.
  intros H1 H2 id row (row1 & (row2 & H & R2)%H2 & R1)%H1. exists row2. split; [done|]. by eapply row_after_trans.
Qed.

(** A move of one row; a row that starts to run is the only one. *)
Lemma move_row t id row s s' :
  task_inv t -> t !! id = Some row -> tr_state row = Task.state_code s -> task_moves s s' ->
  (s' = Task.Running -> forall id2 row2, t !! id2 = Some row2 -> tr_state row2 <> Task.state_code Task.Running) ->
  task_inv (<[id := with_task_state s' row]> t) /\ task_later t (<[id := with_task_state s' row]> t).
Proof.
  intros Hi Hid Hs Hm Hr. assert (row_ok row) as Hrow by (by eapply ti_rows). split.
  - split.
    + intros id1 row1 [[<- <-]|[_ H1]]%lookup_insert_Some; [by apply row_ok_state|by eapply ti_rows].
    + intros id1 id2 row1 row2 [[<- <-]|[N1 H1]]%lookup_insert_Some [[<- <-]|[N2 H2]]%lookup_insert_Some; cbn; try done;
        intros Ho Hq; by eapply ti_requests.
    + intros id1 id2 row1 row2 [[<- <-]|[N1 H1]]%lookup_insert_Some [[<- <-]|[N2 H2]]%lookup_insert_Some; cbn;
        intros E1 E2; [done| | |by eapply ti_running].
      * exfalso. eapply Hr; [|done..]. by apply (inj Task.state_code).
      * exfalso. eapply Hr; [|done..]. by apply (inj Task.state_code).
  - intros id1 row1 H1. destruct (decide (id = id1)) as [<-|N].
    + exists (with_task_state s' row). rewrite lookup_insert_eq. split; [done|].
      rewrite Hid in H1. injection H1 as <-. by eapply row_after_once.
    + exists row1. rewrite lookup_insert_ne by done. split; [done|]. by eapply row_after_refl, ti_rows.
Qed.

(** [update_state] from states that may move to another than [Running]. *)
Lemma update_state_sound t id p s' :
  task_inv t -> s' <> Task.Running ->
  (forall row s, tr_state row = Task.state_code s -> p row = true -> task_moves s s') ->
  task_inv (update_state id p s' t).1 /\ task_later t (update_state id p s' t).1.
Proof.
  intros Hi Hn Hp. unfold update_state. destruct (t !! id) as [row|] eqn:E; [|by auto using task_later_refl].
  destruct (p row) eqn:P; [|by auto using task_later_refl].
  destruct (ro_state _ (ti_rows _ Hi _ _ E)) as [s Hs]. eapply move_row; eauto.
Qed.

(** ** The queue *)

Lemma elem_of_rows_where p t kr : kr ∈ rows_where p t <-> t !! kr.1 = Some kr.2 /\ p kr.2 = true.
Proof. unfold rows_where. rewrite list_elem_of_filter. destruct kr as [k r]. rewrite elem_of_map_to_list. naive_solver. Qed.

Lemma elem_of_task_queue t kr : kr ∈ task_queue t <-> t !! kr.1 = Some kr.2 /\ open_task kr.2 = true.
Proof. unfold task_queue. rewrite elem_of_sort_by. apply elem_of_rows_where. Qed.

Lemma claim_before_spec a b : not_after claim_order a b <->
  (claim_rank a.2 < claim_rank b.2)%Z
  \/ claim_rank a.2 = claim_rank b.2
     /\ ((tr_created_at_ms a.2 < tr_created_at_ms b.2)%Z
         \/ tr_created_at_ms a.2 = tr_created_at_ms b.2 /\ String.le a.1 b.1).
Proof.
  unfold not_after, claim_order. rewrite <-string_compare_le.
  destruct (Z.compare_spec (claim_rank a.2) (claim_rank b.2)) as [->|H|H]; cbn; [|naive_solver lia..].
  destruct (Z.compare_spec (tr_created_at_ms a.2) (tr_created_at_ms b.2)) as [->|H|H]; cbn; naive_solver lia.
Qed.

#[export] Instance claim_before_total : Total (not_after claim_order).
Proof. intros a b. rewrite !claim_before_spec.
  destruct (Z.lt_trichotomy (claim_rank a.2) (claim_rank b.2)) as [|[]]; [by auto| |by auto].
  destruct (Z.lt_trichotomy (tr_created_at_ms a.2) (tr_created_at_ms b.2)) as [|[]]; [by auto| |by auto 6].
  destruct (total String.le a.1 b.1); auto 8.
Qed.

#[export] Instance claim_before_trans : Transitive (not_after claim_order).
Proof.
  intros a b c. rewrite !claim_before_spec.
  intros [Ha|[Ea [Ha|[Fa Ha]]]] [Hb|[Eb [Hb|[Fb Hb]]]]; try lia.
  right. split; [lia|]. right. split; [lia|]. by etrans.
Qed.

Lemma task_queue_sorted t : StronglySorted (not_after claim_order) (task_queue t).
Proof. apply StronglySorted_merge_sort; apply _. Qed.

Lemma task_queue_head t kr : head (task_queue t) = Some kr ->
  t !! kr.1 = Some kr.2 /\ open_task kr.2 = true
  /\ forall kr2, kr2 ∈ task_queue t -> not_after claim_order kr kr2.
Proof.
  intros H. pose proof (task_queue_sorted t) as S. destruct (task_queue t) as [|x q] eqn:E; [done|]. injection H as ->.
  assert (kr ∈ task_queue t) as [H1 H2]%elem_of_task_queue by (rewrite E; left).
  split_and!; [done..|].
  intros kr2 [->|Hin]%elem_of_cons.
  - destruct (total (not_after claim_order) kr kr); done.
  - inversion S as [|? ? ? F]; subst. by eapply Forall_forall in F.
Qed.

Lemma task_queue_empty t : head (task_queue t) = None <-> forall id row, t !! id = Some row -> open_task row = false.
Proof.
  split.
  - intros H id row Hr. apply not_true_is_false. intros O.
    assert ((id, row) ∈ task_queue t) as Hq by (apply elem_of_task_queue; by split). destruct (task_queue t); [set_solver|done].
  - intros H. destruct (task_queue t) as [|kr q] eqn:E; [done|].
    assert (kr ∈ task_queue t) as [Hk O]%elem_of_task_queue by (rewrite E; left). apply H in Hk. congruence.
Qed.

Lemma open_task_code s row : tr_state row = Task.state_code s -> open_task row = true <-> s = Task.Captured \/ s = Task.Running.
Proof. intros H. unfold open_task. rewrite !(state_is_code _ _ _ H). destruct s; cbn; naive_solver. Qed.

(** ** One call *)

(** What [claim_next] answers: nothing when no task is open; otherwise the
    first of the queue, which runs from then on. *)
Definition claimed (t t' : TaskTable) (o : option MigrationTaskRecord) : Prop :=
  match o with
  | None => t' = t /\ forall id row, t !! id = Some row -> open_task row = false
  | Some record =>
      exists row, t !! mt_task_id record = Some row /\ open_task row = true
        /\ t' = <[mt_task_id record := with_task_state Task.Running row]> t
        /\ row_to_claimed_record (mt_task_id record) (with_task_state Task.Running row) = Ok record
        /\ forall id2 row2, t !! id2 = Some row2 -> open_task row2 = true ->
             not_after claim_order (mt_task_id record, row) (id2, row2)
  end.

Lemma claim_next_spec t : task_inv t -> exists o, (task_claim_next t).2 = Ok o /\ claimed t (task_claim_next t).1 o.
Proof.
  intros Hi. unfold task_claim_next. destruct (head (task_queue t)) as [[id row]|] eqn:E.
  - apply task_queue_head in E as (Hid & Ho & Hmin). cbn in Hid, Ho, Hmin.
    assert (row_ok row) as Hrow by (by eapply ti_rows). destruct (ro_state _ Hrow) as [s Hs], (ro_digest _ Hrow) as [d Hd].
    assert (forall id2 row2, t !! id2 = Some row2 -> open_task row2 = true -> not_after claim_order (id, row) (id2, row2)) as Hq.
    { intros id2 row2 H2 O2. apply Hmin, elem_of_task_queue. by split. }
    unfold row_to_claimed_record. rewrite (row_to_record_ok _ _ s d) by done. cbn.
    apply (open_task_code _ _ Hs) in Ho as Hs'. destruct Hs' as [-> | ->]; cbn.
    + unfold update_state. rewrite Hid, (state_is_code _ _ _ Hs). cbn.
      eexists. split; [done|]. cbn. exists row. split_and!; [done..| |done].
      unfold row_to_claimed_record. by rewrite (row_to_record_ok _ _ Task.Running d) by (try done; by apply row_ok_state).
    + eexists. split; [done|]. cbn. exists row. split_and!; [done..| | |done].
      * by rewrite with_task_state_same, insert_id.
      * rewrite with_task_state_same by done. unfold row_to_claimed_record. by rewrite (row_to_record_ok _ _ Task.Running d).
  - exists None. split; [done|]. cbn. split; [done|]. by apply task_queue_empty.
Qed.

(** A submission by someone who did not submit under that name before
    makes a row; there is no other way to make one. *)
Definition task_row_of (s : MigrationTaskSubmission) : TaskRow :=
  MkTaskRow (ms_owner_id s) (ms_request_id s) (ms_project_name s) (digest_display (ms_project_digest s))
    (Z.of_N (ms_project_size_bytes s)) (Z.of_N (ms_file_count s)) (Task.state_code Task.Captured)
    (Z.of_N (ms_created_at_ms s)).

Definition task_record_of (state : TaskState) (created_at_ms : N) (s : MigrationTaskSubmission) : MigrationTaskRecord :=
  MkTask EmptyString (ms_task_id s) (ms_project_name s) (ms_project_digest s) (ms_project_size_bytes s) (ms_file_count s)
    state created_at_ms.

Lemma row_of_ok s : row_ok (task_row_of s).
Proof. split; [by eexists|by eexists|apply N2Z.is_nonneg..]. Qed.

Lemma select_by_request_Some t o q id row : select_by_request o q t = Some (id, row) ->
  t !! id = Some row /\ tr_owner_id row = o /\ tr_request_id row = q.
Proof.
  unfold select_by_request. intros H%head_Some_elem_of%elem_of_rows_where. cbn in H.
  destruct H as [H [Ho Hq]%andb_true_iff]. by repeat apply bool_decide_eq_true in Ho; apply bool_decide_eq_true in Hq.
Qed.

Lemma select_by_request_None t o q id row : select_by_request o q t = None ->
  t !! id = Some row -> tr_owner_id row = o -> tr_request_id row = q -> False.
Proof.
  unfold select_by_request. intros H Hid <- <-.
  assert ((id, row) ∈ rows_where (fun row' => bool_decide (tr_owner_id row' = tr_owner_id row)
            && bool_decide (tr_request_id row' = tr_request_id row)) t) as Hin.
  { apply elem_of_rows_where. cbn. split; [done|]. by rewrite !bool_decide_true. }
  destruct (rows_where _ t); [set_solver|done].
Qed.

Lemma select_by_request_own t id row : task_inv t -> t !! id = Some row ->
  select_by_request (tr_owner_id row) (tr_request_id row) t = Some (id, row).
Proof.
  intros Hi Hid. destruct (select_by_request _ _ t) as [[id' row']|] eqn:E.
  - apply select_by_request_Some in E as (H & Ho & Hq). assert (id' = id) as -> by by eapply ti_requests. naive_solver.
  - exfalso. by eapply select_by_request_None.
Qed.

(** The two ways in which [submit] accepts. *)
Lemma task_submit_Ok s t r : task_inv t -> (task_submit s t).2 = Ok r ->
  ((task_submit s t).1 = t /\ exists row st, t !! ms_task_id s = Some row /\ tr_owner_id row = ms_owner_id s
     /\ tr_request_id row = ms_request_id s /\ tr_state row = Task.state_code st
     /\ r = task_record_of st (Z.to_N (tr_created_at_ms row)) s /\ row_to_record (ms_task_id s) row = Ok r)
  \/ ((task_submit s t).1 = <[ms_task_id s := task_row_of s]> t /\ t !! ms_task_id s = None
      /\ select_by_request (ms_owner_id s) (ms_request_id s) t = None
      /\ r = task_record_of Task.Captured (ms_created_at_ms s) s).
Proof.
  intros Hi. unfold task_submit. destruct (select_by_request _ _ t) as [[id row]|] eqn:E; cbn.
  - apply select_by_request_Some in E as (Hid & Ho & Hq). pose proof (ti_rows _ Hi _ _ Hid) as Hrow.
    destruct (ro_state _ Hrow) as [st Hs], (ro_digest _ Hrow) as [d Hd].
    rewrite (row_to_record_ok _ _ st d) by done. cbn. intros H. left. split; [done|].
    destruct (bool_decide (id = ms_task_id s)) eqn:B1; [|done]. apply bool_decide_eq_true in B1 as ->.
    destruct (bool_decide (tr_project_name row = ms_project_name s)) eqn:B2; [|done]. apply bool_decide_eq_true in B2.
    destruct (bool_decide (d = ms_project_digest s)) eqn:B3; [|done]. apply bool_decide_eq_true in B3 as ->.
    destruct (N.eqb_spec (Z.to_N (tr_project_size_bytes row)) (ms_project_size_bytes s)) as [B4|]; [|done].
    destruct (N.eqb_spec (Z.to_N (tr_file_count row)) (ms_file_count s)) as [B5|]; [|done]. cbn in H.
    apply Ok_inj in H as <-. exists row, st. split_and!; try done.
    + unfold task_record_of. by rewrite B2, B4, B5.
    + by apply row_to_record_ok.
  - destruct (task_to_i64 (ms_project_size_bytes s)) as [z1|] eqn:Z1; cbn; [|done]. apply task_to_i64_Ok in Z1 as [_ ->].
    destruct (task_to_i64 (ms_file_count s)) as [z2|] eqn:Z2; cbn; [|done]. apply task_to_i64_Ok in Z2 as [_ ->].
    destruct (task_to_i64 (ms_created_at_ms s)) as [z3|] eqn:Z3; cbn; [|done]. apply task_to_i64_Ok in Z3 as [_ ->].
    destruct (t !! ms_task_id s) as [old|] eqn:F; cbn; [done|].
    unfold select_by_id. rewrite lookup_insert_eq. cbn. rewrite bool_decide_true by done.
    rewrite (row_to_record_ok _ _ Task.Captured (ms_project_digest s)) by (done || apply (row_of_ok s)). cbn.
    intros H%Ok_inj. right. split_and!; [done..|]. rewrite <-H. unfold task_record_of. by rewrite !N2Z.id.
Qed.

Lemma task_submit_Err s t e : (task_submit s t).2 = Err e -> (task_submit s t).1 = t.
Proof.
  unfold task_submit. destruct (select_by_request _ _ t) as [[id row]|]; [done|].
  match goal with |- context [match ?m with Ok _ => _ | Err _ => _ end] => destruct m as [[]|] end; done.
Qed.

Lemma submit_sound s t : task_inv t -> task_inv (task_submit s t).1 /\ task_later t (task_submit s t).1.
Proof.
  intros Hi. destruct (task_submit s t).2 as [r|e] eqn:E.
  - destruct (task_submit_Ok _ _ _ Hi E) as [(-> & _)|(-> & Hn & Hq & _)]; [by auto using task_later_refl|].
    split.
    + split.
      * intros id row [[<- <-]|[_ H]]%lookup_insert_Some; [apply row_of_ok|by eapply ti_rows].
      * intros id1 id2 row1 row2 [[<- <-]|[N1 H1]]%lookup_insert_Some [[<- <-]|[N2 H2]]%lookup_insert_Some; cbn;
          intros Ho Hr; [done| | |by eapply ti_requests].
        -- exfalso. by eapply select_by_request_None.
        -- exfalso. by eapply select_by_request_None.
      * intros id1 id2 row1 row2 [[<- <-]|[N1 H1]]%lookup_insert_Some [[<- <-]|[N2 H2]]%lookup_insert_Some; cbn;
          intros Ho Hr; try done. by eapply ti_running.
    + intros id row H. exists row. rewrite lookup_insert_ne by congruence. split; [done|]. by eapply row_after_refl, ti_rows.
  - rewrite (task_submit_Err _ _ _ E). by auto using task_later_refl.
Qed.

Lemma claim_sound t : task_inv t -> task_inv (task_claim_next t).1 /\ task_later t (task_claim_next t).1.
Proof.
  intros Hi. destruct (claim_next_spec t Hi) as (o & _ & Hc). destruct o as [record|]; cbn in Hc.
  - destruct Hc as (row & Hid & Ho & -> & _ & Hmin). destruct (ro_state _ (ti_rows _ Hi _ _ Hid)) as [s Hs].
    apply (open_task_code _ _ Hs) in Ho as [-> | ->].
    + eapply move_row; [done..|constructor|]. intros _ id2 row2 H2 Hr.
      assert (open_task row2 = true) as O by (apply (open_task_code _ _ Hr); by right).
      specialize (Hmin _ _ H2 O). apply claim_before_spec in Hmin. unfold claim_rank in Hmin. cbn in Hmin.
      rewrite (state_is_code _ _ _ Hs), (state_is_code _ _ _ Hr), bool_decide_false, bool_decide_true in Hmin by done. lia.
    + rewrite with_task_state_same, insert_id by done. by auto using task_later_refl.
  - destruct Hc as [-> _]. by auto using task_later_refl.
Qed.

Lemma run_task_op_sound op t : task_inv t -> task_inv (run_task_op op t) /\ task_later t (run_task_op op t).
Proof.
  intros Hi. destruct op as [s|owner id| |id st|owner id]; cbn.
  - by apply submit_sound.
  - unfold task_cancel. pose proof (update_state_sound t id (fun row => owned_by owner row && open_task row) Task.Cancelled) as U.
    destruct (update_state id _ Task.Cancelled t) as [t' c] eqn:E. cbn in *. apply U; [done..|].
    intros row s Hs [_ O]%andb_true_iff. constructor. by apply (open_task_code _ _ Hs).
  - by apply claim_sound.
  - destruct st; cbn; try (by auto using task_later_refl); apply update_state_sound; try done;
      intros row s Hs Hr; rewrite (state_is_code _ _ _ Hs) in Hr; apply bool_decide_eq_true in Hr as ->; constructor; auto.
  - unfold task_resume. pose proof (update_state_sound t id (fun row => owned_by owner row && state_is Task.Failed row) Task.Captured) as U.
    destruct (update_state id _ Task.Captured t) as [t' c] eqn:E. cbn in *.
    assert ((if c then (t', task_get owner id t') else (t', Err Task.Corrupt)).1 = t') as -> by by destruct c.
    apply U; [done..|]. intros row s Hs [_ O]%andb_true_iff. rewrite (state_is_code _ _ _ Hs) in O.
    apply bool_decide_eq_true in O as ->. constructor.
Qed.

Lemma run_task_ops_sound ops t : task_inv t -> task_inv (run_task_ops ops t) /\ task_later t (run_task_ops ops t).
Proof.
  revert t. induction ops as [|op ops IH]; intros t Hi; cbn; [by auto using task_later_refl|].
  destruct (run_task_op_sound op t Hi) as [Hi' Hl]. destruct (IH _ Hi') as [Hi'' Hl']. split; [done|].
  by eapply task_later_trans.
Qed.

Lemma task_inv_empty : task_inv ∅.
Proof. split; intros *; rewrite !lookup_empty; done. Qed.

(** Closed tasks stay as they are; a failed one may only be queued again. *)
Lemma moves_closed s s' : s = Task.Completed \/ s = Task.Cancelled -> rtc task_moves s s' -> s' = s.
Proof. intros Hs H. destruct H as [|a b c M _]; [done|]. destruct Hs as [-> | ->]; inversion M; naive_solver. Qed.

(** ** Properties *)

(** Every history of calls keeps the queue well formed: at most one task
    runs, one request of an owner is one task, no task disappears or
    changes in anything but its state, the state moves along the lifecycle,
    and a task that is completed or cancelled stays so. *)
Theorem migration_tasks_follow_their_lifecycle (ops later : list TaskOp) :
  let t := run_task_ops ops ∅ in
  let t' := run_task_ops later t in
  (forall id1 id2 row1 row2, t !! id1 = Some row1 -> t !! id2 = Some row2 ->
     state_is Task.Running row1 = true -> state_is Task.Running row2 = true -> id1 = id2)
  /\ (forall id1 id2 row1 row2, t !! id1 = Some row1 -> t !! id2 = Some row2 ->
        tr_owner_id row1 = tr_owner_id row2 -> tr_request_id row1 = tr_request_id row2 -> id1 = id2)
  /\ (forall id row, t !! id = Some row -> exists s s',
        decode_state (tr_state row) = Ok s /\ t' !! id = Some (with_task_state s' row) /\ rtc task_moves s s'
        /\ (s = Task.Completed \/ s = Task.Cancelled -> s' = s)).
Proof.
  intros t t'. destruct (run_task_ops_sound ops ∅ task_inv_empty) as [Hi _]. fold t in Hi.
  destruct (run_task_ops_sound later t Hi) as [_ Hl]. split_and!.
  - intros id1 id2 row1 row2 H1 H2 S1 S2. eapply (ti_running _ Hi); eauto; by apply Z.eqb_eq.
  - apply (ti_requests _ Hi).
  - intros id row H. destruct (Hl _ _ H) as (row' & H' & s & s' & Hs & -> & Hm). exists s, s'.
    rewrite Hs, decode_state_code. split_and!; [done..|]. intros Hc. by apply moves_closed.
Qed.

(** A submission that was accepted can be repeated at any time, after any
    calls: it changes nothing and answers with the same task, whatever
    became of it. *)
Theorem submission_is_idempotent (ops later : list TaskOp) (s : MigrationTaskSubmission) (created_at_ms : N)
    (record : MigrationTaskRecord) :
  let t := run_task_ops ops ∅ in
  let t' := run_task_ops later (task_submit s t).1 in
  let again := MkSubmission (ms_owner_id s) (ms_request_id s) (ms_task_id s) (ms_project_name s) (ms_project_digest s)
                 (ms_project_size_bytes s) (ms_file_count s) created_at_ms in
  (task_submit s t).2 = Ok record ->
  exists state, rtc task_moves (mt_state record) state
    /\ task_submit again t' = (t', Ok (task_record_of state (mt_created_at_ms record) s)).
Proof.
  intros t t' again H. destruct (run_task_ops_sound ops ∅ task_inv_empty) as [Hi _]. fold t in Hi.
  destruct (submit_sound s t Hi) as [Hi1 _]. destruct (run_task_ops_sound later _ Hi1) as [Hi2 Hl]. fold t' in Hi2, Hl.
  assert (exists row st d, (task_submit s t).1 !! ms_task_id s = Some row /\ tr_owner_id row = ms_owner_id s
    /\ tr_request_id row = ms_request_id s /\ tr_state row = Task.state_code st /\ tr_project_digest row = digest_display d
    /\ record = task_record_of st (Z.to_N (tr_created_at_ms row)) s /\ row_to_record (ms_task_id s) row = Ok record)
    as (row & st & d & Hid & Ho & Hq & Hs & Hd & -> & Hr).
  { destruct (task_submit_Ok _ _ _ Hi H) as [(E & row & st & Hid & Ho & Hq & Hs & -> & Hr)|(E & _ & _ & ->)]; rewrite E.
    - destruct (ro_digest _ (ti_rows _ Hi _ _ Hid)) as [d Hd]. by exists row, st, d.
    - exists (task_row_of s), Task.Captured, (ms_project_digest s). rewrite lookup_insert_eq. cbn.
      rewrite N2Z.id. split_and!; try done.
      rewrite (row_to_record_ok _ _ Task.Captured (ms_project_digest s)) by (done || apply row_of_ok). cbn. by rewrite !N2Z.id. }
  destruct (Hl _ _ Hid) as (row' & Hid' & s0 & s1 & Hs0 & -> & Hm). rewrite Hs in Hs0. apply (inj _) in Hs0 as <-.
  exists s1. split; [done|]. unfold task_submit.
  replace (select_by_request (ms_owner_id again) (ms_request_id again) t') with (Some (ms_task_id s, with_task_state s1 row)).
  2:{ symmetry. cbn. rewrite <-Ho, <-Hq. by apply (select_by_request_own t' (ms_task_id s) (with_task_state s1 row)). }
  rewrite (row_to_record_ok _ _ s1 d) by (try done; by eapply ti_rows). cbn.
  rewrite (row_to_record_ok _ _ st d) in Hr
    by (try done; eapply (ti_rows _ Hi1); eauto). apply Ok_inj in Hr. unfold task_record_of in Hr.
  injection Hr as -> -> -> ->. rewrite !bool_decide_true, !N.eqb_refl by done. done.
Qed.
