(* ===== verification/Performance.v ===== *)
(** * Performance evidence

    [src/crates/alloyport-core/src/performance.rs]: summarizing timed
    samples and judging a comparison.  [u64], [u128] and [i128] values are
    [N] and [Z]; the conversions that saturate are written out, and the
    intermediate products fit their 128 bits by [measured_bounds]. *)

From stdpp Require Import base list numbers sorting.
From S2P Require Import Prelude Digest.

Local Open Scope N_scope.

Definition MINIMUM_TIMED_SAMPLES : nat := 5.
Definition PPB : N := 1000000000.

(** [enum PerformanceError]. *)
Inductive PerformanceError := TooFewSamples | EmptySample | PerformanceSerialization.

(** [struct MeasuredDuration]. *)
Record MeasuredDuration := MkMeasured {
  samples_nanos : list N;
  discarded_warmup_samples : N;
  min_nanos : N;
  median_nanos : N;
  max_nanos : N;
  relative_spread_ppb : N;
}.

(** [samples.sort_unstable()]: equal integers are indistinguishable, so
    any sort gives the same list. *)
Definition sort_samples (samples : list N) : list N := merge_sort (≤) samples.

(** [u64::try_from(x).unwrap_or(u64::MAX)]. *)
Definition u64_or_max (x : N) : N := if x <=? u64_max then x else u64_max.

(** [MeasuredDuration::from_samples]; indexing out of range would panic,
    which [from_samples_total] excludes. *)
Definition from_samples (samples : list N) (warmup : N) : result PerformanceError MeasuredDuration :=
  guard_err (length samples <? MINIMUM_TIMED_SAMPLES)%nat TooFewSamples ;;
  guard_err (existsb (N.eqb 0) samples) EmptySample ;;
  let sorted := sort_samples samples in
  match sorted !! 0%nat, sorted !! (length sorted - 1)%nat, sorted !! (length sorted / 2)%nat with
  | Some lo, Some hi, Some mid =>
      Ok (MkMeasured samples warmup lo mid hi (u64_or_max ((hi - lo) * PPB / mid)))
  | _, _, _ => Err TooFewSamples
  end.

(** [MeasuredDuration::noise_band_nanos]. *)
Definition noise_band_nanos (d : MeasuredDuration) : N := (max_nanos d - min_nanos d) / 2.

(** [enum PerformanceBaseline]. *)
Inductive PerformanceBaseline := PreviousRevision | SiblingCandidate | MeasuredRoofline | Proxy.

(** [enum PerformanceRefusal], in its derived order. *)
Inductive PerformanceRefusal := CrossEnvironmentComparison | ProxyCannotEstablishSpeed.

(** [enum PerformanceVerdict]. *)
Inductive PerformanceVerdict := Improved | Regressed | NoResult | PerformanceUnverifiable.

#[export] Instance PerformanceBaseline_eq_dec : EqDecision PerformanceBaseline.
Proof. solve_decision. Defined.
#[export] Instance PerformanceRefusal_eq_dec : EqDecision PerformanceRefusal.
Proof. solve_decision. Defined.
#[export] Instance PerformanceVerdict_eq_dec : EqDecision PerformanceVerdict.
Proof. solve_decision. Defined.

(** [struct PerformanceComparison]. *)
Record PerformanceComparison := MkComparison {
  pc_baseline : PerformanceBaseline;
  pc_baseline_environment_digest : Sha256Digest;
  pc_candidate_environment_digest : Sha256Digest;
  pc_baseline_duration : MeasuredDuration;
  pc_candidate_duration : MeasuredDuration;
}.

(** [struct PerformanceReceipt]. *)
Record PerformanceReceipt := MkPerformanceReceipt {
  pr_schema_version : N;
  pr_baseline : PerformanceBaseline;
  pr_baseline_environment_digest : Sha256Digest;
  pr_candidate_environment_digest : Sha256Digest;
  pr_baseline_duration : MeasuredDuration;
  pr_candidate_duration : MeasuredDuration;
  pr_verdict : PerformanceVerdict;
  pr_median_change_ppb : Z;
  pr_combined_noise_ppb : N;
  pr_refusals : list PerformanceRefusal;
}.

(** [ratio_ppb]: [i128] division truncates, and both operands are
    non-negative. *)
Definition ratio_ppb (value reference : N) : Z :=
  if reference =? 0 then 0%Z else Z.of_N (value * PPB / reference).

(** [scale_ppb]. *)
Definition scale_ppb (value reference : N) : N :=
  if reference =? 0 then u64_max else u64_or_max (value * PPB / reference).

(** [i64::try_from(x).unwrap_or(i64::MAX)]. *)
Definition i64_or_max (x : Z) : Z :=
  if ((- 9223372036854775808 <=? x) && (x <=? Z.of_N i64_max))%Z then x else Z.of_N i64_max.

(** [refusals.sort_unstable()] on the two refusals. *)
Definition refusal_rank (r : PerformanceRefusal) : nat :=
  match r with CrossEnvironmentComparison => 0 | ProxyCannotEstablishSpeed => 1 end.
Definition refusal_le (a b : PerformanceRefusal) : Prop := (refusal_rank a <= refusal_rank b)%nat.
#[export] Instance refusal_le_dec : RelDecision refusal_le.
Proof. intros a b. unfold refusal_le. apply _. Defined.

(** The refusals in the order [judge_performance] pushes them. *)
Definition pushed_refusals (c : PerformanceComparison) : list PerformanceRefusal :=
  (if decide (pc_baseline c = Proxy) then [ProxyCannotEstablishSpeed] else [])
  ++ (if decide (pc_baseline_environment_digest c <> pc_candidate_environment_digest c)
      then [CrossEnvironmentComparison] else []).

(** [judge_performance]. *)
Definition judge_performance (c : PerformanceComparison) : PerformanceReceipt :=
  let refusals := pushed_refusals c in
  let baseline_median := median_nanos (pc_baseline_duration c) in
  let candidate_median := median_nanos (pc_candidate_duration c) in
  let median_change_ppb := i64_or_max (ratio_ppb candidate_median baseline_median - 1000000000) in
  let combined_noise_ppb :=
    scale_ppb (saturating_add u64_max (noise_band_nanos (pc_baseline_duration c))
                 (noise_band_nanos (pc_candidate_duration c))) baseline_median in
  let verdict :=
    if (length refusals =? 0)%nat then
      if Z.abs_N median_change_ppb <=? combined_noise_ppb then NoResult
      else if (median_change_ppb <? 0)%Z then Improved else Regressed
    else PerformanceUnverifiable in
  MkPerformanceReceipt 1 (pc_baseline c) (pc_baseline_environment_digest c)
    (pc_candidate_environment_digest c) (pc_baseline_duration c) (pc_candidate_duration c)
    verdict median_change_ppb combined_noise_ppb (merge_sort refusal_le refusals).

(** ** Lemmas *)

Lemma sort_samples_perm l : sort_samples l ≡ₚ l.
Proof. apply merge_sort_Permutation. Qed.

Lemma sort_samples_sorted l : StronglySorted N.le (sort_samples l).
Proof. apply StronglySorted_merge_sort; apply _. Qed.

(** The lowest, highest and middle samples. *)
Definition summarizes (samples : list N) (d : MeasuredDuration) : Prop :=
  min_nanos d ∈ samples /\ max_nanos d ∈ samples /\ median_nanos d ∈ samples
  /\ Forall (fun x => min_nanos d <= x /\ x <= max_nanos d) samples
  /\ (length samples / 2 + 1 <= count (fun x => bool_decide (x <= median_nanos d)%N) samples)%nat
  /\ (length samples - length samples / 2
      <= count (fun x => bool_decide (median_nanos d <= x)%N) samples)%nat.

Lemma sorted_ends l i j lo hi x :
  StronglySorted N.le l -> l !! i = Some lo -> l !! j = Some hi -> i = 0%nat ->
  j = (length l - 1)%nat -> x ∈ l -> lo <= x /\ x <= hi.
Proof.
  intros Hs Hi Hj -> -> Hx.
  destruct (sorted_around _ _ _ _ Hs Hi) as [_ Ha].
  destruct (sorted_around _ _ _ _ Hs Hj) as [Hb _].
  rewrite Forall_forall in Ha, Hb. split.
  - rewrite <-(take_drop_middle _ _ _ Hi) in Hx. cbn in Hx.
    apply elem_of_cons in Hx as [->|Hx]; [lia|by apply Ha].
  - rewrite <-(take_drop_middle _ _ _ Hj) in Hx.
    rewrite (drop_ge _ (S _)) in Hx by (pose proof (lookup_lt_Some _ _ _ Hj); lia).
    apply elem_of_app in Hx as [Hx|Hx%list_elem_of_singleton]; [by apply Hb|subst; lia].
Qed.

Lemma sorted_summarizes samples sorted lo hi mid w spread :
  sorted ≡ₚ samples -> StronglySorted N.le sorted ->
  sorted !! 0%nat = Some lo -> sorted !! (length sorted - 1)%nat = Some hi ->
  sorted !! (length sorted / 2)%nat = Some mid ->
  summarizes samples (MkMeasured samples w lo mid hi spread).
Proof.
  intros Hp Hs Hlo Hhi Hmid. destruct (sorted_count_le N.le _ _ _ Hs Hmid) as [Hb Ha].
  rewrite !(count_perm _ _ _ Hp), !(Permutation_length Hp) in *.
  unfold summarizes. cbn [min_nanos max_nanos median_nanos].
  split_and!; [rewrite <-Hp; exact (list_elem_of_lookup_2 _ _ _ Hlo)
    |rewrite <-Hp; exact (list_elem_of_lookup_2 _ _ _ Hhi)
    |rewrite <-Hp; exact (list_elem_of_lookup_2 _ _ _ Hmid)| |lia|lia].
  apply Forall_forall. intros x Hx. rewrite <-Hp in Hx.
  rewrite <-(Permutation_length Hp) in Hhi.
  exact (sorted_ends _ _ _ _ _ _ Hs Hlo Hhi eq_refl eq_refl Hx).
Qed.

Lemma sorted_lookup_is_Some samples i :
  (i < length samples)%nat -> is_Some (sort_samples samples !! i).
Proof. intros H. apply lookup_lt_is_Some. by rewrite (Permutation_length (sort_samples_perm _)). Qed.

Lemma no_zero samples : existsb (N.eqb 0) samples = false <-> Forall (fun x => 0 < x) samples.
Proof.
  induction samples as [|x l IH]; cbn [existsb]; [by split|].
  rewrite orb_false_iff, IH, Forall_cons.
  destruct (N.eqb_spec 0 x); intuition (congruence || lia).
Qed.

(** What the arguments of [from_samples] must satisfy. *)
Definition timed (samples : list N) : Prop :=
  (MINIMUM_TIMED_SAMPLES <= length samples)%nat /\ Forall (fun x => 0 < x) samples.

Lemma from_samples_Ok samples w d :
  from_samples samples w = Ok d ->
  timed samples /\ samples_nanos d = samples /\ discarded_warmup_samples d = w
  /\ summarizes samples d
  /\ relative_spread_ppb d = u64_or_max ((max_nanos d - min_nanos d) * PPB / median_nanos d).
Proof.
  unfold from_samples. intros [Hl [Hz H]%guard_bind_Ok]%guard_bind_Ok.
  apply Nat.ltb_ge in Hl. apply no_zero in Hz.
  destruct (sort_samples samples !! 0%nat) as [lo|] eqn:Hlo; [|done].
  destruct (sort_samples samples !! (length (sort_samples samples) - 1)%nat) as [hi|] eqn:Hhi; [|done].
  destruct (sort_samples samples !! (length (sort_samples samples) / 2)%nat) as [mid|] eqn:Hmid; [|done].
  injection H as <-. split_and!; try done.
  exact (sorted_summarizes _ _ _ _ _ _ _ (sort_samples_perm _) (sort_samples_sorted _) Hlo Hhi Hmid).
Qed.

(** No index is ever out of range: the summary of timed samples exists. *)
Lemma from_samples_total samples w : timed samples -> is_ok (from_samples samples w) = true.
Proof.
  intros [Hl Hz]. unfold from_samples.
  rewrite (proj2 (Nat.ltb_ge _ _) Hl), (proj2 (no_zero _) Hz). cbn [guard_err mbind result_bind].
  unfold MINIMUM_TIMED_SAMPLES in Hl. pose proof (Permutation_length (sort_samples_perm samples)) as Hp.
  destruct (sorted_lookup_is_Some samples 0) as [lo ->]; [lia|].
  destruct (sorted_lookup_is_Some samples (length (sort_samples samples) - 1)) as [hi ->]; [lia|].
  destruct (sorted_lookup_is_Some samples (length (sort_samples samples) / 2)) as [mid ->]; [|done].
  rewrite Hp. apply Nat.div_lt; lia.
Qed.

(** ** Judging *)

(** A duration produced by [from_samples] from [u64] samples: what every
    duration the crate constructs is (a deserialized one is outside). *)
Definition measured (d : MeasuredDuration) : Prop :=
  exists samples w, from_samples samples w = Ok d /\ Forall (fun x => x <= u64_max) samples.

Lemma measured_bounds d :
  measured d -> 0 < median_nanos d /\ noise_band_nanos d <= u64_max / 2.
Proof.
  intros (samples & w & H & Hu). apply from_samples_Ok in H as ([_ Hz] & _ & _ & Hs & _).
  destruct Hs as (_ & Hhi & Hmid & _).
  rewrite Forall_forall in Hz, Hu. split; [by apply Hz|].
  unfold noise_band_nanos. apply N.Div0.div_le_mono. specialize (Hu _ Hhi). cbn beta in Hu.
  apply (N.le_trans _ (max_nanos d)); [apply N.le_sub_l|exact Hu].
Qed.

(** Both sides come from one environment and measure elapsed time. *)
Definition comparable (c : PerformanceComparison) : Prop :=
  pc_baseline c <> Proxy
  /\ pc_baseline_environment_digest c = pc_candidate_environment_digest c.

Lemma pushed_refusals_nil c : pushed_refusals c = [] <-> comparable c.
Proof. unfold pushed_refusals, comparable. repeat case_decide; naive_solver. Qed.

(** The half ranges of both sides. *)
Definition combined_noise (c : PerformanceComparison) : N :=
  noise_band_nanos (pc_baseline_duration c) + noise_band_nanos (pc_candidate_duration c).

Lemma div_bounds x b : 0 < b -> b * (x / b) <= x /\ x < b * (x / b) + b.
Proof.
  intros H. pose proof (N.div_mod' x b) as E. pose proof (N.mod_lt x b ltac:(lia)) as L.
  revert E L. generalize (x / b), (x mod b). intros q r -> L. split; [apply N.le_add_r|].
  by apply N.add_lt_mono_l.
Qed.

(** The verdict on a comparison with baseline median [b], candidate
    median [m] and noise [n], all in nanoseconds. *)
Definition verdict_of (b m n : N) : PerformanceVerdict :=
  let change := i64_or_max (ratio_ppb m b - 1000000000) in
  if Z.abs_N change <=? scale_ppb n b then NoResult
  else if (change <? 0)%Z then Improved else Regressed.

Lemma judge_verdict c :
  measured (pc_baseline_duration c) -> measured (pc_candidate_duration c) ->
  pr_verdict (judge_performance c)
  = if decide (comparable c)
    then verdict_of (median_nanos (pc_baseline_duration c))
           (median_nanos (pc_candidate_duration c)) (combined_noise c)
    else PerformanceUnverifiable.
Proof.
  intros [_ Hb]%measured_bounds [_ Hc]%measured_bounds.
  unfold judge_performance. cbn [pr_verdict].
  replace (saturating_add u64_max _ _) with (combined_noise c).
  2:{ unfold saturating_add, combined_noise. change (u64_max / 2) with 9223372036854775807 in *.
      unfold u64_max. lia. }
  destruct (pushed_refusals c) as [|r l] eqn:E; cbn [length Nat.eqb].
  - apply pushed_refusals_nil in E. by rewrite decide_True.
  - rewrite decide_False; [done|]. intros Hk%pushed_refusals_nil. congruence.
Qed.

(** In quotients: the median ratio and the noise in parts per billion. *)
Lemma verdict_of_quotients b m n :
  0 < b ->
  (verdict_of b m n = Improved <-> m * PPB / b + n * PPB / b < PPB)
  /\ (verdict_of b m n = Regressed -> PPB + n * PPB / b < m * PPB / b)
  /\ verdict_of b m n <> PerformanceUnverifiable.
Proof.
  intros Hb. unfold verdict_of, ratio_ppb, scale_ppb, i64_or_max, u64_or_max.
  rewrite (proj2 (N.eqb_neq b 0)) by lia.
  generalize (m * PPB / b) (n * PPB / b). intros qm qn. unfold PPB, u64_max, i64_max.
  pose proof (N2Z.inj_abs_N (Z.of_N qm - 1000000000)) as Habs.
  assert (Z.abs_N (Z.of_N 9223372036854775807) = 9223372036854775807) as Hmax by done.
  destruct (_ && _)%Z eqn:E1; rewrite ?andb_true_iff, ?andb_false_iff, ?Z.leb_le, ?Z.leb_gt in E1;
  destruct (qn <=? _) eqn:E2; rewrite ?N.leb_le, ?N.leb_gt in E2;
  rewrite ?Hmax; destruct (_ <=? _) eqn:E3; rewrite ?N.leb_le, ?N.leb_gt in E3;
  try (destruct (_ <? _)%Z eqn:E4; rewrite ?Z.ltb_lt, ?Z.ltb_ge in E4);
  split_and!; try split; try done; intros; try done; 
  match goal with |- @eq PerformanceVerdict _ _ => exfalso; lia | _ => lia end.
Qed.

Lemma improved_bounds b m n :
  0 < b -> m * PPB / b + n * PPB / b < PPB -> m < b /\ n * PPB < (b - m) * PPB + b.
Proof.
  intros Hb. destruct (div_bounds (m * PPB) b Hb) as [_ Hm], (div_bounds (n * PPB) b Hb) as [_ Hn].
  revert Hm Hn. generalize (m * PPB / b) (n * PPB / b). intros qm qn Hm Hn Hq.
  assert (b * qm + b * qn + b <= b * PPB) by (rewrite <-!N.mul_add_distr_l; nia).
  unfold PPB in *. split; nia.
Qed.

Lemma improved_enough b m n :
  0 < b -> n * PPB + b <= (b - m) * PPB -> m * PPB / b + n * PPB / b < PPB.
Proof.
  intros Hb Hq. destruct (div_bounds (m * PPB) b Hb) as [Hm _], (div_bounds (n * PPB) b Hb) as [Hn _].
  revert Hm Hn. generalize (m * PPB / b) (n * PPB / b). intros qm qn Hm Hn.
  apply (N.mul_lt_mono_pos_l b); [done|]. unfold PPB in *. nia.
Qed.

Lemma regressed_bounds b m n :
  0 < b -> PPB + n * PPB / b < m * PPB / b -> b < m /\ n < m - b.
Proof.
  intros Hb. destruct (div_bounds (m * PPB) b Hb) as [Hm _], (div_bounds (n * PPB) b Hb) as [_ Hn].
  revert Hm Hn. generalize (m * PPB / b) (n * PPB / b). intros qm qn Hm Hn Hq.
  assert (b * PPB + b * qn + b <= b * qm) by (rewrite <-!N.mul_add_distr_l; nia).
  unfold PPB in *. split; nia.
Qed.

(** ** Soundness of the judgement *)

(** What a performance verdict means, for durations summarized from
    real samples with baseline median [b], candidate median [m] and noise
    [n] (the sum of the two half ranges): nothing is judged across
    environments or from a proxy; [Improved] is granted only to a smaller
    median whose gain exceeds the noise up to one part per billion of the
    baseline, and always from there on; [Regressed] only when the loss
    exceeds the noise. *)
Theorem judge_performance_sound (c : PerformanceComparison)
    (Hb : measured (pc_baseline_duration c)) (Hm : measured (pc_candidate_duration c)) :
  let b := median_nanos (pc_baseline_duration c) in
  let m := median_nanos (pc_candidate_duration c) in
  let n := combined_noise c in
  let verdict := pr_verdict (judge_performance c) in
  (verdict = PerformanceUnverifiable <-> ~ comparable c)
  /\ (verdict = Improved -> comparable c /\ m < b /\ n * PPB < (b - m) * PPB + b)
  /\ (comparable c -> n * PPB + b <= (b - m) * PPB -> verdict = Improved)
  /\ (verdict = Regressed -> comparable c /\ b < m /\ n < m - b)
  /\ (b <= PPB -> verdict = Improved -> n <= b - m).
Proof.
  cbn zeta. rewrite (judge_verdict c Hb Hm).
  destruct (measured_bounds _ Hb) as [Hpos _].
  generalize (median_nanos (pc_candidate_duration c)), (combined_noise c).
  revert Hpos. generalize (median_nanos (pc_baseline_duration c)). intros b Hpos m n.
  destruct (verdict_of_quotients b m n Hpos) as (Hi & Hr & Hu).
  case_decide as Hc; [|split_and!; try done; by intros].
  split_and!.
  - split; [done|tauto].
  - intros E%Hi. split; [done|]. by apply improved_bounds.
  - intros _ E. by apply Hi, improved_enough.
  - intros E%Hr. split; [done|]. by apply regressed_bounds.
  - intros Hs E%Hi%improved_bounds; [|done]. unfold PPB in *. nia.
Qed.

(** A baseline of constant three nanoseconds, and a candidate whose
    median is two within a range of two. *)
Definition flat_duration : MeasuredDuration := MkMeasured [3; 3; 3; 3; 3] 0 3 3 3 0.
Definition spread_duration : MeasuredDuration := MkMeasured [1; 2; 2; 2; 3] 0 1 2 3 1000000000.

Definition rounding_comparison : PerformanceComparison :=
  MkComparison PreviousRevision (from_bytes []) (from_bytes []) flat_duration spread_duration.

Lemma flat_measured : measured flat_duration.
Proof.
  exists [3; 3; 3; 3; 3], 0. split; [vm_compute; reflexivity|].
  repeat constructor; by apply N.leb_le.
Qed.

Lemma spread_measured : measured spread_duration.
Proof.
  exists [1; 2; 2; 2; 3], 0. split; [vm_compute; reflexivity|].
  repeat constructor; by apply N.leb_le.
Qed.

Lemma judge_performance_sound_witness :
  pr_verdict (judge_performance rounding_comparison) = Improved /\ 1 <= 1.
Proof.
  pose proof (judge_performance_sound rounding_comparison flat_measured spread_measured)
    as (_ & _ & _ & _ & Hn).
  assert (pr_verdict (judge_performance rounding_comparison) = Improved) as Hv
    by (vm_compute; reflexivity).
  split; [exact Hv|]. apply (Hn ltac:(by apply N.leb_le) Hv).
Defined.

(** The bound of [judge_performance_sound] is tight: a gain that
    exactly equals the noise is called [Improved], although equality is
    meant to be no result, because the gain is rounded up and the noise
    down. *)
Theorem gain_equal_to_noise_is_improved :
  exists c, measured (pc_baseline_duration c) /\ measured (pc_candidate_duration c)
    /\ median_nanos (pc_baseline_duration c) - median_nanos (pc_candidate_duration c)
       = combined_noise c
    /\ pr_verdict (judge_performance c) = Improved.
Proof.
  exists rounding_comparison. split_and!; [exact flat_measured|exact spread_measured|done|].
  vm_compute. reflexivity.
Qed.

(** Summarizing succeeds exactly on at least five non-zero samples,
    and then reports the extremes and a middle sample: at least half of
    the samples lie on either side of it. *)
Theorem from_samples_spec (samples : list N) (w : N) :
  (is_ok (from_samples samples w) = true <-> timed samples)
  /\ forall d, from_samples samples w = Ok d ->
       samples_nanos d = samples /\ summarizes samples d /\ 0 < median_nanos d.
Proof.
  split.
  - split; [|apply from_samples_total].
    destruct (from_samples samples w) as [d|e] eqn:E; [|done]. intros _.
    by apply from_samples_Ok in E as [? _].
  - intros d (Ht & Hr & _ & Hs & _)%from_samples_Ok. split_and!; [done|done|].
    destruct Ht as [_ Ht]. rewrite Forall_forall in Ht. by apply Ht, Hs.
Qed.
