(* ===== verification/Knowledge.v ===== *)
(** * Admission of evidence-backed knowledge

    [src/crates/alloyport-core/src/knowledge.rs]: the gate that decides
    the status of an entry from resolved citations. *)

From stdpp Require Import base strings list sorting sets.
From S2P Require Import Prelude Digest Identity Oracle Performance.

(** [enum KnowledgeKind]. *)
Inductive KnowledgeKind := Transformation | Fact | FailedRoute.

(** [struct KnowledgeScope]. *)
Record KnowledgeScope := MkScope {
  soc : string;
  cann : string;
  operator_family : string;
}.

(** [KnowledgeScope::is_valid]. *)
Definition scope_is_valid (s : KnowledgeScope) : bool :=
  forallb (fun field => negb (trim_is_empty field)) [soc s; cann s; operator_family s].

(** [enum Citation]. *)
Inductive Citation :=
| CiteCorrectness (digest : Sha256Digest)
| CitePerformance (digest : Sha256Digest)
| CiteBuild (digest : Sha256Digest).

(** [Citation::digest]. *)
Definition citation_digest (c : Citation) : Sha256Digest :=
  match c with CiteCorrectness d | CitePerformance d | CiteBuild d => d end.

(** [enum ResolvedCitation]. *)
Inductive ResolvedCitation :=
| Unresolved (digest : Sha256Digest)
| RCorrectness (digest : Sha256Digest) (task_id : TaskId) (candidate_id : CandidateId)
    (verdict : CorrectnessVerdict)
| RPerformance (digest : Sha256Digest) (verdict : PerformanceVerdict)
| RBuild (digest : Sha256Digest) (task_id : TaskId) (candidate_id : CandidateId) (passed : bool).

(** [ResolvedCitation::digest]. *)
Definition resolved_digest (r : ResolvedCitation) : Sha256Digest :=
  match r with
  | Unresolved d | RCorrectness d _ _ _ | RPerformance d _ | RBuild d _ _ _ => d
  end.

(** [ResolvedCitation::succeeded]. *)
Definition succeeded (r : ResolvedCitation) : option bool :=
  match r with
  | Unresolved _ => None
  | RCorrectness _ _ _ verdict => Some (match verdict with Pass => true | _ => false end)
  | RPerformance _ verdict => Some (match verdict with Improved => true | _ => false end)
  | RBuild _ _ _ passed => Some passed
  end.

(** [ResolvedCitation::task_id]. *)
Definition resolved_task_id (r : ResolvedCitation) : option TaskId :=
  match r with
  | RCorrectness _ task_id _ _ | RBuild _ task_id _ _ => Some task_id
  | Unresolved _ | RPerformance _ _ => None
  end.

(** [enum KnowledgeStatus]. *)
Inductive KnowledgeStatus := Proposed | Supported | Contested | Retracted.

(** [enum AdmissionRefusal], in its derived order. *)
Inductive AdmissionRefusal :=
| NoCitations | InvalidScope | UnresolvedCitation | EvidenceContradictsKind
| ForeignEvidence | UnevidencedRetraction.

#[export] Instance KnowledgeKind_eq_dec : EqDecision KnowledgeKind.
Proof. solve_decision. Defined.
#[export] Instance KnowledgeStatus_eq_dec : EqDecision KnowledgeStatus.
Proof. solve_decision. Defined.
#[export] Instance AdmissionRefusal_eq_dec : EqDecision AdmissionRefusal.
Proof. solve_decision. Defined.

Definition refusal_index (r : AdmissionRefusal) : nat :=
  match r with
  | NoCitations => 0 | InvalidScope => 1 | UnresolvedCitation => 2
  | EvidenceContradictsKind => 3 | ForeignEvidence => 4 | UnevidencedRetraction => 5
  end.

(** The derived [Ord]. *)
Definition admission_le (a b : AdmissionRefusal) : Prop := refusal_index a <= refusal_index b.

(** [struct Retraction]. *)
Record Retraction := MkRetraction {
  rt_entry_id : string;
  rt_reason : string;
  rt_citations : list Citation;
}.

(** [struct KnowledgeEntry]. *)
Record KnowledgeEntry := MkEntry {
  ke_schema_version : N;
  ke_id : string;
  ke_kind : KnowledgeKind;
  ke_scope : KnowledgeScope;
  ke_task_id : TaskId;
  ke_claim : string;
  ke_citations : list Citation;
  ke_retracts : option Retraction;
}.

(** [struct Admission]. *)
Record Admission := MkAdmission {
  ad_status : KnowledgeStatus;
  ad_refusals : list AdmissionRefusal;
}.

(** [struct AuditFinding]. *)
Record AuditFinding := MkAuditFinding {
  af_id : string;
  af_recorded : KnowledgeStatus;
  af_granted : KnowledgeStatus;
  af_refusals : list AdmissionRefusal;
}.

#[export] Instance admission_le_dec : RelDecision admission_le.
Proof. intros a b. unfold admission_le. apply _. Defined.

(** [check_citation]: the refusals it pushes. *)
Definition check_citation (entry : KnowledgeEntry) (citation : Citation)
    (resolved : list ResolvedCitation) (kind : KnowledgeKind) : list AdmissionRefusal :=
  match List.find (fun candidate =>
          bool_decide (resolved_digest candidate = citation_digest citation)) resolved with
  | None => [UnresolvedCitation]
  | Some found =>
      match succeeded found with
      | None => [UnresolvedCitation]
      | Some ok =>
          (match resolved_task_id found with
           | Some task_id =>
               if decide (task_id <> ke_task_id entry) then [ForeignEvidence] else []
           | None => []
           end)
          ++ (let expected := match kind with FailedRoute => false | _ => true end in
              if Bool.eqb ok expected then [] else [EvidenceContradictsKind])
      end
  end.

(** [Vec::dedup]: consecutive equal elements are merged. *)
Fixpoint dedup (l : list AdmissionRefusal) : list AdmissionRefusal :=
  match l with
  | a :: l' =>
      match l' with
      | b :: _ => if decide (a = b) then dedup l' else a :: dedup l'
      | [] => [a]
      end
  | [] => []
  end.

(** The common end of [admit]: sort, deduplicate, decide. *)
Definition conclude (granted : KnowledgeStatus) (refusals : list AdmissionRefusal) : Admission :=
  let refusals := dedup (merge_sort admission_le refusals) in
  MkAdmission (match refusals with [] => granted | _ => Proposed end) refusals.

(** [admit]. *)
Definition admit_entry (entry : KnowledgeEntry) (resolved : list ResolvedCitation) : Admission :=
  let refusals :=
    if negb (scope_is_valid (ke_scope entry)) || trim_is_empty (ke_claim entry)
       || trim_is_empty (ke_id entry)
    then [InvalidScope] else [] in
  match ke_retracts entry with
  | Some retraction =>
      let refusals := refusals
        ++ (if (length (rt_citations retraction) =? 0) || trim_is_empty (rt_reason retraction)
            then [UnevidencedRetraction] else []) in
      conclude Retracted (refusals ++ flat_map (fun citation =>
        check_citation entry citation resolved FailedRoute) (rt_citations retraction))
  | None =>
      let refusals := refusals
        ++ (if length (ke_citations entry) =? 0 then [NoCitations] else []) in
      conclude Supported (refusals ++ flat_map (fun citation =>
        check_citation entry citation resolved (ke_kind entry)) (ke_citations entry))
  end.

(** [audit]. *)
Definition audit (stored : list (KnowledgeEntry * KnowledgeStatus * list ResolvedCitation)) :
    list AuditFinding :=
  omap (fun '(entry, recorded, resolved) =>
    let admission := admit_entry entry resolved in
    if decide (ad_status admission <> recorded)
    then Some (MkAuditFinding (ke_id entry) recorded (ad_status admission) (ad_refusals admission))
    else None) stored.

(** ** Sorting and deduplication *)

#[export] Instance admission_le_preorder : PreOrder admission_le.
Proof. split; [intros a|intros a b c]; unfold admission_le; lia. Qed.
#[export] Instance admission_le_total : Total admission_le.
Proof. intros a b. unfold admission_le. lia. Qed.

Lemma refusal_index_inj a b : refusal_index a = refusal_index b -> a = b.
Proof. by destruct a, b. Qed.

Lemma elem_of_dedup r l : r ∈ dedup l <-> r ∈ l.
Proof.
  induction l as [|a [|b l] IH]; [done|done|]. cbn [dedup] in *.
  case_decide as E; [subst b|]; rewrite !elem_of_cons in *; [|naive_solver].
  rewrite IH. naive_solver.
Qed.

(** Strictly increasing in the derived order, hence without repetition. *)
Definition admission_lt (a b : AdmissionRefusal) : Prop := refusal_index a < refusal_index b.

Lemma dedup_sorted l : StronglySorted admission_le l -> StronglySorted admission_lt (dedup l).
Proof.
  induction l as [|a [|b l] IH]; intros Hs; [constructor|by repeat constructor|].
  apply StronglySorted_inv in Hs as [Hs Ha].
  cbn [dedup]. case_decide as E; [by apply IH|].
  constructor; [by apply IH|]. apply Forall_forall. intros r Hr. apply (elem_of_dedup r (b :: l)) in Hr.
  rewrite Forall_forall in Ha. pose proof (Ha b ltac:(left)) as Hb.
  assert (admission_le b r) as Hbr.
  { apply elem_of_cons in Hr as [->|Hr]; [unfold admission_le; lia|].
    apply StronglySorted_inv in Hs as [_ Hb']. rewrite Forall_forall in Hb'. by apply Hb'. }
  pose proof (fun H => E (refusal_index_inj a b H)).
  unfold admission_le, admission_lt in *. lia.
Qed.

Lemma elem_of_concluded r l : r ∈ dedup (merge_sort admission_le l) <-> r ∈ l.
Proof. by rewrite elem_of_dedup, merge_sort_Permutation. Qed.

Lemma conclude_spec g l :
  StronglySorted admission_lt (ad_refusals (conclude g l))
  /\ (forall r, r ∈ ad_refusals (conclude g l) <-> r ∈ l)
  /\ (g <> Proposed -> (ad_status (conclude g l) = g <-> l = []))
  /\ (ad_status (conclude g l) <> g -> ad_status (conclude g l) = Proposed).
Proof.
  unfold conclude. cbn [ad_status ad_refusals].
  pose proof (dedup_sorted _ (StronglySorted_merge_sort admission_le l)) as Hs.
  pose proof (fun r => elem_of_concluded r l) as He. revert Hs He.
  generalize (dedup (merge_sort admission_le l)). intros k Hs He. split_and!; [done|done|..].
  - intros Hg. destruct k as [|r k].
    + split; [|done]. intros _. destruct l as [|r l]; [done|].
      by destruct (not_elem_of_nil r (proj2 (He r) ltac:(left))).
    + split; [congruence|]. intros ->. by destruct (not_elem_of_nil r (proj1 (He r) ltac:(left))).
  - by destruct k.
Qed.

(** ** What the gate decides *)

(** The entry says where it applies, what it claims and who it is. *)
Definition described (entry : KnowledgeEntry) : Prop :=
  scope_is_valid (ke_scope entry) = true
  /\ trim_is_empty (ke_claim entry) = false /\ trim_is_empty (ke_id entry) = false.

(** The citations the gate checks, and the kind it checks them as. *)
Definition judged_citations (entry : KnowledgeEntry) : list Citation :=
  match ke_retracts entry with Some r => rt_citations r | None => ke_citations entry end.
Definition judged_kind (entry : KnowledgeEntry) : KnowledgeKind :=
  match ke_retracts entry with Some _ => FailedRoute | None => ke_kind entry end.

(** The resolution a digest is read from: the first one listed for it. *)
Definition first_resolution (resolved : list ResolvedCitation) (digest : Sha256Digest)
    (r : ResolvedCitation) : Prop :=
  exists before after, resolved = before ++ r :: after
    /\ resolved_digest r = digest /\ Forall (fun x => resolved_digest x <> digest) before.

(** A receipt bears a kind of claim when it succeeded, or failed for a
    failed route. *)
Definition bears (kind : KnowledgeKind) : bool :=
  match kind with FailedRoute => false | _ => true end.

(** The citation resolves to a receipt of the entry's task whose outcome
    is the one the kind rests on. *)
Definition evidenced (entry : KnowledgeEntry) (resolved : list ResolvedCitation)
    (kind : KnowledgeKind) (citation : Citation) : Prop :=
  exists r, first_resolution resolved (citation_digest citation) r
    /\ succeeded r = Some (bears kind)
    /\ forall task_id, resolved_task_id r = Some task_id -> task_id = ke_task_id entry.

(** Why a refusal is reported. *)
Definition cause (entry : KnowledgeEntry) (resolved : list ResolvedCitation)
    (refusal : AdmissionRefusal) : Prop :=
  match refusal with
  | NoCitations => ke_retracts entry = None /\ ke_citations entry = []
  | InvalidScope => ~ described entry
  | UnevidencedRetraction => exists r, ke_retracts entry = Some r
      /\ (rt_citations r = [] \/ trim_is_empty (rt_reason r) = true)
  | UnresolvedCitation => exists c, c ∈ judged_citations entry
      /\ forall r, first_resolution resolved (citation_digest c) r -> succeeded r = None
  | EvidenceContradictsKind => exists c r, c ∈ judged_citations entry
      /\ first_resolution resolved (citation_digest c) r
      /\ succeeded r = Some (negb (bears (judged_kind entry)))
  | ForeignEvidence => exists c r task_id, c ∈ judged_citations entry
      /\ first_resolution resolved (citation_digest c) r
      /\ resolved_task_id r = Some task_id /\ task_id <> ke_task_id entry
  end.

Lemma find_first resolved digest :
  match List.find (fun candidate => bool_decide (resolved_digest candidate = digest)) resolved with
  | Some r => first_resolution resolved digest r
  | None => forall r, ~ first_resolution resolved digest r
  end.
Proof.
  induction resolved as [|x l IH]; cbn [List.find].
  - intros r (before & after & E & _). by destruct before.
  - case_bool_decide as Ex; [by exists [], l|].
    destruct (List.find _ l) as [r|].
    + destruct IH as (before & after & -> & Hr & Hb). exists (x :: before), after. naive_solver.
    + intros r (before & after & E & Hr & Hb). destruct before as [|y before]; simplify_eq/=.
      apply (IH r). exists before, after. by apply Forall_cons in Hb as [_ ?].
Qed.

Lemma first_resolution_det resolved digest r1 r2 :
  first_resolution resolved digest r1 -> first_resolution resolved digest r2 -> r1 = r2.
Proof.
  intros (b1 & a1 & -> & H1 & F1) (b2 & a2 & E & H2 & F2).
  revert b2 E F2. induction b1 as [|x b1 IH]; intros [|y b2] E F2; simplify_eq/=; [done|..].
  - by apply Forall_cons in F2 as [? _].
  - by apply Forall_cons in F1 as [? _].
  - apply Forall_cons in F1 as [_ F1], F2 as [_ F2]. by eapply IH.
Qed.

(** A citation's refusals and their causes. *)
Definition citation_cause (entry : KnowledgeEntry) (c : Citation)
    (resolved : list ResolvedCitation) (kind : KnowledgeKind) (refusal : AdmissionRefusal) : Prop :=
  match refusal with
  | UnresolvedCitation =>
      forall r, first_resolution resolved (citation_digest c) r -> succeeded r = None
  | EvidenceContradictsKind => exists r, first_resolution resolved (citation_digest c) r
      /\ succeeded r = Some (negb (bears kind))
  | ForeignEvidence => exists r task_id, first_resolution resolved (citation_digest c) r
      /\ resolved_task_id r = Some task_id /\ task_id <> ke_task_id entry
  | _ => False
  end.

Lemma task_succeeded r t : resolved_task_id r = Some t -> succeeded r <> None.
Proof. by destruct r. Qed.

Lemma elem_of_when {A} (b : bool) (x r : A) : r ∈ (if b then [x] else []) <-> b = true /\ r = x.
Proof. destruct b; rewrite ?list_elem_of_singleton, ?elem_of_nil; naive_solver. Qed.

Lemma elem_of_unless {A} (b : bool) (x r : A) : r ∈ (if b then [] else [x]) <-> b = false /\ r = x.
Proof. destruct b; rewrite ?list_elem_of_singleton, ?elem_of_nil; naive_solver. Qed.

Lemma elem_of_decided {A} P `{Decision P} (x r : A) :
  r ∈ (if decide P then [x] else []) <-> P /\ r = x.
Proof. case_decide; rewrite ?list_elem_of_singleton, ?elem_of_nil; naive_solver. Qed.

Lemma contradicts_kind ok kind :
  Bool.eqb ok (match kind with FailedRoute => false | _ => true end) = false
  <-> ok = negb (bears kind).
Proof. by destruct ok, kind. Qed.

(** The refusals for one resolved receipt. *)
Lemma found_refusals entry kind r ok refusal :
  refusal ∈ (match resolved_task_id r with
             | Some task_id => if decide (task_id <> ke_task_id entry) then [ForeignEvidence] else []
             | None => []
             end)
            ++ (if Bool.eqb ok (match kind with FailedRoute => false | _ => true end)
                then [] else [EvidenceContradictsKind])
  <-> (refusal = ForeignEvidence
       /\ exists t, resolved_task_id r = Some t /\ t <> ke_task_id entry)
      \/ (refusal = EvidenceContradictsKind /\ ok = negb (bears kind)).
Proof.
  rewrite elem_of_app, elem_of_unless, contradicts_kind.
  destruct (resolved_task_id r) as [t|]; rewrite ?elem_of_decided, ?elem_of_nil; naive_solver.
Qed.

Lemma check_citation_spec entry c resolved kind refusal :
  refusal ∈ check_citation entry c resolved kind <-> citation_cause entry c resolved kind refusal.
Proof.
  unfold check_citation. pose proof (find_first resolved (citation_digest c)) as Hf.
  destruct (List.find _ resolved) as [r|].
  2:{ rewrite list_elem_of_singleton. destruct refusal; cbn [citation_cause]; naive_solver. }
  pose proof (fun x => first_resolution_det resolved (citation_digest c) r x Hf) as Hdet.
  pose proof (task_succeeded r) as Hts.
  destruct (succeeded r) as [ok|] eqn:Es.
  - rewrite found_refusals. destruct refusal; cbn [citation_cause]; naive_solver.
  - rewrite list_elem_of_singleton. destruct refusal; cbn [citation_cause]; split; try done.
    + intros _ x Hx. by rewrite <-(Hdet _ Hx).
    + intros (x & Hx & Hs). rewrite <-(Hdet _ Hx), Es in Hs. done.
    + intros (x & t & Hx & Ht & _). rewrite <-(Hdet _ Hx) in Ht. by destruct (Hts t Ht).
Qed.

Lemma evidenced_checks entry c resolved kind :
  evidenced entry resolved kind c <-> check_citation entry c resolved kind = [].
Proof.
  pose proof (check_citation_spec entry c resolved kind) as Hs.
  pose proof (find_first resolved (citation_digest c)) as Hf.
  split.
  - intros (r & Hr & Hk & Ht). apply elem_of_nil_inv. intros refusal Hin%Hs.
    pose proof (first_resolution_det resolved (citation_digest c) r) as Hdet.
    destruct refusal; cbn [citation_cause] in Hin; try done.
    + by rewrite (Hin _ Hr) in Hk.
    + destruct Hin as (x & Hx & E). rewrite <-(Hdet _ Hr Hx), Hk in E. by destruct kind.
    + destruct Hin as (x & t & Hx & E & Hne). rewrite <-(Hdet _ Hr Hx) in E. by apply Ht in E.
  - intros E. rewrite E in Hs. destruct (List.find _ resolved) as [r|].
    2:{ destruct (not_elem_of_nil UnresolvedCitation). apply Hs. intros r Hr. by destruct (Hf r). }
    exists r. split; [done|].
    destruct (succeeded r) as [ok|] eqn:Es.
    + split.
      * destruct (decide (ok = bears kind)) as [->|Hne]; [done|].
        destruct (not_elem_of_nil EvidenceContradictsKind). apply Hs. exists r. split; [done|].
        rewrite Es. by destruct ok, kind.
      * intros t Ht. destruct (decide (t = ke_task_id entry)) as [|Hne]; [done|].
        destruct (not_elem_of_nil ForeignEvidence). apply Hs. by exists r, t.
    + destruct (not_elem_of_nil UnresolvedCitation). apply Hs. intros x Hx.
      by rewrite <-(first_resolution_det _ _ _ _ Hf Hx).
Qed.

(** The refusals [admit_entry] collects before sorting. *)
Definition raw_refusals (entry : KnowledgeEntry) (resolved : list ResolvedCitation) :
    list AdmissionRefusal :=
  (if negb (scope_is_valid (ke_scope entry)) || trim_is_empty (ke_claim entry)
      || trim_is_empty (ke_id entry) then [InvalidScope] else [])
  ++ (match ke_retracts entry with
      | Some r => if (length (rt_citations r) =? 0) || trim_is_empty (rt_reason r)
                  then [UnevidencedRetraction] else []
      | None => if length (ke_citations entry) =? 0 then [NoCitations] else []
      end)
  ++ flat_map (fun c => check_citation entry c resolved (judged_kind entry)) (judged_citations entry).

Definition granted_status (entry : KnowledgeEntry) : KnowledgeStatus :=
  match ke_retracts entry with Some _ => Retracted | None => Supported end.

Lemma admit_entry_conclude entry resolved :
  admit_entry entry resolved = conclude (granted_status entry) (raw_refusals entry resolved).
Proof.
  unfold admit_entry, raw_refusals, granted_status, judged_kind, judged_citations.
  by destruct (ke_retracts entry); rewrite app_assoc.
Qed.

Lemma undescribed entry :
  negb (scope_is_valid (ke_scope entry)) || trim_is_empty (ke_claim entry)
  || trim_is_empty (ke_id entry) = true <-> ~ described entry.
Proof.
  unfold described.
  destruct (scope_is_valid _), (trim_is_empty (ke_claim entry)), (trim_is_empty (ke_id entry));
    cbn; naive_solver.
Qed.

Lemma described_nil entry :
  (if negb (scope_is_valid (ke_scope entry)) || trim_is_empty (ke_claim entry)
      || trim_is_empty (ke_id entry) then [InvalidScope] else []) = [] <-> described entry.
Proof.
  unfold described.
  destruct (scope_is_valid _), (trim_is_empty (ke_claim entry)), (trim_is_empty (ke_id entry));
    cbn; naive_solver.
Qed.

Lemma checks_nil entry resolved kind cs :
  flat_map (fun c => check_citation entry c resolved kind) cs = []
  <-> Forall (evidenced entry resolved kind) cs.
Proof.
  induction cs as [|c l IH]; [by split|].
  cbn [flat_map]. by rewrite app_nil, Forall_cons, IH, evidenced_checks.
Qed.

Lemma empty_length {A} (l : list A) : (length l =? 0) = true <-> l = [].
Proof. by destruct l. Qed.

Lemma elem_of_checks entry resolved kind cs refusal :
  refusal ∈ flat_map (fun c => check_citation entry c resolved kind) cs
  <-> exists c, c ∈ cs /\ citation_cause entry c resolved kind refusal.
Proof.
  rewrite list_elem_of_In, in_flat_map. setoid_rewrite <-list_elem_of_In.
  by setoid_rewrite check_citation_spec.
Qed.

Lemma raw_refusals_cause entry resolved refusal :
  refusal ∈ raw_refusals entry resolved <-> cause entry resolved refusal.
Proof.
  unfold raw_refusals. rewrite !elem_of_app, elem_of_when, undescribed, elem_of_checks.
  unfold cause, judged_citations, judged_kind, citation_cause.
  destruct (ke_retracts entry) as [r|];
    rewrite elem_of_when, ?orb_true_iff, empty_length;
    destruct refusal; naive_solver.
Qed.

Lemma raw_refusals_nil entry resolved :
  raw_refusals entry resolved = []
  <-> described entry /\ judged_citations entry <> []
      /\ Forall (evidenced entry resolved (judged_kind entry)) (judged_citations entry)
      /\ (forall r, ke_retracts entry = Some r -> trim_is_empty (rt_reason r) = false).
Proof.
  unfold raw_refusals. rewrite !app_nil, described_nil, checks_nil.
  unfold judged_citations. destruct (ke_retracts entry) as [r|].
  - assert ((if (length (rt_citations r) =? 0) || trim_is_empty (rt_reason r)
        then [UnevidencedRetraction] else []) = []
      <-> rt_citations r <> [] /\ trim_is_empty (rt_reason r) = false) as ->
      by (destruct (rt_citations r), (trim_is_empty (rt_reason r)); cbn; intuition congruence).
    naive_solver.
  - assert ((if length (ke_citations entry) =? 0 then [NoCitations] else []) = []
      <-> ke_citations entry <> []) as ->
      by (destruct (ke_citations entry); cbn; intuition congruence).
    naive_solver.
Qed.

(** The gate grants [Supported] exactly to a described entry each of
    whose citations resolves to a receipt of its own task with the outcome
    its kind rests on, and at least one; [Retracted] exactly to a reasoned
    retraction backed the same way by failures; [Contested] never; and the
    refusals it reports are, without repetition and in order, exactly the
    ones that have a cause. *)
Theorem admission_decision (entry : KnowledgeEntry) (resolved : list ResolvedCitation) :
  let a := admit_entry entry resolved in
  (ad_status a = Supported <-> ke_retracts entry = None /\ described entry
     /\ ke_citations entry <> []
     /\ Forall (evidenced entry resolved (ke_kind entry)) (ke_citations entry))
  /\ (ad_status a = Retracted <-> exists r, ke_retracts entry = Some r /\ described entry
     /\ trim_is_empty (rt_reason r) = false /\ rt_citations r <> []
     /\ Forall (evidenced entry resolved FailedRoute) (rt_citations r))
  /\ ad_status a <> Contested
  /\ StronglySorted admission_lt (ad_refusals a)
  /\ forall refusal, refusal ∈ ad_refusals a <-> cause entry resolved refusal.
Proof.
  cbn zeta. rewrite admit_entry_conclude.
  destruct (conclude_spec (granted_status entry) (raw_refusals entry resolved))
    as (Hs & He & Hg & Hp).
  assert (granted_status entry <> Proposed) as Hgr
    by (unfold granted_status; by destruct (ke_retracts entry)).
  specialize (Hg Hgr).
  rewrite raw_refusals_nil in Hg. setoid_rewrite raw_refusals_cause in He.
  set (a := conclude _ _) in *. clearbody a.
  unfold granted_status, judged_citations, judged_kind in *.
  assert (ad_status a <> Contested) as Hc.
  { intros E. destruct (ke_retracts entry); rewrite E in Hp; by specialize (Hp ltac:(done)). }
  destruct (ke_retracts entry) as [r|]; (split; [|split; [|split_and!; done]]).
  - split; [|by intros [? _]]. intros E. rewrite E in Hp. by specialize (Hp ltac:(done)).
  - rewrite Hg. split.
    + intros (Hd & Hn & Hf & Hr). exists r. split_and!; try done. by apply Hr.
    + intros (r' & [= <-] & Hd & Hr & Hn & Hf). split_and!; try done. by intros ? [= <-].
  - rewrite Hg. split.
    + intros (? & ? & ? & _). by split_and!.
    + intros (_ & ? & ? & ?). split_and!; try done.
  - split; [|by intros (? & ? & _)]. intros E. rewrite E in Hp. by specialize (Hp ltac:(done)).
Qed.

(** The audit of stored entries is silent exactly when every recorded
    status is the one the gate grants today; since the gate never grants
    it, an entry recorded as [Contested] is always reported. *)
Theorem audit_reports (stored : list (KnowledgeEntry * KnowledgeStatus * list ResolvedCitation)) :
  (audit stored = [] <-> Forall (fun '(entry, recorded, resolved) =>
     ad_status (admit_entry entry resolved) = recorded) stored)
  /\ forall entry resolved, (entry, Contested, resolved) ∈ stored ->
       MkAuditFinding (ke_id entry) Contested (ad_status (admit_entry entry resolved))
         (ad_refusals (admit_entry entry resolved)) ∈ audit stored.
Proof.
  unfold audit. split.
  - induction stored as [|[[entry recorded] resolved] l IH]; [split; [constructor|done]|].
    cbn [omap list_omap]. rewrite Forall_cons, <-IH. case_decide; naive_solver.
  - intros entry resolved Hin. apply list_elem_of_omap. eexists. split; [exact Hin|].
    cbn beta iota zeta. rewrite decide_True; [done|].
    rewrite admit_entry_conclude. unfold conclude, granted_status. cbn [ad_status].
    by repeat case_match.
Qed.
