(* ===== verification/AgentRecord.v ===== *)
(** * Durable records of episodes, tool operations and candidate search

    [src/crates/alloyport-core/src/agent.rs]: the status tables of the
    three aggregates, their checked reducers and the immutable identity
    they carry.  A [&mut self] method that returns [Result<(), E>] is a
    function to [result E Record]: each of them checks before it writes. *)

From stdpp Require Import base strings relations list.
From S2P Require Import Prelude Digest Identity.

(** [enum AgentRecordError]. *)
Inductive AgentRecordError :=
| EmptyField (field : string)
| InvalidTransition (aggregate from to : string)
| TerminalResultRequired
| SearchNotRunning
| DuplicateCandidate (id : CandidateId)
| SearchCannotRefine
| UnknownIncumbent (id : CandidateId).

#[global] Instance AgentRecordError_eq_dec : EqDecision AgentRecordError.
Proof. solve_decision. Defined.

(** [require_text]. *)
Definition require_text (field value : string) : result AgentRecordError unit :=
  guard_err (trim_is_empty value) (EmptyField field).

(** [invalid_transition], on the [Debug] texts of the two statuses. *)
Definition invalid_transition (aggregate from to : string) : AgentRecordError :=
  InvalidTransition aggregate from to.

(** ** Episodes *)

Module Episode.

(** [enum EpisodeStatus]. *)
Inductive EpisodeStatus :=
| Created | ReadyForModel | ModelAttemptPending | TurnRecorded | ToolWorkPending
| StopReview | SuspensionRequested | Suspended | CancellationPending
| Succeeded | Incomplete | Cancelled | BudgetExhausted | Failed.

#[global] Instance EpisodeStatus_eq_dec : EqDecision EpisodeStatus.
Proof. solve_decision. Defined.

(** The derived [Debug] text. *)
Definition EpisodeStatus_debug (s : EpisodeStatus) : string :=
  match s with
  | Created => "Created" | ReadyForModel => "ReadyForModel"
  | ModelAttemptPending => "ModelAttemptPending" | TurnRecorded => "TurnRecorded"
  | ToolWorkPending => "ToolWorkPending" | StopReview => "StopReview"
  | SuspensionRequested => "SuspensionRequested" | Suspended => "Suspended"
  | CancellationPending => "CancellationPending" | Succeeded => "Succeeded"
  | Incomplete => "Incomplete" | Cancelled => "Cancelled"
  | BudgetExhausted => "BudgetExhausted" | Failed => "Failed"
  end.

(** [EpisodeStatus::can_transition_to]. *)
Definition episode_can_transition_to (self next : EpisodeStatus) : bool :=
  match self, next with
  | Created, (ReadyForModel | CancellationPending)
  | ReadyForModel, (ModelAttemptPending | SuspensionRequested | CancellationPending
                   | BudgetExhausted | Failed)
  | ModelAttemptPending, (TurnRecorded | ReadyForModel | SuspensionRequested
                         | CancellationPending | BudgetExhausted | Failed)
  | TurnRecorded, (ToolWorkPending | StopReview | CancellationPending
                  | BudgetExhausted | Failed)
  | ToolWorkPending, (ReadyForModel | SuspensionRequested | CancellationPending
                     | BudgetExhausted | Failed)
  | StopReview, (ReadyForModel | Succeeded | Incomplete | SuspensionRequested
                | CancellationPending | BudgetExhausted | Failed)
  | SuspensionRequested, (Suspended | CancellationPending | Failed)
  | Suspended, (ReadyForModel | ToolWorkPending | CancellationPending | Failed)
  | CancellationPending, (Cancelled | Suspended) => true
  | _, _ => false
  end.

(** [EpisodeStatus::is_terminal]. *)
Definition episode_is_terminal (self : EpisodeStatus) : bool :=
  match self with
  | Succeeded | Incomplete | Cancelled | BudgetExhausted | Failed => true
  | _ => false
  end.

(** [struct EpisodeSpec]. *)
Record EpisodeSpec := MkEpisodeSpec {
  es_id : EpisodeId;
  es_task_id : TaskId;
  es_search_run_id : SearchRunId;
  es_parent_candidate_id : option CandidateId;
  es_subtask_contract_digest : Sha256Digest;
  es_context_projection_digest : Sha256Digest;
  es_input_artifact_root_digest : Sha256Digest;
  es_runtime_model_alias : string;
  es_resolved_model_digest : Sha256Digest;
  es_prompt_revision : string;
  es_tool_catalog_digest : Sha256Digest;
  es_loop_policy_digest : Sha256Digest;
  es_data_boundary_policy_digest : Sha256Digest;
  es_budget_snapshot_digest : Sha256Digest;
}.

#[global] Instance EpisodeSpec_eq_dec : EqDecision EpisodeSpec.
Proof. solve_decision. Defined.

Definition AGENT_EPISODE_SCHEMA_V1 : N := 1.

(** [struct AgentEpisodeRecord]: the schema version, the fields copied
    from the spec, and the status. *)
Record AgentEpisodeRecord := MkEpisode {
  ep_schema_version : N;
  ep_spec : EpisodeSpec;
  ep_status : EpisodeStatus;
}.

#[global] Instance AgentEpisodeRecord_eq_dec : EqDecision AgentEpisodeRecord.
Proof. solve_decision. Defined.

Definition ep_id (e : AgentEpisodeRecord) : EpisodeId := es_id (ep_spec e).

Definition set_ep_status (e : AgentEpisodeRecord) (s : EpisodeStatus) : AgentEpisodeRecord :=
  MkEpisode (ep_schema_version e) (ep_spec e) s.

(** [AgentEpisodeRecord::new]. *)
Definition episode_new (spec : EpisodeSpec) : result AgentRecordError AgentEpisodeRecord :=
  _ ← require_text "runtime model alias" (es_runtime_model_alias spec);
  _ ← require_text "prompt revision" (es_prompt_revision spec);
  Ok (MkEpisode AGENT_EPISODE_SCHEMA_V1 spec Created).

(** [AgentEpisodeRecord::transition]. *)
Definition episode_transition (self : AgentEpisodeRecord) (next : EpisodeStatus)
    : result AgentRecordError AgentEpisodeRecord :=
  _ ← guard_err (negb (episode_can_transition_to (ep_status self) next))
        (invalid_transition "episode" (EpisodeStatus_debug (ep_status self))
           (EpisodeStatus_debug next));
  Ok (set_ep_status self next).

(** The statuses [AgentEpisodeRecord::resume] accepts. *)
Definition episode_resumable (s : EpisodeStatus) : bool :=
  match s with
  | Failed | Incomplete | BudgetExhausted => true
  | _ => false
  end.

(** [AgentEpisodeRecord::resume]. *)
Definition episode_resume (self : AgentEpisodeRecord)
    : result AgentRecordError AgentEpisodeRecord :=
  _ ← guard_err (negb (episode_resumable (ep_status self)))
        (invalid_transition "episode" (EpisodeStatus_debug (ep_status self))
           (EpisodeStatus_debug ReadyForModel));
  Ok (set_ep_status self ReadyForModel).

(** [AgentEpisodeRecord::matches_immutable]: every field but the status
    and the budget snapshot. *)
Definition matches_immutable (self expected : AgentEpisodeRecord) : bool :=
  let a := ep_spec self in
  let b := ep_spec expected in
  bool_decide (ep_schema_version self = ep_schema_version expected)
  && bool_decide (es_id a = es_id b)
  && bool_decide (es_task_id a = es_task_id b)
  && bool_decide (es_search_run_id a = es_search_run_id b)
  && bool_decide (es_parent_candidate_id a = es_parent_candidate_id b)
  && bool_decide (es_subtask_contract_digest a = es_subtask_contract_digest b)
  && bool_decide (es_context_projection_digest a = es_context_projection_digest b)
  && bool_decide (es_input_artifact_root_digest a = es_input_artifact_root_digest b)
  && bool_decide (es_runtime_model_alias a = es_runtime_model_alias b)
  && bool_decide (es_resolved_model_digest a = es_resolved_model_digest b)
  && bool_decide (es_prompt_revision a = es_prompt_revision b)
  && bool_decide (es_tool_catalog_digest a = es_tool_catalog_digest b)
  && bool_decide (es_loop_policy_digest a = es_loop_policy_digest b)
  && bool_decide (es_data_boundary_policy_digest a = es_data_boundary_policy_digest b).

(** *** Lemmas *)

Lemma episode_transition_Ok e s e' :
  episode_transition e s = Ok e' <->
  episode_can_transition_to (ep_status e) s = true /\ e' = set_ep_status e s.
Proof.
  unfold episode_transition. rewrite guard_bind_Ok, negb_false_iff. naive_solver.
Qed.

Lemma episode_resume_Ok e e' :
  episode_resume e = Ok e' <->
  episode_resumable (ep_status e) = true /\ e' = set_ep_status e ReadyForModel.
Proof. unfold episode_resume. rewrite guard_bind_Ok, negb_false_iff. naive_solver. Qed.

Lemma episode_terminal_closed s s' :
  episode_is_terminal s = true -> episode_can_transition_to s s' = false.
Proof. by destruct s. Qed.

Lemma episode_resumable_terminal s : episode_resumable s = true -> episode_is_terminal s = true.
Proof. by destruct s. Qed.

Lemma matches_immutable_spec a b :
  matches_immutable a b = true <->
  ep_schema_version a = ep_schema_version b
  /\ ep_spec a = MkEpisodeSpec (es_id (ep_spec b)) (es_task_id (ep_spec b))
       (es_search_run_id (ep_spec b)) (es_parent_candidate_id (ep_spec b))
       (es_subtask_contract_digest (ep_spec b)) (es_context_projection_digest (ep_spec b))
       (es_input_artifact_root_digest (ep_spec b)) (es_runtime_model_alias (ep_spec b))
       (es_resolved_model_digest (ep_spec b)) (es_prompt_revision (ep_spec b))
       (es_tool_catalog_digest (ep_spec b)) (es_loop_policy_digest (ep_spec b))
       (es_data_boundary_policy_digest (ep_spec b))
       (es_budget_snapshot_digest (ep_spec a)).
Proof.
  unfold matches_immutable. rewrite !andb_true_iff, !bool_decide_eq_true.
  destruct a as [va sa ta], b as [vb sb tb], sa, sb; cbn.
  split; [intros; destruct_and!; by subst | intros [-> [=]]; by subst].
Qed.

#[global] Arguments episode_transition : simpl never.
#[global] Arguments episode_resume : simpl never.
#[global] Arguments matches_immutable : simpl never.

End Episode.

(** ** Tool operations *)

Module ToolOp.

(** [enum ToolEffectClass], [enum ToolResultAuthority]. *)
Inductive ToolEffectClass := ReadOnly | CandidateWrite | RemoteExecution | AuthorityRequest.
Inductive ToolResultAuthority := Narrative | Reported | Observed | VerifiedReference.

(** [enum ToolOperationStatus]. *)
Inductive ToolOperationStatus :=
| Requested | AwaitingPermission | Authorized | Dispatching | Running | Ambiguous
| Reconciling | RejectedAsInvalid | Denied | Succeeded | CandidateFailed | InfraFailed
| TimedOut | Cancelled.

#[global] Instance ToolEffectClass_eq_dec : EqDecision ToolEffectClass.
Proof. solve_decision. Defined.
#[global] Instance ToolResultAuthority_eq_dec : EqDecision ToolResultAuthority.
Proof. solve_decision. Defined.
#[global] Instance ToolOperationStatus_eq_dec : EqDecision ToolOperationStatus.
Proof. solve_decision. Defined.

Definition ToolOperationStatus_debug (s : ToolOperationStatus) : string :=
  match s with
  | Requested => "Requested" | AwaitingPermission => "AwaitingPermission"
  | Authorized => "Authorized" | Dispatching => "Dispatching" | Running => "Running"
  | Ambiguous => "Ambiguous" | Reconciling => "Reconciling"
  | RejectedAsInvalid => "RejectedAsInvalid" | Denied => "Denied"
  | Succeeded => "Succeeded" | CandidateFailed => "CandidateFailed"
  | InfraFailed => "InfraFailed" | TimedOut => "TimedOut" | Cancelled => "Cancelled"
  end.

(** [ToolOperationStatus::can_transition_to]. *)
Definition op_can_transition_to (self next : ToolOperationStatus) : bool :=
  match self, next with
  | Requested, (AwaitingPermission | Authorized | RejectedAsInvalid)
  | AwaitingPermission, (Authorized | Denied)
  | Authorized, (Dispatching | Cancelled)
  | Dispatching, (Running | Ambiguous | Succeeded | CandidateFailed | InfraFailed
                 | TimedOut | Cancelled)
  | Running, (Ambiguous | Succeeded | CandidateFailed | InfraFailed | TimedOut | Cancelled)
  | Ambiguous, Reconciling
  | Reconciling, (Running | Succeeded | CandidateFailed | InfraFailed | TimedOut
                 | Cancelled) => true
  | _, _ => false
  end.

(** [ToolOperationStatus::is_terminal]. *)
Definition op_is_terminal (self : ToolOperationStatus) : bool :=
  match self with
  | RejectedAsInvalid | Denied | Succeeded | CandidateFailed | InfraFailed | TimedOut
  | Cancelled => true
  | _ => false
  end.

(** [struct ToolOperationSpec]. *)
Record ToolOperationSpec := MkToolOperationSpec {
  os_id : ToolOperationId;
  os_episode_id : EpisodeId;
  os_turn_id : TurnId;
  os_native_call_id : string;
  os_tool_name : string;
  os_tool_version : string;
  os_effect_class : ToolEffectClass;
  os_result_authority : ToolResultAuthority;
  os_arguments_digest : Sha256Digest;
  os_input_identity_digest : Sha256Digest;
}.

#[global] Instance ToolOperationSpec_eq_dec : EqDecision ToolOperationSpec.
Proof. solve_decision. Defined.

Definition TOOL_OPERATION_SCHEMA_V1 : N := 1.

(** [struct ToolOperationRecord]: the schema version, the fields copied
    from the spec, the status and the terminal evidence. *)
Record ToolOperationRecord := MkOp {
  op_schema_version : N;
  op_spec : ToolOperationSpec;
  op_status : ToolOperationStatus;
  op_result_digest : option Sha256Digest;
  op_receipt_digests : list Sha256Digest;
}.

#[global] Instance ToolOperationRecord_eq_dec : EqDecision ToolOperationRecord.
Proof. solve_decision. Defined.

Definition op_id (o : ToolOperationRecord) : ToolOperationId := os_id (op_spec o).
Definition op_turn_id (o : ToolOperationRecord) : TurnId := os_turn_id (op_spec o).
Definition op_tool_name (o : ToolOperationRecord) : string := os_tool_name (op_spec o).
Definition op_result_authority (o : ToolOperationRecord) : ToolResultAuthority :=
  os_result_authority (op_spec o).

(** [ToolOperationRecord::new]. *)
Definition op_new (spec : ToolOperationSpec) : result AgentRecordError ToolOperationRecord :=
  _ ← require_text "native tool call ID" (os_native_call_id spec);
  _ ← require_text "tool name" (os_tool_name spec);
  _ ← require_text "tool version" (os_tool_version spec);
  Ok (MkOp TOOL_OPERATION_SCHEMA_V1 spec Requested None []).

(** [ToolOperationRecord::transition]. *)
Definition op_transition (self : ToolOperationRecord) (next : ToolOperationStatus)
    : result AgentRecordError ToolOperationRecord :=
  _ ← guard_err (op_is_terminal next) TerminalResultRequired;
  _ ← guard_err (negb (op_can_transition_to (op_status self) next))
        (invalid_transition "tool operation" (ToolOperationStatus_debug (op_status self))
           (ToolOperationStatus_debug next));
  Ok (MkOp (op_schema_version self) (op_spec self) next (op_result_digest self)
        (op_receipt_digests self)).

(** [ToolOperationRecord::finish]. *)
Definition op_finish (self : ToolOperationRecord) (terminal : ToolOperationStatus)
    (result_digest : Sha256Digest) (receipt_digests : list Sha256Digest)
    : result AgentRecordError ToolOperationRecord :=
  _ ← guard_err (negb (op_is_terminal terminal)
                 || negb (op_can_transition_to (op_status self) terminal))
        (invalid_transition "tool operation" (ToolOperationStatus_debug (op_status self))
           (ToolOperationStatus_debug terminal));
  Ok (MkOp (op_schema_version self) (op_spec self) terminal (Some result_digest)
        receipt_digests).

(** *** Lemmas *)

(** A record holds a result exactly when it is terminal. *)
Definition op_wf (o : ToolOperationRecord) : Prop :=
  op_is_terminal (op_status o) = true <-> is_Some (op_result_digest o).

Lemma op_new_Ok spec o :
  op_new spec = Ok o -> o = MkOp TOOL_OPERATION_SCHEMA_V1 spec Requested None [].
Proof. unfold op_new, require_text. rewrite !guard_bind_Ok. naive_solver. Qed.

Lemma op_transition_Ok o s o' :
  op_transition o s = Ok o' <->
  op_is_terminal s = false /\ op_can_transition_to (op_status o) s = true
  /\ o' = MkOp (op_schema_version o) (op_spec o) s (op_result_digest o) (op_receipt_digests o).
Proof. unfold op_transition. rewrite !guard_bind_Ok, negb_false_iff. naive_solver. Qed.

Lemma op_finish_Ok o s d rs o' :
  op_finish o s d rs = Ok o' <->
  op_is_terminal s = true /\ op_can_transition_to (op_status o) s = true
  /\ o' = MkOp (op_schema_version o) (op_spec o) s (Some d) rs.
Proof.
  unfold op_finish. rewrite guard_bind_Ok, orb_false_iff, !negb_false_iff. naive_solver.
Qed.

Lemma op_terminal_closed s s' : op_is_terminal s = true -> op_can_transition_to s s' = false.
Proof. by destruct s. Qed.

Lemma op_wf_new spec o : op_new spec = Ok o -> op_wf o.
Proof. intros ->%op_new_Ok. split; [done|]. by intros [? ?]. Qed.

Lemma op_wf_transition o s o' : op_wf o -> op_transition o s = Ok o' -> op_wf o'.
Proof.
  intros Hwf (Hs & Hc & ->)%op_transition_Ok. unfold op_wf in *. cbn. rewrite Hs.
  split; [done|]. intros H%Hwf. by rewrite op_terminal_closed in Hc.
Qed.

Lemma op_wf_finish o s d rs o' : op_finish o s d rs = Ok o' -> op_wf o'.
Proof. intros (Hs & Hc & ->)%op_finish_Ok. by split. Qed.

#[global] Arguments op_new : simpl never.
#[global] Arguments op_transition : simpl never.
#[global] Arguments op_finish : simpl never.

End ToolOp.

(** ** Candidate search *)

Module Search.

(** [enum SearchPhase], [enum SearchStatus]. *)
Inductive SearchPhase := Drafting | Refining.
Inductive SearchStatus :=
| Created | Running | Suspended | Completed | Exhausted | Cancelled | Failed.

#[global] Instance SearchPhase_eq_dec : EqDecision SearchPhase.
Proof. solve_decision. Defined.
#[global] Instance SearchStatus_eq_dec : EqDecision SearchStatus.
Proof. solve_decision. Defined.

Definition SearchStatus_debug (s : SearchStatus) : string :=
  match s with
  | Created => "Created" | Running => "Running" | Suspended => "Suspended"
  | Completed => "Completed" | Exhausted => "Exhausted" | Cancelled => "Cancelled"
  | Failed => "Failed"
  end.

(** [SearchStatus::can_transition_to]. *)
Definition search_can_transition_to (self next : SearchStatus) : bool :=
  match self, next with
  | Created, (Running | Cancelled | Failed)
  | Running, (Suspended | Completed | Exhausted | Cancelled | Failed)
  | Suspended, (Running | Cancelled | Failed) => true
  | _, _ => false
  end.

(** [struct SearchRunSpec]. *)
Record SearchRunSpec := MkSearchRunSpec {
  ss_id : SearchRunId;
  ss_task_id : TaskId;
  ss_migration_spec_digest : Sha256Digest;
  ss_selection_policy_digest : Sha256Digest;
  ss_budget_snapshot_digest : Sha256Digest;
}.

Definition SEARCH_RUN_SCHEMA_V1 : N := 1.

(** [struct SearchRunRecord]. *)
Record SearchRunRecord := MkSearch {
  sr_schema_version : N;
  sr_spec : SearchRunSpec;
  sr_status : SearchStatus;
  sr_phase : SearchPhase;
  sr_candidate_ids : list CandidateId;
  sr_incumbent_candidate_id : option CandidateId;
}.

(** [SearchRunRecord::new]. *)
Definition search_new (spec : SearchRunSpec) : SearchRunRecord :=
  MkSearch SEARCH_RUN_SCHEMA_V1 spec Created Drafting [] None.

(** [SearchRunRecord::transition]. *)
Definition search_transition (self : SearchRunRecord) (next : SearchStatus)
    : result AgentRecordError SearchRunRecord :=
  _ ← guard_err (negb (search_can_transition_to (sr_status self) next))
        (invalid_transition "search run" (SearchStatus_debug (sr_status self))
           (SearchStatus_debug next));
  Ok (MkSearch (sr_schema_version self) (sr_spec self) next (sr_phase self)
        (sr_candidate_ids self) (sr_incumbent_candidate_id self)).

(** [SearchRunRecord::record_candidate]. *)
Definition record_candidate (self : SearchRunRecord) (candidate_id : CandidateId)
    : result AgentRecordError SearchRunRecord :=
  _ ← guard_err (bool_decide (sr_status self <> Running)) SearchNotRunning;
  _ ← guard_err (bool_decide (candidate_id ∈ sr_candidate_ids self))
        (DuplicateCandidate candidate_id);
  Ok (MkSearch (sr_schema_version self) (sr_spec self) (sr_status self) (sr_phase self)
        (sr_candidate_ids self ++ [candidate_id]) (sr_incumbent_candidate_id self)).

(** [SearchRunRecord::begin_refining]. *)
Definition begin_refining (self : SearchRunRecord) (incumbent : CandidateId)
    : result AgentRecordError SearchRunRecord :=
  _ ← guard_err (bool_decide (sr_status self <> Running)
                 || bool_decide (sr_phase self <> Drafting)) SearchCannotRefine;
  _ ← guard_err (bool_decide (incumbent ∉ sr_candidate_ids self))
        (UnknownIncumbent incumbent);
  Ok (MkSearch (sr_schema_version self) (sr_spec self) (sr_status self) Refining
        (sr_candidate_ids self) (Some incumbent)).

(** *** Reachable search runs *)

Inductive search_step : SearchRunRecord -> SearchRunRecord -> Prop :=
| step_transition s next s' : search_transition s next = Ok s' -> search_step s s'
| step_candidate s c s' : record_candidate s c = Ok s' -> search_step s s'
| step_refine s c s' : begin_refining s c = Ok s' -> search_step s s'.

Definition search_steps : relation SearchRunRecord := rtc search_step.

(** The frontier has no duplicates, refinement has an incumbent of the
    frontier, drafting has none. *)
Definition search_wf (s : SearchRunRecord) : Prop :=
  NoDup (sr_candidate_ids s) /\
  match sr_phase s with
  | Drafting => sr_incumbent_candidate_id s = None
  | Refining => exists c, sr_incumbent_candidate_id s = Some c /\ c ∈ sr_candidate_ids s
  end.

(** What one step may change. *)
Definition search_frame (s s' : SearchRunRecord) : Prop :=
  sr_spec s' = sr_spec s
  /\ sr_candidate_ids s `prefix_of` sr_candidate_ids s'
  /\ (forall c, sr_incumbent_candidate_id s = Some c -> sr_incumbent_candidate_id s' = Some c).

Lemma search_step_wf s s' : search_wf s -> search_step s s' -> search_wf s'.
Proof.
  intros [Hd Hp] Hst. destruct Hst as [? n ? H|? c ? H|? c ? H].
  - unfold search_transition in H. apply guard_bind_Ok in H as [_ [= <-]]. by split.
  - unfold record_candidate in H. rewrite !guard_bind_Ok in H.
    destruct H as (_ & H%bool_decide_eq_false & [= <-]). split; cbn.
    + apply NoDup_app. split_and!; [done| |apply NoDup_singleton]. set_solver.
    + destruct (sr_phase _); [done|]. destruct Hp as (d & ? & ?). exists d.
      split; [done|]. apply elem_of_app. by left.
  - unfold begin_refining in H. rewrite !guard_bind_Ok in H.
    destruct H as (_ & H%bool_decide_eq_false%dec_stable & [= <-]). split; cbn; eauto.
Qed.

Lemma search_step_frame s s' : search_wf s -> search_step s s' -> search_frame s s'.
Proof.
  intros [_ Hp] Hst. destruct Hst as [? n ? H|? c ? H|? c ? H].
  - unfold search_transition in H. apply guard_bind_Ok in H as [_ [= <-]]. by split.
  - unfold record_candidate in H. rewrite !guard_bind_Ok in H.
    destruct H as (_ & _ & [= <-]). split; [done|]. cbn. split; [by eexists|done].
  - unfold begin_refining in H. rewrite !guard_bind_Ok, orb_false_iff in H.
    destruct H as ([_ H%bool_decide_eq_false%dec_stable] & _ & [= <-]).
    rewrite H in Hp. split; [done|]. cbn. split; [done|]. by rewrite Hp.
Qed.

(** Every search run reachable from a fresh one keeps a duplicate-free
    frontier that only grows at its end, has an incumbent exactly when it is
    refining and that incumbent is a member of the frontier, chosen once and for
    all; its identity never changes. *)
Theorem search_run_invariant (spec : SearchRunSpec) (s s' : SearchRunRecord)
    (Hs : search_steps (search_new spec) s) (Hs' : search_steps s s') :
  search_wf s' /\ search_frame s s' /\ sr_spec s' = spec.
Proof.
  assert (search_wf s /\ sr_spec s = spec) as [Hwf Hspec].
  { assert (search_wf (search_new spec)) as H0 by (split; [constructor|done]).
    assert (sr_spec (search_new spec) = spec) as H1 by done.
    revert H0 H1. clear Hs'. induction Hs as [|x y z Hxy _ IH]; intros Hw Hx; [done|].
    apply IH; [eauto using search_step_wf|].
    by rewrite (proj1 (search_step_frame _ _ Hw Hxy)). }
  clear Hs. induction Hs' as [x|x y z Hxy _ IH].
  { split_and!; [done| |done]. by repeat split. }
  pose proof (search_step_frame _ _ Hwf Hxy) as (F1 & F2 & F3).
  destruct (IH ltac:(eauto using search_step_wf) ltac:(congruence))
    as (Hz & (G1 & G2 & G3) & Ez).
  split_and!; [done| |done].
  split; [congruence|]. split; [by transitivity (sr_candidate_ids y)|eauto].
Qed.

(** *** Witness *)

Definition zero_digest : Sha256Digest := from_bytes [].
Definition sample_search : SearchRunRecord :=
  search_new (MkSearchRunSpec (MkId "search-1" eq_refl) (MkId "task-1" eq_refl)
    zero_digest zero_digest zero_digest).
Definition sample_candidate : CandidateId := MkId "candidate-1" eq_refl.

Definition search_running : SearchRunRecord :=
  MkSearch 1 (sr_spec sample_search) Running Drafting [sample_candidate] None.

Lemma search_run_invariant_witness :
  search_wf (MkSearch 1 (sr_spec sample_search) Running Refining [sample_candidate]
               (Some sample_candidate)).
Proof.
  eapply (search_run_invariant (sr_spec sample_search) search_running).
  - eapply rtc_l; [eapply (step_transition _ Running); reflexivity|].
    eapply rtc_l; [eapply (step_candidate _ sample_candidate); reflexivity|].
    apply rtc_refl.
  - eapply rtc_l; [eapply (step_refine _ sample_candidate); reflexivity|].
    apply rtc_refl.
Defined.

End Search.
