(* ===== verification/ModelAttempt.v ===== *)
(** * Model attempts

    [src/crates/alloyport-core/src/model_attempt.rs]: one possibly billed
    model request, recorded before it is sent and terminal after it
    returns. *)

From stdpp Require Import base strings relations list.
From S2P Require Import Prelude Digest Identity.

Module Attempt.

(** [enum ModelAttemptStatus]. *)
Inductive ModelAttemptStatus :=
| Prepared | Dispatching | Responded | Decoded | DecodeFailed | ConfirmedNotSent
| Failed | Ambiguous | CancelledAmbiguous.

#[global] Instance ModelAttemptStatus_eq_dec : EqDecision ModelAttemptStatus.
Proof. solve_decision. Defined.

(** [ModelAttemptStatus::is_terminal]. *)
Definition attempt_is_terminal (self : ModelAttemptStatus) : bool :=
  match self with
  | Decoded | DecodeFailed | ConfirmedNotSent | Failed | Ambiguous
  | CancelledAmbiguous => true
  | _ => false
  end.

(** [struct ModelUsage]. *)
Record ModelUsage := MkUsage {
  mu_input_tokens : N;
  mu_output_tokens : N;
  mu_cached_input_tokens : option N;
  mu_cost_micros : option N;
}.

#[global] Instance ModelUsage_eq_dec : EqDecision ModelUsage.
Proof. solve_decision. Defined.

(** [struct ModelAttemptSpec]. *)
Record ModelAttemptSpec := MkAttemptSpec {
  as_id : ModelAttemptId;
  as_episode_id : EpisodeId;
  as_attempt_number : N;
  as_request_digest : Sha256Digest;
  as_resolved_model_digest : Sha256Digest;
  as_deployment_digest : Sha256Digest;
  as_model_profile_digest : Sha256Digest;
  as_request_budget_digest : Sha256Digest;
  as_predecessor_attempt_id : option ModelAttemptId;
  as_predecessor_continuation_digest : option Sha256Digest;
}.

#[global] Instance ModelAttemptSpec_eq_dec : EqDecision ModelAttemptSpec.
Proof. solve_decision. Defined.

Definition MODEL_ATTEMPT_SCHEMA_V1 : N := 1.

(** [struct ModelAttemptRecord]: the schema version, the fields copied
    from the spec, the status and the evidence. *)
Record ModelAttemptRecord := MkAttempt {
  at_schema_version : N;
  at_spec : ModelAttemptSpec;
  at_status : ModelAttemptStatus;
  at_response_digest : option Sha256Digest;
  at_continuation_digest : option Sha256Digest;
  at_diagnostic_digest : option Sha256Digest;
  at_actual_model : option string;
  at_usage : option ModelUsage;
}.

#[global] Instance ModelAttemptRecord_eq_dec : EqDecision ModelAttemptRecord.
Proof. solve_decision. Defined.

Definition at_id (a : ModelAttemptRecord) : ModelAttemptId := as_id (at_spec a).

(** [enum ModelAttemptError]. *)
Inductive ModelAttemptError :=
| ZeroAttemptNumber
| EmptyActualModel
| InvalidTransition (from expected : ModelAttemptStatus)
| InvalidTerminal (status : ModelAttemptStatus).

#[global] Instance ModelAttemptError_eq_dec : EqDecision ModelAttemptError.
Proof. solve_decision. Defined.

(** [ModelAttemptRecord::new]. *)
Definition attempt_new (spec : ModelAttemptSpec)
    : result ModelAttemptError ModelAttemptRecord :=
  _ ← guard_err (as_attempt_number spec =? 0)%N ZeroAttemptNumber;
  Ok (MkAttempt MODEL_ATTEMPT_SCHEMA_V1 spec Prepared None None None None None).

(** [ModelAttemptRecord::require_status]. *)
Definition require_status (self : ModelAttemptRecord) (expected : ModelAttemptStatus)
    : result ModelAttemptError unit :=
  guard_err (bool_decide (at_status self <> expected))
    (InvalidTransition (at_status self) expected).

(** [ModelAttemptRecord::mark_dispatching]. *)
Definition mark_dispatching (self : ModelAttemptRecord)
    : result ModelAttemptError ModelAttemptRecord :=
  _ ← require_status self Prepared;
  Ok (MkAttempt (at_schema_version self) (at_spec self) Dispatching
        (at_response_digest self) (at_continuation_digest self)
        (at_diagnostic_digest self) (at_actual_model self) (at_usage self)).

(** [ModelAttemptRecord::record_response]. *)
Definition record_response (self : ModelAttemptRecord) (response_digest : Sha256Digest)
    (actual_model : option string) (usage : option ModelUsage)
    : result ModelAttemptError ModelAttemptRecord :=
  _ ← require_status self Dispatching;
  _ ← guard_err (match actual_model with
                 | Some model => trim_is_empty model
                 | None => false end) EmptyActualModel;
  Ok (MkAttempt (at_schema_version self) (at_spec self) Responded
        (Some response_digest) (at_continuation_digest self)
        (at_diagnostic_digest self) actual_model usage).

(** [ModelAttemptRecord::mark_decoded]. *)
Definition mark_decoded (self : ModelAttemptRecord) (continuation_digest : Sha256Digest)
    : result ModelAttemptError ModelAttemptRecord :=
  _ ← require_status self Responded;
  Ok (MkAttempt (at_schema_version self) (at_spec self) Decoded
        (at_response_digest self) (Some continuation_digest)
        (at_diagnostic_digest self) (at_actual_model self) (at_usage self)).

(** [ModelAttemptRecord::mark_decode_failed]. *)
Definition mark_decode_failed (self : ModelAttemptRecord)
    (diagnostic_digest : option Sha256Digest)
    : result ModelAttemptError ModelAttemptRecord :=
  _ ← require_status self Responded;
  Ok (MkAttempt (at_schema_version self) (at_spec self) DecodeFailed
        (at_response_digest self) (at_continuation_digest self)
        diagnostic_digest (at_actual_model self) (at_usage self)).

(** [ModelAttemptRecord::mark_response_failed]. *)
Definition mark_response_failed (self : ModelAttemptRecord)
    (diagnostic_digest : option Sha256Digest)
    : result ModelAttemptError ModelAttemptRecord :=
  _ ← require_status self Responded;
  Ok (MkAttempt (at_schema_version self) (at_spec self) Failed
        (at_response_digest self) (at_continuation_digest self)
        diagnostic_digest (at_actual_model self) (at_usage self)).

(** The terminals [finish_without_response] accepts. *)
Definition unanswered_terminal (s : ModelAttemptStatus) : bool :=
  match s with
  | ConfirmedNotSent | Failed | Ambiguous | CancelledAmbiguous => true
  | _ => false
  end.

(** [ModelAttemptRecord::finish_without_response]. *)
Definition finish_without_response (self : ModelAttemptRecord)
    (terminal : ModelAttemptStatus) (diagnostic_digest : option Sha256Digest)
    : result ModelAttemptError ModelAttemptRecord :=
  _ ← require_status self Dispatching;
  _ ← guard_err (negb (unanswered_terminal terminal)) (InvalidTerminal terminal);
  Ok (MkAttempt (at_schema_version self) (at_spec self) terminal
        (at_response_digest self) (at_continuation_digest self)
        diagnostic_digest (at_actual_model self) (at_usage self)).

(** ** Lemmas *)

Lemma require_status_bind {A} a s (k : result ModelAttemptError A) x :
  (_ ← require_status a s; k) = Ok x <-> at_status a = s /\ k = Ok x.
Proof.
  unfold require_status. rewrite guard_bind_Ok, bool_decide_eq_false.
  split; intros [H ?]; (split; [|done]); [by apply dec_stable|by intros []].
Qed.

Lemma mark_dispatching_total a :
  at_status a = Prepared -> exists a', mark_dispatching a = Ok a'
    /\ at_status a' = Dispatching /\ at_spec a' = at_spec a.
Proof. intros H. eexists. split; [by apply require_status_bind|done]. Qed.

#[global] Arguments attempt_new : simpl never.
#[global] Arguments mark_dispatching : simpl never.
#[global] Arguments record_response : simpl never.
#[global] Arguments mark_decoded : simpl never.
#[global] Arguments mark_decode_failed : simpl never.
#[global] Arguments mark_response_failed : simpl never.
#[global] Arguments finish_without_response : simpl never.

(** ** Reachable attempts *)

Inductive attempt_step : ModelAttemptRecord -> ModelAttemptRecord -> Prop :=
| step_dispatch a a' : mark_dispatching a = Ok a' -> attempt_step a a'
| step_response a d m u a' : record_response a d m u = Ok a' -> attempt_step a a'
| step_decoded a d a' : mark_decoded a d = Ok a' -> attempt_step a a'
| step_decode_failed a d a' : mark_decode_failed a d = Ok a' -> attempt_step a a'
| step_rejected a d a' : mark_response_failed a d = Ok a' -> attempt_step a a'
| step_unanswered a s d a' : finish_without_response a s d = Ok a' -> attempt_step a a'.

(** The evidence each status must hold. *)
Definition attempt_evidence (a : ModelAttemptRecord) : Prop :=
  (is_Some (at_continuation_digest a) <-> at_status a = Decoded)
  /\ match at_status a with
     | Prepared | Dispatching | ConfirmedNotSent | Ambiguous | CancelledAmbiguous =>
         at_response_digest a = None
     | Responded | Decoded | DecodeFailed => is_Some (at_response_digest a)
     | Failed => True
     end.

Lemma attempt_step_evidence a a' :
  attempt_evidence a -> attempt_step a a' ->
  attempt_evidence a' /\ at_spec a' = at_spec a /\ attempt_is_terminal (at_status a) = false
  /\ (is_Some (at_response_digest a) -> at_response_digest a' = at_response_digest a).
Proof.
  unfold attempt_evidence. intros [He1 He2] Hstep.
  destruct Hstep as [? ? H|? ? ? ? ? H|? ? ? H|? ? ? H|? ? ? H|? s ? ? H];
    apply require_status_bind in H as [Hs H];
    rewrite Hs in He1, He2; rewrite Hs;
    try (apply guard_bind_Ok in H as [Hg H]); simplify_eq; cbn.
  - naive_solver.
  - split_and!; [naive_solver|eauto|done|done|]. rewrite He2. by intros [? ?].
  - naive_solver.
  - naive_solver.
  - naive_solver.
  - apply negb_false_iff in Hg. destruct s; naive_solver.
Qed.

(** A model attempt holds exactly the evidence its status promises: in
    every reachable state a continuation is recorded iff the attempt was
    decoded, a response is recorded iff one came back (a rejection may
    have one), a recorded response is never replaced, the identity never
    changes and a terminal attempt accepts no further step. *)
Theorem attempt_evidence_invariant (spec : ModelAttemptSpec) (a0 a a' : ModelAttemptRecord)
    (Hnew : attempt_new spec = Ok a0) (Ha : rtc attempt_step a0 a)
    (Ha' : rtc attempt_step a a') :
  attempt_evidence a' /\ at_spec a' = spec
  /\ (is_Some (at_response_digest a) -> at_response_digest a' = at_response_digest a)
  /\ (attempt_is_terminal (at_status a) = true -> a' = a).
Proof.
  assert (attempt_evidence a0 /\ at_spec a0 = spec) as [H0 E0].
  { apply guard_bind_Ok in Hnew as [_ [= <-]]. split; [split; [|done]|done].
    split; [by intros [? ?]|done]. }
  assert (attempt_evidence a /\ at_spec a = spec) as [H1 E1].
  { clear Ha' Hnew. revert H0 E0. induction Ha as [|x y z Hxy _ IH]; [done|].
    intros Hx Ex. destruct (attempt_step_evidence _ _ Hx Hxy) as (? & ? & _ & _).
    apply IH; [done|congruence]. }
  clear Hnew Ha H0 E0 a0. induction Ha' as [|x y z Hxy _ IH]; [done|].
  destruct (attempt_step_evidence _ _ H1 Hxy) as (Hy & Ey & Ht & Hr).
  destruct (IH Hy ltac:(congruence)) as (Hz & Ez & Hr' & _).
  split_and!; [done|done| |congruence].
  intros Hs. rewrite Hr' by (by rewrite Hr). by apply Hr.
Qed.

(** *** Witness *)

Definition sample_attempt_spec : ModelAttemptSpec :=
  MkAttemptSpec (MkId "model-attempt-1" eq_refl) (MkId "episode-1" eq_refl) 1
    (from_bytes []) (from_bytes []) (from_bytes []) (from_bytes []) (from_bytes [])
    None None.

Definition sample_attempt (s : ModelAttemptStatus) (r c : option Sha256Digest)
    : ModelAttemptRecord :=
  MkAttempt 1 sample_attempt_spec s r c None None None.

Lemma attempt_evidence_invariant_witness :
  let d := from_bytes [Byte.x01] in
  attempt_evidence (sample_attempt Decoded (Some d) (Some d)).
Proof.
  intros d.
  refine (proj1 (attempt_evidence_invariant sample_attempt_spec
    (sample_attempt Prepared None None) (sample_attempt Dispatching None None)
    (sample_attempt Decoded (Some d) (Some d)) eq_refl _ _)).
  - eapply rtc_l; [|apply rtc_refl]. apply step_dispatch. reflexivity.
  - eapply rtc_l; [eapply (step_response _ d None None); reflexivity|].
    eapply rtc_l; [|apply rtc_refl]. eapply (step_decoded _ d). reflexivity.
Defined.

End Attempt.
