(* ===== verification/ModelGateway.v ===== *)
(** * The model gateway

    [src/crates/alloyport-core/src/model_gateway.rs] and the retry hint
    of [model_transport.rs]: the provider-neutral turn and its
    validation, the durable turn record, the gateway port (a type class)
    and its scripted double. *)

From stdpp Require Import base strings relations gmap sets list.
From S2P Require Import Prelude Digest Identity ModelAttempt.

(** [enum ModelTransportRetryHint] (model_transport.rs). *)
Inductive ModelTransportRetryHint :=
| Never
| NewAttempt
| AfterMillis (millis : N).

#[export] Instance ModelTransportRetryHint_eq_dec : EqDecision ModelTransportRetryHint.
Proof. solve_decision. Defined.

(** [struct ModelTurnRequest]. *)
Record ModelTurnRequest := MkModelTurnRequest {
  mr_attempt_id : ModelAttemptId;
  mr_episode_id : EpisodeId;
  mr_turn_index : N;
  mr_input_digest : Sha256Digest;
}.

#[export] Instance ModelTurnRequest_eq_dec : EqDecision ModelTurnRequest.
Proof. solve_decision. Defined.

(** [struct GatewayToolCall]. *)
Record GatewayToolCall := MkToolCall {
  tc_native_call_id : string;
  tc_name : string;
  tc_raw_arguments : bytes;
}.

#[export] Instance GatewayToolCall_eq_dec : EqDecision GatewayToolCall.
Proof. solve_decision. Defined.

(** [enum NormalizedStopReason]. *)
Inductive NormalizedStopReason :=
| Stop | ToolCalls | Length | Refusal | ContentFilter | ProviderResource | Unknown.

#[export] Instance NormalizedStopReason_eq_dec : EqDecision NormalizedStopReason.
Proof. solve_decision. Defined.

(** [struct GatewayTurn]. *)
Record GatewayTurn := MkGatewayTurn {
  gt_narrative : list string;
  gt_tool_calls : list GatewayToolCall;
  gt_stop_reason : NormalizedStopReason;
  gt_usage : option Attempt.ModelUsage;
}.

#[export] Instance GatewayTurn_eq_dec : EqDecision GatewayTurn.
Proof. solve_decision. Defined.

(** [struct GatewayTurnExchange]. *)
Record GatewayTurnExchange := MkExchange {
  ge_turn : GatewayTurn;
  ge_raw_exchange_digest : Sha256Digest;
  ge_native_continuation_digest : Sha256Digest;
}.

(** [enum ModelGatewayError]. *)
Inductive ModelGatewayError :=
| ScriptExhausted
| UnexpectedRequest (expected_turn_index actual_turn_index : N)
| InvalidTurn (message : string)
| AdapterError (message : string).

#[export] Instance ModelGatewayError_eq_dec : EqDecision ModelGatewayError.
Proof. solve_decision. Defined.

Definition empty_turn_message : string :=
  "turn contains neither narrative nor tool calls".
Definition blank_call_message : string :=
  "tool call identity and name must not be empty".
Definition duplicate_call_message (id : string) : string :=
  "duplicate native tool call ID " +:+ id.

(** The loop over the tool calls, with the set of identities seen. *)
Fixpoint validate_calls (calls : list GatewayToolCall) (call_ids : gset string)
    : result ModelGatewayError unit :=
  match calls with
  | [] => Ok tt
  | call :: rest =>
      _ ← guard_err (trim_is_empty (tc_native_call_id call)
                     || trim_is_empty (tc_name call)) (InvalidTurn blank_call_message);
      _ ← guard_err (bool_decide (tc_native_call_id call ∈ call_ids))
            (InvalidTurn (duplicate_call_message (tc_native_call_id call)));
      validate_calls rest ({[tc_native_call_id call]} ∪ call_ids)
  end.

(** [GatewayTurn::validate]. *)
Definition gateway_turn_validate (self : GatewayTurn) : result ModelGatewayError unit :=
  _ ← guard_err (bool_decide (gt_narrative self = []) && bool_decide (gt_tool_calls self = []))
        (InvalidTurn empty_turn_message);
  validate_calls (gt_tool_calls self) ∅.

(** [struct TurnSpec]. *)
Record TurnSpec := MkTurnSpec {
  ts_id : TurnId;
  ts_episode_id : EpisodeId;
  ts_model_attempt_id : ModelAttemptId;
  ts_turn_index : N;
  ts_decoded_turn_digest : Sha256Digest;
  ts_raw_exchange_digest : Sha256Digest;
  ts_native_continuation_digest : Sha256Digest;
  ts_stop_reason : NormalizedStopReason;
  ts_tool_call_count : N;
  ts_usage : option Attempt.ModelUsage;
}.

#[export] Instance TurnSpec_eq_dec : EqDecision TurnSpec.
Proof. solve_decision. Defined.

Definition TURN_RECORD_SCHEMA_V1 : N := 1.

(** [struct TurnRecord]: the schema version and the fields of the spec. *)
Record TurnRecord := MkTurn {
  tr_schema_version : N;
  tr_spec : TurnSpec;
}.

#[export] Instance TurnRecord_eq_dec : EqDecision TurnRecord.
Proof. solve_decision. Defined.

Definition tr_id (t : TurnRecord) : TurnId := ts_id (tr_spec t).
Definition tr_native_continuation_digest (t : TurnRecord) : Sha256Digest :=
  ts_native_continuation_digest (tr_spec t).

(** [enum TurnRecordError]. *)
Inductive TurnRecordError := ZeroTurnIndex.

(** [TurnRecord::new]. *)
Definition turn_new (spec : TurnSpec) : result TurnRecordError TurnRecord :=
  _ ← guard_err (ts_turn_index spec =? 0)%N ZeroTurnIndex;
  Ok (MkTurn TURN_RECORD_SCHEMA_V1 spec).

(** [enum ModelGatewayOutcome]. *)
Inductive ModelGatewayOutcome :=
| OTurn (exchange : GatewayTurnExchange)
| OConfirmedNotSent (diagnostic : string) (diagnostic_digest : option Sha256Digest)
    (retry : ModelTransportRetryHint)
| ORejected (response_digest : Sha256Digest) (diagnostic : string)
    (diagnostic_digest : option Sha256Digest) (retry : ModelTransportRetryHint)
| ODecodeFailed (response_digest : Sha256Digest) (diagnostic : string)
    (diagnostic_digest : option Sha256Digest)
| OAmbiguous (diagnostic : string) (diagnostic_digest : option Sha256Digest)
    (retry : ModelTransportRetryHint).

(** [trait ModelGateway]: [M] is the adapter's own state. *)
Class ModelGateway (M : Type) :=
  model_invoke : ModelTurnRequest -> M -> M * result ModelGatewayError ModelGatewayOutcome.

(** [struct ScriptedGatewayStep]; the fake's [VecDeque] is a list. *)
Record ScriptedGatewayStep := MkScriptedGatewayStep {
  sg_expected_turn_index : N;
  sg_expected_input_digest : Sha256Digest;
  sg_outcome : ModelGatewayOutcome;
}.

(** [ScriptedFakeModelGateway::invoke]. *)
Definition scripted_gateway_check (step : ScriptedGatewayStep) (request : ModelTurnRequest)
    : result ModelGatewayError ModelGatewayOutcome :=
  _ ← guard_err (negb (sg_expected_turn_index step =? mr_turn_index request)%N
                 || bool_decide (sg_expected_input_digest step <> mr_input_digest request))
        (UnexpectedRequest (sg_expected_turn_index step) (mr_turn_index request));
  _ ← match sg_outcome step with
      | OTurn exchange => gateway_turn_validate (ge_turn exchange)
      | _ => Ok tt
      end;
  Ok (sg_outcome step).

Definition scripted_gateway_invoke (request : ModelTurnRequest)
    (steps : list ScriptedGatewayStep)
    : list ScriptedGatewayStep * result ModelGatewayError ModelGatewayOutcome :=
  match steps with
  | [] => ([], Err ScriptExhausted)
  | step :: rest => (rest, scripted_gateway_check step request)
  end.

#[export] Instance ScriptedFakeModelGateway : ModelGateway (list ScriptedGatewayStep) :=
  scripted_gateway_invoke.

(** ** Lemmas *)

(** A call whose identity and name are visible text. *)
Definition call_named (c : GatewayToolCall) : Prop :=
  trim_is_empty (tc_native_call_id c) = false /\ trim_is_empty (tc_name c) = false.

Lemma validate_calls_Ok calls seen u :
  validate_calls calls seen = Ok u <->
  Forall call_named calls /\ NoDup (tc_native_call_id <$> calls)
  /\ (forall c, c ∈ calls -> tc_native_call_id c ∉ seen).
Proof.
  revert seen. induction calls as [|c calls IH]; intros seen; cbn.
  { destruct u. split; [|done]. intros _. split_and!; [constructor|constructor|].
    by intros ? ?%not_elem_of_nil. }
  rewrite !guard_bind_Ok, IH, orb_false_iff, bool_decide_eq_false,
    Forall_cons, NoDup_cons. split.
  - intros ([H1 H2] & H3 & Hf & Hd & Hs). split_and!; [done|done| |done|].
    + intros (d & E & Hd')%list_elem_of_fmap. specialize (Hs d Hd'). set_solver.
    + intros d [->|Hd']%elem_of_cons; [done|]. specialize (Hs d Hd'). set_solver.
  - intros ([[H1 H2] Hf] & [Hn Hd] & Hs).
    split_and!; [done|done|apply Hs; set_solver|done|done|].
    intros d Hd'. assert (tc_native_call_id d <> tc_native_call_id c).
    { intros E. apply Hn, list_elem_of_fmap. eauto. }
    specialize (Hs d). set_solver.
Qed.

(** What a valid turn is. *)
Definition turn_valid (t : GatewayTurn) : Prop :=
  (gt_narrative t <> [] \/ gt_tool_calls t <> [])
  /\ Forall call_named (gt_tool_calls t)
  /\ NoDup (tc_native_call_id <$> gt_tool_calls t).

Lemma gateway_turn_validate_Ok t :
  gateway_turn_validate t = Ok tt <-> turn_valid t.
Proof.
  unfold gateway_turn_validate, turn_valid.
  rewrite guard_bind_Ok, validate_calls_Ok, andb_false_iff, !bool_decide_eq_false.
  set_solver.
Qed.

Lemma turn_new_Ok spec t :
  turn_new spec = Ok t <-> ts_turn_index spec <> 0%N /\ t = MkTurn TURN_RECORD_SCHEMA_V1 spec.
Proof. unfold turn_new. rewrite guard_bind_Ok, N.eqb_neq. naive_solver. Qed.

(** ** Property *)

(** Turn validation accepts exactly the turns that say or do something
    and whose tool calls have visible, pairwise distinct native
    identities and visible names; a refused turn is always reported as
    [InvalidTurn]. *)
Theorem gateway_turn_validate_spec (t : GatewayTurn) :
  (gateway_turn_validate t = Ok tt <-> turn_valid t)
  /\ (~ turn_valid t <-> exists m, gateway_turn_validate t = Err (InvalidTurn m)).
Proof.
  split; [apply gateway_turn_validate_Ok|].
  rewrite <-gateway_turn_validate_Ok.
  destruct (gateway_turn_validate t) as [[]|e] eqn:E.
  - split; [by intros []|]. by intros [? ?].
  - split; [|done]. intros _.
    enough (exists m, e = InvalidTurn m) as [m ->] by by eexists.
    unfold gateway_turn_validate in E. apply guard_bind_Err in E as [[_ <-]|[_ E]]; [by eexists|].
    revert E. generalize (∅ : gset string).
    induction (gt_tool_calls t) as [|c l IH]; intros seen E; [done|]. cbn in E.
    apply guard_bind_Err in E as [[_ <-]|[_ E]]; [by eexists|].
    apply guard_bind_Err in E as [[_ <-]|[_ E]]; [by eexists|]. eauto.
Qed.
