(* ===== verification/LoopPolicy.v ===== *)
(** * Rules and allowances of an episode

    [src/crates/alloyport-core/src/agent_runtime_policy.rs]: the policy
    split into the rules, which are part of the episode's identity, and
    the allowance, which an operator may grant again.  JSON is
    [serde_json]'s: its encoder of the rules is a parameter. *)

From stdpp Require Import base strings list.
From S2P Require Import Prelude Digest AgentRecord.

(** [struct EpisodeRules]; the limits are [u32]. *)
Record EpisodeRules := MkRules {
  r_max_tool_calls_per_turn : N;
  r_max_ambiguous_model_attempts : N;
  r_max_stop_feedback_turns : N;
}.

(** [struct EpisodeAllowance]. *)
Record EpisodeAllowance := MkAllowance {
  a_max_model_turns : N;
  a_max_model_attempts : N;
  a_max_total_tool_operations : N;
}.

(** [struct AgentLoopPolicy]. *)
Record AgentLoopPolicy := MkPolicy {
  p_max_model_turns : N;
  p_max_model_attempts : N;
  p_max_ambiguous_model_attempts : N;
  p_max_tool_calls_per_turn : N;
  p_max_total_tool_operations : N;
  p_max_stop_feedback_turns : N;
}.

#[export] Instance EpisodeRules_eq_dec : EqDecision EpisodeRules.
Proof. solve_decision. Defined.
#[export] Instance EpisodeAllowance_eq_dec : EqDecision EpisodeAllowance.
Proof. solve_decision. Defined.
#[export] Instance AgentLoopPolicy_eq_dec : EqDecision AgentLoopPolicy.
Proof. solve_decision. Defined.

(** [AgentLoopPolicy::rules]. *)
Definition policy_rules (self : AgentLoopPolicy) : EpisodeRules :=
  MkRules (p_max_tool_calls_per_turn self) (p_max_ambiguous_model_attempts self)
    (p_max_stop_feedback_turns self).

(** [AgentLoopPolicy::allowance]. *)
Definition policy_allowance (self : AgentLoopPolicy) : EpisodeAllowance :=
  MkAllowance (p_max_model_turns self) (p_max_model_attempts self)
    (p_max_total_tool_operations self).

(** [AgentLoopPolicy::with_allowance]. *)
Definition with_allowance (self : AgentLoopPolicy) (allowance : EpisodeAllowance)
    : AgentLoopPolicy :=
  MkPolicy (a_max_model_turns allowance) (a_max_model_attempts allowance)
    (p_max_ambiguous_model_attempts self) (p_max_tool_calls_per_turn self)
    (a_max_total_tool_operations allowance) (p_max_stop_feedback_turns self).

(** [serde_json::to_vec] on the rules. *)
Class RulesJson := {
  json_error : Type;
  rules_to_vec : EpisodeRules -> result json_error bytes;
}.

(** [AgentLoopPolicy::digest]. *)
Definition policy_digest `{Sha256, RulesJson} (self : AgentLoopPolicy)
    : result json_error Sha256Digest :=
  digest_bytes <$> rules_to_vec (policy_rules self).

(** The conjunction of [AgentLoopPolicy::validate]. *)
Definition policy_invalid (self : AgentLoopPolicy) : bool :=
  ((p_max_model_turns self =? 0) || (p_max_model_attempts self =? 0)
   || (p_max_tool_calls_per_turn self =? 0) || (p_max_total_tool_operations self =? 0)
   || (p_max_model_attempts self <? p_max_model_turns self))%N.

(** [struct AllowanceGrant]. *)
Record AllowanceGrant := MkGrant {
  g_resumed_from : Episode.EpisodeStatus;
  g_previous : EpisodeAllowance;
  g_granted : EpisodeAllowance;
}.

#[export] Instance AllowanceGrant_eq_dec : EqDecision AllowanceGrant.
Proof. solve_decision. Defined.

(** ** Lemmas *)

Lemma with_allowance_rules p a : policy_rules (with_allowance p a) = policy_rules p.
Proof. done. Qed.

Lemma with_allowance_allowance p a : policy_allowance (with_allowance p a) = a.
Proof. by destruct a. Qed.

Lemma policy_split p q :
  policy_rules p = policy_rules q -> policy_allowance p = policy_allowance q -> p = q.
Proof.
  destruct p, q. unfold policy_rules, policy_allowance. cbn.
  by intros [= -> -> ->] [= -> -> ->].
Qed.

(** ** Property *)

(** Raising or lowering the allowance is invisible to the identity of
    the rules: the policy's digest depends on the rules only, granting an
    allowance changes exactly the spending half, and the latest grant
    wins. *)
Theorem allowance_outside_identity `{Sha256, RulesJson} (p q : AgentLoopPolicy)
    (a b : EpisodeAllowance) :
  policy_digest (with_allowance p a) = policy_digest p
  /\ policy_allowance (with_allowance p a) = a
  /\ with_allowance (with_allowance p a) b = with_allowance p b
  /\ with_allowance p (policy_allowance p) = p
  /\ ((policy_rules p = policy_rules q /\ policy_allowance p = policy_allowance q) <-> p = q).
Proof.
  split_and!; [done|apply with_allowance_allowance|done|by destruct p|].
  split; [intros []; by apply policy_split|by intros ->].
Qed.
