(* ===== verification/EpisodeState.v ===== *)
(** * The durable state of an episode

    [src/crates/alloyport-core/src/agent_runtime.rs] (the data),
    [agent_runtime_state.rs] (creation and revalidation) and
    [agent_runtime_helpers.rs] (derived identities, digests, errors). *)

From Stdlib Require Import Ascii.
From stdpp Require Import base strings pretty list.
From S2P Require Import Prelude Digest Encoding Identity AgentRecord ModelAttempt ModelGateway.
From S2P Require Import LoopPolicy.

(** ** Errors of the runtime *)

(** [enum AgentRuntimeFaultPoint] (agent_runtime_support.rs). *)
Inductive AgentRuntimeFaultPoint :=
| AfterModelDispatchCommit
| AfterModelOutcomeBeforeCommit
| AfterTurnCommit
| AfterToolDispatchCommit
| AfterToolOutcomeBeforeCommit
| AfterToolResultCommit.

#[export] Instance AgentRuntimeFaultPoint_eq_dec : EqDecision AgentRuntimeFaultPoint.
Proof. solve_decision. Defined.

(** [enum EpisodeRepositoryError] (agent_runtime_support.rs). *)
Inductive EpisodeRepositoryError :=
| AlreadyExists (id : EpisodeId)
| NotFound (id : EpisodeId)
| Conflict (expected actual : N)
| RevisionExhausted
| RepositoryAdapter (detail : string).

#[export] Instance EpisodeRepositoryError_eq_dec : EqDecision EpisodeRepositoryError.
Proof. solve_decision. Defined.

(** [enum ToolGatewayError] (agent_runtime_support.rs). *)
Inductive ToolGatewayError :=
| ToolScriptExhausted
| ToolUnexpectedRequest
| Citation (message : string)
| ToolAdapter (message : string).

(** [enum AgentLoopRuntimeError]; the [runtime_error_from!] conversions
    are its constructors. *)
Inductive AgentLoopRuntimeError :=
| InvalidPolicy
| CounterExhausted
| MissingModelAttempt
| MissingTurn
| DerivedIdentity
| InvalidDurableState (message : string)
| InvalidToolOutcome
| UntrustedCompletion
| InjectedCrash (point : AgentRuntimeFaultPoint)
| RepositoryError (e : EpisodeRepositoryError)
| RecordError (e : AgentRecordError)
| AttemptError (e : Attempt.ModelAttemptError)
| TurnError (e : TurnRecordError)
| GatewayError (e : ModelGatewayError)
| ToolError (e : ToolGatewayError).

(** How a step of the runtime may stop without a value: the [Err] it
    returns, or a panic ([expect], [unreachable!], an overflowing [+=]). *)
Inductive Fault :=
| Failure (e : AgentLoopRuntimeError)
| Panic.

Abbreviation Result := (result AgentLoopRuntimeError).

(** [AgentLoopPolicy::validate]. *)
Definition policy_validate (self : AgentLoopPolicy) : Result unit :=
  guard_err (policy_invalid self) InvalidPolicy.

(** ** Identities and digests *)

(** [u32::try_from(len).map_err(CounterExhausted)?.checked_add(1)
    .ok_or(CounterExhausted)?]. *)
Definition next_index (len : nat) : Result N :=
  n ← ok_or (try_from_len u32_max len) CounterExhausted;
  ok_or (checked_add u32_max n 1) CounterExhausted.

(** [push_len]. *)
Definition push_len (length : nat) : bytes :=
  be_bytes 8 (match try_from_len u64_max length with Some n => n | None => u64_max end).

(** The derived [Debug] text of [NormalizedStopReason]. *)
Definition NormalizedStopReason_debug (s : NormalizedStopReason) : string :=
  match s with
  | Stop => "Stop" | ToolCalls => "ToolCalls" | Length => "Length"
  | Refusal => "Refusal" | ContentFilter => "ContentFilter"
  | ProviderResource => "ProviderResource" | Unknown => "Unknown"
  end.

(** The bytes [digest_semantic_turn] hashes. *)
Definition semantic_turn_bytes (turn : GatewayTurn) : bytes :=
  as_bytes "alloyport-semantic-turn-v1"
  ++ mjoin ((fun n => push_len (String.length n) ++ as_bytes n) <$> gt_narrative turn)
  ++ mjoin ((fun c =>
       push_len (String.length (tc_native_call_id c)) ++ as_bytes (tc_native_call_id c)
       ++ push_len (String.length (tc_name c)) ++ as_bytes (tc_name c)
       ++ push_len (length (tc_raw_arguments c)) ++ tc_raw_arguments c)
       <$> gt_tool_calls turn)
  ++ as_bytes (NormalizedStopReason_debug (gt_stop_reason turn)).

(** [struct RuntimeToolDescriptor] (agent_runtime_support.rs). *)
Record RuntimeToolDescriptor := MkDescriptor {
  rd_name : string;
  rd_version : string;
  rd_effect_class : ToolOp.ToolEffectClass;
  rd_result_authority : ToolOp.ToolResultAuthority;
}.

Section digests.
Context `{Sha256}.

(** [digest_semantic_turn]. *)
Definition digest_semantic_turn (turn : GatewayTurn) : Sha256Digest :=
  digest_bytes (semantic_turn_bytes turn).

(** [digest_label]. *)
Definition digest_label (label : string) : Sha256Digest := digest_bytes (as_bytes label).

(** [derive_model_continuation_input_digest]. *)
Definition derive_model_continuation_input_digest (continuation : Sha256Digest)
    (results : list Sha256Digest) : Sha256Digest :=
  digest_bytes (as_bytes "alloyport-model-continuation-input-v1"
                ++ digest_body continuation ++ mjoin (digest_body <$> results)).

(** The text [derived_tool_operation_id] hashes. *)
Definition tool_operation_identity (episode_id : EpisodeId) (turn_id : TurnId)
    (call_index : nat) (descriptor : RuntimeToolDescriptor)
    (arguments_digest input_identity_digest : Sha256Digest) : string :=
  as_str episode_id +:+ "|" +:+ as_str turn_id +:+ "|" +:+ pretty (N.of_nat call_index)
  +:+ "|" +:+ rd_name descriptor +:+ "|" +:+ rd_version descriptor
  +:+ "|" +:+ digest_display arguments_digest +:+ "|" +:+ digest_display input_identity_digest.

(** [derived_tool_operation_id]. *)
Definition derived_tool_operation_id (episode_id : EpisodeId) (turn_id : TurnId)
    (call_index : nat) (descriptor : RuntimeToolDescriptor)
    (arguments_digest input_identity_digest : Sha256Digest) : Result ToolOperationId :=
  let digest := digest_bytes (as_bytes (tool_operation_identity episode_id turn_id
    call_index descriptor arguments_digest input_identity_digest)) in
  map_err (fun _ => DerivedIdentity)
    (parse_id KToolOperation ("tool-" +:+ pretty (N.of_nat (call_index + 1)) +:+ "-"
                              +:+ digest_display digest)).

End digests.

(** [derived_model_attempt_id]. *)
Definition derived_model_attempt_id (episode_id : EpisodeId) (attempt_number : N)
    : Result ModelAttemptId :=
  map_err (fun _ => DerivedIdentity)
    (parse_id KModelAttempt ("model-attempt-" +:+ as_str episode_id +:+ "-"
                             +:+ pretty attempt_number)).

(** [derived_turn_id]. *)
Definition derived_turn_id (episode_id : EpisodeId) (turn_index : N) : Result TurnId :=
  map_err (fun _ => DerivedIdentity)
    (parse_id KTurn ("turn-" +:+ as_str episode_id +:+ "-" +:+ pretty turn_index)).

(** ** The durable state *)

Definition DURABLE_EPISODE_STATE_SCHEMA_V2 : N := 2.

(** [struct AgentLoopRuntimeSpec]. *)
Record AgentLoopRuntimeSpec := MkRuntimeSpec {
  rs_episode : Episode.AgentEpisodeRecord;
  rs_policy : AgentLoopPolicy;
  rs_initial_input_digest : Sha256Digest;
  rs_resolved_model_digest : Sha256Digest;
  rs_deployment_digest : Sha256Digest;
  rs_model_profile_digest : Sha256Digest;
  rs_request_budget_digest : Sha256Digest;
}.

(** [struct DurableTurn]. *)
Record DurableTurn := MkDurableTurn {
  dt_record : TurnRecord;
  dt_semantic_turn : GatewayTurn;
}.

(** [struct DurableToolOperation]. *)
Record DurableToolOperation := MkDurableOp {
  do_record : ToolOp.ToolOperationRecord;
  do_call : GatewayToolCall;
}.

#[export] Instance DurableTurn_eq_dec : EqDecision DurableTurn.
Proof. solve_decision. Defined.
#[export] Instance DurableToolOperation_eq_dec : EqDecision DurableToolOperation.
Proof. solve_decision. Defined.

(** The values of [DurableEpisodeState] no operation of the runner
    writes after creation. *)
Record RuntimeIdentity := MkRuntimeIdentity {
  ri_initial_input_digest : Sha256Digest;
  ri_resolved_model_digest : Sha256Digest;
  ri_deployment_digest : Sha256Digest;
  ri_model_profile_digest : Sha256Digest;
  ri_request_budget_digest : Sha256Digest;
}.

#[export] Instance RuntimeIdentity_eq_dec : EqDecision RuntimeIdentity.
Proof. solve_decision. Defined.

(** [struct DurableEpisodeState]. *)
Record DurableEpisodeState := MkState {
  st_schema_version : N;
  st_episode : Episode.AgentEpisodeRecord;
  st_policy : AgentLoopPolicy;
  st_identity : RuntimeIdentity;
  st_next_input_digest : Sha256Digest;
  st_attempts : list Attempt.ModelAttemptRecord;
  st_turns : list DurableTurn;
  st_tool_operations : list DurableToolOperation;
  st_ambiguous_model_attempts : N;
  st_stop_feedback_turns : N;
  st_subtask_satisfied : bool;
  st_cancellation_requested : bool;
  st_grants : list AllowanceGrant;
}.

#[export] Instance DurableEpisodeState_eq_dec : EqDecision DurableEpisodeState.
Proof. solve_decision. Defined.

Definition st_status (s : DurableEpisodeState) : Episode.EpisodeStatus :=
  Episode.ep_status (st_episode s).
Definition st_episode_id (s : DurableEpisodeState) : EpisodeId :=
  Episode.ep_id (st_episode s).

(** *** Field updates *)

Definition set_episode (s : DurableEpisodeState) v : DurableEpisodeState :=
  MkState (st_schema_version s) v (st_policy s) (st_identity s) (st_next_input_digest s)
    (st_attempts s) (st_turns s) (st_tool_operations s) (st_ambiguous_model_attempts s)
    (st_stop_feedback_turns s) (st_subtask_satisfied s) (st_cancellation_requested s)
    (st_grants s).

Definition set_policy (s : DurableEpisodeState) v : DurableEpisodeState :=
  MkState (st_schema_version s) (st_episode s) v (st_identity s) (st_next_input_digest s)
    (st_attempts s) (st_turns s) (st_tool_operations s) (st_ambiguous_model_attempts s)
    (st_stop_feedback_turns s) (st_subtask_satisfied s) (st_cancellation_requested s)
    (st_grants s).

Definition set_next_input (s : DurableEpisodeState) v : DurableEpisodeState :=
  MkState (st_schema_version s) (st_episode s) (st_policy s) (st_identity s) v
    (st_attempts s) (st_turns s) (st_tool_operations s) (st_ambiguous_model_attempts s)
    (st_stop_feedback_turns s) (st_subtask_satisfied s) (st_cancellation_requested s)
    (st_grants s).

Definition set_attempts (s : DurableEpisodeState) v : DurableEpisodeState :=
  MkState (st_schema_version s) (st_episode s) (st_policy s) (st_identity s)
    (st_next_input_digest s) v (st_turns s) (st_tool_operations s)
    (st_ambiguous_model_attempts s) (st_stop_feedback_turns s) (st_subtask_satisfied s)
    (st_cancellation_requested s) (st_grants s).

Definition set_turns (s : DurableEpisodeState) v : DurableEpisodeState :=
  MkState (st_schema_version s) (st_episode s) (st_policy s) (st_identity s)
    (st_next_input_digest s) (st_attempts s) v (st_tool_operations s)
    (st_ambiguous_model_attempts s) (st_stop_feedback_turns s) (st_subtask_satisfied s)
    (st_cancellation_requested s) (st_grants s).

Definition set_ops (s : DurableEpisodeState) v : DurableEpisodeState :=
  MkState (st_schema_version s) (st_episode s) (st_policy s) (st_identity s)
    (st_next_input_digest s) (st_attempts s) (st_turns s) v
    (st_ambiguous_model_attempts s) (st_stop_feedback_turns s) (st_subtask_satisfied s)
    (st_cancellation_requested s) (st_grants s).

Definition set_ambiguous (s : DurableEpisodeState) v : DurableEpisodeState :=
  MkState (st_schema_version s) (st_episode s) (st_policy s) (st_identity s)
    (st_next_input_digest s) (st_attempts s) (st_turns s) (st_tool_operations s)
    v (st_stop_feedback_turns s) (st_subtask_satisfied s) (st_cancellation_requested s)
    (st_grants s).

Definition set_stop_feedback (s : DurableEpisodeState) v : DurableEpisodeState :=
  MkState (st_schema_version s) (st_episode s) (st_policy s) (st_identity s)
    (st_next_input_digest s) (st_attempts s) (st_turns s) (st_tool_operations s)
    (st_ambiguous_model_attempts s) v (st_subtask_satisfied s)
    (st_cancellation_requested s) (st_grants s).

Definition set_satisfied (s : DurableEpisodeState) v : DurableEpisodeState :=
  MkState (st_schema_version s) (st_episode s) (st_policy s) (st_identity s)
    (st_next_input_digest s) (st_attempts s) (st_turns s) (st_tool_operations s)
    (st_ambiguous_model_attempts s) (st_stop_feedback_turns s) v
    (st_cancellation_requested s) (st_grants s).

Definition set_cancellation (s : DurableEpisodeState) v : DurableEpisodeState :=
  MkState (st_schema_version s) (st_episode s) (st_policy s) (st_identity s)
    (st_next_input_digest s) (st_attempts s) (st_turns s) (st_tool_operations s)
    (st_ambiguous_model_attempts s) (st_stop_feedback_turns s) (st_subtask_satisfied s)
    v (st_grants s).

Definition set_grants (s : DurableEpisodeState) v : DurableEpisodeState :=
  MkState (st_schema_version s) (st_episode s) (st_policy s) (st_identity s)
    (st_next_input_digest s) (st_attempts s) (st_turns s) (st_tool_operations s)
    (st_ambiguous_model_attempts s) (st_stop_feedback_turns s) (st_subtask_satisfied s)
    (st_cancellation_requested s) v.

(** ** Creation and revalidation *)

(** [DurableEpisodeState::new]. *)
Definition state_new (spec : AgentLoopRuntimeSpec) : Result DurableEpisodeState :=
  _ ← policy_validate (rs_policy spec);
  Ok (MkState DURABLE_EPISODE_STATE_SCHEMA_V2 (rs_episode spec) (rs_policy spec)
        (MkRuntimeIdentity (rs_initial_input_digest spec) (rs_resolved_model_digest spec)
           (rs_deployment_digest spec) (rs_model_profile_digest spec)
           (rs_request_budget_digest spec))
        (rs_initial_input_digest spec) [] [] [] 0 0 false false []).

(** The loop that revalidates every recovered turn. *)
Fixpoint validate_turns (turns : list DurableTurn) : Result unit :=
  match turns with
  | [] => Ok tt
  | t :: rest =>
      _ ← map_err GatewayError (gateway_turn_validate (dt_semantic_turn t));
      validate_turns rest
  end.

(** [DurableEpisodeState::validate_recovered]. *)
Definition validate_recovered (self : DurableEpisodeState) : Result unit :=
  _ ← guard_err (negb (st_schema_version self =? DURABLE_EPISODE_STATE_SCHEMA_V2)%N)
        (InvalidDurableState "unsupported durable episode schema");
  _ ← policy_validate (st_policy self);
  _ ← guard_err (length (st_attempts self) <? length (st_turns self))
        (InvalidDurableState "episode has more turns than model attempts");
  validate_turns (st_turns self).

(** [DurableEpisodeState::matches_runtime_spec]. *)
Definition matches_runtime_spec (self : DurableEpisodeState) (spec : AgentLoopRuntimeSpec)
    : bool :=
  Episode.matches_immutable (st_episode self) (rs_episode spec)
  && bool_decide (policy_rules (st_policy self) = policy_rules (rs_policy spec))
  && bool_decide (ri_initial_input_digest (st_identity self) = rs_initial_input_digest spec)
  && bool_decide (ri_resolved_model_digest (st_identity self) = rs_resolved_model_digest spec)
  && bool_decide (ri_deployment_digest (st_identity self) = rs_deployment_digest spec)
  && bool_decide (ri_model_profile_digest (st_identity self) = rs_model_profile_digest spec)
  && bool_decide (ri_request_budget_digest (st_identity self) = rs_request_budget_digest spec).
