(* ===== verification/Fixtures.v ===== *)
(** * Concrete values for the witnesses

    A toy hash in place of SHA-256, one policy, one episode and the fresh
    state made of them; the witnesses of the runtime's theorems run on
    these. *)

From stdpp Require Import base strings list.
From S2P Require Import Prelude Digest Encoding Identity AgentRecord ModelAttempt ModelGateway.
From S2P Require Import LoopPolicy EpisodeState.

Definition sample_episode_id : EpisodeId := MkId "episode-1" eq_refl.

Definition sample_episode_spec : Episode.EpisodeSpec :=
  Episode.MkEpisodeSpec sample_episode_id (MkId "task-1" eq_refl) (MkId "search-1" eq_refl)
    None (digest_of "contract") (digest_of "context") (digest_of "root") "model"
    (digest_of "resolved") "prompt-v1" (digest_of "catalog") (digest_of "policy")
    (digest_of "boundary") (digest_of "budget").

Definition sample_episode : Episode.AgentEpisodeRecord :=
  Episode.MkEpisode 1 sample_episode_spec Episode.Created.

Definition sample_policy : AgentLoopPolicy := MkPolicy 4 6 1 2 4 1.

Definition sample_runtime_spec : AgentLoopRuntimeSpec :=
  MkRuntimeSpec sample_episode sample_policy (digest_of "input") (digest_of "resolved")
    (digest_of "deployment") (digest_of "profile") (digest_of "request-budget").

Definition sample_state : DurableEpisodeState :=
  match state_new sample_runtime_spec with
  | Ok s => s
  | Err _ => MkState 0 sample_episode sample_policy
      (MkRuntimeIdentity (digest_of "none") (digest_of "none") (digest_of "none") (digest_of "none")
         (digest_of "none")) (digest_of "none") [] [] [] 0 0 false false []
  end.

Lemma sample_state_new : state_new sample_runtime_spec = Ok sample_state.
Proof. reflexivity. Qed.
