(* ===== verification/EpisodePorts.v ===== *)
(** * The ports of the reducer

    [src/crates/alloyport-core/src/agent_runtime_support.rs]: the
    compare-and-swap repository, as a class of operations and a class of
    laws, with the in-memory reference adapter that satisfies them; the
    tool gateway and the fault injector (type classes over the adapter's
    state) with their scripted doubles; and the result of one advance. *)

From stdpp Require Import base strings gmap list.
From S2P Require Import Prelude Digest Identity AgentRecord ModelGateway EpisodeState Fixtures.

(** [struct VersionedEpisodeState]; [revision] is a [u64]. *)
Record VersionedEpisodeState := MkVersioned {
  ve_revision : N;
  ve_state : DurableEpisodeState;
}.

#[export] Instance VersionedEpisodeState_eq_dec : EqDecision VersionedEpisodeState.
Proof. solve_decision. Defined.

(** [trait EpisodeRepository]; [R] is the adapter's state.  [load] takes
    [&self] but an adapter may touch its own state (a connection), so it
    returns one too. *)
Class EpisodeRepository (R : Type) := {
  repo_create : DurableEpisodeState -> R -> R * result EpisodeRepositoryError unit;
  repo_load : EpisodeId -> R -> R * result EpisodeRepositoryError VersionedEpisodeState;
  repo_save : N -> DurableEpisodeState -> R -> R * result EpisodeRepositoryError N;
}.

(** The contract of the port: there is a durable content [repo_view] that
    successful loads report, successful saves replace under compare and
    swap, and failed calls leave alone.  Any call may fail. *)
Class EpisodeRepositoryLaws (R : Type) `{EpisodeRepository R} := {
  repo_view : R -> EpisodeId -> option VersionedEpisodeState;
  repo_load_view : forall id r, repo_view (repo_load id r).1 = repo_view r;
  repo_load_Ok : forall id r v, (repo_load id r).2 = Ok v -> repo_view r id = Some v;
  repo_create_Ok : forall s r, (repo_create s r).2 = Ok tt ->
    repo_view r (st_episode_id s) = None
    /\ (forall id, repo_view (repo_create s r).1 id =
          if decide (id = st_episode_id s) then Some (MkVersioned 0 s) else repo_view r id);
  repo_create_Err : forall s r e, (repo_create s r).2 = Err e ->
    repo_view (repo_create s r).1 = repo_view r;
  repo_save_Ok : forall rev s r rev', (repo_save rev s r).2 = Ok rev' ->
    rev' = (rev + 1)%N
    /\ (exists old, repo_view r (st_episode_id s) = Some (MkVersioned rev old))
    /\ (forall id, repo_view (repo_save rev s r).1 id =
          if decide (id = st_episode_id s) then Some (MkVersioned rev' s) else repo_view r id);
  repo_save_Err : forall rev s r e, (repo_save rev s r).2 = Err e ->
    repo_view (repo_save rev s r).1 = repo_view r;
}.

(** A repository that refuses nothing it could do. *)
Class ReliableRepository (R : Type) `{EpisodeRepositoryLaws R} := {
  repo_load_total : forall id r v, repo_view r id = Some v -> (repo_load id r).2 = Ok v;
  repo_save_total : forall rev s r old, repo_view r (st_episode_id s) = Some (MkVersioned rev old) ->
    (rev < u64_max)%N -> exists rev', (repo_save rev s r).2 = Ok rev';
}.

(** ** The in-memory adapter *)

(** [struct InMemoryEpisodeRepository]; the [BTreeMap] is a finite map. *)
Definition InMemoryEpisodeRepository : Type := gmap EpisodeId VersionedEpisodeState.

(** [InMemoryEpisodeRepository::create]. *)
Definition in_memory_create (state : DurableEpisodeState) (self : InMemoryEpisodeRepository)
    : InMemoryEpisodeRepository * result EpisodeRepositoryError unit :=
  let id := st_episode_id state in
  match self !! id with
  | Some _ => (self, Err (AlreadyExists id))
  | None => (<[id := MkVersioned 0 state]> self, Ok tt)
  end.

(** [InMemoryEpisodeRepository::load]. *)
Definition in_memory_load (id : EpisodeId) (self : InMemoryEpisodeRepository)
    : InMemoryEpisodeRepository * result EpisodeRepositoryError VersionedEpisodeState :=
  (self, ok_or (self !! id) (NotFound id)).

(** [InMemoryEpisodeRepository::save]. *)
Definition in_memory_save (expected_revision : N) (state : DurableEpisodeState)
    (self : InMemoryEpisodeRepository)
    : InMemoryEpisodeRepository * result EpisodeRepositoryError N :=
  let id := st_episode_id state in
  match self !! id with
  | None => (self, Err (NotFound id))
  | Some current =>
      if negb (ve_revision current =? expected_revision)%N
      then (self, Err (Conflict expected_revision (ve_revision current)))
      else match checked_add u64_max expected_revision 1 with
           | None => (self, Err RevisionExhausted)
           | Some revision => (<[id := MkVersioned revision state]> self, Ok revision)
           end
  end.

#[export] Instance in_memory_repository : EpisodeRepository InMemoryEpisodeRepository := {|
  repo_create := in_memory_create;
  repo_load := in_memory_load;
  repo_save := in_memory_save;
|}.

#[export, refine] Instance in_memory_laws : EpisodeRepositoryLaws InMemoryEpisodeRepository := {|
  repo_view := fun r id => r !! id;
|}.
Proof.
  - done.
  - intros id r v H. by apply ok_or_Ok in H.
  - intros s r H. cbn in *. unfold in_memory_create, InMemoryEpisodeRepository in *. destruct (r !! _) eqn:E; [done|].
    split; [done|]. intros id. cbn. case_decide; subst.
    + by rewrite lookup_insert_eq.
    + by rewrite lookup_insert_ne by done.
  - intros s r e H. cbn in *. unfold in_memory_create in *. by destruct (r !! _).
  - intros rev s r rev' H. cbn in *. unfold in_memory_save, InMemoryEpisodeRepository in *.
    destruct (r !! _) as [[cr cs]|] eqn:E; [|done]. cbn in *.
    destruct (N.eqb_spec cr rev) as [->|]; cbn in *; [|done].
    destruct (checked_add _ _ _) eqn:C; cbn in *; [|done].
    apply checked_add_Some in C as [-> _]. injection H as <-.
    split; [done|]. split; [by eexists|]. intros id. case_decide; subst.
    + by rewrite lookup_insert_eq.
    + by rewrite lookup_insert_ne by done.
  - intros rev s r e H. cbn in *. unfold in_memory_save in *.
    destruct (r !! _); [|done]. destruct (negb _); [done|]. by destruct (checked_add _ _ _).
Defined.

#[export] Instance in_memory_reliable : ReliableRepository InMemoryEpisodeRepository.
Proof.
  split.
  - intros id r v H. cbn in *. by rewrite H.
  - intros rev s r old H Hrev. cbn in *. unfold in_memory_save. rewrite H. cbn.
    rewrite N.eqb_refl. cbn. unfold checked_add.
    destruct (N.leb_spec (rev + 1) u64_max); [by eexists|lia].
Qed.

(** ** Property *)

Section lost_update.
Context `{EpisodeRepositoryLaws R}.

(** No lost update: when two writers hold the same revision of an
    episode and one of them saves, the other's save is refused whatever
    it holds, the first writer's state stays, and no other episode is
    touched by either. *)
Theorem no_lost_update (r : R) (rev rev1 : N) (s1 s2 : DurableEpisodeState)
    (Hid : st_episode_id s1 = st_episode_id s2)
    (Hsave : (repo_save rev s1 r).2 = Ok rev1) :
  let r1 := (repo_save rev s1 r).1 in
  let r2 := (repo_save rev s2 r1).1 in
  (exists e, (repo_save rev s2 r1).2 = Err e)
  /\ repo_view r2 (st_episode_id s1) = Some (MkVersioned rev1 s1)
  /\ forall id, id <> st_episode_id s1 -> repo_view r2 id = repo_view r id.
Proof.
  intros r1 r2. apply repo_save_Ok in Hsave as (-> & _ & Hv).
  fold r1 in Hv.
  destruct (repo_save rev s2 r1).2 as [rev2|e] eqn:E2.
  - apply repo_save_Ok in E2 as (_ & [old Hold] & _).
    rewrite <-Hid, Hv, decide_True in Hold by done. injection Hold as Hc _. lia.
  - apply repo_save_Err in E2 as Hr. fold r2 in Hr.
    split; [by eexists|]. rewrite Hr. split.
    + by rewrite Hv, decide_True.
    + intros id Hne. by rewrite Hv, decide_False.
Qed.

End lost_update.

(** *** Witness *)

Lemma no_lost_update_witness :
  let r : InMemoryEpisodeRepository := {[sample_episode_id := MkVersioned 3 sample_state]} in
  let s1 := set_cancellation sample_state true in
  repo_view (repo_save 3 sample_state (repo_save 3 s1 r).1).1 sample_episode_id
  = Some (MkVersioned 4 s1).
Proof.
  intros r s1.
  refine (proj1 (proj2 (no_lost_update r 3 4 s1 sample_state eq_refl _))).
  vm_compute. reflexivity.
Defined.

(** ** Tool gateway, fault injection and the advance verdict *)

(** [struct ToolInvocation]. *)
Record ToolInvocation := MkInvocation {
  ti_operation_id : ToolOperationId;
  ti_call : GatewayToolCall;
  ti_input_identity_digest : Sha256Digest;
}.

#[export] Instance ToolInvocation_eq_dec : EqDecision ToolInvocation.
Proof. solve_decision. Defined.

(** [enum ToolGatewayOutcome]. *)
Inductive ToolGatewayOutcome :=
| TCompleted (status : ToolOp.ToolOperationStatus) (result_digest : Sha256Digest)
    (receipt_digests : list Sha256Digest) (satisfies_subtask : bool)
| TPending (diagnostic_digest : Sha256Digest)
| TAmbiguous (diagnostic_digest : Sha256Digest).

(** [struct ToolInputRejection]. *)
Record ToolInputRejection := MkRejection {
  rj_result_digest : Sha256Digest;
  rj_diagnostic : string;
}.

(** [trait AgentToolGateway]; [T] is the adapter's state. *)
Class AgentToolGateway (T : Type) := {
  tool_descriptor : T -> string -> option RuntimeToolDescriptor;
  tool_validate_call : T -> GatewayToolCall -> result ToolInputRejection unit;
  tool_execute : ToolInvocation -> T -> T * result ToolGatewayError ToolGatewayOutcome;
  tool_reconcile : ToolInvocation -> T -> T * result ToolGatewayError ToolGatewayOutcome;
}.

(** [trait AgentRuntimeFaultInjector]. *)
Class AgentRuntimeFaultInjector (F : Type) :=
  should_crash : AgentRuntimeFaultPoint -> F -> F * bool.

(** [NoAgentRuntimeFault]. *)
Inductive NoAgentRuntimeFault := NoFault.
#[export] Instance no_fault_injector : AgentRuntimeFaultInjector NoAgentRuntimeFault :=
  fun _ f => (f, false).

(** [OneShotAgentRuntimeFault]. *)
Record OneShotAgentRuntimeFault := OneShot { os_point : option AgentRuntimeFaultPoint }.
#[export] Instance one_shot_injector : AgentRuntimeFaultInjector OneShotAgentRuntimeFault :=
  fun point self =>
    if bool_decide (os_point self = Some point) then (OneShot None, true) else (self, false).

(** [enum AgentLoopAdvance]. *)
Inductive AgentLoopAdvance :=
| Progressed (status : Episode.EpisodeStatus)
| ProgressedAfter (status : Episode.EpisodeStatus) (delay_millis : N)
| Terminal (status : Episode.EpisodeStatus)
| Suspended.

#[export] Instance AgentLoopAdvance_eq_dec : EqDecision AgentLoopAdvance.
Proof. solve_decision. Defined.

(** [progress] (agent_runtime_helpers.rs). *)
Definition progress (status : Episode.EpisodeStatus) : AgentLoopAdvance :=
  if Episode.episode_is_terminal status then Terminal status
  else if bool_decide (status = Episode.Suspended) then Suspended
  else Progressed status.

(** ** The scripted double *)

(** [enum ToolGatewayAction], [struct ScriptedToolStep],
    [struct ScriptedFakeToolGateway]. *)
Inductive ToolGatewayAction := Execute | Reconcile.

#[export] Instance ToolGatewayAction_eq_dec : EqDecision ToolGatewayAction.
Proof. solve_decision. Defined.

Record ScriptedToolStep := MkScriptedToolStep {
  sts_action : ToolGatewayAction;
  sts_expected_tool_name : string;
  sts_outcome : ToolGatewayOutcome;
}.

Record ScriptedFakeToolGateway := MkScriptedTools {
  sf_descriptors : gmap string RuntimeToolDescriptor;
  sf_steps : list ScriptedToolStep;
  sf_invocations : list ToolOperationId;
}.

(** [ScriptedFakeToolGateway::invoke]. *)
Definition scripted_tool_invoke (action : ToolGatewayAction) (request : ToolInvocation)
    (self : ScriptedFakeToolGateway)
    : ScriptedFakeToolGateway * result ToolGatewayError ToolGatewayOutcome :=
  match sf_steps self with
  | [] => (self, Err ToolScriptExhausted)
  | step :: rest =>
      if bool_decide (sts_action step <> action)
         || bool_decide (sts_expected_tool_name step <> tc_name (ti_call request))
      then (MkScriptedTools (sf_descriptors self) rest (sf_invocations self),
            Err ToolUnexpectedRequest)
      else (MkScriptedTools (sf_descriptors self) rest
              (sf_invocations self ++ [ti_operation_id request]),
            Ok (sts_outcome step))
  end.

#[export] Instance scripted_tool_gateway : AgentToolGateway ScriptedFakeToolGateway := {|
  tool_descriptor self name := sf_descriptors self !! name;
  tool_validate_call _ _ := Ok tt;
  tool_execute := scripted_tool_invoke Execute;
  tool_reconcile := scripted_tool_invoke Reconcile;
|}.
