(* ===== verification/Artifacts.v ===== *)
(** * Content-addressed artifacts

    [src/crates/alloyport-artifacts/src/lib.rs] and
    [adapters/memory.rs]: the storage port as a class of operations and a
    class of laws, and the in-memory adapter, which satisfies them.  The
    filesystem adapter is outside (see the header of the development). *)

From stdpp Require Import base strings gmap list.
From S2P Require Import Prelude Digest.

Local Open Scope N_scope.

(** [struct ArtifactIdentity]. *)
Record ArtifactIdentity := MkArtifactIdentity {
  ai_digest : Sha256Digest;
  ai_size_bytes : N;
}.

(** [struct IngestRequest]. *)
Record IngestRequest := MkIngestRequest {
  expected_digest : option Sha256Digest;
  expected_size_bytes : option N;
}.

(** [IngestRequest::unverified]. *)
Definition ingest_unverified : IngestRequest := MkIngestRequest None None.

(** [enum IngestDisposition]. *)
Inductive IngestDisposition := Stored | AlreadyPresent.

(** [struct IngestResult]. *)
Record IngestResult := MkIngestResult {
  ir_artifact : ArtifactIdentity;
  ir_disposition : IngestDisposition;
}.

(** [enum ArtifactStoreError]; an [Io] error keeps only its operation. *)
Inductive ArtifactStoreError :=
| ArtifactIo (operation : string)
| SizeLimitExceeded (limit_bytes observed_at_least_bytes : N)
| SizeMismatch (expected_bytes actual_bytes : N)
| DigestMismatch (expected actual : Sha256Digest)
| ArtifactIntegrity (digest : Sha256Digest).

(** [struct ArtifactReader]: the identity and the bytes it yields. *)
Record ArtifactReader := MkReader {
  rd_identity : ArtifactIdentity;
  rd_source : bytes;
}.

(** The length of a byte string as a [u64]: no [Vec] exceeds it. *)
Definition byte_len (b : bytes) : N := N.of_nat (length b).

(** [trait ArtifactStore]; [A] is the adapter's state.  [source] is the
    bytes the reader yields. *)
Class ArtifactStore (A : Type) := {
  artifact_ingest : bytes -> IngestRequest -> A -> A * result ArtifactStoreError IngestResult;
  artifact_open : Sha256Digest -> A -> result ArtifactStoreError ArtifactReader;
  artifact_contains : Sha256Digest -> A -> result ArtifactStoreError bool;
}.

(** The contract of the port: what was ingested can be opened, what is
    opened has the digest it was asked by, and nothing is ever replaced. *)
Class ArtifactStoreLaws `{Sha256} (A : Type) `{ArtifactStore A} := {
  ingest_Ok : forall b q a r, (artifact_ingest b q a).2 = Ok r ->
    ir_artifact r = MkArtifactIdentity (digest_bytes b) (byte_len b)
    /\ (forall d, expected_digest q = Some d -> d = digest_bytes b)
    /\ artifact_open (digest_bytes b) (artifact_ingest b q a).1
       = Ok (MkReader (ir_artifact r) b);
  ingest_size : forall b q a r n,
    (artifact_ingest b q a).2 = Ok r -> expected_size_bytes q = Some n -> n = byte_len b;
  ingest_keeps : forall b q a d r,
    artifact_open d a = Ok r -> artifact_open d (artifact_ingest b q a).1 = Ok r;
  open_Ok : forall d a r, artifact_open d a = Ok r ->
    rd_identity r = MkArtifactIdentity d (byte_len (rd_source r))
    /\ digest_bytes (rd_source r) = d;
}.

(** ** The in-memory adapter *)

Section memory.
Context `{Sha256}.

(** [struct InMemoryArtifactStore]. *)
Record InMemoryArtifactStore := MkMemory {
  objects : gmap Sha256Digest bytes;
  max_artifact_bytes : N;
}.

(** [validate_request]. *)
Definition validate_request (identity : ArtifactIdentity) (request : IngestRequest) :
    result ArtifactStoreError unit :=
  match expected_size_bytes request with
  | Some expected => guard_err (negb (expected =? ai_size_bytes identity))
      (SizeMismatch expected (ai_size_bytes identity))
  | None => Ok tt
  end ;;
  match expected_digest request with
  | Some expected => guard_err (negb (bool_decide (expected = ai_digest identity)))
      (DigestMismatch expected (ai_digest identity))
  | None => Ok tt
  end.

Definition COPY_BUFFER_BYTES : N := 65536.

(** The size at which the read loop gives up: it reads full buffers (as a
    cursor yields them) and stops at the first one beyond the limit. *)
Definition observed_at_least (limit len : N) : N :=
  N.min len ((limit / COPY_BUFFER_BYTES + 1) * COPY_BUFFER_BYTES).

(** [InMemoryArtifactStore::ingest]. *)
Definition memory_ingest (source : bytes) (request : IngestRequest) (self : InMemoryArtifactStore) :
    InMemoryArtifactStore * result ArtifactStoreError IngestResult :=
  let limit := max_artifact_bytes self in
  let identity := MkArtifactIdentity (digest_bytes source) (byte_len source) in
  let too_large := match expected_size_bytes request with
                   | Some size => if limit <? size then Some size else None
                   | None => None
                   end in
  match too_large with
  | Some size => (self, Err (SizeLimitExceeded limit size))
  | None =>
      if limit <? byte_len source
      then (self, Err (SizeLimitExceeded limit (observed_at_least limit (byte_len source))))
      else
        match validate_request identity request with
        | Err e => (self, Err e)
        | Ok _ =>
            match objects self !! ai_digest identity with
            | None => (MkMemory (<[ai_digest identity := source]> (objects self)) limit,
                       Ok (MkIngestResult identity Stored))
            | Some existing =>
                if bool_decide (existing = source)
                then (self, Ok (MkIngestResult identity AlreadyPresent))
                else (self, Err (ArtifactIntegrity (ai_digest identity)))
            end
        end
  end.

(** [InMemoryArtifactStore::open]. *)
Definition memory_open (digest : Sha256Digest) (self : InMemoryArtifactStore) :
    result ArtifactStoreError ArtifactReader :=
  found ← ok_or (objects self !! digest) (ArtifactIo "open in-memory Artifact");
  guard_err (negb (bool_decide (digest_bytes found = digest))) (ArtifactIntegrity digest) ;;
  Ok (MkReader (MkArtifactIdentity digest (byte_len found)) found).

(** [InMemoryArtifactStore::contains]. *)
Definition memory_contains (digest : Sha256Digest) (self : InMemoryArtifactStore) :
    result ArtifactStoreError bool :=
  Ok (bool_decide (is_Some (objects self !! digest))).

(** [InMemoryArtifactStore::remove_unreachable]. *)
Definition memory_remove (digest : Sha256Digest) (self : InMemoryArtifactStore) :
    InMemoryArtifactStore * bool :=
  (MkMemory (delete digest (objects self)) (max_artifact_bytes self),
   bool_decide (is_Some (objects self !! digest))).

#[export] Instance memory_store : ArtifactStore InMemoryArtifactStore := {
  artifact_ingest := memory_ingest;
  artifact_open := memory_open;
  artifact_contains := memory_contains;
}.

(** ** The adapter keeps the contract *)

Lemma validate_request_Ok identity q u :
  validate_request identity q = Ok u ->
  (forall n, expected_size_bytes q = Some n -> n = ai_size_bytes identity)
  /\ (forall d, expected_digest q = Some d -> d = ai_digest identity).
Proof.
  unfold validate_request. intros (? & Hs & Hd)%result_bind_Ok. split.
  - intros n E. rewrite E in Hs. by apply guard_err_Ok, negb_false_iff, N.eqb_eq in Hs.
  - intros d E. rewrite E in Hd. by apply guard_err_Ok, negb_false_iff, bool_decide_eq_true in Hd.
Qed.

(** The cases of an ingestion: refused and unchanged, or present. *)
Lemma memory_ingest_cases b q self :
  let '(self', r) := memory_ingest b q self in
  match r with
  | Err _ => self' = self
  | Ok x => ir_artifact x = MkArtifactIdentity (digest_bytes b) (byte_len b)
      /\ (forall d, expected_digest q = Some d -> d = digest_bytes b)
      /\ byte_len b <= max_artifact_bytes self
      /\ objects self' = <[digest_bytes b := b]> (objects self)
      /\ (forall c, objects self !! digest_bytes b = Some c -> c = b)
  end.
Proof.
  unfold memory_ingest. destruct (match expected_size_bytes q with Some _ => _ | None => _ end); [done|].
  destruct (N.ltb_spec (max_artifact_bytes self) (byte_len b)) as [?|Hle]; [done|].
  destruct (validate_request _ q) as [u|e] eqn:Ev; [|done].
  apply validate_request_Ok in Ev as [_ Hd]. cbn [ai_digest] in *.
  destruct (objects self !! digest_bytes b) as [c|] eqn:Eo.
  - case_bool_decide as Ec; [|done]. subst c. split_and!; try done.
    + symmetry. by apply insert_id.
    + by intros ? [= <-].
  - by split_and!.
Qed.

Lemma memory_ingest_sizes b q self :
  let '(self', r) := memory_ingest b q self in
  is_ok r = true ->
  (forall n, expected_size_bytes q = Some n -> n = byte_len b)
  /\ max_artifact_bytes self' = max_artifact_bytes self.
Proof.
  unfold memory_ingest. destruct (match expected_size_bytes q with Some _ => _ | None => _ end); [done|].
  destruct (_ <? _); [done|].
  destruct (validate_request _ q) as [u|e] eqn:Ev; [|done].
  apply validate_request_Ok in Ev as [Hn _]. cbn [ai_size_bytes ai_digest] in *.
  destruct (objects self !! digest_bytes b); [case_bool_decide|]; done.
Qed.

Lemma memory_open_Ok d self r :
  memory_open d self = Ok r <->
  objects self !! d = Some (rd_source r) /\ digest_bytes (rd_source r) = d
  /\ rd_identity r = MkArtifactIdentity d (byte_len (rd_source r)).
Proof.
  unfold memory_open. rewrite result_bind_Ok. setoid_rewrite ok_or_Ok. setoid_rewrite guard_bind_Ok.
  setoid_rewrite negb_false_iff. setoid_rewrite bool_decide_eq_true.
  split.
  - intros (b & Hb & Hd & [= <-]). by split_and!.
  - intros (Hb & Hd & Hi). exists (rd_source r). split_and!; [done|done|]. destruct r. cbn in *. by rewrite Hi.
Qed.

#[export] Instance memory_laws : ArtifactStoreLaws InMemoryArtifactStore.
Proof.
  split; cbn [artifact_ingest artifact_open memory_store].
  - intros b q self r Hr. pose proof (memory_ingest_cases b q self) as Hc.
    destruct (memory_ingest b q self) as [self' x]. cbn [fst snd] in *. subst x.
    destruct Hc as (Hi & Hd & _ & Ho & _). split_and!; [done|done|].
    apply memory_open_Ok. cbn. rewrite Ho, lookup_insert_eq. by split_and!.
  - intros b q self r n Hr. pose proof (memory_ingest_sizes b q self) as Hs.
    destruct (memory_ingest b q self) as [self' x]. cbn [snd] in Hr. subst x. by apply Hs.
  - intros b q self d r Hr. pose proof (memory_ingest_cases b q self) as Hc.
    destruct (memory_ingest b q self) as [self' [x|e]]; cbn [fst] in *; [|by subst].
    apply memory_open_Ok in Hr as (Hb & Hd & Hi). apply memory_open_Ok.
    destruct Hc as (_ & _ & _ & Ho & Hsame). rewrite Ho. split_and!; [|done|done].
    destruct (decide (digest_bytes b = d)) as [<-|Hne].
    + rewrite lookup_insert_eq. f_equal. symmetry. by apply Hsame.
    + by rewrite lookup_insert_ne.
  - intros d self r (Hb & Hd & Hi)%memory_open_Ok. done.
Qed.

(** The requests the adapter accepts. *)
Definition acceptable (b : bytes) (q : IngestRequest) (self : InMemoryArtifactStore) : Prop :=
  byte_len b <= max_artifact_bytes self
  /\ (forall n, expected_size_bytes q = Some n -> n = byte_len b)
  /\ (forall d, expected_digest q = Some d -> d = digest_bytes b)
  /\ (forall c, objects self !! digest_bytes b = Some c -> c = b).

Lemma memory_ingest_total b q self :
  acceptable b q self -> exists self' disposition, memory_ingest b q self
    = (self', Ok (MkIngestResult (MkArtifactIdentity (digest_bytes b) (byte_len b)) disposition))
    /\ (objects self !! digest_bytes b = Some b -> self' = self /\ disposition = AlreadyPresent).
Proof.
  intros (Hl & Hn & Hd & Hc). unfold memory_ingest.
  assert ((match expected_size_bytes q with
    | Some size => if max_artifact_bytes self <? size then Some size else None
    | None => None end) = None) as ->.
  { destruct (expected_size_bytes q) as [n|]; [|done]. rewrite (Hn n eq_refl).
    by rewrite (proj2 (N.ltb_ge _ _) Hl). }
  rewrite (proj2 (N.ltb_ge _ _) Hl).
  assert (validate_request (MkArtifactIdentity (digest_bytes b) (byte_len b)) q = Ok tt) as ->.
  { unfold validate_request. cbn [ai_size_bytes ai_digest].
    destruct (expected_size_bytes q) as [n|]; [rewrite (Hn n eq_refl), N.eqb_refl|];
      cbn [negb guard_err mbind result_bind];
      (destruct (expected_digest q) as [d|]; [rewrite (Hd d eq_refl), bool_decide_true by done|]; done). }
  cbn [ai_digest]. destruct (objects self !! digest_bytes b) as [c|].
  - rewrite (Hc c eq_refl), bool_decide_true by done. by do 2 eexists.
  - by do 2 eexists.
Qed.

(** The in-memory store is content addressed: it accepts exactly the
    sources within its limit that match what the request expects and do
    not collide with other stored bytes; an accepted source can be opened
    by its digest, is accepted again without change, and leaves every
    other artifact as it was; a refused one changes nothing. *)
Theorem memory_store_content_addressed (b : bytes) (q : IngestRequest) (self : InMemoryArtifactStore) :
  let '(self', r) := memory_ingest b q self in
  (is_ok r = true <-> acceptable b q self)
  /\ match r with
     | Err _ => self' = self
     | Ok x =>
         memory_open (digest_bytes b) self' = Ok (MkReader (ir_artifact x) b)
         /\ memory_ingest b q self' = (self', Ok (MkIngestResult (ir_artifact x) AlreadyPresent))
         /\ (forall d, d <> digest_bytes b -> memory_open d self' = memory_open d self)
     end.
Proof.
  pose proof (memory_ingest_cases b q self) as Hc.
  pose proof (memory_ingest_total b q self) as Ht.
  pose proof (memory_ingest_sizes b q self) as Hs.
  pose proof (ingest_Ok (A := InMemoryArtifactStore) b q self) as Hopen.
  cbn [artifact_ingest artifact_open memory_store] in Hopen.
  destruct (memory_ingest b q self) as [self' [x|e]]; cbn [fst snd] in *.
  - destruct Hc as (Hi & Hd & Hl & Ho & Hsame). destruct (Hs eq_refl) as [Hn Hm]. split; [by split_and!|].
    destruct (Hopen x eq_refl) as (_ & _ & Hr). split_and!; [done| |].
    + destruct (memory_ingest_total b q self') as (self2 & disp & E & Hp).
      { split_and!; [congruence|done|done|]. rewrite Ho, lookup_insert_eq. by intros ? [= <-]. }
      destruct Hp as [-> ->]; [by rewrite Ho, lookup_insert_eq|]. by rewrite E, Hi.
    + intros d Hne. unfold memory_open. by rewrite Ho, lookup_insert_ne.
  - split; [|done]. split; [done|]. intros Ha. by destruct (Ht Ha) as (? & ? & ? & _).
Qed.

End memory.
