(* ===== verification/Uploads.v ===== *)
(** * Artifact uploads, references and garbage collection

    [src/crates/alloyport-artifacts/src/upload.rs] and its SQLite adapter
    [adapters/sqlite/upload_*.rs].  [Uploads] are the tables, [UploadStore]
    the adapter with its staging files, reader leases and limits.  A failed
    transaction leaves the tables as they were; files change outside the
    transaction, as in the code.  The content-addressed store is the port
    of Artifacts.v.  File-system failures and poisoned locks are not
    modelled, stored digests are kept as digests, and the migrations of
    older schemas are left out. *)

From Stdlib Require Import Ascii.
From stdpp Require Import base strings pretty gmap sorting list.
From S2P Require Import Prelude Text Digest Artifacts.

Local Open Scope N_scope.

(** ** Data *)

(** [struct BeginUpload]. *)
Record BeginUpload := MkBegin {
  bu_owner_id : string;
  bu_upload_key : string;
  bu_expected_digest : Sha256Digest;
  bu_expected_size_bytes : N;
  bu_media_type : string;
  bu_now_ms : N;
  bu_expires_at_ms : N;
}.

(** [enum UploadState]. *)
Inductive UploadState := UploadOpen | UploadFinalizing | UploadCompleted | UploadFailed.
#[export] Instance UploadState_eq_dec : EqDecision UploadState.
Proof. solve_decision. Defined.

(** [struct UploadQuotas], [UploadQuotas::unbounded]. *)
Record UploadQuotas := MkQuotas { total_bytes : N; per_owner_bytes : N }.
Definition quotas_unbounded : UploadQuotas := MkQuotas i64_max i64_max.

(** [enum QuotaScope]. *)
Inductive QuotaScope := ScopeTotal | ScopeOwner.

(** [enum ArtifactReferenceKind]. *)
Inductive ArtifactReferenceKind :=
| RefUpload | RefAssignmentInput | RefAssignmentOutput | RefReceipt | RefRetentionRoot | RefOther.
#[export] Instance ArtifactReferenceKind_eq_dec : EqDecision ArtifactReferenceKind.
Proof. solve_decision. Defined.

(** [struct GrantArtifactReference]. *)
Record GrantArtifactReference := MkGrant {
  gr_owner_id : string;
  gr_reference_key : string;
  gr_digest : Sha256Digest;
  gr_kind : ArtifactReferenceKind;
  gr_purpose : string;
  gr_now_ms : N;
  gr_retained_until_ms : option N;
}.

(** [struct ArtifactReference], also a row of [artifact_references], whose
    key is the owner and the reference key. *)
Record ArtifactReference := MkReference {
  af_owner_id : string;
  af_reference_key : string;
  af_digest : Sha256Digest;
  af_kind : ArtifactReferenceKind;
  af_purpose : string;
  af_created_at_ms : N;
  af_retained_until_ms : option N;
  af_revoked_at_ms : option N;
}.

(** [struct GarbageCollectionReport]. *)
Record GarbageCollectionReport := MkReport {
  collected_objects : N;
  reclaimed_bytes : N;
  skipped_active_readers : N;
}.

(** [struct UploadSession]. *)
Record UploadSession := MkUploadSession {
  up_upload_id : string;
  up_owner_id : string;
  up_upload_key : string;
  up_expected_digest : Sha256Digest;
  up_expected_size_bytes : N;
  up_media_type : string;
  up_committed_offset : N;
  up_state : UploadState;
  up_expires_at_ms : N;
  up_artifact : option ArtifactIdentity;
}.

Module Up.

(** [enum UploadError]; the inner errors and the text of [Corrupt] are
    dropped. *)
Inductive UploadError :=
| Storage
| Io (operation : string)
| Artifact (error : ArtifactStoreError)
| NotFound (what : string)
| OwnerMismatch
| ConflictingUploadKey
| ConflictingReferenceKey
| ReferenceRevoked
| GarbageCollectionPending (digest : Sha256Digest)
| InvalidRequest (detail : string)
| OffsetConflict (expected received : N)
| ChunkTooLarge (limit received : N)
| SizeLimitExceeded (limit attempted : N)
| QuotaExceeded (scope : QuotaScope) (limit used requested : N)
| InvalidState (state : UploadState)
| Expired
| Incomplete (expected committed : N)
| Corrupt.

End Up.
Abbreviation UError := Up.UploadError.

(** ** Tables *)

(** A row of [upload_sessions]. *)
Record SessionRow := MkSessionRow {
  us_owner_id : string;
  us_upload_key : string;
  us_expected_digest : Sha256Digest;
  us_expected_size_bytes : N;
  us_media_type : string;
  us_committed_offset : N;
  us_state : UploadState;
  us_created_at_ms : N;
  us_updated_at_ms : N;
  us_expires_at_ms : N;
  us_artifact_digest : option Sha256Digest;
  us_quota_reserved_bytes : N;
}.

(** [SCHEMA]: sessions by id, object sizes by digest, owned sizes by owner
    and digest, references by owner and key, and when an object was marked
    for collection. *)
Record Uploads := MkUploads {
  ut_sessions : gmap string SessionRow;
  ut_objects : gmap Sha256Digest N;
  ut_owners : gmap (string * Sha256Digest) N;
  ut_references : gmap (string * string) ArtifactReference;
  ut_pending : gmap Sha256Digest N;
}.

Definition uploads_empty : Uploads := MkUploads ∅ ∅ ∅ ∅ ∅.

Definition set_sessions (u : Uploads) t := MkUploads t (ut_objects u) (ut_owners u) (ut_references u) (ut_pending u).
Definition set_objects (u : Uploads) t := MkUploads (ut_sessions u) t (ut_owners u) (ut_references u) (ut_pending u).
Definition set_owners (u : Uploads) t := MkUploads (ut_sessions u) (ut_objects u) t (ut_references u) (ut_pending u).
Definition set_references (u : Uploads) t := MkUploads (ut_sessions u) (ut_objects u) (ut_owners u) t (ut_pending u).
Definition set_pending (u : Uploads) t := MkUploads (ut_sessions u) (ut_objects u) (ut_owners u) (ut_references u) t.

(** A transaction that returns an outcome. *)
Definition UTxn (A : Type) : Type := Uploads -> result UError (A * Uploads).

(** [to_i64]. *)
Definition upload_i64 (value : N) : result UError N :=
  if value <=? i64_max then Ok value else Err Up.Corrupt.

(** [query_session]. *)
Definition session_of (upload_id : string) (row : SessionRow) : UploadSession :=
  MkUploadSession upload_id (us_owner_id row) (us_upload_key row) (us_expected_digest row)
    (us_expected_size_bytes row) (us_media_type row) (us_committed_offset row) (us_state row)
    (us_expires_at_ms row)
    ((fun d => MkArtifactIdentity d (us_expected_size_bytes row)) <$> us_artifact_digest row).

(** [session_by_id] and [session_by_key]; the key is unique. *)
Definition session_by_id (upload_id : string) (u : Uploads) : option UploadSession :=
  session_of upload_id <$> ut_sessions u !! upload_id.

Definition session_by_key (owner_id upload_key : string) (u : Uploads) : option UploadSession :=
  (fun kr => session_of kr.1 kr.2) <$>
    head (filter (fun kr => us_owner_id kr.2 = owner_id /\ us_upload_key kr.2 = upload_key)
            (map_to_list (ut_sessions u))).

(** ** Quotas *)

(** [validate_quotas]. *)
Definition validate_quotas (quotas : UploadQuotas) : result UError unit :=
  _ ← guard_err ((total_bytes quotas =? 0) || (per_owner_bytes quotas =? 0))
        (Up.InvalidRequest "artifact quota limits must be positive");
  _ ← guard_err ((i64_max <? total_bytes quotas) || (i64_max <? per_owner_bytes quotas))
        (Up.InvalidRequest "artifact quota limits exceed SQLite range");
  guard_err (total_bytes quotas <? per_owner_bytes quotas)
    (Up.InvalidRequest "per-owner artifact quota exceeds total quota").

(** [SUM] of a column: SQLite refuses a sum beyond its integers. *)
Definition sum (l : list N) : N := foldr N.add 0 l.

Definition query_bytes (l : list N) : result UError N :=
  if sum l <=? i64_max then Ok (sum l) else Err Up.Storage.

(** [state IN (Open, Finalizing)]. *)
Definition unfinished_upload (state : UploadState) : bool :=
  match state with UploadOpen | UploadFinalizing => true | _ => false end.

Definition live (now_ms : N) (row : SessionRow) : bool :=
  unfinished_upload (us_state row) && (now_ms <? us_expires_at_ms row).

(** The columns the quota queries sum: a row the condition excludes counts
    nothing. *)
Definition stored_column (u : Uploads) : list N := snd <$> map_to_list (ut_objects u).

Definition reserved_column (now_ms : N) (u : Uploads) : list N :=
  (fun kr => if live now_ms kr.2 then us_quota_reserved_bytes kr.2 else 0)
    <$> map_to_list (ut_sessions u).

Definition owned_column (owner_id : string) (u : Uploads) : list N :=
  (fun kn => if bool_decide (kn.1.1 = owner_id) then kn.2 else 0) <$> map_to_list (ut_owners u).

Definition owner_reserved_column (owner_id : string) (now_ms : N) (u : Uploads) : list N :=
  (fun kr => if bool_decide (us_owner_id kr.2 = owner_id) && live now_ms kr.2
             then us_quota_reserved_bytes kr.2 else 0) <$> map_to_list (ut_sessions u).

(** [enforce_quota]. *)
Definition enforce_quota (scope : QuotaScope) (limit used requested : N) : result UError unit :=
  guard_err (limit <? saturating_add u64_max used requested) (Up.QuotaExceeded scope limit used requested).

(** [owner_stored_bytes] and [owner_reserved_bytes]. *)
Definition owner_stored_bytes (owner_id : string) (u : Uploads) : result UError N :=
  query_bytes (owned_column owner_id u).

Definition owner_reserved_bytes (owner_id : string) (now_ms : N) (u : Uploads) : result UError N :=
  now_ms ← upload_i64 now_ms; query_bytes (owner_reserved_column owner_id now_ms u).

(** [enforce_local_artifact_quota]. *)
Definition enforce_local_artifact_quota (owner_id : string) (size_bytes : N) (quotas : UploadQuotas)
    (now_ms : N) (u : Uploads) : result UError unit :=
  total_stored ← query_bytes (stored_column u);
  now ← upload_i64 now_ms;
  total_reserved ← query_bytes (reserved_column now u);
  _ ← enforce_quota ScopeTotal (total_bytes quotas)
        (saturating_add u64_max total_stored total_reserved) size_bytes;
  owner_stored ← owner_stored_bytes owner_id u;
  owner_reserved ← owner_reserved_bytes owner_id now_ms u;
  enforce_quota ScopeOwner (per_owner_bytes quotas)
    (saturating_add u64_max owner_stored owner_reserved) size_bytes.

(** [reserve_quota], which makes the same queries. *)
Definition reserve_quota (request : BeginUpload) (quotas : UploadQuotas) (u : Uploads) : result UError unit :=
  enforce_local_artifact_quota (bu_owner_id request) (bu_expected_size_bytes request) quotas
    (bu_now_ms request) u.

(** [artifact_size]. *)
Definition artifact_size (digest : Sha256Digest) (u : Uploads) : option N := ut_objects u !! digest.

(** ** Sessions *)

(** [validate_begin]. *)
Definition validate_begin (request : BeginUpload) (max : N) : result UError unit :=
  _ ← guard_err (trim_is_empty (bu_owner_id request)) (Up.InvalidRequest "owner is missing");
  _ ← guard_err (trim_is_empty (bu_upload_key request)) (Up.InvalidRequest "upload key is missing");
  _ ← guard_err (trim_is_empty (bu_media_type request)) (Up.InvalidRequest "media type is missing");
  _ ← guard_err (bu_expires_at_ms request <=? bu_now_ms request)
        (Up.InvalidRequest "expiry must be in the future");
  guard_err (max <? bu_expected_size_bytes request)
    (Up.SizeLimitExceeded max (bu_expected_size_bytes request)).

(** [authorize] and [ensure_open]. *)
Definition authorize (session : UploadSession) (owner_id : string) : result UError unit :=
  guard_err (negb (bool_decide (up_owner_id session = owner_id))) Up.OwnerMismatch.

Definition ensure_open (session : UploadSession) (now_ms : N) : result UError unit :=
  _ ← guard_err (negb (bool_decide (up_state session = UploadOpen))) (Up.InvalidState (up_state session));
  guard_err (up_expires_at_ms session <=? now_ms) Up.Expired.

(** [is_terminal_artifact_error]. *)
Definition is_terminal_artifact_error (error : ArtifactStoreError) : bool :=
  match error with
  | SizeLimitExceeded _ _ | SizeMismatch _ _ | DigestMismatch _ _ | ArtifactIntegrity _ => true
  | ArtifactIo _ => false
  end.

(** [struct SqliteUploadStore]: the tables, the staging files, the reader
    leases, the limits and the counter of upload ids. *)
Record UploadStore := MkUploadStore {
  st_db : Uploads;
  st_files : gmap string bytes;
  st_readers : gmap Sha256Digest N;
  st_max_upload_bytes : N;
  st_max_chunk_bytes : N;
  st_quotas : UploadQuotas;
  st_counter : N;
}.

Definition with_db (s : UploadStore) (u : Uploads) : UploadStore :=
  MkUploadStore u (st_files s) (st_readers s) (st_max_upload_bytes s) (st_max_chunk_bytes s) (st_quotas s)
    (st_counter s).
Definition with_files (s : UploadStore) f : UploadStore :=
  MkUploadStore (st_db s) f (st_readers s) (st_max_upload_bytes s) (st_max_chunk_bytes s) (st_quotas s)
    (st_counter s).
Definition with_readers (s : UploadStore) r : UploadStore :=
  MkUploadStore (st_db s) (st_files s) r (st_max_upload_bytes s) (st_max_chunk_bytes s) (st_quotas s)
    (st_counter s).
Definition with_counter (s : UploadStore) c : UploadStore :=
  MkUploadStore (st_db s) (st_files s) (st_readers s) (st_max_upload_bytes s) (st_max_chunk_bytes s)
    (st_quotas s) c.

(** One transaction on the tables. *)
Definition transact {A} (t : UTxn A) (s : UploadStore) : UploadStore * result UError A :=
  match t (st_db s) with
  | Ok (a, u) => (with_db s u, Ok a)
  | Err e => (s, Err e)
  end.

(** [AtomicU64::fetch_add] wraps. *)
Definition upload_name (counter : N) : string := "upload-" +:+ pretty counter.

(** [next_upload_id], at most [fuel] attempts. *)
Fixpoint next_upload_id (fuel : nat) (counter : N) (u : Uploads) : N * result UError string :=
  match fuel with
  | O => (counter, Err Up.Corrupt)
  | S fuel =>
      let next := (counter + 1) mod 2 ^ 64 in
      match session_by_id (upload_name counter) u with
      | None => (next, Ok (upload_name counter))
      | Some _ => next_upload_id fuel next u
      end
  end.

(** The row [begin] inserts. *)
Definition new_session (request : BeginUpload) : result UError SessionRow :=
  size ← upload_i64 (bu_expected_size_bytes request);
  now ← upload_i64 (bu_now_ms request);
  expires ← upload_i64 (bu_expires_at_ms request);
  Ok (MkSessionRow (bu_owner_id request) (bu_upload_key request) (bu_expected_digest request) size
        (bu_media_type request) 0 UploadOpen now now expires None size).

(** [SqliteUploadStore::begin]. *)
Definition begin (request : BeginUpload) (s : UploadStore) : UploadStore * result UError UploadSession :=
  match validate_begin request (st_max_upload_bytes s) with
  | Err e => (s, Err e)
  | Ok _ =>
      match session_by_key (bu_owner_id request) (bu_upload_key request) (st_db s) with
      | Some existing =>
          if negb (bool_decide (up_expected_digest existing = bu_expected_digest request))
             || negb (up_expected_size_bytes existing =? bu_expected_size_bytes request)
             || negb (bool_decide (up_media_type existing = bu_media_type request))
          then (s, Err Up.ConflictingUploadKey)
          else (s, Ok existing)
      | None =>
          match reserve_quota request (st_quotas s) (st_db s) with
          | Err e => (s, Err e)
          | Ok _ =>
              let u := set_pending (st_db s) (delete (bu_expected_digest request) (ut_pending (st_db s))) in
              let '(counter, id) := next_upload_id 32 (st_counter s) u in
              let s := with_counter s counter in
              match (id ← id; row ← new_session request; Ok (id, row)) with
              | Err e => (s, Err e)
              | Ok (id, row) =>
                  (with_db s (set_sessions u (<[id := row]> (ut_sessions u))), Ok (session_of id row))
              end
          end
      end
  end.

(** [SqliteUploadStore::status]. *)
Definition status (owner_id upload_id : string) (s : UploadStore) : result UError UploadSession :=
  session ← ok_or (session_by_id upload_id (st_db s)) (Up.NotFound upload_id);
  _ ← authorize session owner_id;
  Ok session.

(** [data_path]. *)
Definition data_path (upload_id : string) : result UError string :=
  _ ← guard_err (bool_decide (upload_id = EmptyString)
                 || negb (all_bytes (fun a => is_ascii_alphanumeric a || bool_decide (a = "-"%char)) upload_id))
        Up.Corrupt;
  Ok upload_id.

(** The bytes of a file that may be missing: opening creates it. *)
Definition file_bytes (file : option bytes) : bytes := match file with Some data => data | None => [] end.

(** [append_file]: an uncommitted tail is cut off first. *)
Definition append_file (path : string) (committed : N) (data : bytes) (files : gmap string bytes)
    : gmap string bytes * result UError unit :=
  let content := file_bytes (files !! path) in
  if byte_len content <? committed then (<[path := content]> files, Err Up.Corrupt)
  else (<[path := take (N.to_nat committed) content ++ data]> files, Ok tt).

Definition with_progress (row : SessionRow) (committed : N) (state : UploadState) (now_ms : N)
    (artifact : option Sha256Digest) (reserved : N) : SessionRow :=
  MkSessionRow (us_owner_id row) (us_upload_key row) (us_expected_digest row) (us_expected_size_bytes row)
    (us_media_type row) committed state (us_created_at_ms row) now_ms (us_expires_at_ms row) artifact reserved.

(** The [UPDATE] of one session. *)
Definition update_session (upload_id : string) (f : SessionRow -> SessionRow) (u : Uploads) : Uploads :=
  set_sessions u (alter f upload_id (ut_sessions u)).

(** [SqliteUploadStore::append]. *)
Definition upload_append (owner_id upload_id : string) (offset : N) (data : bytes) (now_ms : N)
    (s : UploadStore) : UploadStore * result UError N :=
  if st_max_chunk_bytes s <? byte_len data
  then (s, Err (Up.ChunkTooLarge (st_max_chunk_bytes s) (byte_len data))) else
  let next := saturating_add u64_max offset (byte_len data) in
  let admitted :=
    session ← ok_or (session_by_id upload_id (st_db s)) (Up.NotFound upload_id);
    _ ← authorize session owner_id;
    _ ← ensure_open session now_ms;
    _ ← guard_err (negb (offset =? up_committed_offset session))
          (Up.OffsetConflict (up_committed_offset session) offset);
    _ ← guard_err ((up_expected_size_bytes session <? next) || (st_max_upload_bytes s <? next))
          (Up.SizeLimitExceeded (N.min (up_expected_size_bytes session) (st_max_upload_bytes s)) next);
    data_path upload_id in
  match admitted with
  | Err e => (s, Err e)
  | Ok path =>
      let '(files, written) := append_file path offset data (st_files s) in
      let s := with_files s files in
      match (_ ← written; next ← upload_i64 next; now_ms ← upload_i64 now_ms; Ok (next, now_ms)) with
      | Err e => (s, Err e)
      | Ok (next, now_ms) =>
          (with_db s (update_session upload_id
             (fun r => with_progress r next (us_state r) now_ms (us_artifact_digest r) (us_quota_reserved_bytes r))
             (st_db s)), Ok next)
      end
  end.

(** [INSERT OR IGNORE]. *)
Definition insert_or_ignore {K V} `{Countable K} (k : K) (v : V) (m : gmap K V) : gmap K V :=
  match m !! k with Some _ => m | None => <[k := v]> m end.

(** The statements [record_completed_artifact] and [record_local_artifact]
    share: the object, its mark, the reference and the owner's row. *)
Definition record_artifact (owner_id reference_key purpose : string) (kind : ArtifactReferenceKind)
    (artifact : ArtifactIdentity) (now_ms : N) (u : Uploads) : result UError Uploads :=
  let digest := ai_digest artifact in
  size ← upload_i64 (ai_size_bytes artifact);
  let u := set_objects u (insert_or_ignore digest size (ut_objects u)) in
  _ ← guard_err (negb (bool_decide (ut_objects u !! digest = Some size))) Up.Corrupt;
  let u := set_pending u (delete digest (ut_pending u)) in
  now ← upload_i64 now_ms;
  let u := set_references u (insert_or_ignore (owner_id, reference_key)
             (MkReference owner_id reference_key digest kind purpose now None None) (ut_references u)) in
  Ok (set_owners u (insert_or_ignore (owner_id, digest) size (ut_owners u))).

(** [record_completed_artifact]. *)
Definition record_completed_artifact (owner_id upload_id : string) (artifact : ArtifactIdentity) (now_ms : N)
    (u : Uploads) : result UError Uploads :=
  u ← record_artifact owner_id ("upload:" +:+ upload_id) "completed upload" RefUpload artifact now_ms u;
  _ ← guard_err (negb (bool_decide (ut_owners u !! (owner_id, ai_digest artifact)
                                    = Some (ai_size_bytes artifact)))) Up.Corrupt;
  Ok u.

(** The key of a controller's reference, and [record_local_artifact] of the
    records. *)
Definition controller_key (digest : Sha256Digest) : string := "controller:" +:+ digest_display digest.

Definition record_controller_artifact (owner_id : string) (artifact : ArtifactIdentity) (now_ms : N)
    (u : Uploads) : result UError Uploads :=
  record_artifact owner_id (controller_key (ai_digest artifact)) "controller artifact" RefRetentionRoot
    artifact now_ms u.

(** ** Finalization *)

(** What [finalize] decides in its first transaction. *)
Inductive FinalizeStart :=
| AlreadyCompleted (artifact : ArtifactIdentity)
| Finalize (session : UploadSession).

Definition start_finalize (owner_id upload_id : string) (now_ms : N) : UTxn FinalizeStart := fun u =>
  session ← ok_or (session_by_id upload_id u) (Up.NotFound upload_id);
  _ ← authorize session owner_id;
  match up_state session with
  | UploadCompleted =>
      artifact ← ok_or (up_artifact session) Up.Corrupt; Ok (AlreadyCompleted artifact, u)
  | UploadFailed => Err (Up.InvalidState UploadFailed)
  | UploadOpen | UploadFinalizing =>
      _ ← guard_err (up_expires_at_ms session <=? now_ms) Up.Expired;
      _ ← guard_err (negb (up_committed_offset session =? up_expected_size_bytes session))
            (Up.Incomplete (up_expected_size_bytes session) (up_committed_offset session));
      now ← upload_i64 now_ms;
      Ok (Finalize session, update_session upload_id
            (fun r => with_progress r (us_committed_offset r) UploadFinalizing now (us_artifact_digest r)
                        (us_quota_reserved_bytes r)) u)
  end.

(** [mark_failed]. *)
Definition mark_failed (upload_id : string) (now_ms : N) : UTxn unit := fun u =>
  now ← upload_i64 now_ms;
  Ok (tt, update_session upload_id
    (fun r => with_progress r (us_committed_offset r) UploadFailed now (us_artifact_digest r) 0) u).

(** The second transaction. *)
Definition complete_upload (session : UploadSession) (artifact : ArtifactIdentity) (now_ms : N) : UTxn unit :=
  fun u =>
  u ← record_completed_artifact (up_owner_id session) (up_upload_id session) artifact now_ms u;
  now ← upload_i64 now_ms;
  Ok (tt, update_session (up_upload_id session)
    (fun r => with_progress r (us_committed_offset r) UploadCompleted now (Some (ai_digest artifact)) 0) u).

(** The bytes the reader of the staging file yields: a file that was never
    written may be missing. *)
Definition staged (session : UploadSession) (s : UploadStore) : result UError bytes :=
  match st_files s !! up_upload_id session with
  | Some data => Ok data
  | None => if up_expected_size_bytes session =? 0 then Ok []
            else Err (Up.Io "open upload data for finalization")
  end.

Section store.
Context {A : Type} `{ArtifactStore A}.

(** The ingestion and the second transaction of [finalize]. *)
Definition ingest_upload (session : UploadSession) (now_ms : N) (data : bytes) (s : UploadStore) (a : A)
    : UploadStore * A * result UError ArtifactIdentity :=
  let '(a, ingested) := artifact_ingest data
    (MkIngestRequest (Some (up_expected_digest session)) (Some (up_expected_size_bytes session))) a in
  match ingested with
  | Err error =>
      if is_terminal_artifact_error error then
        match transact (mark_failed (up_upload_id session) now_ms) s with
        | (s, Err e) => (s, a, Err e)
        | (s, Ok _) => (s, a, Err (Up.Artifact error))
        end
      else (s, a, Err (Up.Artifact error))
  | Ok r =>
      match transact (complete_upload session (ir_artifact r) now_ms) s with
      | (s, Err e) => (s, a, Err e)
      | (s, Ok _) => (with_files s (delete (up_upload_id session) (st_files s)), a, Ok (ir_artifact r))
      end
  end.

(** [SqliteUploadStore::finalize]. *)
Definition finalize (owner_id upload_id : string) (now_ms : N) (s : UploadStore) (a : A)
    : UploadStore * A * result UError ArtifactIdentity :=
  match transact (start_finalize owner_id upload_id now_ms) s with
  | (s, Err e) => (s, a, Err e)
  | (s, Ok (AlreadyCompleted artifact)) => (s, a, Ok artifact)
  | (s, Ok (Finalize session)) =>
      match (_ ← data_path upload_id; staged session s) with
      | Err e => (s, a, Err e)
      | Ok data => ingest_upload session now_ms data s a
      end
  end.

End store.

(** The sessions [prune_expired] selects. *)
Definition expired_ids (now_ms : N) (u : Uploads) : list string :=
  fst <$> filter (fun kr => us_state kr.2 <> UploadCompleted /\ us_expires_at_ms kr.2 <= now_ms)
            (map_to_list (ut_sessions u)).

(** [SqliteUploadStore::prune_expired]; every id has a path. *)
Definition prune_expired (now_ms : N) (s : UploadStore) : UploadStore * result UError nat :=
  match (now ← upload_i64 now_ms; ids ← Ok (expired_ids now (st_db s));
         _ ← foldr (fun id r => _ ← data_path id; r) (Ok tt) ids; Ok ids) with
  | Err e => (s, Err e)
  | Ok ids =>
      (with_db (with_files s (foldr delete (st_files s) ids))
         (set_sessions (st_db s) (foldr delete (ut_sessions (st_db s)) ids)), Ok (length ids))
  end.

(** [cleanup_completed_data], when the store is opened: the leases are
    gone and the counter starts at a new seed. *)
Definition reopen (seed : N) (s : UploadStore) : UploadStore :=
  let completed := fst <$> filter (fun kr => us_state kr.2 = UploadCompleted) (map_to_list (ut_sessions (st_db s))) in
  with_counter (with_readers (with_files s (foldr delete (st_files s) completed)) ∅) seed.

(** ** Metadata and references *)

(** [completed_upload_session_by_key]. *)
Definition completed_upload_session_by_key (owner_id upload_key : string) (u : Uploads) : option UploadSession :=
  session ← session_by_key owner_id upload_key u;
  if bool_decide (up_state session = UploadCompleted) then Some session else None.

(** [owns_completed_artifact] and [can_read_artifact]. *)
Definition can_read_artifact (owner_id : string) (digest : Sha256Digest) (u : Uploads) : bool :=
  bool_decide (is_Some (ut_owners u !! (owner_id, digest))).

(** [SqliteUploadStore::record_local_artifact], at the time of its clock. *)
Definition record_local_artifact (owner_id : string) (artifact : ArtifactIdentity) (now_ms : N)
    (quotas : UploadQuotas) : UTxn unit := fun u =>
  _ ← guard_err (trim_is_empty owner_id) Up.Corrupt;
  _ ← match artifact_size (ai_digest artifact) u with
      | None => enforce_local_artifact_quota owner_id (ai_size_bytes artifact) quotas now_ms u
      | Some _ => Ok tt
      end;
  u ← record_controller_artifact owner_id artifact now_ms u;
  Ok (tt, u).

(** [reference_by_key]. *)
Definition reference_by_key (owner_id reference_key : string) (u : Uploads) : option ArtifactReference :=
  ut_references u !! (owner_id, reference_key).

Definition active (reference : ArtifactReference) : bool :=
  match af_revoked_at_ms reference with None => true | Some _ => false end.

(** [has_active_owner_reference] and [has_other_active_owner_reference]. *)
Definition has_active_owner_reference (owner_id : string) (digest : Sha256Digest) (u : Uploads) : bool :=
  existsb (fun kr => bool_decide (kr.1.1 = owner_id) && bool_decide (af_digest kr.2 = digest) && active kr.2)
    (map_to_list (ut_references u)).

Definition has_other_active_owner_reference (owner_id : string) (digest : Sha256Digest)
    (excluded_key : string) (u : Uploads) : bool :=
  existsb (fun kr => bool_decide (kr.1.1 = owner_id) && bool_decide (af_digest kr.2 = digest)
                     && negb (bool_decide (kr.1.2 = excluded_key)) && active kr.2)
    (map_to_list (ut_references u)).

(** [garbage_collection_pending]. *)
Definition garbage_collection_pending (digest : Sha256Digest) (u : Uploads) : bool :=
  bool_decide (is_Some (ut_pending u !! digest)).

(** [validate_reference_identity] and [validate_reference_grant]. *)
Definition validate_reference_identity (owner_id reference_key : string) : result UError unit :=
  _ ← guard_err (trim_is_empty owner_id) (Up.InvalidRequest "reference owner is missing");
  guard_err (trim_is_empty reference_key) (Up.InvalidRequest "reference key is missing").

Definition validate_reference_grant (request : GrantArtifactReference) : result UError unit :=
  _ ← validate_reference_identity (gr_owner_id request) (gr_reference_key request);
  _ ← guard_err (bool_decide (gr_kind request = RefUpload))
        (Up.InvalidRequest "upload references are created only by finalization");
  _ ← guard_err (trim_is_empty (gr_purpose request)) (Up.InvalidRequest "reference purpose is missing");
  guard_err (match gr_retained_until_ms request with
             | Some until => until <=? gr_now_ms request
             | None => false
             end) (Up.InvalidRequest "reference retention must end in the future").

(** [reference_matches_grant]. *)
Definition reference_matches_grant (reference : ArtifactReference) (request : GrantArtifactReference) : bool :=
  bool_decide (af_digest reference = gr_digest request) && bool_decide (af_kind reference = gr_kind request)
  && bool_decide (af_purpose reference = gr_purpose request)
  && bool_decide (af_retained_until_ms reference = gr_retained_until_ms request) && active reference.

(** [insert_reference]: the row. *)
Definition granted_reference (request : GrantArtifactReference) : result UError ArtifactReference :=
  now ← upload_i64 (gr_now_ms request);
  until ← match gr_retained_until_ms request with
          | Some until => until ← upload_i64 until; Ok (Some until)
          | None => Ok None
          end;
  Ok (MkReference (gr_owner_id request) (gr_reference_key request) (gr_digest request) (gr_kind request)
        (gr_purpose request) now until None).

(** [SqliteUploadStore::grant_reference]. *)
Definition grant_reference (quotas : UploadQuotas) (request : GrantArtifactReference) : UTxn ArtifactReference :=
  fun u =>
  let key := (gr_owner_id request, gr_reference_key request) in
  let owned := (gr_owner_id request, gr_digest request) in
  _ ← validate_reference_grant request;
  match ut_references u !! key with
  | Some existing =>
      if reference_matches_grant existing request then Ok (existing, u)
      else Err (if active existing then Up.ConflictingReferenceKey else Up.ReferenceRevoked)
  | None =>
      _ ← guard_err (garbage_collection_pending (gr_digest request) u)
            (Up.GarbageCollectionPending (gr_digest request));
      size ← ok_or (artifact_size (gr_digest request) u) (Up.NotFound (digest_display (gr_digest request)));
      let creates_owner_usage := negb (has_active_owner_reference (gr_owner_id request) (gr_digest request) u) in
      _ ← (if creates_owner_usage then
             stored ← owner_stored_bytes (gr_owner_id request) u;
             reserved ← owner_reserved_bytes (gr_owner_id request) (gr_now_ms request) u;
             enforce_quota ScopeOwner (per_owner_bytes quotas) (saturating_add u64_max stored reserved) size
           else Ok tt);
      reference ← granted_reference request;
      let u := set_references u (<[key := reference]> (ut_references u)) in
      if creates_owner_usage then
        match ut_owners u !! owned with
        | Some _ => Err Up.Storage
        | None => Ok (reference, set_owners u (<[owned := size]> (ut_owners u)))
        end
      else Ok (reference, u)
  end.

(** [SqliteUploadStore::revoke_reference]. *)
Definition revoke_reference (owner_id reference_key : string) (now_ms : N) : UTxn ArtifactReference := fun u =>
  _ ← validate_reference_identity owner_id reference_key;
  reference ← ok_or (reference_by_key owner_id reference_key u) (Up.NotFound reference_key);
  if negb (active reference) then Ok (reference, u) else
  now ← upload_i64 now_ms;
  let revoked := MkReference (af_owner_id reference) (af_reference_key reference) (af_digest reference)
    (af_kind reference) (af_purpose reference) (af_created_at_ms reference) (af_retained_until_ms reference)
    (Some now) in
  let u := set_references u (<[(owner_id, reference_key) := revoked]> (ut_references u)) in
  Ok (revoked,
      if has_other_active_owner_reference owner_id (af_digest reference) reference_key u then u
      else set_owners u (delete (owner_id, af_digest reference) (ut_owners u))).

(** ** Readers and garbage collection *)

(** [trait ArtifactRetentionStore], and what its contract promises: nothing
    but the digest goes.  A removal that fails may have removed the object:
    the file system adapter fails when the deletion cannot be synchronized.
    [RetentionAtomic] is for the statements that exclude that. *)
Class RetentionStore (A : Type) := {
  remove_unreachable : Sha256Digest -> A -> A * result ArtifactStoreError bool;
}.

Class RetentionLaws (A : Type) `{ArtifactStore A} `{RetentionStore A} := {
  remove_keeps : forall d d' a, d' <> d -> artifact_open d' (remove_unreachable d a).1 = artifact_open d' a;
}.

Class RetentionAtomic (A : Type) `{ArtifactStore A} `{RetentionStore A} := {
  remove_Err : forall d d' a a' e, remove_unreachable d a = (a', Err e) -> artifact_open d' a' = artifact_open d' a;
}.

Definition reader_count (digest : Sha256Digest) (s : UploadStore) : N := default 0 (st_readers s !! digest).

(** [open_referenced_artifact]: the reader holds a lease. *)
Definition open_referenced_artifact {A} `{ArtifactStore A} (owner_id : string) (digest : Sha256Digest)
    (s : UploadStore) (a : A) : UploadStore * result UError ArtifactReader :=
  if can_read_artifact owner_id digest (st_db s) then
    match artifact_open digest a with
    | Err e => (s, Err (Up.Artifact e))
    | Ok reader =>
        (with_readers s (<[digest := saturating_add u64_max (reader_count digest s) 1]> (st_readers s)), Ok reader)
    end
  else (s, Err Up.OwnerMismatch).

(** [Drop for LeasedArtifactReader]. *)
Definition drop_reader (digest : Sha256Digest) (s : UploadStore) : UploadStore :=
  match st_readers s !! digest with
  | None => s
  | Some count =>
      let count := count - 1 in
      with_readers s (if count =? 0 then delete digest (st_readers s)
                      else <[digest := count]> (st_readers s))
  end.

(** The condition of [artifact_is_reachable]. *)
Definition artifact_is_reachable (digest : Sha256Digest) (now_ms : N) (u : Uploads) : bool :=
  existsb (fun kr => bool_decide (af_digest kr.2 = digest)
                     && (active kr.2 || match af_retained_until_ms kr.2 with
                                        | Some until => now_ms <? until
                                        | None => false
                                        end)) (map_to_list (ut_references u))
  || existsb (fun kr => bool_decide (us_expected_digest kr.2 = digest) && live now_ms kr.2)
       (map_to_list (ut_sessions u)).

(** [stage_garbage_candidates]: the statement selects at most [limit]
    unreachable objects, in the order [scan] in which the database visits
    the objects, and marks those that have no mark yet. *)
Definition stage_garbage_candidates (scan : list Sha256Digest) (now_ms limit : N) : UTxn unit := fun u =>
  now ← upload_i64 now_ms;
  _ ← guard_err (i64_max <? limit) (Up.InvalidRequest "garbage collection limit is too large");
  let candidates :=
    filter (fun d => is_Some (ut_objects u !! d) /\ artifact_is_reachable d now u = false) scan in
  Ok (tt, set_pending u (foldr (fun d => insert_or_ignore d now) (ut_pending u)
                           (take (N.to_nat limit) candidates))).

(** [ORDER BY pending.marked_at_ms, pending.digest]. *)
Definition marked_before (a b : Sha256Digest * N) : Prop :=
  a.2 < b.2 \/ (a.2 = b.2 /\ String.le (digest_display a.1) (digest_display b.1)).
#[export] Instance marked_before_dec : RelDecision marked_before.
Proof. intros a b. unfold marked_before. apply _. Defined.

(** [pending_garbage]. *)
Definition pending_garbage (limit : N) (u : Uploads) : result UError (list (Sha256Digest * N)) :=
  _ ← guard_err (i64_max <? limit) (Up.InvalidRequest "garbage collection limit is too large");
  Ok (take (N.to_nat limit)
       (omap (fun dm => (dm.1,.) <$> ut_objects u !! dm.1)
          (merge_sort marked_before (map_to_list (ut_pending u))))).

(** The statements that forget a removed object. *)
Definition forget_object (digest : Sha256Digest) (u : Uploads) : Uploads :=
  MkUploads (ut_sessions u) (delete digest (ut_objects u)) (filter (fun kn => kn.1.2 <> digest) (ut_owners u))
    (ut_references u) (delete digest (ut_pending u)).

Definition unmark (digest : Sha256Digest) (u : Uploads) : Uploads :=
  set_pending u (delete digest (ut_pending u)).

Section collect.
Context {A : Type} `{ArtifactStore A} `{RetentionStore A}.

(** The loop of [collect_garbage]. *)
Fixpoint collect_candidates (candidates : list (Sha256Digest * N)) (now_ms : N) (report : GarbageCollectionReport)
    (s : UploadStore) (a : A) : UploadStore * A * result UError GarbageCollectionReport :=
  match candidates with
  | [] => (s, a, Ok report)
  | (digest, size) :: candidates =>
      if negb (reader_count digest s =? 0) then
        collect_candidates candidates now_ms
          (MkReport (collected_objects report) (reclaimed_bytes report)
             (saturating_add u64_max (skipped_active_readers report) 1))
          (with_db s (unmark digest (st_db s))) a
      else
        match upload_i64 now_ms with
        | Err e => (s, a, Err e)
        | Ok now =>
            if artifact_is_reachable digest now (st_db s)
            then collect_candidates candidates now_ms report (with_db s (unmark digest (st_db s))) a
            else
              match remove_unreachable digest a with
              | (a, Err e) => (s, a, Err (Up.Artifact e))
              | (a, Ok _) =>
                  collect_candidates candidates now_ms
                    (MkReport (saturating_add u64_max (collected_objects report) 1)
                       (saturating_add u64_max (reclaimed_bytes report) size) (skipped_active_readers report))
                    (with_db s (forget_object digest (st_db s))) a
              end
        end
  end.

(** [SqliteUploadStore::collect_garbage]. *)
Definition collect_garbage (scan : list Sha256Digest) (now_ms limit : N) (s : UploadStore) (a : A)
    : UploadStore * A * result UError GarbageCollectionReport :=
  if limit =? 0 then (s, a, Err (Up.InvalidRequest "garbage collection limit must be positive")) else
  match transact (stage_garbage_candidates scan now_ms limit) s with
  | (s, Err e) => (s, a, Err e)
  | (s, Ok _) =>
      match pending_garbage limit (st_db s) with
      | Err e => (s, a, Err e)
      | Ok candidates => collect_candidates candidates now_ms (MkReport 0 0 0) s a
      end
  end.

(** The candidates of a collection, after they are marked. *)
Definition staged_candidates (scan : list Sha256Digest) (now_ms limit : N) (s : UploadStore)
    : option (UploadStore * list (Sha256Digest * N)) :=
  if limit =? 0 then None else
  match transact (stage_garbage_candidates scan now_ms limit) s with
  | (s, Ok _) => match pending_garbage limit (st_db s) with Ok candidates => Some (s, candidates) | Err _ => None end
  | (_, Err _) => None
  end.

(** Whether the collection removes the object of a candidate. *)
Definition collectable (digest : Sha256Digest) (now_ms : N) (s : UploadStore) : bool :=
  (reader_count digest s =? 0)
  && match upload_i64 now_ms with Ok now => negb (artifact_is_reachable digest now (st_db s)) | Err _ => false end.

(** A collection that is cut short while it handles its [k]-th candidate:
    before the object is removed, or between that and the commit, and then
    the transaction is rolled back. *)
Definition crash_collect (scan : list Sha256Digest) (now_ms limit : N) (k : nat) (removed : bool)
    (s : UploadStore) (a : A) : UploadStore * A :=
  match staged_candidates scan now_ms limit s with
  | None => (collect_garbage scan now_ms limit s a).1
  | Some (s, candidates) =>
      let '(s, a, report) := collect_candidates (take k candidates) now_ms (MkReport 0 0 0) s a in
      match report, candidates !! k with
      | Ok _, Some (digest, _) =>
          (s, if removed && collectable digest now_ms s then (remove_unreachable digest a).1 else a)
      | _, _ => (s, a)
      end
  end.

(** ** Operations as steps *)

(** The calls that change the store.  [UpCrashAppend] is an append that is
    cut short between the file and the database: part of the chunk is in
    the staging file. *)
Inductive UploadOp :=
| UpBegin (request : BeginUpload)
| UpAppend (owner_id upload_id : string) (offset : N) (data : bytes) (now_ms : N)
| UpCrashAppend (owner_id upload_id : string) (offset : N) (data : bytes) (now_ms : N) (written : nat)
| UpFinalize (owner_id upload_id : string) (now_ms : N)
| UpPrune (now_ms : N)
| UpReopen (seed : N)
| UpLocal (owner_id : string) (artifact : ArtifactIdentity) (now_ms : N)
| UpGrant (request : GrantArtifactReference)
| UpRevoke (owner_id reference_key : string) (now_ms : N)
| UpRead (owner_id : string) (digest : Sha256Digest)
| UpDropReader (digest : Sha256Digest)
| UpCollect (scan : list Sha256Digest) (now_ms limit : N).

(** The state with the object store beside it. *)
Definition UploadSystem : Type := UploadStore * A.

Definition run_upload (op : UploadOp) (w : UploadSystem) : UploadSystem :=
  let '(s, a) := w in
  match op with
  | UpBegin r => ((begin r s).1, a)
  | UpAppend o i n d t => ((upload_append o i n d t s).1, a)
  | UpCrashAppend o i n d t k =>
      (with_files s (match (upload_append o i n d t s).2 with
                     | Ok _ => (append_file i n (take k d) (st_files s)).1
                     | Err _ => st_files s
                     end), a)
  | UpFinalize o i t => (finalize o i t s a).1
  | UpPrune t => ((prune_expired t s).1, a)
  | UpReopen seed => (reopen seed s, a)
  | UpLocal o x t => ((transact (record_local_artifact o x t (st_quotas s)) s).1, a)
  | UpGrant r => ((transact (grant_reference (st_quotas s) r) s).1, a)
  | UpRevoke o k t => ((transact (revoke_reference o k t) s).1, a)
  | UpRead o d => ((open_referenced_artifact o d s a).1, a)
  | UpDropReader d => (drop_reader d s, a)
  | UpCollect scan t n => (collect_garbage scan t n s a).1
  end.

Definition run_uploads (ops : list UploadOp) (w : UploadSystem) : UploadSystem :=
  foldl (fun w op => run_upload op w) w ops.

(** The same with collections that are cut short. *)
Inductive StoreEvent :=
| StoreCall (op : UploadOp)
| StoreCrashCollect (scan : list Sha256Digest) (now_ms limit : N) (k : nat) (removed : bool).

Definition run_event (event : StoreEvent) (w : UploadSystem) : UploadSystem :=
  match event with
  | StoreCall op => run_upload op w
  | StoreCrashCollect scan t n k removed => crash_collect scan t n k removed w.1 w.2
  end.

End collect.

(** [SqliteUploadStore::open_with_quotas] on a new database. *)
Definition open_uploads (max_upload_bytes max_chunk_bytes : N) (quotas : UploadQuotas) (seed : N)
    : result UError UploadStore :=
  _ ← guard_err (max_chunk_bytes =? 0) (Up.InvalidRequest "chunk limit must be positive");
  _ ← validate_quotas quotas;
  Ok (MkUploadStore uploads_empty ∅ ∅ max_upload_bytes max_chunk_bytes quotas seed).

(** The in-memory adapter as a retention store. *)
#[export] Instance memory_retention : RetentionStore InMemoryArtifactStore := {
  remove_unreachable d m := let '(m, removed) := memory_remove d m in (m, Ok removed);
}.

#[export] Instance memory_retention_atomic `{Sha256} : RetentionAtomic InMemoryArtifactStore.
Proof. by split. Qed.

#[export] Instance memory_retention_laws `{Sha256} : RetentionLaws InMemoryArtifactStore.
Proof.
  split. intros d d' m Hne. cbn. unfold memory_open. cbn. by rewrite lookup_delete_ne.
Qed.
