(* ===== verification/UploadLedger.v ===== *)
(** * The ledger of artifacts

    What the tables of Uploads.v mean: owners and references agree, every
    accounted object is there, staged bytes are the committed ones, and how
    every operation keeps this. *)

From stdpp Require Import base strings pretty gmap sorting list.
From S2P Require Import Prelude Text Digest Artifacts Uploads.

Local Open Scope N_scope.

(** ** Lemmas on tables *)

Lemma existsb_map {K V} `{Countable K} (f : K * V -> bool) (m : gmap K V) :
  existsb f (map_to_list m) = true <-> exists k v, m !! k = Some v /\ f (k, v) = true.
Proof.
  rewrite existsb_exists. split.
  - intros ([k v] & Hin & Hf). exists k, v. split; [|done].
    by apply elem_of_map_to_list, list_elem_of_In.
  - intros (k & v & Hk & Hf). exists (k, v). split; [|done].
    by apply list_elem_of_In, elem_of_map_to_list.
Qed.

Lemma existsb_map_false {K V} `{Countable K} (f : K * V -> bool) (m : gmap K V) :
  existsb f (map_to_list m) = false <-> forall k v, m !! k = Some v -> f (k, v) = false.
Proof.
  rewrite <-not_true_iff_false, existsb_map. split.
  - intros Hn k v Hk. apply not_true_iff_false. intros Hf. apply Hn. by exists k, v.
  - intros Hall (k & v & Hk & Hf). rewrite (Hall k v Hk) in Hf. done.
Qed.

Lemma lookup_insert_or_ignore {K V} `{Countable K} (k : K) (v : V) m k' :
  insert_or_ignore k v m !! k'
  = (if bool_decide (k = k') then Some (default v (m !! k)) else m !! k').
Proof.
  unfold insert_or_ignore. case_bool_decide as E.
  - subst. destruct (m !! k') eqn:Em; cbn; [done|by rewrite lookup_insert_eq].
  - destruct (m !! k); [done|by rewrite lookup_insert_ne].
Qed.

Lemma insert_or_ignore_keeps {K V} `{Countable K} (k : K) (v : V) m k' w :
  m !! k' = Some w -> insert_or_ignore k v m !! k' = Some w.
Proof. intros E. rewrite lookup_insert_or_ignore. case_bool_decide; [subst; by rewrite E|done]. Qed.

Lemma insert_or_ignore_new {K V} `{Countable K} (k : K) (v : V) m k' w :
  insert_or_ignore k v m !! k' = Some w -> m !! k' = Some w \/ k' = k /\ w = v /\ m !! k = None.
Proof.
  rewrite lookup_insert_or_ignore. case_bool_decide; [subst|by left].
  destruct (m !! k'); cbn; naive_solver.
Qed.

Lemma upload_i64_Ok x y : upload_i64 x = Ok y <-> x <= i64_max /\ y = x.
Proof. unfold upload_i64. destruct (N.leb_spec x i64_max); split; naive_solver lia. Qed.

Lemma transact_Ok {A} (t : UTxn A) s s' a :
  transact t s = (s', Ok a) <-> exists u, t (st_db s) = Ok (a, u) /\ s' = with_db s u.
Proof. unfold transact. destruct (t (st_db s)) as [[b u]|e]; split; naive_solver. Qed.

Lemma transact_Err {A} (t : UTxn A) s s' e : transact t s = (s', Err e) -> s' = s.
Proof. unfold transact. destruct (t (st_db s)) as [[b u]|e']; naive_solver. Qed.

(** What a transaction preserves, the adapter preserves. *)
Lemma transact_keeps {A} (P : UploadStore -> Prop) (t : UTxn A) s :
  P s -> (forall a u, t (st_db s) = Ok (a, u) -> P (with_db s u)) -> P (transact t s).1.
Proof. intros Hs Ht. unfold transact. destruct (t (st_db s)) as [[b u]|e] eqn:E; [|done]. by apply (Ht b). Qed.

(** ** The ledger *)

(** Owners, objects and references agree. *)
Record ledger_ok (u : Uploads) : Prop := {
  lk_owner : forall o d n, ut_owners u !! (o, d) = Some n -> ut_objects u !! d = Some n;
  lk_named : forall o k r, ut_references u !! (o, k) = Some r -> af_owner_id r = o /\ af_reference_key r = k;
  lk_active : forall o k r, ut_references u !! (o, k) = Some r -> active r = true ->
    is_Some (ut_owners u !! (o, af_digest r));
}.

Lemma ledger_sessions u t : ledger_ok u -> ledger_ok (set_sessions u t).
Proof. intros [H1 H2 H3]. by split. Qed.

Lemma ledger_pending u t : ledger_ok u -> ledger_ok (set_pending u t).
Proof. intros [H1 H2 H3]. by split. Qed.

(** An object recorded for an owner. *)
Lemma record_artifact_Ok o k p kind x t u u' :
  record_artifact o k p kind x t u = Ok u' ->
  ai_size_bytes x <= i64_max /\ t <= i64_max
  /\ ut_sessions u' = ut_sessions u
  /\ ut_objects u' = insert_or_ignore (ai_digest x) (ai_size_bytes x) (ut_objects u)
  /\ ut_objects u' !! ai_digest x = Some (ai_size_bytes x)
  /\ ut_pending u' = delete (ai_digest x) (ut_pending u)
  /\ ut_references u' = insert_or_ignore (o, k) (MkReference o k (ai_digest x) kind p t None None) (ut_references u)
  /\ ut_owners u' = insert_or_ignore (o, ai_digest x) (ai_size_bytes x) (ut_owners u).
Proof.
  unfold record_artifact. intros (size & [Hs ->]%upload_i64_Ok & H)%result_bind_Ok.
  apply guard_bind_Ok in H as [Hg%negb_false_iff%bool_decide_eq_true H].
  apply result_bind_Ok in H as (now & [Ht ->]%upload_i64_Ok & [= <-]). by split_and!.
Qed.

Lemma record_artifact_ledger o k p kind x t u u' :
  record_artifact o k p kind x t u = Ok u' -> ledger_ok u -> ledger_ok u'.
Proof.
  intros (_ & _ & _ & Eo & Hsize & _ & Er & Ew)%record_artifact_Ok [H1 H2 H3]. split.
  - intros o' d' n. rewrite Ew. intros [H|(E & -> & _)]%insert_or_ignore_new.
    + rewrite Eo. apply insert_or_ignore_keeps. by eapply H1.
    + by injection E as -> ->.
  - intros o' k' r. rewrite Er. intros [H|(E & -> & _)]%insert_or_ignore_new; [by apply H2|].
    by injection E as -> ->.
  - intros o' k' r. rewrite Er. intros [H|(E & -> & _)]%insert_or_ignore_new Ha; rewrite Ew.
    + destruct (H3 _ _ _ H Ha) as [n Hn]. exists n. by apply insert_or_ignore_keeps.
    + injection E as -> ->. cbn. rewrite lookup_insert_or_ignore, bool_decide_true by done. by eexists.
Qed.

Lemma grant_reference_Ok q r u x u' :
  grant_reference q r u = Ok (x, u') ->
  u' = u \/
  let key := (gr_owner_id r, gr_reference_key r) in
  let owned := (gr_owner_id r, gr_digest r) in
  ut_references u !! key = None /\ gr_kind r <> RefUpload
  /\ af_owner_id x = gr_owner_id r /\ af_reference_key x = gr_reference_key r /\ af_digest x = gr_digest r
  /\ active x = true /\ ut_pending u !! gr_digest r = None
  /\ exists n, ut_objects u !! gr_digest r = Some n
  /\ (has_active_owner_reference (gr_owner_id r) (gr_digest r) u = true
      /\ u' = set_references u (<[key := x]> (ut_references u))
     \/ has_active_owner_reference (gr_owner_id r) (gr_digest r) u = false
        /\ ut_owners u !! owned = None
        /\ (exists stored reserved, owner_stored_bytes (gr_owner_id r) u = Ok stored
            /\ owner_reserved_bytes (gr_owner_id r) (gr_now_ms r) u = Ok reserved
            /\ enforce_quota ScopeOwner (per_owner_bytes q) (saturating_add u64_max stored reserved) n = Ok tt)
        /\ u' = set_owners (set_references u (<[key := x]> (ut_references u))) (<[owned := n]> (ut_owners u))).
Proof.
  unfold grant_reference. intros (v & Hv & H)%result_bind_Ok.
  assert (gr_kind r <> RefUpload) as Hkind.
  { unfold validate_reference_grant in Hv. apply result_bind_Ok in Hv as (? & _ & Hv).
    by apply guard_bind_Ok in Hv as [?%bool_decide_eq_false _]. }
  destruct (ut_references u !! _) as [existing|] eqn:Ek.
  { destruct (reference_matches_grant _ _); naive_solver. }
  right. cbn zeta. apply guard_bind_Ok in H as [Hp H]. apply result_bind_Ok in H as (n & Hn%ok_or_Ok & H).
  apply result_bind_Ok in H as (w & Hq & H). apply result_bind_Ok in H as (x' & Hx & H).
  assert (af_owner_id x' = gr_owner_id r /\ af_reference_key x' = gr_reference_key r /\ af_digest x' = gr_digest r
          /\ active x' = true) as Hrow.
  { unfold granted_reference in Hx. apply result_bind_Ok in Hx as (? & _ & Hx).
    apply result_bind_Ok in Hx as (? & _ & [= <-]). done. }
  assert (ut_pending u !! gr_digest r = None) as Hpend.
  { unfold garbage_collection_pending in Hp. apply bool_decide_eq_false in Hp. by apply eq_None_not_Some. }
  destruct (has_active_owner_reference _ _ u) eqn:Ha; cbn [negb] in Hq, H.
  - injection H as -> <-. destruct Hrow as (? & ? & ? & ?). split_and!; try done. exists n. split; [done|]. by left.
  - cbn [set_references ut_owners] in H. destruct (ut_owners u !! _) eqn:Eo; [done|]. injection H as -> <-.
    destruct Hrow as (? & ? & ? & ?). split_and!; try done. exists n. split; [done|]. right.
    apply result_bind_Ok in Hq as (stored & Hs & Hq). apply result_bind_Ok in Hq as (reserved & Hr & Hq).
    destruct w. split_and!; [done|done|by exists stored, reserved|done].
Qed.

Lemma grant_reference_ledger q r u x u' :
  grant_reference q r u = Ok (x, u') -> ledger_ok u -> ledger_ok u'.
Proof.
  intros [->|H]%grant_reference_Ok [H1 H2 H3]; [done|]. cbn zeta in H.
  destruct H as (Hk & _ & Eo & Ekey & Ed & Ha & _ & n & Hn & [[Hact ->]|(Hact & Hno & _ & ->)]).
  - apply existsb_map in Hact as ([o k] & r' & Hr' & Hc). cbn in Hc.
    repeat (apply andb_true_iff in Hc as [Hc ?]). apply bool_decide_eq_true in Hc as ->.
    assert (is_Some (ut_owners u !! (gr_owner_id r, gr_digest r))) as Hsome.
    { destruct (bool_decide_eq_true (af_digest r' = gr_digest r)) as [E _].
      rewrite <-E by done. by eapply H3. }
    split; cbn [set_references ut_owners ut_objects ut_references]; [done| |].
    + intros o' k' y [[[= <- <-] <-]|[Hne Hy]]%lookup_insert_Some; [done|by apply H2].
    + intros o' k' y [[[= <- <-] <-]|[Hne Hy]]%lookup_insert_Some Hy'; [by rewrite Ed|by eapply H3].
  - split; cbn [set_references set_owners ut_owners ut_objects ut_references].
    + intros o' d' m [[[= <- <-] <-]|[Hne Hm]]%lookup_insert_Some; [done|by eapply H1].
    + intros o' k' y [[[= <- <-] <-]|[Hne Hy]]%lookup_insert_Some; [done|by apply H2].
    + intros o' k' y [[[= <- <-] <-]|[Hne Hy]]%lookup_insert_Some Hy'.
      * rewrite Ed, lookup_insert_eq. by eexists.
      * destruct (H3 _ _ _ Hy Hy') as [m Hm]. destruct (decide ((gr_owner_id r, gr_digest r) = (o', af_digest y))) as [->|Hd].
        -- rewrite lookup_insert_eq. by eexists.
        -- rewrite lookup_insert_ne by done. by exists m.
Qed.

Lemma has_other_false o d k u :
  has_other_active_owner_reference o d k u = false <->
  forall k' r, ut_references u !! (o, k') = Some r -> af_digest r = d -> active r = true -> k' = k.
Proof.
  unfold has_other_active_owner_reference. rewrite existsb_map_false. split.
  - intros H k' r Hr Hd Ha. specialize (H _ _ Hr). cbn in H.
    rewrite !bool_decide_true, Ha, andb_true_r in H by done. cbn in H.
    by apply negb_false_iff, bool_decide_eq_true in H.
  - intros H [o' k'] r Hr. cbn. repeat case_bool_decide; cbn; try done.
    destruct (active r) eqn:Ha; [|done]. subst. by rewrite (H k' r) in *.
Qed.

Lemma revoke_reference_Ok o k t u x u' :
  revoke_reference o k t u = Ok (x, u') ->
  exists r, ut_references u !! (o, k) = Some r
    /\ (active r = false /\ u' = u \/
        active r = true /\ af_digest x = af_digest r /\ active x = false
        /\ af_owner_id x = af_owner_id r /\ af_reference_key x = af_reference_key r
        /\ exists owners, u' = set_owners (set_references u (<[(o, k) := x]> (ut_references u))) owners
        /\ (owners = ut_owners u
            /\ (exists k' r', k' <> k /\ ut_references u !! (o, k') = Some r' /\ af_digest r' = af_digest r
                              /\ active r' = true)
            \/ owners = delete (o, af_digest r) (ut_owners u)
               /\ forall k' r', ut_references u !! (o, k') = Some r' -> af_digest r' = af_digest r ->
                                active r' = true -> k' = k)).
Proof.
  unfold revoke_reference. intros (v & _ & H)%result_bind_Ok.
  apply result_bind_Ok in H as (r & Hr%ok_or_Ok & H). exists r. split; [done|].
  destruct (active r) eqn:Ha; cbn [negb] in H; [|left; naive_solver]. right.
  apply result_bind_Ok in H as (now & _ & [= <- <-]). split_and!; try done.
  match goal with |- context [if ?b then _ else _] => destruct b eqn:Ho end.
  - exists (ut_owners u). split; [done|]. left. split; [done|].
    apply existsb_map in Ho as ([o' k'] & r' & Hr' & Hc). cbn in Hr', Hc.
    repeat (apply andb_true_iff in Hc as [Hc ?]). apply bool_decide_eq_true in Hc as ->.
    assert (k' <> k) as Hk by (by apply (bool_decide_eq_false (k' = k)), negb_true_iff).
    rewrite lookup_insert_ne in Hr' by congruence. exists k', r'. split_and!; [done|done| |done].
    by apply (bool_decide_eq_true (af_digest r' = af_digest r)).
  - exists (delete (o, af_digest r) (ut_owners u)). split; [done|]. right. split; [done|].
    rewrite has_other_false in Ho. intros k' r' Hr' Hd Hact. destruct (decide (k' = k)) as [->|Hne]; [done|].
    apply (Ho k' r'); [|done|done]. cbn. by rewrite lookup_insert_ne by congruence.
Qed.

Lemma revoke_reference_ledger o k t u x u' :
  revoke_reference o k t u = Ok (x, u') -> ledger_ok u -> ledger_ok u'.
Proof.
  intros (r & Hr & [[_ ->]|(Ha & Ed & Hx & Eo & Ek & owners & -> & Hc)])%revoke_reference_Ok [H1 H2 H3]; [done|].
  destruct (H2 _ _ _ Hr) as [Hro Hrk].
  split; cbn [set_owners set_references ut_owners ut_objects ut_references].
  - intros o' d n Hn. destruct Hc as [[-> _]|[-> _]]; [by eapply H1|].
    apply lookup_delete_Some in Hn as [_ Hn]. by eapply H1.
  - intros o' k' y [[[= <- <-] <-]|[Hne Hy]]%lookup_insert_Some; [|by apply H2]. by rewrite Eo, Ek.
  - intros o' k' y [[[= <- <-] <-]|[Hne Hy]]%lookup_insert_Some Hay; [congruence|].
    destruct (H3 _ _ _ Hy Hay) as [n Hn]. destruct Hc as [[-> _]|[-> Hall]]; [by exists n|].
    exists n. rewrite lookup_delete_ne; [done|]. intros Heq. apply Hne.
      assert (o = o' /\ af_digest r = af_digest y) as [<- E] by (split; congruence).
      by rewrite (Hall _ _ Hy).
Qed.

(** ** Reachability *)

Lemma unreachable d t u :
  artifact_is_reachable d t u = false <->
  (forall o k r, ut_references u !! (o, k) = Some r -> af_digest r = d ->
     active r = false /\ forall until, af_retained_until_ms r = Some until -> until <= t)
  /\ (forall id row, ut_sessions u !! id = Some row -> us_expected_digest row = d -> live t row = false).
Proof.
  unfold artifact_is_reachable. rewrite orb_false_iff, !existsb_map_false. f_equiv.
  - split.
    + intros H o k r Hr Hd. specialize (H _ _ Hr). cbn in H. rewrite bool_decide_true in H by done.
      apply orb_false_iff in H as [H1 H2]. split; [done|]. intros limit Elimit. rewrite Elimit in H2. by apply N.ltb_ge.
    + intros H [o k] r Hr. cbn. case_bool_decide as Hd; [|done]. destruct (H _ _ _ Hr Hd) as [-> Hu]. cbn.
      destruct (af_retained_until_ms r) as [limit|]; [|done]. specialize (Hu _ eq_refl). by apply N.ltb_ge.
  - split.
    + intros H id row Hr Hd. specialize (H _ _ Hr). cbn in H. by rewrite bool_decide_true in H.
    + intros H id row Hr. cbn. case_bool_decide; [|done]. by eapply H.
Qed.

Lemma forget_object_ledger d t u :
  artifact_is_reachable d t u = false -> ledger_ok u -> ledger_ok (forget_object d u).
Proof.
  intros [Hu _]%unreachable [H1 H2 H3]. split; cbn.
  - intros o d' n [Hn Hd]%map_lookup_filter_Some. cbn in Hd. rewrite lookup_delete_ne by done. by eapply H1.
  - done.
  - intros o k r Hr Ha. destruct (H3 _ _ _ Hr Ha) as [n Hn]. exists n. apply map_lookup_filter_Some.
    split; [done|]. cbn. intros E. destruct (Hu _ _ _ Hr E). congruence.
Qed.

(** Staging marks, and nothing else. *)
Lemma stage_Ok scan t n u x u' :
  stage_garbage_candidates scan t n u = Ok (x, u') -> exists p, u' = set_pending u p.
Proof.
  unfold stage_garbage_candidates. intros (now & _ & H)%result_bind_Ok.
  apply guard_bind_Ok in H as [_ [= _ <-]]. by eexists.
Qed.

Section system.
Context {A : Type} {Sha : Sha256} {Store : ArtifactStore A} {Laws : ArtifactStoreLaws A}
  {Retention : RetentionStore A} {Rlaws : RetentionLaws A}.

(** What the removals of a collection preserve, the collection preserves. *)
Lemma collect_candidates_keeps (P : UploadStore -> A -> Prop) t :
  (forall d s a, P s a -> P (with_db s (unmark d (st_db s))) a) ->
  (forall d s a a' b, P s a -> reader_count d s = 0 -> artifact_is_reachable d t (st_db s) = false ->
     remove_unreachable d a = (a', Ok b) -> P (with_db s (forget_object d (st_db s))) a') ->
  (forall d s a a' e, P s a -> reader_count d s = 0 -> artifact_is_reachable d t (st_db s) = false ->
     remove_unreachable d a = (a', Err e) -> P s a') ->
  forall candidates report s a, P s a ->
  let '(s', a', _) := collect_candidates candidates t report s a in P s' a'.
Proof.
  intros Hun Hok Herr. induction candidates as [|[d size] candidates IH]; intros report s a HP; [done|]. cbn.
  destruct (reader_count d s =? 0) eqn:Er; cbn [negb]; [|by apply IH, Hun].
  apply N.eqb_eq in Er. destruct (upload_i64 t) as [now|e] eqn:Et; [|done]. apply upload_i64_Ok in Et as [_ ->].
  destruct (artifact_is_reachable d t (st_db s)) eqn:Ea; [by apply IH, Hun|].
  destruct (remove_unreachable d a) as [a' [b|e]] eqn:Em; [|by eapply Herr]. apply IH. by eapply Hok.
Qed.

Lemma collect_garbage_keeps (P : UploadStore -> A -> Prop) scan t n s a :
  (forall p s a, P s a -> P (with_db s (set_pending (st_db s) p)) a) ->
  (forall d s a a' b, P s a -> reader_count d s = 0 -> artifact_is_reachable d t (st_db s) = false ->
     remove_unreachable d a = (a', Ok b) -> P (with_db s (forget_object d (st_db s))) a') ->
  (forall d s a a' e, P s a -> reader_count d s = 0 -> artifact_is_reachable d t (st_db s) = false ->
     remove_unreachable d a = (a', Err e) -> P s a') ->
  P s a -> let '(s', a', _) := collect_garbage scan t n s a in P s' a'.
Proof.
  intros Hp Hok Herr HP. unfold collect_garbage. destruct (n =? 0); [done|].
  destruct (transact _ s) as [s1 [x|e]] eqn:Es; [|by apply transact_Err in Es as ->].
  apply transact_Ok in Es as (u & [p ->]%stage_Ok & ->). destruct (pending_garbage _ _); [|by apply Hp].
  apply (collect_candidates_keeps P t); [|done|done|by apply Hp]. intros d s' a' HP'. by apply Hp.
Qed.

(** ** Sessions and staging files *)

(** A session row and its staging file: the committed bytes are there, and
    the reservation is the expected size until the upload has ended. *)
Record row_ok (row : SessionRow) (file : option bytes) : Prop := {
  rw_size : us_committed_offset row <= us_expected_size_bytes row;
  rw_bound : us_expected_size_bytes row <= i64_max;
  rw_done : us_state row = UploadCompleted -> us_artifact_digest row = Some (us_expected_digest row);
  rw_reserved : us_quota_reserved_bytes row
    = if unfinished_upload (us_state row) then us_expected_size_bytes row else 0;
  rw_file : unfinished_upload (us_state row) = true ->
    us_committed_offset row <= byte_len (file_bytes file) <= us_expected_size_bytes row;
}.

Record sessions_ok (s : UploadStore) : Prop := {
  ss_rows : forall id row, ut_sessions (st_db s) !! id = Some row -> row_ok row (st_files s !! id);
  ss_keys : forall id id' row row', ut_sessions (st_db s) !! id = Some row -> ut_sessions (st_db s) !! id' = Some row' ->
    us_owner_id row = us_owner_id row' -> us_upload_key row = us_upload_key row' -> id = id';
  ss_files : forall id, is_Some (st_files s !! id) -> is_Some (ut_sessions (st_db s) !! id);
}.

Lemma sessions_frame s s' :
  ut_sessions (st_db s') = ut_sessions (st_db s) -> st_files s' = st_files s -> sessions_ok s -> sessions_ok s'.
Proof. intros E1 E2 [H1 H2 H3]. split; rewrite E1; [rewrite E2; done|done|by rewrite E2]. Qed.

Lemma session_by_id_Some id u x :
  session_by_id id u = Some x <-> exists row, ut_sessions u !! id = Some row /\ x = session_of id row.
Proof. unfold session_by_id. rewrite fmap_Some. done. Qed.

Lemma session_by_key_None o k u id row :
  session_by_key o k u = None -> ut_sessions u !! id = Some row -> us_owner_id row = o -> us_upload_key row <> k.
Proof.
  unfold session_by_key. intros Hn Hrow Ho Hk. apply fmap_None in Hn. apply head_None in Hn.
  assert ((id, row) ∈ filter (fun kr => us_owner_id kr.2 = o /\ us_upload_key kr.2 = k)
                        (map_to_list (ut_sessions u))) as Hin.
  { apply list_elem_of_filter. split; [done|]. by apply elem_of_map_to_list. }
  rewrite Hn in Hin. by apply not_elem_of_nil in Hin.
Qed.

Lemma lookup_foldr_delete' {V} (ids : list string) (m : gmap string V) k :
  foldr delete m ids !! k = if bool_decide (k ∈ ids) then None else m !! k.
Proof.
  induction ids as [|id ids IH]; cbn; [done|].
  destruct (decide (k = id)) as [->|Hne].
  - rewrite lookup_delete_eq, bool_decide_true; [done|]. by left.
  - rewrite lookup_delete_ne, IH by done.
    destruct (decide (k ∈ ids)) as [Hin|Hin].
    + rewrite !bool_decide_true; [done|by right|done].
    + rewrite !bool_decide_false; [done| |done]. intros [?|?]%elem_of_cons; done.
Qed.

(** One session moves on, its file with it. *)
Lemma sessions_update s id f row file :
  sessions_ok s -> ut_sessions (st_db s) !! id = Some row ->
  us_owner_id (f row) = us_owner_id row -> us_upload_key (f row) = us_upload_key row ->
  row_ok (f row) file ->
  sessions_ok (with_db (with_files s (partial_alter (fun _ => file) id (st_files s)))
                 (update_session id f (st_db s))).
Proof.
  intros [H1 H2 H3] Hrow Ho Hk Hok.
  assert (forall id' row', alter f id (ut_sessions (st_db s)) !! id' = Some row' ->
    exists row0, ut_sessions (st_db s) !! id' = Some row0 /\ us_owner_id row' = us_owner_id row0
                 /\ us_upload_key row' = us_upload_key row0) as Hback.
  { intros id' row'. destruct (decide (id' = id)) as [->|Hne].
    - rewrite lookup_alter_eq, Hrow. intros [= <-]. by exists row.
    - rewrite lookup_alter_ne by done. intros E. by exists row'. }
  split; cbn.
  - intros id' row'. destruct (decide (id' = id)) as [->|Hne].
    + rewrite lookup_alter_eq, Hrow, lookup_partial_alter_eq. by intros [= <-].
    + rewrite lookup_alter_ne, lookup_partial_alter_ne by done. apply H1.
  - intros id1 id2 r1 r2 (p1 & E1 & -> & ->)%Hback (p2 & E2 & -> & ->)%Hback. by eapply H2.
  - intros id'. destruct (decide (id' = id)) as [->|Hne].
    + intros _. rewrite lookup_alter_eq, Hrow. by eexists.
    + rewrite lookup_alter_ne, lookup_partial_alter_ne by done. apply H3.
Qed.

Lemma next_upload_id_Ok fuel c u c' id :
  next_upload_id fuel c u = (c', Ok id) -> session_by_id id u = None.
Proof.
  revert c. induction fuel as [|fuel IH]; intros c; [done|]. cbn.
  destruct (session_by_id (upload_name c) u) eqn:E; [apply IH|]. by intros [= _ <-].
Qed.

Lemma begin_sessions r s : sessions_ok s -> sessions_ok (begin r s).1.
Proof.
  intros Hs. unfold begin. destruct (validate_begin _ _); [|done].
  destruct (session_by_key _ _ _) as [x|] eqn:Ek; [by case_match|].
  destruct (reserve_quota _ _ _); [|done].
  destruct (next_upload_id _ _ _) as [c [id|e]] eqn:Ei; cbn; [|by apply (sessions_frame s)].
  unfold new_session. destruct (upload_i64 (bu_expected_size_bytes r)) as [size|] eqn:Esz; cbn; [|by apply (sessions_frame s)].
  destruct (upload_i64 (bu_now_ms r)) as [now|] eqn:En; cbn; [|by apply (sessions_frame s)].
  destruct (upload_i64 (bu_expires_at_ms r)) as [ex|] eqn:Ee; cbn; [|by apply (sessions_frame s)].
  apply next_upload_id_Ok in Ei. unfold session_by_id in Ei. apply fmap_None in Ei. cbn in Ei.
  apply upload_i64_Ok in Esz as [Hsz ->]. destruct Hs as [H1 H2 H3]. split; cbn.
  - intros id' row [[-> <-]|[Hne Hr]]%lookup_insert_Some; [|by apply H1].
    split; cbn; [lia|done|done|done|]. intros _.
    destruct (st_files s !! id') eqn:Ef; cbn; [|unfold byte_len; cbn; lia].
    destruct (H3 id') as [? Hbad]; [by eexists|]. congruence.
  - intros id1 id2 r1 r2 [[-> <-]|[Hn1 Hr1]]%lookup_insert_Some [[-> <-]|[Hn2 Hr2]]%lookup_insert_Some; cbn; [done| | |].
    + intros Eo Eu. exfalso. by eapply (session_by_key_None _ _ _ _ _ Ek Hr2).
    + intros Eo Eu. exfalso. by eapply (session_by_key_None _ _ _ _ _ Ek Hr1).
    + by eapply H2.
  - intros id' Hf. destruct (decide (id' = id)) as [->|Hne]; [rewrite lookup_insert_eq; by eexists|].
    rewrite lookup_insert_ne by done. by apply H3.
Qed.

Lemma sessions_file s id row file :
  sessions_ok s -> ut_sessions (st_db s) !! id = Some row -> row_ok row (Some file) ->
  sessions_ok (with_files s (<[id := file]> (st_files s))).
Proof.
  intros [H1 H2 H3] Hrow Hok. split; cbn; [|done|].
  - intros id' row' Hr'. destruct (decide (id' = id)) as [->|Hne].
    + rewrite lookup_insert_eq. congruence.
    + rewrite lookup_insert_ne by done. by apply H1.
  - intros id'. destruct (decide (id' = id)) as [->|Hne]; [intros _; by eexists|].
    rewrite lookup_insert_ne by done. apply H3.
Qed.

(** What an admitted append writes. *)
Record append_admits (owner_id upload_id : string) (offset : N) (data : bytes) (now_ms : N)
    (s : UploadStore) (row : SessionRow) : Prop := {
  aa_row : ut_sessions (st_db s) !! upload_id = Some row;
  aa_owner : us_owner_id row = owner_id;
  aa_open : us_state row = UploadOpen;
  aa_time : now_ms < us_expires_at_ms row;
  aa_offset : offset = us_committed_offset row;
  aa_size : offset + byte_len data <= us_expected_size_bytes row;
}.

Definition appended (upload_id : string) (offset : N) (data : bytes) (s : UploadStore) : bytes :=
  take (N.to_nat offset) (file_bytes (st_files s !! upload_id)) ++ data.

Lemma byte_len_app a b : byte_len (a ++ b) = byte_len a + byte_len b.
Proof. unfold byte_len. rewrite length_app. lia. Qed.

Lemma byte_len_take n a : n <= byte_len a -> byte_len (take (N.to_nat n) a) = n.
Proof. unfold byte_len. rewrite length_take. lia. Qed.

Lemma byte_len_take_le n a : byte_len (take n a) <= byte_len a.
Proof. unfold byte_len. rewrite length_take. lia. Qed.

(** The cases of an append: refused, committed, or written to the file and
    not committed because the time is out of range. *)
Lemma upload_append_cases o id off d t s : sessions_ok s ->
  let '(s', r) := upload_append o id off d t s in
  s' = s /\ is_ok r = false \/
  exists row, append_admits o id off d t s row
    /\ let files := <[id := appended id off d s]> (st_files s) in
       (r = Ok (off + byte_len d)
        /\ s' = with_db (with_files s files) (update_session id
             (fun x => with_progress x (off + byte_len d) (us_state x) t (us_artifact_digest x)
                         (us_quota_reserved_bytes x)) (st_db s)))
       \/ is_ok r = false /\ s' = with_files s files.
Proof.
  intros Hs. unfold upload_append. destruct (_ <? _); [by left|].
  set (next := saturating_add u64_max off (byte_len d)).
  match goal with |- context [match ?m with Ok path => _ | Err e => _ end] => destruct m as [path|e] eqn:Ea end; [|by left].
  apply result_bind_Ok in Ea as (x & Hx%ok_or_Ok & Ea). apply session_by_id_Some in Hx as (row & Hrow & ->).
  apply result_bind_Ok in Ea as (u & Hauth & Ea). apply guard_err_Ok, negb_false_iff, bool_decide_eq_true in Hauth.
  apply result_bind_Ok in Ea as (u' & Hopen & Ea). unfold ensure_open in Hopen.
  apply guard_bind_Ok in Hopen as [Hst%negb_false_iff%bool_decide_eq_true Hexp%guard_err_Ok].
  apply guard_bind_Ok in Ea as [Hoff%negb_false_iff%N.eqb_eq Ea]. apply guard_bind_Ok in Ea as [Hlim Ea].
  apply orb_false_iff in Hlim as [Hlim%N.ltb_ge _]. apply guard_bind_Ok in Ea as [_ [= <-]]. cbn in *.
  destruct (ss_rows _ Hs _ _ Hrow) as [Rs Rb _ _ Rf]. rewrite Hst in Rf. specialize (Rf eq_refl).
  assert (next = off + byte_len d) as En.
  { unfold next, saturating_add in *. unfold u64_max, i64_max in *. lia. }
  rewrite En in Hlim.
  assert (append_admits o id off d t s row) as Hadm by (split; try done; by apply N.leb_gt).
  unfold append_file. cbn zeta.
  destruct (N.ltb_spec (byte_len (file_bytes (st_files s !! id))) off) as [?|_]; [lia|].
  cbn. rewrite En. fold (appended id off d s).
  assert (upload_i64 (off + byte_len d) = Ok (off + byte_len d)) as -> by (apply upload_i64_Ok; lia). cbn.
  destruct (upload_i64 t) as [t'|e] eqn:Et; cbn; right; exists row; (split; [done|]); [|by right].
  apply upload_i64_Ok in Et as [_ ->]. by left.
Qed.

Lemma appended_len o id off d t s row :
  sessions_ok s -> append_admits o id off d t s row ->
  byte_len (appended id off d s) = off + byte_len d.
Proof.
  intros Hs [Hrow _ Hst _ Hoff _]. destruct (ss_rows _ Hs _ _ Hrow) as [_ _ _ _ Rf]. rewrite Hst in Rf.
  specialize (Rf eq_refl). unfold appended. rewrite byte_len_app, byte_len_take by lia. done.
Qed.

Lemma appended_row_ok o id off d t s row :
  sessions_ok s -> append_admits o id off d t s row -> row_ok row (Some (appended id off d s)).
Proof.
  intros Hs Ha. pose proof (appended_len _ _ _ _ _ _ _ Hs Ha) as Hl. destruct Ha as [Hrow _ Hst _ Hoff Hsz].
  destruct (ss_rows _ Hs _ _ Hrow) as [R1 R2 R3 R4 R5]. split; try done. intros _. cbn. lia.
Qed.

Lemma upload_append_sessions o id off d t s : sessions_ok s -> sessions_ok (upload_append o id off d t s).1.
Proof.
  intros Hs. pose proof (upload_append_cases o id off d t s Hs) as Hc.
  destruct (upload_append o id off d t s) as [s' r]. cbn.
  destruct Hc as [[-> _]|(row & Ha & Hc)]; [done|]. pose proof (appended_len _ _ _ _ _ _ _ Hs Ha) as Hl.
  pose proof (appended_row_ok _ _ _ _ _ _ _ Hs Ha) as Hok. pose proof Ha as [Hrow _ Hst _ Hoff Hsz].
  destruct Hc as [[_ ->]|[_ ->]]; [|by eapply sessions_file].
  pose proof (sessions_update s id
    (fun x => with_progress x (off + byte_len d) (us_state x) t (us_artifact_digest x) (us_quota_reserved_bytes x))
    row (Some (appended id off d s)) Hs Hrow eq_refl eq_refl) as Hu.
  destruct Hok as [R1 R2 R3 R4 R5]. apply Hu. split; cbn; [lia|done|done|done|]. intros _. lia.
Qed.

Lemma crash_append_sessions o id off d t k s r :
  sessions_ok s -> (upload_append o id off d t s).2 = Ok r ->
  sessions_ok (with_files s (append_file id off (take k d) (st_files s)).1).
Proof.
  intros Hs Hr. pose proof (upload_append_cases o id off d t s Hs) as Hc.
  destruct (upload_append o id off d t s) as [s' x]. cbn in Hr. subst x.
  destruct Hc as [[_ ?]|(row & Ha & _)]; [done|].
  assert (append_admits o id off (take k d) t s row) as Hak.
  { destruct Ha as [? ? ? ? ? Hsz]. split; try done. pose proof (byte_len_take_le k d). lia. }
  pose proof (appended_row_ok _ _ _ _ _ _ _ Hs Hak) as Hok.
  destruct Ha as [Hrow _ Hst _ Hoff _]. destruct (ss_rows _ Hs _ _ Hrow) as [_ _ _ _ Rf]. rewrite Hst in Rf.
  specialize (Rf eq_refl). unfold append_file. cbn zeta.
  destruct (N.ltb_spec (byte_len (file_bytes (st_files s !! id))) off) as [?|_]; [lia|].
  by eapply sessions_file.
Qed.

(** ** Finalization *)

(** The session a finalization works on. *)
Record finalizing (owner_id upload_id : string) (now_ms : N) (s : UploadStore) (row : SessionRow) : Prop := {
  fz_row : ut_sessions (st_db s) !! upload_id = Some row;
  fz_owner : us_owner_id row = owner_id;
  fz_open : unfinished_upload (us_state row) = true;
  fz_time : now_ms < us_expires_at_ms row;
  fz_now : now_ms <= i64_max;
  fz_full : us_committed_offset row = us_expected_size_bytes row;
}.

(** The marks a finalization leaves on its session. *)
Definition started (now_ms : N) (r : SessionRow) : SessionRow :=
  with_progress r (us_committed_offset r) UploadFinalizing now_ms (us_artifact_digest r) (us_quota_reserved_bytes r).
Definition failed (now_ms : N) (r : SessionRow) : SessionRow :=
  with_progress r (us_committed_offset r) UploadFailed now_ms (us_artifact_digest r) 0.
Definition completed (now_ms : N) (digest : Sha256Digest) (r : SessionRow) : SessionRow :=
  with_progress r (us_committed_offset r) UploadCompleted now_ms (Some digest) 0.

Definition marked (upload_id : string) (f : SessionRow -> SessionRow) (s : UploadStore) : UploadStore :=
  with_db s (update_session upload_id f (st_db s)).

Definition request_of (row : SessionRow) : IngestRequest :=
  MkIngestRequest (Some (us_expected_digest row)) (Some (us_expected_size_bytes row)).

Lemma start_finalize_Ok o id t u x u' :
  start_finalize o id t u = Ok (x, u') ->
  exists row, ut_sessions u !! id = Some row /\ us_owner_id row = o
    /\ (us_state row = UploadCompleted /\ u' = u
          /\ (exists d, us_artifact_digest row = Some d
              /\ x = AlreadyCompleted (MkArtifactIdentity d (us_expected_size_bytes row)))
        \/ unfinished_upload (us_state row) = true /\ t < us_expires_at_ms row /\ t <= i64_max
           /\ us_committed_offset row = us_expected_size_bytes row
           /\ u' = update_session id (started t) u /\ x = Finalize (session_of id row)).
Proof.
  unfold start_finalize. intros (y & Hy%ok_or_Ok & Hx)%result_bind_Ok.
  apply session_by_id_Some in Hy as (row & Hrow & ->).
  apply result_bind_Ok in Hx as (v & Hauth%guard_err_Ok%negb_false_iff%bool_decide_eq_true & Hx).
  exists row. split; [done|]. split; [done|]. cbn in Hx. destruct (us_state row); [right|right|left|done].
  1-2: apply guard_bind_Ok in Hx as [He%N.leb_gt Hx];
    apply guard_bind_Ok in Hx as [Hc%negb_false_iff%N.eqb_eq Hx];
    apply result_bind_Ok in Hx as (now & [Ht ->]%upload_i64_Ok & [= <- <-]); by split_and!.
  apply result_bind_Ok in Hx as (z & Hz%ok_or_Ok & [= <- <-]). split_and!; [done|done|].
  apply fmap_Some in Hz as (d & Hd & ->). by exists d.
Qed.

Lemma complete_upload_Ok session x t u v u' :
  complete_upload session x t u = Ok (v, u') ->
  exists u1, record_completed_artifact (up_owner_id session) (up_upload_id session) x t u = Ok u1
    /\ u' = update_session (up_upload_id session) (completed t (ai_digest x)) u1.
Proof.
  unfold complete_upload. intros (u1 & Hr & Hx)%result_bind_Ok.
  apply result_bind_Ok in Hx as (now & [_ ->]%upload_i64_Ok & [= _ <-]). by exists u1.
Qed.

Lemma finalize_cases o id t s a :
  let '(s', a', r) := finalize o id t s a in
  (s' = s /\ a' = a /\ forall x, r = Ok x -> exists row d, ut_sessions (st_db s) !! id = Some row
     /\ us_owner_id row = o /\ us_state row = UploadCompleted /\ us_artifact_digest row = Some d
     /\ x = MkArtifactIdentity d (us_expected_size_bytes row))
  \/ exists row, finalizing o id t s row /\ let s1 := marked id (started t) s in
     (s' = s1 /\ a' = a /\ is_ok r = false
      \/ exists data, staged (session_of id row) s1 = Ok data
         /\ let '(a1, ingested) := artifact_ingest data (request_of row) a in a' = a1
         /\ ((s' = s1 \/ s' = marked id (failed t) s1) /\ is_ok r = false
             \/ exists res u, ingested = Ok res /\ r = Ok (ir_artifact res)
                /\ record_completed_artifact o id (ir_artifact res) t (st_db s1) = Ok u
                /\ s' = with_files (with_db s1 (update_session id (completed t (ai_digest (ir_artifact res))) u))
                          (delete id (st_files s1)))).
Proof.
  unfold finalize. destruct (transact _ s) as [s1 [x|e]] eqn:Es; cycle 1.
  { apply transact_Err in Es as ->. by left. }
  apply transact_Ok in Es as (u & Hu & ->).
  apply start_finalize_Ok in Hu as (row & Hrow & Ho & [(Hst & -> & d & Hd & ->)|(Hst & Ht & Hi & Hc & -> & ->)]).
  { left. destruct s. split_and!; [done|done|]. intros y [= <-]. by exists row, d. }
  change (with_db s (update_session id (started t) (st_db s))) with (marked id (started t) s).
  set (s1 := marked id (started t) s).
  destruct (_ ← data_path id; staged (session_of id row) s1) as [data|e] eqn:Ed; cycle 1.
  { right. exists row. split; [by split|]. by left. }
  apply result_bind_Ok in Ed as (p & _ & Ed). unfold ingest_upload. cbn [up_expected_digest up_expected_size_bytes session_of].
  change (MkIngestRequest (Some (us_expected_digest row)) (Some (us_expected_size_bytes row))) with (request_of row).
  destruct (artifact_ingest data (request_of row) a) as [a1 [res|error]] eqn:Ei.
  - destruct (transact (complete_upload _ _ t) s1) as [s2 [v|e]] eqn:Ec.
    + apply transact_Ok in Ec as (u2 & (u3 & Hu3 & ->)%complete_upload_Ok & ->). cbn [up_owner_id up_upload_id session_of] in *.
      right. exists row. split; [by split|]. right. exists data. split; [done|]. rewrite Ei. split; [done|]. right.
      exists res, u3. split_and!; [done|done|by rewrite <-Ho|done].
    + apply transact_Err in Ec as ->. right. exists row. split; [by split|]. right. exists data. split; [done|].
      rewrite Ei. split; [done|]. left. split; [by left|done].
  - destruct (is_terminal_artifact_error error).
    + destruct (transact (mark_failed _ t) s1) as [s2 [v|e]] eqn:Em.
      * apply transact_Ok in Em as (u2 & Hu2 & ->). unfold mark_failed in Hu2.
        apply result_bind_Ok in Hu2 as (now & [_ ->]%upload_i64_Ok & [= _ <-]). cbn [up_upload_id session_of].
        right. exists row. split; [by split|]. right. exists data. split; [done|]. rewrite Ei. split; [done|]. left.
        split; [by right|done].
      * apply transact_Err in Em as ->. right. exists row. split; [by split|]. right. exists data. split; [done|].
        rewrite Ei. split; [done|]. left. split; [by left|done].
    + right. exists row. split; [by split|]. right. exists data. split; [done|]. rewrite Ei. split; [done|]. left.
      split; [by left|done].
Qed.

(** A mark on a session. *)
Lemma marked_sessions s id f row :
  sessions_ok s -> ut_sessions (st_db s) !! id = Some row ->
  us_owner_id (f row) = us_owner_id row -> us_upload_key (f row) = us_upload_key row ->
  row_ok (f row) (st_files s !! id) -> sessions_ok (marked id f s).
Proof.
  intros Hs Hrow Ho Hk Hok. pose proof (sessions_update s id f row (st_files s !! id) Hs Hrow Ho Hk Hok) as [P1 P2 P3].
  assert (partial_alter (fun _ => st_files s !! id) id (st_files s) = st_files s) as E.
  { apply map_eq. intros k. destruct (decide (k = id)) as [->|]; [by rewrite lookup_partial_alter_eq|].
    by rewrite lookup_partial_alter_ne. }
  split; [intros k r Hr|done|intros k Hk']; cbn in *.
  - rewrite <-E. by apply P1.
  - apply P3. by rewrite E.
Qed.

Lemma lookup_marked id f s row :
  ut_sessions (st_db s) !! id = Some row -> ut_sessions (st_db (marked id f s)) !! id = Some (f row).
Proof. intros E. cbn. by rewrite lookup_alter_eq, E. Qed.

Lemma started_sessions o id t s row :
  sessions_ok s -> finalizing o id t s row -> sessions_ok (marked id (started t) s).
Proof.
  intros Hs [Hrow _ Hopen _ _ _]. destruct (ss_rows _ Hs _ _ Hrow) as [R1 R2 R3 R4 R5].
  apply (marked_sessions _ _ _ row); [done..|]. split; cbn; [done|done|done| |by intros _; apply R5].
  rewrite R4. by destruct (us_state row).
Qed.

Lemma finalize_sessions o id t s a : sessions_ok s -> sessions_ok (finalize o id t s a).1.1.
Proof.
  intros Hs. pose proof (finalize_cases o id t s a) as Hc. destruct (finalize o id t s a) as [[s' a'] r]. cbn.
  destruct Hc as [(-> & _)|(row & Hf & Hc)]; [done|].
  pose proof (started_sessions _ _ _ _ _ Hs Hf) as Hs1. cbn zeta in Hc.
  pose proof Hf as [Hrow Ho Hopen _ _ Hfull].
  pose proof (lookup_marked id (started t) s row Hrow) as Hrow1.
  destruct (ss_rows _ Hs1 _ _ Hrow1) as [R1 R2 R3 R4 R5].
  destruct Hc as [(-> & _)|(data & _ & Hc)]; [done|].
  destruct (artifact_ingest _ _ a) as [a1 ing] eqn:Ei. destruct Hc as [_ [[[->| ->] _]|(res & u & -> & _ & Hu & ->)]]; [done| |].
  - apply (marked_sessions _ _ _ (started t row)); [done..|]. by split.
  - unfold record_completed_artifact in Hu. apply result_bind_Ok in Hu as (u0 & Hu & Hx).
    apply guard_bind_Ok in Hx as [_ [= ->]]. apply record_artifact_Ok in Hu as (_ & _ & Es & _).
    assert (ai_digest (ir_artifact res) = us_expected_digest row) as Hd.
    { destruct (ingest_Ok data (request_of row) a res) as (Hi & Hq & _); [by rewrite Ei|].
      rewrite Hi. cbn. symmetry. by apply Hq. }
    set (s2 := with_db (marked id (started t) s) u).
    assert (sessions_ok s2) as Hs2 by (by apply (sessions_frame (marked id (started t) s))).
    assert (ut_sessions (st_db s2) !! id = Some (started t row)) as Hrow2 by (cbn; by rewrite Es).
    pose proof (sessions_update s2 id (completed t (ai_digest (ir_artifact res))) _ None Hs2 Hrow2 eq_refl eq_refl) as Hup.
    apply Hup. split; cbn; [done|done| |done|done]. by rewrite Hd.
Qed.

Lemma prune_expired_cases t s :
  let '(s', r) := prune_expired t s in
  s' = s \/ s' = with_db (with_files s (foldr delete (st_files s) (expired_ids t (st_db s))))
                   (set_sessions (st_db s) (foldr delete (ut_sessions (st_db s)) (expired_ids t (st_db s)))).
Proof.
  unfold prune_expired. destruct (upload_i64 t) as [t'|e] eqn:Et; cbn; [|by left]. apply upload_i64_Ok in Et as [_ ->].
  destruct (foldr _ _ _); cbn; [by right|by left].
Qed.

Lemma elem_of_expired id t u :
  id ∈ expired_ids t u <->
  exists row, ut_sessions u !! id = Some row /\ us_state row <> UploadCompleted /\ us_expires_at_ms row <= t.
Proof.
  unfold expired_ids. rewrite list_elem_of_fmap. split.
  - intros ([id' row] & -> & [Hc Hin]%list_elem_of_filter). apply elem_of_map_to_list in Hin. by exists row.
  - intros (row & Hrow & Hc). exists (id, row). split; [done|]. apply list_elem_of_filter. split; [done|].
    by apply elem_of_map_to_list.
Qed.

Lemma prune_expired_sessions t s : sessions_ok s -> sessions_ok (prune_expired t s).1.
Proof.
  intros Hs. pose proof (prune_expired_cases t s) as Hc. destruct (prune_expired t s) as [s' r]. cbn.
  destruct Hc as [->| ->]; [done|]. destruct Hs as [P1 P2 P3]. split; cbn.
  - intros id row. rewrite !lookup_foldr_delete'. case_bool_decide; [done|]. apply P1.
  - intros id id' row row'. rewrite !lookup_foldr_delete'. repeat case_bool_decide; try done. apply P2.
  - intros id. rewrite !lookup_foldr_delete'. case_bool_decide; [by intros []|]. apply P3.
Qed.

Lemma reopen_sessions seed s : sessions_ok s -> sessions_ok (reopen seed s).
Proof.
  intros [P1 P2 P3]. unfold reopen. set (ids := fst <$> _).
  assert (forall id row, ut_sessions (st_db s) !! id = Some row -> id ∈ ids -> us_state row = UploadCompleted) as Hids.
  { intros id row Hrow ([id' row'] & -> & [Hst Hin]%list_elem_of_filter)%list_elem_of_fmap.
    apply elem_of_map_to_list in Hin. cbn in *. congruence. }
  split; cbn.
  - intros id row Hrow. destruct (P1 _ _ Hrow) as [R1 R2 R3 R4 R5]. split; try done.
    intros Hun. rewrite lookup_foldr_delete'. case_bool_decide as Hin; [|by apply R5].
    rewrite (Hids _ _ Hrow Hin) in Hun. done.
  - done.
  - intros id. rewrite lookup_foldr_delete'. case_bool_decide; [by intros []|]. apply P3.
Qed.

(** ** The ledger and the object store *)

(** Everything the ledger counts can be opened, at its size, but for the
    objects that may be lost. *)
Definition cas_except (lost : gset Sha256Digest) (s : UploadStore) (a : A) : Prop :=
  forall d n, d ∉ lost -> ut_objects (st_db s) !! d = Some n ->
  exists r, artifact_open d a = Ok r /\ ai_size_bytes (rd_identity r) = n.

Record system_except (lost : gset Sha256Digest) (w : UploadSystem (A:=A)) : Prop := {
  so_sessions : sessions_ok w.1;
  so_ledger : ledger_ok (st_db w.1);
  so_cas : cas_except lost w.1 w.2;
}.

Definition system_ok (w : UploadSystem (A:=A)) : Prop := system_except ∅ w.

Lemma system_except_weaken lost lost' w : lost ⊆ lost' -> system_except lost w -> system_except lost' w.
Proof. intros Hsub [Hs Hl Hc]. split; [done..|]. intros d n Hd. apply Hc. set_solver. Qed.

Lemma system_opens w d n : system_ok w -> ut_objects (st_db w.1) !! d = Some n ->
  exists r, artifact_open d w.2 = Ok r /\ ai_size_bytes (rd_identity r) = n.
Proof. intros Hok. apply (so_cas _ _ Hok). set_solver. Qed.

Lemma cas_ingest lost s data q a : cas_except lost s a -> cas_except lost s (artifact_ingest data q a).1.
Proof.
  intros Hc d n Hlost Hd. destruct (Hc _ _ Hlost Hd) as (r & Hr & Hn). exists r. split; [by apply ingest_keeps|done].
Qed.

Lemma cas_record lost o k p kind x t s u' a :
  record_artifact o k p kind x t (st_db s) = Ok u' -> cas_except lost s a ->
  (exists r, artifact_open (ai_digest x) a = Ok r /\ rd_identity r = x) -> cas_except lost (with_db s u') a.
Proof.
  intros (_ & _ & _ & Eo & _)%record_artifact_Ok Hc (r & Hr & Hi) d n Hlost. cbn. rewrite Eo.
  intros [Hd|(-> & -> & _)]%insert_or_ignore_new; [by apply Hc|]. exists r. by rewrite Hi.
Qed.

(** An object that is removed, and whose row may stay. *)
Lemma cas_removed lost s a d :
  cas_except lost s a -> cas_except (lost ∪ {[d]}) s (remove_unreachable d a).1.
Proof.
  intros Hc d' n Hlost Hd. destruct (Hc d' n) as (r & Hr & Hn); [set_solver|done|]. exists r. split; [|done].
  rewrite <-Hr. apply remove_keeps. set_solver.
Qed.

Lemma complete_system lost o id t s a row data res u :
  system_except lost (s, a) -> finalizing o id t s row -> (artifact_ingest data (request_of row) a).2 = Ok res ->
  record_completed_artifact o id (ir_artifact res) t (st_db (marked id (started t) s)) = Ok u ->
  ledger_ok u /\ cas_except lost (with_db s u) (artifact_ingest data (request_of row) a).1.
Proof.
  intros [Hs Hl Hc] Hf Hi Hu. unfold record_completed_artifact in Hu.
  apply result_bind_Ok in Hu as (u0 & Hu & Hx). apply guard_bind_Ok in Hx as [_ [= ->]]. split.
  - eapply record_artifact_ledger; [exact Hu|]. by apply ledger_sessions.
  - pose proof (cas_record lost _ _ _ _ _ _ (marked id (started t) s) u (artifact_ingest data (request_of row) a).1 Hu) as Hr.
    destruct (ingest_Ok data (request_of row) a res Hi) as (Hid & _ & Hopen). rewrite Hid in Hr. cbn in Hr.
    intros d n Hlost Hd. apply (Hr (cas_ingest lost s data _ a Hc)); [|done|done]. eexists. split; [exact Hopen|]. cbn. by rewrite Hid.
Qed.

Lemma finalize_system lost o id t s a : system_except lost (s, a) -> system_except lost (finalize o id t s a).1.
Proof.
  intros Hok. pose proof (finalize_cases o id t s a) as Hc.
  pose proof (finalize_sessions o id t s a (so_sessions _ _ Hok)) as Hs'.
  destruct (finalize o id t s a) as [[s' a'] r]. cbn in *.
  destruct Hc as [(-> & -> & _)|(row & Hf & Hc)]; [done|]. pose proof Hok as [Hs Hl Hcas]. cbn in *.
  assert (forall f, ledger_ok (st_db (marked id f s))) as Hmark by (intros f; by apply ledger_sessions).
  destruct Hc as [(-> & -> & _)|(data & _ & Hc)]; [by split; [|apply Hmark|]|].
  pose proof (cas_ingest lost s data (request_of row) a Hcas) as Hing.
  pose proof (complete_system lost o id t s a row data) as Hcomp.
  destruct (artifact_ingest data (request_of row) a) as [a1 ing]. cbn in *.
  destruct Hc as [-> [[[->| ->] _]|(res & u & -> & _ & Hu & ->)]].
  - by split; [|apply Hmark|].
  - split; [done|exact (ledger_sessions _ _ (ledger_sessions _ _ Hl))|exact Hing].
  - destruct (Hcomp res u Hok Hf eq_refl Hu) as [Hl' Hc']. split; [done|exact (ledger_sessions _ _ Hl')|exact Hc'].
Qed.

(** The calls the controller makes: a local artifact is one of its own
    store, under the size the store reports. *)
Definition sourced (op : UploadOp) (w : UploadSystem (A:=A)) : Prop :=
  match op with
  | UpLocal _ x _ => exists r, artifact_open (ai_digest x) w.2 = Ok r /\ rd_identity r = x
  | _ => True
  end.

(** The object whose removal fails and ends a collection. *)
Fixpoint torn_removal (candidates : list (Sha256Digest * N)) (now_ms : N) (s : UploadStore) (a : A) : gset Sha256Digest :=
  match candidates with
  | [] => ∅
  | (digest, size) :: candidates =>
      if collectable digest now_ms s then
        match remove_unreachable digest a with
        | (_, Err _) => {[digest]}
        | (a, Ok _) => torn_removal candidates now_ms (with_db s (forget_object digest (st_db s))) a
        end
      else if (reader_count digest s =? 0) && negb (is_ok (upload_i64 now_ms)) then ∅
      else torn_removal candidates now_ms (with_db s (unmark digest (st_db s))) a
  end.

(** The objects a step may lose: those whose removal was begun and not
    committed. *)
Definition torn (event : StoreEvent) (w : UploadSystem (A:=A)) : gset Sha256Digest :=
  match event with
  | StoreCall (UpCollect scan t n) =>
      match staged_candidates scan t n w.1 with
      | Some (s, candidates) => torn_removal candidates t s w.2
      | None => ∅
      end
  | StoreCall _ => ∅
  | StoreCrashCollect scan t n k removed =>
      match staged_candidates scan t n w.1 with
      | Some (s, candidates) =>
          torn_removal (take k candidates) t s w.2
          ∪ (if removed then match candidates !! k with Some (digest, _) => {[digest]} | None => ∅ end else ∅)
      | None => ∅
      end
  end.

Lemma system_marks lost s a p : system_except lost (s, a) -> system_except lost (with_db s (set_pending (st_db s) p), a).
Proof. intros [Hs Hl Hc]. split; [by apply (sessions_frame s)|by apply ledger_pending|done]. Qed.

Lemma system_forgets lost d s a a' t b :
  system_except lost (s, a) -> artifact_is_reachable d t (st_db s) = false -> remove_unreachable d a = (a', Ok b) ->
  system_except lost (with_db s (forget_object d (st_db s)), a').
Proof.
  intros [Hs Hl Hc] Hr Ea. split; cbn [fst snd].
  - by apply (sessions_frame s).
  - by eapply forget_object_ledger.
  - intros d' m Hlost. cbn. intros [Hne Hd]%lookup_delete_Some. destruct (Hc _ _ Hlost Hd) as (r & Hr' & Hm). exists r.
    split; [|done]. rewrite <-Hr'. pose proof (remove_keeps d d' a) as Hk. rewrite Ea in Hk. by apply Hk.
Qed.

Lemma system_loses lost d s a :
  system_except lost (s, a) -> system_except (lost ∪ {[d]}) (s, (remove_unreachable d a).1).
Proof. intros [Hs Hl Hc]. split; [done..|]. by apply cas_removed. Qed.

Lemma collectable_true d t s :
  collectable d t s = true <-> (reader_count d s =? 0) = true /\ exists now, upload_i64 t = Ok now /\ artifact_is_reachable d now (st_db s) = false.
Proof.
  unfold collectable. rewrite andb_true_iff. destruct (upload_i64 t); [rewrite negb_true_iff|]; naive_solver.
Qed.

Lemma collect_candidates_system lost candidates t report s a :
  system_except lost (s, a) ->
  system_except (lost ∪ torn_removal candidates t s a) (collect_candidates candidates t report s a).1.
Proof.
  revert report s a. induction candidates as [|[d size] candidates IH]; intros report s a Hok; cbn.
  { apply (system_except_weaken lost); [set_solver|done]. }
  destruct (collectable d t s) eqn:Ecol.
  - apply collectable_true in Ecol as (-> & now & -> & Hr). cbn. rewrite Hr.
    destruct (remove_unreachable d a) as [a' [b|e]] eqn:Ea; [by apply IH, (system_forgets _ _ _ _ _ now _ Hok Hr Ea)|].
    cbn. pose proof (system_loses lost d s a Hok) as Hl. by rewrite Ea in Hl.
  - destruct (reader_count d s =? 0) eqn:Erd; cbn [negb andb]; [|by apply IH, system_marks].
    destruct (upload_i64 t) as [now|e] eqn:Et; cbn [is_ok negb]; [|cbn; apply (system_except_weaken lost); [set_solver|done]].
    destruct (artifact_is_reachable d now (st_db s)) eqn:Hr; [by apply IH, system_marks|].
    assert (collectable d t s = true); [|congruence]. apply collectable_true. split; [done|]. by exists now.
Qed.

Lemma staged_system lost scan t n s s' a candidates :
  staged_candidates scan t n s = Some (s', candidates) -> system_except lost (s, a) -> system_except lost (s', a).
Proof.
  unfold staged_candidates. destruct (n =? 0); [done|]. destruct (transact _ s) as [s1 [x|e]] eqn:Es; [|done].
  apply transact_Ok in Es as (u & [p ->]%stage_Ok & ->). destruct (pending_garbage _ _); [|done]. intros [= <- <-].
  apply system_marks.
Qed.

(** A collection, by its candidates. *)
Lemma collect_garbage_staged scan t n s a :
  match staged_candidates scan t n s with
  | Some (s', candidates) => collect_garbage scan t n s a = collect_candidates candidates t (MkReport 0 0 0) s' a
  | None => (exists p, (collect_garbage scan t n s a).1 = (with_db s (set_pending (st_db s) p), a))
            \/ (collect_garbage scan t n s a).1 = (s, a)
  end.
Proof.
  unfold staged_candidates, collect_garbage. destruct (n =? 0); [by right|].
  destruct (transact _ s) as [s1 [x|e]] eqn:Es.
  - apply transact_Ok in Es as (u & [p ->]%stage_Ok & ->). destruct (pending_garbage _ _); [done|]. left. by exists p.
  - apply transact_Err in Es as ->. by right.
Qed.

Lemma collect_garbage_system lost scan t n s a :
  system_except lost (s, a) ->
  system_except (lost ∪ torn (StoreCall (UpCollect scan t n)) (s, a)) (collect_garbage scan t n s a).1.
Proof.
  intros Hok. pose proof (collect_garbage_staged scan t n s a) as Hc. cbn [torn fst snd].
  destruct (staged_candidates scan t n s) as [[s' candidates]|] eqn:Es.
  - rewrite Hc. apply collect_candidates_system. by eapply staged_system.
  - rewrite union_empty_r_L. destruct Hc as [[p ->]| ->]; [by apply system_marks|done].
Qed.

Lemma crash_collect_system lost scan t n k removed s a :
  system_except lost (s, a) ->
  system_except (lost ∪ torn (StoreCrashCollect scan t n k removed) (s, a)) (crash_collect scan t n k removed s a).
Proof.
  intros Hok. unfold crash_collect. pose proof (collect_garbage_staged scan t n s a) as Hc. cbn [torn fst snd].
  destruct (staged_candidates scan t n s) as [[s' candidates]|] eqn:Es.
  2: { rewrite union_empty_r_L. destruct Hc as [[p ->]| ->]; [by apply system_marks|done]. }
  clear Hc. pose proof (collect_candidates_system lost (take k candidates) t (MkReport 0 0 0) s' a) as Hg.
  destruct (collect_candidates _ _ _ _ _) as [[s2 a2] report]. cbn [fst] in Hg.
  specialize (Hg (staged_system _ _ _ _ _ _ _ _ Es Hok)).
  set (lost1 := lost ∪ torn_removal (take k candidates) t s' a) in *.
  assert (forall x, system_except (lost ∪ (torn_removal (take k candidates) t s' a ∪ x)) (s2, a2)) as Hmore.
  { intros x. apply (system_except_weaken lost1); [set_solver|done]. }
  destruct report as [report|e]; [|apply Hmore]. destruct (candidates !! k) as [[d size]|]; [|apply Hmore].
  destruct removed; cbn [andb]; [|apply Hmore]. destruct (collectable d t s2); [|apply Hmore].
  rewrite union_assoc_L. by apply system_loses.
Qed.

Lemma run_upload_except lost op w :
  system_except lost w -> sourced op w -> system_except (lost ∪ torn (StoreCall op) w) (run_upload op w).
Proof.
  destruct op as [r|o id off d t|o id off d t k|o id t|t|seed|o x t|r|o k t|o d|d|scan t n];
    [cbn [torn]; rewrite union_empty_r_L..|].
  all: destruct w as [s a]; intros Hok Hsrc; pose proof Hok as [Hs Hl Hc]; cbn [fst snd] in *; cbn [run_upload].
  - split; cbn [fst snd]; [by apply begin_sessions| |]; unfold begin;
      repeat case_match; cbn; try done; repeat (apply ledger_sessions || apply ledger_pending); done.
  - pose proof (upload_append_sessions o id off d t s Hs). pose proof (upload_append_cases o id off d t s Hs) as Hcs.
    destruct (upload_append o id off d t s) as [s' x].
    destruct Hcs as [[-> _]|(row & _ & [[_ ->]|[_ ->]])]; [done| |]; split; try done. by apply ledger_sessions.
  - split; [|done|done]. cbn [fst].
    destruct (upload_append o id off d t s) as [s' [x|e]] eqn:E; cbn; [|by destruct s].
    eapply (crash_append_sessions o id off d t). { done. } { by rewrite E. }
  - by apply finalize_system.
  - pose proof (prune_expired_sessions t s Hs). pose proof (prune_expired_cases t s) as Hcs.
    destruct (prune_expired t s) as [s' x]. destruct Hcs as [->| ->]; [done|]. split; [done|by apply ledger_sessions|done].
  - split; [by apply reopen_sessions|done|done].
  - apply (transact_keeps (fun s' => system_except lost (s', a))); [done|]. intros v u Hu.
    unfold record_local_artifact in Hu. apply guard_bind_Ok in Hu as [_ Hu]. apply result_bind_Ok in Hu as (? & _ & Hu).
    apply result_bind_Ok in Hu as (u1 & Hu & [= _ <-]). unfold record_controller_artifact in Hu. split; cbn [fst snd].
    + apply (sessions_frame s); [|done|done]. cbn. by apply record_artifact_Ok in Hu as (_ & _ & -> & _).
    + by eapply record_artifact_ledger.
    + by eapply cas_record.
  - apply (transact_keeps (fun s' => system_except lost (s', a))); [done|]. intros x u Hu.
    pose proof (grant_reference_ledger _ _ _ _ _ Hu Hl) as Hl'. split; [|done|]; cbn [fst snd].
    + apply (sessions_frame s); [|done|done]. apply grant_reference_Ok in Hu as [->|Hu]; [done|].
      destruct Hu as (_ & _ & _ & _ & _ & _ & _ & n & _ & [[_ ->]|(_ & _ & _ & ->)]); done.
    + apply grant_reference_Ok in Hu as [->|Hu]; [done|].
      destruct Hu as (_ & _ & _ & _ & _ & _ & _ & n & _ & [[_ ->]|(_ & _ & _ & ->)]); done.
  - apply (transact_keeps (fun s' => system_except lost (s', a))); [done|]. intros x u Hu.
    pose proof (revoke_reference_ledger _ _ _ _ _ _ Hu Hl) as Hl'.
    apply revoke_reference_Ok in Hu as (r & _ & [[_ ->]|(_ & _ & _ & _ & _ & owners & -> & _)]);
      (split; [by apply (sessions_frame s)|done|done]).
  - unfold open_referenced_artifact. repeat case_match; try done.
    split; [by apply (sessions_frame s)|done|done].
  - unfold drop_reader. destruct (_ !! d); [|done]. split; [by apply (sessions_frame s)|done|done].
  - by apply collect_garbage_system.
Qed.

(** With removals that fail before they remove anything. *)
Lemma run_upload_system `{!RetentionAtomic A} op w : system_ok w -> sourced op w -> system_ok (run_upload op w).
Proof.
  intros Hok Hsrc. assert ((exists scan t n, op = UpCollect scan t n) \/ torn (StoreCall op) w = ∅) as [(scan & t & n & ->)|Hno]
    by (destruct op; eauto).
  - destruct w as [s a]. pose proof (collect_garbage_keeps (fun s a => system_ok (s, a)) scan t n s a) as Hg. cbn [run_upload].
    destruct (collect_garbage scan t n s a) as [[s' a'] x]. apply Hg; [| | |done]; clear s a Hok Hsrc Hg s' a' x.
    + intros p s a. apply system_marks.
    + intros d s a a' b Hok _ Hr Ea. by eapply system_forgets.
    + intros d s a a' e [Hs Hl Hc] _ _ Ea. split; [done|done|].
      intros d' m Hlost Hd. destruct (Hc _ _ Hlost Hd) as (r & Hr' & Hm). exists r. split; [|done]. by rewrite (remove_Err _ _ _ _ _ Ea).
  - pose proof (run_upload_except ∅ op w Hok Hsrc) as H. by rewrite Hno, union_empty_r_L in H.
Qed.

End system.
