(* ===== verification/UploadTheorems.v ===== *)
(** * What the artifact uploads promise

    The properties of Uploads.v over sequences of operations: the ledger's
    invariant, the quotas, what a reference protects from collection and
    what a finished upload contains. *)

From stdpp Require Import base strings pretty gmap sorting list.
From S2P Require Import Prelude Text Digest Artifacts Uploads UploadLedger.

Local Open Scope N_scope.

(** ** Sums over tables *)

Section msum.
Context {K V : Type} `{Countable K}.
Implicit Types (m : gmap K V) (f g : K * V -> N).

Definition msum f m : N := sum (f <$> map_to_list m).

Lemma sum_perm l k : l ≡ₚ k -> sum l = sum k.
Proof. unfold sum. induction 1; cbn [foldr] in *; lia. Qed.

Lemma msum_insert f m k v : m !! k = None -> msum f (<[k := v]> m) = f (k, v) + msum f m.
Proof. intros Hk. unfold msum. by rewrite (sum_perm _ (f <$> (k, v) :: map_to_list m)) by (by rewrite map_to_list_insert). Qed.

Lemma msum_delete f m k v : m !! k = Some v -> msum f m = f (k, v) + msum f (delete k m).
Proof.
  intros Hk. rewrite <-(msum_insert f (delete k m) k v) by (by rewrite lookup_delete_eq).
  by rewrite insert_delete_eq, insert_id.
Qed.

Lemma msum_alter f m k v h :
  m !! k = Some v -> msum f (alter h k m) + f (k, v) = msum f m + f (k, h v).
Proof.
  intros Hk. rewrite (msum_delete f m k v Hk), (msum_delete f (alter h k m) k (h v)) by (by rewrite lookup_alter_eq, Hk).
  rewrite delete_alter_eq. lia.
Qed.

Lemma msum_delete_le f m k : msum f (delete k m) <= msum f m.
Proof.
  destruct (m !! k) as [v|] eqn:Hk; [rewrite (msum_delete f m k v Hk); lia|by rewrite delete_id].
Qed.

Lemma msum_foldr_delete_le f m l : msum f (foldr delete m l) <= msum f m.
Proof. induction l as [|k l IH]; cbn; [done|]. pose proof (msum_delete_le f (foldr delete m l) k). lia. Qed.

Lemma msum_filter_le f m (P : K * V -> Prop) `{!forall x, Decision (P x)} : msum f (filter P m) <= msum f m.
Proof.
  induction m as [|k v m Hk IH] using map_ind; [by rewrite map_filter_empty|].
  rewrite map_filter_insert, (msum_insert f m) by done. case_decide.
  - rewrite msum_insert; [lia|]. apply map_lookup_filter_None. by left.
  - rewrite delete_id by done. lia.
Qed.

Lemma msum_mono f g m : (forall k v, m !! k = Some v -> f (k, v) <= g (k, v)) -> msum f m <= msum g m.
Proof.
  induction m as [|k v m Hk IH] using map_ind; [done|]. intros Hle. rewrite !msum_insert by done.
  pose proof (Hle k v ltac:(by rewrite lookup_insert_eq)).
  enough (msum f m <= msum g m) by lia. apply IH. intros k' v' Hk'. apply Hle.
  rewrite lookup_insert_ne; [done|]. intros ->. congruence.
Qed.

Lemma msum_insert_or_ignore_le f m k v : msum f (insert_or_ignore k v m) <= f (k, v) + msum f m.
Proof. unfold insert_or_ignore. destruct (m !! k) eqn:Hk; [lia|]. by rewrite msum_insert. Qed.

End msum.

(** ** Quotas *)

(** What the queries of the quotas sum, by owner. *)
Definition stored (u : Uploads) : N := sum (stored_column u).
Definition reserved (t : N) (u : Uploads) : N := sum (reserved_column t u).
Definition owned (o : string) (u : Uploads) : N := sum (owned_column o u).
Definition owner_reserved (o : string) (t : N) (u : Uploads) : N := sum (owner_reserved_column o t u).

(** What the limits promise at a time. *)
Record within (q : UploadQuotas) (t : N) (u : Uploads) : Prop := {
  wi_total : stored u + reserved t u <= total_bytes q;
  wi_owner : forall o, owned o u + owner_reserved o t u <= per_owner_bytes q;
}.

Lemma live_antitone t t' row : t <= t' -> live t' row = true -> live t row = true.
Proof. intros Ht. unfold live. rewrite !andb_true_iff, !N.ltb_lt. naive_solver lia. Qed.

Lemma within_later q t t' u : t <= t' -> within q t u -> within q t' u.
Proof.
  intros Ht [H1 H2]. split.
  - enough (reserved t' u <= reserved t u) by lia. apply msum_mono. intros k row _. cbn.
    pose proof (live_antitone t t' row Ht). destruct (live t' row), (live t row); naive_solver lia.
  - intros o. specialize (H2 o). enough (owner_reserved o t' u <= owner_reserved o t u) by lia.
    apply msum_mono. intros k row _. cbn. pose proof (live_antitone t t' row Ht).
    destruct (bool_decide _), (live t' row), (live t row); naive_solver lia.
Qed.

(** Nothing that only shrinks leaves the limits. *)
Lemma within_shrinks q t u u' :
  stored u' <= stored u -> reserved t u' <= reserved t u ->
  (forall o, owned o u' <= owned o u) -> (forall o, owner_reserved o t u' <= owner_reserved o t u) ->
  within q t u -> within q t u'.
Proof.
  intros H1 H2 H3 H4 [Ht Ho]. split; [lia|]. intros o. specialize (H3 o). specialize (H4 o). specialize (Ho o). lia.
Qed.

Lemma query_bytes_Ok l n : query_bytes l = Ok n <-> n = sum l /\ sum l <= i64_max.
Proof. unfold query_bytes. destruct (N.leb_spec (sum l) i64_max); split; naive_solver lia. Qed.

Lemma enforce_quota_Ok sc limit a b n :
  limit <= i64_max -> a <= i64_max -> b <= i64_max ->
  enforce_quota sc limit (saturating_add u64_max a b) n = Ok tt -> a + b + n <= limit.
Proof.
  unfold enforce_quota. intros Hl Ha Hb Hq%guard_err_Ok%N.ltb_ge. revert Hl Ha Hb Hq. unfold saturating_add, i64_max, u64_max. lia.
Qed.

Definition quotas_bounded (q : UploadQuotas) : Prop := total_bytes q <= i64_max /\ per_owner_bytes q <= i64_max.

Lemma enforce_local_Ok o n q t u x :
  quotas_bounded q -> enforce_local_artifact_quota o n q t u = Ok x ->
  stored u + reserved t u + n <= total_bytes q /\ owned o u + owner_reserved o t u + n <= per_owner_bytes q.
Proof.
  intros [Q1 Q2]. unfold enforce_local_artifact_quota. intros (a & [-> Ha]%query_bytes_Ok & H)%result_bind_Ok.
  apply result_bind_Ok in H as (t' & [Ht ->]%upload_i64_Ok & H).
  apply result_bind_Ok in H as (b & [-> Hb]%query_bytes_Ok & H).
  apply result_bind_Ok in H as ([] & H1%enforce_quota_Ok & H); try done.
  apply result_bind_Ok in H as (c & [-> Hc]%query_bytes_Ok & H).
  apply result_bind_Ok in H as (d & Hd & H). unfold owner_reserved_bytes in Hd.
  apply result_bind_Ok in Hd as (t'' & [_ ->]%upload_i64_Ok & [-> Hd]%query_bytes_Ok).
  destruct x. by apply enforce_quota_Ok in H.
Qed.

Definition reservation (t : N) (row : SessionRow) : N := if live t row then us_quota_reserved_bytes row else 0.

Lemma reserved_update t u id row f :
  ut_sessions u !! id = Some row ->
  reserved t (update_session id f u) + reservation t row = reserved t u + reservation t (f row).
Proof. intros Hrow. exact (msum_alter (fun kr => reservation t kr.2) _ _ _ f Hrow). Qed.

Lemma owner_reserved_update o t u id row f :
  ut_sessions u !! id = Some row -> us_owner_id (f row) = us_owner_id row ->
  owner_reserved o t (update_session id f u) + (if bool_decide (us_owner_id row = o) then reservation t row else 0)
  = owner_reserved o t u + (if bool_decide (us_owner_id row = o) then reservation t (f row) else 0).
Proof.
  intros Hrow Ho. pose proof (msum_alter (fun kr => if bool_decide (us_owner_id kr.2 = o) && live t kr.2
    then us_quota_reserved_bytes kr.2 else 0) _ _ _ f Hrow) as E. cbn [snd] in E. rewrite Ho in E.
  unfold reservation. by destruct (bool_decide (us_owner_id row = o)).
Qed.

(** A session that reserves no more than it did. *)
Lemma within_update q t u id row f :
  ut_sessions u !! id = Some row -> us_owner_id (f row) = us_owner_id row ->
  reservation t (f row) <= reservation t row -> within q t u -> within q t (update_session id f u).
Proof.
  intros Hrow Ho Hle. apply within_shrinks; [done| |done|].
  - pose proof (reserved_update t u id row f Hrow). lia.
  - intros o. pose proof (owner_reserved_update o t u id row f Hrow Ho). destruct (bool_decide _); lia.
Qed.

(** An object accounted for an owner who has [n] bytes left. *)
Lemma within_record o k p kind x t t' u u' q :
  record_artifact o k p kind x t u = Ok u' ->
  stored u + reserved t' u + ai_size_bytes x <= total_bytes q ->
  (forall o', owned o' u + owner_reserved o' t' u + (if bool_decide (o = o') then ai_size_bytes x else 0)
              <= per_owner_bytes q) ->
  within q t' u'.
Proof.
  intros (_ & _ & Es & Eo & _ & _ & _ & Ew)%record_artifact_Ok Ht Hw. split.
  - pose proof (msum_insert_or_ignore_le snd (ut_objects u) (ai_digest x) (ai_size_bytes x)) as Hs. cbn [snd] in Hs.
    rewrite <-Eo in Hs. change (stored u' <= ai_size_bytes x + stored u) in Hs.
    assert (reserved t' u' = reserved t' u) as -> by (unfold reserved, reserved_column; by rewrite Es). lia.
  - intros o'. pose proof (msum_insert_or_ignore_le (fun kn => if bool_decide (kn.1.1 = o') then kn.2 else 0)
      (ut_owners u) (o, ai_digest x) (ai_size_bytes x)) as Hs. cbn [fst snd] in Hs. rewrite <-Ew in Hs.
    change (owned o' u' <= (if bool_decide (o = o') then ai_size_bytes x else 0) + owned o' u) in Hs.
    assert (owner_reserved o' t' u' = owner_reserved o' t' u) as ->
      by (unfold owner_reserved, owner_reserved_column; by rewrite Es).
    specialize (Hw o'). destruct (bool_decide _); lia.
Qed.

Lemma within_begin q r u id row :
  quotas_bounded q -> reserve_quota r q u = Ok tt -> ut_sessions u !! id = None ->
  us_owner_id row = bu_owner_id r -> us_quota_reserved_bytes row = bu_expected_size_bytes r ->
  within q (bu_now_ms r) u -> within q (bu_now_ms r) (set_sessions u (<[id := row]> (ut_sessions u))).
Proof.
  intros Hq Hr Hid Ho Hn [_ Hw]. apply (enforce_local_Ok _ _ _ _ _ _ Hq) in Hr as [H1 H2].
  set (t := bu_now_ms r) in *. split.
  - change (stored u + msum (fun kr => if live t kr.2 then us_quota_reserved_bytes kr.2 else 0) (<[id := row]> (ut_sessions u))
            <= total_bytes q). rewrite msum_insert by done.
    change (stored u + (reservation t row + reserved t u) <= total_bytes q). unfold reservation. rewrite Hn.
    destruct (live t row); lia.
  - intros o. change (owned o u + msum (fun kr => if bool_decide (us_owner_id kr.2 = o) && live t kr.2
      then us_quota_reserved_bytes kr.2 else 0) (<[id := row]> (ut_sessions u)) <= per_owner_bytes q).
    rewrite msum_insert by done. cbn [fst snd]. fold (owner_reserved o t u).
    change (owned o u + ((if bool_decide (us_owner_id row = o) && live t row then us_quota_reserved_bytes row else 0)
                         + owner_reserved o t u) <= per_owner_bytes q).
    rewrite Ho, Hn. case_bool_decide as E; [subst o|]; cbn; [destruct (live t row); [lia|]|];
      [specialize (Hw (bu_owner_id r))|specialize (Hw o)]; lia.
Qed.

Lemma within_grant q r u x u' :
  quotas_bounded q -> grant_reference q r u = Ok (x, u') ->
  within q (gr_now_ms r) u -> within q (gr_now_ms r) u'.
Proof.
  intros [Q1 Q2] [->|H]%grant_reference_Ok Hw; [done|]. cbn zeta in H.
  destruct H as (_ & _ & _ & _ & _ & _ & _ & n & _ & [[_ ->]|(_ & Hno & (a & b & Ha & Hb & He) & ->)]);
    [destruct Hw; by split|].
  unfold owner_stored_bytes in Ha. apply query_bytes_Ok in Ha as [-> Ha]. unfold owner_reserved_bytes in Hb.
  apply result_bind_Ok in Hb as (t' & [_ ->]%upload_i64_Ok & [-> Hb]%query_bytes_Ok).
  apply enforce_quota_Ok in He; [|done..]. destruct Hw as [H1 H2]. split; [done|]. intros o.
  change (msum (fun kn => if bool_decide (kn.1.1 = o) then kn.2 else 0)
            (<[(gr_owner_id r, gr_digest r) := n]> (ut_owners u)) + owner_reserved o (gr_now_ms r) u <= per_owner_bytes q).
  rewrite msum_insert by done. cbn [fst snd]. fold (owned o u).
  change ((if bool_decide (gr_owner_id r = o) then n else 0) + owned o u + owner_reserved o (gr_now_ms r) u <= per_owner_bytes q).
  case_bool_decide as E; [subst o|specialize (H2 o); lia].
  unfold owned, owner_reserved. lia.
Qed.

Lemma reservation_live t row : reservation t row <= us_quota_reserved_bytes row.
Proof. unfold reservation. destruct (live t row); lia. Qed.

Lemma record_artifact_sessions o k p kind x t u u' ss :
  record_artifact o k p kind x t u = Ok u' ->
  record_artifact o k p kind x t (set_sessions u ss) = Ok (set_sessions u' ss).
Proof.
  unfold record_artifact. intros (size & Hs & H)%result_bind_Ok. rewrite Hs. cbn in H |- *.
  apply guard_bind_Ok in H as [Hg H]. rewrite Hg. cbn. apply result_bind_Ok in H as (now & Hn & [= <-]).
  by rewrite Hn.
Qed.

(** A finished session hands its reservation over to the object. *)
Lemma within_complete q o k t x u u' row f p kind id :
  record_artifact o k p kind x t u = Ok u' ->
  ut_sessions u !! id = Some row -> us_owner_id row = o -> us_owner_id (f row) = o ->
  us_state (f row) = UploadCompleted -> reservation t row = ai_size_bytes x ->
  within q t u -> within q t (update_session id f u').
Proof.
  intros Hu Hrow Ho Hf Hst Hn Hw. pose proof (record_artifact_Ok _ _ _ _ _ _ _ _ Hu) as (_ & _ & Es & _).
  unfold update_session. rewrite Es. apply (record_artifact_sessions _ _ _ _ _ _ _ _ (alter f id (ut_sessions u))) in Hu.
  assert (reservation t (f row) = 0) as Hz by (unfold reservation, live; by rewrite Hst).
  apply (within_record _ _ _ _ _ _ t _ _ _ Hu); fold (update_session id f u).
  - pose proof (reserved_update t u id row f Hrow). destruct Hw as [Hw _].
    change (stored (update_session id f u)) with (stored u). lia.
  - intros o'. pose proof (owner_reserved_update o' t u id row f Hrow) as He. rewrite Ho, Hf in He. specialize (He eq_refl).
    destruct Hw as [_ Hw]. specialize (Hw o'). change (owned o' (update_session id f u)) with (owned o' u).
    destruct (bool_decide (o = o')); lia.
Qed.

Section system.
Context {A : Type} {Sha : Sha256} {Store : ArtifactStore A} {Laws : ArtifactStoreLaws A}
  {Retention : RetentionStore A} {Rlaws : RetentionLaws A}.

(** Up to some objects that may be lost. *)
Definition stable (w : UploadSystem (A:=A)) : Prop := exists lost, system_except lost w.

Lemma stable_sessions w : stable w -> sessions_ok w.1.
Proof. by intros [? []]. Qed.

Lemma stable_ledger w : stable w -> ledger_ok (st_db w.1).
Proof. by intros [? []]. Qed.

Lemma run_upload_stable op w : stable w -> sourced op w -> stable (run_upload op w).
Proof. intros [lost Hw] Hs. eexists. by apply run_upload_except. Qed.

(** The time of a call that reads the clock. *)
Definition op_time (op : UploadOp) (now : N) : N :=
  match op with
  | UpBegin r => bu_now_ms r
  | UpAppend _ _ _ _ t | UpCrashAppend _ _ _ _ t _ | UpFinalize _ _ t | UpPrune t | UpLocal _ _ t
  | UpRevoke _ _ t | UpCollect _ t _ => t
  | UpGrant r => gr_now_ms r
  | UpReopen _ | UpRead _ _ | UpDropReader _ => now
  end.

(** An artifact recorded by the controller is new to the ledger. *)
Definition fresh_local (op : UploadOp) (w : UploadSystem (A:=A)) : Prop :=
  match op with UpLocal _ x _ => artifact_size (ai_digest x) (st_db w.1) = None | _ => True end.

Definition quota_ok (q : UploadQuotas) (t : N) (w : UploadSystem (A:=A)) : Prop :=
  st_quotas w.1 = q /\ within q t (st_db w.1).

Lemma finalize_quota o id t s a q :
  quotas_bounded q -> stable (s, a) -> quota_ok q t (s, a) -> quota_ok q t (finalize o id t s a).1.
Proof.
  intros Hq Hok [Hsq Hw]. pose proof (finalize_cases o id t s a) as Hc.
  destruct (finalize o id t s a) as [[s' a'] r]. cbn in *. destruct Hc as [(-> & -> & _)|(row & Hf & Hc)]; [done|].
  destruct Hf as [Hrow Ho Hopen Htime Hnow Hfull]. destruct (ss_rows _ (stable_sessions _ Hok) _ _ Hrow) as [_ _ _ Hres _].
  rewrite Hopen in Hres. cbn in Hrow, Hw.
  assert (within q t (update_session id (started t) (st_db s))) as Hw1.
  { apply (within_update _ _ _ _ row); [done|done| |done]. unfold reservation, live. cbn. by rewrite Hopen. }
  pose proof (lookup_marked id (started t) s row Hrow) as Hrow1. cbn in Hrow1.
  destruct Hc as [(-> & -> & _)|(data & _ & Hc)]; [split; [done|exact Hw1]|].
  pose proof (ingest_Ok data (request_of row) a) as Hi. pose proof (ingest_size data (request_of row) a) as Hn.
  destruct (artifact_ingest data (request_of row) a) as [a1 ing]. cbn in *.
  destruct Hc as [-> [[[->| ->] _]|(res & u & -> & _ & Hu & ->)]]; (split; [done|]); [exact Hw1| |]; cbn.
  - apply (within_update _ _ _ _ (started t row)); [done|done| |done]. unfold reservation, live. apply N.le_0_l.
  - destruct (Hi _ eq_refl) as (Hid & _ & _). specialize (Hn _ _ eq_refl eq_refl).
    unfold record_completed_artifact in Hu. apply result_bind_Ok in Hu as (u0 & Hu & Hx).
    apply guard_bind_Ok in Hx as [_ [= ->]].
    assert (reservation t (started t row) = ai_size_bytes (ir_artifact res)) as Er.
    { unfold reservation, live. cbn. rewrite (proj2 (N.ltb_lt _ _) Htime). cbn. by rewrite Hres, Hn, Hid. }
    by apply (within_complete _ _ _ _ _ _ _ (started t row) (completed t (ai_digest (ir_artifact res))) _ _ id Hu).
Qed.

Lemma begin_quota r s a q :
  quotas_bounded q -> quota_ok q (bu_now_ms r) (s, a) -> quota_ok q (bu_now_ms r) ((begin r s).1, a).
Proof.
  intros Hq [Hsq Hw]. cbn in *. unfold begin. destruct (validate_begin _ _); [|done].
  destruct (session_by_key _ _ _) as [x|]; [by case_match|].
  destruct (reserve_quota _ _ _) as [[]|e] eqn:Er; [|done].
  destruct (next_upload_id _ _ _) as [c [id|e]] eqn:Ei; cbn; [|by split].
  destruct (new_session r) as [row|e] eqn:En; cbn; [|by split]. split; [done|]. cbn.
  apply next_upload_id_Ok, fmap_None in Ei. unfold new_session in En.
  apply result_bind_Ok in En as (size & [_ ->]%upload_i64_Ok & En).
  apply result_bind_Ok in En as (now & _ & En). apply result_bind_Ok in En as (ex & _ & [= <-]).
  rewrite Hsq in Er.
  match goal with |- within _ _ (set_sessions ?u (<[id := ?row]> _)) =>
    refine (within_begin q r u id row Hq Er Ei eq_refl eq_refl _) end.
  destruct Hw. by split.
Qed.

Lemma within_less q t u ss os ws rs ps :
  msum snd os <= stored u ->
  (forall f, msum f ss <= msum f (ut_sessions u)) -> (forall f, msum f ws <= msum f (ut_owners u)) ->
  within q t u -> within q t (MkUploads ss os ws rs ps).
Proof. intros Ho Hs Hw. apply within_shrinks; [done|apply Hs|intros o; apply Hw|intros o; apply Hs]. Qed.

Lemma run_upload_quota op w q t :
  quotas_bounded q -> stable w -> quota_ok q t w -> fresh_local op w -> t <= op_time op t ->
  quota_ok q (op_time op t) (run_upload op w).
Proof.
  destruct w as [s a]. intros Hq Hok [Hsq Hw] Hfresh Ht. apply (within_later _ _ _ _ Ht) in Hw. cbn [fst snd] in *.
  destruct op as [r|o id off d t'|o id off d t' k|o id t'|t'|seed|o x t'|r|o k t'|o d|d|scan t' n];
    cbn [run_upload op_time fresh_local fst] in *; clear Ht.
  - by apply (begin_quota r s a).
  - pose proof (upload_append_cases o id off d t' s (stable_sessions _ Hok)) as Hcs.
    destruct (upload_append o id off d t' s) as [s' x].
    destruct Hcs as [[-> _]|(row & [Hrow _ Hst _ _ _] & [[_ ->]|[_ ->]])]; [done| |done]. split; [done|]. cbn.
    by apply (within_update _ _ _ _ row).
  - by split.
  - by apply finalize_quota.
  - pose proof (prune_expired_cases t' s) as Hcs. destruct (prune_expired t' s) as [s' x].
    destruct Hcs as [->| ->]; [done|]. split; [done|]. cbn.
    apply (within_less q t' (st_db s)); [done| |done|done]. intros f. apply msum_foldr_delete_le.
  - by split.
  - apply (transact_keeps (fun s' => quota_ok q t' (s', a))); [done|]. intros v u Hu. split; [done|]. cbn.
    unfold record_local_artifact in Hu. apply guard_bind_Ok in Hu as [_ Hu]. rewrite Hfresh in Hu.
    apply result_bind_Ok in Hu as (y & Hy & Hu). apply result_bind_Ok in Hu as (u1 & Hu & [= _ <-]). rewrite Hsq in Hy.
    apply (enforce_local_Ok _ _ _ _ _ _ Hq) in Hy as [H1 H2].
    apply (within_record _ _ _ _ _ _ t' _ _ _ Hu); [done|]. intros o'. case_bool_decide as E; [by subst|].
    destruct Hw as [_ Hw]. specialize (Hw o'). lia.
  - apply (transact_keeps (fun s' => quota_ok q (gr_now_ms r) (s', a))); [done|]. intros v u Hu. split; [done|]. cbn.
    rewrite Hsq in Hu. by apply (within_grant _ _ _ _ _ Hq Hu).
  - apply (transact_keeps (fun s' => quota_ok q t' (s', a))); [done|]. intros v u Hu. split; [done|]. cbn.
    apply revoke_reference_Ok in Hu as (r & _ & [[_ ->]|(_ & _ & _ & _ & _ & owners & -> & Hc)]); [done|].
    apply (within_less q t' (st_db s)); [done|done| |done]. intros f. destruct Hc as [[-> _]|[-> _]]; [done|apply msum_delete_le].
  - unfold open_referenced_artifact. repeat case_match; by split.
  - unfold drop_reader. destruct (_ !! d); by split.
  - pose proof (collect_garbage_keeps (fun s a => quota_ok q t' (s, a)) scan t' n s a) as Hg.
    destruct (collect_garbage scan t' n s a) as [[s' a'] x]. apply Hg; [| | |done].
    + intros p s1 a1 [H1 H2]. split; [done|by apply (within_less q t' (st_db s1))].
    + intros d s1 a1 a2 b [H1 H2] _ _ _. split; [done|]. cbn. apply (within_less q t' (st_db s1)); [|done| |done].
      * apply msum_delete_le.
      * intros f. apply msum_filter_le.
    + done.
Qed.

(** Operations whose clock does not go back, up to [later]. *)
Fixpoint scheduled (now : N) (ops : list UploadOp) (w : UploadSystem (A:=A)) (later : N) : Prop :=
  match ops with
  | [] => now <= later
  | op :: ops => now <= op_time op now /\ fresh_local op w /\ scheduled (op_time op now) ops (run_upload op w) later
  end.

Fixpoint all_sourced (ops : list UploadOp) (w : UploadSystem (A:=A)) : Prop :=
  match ops with [] => True | op :: ops => sourced op w /\ all_sourced ops (run_upload op w) end.

Lemma run_uploads_stable ops w : stable w -> all_sourced ops w -> stable (run_uploads ops w).
Proof.
  revert w. induction ops as [|op ops IH]; intros w Hw; [done|]. intros [H1 H2].
  apply IH; [|done]. by apply run_upload_stable.
Qed.

Lemma run_uploads_quota ops w q t later :
  quotas_bounded q -> stable w -> quota_ok q t w -> all_sourced ops w -> scheduled t ops w later ->
  quota_ok q later (run_uploads ops w).
Proof.
  intros Hq. revert w t. induction ops as [|op ops IH]; intros w t Hok Hw Hsrc Hsch; cbn in *.
  - destruct Hw as [H1 H2]. split; [done|by eapply within_later].
  - destruct Hsrc as [Hs1 Hs2]. destruct Hsch as (Ht & Hf & Hsch). eapply IH; [| |done|done].
    + by apply run_upload_stable.
    + by apply run_upload_quota.
Qed.

Lemma open_uploads_Ok max chunk q seed s :
  open_uploads max chunk q seed = Ok s ->
  s = MkUploadStore uploads_empty ∅ ∅ max chunk q seed /\ quotas_bounded q.
Proof.
  unfold open_uploads, validate_quotas. intros [_ H]%guard_bind_Ok. apply result_bind_Ok in H as (u & Hq & [= <-]).
  split; [done|]. apply guard_bind_Ok in Hq as [_ Hq]. apply guard_bind_Ok in Hq as [Hq _].
  apply orb_false_iff in Hq as [H1%N.ltb_ge H2%N.ltb_ge]. done.
Qed.

Lemma open_uploads_system max chunk q seed s a :
  open_uploads max chunk q seed = Ok s -> system_ok (s, a).
Proof.
  intros [-> _]%open_uploads_Ok. split.
  - split; cbn; [done|done|]. intros id [? Hid]. done.
  - split; done.
  - done.
Qed.

Lemma open_uploads_stable max chunk q seed s a : open_uploads max chunk q seed = Ok s -> stable (s, a).
Proof. intros Hs. exists ∅. by eapply open_uploads_system. Qed.

(** An object that is counted and cannot be opened at its size. *)
Definition missing (d : Sha256Digest) (w : UploadSystem (A:=A)) : bool :=
  match ut_objects (st_db w.1) !! d with
  | Some n => match artifact_open d w.2 with Ok r => negb (ai_size_bytes (rd_identity r) =? n) | Err _ => true end
  | None => false
  end.

Definition still_missing (lost : gset Sha256Digest) (w : UploadSystem (A:=A)) : gset Sha256Digest :=
  filter (fun d => missing d w = true) lost.

Lemma system_still_missing lost w : system_except lost w -> system_except (still_missing lost w) w.
Proof.
  intros [Hs Hl Hc]. split; [done..|]. intros d n Hd Hn. destruct (decide (d ∈ lost)) as [Hlost|]; [|by apply Hc].
  destruct (missing d w) eqn:Hm; [destruct Hd; by apply elem_of_filter|]. unfold missing in Hm. rewrite Hn in Hm.
  destruct (artifact_open d w.2) as [r|]; [|done]. exists r. split; [done|]. by apply N.eqb_eq, negb_false_iff.
Qed.

(** A history of the store, with the objects that are missing since their
    removal was begun and not committed. *)
Fixpoint run_events (events : list StoreEvent) (w : UploadSystem (A:=A)) (lost : gset Sha256Digest)
    : UploadSystem * gset Sha256Digest :=
  match events with
  | [] => (w, lost)
  | event :: events =>
      let w' := run_event event w in run_events events w' (still_missing (lost ∪ torn event w) w')
  end.

Fixpoint events_sourced (events : list StoreEvent) (w : UploadSystem (A:=A)) : Prop :=
  match events with
  | [] => True
  | event :: events =>
      match event with StoreCall op => sourced op w | _ => True end /\ events_sourced events (run_event event w)
  end.

Lemma run_event_except lost event w :
  system_except lost w -> match event with StoreCall op => sourced op w | _ => True end ->
  system_except (lost ∪ torn event w) (run_event event w).
Proof.
  destruct event as [op|scan t n k removed]; [apply run_upload_except|]. destruct w. intros Hok _. by apply crash_collect_system.
Qed.

(** C29: every sequence of calls on a fresh store - uploads, finalizations,
    pruning, local artifacts, grants, revocations, reads and collections -
    with restarts, with appends cut short by a crash, with removals that
    fail and with collections cut short before or after a removal - keeps
    the tables consistent: sessions have unique keys, commit no more than
    they expect and have staging files that hold at least the committed
    bytes; an active reference has its owner's row, an owner's row has the
    size of an object; and every object the ledger counts can be opened, at
    its size, except those whose removal was begun by a collection that
    did not commit it, until a collection forgets them or they are stored
    again. *)
Theorem uploads_invariant (max chunk : N) (q : UploadQuotas) (seed : N) (s : UploadStore) (a : A) (events : list StoreEvent) :
  open_uploads max chunk q seed = Ok s -> events_sourced events (s, a) ->
  let '(w, lost) := run_events events (s, a) ∅ in system_except lost w.
Proof.
  intros Hs%(open_uploads_system _ _ _ _ _ a). unfold system_ok in Hs. revert Hs.
  generalize (∅ : gset Sha256Digest) (s, a). induction events as [|event events IH]; intros lost w Hok Hsrc; [done|].
  destruct Hsrc as [H1 H2]. cbn [run_events]. apply IH; [|done]. by apply system_still_missing, run_event_except.
Qed.

(** C32: as long as the clock does not go back and the controller records
    only artifacts the ledger does not know yet, the stored objects and the
    live reservations together never exceed the total quota, and neither do
    those of an owner exceed the quota of an owner. *)
Theorem uploads_stay_within_quota (max chunk : N) (q : UploadQuotas) (seed : N) (s : UploadStore) (a : A)
    (ops : list UploadOp) (now later : N) :
  open_uploads max chunk q seed = Ok s -> all_sourced ops (s, a) -> scheduled now ops (s, a) later ->
  within q later (st_db (run_uploads ops (s, a)).1).
Proof.
  intros Hs Hsrc Hsch. pose proof (open_uploads_stable _ _ _ _ _ a Hs) as Hok. apply open_uploads_Ok in Hs as [-> Hq].
  apply (run_uploads_quota ops _ q now later Hq Hok); [|done|done]. split; [done|]. split; [|intros o]; apply N.le_0_l.
Qed.

(** With removals that fail before they remove anything. *)
Lemma run_uploads_system `{!RetentionAtomic A} ops w : system_ok w -> all_sourced ops w -> system_ok (run_uploads ops w).
Proof.
  revert w. induction ops as [|op ops IH]; intros w Hw; [done|]. intros [H1 H2].
  apply IH; [|done]. by apply run_upload_system.
Qed.

(** ** References *)

(** An active reference and the bytes it protects. *)
Record protects (o k : string) (ref : ArtifactReference) (reader : ArtifactReader) (w : UploadSystem (A:=A)) : Prop := {
  pr_row : reference_by_key o k (st_db w.1) = Some ref;
  pr_active : active ref = true;
  pr_open : artifact_open (af_digest ref) w.2 = Ok reader;
}.

Lemma protects_refs o k ref reader s a s' a' :
  protects o k ref reader (s, a) ->
  (ut_references (st_db s) !! (o, k) = Some ref -> ut_references (st_db s') !! (o, k) = Some ref) ->
  (artifact_open (af_digest ref) a = Ok reader -> artifact_open (af_digest ref) a' = Ok reader) ->
  protects o k ref reader (s', a').
Proof. intros [H1 H2 H3] Hr Ho. split; [by apply Hr|done|by apply Ho]. Qed.

Lemma record_artifact_protects o k p kind x t u u' key r :
  record_artifact o k p kind x t u = Ok u' -> ut_references u !! key = Some r -> ut_references u' !! key = Some r.
Proof. intros (_ & _ & _ & _ & _ & _ & -> & _)%record_artifact_Ok. apply insert_or_ignore_keeps. Qed.

Lemma finalize_protects o k ref reader o' id t s a :
  protects o k ref reader (s, a) -> protects o k ref reader (finalize o' id t s a).1.
Proof.
  intros Hp. pose proof (finalize_cases o' id t s a) as Hc. destruct (finalize o' id t s a) as [[s' a'] r]. cbn in *.
  destruct Hc as [(-> & -> & _)|(row & Hf & Hc)]; [done|].
  destruct Hc as [(-> & -> & _)|(data & _ & Hc)]; [by apply (protects_refs _ _ _ _ s a)|].
  pose proof (ingest_keeps data (request_of row) a (af_digest ref) reader) as Hk.
  destruct (artifact_ingest data (request_of row) a) as [a1 ing]. cbn in *.
  destruct Hc as [-> [[[->| ->] _]|(res & u & -> & _ & Hu & ->)]]; apply (protects_refs _ _ _ _ s a); try done.
  unfold record_completed_artifact in Hu. apply result_bind_Ok in Hu as (u0 & Hu & Hx).
  apply guard_bind_Ok in Hx as [_ [= ->]]. exact (record_artifact_protects _ _ _ _ _ _ _ _ (o, k) ref Hu).
Qed.

Lemma protects_not_removed o k ref reader s a d t :
  protects o k ref reader (s, a) -> artifact_is_reachable d t (st_db s) = false -> af_digest ref <> d.
Proof. intros [Hr Ha _] [Hu _]%unreachable E. destruct (Hu _ _ _ Hr E). congruence. Qed.

Lemma run_upload_protects op w o k ref reader :
  protects o k ref reader w -> (forall t, op <> UpRevoke o k t) -> protects o k ref reader (run_upload op w).
Proof.
  destruct w as [s a]. intros Hp Hne.
  destruct op as [r|o' id off d t|o' id off d t n|o' id t|t|seed|o' x t|r|o' k' t|o' d|d|scan t n]; cbn [run_upload].
  - apply (protects_refs _ _ _ _ s a); [done| |done]. unfold begin. by repeat case_match.
  - apply (protects_refs _ _ _ _ s a); [done| |done]. unfold upload_append. by repeat case_match.
  - by apply (protects_refs _ _ _ _ s a).
  - by apply finalize_protects.
  - apply (protects_refs _ _ _ _ s a); [done| |done]. pose proof (prune_expired_cases t s) as Hc.
    destruct (prune_expired t s) as [s' x]. by destruct Hc as [->| ->].
  - by apply (protects_refs _ _ _ _ s a).
  - apply (transact_keeps (fun s' => protects o k ref reader (s', a))); [done|]. intros v u Hu.
    apply (protects_refs _ _ _ _ s a); [done| |done].
    unfold record_local_artifact in Hu. apply guard_bind_Ok in Hu as [_ Hu]. apply result_bind_Ok in Hu as (? & _ & Hu).
    apply result_bind_Ok in Hu as (u1 & Hu & [= _ <-]). exact (record_artifact_protects _ _ _ _ _ _ _ _ (o, k) ref Hu).
  - apply (transact_keeps (fun s' => protects o k ref reader (s', a))); [done|]. intros v u Hu.
    apply (protects_refs _ _ _ _ s a); [done| |done]. cbn. intros Hr. apply grant_reference_Ok in Hu as [->|Hu]; [done|].
    destruct Hu as (Hk & _ & _ & _ & _ & _ & _ & m & _ & [[_ ->]|(_ & _ & _ & ->)]); cbn;
      by rewrite lookup_insert_ne by congruence.
  - apply (transact_keeps (fun s' => protects o k ref reader (s', a))); [done|]. intros v u Hu.
    apply (protects_refs _ _ _ _ s a); [done| |done]. cbn. intros Hr.
    apply revoke_reference_Ok in Hu as (r & _ & [[_ ->]|(_ & _ & _ & _ & _ & owners & -> & _)]); [done|]. cbn.
    rewrite lookup_insert_ne; [done|]. intros [= <- <-]. by apply (Hne t).
  - apply (protects_refs _ _ _ _ s a); [done| |done]. unfold open_referenced_artifact. by repeat case_match.
  - apply (protects_refs _ _ _ _ s a); [done| |done]. unfold drop_reader. by case_match.
  - pose proof (collect_garbage_keeps (fun s a => protects o k ref reader (s, a)) scan t n s a) as Hg.
    destruct (collect_garbage scan t n s a) as [[s' a'] x]. apply Hg; [| | |done].
    + intros p s1 a1 Hp1. by apply (protects_refs _ _ _ _ s1 a1).
    + intros d s1 a1 a2 b Hp1 _ Hr Ea. apply (protects_refs _ _ _ _ s1 a1); [done|done|]. intros <-.
      pose proof (remove_keeps d (af_digest ref) a1) as Hk. rewrite Ea in Hk. apply Hk.
      by eapply protects_not_removed.
    + intros d s1 a1 a2 e Hp1 _ Hr Ea. apply (protects_refs _ _ _ _ s1 a1); [done|done|]. intros <-.
      pose proof (remove_keeps d (af_digest ref) a1) as Hk. rewrite Ea in Hk. apply Hk.
      by eapply protects_not_removed.
Qed.

Lemma run_uploads_protects ops w o k ref reader :
  protects o k ref reader w -> Forall (fun op => forall t, op <> UpRevoke o k t) ops ->
  protects o k ref reader (run_uploads ops w).
Proof.
  intros Hp Hops. revert w Hp. induction Hops as [|op ops Hop Hops IH]; intros w Hp; [done|].
  apply IH. by apply run_upload_protects.
Qed.

Lemma run_uploads_app ops ops' w : run_uploads (ops ++ ops') w = run_uploads ops' (run_uploads ops w).
Proof. apply foldl_app. Qed.

Lemma all_sourced_app ops ops' w :
  all_sourced (ops ++ ops') w <-> all_sourced ops w /\ all_sourced ops' (run_uploads ops w).
Proof.
  revert w. induction ops as [|op ops IH]; intros w; cbn; [naive_solver|]. rewrite IH. naive_solver.
Qed.

(** C31: an artifact an owner has an active reference to stays readable for
    that owner, with the same bytes, until the reference is revoked: no
    other revocation, no pruning, no restart and no garbage collection at
    any time takes it away.  (Of the collections before the grant, those
    whose removal fails are assumed to have removed nothing.) *)
Theorem referenced_artifact_stays_readable `{!RetentionAtomic A} (max chunk : N) (q : UploadQuotas) (seed : N) (s : UploadStore) (a : A)
    (ops later : list UploadOp) (o k : string) (ref : ArtifactReference) :
  open_uploads max chunk q seed = Ok s -> all_sourced (ops ++ later) (s, a) ->
  reference_by_key o k (st_db (run_uploads ops (s, a)).1) = Some ref -> active ref = true ->
  Forall (fun op => forall t, op <> UpRevoke o k t) later ->
  exists reader, artifact_open (af_digest ref) (run_uploads ops (s, a)).2 = Ok reader
    /\ let '(s', a') := run_uploads (ops ++ later) (s, a) in
       (open_referenced_artifact o (af_digest ref) s' a').2 = Ok reader.
Proof.
  intros Hs%(open_uploads_system _ _ _ _ _ a) [Hsrc Hsrc']%all_sourced_app Hr Ha Hlater.
  pose proof (run_uploads_system _ _ Hs Hsrc) as Hok. pose proof (run_uploads_system _ _ Hok Hsrc') as Hok'.
  destruct (lk_active _ (so_ledger _ _ Hok) _ _ _ Hr Ha) as [n Hn].
  destruct (system_opens _ _ _ Hok (lk_owner _ (so_ledger _ _ Hok) _ _ _ Hn)) as (reader & Hopen & _).
  exists reader. split; [done|]. rewrite run_uploads_app.
  destruct (run_uploads_protects later _ o k ref reader (Build_protects _ _ _ _ _ Hr Ha Hopen) Hlater) as [Hr' _ Ho'].
  destruct (run_uploads later _) as [s' a']. unfold open_referenced_artifact, can_read_artifact.
  rewrite bool_decide_true by (by apply (lk_active _ (so_ledger _ _ Hok') _ _ _ Hr' Ha)). cbn in Ho'. by rewrite Ho'.
Qed.

(** ** Contents *)

(** An upload in progress, and what it has committed. *)
Record uploading (id : string) (row : SessionRow) (w : UploadSystem (A:=A)) : Prop := {
  ul_row : ut_sessions (st_db w.1) !! id = Some row;
  ul_open : unfinished_upload (us_state row) = true;
}.

Definition content (id : string) (row : SessionRow) (s : UploadStore) : bytes :=
  take (N.to_nat (us_committed_offset row)) (file_bytes (st_files s !! id)).

(** The bytes of the appends to an upload that were acknowledged. *)
Definition accepted (id : string) (op : UploadOp) (w : UploadSystem (A:=A)) : bytes :=
  match op with
  | UpAppend o i off d t =>
      if bool_decide (i = id) && is_ok (upload_append o i off d t w.1).2 then d else []
  | _ => []
  end.

(** An upload that goes on keeps what it is an upload of. *)
Record continues (id : string) (row : SessionRow) (s : UploadStore) (row' : SessionRow) (s' : UploadStore)
    (more : bytes) : Prop := {
  cn_owner : us_owner_id row' = us_owner_id row;
  cn_digest : us_expected_digest row' = us_expected_digest row;
  cn_size : us_expected_size_bytes row' = us_expected_size_bytes row;
  cn_content : content id row' s' = content id row s ++ more;
}.

Lemma continues_same id row s s' :
  file_bytes (st_files s' !! id) = file_bytes (st_files s !! id) -> continues id row s row s' [].
Proof. intros E. split; [done..|]. unfold content. by rewrite E, app_nil_r. Qed.

Lemma take_appended (l d : bytes) (n : N) : take (N.to_nat n) (take (N.to_nat n) l ++ d) = take (N.to_nat n) l \/ byte_len l < n.
Proof.
  destruct (N.lt_ge_cases (byte_len l) n) as [?|Hn]; [by right|left]. unfold byte_len in Hn.
  rewrite take_app_le, take_take, Nat.min_id; [done|]. rewrite length_take. lia.
Qed.

Lemma append_continues o id' off d t s row0 id row row' u :
  sessions_ok s -> append_admits o id' off d t s row0 ->
  ut_sessions (st_db s) !! id = Some row -> unfinished_upload (us_state row) = true ->
  (us_committed_offset row' = us_committed_offset row /\ us_owner_id row' = us_owner_id row
   /\ us_expected_digest row' = us_expected_digest row /\ us_expected_size_bytes row' = us_expected_size_bytes row) ->
  continues id row s row' (with_db (with_files s (<[id' := appended id' off d s]> (st_files s))) u) [].
Proof.
  intros Hs [Hrow0 _ _ _ Hoff _] Hrow Hopen (Ec & Eo & Ed & En). split; [done..|]. unfold content. cbn.
  rewrite Ec, app_nil_r. destruct (decide (id' = id)) as [->|Hne]; [|by rewrite lookup_insert_ne].
  rewrite lookup_insert_eq. rewrite Hrow in Hrow0. injection Hrow0 as ->. rewrite Hoff. unfold appended. cbn.
  destruct (take_appended (file_bytes (st_files s !! id)) d (us_committed_offset row0)) as [E|E]; [done|].
  destruct (ss_rows _ Hs _ _ Hrow) as [_ _ _ _ Rf]. specialize (Rf Hopen). lia.
Qed.

Lemma alter_alter {V} (f g : V -> V) (id : string) (m : gmap string V) :
  alter f id (alter g id m) = alter (f ∘ g) id m.
Proof.
  apply map_eq. intros k. destruct (decide (k = id)) as [->|Hne]; [|by rewrite !lookup_alter_ne].
  rewrite !lookup_alter_eq. by destruct (m !! id).
Qed.

Lemma finalize_continues o id' t s a id row row' :
  sessions_ok s -> uploading id row (s, a) -> uploading id row' (finalize o id' t s a).1 ->
  continues id row s row' (finalize o id' t s a).1.1 [].
Proof.
  intros Hs [Hrow Hopen] [Hrow' Hopen']. pose proof (finalize_cases o id' t s a) as Hc.
  destruct (finalize o id' t s a) as [[s' a'] r]. cbn in *.
  destruct Hc as [(-> & -> & _)|(row0 & Hf & Hc)].
  { rewrite Hrow in Hrow'. injection Hrow' as <-. by apply continues_same. }
  assert (forall f s1, ut_sessions (st_db s1) = alter f id' (ut_sessions (st_db s)) ->
    file_bytes (st_files s1 !! id) = file_bytes (st_files s !! id) ->
    (forall r, us_committed_offset (f r) = us_committed_offset r /\ us_owner_id (f r) = us_owner_id r
      /\ us_expected_digest (f r) = us_expected_digest r /\ us_expected_size_bytes (f r) = us_expected_size_bytes r) ->
    ut_sessions (st_db s1) !! id = Some row' -> continues id row s row' s1 []) as Hmark.
  { intros f s1 E1 E2 Hf1 E3. rewrite E1 in E3. destruct (decide (id' = id)) as [->|Hne].
    - rewrite lookup_alter_eq, Hrow in E3. injection E3 as <-. destruct (Hf1 row) as (Ec & Eo & Ed & En).
      split; [done..|]. unfold content. by rewrite Ec, E2, app_nil_r.
    - rewrite lookup_alter_ne, Hrow in E3 by done. injection E3 as <-. by apply continues_same. }
  destruct Hc as [(-> & -> & _)|(data & _ & Hc)]; [by apply (Hmark (started t))|].
  destruct (artifact_ingest data (request_of row0) a) as [a1 ing].
  destruct Hc as [-> [[[->| ->] _]|(res & u & -> & _ & Hu & ->)]].
  - by apply (Hmark (started t)).
  - apply (Hmark (failed t ∘ started t)); [|done|done|done]. cbn. by rewrite alter_alter.
  - unfold record_completed_artifact in Hu. apply result_bind_Ok in Hu as (u0 & Hu & Hx).
    apply guard_bind_Ok in Hx as [_ [= ->]]. apply record_artifact_Ok in Hu as (_ & _ & Es & _).
    destruct (decide (id' = id)) as [->|Hne].
    + cbn in Hrow'. rewrite lookup_alter_eq, Es in Hrow'. cbn in Hrow'. rewrite lookup_alter_eq, Hrow in Hrow'.
      injection Hrow' as <-. done.
    + apply (Hmark (completed t (ai_digest (ir_artifact res)) ∘ started t)); [| |done|done].
      * cbn. rewrite Es. cbn. apply alter_alter.
      * cbn. by rewrite lookup_delete_ne.
Qed.

Lemma run_upload_continues op w id row row' :
  stable w -> uploading id row w -> uploading id row' (run_upload op w) ->
  continues id row w.1 row' (run_upload op w).1 (accepted id op w).
Proof.
  destruct w as [s a]. intros Hok Hup Hup'. pose proof (stable_sessions _ Hok) as Hs. cbn [fst] in Hs.
  pose proof Hup as [Hrow Hopen]. pose proof Hup' as [Hrow' Hopen']. cbn [fst] in Hrow.
  assert (forall s', st_files s' = st_files s -> ut_sessions (st_db s') !! id = Some row ->
    ut_sessions (st_db s') !! id = Some row' -> continues id row s row' s' []) as Hsame.
  { intros s' E1 E2 E3. rewrite E2 in E3. injection E3 as <-. apply continues_same. by rewrite E1. }
  destruct op as [r|o' id' off d t|o' id' off d t n|o' id' t|t|seed|o' x t|r|o' k' t|o' d|d|scan t n];
    cbn [run_upload accepted fst] in *.
  - revert Hrow'. unfold begin. destruct (validate_begin _ _); [|by apply Hsame].
    destruct (session_by_key _ _ _) as [x|]; [case_match; by apply Hsame|].
    destruct (reserve_quota _ _ _) as [[]|e]; [|by apply Hsame].
    destruct (next_upload_id _ _ _) as [c [id'|e]] eqn:Ei; cbn; [|intros Hrow'; by apply Hsame].
    destruct (new_session r) as [row0|e] eqn:En; cbn; [|intros Hrow'; by apply Hsame].
    apply next_upload_id_Ok, fmap_None in Ei. cbn in Ei. intros Hrow'. apply Hsame; [done| |done]. cbn.
    rewrite lookup_insert_ne; [done|]. intros ->. congruence.
  - pose proof (upload_append_cases o' id' off d t s Hs) as Hc. destruct (upload_append o' id' off d t s) as [s' r] eqn:Ea.
    cbn [snd is_ok fst] in *. destruct Hc as [[-> Hr]|(row0 & Ha & [[-> ->]|[Hr ->]])].
    + rewrite Hr, andb_false_r. by apply Hsame.
    + cbn [is_ok]. rewrite andb_true_r. case_bool_decide as E.
      * subst id'. pose proof (appended_len _ _ _ _ _ _ _ Hs Ha) as Hlen. destruct Ha as [Hrow0 _ _ _ Hoff _].
        cbn in Hrow'. rewrite lookup_alter_eq, Hrow in Hrow'. injection Hrow' as <-. split; [done..|].
        unfold content. cbn. rewrite lookup_insert_eq. rewrite Hrow in Hrow0. injection Hrow0 as ->. cbn.
        rewrite <-Hlen. unfold byte_len. rewrite Nat2N.id, firstn_all. unfold appended. by rewrite Hoff.
      * cbn in Hrow'. rewrite lookup_alter_ne, Hrow in Hrow' by done. injection Hrow' as <-.
        by apply (append_continues o' id' off d t s row0).
    + rewrite Hr, andb_false_r. cbn in Hrow'. rewrite Hrow in Hrow'. injection Hrow' as <-.
      by apply (append_continues o' id' off d t s row0 _ _ _ (st_db s)).
  - pose proof (upload_append_cases o' id' off d t s Hs) as Hc. destruct (upload_append o' id' off d t s) as [s' [r|e]].
    2: { apply Hsame; [by destruct s|done|done]. }
    destruct Hc as [[_ ?]|(row0 & Ha & _)]; [done|]. cbn [fst snd] in *.
    cbn in Hrow'. rewrite Hrow in Hrow'. injection Hrow' as <-.
    assert (append_admits o' id' off (take n d) t s row0) as Hak.
    { destruct Ha as [? ? ? ? ? Hsz]. split; try done. pose proof (byte_len_take_le n d). lia. }
    unfold append_file. cbn zeta. destruct (_ <? _) eqn:El.
    { destruct Ha as [Hrow0 _ Hst _ -> _]. destruct (ss_rows _ Hs _ _ Hrow0) as [_ _ _ _ Rf].
      rewrite Hst in Rf. specialize (Rf eq_refl). apply N.ltb_lt in El. lia. }
    by apply (append_continues o' id' off (take n d) t s row0 _ _ _ (st_db s)).
  - by apply (finalize_continues o' id' t s a).
  - pose proof (prune_expired_cases t s) as Hc. destruct (prune_expired t s) as [s' x]. cbn [fst] in *.
    destruct Hc as [->| ->]; [by apply Hsame|]. cbn in Hrow'. rewrite lookup_foldr_delete' in Hrow'.
    case_bool_decide as Hin; [done|]. rewrite Hrow in Hrow'. injection Hrow' as <-. apply continues_same. cbn.
    by rewrite lookup_foldr_delete', bool_decide_false.
  - unfold reopen in *. cbn in Hrow'. rewrite Hrow in Hrow'. injection Hrow' as <-. apply continues_same. cbn.
    rewrite lookup_foldr_delete', bool_decide_false; [done|].
    intros ([id' row'] & -> & [Hst Hin]%list_elem_of_filter)%list_elem_of_fmap. apply elem_of_map_to_list in Hin. cbn in *.
    rewrite Hrow in Hin. injection Hin as <-. by rewrite Hst in Hopen.
  - revert Hrow'. apply (transact_keeps (fun s' => ut_sessions (st_db s') !! id = Some row' -> continues id row s row' s' []));
      [by apply Hsame|]. intros v u Hu. apply Hsame; [done|]. cbn.
    unfold record_local_artifact in Hu. apply guard_bind_Ok in Hu as [_ Hu]. apply result_bind_Ok in Hu as (? & _ & Hu).
    apply result_bind_Ok in Hu as (u1 & Hu & [= _ <-]). by apply record_artifact_Ok in Hu as (_ & _ & -> & _).
  - revert Hrow'. apply (transact_keeps (fun s' => ut_sessions (st_db s') !! id = Some row' -> continues id row s row' s' []));
      [by apply Hsame|]. intros v u Hu. apply Hsame; [done|]. cbn.
    apply grant_reference_Ok in Hu as [->|Hu]; [done|].
    by destruct Hu as (Hk & _ & _ & _ & _ & _ & _ & m & _ & [[_ ->]|(_ & _ & _ & ->)]).
  - revert Hrow'. apply (transact_keeps (fun s' => ut_sessions (st_db s') !! id = Some row' -> continues id row s row' s' []));
      [by apply Hsame|]. intros v u Hu. apply Hsame; [done|]. cbn.
    by apply revoke_reference_Ok in Hu as (r & _ & [[_ ->]|(_ & _ & _ & _ & _ & owners & -> & _)]).
  - revert Hrow'. unfold open_referenced_artifact. repeat case_match; by apply Hsame.
  - revert Hrow'. unfold drop_reader. case_match; by apply Hsame.
  - revert Hrow'. pose proof (collect_garbage_keeps
      (fun s1 _ => st_files s1 = st_files s /\ ut_sessions (st_db s1) = ut_sessions (st_db s)) scan t n s a) as Hg.
    destruct (collect_garbage scan t n s a) as [[s' a'] x]. cbn.
    destruct Hg as [E1 E2]; [done|intros d s1 a1 a2 b [E1 E2] _ _ _; done|done|done|].
    apply Hsame; [done|by rewrite E2].
Qed.

(** The upload is in progress at every step. *)
Fixpoint in_progress (id : string) (ops : list UploadOp) (w : UploadSystem (A:=A)) : Prop :=
  (exists row, uploading id row w) /\
  match ops with [] => True | op :: ops => in_progress id ops (run_upload op w) end.

Fixpoint all_accepted (id : string) (ops : list UploadOp) (w : UploadSystem (A:=A)) : bytes :=
  match ops with [] => [] | op :: ops => accepted id op w ++ all_accepted id ops (run_upload op w) end.

Lemma run_uploads_continues ops w id row :
  stable w -> uploading id row w -> all_sourced ops w -> in_progress id ops w ->
  exists row', uploading id row' (run_uploads ops w)
    /\ continues id row w.1 row' (run_uploads ops w).1 (all_accepted id ops w).
Proof.
  revert w row. induction ops as [|op ops IH]; intros w row Hok Hup Hsrc Hin.
  - exists row. split; [done|]. by apply continues_same.
  - destruct Hsrc as [Hs1 Hs2], Hin as [_ Hin]. pose proof Hin as Hin'.
    assert (exists row1, uploading id row1 (run_upload op w)) as [row1 Hup1] by (destruct ops; apply Hin').
    destruct (run_upload_continues op w id row row1 Hok Hup Hup1) as [E1 E2 E3 E4].
    destruct (IH _ _ (run_upload_stable _ _ Hok Hs1) Hup1 Hs2 Hin) as (row2 & Hup2 & [F1 F2 F3 F4]).
    exists row2. split; [done|]. split; [congruence|congruence|congruence|].
    etrans; [exact F4|]. cbn [all_accepted]. by rewrite E4, app_assoc.
Qed.

Lemma begin_new r s s' x :
  begin r s = (s', Ok x) -> session_by_key (bu_owner_id r) (bu_upload_key r) (st_db s) = None ->
  exists row, ut_sessions (st_db s') !! up_upload_id x = Some row /\ us_state row = UploadOpen
    /\ us_committed_offset row = 0 /\ us_expected_digest row = bu_expected_digest r
    /\ us_expected_size_bytes row = bu_expected_size_bytes r.
Proof.
  unfold begin. intros H Hk. rewrite Hk in H. destruct (validate_begin _ _); [|done]. destruct (reserve_quota _ _ _); [|done].
  destruct (next_upload_id _ _ _) as [c [id|e]]; cbn in H; [|done].
  destruct (new_session r) as [row|e] eqn:En; cbn in H; [|done]. injection H as <- <-. exists row.
  unfold new_session in En. apply result_bind_Ok in En as (size & [_ ->]%upload_i64_Ok & En).
  apply result_bind_Ok in En as (now & _ & En). apply result_bind_Ok in En as (ex & _ & [= <-]).
  cbn. by rewrite lookup_insert_eq.
Qed.

Lemma finalize_delivers o id t s a row s' a' x :
  sessions_ok s -> uploading id row (s, a) -> finalize o id t s a = (s', a', Ok x) ->
  let data := content id row s in
  digest_bytes data = us_expected_digest row /\ byte_len data = us_expected_size_bytes row
  /\ x = MkArtifactIdentity (us_expected_digest row) (us_expected_size_bytes row)
  /\ artifact_open (ai_digest x) a' = Ok (MkReader x data).
Proof.
  intros Hs [Hrow Hopen] Hf. pose proof (finalize_cases o id t s a) as Hc. rewrite Hf in Hc. cbn [fst] in Hrow.
  destruct Hc as [(_ & _ & Hc)|(row0 & [Hrow0 _ _ _ _ Hfull] & Hc)].
  { destruct (Hc x eq_refl) as (row0 & d & Hrow0 & _ & Hst & _). rewrite Hrow in Hrow0. injection Hrow0 as <-.
    by rewrite Hst in Hopen. }
  rewrite Hrow in Hrow0. injection Hrow0 as <-.
  destruct Hc as [(_ & _ & ?)|(data & Hdata & Hc)]; [done|].
  pose proof (ingest_Ok data (request_of row) a) as Hi. pose proof (ingest_size data (request_of row) a) as Hn.
  destruct (artifact_ingest data (request_of row) a) as [a1 ing]. cbn in Hi, Hn.
  destruct Hc as [-> [[_ ?]|(res & u & -> & [= ->] & _ & _)]]; [done|].
  destruct (Hi _ eq_refl) as (Hid & Hd & Ho). specialize (Hd _ eq_refl). specialize (Hn _ _ eq_refl eq_refl).
  assert (content id row s = data) as ->.
  { destruct (ss_rows _ Hs _ _ Hrow) as [_ _ _ _ Rf]. specialize (Rf Hopen). unfold content, staged in *. cbn in Hdata.
    destruct (st_files s !! id) as [file|]; cbn in *.
    - injection Hdata as ->. rewrite Hfull, Hn. unfold byte_len. by rewrite Nat2N.id, firstn_all.
    - destruct (us_expected_size_bytes row =? 0) eqn:E; [|done]. injection Hdata as <-. by rewrite take_nil. }
  rewrite Hid in Ho |- *. cbn. rewrite Hd, Hn. by split_and!.
Qed.

(** C30: an upload stores what was sent.  Whatever other calls, crashes in
    the middle of an append and restarts happen while it is in progress,
    a finalization that succeeds has stored exactly the chunks whose
    appends were acknowledged, in their order: their digest and size are
    those the upload was begun with, and the object store yields them. *)
Theorem finished_upload_is_what_was_acknowledged (max chunk : N) (q : UploadQuotas) (seed : N) (s0 s1 : UploadStore)
    (a0 : A) (before ops : list UploadOp) (r : BeginUpload) (session : UploadSession) (o : string) (t : N)
    (s' : UploadStore) (a' : A) (x : ArtifactIdentity) :
  open_uploads max chunk q seed = Ok s0 -> all_sourced before (s0, a0) ->
  let '(s, a) := run_uploads before (s0, a0) in
  session_by_key (bu_owner_id r) (bu_upload_key r) (st_db s) = None ->
  begin r s = (s1, Ok session) ->
  all_sourced ops (s1, a) -> in_progress (up_upload_id session) ops (s1, a) ->
  let '(s2, a2) := run_uploads ops (s1, a) in
  finalize o (up_upload_id session) t s2 a2 = (s', a', Ok x) ->
  let data := all_accepted (up_upload_id session) ops (s1, a) in
  digest_bytes data = bu_expected_digest r /\ byte_len data = bu_expected_size_bytes r
  /\ x = MkArtifactIdentity (bu_expected_digest r) (bu_expected_size_bytes r)
  /\ artifact_open (ai_digest x) a' = Ok (MkReader x data).
Proof.
  intros Hopen Hsrc0. pose proof (run_uploads_stable _ _ (open_uploads_stable _ _ _ _ _ a0 Hopen) Hsrc0) as Hok0.
  destruct (run_uploads before (s0, a0)) as [s a]. intros Hk Hb Hsrc Hin.
  assert (stable (s1, a)) as Hok1.
  { pose proof (run_upload_stable (UpBegin r) (s, a) Hok0 I) as H1. cbn in H1. by rewrite Hb in H1. }
  destruct (begin_new _ _ _ _ Hb Hk) as (row & Hrow & Hst & Hc & Hd & Hn).
  assert (uploading (up_upload_id session) row (s1, a)) as Hup by (split; [done|by rewrite Hst]).
  destruct (run_uploads_continues ops _ _ _ Hok1 Hup Hsrc Hin) as (row' & Hup' & [E1 E2 E3 E4]).
  pose proof (run_uploads_stable _ _ Hok1 Hsrc) as Hok2.
  destruct (run_uploads ops (s1, a)) as [s2 a2] eqn:Er. intros Hf.
  pose proof (finalize_delivers _ _ _ _ _ _ _ _ _ (stable_sessions _ Hok2) Hup' Hf) as H. cbn [fst] in *.
  rewrite E4, E2, E3, Hd, Hn in H. unfold content in H at 1 2 3. rewrite Hc in H. exact H.
Qed.

(** ** Authorization *)

(** The keys the store makes itself are not granted, and a controller's
    reference is not revoked. *)
Definition upload_key_of (id : string) : string := "upload:" +:+ id.

Definition regular (op : UploadOp) : Prop :=
  match op with
  | UpGrant r => (forall id, gr_reference_key r <> upload_key_of id) /\ (forall d, gr_reference_key r <> controller_key d)
  | UpRevoke _ k _ => forall d, k <> controller_key d
  | _ => True
  end.

(** Where the rows of owners and the store's own references come from. *)
Record access_ok (u : Uploads) : Prop := {
  ac_owner : forall o d n, ut_owners u !! (o, d) = Some n ->
    exists k r, ut_references u !! (o, k) = Some r /\ af_digest r = d /\ active r = true;
  ac_upload : forall o id r, ut_references u !! (o, upload_key_of id) = Some r ->
    exists row, ut_sessions u !! id = Some row /\ us_state row = UploadCompleted;
  ac_controller : forall o d r, ut_references u !! (o, controller_key d) = Some r -> af_digest r = d /\ active r = true;
}.

Lemma upload_key_inj id id' : upload_key_of id = upload_key_of id' -> id = id'.
Proof. apply string_app_inj_l. Qed.

Lemma controller_key_inj d d' : controller_key d = controller_key d' -> d = d'.
Proof. intros E%string_app_inj_l. by apply (inj digest_display). Qed.

Lemma upload_not_controller id d : upload_key_of id <> controller_key d.
Proof. unfold upload_key_of, controller_key. intros E. cbn in E. discriminate E. Qed.

Lemma access_sessions u ss :
  (forall id row, ut_sessions u !! id = Some row -> us_state row = UploadCompleted ->
     exists row', ss !! id = Some row' /\ us_state row' = UploadCompleted) ->
  access_ok u -> access_ok (set_sessions u ss).
Proof.
  intros Hss [H1 H2 H3]. split; cbn; [done| |done]. intros o id r (row & Hrow & Hst)%H2. by apply (Hss id row).
Qed.

Lemma access_update u id f row :
  ut_sessions u !! id = Some row -> us_state row <> UploadCompleted -> access_ok u -> access_ok (update_session id f u).
Proof.
  intros Hrow Hst. apply access_sessions. intros id' row' Hr' Hst'. exists row'. split; [|done].
  rewrite lookup_alter_ne; [done|]. intros ->. congruence.
Qed.

(** The rows of an artifact recorded under a key of its own. *)
Lemma access_record o k p kind x t u u' :
  record_artifact o k p kind x t u = Ok u' ->
  (forall r, ut_references u !! (o, k) = Some r -> af_digest r = ai_digest x /\ active r = true) ->
  (forall o' d n, ut_owners u !! (o', d) = Some n ->
     exists k r, ut_references u !! (o', k) = Some r /\ af_digest r = d /\ active r = true) ->
  forall o' d n, ut_owners u' !! (o', d) = Some n ->
     exists k r, ut_references u' !! (o', k) = Some r /\ af_digest r = d /\ active r = true.
Proof.
  intros (_ & _ & _ & _ & _ & _ & Er & Ew)%record_artifact_Ok Hkey Hall o' d n. rewrite Ew, Er.
  intros [H|(E & _ & _)]%insert_or_ignore_new.
  - destruct (Hall _ _ _ H) as (k' & r & Hr & Hd & Ha). exists k', r. split; [|done]. by apply insert_or_ignore_keeps.
  - injection E as -> ->. exists k. rewrite lookup_insert_or_ignore, bool_decide_true by done. eexists. split; [done|].
    destruct (ut_references u !! (o, k)) as [r|] eqn:Ek; cbn; [by apply Hkey|done].
Qed.

Lemma finalize_access o id t s a : access_ok (st_db s) -> access_ok (st_db (finalize o id t s a).1.1).
Proof.
  intros Hac. pose proof (finalize_cases o id t s a) as Hc. destruct (finalize o id t s a) as [[s' a'] r]. cbn in *.
  destruct Hc as [(-> & -> & _)|(row & [Hrow Ho Hopen _ _ _] & Hc)]; [done|].
  assert (us_state row <> UploadCompleted) as Hst by (intros E; by rewrite E in Hopen).
  pose proof (access_update _ id (started t) row Hrow Hst Hac) as Hac1.
  pose proof (lookup_marked id (started t) s row Hrow) as Hrow1. cbn in Hrow1.
  destruct Hc as [(-> & _)|(data & _ & Hc)]; [exact Hac1|].
  destruct (artifact_ingest _ _ a) as [a1 ing].
  destruct Hc as [_ [[[->| ->] _]|(res & u & _ & _ & Hu & ->)]]; [exact Hac1| |].
  { by apply (access_update _ id (failed t) (started t row)). }
  unfold record_completed_artifact in Hu. apply result_bind_Ok in Hu as (u0 & Hu & Hx).
  apply guard_bind_Ok in Hx as [_ [= ->]]. cbn. pose proof (record_artifact_Ok _ _ _ _ _ _ _ _ Hu) as (_ & _ & Es & _ & _ & _ & Er & _).
  cbn in Es, Er. destruct Hac1 as [H1 H2 H3]. cbn in H1, H2, H3. split; cbn.
  - apply (access_record _ _ _ _ _ _ _ _ Hu); [|exact H1]. cbn. intros r0 (row' & Hrow' & Hst')%(H2 o id).
    rewrite Hrow1 in Hrow'. by injection Hrow' as <-.
  - intros o' id' r0. rewrite Er, Es. intros [H|([-> E]%pair_eq & _ & _)]%insert_or_ignore_new.
    + destruct (H2 _ _ _ H) as (row' & Hrow' & Hst'). destruct (decide (id' = id)) as [->|Hne].
      * rewrite Hrow1 in Hrow'. by injection Hrow' as <-.
      * exists row'. by rewrite lookup_alter_ne.
    + apply upload_key_inj in E as ->. rewrite lookup_alter_eq, Hrow1. cbn. by eexists.
  - intros o' d r0. rewrite Er. intros [H|([-> E]%pair_eq & _ & _)]%insert_or_ignore_new; [by apply (H3 o')|].
    by destruct (upload_not_controller id d).
Qed.

Lemma local_access o x t q s v u :
  record_local_artifact o x t q (st_db s) = Ok (v, u) -> access_ok (st_db s) -> access_ok u.
Proof.
  unfold record_local_artifact. intros [_ Hu]%guard_bind_Ok [H1 H2 H3].
  apply result_bind_Ok in Hu as (? & _ & Hu). apply result_bind_Ok in Hu as (u1 & Hu & [= _ <-]).
  pose proof (record_artifact_Ok _ _ _ _ _ _ _ _ Hu) as (_ & _ & Es & _ & _ & _ & Er & _). split.
  - apply (access_record _ _ _ _ _ _ _ _ Hu); [|exact H1]. intros r. apply H3.
  - intros o' id r. rewrite Er, Es. intros [H|([-> E]%pair_eq & _ & _)]%insert_or_ignore_new; [by eapply H2|].
    by destruct (upload_not_controller id (ai_digest x)).
  - intros o' d r. rewrite Er. intros [H|([-> E]%pair_eq & -> & _)]%insert_or_ignore_new; [by apply (H3 o')|].
    by apply controller_key_inj in E as ->.
Qed.

Lemma grant_access q r u x u' :
  grant_reference q r u = Ok (x, u') -> regular (UpGrant r) -> access_ok u -> access_ok u'.
Proof.
  intros [->|H]%grant_reference_Ok [R1 R2] [H1 H2 H3]; [done|]. cbn zeta in H.
  destruct H as (Hk & _ & Eo & Ekey & Ed & Ha & _ & n & _ & Hc).
  assert (forall o d, (exists k r0, ut_references u !! (o, k) = Some r0 /\ af_digest r0 = d /\ active r0 = true) ->
    exists k r0, <[(gr_owner_id r, gr_reference_key r) := x]> (ut_references u) !! (o, k) = Some r0
                 /\ af_digest r0 = d /\ active r0 = true) as Hkeep.
  { intros o d (k & r0 & Hr & Hd). exists k, r0. split; [|done]. rewrite lookup_insert_ne; [done|]. congruence. }
  assert (forall o id r0, <[(gr_owner_id r, gr_reference_key r) := x]> (ut_references u) !! (o, upload_key_of id) = Some r0 ->
    ut_references u !! (o, upload_key_of id) = Some r0) as Hup.
  { intros o id r0 [[[_ E]%pair_eq _]|[_ H]]%lookup_insert_Some; [|done]. by destruct (R1 id). }
  assert (forall o d r0, <[(gr_owner_id r, gr_reference_key r) := x]> (ut_references u) !! (o, controller_key d) = Some r0 ->
    ut_references u !! (o, controller_key d) = Some r0) as Hco.
  { intros o d r0 [[[_ E]%pair_eq _]|[_ H]]%lookup_insert_Some; [|done]. by destruct (R2 d). }
  destruct Hc as [[_ ->]|(_ & Hno & _ & ->)]; (split; cbn; [|intros o id r0 H%Hup; by eapply H2|intros o d r0 H%Hco; by apply (H3 o)]).
  - intros o d m H. by eapply Hkeep, H1.
  - intros o d m [[[= <- <-] _]|[_ H]]%lookup_insert_Some; [|by eapply Hkeep, H1].
    exists (gr_reference_key r), x. by rewrite lookup_insert_eq.
Qed.

Lemma revoke_access o k t u x u' :
  revoke_reference o k t u = Ok (x, u') -> regular (UpRevoke o k t) -> access_ok u -> access_ok u'.
Proof.
  intros (r & Hr & Hc)%revoke_reference_Ok Hreg [H1 H2 H3].
  destruct Hc as [[_ ->]|(Ha & Ed & Hx & Eo & Ek & owners & -> & Hc)]; [done|]. split; cbn.
  - intros o' d n Hn.
    assert (ut_owners u !! (o', d) = Some n /\ ((o', d) = (o, af_digest r) ->
      exists k' r', k' <> k /\ ut_references u !! (o, k') = Some r' /\ af_digest r' = af_digest r /\ active r' = true))
      as [Hn' Hother].
    { destruct Hc as [[-> Hw]|[-> _]]; [done|]. by apply lookup_delete_Some in Hn as [Hne Hn]. }
    destruct (decide ((o', d) = (o, af_digest r))) as [E|Hne].
    + destruct (Hother E) as (k' & r' & Hk' & Hr' & Hd' & Ha'). injection E as -> ->. exists k', r'.
      by rewrite lookup_insert_ne by congruence.
    + destruct (H1 _ _ _ Hn') as (k' & r' & Hr' & Hd' & Ha'). exists k', r'. rewrite lookup_insert_ne; [done|].
      intros [= <- <-]. rewrite Hr in Hr'. injection Hr' as <-. by destruct Hne; subst.
  - intros o' id r0 [[[<- ->]%pair_eq _]|[_ H]]%lookup_insert_Some; by eapply H2.
  - intros o' d r0 [[[<- E]%pair_eq _]|[_ H]]%lookup_insert_Some; [by destruct (Hreg d)|by apply (H3 o')].
Qed.

Lemma run_upload_access op w :
  access_ok (st_db w.1) -> sessions_ok w.1 -> regular op -> access_ok (st_db (run_upload op w).1).
Proof.
  destruct w as [s a]. intros Hac Hs Hreg. cbn [fst] in *.
  assert (forall u, ut_owners u = ut_owners (st_db s) -> ut_references u = ut_references (st_db s) ->
    ut_sessions u = ut_sessions (st_db s) -> access_ok u) as Hframe.
  { intros u E1 E2 E3. destruct Hac as [H1 H2 H3]. split; rewrite ?E1, ?E2, ?E3; done. }
  destruct op as [r|o id off d t|o id off d t n|o id t|t|seed|o x t|r|o k t|o d|d|scan t n]; cbn [run_upload fst].
  - unfold begin. destruct (validate_begin _ _); [|done]. destruct (session_by_key _ _ _) as [x|]; [by case_match|].
    destruct (reserve_quota _ _ _); [|done]. destruct (next_upload_id _ _ _) as [c [id|e]] eqn:Ei; cbn; [|done].
    destruct (new_session r) as [row|e]; cbn; [|done]. apply next_upload_id_Ok, fmap_None in Ei. cbn in Ei.
    destruct Hac as [H1 H2 H3]. split; cbn; [done| |done]. intros o id' r0 (row' & Hrow' & Hst)%H2.
    exists row'. rewrite lookup_insert_ne; [done|]. congruence.
  - pose proof (upload_append_cases o id off d t s Hs) as Hc. destruct (upload_append o id off d t s) as [s' r].
    destruct Hc as [[-> _]|(row & [Hrow _ Hst _ _ _] & [[_ ->]|[_ ->]])]; [done| |done].
    apply (access_update _ _ _ row); [done|by rewrite Hst|done].
  - done.
  - by apply finalize_access.
  - pose proof (prune_expired_cases t s) as Hc. destruct (prune_expired t s) as [s' x]. destruct Hc as [->| ->]; [done|].
    cbn. apply access_sessions; [|done]. intros id row Hrow Hst. exists row. split; [|done].
    rewrite lookup_foldr_delete', bool_decide_false; [done|].
    intros (row' & Hrow' & Hst' & _)%elem_of_expired. congruence.
  - done.
  - apply (transact_keeps (fun s' => access_ok (st_db s'))); [done|]. intros v u Hu. by eapply local_access.
  - apply (transact_keeps (fun s' => access_ok (st_db s'))); [done|]. intros v u Hu. by eapply grant_access.
  - apply (transact_keeps (fun s' => access_ok (st_db s'))); [done|]. intros v u Hu. by eapply revoke_access.
  - unfold open_referenced_artifact. by repeat case_match.
  - unfold drop_reader. by case_match.
  - pose proof (collect_garbage_keeps (fun s _ => access_ok (st_db s)) scan t n s a) as Hg.
    destruct (collect_garbage scan t n s a) as [[s' a'] x]. apply Hg; [| |done|done].
    + intros p s1 _ [H1 H2 H3]. by split.
    + intros d s1 _ _ _ [H1 H2 H3] _ _ _. split; cbn; [|done|done].
      intros o d' m [Hm _]%map_lookup_filter_Some. by eapply H1.
Qed.

Lemma run_uploads_access ops w :
  stable w -> access_ok (st_db w.1) -> all_sourced ops w -> Forall regular ops ->
  access_ok (st_db (run_uploads ops w).1).
Proof.
  revert w. induction ops as [|op ops IH]; intros w Hok Hac Hsrc Hreg; [done|].
  destruct Hsrc as [H1 H2]. inversion_clear Hreg as [|? ? R1 R2]. apply IH; [by apply run_upload_stable| |done|done].
  by apply run_upload_access; [|by apply stable_sessions|].
Qed.

(** When nobody grants under the keys the store makes itself and the
    controller's references are not revoked, an owner can read an artifact
    exactly when the owner has an active reference to it. *)
Theorem reading_needs_an_active_reference (max chunk : N) (q : UploadQuotas) (seed : N) (s : UploadStore) (a : A)
    (ops : list UploadOp) (o : string) (d : Sha256Digest) :
  open_uploads max chunk q seed = Ok s -> all_sourced ops (s, a) -> Forall regular ops ->
  let u := st_db (run_uploads ops (s, a)).1 in
  can_read_artifact o d u = true <-> has_active_owner_reference o d u = true.
Proof.
  intros Hs Hsrc Hreg. pose proof (open_uploads_stable _ _ _ _ _ a Hs) as Hok.
  assert (access_ok (st_db s)) as Hac by (apply open_uploads_Ok in Hs as [-> _]; by split).
  pose proof (run_uploads_access _ _ Hok Hac Hsrc Hreg) as Hac'. pose proof (run_uploads_stable _ _ Hok Hsrc) as Hok'.
  unfold can_read_artifact, has_active_owner_reference. cbn zeta. rewrite bool_decide_eq_true, existsb_map. split.
  - intros [n Hn]. destruct (ac_owner _ Hac' _ _ _ Hn) as (k & r & Hr & Hd & Ha). exists (o, k), r. split; [done|].
    cbn. by rewrite !bool_decide_true, Ha.
  - intros ([o' k] & r & Hr & Hc). cbn in Hc. apply andb_true_iff in Hc as [Hc Ha]. apply andb_true_iff in Hc as [Ho Hd].
    apply bool_decide_eq_true in Ho as ->. apply bool_decide_eq_true in Hd as <-.
    by apply (lk_active _ (stable_ledger _ Hok') _ _ _ Hr Ha).
Qed.

End system.

(** ** A concrete run *)

Section sample.

#[local] Instance sample_sha : Sha256 := fun data => from_bytes data.

Definition sample_store : UploadStore := MkUploadStore uploads_empty ∅ ∅ 100 10 (MkQuotas 50 40) 0.
Definition sample_objects : InMemoryArtifactStore := MkMemory ∅ 100.
Definition sample_bytes : bytes := [Byte.x01; Byte.x02; Byte.x03].
Definition sample_digest : Sha256Digest := from_bytes sample_bytes.

Definition sample_begin : BeginUpload := MkBegin "worker" "log" sample_digest 3 "text/plain" 10 1000.

(** Two chunks, with a crash and a restart between them. *)
Definition sample_appends : list (UploadOp) :=
  [UpAppend "worker" "upload-0" 0 [Byte.x01; Byte.x02] 20;
   UpCrashAppend "worker" "upload-0" 2 [Byte.x03] 25 1; UpReopen 7;
   UpAppend "worker" "upload-0" 2 [Byte.x03] 30].

Definition sample_upload : list UploadOp :=
  UpBegin sample_begin :: sample_appends ++ [UpFinalize "worker" "upload-0" 40].

(** Another owner's reference, and a collection after the upload's own
    reference is gone. *)
Definition sample_grant : UploadOp :=
  UpGrant (MkGrant "reviewer" "input" sample_digest RefAssignmentInput "assignment input" 45 None).

Definition sample_later : list UploadOp :=
  [UpRevoke "worker" "upload:upload-0" 50; UpRead "reviewer" sample_digest; UpCollect [sample_digest] 60 10;
   UpPrune 2000; UpCollect [sample_digest] 3000 10].

Lemma sample_open : open_uploads 100 10 (MkQuotas 50 40) 0 = Ok sample_store.
Proof. reflexivity. Qed.

Lemma sample_sourced : all_sourced (sample_upload ++ sample_grant :: sample_later) (sample_store, sample_objects).
Proof. cbv. repeat split. Qed.

(** A collection cut short between the removal and the commit: the object is
    counted and gone, the next collection forgets it, and it can be stored
    again. *)
Definition sample_torn : list StoreEvent :=
  (StoreCall <$> sample_upload)
  ++ [StoreCall (UpRevoke "worker" "upload:upload-0" 50); StoreCall (UpPrune 2000);
      StoreCrashCollect [sample_digest] 3000 10 0 true; StoreCall (UpReopen 8)].

Lemma sample_torn_sourced :
  events_sourced (sample_torn ++ [StoreCall (UpCollect [sample_digest] 4000 10)]) (sample_store, sample_objects).
Proof. cbv. repeat split. Qed.

Lemma uploads_invariant_witness :
  bool_decide (sample_digest ∈ (run_events sample_torn (sample_store, sample_objects) ∅).2) = true
  /\ let events := sample_torn ++ [StoreCall (UpCollect [sample_digest] 4000 10)] in
     size (run_events events (sample_store, sample_objects) ∅).2 = 0%nat
     /\ let '(w, lost) := run_events events (sample_store, sample_objects) ∅ in system_except lost w.
Proof.
  split; [vm_compute; reflexivity|]. split; [vm_compute; reflexivity|].
  apply (uploads_invariant _ _ _ _ _ _ _ sample_open sample_torn_sourced).
Defined.

(** Until then its mark keeps it from being granted; but an upload of it that
    is begun takes the mark away, and then an owner is granted a reference to
    an object that is gone. *)
Definition sample_again (between : list StoreEvent) : list StoreEvent :=
  sample_torn ++ between ++ [StoreCall (UpGrant
    (MkGrant "reviewer" "again" sample_digest RefAssignmentInput "assignment input" 3600 None))].

Example torn_object_is_not_granted :
  let '(w, _) := run_events (sample_again []) (sample_store, sample_objects) ∅ in
  reference_by_key "reviewer" "again" (st_db w.1) = None.
Proof. vm_compute. reflexivity. Qed.

Example torn_object_is_granted :
  let begun := StoreCall (UpBegin (MkBegin "worker" "log-2" sample_digest 3 "text/plain" 3500 4500)) in
  let '(w, _) := run_events (sample_again [begun]) (sample_store, sample_objects) ∅ in
  (active <$> reference_by_key "reviewer" "again" (st_db w.1)) = Some true
  /\ is_ok (open_referenced_artifact "reviewer" sample_digest w.1 w.2).2 = false.
Proof. vm_compute. split; reflexivity. Qed.

Lemma sample_scheduled :
  scheduled 0 (sample_upload ++ sample_grant :: sample_later) (sample_store, sample_objects) 4000.
Proof. cbn. repeat split; lia. Qed.

Lemma uploads_stay_within_quota_witness :
  let u := st_db (run_uploads (sample_upload ++ sample_grant :: sample_later) (sample_store, sample_objects)).1 in
  stored u = 3 /\ within (MkQuotas 50 40) 4000 u.
Proof.
  split; [vm_compute; reflexivity|].
  apply (uploads_stay_within_quota _ _ _ _ _ _ _ 0 4000 sample_open sample_sourced sample_scheduled).
Defined.

Definition sample_reached : list UploadOp := sample_upload ++ [sample_grant].

Definition sample_reference : ArtifactReference :=
  MkReference "reviewer" "input" sample_digest RefAssignmentInput "assignment input" 45 None None.

Lemma sample_reached_sourced : all_sourced (sample_reached ++ sample_later) (sample_store, sample_objects).
Proof. exact sample_sourced. Qed.

Lemma sample_later_keeps : Forall (fun op => forall t, op <> UpRevoke "reviewer" "input" t) sample_later.
Proof. repeat constructor; intros t; discriminate. Qed.

Lemma referenced_artifact_stays_readable_witness :
  let '(s', a') := run_uploads (sample_reached ++ sample_later) (sample_store, sample_objects) in
  exists reader, (open_referenced_artifact "reviewer" sample_digest s' a').2 = Ok reader.
Proof.
  destruct (referenced_artifact_stays_readable _ _ _ _ _ _ sample_reached sample_later "reviewer" "input" sample_reference
    sample_open sample_reached_sourced ltac:(vm_compute; reflexivity) eq_refl sample_later_keeps) as (reader & _ & H).
  destruct (run_uploads (sample_reached ++ sample_later) (sample_store, sample_objects)) as [s' a'].
  exists reader. exact H.
Defined.

(** The state after the begin of the upload. *)
Definition sample_begun : UploadStore := (begin sample_begin sample_store).1.
Definition sample_session : UploadSession :=
  MkUploadSession "upload-0" "worker" "log" sample_digest 3 "text/plain" 0 UploadOpen 1000 None.

Lemma sample_begin_Ok : begin sample_begin sample_store = (sample_begun, Ok sample_session).
Proof. vm_compute. reflexivity. Qed.

Lemma sample_in_progress : in_progress "upload-0" sample_appends (sample_begun, sample_objects).
Proof.
  unfold sample_appends. cbn [in_progress].
  repeat split; try (eexists; split; [vm_compute; reflexivity|reflexivity]).
Qed.

Lemma sample_appends_sourced : all_sourced sample_appends (sample_begun, sample_objects).
Proof. repeat split. Qed.

(** What the finalization then answers. *)
Definition sample_final : UploadStore * InMemoryArtifactStore * result UError ArtifactIdentity :=
  let w := run_uploads sample_appends (sample_begun, sample_objects) in finalize "worker" "upload-0" 40 w.1 w.2.

Lemma finished_upload_is_what_was_acknowledged_witness :
  sample_final.2 = Ok (MkArtifactIdentity sample_digest 3)
  /\ artifact_open sample_digest sample_final.1.2 = Ok (MkReader (MkArtifactIdentity sample_digest 3) sample_bytes).
Proof.
  split; [vm_compute; reflexivity|].
  assert (let w := run_uploads sample_appends (sample_begun, sample_objects) in
    finalize "worker" "upload-0" 40 w.1 w.2
    = (sample_final.1.1, sample_final.1.2, Ok (MkArtifactIdentity sample_digest 3))) as Hf by (vm_compute; reflexivity).
  assert (all_accepted "upload-0" sample_appends (sample_begun, sample_objects) = sample_bytes) as Ha
    by (vm_compute; reflexivity).
  pose proof (finished_upload_is_what_was_acknowledged 100 10 (MkQuotas 50 40) 0 sample_store sample_begun sample_objects
    [] sample_appends sample_begin sample_session "worker" 40 sample_final.1.1 sample_final.1.2
    (MkArtifactIdentity sample_digest 3) sample_open I
    eq_refl sample_begin_Ok sample_appends_sourced sample_in_progress) as H.
  cbn [up_upload_id sample_session] in H. rewrite Ha in H.
  destruct (run_uploads sample_appends (sample_begun, sample_objects)) as [s a].
  destruct (H Hf) as (_ & _ & _ & Ho). exact Ho.
Defined.

Lemma sample_regular : Forall regular (sample_upload ++ sample_grant :: sample_later).
Proof.
  repeat apply Forall_cons_2; try exact I; try apply Forall_nil_2.
  - split; intros x E; cbv in E; discriminate E.
  - intros d E. cbv in E. discriminate E.
Qed.

Lemma reading_needs_an_active_reference_witness :
  let u := st_db (run_uploads (sample_upload ++ sample_grant :: sample_later) (sample_store, sample_objects)).1 in
  can_read_artifact "reviewer" sample_digest u = true /\ has_active_owner_reference "reviewer" sample_digest u = true
  /\ can_read_artifact "worker" sample_digest u = false.
Proof.
  assert (can_read_artifact "reviewer" sample_digest
    (st_db (run_uploads (sample_upload ++ sample_grant :: sample_later) (sample_store, sample_objects)).1) = true) as H
    by (vm_compute; reflexivity).
  split; [exact H|]. split; [|vm_compute; reflexivity].
  apply (reading_needs_an_active_reference _ _ _ _ _ _ _ "reviewer" sample_digest sample_open sample_sourced sample_regular), H.
Defined.

(** An artifact recorded for a second owner counts against no quota of that
    owner. *)
Lemma second_local_owner_skips_quota :
  let x := MkArtifactIdentity sample_digest 3 in
  owned "b" <$> (u ← record_artifact "a" "k" "p" RefOther x 1 uploads_empty;
                 snd <$> record_local_artifact "b" x 1 (MkQuotas 5 2) u) = Ok 3.
Proof. vm_compute. reflexivity. Qed.

(** A controller's artifact whose reference was revoked and which is
    recorded again is readable without an active reference, and the next
    collection removes it. *)
Lemma recorded_again_is_collected :
  let x := MkArtifactIdentity sample_digest 3 in
  let stored := (artifact_ingest sample_bytes ingest_unverified sample_objects).1 in
  let w := run_uploads [UpLocal "controller" x 1; UpRevoke "controller" (controller_key sample_digest) 2;
                        UpLocal "controller" x 3] (sample_store, stored) in
  can_read_artifact "controller" sample_digest (st_db w.1) = true
  /\ has_active_owner_reference "controller" sample_digest (st_db w.1) = false
  /\ artifact_contains sample_digest (run_upload (UpCollect [sample_digest] 4 10) w).2 = Ok false.
Proof. vm_compute. by split_and!. Qed.

End sample.
