(* ===== verification/Service.v ===== *)
(** * The worker-control service: its state and its effects

    [src/crates/alloyport-server/src/lib.rs] (the fields of
    [WorkerControlService], its registry of workers) and
    [grpc_status.rs].  A handler is a computation over the whole service:
    the control repository, the interaction log, the artifact metadata, the
    registry and the channels of the connections.  Every repository call
    stands for its own transaction, so a handler that fails keeps what it
    committed before.  The injected clock is a sequence of readings, the
    counters wrap.  Texts of errors are dropped. *)

From stdpp Require Import base strings pretty gmap list.
From S2P Require Import Prelude Text Digest Artifacts Uploads RunEvents ControlPlane Interactions Wire.

Local Open Scope N_scope.

(** ** Status codes *)

(** The codes of [tonic::Status] the server uses. *)
Inductive Code :=
| CodeInvalidArgument | CodeNotFound | CodePermissionDenied | CodeResourceExhausted
| CodeFailedPrecondition | CodeAborted | CodeInternal | CodeUnavailable | CodeDataLoss | CodeUnauthenticated
| CodeAlreadyExists.

#[export] Instance Code_eq_dec : EqDecision Code.
Proof. solve_decision. Defined.

(** [repository_status]. *)
Definition repository_status (error : CError) : Code :=
  match error with
  | Repo.NotFound _ => CodeNotFound
  | Repo.IdentityMismatch _ => CodePermissionDenied
  | Repo.InvalidIdentity => CodeInvalidArgument
  | Repo.InvalidTransition _ _ => CodeFailedPrecondition
  | _ => CodeInternal
  end.

(** [interaction_status]. *)
Definition interaction_status (error : InteractionError) : Code :=
  match error with
  | InvalidFrame | ConflictingDedupKey _ | ConflictingOutput _ _ _ | InvalidCursor _ _ _
  | RevokedRunGrant _ _ | MissingRunGrant _ _ | ValueOutOfRange _ => CodeInvalidArgument
  | IStorage | IEncoding | InvalidSubscriptionCapacity | ILockPoisoned => CodeInternal
  end.

(** [artifact_status] and [upload_status]. *)
Definition artifact_status (error : ArtifactStoreError) : Code :=
  match error with
  | DigestMismatch _ _ | SizeMismatch _ _ | ArtifactIntegrity _ => CodeDataLoss
  | SizeLimitExceeded _ _ => CodeResourceExhausted
  | ArtifactIo _ => CodeInternal
  end.

Definition upload_status (error : UError) : Code :=
  match error with
  | Up.NotFound _ => CodeNotFound
  | Up.OwnerMismatch => CodePermissionDenied
  | Up.OffsetConflict _ _ => CodeAborted
  | Up.ChunkTooLarge _ _ | Up.SizeLimitExceeded _ _ | Up.QuotaExceeded _ _ _ _ => CodeResourceExhausted
  | Up.InvalidRequest _ | Up.ConflictingUploadKey | Up.ConflictingReferenceKey => CodeInvalidArgument
  | Up.ReferenceRevoked | Up.GarbageCollectionPending _ | Up.Expired | Up.Incomplete _ _
  | Up.InvalidState _ => CodeFailedPrecondition
  | Up.Artifact error => artifact_status error
  | Up.Storage | Up.Io _ | Up.Corrupt => CodeInternal
  end.

(** ** Constants *)

Definition HEARTBEAT_INTERVAL_MS : N := 5000.
Definition ATTEMPT_LEASE_MS : N := 30000.
Definition PREPARATION_RECONCILE_BATCH_SIZE : N := 128.
Definition OUTBOX_ORPHAN_RETENTION_MS : N := 7 * 24 * 60 * 60 * 1000.

(** ** State *)

(** [struct WorkerRecord]; the sender is the channel of its connection. *)
Record WorkerRecord := MkWorkerRecord {
  wo_hello : WorkerHello;
  wo_connection_id : string;
  wo_connected : bool;
  wo_last_worker_sequence : N;
  wo_last_server_sequence_acknowledged : N;
  wo_next_server_sequence : N;
  wo_heartbeat : option Heartbeat;
}.

(** A response channel: what was put on it, and whether its receiver is
    still there. *)
Record Channel := MkChannel { ch_sent : list (result Code ServerToWorker); ch_open : bool }.

(** [struct WorkerControlService] without its identity resolver. *)
Record Service (V A : Type) := MkService {
  sv_control : Control;
  sv_log : InteractionLog V;
  sv_metadata : option UploadStore;
  sv_objects : option A;
  sv_workers : gmap string WorkerRecord;
  sv_channels : gmap string Channel;
  sv_connection_counter : N;
  sv_lease_counter : N;
  sv_clock : nat;
}.
Arguments MkService {V A}. Arguments sv_control {V A}. Arguments sv_log {V A}. Arguments sv_metadata {V A}.
Arguments sv_objects {V A}. Arguments sv_workers {V A}. Arguments sv_channels {V A}.
Arguments sv_connection_counter {V A}. Arguments sv_lease_counter {V A}. Arguments sv_clock {V A}.

(** ** Computations *)

Definition Svc (V A E T : Type) : Type := Service V A -> Service V A * result E T.

#[export] Instance svc_ret V A E : MRet (Svc V A E) := fun T x s => (s, Ok x).
#[export] Instance svc_bind V A E : MBind (Svc V A E) := fun T U f m s =>
  match m s with
  | (s, Ok x) => f x s
  | (s, Err e) => (s, Err e)
  end.

Section effects.
Context {V A : Type} `{EqDecision V}.
Implicit Types (s : Service V A).

Definition with_control s c : Service V A :=
  MkService c (sv_log s) (sv_metadata s) (sv_objects s) (sv_workers s) (sv_channels s)
    (sv_connection_counter s) (sv_lease_counter s) (sv_clock s).
Definition with_log s l : Service V A :=
  MkService (sv_control s) l (sv_metadata s) (sv_objects s) (sv_workers s) (sv_channels s)
    (sv_connection_counter s) (sv_lease_counter s) (sv_clock s).
Definition with_metadata s m : Service V A :=
  MkService (sv_control s) (sv_log s) m (sv_objects s) (sv_workers s) (sv_channels s)
    (sv_connection_counter s) (sv_lease_counter s) (sv_clock s).
Definition with_records s w : Service V A :=
  MkService (sv_control s) (sv_log s) (sv_metadata s) (sv_objects s) w (sv_channels s)
    (sv_connection_counter s) (sv_lease_counter s) (sv_clock s).
Definition with_channels s c : Service V A :=
  MkService (sv_control s) (sv_log s) (sv_metadata s) (sv_objects s) (sv_workers s) c
    (sv_connection_counter s) (sv_lease_counter s) (sv_clock s).
Definition with_counters s connection lease clock : Service V A :=
  MkService (sv_control s) (sv_log s) (sv_metadata s) (sv_objects s) (sv_workers s) (sv_channels s)
    connection lease clock.

(** The error side of a computation. *)
Definition fail {E T} (e : E) : Svc V A E T := fun s => (s, Err e).
Definition lift {E T} (r : result E T) : Svc V A E T := fun s => (s, r).
Definition get_service {E} : Svc V A E (Service V A) := fun s => (s, Ok s).
Definition modify {E} (f : Service V A -> Service V A) : Svc V A E unit := fun s => (f s, Ok tt).
Definition svc_map_err {E F T} (f : E -> F) (m : Svc V A E T) : Svc V A F T := fun s =>
  let '(s, r) := m s in (s, map_err f r).
(** [match m.await { Ok(x) => .., Err(e) => .. }]. *)
Definition attempt {E F T} (m : Svc V A E T) : Svc V A F (result E T) := fun s =>
  let '(s, r) := m s in (s, Ok r).

(** A transaction of the control repository, and the calls that commit
    before they fail. *)
Definition on_control {T} (t : CTxn T) : Svc V A CError T := fun s =>
  match t (sv_control s) with
  | Ok (x, c) => (with_control s c, Ok x)
  | Err e => (s, Err e)
  end.
Definition on_control_partly {T} (t : Control -> Control * result CError T) : Svc V A CError T := fun s =>
  let '(c, r) := t (sv_control s) in (with_control s c, r).

(** A transaction of the interaction log. *)
Definition on_log {T} (t : ITxn (V:=V) T) : Svc V A InteractionError T := fun s =>
  match t (sv_log s) with
  | Ok (x, l) => (with_log s l, Ok x)
  | Err e => (s, Err e)
  end.

(** A call of the artifact metadata; the callers check that it is
    attached. *)
Definition on_metadata {T} (t : UTxn T) : Svc V A UError T := fun s =>
  match sv_metadata s with
  | Some metadata => let '(metadata, r) := transact t metadata in (with_metadata s (Some metadata), r)
  | None => (s, Err Up.Storage)
  end.

(** [AtomicU64::fetch_add]. *)
Definition next_connection {E} : Svc V A E N := fun s =>
  (with_counters s ((sv_connection_counter s + 1) mod 2 ^ 64) (sv_lease_counter s) (sv_clock s),
   Ok (sv_connection_counter s)).
Definition next_lease {E} : Svc V A E N := fun s =>
  (with_counters s (sv_connection_counter s) ((sv_lease_counter s + 1) mod 2 ^ 64) (sv_clock s),
   Ok (sv_lease_counter s)).

(** [Sender::send]: false when the receiver is gone.  A full channel makes
    the sender wait, which is no step. *)
Definition send {E} (connection_id : string) (message : result Code ServerToWorker) : Svc V A E bool := fun s =>
  match sv_channels s !! connection_id with
  | Some channel =>
      if ch_open channel then
        (with_channels s (<[connection_id := MkChannel (ch_sent channel ++ [message]) true]> (sv_channels s)),
         Ok true)
      else (s, Ok false)
  | None => (s, Ok false)
  end.

(** The record of a worker, and its update. *)
Definition record_of_worker (worker_id : string) s : option WorkerRecord := sv_workers s !! worker_id.

Definition update_record (worker_id : string) (f : WorkerRecord -> WorkerRecord) s : Service V A :=
  with_records s (alter f worker_id (sv_workers s)).

End effects.

(** [Clock::now_unix_ms] of the injected clock, reading by reading. *)
Class ServiceClock := clock_reading : nat -> N.

Definition now_unix_ms `{ServiceClock} {V A E} : Svc V A E N := fun s =>
  (with_counters s (sv_connection_counter s) (sv_lease_counter s) (S (sv_clock s)), Ok (clock_reading (sv_clock s))).

(** ** Records *)

Definition with_connected (b : bool) (w : WorkerRecord) : WorkerRecord :=
  MkWorkerRecord (wo_hello w) (wo_connection_id w) b (wo_last_worker_sequence w)
    (wo_last_server_sequence_acknowledged w) (wo_next_server_sequence w) (wo_heartbeat w).

(** [next_server_sequence += 1]. *)
Definition with_next_server (w : WorkerRecord) : WorkerRecord :=
  MkWorkerRecord (wo_hello w) (wo_connection_id w) (wo_connected w) (wo_last_worker_sequence w)
    (wo_last_server_sequence_acknowledged w) (wo_next_server_sequence w + 1) (wo_heartbeat w).

(** What [ingest] records of an observed frame. *)
Definition with_ingested (frame : WorkerToServer) (w : WorkerRecord) : WorkerRecord :=
  MkWorkerRecord (wo_hello w) (wo_connection_id w) (wo_connected w) (wm_sequence frame)
    (wm_acknowledges_server_through frame) (wo_next_server_sequence w)
    (match wm_message frame with Some (WHeartbeat heartbeat) => Some heartbeat | _ => wo_heartbeat w end).
