(* ===== verification/Observation.v ===== *)
(** * Observing workers

    [src/crates/alloyport-server/src/attempt_projection.rs], and of
    [control_transport.rs] the events of a worker: what a worker reports
    becomes canonical events of the run of its task, each under a key of its
    own so that a report that is repeated adds nothing.  Then
    [attempt_observer.rs], with [validate_and_grant_finished_artifacts] of
    [lib.rs]: what each message of a worker does to the durable state.  The
    handlers run inside a persistence task; a panic there reaches the caller
    as an internal error, with the calls made before it committed. *)

From Stdlib Require Import Ascii.
From stdpp Require Import base strings pretty gmap list.
From S2P Require Import Prelude Text Digest Identity Vocabulary RunEvents Sanitizer ControlPlane Wire Interactions Artifacts Uploads Service.

Local Open Scope N_scope.

(** ** Text of a preview *)

(** [String::from_utf8_lossy]. *)
Definition from_utf8_lossy (payload : bytes) : string := utf8_lossy (String.string_of_list_byte payload).

(** [Cow::Owned]: the text was changed. *)
Definition lossy_owned (payload : bytes) : bool := negb (utf8_valid (String.string_of_list_byte payload)).

(** ** Events of a worker *)

Section projection.
Context {V A : Type} `{EqDecision V} `{ServiceClock}.

(** [event_artifact]. *)
Definition event_artifact (artifact : WireArtifact) (reference : string) : ArtifactRef :=
  MkArtifactRef (wa_digest artifact) (wa_media_type artifact) (wa_size_bytes artifact) reference.

(** [worker_event]. *)
Definition worker_event (contract : AssignmentContract) (worker_id : string) (emitted_at_unix_ms : N)
    (event : Event V) : ProducerEvent V :=
  let run_id := as_str (ac_task_id contract) in
  RunEvents.MkFrame SCHEMA_VERSION run_id (Some run_id) None (Some (as_str (ac_attempt_id contract))) None None
    emitted_at_unix_ms (MkProducer "alloyport-worker" worker_id) Observed User (redact_worker_event event).

(** The frame of [record_run_started]. *)
Definition run_started_frame (contract : AssignmentContract) (now_ms : N) : ProducerEvent V :=
  let run_id := as_str (ac_task_id contract) in
  RunEvents.MkFrame SCHEMA_VERSION run_id (Some run_id) None None None None now_ms
    (MkProducer "alloyport-server" "controller") Observed User (RunStarted run_id).

(** [record_run_started]. *)
Definition record_run_started (contract : AssignmentContract) (now_ms : N)
    : Svc V A InteractionError (AppendOutcome V) :=
  let run_id := as_str (ac_task_id contract) in
  existing ← on_log (fun l => events ← events_after run_id 0 1 l; Ok (events, l));
  match existing with
  | envelope :: _ => mret (AppendDuplicate envelope)
  | [] => on_log (append ("task:" +:+ run_id +:+ ":run-started") (run_started_frame contract now_ms))
  end.

(** [assignment_reads.assignment(..)?.ok_or_else(..)?]. *)
Definition known_assignment (attempt_id : string) : Svc V A Code AssignmentRecord := fun s =>
  (s, ok_or (ControlPlane.assignment attempt_id (sv_control s)) CodeFailedPrecondition).

(** The key and the event of a started command. *)
Definition command_started_key (attempt_id : string) : string :=
  "attempt:" +:+ attempt_id +:+ ":command-started".

Definition command_started_event (worker_id : string) (contract : AssignmentContract) : Event V :=
  CommandStarted (String.concat " " (argv (ac_execution contract)))
    (Some (working_directory (ac_execution contract))) worker_id (Some "worker assignment execution").

(** [record_command_started]. *)
Definition record_command_started (worker_id attempt_id : string) (now_ms : N) : Svc V A Code (AppendOutcome V) :=
  assignment ← known_assignment attempt_id;
  svc_map_err interaction_status
    (on_log (append (command_started_key attempt_id)
      (worker_event (as_contract assignment) worker_id now_ms
         (command_started_event worker_id (as_contract assignment))))).

(** The loop over the artifacts of a finished attempt. *)
Fixpoint record_artifacts (worker_id attempt_id : string) (contract : AssignmentContract) (now_ms : N)
    (artifacts : list (option WireArtifact * string)) : Svc V A Code unit :=
  match artifacts with
  | [] => mret tt
  | (None, _) :: artifacts => record_artifacts worker_id attempt_id contract now_ms artifacts
  | (Some artifact, reference) :: artifacts =>
      _ ← svc_map_err interaction_status
            (on_log (append ("attempt:" +:+ attempt_id +:+ ":artifact:" +:+ reference)
               (worker_event contract worker_id now_ms (ArtifactProduced (event_artifact artifact reference)))));
      record_artifacts worker_id attempt_id contract now_ms artifacts
  end.

(** The event of a completed command. *)
Definition command_completed_event (finished : WireFinished) : Event V :=
  CommandCompleted (default (-1)%Z (wf_exit_code finished)) (wf_elapsed_ms finished)
    (bool_decide (wf_outcome finished = 3%Z))
    ((fun artifact => event_artifact artifact "stdout") <$> wf_stdout finished).

(** [record_command_finished]. *)
Definition record_command_finished (worker_id : string) (finished : WireFinished) (now_ms : N) : Svc V A Code unit :=
  let attempt_id := wf_attempt_id finished in
  _ ← record_command_started worker_id attempt_id now_ms;
  assignment ← known_assignment attempt_id;
  _ ← record_artifacts worker_id attempt_id (as_contract assignment) now_ms
        [(wf_stdout finished, "stdout"); (wf_stderr finished, "stderr"); (wf_receipt finished, "receipt")];
  _ ← svc_map_err interaction_status
        (on_log (append ("attempt:" +:+ attempt_id +:+ ":command-completed")
           (worker_event (as_contract assignment) worker_id now_ms (command_completed_event finished))));
  mret tt.

(** [WorkerOutputStream]: the stream of an event, and its [Debug] text. *)
Definition event_stream (stream : Z) : option (OutputStream * string) :=
  match stream with
  | 1%Z => Some (Stdout, "Stdout")
  | 2%Z => Some (Stderr, "Stderr")
  | _ => None
  end.

(** The warning about a gap in the preview. *)
Definition gap_warning (stream : string) (expected byte_offset : N) : Event V :=
  Warning ("live " +:+ stream +:+ " preview omitted bytes " +:+ pretty expected +:+ ".." +:+ pretty byte_offset
           +:+ "; complete output remains in the terminal Artifact").

(** [i32] in decimal. *)
Definition decimal (value : Z) : string := pretty value.

(** [observe_output]. *)
Definition observe_output (worker_id : string) (output : OutputChunk) (now_ms : N) : Svc V A Code unit :=
  let attempt_id := ou_attempt_id output in
  let offset := ou_byte_offset output in
  assignment ← known_assignment attempt_id;
  let contract := as_contract assignment in
  if negb (bool_decide (as_worker_id assignment = worker_id)) then fail CodePermissionDenied else
  if negb (bool_decide (as_state assignment = State.Running)) then fail CodeFailedPrecondition else
  stream ← lift (ok_or (event_stream (ou_stream output)) CodeInvalidArgument);
  appended ← svc_map_err interaction_status
    (on_log (append_output
       ("attempt:" +:+ attempt_id +:+ ":output:" +:+ decimal (ou_stream output) +:+ ":" +:+ pretty offset)
       attempt_id (ou_stream output) offset (ou_payload output)
       (worker_event contract worker_id now_ms
          (CommandOutput stream.1 offset (from_utf8_lossy (ou_payload output))
             (ou_display_sanitized output || lossy_owned (ou_payload output))))));
  if oa_missing_bytes_before appended =? 0 then mret tt else
  let expected := saturating_sub offset (oa_missing_bytes_before appended) in
  _ ← svc_map_err interaction_status
        (on_log (append
           ("attempt:" +:+ attempt_id +:+ ":output-gap:" +:+ decimal (ou_stream output) +:+ ":"
            +:+ pretty expected +:+ ":" +:+ pretty offset)
           (worker_event contract worker_id now_ms (gap_warning stream.2 expected offset))));
  mret tt.

End projection.

(** ** Observations *)

Section observation.
Context {V A : Type} `{EqDecision V} `{ServiceClock}.

(** The artifacts a terminal observation must have, with their references. *)
Definition terminal_artifacts (attempt_id : string) (finished : WireFinished)
    : list (option WireArtifact * string * ArtifactReferenceKind * string) :=
  [(wf_stdout finished, "output:" +:+ attempt_id +:+ ":stdout", RefAssignmentOutput, "complete attempt stdout");
   (wf_stderr finished, "output:" +:+ attempt_id +:+ ":stderr", RefAssignmentOutput, "complete attempt stderr");
   (wf_receipt finished, "receipt:" +:+ attempt_id, RefReceipt, "attempt run receipt")].

(** The finished upload of a worker under a key, and its identity. *)
Definition finalized_upload (worker_id reference_key : string) : Svc V A Code (UploadSession * ArtifactIdentity) := fun s =>
  (s, metadata ← ok_or (sv_metadata s) CodeInternal;
      session ← ok_or (completed_upload_session_by_key worker_id reference_key (st_db metadata)) CodeFailedPrecondition;
      identity ← ok_or (up_artifact session) CodeDataLoss;
      Ok (session, identity)).

(** [metadata.grant_reference], under the quotas of the store. *)
Definition grant_metadata (request : GrantArtifactReference) : Svc V A UError ArtifactReference := fun s =>
  match sv_metadata s with
  | Some metadata => on_metadata (grant_reference (st_quotas metadata) request) s
  | None => (s, Err Up.Storage)
  end.

(** [validate_and_grant_finished_artifacts]. *)
Fixpoint validate_and_grant (worker_id : string) (now_ms : N)
    (artifacts : list (option WireArtifact * string * ArtifactReferenceKind * string)) : Svc V A Code unit :=
  match artifacts with
  | [] => mret tt
  | (artifact, reference_key, kind, purpose) :: artifacts =>
      artifact ← lift (ok_or artifact CodeFailedPrecondition);
      digest ← lift (map_err (fun _ => CodeInvalidArgument) (digest_from_str (wa_digest artifact)));
      uploaded ← finalized_upload worker_id reference_key;
      _ ← lift (guard_err (negb (bool_decide (ai_digest uploaded.2 = digest))
                           || negb (ai_size_bytes uploaded.2 =? wa_size_bytes artifact)
                           || negb (bool_decide (up_media_type uploaded.1 = wa_media_type artifact))) CodeDataLoss);
      _ ← svc_map_err upload_status
            (grant_metadata (MkGrant worker_id reference_key digest kind purpose now_ms None));
      validate_and_grant worker_id now_ms artifacts
  end.

Definition validate_and_grant_finished_artifacts (worker_id attempt_id : string) (finished : WireFinished)
    (now_ms : N) : Svc V A Code unit :=
  validate_and_grant worker_id now_ms (terminal_artifacts attempt_id finished).

(** [observe]. *)
Definition observe (worker_id assignment_id attempt_id : string) (observed_at_ms : N)
    (observation : AttemptObservation) : Svc V A Code ObservationDisposition :=
  assignment_id ← lift (map_err (fun _ => CodeInvalidArgument) (parse_id KAssignment assignment_id));
  attempt_id ← lift (map_err (fun _ => CodeInvalidArgument) (parse_id KAttempt attempt_id));
  svc_map_err repository_status
    (on_control (observe_attempt (MkObserved assignment_id attempt_id worker_id observed_at_ms observation))).

(** [observe_heartbeat]. *)
Definition observe_heartbeat (worker_id : string) (heartbeat : Heartbeat) (now_ms : N) : Svc V A Code unit :=
  svc_map_err repository_status
    (on_control (renew_active_leases worker_id (wt_attempt_id <$> hb_active_attempts heartbeat) now_ms ATTEMPT_LEASE_MS)).

(** [observe_accepted], [observe_rejection] and
    [observe_cancellation_acknowledged]. *)
Definition observe_accepted (worker_id assignment_id attempt_id : string) (already_known : bool) (now_ms : N)
    : Svc V A Code ObservationDisposition :=
  observe worker_id assignment_id attempt_id now_ms (OAccepted already_known).

Definition observe_rejection (worker_id assignment_id attempt_id : string) (reason : Z) (detail : string)
    (now_ms : N) : Svc V A Code ObservationDisposition :=
  reason ← lift (map_err (fun _ => CodeInvalidArgument) (rejection_reason_try_from reason));
  observe worker_id assignment_id attempt_id now_ms (ORejected reason detail).

Definition observe_cancellation_acknowledged (worker_id assignment_id attempt_id : string)
    (already_terminal : bool) (now_ms : N) : Svc V A Code ObservationDisposition :=
  observe worker_id assignment_id attempt_id now_ms (OCancellationAcknowledged already_terminal).

(** [observe_started]. *)
Definition observe_started (worker_id assignment_id attempt_id : string) (now_ms : N)
    : Svc V A Code ObservationDisposition :=
  disposition ← observe worker_id assignment_id attempt_id now_ms OStarted;
  _ ← record_command_started worker_id attempt_id now_ms;
  mret disposition.

(** The observation of a finished message; [None] is the panic on a digest
    that is not canonical. *)
Definition stored_artifact (artifact : option WireArtifact) : option (option ArtifactDescriptor) :=
  map_panicking artifact_to_identity artifact.

Definition finished_observation_of (finished : WireFinished) : result Code FinishedObservation :=
  outcome ← map_err (fun _ => CodeInvalidArgument) (attempt_outcome_try_from (wf_outcome finished));
  receipt ← ok_or (stored_artifact (wf_receipt finished)) CodeInternal;
  stdout ← ok_or (stored_artifact (wf_stdout finished)) CodeInternal;
  stderr ← ok_or (stored_artifact (wf_stderr finished)) CodeInternal;
  Ok (MkFinishedObservation outcome (wf_exit_code finished) (wf_elapsed_ms finished) receipt stdout stderr
        (wf_detail finished)).

(** [observe_finished]. *)
Definition observe_finished (worker_id : string) (finished : WireFinished) (now_ms : N)
    : Svc V A Code ObservationDisposition :=
  s ← get_service;
  _ ← match sv_metadata s with
      | Some _ => validate_and_grant_finished_artifacts worker_id (wf_attempt_id finished) finished now_ms
      | None => mret tt
      end;
  observation ← lift (finished_observation_of finished);
  disposition ← observe worker_id (wf_assignment_id finished) (wf_attempt_id finished) now_ms (OFinished observation);
  _ ← record_command_finished worker_id finished now_ms;
  mret disposition.

(** The result of an observation is dropped. *)
Definition ignore {T} (m : Svc V A Code T) : Svc V A Code unit := _ ← m; mret tt.

(** [observe_message]. *)
Definition observe_message (worker_id : string) (message : option WorkerMessage) (now_ms : N) : Svc V A Code unit :=
  match message with
  | Some (WHeartbeat heartbeat) => observe_heartbeat worker_id heartbeat now_ms
  | Some (WStatus _ _) => mret tt
  | Some (WAccepted assignment_id attempt_id already_known) =>
      ignore (observe_accepted worker_id assignment_id attempt_id already_known now_ms)
  | Some (WRejected assignment_id attempt_id reason detail) =>
      ignore (observe_rejection worker_id assignment_id attempt_id reason detail now_ms)
  | Some (WStarted assignment_id attempt_id) => ignore (observe_started worker_id assignment_id attempt_id now_ms)
  | Some (WFinished finished) => ignore (observe_finished worker_id finished now_ms)
  | Some (WCancelAcknowledged assignment_id attempt_id already_terminal) =>
      ignore (observe_cancellation_acknowledged worker_id assignment_id attempt_id already_terminal now_ms)
  | Some (WOutput output) => observe_output worker_id output now_ms
  | Some (WHello _) | None => fail CodeInvalidArgument
  end.

End observation.
