(* ===== verification/ServerSession.v ===== *)
(** * Worker sessions on the server

    [src/crates/alloyport-server/src/session.rs],
    [observation_ingress.rs], [assignment_delivery.rs], the stream of
    [control_transport.rs] and [validate_worker_acknowledgement] of
    [lib.rs]: registration with the replay of what is pending, the frames
    of a connection in their order, and the frames prepared for it.  A
    handler that gives up its locks is the sequence of its phases, each a
    definition of its own.  The enrolled identity of the connection is
    checked before and is not modelled. *)

From stdpp Require Import base strings pretty gmap list.
From S2P Require Import Prelude Text Digest Identity Vocabulary Artifacts Uploads RunEvents ControlPlane Interactions Wire Service Observation.

Local Open Scope N_scope.

(** ** Checks *)

(** [validate_worker_acknowledgement]. *)
Definition validate_worker_acknowledgement (acknowledged last_acknowledged sent_server_through : N) : result Code unit :=
  _ ← guard_err (acknowledged <? last_acknowledged) CodeInvalidArgument;
  guard_err (sent_server_through <? acknowledged) CodeInvalidArgument.

(** [validate_heartbeat_against_hello]. *)
Definition validate_heartbeat_against_hello (heartbeat : Heartbeat) (hello : WorkerHello) : result Code unit :=
  capabilities ← ok_or (wh_capabilities hello) CodeFailedPrecondition;
  _ ← guard_err ((wcp_max_concurrency capabilities <? hb_available_slots heartbeat)
                 || (wcp_max_concurrency capabilities <? hb_device_free_slots heartbeat)) CodeInvalidArgument;
  _ ← guard_err (hb_device_free_slots heartbeat <? hb_available_slots heartbeat) CodeInvalidArgument;
  let known_devices := acc_device_id <$> wcp_devices capabilities in
  _ ← guard_err (existsb (fun d => negb (bool_decide (wd_device_id d ∈ known_devices))) (hb_devices heartbeat)
                 || existsb (fun l => negb (bool_decide (we_device_id l ∈ known_devices))) (hb_device_leases heartbeat))
        CodeInvalidArgument;
  _ ← guard_err (existsb (String.eqb "ascend-fixture-v1") (wh_features hello)
                 && bool_decide (hb_health heartbeat = 1%Z)
                 && negb (bool_decide (length (hb_devices heartbeat) = length (remove_dups known_devices))))
        CodeInvalidArgument;
  let known_attempts := wt_attempt_id <$> hb_active_attempts heartbeat in
  guard_err (existsb (fun l => negb (bool_decide (we_attempt_id l ∈ known_attempts))) (hb_device_leases heartbeat))
    CodeInvalidArgument.

(** The checks of [ingest] on the message id: whether the frame is one the
    worker keeps until it is acknowledged. *)
Definition validate_message_id (hello : WorkerHello) (frame : WorkerToServer) : result Code bool :=
  let durable := expected_worker_message_id (wm_message frame) in
  let supported := 2 <=? wh_protocol_minor hello in
  _ ← (if supported then
         match durable with
         | Some expected => guard_err (negb (String.eqb (wm_message_id frame) expected)) CodeInvalidArgument
         | None => guard_err (negb (String.eqb (wm_message_id frame) EmptyString)) CodeInvalidArgument
         end
       else Ok tt);
  Ok (supported && bool_decide (is_Some durable)).

Section session.
Context {V A : Type} `{EqDecision V} `{ServiceClock}.

(** ** Frames of a worker *)

(** [ingest] before it observes: the frame is acknowledged durably or not. *)
Definition ingest_check (worker_id connection_id : string) (frame : WorkerToServer) : Svc V A Code bool := fun s =>
  (s, _ ← map_err (fun _ => CodeInvalidArgument) (validate_worker_frame frame);
      _ ← match wm_message frame with
          | Some (WHeartbeat heartbeat) => map_err (fun _ => CodeInvalidArgument) (validate_heartbeat heartbeat)
          | _ => Ok tt
          end;
      worker ← ok_or (sv_workers s !! worker_id) CodeFailedPrecondition;
      _ ← guard_err (negb (String.eqb (wo_connection_id worker) connection_id) || negb (wo_connected worker)) CodeAborted;
      _ ← match wm_message frame with
          | Some (WHeartbeat heartbeat) => validate_heartbeat_against_hello heartbeat (wo_hello worker)
          | _ => Ok tt
          end;
      _ ← guard_err (negb (wm_sequence frame =? wo_last_worker_sequence worker + 1)) CodeInvalidArgument;
      _ ← validate_worker_acknowledgement (wm_acknowledges_server_through frame)
            (wo_last_server_sequence_acknowledged worker) (saturating_sub (wo_next_server_sequence worker) 1);
      validate_message_id (wo_hello worker) frame).

(** [ingest] after it observed: the registry, and the last sequence sent. *)
Definition ingest_record (worker_id connection_id : string) (frame : WorkerToServer) : Svc V A Code N := fun s =>
  match sv_workers s !! worker_id with
  | None => (s, Err CodeAborted)
  | Some worker =>
      if negb (String.eqb (wo_connection_id worker) connection_id) || negb (wo_connected worker)
         || negb (wm_sequence frame =? wo_last_worker_sequence worker + 1)
      then (s, Err CodeAborted)
      else (update_record worker_id (with_ingested frame) s, Ok (saturating_sub (wo_next_server_sequence worker) 1))
  end.

(** [ingest]: the cursors of the connection. *)
Definition ingest_persist (connection_id : string) (frame : WorkerToServer) (last_server_sequence now_ms : N)
    : Svc V A Code unit :=
  svc_map_err repository_status (
    _ ← on_control (compact_server_frames connection_id (wm_acknowledges_server_through frame) now_ms);
    on_control_partly (update_connection_sequences connection_id (wm_sequence frame) last_server_sequence
                         (wm_acknowledges_server_through frame) now_ms)).

(** [ingest]. *)
Definition ingest (worker_id connection_id : string) (frame : WorkerToServer) : Svc V A Code bool :=
  durable ← ingest_check worker_id connection_id frame;
  now_ms ← now_unix_ms;
  _ ← observe_message worker_id (wm_message frame) now_ms;
  last_server_sequence ← ingest_record worker_id connection_id frame;
  _ ← ingest_persist connection_id frame last_server_sequence now_ms;
  mret durable.

(** ** Frames to a worker *)

(** What a delivery reads from the record of the worker. *)
Record Snapshot := MkSnapshot {
  sn_connection_id : string;
  sn_sequence : N;
  sn_last_worker_sequence : N;
  sn_last_server_acknowledged : N;
}.

Definition snapshot (worker : WorkerRecord) : Snapshot :=
  MkSnapshot (wo_connection_id worker) (wo_next_server_sequence worker) (wo_last_worker_sequence worker)
    (wo_last_server_sequence_acknowledged worker).

Definition delivery_snapshot {E} (worker_id : string) (p : WorkerRecord -> bool) : Svc V A E (option Snapshot) := fun s =>
  (s, Ok (worker ← sv_workers s !! worker_id; if wo_connected worker && p worker then Some (snapshot worker) else None)).

(** The end of a delivery: the sequence is taken unless the connection or
    the counter moved on meanwhile. *)
Definition take_sequence {E} (worker_id : string) (snap : Snapshot) : Svc V A E bool := fun s =>
  match sv_workers s !! worker_id with
  | None => (s, Ok false)
  | Some worker =>
      if negb (String.eqb (wo_connection_id worker) (sn_connection_id snap))
         || negb (wo_next_server_sequence worker =? sn_sequence snap)
      then (s, Ok false)
      else (update_record worker_id with_next_server s, Ok true)
  end.

(** A frame with the channel it goes to. *)
Definition Prepared : Type := option (string * ServerToWorker).

Definition prepared_frame {E} (worker_id : string) (snap : Snapshot) (message_id : string) (message : ServerMessage)
    : Svc V A E Prepared :=
  taken ← take_sequence worker_id snap;
  mret (if taken : bool then
          Some (sn_connection_id snap,
                MkServerFrame (sn_sequence snap) (sn_last_worker_sequence snap) message_id (Some message))
        else None).

(** [prepare_transport_ack]. *)
Definition prepare_transport_ack (worker_id connection_id : string) : Svc V A CError Prepared :=
  snap ← delivery_snapshot worker_id (fun worker => String.eqb (wo_connection_id worker) connection_id);
  match snap with
  | None => mret None
  | Some snap =>
      now_ms ← now_unix_ms;
      _ ← on_control_partly (update_connection_sequences connection_id (sn_last_worker_sequence snap)
            (sn_sequence snap) (sn_last_server_acknowledged snap) now_ms);
      prepared_frame worker_id snap EmptyString SAcknowledgement
  end.

(** [prepare_assignment]. *)
Definition prepare_assignment (worker_id attempt_id : string) : Svc V A CError Prepared :=
  snap ← delivery_snapshot worker_id (fun _ => true);
  match snap with
  | None => mret None
  | Some snap =>
      lease_number ← next_lease;
      now_ms ← now_unix_ms;
      let message_id := "assignment:" +:+ attempt_id in
      contract ← on_control_partly (prepare_assignment_delivery
        (MkPreparation
           (ControlPlane.MkFrame (sn_connection_id snap) (sn_sequence snap) message_id worker_id FrameAssignment
              (Some attempt_id))
           ("lease-" +:+ pretty lease_number) (sn_last_worker_sequence snap) (sn_last_server_acknowledged snap)
           now_ms ATTEMPT_LEASE_MS));
      prepared_frame worker_id snap message_id (SAssignment (contract_to_assignment contract))
  end.

(** [prepare_cancel]. *)
Definition prepare_cancel (worker_id attempt_id reason : string) : Svc V A CError Prepared :=
  snap ← delivery_snapshot worker_id (fun _ => true);
  match snap with
  | None => mret None
  | Some snap =>
      now_ms ← now_unix_ms;
      let message_id := "cancel:" +:+ attempt_id in
      _ ← on_control (record_server_frame
            (ControlPlane.MkFrame (sn_connection_id snap) (sn_sequence snap) message_id worker_id FrameCancel
               (Some attempt_id)) now_ms);
      _ ← on_control_partly (update_connection_sequences (sn_connection_id snap) (sn_last_worker_sequence snap)
            (sn_sequence snap) (sn_last_server_acknowledged snap) now_ms);
      prepared_frame worker_id snap message_id (SCancel attempt_id reason)
  end.

(** [mark_send_failed]. *)
Definition mark_send_failed {E} (worker_id : string) : Svc V A E unit :=
  modify (update_record worker_id (with_connected false)).

(** ** Registration *)

(** The frames [register] replays for one assignment. *)
Definition replay_assignment (worker_id : string) (assignment : AssignmentRecord) : Svc V A CError (list ServerToWorker) :=
  let attempt_id := as_str (ac_attempt_id (as_contract assignment)) in
  sent ← prepare_assignment worker_id attempt_id;
  cancelled ← match as_cancellation_reason assignment with
              | Some reason => prepare_cancel worker_id attempt_id reason
              | None => mret None
              end;
  mret (match sent with Some m => [m.2] | None => [] end ++ match cancelled with Some m => [m.2] | None => [] end).

Fixpoint replay_assignments (worker_id : string) (pending : list AssignmentRecord) : Svc V A CError (list ServerToWorker) :=
  match pending with
  | [] => mret []
  | assignment :: pending =>
      messages ← replay_assignment worker_id assignment;
      rest ← replay_assignments worker_id pending;
      mret (messages ++ rest)
  end.

(** The record of a worker that has just said hello. *)
Definition new_record (hello : WorkerHello) (connection_id : string) : WorkerRecord :=
  MkWorkerRecord hello connection_id true 1 0 2 None.

Definition connection_name (number : N) : string := "connection-" +:+ pretty number.

Definition welcome (hello : WorkerHello) (connection_id : string) : ServerToWorker :=
  MkServerFrame 1 1 EmptyString
    (Some (SWelcome (MkWelcome connection_id PROTOCOL_MAJOR (N.min (wh_protocol_minor hello) PROTOCOL_MINOR)
                       HEARTBEAT_INTERVAL_MS ATTEMPT_LEASE_MS))).

(** The transactions of [register]. *)
Definition register_connection (registration : WorkerRegistration) (connection : ConnectionRegistration) (now_ms : N)
    : Svc V A CError (list AssignmentRecord) :=
  _ ← on_control (expire_leases now_ms);
  _ ← on_control (prune_orphaned_server_frames (saturating_sub now_ms OUTBOX_ORPHAN_RETENTION_MS));
  _ ← on_control (register_worker registration connection);
  s ← get_service;
  mret (replayable_assignments (wr_worker_id registration) (sv_control s)).

(** The record and the channel of a new connection. *)
Definition admit_connection (hello : WorkerHello) (connection_id : string) (s : Service V A) : Service V A :=
  with_channels (with_records s (<[wh_worker_id hello := new_record hello connection_id]> (sv_workers s)))
    (<[connection_id := MkChannel [] true]> (sv_channels s)).

(** [register]; a hello without capabilities panics, which a validated one
    cannot. *)
Definition register (hello : WorkerHello) : Svc V A CError (string * list ServerToWorker) :=
  number ← next_connection;
  let connection_id := connection_name number in
  now_ms ← now_unix_ms;
  registration ← lift (ok_or (hello_to_registration hello) Repo.Corrupt);
  pending ← register_connection registration
              (MkConnection connection_id (wh_worker_id hello) (wh_instance_id hello) now_ms) now_ms;
  _ ← modify (admit_connection hello connection_id);
  messages ← replay_assignments (wh_worker_id hello) pending;
  mret (connection_id, welcome hello connection_id :: messages).

(** [disconnect]; a failure of the repository is ignored. *)
Definition disconnect_session (worker_id connection_id : string) : Svc V A Code unit :=
  now_ms ← now_unix_ms;
  _ ← attempt (on_control (disconnect connection_id now_ms));
  modify (fun s =>
    match sv_workers s !! worker_id with
    | Some worker =>
        if String.eqb (wo_connection_id worker) connection_id
        then update_record worker_id (with_connected false) s else s
    | None => s
    end).

(** ** Streams *)

(** The receiver of a channel is dropped. *)
Definition close_channel (connection_id : string) (s : Service V A) : Service V A :=
  with_channels s (alter (fun c => MkChannel (ch_sent c) false) connection_id (sv_channels s)).

Fixpoint send_all (connection_id : string) (messages : list ServerToWorker) : Svc V A Code unit :=
  match messages with
  | [] => mret tt
  | message :: messages =>
      sent ← send connection_id (Ok message);
      if sent : bool then send_all connection_id messages else fail CodeUnavailable
  end.

(** The checks of [open_control_stream] on the first frame. *)
Definition first_hello (first : WorkerToServer) : result Code WorkerHello :=
  _ ← guard_err (negb (wm_sequence first =? 1)) CodeInvalidArgument;
  _ ← guard_err (negb (wm_acknowledges_server_through first =? 0)) CodeInvalidArgument;
  _ ← guard_err (negb (String.eqb (wm_message_id first) EmptyString)) CodeInvalidArgument;
  match wm_message first with
  | Some (WHello hello) =>
      _ ← map_err (fun _ => CodeInvalidArgument) (validate_worker_hello hello); Ok hello
  | _ => Err CodeInvalidArgument
  end.

(** [open_control_stream]: a refused stream drops its receiver. *)
Definition open_control_stream (first : WorkerToServer) : Svc V A Code string := fun s =>
  match first_hello first with
  | Err e => (s, Err e)
  | Ok hello =>
      let connection_id := connection_name (sv_connection_counter s) in
      match svc_map_err repository_status (register hello) s with
      | (s, Err e) => (close_channel connection_id s, Err e)
      | (s, Ok (connection_id, messages)) =>
          match send_all connection_id messages s with
          | (s, Err e) => (close_channel connection_id s, Err e)
          | (s, Ok _) => (s, Ok connection_id)
          end
      end
  end.

(** One frame in the loop of [consume_stream]: whether the loop goes on. *)
Definition consume_frame (worker_id connection_id : string) (frame : WorkerToServer) : Svc V A Code bool :=
  ingested ← attempt (ingest worker_id connection_id frame);
  match ingested with
  | Ok true =>
      acknowledgement ← attempt (prepare_transport_ack worker_id connection_id);
      match acknowledgement with
      | Ok (Some (channel, message)) => send channel (Ok message)
      | Ok None => mret false
      | Err error => _ ← send connection_id (Err (repository_status error)); mret false
      end
  | Ok false => mret true
  | Err status => _ ← send connection_id (Err status); mret false
  end.

(** The frames of a stream, until the loop ends. *)
Fixpoint consume_stream (worker_id connection_id : string) (inbound : list WorkerToServer) : Svc V A Code unit :=
  match inbound with
  | [] => disconnect_session worker_id connection_id
  | frame :: inbound =>
      goes_on ← consume_frame worker_id connection_id frame;
      if goes_on : bool then consume_stream worker_id connection_id inbound
      else disconnect_session worker_id connection_id
  end.

End session.
