(* ===== verification/Coordinator.v ===== *)
(** * Assignments, cancellation and reconciliation

    [src/crates/alloyport-server/src/assignment_coordinator.rs] and
    [assignment_reconciliation.rs], with the reads of [lib.rs]: an
    assignment is stored, its input granted, its run started and only then
    dispatchable; what was left half prepared is completed by the
    reconciler. *)

From stdpp Require Import base strings pretty gmap sorting list.
From S2P Require Import Prelude Text Digest Identity Vocabulary Artifacts Uploads RunEvents ControlPlane Interactions Wire Service Observation ServerSession.

Local Open Scope N_scope.

(** [enum EnqueueOutcome] and [enum CancelOutcome]. *)
Inductive EnqueueOutcome := EnqueueSent | EnqueuePending | EnqueueDuplicate.
Inductive CancelOutcome := CancelSent | CancelPending | CancelBeforeSend | CancelAlreadyTerminal.

(** [enum EnqueueError].  [EnqueuePanicked] stands for the panic of an
    [expect] on an assignment that was validated. *)
Inductive EnqueueError :=
| EnqueueInvalid (error : ValidationError)
| EnqueueConflicting (attempt_id : string)
| EnqueueRepository (error : CError)
| EnqueueInteraction (error : InteractionError)
| EnqueueArtifact
| EnqueuePanicked.

(** [From<RepositoryError> for EnqueueError]. *)
Definition enqueue_repository (error : CError) : EnqueueError :=
  match error with
  | Repo.ConflictingAttempt attempt_id => EnqueueConflicting attempt_id
  | other => EnqueueRepository other
  end.

(** [struct PreparationReconciliationReport] with the attempts that
    failed. *)
Record ReconciliationReport := MkReconciliation {
  rp_scanned : nat;
  rp_recovered : nat;
  rp_sent : nat;
  rp_pending_delivery : nat;
  rp_failures : list string;
}.

(** [struct WorkerSnapshot]. *)
Record WorkerSnapshot := MkWorkerSnapshot {
  ws_worker_id : string;
  ws_instance_id : string;
  ws_connection_id : string;
  ws_connected : bool;
  ws_last_worker_sequence : N;
  ws_backend : Z;
  ws_features : list string;
  ws_heartbeat : option Heartbeat;
}.

Section coordinator.
Context {V A : Type} `{EqDecision V} `{ServiceClock} `{ArtifactStore A}.

(** ** Inputs *)

(** The purpose of the input of a fixed fixture. *)
Definition fixture_purpose (kind : ExecutionKind) : option string :=
  match kind with
  | CudaFixture => Some "CUDA fixture input bundle"
  | AscendFixture => Some "Ascend fixture input bundle"
  | AscendBuild => Some "Ascend candidate build input bundle"
  | CudaCorrectness => Some "CUDA correctness execution bundle"
  | AscendCorrectness => Some "Ascend correctness execution bundle"
  | _ => None
  end.

(** [adopt_controller_bundle]; [record_local_artifact] reads a clock of its
    own, the next reading. *)
Definition adopt_controller_bundle (worker_id : string) (digest : Sha256Digest) : Svc V A EnqueueError N :=
  s ← get_service;
  store ← lift (ok_or (sv_objects s) EnqueueArtifact);
  reader ← lift (map_err (fun _ => EnqueueArtifact) (artifact_open digest store));
  let identity := rd_identity reader in
  metadata ← lift (ok_or (sv_metadata s) EnqueueArtifact);
  now_ms ← now_unix_ms;
  _ ← svc_map_err (fun _ => EnqueueArtifact)
        (on_metadata (record_local_artifact worker_id identity now_ms (st_quotas metadata)));
  mret (ai_size_bytes identity).

(** [grant_fixed_fixture_assignment_input]. *)
Definition grant_fixed_fixture_assignment_input (worker_id : string) (contract : AssignmentContract) (now_ms : N)
    : Svc V A EnqueueError unit :=
  match fixture_purpose (executor_kind (ac_execution contract)) with
  | None => mret tt
  | Some purpose =>
      s ← get_service;
      metadata ← lift (ok_or (sv_metadata s) EnqueueArtifact);
      let digest := ad_digest (bundle (ac_execution contract)) in
      stored_size ← match artifact_size digest (st_db metadata) with
                    | Some size => mret size
                    | None => adopt_controller_bundle worker_id digest
                    end;
      _ ← lift (guard_err (negb (stored_size =? ad_size_bytes (bundle (ac_execution contract)))) EnqueueArtifact);
      _ ← svc_map_err (fun _ => EnqueueArtifact)
            (grant_metadata (MkGrant worker_id ("input:" +:+ as_str (ac_attempt_id contract) +:+ ":bundle")
               digest RefAssignmentInput purpose now_ms None));
      mret tt
  end.

(** ** Assignments *)

(** What [enqueue_assignment] and [reassign_expired_attempt] do with a
    frame. *)
Definition send_prepared {E} (worker_id : string) (outbound : Prepared) : Svc V A E EnqueueOutcome :=
  match outbound with
  | None => mret EnqueuePending
  | Some (channel, message) =>
      sent ← send channel (Ok message);
      if sent : bool then mret EnqueueSent
      else _ ← mark_send_failed worker_id; mret EnqueuePending
  end.

(** The persistence task of [enqueue_assignment]. *)
Definition prepare_enqueue (worker_id : string) (contract : AssignmentContract) (now_ms : N)
    : Svc V A EnqueueError (StoreAssignmentOutcome * bool) :=
  stored ← svc_map_err enqueue_repository (on_control (store_assignment worker_id contract now_ms));
  _ ← grant_fixed_fixture_assignment_input worker_id contract now_ms;
  _ ← svc_map_err EnqueueInteraction (record_run_started contract now_ms);
  at_ms ← now_unix_ms;
  became_dispatchable ← svc_map_err enqueue_repository
    (on_control (mark_assignment_dispatchable (as_str (ac_attempt_id contract)) worker_id at_ms));
  mret (stored, became_dispatchable).

(** [enqueue_assignment]. *)
Definition enqueue_assignment (worker_id : string) (assignment : WireAssignment) : Svc V A EnqueueError EnqueueOutcome :=
  _ ← lift (map_err EnqueueInvalid (validate_assignment assignment));
  contract ← lift (ok_or (assignment_to_contract assignment) EnqueuePanicked);
  now_ms ← now_unix_ms;
  prepared ← prepare_enqueue worker_id contract now_ms;
  match prepared with
  | (AssignmentDuplicate, false) => mret EnqueueDuplicate
  | _ =>
      outbound ← svc_map_err enqueue_repository (prepare_assignment worker_id (as_str (ac_attempt_id contract)));
      send_prepared worker_id outbound
  end.

(** [enqueue_assignment_for_owner]. *)
Definition enqueue_assignment_for_owner (owner_id worker_id : string) (assignment : WireAssignment)
    : Svc V A EnqueueError EnqueueOutcome :=
  _ ← lift (map_err EnqueueInvalid (validate_assignment assignment));
  now_ms ← now_unix_ms;
  _ ← svc_map_err EnqueueInteraction (on_log (grant_run_access (ws_task_id assignment) owner_id now_ms));
  enqueue_assignment worker_id assignment.

(** [grant_interaction_access] and [revoke_interaction_access]. *)
Definition grant_interaction_access (run_id owner_id : string) : Svc V A InteractionError RunGrantOutcome :=
  now_ms ← now_unix_ms; on_log (grant_run_access run_id owner_id now_ms).
Definition revoke_interaction_access (run_id owner_id : string) : Svc V A InteractionError RunRevokeOutcome :=
  now_ms ← now_unix_ms; on_log (revoke_run_access run_id owner_id now_ms).

(** The persistence task of [reassign_expired_attempt]. *)
Definition prepare_reassign (expired_attempt_id worker_id replacement_attempt_id : string)
    : Svc V A EnqueueError (StoreAssignmentOutcome * bool) :=
  t1 ← now_unix_ms;
  reassignment ← svc_map_err enqueue_repository
    (on_control (reassign_expired expired_attempt_id worker_id replacement_attempt_id t1));
  let contract := as_contract (re_assignment reassignment) in
  _ ← lift (map_err EnqueueInvalid (validate_assignment (contract_to_assignment contract)));
  t2 ← now_unix_ms;
  _ ← grant_fixed_fixture_assignment_input worker_id contract t2;
  t3 ← now_unix_ms;
  _ ← svc_map_err EnqueueInteraction (record_run_started contract t3);
  t4 ← now_unix_ms;
  became_dispatchable ← svc_map_err enqueue_repository
    (on_control (mark_assignment_dispatchable replacement_attempt_id worker_id t4));
  mret (re_outcome reassignment, became_dispatchable).

(** [reassign_expired_attempt]. *)
Definition reassign_expired_attempt (expired_attempt_id worker_id replacement_attempt_id : string)
    : Svc V A EnqueueError EnqueueOutcome :=
  prepared ← prepare_reassign expired_attempt_id worker_id replacement_attempt_id;
  match prepared with
  | (AssignmentDuplicate, false) => mret EnqueueDuplicate
  | _ =>
      outbound ← svc_map_err enqueue_repository (prepare_assignment worker_id replacement_attempt_id);
      send_prepared worker_id outbound
  end.

(** [cancel_attempt]. *)
Definition cancel_attempt (attempt_id reason : string) : Svc V A CError CancelOutcome :=
  now_ms ← now_unix_ms;
  cancellation ← on_control (ControlPlane.request_cancellation attempt_id reason now_ms);
  match ca_outcome cancellation with
  | CancelledBeforeSend => mret CancelBeforeSend
  | AlreadyTerminal => mret CancelAlreadyTerminal
  | CancelStored | CancelDuplicate =>
      outbound ← prepare_cancel (ca_worker_id cancellation) attempt_id reason;
      match outbound with
      | None => mret CancelPending
      | Some (channel, message) =>
          sent ← send channel (Ok message);
          if sent : bool then mret CancelSent
          else _ ← mark_send_failed (ca_worker_id cancellation); mret CancelPending
      end
  end.

(** ** Reconciliation *)

(** The preparation of one assignment by the reconciler: a failure defers
    it behind the others. *)
Definition reconcile_preparation (assignment : AssignmentRecord) (now_ms : N) : Svc V A CError (option bool) :=
  let contract := as_contract assignment in
  let attempt_id := as_str (ac_attempt_id contract) in
  let defer := (_ ← on_control (defer_assignment_preparation attempt_id (as_worker_id assignment) now_ms); mret None) in
  granted ← attempt (grant_fixed_fixture_assignment_input (as_worker_id assignment) contract now_ms);
  match granted with
  | Err _ => defer
  | Ok _ =>
      started ← attempt (record_run_started contract now_ms);
      match started with
      | Err _ => defer
      | Ok _ =>
          dispatchable ← on_control (mark_assignment_dispatchable attempt_id (as_worker_id assignment) now_ms);
          mret (Some dispatchable)
      end
  end.

Definition count_failure (attempt_id : string) (r : ReconciliationReport) : ReconciliationReport :=
  MkReconciliation (rp_scanned r) (rp_recovered r) (rp_sent r) (rp_pending_delivery r) (rp_failures r ++ [attempt_id]).
Definition count_recovered (r : ReconciliationReport) : ReconciliationReport :=
  MkReconciliation (rp_scanned r) (S (rp_recovered r)) (rp_sent r) (rp_pending_delivery r) (rp_failures r).
Definition count_delivery (outcome : EnqueueOutcome) (r : ReconciliationReport) : ReconciliationReport :=
  match outcome with
  | EnqueueSent => MkReconciliation (rp_scanned r) (rp_recovered r) (S (rp_sent r)) (rp_pending_delivery r) (rp_failures r)
  | _ => MkReconciliation (rp_scanned r) (rp_recovered r) (rp_sent r) (S (rp_pending_delivery r)) (rp_failures r)
  end.

(** The loop body of [reconcile_preparing_assignments]. *)
Definition reconcile_one (assignment : AssignmentRecord) (report : ReconciliationReport)
    : Svc V A CError ReconciliationReport :=
  let attempt_id := as_str (ac_attempt_id (as_contract assignment)) in
  now_ms ← now_unix_ms;
  preparation ← reconcile_preparation assignment now_ms;
  match preparation with
  | None => mret (count_failure attempt_id report)
  | Some false => mret report
  | Some true =>
      let report := count_recovered report in
      outbound ← attempt (prepare_assignment (as_worker_id assignment) attempt_id);
      match outbound with
      | Err _ => mret (count_failure attempt_id report)
      | Ok outbound =>
          outcome ← send_prepared (as_worker_id assignment) outbound;
          mret (count_delivery outcome report)
      end
  end.

Fixpoint reconcile_all (assignments : list AssignmentRecord) (report : ReconciliationReport)
    : Svc V A CError ReconciliationReport :=
  match assignments with
  | [] => mret report
  | assignment :: assignments =>
      report ← reconcile_one assignment report;
      reconcile_all assignments report
  end.

(** [reconcile_preparing_assignments]. *)
Definition reconcile_preparing_assignments : Svc V A CError ReconciliationReport :=
  s ← get_service;
  assignments ← lift (preparing_assignments PREPARATION_RECONCILE_BATCH_SIZE (sv_control s));
  reconcile_all assignments (MkReconciliation (length assignments) 0 0 0 []).

(** [reconcile_preparing_assignments_at_startup]. *)
Definition add_report (a b : ReconciliationReport) : ReconciliationReport :=
  MkReconciliation (rp_scanned a + rp_scanned b) (rp_recovered a + rp_recovered b) (rp_sent a + rp_sent b)
    (rp_pending_delivery a + rp_pending_delivery b) (rp_failures a ++ rp_failures b).

Fixpoint reconcile_passes (passes : nat) (aggregate : ReconciliationReport) : Svc V A CError ReconciliationReport :=
  match passes with
  | O => mret aggregate
  | S passes =>
      report ← reconcile_preparing_assignments;
      reconcile_passes passes (add_report aggregate report)
  end.

Definition div_ceil (a b : nat) : nat := (a + b - 1) / b.

Definition reconcile_preparing_assignments_at_startup : Svc V A CError ReconciliationReport :=
  s ← get_service;
  reconcile_passes (div_ceil (preparing_assignment_count (sv_control s)) (N.to_nat PREPARATION_RECONCILE_BATCH_SIZE))
    (MkReconciliation 0 0 0 0 []).

(** One tick of [run_lease_reaper_until]. *)
Definition reap_leases : Svc V A CError (list string) :=
  now_ms ← now_unix_ms; on_control (expire_leases now_ms).

(** ** Reads *)

(** [worker_snapshot] and [worker_snapshots]. *)
Definition snapshot_of (worker : WorkerRecord) : WorkerSnapshot :=
  let hello := wo_hello worker in
  MkWorkerSnapshot (wh_worker_id hello) (wh_instance_id hello) (wo_connection_id worker) (wo_connected worker)
    (wo_last_worker_sequence worker) (match wh_capabilities hello with Some c => wcp_backend c | None => 0%Z end)
    (wh_features hello) (wo_heartbeat worker).

Definition worker_snapshot (worker_id : string) (s : Service V A) : option WorkerSnapshot :=
  snapshot_of <$> sv_workers s !! worker_id.

Definition worker_before (a b : string * WorkerRecord) : Prop := String.le a.1 b.1.
#[export] Instance worker_before_dec : RelDecision worker_before.
Proof. intros a b. unfold worker_before. apply _. Defined.

Definition worker_snapshots (s : Service V A) : list WorkerSnapshot :=
  (snapshot_of ∘ snd) <$> merge_sort worker_before (map_to_list (sv_workers s)).

(** [assignment_state]. *)
Definition assignment_state (attempt_id : string) (s : Service V A) : option State.AttemptState :=
  as_state <$> ControlPlane.assignment attempt_id (sv_control s).

End coordinator.
