(* ===== verification/ServerCalls.v ===== *)
(** * Calls of the server, and what they keep

    A call of the worker-control service at a time, of a worker or of a
    client, with what happens around them: a receiver that goes away, an
    upload, a restart.  A property that every step of a handler keeps is
    kept by the handler: [Within] carries it through the constructs of the
    computations.  The first such property is that a handler reaches the
    stores only through their operations. *)

From stdpp Require Import base strings pretty gmap sorting list.
From S2P Require Import Prelude Text Digest Identity Vocabulary Artifacts Uploads UploadLedger UploadTheorems RunEvents ControlPlane Interactions Wire Service Observation ServerSession Coordinator.

Local Open Scope N_scope.

(** ** Calls *)

Inductive ServerCall :=
| CallOpen (first : WorkerToServer)
| CallFrame (worker_id connection_id : string) (frame : WorkerToServer)
| CallClose (worker_id connection_id : string)
| CallReceiverGone (connection_id : string)
| CallEnqueue (worker_id : string) (assignment : WireAssignment)
| CallEnqueueFor (owner_id worker_id : string) (assignment : WireAssignment)
| CallReassign (expired_attempt_id worker_id replacement_attempt_id : string)
| CallCancel (attempt_id reason : string)
| CallReconcile
| CallReconcileAtStartup
| CallReap
| CallGrantRun (run_id owner_id : string)
| CallRevokeRun (run_id owner_id : string)
| CallUpload (op : UploadOp)
| CallRestart (connection_seed lease_seed : N).

Section calls.
Context {V A : Type} `{EqDecision V} `{ServiceClock} {Sha : Sha256} {Store : ArtifactStore A} {Laws : ArtifactStoreLaws A}
  {Retention : RetentionStore A}.
Implicit Types (s : Service V A).

(** One frame of a stream, with the end of the stream it may cause. *)
Definition step_stream (worker_id connection_id : string) (frame : WorkerToServer) : Svc V A Code bool :=
  goes_on ← consume_frame worker_id connection_id frame;
  if goes_on : bool then mret true else (_ ← disconnect_session worker_id connection_id; mret false).

(** A new process over the same stores; the seeds are [u64]. *)
Definition restarted (connection_seed lease_seed : N) s : Service V A :=
  MkService (sv_control s) (sv_log s) (sv_metadata s) (sv_objects s) ∅ ∅
    (connection_seed mod 2 ^ 64) (lease_seed mod 2 ^ 64) (sv_clock s).

(** An operation of the upload service, which shares the metadata and the
    objects. *)
Definition uploaded (op : UploadOp) s : Service V A :=
  match sv_metadata s, sv_objects s with
  | Some metadata, Some objects =>
      let '(metadata, objects) := run_upload op (metadata, objects) in
      MkService (sv_control s) (sv_log s) (Some metadata) (Some objects) (sv_workers s) (sv_channels s)
        (sv_connection_counter s) (sv_lease_counter s) (sv_clock s)
  | _, _ => s
  end.

Definition run_call (call : ServerCall) s : Service V A :=
  match call with
  | CallOpen first => (open_control_stream first s).1
  | CallFrame worker_id connection_id frame => (step_stream worker_id connection_id frame s).1
  | CallClose worker_id connection_id => (disconnect_session worker_id connection_id s).1
  | CallReceiverGone connection_id => close_channel connection_id s
  | CallEnqueue worker_id assignment => (enqueue_assignment worker_id assignment s).1
  | CallEnqueueFor owner_id worker_id assignment => (enqueue_assignment_for_owner owner_id worker_id assignment s).1
  | CallReassign expired worker_id replacement => (reassign_expired_attempt expired worker_id replacement s).1
  | CallCancel attempt_id reason => (cancel_attempt attempt_id reason s).1
  | CallReconcile => (reconcile_preparing_assignments s).1
  | CallReconcileAtStartup => (reconcile_preparing_assignments_at_startup s).1
  | CallReap => (reap_leases s).1
  | CallGrantRun run_id owner_id => (grant_interaction_access run_id owner_id s).1
  | CallRevokeRun run_id owner_id => (revoke_interaction_access run_id owner_id s).1
  | CallUpload op => uploaded op s
  | CallRestart connection_seed lease_seed => restarted connection_seed lease_seed s
  end.

Definition run_calls (calls : list ServerCall) s : Service V A := foldl (fun s call => run_call call s) s calls.

(** The service of a first start; [with_artifact_metadata] and
    [with_artifact_store] attach the stores. *)
Definition service_new (stores : option (UploadStore * A)) (connection_seed lease_seed : N) : Service V A :=
  MkService control_empty log_empty (fst <$> stores) (snd <$> stores) ∅ ∅
    (connection_seed mod 2 ^ 64) (lease_seed mod 2 ^ 64) 0.

(** ** Relations a computation stays within *)

Class Within (R : relation (Service V A)) {E T} (m : Svc V A E T) : Prop := within s : R s (m s).1.

Section walk.
Context (R : relation (Service V A)) `{!PreOrder R}.

#[export] Instance within_ret {E T} (x : T) : Within R (mret x : Svc V A E T).
Proof. intros s. by reflexivity. Qed.
#[export] Instance within_fail {E T} (e : E) : Within R (fail e : Svc V A E T).
Proof. intros s. by reflexivity. Qed.
#[export] Instance within_lift {E T} (r : result E T) : Within R (lift r : Svc V A E T).
Proof. intros s. by reflexivity. Qed.
#[export] Instance within_get {E} : Within R (get_service : Svc V A E _).
Proof. intros s. by reflexivity. Qed.

#[export] Instance within_map_err {E F T} (f : E -> F) (m : Svc V A E T) : Within R m -> Within R (svc_map_err f m).
Proof. intros Hm s. specialize (Hm s). unfold svc_map_err. by destruct (m s). Qed.
#[export] Instance within_attempt {E F T} (m : Svc V A E T) : Within R m -> Within R (attempt (F:=F) m).
Proof. intros Hm s. specialize (Hm s). unfold attempt. by destruct (m s). Qed.

#[export] Instance within_bind {E T U} (m : Svc V A E T) (f : T -> Svc V A E U) :
  Within R m -> (forall x, Within R (f x)) -> Within R (m ≫= f).
Proof.
  intros Hm Hf s. unfold mbind, svc_bind. specialize (Hm s). destruct (m s) as [s' [x|e]]; [|done].
  etransitivity; [exact Hm|apply Hf].
Qed.

(** Reads. *)
Lemma within_read {E T} (f : Service V A -> result E T) : Within R (fun s => (s, f s)).
Proof. intros s. by reflexivity. Qed.

Lemma within_modify {E} f : (forall s, R s (f s)) -> Within R (modify f : Svc V A E unit).
Proof. intros Hf s. apply Hf. Qed.

End walk.

(** ** Ports *)

(** What a handler does to the artifact metadata. *)
Definition handler_upload (op : UploadOp) : Prop :=
  match op with UpLocal _ _ _ | UpGrant _ => True | _ => False end.

Definition metadata_ports (a : A) (m m' : UploadStore) : Prop :=
  exists ops, Forall handler_upload ops /\ all_sourced ops (m, a) /\ run_uploads ops (m, a) = (m', a).

(** The stores change by their operations only, the objects not at all. *)
Record ports (s s' : Service V A) : Prop := {
  pt_control : exists ops, sv_control s' = run_controls ops (sv_control s);
  pt_log : exists ops, sv_log s' = run_interactions ops (sv_log s);
  pt_objects : sv_objects s' = sv_objects s;
  pt_metadata : match sv_metadata s, sv_metadata s' with
    | Some m, Some m' => forall a, sv_objects s = Some a \/ sv_objects s = None -> metadata_ports a m m'
    | None, None => True
    | _, _ => False
    end;
}.

Lemma metadata_ports_refl a m : metadata_ports a m m.
Proof. by exists []. Qed.

Lemma metadata_ports_trans a m1 m2 m3 : metadata_ports a m1 m2 -> metadata_ports a m2 m3 -> metadata_ports a m1 m3.
Proof.
  intros (ops & Hh & Hs & E) (ops' & Hh' & Hs' & E'). exists (ops ++ ops'). split; [by apply Forall_app|].
  rewrite run_uploads_app, E. split; [|done]. apply all_sourced_app. by rewrite E.
Qed.

#[export] Instance ports_preorder : PreOrder ports.
Proof.
  split.
  - intros s. split; [by exists []|by exists []|done|]. destruct (sv_metadata s); [|done]. intros a _. apply metadata_ports_refl.
  - intros s1 s2 s3 [[c1 C1] [l1 L1] O1 M1] [[c2 C2] [l2 L2] O2 M2]. split.
    + exists (c1 ++ c2). unfold run_controls. rewrite foldl_app. fold (run_controls c1 (sv_control s1)). by rewrite <-C1.
    + exists (l1 ++ l2). unfold run_interactions. rewrite foldl_app. fold (run_interactions l1 (sv_log s1)). by rewrite <-L1.
    + congruence.
    + destruct (sv_metadata s1), (sv_metadata s2), (sv_metadata s3); try done.
      intros a Ha. eapply metadata_ports_trans; [by apply M1|]. apply M2. by rewrite O1.
Qed.

(** Nothing of the stores changes. *)
Lemma ports_local s s' :
  sv_control s' = sv_control s -> sv_log s' = sv_log s -> sv_metadata s' = sv_metadata s -> sv_objects s' = sv_objects s ->
  ports s s'.
Proof.
  intros E1 E2 E3 E4. split; [by exists []|by exists []|done|]. rewrite E3. destruct (sv_metadata s); [|done].
  intros a _. apply metadata_ports_refl.
Qed.

Lemma ports_control s ops : ports s (with_control s (run_controls ops (sv_control s))).
Proof.
  split; cbn; [by exists ops|by exists []|done|]. destruct (sv_metadata s); [|done]. intros a _. apply metadata_ports_refl.
Qed.

Lemma ports_log s ops : ports s (with_log s (run_interactions ops (sv_log s))).
Proof.
  split; cbn; [by exists []|by exists ops|done|]. destruct (sv_metadata s); [|done]. intros a _. apply metadata_ports_refl.
Qed.

(** A transaction that is an operation of the repository. *)
Lemma ports_on_control {T} (t : CTxn T) op :
  (forall c, committed c (t c) = run_control op c) -> Within ports (on_control (V:=V) (A:=A) t).
Proof.
  intros Ht s. specialize (Ht (sv_control s)). unfold on_control. destruct (t (sv_control s)) as [[x c]|e]; cbn in *.
  - subst c. apply (ports_control s [op]).
  - by reflexivity.
Qed.

Lemma ports_on_control_partly {T} (t : Control -> Control * result CError T) op :
  (forall c, (t c).1 = run_control op c) -> Within ports (on_control_partly (V:=V) (A:=A) t).
Proof.
  intros Ht s. specialize (Ht (sv_control s)). unfold on_control_partly.
  destruct (t (sv_control s)) as [c r]; cbn in *. subst c. apply (ports_control s [op]).
Qed.

Lemma ports_on_log {T} (t : ITxn (V:=V) T) op :
  (forall l, settled l (t l) = run_interaction op l) -> Within ports (on_log (A:=A) t).
Proof.
  intros Ht s. specialize (Ht (sv_log s)). unfold on_log. destruct (t (sv_log s)) as [[x l]|e]; cbn in *.
  - subst l. apply (ports_log s [op]).
  - by reflexivity.
Qed.

Lemma ports_read_log {T} (f : InteractionLog V -> result InteractionError T) :
  Within ports (on_log (A:=A) (fun l => x ← f l; Ok (x, l))).
Proof.
  intros s. unfold on_log. destruct (f (sv_log s)); cbn; [|by reflexivity]. by apply ports_local.
Qed.

Lemma ports_grant (r : GrantArtifactReference) : Within ports (grant_metadata (V:=V) (A:=A) r).
Proof.
  intros s. unfold grant_metadata, on_metadata. destruct (sv_metadata s) as [m|] eqn:Em; [|by reflexivity].
  destruct (transact (grant_reference (st_quotas m) r) m) as [m' x] eqn:Et. cbn.
  split; cbn; [by exists []|by exists []|done|]. rewrite Em. intros a _.
  exists [UpGrant r]. split; [by repeat constructor|]. split; [done|]. cbn. by rewrite Et.
Qed.

(** A bundle the controller adopts is one of its own store. *)
Lemma ports_adopt worker_id digest : Within ports (adopt_controller_bundle (V:=V) (A:=A) worker_id digest).
Proof.
  intros s. unfold adopt_controller_bundle, mbind, svc_bind, mret, svc_ret, get_service, lift, now_unix_ms.
  destruct (sv_objects s) as [a|] eqn:Ea; cbn; [|by reflexivity].
  destruct (artifact_open digest a) as [reader|] eqn:Ho; cbn; [|by reflexivity].
  destruct (sv_metadata s) as [m|] eqn:Em; cbn; [|by reflexivity].
  unfold svc_map_err, on_metadata. cbn. rewrite Em.
  destruct (transact _ m) as [m' x] eqn:Et. cbn. destruct x; cbn.
  all: split; cbn; [by exists []|by exists []|done|]; rewrite Em; intros b Hb.
  all: destruct Hb as [Hb|Hb]; [|congruence]; assert (b = a) as -> by congruence.
  all: exists [UpLocal worker_id (rd_identity reader) (clock_reading (sv_clock s))].
  all: split; [by repeat constructor|]; split; [|cbn; by rewrite Et].
  all: cbn; split; [|done]; exists reader; split; [|done].
  all: by rewrite (proj1 (open_Ok _ _ _ Ho)).
Qed.

End calls.

(** Steps through the constructs of a computation. *)
Ltac walk :=
  repeat first
    [ exact _ | assumption
    | simple apply within_bind; [exact _| |intros ?]
    | simple apply within_map_err | simple apply within_attempt
    | lazymatch goal with |- Within _ (match ?x with _ => _ end) => destruct x end ].

(** ** Handlers *)

(** A relation every access of a handler to the stores and the clock stays
    within. *)
Class HandlerSteps {V A : Type} `{EqDecision V} `{ServiceClock} `{ArtifactStore A} (R : relation (Service V A)) : Prop := {
  hs_preorder :: PreOrder R;
  hs_control {T} (t : CTxn T) op : (forall c, committed c (t c) = run_control op c) -> Within R (on_control t);
  hs_control_partly {T} (t : Control -> Control * result CError T) op :
    (forall c, (t c).1 = run_control op c) -> Within R (on_control_partly t);
  hs_log {T} (t : ITxn (V:=V) T) op : (forall l, settled l (t l) = run_interaction op l) -> Within R (on_log t);
  hs_read_log {T} (f : InteractionLog V -> result InteractionError T) :
    Within R (on_log (fun l => x ← f l; Ok (x, l)));
  hs_grant r :: Within R (grant_metadata r);
  hs_adopt w d :: Within R (adopt_controller_bundle w d);
  hs_now {E} :: Within R (now_unix_ms : Svc V A E N);
}.

Section observing.
Context {V A : Type} `{EqDecision V} `{ServiceClock} `{ArtifactStore A} (R : relation (Service V A)) `{!HandlerSteps R}.

(** Every transaction is an operation. *)
#[export] Instance observe_op_steps o : Within R (on_control (V:=V) (A:=A) (observe_attempt o)).
Proof. by apply (hs_control _ (COpObserve o)). Qed.
#[export] Instance renew_steps w l t d : Within R (on_control (V:=V) (A:=A) (renew_active_leases w l t d)).
Proof. by apply (hs_control _ (COpRenew w l t d)). Qed.
#[export] Instance compact_steps c n t : Within R (on_control (V:=V) (A:=A) (compact_server_frames c n t)).
Proof. by apply (hs_control _ (COpCompact c n t)). Qed.
#[export] Instance sequences_steps c w n a t : Within R (on_control_partly (V:=V) (A:=A) (update_connection_sequences c w n a t)).
Proof. by apply (hs_control_partly _ (COpSequences c w n a t)). Qed.
#[export] Instance delivery_steps p : Within R (on_control_partly (V:=V) (A:=A) (prepare_assignment_delivery p)).
Proof. by apply (hs_control_partly _ (COpPrepare p)). Qed.
#[export] Instance frame_steps f t : Within R (on_control (V:=V) (A:=A) (record_server_frame f t)).
Proof. by apply (hs_control _ (COpFrame f t)). Qed.
#[export] Instance expire_steps t : Within R (on_control (V:=V) (A:=A) (expire_leases t)).
Proof. by apply (hs_control _ (COpExpire t)). Qed.
#[export] Instance prune_steps t : Within R (on_control (V:=V) (A:=A) (prune_orphaned_server_frames t)).
Proof. by apply (hs_control _ (COpPruneFrames t)). Qed.
#[export] Instance register_worker_steps r n : Within R (on_control (V:=V) (A:=A) (register_worker r n)).
Proof. by apply (hs_control _ (COpRegister r n)). Qed.
#[export] Instance disconnect_steps c t : Within R (on_control (V:=V) (A:=A) (disconnect c t)).
Proof. by apply (hs_control _ (COpDisconnect c t)). Qed.
#[export] Instance store_steps w a t : Within R (on_control (V:=V) (A:=A) (store_assignment w a t)).
Proof. by apply (hs_control _ (COpStore w a t)). Qed.
#[export] Instance dispatchable_steps a w t : Within R (on_control (V:=V) (A:=A) (mark_assignment_dispatchable a w t)).
Proof. by apply (hs_control _ (COpDispatchable a w t)). Qed.
#[export] Instance reassign_steps e w r t : Within R (on_control (V:=V) (A:=A) (reassign_expired e w r t)).
Proof. by apply (hs_control _ (COpReassign e w r t)). Qed.
#[export] Instance cancellation_steps a r t : Within R (on_control (V:=V) (A:=A) (ControlPlane.request_cancellation a r t)).
Proof. by apply (hs_control _ (COpCancel a r t)). Qed.
#[export] Instance defer_steps a w t : Within R (on_control (V:=V) (A:=A) (defer_assignment_preparation a w t)).
Proof. by apply (hs_control _ (COpDefer a w t)). Qed.
#[export] Instance append_steps k f : Within R (on_log (V:=V) (A:=A) (append k f)).
Proof. by apply (hs_log _ (AppendEvent k f)). Qed.
#[export] Instance append_output_steps k a st off p f : Within R (on_log (V:=V) (A:=A) (append_output k a st off p f)).
Proof. by apply (hs_log _ (AppendOutput k a st off p f)). Qed.
#[export] Instance grant_run_steps r o t : Within R (on_log (V:=V) (A:=A) (grant_run_access r o t)).
Proof. by apply (hs_log _ (GrantRun r o t)). Qed.
#[export] Instance revoke_run_steps r o t : Within R (on_log (V:=V) (A:=A) (revoke_run_access r o t)).
Proof. by apply (hs_log _ (RevokeRun r o t)). Qed.
#[export] Instance events_steps r n m :
  Within R (on_log (V:=V) (A:=A) (fun l => events ← events_after r n m l; Ok (events, l))).
Proof. apply (hs_read_log (events_after r n m)). Qed.

(** Reads. *)
#[export] Instance known_steps k : Within R (known_assignment (V:=V) (A:=A) k).
Proof. intros s. by reflexivity. Qed.
#[export] Instance finalized_steps w k : Within R (finalized_upload (V:=V) (A:=A) w k).
Proof. intros s. by reflexivity. Qed.

(** The projection. *)
#[export] Instance run_started_steps contract t : Within R (record_run_started (V:=V) (A:=A) contract t).
Proof. unfold record_run_started. walk. Qed.
#[export] Instance command_started_steps w k t : Within R (record_command_started (V:=V) (A:=A) w k t).
Proof. unfold record_command_started. walk. Qed.
#[export] Instance artifacts_steps w k contract t l : Within R (record_artifacts (V:=V) (A:=A) w k contract t l).
Proof. induction l as [|[[x|] reference] l IH]; cbn; walk. Qed.
#[export] Instance command_finished_steps w f t : Within R (record_command_finished (V:=V) (A:=A) w f t).
Proof. unfold record_command_finished. walk. Qed.
#[export] Instance output_steps w o t : Within R (observe_output (V:=V) (A:=A) w o t).
Proof. unfold observe_output. walk. Qed.

(** The observer. *)
#[export] Instance validate_and_grant_steps w t l : Within R (validate_and_grant (V:=V) (A:=A) w t l).
Proof. induction l as [|[[[x k] kind] purpose] l IH]; cbn; walk. Qed.
#[export] Instance observe_steps w x k t o : Within R (observe (V:=V) (A:=A) w x k t o).
Proof. unfold observe. walk. Qed.
#[export] Instance observe_started_steps w x k t : Within R (observe_started (V:=V) (A:=A) w x k t).
Proof. unfold observe_started. walk. Qed.
#[export] Instance observe_finished_steps w f t : Within R (observe_finished (V:=V) (A:=A) w f t).
Proof. unfold observe_finished, validate_and_grant_finished_artifacts. walk. Qed.
#[export] Instance ignore_steps {T} (m : Svc V A Code T) : Within R m -> Within R (ignore m).
Proof. intros Hm. unfold ignore. walk. Qed.
#[export] Instance observe_message_steps w m t : Within R (observe_message (V:=V) (A:=A) w m t).
Proof.
  destruct m as [[]|]; cbn; unfold observe_heartbeat, observe_accepted, observe_rejection, observe_cancellation_acknowledged;
    walk; apply ignore_steps; walk.
Qed.

(** Inputs. *)
#[export] Instance input_steps w contract t : Within R (grant_fixed_fixture_assignment_input (V:=V) (A:=A) w contract t).
Proof. unfold grant_fixed_fixture_assignment_input. walk. Qed.

End observing.

Section handlers.
Context {V A : Type} `{EqDecision V} `{ServiceClock} {Sha : Sha256} {Store : ArtifactStore A} {Laws : ArtifactStoreLaws A}
  {Retention : RetentionStore A}.

#[export] Instance ports_steps : HandlerSteps (ports (V:=V) (A:=A)).
Proof.
  split; [exact _|..].
  - intros T t op. apply ports_on_control.
  - intros T t op. apply ports_on_control_partly.
  - intros T t op. apply ports_on_log.
  - intros T f. apply ports_read_log.
  - intros r. apply ports_grant.
  - intros w d. apply ports_adopt.
  - intros E s. by apply ports_local.
Qed.

(** What is local to the process. *)
Ltac local_step := intros ?; apply ports_local; done.

#[local] Instance next_connection_ports {E} : Within ports (next_connection : Svc V A E N).
Proof. local_step. Qed.
#[local] Instance next_lease_ports {E} : Within ports (next_lease : Svc V A E N).
Proof. local_step. Qed.
#[local] Instance send_ports {E} c m : Within ports (send c m : Svc V A E bool).
Proof. intros s. unfold send. repeat case_match; apply ports_local; done. Qed.
#[local] Instance update_ports {E} w f : Within ports (modify (update_record w f) : Svc V A E unit).
Proof. local_step. Qed.
#[local] Instance take_ports {E} w n : Within ports (take_sequence w n : Svc V A E bool).
Proof. intros s. unfold take_sequence. repeat case_match; apply ports_local; done. Qed.
#[local] Instance snapshot_ports {E} w p : Within ports (delivery_snapshot w p : Svc V A E _).
Proof. local_step. Qed.
#[local] Instance check_ports w c frame : Within ports (ingest_check (V:=V) (A:=A) w c frame).
Proof. local_step. Qed.
#[local] Instance record_ports w c frame : Within ports (ingest_record (V:=V) (A:=A) w c frame).
Proof. intros s. unfold ingest_record. repeat case_match; apply ports_local; done. Qed.
#[local] Instance admit_ports {E} h c : Within ports (modify (admit_connection h c) : Svc V A E unit).
Proof. local_step. Qed.


(** Deliveries and sessions. *)
#[local] Instance transport_ack_ports w c : Within ports (prepare_transport_ack (V:=V) (A:=A) w c).
Proof. unfold prepare_transport_ack, prepared_frame. walk. Qed.
#[local] Instance prepare_assignment_ports w k : Within ports (prepare_assignment (V:=V) (A:=A) w k).
Proof. unfold prepare_assignment, prepared_frame. walk. Qed.
#[local] Instance prepare_cancel_ports w k r : Within ports (prepare_cancel (V:=V) (A:=A) w k r).
Proof. unfold prepare_cancel, prepared_frame. walk. Qed.
#[local] Instance replay_ports w l : Within ports (replay_assignments (V:=V) (A:=A) w l).
Proof. induction l as [|x l IH]; cbn; unfold replay_assignment; walk. Qed.
#[local] Instance register_ports h : Within ports (register (V:=V) (A:=A) h).
Proof. unfold register, register_connection. walk. Qed.
#[local] Instance send_all_ports c l : Within ports (send_all (V:=V) (A:=A) c l).
Proof. induction l as [|m l IH]; cbn; walk. Qed.
#[local] Instance ingest_ports w c f : Within ports (ingest (V:=V) (A:=A) w c f).
Proof. unfold ingest, ingest_persist. walk. Qed.
#[local] Instance disconnect_session_ports w c : Within ports (disconnect_session (V:=V) (A:=A) w c).
Proof.
  unfold disconnect_session. walk. apply within_modify. intros s. by repeat case_match; apply ports_local.
Qed.
#[local] Instance step_stream_ports w c f : Within ports (step_stream (V:=V) (A:=A) w c f).
Proof. unfold step_stream, consume_frame. walk. Qed.

Lemma open_ports first : Within ports (open_control_stream (V:=V) (A:=A) first).
Proof.
  intros s. unfold open_control_stream. destruct (first_hello first) as [hello|e]; [|by reflexivity]. cbn.
  pose proof (within_map_err ports repository_status _ (register_ports hello) s) as Hr.
  destruct (svc_map_err repository_status (register hello) s) as [s1 [[c messages]|e]]; cbn in *.
  - pose proof (send_all_ports c messages s1) as Hm.
    destruct (send_all c messages s1) as [s2 [x|e]]; cbn in *; (etransitivity; [exact Hr|]); [done|].
    etransitivity; [exact Hm|]. by apply ports_local.
  - etransitivity; [exact Hr|]. by apply ports_local.
Qed.

(** Assignments. *)
#[local] Instance send_prepared_ports {E} w o : Within ports (send_prepared w o : Svc V A E EnqueueOutcome).
Proof. unfold send_prepared, mark_send_failed. walk. Qed.
#[local] Instance enqueue_ports w x : Within ports (enqueue_assignment (V:=V) (A:=A) w x).
Proof. unfold enqueue_assignment, prepare_enqueue. walk. Qed.
Lemma enqueue_for_ports o w x : Within ports (enqueue_assignment_for_owner (V:=V) (A:=A) o w x).
Proof. unfold enqueue_assignment_for_owner. walk. Qed.
Lemma reassign_ports e w r : Within ports (reassign_expired_attempt (V:=V) (A:=A) e w r).
Proof. unfold reassign_expired_attempt, prepare_reassign. walk. Qed.
Lemma cancel_ports k r : Within ports (cancel_attempt (V:=V) (A:=A) k r).
Proof. unfold cancel_attempt, mark_send_failed. walk. Qed.

#[local] Instance reconcile_preparation_ports x t : Within ports (reconcile_preparation (V:=V) (A:=A) x t).
Proof. unfold reconcile_preparation. walk. Qed.
#[local] Instance reconcile_all_ports l r : Within ports (reconcile_all (V:=V) (A:=A) l r).
Proof. revert r. induction l as [|x l IH]; intros r; cbn; unfold reconcile_one; walk. Qed.
#[local] Instance reconcile_ports : Within ports (reconcile_preparing_assignments (V:=V) (A:=A)).
Proof. unfold reconcile_preparing_assignments. walk. Qed.
#[local] Instance passes_ports n r : Within ports (reconcile_passes (V:=V) (A:=A) n r).
Proof. revert r. induction n as [|n IH]; intros r; cbn; walk. Qed.

(** Every call but an upload reaches the stores through their operations. *)
Lemma run_call_ports call (s : Service V A) :
  (forall op, call <> CallUpload op) -> ports s (run_call call s).
Proof.
  intros Hc. destruct call; cbn [run_call].
  - apply open_ports.
  - apply step_stream_ports.
  - apply disconnect_session_ports.
  - by apply ports_local.
  - apply enqueue_ports.
  - apply enqueue_for_ports.
  - apply reassign_ports.
  - apply cancel_ports.
  - apply reconcile_ports.
  - unfold reconcile_preparing_assignments_at_startup. apply (within (R:=ports)); walk.
  - unfold reap_leases. apply (within (R:=ports)); walk.
  - unfold grant_interaction_access. apply (within (R:=ports)); walk.
  - unfold revoke_interaction_access. apply (within (R:=ports)); walk.
  - by destruct (Hc op).
  - by apply ports_local.
Qed.

Lemma not_upload (call : ServerCall) : (forall op, call <> CallUpload op) \/ exists op, call = CallUpload op.
Proof. destruct call; eauto; left; discriminate. Qed.

(** The control repository needs no more than that. *)
Lemma run_calls_control calls (s : Service V A) :
  exists ops, sv_control (run_calls calls s) = run_controls ops (sv_control s).
Proof.
  revert s. induction calls as [|call calls IH]; intros s; [by exists []|].
  assert (exists ops, sv_control (run_call call s) = run_controls ops (sv_control s)) as [ops E].
  { destruct (not_upload call) as [Hne|[op ->]]; [apply (run_call_ports call s Hne)|].
    exists []. change (run_call (CallUpload op) s) with (uploaded op s). unfold uploaded. by repeat case_match. }
  destruct (IH (run_call call s)) as [ops' E']. exists (ops ++ ops').
  change (run_calls (call :: calls) s) with (run_calls calls (run_call call s)). rewrite E', E. unfold run_controls. by rewrite foldl_app.
Qed.

(** ** Sequences of calls *)

(** A client does not reach the controller's own adoption of bundles. *)
Definition client_call (call : ServerCall) : Prop :=
  match call with CallUpload (UpLocal _ _ _) => False | _ => True end.

(** From one moment to a later one: the operations every store went
    through. *)
Record carried (calls : list ServerCall) (s s' : Service V A) : Prop := {
  cr_control : exists ops, sv_control s' = run_controls ops (sv_control s);
  cr_log : exists ops, sv_log s' = run_interactions ops (sv_log s);
  cr_stores m a : sv_metadata s = Some m -> sv_objects s = Some a ->
    exists m' a' ops, sv_metadata s' = Some m' /\ sv_objects s' = Some a'
      /\ Forall (fun op => handler_upload op \/ CallUpload op ∈ calls) ops
      /\ all_sourced ops (m, a) /\ run_uploads ops (m, a) = (m', a');
}.

Lemma carried_refl calls s : carried calls s s.
Proof. split; [by exists []|by exists []|]. intros m a Hm Ha. by exists m, a, []. Qed.

Lemma carried_trans calls calls' s1 s2 s3 :
  carried calls s1 s2 -> carried calls' s2 s3 -> carried (calls ++ calls') s1 s3.
Proof.
  intros [[c1 C1] [l1 L1] M1] [[c2 C2] [l2 L2] M2]. split.
  - exists (c1 ++ c2). unfold run_controls. rewrite foldl_app. fold (run_controls c1 (sv_control s1)). by rewrite <-C1.
  - exists (l1 ++ l2). unfold run_interactions. rewrite foldl_app. fold (run_interactions l1 (sv_log s1)). by rewrite <-L1.
  - intros m a Hm Ha. destruct (M1 _ _ Hm Ha) as (m1 & a1 & ops1 & Hm1 & Ha1 & F1 & S1 & E1).
    destruct (M2 _ _ Hm1 Ha1) as (m2 & a2 & ops2 & Hm2 & Ha2 & F2 & S2 & E2).
    exists m2, a2, (ops1 ++ ops2). split; [done|]. split; [done|]. split; [|split].
    + apply Forall_app. split.
      * eapply Forall_impl; [exact F1|]. intros op [Ho|Ho]; [by left|right]. apply elem_of_app. by left.
      * eapply Forall_impl; [exact F2|]. intros op [Ho|Ho]; [by left|right]. apply elem_of_app. by right.
    + apply all_sourced_app. by rewrite E1.
    + by rewrite run_uploads_app, E1.
Qed.

Lemma run_call_carried call (s : Service V A) : client_call call -> carried [call] s (run_call call s).
Proof.
  intros Hc. destruct (not_upload call) as [Hne|[op ->]].
  - destruct (run_call_ports call s Hne) as [Hk Hl Ho Hm]. split; [done|done|]. intros m a Em Ea.
    rewrite Em in Hm. destruct (sv_metadata (run_call call s)) as [m'|] eqn:Em'; [|done].
    destruct (Hm a) as (ops & Hh & Hs & E); [by left|]. exists m', a, ops. split; [done|].
    split; [congruence|]. split; [|done]. eapply Forall_impl; [exact Hh|]. by left.
  - change (run_call _ s) with (uploaded op s). unfold uploaded. split.
    + exists []. by repeat case_match.
    + exists []. by repeat case_match.
    + intros m a -> ->. destruct (run_upload op (m, a)) as [m' a'] eqn:E. exists m', a', [op].
      split; [done|]. split; [done|]. split; [repeat constructor; right; by apply list_elem_of_singleton|].
      split; [|exact E]. split; [|done]. by destruct op.
Qed.

Lemma run_calls_carried calls (s : Service V A) : Forall client_call calls -> carried calls s (run_calls calls s).
Proof.
  intros Hc. revert s. induction Hc as [|call calls Hcall _ IH]; intros s; [apply carried_refl|].
  apply (carried_trans [call] calls _ (run_call call s)); [by apply run_call_carried|apply IH].
Qed.

Lemma server_calls_app calls later (s : Service V A) : run_calls (calls ++ later) s = run_calls later (run_calls calls s).
Proof. apply foldl_app. Qed.

End handlers.
