(* ===== verification/SessionInvariant.v ===== *)
(** * The invariant of the sessions

    What holds of every connection of the server between two calls: the
    frames on its channel are numbered without a gap, carry the identity
    their message must have, and acknowledge only frames of the worker whose
    observation is stored.  While a call is under way some frames are
    prepared and not sent yet; the invariant counts them as pending. *)

From stdpp Require Import base strings pretty gmap sorting list.
From S2P Require Import Prelude Text Digest Identity Vocabulary Artifacts Uploads UploadLedger UploadTheorems RunEvents ControlPlane ControlTheorems Interactions Wire Service Observation ServerSession Coordinator ServerCalls.

Local Open Scope N_scope.

(** ** Streams *)

(** The frames of the workers that were ingested: who sent them, on which
    connection. *)
Definition Ingested : Type := list (string * string * WorkerToServer).

(** Every frame of the worker up to an acknowledgement was ingested; the
    first, the hello, is consumed by the registration. *)
Definition ingested_through (G : Ingested) (c : string) (k : N) : Prop :=
  forall j, 2 <= j <= k -> exists wid f, (wid, c, f) ∈ G /\ wm_sequence f = j.

(** The frames on a channel. *)
Definition frames_of (ch : Channel) : list ServerToWorker :=
  omap (fun r : result Code ServerToWorker => match r with Ok m => Some m | Err _ => None end) (ch_sent ch).

(** A frame with the identity of its message. *)
Definition well_named (m : ServerToWorker) : Prop :=
  sm_message_id m = default EmptyString (expected_server_message_id (sm_message m)).

Record stream_ok (G : Ingested) (c : string) (last : N) (l : list ServerToWorker) : Prop := {
  st_numbers : forall i m, l !! i = Some m -> sm_sequence m = N.of_nat i + 1;
  st_acks : forall i j m m', (i <= j)%nat -> l !! i = Some m -> l !! j = Some m' ->
    sm_acknowledges_worker_through m <= sm_acknowledges_worker_through m';
  st_last : forall m, m ∈ l -> sm_acknowledges_worker_through m <= last;
  st_names : forall m, m ∈ l -> well_named m;
  st_ingested : forall m, m ∈ l -> ingested_through G c (sm_acknowledges_worker_through m);
}.

Lemma ingested_mono G G' c k : G ⊆ G' -> ingested_through G c k -> ingested_through G' c k.
Proof. intros Hg H j Hj. destruct (H j Hj) as (wid & f & Hf & E). exists wid, f. split; [by apply Hg|done]. Qed.

Lemma stream_nil G c last : stream_ok G c last [].
Proof. split; try done; try (by intros m ?%elem_of_nil). Qed.

Lemma stream_mono G G' c last last' l : G ⊆ G' -> last <= last' -> stream_ok G c last l -> stream_ok G' c last' l.
Proof.
  intros Hg Hl [H1 H2 H3 H4 H5]. split; try done.
  - intros m Hm. specialize (H3 m Hm). lia.
  - intros m Hm. eapply ingested_mono; [done|by apply H5].
Qed.

Lemma lookup_snoc_Some {X} (l : list X) m i x : (l ++ [m]) !! i = Some x -> l !! i = Some x \/ i = length l /\ x = m.
Proof.
  intros [H|[Hl [Hi ->]%list_lookup_singleton_Some]]%lookup_app_Some; [by left|right]. split; [lia|done].
Qed.

Lemma stream_snoc G c last l m :
  stream_ok G c last l -> sm_sequence m = N.of_nat (length l) + 1 -> sm_acknowledges_worker_through m = last ->
  well_named m -> ingested_through G c last -> stream_ok G c last (l ++ [m]).
Proof.
  intros [H1 H2 H3 H4 H5] Hs Ha Hn Hi. split.
  - intros i x [Hx|[-> ->]]%lookup_snoc_Some; [by apply H1|done].
  - intros i j x y Hij [Hx|[-> ->]]%lookup_snoc_Some [Hy|[-> ->]]%lookup_snoc_Some; [by apply (H2 i j)| | |lia].
    + rewrite Ha. by apply H3, list_elem_of_lookup_2 with i.
    + apply lookup_lt_Some in Hy. lia.
  - intros x [Hx|<-%list_elem_of_singleton]%elem_of_app; [by apply H3|]. rewrite Ha. lia.
  - intros x [Hx|<-%list_elem_of_singleton]%elem_of_app; [by apply H4|done].
  - intros x [Hx|<-%list_elem_of_singleton]%elem_of_app; [by apply H5|]. by rewrite Ha.
Qed.

Lemma stream_prefix G c last l k : stream_ok G c last (l ++ k) -> stream_ok G c last l.
Proof.
  intros [H1 H2 H3 H4 H5]. split.
  - intros i m Hm. apply H1. by apply lookup_app_l_Some.
  - intros i j m m' Hij Hm Hm'. by apply (H2 i j); [|apply lookup_app_l_Some..].
  - intros m Hm. apply H3, elem_of_app. by left.
  - intros m Hm. apply H4, elem_of_app. by left.
  - intros m Hm. apply H5, elem_of_app. by left.
Qed.

(** ** Observations *)

(** An observation of the worker is stored. *)
Definition has_observation (wid attempt_id : string) (o : AttemptObservation) (c : Control) : Prop :=
  exists row, row ∈ c_observations c /\ or_attempt_id row = attempt_id /\ or_worker_id row = wid
    /\ or_observation row = o.

(** What a durable message of a worker reports is stored. *)
Definition observed (wid : string) (frame : WorkerToServer) (c : Control) : Prop :=
  match wm_message frame with
  | Some (WAccepted _ k b) => has_observation wid k (OAccepted b) c
  | Some (WRejected _ k reason detail) =>
      exists r, rejection_reason_try_from reason = Ok r /\ has_observation wid k (ORejected r detail) c
  | Some (WStarted _ k) => has_observation wid k OStarted c
  | Some (WFinished f) =>
      exists o, finished_observation_of f = Ok o /\ has_observation wid (wf_attempt_id f) (OFinished o) c
  | Some (WCancelAcknowledged _ k b) => has_observation wid k (OCancellationAcknowledged b) c
  | Some (WHello _ | WHeartbeat _ | WOutput _ | WStatus _ _) | None => True
  end.

Lemma has_observation_after wid k o c c' :
  c_observations c `prefix_of` c_observations c' -> has_observation wid k o c -> has_observation wid k o c'.
Proof. intros Hp (row & Hr & H). exists row. split; [|done]. by eapply elem_of_prefix. Qed.

Lemma observed_after wid frame c c' :
  c_observations c `prefix_of` c_observations c' -> observed wid frame c -> observed wid frame c'.
Proof.
  intros Hp. unfold observed. repeat case_match; try done; try (by apply has_observation_after);
    intros (x & Hx & H'); (exists x; split; [done|]); by eapply has_observation_after.
Qed.

Section invariant.
Context {V A : Type} `{EqDecision V} `{ServiceClock} {Sha : Sha256} {Store : ArtifactStore A} {Laws : ArtifactStoreLaws A}
  {Retention : RetentionStore A}.
Implicit Types (s : Service V A).

(** ** Sessions *)

(** The pending frames of a connection. *)
Definition pending_for (c0 : string) (pend : list ServerToWorker) (c : string) : list ServerToWorker :=
  if decide (c = c0) then pend else [].

(** The record of a worker and its channel. *)
Record record_ok (G : Ingested) (pend : list ServerToWorker) (w : WorkerRecord) (ch : Channel) : Prop := {
  rc_ingested : ingested_through G (wo_connection_id w) (wo_last_worker_sequence w);
  rc_stream : stream_ok G (wo_connection_id w) (wo_last_worker_sequence w) (frames_of ch ++ pend);
  rc_next : 1 <= wo_next_server_sequence w;
  rc_sent : ch_open ch = true -> N.of_nat (length (frames_of ch ++ pend)) = wo_next_server_sequence w - 1;
}.

(** The names of the connections are those the counter has given. *)
Definition names_ok (n : N) s : Prop :=
  exists seed, sv_connection_counter s = (seed + n) mod 2 ^ 64
    /\ forall c, is_Some (sv_channels s !! c) -> exists i, i < n /\ c = connection_name ((seed + i) mod 2 ^ 64).

Record sessions_ok (G : Ingested) (n : N) (c0 : string) (pend : list ServerToWorker) s : Prop := {
  se_control : CInv (sv_control s);
  se_observed : forall wid c f, (wid, c, f) ∈ G -> observed wid f (sv_control s);
  se_streams : forall c ch, sv_channels s !! c = Some ch -> exists last, stream_ok G c last (frames_of ch);
  se_records : forall wid w, sv_workers s !! wid = Some w ->
    exists ch, sv_channels s !! wo_connection_id w = Some ch
    /\ record_ok G (if ch_open ch then pending_for c0 pend (wo_connection_id w) else []) w ch;
  se_distinct : forall wid wid' w w', sv_workers s !! wid = Some w -> sv_workers s !! wid' = Some w' ->
    wo_connection_id w = wo_connection_id w' -> wid = wid';
  se_owner : pend = [] \/ exists wid w, sv_workers s !! wid = Some w /\ wo_connection_id w = c0;
  se_names : names_ok n s;
}.

Lemma sessions_no_pending G n c0 c1 s : sessions_ok G n c0 [] s -> sessions_ok G n c1 [] s.
Proof.
  intros [H1 H2 H3 H4 H5 H6 H7]. split; try done; [|by left]. intros wid w Hw.
  destruct (H4 wid w Hw) as (ch & Hch & Hr). exists ch. split; [done|]. by unfold pending_for in *; repeat case_decide.
Qed.

(** Nothing of the sessions changes. *)
Definition calm s s' : Prop :=
  sv_workers s' = sv_workers s /\ sv_channels s' = sv_channels s
  /\ sv_connection_counter s' = sv_connection_counter s /\ ports s s'.

#[export] Instance calm_preorder : PreOrder calm.
Proof.
  split; [intros s; split_and!; [done..|by reflexivity]|]. intros s1 s2 s3 (A1 & B1 & C1 & P1) (A2 & B2 & C2 & P2).
  split_and!; [congruence..|by etransitivity].
Qed.

Lemma ports_after s s' : ports s s' -> CInv (sv_control s) ->
  CInv (sv_control s') /\ c_observations (sv_control s) `prefix_of` c_observations (sv_control s').
Proof.
  intros [[ops E] _ _ _] Hc. rewrite E. destruct (run_controls_keeps ops _ Hc) as [H1 H2]. split; [done|apply H2].
Qed.

Lemma sessions_calm G n c0 pend s s' : calm s s' -> sessions_ok G n c0 pend s -> sessions_ok G n c0 pend s'.
Proof.
  intros (E1 & E2 & E3 & Hp) [H1 H2 H3 H4 H5 H6 (seed & H7 & H8)]. destruct (ports_after _ _ Hp H1) as [Hc Ho].
  split; rewrite ?E1, ?E2; try done.
  - intros wid c f Hf. eapply observed_after; [exact Ho|by eapply H2].
  - exists seed. by rewrite E2, E3.
Qed.

#[export] Instance calm_steps : HandlerSteps calm.
Proof.
  split; [exact _|..].
  - intros T t op Ht s. unfold on_control. pose proof (ports_on_control t op Ht s) as Hp. unfold on_control in Hp.
    by destruct (t (sv_control s)) as [[x c]|e].
  - intros T t op Ht s. pose proof (ports_on_control_partly t op Ht s) as Hp. unfold on_control_partly in *.
    by destruct (t (sv_control s)).
  - intros T t op Ht s. pose proof (ports_on_log t op Ht s) as Hp. unfold on_log in *.
    by destruct (t (sv_log s)) as [[x c]|e].
  - intros T f s. pose proof (ports_read_log f s) as Hp. unfold on_log in *. by destruct (f (sv_log s)).
  - intros r s. pose proof (ports_grant r s) as Hp. unfold grant_metadata, on_metadata in *.
    destruct (sv_metadata s) as [m|]; [|done]. by destruct (transact _ m).
  - intros w d s. pose proof (ports_adopt w d s) as Hp.
    unfold adopt_controller_bundle, mbind, svc_bind, mret, svc_ret, get_service, lift, now_unix_ms, svc_map_err, on_metadata in *.
    destruct (sv_objects s); cbn in *; [|done]. destruct (artifact_open d a); cbn in *; [|done].
    destruct (sv_metadata s) as [m|]; cbn in *; [|done]. destruct (transact _ m) as [m' [x|e]]; done.
  - intros E s. split_and!; [done..|by apply ports_local].
Qed.

End invariant.
