(* ===== verification/SessionSteps.v ===== *)
(** * The steps of a session

    Every step of a handler keeps [sessions_ok]: deliveries add a pending
    frame, sends take one off, the ingestion of a frame moves the cursor of
    its connection. *)

From stdpp Require Import base strings pretty gmap sorting list.
From S2P Require Import Prelude Text Digest Identity Vocabulary Artifacts Uploads UploadLedger UploadTheorems RunEvents ControlPlane ControlTheorems Interactions Wire Service Observation ServerSession Coordinator ServerCalls SessionInvariant.

Local Open Scope N_scope.

Section steps.
Context {V A : Type} `{EqDecision V} `{ServiceClock} {Sha : Sha256} {Store : ArtifactStore A} {Laws : ArtifactStoreLaws A}
  {Retention : RetentionStore A}.
Implicit Types (s : Service V A).

Lemma bind_inv {E T U} (m : Svc V A E T) (f : T -> Svc V A E U) s s' r :
  (m ≫= f) s = (s', r) ->
  (exists e, m s = (s', Err e) /\ r = Err e) \/ exists s1 x, m s = (s1, Ok x) /\ f x s1 = (s', r).
Proof.
  unfold mbind, svc_bind. destruct (m s) as [s1 [x|e]]; [by right; exists s1, x|]. intros [= -> <-]. left. by exists e.
Qed.

(** ** Local steps *)

(** Two services with the same stores. *)
Lemma sessions_same G n c0 pend s s' :
  sv_control s' = sv_control s -> sv_connection_counter s' = sv_connection_counter s ->
  sv_channels s' = sv_channels s -> sv_workers s' = sv_workers s ->
  sessions_ok G n c0 pend s -> sessions_ok G n c0 pend s'.
Proof.
  intros E1 E2 E3 E4 [H1 H2 H3 H4 H5 H6 (seed & H7 & H8)]. split; rewrite ?E1, ?E3, ?E4; try done.
  exists seed. by rewrite E2, E3.
Qed.

(** An update of a record that only moves its counter with its pending
    frames. *)
Lemma sessions_record_update G n c0 c1 pend pend' s wid f w :
  sv_workers s !! wid = Some w -> wo_connection_id (f w) = wo_connection_id w ->
  sessions_ok G n c0 pend s ->
  (forall wid' w', wid' <> wid -> sv_workers s !! wid' = Some w' -> pending_for c1 pend' (wo_connection_id w') = pending_for c0 pend (wo_connection_id w')) ->
  (forall ch, record_ok G (if ch_open ch then pending_for c0 pend (wo_connection_id w) else []) w ch ->
     record_ok G (if ch_open ch then pending_for c1 pend' (wo_connection_id w) else []) (f w) ch) ->
  (pend' = [] \/ c1 = wo_connection_id w \/ (pend' = pend /\ c1 = c0)) ->
  sessions_ok G n c1 pend' (update_record wid f s).
Proof.
  intros Hw Hc [H1 H2 H3 H4 H5 H6 H7] Hother Hrec Howner. split; cbn; try done.
  - intros wid' w'. rewrite lookup_alter_Some. intros [(-> & w0 & Hw0 & ->)|[Hne Hw']].
    + assert (w0 = w) as -> by congruence. rewrite Hc. destruct (H4 _ _ Hw) as (ch & Hch & Hr).
      exists ch. split; [done|]. by apply Hrec.
    + destruct (H4 _ _ Hw') as (ch & Hch & Hr). exists ch. split; [done|]. by rewrite (Hother wid').
  - intros wid1 wid2 w1 w2. rewrite !lookup_alter_Some.
    intros [(<- & x & Hx & ->)|[Hn1 Hx1]] [(<- & y & Hy & ->)|[Hn2 Hx2]]; [done|..|by apply H5].
    + assert (x = w) as -> by congruence. rewrite Hc. intros E. by eapply H5.
    + assert (y = w) as -> by congruence. rewrite Hc. intros E. by eapply H5.
  - assert (forall wid' w', sv_workers s !! wid' = Some w' -> exists wid'' w'', alter f wid (sv_workers s) !! wid'' = Some w''
       /\ wo_connection_id w'' = wo_connection_id w') as Hkeep.
    { intros wid' w' Hw'. destruct (decide (wid' = wid)) as [->|Hne].
      - exists wid, (f w). rewrite lookup_alter_eq, Hw. split; [done|]. rewrite Hc. congruence.
      - exists wid', w'. by rewrite lookup_alter_ne. }
    destruct Howner as [->|[->|[-> ->]]]; [by left|right; by apply (Hkeep wid)|].
    destruct H6 as [->|(wid' & w' & Hw' & <-)]; [by left|right; by apply (Hkeep wid')].
Qed.

(** [with_connected]. *)
Lemma sessions_connected G n c0 pend s wid b :
  sessions_ok G n c0 pend s -> sessions_ok G n c0 pend (update_record wid (with_connected b) s).
Proof.
  intros Hs. destruct (sv_workers s !! wid) as [w|] eqn:Hw.
  - apply (sessions_record_update G n c0 c0 pend pend s wid _ w); try done; [|by right; right]. intros ch [R1 R2 R3 R4]. by split.
  - apply (sessions_same _ _ _ _ s); [done..| |done]. cbn. apply map_eq. intros i.
    destruct (decide (i = wid)) as [->|Hne]; [by rewrite lookup_alter_eq, Hw|by rewrite lookup_alter_ne].
Qed.

(** ** Deliveries *)

Definition connection_of s (wid : string) : option string := wo_connection_id <$> sv_workers s !! wid.

(** What a delivery leaves: a frame for the connection of the worker, or
    nothing. *)
Definition delivered (G : Ingested) (n : N) (c0 : string) (pend : list ServerToWorker) (wid : string) s s'
    (r : result CError Prepared) : Prop :=
  connection_of s' wid = connection_of s wid
  /\ match r with
     | Ok (Some (c, m)) => connection_of s wid = Some c /\ sessions_ok G n c (pend ++ [m]) s'
     | _ => sessions_ok G n c0 pend s'
     end.

Lemma prepared_frame_steps {E} G n c0 pend s s' wid w id message r :
  sessions_ok G n c0 pend s -> sv_workers s !! wid = Some w ->
  (pend = [] \/ c0 = wo_connection_id w) ->
  id = default EmptyString (expected_server_message_id (Some message)) ->
  prepared_frame wid (snapshot w) id message s = (s', r : result E Prepared) ->
  connection_of s' wid = connection_of s wid
  /\ exists m, r = Ok (Some (wo_connection_id w, m)) /\ sessions_ok G n (wo_connection_id w) (pend ++ [m]) s'.
Proof.
  intros Hs Hw Hp Hid E0. unfold prepared_frame, mbind, svc_bind, take_sequence, mret, svc_ret in E0.
  rewrite Hw in E0. cbn [snapshot sn_connection_id sn_sequence sn_last_worker_sequence] in E0.
  rewrite String.eqb_refl, N.eqb_refl in E0. cbn in E0. injection E0 as <- <-.
  split; [unfold connection_of; cbn; by rewrite lookup_alter_eq, Hw|]. eexists. split; [done|].
  assert (pending_for c0 pend (wo_connection_id w) = pend) as Hmine.
  { unfold pending_for. case_decide; [done|]. by destruct Hp as [->|]. }
  apply (sessions_record_update G n c0 _ pend _ s wid _ w); try done.
  - intros wid' w' Hne Hw'. unfold pending_for. rewrite decide_False.
    + case_decide as Hd; [|done]. destruct Hp as [->|Hp]; [done|]. exfalso. apply Hne.
      apply (se_distinct _ _ _ _ _ Hs wid' wid w' w); [done..|congruence].
    + intros Hd. apply Hne. by apply (se_distinct _ _ _ _ _ Hs wid' wid w' w).
  - intros ch [R1 R2 R3 R4]. unfold pending_for at 1. rewrite decide_True by done. rewrite Hmine in R2, R4.
    destruct (ch_open ch) eqn:Eo.
    + specialize (R4 eq_refl). split; cbn [with_next_server wo_connection_id wo_last_worker_sequence wo_next_server_sequence]; [done| |lia|].
      * rewrite app_assoc. apply stream_snoc; try done. cbn. lia.
      * intros _. rewrite app_assoc, length_app. cbn [length]. lia.
    + split; cbn [with_next_server wo_connection_id wo_last_worker_sequence wo_next_server_sequence]; [done|done|lia|congruence].
  - by right; left.
Qed.

(** The snapshot of a delivery is the record of the worker. *)
Lemma delivery_snapshot_inv {E} wid p s s' r :
  delivery_snapshot wid p s = (s', r : result E (option Snapshot)) ->
  s' = s /\ (r = Ok None \/ exists w, sv_workers s !! wid = Some w /\ r = Ok (Some (snapshot w))).
Proof.
  unfold delivery_snapshot. intros [= <- <-]. split; [done|]. destruct (sv_workers s !! wid) as [w|]; cbn; [|by left].
  destruct (wo_connected w && p w); [right; by exists w|by left].
Qed.

(** The frames pending are those of the worker. *)
Definition pending_of (pend : list ServerToWorker) (c0 wid : string) s : Prop :=
  pend = [] \/ connection_of s wid = Some c0.

Lemma delivered_none G n c0 pend wid s s' (r : result CError Prepared) :
  sessions_ok G n c0 pend s -> calm s s' -> (r = Ok None \/ exists e, r = Err e) -> delivered G n c0 pend wid s s' r.
Proof.
  intros Hs Hc Hr. split; [destruct Hc as (E & _); unfold connection_of; by rewrite E|].
  apply (sessions_calm _ _ _ _ _ s') in Hs; [|done]. by destruct Hr as [->|[e ->]].
Qed.

(** A delivery that ends with its frame. *)
Lemma delivered_frame G n c0 pend wid w id message s s1 s' (r : result CError Prepared) :
  sessions_ok G n c0 pend s -> sv_workers s !! wid = Some w -> pending_of pend c0 wid s -> calm s s1 ->
  id = default EmptyString (expected_server_message_id (Some message)) ->
  prepared_frame wid (snapshot w) id message s1 = (s', r) -> delivered G n c0 pend wid s s' r.
Proof.
  intros Hs Hw Hp Hc Hid E. pose proof (sessions_calm _ _ _ _ _ _ Hc Hs) as Hs1. destruct Hc as (Ew & _).
  destruct (prepared_frame_steps G n c0 pend s1 s' wid w id message r) as (Hc1 & m & -> & Hs'); try done.
  - by rewrite Ew.
  - destruct Hp as [->|Hp]; [by left|right]. unfold connection_of in Hp. rewrite Hw in Hp. by injection Hp as <-.
  - split; [rewrite Hc1; unfold connection_of; by rewrite Ew|]. split; [|done]. unfold connection_of. by rewrite Hw.
Qed.

(** A computation that changes no session, inverted. *)
Lemma calm_inv {E T} (m : Svc V A E T) s s' r : Within calm m -> m s = (s', r) -> calm s s'.
Proof. intros Hm E0. pose proof (within (R:=calm) (m:=m) s) as Hc. by rewrite E0 in Hc. Qed.

#[local] Instance next_lease_calm {E} : Within calm (next_lease : Svc V A E N).
Proof. intros s. split_and!; [done..|by apply ports_local]. Qed.

Lemma transport_ack_delivered G n c0 pend wid c s s' r :
  sessions_ok G n c0 pend s -> pending_of pend c0 wid s -> prepare_transport_ack wid c s = (s', r) ->
  delivered G n c0 pend wid s s' r.
Proof.
  intros Hs Hp E. unfold prepare_transport_ack in E.
  apply bind_inv in E as [(e & E & ->)|(s1 & x & E1 & E)].
  { apply delivery_snapshot_inv in E as [_ [?|(w & _ & ?)]]; done. }
  apply delivery_snapshot_inv in E1 as [-> [[= ->]|(w & Hw & [= ->])]].
  { injection E as <- <-. apply delivered_none; [done|by reflexivity|by left]. }
  apply bind_inv in E as [(e & E & _)|(s1 & now & E1 & E)]; [done|]. apply calm_inv in E1; [|exact _].
  apply bind_inv in E as [(e & E & ->)|(s2 & u & E2 & E)].
  { apply calm_inv in E; [|exact _]. apply delivered_none; [done|by etransitivity|right; by eexists]. }
  apply calm_inv in E2; [|exact _]. refine (delivered_frame G n c0 pend wid w _ _ s _ s' r Hs Hw Hp _ _ E); [by etransitivity|done].
Qed.

(** The contract of a delivery is that of its attempt. *)
Lemma delivery_contract p c c' contract k : CInv c -> fr_attempt_id (dp_frame p) = Some k ->
  prepare_assignment_delivery p c = (c', Ok contract) -> as_str (ac_attempt_id contract) = k.
Proof.
  intros Hc Hk. unfold prepare_assignment_delivery. destruct (deliverable p c) as [[k' row]|e] eqn:Hd; [|done].
  apply deliverable_Ok in Hd as (Hk' & _ & Hr & _). assert (k' = k) as -> by congruence.
  destruct (lease_is_due _ _ _); [by destruct (expire_one _ _ _)|]. destruct (publish _ _ _ _); [|done].
  intros [= _ <-]. apply (ao_key _ _ _ _ (ci_attempt _ Hc _ _ Hr)).
Qed.

Lemma assignment_delivered G n c0 pend wid k s s' r :
  sessions_ok G n c0 pend s -> pending_of pend c0 wid s -> prepare_assignment wid k s = (s', r) ->
  delivered G n c0 pend wid s s' r.
Proof.
  intros Hs Hp E. unfold prepare_assignment in E.
  apply bind_inv in E as [(e & E & ->)|(s1 & x & E1 & E)].
  { apply delivery_snapshot_inv in E as [_ [?|(w & _ & ?)]]; done. }
  apply delivery_snapshot_inv in E1 as [-> [[= ->]|(w & Hw & [= ->])]].
  { injection E as <- <-. apply delivered_none; [done|by reflexivity|by left]. }
  apply bind_inv in E as [(e & E & _)|(s1 & lease & E1 & E)]; [done|]. apply calm_inv in E1; [|exact _].
  apply bind_inv in E as [(e & E & _)|(s2 & now & E2 & E)]; [done|]. apply calm_inv in E2; [|exact _].
  assert (calm s s2) as Hc2 by (by etransitivity).
  apply bind_inv in E as [(e & E & ->)|(s3 & contract & E3 & E)].
  { apply calm_inv in E; [|exact _]. apply delivered_none; [done|by etransitivity|right; by eexists]. }
  pose proof E3 as E3'. apply calm_inv in E3; [|exact _]. unfold on_control_partly in E3'.
  destruct (prepare_assignment_delivery _ _) as [c' r'] eqn:Ed in E3'. injection E3' as <- ->.
  apply (delivery_contract _ _ _ _ k) in Ed; [|by apply (se_control _ _ _ _ _ (sessions_calm _ _ _ _ _ _ Hc2 Hs))|done].
  refine (delivered_frame G n c0 pend wid w _ _ s _ s' r Hs Hw Hp _ _ E); [by etransitivity|]. cbn. by rewrite Ed.
Qed.

Lemma cancel_delivered G n c0 pend wid k reason s s' r :
  sessions_ok G n c0 pend s -> pending_of pend c0 wid s -> prepare_cancel wid k reason s = (s', r) ->
  delivered G n c0 pend wid s s' r.
Proof.
  intros Hs Hp E. unfold prepare_cancel in E.
  apply bind_inv in E as [(e & E & ->)|(s1 & x & E1 & E)].
  { apply delivery_snapshot_inv in E as [_ [?|(w & _ & ?)]]; done. }
  apply delivery_snapshot_inv in E1 as [-> [[= ->]|(w & Hw & [= ->])]].
  { injection E as <- <-. apply delivered_none; [done|by reflexivity|by left]. }
  apply bind_inv in E as [(e & E & _)|(s1 & now & E1 & E)]; [done|]. apply calm_inv in E1; [|exact _].
  apply bind_inv in E as [(e & E & ->)|(s2 & u & E2 & E)].
  { apply calm_inv in E; [|exact _]. apply delivered_none; [done|by etransitivity|right; by eexists]. }
  apply calm_inv in E2; [|exact _]. assert (calm s s2) as Hc2 by (by etransitivity).
  apply bind_inv in E as [(e & E & ->)|(s3 & v & E3 & E)].
  { apply calm_inv in E; [|exact _]. apply delivered_none; [done|by etransitivity|right; by eexists]. }
  apply calm_inv in E3; [|exact _]. refine (delivered_frame G n c0 pend wid w _ _ s _ s' r Hs Hw Hp _ _ E); [by etransitivity|done].
Qed.

(** ** Channels *)

(** A change of one channel. *)
Lemma sessions_channel G n c0 c1 pend pend' s c ch ch' :
  sv_channels s !! c = Some ch -> sessions_ok G n c0 pend s ->
  (exists last, stream_ok G c last (frames_of ch')) ->
  (forall wid w, sv_workers s !! wid = Some w -> wo_connection_id w = c ->
     record_ok G (if ch_open ch then pending_for c0 pend c else []) w ch ->
     record_ok G (if ch_open ch' then pending_for c1 pend' c else []) w ch') ->
  (forall wid w, sv_workers s !! wid = Some w -> wo_connection_id w <> c ->
     pending_for c1 pend' (wo_connection_id w) = pending_for c0 pend (wo_connection_id w)) ->
  (pend' = [] \/ (pend <> [] /\ c1 = c0)) ->
  sessions_ok G n c1 pend' (with_channels s (<[c := ch']> (sv_channels s))).
Proof.
  intros Hch [H1 H2 H3 H4 H5 H6 (seed & H7 & H8)] Hst Hrec Hoth Hown. split; cbn; try done.
  - intros c' ch0. rewrite lookup_insert_Some. intros [[<- <-]|[_ Hc']]; [done|by apply (H3 c')].
  - intros wid w Hw. destruct (H4 _ _ Hw) as (ch0 & Hch0 & Hr).
    destruct (decide (wo_connection_id w = c)) as [E|Hne].
    + rewrite E, lookup_insert_eq. exists ch'. split; [done|]. rewrite E, Hch in Hch0. injection Hch0 as <-.
      apply (Hrec wid w Hw E). by rewrite E in Hr.
    + rewrite lookup_insert_ne by done. exists ch0. split; [done|]. by rewrite (Hoth wid w).
  - destruct Hown as [->|[Hne ->]]; [by left|]. right. by destruct H6.
  - exists seed. split; [done|]. cbn. intros c'. destruct (decide (c' = c)) as [->|Hne].
    + intros _. apply H8. by eexists.
    + rewrite lookup_insert_ne by done. apply H8.
Qed.

(** A pending frame is sent, or the receiver is gone and nothing of the
    channel is pending any more. *)
Lemma send_frame {E} G n c m pend s s' (r : result E bool) :
  sessions_ok G n c (m :: pend) s -> send c (Ok m) s = (s', r) ->
  exists sent : bool, r = Ok sent /\ sessions_ok G n c (if sent then pend else []) s' /\ sv_workers s' = sv_workers s.
Proof.
  intros Hs. destruct (se_owner _ _ _ _ _ Hs) as [|(wid & w & Hw & Hc)]; [done|].
  destruct (se_records _ _ _ _ _ Hs wid w Hw) as (ch & Hch & Hr). rewrite Hc in Hch, Hr.
  assert (pending_for c (m :: pend) c = m :: pend) as Hp by (unfold pending_for; by rewrite decide_True).
  unfold send. rewrite Hch. destruct (ch_open ch) eqn:Eo; intros [= <- <-]; [exists true|exists false]; (split; [done|]); (split; [|done]).
  - apply (sessions_channel G n c c (m :: pend) pend s c ch); [done..| | | |].
    + rewrite Hp in Hr. destruct Hr as [R1 R2 R3 R4]. exists (wo_last_worker_sequence w). rewrite Hc in R2.
      unfold frames_of. cbn. rewrite omap_app. cbn. apply (stream_prefix _ _ _ _ pend). by rewrite <-app_assoc.
    + intros wid' w' Hw' Hc'. rewrite Eo, Hp. cbn [ch_open]. intros [R1 R2 R3 R4].
      assert (frames_of (MkChannel (ch_sent ch ++ [Ok m]) true) ++ pend = frames_of ch ++ m :: pend) as E0
        by (unfold frames_of; cbn; rewrite omap_app; cbn; by rewrite <-app_assoc).
      unfold pending_for. rewrite decide_True by done. split; [done|by rewrite E0|done|]. intros _. rewrite E0. by apply R4.
    + intros wid' w' _ Hne. unfold pending_for. by rewrite !decide_False.
    + by right.
  - assert (with_channels s (<[c := ch]> (sv_channels s)) = s) as <- by (rewrite insert_id by done; by destruct s).
    apply (sessions_channel G n c c (m :: pend) [] s c ch); [done..| | | |by left].
    + by apply (se_streams _ _ _ _ _ Hs).
    + intros wid' w' Hw' Hc'. by rewrite Eo.
    + intros wid' w' _ Hne. unfold pending_for. by rewrite !decide_False.
Qed.

(** An error that is sent is no frame. *)
Lemma send_error {E} G n c0 pend c code s s' (r : result E bool) :
  sessions_ok G n c0 pend s -> send c (Err code) s = (s', r) -> sessions_ok G n c0 pend s'.
Proof.
  intros Hs. unfold send. destruct (sv_channels s !! c) as [ch|] eqn:Hch; [|by intros [= <- _]].
  destruct (ch_open ch) eqn:Eo; intros [= <- _]; [|done].
  assert (frames_of (MkChannel (ch_sent ch ++ [Err code]) true) = frames_of ch) as E0
    by (unfold frames_of; cbn; rewrite omap_app; cbn; by rewrite app_nil_r).
  apply (sessions_channel G n c0 c0 pend pend s c ch); [done..| | |done|].
  - rewrite E0. by apply (se_streams _ _ _ _ _ Hs).
  - intros wid w Hw Hc. rewrite Eo. cbn [ch_open]. intros [R1 R2 R3 R4]. split; rewrite ?E0; try done. intros _. by apply R4.
  - destruct pend; [by left|by right].
Qed.

(** The receiver of a channel goes away. *)
Lemma sessions_close G n c0 pend c s : sessions_ok G n c0 pend s -> sessions_ok G n c0 (if decide (c = c0) then [] else pend) (close_channel c s).
Proof.
  intros Hs. unfold close_channel. destruct (sv_channels s !! c) as [ch|] eqn:Hch.
  - replace (alter _ c (sv_channels s)) with (<[c := MkChannel (ch_sent ch) false]> (sv_channels s)).
    2: { apply map_eq. intros i. destruct (decide (i = c)) as [->|Hne].
         - by rewrite lookup_insert_eq, lookup_alter_eq, Hch.
         - by rewrite lookup_insert_ne, lookup_alter_ne. }
    apply (sessions_channel G n c0 c0 pend _ s c ch); [done..| | | |].
    + exact (se_streams _ _ _ _ _ Hs c ch Hch).
    + intros wid w Hw Hc [R1 R2 R3 R4]. split; try done. cbn [ch_open]. rewrite app_nil_r. by eapply stream_prefix.
    + intros wid w Hw Hne. unfold pending_for. repeat case_decide; congruence.
    + case_decide; [by left|]. destruct pend; [by left|by right].
  - replace (with_channels _ _) with s.
    2: { destruct s; unfold with_channels; cbn in *. f_equal. apply map_eq. intros i. destruct (decide (i = c)) as [->|Hne].
         - by rewrite lookup_alter_eq, Hch.
         - by rewrite lookup_alter_ne. }
    case_decide as E; [|done]. subst c0. destruct (se_owner _ _ _ _ _ Hs) as [->|(wid & w & Hw & Hc)]; [done|].
    destruct (se_records _ _ _ _ _ Hs wid w Hw) as (ch & Hch' & _). congruence.
Qed.

End steps.
