(* ===== verification/SessionCalls.v ===== *)
(** * The calls of the server keep the sessions

    The ingestion of frames, the registration of workers and the deliveries
    of assignments and cancellations, from one call to any sequence. *)

From stdpp Require Import base strings pretty gmap sorting list.
From S2P Require Import Prelude Text Digest Identity Vocabulary Artifacts Uploads UploadLedger UploadTheorems RunEvents ControlPlane ControlTheorems Interactions Wire Service Observation ServerSession Coordinator ServerCalls SessionInvariant SessionSteps.

Local Open Scope N_scope.

Section calls.
Context {V A : Type} `{EqDecision V} `{ServiceClock} {Sha : Sha256} {Store : ArtifactStore A} {Laws : ArtifactStoreLaws A}
  {Retention : RetentionStore A}.
Implicit Types (s : Service V A).

(** ** Observations *)

Lemma lift_inv {E T} (r : result E T) s s' x : lift r s = (s', x) -> s' = s /\ x = r.
Proof. by intros [= <- <-]. Qed.

Lemma map_err_inv {E F T} (f : E -> F) (m : Svc V A E T) s s' r :
  svc_map_err f m s = (s', r) -> exists r0, m s = (s', r0) /\ r = map_err f r0.
Proof. unfold svc_map_err. destruct (m s) as [s1 r0]. intros [= -> <-]. by exists r0. Qed.

Lemma observe_stored wid a k t o s s' d : observe wid a k t o s = (s', Ok d) -> has_observation wid k o (sv_control s').
Proof.
  unfold observe. intros [(e & _ & ?)|(s1 & aid & [-> Ha]%lift_inv & E)]%bind_inv; [done|].
  apply bind_inv in E as [(e & _ & ?)|(s1 & kid & [-> Hk]%lift_inv & E)]; [done|].
  apply map_err_inv in E as (r0 & E & Hr). symmetry in Hr. apply map_err_Ok in Hr as ->. unfold on_control in E.
  symmetry in Hk. apply map_err_Ok, parse_id_Ok in Hk.
  destruct (observe_attempt _ _) as [[d' c]|e] eqn:Eo; [|done]. injection E as <- <-. cbn.
  apply observe_Ok in Eo as (r & class & c1 & _ & _ & _ & _ & _ & _ & ->). eexists.
  split; [apply elem_of_app; right; by apply list_elem_of_singleton|]. by rewrite <-Hk.
Qed.

Lemma calm_observations s s' wid k o : CInv (sv_control s) -> calm s s' ->
  has_observation wid k o (sv_control s) -> has_observation wid k o (sv_control s').
Proof. intros Hc (_ & _ & _ & Hp). apply has_observation_after, (ports_after _ _ Hp Hc). Qed.

Lemma calm_control s s' : calm s s' -> CInv (sv_control s) -> CInv (sv_control s').
Proof. intros (_ & _ & _ & Hp) Hc. by destruct (ports_after _ _ Hp Hc). Qed.

Lemma ignore_inv {T} (m : Svc V A Code T) s s' u : ignore m s = (s', Ok u) -> exists x, m s = (s', Ok x).
Proof.
  unfold ignore. intros [(e & _ & ?)|(s1 & x & E & [= -> _])]%bind_inv; [done|]. by exists x.
Qed.

(** An observation followed by a projection. *)
Lemma observe_then {T} wid a k t o (m : Svc V A Code T) s s1 s' d r : CInv (sv_control s) ->
  observe wid a k t o s = (s1, Ok d) -> Within calm m -> m s1 = (s', r) -> has_observation wid k o (sv_control s').
Proof.
  intros Hc E Hm E'. pose proof (observe_stored _ _ _ _ _ _ _ _ E) as Ho. apply calm_inv in E; [|exact _].
  apply calm_inv in E'; [|done]. apply (calm_observations s1 s'); [by apply (calm_control s)|done|done].
Qed.

Lemma observe_message_observed wid frame now s s' u : CInv (sv_control s) ->
  observe_message wid (wm_message frame) now s = (s', Ok u) -> observed wid frame (sv_control s').
Proof.
  intros Hc. unfold observed. destruct (wm_message frame) as [[]|]; cbn [observe_message]; try done.
  - intros [d E]%ignore_inv. by apply observe_stored in E.
  - intros [d E]%ignore_inv. unfold observe_rejection in E.
    apply bind_inv in E as [(e & _ & ?)|(s1 & r & [-> Hr]%lift_inv & E)]; [done|].
    symmetry in Hr. apply map_err_Ok in Hr. exists r. split; [done|]. by apply observe_stored in E.
  - intros [d E]%ignore_inv. unfold observe_started in E.
    apply bind_inv in E as [(e & _ & ?)|(s1 & d' & E1 & E)]; [done|].
    apply bind_inv in E as [(e & _ & ?)|(s2 & x & E2 & [= -> _])]; [done|].
    by apply (observe_then _ _ _ _ _ _ _ _ _ _ _ Hc E1 _ E2).
  - intros [d E]%ignore_inv. unfold observe_finished in E.
    apply bind_inv in E as [(e & _ & ?)|(s1 & x & [= <- <-] & E)]; [done|].
    apply bind_inv in E as [(e & _ & ?)|(s2 & v & E2 & E)]; [done|].
    assert (calm s s2) as Hc2 by (eapply calm_inv; [|exact E2]; unfold validate_and_grant_finished_artifacts; walk).
    apply bind_inv in E as [(e & _ & ?)|(s3 & o & [-> Ho]%lift_inv & E)]; [done|].
    apply bind_inv in E as [(e & _ & ?)|(s4 & d' & E4 & E)]; [done|].
    apply bind_inv in E as [(e & _ & ?)|(s5 & y & E5 & [= -> _])]; [done|].
    exists o. split; [done|]. by apply (observe_then _ _ _ _ _ _ _ _ _ _ _ (calm_control _ _ Hc2 Hc) E4 _ E5).
  - intros [d E]%ignore_inv. by apply observe_stored in E.
Qed.

(** ** Ingestion *)

Lemma sessions_ingested G n c0 s wid w frame :
  sessions_ok G n c0 [] s -> sv_workers s !! wid = Some w -> wm_sequence frame = wo_last_worker_sequence w + 1 ->
  observed wid frame (sv_control s) ->
  sessions_ok (G ++ [(wid, wo_connection_id w, frame)]) n c0 [] (update_record wid (with_ingested frame) s).
Proof.
  intros Hs Hw Hf Ho. set (G' := G ++ _).
  assert (G ⊆ G') as Hg by (intros x Hx; apply elem_of_app; by left).
  apply (sessions_record_update G' n c0 c0 [] [] s wid _ w); [done|done| |done| |by left].
  - destruct Hs as [H1 H2 H3 H4 H5 H6 H7]. split; [done| | | |done..].
    + intros wid' c f [Hx|[= -> -> ->]%list_elem_of_singleton]%elem_of_app; [by eapply H2|done].
    + intros c ch Hch. destruct (H3 _ _ Hch) as [last Hl]. exists last. exact (stream_mono G G' _ _ _ _ Hg (N.le_refl _) Hl).
    + intros wid' w' Hw'. destruct (H4 _ _ Hw') as (ch & Hch & [R1 R2 R3 R4]). exists ch. split; [done|].
      split; [by eapply ingested_mono|exact (stream_mono G G' _ _ _ _ Hg (N.le_refl _) R2)|done|done].
  - intros ch [R1 R2 R3 R4]. split; cbn [with_ingested wo_connection_id wo_last_worker_sequence wo_next_server_sequence]; [| |done|done].
    + intros j Hj. destruct (decide (j = wm_sequence frame)) as [->|Hne].
      * exists wid, frame. split; [|done]. apply elem_of_app. right. by apply list_elem_of_singleton.
      * apply R1. lia.
    + apply (stream_mono G' G' _ (wo_last_worker_sequence w)); [done|lia|exact R2].
Qed.

(** [ingest] up to its registry: the frame is observed and counted. *)
Definition ingest_front (wid c : string) (frame : WorkerToServer) : Svc V A Code N :=
  _ ← ingest_check wid c frame;
  now_ms ← now_unix_ms;
  _ ← observe_message wid (wm_message frame) now_ms;
  ingest_record wid c frame.

(** What a frame adds to the frames that were ingested. *)
Definition ingested_frame (wid c : string) (frame : WorkerToServer) s : Ingested :=
  if is_ok (ingest_front wid c frame s).2 then [(wid, c, frame)] else [].

Lemma ingest_front_ok G n c0 wid c frame s s' r :
  sessions_ok G n c0 [] s -> ingest_front wid c frame s = (s', r) ->
  sessions_ok (G ++ ingested_frame wid c frame s) n c0 [] s'.
Proof.
  intros Hs E. unfold ingested_frame. rewrite E. cbn [snd]. unfold ingest_front in E.
  assert (forall s0, sessions_ok G n c0 [] s0 -> sessions_ok (G ++ []) n c0 [] s0) as Hnil by (intros s0; by rewrite app_nil_r).
  apply bind_inv in E as [(e & E & ->)|(s1 & durable & E1 & E)]; [unfold ingest_check in E; injection E as <- _; by apply Hnil|].
  unfold ingest_check in E1. injection E1 as <- _.
  apply bind_inv in E as [(e & E & ->)|(s1 & now & E1 & E)]; [done|]. apply calm_inv in E1; [|exact _].
  pose proof (sessions_calm _ _ _ _ _ _ E1 Hs) as Hs1.
  apply bind_inv in E as [(e & E & ->)|(s2 & u & E2 & E)].
  { apply calm_inv in E; [|exact _]. apply Hnil. by apply (sessions_calm _ _ _ _ s1). }
  pose proof (observe_message_observed _ _ _ _ _ _ (se_control _ _ _ _ _ Hs1) E2) as Ho.
  apply calm_inv in E2; [|exact _]. pose proof (sessions_calm _ _ _ _ _ _ E2 Hs1) as Hs2.
  unfold ingest_record in E. destruct (sv_workers s2 !! wid) as [w|] eqn:Hw; [|injection E as <- <-; by apply Hnil].
  destruct (_ || _) eqn:Eb in E; [injection E as <- <-; by apply Hnil|]. injection E as <- <-. cbn [is_ok].
  apply orb_false_iff in Eb as [[Hc%negb_false_iff%String.eqb_eq _]%orb_false_iff Hq%negb_false_iff%N.eqb_eq]. subst c.
  by apply sessions_ingested.
Qed.

(** [ingest] is its front and the cursors of the connection. *)
Lemma ingest_calm_end wid c frame s s' r : ingest wid c frame s = (s', r) ->
  exists s1 r1, ingest_front wid c frame s = (s1, r1) /\ calm s1 s'.
Proof.
  intros E. unfold ingest, ingest_front in *.
  unfold mbind, svc_bind in *. destruct (ingest_check wid c frame s) as [s1 [d|e]]; [|exists s', (Err e); split; [congruence|by reflexivity]].
  destruct (now_unix_ms s1) as [s2 [now|e]]; [|exists s', (Err e); split; [congruence|by reflexivity]].
  destruct (observe_message wid (wm_message frame) now s2) as [s3 [u|e]]; [|exists s', (Err e); split; [congruence|by reflexivity]].
  destruct (ingest_record wid c frame s3) as [s4 [last|e]]; [|exists s', (Err e); split; [congruence|by reflexivity]].
  exists s4, (Ok last). split; [done|].
  assert (Within calm (ingest_persist (V:=V) (A:=A) c frame last now)) as Hp by (unfold ingest_persist; walk).
  specialize (Hp s4). destruct (ingest_persist c frame last now s4) as [s5 [v|e]]; by injection E as <- _.
Qed.

Lemma ingest_ok G n c0 wid c frame s s' r :
  sessions_ok G n c0 [] s -> ingest wid c frame s = (s', r) ->
  sessions_ok (G ++ ingested_frame wid c frame s) n c0 [] s'.
Proof.
  intros Hs E. destruct (ingest_calm_end _ _ _ _ _ _ E) as (s1 & r1 & E1 & Hc).
  eapply sessions_calm; [exact Hc|]. by eapply ingest_front_ok.
Qed.

(** ** Streams *)

Lemma disconnect_session_ok G n c0 wid c s s' r :
  sessions_ok G n c0 [] s -> disconnect_session wid c s = (s', r) -> sessions_ok G n c0 [] s'.
Proof.
  intros Hs E. unfold disconnect_session in E.
  apply bind_inv in E as [(e & E & _)|(s1 & now & E1 & E)]; [done|]. apply calm_inv in E1; [|exact _].
  apply bind_inv in E as [(e & E & _)|(s2 & x & E2 & E)].
  { unfold attempt in E. by destruct (on_control _ s1). }
  apply calm_inv in E2; [|exact _]. assert (sessions_ok G n c0 [] s2) as Hs2 by (by do 2 (eapply sessions_calm; [eassumption|])).
  unfold modify in E. injection E as <- _. destruct (sv_workers s2 !! wid) as [w|]; [|done].
  case_match; [by apply sessions_connected|done].
Qed.

(** What was prepared is sent. *)
Lemma send_delivered {E} G n c0 wid c m s s' s'' (r : result E bool) :
  delivered G n c0 [] wid s s' (Ok (Some (c, m))) -> send c (Ok m) s' = (s'', r) -> sessions_ok G n c [] s''.
Proof.
  intros [_ [_ Hs]] Es. destruct (send_frame G n c m [] s' s'' r Hs Es) as (sent & _ & H1 & _). by destruct sent.
Qed.

Lemma consume_frame_ok G n c0 wid c frame s s' r :
  sessions_ok G n c0 [] s -> consume_frame wid c frame s = (s', r) ->
  exists c1, sessions_ok (G ++ ingested_frame wid c frame s) n c1 [] s'.
Proof.
  intros Hs E. unfold consume_frame in E. set (G' := G ++ _).
  apply bind_inv in E as [(e & E & _)|(s1 & x & E1 & E)]; [unfold attempt in E; by destruct (ingest _ _ _ s)|].
  unfold attempt in E1. destruct (ingest wid c frame s) as [s1' x'] eqn:Ei. injection E1 as <- <-.
  pose proof (ingest_ok _ _ _ _ _ _ _ _ _ Hs Ei) as Hs1. fold G' in Hs1. destruct x' as [[]|e].
  - apply bind_inv in E as [(e & E & _)|(s2 & x & E2 & E)]; [unfold attempt in E; by destruct (prepare_transport_ack _ _ s1')|].
    unfold attempt in E2. destruct (prepare_transport_ack wid c s1') as [s2' a] eqn:Ea. injection E2 as <- <-.
    pose proof (transport_ack_delivered _ _ _ _ _ _ _ _ _ Hs1 (or_introl eq_refl) Ea) as Hd.
    destruct a as [[[c1 m]|]|e].
    + exists c1. by eapply send_delivered.
    + exists c0. injection E as <- _. by apply Hd.
    + exists c0. apply bind_inv in E as [(e' & E & _)|(s3 & y & E3 & [= <- _])]; (eapply send_error; [by apply Hd|eassumption]).
  - exists c0. by injection E as <- _.
  - exists c0. apply bind_inv in E as [(e' & E & _)|(s3 & y & E3 & [= <- _])]; (eapply send_error; [exact Hs1|eassumption]).
Qed.

Lemma step_stream_ok G n c0 wid c frame s :
  sessions_ok G n c0 [] s -> exists c1, sessions_ok (G ++ ingested_frame wid c frame s) n c1 [] (step_stream wid c frame s).1.
Proof.
  intros Hs. destruct (step_stream wid c frame s) as [s' r] eqn:E. unfold step_stream in E.
  apply bind_inv in E as [(e & E & _)|(s1 & x & E1 & E)]; [by eapply consume_frame_ok|].
  destruct (consume_frame_ok _ _ _ _ _ _ _ _ _ Hs E1) as [c1 Hs1]. exists c1. destruct x; [by injection E as <- _|].
  apply bind_inv in E as [(e & E & _)|(s2 & y & E2 & [= <- _])]; by eapply disconnect_session_ok.
Qed.

(** ** Registration *)

(** The frames prepared for the connection of the worker join its pending
    ones. *)
Definition replayed (G : Ingested) (n : N) (c : string) (pend : list ServerToWorker) (wid : string) s'
    (r : result CError (list ServerToWorker)) : Prop :=
  connection_of s' wid = Some c
  /\ match r with
     | Ok messages => sessions_ok G n c (pend ++ messages) s'
     | Err _ => exists pend', sessions_ok G n c pend' s'
     end.

(** A delivery to a worker whose connection is known. *)
Lemma delivered_known G n c pend wid s s' (r : result CError Prepared) :
  connection_of s wid = Some c -> delivered G n c pend wid s s' r ->
  connection_of s' wid = Some c
  /\ sessions_ok G n c (pend ++ match r with Ok (Some m) => [m.2] | _ => [] end) s'.
Proof.
  intros Hc [Hc' Hd]. split; [by rewrite Hc'|]. destruct r as [[[c1 m]|]|e]; rewrite ?app_nil_r; [|done..].
  destruct Hd as [Hc1 Hd]. by assert (c1 = c) as -> by congruence.
Qed.

Lemma replay_assignment_ok G n c wid x pend s s' r :
  sessions_ok G n c pend s -> connection_of s wid = Some c -> replay_assignment wid x s = (s', r) ->
  replayed G n c pend wid s' r.
Proof.
  intros Hs Hc E. unfold replay_assignment in E. apply bind_inv in E as [(e & E & ->)|(s1 & sent & E1 & E)].
  { apply (assignment_delivered G n c pend) in E as [Hc' Hd]%(delivered_known _ _ _ _ _ _ _ _ Hc); [|done|by right].
    split; [done|by eexists]. }
  apply (assignment_delivered G n c pend) in E1 as [Hc1 Hs1]%(delivered_known _ _ _ _ _ _ _ _ Hc); [|done|by right].
  destruct (as_cancellation_reason x) as [reason|].
  - apply bind_inv in E as [(e & E & ->)|(s2 & cancelled & E2 & [= <- <-])].
    + apply (cancel_delivered G n c) with (1:=Hs1) in E as [Hc' Hd]%(delivered_known _ _ _ _ _ _ _ _ Hc1); [|by right].
      split; [done|by eexists].
    + apply (cancel_delivered G n c) with (1:=Hs1) in E2 as [Hc' Hd]%(delivered_known _ _ _ _ _ _ _ _ Hc1); [|by right].
      split; [done|]. by rewrite app_assoc.
  - injection E as <- <-. split; [done|]. by rewrite app_nil_r.
Qed.

Lemma replay_assignments_ok G n c wid l pend s s' r :
  sessions_ok G n c pend s -> connection_of s wid = Some c -> replay_assignments wid l s = (s', r) ->
  replayed G n c pend wid s' r.
Proof.
  revert pend s s' r. induction l as [|x l IH]; intros pend s s' r Hs Hc E; cbn in E.
  { injection E as <- <-. split; [done|]. by rewrite app_nil_r. }
  apply bind_inv in E as [(e & E & ->)|(s1 & messages & E1 & E)]; [by eapply replay_assignment_ok|].
  apply (replay_assignment_ok G n c wid x pend) in E1 as [Hc1 Hs1]; [|done..].
  apply bind_inv in E as [(e & E & ->)|(s2 & rest & E2 & [= <- <-])].
  - by apply (IH (pend ++ messages)) in E.
  - apply (IH (pend ++ messages)) in E2 as [Hc2 Hs2]; [|done..]. split; [done|]. by rewrite app_assoc.
Qed.

(** Names of connections. *)
Lemma connection_name_inj a b : connection_name a = connection_name b -> a = b.
Proof. unfold connection_name. intros E. apply (inj (String.append "connection-")) in E. by apply (inj pretty) in E. Qed.

Lemma same_residue a b m q : b <= a -> a - b < m -> (q + a) mod m = (q + b) mod m -> a = b.
Proof.
  intros Hle Hlt E. assert (m <> 0) as Hm by lia.
  pose proof (N.Div0.div_mod (q + a) m) as Ha. pose proof (N.Div0.div_mod (q + b) m) as Hb. rewrite E in Ha.
  revert Ha Hb. generalize ((q + b) mod m), ((q + a) / m), ((q + b) / m). intros r x y Ha Hb.
  destruct (N.lt_trichotomy x y) as [Hxy|[->|Hxy]]; [|lia|].
  - assert (m * x <= m * y) by (apply N.mul_le_mono_l; lia). lia.
  - assert (m * (y + 1) <= m * x) by (apply N.mul_le_mono_l; lia). lia.
Qed.

Lemma fresh_name n s : names_ok n s -> n < 2 ^ 64 -> sv_channels s !! connection_name (sv_connection_counter s) = None.
Proof.
  intros (seed & Hc & Hn) Hlt. destruct (sv_channels s !! _) as [ch|] eqn:Hch; [|done]. exfalso.
  destruct (Hn _ ltac:(by eexists)) as (i & Hi & E%connection_name_inj). rewrite Hc in E.
  apply same_residue in E; lia.
Qed.

(** Up to the admission only the counter moves. *)
Record opening s s' : Prop := {
  og_workers : sv_workers s' = sv_workers s;
  og_channels : sv_channels s' = sv_channels s;
  og_counter : sv_connection_counter s' = (sv_connection_counter s + 1) mod 2 ^ 64;
  og_ports : ports s s';
}.

Lemma opening_names n s s' : opening s s' -> names_ok n s -> names_ok (n + 1) s'.
Proof.
  intros [_ Ec En _] (seed & Hc & Hn). exists seed. rewrite Ec, En, Hc. split.
  - rewrite N.Div0.add_mod_idemp_l. f_equal. lia.
  - intros c Hs. destruct (Hn c Hs) as (i & Hi & ->). exists i. split; [lia|done].
Qed.

Lemma sessions_opening G n c0 s s' : opening s s' -> sessions_ok G n c0 [] s -> sessions_ok G (n + 1) c0 [] s'.
Proof.
  intros Ho [H1 H2 H3 H4 H5 H6 H7]. pose proof (opening_names _ _ _ Ho H7) as Hn. destruct Ho as [Ew Ec En Hp].
  destruct (ports_after _ _ Hp H1) as [Hc Hobs]. split; rewrite ?Ew, ?Ec; try done.
  - intros wid c f Hf. eapply observed_after; [exact Hobs|by eapply H2].
Qed.

(** The admission of a connection, its welcome pending. *)
Lemma sessions_admit G n c0 s s' hello :
  let c := connection_name (sv_connection_counter s) in
  opening s s' -> n < 2 ^ 64 -> sessions_ok G n c0 [] s ->
  sessions_ok G (n + 1) c [welcome hello c] (admit_connection hello c s')
  /\ connection_of (admit_connection hello c s') (wh_worker_id hello) = Some c.
Proof.
  intros c Ho Hlt Hs. pose proof (fresh_name _ _ (se_names _ _ _ _ _ Hs) Hlt) as Hfresh. fold c in Hfresh.
  pose proof (sessions_opening _ _ _ _ _ Ho Hs) as [H1 H2 H3 H4 H5 H6 H7].
  assert (forall wid w, sv_workers s' !! wid = Some w -> wo_connection_id w <> c) as Hother.
  { intros wid w Hw E. destruct (H4 _ _ Hw) as (ch & Hch & _). rewrite E, (og_channels _ _ Ho) in Hch. congruence. }
  split; [split; cbn|].
  - done.
  - done.
  - intros c' ch. rewrite lookup_insert_Some. intros [[<- <-]|[_ Hc']]; [|by apply (H3 c')]. exists 0. apply stream_nil.
  - intros wid w. rewrite lookup_insert_Some. intros [[<- <-]|[Hne Hw]].
    + exists (MkChannel [] true). cbn. rewrite lookup_insert_eq. split; [done|].
      unfold pending_for. rewrite decide_True by done. split; cbn; try done.
      * intros j Hj. lia.
      * apply (stream_snoc G c 1 [] (welcome hello c)); [apply stream_nil|done..|]. intros j Hj. lia.
    + destruct (H4 _ _ Hw) as (ch & Hch & Hr). exists ch. rewrite lookup_insert_ne by (by apply not_eq_sym, (Hother wid)).
      split; [done|]. unfold pending_for in *. rewrite decide_False by (by apply (Hother wid)).
      by repeat case_decide.
  - intros wid wid' w w'. rewrite !lookup_insert_Some. intros [[<- <-]|[Hn1 Hw]] [[<- <-]|[Hn2 Hw']]; cbn; [done| | |by apply H5].
    + intros E. by destruct (Hother _ _ Hw').
    + intros E. by destruct (Hother _ _ Hw).
  - right. exists (wh_worker_id hello), (new_record hello c). by rewrite lookup_insert_eq.
  - destruct (se_names _ _ _ _ _ Hs) as (seed & Hc & Hn). exists seed. split.
    + cbn. rewrite (og_counter _ _ Ho), Hc, N.Div0.add_mod_idemp_l. f_equal. lia.
    + cbn. intros c'. rewrite (og_channels _ _ Ho). destruct (decide (c' = c)) as [->|Hne].
      * intros _. exists n. split; [lia|]. unfold c. by rewrite Hc.
      * rewrite lookup_insert_ne by done. intros Hs'. destruct (Hn c' Hs') as (i & Hi & ->). exists i. split; [lia|done].
  - unfold connection_of. cbn. by rewrite lookup_insert_eq.
Qed.

Lemma send_all_ok G n c l s s' r : sessions_ok G n c l s -> send_all c l s = (s', r) -> sessions_ok G n c [] s'.
Proof.
  revert s. induction l as [|m l IH]; intros s Hs E; cbn in E; [by injection E as <- _|].
  apply bind_inv in E as [(e & E & _)|(s1 & sent & E1 & E)].
  - pose proof (send_frame G n c m l s s' _ Hs E) as (b & Hb & _). done.
  - destruct (send_frame G n c m l s s1 (Ok sent) Hs E1) as (b & [= <-] & Hs1 & _). destruct sent; [by apply (IH s1)|].
    by injection E as <- _.
Qed.

(** The transactions of a registration. *)
#[local] Instance register_connection_calm r k t : Within calm (register_connection (V:=V) (A:=A) r k t).
Proof. unfold register_connection. walk. Qed.

Lemma open_ok G n c0 first s : n < 2 ^ 64 -> sessions_ok G n c0 [] s ->
  exists n' c1, n <= n' <= n + 1 /\ sessions_ok G n' c1 [] (open_control_stream first s).1.
Proof.
  intros Hlt Hs. unfold open_control_stream. destruct (first_hello first) as [hello|e]; [|exists n, c0; split; [lia|done]].
  cbn zeta. set (c := connection_name (sv_connection_counter s)). exists (n + 1), c. split; [lia|].
  destruct (svc_map_err repository_status (register hello) s) as [s1 r] eqn:E.
  apply map_err_inv in E as (r0 & E & ->). unfold register in E.
  assert (forall s0, sessions_ok G (n + 1) c0 [] s0 -> sessions_ok G (n + 1) c [] (close_channel c s0)) as Hclosed.
  { intros s0 Hs0. apply (sessions_close _ _ _ _ c) in Hs0. apply (sessions_no_pending _ _ c0). by case_decide. }
  apply bind_inv in E as [(e & E & _)|(s2 & number & E1 & E)]; [done|]. injection E1 as <- <-. cbn zeta in E. fold c in E.
  set (s2 := with_counters s _ _ _) in E.
  assert (opening s s2) as Ho by (split; [done..|by apply ports_local]).
  assert (forall s3, calm s2 s3 -> opening s s3) as Hoc.
  { intros s3 (E1 & E2 & E3 & Hp). destruct Ho as [A1 A2 A3 A4]. split; [congruence..|by etransitivity]. }
  apply bind_inv in E as [(e & E & _)|(s3 & now & E3 & E)]; [done|]. apply calm_inv in E3; [|exact _].
  apply bind_inv in E as [(e & [-> _]%lift_inv & ->)|(s4 & registration & [-> _]%lift_inv & E)].
  { cbn. apply Hclosed. eapply sessions_opening; [by apply Hoc|done]. }
  apply bind_inv in E as [(e & E & ->)|(s5 & pending & E5 & E)].
  { apply calm_inv in E; [|exact _]. cbn. apply Hclosed. eapply sessions_opening; [apply Hoc; by etransitivity|done]. }
  apply calm_inv in E5; [|exact _]. assert (calm s2 s5) as Hc5 by (by etransitivity).
  destruct (sessions_admit G n c0 s s5 hello (Hoc _ Hc5) Hlt Hs) as [Hs6 Hconn]. fold c in Hs6, Hconn.
  apply bind_inv in E as [(e & E & _)|(s6 & u & E6 & E)]; [done|]. injection E6 as <- _.
  apply bind_inv in E as [(e & E & ->)|(s7 & messages & E7 & [= <- <-])].
  - apply (replay_assignments_ok G (n + 1) c _ _ _ _ _ _ Hs6 Hconn) in E as [_ [pend' Hs7]]. cbn.
    apply (sessions_close _ _ _ _ c) in Hs7. by rewrite decide_True in Hs7.
  - apply (replay_assignments_ok G (n + 1) c _ _ _ _ _ _ Hs6 Hconn) in E7 as [_ Hs7]. cbn [map_err].
    destruct (send_all c (welcome hello c :: messages) s7) as [s8 [v|e]] eqn:E8; pose proof (send_all_ok _ _ _ _ _ _ _ Hs7 E8) as Hs8; [done|].
    cbn. apply (sessions_close _ _ _ _ c) in Hs8. by rewrite decide_True in Hs8.
Qed.

(** ** Assignments and cancellations *)

(** No frame is pending, whatever the connection. *)
Definition settled_sessions (G : Ingested) (n : N) s : Prop := exists c, sessions_ok G n c [] s.

Lemma settled_calm G n s s' : calm s s' -> settled_sessions G n s -> settled_sessions G n s'.
Proof. intros Hc [c Hs]. exists c. by eapply sessions_calm. Qed.

Lemma settled_inv {E T} G n (m : Svc V A E T) s s' r : Within calm m -> m s = (s', r) -> settled_sessions G n s ->
  settled_sessions G n s'.
Proof. intros Hm E0. by apply settled_calm, (calm_inv m s s' r). Qed.

(** A prepared frame on its way: sent, or its connection marked. *)
Lemma send_or_mark {E} G n wid c m s s' s'' (r : result E bool) :
  delivered G n c [] wid s s' (Ok (Some (c, m))) \/ (exists c0, delivered G n c0 [] wid s s' (Ok (Some (c, m)))) ->
  send c (Ok m) s' = (s'', r) -> settled_sessions G n s''.
Proof. intros [Hd|[c0 Hd]] Es; exists c; by eapply send_delivered. Qed.

Lemma send_prepared_ok {E} G n c0 wid o s s' s'' (r : result E EnqueueOutcome) :
  delivered G n c0 [] wid s s' (Ok o) -> send_prepared wid o s' = (s'', r) -> settled_sessions G n s''.
Proof.
  intros Hd Es. unfold send_prepared in Es. destruct o as [[c m]|]; [|injection Es as <- _; exists c0; apply Hd].
  apply bind_inv in Es as [(e & Es & _)|(s1 & sent & E1 & Es)]; [exists c; by eapply send_delivered|].
  assert (sessions_ok G n c [] s1) as Hs1 by (by eapply send_delivered). exists c. destruct sent; [by injection Es as <- _|].
  unfold mark_send_failed in Es. apply bind_inv in Es as [(e & Es & _)|(s2 & u & E2 & [= <- _])]; [done|].
  injection E2 as <- _. by apply sessions_connected.
Qed.

(** The end of an assignment: its delivery. *)
Lemma deliver_assignment_ok G n wid k s s' (r : result EnqueueError EnqueueOutcome) :
  settled_sessions G n s ->
  (outbound ← svc_map_err enqueue_repository (prepare_assignment wid k); send_prepared wid outbound) s = (s', r) ->
  settled_sessions G n s'.
Proof.
  intros [c0 Hs] Es. apply bind_inv in Es as [(e & Es & _)|(s1 & o & E1 & Es)].
  - apply map_err_inv in Es as (r0 & Es & Hr). apply (assignment_delivered G n c0 []) in Es as [_ Hd]; [|done|by left].
    exists c0. destruct r0; [done|exact Hd].
  - apply map_err_inv in E1 as (r0 & E1 & Hr). symmetry in Hr. apply map_err_Ok in Hr as ->.
    eapply (send_prepared_ok G n c0); [|exact Es]. eapply assignment_delivered; [done|by left|done].
Qed.

Lemma enqueue_ok G n wid x s : settled_sessions G n s -> settled_sessions G n (enqueue_assignment wid x s).1.
Proof.
  intros Hs. destruct (enqueue_assignment wid x s) as [s' r] eqn:Es. cbn. unfold enqueue_assignment in Es.
  apply bind_inv in Es as [(e & [-> _]%lift_inv & _)|(s1 & u & [-> _]%lift_inv & Es)]; [done|].
  apply bind_inv in Es as [(e & [-> _]%lift_inv & _)|(s1 & contract & [-> _]%lift_inv & Es)]; [done|].
  apply bind_inv in Es as [(e & Es & _)|(s2 & now & E2 & Es)]; [done|]. apply (settled_inv G n) in E2; [|exact _|done].
  assert (Within calm (prepare_enqueue (V:=V) (A:=A) wid contract now)) as Hp by (unfold prepare_enqueue; walk).
  apply bind_inv in Es as [(e & Es & _)|(s3 & [stored became] & E3 & Es)]; [by apply (settled_inv G n) in Es|].
  apply (settled_inv G n) in E3; [|done..].
  destruct stored, became; try (by eapply deliver_assignment_ok). by injection Es as <- _.
Qed.

Lemma enqueue_for_ok G n o wid x s : settled_sessions G n s -> settled_sessions G n (enqueue_assignment_for_owner o wid x s).1.
Proof.
  intros Hs. destruct (enqueue_assignment_for_owner o wid x s) as [s' r] eqn:Es. cbn. unfold enqueue_assignment_for_owner in Es.
  apply bind_inv in Es as [(e & [-> _]%lift_inv & _)|(s1 & u & [-> _]%lift_inv & Es)]; [done|].
  apply bind_inv in Es as [(e & Es & _)|(s2 & now & E2 & Es)]; [done|]. apply (settled_inv G n) in E2; [|exact _|done].
  apply bind_inv in Es as [(e & Es & _)|(s3 & g & E3 & Es)]; [by apply (settled_inv G n) in Es; [|exact _|done]|].
  apply (settled_inv G n) in E3; [|exact _|done]. pose proof (enqueue_ok G n wid x s3 E3) as He. by rewrite Es in He.
Qed.

Lemma reassign_ok G n e wid k s : settled_sessions G n s -> settled_sessions G n (reassign_expired_attempt e wid k s).1.
Proof.
  intros Hs. destruct (reassign_expired_attempt e wid k s) as [s' r] eqn:Es. cbn. unfold reassign_expired_attempt in Es.
  assert (Within calm (prepare_reassign (V:=V) (A:=A) e wid k)) as Hp by (unfold prepare_reassign; walk).
  apply bind_inv in Es as [(e1 & Es & _)|(s3 & [stored became] & E3 & Es)]; [by apply (settled_inv G n) in Es|].
  apply (settled_inv G n) in E3; [|done..].
  destruct stored, became; try (by eapply deliver_assignment_ok). by injection Es as <- _.
Qed.

Lemma cancel_ok G n k reason s : settled_sessions G n s -> settled_sessions G n (cancel_attempt k reason s).1.
Proof.
  intros Hs. destruct (cancel_attempt k reason s) as [s' r] eqn:Es. cbn. unfold cancel_attempt in Es.
  apply bind_inv in Es as [(e & Es & _)|(s1 & now & E1 & Es)]; [done|]. apply (settled_inv G n) in E1; [|exact _|done].
  apply bind_inv in Es as [(e & Es & _)|(s2 & x & E2 & Es)]; [by apply (settled_inv G n) in Es; [|exact _|done]|].
  apply (settled_inv G n) in E2; [|exact _|done].
  assert ((outbound ← prepare_cancel (ca_worker_id x) k reason;
           match outbound with
           | None => mret CancelPending
           | Some (channel, message) =>
               sent ← send channel (Ok message);
               if sent : bool then mret CancelSent
               else _ ← mark_send_failed (ca_worker_id x); mret CancelPending
           end) s2 = (s', r) -> settled_sessions G n s') as Hsend.
  { clear Es. intros Es. destruct E2 as [c0 Hs2]. apply bind_inv in Es as [(e & Es & _)|(s3 & o & E3 & Es)].
    - apply (cancel_delivered G n c0 []) in Es as [_ Hd]; [by exists c0|done|by left].
    - apply (cancel_delivered G n c0 []) in E3; [|done|by left]. destruct o as [[c m]|]; [|injection Es as <- _; exists c0; apply E3].
      apply bind_inv in Es as [(e & Es & _)|(s4 & sent & E4 & Es)]; [exists c; by eapply send_delivered|].
      assert (sessions_ok G n c [] s4) as Hs4 by (by eapply send_delivered). exists c.
      destruct sent; [by injection Es as <- _|]. unfold mark_send_failed in Es.
      apply bind_inv in Es as [(e & Es & _)|(s5 & u & E5 & [= <- _])]; [done|]. injection E5 as <- _. by apply sessions_connected. }
  destruct (ca_outcome x); try (by apply Hsend); by injection Es as <- _.
Qed.

(** ** Reconciliation *)

#[local] Instance reconcile_preparation_calm x t : Within calm (reconcile_preparation (V:=V) (A:=A) x t).
Proof. unfold reconcile_preparation. walk. Qed.

Lemma reconcile_one_ok G n x report s s' r : settled_sessions G n s -> reconcile_one x report s = (s', r) -> settled_sessions G n s'.
Proof.
  intros Hs Es. unfold reconcile_one in Es.
  apply bind_inv in Es as [(e & Es & _)|(s1 & now & E1 & Es)]; [done|]. apply (settled_inv G n) in E1; [|exact _|done].
  apply bind_inv in Es as [(e & Es & _)|(s2 & p & E2 & Es)]; [by apply (settled_inv G n) in Es; [|exact _|done]|].
  apply (settled_inv G n) in E2; [|exact _|done].
  destruct p as [[]|]; [|by injection Es as <- _..]. cbn zeta in Es.
  apply bind_inv in Es as [(e & Es & _)|(s3 & o & E3 & Es)]; [unfold attempt in Es; by destruct (prepare_assignment _ _ s2)|].
  unfold attempt in E3. destruct (prepare_assignment _ _ s2) as [s3' o'] eqn:Ep. injection E3 as <- <-.
  destruct E2 as [c0 Hs2]. apply (assignment_delivered G n c0 []) in Ep; [|done|by left]. destruct o' as [o|e].
  - apply bind_inv in Es as [(e & Es & _)|(s4 & outcome & E4 & [= <- _])]; by eapply send_prepared_ok.
  - injection Es as <- _. exists c0. apply Ep.
Qed.

Lemma reconcile_all_ok G n l report s s' r : settled_sessions G n s -> reconcile_all l report s = (s', r) -> settled_sessions G n s'.
Proof.
  revert report s. induction l as [|x l IH]; intros report s Hs Es; cbn in Es; [by injection Es as <- _|].
  apply bind_inv in Es as [(e & Es & _)|(s1 & report' & E1 & Es)]; [by eapply reconcile_one_ok|].
  eapply IH; [|exact Es]. by eapply reconcile_one_ok.
Qed.

Lemma reconcile_ok G n s s' r : settled_sessions G n s -> reconcile_preparing_assignments s = (s', r) -> settled_sessions G n s'.
Proof.
  intros Hs Es. unfold reconcile_preparing_assignments in Es.
  apply bind_inv in Es as [(e & Es & _)|(s1 & x & [= <- <-] & Es)]; [done|].
  apply bind_inv in Es as [(e & [-> _]%lift_inv & _)|(s1 & l & [-> _]%lift_inv & Es)]; [done|]. by eapply reconcile_all_ok.
Qed.

Lemma passes_ok G n k report s s' r : settled_sessions G n s -> reconcile_passes k report s = (s', r) -> settled_sessions G n s'.
Proof.
  revert report s. induction k as [|k IH]; intros report s Hs Es; cbn in Es; [by injection Es as <- _|].
  apply bind_inv in Es as [(e & Es & _)|(s1 & x & E1 & Es)]; [by eapply reconcile_ok|].
  eapply IH; [|exact Es]. by eapply reconcile_ok.
Qed.

(** ** Calls *)

(** The frames a call ingests. *)
Definition call_ingests (call : ServerCall) s : Ingested :=
  match call with CallFrame wid c frame => ingested_frame wid c frame s | _ => [] end.

Fixpoint calls_ingest (calls : list ServerCall) s : Ingested :=
  match calls with [] => [] | call :: calls => call_ingests call s ++ calls_ingest calls (run_call call s) end.

Lemma settled_within {E T} G n (m : Svc V A E T) s : Within calm m -> settled_sessions G n s -> settled_sessions G n (m s).1.
Proof. intros Hm. apply settled_calm, Hm. Qed.

Lemma settled_frame G n s s' :
  sv_control s' = sv_control s -> sv_connection_counter s' = sv_connection_counter s ->
  sv_channels s' = sv_channels s -> sv_workers s' = sv_workers s -> settled_sessions G n s -> settled_sessions G n s'.
Proof. intros E1 E2 E3 E4 [c Hs]. exists c. by apply (sessions_same _ _ _ _ s). Qed.

Lemma run_call_ok G n call s : n < 2 ^ 64 -> settled_sessions G n s ->
  exists n', n' <= n + 1 /\ settled_sessions (G ++ call_ingests call s) n' (run_call call s).
Proof.
  intros Hlt Hs. destruct call; cbn [call_ingests run_call]; rewrite ?app_nil_r.
  - destruct Hs as [c0 Hs]. destruct (open_ok G n c0 first s Hlt Hs) as (n' & c1 & Hn & Hs'). exists n'. split; [lia|]. by exists c1.
  - destruct Hs as [c0 Hs]. destruct (step_stream_ok G n c0 worker_id connection_id frame s Hs) as [c1 Hs']. exists n. split; [lia|]. by exists c1.
  - exists n. split; [lia|]. destruct Hs as [c0 Hs]. exists c0. destruct (disconnect_session _ _ s) as [s' r] eqn:E. by eapply disconnect_session_ok.
  - exists n. split; [lia|]. destruct Hs as [c0 Hs]. exists c0. apply (sessions_close _ _ _ _ connection_id) in Hs. by case_decide.
  - exists n. split; [lia|]. by apply enqueue_ok.
  - exists n. split; [lia|]. by apply enqueue_for_ok.
  - exists n. split; [lia|]. by apply reassign_ok.
  - exists n. split; [lia|]. by apply cancel_ok.
  - exists n. split; [lia|]. destruct (reconcile_preparing_assignments s) as [s' r] eqn:E. by eapply reconcile_ok.
  - exists n. split; [lia|]. destruct (reconcile_preparing_assignments_at_startup s) as [s' r] eqn:E.
    unfold reconcile_preparing_assignments_at_startup in E.
    apply bind_inv in E as [(e & E & _)|(s1 & x & [= <- <-] & E)]; [done|]. by eapply passes_ok.
  - exists n. split; [lia|]. apply settled_within; [|done]. unfold reap_leases. walk.
  - exists n. split; [lia|]. apply settled_within; [|done]. unfold grant_interaction_access. walk.
  - exists n. split; [lia|]. apply settled_within; [|done]. unfold revoke_interaction_access. walk.
  - exists n. split; [lia|]. apply (settled_frame _ _ s); try done; unfold uploaded; repeat case_match; done.
  - exists 0. split; [lia|]. destruct Hs as [c0 [H1 H2 _ _ _ _ _]]. exists c0. split; cbn; try done; [by left|].
    exists (connection_seed mod 2 ^ 64). cbn. rewrite N.add_0_r, N.Div0.mod_mod. split; [done|]. by intros c [? ?].
Qed.

Lemma run_calls_ok G n calls s : n + N.of_nat (length calls) < 2 ^ 64 -> settled_sessions G n s ->
  exists n', settled_sessions (G ++ calls_ingest calls s) n' (run_calls calls s).
Proof.
  revert G n s. induction calls as [|call calls IH]; intros G n s Hlt Hs; cbn [calls_ingest]; [exists n; by rewrite app_nil_r|].
  cbn [length] in Hlt. destruct (run_call_ok G n call s ltac:(lia) Hs) as (n' & Hn & Hs').
  destruct (IH _ n' _ ltac:(lia) Hs') as [n'' Hs'']. exists n''. by rewrite app_assoc.
Qed.

Lemma service_new_ok stores a b : settled_sessions [] 0 (service_new stores a b).
Proof.
  exists EmptyString. split; cbn; try done; [apply control_empty_inv|by intros ? ? ? ?%elem_of_nil|by left|].
  exists (a mod 2 ^ 64). cbn. rewrite N.add_0_r, N.Div0.mod_mod. split; [done|]. by intros c [? ?].
Qed.

End calls.
