(* ===== verification/WorkerSession.v ===== *)
(** * Control sessions of a worker

    Of [src/crates/alloyport-worker/src]: the admission policy and the
    error type of [lib.rs], [worker_state.rs], [attempt_coordinator.rs],
    [worker_delivery.rs], [control_session.rs] and
    [execution_coordination.rs].  A session frames what the journal has
    pending, checks the numbering of what the server sends, and lets a
    backend execute.  The backend itself runs on its own and reaches the
    journal through its operations; the session sees its updates. *)

From stdpp Require Import base strings pretty gmap sets list.
From S2P Require Import Prelude Text Digest Identity Vocabulary WorkerJournal Wire.

Local Open Scope N_scope.

(** ** Errors *)

Module Wk.

(** [enum WorkerError], without the errors of transports. *)
Inductive WorkerError :=
| InvalidAssignment (error : ValidationError)
| ConflictingAttempt (attempt_id : string)
| PolicyViolation (detail : string)
| AttemptStore (error : AttemptStoreError)
| Backend
| Execution
| Protocol
| StreamClosed.

End Wk.

Definition WError : Type := Wk.WorkerError.

(** [From<AttemptStoreError> for WorkerError]. *)
Definition worker_store_error (error : AttemptStoreError) : WError :=
  match error with
  | ConflictingAttempt attempt_id => Wk.ConflictingAttempt attempt_id
  | other => Wk.AttemptStore other
  end.

(** [Display for ValidationError]. *)
Definition validation_text (error : ValidationError) : string :=
  match error with Invalid field detail => "invalid " +:+ field +:+ ": " +:+ detail end.

(** ** Admission policy *)

(** [struct AdmissionPolicy]. *)
Record AdmissionPolicy := MkPolicy {
  allow_shell : bool;
  allowed_fixed_executors : N;
  exclusive_executor : option ExecutionKind;
}.

Definition ALLOW_CUDA_FIXTURE : N := 1.
Definition ALLOW_ASCEND_FIXTURE : N := 2.
Definition ALLOW_ASCEND_BUILD : N := 4.
Definition ALLOW_CUDA_CORRECTNESS : N := 8.
Definition ALLOW_ASCEND_CORRECTNESS : N := 16.

(** [AdmissionPolicy::default]. *)
Definition policy_default : AdmissionPolicy := MkPolicy false 0 None.

Definition allowing_shell (p : AdmissionPolicy) : AdmissionPolicy :=
  MkPolicy true (allowed_fixed_executors p) (exclusive_executor p).

(** [allowing_cuda_fixture] and its siblings. *)
Definition allowing (bit : N) (p : AdmissionPolicy) : AdmissionPolicy :=
  MkPolicy (allow_shell p) (N.lor (allowed_fixed_executors p) bit) (exclusive_executor p).

(** [ascend_build_only] and its siblings. *)
Definition only (bit : N) (kind : ExecutionKind) (p : AdmissionPolicy) : AdmissionPolicy :=
  MkPolicy (allow_shell p) (N.lor (allowed_fixed_executors p) bit) (Some kind).

Definition allowing_cuda_fixture := allowing ALLOW_CUDA_FIXTURE.
Definition allowing_ascend_fixture := allowing ALLOW_ASCEND_FIXTURE.
Definition allowing_ascend_build := allowing ALLOW_ASCEND_BUILD.
Definition allowing_ascend_correctness := allowing ALLOW_ASCEND_CORRECTNESS.
Definition ascend_build_only := only ALLOW_ASCEND_BUILD AscendBuild.
Definition cuda_correctness_only := only ALLOW_CUDA_CORRECTNESS CudaCorrectness.
Definition ascend_correctness_only := only ALLOW_ASCEND_CORRECTNESS AscendCorrectness.
Definition cuda_fixture_only := only ALLOW_CUDA_FIXTURE CudaFixture.
Definition ascend_fixture_only := only ALLOW_ASCEND_FIXTURE AscendFixture.

(** [Debug for ExecutionKind]. *)
Definition kind_debug (kind : ExecutionKind) : string :=
  match kind with
  | Process => "Process" | Container => "Container" | Shell => "Shell" | CudaFixture => "CudaFixture"
  | AscendFixture => "AscendFixture" | AscendBuild => "AscendBuild"
  | CudaCorrectness => "CudaCorrectness" | AscendCorrectness => "AscendCorrectness"
  end.

(** The bit of a fixed executor, with its name in the refusals. *)
Definition fixed_executor (kind : ExecutionKind) : option (N * string) :=
  match kind with
  | CudaFixture => Some (ALLOW_CUDA_FIXTURE, "CUDA fixture")
  | AscendFixture => Some (ALLOW_ASCEND_FIXTURE, "Ascend fixture")
  | AscendBuild => Some (ALLOW_ASCEND_BUILD, "Ascend build")
  | CudaCorrectness => Some (ALLOW_CUDA_CORRECTNESS, "CUDA correctness")
  | AscendCorrectness => Some (ALLOW_ASCEND_CORRECTNESS, "Ascend correctness")
  | Process | Container | Shell => None
  end.

(** The checks of [WorkerState::admit] on the executor. *)
Definition policy_check (policy : AdmissionPolicy) (executor : ExecutionKind) : result WError unit :=
  _ ← match exclusive_executor policy with
      | Some kind => guard_err (negb (bool_decide (executor = kind)))
                       (Wk.PolicyViolation ("only the " +:+ kind_debug kind +:+ " executor is enabled"))
      | None => Ok tt
      end;
  _ ← guard_err (bool_decide (executor = Shell) && negb (allow_shell policy))
        (Wk.PolicyViolation "shell executor is disabled");
  match fixed_executor executor with
  | Some (bit, name) => guard_err (N.land (allowed_fixed_executors policy) bit =? 0)
                          (Wk.PolicyViolation (name +:+ " executor is disabled"))
  | None => Ok tt
  end.

(** ** State *)

(** [struct OutboundWorker] with the running tasks of its execution: the
    attempts that have one, and whether their token is cancelled.
    [wk_execution] lists the kinds of the registered backends. *)
Record Worker := MkWorker {
  wk_hello : WorkerHello;
  wk_policy : AdmissionPolicy;
  wk_journal : Journal;
  wk_admission_only : bool;
  wk_execution : option (list ExecutionKind);
  wk_active : gmap string bool;
  wk_clock : nat;
}.

(** The locals of [run_control_session] after the welcome, with the frames
    put on the outbound channel and whether its receiver is there. *)
Record Session := MkSession {
  ss_connection_id : string;
  ss_next_worker_sequence : N;
  ss_last_server_sequence : N;
  ss_last_worker_sequence_acknowledged : N;
  ss_delivered : gset string;
  ss_require_message_ids : bool;
  ss_outbound : list WorkerToServer;
  ss_open : bool;
}.

Definition WkState : Type := Worker * Session.

Definition Wkm (T : Type) : Type := WkState -> WkState * result WError T.

#[export] Instance wkm_ret : MRet Wkm := fun T x w => (w, Ok x).
#[export] Instance wkm_bind : MBind Wkm := fun T U f m w =>
  match m w with
  | (w, Ok x) => f x w
  | (w, Err e) => (w, Err e)
  end.

Definition wk_lift {T} (r : result WError T) : Wkm T := fun w => (w, r).
Definition wk_get : Wkm WkState := fun w => (w, Ok w).

Definition set_journal (j : Journal) (w : Worker) : Worker :=
  MkWorker (wk_hello w) (wk_policy w) j (wk_admission_only w) (wk_execution w) (wk_active w) (wk_clock w).
Definition set_active (a : gmap string bool) (w : Worker) : Worker :=
  MkWorker (wk_hello w) (wk_policy w) (wk_journal w) (wk_admission_only w) (wk_execution w) a (wk_clock w).
Definition tick (w : Worker) : Worker :=
  MkWorker (wk_hello w) (wk_policy w) (wk_journal w) (wk_admission_only w) (wk_execution w) (wk_active w) (S (wk_clock w)).

Definition set_outbound (next : N) (delivered : gset string) (frames : list WorkerToServer) (s : Session) : Session :=
  MkSession (ss_connection_id s) next (ss_last_server_sequence s) (ss_last_worker_sequence_acknowledged s) delivered
    (ss_require_message_ids s) frames (ss_open s).
Definition set_received (sequence acknowledged : N) (s : Session) : Session :=
  MkSession (ss_connection_id s) (ss_next_worker_sequence s) sequence acknowledged (ss_delivered s)
    (ss_require_message_ids s) (ss_outbound s) (ss_open s).

(** The readings of the clock of the worker. *)
Class WorkerClock := worker_reading : nat -> N.

Section worker.
Context `{WorkerClock}.

(** A transaction of the journal at the time of the next reading. *)
Definition on_journal {T} (t : N -> Txn T) : Wkm T := fun '(w, s) =>
  let now := worker_reading (wk_clock w) in
  match t now (wk_journal w) with
  | Ok (x, j) => ((set_journal j (tick w), s), Ok x)
  | Err e => ((tick w, s), Err (worker_store_error e))
  end.

(** [WorkerState::attempt]. *)
Definition local_attempt (attempt_id : string) : Wkm (option LocalAttemptRecord) := fun '(w, s) =>
  ((w, s), Ok (journal_attempt attempt_id (wk_journal w))).

(** [WorkerState::admit].  A conversion that panics cannot happen after the
    validation. *)
Definition wk_admit (assignment : WireAssignment) : Wkm StoreAdmissionOutcome := fun '(w, s) =>
  match validate_assignment assignment with
  | Err e => ((w, s), Err (Wk.InvalidAssignment e))
  | Ok _ =>
      let checked :=
        match ws_execution assignment with
        | Some execution =>
            executor ← map_err (fun _ => Wk.Protocol) (execution_kind_try_from (wx_executor_kind execution));
            policy_check (wk_policy w) executor
        | None => Ok tt
        end in
      match checked, assignment_to_stored assignment with
      | Err e, _ => ((w, s), Err e)
      | Ok _, Some stored => on_journal (journal_admit stored) (w, s)
      | Ok _, None => ((w, s), Err Wk.Protocol)
      end
  end.

(** [validate_execution_support]. *)
Definition validate_execution_support (w : Worker) (assignment : WireAssignment) : result WError unit :=
  _ ← map_err Wk.InvalidAssignment (validate_assignment assignment);
  if wk_admission_only w then Ok tt else
  execution ← ok_or (ws_execution assignment) Wk.Protocol;
  executor ← map_err (fun _ => Wk.Protocol) (execution_kind_try_from (wx_executor_kind execution));
  backends ← ok_or (wk_execution w)
    (Wk.PolicyViolation ("no execution backend is attached for " +:+ execution_kind_name executor));
  guard_err (negb (bool_decide (executor ∈ backends)))
    (Wk.PolicyViolation ("attached execution backend does not support " +:+ execution_kind_name executor)).

(** ** Delivery *)

(** [outbound.send(..)]. *)
Definition put_frame (acknowledges : N) (message_id : string) (message : WorkerMessage) (delivered : gset string)
    : Wkm unit := fun '(w, s) =>
  let sequence := ss_next_worker_sequence s in
  let frame := MkWorkerFrame sequence acknowledges message_id (Some message) in
  if ss_open s then ((w, set_outbound (sequence + 1) delivered (ss_outbound s ++ [frame]) s), Ok tt)
  else ((w, set_outbound (sequence + 1) delivered (ss_outbound s) s), Err Wk.StreamClosed).

(** [send_ephemeral]. *)
Definition send_ephemeral (acknowledges : N) (message : WorkerMessage) : Wkm unit :=
  w ← wk_get; put_frame acknowledges EmptyString message (ss_delivered w.2).

(** The loop of [send_pending_outbox]. *)
Fixpoint send_entries (acknowledges : N) (pending : list WorkerOutboxMessage) : Wkm unit :=
  match pending with
  | [] => mret tt
  | entry :: pending =>
      w ← wk_get;
      if bool_decide (om_message_id entry ∈ ss_delivered w.2) then send_entries acknowledges pending else
      _ ← on_journal (fun now => record_outbox_delivery (ss_connection_id w.2) (ss_next_worker_sequence w.2)
            (om_message_id entry) now);
      _ ← put_frame acknowledges (om_message_id entry) (outbox_to_wire (om_payload entry))
            ({[om_message_id entry]} ∪ ss_delivered w.2);
      send_entries acknowledges pending
  end.

(** [send_pending_outbox]. *)
Definition send_pending_outbox (acknowledges : N) : Wkm unit :=
  w ← wk_get; send_entries acknowledges (pending_outbox (wk_journal w.1)).

(** ** Executions *)

(** [ensure_execution]: whether the attempt has an executor now. *)
Definition ensure_execution (attempt_id : string) : Wkm bool := fun '(w, s) =>
  match wk_execution w with
  | None => ((w, s), Ok false)
  | Some backends =>
      match journal_attempt attempt_id (wk_journal w) with
      | None => ((w, s), Err Wk.Protocol)
      | Some attempt =>
          if bool_decide (la_phase attempt = PhaseFinished) then ((w, s), Ok false)
          else if negb (bool_decide (executor_kind (ac_execution (la_assignment attempt)) ∈ backends))
          then ((w, s), Err Wk.Execution)
          else match wk_active w !! attempt_id with
               | Some _ => ((w, s), Ok true)
               | None => ((set_active (<[attempt_id := false]> (wk_active w)) w, s), Ok true)
               end
      end
  end.

(** ** Attempts *)

(** The rejection [handle_assignment] records for an admission that failed;
    other errors end the session. *)
Definition rejection_of (error : WError) : option (RejectionReason * string) :=
  match error with
  | Wk.InvalidAssignment error => Some (RejectInvalid, validation_text error)
  | Wk.ConflictingAttempt _ => Some (RejectConflict, "attempt ID conflicts with locally admitted content")
  | Wk.PolicyViolation detail => Some (RejectPolicy, detail)
  | _ => None
  end.

(** The match on the phase of an attempt that was admitted. *)
Definition replay_phase (attempt_id : string) : Wkm unit :=
  found ← local_attempt attempt_id;
  attempt ← wk_lift (ok_or found Wk.Protocol);
  match la_phase attempt, la_finished attempt with
  | PhaseRunning, _ => on_journal (mark_running attempt_id)
  | PhaseFinished, Some finished => on_journal (mark_finished attempt_id finished)
  | PhaseFinished, None => wk_lift (Err Wk.Protocol)
  | PhaseAccepted, _ => mret tt
  end.

(** The admission, its failures turned into rejections. *)
Definition admission (assignment : WireAssignment) : Wkm bool := fun '(w, s) =>
  let '(w1, admitted) :=
    match validate_execution_support w assignment with
    | Ok _ => wk_admit assignment (w, s)
    | Err e => ((w, s), Err e)
    end in
  match admitted with
  | Ok _ => (w1, Ok true)
  | Err e =>
      match rejection_of e with
      | Some (reason, detail) =>
          (_ ← on_journal (enqueue_lifecycle
                 (AssignmentRejected (ws_assignment_id assignment) (ws_attempt_id assignment) reason detail));
           mret false) w1
      | None => (w1, Err e)
      end
  end.

(** [handle_assignment]. *)
Definition handle_assignment (assignment : WireAssignment) (acknowledged : N) : Wkm unit :=
  let attempt_id := ws_attempt_id assignment in
  admitted ← admission assignment;
  _ ← (if admitted : bool then replay_phase attempt_id else mret tt);
  _ ← send_pending_outbox acknowledged;
  if admitted : bool then (_ ← ensure_execution attempt_id; mret tt) else mret tt.

(** The result of an attempt that is cancelled without an executor. *)
Definition cancelled_result (reason : string) : StoredFinished :=
  MkFinished OutcomeCancelled None 0 None None None reason.

(** [cancellation.cancel()]. *)
Definition cancel_token (attempt_id : string) : Wkm unit := fun '(w, s) =>
  ((set_active (alter (fun _ => true) attempt_id (wk_active w)) w, s), Ok tt).

(** [handle_cancel]. *)
Definition handle_cancel (attempt_id reason : string) (acknowledged : N) : Wkm unit :=
  found ← local_attempt attempt_id;
  attempt ← wk_lift (ok_or found Wk.Protocol);
  let already_terminal := bool_decide (la_phase attempt = PhaseFinished) in
  _ ← on_journal (enqueue_lifecycle (CancellationAcknowledged (ac_assignment_id (la_assignment attempt))
         (ac_attempt_id (la_assignment attempt)) already_terminal));
  if already_terminal : bool then send_pending_outbox acknowledged else
  w ← wk_get;
  match wk_execution w.1 with
  | None =>
      _ ← on_journal (mark_finished attempt_id (cancelled_result reason));
      again ← local_attempt attempt_id;
      _ ← wk_lift (ok_or (again ≫= la_finished) Wk.Protocol);
      send_pending_outbox acknowledged
  | Some _ =>
      running ← ensure_execution attempt_id;
      _ ← wk_lift (guard_err (negb running) Wk.Protocol);
      _ ← send_pending_outbox acknowledged;
      cancel_token attempt_id
  end.

(** ** Frames of the server *)

(** [validate_server_frame]. *)
Definition validate_server_frame (message : ServerToWorker) (last_server_sequence last_worker_sequence_acknowledged
    sent_worker_through : N) (require_message_ids : bool) : result WError unit :=
  _ ← guard_err (negb (sm_sequence message =? last_server_sequence + 1)) Wk.Protocol;
  _ ← guard_err (sm_acknowledges_worker_through message <? last_worker_sequence_acknowledged) Wk.Protocol;
  _ ← guard_err (sent_worker_through <? sm_acknowledges_worker_through message) Wk.Protocol;
  if require_message_ids then
    match expected_server_message_id (sm_message message) with
    | Some expected => guard_err (negb (String.eqb (sm_message_id message) expected)) Wk.Protocol
    | None => guard_err (negb (String.eqb (sm_message_id message) EmptyString)) Wk.Protocol
    end
  else Ok tt.

(** [welcome_identity]. *)
Definition welcome_identity (hello : WorkerHello) (frame : ServerToWorker) : result WError (string * N) :=
  match sm_message frame with
  | Some (SWelcome welcome) =>
      _ ← guard_err (negb (sw_protocol_major welcome =? wh_protocol_major hello)) Wk.Protocol;
      Ok (sw_connection_id welcome, sw_protocol_minor welcome)
  | _ => Err Wk.Protocol
  end.

(** [handle_server_message]: whether the session ends. *)
Definition handle_server_message (frame : ServerToWorker) (acknowledged : N) : Wkm bool :=
  match sm_message frame with
  | Some (SWelcome welcome) =>
      w ← wk_get;
      _ ← wk_lift (guard_err (negb (sw_protocol_major welcome =? wh_protocol_major (wk_hello w.1))) Wk.Protocol);
      mret false
  | Some (SAssignment assignment) => _ ← handle_assignment assignment acknowledged; mret false
  | Some (SDrain _) => mret true
  | Some (SCancel attempt_id reason) => _ ← handle_cancel attempt_id reason acknowledged; mret false
  | Some SAcknowledgement => mret false
  | None => wk_lift (Err Wk.Protocol)
  end.

(** The cursors of the session after a frame. *)
Definition mark_received (frame : ServerToWorker) : Wkm bool := fun '(w, s) =>
  ((w, set_received (sm_sequence frame) (sm_acknowledges_worker_through frame) s), Ok false).

(** The branch of the session loop for a frame of the server. *)
Definition receive_frame (frame : ServerToWorker) : Wkm bool :=
  w ← wk_get;
  _ ← wk_lift (validate_server_frame frame (ss_last_server_sequence w.2) (ss_last_worker_sequence_acknowledged w.2)
        (ss_next_worker_sequence w.2 - 1) (ss_require_message_ids w.2));
  ended ← handle_server_message frame (sm_sequence frame);
  if ended : bool then mret true else
  _ ← on_journal (fun _ => acknowledge_outbox (ss_connection_id w.2) (sm_acknowledges_worker_through frame));
  mark_received frame.

Definition OUTBOX_DELIVERY_RETENTION_MS : N := 7 * 24 * 60 * 60 * 1000.

(** [resume_outbox_delivery]. *)
Definition resume_outbox_delivery : Wkm unit :=
  w ← wk_get;
  _ ← on_journal (fun _ => acknowledge_outbox (ss_connection_id w.2) (ss_last_worker_sequence_acknowledged w.2));
  _ ← on_journal (fun now => prune_outbox_deliveries (saturating_sub now OUTBOX_DELIVERY_RETENTION_MS));
  send_pending_outbox (ss_last_server_sequence w.2).

(** [WorkerState::active_attempts]. *)
Definition phase_wire_code (p : LocalAttemptPhase) : Z :=
  match p with PhaseAccepted => 1 | PhaseRunning => 2 | PhaseFinished => 3 end.

Definition active_attempts (j : Journal) : list WireActive :=
  (fun r => MkWireActive (as_str (ac_assignment_id (la_assignment r))) (as_str (ac_attempt_id (la_assignment r)))
     (phase_wire_code (la_phase r))) <$> journal_attempts j.

(** The first frame of a session. *)
Definition hello_frame (w : Worker) : WorkerToServer :=
  let hello := wk_hello w in
  MkWorkerFrame 1 0 EmptyString (Some (WHello
    (MkHello (wh_protocol_major hello) (wh_protocol_minor hello) (wh_worker_id hello) (wh_instance_id hello)
       (wh_worker_version hello) (wh_features hello) (wh_capabilities hello) (active_attempts (wk_journal w))))).

(** The session after the welcome. *)
Definition open_session (w : Worker) (frame : ServerToWorker) : result WError Session :=
  _ ← validate_server_frame frame 0 0 1 false;
  identity ← welcome_identity (wk_hello w) frame;
  Ok (MkSession identity.1 2 (sm_sequence frame) (sm_acknowledges_worker_through frame) ∅ (2 <=? identity.2)
        [hello_frame w] true).

(** [run_control_session] up to its loop. *)
Definition start_session (w : Worker) (frame : ServerToWorker) : result WError (WkState * result WError unit) :=
  session ← open_session w frame;
  Ok (resume_outbox_delivery (w, session)).

End worker.
