(* ===== verification/WorkerUpdates.v ===== *)
(** * Previews, updates and heartbeats of a worker

    Of [src/crates/alloyport-worker/src]: [execution_coordination.rs] (the
    updates of an execution and the splitting of its output),
    [ExecutionBackendRegistry] of [execution_backend.rs],
    [available_slots] of [worker_delivery.rs] and [build_heartbeat] of
    [control_session.rs].  The probe of the devices is read through its
    port: the heartbeat takes its result. *)

From Stdlib Require Import Ascii.
From stdpp Require Import base strings pretty gmap sets list.
From S2P Require Import Prelude Text Digest Identity Vocabulary WorkerJournal Wire WorkerSession.

Local Open Scope N_scope.

(** ** Previews *)

(** [str::is_char_boundary] of the text of the bytes. *)
Definition is_char_boundary (data : list Byte.byte) (index : nat) : bool :=
  match index with
  | O => true
  | _ => match data !! index with
         | Some b => negb (continuation (ascii_of_byte b))
         | None => (index =? length data)%nat
         end
  end.

Definition bytes_are_text (data : bytes) : bool := utf8_valid (String.string_of_list_byte data).

(** The inner loop of [bounded_preview_chunks]: [count] is how far [end]
    is above [offset]. *)
Fixpoint back_to_boundary (data : bytes) (offset count : nat) : nat :=
  match count with
  | O => 0
  | S lower => if is_char_boundary data (offset + count) then count else back_to_boundary data offset lower
  end.

(** The next chunk: how long it is. *)
Definition next_chunk (data : bytes) (offset : nat) : nat :=
  let count := Nat.min (N.to_nat MAX_OUTPUT_PREVIEW_CHUNK_BYTES) (length data - offset) in
  if bytes_are_text data then back_to_boundary data offset count else count.

(** [bounded_preview_chunks]; a step that makes no progress would repeat
    for ever. *)
Fixpoint preview_chunks (fuel : nat) (data : bytes) (offset : nat) : list (N * bytes) :=
  match fuel with
  | O => []
  | S fuel =>
      if (length data <=? offset)%nat then [] else
      let count := next_chunk data offset in
      (N.of_nat offset, take count (drop offset data)) :: preview_chunks fuel data (offset + count)
  end.

Definition bounded_preview_chunks (data : bytes) : list (N * bytes) := preview_chunks (length data) data 0.

(** ** Updates *)

(** [enum ExecutionStream], [struct ExecutionChunk] and
    [enum ExecutionObservation]. *)
Inductive ExecutionStream := ExecutionStdout | ExecutionStderr.

Record ExecutionChunk := MkExecutionChunk {
  xc_stream : ExecutionStream;
  xc_byte_offset : N;
  xc_bytes : bytes;
}.

Inductive ExecutionObservation := ObservedStarted | ObservedOutput (chunk : ExecutionChunk).

(** [enum ExecutionUpdate], and what [broadcast::Receiver::recv] returns. *)
Inductive ExecutionUpdate :=
| UpdateObservation (attempt_id : string) (observation : ExecutionObservation)
| UpdateCompleted (attempt_id : string) (succeeded : bool).

Inductive Received := ReceivedUpdate (update : ExecutionUpdate) | ReceivedLagged | ReceivedClosed.

Definition stream_code (stream : ExecutionStream) : Z :=
  match stream with ExecutionStdout => 1 | ExecutionStderr => 2 end.

(** The message of one preview. *)
Definition output_message (attempt_id : string) (chunk : ExecutionChunk) (part : N * bytes) : WorkerMessage :=
  WOutput (MkOutputChunk attempt_id (stream_code (xc_stream chunk))
             (saturating_add u64_max (xc_byte_offset chunk) part.1) part.2 (negb (bytes_are_text part.2))).

Section updates.
Context `{WorkerClock}.

Fixpoint send_previews (acknowledged : N) (attempt_id : string) (chunk : ExecutionChunk) (parts : list (N * bytes)) : Wkm unit :=
  match parts with
  | [] => mret tt
  | part :: parts =>
      _ ← send_ephemeral acknowledged (output_message attempt_id chunk part);
      send_previews acknowledged attempt_id chunk parts
  end.

(** [handle_execution_update]. *)
Definition handle_execution_update (update : ExecutionUpdate) (acknowledged : N) : Wkm unit :=
  match update with
  | UpdateObservation _ ObservedStarted => send_pending_outbox acknowledged
  | UpdateObservation attempt_id (ObservedOutput chunk) =>
      send_previews acknowledged attempt_id chunk (bounded_preview_chunks (xc_bytes chunk))
  | UpdateCompleted _ succeeded =>
      _ ← wk_lift (guard_err (negb succeeded) Wk.Backend);
      send_pending_outbox acknowledged
  end.

(** [handle_execution_receive], the branch of the session loop for an
    update. *)
Definition handle_execution_receive (received : Received) : Wkm unit :=
  w ← wk_get;
  let acknowledged := ss_last_server_sequence w.2 in
  match received with
  | ReceivedUpdate update => handle_execution_update update acknowledged
  | ReceivedLagged => send_pending_outbox acknowledged
  | ReceivedClosed => wk_lift (Err Wk.Protocol)
  end.

(** ** Heartbeats *)

(** [available_slots]. *)
Definition unfinished_attempts (j : Journal) : gset string :=
  list_to_set ((fun r => as_str (ac_attempt_id (la_assignment r))) <$>
    filter (fun r => la_phase r <> PhaseFinished) (journal_attempts j)).

Definition available_slots (usable_devices : N) (w : Worker) : N :=
  let active := N.min (N.of_nat (size (unfinished_attempts (wk_journal w)))) u32_max in
  match wh_capabilities (wk_hello w) with
  | Some capabilities => saturating_sub (N.min (wcp_max_concurrency capabilities) usable_devices) active
  | None => 0
  end.

(** A device as it is sent. *)
Definition wire_device (o : DeviceObservation) : WireDevice :=
  MkWireDevice (obs_device_id o) (device_health_code (obs_health o)) (obs_process_count o) (obs_utilization_percent o)
    (obs_memory_used_bytes o) (obs_memory_total_bytes o) (obs_temperature_millicelsius o) (obs_power_milliwatts o)
    (obs_observed_at_ms o) (obs_detail o).

Definition wire_lease (l : DeviceLease) : WireLease :=
  MkWireLease (as_str (lease_attempt_id l)) (lease_device_id l) (lease_acquired_at_ms l).

(** The devices that may take work. *)
Definition usable_devices (leased : list string) (devices : list DeviceObservation) : N :=
  N.min (N.of_nat (length (filter (fun o => obs_health o = DeviceReady /\ obs_process_count o = 0
                                            /\ obs_device_id o ∉ leased) devices))) u32_max.

(** [build_heartbeat]: [None] when no provider is attached, else what its
    probe returned. *)
Definition build_heartbeat (probe : option (option (list DeviceObservation))) (w : Worker) : result WError Heartbeat :=
  let devices := match probe with Some (Some devices) => devices | _ => [] end in
  let healthy :=
    match probe with
    | None => true
    | Some None => false
    | Some (Some devices) => existsb (fun o => bool_decide (obs_health o = DeviceReady)) devices
    end in
  leases ← map_err worker_store_error (active_device_leases (wk_journal w));
  let usable := match probe with
                | None => u32_max
                | Some _ => usable_devices (lease_device_id <$> leases) devices
                end in
  Ok (MkHeartbeat (active_attempts (wk_journal w))
        (if healthy && (0 <? usable) then available_slots usable w else 0)
        (available_slots u32_max w)
        (if healthy then 1%Z else 2%Z)
        (wire_device <$> devices) (wire_lease <$> leases)).

(** The branch of the session loop for the heartbeat. *)
Definition send_heartbeat (probe : option (option (list DeviceObservation))) : Wkm unit :=
  w ← wk_get;
  heartbeat ← wk_lift (build_heartbeat probe w.1);
  send_ephemeral (ss_last_server_sequence w.2) (WHeartbeat heartbeat).

End updates.
