(* ===== verification/WorkerPreviews.v ===== *)
(** * Splitting of previews

    The chunks of [bounded_preview_chunks] are the output, in order, none
    empty and none above the limit of the wire, and a text is not split
    inside a character. *)

From Stdlib Require Import Ascii.
From stdpp Require Import base strings pretty gmap sets list.
From S2P Require Import Prelude Text Digest Identity Vocabulary WorkerJournal Wire WorkerSession WorkerUpdates.

Local Open Scope N_scope.

Lemma lead_not_continuation a lo hi : in_range lo hi a = true -> 0xC0 <= lo -> continuation a = false.
Proof.
  unfold continuation, in_range. intros [?%N.leb_le _]%andb_true_iff Hlo. apply andb_false_iff. right. apply N.leb_gt. lia.
Qed.

(** The bytes that continue a character. *)
Lemma second_of_three_continues a b : second_of_three a b = true -> continuation b = true.
Proof.
  unfold second_of_three, continuation, in_range. repeat case_match; rewrite ?andb_true_iff, ?N.leb_le; try tauto; lia.
Qed.

Lemma second_of_four_continues a b : second_of_four a b = true -> continuation b = true /\ 0xF0 <= code a.
Proof.
  unfold second_of_four, continuation, in_range.
  destruct (code a =? 0xF0) eqn:E1; [|destruct (code a =? 0xF4) eqn:E2]; rewrite ?andb_true_iff, ?N.leb_le, ?N.eqb_eq in *; lia.
Qed.

Lemma above_not_continuation a : 0xC0 <= code a -> continuation a = false.
Proof. unfold continuation, in_range. intros Ha. apply andb_false_iff. right. apply N.leb_gt. lia. Qed.

Lemma text_cons b l :
  String.string_of_list_byte (b :: l) = String (ascii_of_byte b) (String.string_of_list_byte l).
Proof. done. Qed.

(** A text starts with a character: a first byte and up to three that
    continue it. *)
Lemma text_head b l : bytes_are_text (b :: l) = true ->
  continuation (ascii_of_byte b) = false
  /\ exists c rest, l = c ++ rest /\ (length c <= 3)%nat /\ Forall (fun x => continuation (ascii_of_byte x) = true) c
    /\ bytes_are_text rest = true
    /\ forall x, bytes_are_text (b :: c ++ x) = bytes_are_text x.
Proof.
  unfold bytes_are_text. rewrite text_cons. set (a := ascii_of_byte b). cbn [utf8_valid].
  destruct (code a <? 0x80) eqn:Ea.
  { intros H. split; [unfold continuation, in_range; apply andb_false_iff; left; apply N.leb_gt, N.ltb_lt, Ea|].
    exists [], l. split_and!; [done|cbn; lia|by apply Forall_nil_2|done|].
    intros x. cbn [app]. rewrite text_cons. fold a. cbn [utf8_valid]. by rewrite Ea. }
  destruct l as [|b2 l]; [done|]. rewrite text_cons. destruct (in_range 0xC2 0xDF a) eqn:E2.
  { intros [H1 H2]%andb_true_iff. split; [by eapply lead_not_continuation|].
    exists [b2], l. split_and!; [done|cbn; lia|by repeat constructor|done|].
    intros x. cbn [app]. rewrite !text_cons. fold a. cbn [utf8_valid]. by rewrite Ea, E2, H1. }
  destruct l as [|b3 l]; [done|]. rewrite text_cons. destruct (in_range 0xE0 0xEF a) eqn:E3.
  { intros [[H1 H2]%andb_true_iff H3]%andb_true_iff. split; [by eapply lead_not_continuation|].
    exists [b2; b3], l. split_and!; [done|cbn; lia| |done|].
    - repeat constructor; [by eapply second_of_three_continues|done].
    - intros x. cbn [app]. rewrite !text_cons. fold a. cbn [utf8_valid]. by rewrite Ea, E2, E3, H1, H2. }
  destruct l as [|b4 l]; [done|]. rewrite text_cons.
  intros [[[H1 H2]%andb_true_iff H3]%andb_true_iff H4]%andb_true_iff.
  pose proof (second_of_four_continues _ _ H1) as [Hb Hlead]. split; [apply above_not_continuation; lia|].
  exists [b2; b3; b4], l. split_and!; [done|cbn; lia|by repeat constructor|done|].
  intros x. cbn [app]. rewrite !text_cons. fold a. cbn [utf8_valid]. by rewrite Ea, E2, E3, H1, H2, H3.
Qed.

(** Boundaries of a text. *)
Lemma boundary_inside b c rest i :
  Forall (fun x => continuation (ascii_of_byte x) = true) c -> (0 < i <= length c)%nat ->
  is_char_boundary (b :: c ++ rest) i = false.
Proof.
  intros Hc [Hi Hl]. destruct i as [|i]; [lia|]. unfold is_char_boundary.
  change ((b :: c ++ rest) !! S i) with ((c ++ rest) !! i). rewrite lookup_app_l by lia.
  destruct (lookup_lt_is_Some_2 c i) as [x Hx]; [lia|]. rewrite Hx. apply negb_false_iff.
  by apply (Forall_lookup_1 _ _ _ _ Hc Hx).
Qed.

Lemma boundary_after b c rest i : is_char_boundary (b :: c ++ rest) (S (length c) + i) = true ->
  bytes_are_text rest = true -> is_char_boundary rest i = true.
Proof.
  intros H Ht. destruct i as [|i]; [done|]. unfold is_char_boundary in *. cbn [Nat.add] in H.
  change ((b :: c ++ rest) !! S (length c + S i)) with ((c ++ rest) !! (length c + S i)%nat) in H.
  rewrite lookup_app_r in H by lia. replace (length c + S i - length c)%nat with (S i) in H by lia.
  cbn [length] in H. rewrite length_app in H.
  revert H. destruct (rest !! S i); [done|]. rewrite !Nat.eqb_eq. lia.
Qed.

(** Cutting a text at a boundary gives two texts. *)
Lemma text_cut l i : bytes_are_text l = true -> is_char_boundary l i = true ->
  bytes_are_text (take i l) = true /\ bytes_are_text (drop i l) = true.
Proof.
  remember (length l) as n eqn:En. revert l i En. induction n as [n IH] using lt_wf_ind. intros l i -> Hl Hi.
  destruct l as [|b l]; [by rewrite take_nil, drop_nil|]. destruct (text_head b l Hl) as (_ & c & rest & -> & _ & Hc & Hr & Hx).
  destruct i as [|i]; [by split|]. destruct (decide (S i <= length c)%nat) as [Hle|Hgt].
  { by rewrite boundary_inside in Hi by (done || lia). }
  replace (S i) with (S (length c) + (i - length c))%nat in * by lia.
  destruct (IH (length rest) ltac:(cbn; rewrite length_app; lia) rest (i - length c)%nat eq_refl Hr) as [H1 H2].
  { by apply (boundary_after b c). }
  change (S (length c) + (i - length c))%nat with (S (length c + (i - length c))). cbn [take drop].
  rewrite take_app_add, drop_app_add. by rewrite Hx.
Qed.

(** Every window of four bytes has a boundary. *)
Lemma boundary_near l count : bytes_are_text l = true -> (0 < count <= length l)%nat ->
  (4 <= count \/ count = length l)%nat -> exists i, (0 < i <= count)%nat /\ is_char_boundary l i = true.
Proof.
  intros Hl Hc Hw. destruct l as [|b l]; [cbn in Hc; lia|].
  destruct (text_head b l Hl) as (_ & c & rest & -> & Hlen & _ & Hr & _). exists (S (length c)).
  cbn [length] in *. rewrite length_app in *. split; [lia|]. unfold is_char_boundary.
  change ((b :: c ++ rest) !! S (length c)) with ((c ++ rest) !! length c).
  rewrite lookup_app_r by lia. rewrite Nat.sub_diag. cbn [length]. rewrite length_app. destruct rest as [|x rest]; cbn.
  - apply Nat.eqb_eq. lia.
  - apply negb_true_iff. by destruct (text_head x rest Hr) as [? _].
Qed.

Lemma boundary_drop data offset k : (0 < k)%nat -> (offset <= length data)%nat ->
  is_char_boundary data (offset + k) = is_char_boundary (drop offset data) k.
Proof.
  intros Hk Ho. destruct k as [|k]; [lia|]. unfold is_char_boundary.
  replace (offset + S k)%nat with (S (offset + k)) by lia. rewrite lookup_drop, length_drop.
  replace (offset + S k)%nat with (S (offset + k)) by lia. destruct (data !! S (offset + k)); [done|].
  destruct (Nat.eqb_spec (S (offset + k)) (length data)), (Nat.eqb_spec (S k) (length data - offset)); try done; lia.
Qed.

Lemma back_le data offset count : (back_to_boundary data offset count <= count)%nat.
Proof. induction count as [|count IH]; cbn; [lia|]. destruct (is_char_boundary _ _); lia. Qed.

Lemma back_finds data offset count i : (0 < i <= count)%nat -> is_char_boundary data (offset + i) = true ->
  let k := back_to_boundary data offset count in (i <= k <= count)%nat /\ is_char_boundary data (offset + k) = true.
Proof.
  intros Hi Hb. induction count as [|count IH]; [lia|]. cbn. destruct (is_char_boundary data (offset + S count)) eqn:E.
  - cbn. split; [lia|done].
  - destruct (decide (i = S count)) as [->|Hne]; [congruence|]. destruct IH as [H1 H2]; [lia|]. split; [cbn in *; lia|done].
Qed.

Lemma MAX_PREVIEW_above : (4 <= N.to_nat MAX_OUTPUT_PREVIEW_CHUNK_BYTES)%nat.
Proof. apply (reflect_iff _ _ (Nat.leb_spec0 _ _)). by vm_compute. Qed.

(** A chunk makes progress and ends at a boundary. *)
Lemma next_chunk_spec data offset : (offset < length data)%nat ->
  (bytes_are_text data = true -> bytes_are_text (drop offset data) = true) ->
  let k := next_chunk data offset in
  (0 < k <= N.to_nat MAX_OUTPUT_PREVIEW_CHUNK_BYTES)%nat /\ (offset + k <= length data)%nat
  /\ (bytes_are_text data = true -> is_char_boundary (drop offset data) k = true).
Proof.
  intros Ho Ht. unfold next_chunk. pose proof MAX_PREVIEW_above as Hmax. revert Hmax.
  generalize (N.to_nat MAX_OUTPUT_PREVIEW_CHUNK_BYTES) as m. intros m Hmax.
  destruct (bytes_are_text data); [|cbn; split_and!; [lia..|done]].
  destruct (boundary_near (drop offset data) (Nat.min m (length data - offset))) as (i & Hi & Hb);
    [by apply Ht|rewrite length_drop; lia..|].
  rewrite <-boundary_drop in Hb by lia. destruct (back_finds data offset _ i Hi Hb) as [H1 H2].
  cbn zeta in *. split_and!; [lia..|]. intros _. by rewrite <-boundary_drop by lia.
Qed.

(** What the chunks from an offset on are. *)
Definition split_of (data : bytes) (offset : nat) (chunks : list (N * bytes)) : Prop :=
  concat (snd <$> chunks) = drop offset data
  /\ forall i o payload, chunks !! i = Some (o, payload) ->
     o = N.of_nat offset + N.of_nat (length (concat (snd <$> take i chunks)))
     /\ payload <> [] /\ N.of_nat (length payload) <= MAX_OUTPUT_PREVIEW_CHUNK_BYTES
     /\ (bytes_are_text data = true -> bytes_are_text payload = true).

Lemma preview_chunks_split fuel data offset :
  (length data - offset <= fuel)%nat -> (offset <= length data)%nat ->
  (bytes_are_text data = true -> bytes_are_text (drop offset data) = true) ->
  split_of data offset (preview_chunks fuel data offset).
Proof.
  revert offset. induction fuel as [|fuel IH]; intros offset Hf Ho Ht; cbn [preview_chunks].
  { split; [by rewrite drop_ge by lia|]. by intros ? ? ?. }
  destruct (Nat.leb_spec (length data) offset) as [Hle|Hlt].
  { split; [by rewrite drop_ge by lia|]. by intros ? ? ?. }
  destruct (next_chunk_spec data offset Hlt Ht) as (Hk & Hend & Hcut). cbn zeta in *. set (k := next_chunk data offset) in *.
  destruct (IH (offset + k)%nat) as [E Hi]; [lia|lia| |].
  { intros Htext. rewrite <-drop_drop. by apply text_cut; [apply Ht|apply Hcut]. }
  split.
  - cbn. rewrite E, <-drop_drop. apply take_drop.
  - intros [|i] o payload; cbn.
    + intros [= <- <-]. split; [lia|]. assert (length (take k (drop offset data)) = k) as El by (rewrite length_take, length_drop; lia).
      split; [intros E0; rewrite E0 in El; cbn in El; lia|]. split; [rewrite El; lia|].
      intros Htext. by apply text_cut; [apply Ht|apply Hcut].
    + intros H. destruct (Hi _ _ _ H) as (-> & H2 & H3 & H4). split; [|done].
      rewrite length_app, length_take, length_drop. lia.
Qed.

(** A chunk of live output is sent as previews that are exactly its
    bytes, in order and at their offsets, none empty and none larger than
    the wire allows, and when it is text no preview ends inside a
    character; the splitting always ends. *)
Theorem previews_split_output (data : bytes) : split_of data 0 (bounded_preview_chunks data).
Proof. apply preview_chunks_split; [lia|lia|by rewrite drop_0]. Qed.
