(* ===== verification/Devices.v ===== *)
(** * Accelerators of a worker

    [src/crates/alloyport-worker/src/device.rs]: the policy that selects a
    device, the validation of a discovery, and the three ways a worker is
    bound to a device.  The texts of errors are dropped.  A [BTreeMap] or
    [BTreeSet] is a finite map or set, visited in the order of its keys
    where the code iterates over it. *)

From stdpp Require Import base strings gmap sorting list.
From S2P Require Import Prelude Text Vocabulary.

Local Open Scope N_scope.

(** ** Data *)

(** [enum DeviceStatusError]. *)
Inductive DeviceStatusError :=
| DeviceInvalidConfiguration | DeviceUnavailable | DeviceInvalidResponse | DeviceRecoveryUnsupported
| DeviceInternal.

#[export] Instance DeviceStatusError_eq_dec : EqDecision DeviceStatusError.
Proof. solve_decision. Defined.
#[export] Instance AcceleratorDevice_eq_dec : EqDecision AcceleratorDevice.
Proof. solve_decision. Defined.

(** [struct DeviceSelectionPolicy]. *)
Record DeviceSelectionPolicy := MkSelection {
  allowed_device_ids : gset string;
  preferred_device_id : option string;
}.

Definition selection_default : DeviceSelectionPolicy := MkSelection ∅ None.

(** [struct SelectedDevice]. *)
Record SelectedDevice := MkSelected {
  sd_identity : AcceleratorDevice;
  sd_observation : DeviceObservation;
}.

(** [type ValidatedDiscovery]. *)
Definition ValidatedDiscovery : Type := gmap string AcceleratorDevice * gmap string DeviceObservation.

(** ** The policy *)

(** The loop of [DeviceSelectionPolicy::new] over the allowlist. *)
Fixpoint insert_allowed (ids : list string) (allowed : gset string) : result DeviceStatusError (gset string) :=
  match ids with
  | [] => Ok allowed
  | device_id :: ids =>
      _ ← guard_err (trim_is_empty device_id || bool_decide (device_id ∈ allowed)) DeviceInvalidConfiguration;
      insert_allowed ids ({[device_id]} ∪ allowed)
  end.

(** [DeviceSelectionPolicy::new]. *)
Definition selection_new (ids : list string) (preferred : option string) :
    result DeviceStatusError DeviceSelectionPolicy :=
  allowed ← insert_allowed ids ∅;
  _ ← guard_err (match preferred with Some id => trim_is_empty id | None => false end) DeviceInvalidConfiguration;
  _ ← guard_err (match preferred with
                 | Some id => negb (bool_decide (allowed = ∅)) && negb (bool_decide (id ∈ allowed))
                 | None => false
                 end) DeviceInvalidConfiguration;
  Ok (MkSelection allowed preferred).

(** ** Discovery *)

(** The two loops of [validated_discovery]. *)
Fixpoint insert_identities (inventory : list AcceleratorDevice) (identities : gmap string AcceleratorDevice) :
    result DeviceStatusError (gmap string AcceleratorDevice) :=
  match inventory with
  | [] => Ok identities
  | device :: inventory =>
      let id := acc_device_id device in
      _ ← guard_err (trim_is_empty id || bool_decide (is_Some (identities !! id))) DeviceInvalidResponse;
      insert_identities inventory (<[id := device]> identities)
  end.

Fixpoint insert_observations (identities : gmap string AcceleratorDevice) (devices : list DeviceObservation)
    (observations : gmap string DeviceObservation) : result DeviceStatusError (gmap string DeviceObservation) :=
  match devices with
  | [] => Ok observations
  | observation :: devices =>
      let id := obs_device_id observation in
      _ ← guard_err (bool_decide (is_Some (observations !! id)) || negb (bool_decide (is_Some (identities !! id))))
            DeviceInvalidResponse;
      insert_observations identities devices (<[id := observation]> observations)
  end.

(** [validated_discovery]. *)
Definition validated_discovery (inventory : list AcceleratorDevice) (snapshot : list DeviceObservation) :
    result DeviceStatusError ValidatedDiscovery :=
  identities ← insert_identities inventory ∅;
  observations ← insert_observations identities snapshot ∅;
  Ok (identities, observations).

(** ** Selection *)

(** [leases.iter().map(|lease| lease.device_id)] collected in a set. *)
Definition leased_ids (leases : list DeviceLease) : gset string := list_to_set (lease_device_id <$> leases).

Definition allowed (policy : DeviceSelectionPolicy) (id : string) : bool :=
  bool_decide (allowed_device_ids policy = ∅) || bool_decide (id ∈ allowed_device_ids policy).

(** The key of [sort_by_key]: the preferred device first, then by identity. *)
Definition candidate_compare (policy : DeviceSelectionPolicy) (a b : AcceleratorDevice) : comparison :=
  let other d := negb (bool_decide (preferred_device_id policy = Some (acc_device_id d))) in
  then_compare (Bool.compare (other a) (other b)) (String.compare (acc_device_id a) (acc_device_id b)).

Definition candidates (policy : DeviceSelectionPolicy) (identities : gmap string AcceleratorDevice) :
    list AcceleratorDevice :=
  sort_by (candidate_compare policy)
    (filter (fun d => allowed policy (acc_device_id d) = true) (map_to_list identities).*2).

(** The condition of the loop. *)
Definition selectable (leased : gset string) (observation : DeviceObservation) (id : string) : bool :=
  bool_decide (obs_health observation = DeviceReady) && (obs_process_count observation =? 0)
  && negb (bool_decide (id ∈ leased)).

Fixpoint first_ready (leased : gset string) (observations : gmap string DeviceObservation)
    (devices : list AcceleratorDevice) : result DeviceStatusError SelectedDevice :=
  match devices with
  | [] => Err DeviceUnavailable
  | identity :: devices =>
      observation ← ok_or (observations !! acc_device_id identity) DeviceInvalidResponse;
      if selectable leased observation (acc_device_id identity)
      then Ok (MkSelected identity observation)
      else first_ready leased observations devices
  end.

(** [select_ready_device]. *)
Definition select_ready_device (inventory : list AcceleratorDevice) (snapshot : list DeviceObservation)
    (leases : list DeviceLease) (policy : DeviceSelectionPolicy) : result DeviceStatusError SelectedDevice :=
  discovery ← validated_discovery inventory snapshot;
  first_ready (leased_ids leases) discovery.2 (candidates policy discovery.1).

(** [bind_worker_device]. *)
Definition bind_worker_device (inventory : list AcceleratorDevice) (snapshot : list DeviceObservation)
    (leases : list DeviceLease) (policy : DeviceSelectionPolicy) : result DeviceStatusError SelectedDevice :=
  if bool_decide (leases = []) then select_ready_device inventory snapshot leases policy else
  _ ← guard_err (negb (size (leased_ids leases) =? 1)%nat) DeviceInvalidResponse;
  leased_id ← ok_or (head (elements (leased_ids leases))) DeviceInternal;
  _ ← guard_err (negb (allowed policy leased_id)) DeviceInvalidConfiguration;
  discovery ← validated_discovery inventory snapshot;
  identity ← ok_or (discovery.1 !! leased_id) DeviceInvalidResponse;
  observation ← ok_or (discovery.2 !! leased_id) DeviceInvalidResponse;
  Ok (MkSelected identity observation).

(** [bind_configured_device]. *)
Definition bind_configured_device (inventory : list AcceleratorDevice) (snapshot : list DeviceObservation)
    (leases : list DeviceLease) (configured : AcceleratorDevice) : result DeviceStatusError SelectedDevice :=
  let id := acc_device_id configured in
  _ ← guard_err (existsb (fun l => negb (bool_decide (lease_device_id l = id))) leases) DeviceInvalidConfiguration;
  discovery ← validated_discovery inventory snapshot;
  identity ← ok_or (discovery.1 !! id) DeviceInvalidResponse;
  _ ← guard_err (negb (bool_decide (identity = configured))) DeviceInvalidResponse;
  observation ← ok_or (discovery.2 !! id) DeviceInvalidResponse;
  Ok (MkSelected identity observation).

(** ** What a discovery means

    The order and the shape of the maps are gone: a discovery is valid when
    its identities are named and distinct, and its observations distinct
    and about them. *)

Definition discovery_ok (inventory : list AcceleratorDevice) (snapshot : list DeviceObservation) : Prop :=
  NoDup (acc_device_id <$> inventory)
  /\ Forall (fun d => trim_is_empty (acc_device_id d) = false) inventory
  /\ NoDup (obs_device_id <$> snapshot)
  /\ (forall o, o ∈ snapshot -> exists d, d ∈ inventory /\ acc_device_id d = obs_device_id o).

(** A device that may be given to an attempt, with its observation. *)
Definition eligible (snapshot : list DeviceObservation) (leases : list DeviceLease) (policy : DeviceSelectionPolicy)
    (d : AcceleratorDevice) (o : DeviceObservation) : Prop :=
  allowed policy (acc_device_id d) = true
  /\ o ∈ snapshot /\ obs_device_id o = acc_device_id d
  /\ obs_health o = DeviceReady /\ obs_process_count o = 0
  /\ Forall (fun l => lease_device_id l <> acc_device_id d) leases.

(** ** Lemmas *)

(** The values of a list under their keys. *)
Definition keyed {A} (key : A -> string) (l : list A) : gmap string A :=
  list_to_map ((fun x => (key x, x)) <$> l).

Lemma keyed_keys {A} (key : A -> string) l : ((fun x => (key x, x)) <$> l).*1 = key <$> l.
Proof. by rewrite <-list_fmap_compose. Qed.

Lemma keyed_lookup {A} (key : A -> string) l k x :
  NoDup (key <$> l) -> keyed key l !! k = Some x <-> x ∈ l /\ key x = k.
Proof.
  intros Hl. unfold keyed. rewrite <-elem_of_list_to_map by by rewrite keyed_keys.
  rewrite list_elem_of_fmap. naive_solver.
Qed.

Lemma keyed_cons_union {A} (key : A -> string) l x (m : gmap string A) :
  key x ∉ (key <$> l) -> keyed key l ∪ <[key x:=x]> m = keyed key (x :: l) ∪ m.
Proof.
  intros H. unfold keyed. cbn. rewrite <-insert_union_r.
  - by rewrite insert_union_l.
  - apply not_elem_of_list_to_map. by rewrite keyed_keys.
Qed.

Lemma insert_fresh {A} (key : A -> string) l x (m : gmap string A) :
  Forall (fun y => (<[key x:=x]> m : gmap string A) !! key y = None) l
  <-> (key x ∉ (key <$> l)) /\ Forall (fun y => m !! key y = None) l.
Proof.
  rewrite !Forall_forall, list_elem_of_fmap. split.
  - intros H. split.
    + intros (y & E & Hy). specialize (H y Hy). rewrite E, lookup_insert_eq in H. done.
    + intros y Hy. specialize (H y Hy). by apply lookup_insert_None in H as [? _].
  - intros [Hx H] y Hy. apply lookup_insert_None. split; [by apply H|]. intros E. apply Hx. eauto.
Qed.

Lemma insert_identities_Ok inventory m m' :
  insert_identities inventory m = Ok m' <->
  NoDup (acc_device_id <$> inventory) /\ Forall (fun d => trim_is_empty (acc_device_id d) = false) inventory
  /\ Forall (fun d => m !! acc_device_id d = None) inventory /\ m' = keyed acc_device_id inventory ∪ m.
Proof.
  revert m. induction inventory as [|d inventory IH]; intros m; cbn [insert_identities fmap list_fmap].
  - unfold keyed. cbn. rewrite (left_id_L ∅ (∪)). split; [|naive_solver].
    intros [= <-]. repeat split; constructor.
  - rewrite guard_bind_Ok, orb_false_iff, bool_decide_eq_false, <-eq_None_not_Some, IH, NoDup_cons,
      !Forall_cons, insert_fresh.
    split; [intros ([? ?] & ? & ? & [? ?] & ->)|intros ([? ?] & [? ?] & [? ?] & ->)];
      rewrite keyed_cons_union by done; auto 10.
Qed.

Lemma insert_observations_Ok identities devices m m' :
  insert_observations identities devices m = Ok m' <->
  NoDup (obs_device_id <$> devices) /\ Forall (fun o => is_Some (identities !! obs_device_id o)) devices
  /\ Forall (fun o => m !! obs_device_id o = None) devices /\ m' = keyed obs_device_id devices ∪ m.
Proof.
  revert m. induction devices as [|o devices IH]; intros m; cbn [insert_observations fmap list_fmap].
  - unfold keyed. cbn. rewrite (left_id_L ∅ (∪)). split; [|naive_solver].
    intros [= <-]. repeat split; constructor.
  - rewrite guard_bind_Ok, orb_false_iff, negb_false_iff, bool_decide_eq_false, bool_decide_eq_true,
      <-eq_None_not_Some, IH, NoDup_cons, !Forall_cons, insert_fresh.
    split; [intros ([? ?] & ? & ? & [? ?] & ->)|intros ([? ?] & [? ?] & [? ?] & ->)];
      rewrite keyed_cons_union by done; auto 10.
Qed.

Lemma insert_identities_Err inventory m e : insert_identities inventory m = Err e -> e = DeviceInvalidResponse.
Proof.
  revert m. induction inventory as [|d inventory IH]; intros m; cbn [insert_identities]; [done|].
  rewrite guard_bind_Err. naive_solver.
Qed.

Lemma insert_observations_Err identities devices m e :
  insert_observations identities devices m = Err e -> e = DeviceInvalidResponse.
Proof.
  revert m. induction devices as [|d devices IH]; intros m; cbn [insert_observations]; [done|].
  rewrite guard_bind_Err. naive_solver.
Qed.

(** A discovery is validated exactly when it is consistent, and then its
    two maps are the lists under their identities. *)
Lemma validated_discovery_Ok inventory snapshot maps :
  validated_discovery inventory snapshot = Ok maps <->
  discovery_ok inventory snapshot /\ maps = (keyed acc_device_id inventory, keyed obs_device_id snapshot).
Proof.
  unfold validated_discovery, discovery_ok. rewrite result_bind_Ok. setoid_rewrite result_bind_Ok.
  setoid_rewrite insert_identities_Ok. setoid_rewrite insert_observations_Ok.
  setoid_rewrite (right_id_L ∅ (∪)).
  assert (forall {A} (key : A -> string) l, Forall (fun x => (∅ : gmap string A) !! key x = None) l) as Hempty
    by (intros A key l; apply Forall_forall; intros; apply lookup_empty).
  assert (NoDup (acc_device_id <$> inventory) ->
    Forall (fun o => is_Some (keyed acc_device_id inventory !! obs_device_id o)) snapshot <->
    forall o, o ∈ snapshot -> exists d, d ∈ inventory /\ acc_device_id d = obs_device_id o) as Hknown.
  { intros Hn. rewrite Forall_forall. unfold is_Some. by setoid_rewrite (keyed_lookup _ _ _ _ Hn). }
  split.
  - intros (ids & (? & ? & _ & ->) & obs & (? & ? & _ & ->) & [= <-]). naive_solver.
  - intros ((? & ? & ? & ?) & ->). eexists. split; [auto|]. eexists. split; [|done]. naive_solver.
Qed.

Lemma validated_discovery_Err inventory snapshot e :
  validated_discovery inventory snapshot = Err e -> e = DeviceInvalidResponse.
Proof.
  unfold validated_discovery. rewrite result_bind_Err. intros [?|(ids & _ & H)]; [by eapply insert_identities_Err|].
  apply result_bind_Err in H as [?|(obs & _ & H)]; [by eapply insert_observations_Err|done].
Qed.

(** ** The order of the candidates *)

Section order.
Context (policy : DeviceSelectionPolicy).
Abbreviation before := (not_after (candidate_compare policy)).

Definition rank (d : AcceleratorDevice) : bool :=
  negb (bool_decide (preferred_device_id policy = Some (acc_device_id d))).

Lemma before_spec a b :
  before a b <-> rank a = false /\ rank b = true \/ rank a = rank b /\ String.le (acc_device_id a) (acc_device_id b).
Proof.
  unfold not_after, candidate_compare. fold (rank a) (rank b). rewrite <-string_compare_le.
  destruct (rank a), (rank b); cbn; naive_solver.
Qed.

#[export] Instance before_total : Total before.
Proof.
  intros a b. rewrite !before_spec. destruct (rank a), (rank b); auto;
    destruct (total String.le (acc_device_id a) (acc_device_id b)); auto.
Qed.

#[export] Instance before_trans : Transitive before.
Proof.
  intros a b c. rewrite !before_spec. intros [[Ha Hb]|[Ea Ha]] [[Hb' Hc]|[Eb Hb']]; try congruence; auto.
  - left. split; congruence.
  - left. split; congruence.
  - right. split; [congruence|]. by etrans.
Qed.

(** Of two devices with different identities, one comes strictly first. *)
Lemma compare_Lt a b :
  acc_device_id a <> acc_device_id b -> candidate_compare policy a b = Lt <-> before a b.
Proof.
  intros Hn. unfold not_after, candidate_compare. fold (rank a) (rank b).
  assert (String.compare (acc_device_id a) (acc_device_id b) <> Eq) by by rewrite string_compare_Eq.
  destruct (rank a), (rank b), (String.compare (acc_device_id a) (acc_device_id b)); cbn; naive_solver.
Qed.

Lemma before_antisym a b : before a b -> before b a -> acc_device_id a = acc_device_id b.
Proof.
  rewrite !before_spec. intros [[Ha Hb]|[Ea Ha]] [[Hb' Hc]|[Eb Hb']]; try congruence.
  by apply (anti_symm String.le).
Qed.

End order.

Lemma NoDup_fmap_filter {A B} (f : A -> B) (P : A -> Prop) `{!forall x, Decision (P x)} l :
  NoDup (f <$> l) -> NoDup (f <$> filter P l).
Proof.
  induction l as [|x l IH]; [done|]. rewrite fmap_cons, NoDup_cons, filter_cons. intros [Hx Hl].
  case_decide; [|auto]. rewrite fmap_cons, NoDup_cons. split; [|auto].
  intros (y & E & [_ Hy]%list_elem_of_filter)%list_elem_of_fmap. apply Hx. rewrite E. by apply list_elem_of_fmap_2.
Qed.

Lemma elem_of_candidates policy inventory d :
  NoDup (acc_device_id <$> inventory) ->
  d ∈ candidates policy (keyed acc_device_id inventory) <-> d ∈ inventory /\ allowed policy (acc_device_id d) = true.
Proof.
  intros Hn. unfold candidates. rewrite elem_of_sort_by, list_elem_of_filter, list_elem_of_fmap.
  split.
  - intros (Ha & [k x] & -> & Hx%elem_of_map_to_list%keyed_lookup); naive_solver.
  - intros (Hd & Ha). split; [done|]. exists (acc_device_id d, d). split; [done|].
    by apply elem_of_map_to_list, keyed_lookup.
Qed.

Lemma candidates_sorted policy identities :
  StronglySorted (not_after (candidate_compare policy)) (candidates policy identities).
Proof. apply StronglySorted_merge_sort; apply _. Qed.

(** The search takes the first selectable device, provided the ones before
    it were observed. *)
Lemma first_ready_Ok leased observations devices sd :
  first_ready leased observations devices = Ok sd <->
  exists before after, devices = before ++ sd_identity sd :: after
    /\ observations !! acc_device_id (sd_identity sd) = Some (sd_observation sd)
    /\ selectable leased (sd_observation sd) (acc_device_id (sd_identity sd)) = true
    /\ Forall (fun d => exists o, observations !! acc_device_id d = Some o
                                  /\ selectable leased o (acc_device_id d) = false) before.
Proof.
  induction devices as [|d devices IH]; cbn [first_ready].
  - split; [done|]. by intros ([|? ?] & ? & ? & _).
  - destruct (observations !! acc_device_id d) as [o|] eqn:Ho; cbn.
    + destruct (selectable leased o (acc_device_id d)) eqn:Hs.
      * split.
        -- intros [= <-]. exists [], devices. cbn. auto.
        -- intros ([|x l] & after & [= -> Hd] & E & Hsel & Hall).
           ++ destruct sd; cbn in *. congruence.
           ++ apply Forall_cons in Hall as [(o' & Eo & Hf) _]. congruence.
      * rewrite IH. split.
        -- intros (l & after & -> & E & Hsel & Hall). exists (d :: l), after.
           split; [done|]. split; [done|]. split; [done|]. apply Forall_cons. eauto.
        -- intros ([|x l] & after & [= -> Hd] & E & Hsel & Hall); [congruence|].
           apply Forall_cons in Hall as [_ Hall]. eauto 10.
    + split; [done|]. intros ([|x l] & after & [= -> Hd] & E & Hsel & Hall); [congruence|].
      apply Forall_cons in Hall as [(o' & Eo & Hf) _]. congruence.
Qed.

Lemma first_ready_Unavailable leased observations devices :
  first_ready leased observations devices = Err DeviceUnavailable <->
  Forall (fun d => exists o, observations !! acc_device_id d = Some o
                             /\ selectable leased o (acc_device_id d) = false) devices.
Proof.
  induction devices as [|d devices IH]; cbn [first_ready]; [split; [constructor|done]|].
  rewrite Forall_cons. destruct (observations !! acc_device_id d) as [o|]; cbn.
  - destruct (selectable leased o (acc_device_id d)) eqn:Hs.
    + split; [done|]. intros [(o' & [= <-] & ?) _]. congruence.
    + rewrite IH. naive_solver.
  - split; [done|]. naive_solver.
Qed.

Lemma selectable_spec leases o id :
  selectable (leased_ids leases) o id = true <->
  obs_health o = DeviceReady /\ obs_process_count o = 0 /\ Forall (fun l => lease_device_id l <> id) leases.
Proof.
  unfold selectable, leased_ids. rewrite !andb_true_iff, negb_true_iff, bool_decide_eq_true, bool_decide_eq_false,
    N.eqb_eq, elem_of_list_to_set, list_elem_of_fmap, Forall_forall. naive_solver.
Qed.

(** ** What the selection promises *)

Lemma discovered_lookup {A} (key : A -> string) l d :
  NoDup (key <$> l) -> d ∈ l -> keyed key l !! key d = Some d.
Proof. intros Hn Hd. by apply keyed_lookup. Qed.

(** What the loop sees of a device is what the snapshot says. *)
Lemma observed_spec snapshot id o :
  NoDup (obs_device_id <$> snapshot) ->
  keyed obs_device_id snapshot !! id = Some o <-> o ∈ snapshot /\ obs_device_id o = id.
Proof. apply keyed_lookup. Qed.

Definition refused (snapshot : list DeviceObservation) (leases : list DeviceLease)
    (policy : DeviceSelectionPolicy) (d : AcceleratorDevice) : Prop :=
  exists o, o ∈ snapshot /\ obs_device_id o = acc_device_id d /\ ~ eligible snapshot leases policy d o.

Lemma refused_spec snapshot leases policy d :
  NoDup (obs_device_id <$> snapshot) -> allowed policy (acc_device_id d) = true ->
  (exists o, keyed obs_device_id snapshot !! acc_device_id d = Some o
             /\ selectable (leased_ids leases) o (acc_device_id d) = false)
  <-> refused snapshot leases policy d.
Proof.
  intros Hn Ha. unfold refused, eligible. setoid_rewrite (observed_spec _ _ _ Hn).
  setoid_rewrite <-not_true_iff_false. setoid_rewrite selectable_spec. naive_solver.
Qed.

(** Among distinct devices of a sorted list, those in front of one are the
    ones that come strictly before it. *)
Lemma in_front policy inventory l d l' x :
  NoDup (acc_device_id <$> inventory) ->
  candidates policy (keyed acc_device_id inventory) = l ++ d :: l' ->
  x ∈ l <-> x ∈ inventory /\ allowed policy (acc_device_id x) = true /\ candidate_compare policy x d = Lt.
Proof.
  intros Hn E. pose proof (candidates_sorted policy (keyed acc_device_id inventory)) as Hs.
  pose proof (fun y => elem_of_candidates policy inventory y Hn) as Hin.
  assert (NoDup (acc_device_id <$> (l ++ d :: l'))) as Hl.
  { rewrite <-E. unfold candidates. rewrite (sort_by_perm _ _).
    apply NoDup_fmap_filter. rewrite <-list_fmap_compose.
    assert ((acc_device_id ∘ snd) <$> map_to_list (keyed acc_device_id inventory)
            = (map_to_list (keyed acc_device_id inventory)).*1) as ->.
    { apply list_fmap_ext. intros i [k y] Hy. apply list_elem_of_lookup_2, elem_of_map_to_list, keyed_lookup in Hy; [|done].
      cbn. naive_solver. }
    apply NoDup_fst_map_to_list. }
  rewrite E in Hs, Hin. rewrite fmap_app, fmap_cons in Hl.
  apply NoDup_app in Hl as (_ & Hdis & [Hd Hl']%NoDup_cons).
  apply StronglySorted_app in Hs as (Hbefore & _ & Hafter).
  assert (x ∈ l -> acc_device_id x <> acc_device_id d) as Hne.
  { intros Hx Ex. apply (Hdis (acc_device_id x)); [by apply list_elem_of_fmap_2|]. rewrite Ex. left. }
  split.
  - intros Hx. assert (x ∈ inventory /\ allowed policy (acc_device_id x) = true) as [? ?].
    { apply Hin. apply elem_of_app. by left. }
    split; [done|]. split; [done|]. apply compare_Lt; [by apply Hne|]. apply Hbefore; [done|]. left.
  - intros (Hx & Ha & Hlt). assert (x ∈ l ++ d :: l') as Hxl by by apply Hin.
    apply elem_of_app in Hxl as [|Hxl]; [done|]. exfalso.
    apply elem_of_cons in Hxl as [->|Hxl].
    + revert Hlt. unfold candidate_compare. rewrite (proj2 (string_compare_Eq _ _) eq_refl).
      by destruct (negb _).
    + apply StronglySorted_inv in Hafter as [_ Hall]. rewrite Forall_forall in Hall.
      specialize (Hall x Hxl). assert (acc_device_id x <> acc_device_id d) as Hxd.
      { intros Ex. apply Hd. rewrite <-Ex. by apply list_elem_of_fmap_2. }
      apply (compare_Lt policy x d) in Hlt; [|done]. apply Hxd. by apply (before_antisym policy).
Qed.

(** C25 The selection gives out exactly the first eligible device: the
    discovery is consistent, the device is allowed, observed ready, without
    processes and not leased, and every allowed device that comes strictly
    before it (the preferred one first, then by identity) was observed and
    is not eligible.  It reports that no device is available exactly when
    every allowed device was observed and none is eligible. *)
Theorem selection_exact (inventory : list AcceleratorDevice) (snapshot : list DeviceObservation)
    (leases : list DeviceLease) (policy : DeviceSelectionPolicy) :
  (forall sd, select_ready_device inventory snapshot leases policy = Ok sd <->
     discovery_ok inventory snapshot
     /\ sd_identity sd ∈ inventory /\ eligible snapshot leases policy (sd_identity sd) (sd_observation sd)
     /\ forall d, d ∈ inventory -> allowed policy (acc_device_id d) = true ->
          candidate_compare policy d (sd_identity sd) = Lt -> refused snapshot leases policy d)
  /\ (select_ready_device inventory snapshot leases policy = Err DeviceUnavailable <->
       discovery_ok inventory snapshot
       /\ forall d, d ∈ inventory -> allowed policy (acc_device_id d) = true -> refused snapshot leases policy d).
Proof.
  unfold select_ready_device. split.
  - intros sd. rewrite result_bind_Ok. setoid_rewrite validated_discovery_Ok.
    split.
    + intros (maps & [Hok ->] & Hf). pose proof Hok as (Hn & _ & Hs & _). cbn in Hf.
      apply first_ready_Ok in Hf as (l & l' & E & Ho & Hsel & Hall).
      apply (observed_spec _ _ _ Hs) in Ho as [Ho Hid]. apply selectable_spec in Hsel as (? & ? & ?).
      assert (sd_identity sd ∈ inventory /\ allowed policy (acc_device_id (sd_identity sd)) = true) as [? ?].
      { apply elem_of_candidates; [done|]. rewrite E. apply elem_of_app. right. left. }
      split; [done|]. split; [done|]. split; [by unfold eligible|].
      intros d Hd Ha Hlt. apply refused_spec; [done..|]. rewrite Forall_forall in Hall. apply Hall.
      by apply (in_front policy inventory l (sd_identity sd) l').
    + intros (Hok & Hd & (Ha & Ho & Hid & Hh & Hp & Hl) & Hall). pose proof Hok as (Hn & _ & Hs & _).
      eexists. split; [split; [exact Hok|reflexivity]|]. cbn. apply first_ready_Ok.
      assert (sd_identity sd ∈ candidates policy (keyed acc_device_id inventory)) as Hc
        by by apply elem_of_candidates.
      apply list_elem_of_split in Hc as (l & l' & E). exists l, l'. split; [done|].
      split; [by apply observed_spec|]. split; [by apply selectable_spec|].
      apply Forall_forall. intros d Hdl. apply (in_front policy inventory l (sd_identity sd) l') in Hdl as (? & ? & ?); [|done..].
      apply (refused_spec _ leases policy); auto.
  - rewrite result_bind_Err. split.
    + intros [H|(maps & [Hok ->]%validated_discovery_Ok & Hf)]; [by apply validated_discovery_Err in H|].
      pose proof Hok as (Hn & _ & Hs & _). split; [done|]. cbn in Hf. rewrite first_ready_Unavailable, Forall_forall in Hf.
      intros d Hd Ha. apply refused_spec; [done..|]. apply Hf. by apply elem_of_candidates.
    + intros (Hok & Hall). pose proof Hok as (Hn & _ & Hs & _). right. eexists.
      split; [apply validated_discovery_Ok; split; [exact Hok|reflexivity]|]. cbn.
      apply first_ready_Unavailable, Forall_forall. intros d [Hd Ha]%elem_of_candidates; [|done].
      apply (refused_spec _ leases policy); auto.
Qed.

(** A worker with a retained lease is bound to the device of the lease,
    whatever its state; with none it selects. *)
Lemma bind_worker_device_Ok inventory snapshot leases policy sd :
  leases <> [] -> bind_worker_device inventory snapshot leases policy = Ok sd ->
  Forall (fun l => lease_device_id l = acc_device_id (sd_identity sd)) leases
  /\ allowed policy (acc_device_id (sd_identity sd)) = true
  /\ sd_identity sd ∈ inventory /\ sd_observation sd ∈ snapshot
  /\ obs_device_id (sd_observation sd) = acc_device_id (sd_identity sd).
Proof.
  intros Hl. unfold bind_worker_device. rewrite bool_decide_false by done.
  rewrite guard_bind_Ok, negb_false_iff, Nat.eqb_eq. intros (Hsize & H).
  apply result_bind_Ok in H as (leased_id & Hhead%ok_or_Ok & H). rewrite guard_bind_Ok, negb_false_iff in H.
  destruct H as [Ha H]. apply result_bind_Ok in H as (maps & [Hok ->]%validated_discovery_Ok & H).
  pose proof Hok as (Hn & _ & Hs & _).
  apply result_bind_Ok in H as (identity & Hi%ok_or_Ok & H). apply (keyed_lookup _ _ _ _ Hn) in Hi as [Hi Hid].
  apply result_bind_Ok in H as (observation & Ho%ok_or_Ok & [= <-]). apply (keyed_lookup _ _ _ _ Hs) in Ho as [Ho Hoid]. cbn.
  split_and!; [|congruence|done|done|congruence].
  apply Forall_forall. intros l Hin. rewrite Hid.
  apply size_1_elem_of in Hsize as [x Hx%leibniz_equiv].
  assert (leased_id ∈ leased_ids leases) as H1.
  { apply elem_of_elements. destruct (elements (leased_ids leases)); [done|]. injection Hhead as ->. left. }
  assert (lease_device_id l ∈ leased_ids leases) as H2.
  { unfold leased_ids. apply elem_of_list_to_set, list_elem_of_fmap. eauto. }
  rewrite Hx in H1, H2. apply elem_of_singleton in H1, H2. congruence.
Qed.

Lemma bind_configured_device_Ok inventory snapshot leases configured sd :
  bind_configured_device inventory snapshot leases configured = Ok sd ->
  sd_identity sd = configured /\ configured ∈ inventory /\ sd_observation sd ∈ snapshot
  /\ obs_device_id (sd_observation sd) = acc_device_id configured
  /\ Forall (fun l => lease_device_id l = acc_device_id configured) leases.
Proof.
  unfold bind_configured_device. rewrite guard_bind_Ok. intros [Hl H].
  apply result_bind_Ok in H as (maps & [Hok ->]%validated_discovery_Ok & H).
  pose proof Hok as (Hn & _ & Hs & _).
  apply result_bind_Ok in H as (identity & Hi%ok_or_Ok & H). apply (keyed_lookup _ _ _ _ Hn) in Hi as [Hi Hid].
  rewrite guard_bind_Ok, negb_false_iff, bool_decide_eq_true in H. destruct H as [-> H].
  apply result_bind_Ok in H as (observation & Ho%ok_or_Ok & [= <-]). apply (keyed_lookup _ _ _ _ Hs) in Ho as [Ho Hoid]. cbn.
  split_and!; try done. apply Forall_forall. intros l Hin.
  destruct (decide (lease_device_id l = acc_device_id configured)) as [|Hne]; [done|].
  apply not_true_iff_false in Hl. destruct Hl. apply existsb_exists. exists l.
  split; [by apply list_elem_of_In|]. apply negb_true_iff. by apply bool_decide_eq_false.
Qed.

(** ** The device of the heartbeats *)

(** [BoundDeviceStatusProvider::new]. *)
Definition bound_provider_new (device_id : string) : result DeviceStatusError string :=
  _ ← guard_err (trim_is_empty device_id) DeviceInvalidConfiguration; Ok device_id.

(** Its [snapshot], given what the manager observes. *)
Definition bound_snapshot (device_id : string) (observed : result DeviceStatusError DeviceObservation) :
    result DeviceStatusError (list DeviceObservation) :=
  observation ← observed;
  _ ← guard_err (negb (bool_decide (obs_device_id observation = device_id))) DeviceInvalidResponse;
  Ok [observation].
