(* ===== verification/Containers.v ===== *)
(** * Containers of a worker

    Of [src/crates/alloyport-worker/src]: the values of
    [container_engine.rs], the classes of failures of [backend_error.rs]
    and the outcome of an execution in [container_outcome.rs].  The texts
    of errors are dropped.  Whether some bytes are a receipt is decided by
    [serde_json], a parameter. *)

From stdpp Require Import base strings list.
From S2P Require Import Prelude Text Digest Vocabulary Artifacts WorkerJournal.

Local Open Scope N_scope.

(** ** Failures *)

(** [enum BackendFailureClass]; a [BackendError] without its text. *)
Inductive BackendError := Retryable | Terminal | Policy | Integrity.

(** [enum ContainerEngineError]. *)
Inductive ContainerEngineError :=
| EngineInvalidConfiguration | EngineUnavailable | EngineCommandFailed | EngineInvalidResponse | EngineInternal.

(** [From<ContainerEngineError> for BackendError]. *)
Definition engine_backend_error (error : ContainerEngineError) : BackendError :=
  match error with
  | EngineInvalidConfiguration => Policy
  | EngineUnavailable => Retryable
  | EngineCommandFailed | EngineInternal => Terminal
  | EngineInvalidResponse => Integrity
  end.

(** ** Data *)

(** [struct ContainerIdentity]. *)
Record ContainerIdentity := MkContainerIdentity {
  ci_name : string;
  ci_attempt_id : string;
  ci_bundle_digest : string;
  ci_image_manifest_digest : string;
  ci_image_id : string;
}.

(** [enum ContainerPhase] and [struct ContainerSnapshot]. *)
Inductive ContainerPhase := ContainerCreated | ContainerRunning | ContainerExited.

Record ContainerSnapshot := MkContainerSnapshot {
  cs_identity : ContainerIdentity;
  cs_phase : ContainerPhase;
}.

(** [struct ContainerExit]. *)
Record ContainerExit := MkExit { ce_exit_code : Z; ce_elapsed_ms : N }.

(** [struct ContainerLogs]. *)
Record ContainerLogs := MkLogs {
  cl_stdout : bytes;
  cl_stderr : bytes;
  cl_output_limit_exceeded : bool;
}.

#[export] Instance ContainerIdentity_eq_dec : EqDecision ContainerIdentity.
Proof. solve_decision. Defined.
#[export] Instance ContainerPhase_eq_dec : EqDecision ContainerPhase.
Proof. solve_decision. Defined.

(** ** Images *)

Definition OCI_IMAGE_MANIFEST_MEDIA_TYPE : string := "application/vnd.oci.image.manifest.v1+json".
Definition OCI_IMAGE_CONFIG_MEDIA_TYPE : string := "application/vnd.oci.image.config.v1+json".

(** [str::chars().any(char::is_whitespace)]. *)
Fixpoint has_whitespace (s : string) : bool :=
  match s with
  | EmptyString => false
  | String a s1 =>
      white1 a
      || match s1 with
         | EmptyString => false
         | String b s2 => white2 a b || match s2 with EmptyString => false | String c _ => white3 a b c end
         end
      || has_whitespace s1
  end.

(** [image_artifact_media_type]. *)
Definition image_artifact_media_type (image_reference : string) (assignment_digest image_id : Sha256Digest) :
    result unit string :=
  _ ← guard_err (trim_is_empty image_reference || has_whitespace image_reference || contains "," image_reference) tt;
  if ends_with ("@" +:+ digest_display assignment_digest) image_reference then Ok OCI_IMAGE_MANIFEST_MEDIA_TYPE
  else if bool_decide (assignment_digest = image_id) then Ok OCI_IMAGE_CONFIG_MEDIA_TYPE
  else Err tt.

(** ** Outcomes *)

(** [enum ContainerTermination]. *)
Inductive ContainerTermination :=
| TerminationExited (exit : ContainerExit)
| TerminationCancelled (exit : ContainerExit)
| TerminationTimedOut (exit : ContainerExit)
| TerminationOutputLimitExceeded (exit : ContainerExit).

(** [struct ExecutorResult]. *)
Record ExecutorResult := MkExecutorResult {
  er_outcome : AttemptOutcome;
  er_exit_code : option Z;
  er_elapsed_ms : N;
  er_stdout : bytes;
  er_stderr : bytes;
  er_detail : string;
}.

(** [struct FixtureOutcomePolicy] and [struct CorrectnessOutcomePolicy]. *)
Record FixtureOutcomePolicy := MkFixturePolicy {
  fo_fixture_id : string;
  fo_exited_detail : string;
  fo_nonzero_detail : string;
  fo_missing_marker_detail : string;
}.

Record CorrectnessOutcomePolicy := MkCorrectnessPolicy {
  co_exited : string;
  co_nonzero : string;
  co_invalid_receipt : string;
}.

(** [enforce_output_limit]. *)
Definition enforce_output_limit (logs : ContainerLogs) (limit : N) : ContainerLogs :=
  let stdout_len := byte_len (cl_stdout logs) in
  let stderr_len := byte_len (cl_stderr logs) in
  if saturating_add u64_max stdout_len stderr_len <=? limit then logs else
  let stdout := take (N.to_nat (N.min limit stdout_len)) (cl_stdout logs) in
  let remaining := saturating_sub limit (byte_len stdout) in
  MkLogs stdout (take (N.to_nat remaining) (cl_stderr logs)) true.

(** The exit of a termination, the outcome it forces and its detail. *)
Definition termination_parts (termination : ContainerTermination) (exited_detail : string) :
    ContainerExit * option AttemptOutcome * string :=
  match termination with
  | TerminationExited exit => (exit, None, exited_detail)
  | TerminationCancelled exit => (exit, Some OutcomeCancelled, "execution cancelled")
  | TerminationTimedOut exit => (exit, Some OutcomeTimedOut, "execution timed out")
  | TerminationOutputLimitExceeded exit => (exit, Some OutcomeInfraError, "execution output limit exceeded")
  end.

(** [classify_verified_outcome]. *)
Definition classify_verified_outcome (termination : ContainerTermination) (logs : ContainerLogs) (timeout_ms : N)
    (exited_detail nonzero_detail missing_evidence_detail : string) (has_success_evidence : bytes -> bool) :
    ExecutorResult :=
  let '(exit, forced_outcome, detail) := termination_parts termination exited_detail in
  let '(outcome, exit_code, elapsed_ms, detail) :=
    if cl_output_limit_exceeded logs then
      (OutcomeInfraError, None, ce_elapsed_ms exit, "execution output limit exceeded")
    else match forced_outcome with
    | Some outcome =>
        (outcome, None,
         if bool_decide (outcome = OutcomeTimedOut) then timeout_ms else ce_elapsed_ms exit, detail)
    | None =>
        if negb (bool_decide (ce_exit_code exit = 0%Z)) then
          (CandidateFailed, Some (ce_exit_code exit), ce_elapsed_ms exit, nonzero_detail)
        else if negb (has_success_evidence (cl_stdout logs)) then
          (IntegrityViolation, Some 0%Z, ce_elapsed_ms exit, missing_evidence_detail)
        else (OutcomeSucceeded, Some 0%Z, ce_elapsed_ms exit, detail)
    end in
  MkExecutorResult outcome exit_code elapsed_ms (cl_stdout logs) (cl_stderr logs) detail.

(** [has_verification_marker]. *)
Definition has_verification_marker (fixture_id : string) (stdout : bytes) : bool :=
  let prefix := "PASS fixture=" +:+ fixture_id +:+ " " in
  existsb (starts_with prefix) (lines (utf8_lossy (String.string_of_list_byte stdout))).

(** [classify_fixture_outcome]. *)
Definition classify_fixture_outcome (termination : ContainerTermination) (logs : ContainerLogs) (timeout_ms : N)
    (policy : FixtureOutcomePolicy) : ExecutorResult :=
  classify_verified_outcome termination logs timeout_ms (fo_exited_detail policy) (fo_nonzero_detail policy)
    (fo_missing_marker_detail policy) (has_verification_marker (fo_fixture_id policy)).

(** [serde_json::from_slice::<ReductionRunReceipt>(..).is_ok()]. *)
Class ReceiptJson := receipt_from_slice_is_ok : bytes -> bool.

(** [classify_correctness_outcome]. *)
Definition classify_correctness_outcome `{ReceiptJson} (termination : ContainerTermination) (logs : ContainerLogs)
    (timeout_ms : N) (policy : CorrectnessOutcomePolicy) : ExecutorResult :=
  classify_verified_outcome termination logs timeout_ms (co_exited policy) (co_nonzero policy)
    (co_invalid_receipt policy) receipt_from_slice_is_ok.

(** ** What an outcome says *)

Lemma byte_len_take_min n (b : bytes) : byte_len (take (N.to_nat n) b) = N.min n (byte_len b).
Proof. unfold byte_len. rewrite length_take. lia. Qed.

(** The limit is on both streams together, the standard output first; the
    kept bytes are the first ones, and the mark says that some are gone. *)
Lemma enforce_output_limit_spec logs limit :
  byte_len (cl_stdout logs) + byte_len (cl_stderr logs) <= u64_max ->
  let kept := enforce_output_limit logs limit in
  byte_len (cl_stdout kept) + byte_len (cl_stderr kept) <= limit
  /\ cl_stdout kept `prefix_of` cl_stdout logs /\ cl_stderr kept `prefix_of` cl_stderr logs
  /\ (cl_output_limit_exceeded kept = false ->
      cl_stdout kept = cl_stdout logs /\ cl_stderr kept = cl_stderr logs /\ cl_output_limit_exceeded logs = false)
  /\ (cl_output_limit_exceeded kept = true ->
      cl_output_limit_exceeded logs = true \/ limit < byte_len (cl_stdout logs) + byte_len (cl_stderr logs)).
Proof.
  intros Hl. cbn zeta. unfold enforce_output_limit, saturating_add.
  destruct (N.leb_spec (N.min u64_max (byte_len (cl_stdout logs) + byte_len (cl_stderr logs))) limit) as [Hle|Hle].
  - split; [lia|naive_solver].
  - cbn. rewrite !byte_len_take_min. unfold saturating_sub.
    split; [lia|]. split; [apply prefix_take|]. split; [apply prefix_take|]. split; [done|]. intros _. right. lia.
Qed.

Definition exited_with (termination : ContainerTermination) (code : Z) : Prop :=
  exists elapsed, termination = TerminationExited (MkExit code elapsed).

(** The outcome of the outputs the classification was given. *)
Lemma classify_spec termination logs timeout d1 d2 d3 evidence :
  let r := classify_verified_outcome termination logs timeout d1 d2 d3 evidence in
  er_stdout r = cl_stdout logs /\ er_stderr r = cl_stderr logs
  /\ (er_outcome r = OutcomeSucceeded <->
      cl_output_limit_exceeded logs = false /\ exited_with termination 0 /\ evidence (cl_stdout logs) = true)
  /\ (er_outcome r = IntegrityViolation <->
      cl_output_limit_exceeded logs = false /\ exited_with termination 0 /\ evidence (cl_stdout logs) = false)
  /\ (er_outcome r = CandidateFailed <->
      cl_output_limit_exceeded logs = false /\ exists code, code <> 0%Z /\ exited_with termination code)
  /\ (er_outcome r = OutcomeCancelled <->
      cl_output_limit_exceeded logs = false /\ exists exit, termination = TerminationCancelled exit)
  /\ (er_outcome r = OutcomeTimedOut <->
      cl_output_limit_exceeded logs = false /\ exists exit, termination = TerminationTimedOut exit)
  /\ (er_outcome r = OutcomeInfraError <->
      cl_output_limit_exceeded logs = true \/ exists exit, termination = TerminationOutputLimitExceeded exit)
  /\ (forall code, er_exit_code r = Some code <->
      cl_output_limit_exceeded logs = false /\ exited_with termination code).
Proof.
  unfold classify_verified_outcome, exited_with.
  destruct termination as [[code elapsed]|[code elapsed]|[code elapsed]|[code elapsed]], logs as [out err [|]];
    cbn; try (split_and!; naive_solver).
  destruct (decide (code = 0%Z)) as [->|Hc].
  - rewrite bool_decide_true by done. cbn. destruct (evidence out); cbn; split_and!; naive_solver.
  - rewrite bool_decide_false by done. cbn. split_and!; naive_solver.
Qed.

(** What a supervised execution reports.  An attempt succeeds exactly
    when its container exited by itself with status zero, neither stream
    was cut, and the complete standard output carries the evidence of its
    verification; zero without evidence is a violation of integrity,
    another status a failed candidate, with that status.  The outputs that
    are kept are the first bytes of what the container wrote, together
    within the limit. *)
Theorem outcome_exact (termination : ContainerTermination) (logs : ContainerLogs) (limit timeout : N)
    (exited nonzero missing : string) (evidence : bytes -> bool)
    (Hlen : byte_len (cl_stdout logs) + byte_len (cl_stderr logs) <= u64_max) :
  let r := classify_verified_outcome termination (enforce_output_limit logs limit) timeout exited nonzero missing
             evidence in
  let complete := cl_output_limit_exceeded logs = false
                  /\ byte_len (cl_stdout logs) + byte_len (cl_stderr logs) <= limit in
  (er_outcome r = OutcomeSucceeded <->
     complete /\ exited_with termination 0 /\ evidence (cl_stdout logs) = true)
  /\ (er_outcome r = IntegrityViolation <->
     complete /\ exited_with termination 0 /\ evidence (cl_stdout logs) = false)
  /\ (er_outcome r = CandidateFailed <-> complete /\ exists code, code <> 0%Z /\ exited_with termination code)
  /\ (er_outcome r = OutcomeCancelled <-> complete /\ exists exit, termination = TerminationCancelled exit)
  /\ (er_outcome r = OutcomeTimedOut <-> complete /\ exists exit, termination = TerminationTimedOut exit)
  /\ (forall code, er_exit_code r = Some code <-> complete /\ exited_with termination code)
  /\ er_stdout r `prefix_of` cl_stdout logs /\ er_stderr r `prefix_of` cl_stderr logs
  /\ byte_len (er_stdout r) + byte_len (er_stderr r) <= limit
  /\ (complete -> er_stdout r = cl_stdout logs /\ er_stderr r = cl_stderr logs).
Proof.
  cbn zeta.
  destruct (enforce_output_limit_spec logs limit Hlen) as (Hsum & Hout & Herr & Hwhole & Hcut).
  destruct (classify_spec termination (enforce_output_limit logs limit) timeout exited nonzero missing evidence)
    as (Eout & Eerr & Hs & Hi & Hc & Hx & Ht & _ & Hcode).
  rewrite Hs, Hi, Hc, Hx, Ht, Eout, Eerr. setoid_rewrite Hcode.
  assert (cl_output_limit_exceeded (enforce_output_limit logs limit) = false <->
    cl_output_limit_exceeded logs = false /\ byte_len (cl_stdout logs) + byte_len (cl_stderr logs) <= limit) as Hflag.
  { split.
    - intros Hf. destruct (Hwhole Hf) as (E1 & E2 & ?). rewrite E1, E2 in Hsum. auto.
    - intros [Hf Hle]. apply not_true_iff_false. intros Htrue. destruct (Hcut Htrue); [congruence|lia]. }
  split_and!; try (rewrite Hflag; done); try done.
  - rewrite Hflag. split; intros (Hw & He & Hv); (split; [done|split; [done|]]);
      destruct (Hwhole (proj2 Hflag Hw)) as (E1 & _); congruence.
  - rewrite Hflag. split; intros (Hw & He & Hv); (split; [done|split; [done|]]);
      destruct (Hwhole (proj2 Hflag Hw)) as (E1 & _); congruence.
  - intros code. by rewrite Hflag.
  - intros Hw. destruct (Hwhole (proj2 Hflag Hw)) as (E1 & E2 & _). auto.
Qed.

Definition sample_logs : ContainerLogs :=
  MkLogs (String.list_byte_of_string "PASS fixture=f verified") (String.list_byte_of_string "x") false.

Lemma outcome_exact_witness :
  let r := classify_verified_outcome (TerminationExited (MkExit 0 9)) (enforce_output_limit sample_logs 64) 100
             "exited" "nonzero" "missing" (has_verification_marker "f") in
  er_outcome r = OutcomeSucceeded /\ byte_len (er_stdout r) + byte_len (er_stderr r) <= 64.
Proof.
  pose proof (outcome_exact (TerminationExited (MkExit 0 9)) sample_logs 64 100 "exited" "nonzero" "missing"
                (has_verification_marker "f") ltac:(vm_compute; discriminate)) as (Hs & _ & _ & _ & _ & _ & _ & _ & Hn & _).
  split; [|exact Hn]. apply Hs. split; [split; [reflexivity|vm_compute; discriminate]|].
  split; [by exists 9|vm_compute; reflexivity].
Defined.
