(* ===== verification/CudaContract.v ===== *)
(** * The contract of the fixed CUDA container

    [src/crates/alloyport-worker/src/cuda.rs]: the local policy, the
    assignments it admits and the container it creates for them.  A path
    is its text; the texts of errors are dropped.  The materialization of
    the bundle is an effect and is in Executions.v. *)

From Stdlib Require Import Ascii.
From stdpp Require Import base strings pretty list.
From S2P Require Import Prelude Text Digest Identity Vocabulary WorkerJournal Artifacts Containers.

Local Open Scope N_scope.

(** ** Constants *)

Definition CUDA_FIXTURE_FEATURE : string := "cuda-fixture-v1".
Definition CUDA_FIXTURE_BUNDLE_MEDIA_TYPE : string := "application/vnd.alloyport.cuda-fixture.v1+json".
Definition VECTOR_ADD_FIXTURE_ID : string := "cuda-vectoradd-v1".
Definition SOURCE_FILENAME : string := "vector_add.cu".
Definition RUNNER_FILENAME : string := "run_fixture.py".
Definition CONTAINER_BUNDLE_PATH : string := "/alloyport/bundle".
Definition CONTAINER_WORK_PATH : string := "/alloyport/work".
Definition MINIMUM_DISK_BYTES : N := 128 * 1024 * 1024.
Definition CUDA_TEMP_BYTES : N := 64 * 1024 * 1024.

(** ** Data *)

(** [struct CudaFixtureBundle]. *)
Record CudaFixtureBundle := MkCudaBundle {
  fb_schema_version : N;
  fb_fixture_id : string;
  fb_source_sha256 : string;
  fb_source : string;
}.

(** [struct CudaResourceCeilings]. *)
Record CudaResourceCeilings := MkCeilings {
  max_cpu_millis : N;
  max_memory_bytes : N;
  max_disk_bytes : N;
  max_process_count : N;
  max_output_bytes : N;
}.

(** [struct CudaFixturePolicy]. *)
Record CudaFixturePolicy := MkCudaPolicy {
  cp_fixture_id : string;
  cp_bundle_digest : Sha256Digest;
  cp_image_manifest_digest : Sha256Digest;
  cp_image_media_type : string;
  cp_image_reference : string;
  cp_image_id : Sha256Digest;
  cp_device_id : string;
  cp_sandbox_root : string;
  cp_ceilings : CudaResourceCeilings;
}.

(** [enum CudaContractError]. *)
Inductive CudaContractError :=
| CudaInvalidPolicy | CudaAssignment | CudaDigest | CudaArtifact | CudaBundle | CudaIo | CudaJson.

(** [struct CudaSandbox]. *)
Record CudaSandbox := MkSandbox { sb_directory : string; sb_source_digest : string }.

(** [struct DockerCreatePlan]. *)
Record DockerCreatePlan := MkPlan {
  dp_container_name : string;
  dp_image_reference : string;
  dp_expected_image_id : Sha256Digest;
  dp_device_id : string;
  dp_argv : list string;
}.

(** [CudaFixtureBundle::vector_add]. *)
Definition vector_add `{Sha256} (source : string) : CudaFixtureBundle :=
  MkCudaBundle 1 VECTOR_ADD_FIXTURE_ID (digest_display (digest_bytes (String.list_byte_of_string source))) source.

(** ** The policy *)

(** [CudaFixturePolicy::new]. *)
Definition cuda_policy_new (fixture_id : string) (bundle_digest image_manifest_digest : Sha256Digest)
    (image_reference : string) (image_id : Sha256Digest) (device_id sandbox_root : string)
    (ceilings : CudaResourceCeilings) : result CudaContractError CudaFixturePolicy :=
  _ ← guard_err (trim_is_empty fixture_id) CudaInvalidPolicy;
  image_media_type ← map_err (fun _ => CudaInvalidPolicy)
    (image_artifact_media_type image_reference image_manifest_digest image_id);
  _ ← guard_err (trim_is_empty device_id || contains "," device_id) CudaInvalidPolicy;
  _ ← guard_err (negb (starts_with "/" sandbox_root) || contains "," sandbox_root) CudaInvalidPolicy;
  _ ← guard_err ((max_cpu_millis ceilings =? 0) || (max_memory_bytes ceilings =? 0) || (max_disk_bytes ceilings =? 0)
                 || (max_process_count ceilings =? 0) || (max_output_bytes ceilings =? 0)) CudaInvalidPolicy;
  Ok (MkCudaPolicy fixture_id bundle_digest image_manifest_digest image_media_type image_reference image_id
        device_id sandbox_root ceilings).

(** [validate_artifact]. *)
Definition validate_artifact (artifact : ArtifactDescriptor) (expected_digest : Sha256Digest)
    (expected_media_type : string) : result CudaContractError unit :=
  guard_err (negb (bool_decide (ad_digest artifact = expected_digest))
             || negb (bool_decide (ad_media_type artifact = expected_media_type))) CudaAssignment.

(** [validate_limits]. *)
Definition validate_limits (limits : option ResourceContract) (ceilings : CudaResourceCeilings) :
    result CudaContractError unit :=
  limits ← ok_or limits CudaAssignment;
  guard_err
    ((cpu_millis limits =? 0) || (max_cpu_millis ceilings <? cpu_millis limits)
     || (memory_bytes limits =? 0) || (max_memory_bytes ceilings <? memory_bytes limits)
     || (disk_bytes limits <? MINIMUM_DISK_BYTES) || (max_disk_bytes ceilings <? disk_bytes limits)
     || (process_count limits =? 0) || (max_process_count ceilings <? process_count limits)
     || (output_bytes limits =? 0) || (max_output_bytes ceilings <? output_bytes limits)
     || negb (device_count limits =? 1) || negb (bool_decide (network limits = NetworkDisabled)))
    CudaAssignment.

(** [validate_attempt_id]. *)
Definition safe_id_byte (a : ascii) : bool :=
  is_ascii_alphanumeric a || bool_decide (a = "-"%char) || bool_decide (a = "_"%char).

Definition validate_attempt_id (attempt_id : string) : result CudaContractError unit :=
  guard_err (bool_decide (attempt_id = EmptyString) || (64 <? String.length attempt_id)%nat
             || negb (all_bytes safe_id_byte attempt_id)) CudaAssignment.

(** [CudaFixturePolicy::validate_assignment]. *)
Definition validate_cuda_assignment (policy : CudaFixturePolicy) (assignment : AssignmentContract) :
    result CudaContractError unit :=
  let execution := ac_execution assignment in
  _ ← guard_err (negb (bool_decide (executor_kind execution = CudaFixture))) CudaAssignment;
  _ ← guard_err (negb (bool_decide (ac_required_features assignment = [CUDA_FIXTURE_FEATURE]))) CudaAssignment;
  _ ← guard_err (negb (bool_decide (argv execution = [cp_fixture_id policy]))) CudaAssignment;
  _ ← guard_err (negb (bool_decide (working_directory execution = "."))) CudaAssignment;
  _ ← guard_err (negb (bool_decide (environment execution = []))) CudaAssignment;
  _ ← validate_artifact (bundle execution) (cp_bundle_digest policy) CUDA_FIXTURE_BUNDLE_MEDIA_TYPE;
  _ ← validate_artifact (image execution) (cp_image_manifest_digest policy) (cp_image_media_type policy);
  validate_limits (limits execution) (cp_ceilings policy).

(** ** The container *)

(** [Path::join] of a relative name. *)
Definition join_path (root name : string) : string :=
  if ends_with "/" root then root +:+ name else root +:+ "/" +:+ name.

(** The mount of the bundle. *)
Definition bundle_mount (directory : string) : string :=
  "type=bind,src=" +:+ directory +:+ ",dst=" +:+ CONTAINER_BUNDLE_PATH +:+ ",readonly".

(** [CudaFixturePolicy::docker_create_plan]. *)
Definition docker_create_plan (policy : CudaFixturePolicy) (assignment : AssignmentContract) (sandbox : CudaSandbox) :
    result CudaContractError DockerCreatePlan :=
  _ ← validate_cuda_assignment policy assignment;
  limits ← ok_or (limits (ac_execution assignment)) CudaAssignment;
  let attempt_id := as_str (ac_attempt_id assignment) in
  let container_name := "alloyport-" +:+ attempt_id in
  let cpu_quota := N.min u64_max (cpu_millis limits * 100) in
  let work_bytes := saturating_sub (disk_bytes limits) CUDA_TEMP_BYTES in
  Ok (MkPlan container_name (cp_image_reference policy) (cp_image_id policy) (cp_device_id policy)
    [ "create";
      "--name"; container_name;
      "--label"; "alloyport.attempt=" +:+ attempt_id;
      "--label"; "alloyport.bundle=" +:+ digest_display (ad_digest (bundle (ac_execution assignment)));
      "--label"; "alloyport.image=" +:+ digest_display (ad_digest (image (ac_execution assignment)));
      "--network"; "none";
      "--read-only";
      "--cap-drop"; "ALL";
      "--security-opt"; "no-new-privileges";
      "--log-driver"; "json-file";
      "--log-opt"; "max-size=" +:+ pretty (output_bytes limits);
      "--log-opt"; "max-file=2";
      "--cpu-period"; "100000";
      "--cpu-quota"; pretty cpu_quota;
      "--memory"; pretty (memory_bytes limits);
      "--pids-limit"; pretty (process_count limits);
      "--gpus"; "device=" +:+ cp_device_id policy;
      "--mount"; bundle_mount (sb_directory sandbox);
      "--tmpfs"; CONTAINER_WORK_PATH +:+ ":rw,exec,size=" +:+ pretty work_bytes;
      "--tmpfs"; "/tmp:rw,exec,size=" +:+ pretty CUDA_TEMP_BYTES;
      "--workdir"; CONTAINER_WORK_PATH;
      "--entrypoint"; "python3";
      cp_image_reference policy;
      CONTAINER_BUNDLE_PATH +:+ "/" +:+ RUNNER_FILENAME ]).

(** ** What the plan depends on *)

(** The identity of an attempt whose names are safe on the host. *)
Lemma safe_id_spec id :
  validate_attempt_id id = Ok tt <->
  id <> EmptyString /\ (String.length id <= 64)%nat /\ all_bytes safe_id_byte id = true.
Proof.
  unfold validate_attempt_id. rewrite guard_err_Ok, !orb_false_iff, bool_decide_eq_false, Nat.ltb_ge, negb_false_iff.
  tauto.
Qed.

Lemma bundle_artifact_Ok a d m u :
  validate_artifact a d m = Ok u <-> ad_digest a = d /\ ad_media_type a = m.
Proof.
  unfold validate_artifact. rewrite guard_err_Ok, orb_false_iff, !negb_false_iff, !bool_decide_eq_true. done.
Qed.

(** The resources a contract may ask for. *)
Record limits_within (limits : ResourceContract) (ceilings : CudaResourceCeilings) : Prop := {
  within_cpu : 0 < cpu_millis limits <= max_cpu_millis ceilings;
  within_memory : 0 < memory_bytes limits <= max_memory_bytes ceilings;
  within_disk : MINIMUM_DISK_BYTES <= disk_bytes limits <= max_disk_bytes ceilings;
  within_processes : 0 < process_count limits <= max_process_count ceilings;
  within_output : 0 < output_bytes limits <= max_output_bytes ceilings;
  within_devices : device_count limits = 1;
  within_network : network limits = NetworkDisabled;
}.

Lemma validate_limits_Ok limits ceilings u :
  validate_limits limits ceilings = Ok u <-> exists l, limits = Some l /\ limits_within l ceilings.
Proof.
  unfold validate_limits. rewrite result_bind_Ok. setoid_rewrite ok_or_Ok. setoid_rewrite guard_err_Ok.
  setoid_rewrite orb_false_iff. repeat setoid_rewrite orb_false_iff.
  repeat setoid_rewrite negb_false_iff. setoid_rewrite bool_decide_eq_true.
  repeat setoid_rewrite N.eqb_neq. repeat setoid_rewrite N.ltb_ge. repeat setoid_rewrite N.eqb_eq.
  split; intros (l & -> & H); exists l; (split; [done|]).
  - destruct_and!. constructor; (done || lia).
  - destruct H. split_and!; (done || lia).
Qed.

(** An assignment is admitted exactly when it is the one the policy
    describes. *)
Lemma validate_cuda_assignment_Ok policy a u :
  validate_cuda_assignment policy a = Ok u <->
  executor_kind (ac_execution a) = CudaFixture /\ ac_required_features a = [CUDA_FIXTURE_FEATURE]
  /\ argv (ac_execution a) = [cp_fixture_id policy] /\ working_directory (ac_execution a) = "."
  /\ environment (ac_execution a) = []
  /\ (ad_digest (bundle (ac_execution a)) = cp_bundle_digest policy
      /\ ad_media_type (bundle (ac_execution a)) = CUDA_FIXTURE_BUNDLE_MEDIA_TYPE)
  /\ (ad_digest (image (ac_execution a)) = cp_image_manifest_digest policy
      /\ ad_media_type (image (ac_execution a)) = cp_image_media_type policy)
  /\ exists l, limits (ac_execution a) = Some l /\ limits_within l (cp_ceilings policy).
Proof.
  unfold validate_cuda_assignment. rewrite !guard_bind_Ok, !negb_false_iff, !bool_decide_eq_true, result_bind_Ok.
  setoid_rewrite result_bind_Ok. setoid_rewrite bundle_artifact_Ok. setoid_rewrite validate_limits_Ok.
  naive_solver.
Qed.

(** Splitting at a separator undoes the join of pieces without it. *)
Lemma split_at_none sep s : all_bytes (fun a => negb (bool_decide (a = sep))) s = true -> split_at sep s = [s].
Proof.
  induction s as [|a s IH]; [done|]. cbn [all_bytes split_at]. rewrite andb_true_iff, negb_true_iff, bool_decide_eq_false.
  intros [Ha Hs]. rewrite decide_False by done. by rewrite IH.
Qed.

Lemma split_at_app sep s t :
  all_bytes (fun a => negb (bool_decide (a = sep))) s = true ->
  split_at sep (s +:+ String sep t) = s :: split_at sep t.
Proof.
  induction s as [|a s IH]; cbn [all_bytes].
  - intros _. change (EmptyString +:+ String sep t) with (String sep t). cbn [split_at]. by rewrite decide_True.
  - rewrite andb_true_iff, negb_true_iff, bool_decide_eq_false. intros [Ha Hs].
    change (String a s +:+ String sep t) with (String a (s +:+ String sep t)). cbn [split_at].
    rewrite decide_False by done. by rewrite IH.
Qed.

Lemma no_comma_spec s : contains "," s = false <-> all_bytes (fun a => negb (bool_decide (a = ","%char))) s = true.
Proof.
  induction s as [|a s IH]; [done|]. cbn [contains all_bytes]. rewrite orb_false_iff, andb_true_iff, IH. cbn.
  unfold starts_with. cbn. rewrite negb_true_iff, bool_decide_eq_false.
  case_decide as Hd; destruct (decide (a = ","%char)); naive_solver.
Qed.

Lemma cuda_policy_new_Ok f b m r i d root c policy :
  cuda_policy_new f b m r i d root c = Ok policy ->
  contains "," (cp_device_id policy) = false /\ starts_with "/" (cp_sandbox_root policy) = true
  /\ contains "," (cp_sandbox_root policy) = false
  /\ (ends_with ("@" +:+ digest_display (cp_image_manifest_digest policy)) (cp_image_reference policy) = true
      \/ cp_image_manifest_digest policy = cp_image_id policy).
Proof.
  unfold cuda_policy_new. rewrite guard_bind_Ok. intros [_ H].
  apply result_bind_Ok in H as (media & Hm & H). rewrite !guard_bind_Ok, !orb_false_iff, negb_false_iff in H.
  destruct H as ([_ Hd] & [Hr Hc] & _ & [= <-]). split_and!; [done..|]. cbn.
  unfold image_artifact_media_type in Hm. destruct (guard_err _ _); [|done]. cbn in Hm.
  destruct (ends_with _ _); [by left|]. case_bool_decide; [by right|done].
Qed.

Lemma safe_id_no_comma id : all_bytes safe_id_byte id = true -> contains "," id = false.
Proof.
  rewrite no_comma_spec, !all_bytes_true. intros H x Hx. specialize (H x Hx).
  apply negb_true_iff, bool_decide_eq_false. by intros ->.
Qed.

Lemma no_comma_app s t : contains "," (s +:+ t) = false <-> contains "," s = false /\ contains "," t = false.
Proof. by rewrite !no_comma_spec, all_bytes_app, andb_true_iff. Qed.

Lemma join_no_comma root name :
  contains "," root = false -> contains "," name = false -> contains "," (join_path root name) = false.
Proof. intros Hr Hn. unfold join_path. case_match; repeat (apply no_comma_app; split; auto). Qed.

Lemma join_path_inj root name name' : join_path root name = join_path root name' -> name = name'.
Proof. unfold join_path. case_match; [|intros E%string_app_inj_l; revert E]; apply string_app_inj_l. Qed.

(** The value of [--mount] has exactly the four fields the code wrote. *)
Lemma bundle_mount_fields directory :
  contains "," directory = false ->
  split_at ","%char (bundle_mount directory)
  = ["type=bind"; "src=" +:+ directory; "dst=" +:+ CONTAINER_BUNDLE_PATH; "readonly"].
Proof.
  intros Hd.
  assert (bundle_mount directory
          = "type=bind" +:+ String ","%char (("src=" +:+ directory)
              +:+ String ","%char ("dst=/alloyport/bundle" +:+ String ","%char "readonly"))) as ->.
  { unfold bundle_mount, CONTAINER_BUNDLE_PATH. rewrite <-!append_assoc. reflexivity. }
  rewrite split_at_app by done. rewrite split_at_app.
  - rewrite split_at_app by done. by rewrite split_at_none.
  - apply no_comma_spec, no_comma_app. done.
Qed.

(** ** Reading a command line

    [docker create \[OPTIONS\] IMAGE \[COMMAND\]]: an option is a word that
    begins with a dash; all the options used here but [--read-only] take
    the next word as their value; the first word that is no option is the
    image, and what follows is its command. *)

Definition switches : list string := ["--read-only"].

Fixpoint docker_options (words : list string) : list (string * option string) * list string :=
  match words with
  | [] => ([], [])
  | word :: rest =>
      if starts_with "-" word then
        if bool_decide (word ∈ switches) then
          let '(options, operands) := docker_options rest in ((word, None) :: options, operands)
        else
          match rest with
          | [] => ([(word, None)], [])
          | value :: rest =>
              let '(options, operands) := docker_options rest in ((word, Some value) :: options, operands)
          end
      else ([], words)
  end.

(** All the values an option is given, in order. *)
Definition option_values (name : string) (options : list (string * option string)) : list (option string) :=
  (filter (fun o => o.1 = name) options).*2.

(** The first word that is no option ends the options. *)
Lemma docker_image image command :
  starts_with "-" image = false -> docker_options (image :: command) = ([], image :: command).
Proof. intros H. cbn [docker_options]. by rewrite H. Qed.

Lemma docker_switch name rest options operands :
  starts_with "-" name && bool_decide (name ∈ switches) = true -> docker_options rest = (options, operands) ->
  docker_options (name :: rest) = ((name, None) :: options, operands).
Proof. intros [H1 H2]%andb_true_iff H. cbn [docker_options]. by rewrite H1, H2, H. Qed.

Lemma docker_value name value rest options operands :
  starts_with "-" name && negb (bool_decide (name ∈ switches)) = true -> docker_options rest = (options, operands) ->
  docker_options (name :: value :: rest) = ((name, Some value) :: options, operands).
Proof. intros [H1 H2%negb_true_iff]%andb_true_iff H. cbn [docker_options]. by rewrite H1, H2, H. Qed.

(** The only options a command line of ours has. *)
Definition container_options : list string :=
  ["--name"; "--label"; "--network"; "--read-only"; "--cap-drop"; "--security-opt"; "--log-driver"; "--log-opt";
   "--cpu-period"; "--cpu-quota"; "--memory"; "--pids-limit"; "--gpus"; "--mount"; "--tmpfs"; "--workdir"; "--entrypoint"].

(** What the options say: the words of a confined container. *)
Record confined (policy : CudaFixturePolicy) (attempt : string) (l : ResourceContract)
    (options : list (string * option string)) : Prop := {
  cf_known : Forall (fun o => o.1 ∈ container_options) options;
  cf_network : option_values "--network" options = [Some "none"];
  cf_mount : exists mount, option_values "--mount" options = [Some mount]
    /\ split_at ","%char mount = ["type=bind"; "src=" +:+ join_path (cp_sandbox_root policy) attempt;
                                  "dst=" +:+ CONTAINER_BUNDLE_PATH; "readonly"];
  cf_root : option_values "--read-only" options = [None];
  cf_privileges : option_values "--cap-drop" options = [Some "ALL"]
    /\ option_values "--security-opt" options = [Some "no-new-privileges"];
  cf_device : option_values "--gpus" options = [Some ("device=" +:+ cp_device_id policy)]
    /\ contains "," (cp_device_id policy) = false;
  cf_cpu : option_values "--cpu-period" options = [Some "100000"]
    /\ option_values "--cpu-quota" options = [Some (pretty (N.min u64_max (cpu_millis l * 100)))];
  cf_memory : option_values "--memory" options = [Some (pretty (memory_bytes l))];
  cf_processes : option_values "--pids-limit" options = [Some (pretty (process_count l))];
  cf_scratch : exists work, work + CUDA_TEMP_BYTES = disk_bytes l
    /\ option_values "--tmpfs" options
       = [Some (CONTAINER_WORK_PATH +:+ ":rw,exec,size=" +:+ pretty work);
          Some ("/tmp:rw,exec,size=" +:+ pretty CUDA_TEMP_BYTES)];
  cf_logs : option_values "--log-driver" options = [Some "json-file"]
    /\ option_values "--log-opt" options = [Some ("max-size=" +:+ pretty (output_bytes l)); Some "max-file=2"];
  cf_names : option_values "--name" options = [Some ("alloyport-" +:+ attempt)]
    /\ option_values "--label" options
       = [Some ("alloyport.attempt=" +:+ attempt);
          Some ("alloyport.bundle=" +:+ digest_display (cp_bundle_digest policy));
          Some ("alloyport.image=" +:+ digest_display (cp_image_manifest_digest policy))];
  cf_entry : option_values "--workdir" options = [Some CONTAINER_WORK_PATH]
    /\ option_values "--entrypoint" options = [Some "python3"];
}.

(** C27 The container an assignment gets.  Whatever the server put into
    an admitted assignment, the command line, read the way the engine reads
    it, is confined: it has no network, the one mount is the directory of
    its own attempt, read-only, its root is read-only and its privileges
    are dropped, it sees the device of the policy and no other, its
    processors, memory, processes, disk and logs are limited by the limits
    of the assignment, which are within the local ceilings, it has no other
    option, and it runs the bundle's runner in the image the policy pins.
    No other attempt has its name or its directory.  (The sandbox is the
    one that is materialized for the attempt, and the reference to the image
    in the local policy is not itself an option.) *)
Theorem plan_is_confined (policy : CudaFixturePolicy) (a : AssignmentContract) (sandbox : CudaSandbox)
    (plan : DockerCreatePlan)
    (Hpolicy : exists f b m r i d root c, cuda_policy_new f b m r i d root c = Ok policy)
    (Hid : validate_attempt_id (as_str (ac_attempt_id a)) = Ok tt)
    (Hdir : sb_directory sandbox = join_path (cp_sandbox_root policy) (as_str (ac_attempt_id a)))
    (Himage : starts_with "-" (cp_image_reference policy) = false)
    (Hplan : docker_create_plan policy a sandbox = Ok plan) :
  (exists l words options,
    limits (ac_execution a) = Some l /\ limits_within l (cp_ceilings policy)
    /\ dp_argv plan = "create" :: words
    /\ docker_options words = (options, [cp_image_reference policy; CONTAINER_BUNDLE_PATH +:+ "/" +:+ RUNNER_FILENAME])
    /\ confined policy (as_str (ac_attempt_id a)) l options)
  /\ (dp_container_name plan = "alloyport-" +:+ as_str (ac_attempt_id a)
      /\ dp_image_reference plan = cp_image_reference policy /\ dp_expected_image_id plan = cp_image_id policy
      /\ dp_device_id plan = cp_device_id policy
      /\ ad_digest (image (ac_execution a)) = cp_image_manifest_digest policy
      /\ (ends_with ("@" +:+ digest_display (cp_image_manifest_digest policy)) (cp_image_reference policy) = true
          \/ cp_image_manifest_digest policy = cp_image_id policy))
  /\ (forall a' sandbox' plan', docker_create_plan policy a' sandbox' = Ok plan' ->
      sb_directory sandbox' = join_path (cp_sandbox_root policy) (as_str (ac_attempt_id a')) ->
      if decide (as_str (ac_attempt_id a') = as_str (ac_attempt_id a)) then
        limits (ac_execution a') = limits (ac_execution a) -> plan' = plan
      else dp_container_name plan' <> dp_container_name plan /\ sb_directory sandbox' <> sb_directory sandbox).
Proof.
  destruct Hpolicy as (f & b & m & r & i & d & root & c & (Hdev & _ & Hroot & Hpin)%cuda_policy_new_Ok).
  apply safe_id_spec in Hid as (_ & _ & Hsafe).
  unfold docker_create_plan in Hplan. apply result_bind_Ok in Hplan as (u & Ha & H).
  apply result_bind_Ok in H as (l & Hl%ok_or_Ok & [= <-]).
  pose proof Ha as (_ & _ & _ & _ & _ & [Hb _] & [Hi _] & (l' & Hl' & Hlimits))%validate_cuda_assignment_Ok.
  assert (l' = l) as -> by congruence. split; [|split].
  - exists l. do 2 eexists. split_and!; [done|done|reflexivity| |].
    + repeat first [eapply docker_value; [reflexivity|]|eapply docker_switch; [reflexivity|]]. by apply docker_image.
    + rewrite Hb, Hi, Hdir. split; try reflexivity; try (by split_and!).
      * repeat (constructor; [apply list_elem_of_In; cbn; tauto|]). constructor.
      * eexists. split; [reflexivity|]. by apply bundle_mount_fields, join_no_comma, safe_id_no_comma.
      * eexists. split; [|reflexivity]. destruct Hlimits as [_ _ [Hd _] _ _ _ _]. unfold saturating_sub.
        unfold MINIMUM_DISK_BYTES in Hd. unfold CUDA_TEMP_BYTES. lia.
  - done.
  - intros a' sandbox' plan' H' Hdir'. unfold docker_create_plan in H'.
    apply result_bind_Ok in H' as (u' & Ha' & H'). apply result_bind_Ok in H' as (l' & Hlim'%ok_or_Ok & [= <-]).
    apply validate_cuda_assignment_Ok in Ha' as (_ & _ & _ & _ & _ & [Hb' _] & [Hi' _] & _).
    case_decide as Hsame.
    + intros Hlim. assert (l' = l) as -> by congruence. by rewrite Hb, Hb', Hi, Hi', Hdir, Hdir', Hsame.
    + cbn. split; [by intros E%string_app_inj_l|]. rewrite Hdir, Hdir'. by intros E%join_path_inj.
Qed.

Module CudaSample.

Definition digest : Sha256Digest := from_bytes [].
Definition policy : CudaFixturePolicy :=
  MkCudaPolicy VECTOR_ADD_FIXTURE_ID digest digest OCI_IMAGE_CONFIG_MEDIA_TYPE "alloyport:local" digest "0" "/srv"
    (MkCeilings 4000 1073741824 1073741824 64 65536).
Definition attempt_id : AttemptId := MkId "attempt-1" eq_refl.
Definition resources : ResourceContract := MkResources 1000 536870912 268435456 16 4096 1 NetworkDisabled.
Definition assignment : AssignmentContract :=
  MkAssignment (MkId "assignment-1" eq_refl) attempt_id 1 "key" (MkId "task-1" eq_refl) (MkId "candidate-1" eq_refl)
    (MkExecution CudaFixture [VECTOR_ADD_FIXTURE_ID] "." [] 1000
       (MkArtifactDescriptor digest 7 CUDA_FIXTURE_BUNDLE_MEDIA_TYPE)
       (MkArtifactDescriptor digest 9 OCI_IMAGE_CONFIG_MEDIA_TYPE) (Some resources))
    [CUDA_FIXTURE_FEATURE].
Definition sandbox : CudaSandbox := MkSandbox "/srv/attempt-1" "source".
Definition plan : DockerCreatePlan :=
  match docker_create_plan policy assignment sandbox with Ok p => p | Err _ => MkPlan EmptyString EmptyString digest EmptyString [] end.

Lemma plan_is_confined_witness :
  limits_within resources (cp_ceilings policy)
  /\ dp_container_name plan = "alloyport-attempt-1" /\ List.In "none" (dp_argv plan).
Proof.
  destruct (plan_is_confined policy assignment sandbox plan) as ((l & words & options & El & Hl & _) & (Hname & _) & _).
  - exists VECTOR_ADD_FIXTURE_ID, digest, digest, "alloyport:local", digest, "0", "/srv",
      (MkCeilings 4000 1073741824 1073741824 64 65536). vm_compute. reflexivity.
  - vm_compute. reflexivity.
  - vm_compute. reflexivity.
  - vm_compute. reflexivity.
  - vm_compute. reflexivity.
  - injection El as <-. split; [exact Hl|]. split; [exact Hname|]. vm_compute. tauto.
Defined.

End CudaSample.
