(* ===== verification/AscendContract.v ===== *)
(** * The contracts of the Ascend containers

    [src/crates/alloyport-worker/src/ascend.rs] and [ascend_build.rs]: the
    local policies of the fixed fixture and of the candidate builds, the
    assignments they admit and the containers they create for them.  A path
    is its text; the texts of errors are dropped.  The materialization of
    the bundles is in Sandboxes.v. *)

From Stdlib Require Import Ascii.
From stdpp Require Import base strings pretty gmap list.
From S2P Require Import Prelude Text Digest Identity Vocabulary WorkerJournal Artifacts Containers CudaContract BuildGate.

Local Open Scope N_scope.

(** ** Constants *)

Definition ASCEND_FIXTURE_FEATURE : string := "ascend-fixture-v1".
Definition ASCEND_FIXTURE_BUNDLE_MEDIA_TYPE : string := "application/vnd.alloyport.ascend-fixture.v1+json".
Definition ASCEND_ADD_FIXTURE_ID : string := "ascend-add-v1".
Definition DRIVER_PATH : string := "/usr/local/Ascend/driver".
Definition ASCEND_SOURCE_FILENAME : string := "add_custom.cpp".
Definition BUILD_RUNNER_FILENAME : string := "run_build.py".
Definition MAX_BUILD_BUNDLE_BYTES : N := 12 * 1024 * 1024.

(** ** Data *)

(** [struct AscendFixtureBundle]. *)
Record AscendFixtureBundle := MkAscendBundle {
  afb_schema_version : N;
  afb_fixture_id : string;
  afb_source_sha256 : string;
  afb_source : string;
}.

(** [struct AscendEnvironmentFacts]. *)
Record AscendEnvironmentFacts := MkAscendFacts {
  ae_architecture : string;
  ae_cann_version : string;
  ae_driver_version : string;
  ae_firmware_version : string;
}.

(** [struct AscendResourceCeilings]. *)
Record AscendResourceCeilings := MkAscendCeilings {
  at_most_timeout_ms : N;
  at_most_cpu_millis : N;
  at_most_memory_bytes : N;
  at_most_disk_bytes : N;
  at_most_process_count : N;
  at_most_output_bytes : N;
}.

(** [enum AscendContractError] and [enum AscendBuildContractError]. *)
Inductive AscendContractError :=
| AscendInvalidPolicy | AscendAssignment | AscendArtifact | AscendBundle | AscendIo | AscendJson.

Inductive AscendBuildContractError :=
| BuildInvalidPolicy | BuildAssignment | BuildArtifact | BuildBundle | BuildUnsafePath | BuildIo | BuildJson.

(** [struct AscendFixturePolicy]. *)
Record AscendFixturePolicy := MkAscendPolicy {
  afp_fixture_id : string;
  afp_bundle_digest : Sha256Digest;
  afp_image_manifest_digest : Sha256Digest;
  afp_image_media_type : string;
  afp_image_reference : string;
  afp_image_id : Sha256Digest;
  afp_device : AcceleratorDevice;
  afp_device_nodes : list string;
  afp_driver_path : string;
  afp_sandbox_root : string;
  afp_ceilings : AscendResourceCeilings;
  afp_environment : AscendEnvironmentFacts;
}.

(** [struct AscendBuildPolicy]. *)
Record AscendBuildPolicy := MkBuildPolicy {
  abp_image_manifest_digest : Sha256Digest;
  abp_image_media_type : string;
  abp_image_reference : string;
  abp_image_id : Sha256Digest;
  abp_device : AcceleratorDevice;
  abp_device_nodes : list string;
  abp_driver_path : string;
  abp_sandbox_root : string;
  abp_ceilings : AscendResourceCeilings;
  abp_environment : AscendEnvironmentFacts;
}.

(** [struct AscendSandbox] and [struct AscendBuildSandbox]. *)
Record AscendSandbox := MkAscendSandbox { asb_directory : string; asb_source_digest : string }.
Record AscendBuildSandbox := MkBuildSandbox { bsb_directory : string; bsb_bundle_digest : Sha256Digest }.

(** [struct AscendDockerCreatePlan]. *)
Record AscendDockerCreatePlan := MkAscendPlan {
  ap_container_name : string;
  ap_image_reference : string;
  ap_expected_image_id : Sha256Digest;
  ap_device : AcceleratorDevice;
  ap_environment : AscendEnvironmentFacts;
  ap_argv : list string;
}.

(** [AscendFixtureBundle::add]. *)
Definition ascend_add `{Sha256} (source : string) : AscendFixtureBundle :=
  MkAscendBundle 1 ASCEND_ADD_FIXTURE_ID (digest_display (digest_bytes (String.list_byte_of_string source))) source.

(** [AscendEnvironmentFacts::new]. *)
Definition ascend_facts_new (architecture cann_version driver_version firmware_version : string) :
    result AscendContractError AscendEnvironmentFacts :=
  _ ← guard_err (existsb trim_is_empty [architecture; cann_version; driver_version; firmware_version])
        AscendInvalidPolicy;
  Ok (MkAscendFacts architecture cann_version driver_version firmware_version).

(** ** Devices and their nodes *)

(** [==] of two [Path]s compares their components: a root, and what is
    between the separators but for the empty pieces and those that are one
    dot, of which a relative path keeps the first. *)
Definition path_components (path : string) : bool * list string :=
  let pieces := split_at "/"%char path in
  let plain := List.filter (fun piece => negb (bool_decide (piece = EmptyString)) && negb (bool_decide (piece = "."))) pieces in
  (starts_with "/" path, if bool_decide (head pieces = Some ".") then "." :: plain else plain).

Definition path_eq (a b : string) : bool := bool_decide (path_components a = path_components b).

(** The nodes a container can be given. *)
Definition device_node_allowed (value : string) : bool :=
  match strip_prefix "/dev/davinci" value with
  | Some suffix => negb (bool_decide (suffix = EmptyString)) && all_bytes is_ascii_digit suffix
  | None => false
  end || bool_decide (value = "/dev/davinci_manager") || bool_decide (value = "/dev/hisi_hdc").

Definition required_nodes (device_id : string) : list string :=
  ["/dev/davinci" +:+ device_id; "/dev/davinci_manager"; "/dev/hisi_hdc"].

(** The loops of the three functions that validate the nodes of a device,
    which differ in their error. *)
Fixpoint collect_nodes {E} (error : E) (nodes : list string) (unique : gset string) : result E (gset string) :=
  match nodes with
  | [] => Ok unique
  | node :: nodes =>
      _ ← guard_err (negb (starts_with "/" node) || negb (device_node_allowed node) || bool_decide (node ∈ unique)) error;
      collect_nodes error nodes ({[node]} ∪ unique)
  end.

Definition validate_nodes {E} (error : E) (device_id : string) (nodes : list string) : result E unit :=
  unique ← collect_nodes error nodes ∅;
  guard_err (existsb (fun required => negb (bool_decide (required ∈ unique))) (required_nodes device_id)) error.

(** [validate_device_identity] and [validate_device_nodes] of [ascend.rs]. *)
Definition validate_device_identity (device : AcceleratorDevice) : result AscendContractError unit :=
  guard_err (bool_decide (acc_device_id device = EmptyString) || negb (all_bytes is_ascii_digit (acc_device_id device))
             || trim_is_empty (acc_product_name device) || trim_is_empty (acc_serial_number device)
             || trim_is_empty (acc_firmware_version device)) AscendInvalidPolicy.

Definition validate_device_nodes (selected_device_id : string) (device_nodes : list string) :
    result AscendContractError unit := validate_nodes AscendInvalidPolicy selected_device_id device_nodes.

(** A device that is not the one of the environment. *)
Definition device_mismatch (device : AcceleratorDevice) (environment : AscendEnvironmentFacts) : bool :=
  trim_is_empty (acc_device_id device) || trim_is_empty (acc_product_name device)
  || trim_is_empty (acc_serial_number device) || trim_is_empty (acc_firmware_version device)
  || negb (bool_decide (acc_product_name device = ae_architecture environment))
  || negb (bool_decide (acc_firmware_version device = ae_firmware_version environment)).

(** [validate_device] and [validate_device_nodes] of [ascend_build.rs]. *)
Definition validate_build_device (device : AcceleratorDevice) (environment : AscendEnvironmentFacts) :
    result AscendBuildContractError unit := guard_err (device_mismatch device environment) BuildInvalidPolicy.

Definition validate_build_nodes (device_id : string) (nodes : list string) : result AscendBuildContractError unit :=
  validate_nodes BuildInvalidPolicy device_id nodes.

(** ** The policies *)

(** A directory that can be mounted. *)
Definition unsafe_root (root : string) : bool := negb (starts_with "/" root) || contains "," root.

(** [AscendFixturePolicy::new]. *)
Definition ascend_policy_new (fixture_id : string) (bundle_digest image_manifest_digest : Sha256Digest)
    (image_reference : string) (image_id : Sha256Digest) (device : AcceleratorDevice) (device_nodes : list string)
    (driver_path sandbox_root : string) (ceilings : AscendResourceCeilings) (environment : AscendEnvironmentFacts) :
    result AscendContractError AscendFixturePolicy :=
  _ ← guard_err (trim_is_empty fixture_id) AscendInvalidPolicy;
  image_media_type ← map_err (fun _ => AscendInvalidPolicy)
    (image_artifact_media_type image_reference image_manifest_digest image_id);
  _ ← validate_device_identity device;
  _ ← validate_device_nodes (acc_device_id device) device_nodes;
  let device_nodes := sort_by_key (fun node => node) device_nodes in
  _ ← guard_err (negb (path_eq driver_path DRIVER_PATH)) AscendInvalidPolicy;
  _ ← guard_err (unsafe_root sandbox_root) AscendInvalidPolicy;
  _ ← guard_err ((at_most_timeout_ms ceilings =? 0) || (at_most_cpu_millis ceilings =? 0)
                 || (at_most_memory_bytes ceilings =? 0) || (at_most_disk_bytes ceilings =? 0)
                 || (at_most_process_count ceilings =? 0) || (at_most_output_bytes ceilings =? 0)) AscendInvalidPolicy;
  _ ← guard_err (negb (bool_decide (acc_firmware_version device = ae_firmware_version environment))
                 || negb (bool_decide (acc_product_name device = ae_architecture environment))) AscendInvalidPolicy;
  Ok (MkAscendPolicy fixture_id bundle_digest image_manifest_digest image_media_type image_reference image_id device
        device_nodes driver_path sandbox_root ceilings environment).

(** [AscendBuildPolicy::new]. *)
Definition build_policy_new (image_manifest_digest : Sha256Digest) (image_reference : string) (image_id : Sha256Digest)
    (device : AcceleratorDevice) (device_nodes : list string) (driver_path sandbox_root : string)
    (ceilings : AscendResourceCeilings) (environment : AscendEnvironmentFacts) :
    result AscendBuildContractError AscendBuildPolicy :=
  image_media_type ← map_err (fun _ => BuildInvalidPolicy)
    (image_artifact_media_type image_reference image_manifest_digest image_id);
  _ ← validate_build_device device environment;
  _ ← validate_build_nodes (acc_device_id device) device_nodes;
  let device_nodes := sort_by_key (fun node => node) device_nodes in
  _ ← guard_err (negb (path_eq driver_path DRIVER_PATH)) BuildInvalidPolicy;
  _ ← guard_err (unsafe_root sandbox_root) BuildInvalidPolicy;
  _ ← guard_err ((at_most_timeout_ms ceilings =? 0) || (at_most_cpu_millis ceilings =? 0)
                 || (at_most_memory_bytes ceilings =? 0) || (at_most_disk_bytes ceilings <? MINIMUM_DISK_BYTES)
                 || (at_most_process_count ceilings =? 0) || (at_most_output_bytes ceilings =? 0)) BuildInvalidPolicy;
  Ok (MkBuildPolicy image_manifest_digest image_media_type image_reference image_id device device_nodes driver_path
        sandbox_root ceilings environment).

(** ** Assignments *)

(** What the functions that validate limits refuse; they differ in their
    ceilings, in the devices they ask for and in their errors. *)
Definition limits_refused (timeout : N) (limits : ResourceContract) (ceilings : AscendResourceCeilings) (devices : N) : bool :=
  (timeout =? 0) || (at_most_timeout_ms ceilings <? timeout)
  || (cpu_millis limits =? 0) || (at_most_cpu_millis ceilings <? cpu_millis limits)
  || (memory_bytes limits =? 0) || (at_most_memory_bytes ceilings <? memory_bytes limits)
  || (disk_bytes limits <? MINIMUM_DISK_BYTES) || (at_most_disk_bytes ceilings <? disk_bytes limits)
  || (process_count limits =? 0) || (at_most_process_count ceilings <? process_count limits)
  || (output_bytes limits =? 0) || (at_most_output_bytes ceilings <? output_bytes limits)
  || negb (device_count limits =? devices) || negb (bool_decide (network limits = NetworkDisabled)).

(** [validate_limits] of [ascend.rs] and of [ascend_build.rs]. *)
Definition validate_ascend_limits (timeout : N) (limits : option ResourceContract) (ceilings : AscendResourceCeilings) :
    result AscendContractError unit :=
  limits ← ok_or limits AscendAssignment;
  guard_err (limits_refused timeout limits ceilings 1) AscendAssignment.

Definition validate_build_limits (assignment : AssignmentContract) (ceilings : AscendResourceCeilings) :
    result AscendBuildContractError unit :=
  let execution := ac_execution assignment in
  limits ← ok_or (limits execution) BuildAssignment;
  guard_err (limits_refused (timeout_ms execution) limits ceilings 0) BuildAssignment.

(** [validate_attempt_id] of [ascend.rs] and of [ascend_build.rs]. *)
Definition validate_ascend_attempt_id (attempt_id : string) : result AscendContractError unit :=
  guard_err (bool_decide (attempt_id = EmptyString) || (64 <? String.length attempt_id)%nat
             || negb (all_bytes safe_id_byte attempt_id)) AscendAssignment.

Definition validate_build_attempt_id (value : string) : result AscendBuildContractError unit :=
  guard_err (bool_decide (value = ".") || bool_decide (value = "..") || negb (all_bytes safe_id_byte value))
    BuildAssignment.

(** What an image of an assignment has to be. *)
Definition image_refused (image : ArtifactDescriptor) (digest : Sha256Digest) (media_type : string) : bool :=
  negb (bool_decide (ad_digest image = digest)) || negb (bool_decide (ad_media_type image = media_type)).

(** [AscendFixturePolicy::validate_assignment]. *)
Definition validate_ascend_assignment (policy : AscendFixturePolicy) (assignment : AssignmentContract) :
    result AscendContractError unit :=
  let execution := ac_execution assignment in
  _ ← guard_err (negb (bool_decide (executor_kind execution = AscendFixture))) AscendAssignment;
  _ ← guard_err (negb (bool_decide (ac_required_features assignment = [ASCEND_FIXTURE_FEATURE]))) AscendAssignment;
  _ ← guard_err (negb (bool_decide (argv execution = [afp_fixture_id policy]))) AscendAssignment;
  _ ← guard_err (negb (bool_decide (working_directory execution = "."))) AscendAssignment;
  _ ← guard_err (negb (bool_decide (environment execution = []))) AscendAssignment;
  _ ← validate_ascend_attempt_id (as_str (ac_attempt_id assignment));
  _ ← guard_err (negb (bool_decide (ad_digest (bundle execution) = afp_bundle_digest policy))
                 || negb (bool_decide (ad_media_type (bundle execution) = ASCEND_FIXTURE_BUNDLE_MEDIA_TYPE)))
        AscendAssignment;
  _ ← guard_err (image_refused (image execution) (afp_image_manifest_digest policy) (afp_image_media_type policy))
        AscendAssignment;
  validate_ascend_limits (timeout_ms execution) (limits execution) (afp_ceilings policy).

(** [AscendBuildPolicy::validate_assignment]. *)
Definition validate_build_assignment (policy : AscendBuildPolicy) (assignment : AssignmentContract) :
    result AscendBuildContractError unit :=
  let execution := ac_execution assignment in
  _ ← validate_build_attempt_id (as_str (ac_attempt_id assignment));
  _ ← guard_err (negb (bool_decide (executor_kind execution = AscendBuild))
                 || negb (bool_decide (ac_required_features assignment = [ASCEND_BUILD_FEATURE]))
                 || negb (bool_decide (argv execution = ["build-v1"]))
                 || negb (bool_decide (working_directory execution = "."))
                 || negb (bool_decide (environment execution = []))) BuildAssignment;
  _ ← guard_err (negb (bool_decide (ad_media_type (bundle execution) = ASCEND_BUILD_BUNDLE_MEDIA_TYPE))
                 || (ad_size_bytes (bundle execution) =? 0)
                 || (MAX_BUILD_BUNDLE_BYTES <? ad_size_bytes (bundle execution))) BuildAssignment;
  _ ← guard_err (image_refused (image execution) (abp_image_manifest_digest policy) (abp_image_media_type policy))
        BuildAssignment;
  validate_build_limits assignment (abp_ceilings policy).

(** ** Containers *)

(** The name of the container of an attempt. *)
Definition alloyport_name (assignment : AssignmentContract) : string := "alloyport-" +:+ as_str (ac_attempt_id assignment).

(** The arguments the three Ascend plans begin with, up to the devices. *)
Definition ascend_argv (assignment : AssignmentContract) (limits : ResourceContract) (directory driver_path : string) :
    list string :=
  let execution := ac_execution assignment in
  [ "create";
    "--name"; alloyport_name assignment;
    "--label"; "alloyport.attempt=" +:+ as_str (ac_attempt_id assignment);
    "--label"; "alloyport.bundle=" +:+ digest_display (ad_digest (bundle execution));
    "--label"; "alloyport.image=" +:+ digest_display (ad_digest (image execution));
    "--network"; "none";
    "--read-only";
    "--cap-drop"; "ALL";
    "--cap-add"; "DAC_OVERRIDE";
    "--security-opt"; "no-new-privileges";
    "--cpu-period"; "100000";
    "--cpu-quota"; pretty (N.min u64_max (cpu_millis limits * 100));
    "--memory"; pretty (memory_bytes limits);
    "--pids-limit"; pretty (process_count limits);
    "--log-driver"; "json-file";
    "--log-opt"; "max-size=" +:+ pretty (output_bytes limits);
    "--log-opt"; "max-file=2";
    "--mount"; bundle_mount directory;
    "--mount"; "type=bind,src=" +:+ driver_path +:+ ",dst=" +:+ DRIVER_PATH +:+ ",readonly" ].

(** The devices of a plan. *)
Definition device_argv (nodes : list string) : list string :=
  mjoin ((fun node => ["--device"; node +:+ ":" +:+ node +:+ ":rwm"]) <$> nodes).

(** What they end with; a build has no visible device. *)
Definition ascend_tail (limits : ResourceContract) (visible : option string) (image_reference runner : string) : list string :=
  [ "--tmpfs"; CONTAINER_WORK_PATH +:+ ":rw,exec,size=" +:+ pretty (disk_bytes limits);
    "--workdir"; CONTAINER_WORK_PATH ]
  ++ match visible with Some device_id => ["--env"; "ASCEND_RT_VISIBLE_DEVICES=" +:+ device_id] | None => [] end
  ++ [ "--env"; "TMPDIR=" +:+ CONTAINER_WORK_PATH +:+ "/tmp";
       "--env"; "HOME=" +:+ CONTAINER_WORK_PATH +:+ "/home";
       "--env"; "ASCEND_PROCESS_LOG_PATH=" +:+ CONTAINER_WORK_PATH +:+ "/log";
       "--entrypoint"; "python3";
       image_reference;
       CONTAINER_BUNDLE_PATH +:+ "/" +:+ runner ].

(** [AscendFixturePolicy::docker_create_plan]. *)
Definition ascend_docker_create_plan (policy : AscendFixturePolicy) (assignment : AssignmentContract)
    (sandbox : AscendSandbox) : result AscendContractError AscendDockerCreatePlan :=
  _ ← validate_ascend_assignment policy assignment;
  limits ← ok_or (limits (ac_execution assignment)) AscendAssignment;
  Ok (MkAscendPlan (alloyport_name assignment) (afp_image_reference policy) (afp_image_id policy) (afp_device policy)
    (afp_environment policy)
    (ascend_argv assignment limits (asb_directory sandbox) (afp_driver_path policy)
     ++ device_argv (afp_device_nodes policy)
     ++ ascend_tail limits (Some (acc_device_id (afp_device policy))) (afp_image_reference policy) RUNNER_FILENAME)).

(** [AscendBuildPolicy::docker_create_plan]. *)
Definition build_docker_create_plan (policy : AscendBuildPolicy) (assignment : AssignmentContract)
    (sandbox : AscendBuildSandbox) : result AscendBuildContractError AscendDockerCreatePlan :=
  _ ← validate_build_assignment policy assignment;
  limits ← ok_or (limits (ac_execution assignment)) BuildAssignment;
  Ok (MkAscendPlan (alloyport_name assignment) (abp_image_reference policy) (abp_image_id policy) (abp_device policy)
    (abp_environment policy)
    (ascend_argv assignment limits (bsb_directory sandbox) (abp_driver_path policy)
     ++ ascend_tail limits None (abp_image_reference policy) BUILD_RUNNER_FILENAME)).
