(* ===== verification/CorrectnessContract.v ===== *)
(** * The contract of the correctness containers

    [src/crates/alloyport-worker/src/reduction_correctness.rs]: the local
    policy of a trusted correctness runner, for the CUDA reference and for
    the Ascend candidate, the assignments it admits and the container it
    creates for them.  The materialization of the bundle is in
    Sandboxes.v. *)

From Stdlib Require Import Ascii.
From stdpp Require Import base strings pretty gmap list.
From S2P Require Import Prelude Text Digest Identity Vocabulary ReductionRun WorkerJournal Artifacts Containers CudaContract AscendContract.

Local Open Scope N_scope.

Definition BUNDLE_FILENAME : string := "execution-bundle.json".
Definition CONFIG_FILENAME : string := "runner-config.json".
Definition CORRECTNESS_RUNNER_FILENAME : string := "run_correctness.py".
Definition MAX_EXECUTION_BUNDLE_BYTES : N := 32 * 1024 * 1024.
Definition CUDA_REDUCTION_CORRECTNESS_FEATURE : string := "cuda-reduction-correctness-v1".
Definition ASCEND_REDUCTION_CORRECTNESS_FEATURE : string := "ascend-reduction-correctness-v1".
Definition REDUCTION_EXECUTION_BUNDLE_MEDIA_TYPE : string := "application/vnd.alloyport.reduction-execution-bundle.v1+json".

(** [struct CorrectnessResourceCeilings], which has the fields of the
    ceilings of the Ascend policies. *)
Definition CorrectnessResourceCeilings : Type := AscendResourceCeilings.

(** [struct CudaEnvironmentFacts]. *)
Record CudaEnvironmentFacts := MkEnvironmentFacts {
  cf_architecture : string;
  cf_driver_version : string;
  cf_toolkit_version : string;
}.

(** [struct AscendBackendPolicy] and [enum BackendPolicy]. *)
Record AscendBackendPolicy := MkAscendBackend {
  ab_device : AcceleratorDevice;
  ab_device_nodes : list string;
  ab_driver_path : string;
  ab_environment : AscendEnvironmentFacts;
}.

Inductive BackendPolicy :=
| BackendCuda (device_id : string)
| BackendAscend (policy : AscendBackendPolicy).

(** [struct ReductionCorrectnessPolicy]. *)
Record ReductionCorrectnessPolicy := MkCorrectness {
  rp_backend : BackendPolicy;
  rp_image_manifest_digest : Sha256Digest;
  rp_image_media_type : string;
  rp_image_reference : string;
  rp_image_id : Sha256Digest;
  rp_sandbox_root : string;
  rp_ceilings : CorrectnessResourceCeilings;
  rp_environment_digest : Sha256Digest;
}.

(** [enum CorrectnessContractError]. *)
Inductive CorrectnessContractError :=
| CorrectnessInvalidPolicy | CorrectnessAssignment | CorrectnessArtifact | CorrectnessBundle
| CorrectnessWrongBackend | CorrectnessUnsafePath | CorrectnessIo | CorrectnessJson.

(** [struct CorrectnessSandbox]. *)
Record CorrectnessSandbox := MkCorrectnessSandbox { csb_directory : string; csb_implementation_digest : Sha256Digest }.

(** [serde_json::to_vec] on the facts of an environment. *)
Class EnvironmentJson := {
  cuda_facts_to_vec : CudaEnvironmentFacts -> option bytes;
  ascend_facts_to_vec : AscendEnvironmentFacts -> option bytes;
}.

(** [validate_ceilings], [validate_limits] and [validate_attempt_id]. *)
Definition validate_ceilings (ceilings : CorrectnessResourceCeilings) : result CorrectnessContractError unit :=
  guard_err ((at_most_timeout_ms ceilings =? 0) || (at_most_cpu_millis ceilings =? 0)
             || (at_most_memory_bytes ceilings =? 0) || (at_most_disk_bytes ceilings <? MINIMUM_DISK_BYTES)
             || (at_most_process_count ceilings =? 0) || (at_most_output_bytes ceilings =? 0))
    CorrectnessInvalidPolicy.

Definition validate_correctness_limits (assignment : AssignmentContract) (ceilings : CorrectnessResourceCeilings) :
    result CorrectnessContractError unit :=
  let execution := ac_execution assignment in
  limits ← ok_or (limits execution) CorrectnessAssignment;
  guard_err (limits_refused (timeout_ms execution) limits ceilings 1) CorrectnessAssignment.

Definition validate_correctness_attempt_id (value : string) : result CorrectnessContractError unit :=
  guard_err (bool_decide (value = EmptyString) || (128 <? String.length value)%nat
             || negb (all_bytes safe_id_byte value)) CorrectnessAssignment.

(** [validate_ascend_device] and [validate_ascend_nodes]. *)
Definition validate_ascend_device (device : AcceleratorDevice) (environment : AscendEnvironmentFacts) :
    result CorrectnessContractError unit := guard_err (device_mismatch device environment) CorrectnessInvalidPolicy.

Definition validate_ascend_nodes (device_id : string) (nodes : list string) : result CorrectnessContractError unit :=
  validate_nodes CorrectnessInvalidPolicy device_id nodes.

(** ** The policy *)

Section policy.
Context `{Sha256} `{EnvironmentJson}.

(** [ReductionCorrectnessPolicy::new], given the encoded environment. *)
Definition correctness_policy_new (backend : BackendPolicy) (image_manifest_digest : Sha256Digest)
    (image_reference : string) (image_id : Sha256Digest) (sandbox_root : string)
    (ceilings : CorrectnessResourceCeilings) (environment : option bytes) :
    result CorrectnessContractError ReductionCorrectnessPolicy :=
  image_media_type ← map_err (fun _ => CorrectnessInvalidPolicy)
    (image_artifact_media_type image_reference image_manifest_digest image_id);
  _ ← guard_err (unsafe_root sandbox_root) CorrectnessInvalidPolicy;
  _ ← validate_ceilings ceilings;
  environment ← ok_or environment CorrectnessJson;
  Ok (MkCorrectness backend image_manifest_digest image_media_type image_reference image_id sandbox_root ceilings
        (digest_bytes environment)).

(** [ReductionCorrectnessPolicy::new_cuda] and [new_ascend]. *)
Definition correctness_new_cuda (image_manifest_digest : Sha256Digest) (image_reference : string)
    (image_id : Sha256Digest) (device_id sandbox_root : string) (ceilings : CorrectnessResourceCeilings)
    (environment : CudaEnvironmentFacts) : result CorrectnessContractError ReductionCorrectnessPolicy :=
  _ ← guard_err (trim_is_empty device_id || contains "," device_id) CorrectnessInvalidPolicy;
  correctness_policy_new (BackendCuda device_id) image_manifest_digest image_reference image_id sandbox_root ceilings
    (cuda_facts_to_vec environment).

Definition correctness_new_ascend (image_manifest_digest : Sha256Digest) (image_reference : string)
    (image_id : Sha256Digest) (device : AcceleratorDevice) (device_nodes : list string)
    (driver_path sandbox_root : string) (ceilings : CorrectnessResourceCeilings) (environment : AscendEnvironmentFacts) :
    result CorrectnessContractError ReductionCorrectnessPolicy :=
  _ ← validate_ascend_device device environment;
  _ ← validate_ascend_nodes (acc_device_id device) device_nodes;
  let device_nodes := sort_by_key (fun node => node) device_nodes in
  _ ← guard_err (negb (path_eq driver_path DRIVER_PATH)) CorrectnessInvalidPolicy;
  correctness_policy_new (BackendAscend (MkAscendBackend device device_nodes driver_path environment))
    image_manifest_digest image_reference image_id sandbox_root ceilings (ascend_facts_to_vec environment).

End policy.

(** [role], [executor_kind], [device_id], [ascend_device] and
    [ascend_environment] of the policy. *)
Definition correctness_role (policy : ReductionCorrectnessPolicy) : ReductionRunRole :=
  match rp_backend policy with BackendCuda _ => CudaReference | BackendAscend _ => AscendCandidate end.

Definition correctness_executor_kind (policy : ReductionCorrectnessPolicy) : ExecutionKind :=
  match rp_backend policy with BackendCuda _ => CudaCorrectness | BackendAscend _ => AscendCorrectness end.

Definition correctness_device_id (policy : ReductionCorrectnessPolicy) : string :=
  match rp_backend policy with BackendCuda device_id => device_id | BackendAscend policy => acc_device_id (ab_device policy) end.

Definition correctness_ascend_device (policy : ReductionCorrectnessPolicy) : option AcceleratorDevice :=
  match rp_backend policy with BackendCuda _ => None | BackendAscend policy => Some (ab_device policy) end.

Definition correctness_ascend_environment (policy : ReductionCorrectnessPolicy) : option AscendEnvironmentFacts :=
  match rp_backend policy with BackendCuda _ => None | BackendAscend policy => Some (ab_environment policy) end.

(** ** Assignments *)

(** [ReductionCorrectnessPolicy::validate_assignment]. *)
Definition validate_correctness_assignment (policy : ReductionCorrectnessPolicy) (assignment : AssignmentContract) :
    result CorrectnessContractError unit :=
  let '(feature, executor) := match correctness_role policy with
    | CudaReference => (CUDA_REDUCTION_CORRECTNESS_FEATURE, CudaCorrectness)
    | AscendCandidate => (ASCEND_REDUCTION_CORRECTNESS_FEATURE, AscendCorrectness)
    end in
  let execution := ac_execution assignment in
  _ ← validate_correctness_attempt_id (as_str (ac_attempt_id assignment));
  _ ← guard_err (negb (bool_decide (executor_kind execution = executor))
                 || negb (bool_decide (ac_required_features assignment = [feature]))
                 || negb (bool_decide (argv execution = ["reduction-correctness-v1"]))
                 || negb (bool_decide (working_directory execution = "."))
                 || negb (bool_decide (environment execution = []))) CorrectnessAssignment;
  _ ← guard_err (negb (bool_decide (ad_media_type (bundle execution) = REDUCTION_EXECUTION_BUNDLE_MEDIA_TYPE))
                 || (ad_size_bytes (bundle execution) =? 0)
                 || (MAX_EXECUTION_BUNDLE_BYTES <? ad_size_bytes (bundle execution))) CorrectnessAssignment;
  _ ← guard_err (image_refused (image execution) (rp_image_manifest_digest policy) (rp_image_media_type policy))
        CorrectnessAssignment;
  validate_correctness_limits assignment (rp_ceilings policy).

(** ** Containers *)

(** [ReductionCorrectnessPolicy::cuda_docker_create_plan]. *)
Definition correctness_cuda_plan (policy : ReductionCorrectnessPolicy) (assignment : AssignmentContract)
    (sandbox : CorrectnessSandbox) : result CorrectnessContractError DockerCreatePlan :=
  _ ← validate_correctness_assignment policy assignment;
  match rp_backend policy with
  | BackendAscend _ => Err CorrectnessWrongBackend
  | BackendCuda device_id =>
      limits ← ok_or (limits (ac_execution assignment)) CorrectnessAssignment;
      let work_bytes := saturating_sub (disk_bytes limits) CUDA_TEMP_BYTES in
      Ok (MkPlan (alloyport_name assignment) (rp_image_reference policy) (rp_image_id policy) device_id
        [ "create";
          "--name"; alloyport_name assignment;
          "--label"; "alloyport.attempt=" +:+ as_str (ac_attempt_id assignment);
          "--label"; "alloyport.bundle=" +:+ digest_display (ad_digest (bundle (ac_execution assignment)));
          "--label"; "alloyport.image=" +:+ digest_display (ad_digest (image (ac_execution assignment)));
          "--network"; "none";
          "--read-only";
          "--cap-drop"; "ALL";
          "--security-opt"; "no-new-privileges";
          "--log-driver"; "json-file";
          "--log-opt"; "max-size=" +:+ pretty (output_bytes limits);
          "--log-opt"; "max-file=2";
          "--cpu-period"; "100000";
          "--cpu-quota"; pretty (N.min u64_max (cpu_millis limits * 100));
          "--memory"; pretty (memory_bytes limits);
          "--pids-limit"; pretty (process_count limits);
          "--gpus"; "device=" +:+ device_id;
          "--mount"; bundle_mount (csb_directory sandbox);
          "--tmpfs"; CONTAINER_WORK_PATH +:+ ":rw,exec,size=" +:+ pretty work_bytes;
          "--tmpfs"; "/tmp:rw,exec,size=" +:+ pretty CUDA_TEMP_BYTES;
          "--workdir"; CONTAINER_WORK_PATH;
          "--entrypoint"; "python3";
          rp_image_reference policy;
          CONTAINER_BUNDLE_PATH +:+ "/" +:+ CORRECTNESS_RUNNER_FILENAME ])
  end.

(** [ReductionCorrectnessPolicy::ascend_docker_create_plan]. *)
Definition correctness_ascend_plan (policy : ReductionCorrectnessPolicy) (assignment : AssignmentContract)
    (sandbox : CorrectnessSandbox) : result CorrectnessContractError AscendDockerCreatePlan :=
  _ ← validate_correctness_assignment policy assignment;
  match rp_backend policy with
  | BackendCuda _ => Err CorrectnessWrongBackend
  | BackendAscend backend =>
      limits ← ok_or (limits (ac_execution assignment)) CorrectnessAssignment;
      Ok (MkAscendPlan (alloyport_name assignment) (rp_image_reference policy) (rp_image_id policy) (ab_device backend)
        (ab_environment backend)
        (ascend_argv assignment limits (csb_directory sandbox) (ab_driver_path backend)
         ++ device_argv (ab_device_nodes backend)
         ++ ascend_tail limits (Some (acc_device_id (ab_device backend))) (rp_image_reference policy)
              CORRECTNESS_RUNNER_FILENAME))
  end.
