(* ===== verification/Effects.v ===== *)
(** * The effects of an execution

    Of [src/crates/alloyport-worker/src]: what the executors of
    [executor.rs], the supervisors and runtimes of both accelerators and
    [ascend_device_guard.rs] ask of their surroundings, the errors they return and
    the programs they are.  A program is a tree of effects: an
    [await] is one effect, and what happens between two effects of a task
    belongs to other tasks.  Storage failures of the journal end a task like
    its cancellation does, so no effect returns them. *)

From stdpp Require Import base strings list.
From S2P Require Import Prelude Text Digest Identity Vocabulary Artifacts Uploads RunEvents WorkerJournal WorkerSession WorkerUpdates Devices Containers CudaContract AscendContract CorrectnessContract.

Local Open Scope N_scope.

(** ** Data *)

(** [struct ExecutorInput]; the environment is a [BTreeMap] nothing reads. *)
Record ExecutorInput := MkInput {
  xi_assignment_id : string;
  xi_attempt_id : string;
  xi_task_id : string;
  xi_candidate_id : string;
  xi_argv : list string;
  xi_working_directory : string;
  xi_timeout_ms : N;
  xi_output_limit_bytes : N;
}.

(** [From<&StoredAssignment> for ExecutorInput]. *)
Definition executor_input (assignment : AssignmentContract) : ExecutorInput :=
  let execution := ac_execution assignment in
  MkInput (as_str (ac_assignment_id assignment)) (as_str (ac_attempt_id assignment)) (as_str (ac_task_id assignment))
    (as_str (ac_candidate_id assignment)) (argv execution) (working_directory execution) (timeout_ms execution)
    (match limits execution with Some limits => output_bytes limits | None => u64_max end).

(** [struct ArtifactReferenceIntent]. *)
Record ArtifactReferenceIntent := MkIntent {
  ri_reference_key : string;
  ri_kind : ArtifactReferenceKind;
  ri_purpose : string;
  ri_artifact : ArtifactDescriptor;
}.

#[export] Instance ArtifactReferenceIntent_eq_dec : EqDecision ArtifactReferenceIntent.
Proof. solve_decision. Defined.

(** [struct ExecutionRun]; its events are pushed one by one. *)
Record ExecutionRun := MkExecutionRun {
  xr_finished : StoredFinished;
  xr_reference_intents : list ArtifactReferenceIntent;
  xr_replayed_terminal : bool;
}.

(** [struct ContainerLogChunk] *)
Record ContainerLogChunk := MkLogChunk { lc_stderr : bool; lc_byte_offset : N; lc_bytes : bytes }.

(** ** Errors *)

(** [enum ArtifactInputError] and [enum ArtifactPublicationError]. *)
Inductive ArtifactInputError := InputInvalid | InputPolicy | InputUnavailable | InputIntegrity | InputInternal.

Inductive ArtifactPublicationError :=
| PublicationLocalArtifact | PublicationUnavailable | PublicationRejected | PublicationInternal.

(** [enum DeviceGuardError]. *)
Inductive DeviceGuardError :=
| GuardJournal
| GuardProbeRetained (error : DeviceStatusError)
| GuardOccupied (observation : DeviceObservation)
| GuardNotReadyRetained (observation : DeviceObservation)
| GuardOccupiedRetained (observation : DeviceObservation)
| GuardRecoveryRetained (error : DeviceStatusError)
| GuardRecoveryIncompleteRetained (before after : DeviceObservation).

(** [enum ContainerReconcileError]. *)
Inductive ContainerReconcileError :=
| ReconcileEngine (error : ContainerEngineError)
| ReconcileMissingAfterCreate
| ReconcileIdentityConflict
| ReconcileUnexpectedCreatedPhase (phase : ContainerPhase).

(** [enum CudaSupervisorError] and [enum AscendSupervisorError], which
    differ in the contracts they can violate. *)
Inductive ContractError :=
| ViolatedCuda (error : CudaContractError)
| ViolatedAscend (error : AscendContractError)
| ViolatedBuild (error : AscendBuildContractError)
| ViolatedCorrectness (error : CorrectnessContractError).

Inductive SupervisorError :=
| SupervisorContract (error : ContractError)
| SupervisorEngine (error : ContainerEngineError)
| SupervisorInvariant
| SupervisorImageMismatch (expected actual : string)
| SupervisorIdentityConflict.

(** [enum ExecutionRuntimeError]; of [WorkerError] an executor only sees the
    errors of the journal. *)
Inductive ExecutionRuntimeError :=
| RuntimeWorker (error : AttemptStoreError)
| RuntimeArtifact (error : ArtifactStoreError)
| RuntimeArtifactInput (error : ArtifactInputError)
| RuntimeSerialization
| RuntimeBackend (error : BackendError)
| RuntimeArtifactPublication (error : ArtifactPublicationError)
| RuntimeCleanupAfterCommit
| RuntimeInvalidConfiguration
| RuntimeAttemptAlreadyRunning (attempt_id : string)
| RuntimeMissingAttempt (attempt_id : string)
| RuntimeMissingTerminalData (attempt_id : string)
| RuntimeTaskJoin.

(** [From<DeviceStatusError> for BackendError] and its siblings. *)
Definition device_backend_error (error : DeviceStatusError) : BackendError :=
  match error with
  | DeviceInvalidConfiguration => Policy
  | DeviceUnavailable | DeviceRecoveryUnsupported => Retryable
  | DeviceInvalidResponse => Integrity
  | DeviceInternal => Terminal
  end.

Definition input_backend_error (error : ArtifactInputError) : BackendError :=
  match error with
  | InputUnavailable => Retryable
  | InputInvalid | InputPolicy => Policy
  | InputIntegrity => Integrity
  | InputInternal => Terminal
  end.

Definition publication_backend_error (error : ArtifactPublicationError) : BackendError :=
  match error with
  | PublicationUnavailable => Retryable
  | PublicationRejected => Policy
  | PublicationLocalArtifact => Integrity
  | PublicationInternal => Terminal
  end.

Definition guard_backend_error (error : DeviceGuardError) : BackendError := Retryable.

(** [From<CudaSupervisorError> for BackendError] and
    [From<AscendSupervisorError> for BackendError]. *)
Definition contract_backend_error (error : ContractError) : BackendError :=
  match error with
  | ViolatedCuda (CudaInvalidPolicy | CudaAssignment) => Policy
  | ViolatedCuda (CudaDigest | CudaArtifact | CudaBundle | CudaJson) => Integrity
  | ViolatedCuda CudaIo => Retryable
  | ViolatedAscend (AscendInvalidPolicy | AscendAssignment) => Policy
  | ViolatedAscend (AscendArtifact | AscendBundle | AscendJson) => Integrity
  | ViolatedAscend AscendIo => Retryable
  | ViolatedBuild (BuildInvalidPolicy | BuildAssignment) => Policy
  | ViolatedBuild (BuildArtifact | BuildBundle | BuildUnsafePath | BuildJson) => Integrity
  | ViolatedBuild BuildIo => Retryable
  | ViolatedCorrectness (CorrectnessInvalidPolicy | CorrectnessAssignment | CorrectnessWrongBackend) => Policy
  | ViolatedCorrectness (CorrectnessArtifact | CorrectnessBundle | CorrectnessUnsafePath | CorrectnessJson) => Integrity
  | ViolatedCorrectness CorrectnessIo => Retryable
  end.

Definition supervisor_backend_error (error : SupervisorError) : BackendError :=
  match error with
  | SupervisorContract error => contract_backend_error error
  | SupervisorEngine error => engine_backend_error error
  | SupervisorInvariant => Terminal
  | SupervisorImageMismatch _ _ | SupervisorIdentityConflict => Integrity
  end.

(** [From<WorkerError> for BackendError] on the errors of the journal. *)
Definition store_backend_error (error : AttemptStoreError) : BackendError :=
  match error with
  | Storage | DeviceAlreadyLeased _ _ => Retryable
  | ConflictingAttempt _ | ConflictingFinished _ | ConflictingOutboxMessage _ | WorkerIdentityMismatch _ _
  | ConflictingDeviceLease _ _ | ConflictingDevicePreflight _ | Corrupt => Integrity
  | NotFound _ | InvalidTransition _ _ => Terminal
  end.

(** [From<ExecutionRuntimeError> for BackendError]. *)
Definition runtime_backend_error (error : ExecutionRuntimeError) : BackendError :=
  match error with
  | RuntimeWorker error => store_backend_error error
  | RuntimeArtifact (ArtifactIo _) => Retryable
  | RuntimeArtifact (SizeLimitExceeded _ _) => Policy
  | RuntimeArtifact (SizeMismatch _ _ | DigestMismatch _ _ | ArtifactIntegrity _) => Integrity
  | RuntimeArtifactInput error => input_backend_error error
  | RuntimeSerialization => Terminal
  | RuntimeBackend error => error
  | RuntimeArtifactPublication error => publication_backend_error error
  | RuntimeCleanupAfterCommit => Retryable
  | RuntimeInvalidConfiguration => Policy
  | RuntimeAttemptAlreadyRunning _ => Retryable
  | RuntimeMissingAttempt _ | RuntimeMissingTerminalData _ => Terminal
  | RuntimeTaskJoin => Retryable
  end.

(** [From<ContainerReconcileError>] for both. *)
Definition reconcile_supervisor_error (error : ContainerReconcileError) : SupervisorError :=
  match error with
  | ReconcileEngine error => SupervisorEngine error
  | ReconcileMissingAfterCreate => SupervisorInvariant
  | ReconcileIdentityConflict => SupervisorIdentityConflict
  | ReconcileUnexpectedCreatedPhase _ => SupervisorInvariant
  end.

(** ** Effects *)

(** Which of the futures of [supervise_running_container] is ready, in the
    order of its biased [select!]. *)
Inductive Ready := ReadyCancelled | ReadyTimeout | ReadyExit (exit : result ContainerEngineError ContainerExit).
Inductive ReadyOrLogs := ReadyFirst (ready : Ready) | ReadyLogs (logs : result ContainerEngineError ContainerLogs).

(** What [OpenOptions::create_new] or [fs::create_dir] did. *)
Inductive Creation := FileCreated | FileExists | FileFailed.

(** What a send of the fake executor races with. *)
Inductive SendReady := SendCancelled | SendTimedOut | SendAccepted | SendClosed.
Inductive DelayReady := DelayCancelled | DelayTimedOut | DelayElapsed.

(** What [symlink_metadata] and [DirEntry::file_type] tell of a path. *)
Inductive FileKind := KindFile | KindDirectory | KindSymlink | KindOther.

#[export] Instance FileKind_eq_dec : EqDecision FileKind.
Proof. solve_decision. Defined.

(** The plans the engines create containers from. *)
Inductive ContainerPlan :=
| CudaPlan (plan : DockerCreatePlan)
| AscendPlan (plan : AscendDockerCreatePlan).

Definition plan_container_name (plan : ContainerPlan) : string :=
  match plan with CudaPlan plan => dp_container_name plan | AscendPlan plan => ap_container_name plan end.

Definition plan_expected_image_id (plan : ContainerPlan) : Sha256Digest :=
  match plan with CudaPlan plan => dp_expected_image_id plan | AscendPlan plan => ap_expected_image_id plan end.

(** JSON values do not occur in the events of an executor. *)
Definition WorkerEvent : Type := Event Empty_set.

(** The operations of [trait CudaContainerEngine] and of
    [trait AscendContainerEngine], which differ in their plans. *)
Inductive EngineCall : Type -> Type :=
| ResolveImage (plan : ContainerPlan) : EngineCall (result ContainerEngineError string)
| InspectContainer (name : string) : EngineCall (result ContainerEngineError (option ContainerSnapshot))
| CreateContainer (plan : ContainerPlan) (identity : ContainerIdentity) : EngineCall (result ContainerEngineError unit)
| StartContainer (name : string) : EngineCall (result ContainerEngineError unit)
| WaitContainer (name : string) : EngineCall (result ContainerEngineError ContainerExit)
| StopContainer (name : string) : EngineCall (result ContainerEngineError unit)
| ReadLogs (name : string) (limit : N) : EngineCall (result ContainerEngineError ContainerLogs)
| FollowLogs (name : string) (limit : N) : EngineCall (list ContainerLogChunk * result ContainerEngineError ContainerLogs)
| StreamsLive : EngineCall bool
| SelectFollowing (name : string) (timeout limit : N) : EngineCall (list ContainerLogChunk * ReadyOrLogs)
| SelectFollowed (name : string) (timeout : N) : EngineCall Ready
| RemoveContainer (name : string) : EngineCall (result ContainerEngineError unit).

Inductive Effect : Type -> Type :=
(* the attempts claimed in this process *)
| AcquireClaim (attempt_id : string) : Effect bool
| DropClaim (attempt_id : string) : Effect unit
(* the journal *)
| FindAttempt (attempt_id : string) : Effect (option LocalAttemptRecord)
| MarkRunning (attempt_id : string) : Effect (result AttemptStoreError unit)
| MarkFinished (attempt_id : string) (finished : StoredFinished) : Effect (result AttemptStoreError unit)
| AcquireLease (attempt_id : AttemptId) (device_id : string) : Effect (result AttemptStoreError DeviceLeaseOutcome)
| ReleaseLease (attempt_id : AttemptId) : Effect (result AttemptStoreError DeviceReleaseOutcome)
| ActiveLeases : Effect (result AttemptStoreError (list DeviceLease))
| RecordPreflight (attempt_id : AttemptId) (observation : DeviceObservation) :
    Effect (result AttemptStoreError DevicePreflightOutcome)
| FindPreflight (attempt_id : AttemptId) : Effect (option DeviceObservation)
(* the devices *)
| SnapshotDevices : Effect (result DeviceStatusError (list DeviceObservation))
| ObserveDevice (device_id : string) : Effect (result DeviceStatusError DeviceObservation)
| RecoverDevice (device_id : string) : Effect (result DeviceStatusError DeviceObservation)
(* the containers *)
| OnEngine {X : Type} (call : EngineCall X) : Effect X
(* artifacts and files *)
| ProvideInput (artifact : ArtifactDescriptor) : Effect (result ArtifactInputError unit)
| OpenArtifact (digest : Sha256Digest) : Effect (result ArtifactStoreError ArtifactReader)
| IngestArtifact (content : bytes) : Effect (result ArtifactStoreError IngestResult)
| CreateDirectory (path : string) : Effect bool
| MakeDirectory (path : string) : Effect Creation
| SymlinkMetadata (path : string) : Effect (option FileKind)
| ReadDirectory (path : string) : Effect (option (list (string * FileKind)))
| CreateNew (path : string) : Effect Creation
| WriteAll (path : string) (content : bytes) : Effect bool
| SyncAll (path : string) : Effect bool
| ReadFile (path : string) : Effect (option bytes)
| Publish (references : list ArtifactReferenceIntent) : Effect (result ArtifactPublicationError unit)
(* the fake executor *)
| SendChunk (timeout : N) : Effect SendReady
| Delay (timeout duration_ms : N) : Effect DelayReady
(* observers *)
| Observe (observation : ExecutionObservation) : Effect unit
| PushEvent (worker_id : string) (input : ExecutorInput) (event : WorkerEvent) : Effect unit.

(** ** Programs *)

Inductive Prog (A : Type) : Type :=
| Done (a : A)
| Do {X : Type} (e : Effect X) (k : X -> Prog A).
Arguments Done {A} a.
Arguments Do {A X} e k.

Fixpoint prog_bind {A B} (p : Prog A) (f : A -> Prog B) : Prog B :=
  match p with
  | Done a => f a
  | Do e k => Do e (fun x => prog_bind (k x) f)
  end.

(** An [async fn] that returns a [Result]. *)
Definition Exec (E A : Type) : Type := Prog (result E A).

#[export] Instance exec_ret E : MRet (Exec E) := fun A a => Done (Ok a).
#[export] Instance exec_bind E : MBind (Exec E) := fun A B f m =>
  prog_bind m (fun r => match r with Ok a => f a | Err e => Done (Err e) end).

Definition exec_fail {E A} (e : E) : Exec E A := Done (Err e).
Definition exec_lift {E A} (r : result E A) : Exec E A := Done r.
Definition exec_map_err {E F A} (f : E -> F) (m : Exec E A) : Exec F A :=
  prog_bind m (fun r => Done (map_err f r)).

(** An effect that cannot fail, and one whose error is converted. *)
Definition ask {E X} (e : Effect X) : Exec E X := Do e (fun x => Done (Ok x)).
Definition attempt_effect {E F X} (f : F -> E) (e : Effect (result F X)) : Exec E X :=
  Do e (fun r => Done (map_err f r)).
