(* ===== verification/Sandboxes.v ===== *)
(** * The sandboxes of an execution

    Of [src/crates/alloyport-worker/src]: how the policies of [cuda.rs],
    [ascend.rs], [ascend_build.rs] and [reduction_correctness.rs] read the
    bundle of an assignment and write it into the directory of its attempt,
    which the container mounts.  What [serde_json] decodes and the texts of
    the runners are parameters; the deserializers the code has are applied
    to the documents it decodes.

    The last part is what the sandboxes use of [std::fs].  A path is the list
    of its components; a link is told apart from what it leads to, which is
    outside of the model.  Nothing there fails for want of space or of
    permission: those failures end an execution like a failed effect of the
    programs does. *)

From Stdlib Require Import Ascii.
From stdpp Require Import base strings gmap sets list.
From S2P Require Import Prelude Text Digest Encoding Identity Migration ReductionRun Vocabulary BuildGate WorkerJournal Artifacts CudaContract AscendContract CorrectnessContract Effects.

Local Open Scope N_scope.

(** [serde_json] on the documents of a sandbox, and the texts of the
    runners. *)
Class SandboxText := {
  cuda_bundle_from_slice : bytes -> option CudaFixtureBundle;
  ascend_bundle_from_slice : bytes -> option AscendFixtureBundle;
  build_document_from_slice : bytes -> option CandidateBuildBundle;
  execution_document_from_slice : bytes -> option ReductionExecutionBundle;
  runner_config_to_vec : Sha256Digest -> option bytes;
  RUNNER : bytes;
  ASCEND_RUNNER : bytes;
  BUILD_RUNNER : bytes;
  CORRECTNESS_RUNNER : bytes;
}.

(** ** Files

    The functions below are written once per module of the source; they
    differ in the errors they return, here their first arguments. *)

Section files.
Context {E : Type}.

(** [file.write_all(..)?; file.sync_all()?]. *)
Definition write_created (io : E) (path : string) (content : bytes) : Exec E unit :=
  written ← ask (WriteAll path content);
  _ ← exec_lift (guard_err (negb written) io);
  synced ← ask (SyncAll path);
  exec_lift (guard_err (negb synced) io).

(** A file that is there has to have the content. *)
Definition write_or_compare (io conflict : E) (path : string) (content : bytes) : Exec E unit :=
  created ← ask (CreateNew path);
  match created with
  | FileCreated => write_created io path content
  | FileExists =>
      existing ← ask (ReadFile path);
      existing ← exec_lift (ok_or existing io);
      exec_lift (guard_err (negb (bool_decide (existing = content))) conflict)
  | FileFailed => exec_fail io
  end.

(** The same, and it must not be a link. *)
Definition write_real_file (io unsafe : E) (path : string) (content : bytes) : Exec E unit :=
  created ← ask (CreateNew path);
  match created with
  | FileCreated => write_created io path content
  | FileExists =>
      metadata ← ask (SymlinkMetadata path);
      kind ← exec_lift (ok_or metadata io);
      _ ← exec_lift (guard_err (bool_decide (kind = KindSymlink)) unsafe);
      existing ← ask (ReadFile path);
      existing ← exec_lift (ok_or existing io);
      exec_lift (guard_err (negb (bool_decide (existing = content))) unsafe)
  | FileFailed => exec_fail io
  end.

(** A directory that is there must not be a link or a file. *)
Definition real_directory (io unsafe : E) (path : string) : Exec E unit :=
  created ← ask (MakeDirectory path);
  match created with
  | FileCreated => mret tt
  | FileExists =>
      metadata ← ask (SymlinkMetadata path);
      kind ← exec_lift (ok_or metadata io);
      exec_lift (guard_err (negb (bool_decide (kind = KindDirectory))) unsafe)
  | FileFailed => exec_fail io
  end.

(** The components of the parent of a relative path. *)
Definition parent_components (path : string) : list string := removelast (split_at "/"%char path).

Fixpoint real_parents (io unsafe : E) (current : string) (components : list string) : Exec E unit :=
  match components with
  | [] => mret tt
  | component :: components =>
      let current := join_path current component in
      _ ← real_directory io unsafe current;
      real_parents io unsafe current components
  end.

(** The names under a directory, relative to the root. *)
Definition relative_name (relative name : string) : string :=
  if bool_decide (relative = EmptyString) then name else relative +:+ "/" +:+ name.

(** The loop over the entries of a directory. *)
Fixpoint scan_entries (unsafe : E) (scan : string -> string -> gset string -> Exec E (gset string))
    (directory relative : string) (entries : list (string * FileKind)) (files : gset string) : Exec E (gset string) :=
  match entries with
  | [] => mret files
  | (name, kind) :: entries =>
      files ←
        match kind with
        | KindSymlink | KindOther => exec_fail unsafe
        | KindDirectory => scan (join_path directory name) (relative_name relative name) files
        | KindFile => mret ({[relative_name relative name]} ∪ files)
        end;
      scan_entries unsafe scan directory relative entries files
  end.

(** A tree is as deep as its paths are long: [read_dir] refuses a path of
    more than [PATH_MAX] bytes. *)
Definition PATH_MAX : nat := 4096.

Fixpoint scan_directory (io unsafe : E) (fuel : nat) (directory relative : string) (files : gset string) :
    Exec E (gset string) :=
  match fuel with
  | O => exec_fail io
  | S fuel =>
      listed ← ask (ReadDirectory directory);
      entries ← exec_lift (ok_or listed io);
      scan_entries unsafe (scan_directory io unsafe fuel) directory relative entries files
  end.

(** The tree has exactly the expected files. *)
Definition exact_tree (io unsafe : E) (root : string) (expected : gset string) : Exec E unit :=
  actual ← scan_directory io unsafe PATH_MAX root EmptyString ∅;
  exec_lift (guard_err (negb (bool_decide (actual = expected))) unsafe).

End files.

(** [write_once] of [cuda.rs] and of [ascend.rs]. *)
Definition write_once (path : string) (content : bytes) : Exec CudaContractError unit :=
  write_or_compare CudaIo CudaBundle path content.

Definition ascend_write_once (path : string) (content : bytes) : Exec AscendContractError unit :=
  write_or_compare AscendIo AscendBundle path content.

(** [write_once], [create_real_directory], [create_real_parents],
    [verify_exact_tree] with [scan_tree] and [verify_file] of
    [ascend_build.rs]. *)
Definition build_write_once (path : string) (content : bytes) : Exec AscendBuildContractError unit :=
  write_real_file BuildIo BuildUnsafePath path content.

Definition build_create_real_directory (path : string) : Exec AscendBuildContractError unit :=
  real_directory BuildIo BuildUnsafePath path.

Definition build_create_real_parents (root path : string) : Exec AscendBuildContractError unit :=
  real_parents BuildIo BuildUnsafePath root (parent_components path).

Definition build_verify_exact_tree (root : string) (bundle : CandidateBuildBundle) : Exec AscendBuildContractError unit :=
  exact_tree BuildIo BuildUnsafePath root
    ({[BUILD_RUNNER_FILENAME]} ∪ list_to_set ((fun file => bp_str (bf_path file)) <$> bb_files bundle)).

Definition verify_file `{Sha256} (path : string) (digest : Sha256Digest) (size : N) : Exec AscendBuildContractError unit :=
  metadata ← ask (SymlinkMetadata path);
  kind ← exec_lift (ok_or metadata BuildIo);
  content ← ask (ReadFile path);
  content ← exec_lift (ok_or content BuildIo);
  exec_lift (guard_err (bool_decide (kind = KindSymlink) || negb (bool_decide (kind = KindFile))
                        || negb (byte_len content =? size)
                        || negb (bool_decide (digest_bytes content = digest))) BuildUnsafePath).

(** The same functions of [reduction_correctness.rs]. *)
Definition correctness_write_once (path : string) (content : bytes) : Exec CorrectnessContractError unit :=
  write_real_file CorrectnessIo CorrectnessUnsafePath path content.

Definition create_real_directory (path : string) : Exec CorrectnessContractError unit :=
  real_directory CorrectnessIo CorrectnessUnsafePath path.

Definition create_real_parents (root path : string) : Exec CorrectnessContractError unit :=
  real_parents CorrectnessIo CorrectnessUnsafePath root (parent_components path).

Definition verify_exact_tree (root : string) (bundle : ReductionExecutionBundle) : Exec CorrectnessContractError unit :=
  exact_tree CorrectnessIo CorrectnessUnsafePath root
    (list_to_set ((fun file => bp_str (ef_path file)) <$> eb_files bundle)
     ∪ {[BUNDLE_FILENAME; CONFIG_FILENAME; CORRECTNESS_RUNNER_FILENAME]}).

(** ** Bundles *)

(** [reader.take(declared + 1).read_to_end(..)]. *)
Definition take_bytes (limit : N) (content : bytes) : bytes := take (N.to_nat limit) content.

(** What is read of the artifact of a bundle, at most one byte more than
    declared. *)
Definition read_declared {E} (unavailable : E) (descriptor : ArtifactDescriptor) : Exec E bytes :=
  reader ← attempt_effect (fun _ => unavailable) (OpenArtifact (ad_digest descriptor));
  mret (take_bytes (saturating_add u64_max (ad_size_bytes descriptor) 1) (rd_source reader)).

Section sandboxes.
Context `{Sha256} `{SandboxText} `{ReductionJson}.

Definition wrong_size (descriptor : ArtifactDescriptor) (content : bytes) : bool :=
  negb (byte_len content =? ad_size_bytes descriptor).

Definition wrong_identity (descriptor : ArtifactDescriptor) (content : bytes) : bool :=
  wrong_size descriptor content || negb (bool_decide (digest_bytes content = ad_digest descriptor)).

(** [CudaFixturePolicy::materialize_bundle]. *)
Definition materialize_bundle (policy : CudaFixturePolicy) (assignment : AssignmentContract) :
    Exec CudaContractError CudaSandbox :=
  _ ← exec_lift (validate_cuda_assignment policy assignment);
  _ ← exec_lift (validate_attempt_id (as_str (ac_attempt_id assignment)));
  let descriptor := bundle (ac_execution assignment) in
  content ← read_declared CudaArtifact descriptor;
  _ ← exec_lift (guard_err (wrong_size descriptor content) CudaBundle);
  parsed ← exec_lift (ok_or (cuda_bundle_from_slice content) CudaJson);
  _ ← exec_lift (guard_err (negb (fb_schema_version parsed =? 1)
                            || negb (bool_decide (fb_fixture_id parsed = cp_fixture_id policy))) CudaBundle);
  let source := String.list_byte_of_string (fb_source parsed) in
  let source_digest := digest_display (digest_bytes source) in
  _ ← exec_lift (guard_err (negb (bool_decide (source_digest = fb_source_sha256 parsed))) CudaBundle);
  let directory := join_path (cp_sandbox_root policy) (as_str (ac_attempt_id assignment)) in
  made ← ask (CreateDirectory directory);
  _ ← exec_lift (guard_err (negb made) CudaIo);
  _ ← write_once (join_path directory SOURCE_FILENAME) source;
  _ ← write_once (join_path directory RUNNER_FILENAME) RUNNER;
  mret (MkSandbox directory source_digest).

(** [AscendFixturePolicy::materialize_bundle]. *)
Definition ascend_materialize_bundle (policy : AscendFixturePolicy) (assignment : AssignmentContract) :
    Exec AscendContractError AscendSandbox :=
  _ ← exec_lift (validate_ascend_assignment policy assignment);
  let descriptor := bundle (ac_execution assignment) in
  content ← read_declared AscendArtifact descriptor;
  _ ← exec_lift (guard_err (wrong_size descriptor content) AscendBundle);
  parsed ← exec_lift (ok_or (ascend_bundle_from_slice content) AscendJson);
  _ ← exec_lift (guard_err (negb (afb_schema_version parsed =? 1)
                            || negb (bool_decide (afb_fixture_id parsed = afp_fixture_id policy))) AscendBundle);
  let source := String.list_byte_of_string (afb_source parsed) in
  let source_digest := digest_display (digest_bytes source) in
  _ ← exec_lift (guard_err (negb (bool_decide (source_digest = afb_source_sha256 parsed))) AscendBundle);
  let directory := join_path (afp_sandbox_root policy) (as_str (ac_attempt_id assignment)) in
  made ← ask (CreateDirectory directory);
  _ ← exec_lift (guard_err (negb made) AscendIo);
  _ ← ascend_write_once (join_path directory ASCEND_SOURCE_FILENAME) source;
  _ ← ascend_write_once (join_path directory RUNNER_FILENAME) ASCEND_RUNNER;
  mret (MkAscendSandbox directory source_digest).

(** The loop over the files of a build bundle. *)
Fixpoint write_build_files (directory : string) (files : list CandidateBuildFile) : Exec AscendBuildContractError unit :=
  match files with
  | [] => mret tt
  | file :: files =>
      let target := join_path directory (bp_str (bf_path file)) in
      _ ← build_create_real_parents directory (bp_str (bf_path file));
      _ ← build_write_once target (as_bytes (bf_contents file));
      _ ← verify_file target (bf_digest file) (bf_size_bytes file);
      write_build_files directory files
  end.

(** [AscendBuildPolicy::materialize_bundle]. *)
Definition build_materialize_bundle (policy : AscendBuildPolicy) (assignment : AssignmentContract) :
    Exec AscendBuildContractError AscendBuildSandbox :=
  _ ← exec_lift (validate_build_assignment policy assignment);
  let descriptor := bundle (ac_execution assignment) in
  content ← read_declared BuildArtifact descriptor;
  _ ← exec_lift (guard_err (wrong_identity descriptor content) BuildBundle);
  document ← exec_lift (ok_or (build_document_from_slice content) BuildJson);
  parsed ← exec_lift (map_err (fun _ => BuildJson) (build_bundle_from_document document));
  _ ← exec_lift (guard_err
        (negb (bool_decide (bb_candidate_id parsed = ac_candidate_id assignment))
         || negb (bool_decide (bb_task_id parsed = ac_task_id assignment))
         || negb (bool_decide (bb_target_architecture parsed = ae_architecture (abp_environment policy)))) BuildBundle);
  let root := abp_sandbox_root policy in
  let directory := join_path root (as_str (ac_attempt_id assignment)) in
  made ← ask (CreateDirectory root);
  _ ← exec_lift (guard_err (negb made) BuildIo);
  metadata ← ask (SymlinkMetadata root);
  kind ← exec_lift (ok_or metadata BuildIo);
  _ ← exec_lift (guard_err (negb (bool_decide (kind = KindDirectory))) BuildUnsafePath);
  _ ← build_create_real_directory directory;
  _ ← write_build_files directory (bb_files parsed);
  _ ← build_write_once (join_path directory BUILD_RUNNER_FILENAME) BUILD_RUNNER;
  _ ← build_verify_exact_tree directory parsed;
  mret (MkBuildSandbox directory (ad_digest descriptor)).

(** [Deserialize for ReductionExecutionBundle], with the deserializers of
    its corpus and of its files. *)
Definition execution_bundle_from_slice (content : bytes) : option ReductionExecutionBundle :=
  document ← execution_document_from_slice content;
  match
    (corpus ← map_err RejectedDocument (corpus_new (co_revision (eb_corpus document)) (co_cases (eb_corpus document)));
     files ← map_err RejectedDocument (mapM execution_file_from_document (eb_files document));
     execution_bundle_from_document
       (MkExecutionBundle (eb_schema_version document) (eb_experiment document) (eb_role document)
          (eb_candidate_id document) (eb_implementation_digest document) (eb_callable document) corpus files))
  with
  | Ok parsed => Some parsed
  | Err _ => None
  end.

(** The loop over the files of an execution bundle. *)
Fixpoint write_execution_files (directory : string) (files : list ReductionExecutionFile) :
    Exec CorrectnessContractError unit :=
  match files with
  | [] => mret tt
  | file :: files =>
      _ ← create_real_parents directory (bp_str (ef_path file));
      _ ← correctness_write_once (join_path directory (bp_str (ef_path file))) (as_bytes (ef_contents file));
      write_execution_files directory files
  end.

(** [ReductionCorrectnessPolicy::materialize_bundle]. *)
Definition correctness_materialize_bundle (policy : ReductionCorrectnessPolicy) (assignment : AssignmentContract) :
    Exec CorrectnessContractError CorrectnessSandbox :=
  _ ← exec_lift (validate_correctness_assignment policy assignment);
  let descriptor := bundle (ac_execution assignment) in
  content ← read_declared CorrectnessArtifact descriptor;
  _ ← exec_lift (guard_err (wrong_identity descriptor content) CorrectnessBundle);
  parsed ← exec_lift (ok_or (execution_bundle_from_slice content) CorrectnessJson);
  _ ← exec_lift (guard_err
        (negb (bool_decide (eb_role parsed = correctness_role policy))
         || negb (bool_decide (ex_task_id (eb_experiment parsed) = ac_task_id assignment))
         || negb (bool_decide (ex_candidate_id (eb_experiment parsed) = ac_candidate_id assignment))) CorrectnessBundle);
  let directory := join_path (rp_sandbox_root policy) (as_str (ac_attempt_id assignment)) in
  _ ← create_real_directory (rp_sandbox_root policy);
  _ ← create_real_directory directory;
  _ ← write_execution_files directory (eb_files parsed);
  _ ← correctness_write_once (join_path directory BUNDLE_FILENAME) content;
  config ← exec_lift (ok_or (runner_config_to_vec (rp_environment_digest policy)) CorrectnessJson);
  _ ← correctness_write_once (join_path directory CONFIG_FILENAME) config;
  _ ← correctness_write_once (join_path directory CORRECTNESS_RUNNER_FILENAME) CORRECTNESS_RUNNER;
  _ ← verify_exact_tree directory parsed;
  mret (MkCorrectnessSandbox directory (eb_implementation_digest parsed)).

End sandboxes.

(** ** The files of a worker *)

(** ** Entries *)

Inductive LinkTarget := ToFile (content : bytes) | ToDirectory | ToNothing.

Inductive FileEntry :=
| Regular (content : bytes)
| Directory
| Symlink (target : LinkTarget)
| Special.

#[export] Instance LinkTarget_eq_dec : EqDecision LinkTarget.
Proof. solve_decision. Defined.
#[export] Instance FileEntry_eq_dec : EqDecision FileEntry.
Proof. solve_decision. Defined.

Abbreviation FileSystem := (gmap (list string) FileEntry).

Definition entry_kind (entry : FileEntry) : FileKind :=
  match entry with
  | Regular _ => KindFile
  | Directory => KindDirectory
  | Symlink _ => KindSymlink
  | Special => KindOther
  end.

(** The components of a path. *)
Definition file_key (path : string) : list string := (path_components path).2.
#[global] Arguments file_key : simpl never.

(** An entry below which others can be: the root, a directory, or a link
    to one. *)
Definition leads_to_directory (entry : FileEntry) : bool :=
  match entry with Directory | Symlink ToDirectory => true | _ => false end.

Definition is_directory (key : list string) (files : FileSystem) : bool :=
  bool_decide (key = []) || match files !! key with Some entry => leads_to_directory entry | None => false end.

(** ** Operations *)

(** A new entry, where there is none and its parent is a directory. *)
Definition create_entry (entry : FileEntry) (key : list string) (files : FileSystem) : FileSystem * Creation :=
  match files !! key with
  | Some _ => (files, FileExists)
  | None => if is_directory (removelast key) files && negb (bool_decide (key = [])) then (<[key := entry]> files, FileCreated)
            else (files, FileFailed)
  end.

(** [OpenOptions::create_new] and [fs::create_dir]. *)
Definition fs_create_new (key : list string) (files : FileSystem) : FileSystem * Creation :=
  create_entry (Regular []) key files.
Definition fs_create_dir (key : list string) (files : FileSystem) : FileSystem * Creation :=
  create_entry Directory key files.

(** [fs::create_dir_all]. *)
Fixpoint fs_create_dir_all (current rest : list string) (files : FileSystem) : FileSystem * bool :=
  match rest with
  | [] => (files, true)
  | name :: rest =>
      let key := current ++ [name] in
      match files !! key with
      | Some entry => if leads_to_directory entry then fs_create_dir_all key rest files else (files, false)
      | None => fs_create_dir_all key rest (<[key := Directory]> files)
      end
  end.

(** [write_all] on a file that was just created. *)
Definition fs_write_all (key : list string) (content : bytes) (files : FileSystem) : FileSystem :=
  match files !! key with
  | Some (Regular existing) => <[key := Regular (existing ++ content)]> files
  | _ => files
  end.

(** [fs::read], which follows a link, and [fs::symlink_metadata], which
    does not. *)
Definition fs_read (key : list string) (files : FileSystem) : option bytes :=
  match files !! key with
  | Some (Regular content) | Some (Symlink (ToFile content)) => Some content
  | _ => None
  end.

Definition fs_symlink_metadata (key : list string) (files : FileSystem) : option FileKind :=
  if bool_decide (key = []) then Some KindDirectory else entry_kind <$> files !! key.

(** [fs::read_dir] of a directory; what a link leads to is not listed. *)
Definition child_of (key child : list string) : option string :=
  if bool_decide (removelast child = key) then last child else None.

Definition fs_read_dir (key : list string) (files : FileSystem) : option (list (string * FileKind)) :=
  if bool_decide (key = []) || bool_decide (files !! key = Some Directory) then
    Some (omap (fun e => (fun name => (name, entry_kind e.2)) <$> child_of key e.1) (map_to_list files))
  else None.

(** ** What the operations leave behind *)

Lemma create_entry_exists (entry existing : FileEntry) (key : list string) (files : FileSystem) :
  files !! key = Some existing -> create_entry entry key files = (files, FileExists).
Proof. unfold create_entry. by intros ->. Qed.

Lemma create_entry_new (entry : FileEntry) (key : list string) (files : FileSystem) :
  files !! key = None -> key <> [] -> is_directory (removelast key) files = true ->
  create_entry entry key files = (<[key := entry]> files, FileCreated).
Proof. unfold create_entry. intros -> Hkey ->. by rewrite bool_decide_false. Qed.

(** A file that was created, and then written. *)
Lemma fs_write_new (key : list string) (content : bytes) (files : FileSystem) :
  fs_write_all key content (<[key := Regular []]> files) = <[key := Regular content]> files.
Proof. unfold fs_write_all. by rewrite lookup_insert_eq, insert_insert_eq. Qed.

Lemma fs_read_regular (key : list string) (content : bytes) (files : FileSystem) :
  fs_read key (<[key := Regular content]> files) = Some content.
Proof. unfold fs_read. by rewrite lookup_insert_eq. Qed.
