(* ===== verification/Executions.v ===== *)
(** * The executors of a worker

    Of [src/crates/alloyport-worker/src]: the device guard of
    [ascend_device_guard.rs], the supervision of containers in
    [container_supervision.rs], [cuda_supervisor.rs] and
    [ascend_supervisor.rs], the runtimes of [cuda_runtime.rs] and
    [ascend_runtime.rs] and their backends of [execution_backend.rs].  The
    supervisors and runtimes of both accelerators are the same program but
    for what the class [Platform] lists; Platforms.v has its instances.
    What all executors share ([executor.rs] and its modules) is here; the
    deterministic executor is in FakeExecutor.v.  What [serde_json] encodes
    is a parameter. *)

From stdpp Require Import base strings list.
From S2P Require Import Prelude Text Digest Identity Vocabulary Artifacts Uploads RunEvents WorkerJournal WorkerSession WorkerUpdates Devices Containers CudaContract AscendContract CorrectnessContract Effects.

Local Open Scope N_scope.

(** ** Devices *)

(** [reusable] and [ensure_device]. *)
Definition reusable (observation : DeviceObservation) : bool :=
  bool_decide (obs_health observation = DeviceReady) && (obs_process_count observation =? 0).

Definition ensure_device (expected : string) (observation : DeviceObservation) : result DeviceStatusError unit :=
  guard_err (negb (bool_decide (obs_device_id observation = expected))) DeviceInvalidResponse.

(** [struct DevicePreflight] and [struct DeviceCleanup]. *)
Record DevicePreflight := MkPreflight { dpf_lease : DeviceLeaseOutcome; dpf_observation : DeviceObservation }.
Record DeviceCleanup := MkCleanup {
  dcl_before : DeviceObservation;
  dcl_after_recovery : option DeviceObservation;
  dcl_release : DeviceReleaseOutcome;
}.

(** [enum CleanupIntent]. *)
Inductive CleanupIntent := ReleaseAfterCommit | QuarantineVisibleProcesses | RecoverOrQuarantineAfterCommit.

(** [CleanupIntent::from_observation]. *)
Definition intent_from_observation (observation : DeviceObservation) : CleanupIntent :=
  if 0 <? obs_process_count observation then QuarantineVisibleProcesses
  else if bool_decide (obs_health observation = DeviceReady) then ReleaseAfterCommit
  else RecoverOrQuarantineAfterCommit.

Definition journal_guard {X} (e : Effect (result AttemptStoreError X)) : Exec DeviceGuardError X :=
  attempt_effect (fun _ => GuardJournal) e.

(** [DeviceGuard::acquire_and_preflight]. *)
Definition acquire_and_preflight (attempt_id : AttemptId) (device_id : string) : Exec DeviceGuardError DevicePreflight :=
  lease ← journal_guard (AcquireLease attempt_id device_id);
  recorded ← ask (FindPreflight attempt_id);
  _ ← exec_lift (match recorded with
                 | Some recorded => map_err GuardProbeRetained (ensure_device device_id recorded)
                 | None => Ok tt
                 end);
  observation ← attempt_effect GuardProbeRetained (ObserveDevice device_id);
  _ ← exec_lift (map_err GuardProbeRetained (ensure_device device_id observation));
  if reusable observation then
    match recorded with
    | Some recorded => mret (MkPreflight lease recorded)
    | None =>
        _ ← journal_guard (RecordPreflight attempt_id observation);
        mret (MkPreflight lease observation)
    end
  else if bool_decide (obs_health observation = DeviceReady) then
    match recorded with
    | Some _ => exec_fail (GuardOccupiedRetained observation)
    | None =>
        _ ← journal_guard (ReleaseLease attempt_id);
        exec_fail (GuardOccupied observation)
    end
  else exec_fail (GuardNotReadyRetained observation).

(** [DeviceGuard::cleanup_after_terminal]. *)
Definition cleanup_after_terminal (attempt_id : AttemptId) (device_id : string) : Exec DeviceGuardError DeviceCleanup :=
  before ← attempt_effect GuardProbeRetained (ObserveDevice device_id);
  _ ← exec_lift (map_err GuardProbeRetained (ensure_device device_id before));
  if reusable before then
    release ← journal_guard (ReleaseLease attempt_id);
    mret (MkCleanup before None release)
  else if 0 <? obs_process_count before then exec_fail (GuardOccupiedRetained before)
  else
    after ← attempt_effect GuardRecoveryRetained (RecoverDevice device_id);
    _ ← exec_lift (map_err GuardRecoveryRetained (ensure_device device_id after));
    if negb (reusable after) then exec_fail (GuardRecoveryIncompleteRetained before after)
    else
      release ← journal_guard (ReleaseLease attempt_id);
      mret (MkCleanup before (Some after) release).

(** ** Receipts *)

(** [CudaEnvironmentFacts::new]. *)
Definition environment_facts_new (architecture driver_version toolkit_version : string) :
    result ExecutionRuntimeError CudaEnvironmentFacts :=
  _ ← guard_err (trim_is_empty architecture || trim_is_empty driver_version || trim_is_empty toolkit_version)
        RuntimeInvalidConfiguration;
  Ok (MkEnvironmentFacts architecture driver_version toolkit_version).

(** [struct CudaExecutionFacts] and [struct AscendExecutionFacts], up to
    what they tell of the device. *)
Record ExecutionFacts (D : Type) := MkFacts {
  xf_container_name : string;
  xf_bundle_digest : string;
  xf_source_digest : string;
  xf_image_digest : string;
  xf_image_media_type : string;
  xf_image_id : string;
  xf_device : D;
}.
Arguments MkFacts {D}. Arguments xf_container_name {D}. Arguments xf_bundle_digest {D}.
Arguments xf_source_digest {D}. Arguments xf_image_digest {D}. Arguments xf_image_media_type {D}.
Arguments xf_image_id {D}. Arguments xf_device {D}.

(** What [struct CudaRunReceipt] and [struct AscendRunReceipt] have in
    common, both receipts, and [struct FakeRunReceipt]. *)
Record ReceiptParts := MkParts {
  pr_worker_id : string;
  pr_input : string * string * string * string;
  pr_bundle_digest : string;
  pr_source_digest : string;
  pr_image_digest : string;
  pr_image_media_type : string;
  pr_resolved_image_id : string;
  pr_lease : DeviceLease;
  pr_pre_observation : DeviceObservation;
  pr_post_observation : DeviceObservation;
  pr_post_commit_cleanup : CleanupIntent;
  pr_outcome : string;
  pr_exit_code : option Z;
  pr_elapsed_ms : N;
  pr_stdout_digest : Sha256Digest;
  pr_stderr_digest : Sha256Digest;
  pr_detail : string;
}.

Record CudaRunReceipt := MkCudaReceipt {
  cr_schema_version : N;
  cr_device_id : string;
  cr_environment : CudaEnvironmentFacts;
  cr_parts : ReceiptParts;
}.

Record AscendRunReceipt := MkAscendReceipt {
  ar_schema_version : N;
  ar_device : AcceleratorDevice;
  ar_environment : AscendEnvironmentFacts;
  ar_parts : ReceiptParts;
}.

Record FakeRunReceipt := MkFakeReceipt {
  fr_schema_version : N;
  fr_worker_id : string;
  fr_input : string * string * string * string;
  fr_outcome : string;
  fr_exit_code : option Z;
  fr_elapsed_ms : N;
  fr_stdout_digest : Sha256Digest;
  fr_stderr_digest : Sha256Digest;
  fr_detail : string;
}.

(** The identities a receipt copies: of the assignment, the attempt, the
    task and the candidate. *)
Definition receipt_input (input : ExecutorInput) : string * string * string * string :=
  (xi_assignment_id input, xi_attempt_id input, xi_task_id input, xi_candidate_id input).

(** [serde_json] on the receipts of an execution. *)
Class ExecutionText := {
  cuda_receipt_to_vec : CudaRunReceipt -> option bytes;
  ascend_receipt_to_vec : AscendRunReceipt -> option bytes;
  fake_receipt_to_vec : FakeRunReceipt -> option bytes;
}.

(** ** Platforms

    The supervisors [S] of a kind of accelerators, the environment [V] a
    runtime keeps and what the facts of an execution tell of a device [D]:
    the kind and the device of a supervisor, which devices [new] refuses,
    the environment of a runtime that was bound to a supervisor, the arm of
    the [match] that prepares a container, the classification of its
    outcome, the description of the command and the receipt. *)
Class Platform (S V D : Type) := {
  pf_executor_kind : S -> ExecutionKind;
  pf_device_id : S -> string;
  pf_device_refused : string -> bool;
  pf_environment : V -> S -> V;
  pf_prepare : S -> AssignmentContract -> Exec SupervisorError (string * ContainerPlan * D);
  pf_classify : S -> ContainerTermination -> ContainerLogs -> N -> ExecutorResult;
  pf_description : string;
  pf_receipt : V -> D -> ReceiptParts -> option bytes;
}.

Section executions.
Context `{Sha256} {S V D : Type} `{!Platform S V D}.

(** ** Supervision *)

Definition on_engine {X} (call : EngineCall (result ContainerEngineError X)) : Exec ContainerReconcileError X :=
  attempt_effect ReconcileEngine (OnEngine call).

(** [reconcile_container]. *)
Definition reconcile_container (plan : ContainerPlan) (identity : ContainerIdentity) :
    Exec ContainerReconcileError ContainerPhase :=
  found ← on_engine (InspectContainer (ci_name identity));
  match found with
  | Some snapshot =>
      _ ← exec_lift (guard_err (negb (bool_decide (cs_identity snapshot = identity))) ReconcileIdentityConflict);
      mret (cs_phase snapshot)
  | None =>
      _ ← on_engine (CreateContainer plan identity);
      found ← on_engine (InspectContainer (ci_name identity));
      created ← exec_lift (ok_or found ReconcileMissingAfterCreate);
      _ ← exec_lift (guard_err (negb (bool_decide (cs_identity created = identity))) ReconcileIdentityConflict);
      _ ← exec_lift (guard_err (negb (bool_decide (cs_phase created = ContainerCreated)))
                       (ReconcileUnexpectedCreatedPhase (cs_phase created)));
      mret (cs_phase created)
  end.

Definition engine {X} (call : EngineCall (result ContainerEngineError X)) : Exec ContainerEngineError X :=
  attempt_effect (fun error => error) (OnEngine call).

(** [stop_and_wait]. *)
Definition stop_and_wait (name : string) : Exec ContainerEngineError ContainerExit :=
  _ ← engine (StopContainer name);
  engine (WaitContainer name).

(** The termination of the [select!] of [supervise_running_container]. *)
Definition terminated (name : string) (ready : Ready) : Exec ContainerEngineError ContainerTermination :=
  match ready with
  | ReadyCancelled => exit ← stop_and_wait name; mret (TerminationCancelled exit)
  | ReadyTimeout => exit ← stop_and_wait name; mret (TerminationTimedOut exit)
  | ReadyExit exit => exit ← exec_lift exit; mret (TerminationExited exit)
  end.

(** [execution_chunk], as the observer closure of [run_inner] calls it. *)
Definition execution_chunk (chunk : ContainerLogChunk) : ExecutionChunk :=
  MkExecutionChunk (if lc_stderr chunk then ExecutionStderr else ExecutionStdout) (lc_byte_offset chunk) (lc_bytes chunk).

(** The chunks a follower of the logs hands to its observer. *)
Fixpoint observe_chunks (observer : ContainerLogChunk -> Exec ContainerEngineError unit)
    (chunks : list ContainerLogChunk) : Exec ContainerEngineError unit :=
  match chunks with
  | [] => mret tt
  | chunk :: chunks => _ ← observer chunk; observe_chunks observer chunks
  end.

(** [supervise_running_container].  The loop runs a second time after the
    logs were collected, and then the logs cannot be ready again. *)
Definition supervise_running_container (name : string) (timeout output_limit : N)
    (observer : ContainerLogChunk -> Exec ContainerEngineError unit) :
    Exec ContainerEngineError (ContainerTermination * ContainerLogs * bool) :=
  live ← ask (OnEngine StreamsLive);
  first ← ask (OnEngine (SelectFollowing name timeout output_limit));
  _ ← observe_chunks observer first.1;
  match first.2 with
  | ReadyFirst ready =>
      termination ← terminated name ready;
      followed ← ask (OnEngine (FollowLogs name output_limit));
      _ ← observe_chunks observer followed.1;
      logs ← exec_lift followed.2;
      mret (termination, logs, live)
  | ReadyLogs (Err error) =>
      _ ← ask (OnEngine (StopContainer name));
      _ ← ask (OnEngine (WaitContainer name));
      exec_fail error
  | ReadyLogs (Ok logs) =>
      if cl_output_limit_exceeded logs then
        exit ← stop_and_wait name;
        mret (TerminationOutputLimitExceeded exit, logs, live)
      else
        ready ← ask (OnEngine (SelectFollowed name timeout));
        termination ← terminated name ready;
        mret (termination, logs, live)
  end.

(** [struct SupervisedCudaExecution] and [struct SupervisedAscendExecution]. *)
Record SupervisedExecution := MkSupervised {
  su_result : ExecutorResult;
  su_facts : ExecutionFacts D;
  su_live_output_streaming : bool;
}.

Definition on_supervisor {A} (m : Exec ContainerEngineError A) : Exec SupervisorError A :=
  exec_map_err SupervisorEngine m.

(** [CudaContainerSupervisor::run_with_facts_observed] and the one of
    [AscendContainerSupervisor]. *)
Definition run_with_facts_observed (supervisor : S) (assignment : AssignmentContract)
    (observer : ContainerLogChunk -> Exec ContainerEngineError unit) : Exec SupervisorError SupervisedExecution :=
  prepared ← pf_prepare supervisor assignment;
  let '(source_digest, plan, device) := prepared in
  let execution := ac_execution assignment in
  let identity := MkContainerIdentity (plan_container_name plan) (as_str (ac_attempt_id assignment))
    (digest_display (ad_digest (bundle execution))) (digest_display (ad_digest (image execution)))
    (digest_display (plan_expected_image_id plan)) in
  resolved_image ← on_supervisor (engine (ResolveImage plan));
  _ ← exec_lift (guard_err (negb (bool_decide (resolved_image = ci_image_id identity)))
                   (SupervisorImageMismatch (ci_image_id identity) resolved_image));
  phase ← exec_map_err reconcile_supervisor_error (reconcile_container plan identity);
  _ ← (if bool_decide (phase = ContainerCreated)
       then on_supervisor (engine (StartContainer (ci_name identity))) else mret tt);
  let output_limit := match limits execution with Some limits => output_bytes limits | None => 0 end in
  supervised ← on_supervisor
    (if bool_decide (phase = ContainerExited) then
       exit ← engine (WaitContainer (ci_name identity));
       logs ← engine (ReadLogs (ci_name identity) output_limit);
       mret (TerminationExited exit, logs, false)
     else supervise_running_container (ci_name identity) (timeout_ms execution) output_limit observer);
  let '(termination, logs, live) := supervised in
  let logs := enforce_output_limit logs output_limit in
  mret (MkSupervised (pf_classify supervisor termination logs (timeout_ms execution))
    (MkFacts (ci_name identity) (ci_bundle_digest identity) source_digest (ci_image_manifest_digest identity)
       (ad_media_type (image execution)) (ci_image_id identity) device) live).

(** ** Outputs *)

Definition STDOUT_MEDIA_TYPE : string := "application/vnd.alloyport.stdout".
Definition STDERR_MEDIA_TYPE : string := "application/vnd.alloyport.stderr".
Definition RECEIPT_MEDIA_TYPE : string := "application/vnd.alloyport.run-receipt+json".

(** [store_artifact]. *)
Definition store_artifact (content : bytes) (media_type : string) : Exec ExecutionRuntimeError ArtifactDescriptor :=
  result ← attempt_effect RuntimeArtifact (IngestArtifact content);
  mret (MkArtifactDescriptor (ai_digest (ir_artifact result)) (ai_size_bytes (ir_artifact result)) media_type).

(** [terminal_reference_intents]. *)
Definition output_intent (attempt_id suffix purpose : string) (artifact : option ArtifactDescriptor) :
    list ArtifactReferenceIntent :=
  match artifact with
  | Some artifact => [MkIntent ("output:" +:+ attempt_id +:+ ":" +:+ suffix) RefAssignmentOutput purpose artifact]
  | None => []
  end.

Definition terminal_reference_intents (attempt_id : string) (finished : StoredFinished) :
    list ArtifactReferenceIntent :=
  output_intent attempt_id "stdout" "complete attempt stdout" (sf_stdout finished)
  ++ output_intent attempt_id "stderr" "complete attempt stderr" (sf_stderr finished)
  ++ match sf_receipt finished with
     | Some receipt => [MkIntent ("receipt:" +:+ attempt_id) RefReceipt "attempt run receipt" receipt]
     | None => []
     end.

(** [event_artifact] and [output_event] of the executors. *)
Definition executor_artifact (artifact : ArtifactDescriptor) (reference : string) : ArtifactRef :=
  MkArtifactRef (digest_display (ad_digest artifact)) (ad_media_type artifact) (ad_size_bytes artifact) reference.

Definition output_event (chunk : ExecutionChunk) : WorkerEvent :=
  let text := String.string_of_list_byte (xc_bytes chunk) in
  CommandOutput (match xc_stream chunk with ExecutionStdout => Stdout | ExecutionStderr => Stderr end)
    (xc_byte_offset chunk) (utf8_lossy text) (negb (utf8_valid text)).

(** [struct PersistedExecution] of both executors. *)
Record PersistedExecution := MkPersisted {
  pv_finished : StoredFinished;
  pv_stdout : ArtifactDescriptor;
  pv_stderr : ArtifactDescriptor;
  pv_receipt : ArtifactDescriptor;
}.

Definition push_event {E} (worker_id : string) (input : ExecutorInput) (event : WorkerEvent) : Exec E unit :=
  ask (PushEvent worker_id input event).

(** [append_terminal_events]. *)
Definition append_terminal_events (worker_id : string) (input : ExecutorInput) (persisted : PersistedExecution) :
    Exec ExecutionRuntimeError unit :=
  let finished := pv_finished persisted in
  _ ← push_event worker_id input (ArtifactProduced (executor_artifact (pv_stdout persisted) "stdout"));
  _ ← push_event worker_id input (ArtifactProduced (executor_artifact (pv_stderr persisted) "stderr"));
  _ ← push_event worker_id input (ArtifactProduced (executor_artifact (pv_receipt persisted) "receipt"));
  push_event worker_id input
    (CommandCompleted (default (-1)%Z (sf_exit_code finished)) (sf_elapsed_ms finished)
       (bool_decide (sf_outcome finished = OutcomeTimedOut)) (Some (executor_artifact (pv_stdout persisted) "stdout"))).

Definition command_started (worker_id description : string) (input : ExecutorInput) : WorkerEvent :=
  CommandStarted (String.concat " " (xi_argv input)) (Some (xi_working_directory input)) worker_id (Some description).

(** An observed chunk is forwarded and becomes an event. *)
Definition forward_chunk {E} (worker_id : string) (input : ExecutorInput) (chunk : ExecutionChunk) : Exec E unit :=
  _ ← ask (Observe (ObservedOutput chunk));
  push_event worker_id input (output_event chunk).

(** [append_output]. *)
Definition append_stream (worker_id : string) (input : ExecutorInput) (stream : ExecutionStream) (content : bytes) :
    Exec ExecutionRuntimeError unit :=
  if bool_decide (content = []) then mret tt else forward_chunk worker_id input (MkExecutionChunk stream 0 content).

Definition append_output (worker_id : string) (input : ExecutorInput) (result : ExecutorResult) :
    Exec ExecutionRuntimeError unit :=
  _ ← append_stream worker_id input ExecutionStdout (er_stdout result);
  append_stream worker_id input ExecutionStderr (er_stderr result).

(** The terminal record of a result and its stored outputs. *)
Definition finished_of (result : ExecutorResult) (stdout stderr receipt : ArtifactDescriptor) : StoredFinished :=
  MkFinished (er_outcome result) (er_exit_code result) (er_elapsed_ms result) (Some receipt) (Some stdout) (Some stderr)
    (er_detail result).

(** [AttemptClaim]: the claim is dropped when the body returns. *)
Definition with_claim {A} (attempt_id : string) (body : Exec ExecutionRuntimeError A) : Exec ExecutionRuntimeError A :=
  claimed ← ask (E:=ExecutionRuntimeError) (AcquireClaim attempt_id);
  if (claimed : bool) then prog_bind body (fun r => Do (DropClaim attempt_id) (fun _ => Done r))
  else exec_fail (RuntimeAttemptAlreadyRunning attempt_id).

Definition on_store {X} (e : Effect (result AttemptStoreError X)) : Exec ExecutionRuntimeError X :=
  attempt_effect RuntimeWorker e.

(** The attempt a run is about. *)
Definition find_attempt (attempt_id : string) : Exec ExecutionRuntimeError LocalAttemptRecord :=
  found ← ask (FindAttempt attempt_id);
  exec_lift (ok_or found (RuntimeMissingAttempt attempt_id)).

Definition publish_references (publishing : bool) (references : list ArtifactReferenceIntent) :
    Exec ExecutionRuntimeError unit :=
  if publishing then attempt_effect RuntimeArtifactPublication (Publish references) else mret tt.

(** ** The runtimes *)

(** [struct CudaExecutionRuntime] and [struct AscendExecutionRuntime]
    without their ports, and their dynamic parts with the factories of
    supervisors. *)
Record DynamicRuntime := MkDynamic {
  dy_inventory : list AcceleratorDevice;
  dy_selection : DeviceSelectionPolicy;
  dy_supervisor_factory : AcceleratorDevice -> result ExecutionRuntimeError S;
  dy_executor_kind : ExecutionKind;
}.

Record ExecutionRuntime := MkRuntime {
  rt_worker_id : string;
  rt_device_id : string;
  rt_supervisor : S;
  rt_environment : V;
  rt_dynamic : option DynamicRuntime;
}.

(** [new]. *)
Definition runtime_new (worker_id : string) (supervisor : S) (environment : V) :
    result ExecutionRuntimeError ExecutionRuntime :=
  _ ← guard_err (trim_is_empty worker_id) RuntimeInvalidConfiguration;
  let device_id := pf_device_id supervisor in
  _ ← guard_err (pf_device_refused device_id) RuntimeInvalidConfiguration;
  Ok (MkRuntime worker_id device_id supervisor (pf_environment environment supervisor) None).

(** [new_dynamic]. *)
Definition runtime_new_dynamic (worker_id : string) (environment : V) (inventory : list AcceleratorDevice)
    (selection : DeviceSelectionPolicy) (executor_kind : ExecutionKind)
    (supervisor_factory : AcceleratorDevice -> result ExecutionRuntimeError S) :
    result ExecutionRuntimeError ExecutionRuntime :=
  _ ← guard_err (trim_is_empty worker_id) RuntimeInvalidConfiguration;
  first ← ok_or (head inventory) RuntimeInvalidConfiguration;
  supervisor ← supervisor_factory first;
  Ok (MkRuntime worker_id (acc_device_id first) supervisor environment
        (Some (MkDynamic inventory selection supervisor_factory executor_kind))).

(** [executor_kind]. *)
Definition runtime_executor_kind (runtime : ExecutionRuntime) : ExecutionKind :=
  match rt_dynamic runtime with
  | Some dynamic => dy_executor_kind dynamic
  | None => pf_executor_kind (rt_supervisor runtime)
  end.

Definition integrity : ExecutionRuntimeError := RuntimeBackend Integrity.

(** [observe_exact]. *)
Definition observe_exact (device_id : string) : Exec ExecutionRuntimeError DeviceObservation :=
  observation ← attempt_effect (fun error => RuntimeBackend (device_backend_error error)) (ObserveDevice device_id);
  _ ← exec_lift (guard_err (negb (bool_decide (obs_device_id observation = device_id)))
                   (RuntimeBackend (device_backend_error DeviceInvalidResponse)));
  mret observation.

Definition leased_to (attempt_id : AttemptId) (lease : DeviceLease) : bool :=
  bool_decide (as_str (lease_attempt_id lease) = as_str attempt_id).

(** [active_lease] and [has_active_lease]. *)
Definition active_lease (attempt_id : AttemptId) : Exec ExecutionRuntimeError DeviceLease :=
  leases ← on_store ActiveLeases;
  exec_lift (ok_or (List.find (leased_to attempt_id) leases) integrity).

Definition has_active_lease (attempt_id : AttemptId) : Exec ExecutionRuntimeError bool :=
  leases ← on_store ActiveLeases;
  mret (existsb (leased_to attempt_id) leases).

(** [prepare_attempt]. *)
Definition prepare_attempt (runtime : ExecutionRuntime) (attempt_id : string) (typed : AttemptId)
    (phase : LocalAttemptPhase) : Exec ExecutionRuntimeError (DeviceLease * DeviceObservation) :=
  if bool_decide (phase = PhaseAccepted) then
    preflight ← exec_map_err (fun error => RuntimeBackend (guard_backend_error error))
      (acquire_and_preflight typed (rt_device_id runtime));
    lease ← active_lease typed;
    _ ← on_store (MarkRunning attempt_id);
    mret (lease, dpf_observation preflight)
  else
    lease ← active_lease typed;
    found ← ask (FindPreflight typed);
    observation ← exec_lift (ok_or found integrity);
    _ ← exec_lift (guard_err (negb (bool_decide (obs_device_id observation = rt_device_id runtime))
                              || negb (bool_decide (lease_device_id lease = rt_device_id runtime))) integrity);
    mret (lease, observation).

(** [persist]. *)
Definition persist (runtime : ExecutionRuntime) (input : ExecutorInput) (result : ExecutorResult)
    (facts : ExecutionFacts D) (pre_observation post_observation : DeviceObservation) (lease : DeviceLease)
    (cleanup_intent : CleanupIntent) : Exec ExecutionRuntimeError PersistedExecution :=
  stdout ← store_artifact (er_stdout result) STDOUT_MEDIA_TYPE;
  stderr ← store_artifact (er_stderr result) STDERR_MEDIA_TYPE;
  receipt ← exec_lift (ok_or (pf_receipt (rt_environment runtime) (xf_device facts)
    (MkParts (rt_worker_id runtime) (receipt_input input) (xf_bundle_digest facts) (xf_source_digest facts)
       (xf_image_digest facts) (xf_image_media_type facts) (xf_image_id facts) lease pre_observation post_observation
       cleanup_intent (attempt_outcome_name (er_outcome result)) (er_exit_code result) (er_elapsed_ms result)
       (ad_digest stdout) (ad_digest stderr) (er_detail result))) RuntimeSerialization);
  receipt ← store_artifact receipt RECEIPT_MEDIA_TYPE;
  mret (MkPersisted (finished_of result stdout stderr receipt) stdout stderr receipt).

(** [cleanup_after_commit]. *)
Definition cleanup_after_commit (runtime : ExecutionRuntime) (attempt_id : AttemptId) :
    Exec ExecutionRuntimeError unit :=
  _ ← attempt_effect (fun _ => RuntimeCleanupAfterCommit) (OnEngine (RemoveContainer ("alloyport-" +:+ as_str attempt_id)));
  leased ← has_active_lease attempt_id;
  if negb leased then mret tt else
  _ ← exec_map_err (fun _ => RuntimeCleanupAfterCommit) (cleanup_after_terminal attempt_id (rt_device_id runtime));
  mret tt.

(** The replay of a finished attempt. *)
Definition replay_finished (runtime : ExecutionRuntime) (attempt_id : string) (typed : AttemptId)
    (attempt : LocalAttemptRecord) : Exec ExecutionRuntimeError ExecutionRun :=
  finished ← exec_lift (ok_or (la_finished attempt) (RuntimeMissingTerminalData attempt_id));
  _ ← cleanup_after_commit runtime typed;
  mret (MkExecutionRun finished (terminal_reference_intents attempt_id finished) true).

(** [run_inner] after the replay. *)
Definition run_attempt (runtime : ExecutionRuntime) (publishing : bool) (attempt_id : string) (typed : AttemptId)
    (attempt : LocalAttemptRecord) : Exec ExecutionRuntimeError ExecutionRun :=
  let worker_id := rt_worker_id runtime in
  prepared ← prepare_attempt runtime attempt_id typed (la_phase attempt);
  _ ← ask (Observe ObservedStarted);
  let input := executor_input (la_assignment attempt) in
  _ ← push_event worker_id input (command_started worker_id pf_description input);
  execution ← exec_map_err (fun error => RuntimeBackend (supervisor_backend_error error))
    (run_with_facts_observed (rt_supervisor runtime) (la_assignment attempt)
       (fun chunk => forward_chunk worker_id input (execution_chunk chunk)));
  _ ← (if su_live_output_streaming execution then mret tt
       else append_output worker_id input (su_result execution));
  post_observation ← observe_exact (rt_device_id runtime);
  persisted ← persist runtime input (su_result execution) (su_facts execution) prepared.2 post_observation prepared.1
    (intent_from_observation post_observation);
  let references := terminal_reference_intents attempt_id (pv_finished persisted) in
  _ ← publish_references publishing references;
  _ ← on_store (MarkFinished attempt_id (pv_finished persisted));
  _ ← append_terminal_events worker_id input persisted;
  _ ← cleanup_after_commit runtime typed;
  mret (MkExecutionRun (pv_finished persisted) references false).

(** [run_inner]. *)
Definition run_inner (runtime : ExecutionRuntime) (publishing : bool) (attempt_id : string) :
    Exec ExecutionRuntimeError ExecutionRun :=
  with_claim attempt_id
    (attempt ← find_attempt attempt_id;
     typed ← exec_lift (map_err (fun _ => integrity) (parse_id KAttempt attempt_id));
     if bool_decide (la_phase attempt = PhaseFinished) then replay_finished runtime attempt_id typed attempt
     else run_attempt runtime publishing attempt_id typed attempt).

(** [runtime_for_attempt]. *)
Definition runtime_for_attempt (runtime : ExecutionRuntime) (attempt_id : string) :
    Exec ExecutionRuntimeError ExecutionRuntime :=
  dynamic ← exec_lift (ok_or (rt_dynamic runtime) RuntimeInvalidConfiguration);
  attempt ← find_attempt attempt_id;
  leases ← on_store ActiveLeases;
  let leased_device := lease_device_id <$> List.find (fun l => bool_decide (as_str (lease_attempt_id l) = attempt_id)) leases in
  selected ←
    match leased_device with
    | Some device_id =>
        exec_lift (ok_or (List.find (fun d => bool_decide (acc_device_id d = device_id)) (dy_inventory dynamic)) integrity)
    | None =>
        if bool_decide (la_phase attempt = PhaseFinished)
        then exec_lift (ok_or (head (dy_inventory dynamic)) RuntimeInvalidConfiguration)
        else
          snapshot ← attempt_effect (fun error => RuntimeBackend (device_backend_error error)) SnapshotDevices;
          selected ← exec_lift (map_err (fun error => RuntimeBackend (device_backend_error error))
            (select_ready_device (dy_inventory dynamic) snapshot leases (dy_selection dynamic)));
          mret (sd_identity selected)
    end;
  supervisor ← exec_lift (dy_supervisor_factory dynamic selected);
  exec_lift (runtime_new (rt_worker_id runtime) supervisor (rt_environment runtime)).

(** [run] and [run_observed_and_publish]: with a publisher or without. *)
Definition runtime_run (runtime : ExecutionRuntime) (publishing : bool) (attempt_id : string) :
    Exec ExecutionRuntimeError ExecutionRun :=
  match rt_dynamic runtime with
  | Some _ =>
      bound ← runtime_for_attempt runtime attempt_id;
      run_inner bound publishing attempt_id
  | None => run_inner runtime publishing attempt_id
  end.

(** [ExecutionBackend::execute] of both backends: the input is fetched
    first, when there is a provider. *)
Definition backend_execute (runtime : ExecutionRuntime) (providing publishing : bool) (attempt_id : string) :
    Exec BackendError ExecutionRun :=
  exec_map_err runtime_backend_error
    (_ ← (if providing then
            attempt ← find_attempt attempt_id;
            attempt_effect RuntimeArtifactInput (ProvideInput (bundle (ac_execution (la_assignment attempt))))
          else mret tt);
     runtime_run runtime publishing attempt_id).

(** [ExecutionBackend::retry_terminal_cleanup] of both backends. *)
Definition retry_terminal_cleanup (runtime : ExecutionRuntime) (attempt_id : string) : Exec BackendError unit :=
  exec_map_err runtime_backend_error (_ ← runtime_run runtime false attempt_id; mret tt).

End executions.
