(* ===== verification/Platforms.v ===== *)
(** * The platforms of a worker

    Of [src/crates/alloyport-worker/src]: the supervisors of
    [cuda_supervisor.rs] and [ascend_supervisor.rs] as instances of the
    class [Platform] of Executions.v.  A supervisor is its policy: its store
    is reached by the effects of the program. *)

From stdpp Require Import base strings list.
From S2P Require Import Prelude Text Digest Identity Vocabulary ReductionRun BuildGate WorkerJournal Devices Containers CudaContract AscendContract CorrectnessContract Effects Sandboxes Executions.

Local Open Scope N_scope.

(** ** Outcomes *)

(** [OUTCOME_POLICY] and [CORRECTNESS_OUTCOME_POLICY] of
    [cuda_supervisor.rs]. *)
Definition CUDA_OUTCOME_POLICY : FixtureOutcomePolicy :=
  MkFixturePolicy VECTOR_ADD_FIXTURE_ID "CUDA fixture exited" "CUDA fixture returned a nonzero exit code"
    "CUDA fixture exited zero without its verification marker".

Definition CUDA_CORRECTNESS_OUTCOME_POLICY : CorrectnessOutcomePolicy :=
  MkCorrectnessPolicy "CUDA correctness runner exited" "CUDA correctness runner returned a nonzero exit code"
    "CUDA correctness runner emitted an invalid structured receipt".

(** [OUTCOME_POLICY], [BUILD_OUTCOME_POLICY] and
    [CORRECTNESS_OUTCOME_POLICY] of [ascend_supervisor.rs]. *)
Definition ASCEND_OUTCOME_POLICY : FixtureOutcomePolicy :=
  MkFixturePolicy ASCEND_ADD_FIXTURE_ID "Ascend fixture exited" "Ascend fixture returned a nonzero exit code"
    "Ascend fixture exited zero without its verification marker".

Definition BUILD_OUTCOME_POLICY : FixtureOutcomePolicy :=
  MkFixturePolicy ASCEND_BUILD_FEATURE "Ascend build exited"
    "Ascend compiler or linker returned a nonzero exit code"
    "Ascend build exited zero without its trusted completion marker".

Definition ASCEND_CORRECTNESS_OUTCOME_POLICY : CorrectnessOutcomePolicy :=
  MkCorrectnessPolicy "Ascend correctness runner exited" "Ascend correctness runner returned a nonzero exit code"
    "Ascend correctness runner emitted an invalid structured receipt".

(** ** Supervisors *)

(** [enum CudaSupervisorPolicy]. *)
Inductive CudaSupervisorPolicy :=
| CudaSupervisedFixture (policy : CudaFixturePolicy)
| CudaSupervisedCorrectness (policy : ReductionCorrectnessPolicy).

(** [enum AscendSupervisorPolicy]. *)
Inductive AscendSupervisorPolicy :=
| AscendSupervisedFixture (policy : AscendFixturePolicy)
| AscendSupervisedBuild (policy : AscendBuildPolicy)
| AscendSupervisedCorrectness (policy : ReductionCorrectnessPolicy) (device : AcceleratorDevice)
    (environment : AscendEnvironmentFacts).

(** [AscendContainerSupervisor::new_correctness]. *)
Definition ascend_supervisor_new_correctness (policy : ReductionCorrectnessPolicy) :
    result CorrectnessContractError AscendSupervisorPolicy :=
  device ← ok_or (correctness_ascend_device policy) CorrectnessWrongBackend;
  environment ← ok_or (correctness_ascend_environment policy) CorrectnessWrongBackend;
  Ok (AscendSupervisedCorrectness policy device environment).

(** [device] and [environment] of [AscendContainerSupervisor]. *)
Definition ascend_supervisor_device (supervisor : AscendSupervisorPolicy) : AcceleratorDevice :=
  match supervisor with
  | AscendSupervisedFixture policy => afp_device policy
  | AscendSupervisedBuild policy => abp_device policy
  | AscendSupervisedCorrectness _ device _ => device
  end.

Definition ascend_supervisor_environment (supervisor : AscendSupervisorPolicy) : AscendEnvironmentFacts :=
  match supervisor with
  | AscendSupervisedFixture policy => afp_environment policy
  | AscendSupervisedBuild policy => abp_environment policy
  | AscendSupervisedCorrectness _ _ environment => environment
  end.

(** [executor_kind] and [device_id] of the supervisors. *)
Definition cuda_supervisor_kind (supervisor : CudaSupervisorPolicy) : ExecutionKind :=
  match supervisor with CudaSupervisedFixture _ => CudaFixture | CudaSupervisedCorrectness _ => CudaCorrectness end.

Definition cuda_supervisor_device_id (supervisor : CudaSupervisorPolicy) : string :=
  match supervisor with
  | CudaSupervisedFixture policy => cp_device_id policy
  | CudaSupervisedCorrectness policy => correctness_device_id policy
  end.

Definition ascend_supervisor_kind (supervisor : AscendSupervisorPolicy) : ExecutionKind :=
  match supervisor with
  | AscendSupervisedFixture _ => AscendFixture
  | AscendSupervisedBuild _ => AscendBuild
  | AscendSupervisedCorrectness _ _ _ => AscendCorrectness
  end.

Section platforms.
Context `{Sha256} `{SandboxText} `{ReductionJson} `{ExecutionText} `{ReceiptJson}.

(** The first [match] of [CudaContainerSupervisor::run_with_facts_observed]. *)
Definition cuda_prepare (supervisor : CudaSupervisorPolicy) (assignment : AssignmentContract) :
    Exec SupervisorError (string * ContainerPlan * string) :=
  match supervisor with
  | CudaSupervisedFixture policy =>
      exec_map_err (fun error => SupervisorContract (ViolatedCuda error))
        (sandbox ← materialize_bundle policy assignment;
         plan ← exec_lift (docker_create_plan policy assignment sandbox);
         mret (sb_source_digest sandbox, CudaPlan plan, dp_device_id plan))
  | CudaSupervisedCorrectness policy =>
      exec_map_err (fun error => SupervisorContract (ViolatedCorrectness error))
        (sandbox ← correctness_materialize_bundle policy assignment;
         plan ← exec_lift (correctness_cuda_plan policy assignment sandbox);
         mret (digest_display (csb_implementation_digest sandbox), CudaPlan plan, dp_device_id plan))
  end.

(** The end of [CudaContainerSupervisor::run_with_facts_observed]. *)
Definition cuda_classify (supervisor : CudaSupervisorPolicy) (termination : ContainerTermination) (logs : ContainerLogs)
    (timeout : N) : ExecutorResult :=
  match supervisor with
  | CudaSupervisedFixture _ => classify_fixture_outcome termination logs timeout CUDA_OUTCOME_POLICY
  | CudaSupervisedCorrectness _ => classify_correctness_outcome termination logs timeout CUDA_CORRECTNESS_OUTCOME_POLICY
  end.

(** The first [match] of [AscendContainerSupervisor::run_with_facts_observed]. *)
Definition planned_on_ascend (digest : string) (plan : AscendDockerCreatePlan) :
    string * ContainerPlan * (AcceleratorDevice * AscendEnvironmentFacts) :=
  (digest, AscendPlan plan, (ap_device plan, ap_environment plan)).

Definition ascend_prepare (supervisor : AscendSupervisorPolicy) (assignment : AssignmentContract) :
    Exec SupervisorError (string * ContainerPlan * (AcceleratorDevice * AscendEnvironmentFacts)) :=
  match supervisor with
  | AscendSupervisedFixture policy =>
      exec_map_err (fun error => SupervisorContract (ViolatedAscend error))
        (sandbox ← ascend_materialize_bundle policy assignment;
         plan ← exec_lift (ascend_docker_create_plan policy assignment sandbox);
         mret (planned_on_ascend (asb_source_digest sandbox) plan))
  | AscendSupervisedBuild policy =>
      exec_map_err (fun error => SupervisorContract (ViolatedBuild error))
        (sandbox ← build_materialize_bundle policy assignment;
         plan ← exec_lift (build_docker_create_plan policy assignment sandbox);
         mret (planned_on_ascend (digest_display (bsb_bundle_digest sandbox)) plan))
  | AscendSupervisedCorrectness policy _ _ =>
      exec_map_err (fun error => SupervisorContract (ViolatedCorrectness error))
        (sandbox ← correctness_materialize_bundle policy assignment;
         plan ← exec_lift (correctness_ascend_plan policy assignment sandbox);
         mret (planned_on_ascend (digest_display (csb_implementation_digest sandbox)) plan))
  end.

(** [classify_outcome] of [ascend_supervisor.rs]. *)
Definition ascend_classify (supervisor : AscendSupervisorPolicy) (termination : ContainerTermination)
    (logs : ContainerLogs) (timeout : N) : ExecutorResult :=
  match supervisor with
  | AscendSupervisedCorrectness _ _ _ =>
      classify_correctness_outcome termination logs timeout ASCEND_CORRECTNESS_OUTCOME_POLICY
  | AscendSupervisedFixture _ => classify_fixture_outcome termination logs timeout ASCEND_OUTCOME_POLICY
  | AscendSupervisedBuild _ => classify_fixture_outcome termination logs timeout BUILD_OUTCOME_POLICY
  end.

(** The receipts of [CudaExecutionRuntime::persist] and of
    [AscendExecutionRuntime::persist]. *)
Definition cuda_receipt (environment : CudaEnvironmentFacts) (device_id : string) (parts : ReceiptParts) : option bytes :=
  cuda_receipt_to_vec (MkCudaReceipt 3 device_id environment parts).

Definition ascend_receipt (device : AcceleratorDevice * AscendEnvironmentFacts) (parts : ReceiptParts) : option bytes :=
  ascend_receipt_to_vec (MkAscendReceipt 2 device.1 device.2 parts).

(** A CUDA runtime keeps the environment it was given, an Ascend one takes
    the one of its supervisor; only the former refuses an empty device. *)
#[export] Instance cuda_platform : Platform CudaSupervisorPolicy CudaEnvironmentFacts string := {|
  pf_executor_kind := cuda_supervisor_kind;
  pf_device_id := cuda_supervisor_device_id;
  pf_device_refused := trim_is_empty;
  pf_environment := fun environment _ => environment;
  pf_prepare := cuda_prepare;
  pf_classify := cuda_classify;
  pf_description := "policy-bound CUDA fixture";
  pf_receipt := cuda_receipt;
|}.

#[export] Instance ascend_platform :
    Platform AscendSupervisorPolicy AscendEnvironmentFacts (AcceleratorDevice * AscendEnvironmentFacts) := {|
  pf_executor_kind := ascend_supervisor_kind;
  pf_device_id := fun supervisor => acc_device_id (ascend_supervisor_device supervisor);
  pf_device_refused := fun _ => false;
  pf_environment := fun _ supervisor => ascend_supervisor_environment supervisor;
  pf_prepare := ascend_prepare;
  pf_classify := ascend_classify;
  pf_description := "policy-bound Ascend fixture";
  pf_receipt := fun _ => ascend_receipt;
|}.

End platforms.

(** [struct CudaExecutionRuntime] and [struct AscendExecutionRuntime]. *)
Definition CudaExecutionRuntime : Type := ExecutionRuntime (S:=CudaSupervisorPolicy) (V:=CudaEnvironmentFacts).
Definition AscendExecutionRuntime : Type := ExecutionRuntime (S:=AscendSupervisorPolicy) (V:=AscendEnvironmentFacts).
