(* ===== verification/FakeExecutor.v ===== *)
(** * The deterministic executor

    [src/crates/alloyport-worker/src/fake_executor.rs] and the
    [FakeExecutionRuntime] of [executor.rs].  The receiver of the output
    channel forwards every chunk it gets in order, so a chunk is observed
    when its send is accepted.  A duration is its milliseconds. *)

From stdpp Require Import base strings pretty list.
From S2P Require Import Prelude Text Digest Identity Vocabulary Artifacts WorkerJournal WorkerUpdates Containers Effects Executions.

Local Open Scope N_scope.

(** ** Plans *)

(** [enum FakeStep], [enum FakeCompletion], [struct FakeExecutionPlan]. *)
Inductive FakeStep := StepStdout (content : bytes) | StepStderr (content : bytes) | StepDelay (milliseconds : N).
Inductive FakeCompletion := CompletionExit (code : Z) | CompletionFailure (detail : string).
Record FakeExecutionPlan := MkFakePlan { fp_steps : list FakeStep; fp_completion : FakeCompletion }.

(** [FakeExecutionPlan::successful]. *)
Definition successful (steps : list FakeStep) : FakeExecutionPlan := MkFakePlan steps (CompletionExit 0).

(** [enum ExecutionTermination]. *)
Inductive ExecutionTermination := ExecutionCancelled | ExecutionTimedOut | OutputLimitExceeded | OutputReceiverClosed.

#[export] Instance ExecutionTermination_eq_dec : EqDecision ExecutionTermination.
Proof. solve_decision. Defined.

(** [struct OutputAccumulator]. *)
Record OutputAccumulator := MkAccumulator {
  oa_stdout : bytes;
  oa_stderr : bytes;
  oa_total_output : N;
  oa_limit : N;
}.

Definition accumulator_new (limit : N) : OutputAccumulator := MkAccumulator [] [] 0 limit.

(** ** Execution *)

(** What is accumulated of a stream, and the stream extended. *)
Definition stream_bytes (stream : ExecutionStream) (acc : OutputAccumulator) : bytes :=
  match stream with ExecutionStdout => oa_stdout acc | ExecutionStderr => oa_stderr acc end.

Definition extend (stream : ExecutionStream) (content : bytes) (total : N) (acc : OutputAccumulator) : OutputAccumulator :=
  match stream with
  | ExecutionStdout => MkAccumulator (oa_stdout acc ++ content) (oa_stderr acc) total (oa_limit acc)
  | ExecutionStderr => MkAccumulator (oa_stdout acc) (oa_stderr acc ++ content) total (oa_limit acc)
  end.

(** The accumulator after a step, the logical time, and how the step ended. *)
Definition Stepped : Type := OutputAccumulator * N * result ExecutionTermination unit.

Section fake.
Context `{Sha256} `{ExecutionText}.

(** [OutputAccumulator::emit]. *)
Definition emit (worker_id : string) (input : ExecutorInput) (stream : ExecutionStream) (content : bytes)
    (acc : OutputAccumulator) (elapsed : N) : Prog Stepped :=
  let next_total := saturating_add u64_max (oa_total_output acc) (byte_len content) in
  if oa_limit acc <? next_total then Done (acc, elapsed, Err OutputLimitExceeded) else
  let byte_offset := byte_len (stream_bytes stream acc) in
  let acc := extend stream content next_total acc in
  Do (SendChunk (xi_timeout_ms input)) (fun ready =>
    match ready with
    | SendCancelled => Done (acc, elapsed, Err ExecutionCancelled)
    | SendTimedOut => Done (acc, elapsed, Err ExecutionTimedOut)
    | SendClosed => Done (acc, elapsed, Err OutputReceiverClosed)
    | SendAccepted =>
        prog_bind (forward_chunk (E:=ExecutionTermination) worker_id input (MkExecutionChunk stream byte_offset content))
          (fun _ => Done (acc, elapsed, Ok tt))
    end).

(** [wait_step], and the time it adds. *)
Definition wait_step (input : ExecutorInput) (milliseconds : N) (acc : OutputAccumulator) (elapsed : N) : Prog Stepped :=
  Do (Delay (xi_timeout_ms input) milliseconds) (fun ready =>
    Done match ready with
         | DelayCancelled => (acc, elapsed, Err ExecutionCancelled)
         | DelayTimedOut => (acc, elapsed, Err ExecutionTimedOut)
         | DelayElapsed => (acc, saturating_add u64_max elapsed (N.min u64_max milliseconds), Ok tt)
         end).

Definition run_step (worker_id : string) (input : ExecutorInput) (step : FakeStep) (acc : OutputAccumulator)
    (elapsed : N) : Prog Stepped :=
  match step with
  | StepStdout content => emit worker_id input ExecutionStdout content acc elapsed
  | StepStderr content => emit worker_id input ExecutionStderr content acc elapsed
  | StepDelay milliseconds => wait_step input milliseconds acc elapsed
  end.

(** The loop over the steps; a termination ends it. *)
Fixpoint run_steps (worker_id : string) (input : ExecutorInput) (steps : list FakeStep) (acc : OutputAccumulator)
    (elapsed : N) : Prog Stepped :=
  match steps with
  | [] => Done (acc, elapsed, Ok tt)
  | step :: steps =>
      prog_bind (run_step worker_id input step acc elapsed) (fun '(acc, elapsed, ended) =>
        match ended with
        | Err termination => Done (acc, elapsed, Err termination)
        | Ok _ => run_steps worker_id input steps acc elapsed
        end)
  end.

(** [terminal_result]. *)
Definition terminal_result (termination : ExecutionTermination) (elapsed_ms : N) (acc : OutputAccumulator) :
    ExecutorResult :=
  let '(outcome, detail) :=
    match termination with
    | ExecutionCancelled => (OutcomeCancelled, "execution cancelled")
    | ExecutionTimedOut => (OutcomeTimedOut, "execution timed out")
    | OutputLimitExceeded => (OutcomeInfraError, "execution output limit exceeded")
    | OutputReceiverClosed => (OutcomeInfraError, "execution output receiver closed")
    end in
  MkExecutorResult outcome None elapsed_ms (oa_stdout acc) (oa_stderr acc) detail.

(** The result of a plan that was not terminated. *)
Definition completed_result (completion : FakeCompletion) (elapsed_ms : N) (acc : OutputAccumulator) : ExecutorResult :=
  let '(outcome, exit_code, detail) :=
    match completion with
    | CompletionExit 0 => (OutcomeSucceeded, Some 0%Z, "completed")
    | CompletionExit code => (CandidateFailed, Some code, "fake executor exited with code " +:+ pretty code)
    | CompletionFailure detail => (OutcomeInfraError, None, detail)
    end in
  MkExecutorResult outcome exit_code elapsed_ms (oa_stdout acc) (oa_stderr acc) detail.

(** [FakeExecutor::execute]. *)
Definition execute_plan (worker_id : string) (plan : FakeExecutionPlan) (input : ExecutorInput) : Prog ExecutorResult :=
  prog_bind (run_steps worker_id input (fp_steps plan) (accumulator_new (xi_output_limit_bytes input)) 0)
    (fun '(acc, elapsed, ended) =>
       Done match ended with
            | Err termination =>
                terminal_result termination
                  (if bool_decide (termination = ExecutionTimedOut) then xi_timeout_ms input else elapsed) acc
            | Ok _ => completed_result (fp_completion plan) elapsed acc
            end).

(** ** The runtime *)

(** [FakeExecutionRuntime::new]. *)
Definition fake_runtime_new (worker_id : string) (output_channel_capacity : N) : result ExecutionRuntimeError string :=
  _ ← guard_err (trim_is_empty worker_id) RuntimeInvalidConfiguration;
  _ ← guard_err (output_channel_capacity =? 0) RuntimeInvalidConfiguration;
  Ok worker_id.

(** [execute_with_events]. *)
Definition execute_with_events (worker_id : string) (plan : FakeExecutionPlan) (input : ExecutorInput) :
    Exec ExecutionRuntimeError ExecutorResult :=
  _ ← push_event worker_id input (command_started worker_id "deterministic fake executor" input);
  prog_bind (execute_plan worker_id plan input) (fun result => Done (Ok result)).

(** [persist_result]. *)
Definition persist_result (worker_id : string) (input : ExecutorInput) (result : ExecutorResult) :
    Exec ExecutionRuntimeError PersistedExecution :=
  stdout ← store_artifact (er_stdout result) STDOUT_MEDIA_TYPE;
  stderr ← store_artifact (er_stderr result) STDERR_MEDIA_TYPE;
  receipt ← exec_lift (ok_or (fake_receipt_to_vec
    (MkFakeReceipt 1 worker_id (receipt_input input) (attempt_outcome_name (er_outcome result)) (er_exit_code result)
       (er_elapsed_ms result) (ad_digest stdout) (ad_digest stderr) (er_detail result))) RuntimeSerialization);
  receipt ← store_artifact receipt RECEIPT_MEDIA_TYPE;
  mret (MkPersisted (finished_of result stdout stderr receipt) stdout stderr receipt).

(** [FakeExecutionRuntime::run_inner]. *)
Definition fake_run_inner (worker_id : string) (plan : FakeExecutionPlan) (publishing : bool) (attempt_id : string) :
    Exec ExecutionRuntimeError ExecutionRun :=
  with_claim attempt_id
    (attempt ← find_attempt attempt_id;
     if bool_decide (la_phase attempt = PhaseFinished) then
       finished ← exec_lift (ok_or (la_finished attempt) (RuntimeMissingTerminalData attempt_id));
       mret (MkExecutionRun finished (terminal_reference_intents attempt_id finished) true)
     else
       _ ← on_store (MarkRunning attempt_id);
       _ ← ask (Observe ObservedStarted);
       let input := executor_input (la_assignment attempt) in
       result ← execute_with_events worker_id plan input;
       persisted ← persist_result worker_id input result;
       let references := terminal_reference_intents attempt_id (pv_finished persisted) in
       _ ← publish_references publishing references;
       _ ← on_store (MarkFinished attempt_id (pv_finished persisted));
       _ ← append_terminal_events worker_id input persisted;
       mret (MkExecutionRun (pv_finished persisted) references false)).

(** [ExecutionBackend::execute] of the fake backend. *)
Definition fake_execute (worker_id : string) (plan : FakeExecutionPlan) (publishing : bool) (attempt_id : string) :
    Exec BackendError ExecutionRun :=
  exec_map_err runtime_backend_error (fake_run_inner worker_id plan publishing attempt_id).

End fake.
