(* ===== verification/ExecutionProtocol.v ===== *)
(** * The protocol of an execution

    What a task knows while it runs ([Know]), which effects that allows it
    ([permits]) and what it learns from them ([learn]).  A program follows
    the protocol when each of its effects is allowed by what it has learnt
    ([follows]); the programs of Executions.v and FakeExecutor.v do,
    whatever they are answered.  What following the protocol means for a
    host is in ExecutionInvariant.v. *)

From stdpp Require Import base strings list.
From S2P Require Import Prelude Text Digest Identity Vocabulary ReductionRun Artifacts WorkerJournal WorkerSession WorkerUpdates Devices Containers CudaContract AscendContract CorrectnessContract Effects Sandboxes Executions Platforms FakeExecutor.

Local Open Scope N_scope.

Definition container_name (attempt_id : string) : string := "alloyport-" +:+ attempt_id.

(** ** Knowledge

    Of the attempt of the task: it holds the claim; under the claim it read
    the attempt as unfinished and has not removed its container; the
    container was never started; the attempt is past its acceptance; it is
    finished; its container was removed; the container is there and was not
    started; the last observation of a device; what was published last and
    what was stored. *)

Record Know := MkKnow {
  k_claimed : bool;
  k_unfinished : bool;
  k_unstarted : bool;
  k_running : bool;
  k_finished : bool;
  k_removed : bool;
  k_created : bool;
  k_observed : option DeviceObservation;
  k_published : option (list ArtifactReferenceIntent);
  k_ingested : list bytes;
}.

Definition know_nothing : Know := MkKnow false false false false false false false None None [].
Definition know_finished : Know := MkKnow false false false false true false false None None [].

(** What an execution is run with: whether outputs are published, and the
    devices an attempt may be run on. *)
Record Setting := MkSetting {
  set_publishing :> bool;
  set_device : string -> string -> Prop;
}.

Section protocol.
Context `{Sha256} (id : string) (publishing : Setting).

Definition descriptor_of (content : bytes) (media_type : string) : ArtifactDescriptor :=
  MkArtifactDescriptor (digest_bytes content) (byte_len content) media_type.

(** The outputs of a terminal record are among the stored contents. *)
Definition outputs_among (contents : list bytes) (finished : StoredFinished) : Prop :=
  exists stdout stderr receipt, stdout ∈ contents /\ stderr ∈ contents /\ receipt ∈ contents
    /\ sf_stdout finished = Some (descriptor_of stdout STDOUT_MEDIA_TYPE)
    /\ sf_stderr finished = Some (descriptor_of stderr STDERR_MEDIA_TYPE)
    /\ sf_receipt finished = Some (descriptor_of receipt RECEIPT_MEDIA_TYPE).

(** When a lease may be released: a device of the attempt was seen ready
    and nothing was started on it, or the attempt is finished, its container
    removed, and after that the device was seen reusable. *)
Definition may_release (k : Know) : Prop :=
  exists o, k_observed k = Some o /\ set_device publishing id (obs_device_id o)
    /\ (k_unstarted k = true /\ obs_health o = DeviceReady
        \/ k_finished k = true /\ k_removed k = true /\ reusable o = true).

Definition permits_call {X} (k : Know) (call : EngineCall X) : Prop :=
  match call with
  | CreateContainer plan _ =>
      plan_container_name plan = container_name id /\ k_claimed k = true /\ k_unfinished k = true /\ k_running k = true
  | StartContainer name =>
      name = container_name id /\ k_claimed k = true /\ k_unfinished k = true /\ k_running k = true /\ k_created k = true
  | RemoveContainer name => name = container_name id /\ k_claimed k = true /\ k_finished k = true
  | StopContainer name => name = container_name id /\ k_claimed k = true
  | _ => True
  end.

Definition permits {X} (k : Know) (e : Effect X) : Prop :=
  match e with
  | AcquireClaim i => i = id /\ k_claimed k = false
  | DropClaim i => i = id /\ k_claimed k = true
  | MarkRunning i => i = id /\ k_claimed k = true
  | MarkFinished i finished =>
      i = id /\ k_claimed k = true /\ outputs_among (k_ingested k) finished
      /\ (set_publishing publishing = true -> k_published k = Some (terminal_reference_intents id finished))
  | AcquireLease i device => as_str i = id /\ k_claimed k = true /\ set_device publishing id device
  | ReleaseLease i => as_str i = id /\ k_claimed k = true /\ may_release k
  | RecordPreflight i _ => as_str i = id /\ k_claimed k = true
  | OnEngine call => permits_call k call
  | _ => True
  end.

(** ** Learning *)

Definition learn_attempt (k : Know) (attempt : LocalAttemptRecord) : Know :=
  let phase := la_phase attempt in
  if bool_decide (phase = PhaseFinished) then
    MkKnow (k_claimed k) (k_unfinished k) (k_unstarted k) (k_running k) true (k_removed k) (k_created k) (k_observed k)
      (k_published k) (k_ingested k)
  else
    MkKnow (k_claimed k) (k_claimed k) (k_claimed k && bool_decide (phase = PhaseAccepted))
      (bool_decide (phase = PhaseRunning)) (k_finished k) (k_removed k) false (k_observed k) (k_published k) (k_ingested k).

Definition learn_observed (k : Know) (o : option DeviceObservation) : Know :=
  MkKnow (k_claimed k) (k_unfinished k) (k_unstarted k) (k_running k) (k_finished k) (k_removed k) (k_created k) o
    (k_published k) (k_ingested k).

Definition learn_inspected (k : Know) (created : bool) : Know :=
  MkKnow (k_claimed k) (k_unfinished k) (k_unstarted k) (k_running k) (k_finished k) (k_removed k)
    (created && k_claimed k && k_unfinished k) (k_observed k) (k_published k) (k_ingested k).

Definition learn_started (k : Know) : Know :=
  MkKnow (k_claimed k) (k_unfinished k) false (k_running k) (k_finished k) (k_removed k) false (k_observed k)
    (k_published k) (k_ingested k).

Definition learn_removed (k : Know) : Know :=
  MkKnow (k_claimed k) false (k_unstarted k) (k_running k) (k_finished k) true false None (k_published k) (k_ingested k).

Definition ok_value {F X} (r : result F X) : option X := match r with Ok x => Some x | Err _ => None end.

Definition learn_call {X} (k : Know) (call : EngineCall X) : X -> Know :=
  match call in EngineCall X return X -> Know with
  | InspectContainer name => fun r =>
      if bool_decide (name = container_name id) then
        learn_inspected k
          match r with Ok (Some snapshot) => bool_decide (cs_phase snapshot = ContainerCreated) | _ => false end
      else k
  | StartContainer _ => fun _ => learn_started k
  | RemoveContainer _ => fun _ => learn_removed k
  | _ => fun _ => k
  end.

Definition learn {X} (k : Know) (e : Effect X) : X -> Know :=
  match e in Effect X return X -> Know with
  | AcquireClaim _ => fun claimed =>
      MkKnow claimed false false false (k_finished k) false false None None []
  | DropClaim _ => fun _ => know_nothing
  | FindAttempt i => fun found =>
      match found with
      | Some attempt => if bool_decide (i = id) then learn_attempt k attempt else k
      | None => k
      end
  | MarkRunning _ => fun r =>
      match r with
      | Ok _ => MkKnow (k_claimed k) (k_unfinished k) (k_unstarted k) true (k_finished k) (k_removed k) (k_created k)
                  (k_observed k) (k_published k) (k_ingested k)
      | Err _ => k
      end
  | MarkFinished _ _ => fun r =>
      match r with
      | Ok _ => MkKnow (k_claimed k) (k_unfinished k) (k_unstarted k) (k_running k) true (k_removed k) (k_created k)
                  (k_observed k) (k_published k) (k_ingested k)
      | Err _ => k
      end
  | ObserveDevice _ | RecoverDevice _ => fun r => learn_observed k (ok_value r)
  | OnEngine call => learn_call k call
  | IngestArtifact content => fun r =>
      match r with
      | Ok _ => MkKnow (k_claimed k) (k_unfinished k) (k_unstarted k) (k_running k) (k_finished k) (k_removed k)
                  (k_created k) (k_observed k) (k_published k) (content :: k_ingested k)
      | Err _ => k
      end
  | Publish references => fun r =>
      match r with
      | Ok _ => MkKnow (k_claimed k) (k_unfinished k) (k_unstarted k) (k_running k) (k_finished k) (k_removed k)
                  (k_created k) (k_observed k) (Some references) (k_ingested k)
      | Err _ => k
      end
  | _ => fun _ => k
  end.

(** What an answer can be: an attempt is found under its identity, a
    finished one stays finished, and a store answers with the identity of the content. *)
Definition possible {X} (k : Know) (e : Effect X) : X -> Prop :=
  match e in Effect X return X -> Prop with
  | FindAttempt i => fun found =>
      (forall attempt, found = Some attempt -> as_str (ac_attempt_id (la_assignment attempt)) = i)
      /\ (i = id -> k_finished k = true ->
          exists attempt, found = Some attempt /\ la_phase attempt = PhaseFinished)
  | IngestArtifact content => fun r =>
      forall x, r = Ok x -> ir_artifact x = MkArtifactIdentity (digest_bytes content) (byte_len content)
  | _ => fun _ => True
  end.

(** ** Following the protocol

    Every effect of the program is permitted, and when it ends [Q] holds of
    what it knows and returns. *)

Fixpoint follows {A} (k : Know) (p : Prog A) (Q : Know -> A -> Prop) : Prop :=
  match p with
  | Done a => Q k a
  | Do e c => permits k e /\ forall x, possible k e x -> follows (learn k e x) (c x) Q
  end.

Lemma follows_impl {A} k (p : Prog A) (Q R : Know -> A -> Prop) :
  follows k p Q -> (forall k a, Q k a -> R k a) -> follows k p R.
Proof.
  intros Hp HQ. revert k Hp. induction p as [a|X e c IH]; cbn; [auto|].
  intros k [He Hc]. split; [done|]. auto.
Qed.

Lemma follows_bind {A B} k (p : Prog A) (f : A -> Prog B) Q :
  follows k p (fun k a => follows k (f a) Q) -> follows k (prog_bind p f) Q.
Proof.
  revert k. induction p as [a|X e c IH]; cbn; [auto|]. intros k [He Hc]. split; [done|]. auto.
Qed.

(** The same for computations that can fail: [Q] is about their value, and
    a failure ends them with [F]. *)
Definition post {E A} (F : Know -> Prop) (Q : Know -> A -> Prop) (k : Know) (r : result E A) : Prop :=
  match r with Ok a => Q k a | Err _ => F k end.

Lemma follows_exec {E A B} k (m : Exec E A) (f : A -> Exec E B) F Q :
  follows k m (post F (fun k a => follows k (f a) (post F Q))) -> follows k (m ≫= f) (post F Q).
Proof. intros Hm. apply follows_bind. eapply follows_impl; [exact Hm|]. intros k' [a|e]; done. Qed.

Lemma follows_ret {E A} k (a : A) F (Q : Know -> A -> Prop) : Q k a -> follows k (mret a : Exec E A) (post F Q).
Proof. done. Qed.

Lemma follows_fail {E A} k (e : E) F (Q : Know -> A -> Prop) : F k -> follows k (exec_fail e : Exec E A) (post F Q).
Proof. done. Qed.

Lemma follows_lift {E A} k (r : result E A) F (Q : Know -> A -> Prop) :
  (forall a, r = Ok a -> Q k a) -> F k -> follows k (exec_lift r) (post F Q).
Proof. destruct r; cbn; auto. Qed.

Lemma follows_map_err {E G A} k (g : E -> G) (m : Exec E A) F Q :
  follows k m (post F Q) -> follows k (exec_map_err g m) (post F Q).
Proof. intros Hm. apply follows_bind. eapply follows_impl; [exact Hm|]. intros k' [a|e]; done. Qed.

Lemma follows_ask {E X} k (e : Effect X) F (Q : Know -> X -> Prop) :
  permits k e -> (forall x, possible k e x -> Q (learn k e x) x) -> follows k (ask (E:=E) e) (post F Q).
Proof. cbn. auto. Qed.

Lemma follows_attempt {E G X} k (g : G -> E) (e : Effect (result G X)) F (Q : Know -> X -> Prop) :
  permits k e -> (forall x, possible k e (Ok x) -> Q (learn k e (Ok x)) x) ->
  (forall er, possible k e (Err er) -> F (learn k e (Err er))) -> follows k (attempt_effect g e) (post F Q).
Proof. cbn. intros ? HQ HF. split; [done|]. intros [x|er]; cbn; auto. Qed.

Lemma follows_conseq {E A} k (m : Exec E A) (F F' : Know -> Prop) (Q Q' : Know -> A -> Prop) :
  follows k m (post F Q) -> (forall k, F k -> F' k) -> (forall k a, Q k a -> Q' k a) -> follows k m (post F' Q').
Proof. intros Hm HF HQ. eapply follows_impl; [exact Hm|]. intros k' [a|e]; cbn; auto. Qed.

End protocol.

(** One step of a computation: the bind is split, its head is resolved when
    it is an effect or a pure result. *)
Ltac head_step :=
  first [ apply follows_ask; [|intros ? ?]
        | apply follows_attempt; [|intros ? ?|intros ? ?]
        | apply follows_ret
        | apply follows_fail
        | apply follows_lift; [intros ? ?|] ].
Ltac step_exec := first [apply follows_exec; head_step | head_step].

(** ** The device guard *)

Section sandboxes.
Context `{Sha256} (id : string) (publishing : Setting).

(** What a part of a run does not change: everything but the observation of
    a device. *)
Definition same_core (k k' : Know) : Prop :=
  k_claimed k' = k_claimed k /\ k_unfinished k' = k_unfinished k /\ k_unstarted k' = k_unstarted k
  /\ k_running k' = k_running k /\ k_finished k' = k_finished k /\ k_removed k' = k_removed k
  /\ k_published k' = k_published k /\ k_ingested k' = k_ingested k.

Definition claimed (k : Know) : Prop := k_claimed k = true.

Lemma ensure_device_Ok device o u : ensure_device device o = Ok u -> obs_device_id o = device.
Proof. unfold ensure_device. rewrite guard_err_Ok, negb_false_iff, bool_decide_eq_true. done. Qed.

Ltac ensured :=
  match goal with H : map_err _ (ensure_device _ ?o) = Ok _ |- set_device _ _ (obs_device_id ?o) =>
    apply map_err_Ok, ensure_device_Ok in H; by rewrite H end.

Lemma acquire_and_preflight_follows k typed device :
  as_str typed = id -> set_device publishing id device -> claimed k -> k_unstarted k = true ->
  follows id publishing k (acquire_and_preflight typed device) (post claimed (fun k' _ => same_core k k')).
Proof.
  intros Hid Hd Hc Hu. unfold acquire_and_preflight, journal_guard.
  step_exec; [done| |done]. step_exec; [done|]. step_exec; [|done].
  step_exec; [done| |done]. cbn [learn ok_value]. step_exec; [|done].
  destruct (reusable _) eqn:Hr.
  - destruct x0; [step_exec; unfold same_core; tauto|].
    step_exec; [done| |done]. step_exec. unfold same_core. cbn. tauto.
  - destruct (bool_decide _) eqn:Hready; [|step_exec; done].
    destruct x0; [step_exec; done|].
    apply bool_decide_eq_true in Hready.
    step_exec; [|step_exec; done|done]. cbn. split; [done|]. split; [done|]. exists x1. split; [done|]. split; [ensured|auto].
Qed.

Lemma cleanup_after_terminal_follows k typed device :
  as_str typed = id -> set_device publishing id device -> claimed k -> k_finished k = true -> k_removed k = true ->
  follows id publishing k (cleanup_after_terminal typed device) (post claimed (fun k' _ => same_core k k')).
Proof.
  intros Hid Hd Hc Hf Hr. unfold cleanup_after_terminal, journal_guard.
  step_exec; [done| |done]. step_exec; [|done].
  destruct (reusable _) eqn:Hbefore.
  - step_exec; [|step_exec; unfold same_core; tauto|done]. cbn. split; [done|]. split; [done|]. eexists. split; [done|]. split; [ensured|auto].
  - destruct (0 <? _); [step_exec; done|]. step_exec; [done| |done]. step_exec; [|done].
    destruct (reusable x0) eqn:Hafter; cbn [negb]; [|step_exec; done].
    step_exec; [|step_exec; unfold same_core; tauto|done]. cbn. split; [done|]. split; [done|]. eexists. split; [done|]. split; [ensured|auto].
Qed.

(** ** The sandbox *)

(** A part of a run that teaches nothing. *)
Definition silent {E A} (m : Exec E A) : Prop :=
  forall k, follows id publishing k m (post (eq k) (fun k' _ => k' = k)).

(** Sequences, results and effects that teach nothing. *)
Lemma silent_bind {E A B} (m : Exec E A) (f : A -> Exec E B) :
  silent m -> (forall a, silent (f a)) -> silent (m ≫= f).
Proof.
  intros Hm Hf k. apply follows_exec. eapply follows_conseq; [apply Hm|done|]. intros k' a ->. apply Hf.
Qed.

Lemma silent_ret {E A} (a : A) : silent (mret a : Exec E A).
Proof. by intros k. Qed.

Lemma silent_fail {E A} (e : E) : silent (exec_fail (A:=A) e).
Proof. by intros k. Qed.

Lemma silent_lift {E A} (r : result E A) : silent (exec_lift r).
Proof. intros k. by destruct r. Qed.

Lemma silent_ask {E X} (e : Effect X) :
  (forall k, permits id publishing k e /\ forall x, learn id k e x = k) -> silent (ask (E:=E) e).
Proof. intros He k. destruct (He k) as [Hp Hl]. by apply follows_ask. Qed.

End sandboxes.

Create HintDb silent.

(** A program without effects on the knowledge of a task, by its shape. *)
Ltac go_silent := repeat (
  lazymatch goal with
  | |- forall _, silent _ _ _ => intro
  | |- silent _ _ (mbind _ _) => apply silent_bind
  | |- silent _ _ (mret _) => apply silent_ret
  | |- silent _ _ (exec_fail _) => apply silent_fail
  | |- silent _ _ (exec_lift _) => apply silent_lift
  | |- silent _ _ (ask _) => apply silent_ask; by intros ?
  | |- silent _ _ (match _ with _ => _ end) => case_match
  | |- _ => first [solve [auto with silent] | progress autounfold with silent]
  end).

Section files.
Context `{Sha256} (id : string) (publishing : Setting) {E : Type}.
#[local] Abbreviation silent := (silent id publishing).

Lemma write_created_silent (io : E) path content : silent (write_created io path content).
Proof. unfold write_created. go_silent. Qed.

#[local] Hint Resolve write_created_silent : silent.

Lemma write_or_compare_silent (io conflict : E) path content : silent (write_or_compare io conflict path content).
Proof. unfold write_or_compare. go_silent. Qed.

Lemma write_real_file_silent (io unsafe : E) path content : silent (write_real_file io unsafe path content).
Proof. unfold write_real_file. go_silent. Qed.

Lemma real_directory_silent (io unsafe : E) path : silent (real_directory io unsafe path).
Proof. unfold real_directory. go_silent. Qed.

#[local] Hint Resolve real_directory_silent : silent.

Lemma real_parents_silent (io unsafe : E) current components : silent (real_parents io unsafe current components).
Proof.
  revert current. induction components; intros current; cbn [real_parents]; go_silent.
Qed.

Lemma scan_entries_silent (unsafe : E) scan directory relative entries files :
  (forall directory relative files, silent (scan directory relative files)) ->
  silent (scan_entries unsafe scan directory relative entries files).
Proof.
  intros Hs. revert files. induction entries as [|[name kind] entries IH]; intros files; cbn [scan_entries]; go_silent.
Qed.

Lemma scan_directory_silent (io unsafe : E) fuel directory relative files :
  silent (scan_directory io unsafe fuel directory relative files).
Proof.
  revert directory relative files. induction fuel as [|fuel IH]; intros directory relative files; cbn [scan_directory]; go_silent.
  by apply scan_entries_silent.
Qed.

Lemma exact_tree_silent (io unsafe : E) root expected : silent (exact_tree io unsafe root expected).
Proof. unfold exact_tree. go_silent. apply scan_directory_silent. Qed.

Lemma read_declared_silent (unavailable : E) descriptor : silent (read_declared unavailable descriptor).
Proof. intros k. unfold read_declared. step_exec; [done| |done]. by step_exec. Qed.

End files.

#[export] Hint Resolve write_or_compare_silent write_real_file_silent real_directory_silent real_parents_silent
  exact_tree_silent read_declared_silent : silent.

(** ** The supervisors *)

(** The contract of a supervisor: preparing a container neither touches one
    nor claims anything, and the container has the name of the attempt. *)
Definition prepares `{Sha256} {S V D : Type} `{!Platform S V D} (supervisor : S) : Prop :=
  forall id publishing a, as_str (ac_attempt_id a) = id ->
  forall k, follows id publishing k (pf_prepare supervisor a)
    (post (eq k) (fun k' r => k' = k /\ plan_container_name r.1.2 = container_name id)).

Class PlatformLaws `{Sha256} (S V D : Type) `{!Platform S V D} : Prop :=
  pf_prepares : forall supervisor : S, prepares supervisor.

#[export] Hint Unfold write_once ascend_write_once build_write_once build_create_real_directory build_create_real_parents
  build_verify_exact_tree correctness_write_once create_real_directory create_real_parents verify_exact_tree : silent.

Section platforms.
Context `{Sha256} `{SandboxText} `{ReductionJson} `{ExecutionText} `{ReceiptJson} (id : string) (publishing : Setting).
#[local] Abbreviation silent := (silent id publishing).

Lemma materialize_bundle_silent policy a : silent (materialize_bundle policy a).
Proof. unfold materialize_bundle. go_silent. Qed.

Lemma ascend_materialize_silent policy a : silent (ascend_materialize_bundle policy a).
Proof. unfold ascend_materialize_bundle. go_silent. Qed.

Lemma verify_file_silent path digest size : silent (verify_file path digest size).
Proof. unfold verify_file. go_silent. Qed.
#[local] Hint Resolve verify_file_silent : silent.

Lemma write_build_files_silent directory files : silent (write_build_files directory files).
Proof. induction files; cbn [write_build_files]; go_silent. Qed.
#[local] Hint Resolve write_build_files_silent : silent.

Lemma build_materialize_silent policy a : silent (build_materialize_bundle policy a).
Proof. unfold build_materialize_bundle. go_silent. Qed.

Lemma write_execution_files_silent directory files : silent (write_execution_files directory files).
Proof. induction files; cbn [write_execution_files]; go_silent. Qed.
#[local] Hint Resolve write_execution_files_silent : silent.

Lemma correctness_materialize_silent policy a : silent (correctness_materialize_bundle policy a).
Proof. unfold correctness_materialize_bundle. go_silent. Qed.

(** A container that is planned after its sandbox. *)
Lemma prepare_follows {E Sb P X} k (g : E -> SupervisorError) (m : Exec E Sb) (plan : Sb -> result E P)
    (out : Sb -> P -> string * ContainerPlan * X) name :
  silent m -> (forall sandbox p, plan sandbox = Ok p -> plan_container_name (out sandbox p).1.2 = name) ->
  follows id publishing k (exec_map_err g (sandbox ← m; p ← exec_lift (plan sandbox); mret (out sandbox p)))
    (post (eq k) (fun k' r => k' = k /\ plan_container_name r.1.2 = name)).
Proof.
  intros Hm Hplan. apply follows_map_err, follows_exec. eapply follows_conseq; [apply Hm|done|].
  intros k' sandbox ->. step_exec; [|done]. step_exec. eauto.
Qed.

End platforms.

(** The name of a planned container. *)
Ltac plan_name :=
  intros ? ? Hplan; cbn; unfold docker_create_plan, ascend_docker_create_plan, build_docker_create_plan,
    correctness_cuda_plan, correctness_ascend_plan in Hplan;
  apply result_bind_Ok in Hplan as (? & _ & Hplan); try case_match; try discriminate Hplan;
  apply result_bind_Ok in Hplan as (? & _ & [= <-]); cbn; unfold alloyport_name, container_name; congruence.

Section laws.
Context `{Sha256} `{SandboxText} `{ReductionJson} `{ExecutionText} `{ReceiptJson}.

#[export] Instance cuda_platform_laws : PlatformLaws CudaSupervisorPolicy CudaEnvironmentFacts string.
Proof.
  intros supervisor id publishing a Ha k. destruct supervisor as [policy|policy]; apply prepare_follows.
  - apply materialize_bundle_silent.
  - plan_name.
  - apply correctness_materialize_silent.
  - plan_name.
Qed.

#[export] Instance ascend_platform_laws :
  PlatformLaws AscendSupervisorPolicy AscendEnvironmentFacts (AcceleratorDevice * AscendEnvironmentFacts).
Proof.
  intros supervisor id publishing a Ha k. destruct supervisor as [policy|policy|policy device environment];
    apply prepare_follows.
  - apply ascend_materialize_silent.
  - plan_name.
  - apply build_materialize_silent.
  - plan_name.
  - apply correctness_materialize_silent.
  - plan_name.
Qed.

End laws.

Section programs.
Context `{Sha256} `{ExecutionText} {S V D : Type} `{!Platform S V D} `{!PlatformLaws S V D}.
Context (id : string) (publishing : Setting).
#[local] Abbreviation silent := (silent id publishing).
Implicit Types (runtime : ExecutionRuntime (S:=S) (V:=V)) (supervisor : S).

(** What the supervision of a container keeps: all but what it knows of the
    container. *)
Definition same_attempt (k k' : Know) : Prop :=
  k_claimed k' = k_claimed k /\ k_unfinished k' = k_unfinished k /\ k_running k' = k_running k
  /\ k_finished k' = k_finished k.

Lemma reconcile_follows k plan identity :
  claimed k -> k_unfinished k = true -> k_running k = true ->
  plan_container_name plan = container_name id -> ci_name identity = container_name id ->
  follows id publishing k (reconcile_container plan identity)
    (post claimed (fun k' phase => same_attempt k k' /\ (phase = ContainerCreated -> k_created k' = true))).
Proof.
  intros Hc Hu Hr Hplan Hname. unfold reconcile_container, on_engine.
  assert (forall x, learn_call id k (InspectContainer (ci_name identity)) (Ok (Some x))
    = learn_inspected k (bool_decide (cs_phase x = ContainerCreated))) as Hlearn.
  { intros x. cbn. by rewrite bool_decide_true. }
  step_exec; [done| |cbn; by case_bool_decide]. destruct x as [snapshot|].
  - step_exec; [|cbn; by case_bool_decide]. step_exec. cbn [learn]. rewrite Hlearn. split; [done|].
    intros Hp. cbn. rewrite bool_decide_true by done. by rewrite Hc, Hu.
  - step_exec; [| |cbn; by case_bool_decide].
    { cbn. rewrite bool_decide_true by done. done. }
    cbn [learn learn_call]. rewrite bool_decide_true by done.
    step_exec; [done| |cbn; by case_bool_decide]. cbn [learn learn_call]. rewrite bool_decide_true by done.
    do 2 (step_exec; [|done]). step_exec; [|done]. step_exec.
    match goal with Hx : ok_or _ _ = Ok _ |- _ => apply ok_or_Ok in Hx as -> end.
    split; [done|]. intros Hp. cbn. rewrite bool_decide_true by done. by rewrite Hc, Hu.
Qed.

Lemma stop_and_wait_follows k :
  claimed k -> follows id publishing k (stop_and_wait (container_name id)) (post (eq k) (fun k' _ => k' = k)).
Proof. intros Hc. unfold stop_and_wait, engine. step_exec; [done| |done]. by step_exec. Qed.

Lemma terminated_follows k ready :
  claimed k -> follows id publishing k (terminated (container_name id) ready) (post (eq k) (fun k' _ => k' = k)).
Proof.
  intros Hc. destruct ready; cbn [terminated].
  1, 2: apply follows_exec; eapply follows_conseq; [by apply stop_and_wait_follows|done|intros ? ? ->]; by step_exec.
  step_exec; [|done]. by step_exec.
Qed.

Lemma observe_chunks_silent observer chunks :
  (forall chunk, silent (observer chunk)) -> silent (observe_chunks observer chunks).
Proof.
  intros Ho. induction chunks as [|c chunks IH]; intros k; cbn [observe_chunks]; [by step_exec|].
  apply follows_exec. eapply follows_conseq; [apply Ho|done|intros ? ? ->]. apply IH.
Qed.

Lemma supervise_follows k timeout limit observer :
  claimed k -> (forall chunk, silent (observer chunk)) ->
  follows id publishing k (supervise_running_container (container_name id) timeout limit observer)
    (post (eq k) (fun k' _ => k' = k)).
Proof.
  intros Hc Ho. unfold supervise_running_container, engine.
  step_exec; [done|]. step_exec; [done|]. cbn [learn learn_call].
  apply follows_exec. eapply follows_conseq; [by apply observe_chunks_silent|done|intros ? ? ->].
  destruct (x0.2) as [ready|[logs|error]].
  - apply follows_exec. eapply follows_conseq; [by apply terminated_follows|done|intros ? ? ->].
    step_exec; [done|]. cbn [learn learn_call].
    apply follows_exec. eapply follows_conseq; [by apply observe_chunks_silent|done|intros ? ? ->].
    step_exec; [|done]. by step_exec.
  - destruct (cl_output_limit_exceeded logs).
    + apply follows_exec. eapply follows_conseq; [by apply stop_and_wait_follows|done|intros ? ? ->]. by step_exec.
    + step_exec; [done|]. cbn [learn learn_call].
      apply follows_exec. eapply follows_conseq; [by apply terminated_follows|done|intros ? ? ->]. by step_exec.
  - step_exec; [done|]. step_exec; [done|]. by step_exec.
Qed.

(** ** The runtimes *)

Lemma forward_chunk_silent {E} worker_id input chunk : silent (forward_chunk (E:=E) worker_id input chunk).
Proof. intros k. unfold forward_chunk, push_event. step_exec; [done|]. by step_exec. Qed.

Lemma append_output_silent worker_id input r : silent (append_output worker_id input r).
Proof.
  assert (forall stream content, silent (append_stream worker_id input stream content)) as Hs.
  { intros stream content k. unfold append_stream. case_bool_decide; [by step_exec|apply forward_chunk_silent]. }
  intros k. unfold append_output. apply follows_exec.
  eapply follows_conseq; [apply Hs|done|intros ? ? ->]. apply Hs.
Qed.

Lemma append_terminal_events_silent worker_id input persisted : silent (append_terminal_events worker_id input persisted).
Proof. intros k. unfold append_terminal_events, push_event. do 3 (step_exec; [done|]). by step_exec. Qed.

Lemma run_with_facts_follows k supervisor a observer :
  as_str (ac_attempt_id a) = id -> (forall chunk, silent (observer chunk)) ->
  claimed k -> k_unfinished k = true -> k_running k = true ->
  follows id publishing k (run_with_facts_observed supervisor a observer)
    (post claimed (fun k' _ => claimed k')).
Proof.
  intros Ha Ho Hc Hu Hr. unfold run_with_facts_observed, on_supervisor, engine.
  apply follows_exec. eapply follows_conseq; [by apply pf_prepares|by intros ? <-|].
  intros k1 [[source_digest plan] device] [-> Hname]. cbn in Hname.
  apply follows_exec, follows_map_err. step_exec; [done| |done]. step_exec; [|done].
  apply follows_exec, follows_map_err. eapply follows_conseq; [by apply reconcile_follows|done|].
  intros k1 phase [Hsame Hcreated]. cbn zeta. rewrite Hname. destruct Hsame as (Hc1 & Hu1 & Hr1 & _).
  cbn [learn learn_call] in Hc1, Hu1, Hr1. unfold claimed in Hc. assert (claimed k1) as Hk1 by (unfold claimed; congruence).
  apply follows_exec.
  eapply (follows_conseq _ _ _ _ claimed _ (fun k' _ => claimed k')).
  { destruct (bool_decide (phase = ContainerCreated)) eqn:Hph; [|by step_exec].
    apply bool_decide_eq_true in Hph. apply follows_map_err. step_exec; [|done|done].
    cbn. rewrite Hu1, Hr1. split_and!; auto. }
  { done. }
  intros k2 _ Hk2. apply follows_exec, follows_map_err.
  eapply (follows_conseq _ _ _ _ claimed _ (fun k' _ => claimed k')).
  { destruct (bool_decide (phase = ContainerExited)).
    - step_exec; [done| |done]. step_exec; [done| |done]. by step_exec.
    - eapply follows_conseq; [by apply supervise_follows|by intros ? <-|by intros ? ? ->]. }
  { done. }
  intros k3 [[termination logs] live] Hk3. by step_exec.
Qed.

Lemma active_lease_silent typed : silent (active_lease typed).
Proof. intros k. unfold active_lease, on_store. step_exec; [done| |done]. by step_exec. Qed.

Lemma has_active_lease_silent typed : silent (has_active_lease typed).
Proof. intros k. unfold has_active_lease, on_store. step_exec; [done| |done]. by step_exec. Qed.

Lemma observe_exact_follows k device :
  claimed k -> follows id publishing k (observe_exact device) (post claimed (fun k' _ => claimed k')).
Proof. intros Hc. unfold observe_exact. step_exec; [done| |done]. step_exec; [|done]. by step_exec. Qed.

Lemma prepare_attempt_follows k runtime typed phase :
  as_str typed = id -> set_device publishing id (rt_device_id runtime) -> claimed k -> k_unfinished k = true ->
  (phase = PhaseAccepted -> k_unstarted k = true) -> (phase <> PhaseAccepted -> k_running k = true) ->
  follows id publishing k (prepare_attempt runtime id typed phase)
    (post claimed (fun k' _ => claimed k' /\ k_unfinished k' = true /\ k_running k' = true)).
Proof.
  intros Hid Hd Hc Hu Hacc Hrun. unfold prepare_attempt, on_store.
  case_bool_decide as Hphase.
  - apply follows_exec, follows_map_err.
    eapply follows_conseq; [apply acquire_and_preflight_follows; auto|done|]. intros k1 preflight (Hc1 & Hu1 & _).
    unfold claimed in *.
    apply follows_exec. eapply follows_conseq; [apply active_lease_silent|intros ? <-; congruence|intros ? lease ->].
    step_exec; [cbn; split; congruence| |cbn; congruence]. step_exec. cbn. split_and!; congruence || done.
  - apply follows_exec. eapply follows_conseq; [apply active_lease_silent|by intros ? <-|intros ? lease ->].
    step_exec; [done|]. step_exec; [|done]. step_exec; [|done]. step_exec. auto.
Qed.

Lemma store_artifact_follows k content media :
  follows id publishing k (store_artifact content media)
    (post (same_core k) (fun k' d => d = descriptor_of content media /\ content ∈ k_ingested k'
       /\ (forall c, c ∈ k_ingested k -> c ∈ k_ingested k') /\ k_claimed k' = k_claimed k)).
Proof.
  unfold store_artifact. step_exec; [done| |unfold same_core; cbn; tauto].
  step_exec. match goal with Hx : possible _ _ _ _ |- _ => specialize (Hx _ eq_refl) as -> end.
  cbn. split; [done|]. split; [left|]. split; [by right|done].
Qed.

(** Both executors store the outputs and the receipt of a result. *)
Lemma stored_outputs k result stdout stderr receipt out err rec k1 k2 k3 :
  stdout = descriptor_of out STDOUT_MEDIA_TYPE -> stderr = descriptor_of err STDERR_MEDIA_TYPE ->
  receipt = descriptor_of rec RECEIPT_MEDIA_TYPE ->
  out ∈ k_ingested k1 -> err ∈ k_ingested k2 -> rec ∈ k_ingested k3 ->
  (forall c, c ∈ k_ingested k -> c ∈ k_ingested k1) -> (forall c, c ∈ k_ingested k1 -> c ∈ k_ingested k2) ->
  (forall c, c ∈ k_ingested k2 -> c ∈ k_ingested k3) ->
  outputs_among (k_ingested k3) (finished_of result stdout stderr receipt).
Proof. intros -> -> -> Ho He Hr _ H12 H23. exists out, err, rec. auto 10. Qed.

(** The end of [persist] and of [persist_result], which differ in the
    receipt they encode. *)
Lemma persisted_follows k result (encode : ArtifactDescriptor -> ArtifactDescriptor -> option bytes) :
  claimed k ->
  follows id publishing k
    (stdout ← store_artifact (er_stdout result) STDOUT_MEDIA_TYPE;
     stderr ← store_artifact (er_stderr result) STDERR_MEDIA_TYPE;
     receipt ← exec_lift (ok_or (encode stdout stderr) RuntimeSerialization);
     receipt ← store_artifact receipt RECEIPT_MEDIA_TYPE;
     mret (MkPersisted (finished_of result stdout stderr receipt) stdout stderr receipt))
    (post claimed (fun k' p => claimed k' /\ outputs_among (k_ingested k') (pv_finished p))).
Proof.
  intros Hc. unfold claimed in *.
  apply follows_exec. eapply follows_conseq; [apply store_artifact_follows|intros ? (? & _); congruence|].
  intros k1 stdout (E1 & I1 & I1' & Hc1).
  apply follows_exec. eapply follows_conseq; [apply store_artifact_follows|intros ? (? & _); congruence|].
  intros k2 stderr (E2 & I2 & I2' & Hc2).
  step_exec; [|congruence].
  apply follows_exec. eapply follows_conseq; [apply store_artifact_follows|intros ? (? & _); congruence|].
  intros k3 receipt (E3 & I3 & I3' & Hc3).
  step_exec. split; [congruence|]. cbn [pv_finished].
  exact (stored_outputs k result stdout stderr receipt _ _ _ k1 k2 k3 E1 E2 E3 I1 I2 I3 I1' I2' I3').
Qed.

Lemma persist_follows k runtime input result facts pre post_ lease intent :
  claimed k ->
  follows id publishing k (persist runtime input result facts pre post_ lease intent)
    (post claimed (fun k' p => claimed k' /\ outputs_among (k_ingested k') (pv_finished p))).
Proof. intros Hc. unfold persist. by apply (persisted_follows k result (fun _ _ => _)). Qed.

Lemma persist_result_follows k worker_id input result :
  claimed k ->
  follows id publishing k (persist_result worker_id input result)
    (post claimed (fun k' p => claimed k' /\ outputs_among (k_ingested k') (pv_finished p))).
Proof. intros Hc. unfold persist_result. by apply (persisted_follows k result (fun _ _ => _)). Qed.

Lemma cleanup_after_commit_follows k runtime typed :
  as_str typed = id -> set_device publishing id (rt_device_id runtime) -> claimed k -> k_finished k = true ->
  follows id publishing k (cleanup_after_commit runtime typed) (post claimed (fun k' _ => claimed k')).
Proof.
  intros Hid Hd Hc Hf. unfold cleanup_after_commit.
  step_exec; [cbn; rewrite Hid; auto| |done].
  apply follows_exec. eapply follows_conseq; [apply has_active_lease_silent|by intros ? <-|intros ? leased ->].
  destruct (negb leased); [by step_exec|].
  apply follows_exec, follows_map_err.
  eapply follows_conseq; [by apply cleanup_after_terminal_follows|done|].
  intros k' _ (Hc' & _). step_exec. unfold claimed in *. cbn in Hc'. congruence.
Qed.

(** What a task knows right after it has claimed its attempt. *)
Definition know_claimed (finished : bool) : Know :=
  MkKnow true false false false finished false false None None [].

Lemma with_claim_follows {A} k (body : Exec ExecutionRuntimeError A) :
  k_claimed k = false ->
  follows id publishing (know_claimed (k_finished k)) body (post claimed (fun k' _ => claimed k')) ->
  follows id publishing k (with_claim id body) (fun _ _ => True).
Proof.
  intros Hk Hbody. unfold with_claim, ask. cbn. split; [done|]. intros [|] _; [|done].
  apply follows_bind. eapply follows_impl; [exact Hbody|]. intros k' r Hk'. cbn.
  split; [|done]. split; [done|]. by destruct r.
Qed.

(** The attempt a claimed task finds. *)
Lemma find_attempt_follows k :
  follows id publishing k (find_attempt id)
    (post (eq k) (fun k' a => k' = learn_attempt k a /\ as_str (ac_attempt_id (la_assignment a)) = id
       /\ (k_finished k = true -> la_phase a = PhaseFinished))).
Proof.
  unfold find_attempt. step_exec; [done|]. destruct x as [a|]; cbn [learn].
  - rewrite bool_decide_true by done. step_exec.
    match goal with Hx : possible _ _ _ _ |- _ => destruct Hx as [Hid Hfin] end.
    split; [done|]. split; [by apply Hid|]. intros Hf. destruct (Hfin eq_refl Hf) as (a' & [= <-] & ?). done.
  - by step_exec.
Qed.

(** The contents of a terminal record are stored, published when there is a
    publisher, and only then recorded. *)
Lemma record_follows {A} k (pub : bool) finished (rest : Exec ExecutionRuntimeError A) :
  pub = set_publishing publishing -> claimed k -> outputs_among (k_ingested k) finished ->
  (forall k', claimed k' -> k_finished k' = true -> follows id publishing k' rest (post claimed (fun k' _ => claimed k'))) ->
  follows id publishing k
    (_ ← publish_references pub (terminal_reference_intents id finished);
     _ ← on_store (MarkFinished id finished); rest) (post claimed (fun k' _ => claimed k')).
Proof.
  intros -> Hc Hout Hrest. unfold publish_references, on_store. apply follows_exec.
  eapply (follows_conseq _ _ _ _ claimed _ (fun k' _ => claimed k' /\ outputs_among (k_ingested k') finished
    /\ (set_publishing publishing = true -> k_published k' = Some (terminal_reference_intents id finished)))).
  { destruct (set_publishing publishing); [|by step_exec]. step_exec; done. }
  { done. }
  intros k1 _ (Hc1 & Ho1 & Hp1). step_exec; [done| |done]. by apply Hrest.
Qed.

Lemma run_attempt_follows k runtime pub typed attempt :
  pub = set_publishing publishing -> as_str typed = id -> set_device publishing id (rt_device_id runtime) ->
  as_str (ac_attempt_id (la_assignment attempt)) = id ->
  claimed k -> k_unfinished k = true ->
  (la_phase attempt = PhaseAccepted -> k_unstarted k = true) ->
  (la_phase attempt <> PhaseAccepted -> k_running k = true) ->
  follows id publishing k (run_attempt runtime pub id typed attempt) (post claimed (fun k' _ => claimed k')).
Proof.
  intros Hpub Hid Hd Ha Hc Hu Hacc Hrun. unfold run_attempt, push_event.
  apply follows_exec. eapply follows_conseq; [by apply prepare_attempt_follows|done|].
  intros k1 [lease pre] (Hc1 & Hu1 & Hr1).
  step_exec; [done|]. step_exec; [done|]. cbn [learn].
  apply follows_exec, follows_map_err. eapply follows_conseq.
  { apply run_with_facts_follows; auto. intros chunk. apply forward_chunk_silent. }
  { done. }
  intros k2 execution Hc2. apply follows_exec.
  eapply (follows_conseq _ _ _ _ claimed _ (fun k' _ => claimed k')).
  { destruct (su_live_output_streaming execution); [by step_exec|].
    eapply follows_conseq; [apply append_output_silent|by intros ? <-|by intros ? ? ->]. }
  { done. }
  intros k3 _ Hc3. apply follows_exec. eapply follows_conseq; [by apply observe_exact_follows|done|].
  intros k4 observation Hc4. apply follows_exec. eapply follows_conseq; [by apply persist_follows|done|].
  intros k5 persisted (Hc5 & Hout). apply record_follows; auto.
  intros k6 Hc6 Hf6. apply follows_exec.
  eapply follows_conseq; [apply append_terminal_events_silent|by intros ? <-|intros ? ? ->].
  apply follows_exec. eapply follows_conseq; [by apply cleanup_after_commit_follows|done|].
  intros k7 ? Hc7. by step_exec.
Qed.

Lemma run_inner_follows k runtime pub :
  k_claimed k = false -> pub = set_publishing publishing \/ k_finished k = true ->
  set_device publishing id (rt_device_id runtime) ->
  follows id publishing k (run_inner runtime pub id) (fun _ _ => True).
Proof.
  intros Hk Hpub Hd. apply with_claim_follows; [done|].
  apply follows_exec. eapply follows_conseq; [apply find_attempt_follows|by intros ? <-|].
  intros k1 attempt (-> & Ha & Hfin). step_exec; [|unfold learn_attempt; by destruct (bool_decide _)].
  match goal with Hx : map_err _ _ = Ok _ |- _ => apply map_err_Ok, parse_id_Ok in Hx as Htyped end.
  unfold learn_attempt. destruct (bool_decide (la_phase attempt = PhaseFinished)) eqn:Hphase.
  - unfold replay_finished. step_exec; [|done].
    apply follows_exec. eapply follows_conseq; [by apply cleanup_after_commit_follows|done|].
    intros k2 ? Hc2. by step_exec.
  - apply bool_decide_eq_false in Hphase. apply run_attempt_follows; auto.
    + destruct Hpub as [|Hf]; [done|]. by destruct Hphase; apply Hfin.
    + done.
    + intros Hacc. cbn. by apply bool_decide_eq_true.
    + intros Hacc. cbn. apply bool_decide_eq_true. by destruct (la_phase attempt).
Qed.

(** Before the claim a program only reads. *)
Lemma find_unclaimed_follows k :
  k_claimed k = false ->
  follows id publishing k (find_attempt id)
    (post (fun _ => True) (fun k' _ => k_claimed k' = false /\ (k_finished k = true -> k_finished k' = true))).
Proof.
  intros Hk. eapply follows_conseq; [apply find_attempt_follows|done|]. intros k' a (-> & _).
  unfold learn_attempt. by destruct (bool_decide _).
Qed.

Lemma runtime_for_attempt_follows k runtime :
  k_claimed k = false ->
  follows id publishing k (runtime_for_attempt runtime id)
    (post (fun _ => True) (fun k' _ => k_claimed k' = false /\ (k_finished k = true -> k_finished k' = true))).
Proof.
  intros Hk. unfold runtime_for_attempt, on_store.
  step_exec; [|done].
  apply follows_exec. eapply follows_conseq; [by apply find_unclaimed_follows|done|]. intros k1 attempt (Hk1 & Hf1).
  step_exec; [done| |done]. cbn [learn]. apply follows_exec.
  eapply (follows_conseq _ _ _ _ (fun _ => True) _ (fun k' _ => k' = k1)).
  { destruct (lease_device_id <$> _); [by step_exec|]. destruct (bool_decide _); [by step_exec|].
    step_exec; [done| |done]. step_exec; [|done]. by step_exec. }
  { done. }
  intros k2 selected ->. step_exec; [|done]. by step_exec.
Qed.

(** A runtime is bound to a device of the attempt, or chooses one and any
    will do. *)
Definition fits (runtime : ExecutionRuntime (S:=S) (V:=V)) : Prop :=
  match rt_dynamic runtime with
  | Some _ => forall device, set_device publishing id device
  | None => set_device publishing id (rt_device_id runtime)
  end.

Lemma runtime_run_follows k runtime pub :
  k_claimed k = false -> pub = set_publishing publishing \/ k_finished k = true -> fits runtime ->
  follows id publishing k (runtime_run runtime pub id) (fun _ _ => True).
Proof.
  intros Hk Hpub. unfold runtime_run, fits. destruct (rt_dynamic runtime); intros Hd.
  - apply follows_bind. eapply follows_impl; [by apply runtime_for_attempt_follows|].
    intros k' [bound|e]; [|done]. intros (Hk' & Hfin). apply run_inner_follows; [done| |].
    + destruct Hpub; auto.
    + apply Hd.
  - by apply run_inner_follows.
Qed.

Lemma backend_execute_follows runtime providing :
  fits runtime ->
  follows id publishing know_nothing (backend_execute runtime providing publishing id) (fun _ _ => True).
Proof.
  intros Hd. unfold backend_execute, exec_map_err. apply follows_bind.
  apply (follows_impl _ _ _ _ (fun _ _ => True)).
  - apply follows_bind. destruct providing.
    + apply follows_bind. eapply follows_impl; [by apply find_unclaimed_follows|].
      intros k [a|e]; [|done]. intros (Hk & _). cbn. split; [done|]. intros [[]|e] _; [|done].
      apply (runtime_run_follows k); auto.
    + apply runtime_run_follows; auto.
  - done.
Qed.

Lemma retry_terminal_cleanup_follows runtime :
  fits runtime -> follows id publishing know_finished (retry_terminal_cleanup runtime id) (fun _ _ => True).
Proof.
  intros Hd. unfold retry_terminal_cleanup, exec_map_err. apply follows_bind.
  apply (follows_impl _ _ _ _ (fun _ _ => True)); [apply follows_bind|done].
  eapply follows_impl; [apply runtime_run_follows; auto|]. by intros k [run|error].
Qed.

(** ** The fake executor *)

Lemma run_steps_follows k worker_id input steps acc elapsed :
  follows id publishing k (run_steps worker_id input steps acc elapsed) (fun k' _ => k' = k).
Proof.
  revert acc elapsed. induction steps as [|step steps IH]; intros acc elapsed; cbn [run_steps]; [done|].
  apply follows_bind. eapply (follows_impl _ _ _ _ (fun k' _ => k' = k)).
  - assert (forall stream content, follows id publishing k (emit worker_id input stream content acc elapsed)
      (fun k' _ => k' = k)) as Hemit.
    { intros stream content. unfold emit. destruct (_ <? _); [done|]. cbn. split; [done|]. intros [] _; try done. }
    destruct step; [apply Hemit..|]. cbn. split; [done|]. by intros [].
  - intros k' [[acc' elapsed'] [[]|t]] ->; [apply IH|done].
Qed.

Lemma fake_run_inner_follows k worker_id plan pub :
  k_claimed k = false -> pub = set_publishing publishing ->
  follows id publishing k (fake_run_inner worker_id plan pub id) (fun _ _ => True).
Proof.
  intros Hk Hpub. apply with_claim_follows; [done|].
  apply follows_exec. eapply follows_conseq; [apply find_attempt_follows|by intros ? <-|].
  intros k1 attempt (-> & Ha & Hfin).
  unfold learn_attempt. destruct (bool_decide (la_phase attempt = PhaseFinished)) eqn:Hphase.
  - step_exec; [|done]. by step_exec.
  - unfold on_store. step_exec; [done| |done]. step_exec; [done|]. cbn [learn].
    unfold execute_with_events, push_event. apply follows_exec. step_exec; [done|]. cbn [learn].
    eapply (follows_conseq _ _ _ _ claimed _ (fun k' _ => claimed k')).
    { apply follows_bind. unfold execute_plan. apply follows_bind.
      eapply follows_impl; [apply run_steps_follows|]. by intros k' [[acc elapsed] ended] ->. }
    { done. }
    intros k2 result Hc2. apply follows_exec.
    eapply (follows_conseq _ _ _ _ claimed _ (fun k' p => claimed k' /\ outputs_among (k_ingested k') (pv_finished p))).
    { by apply persist_result_follows. }
    { done. }
    intros k3 persisted (Hc3 & Hout). apply record_follows; auto.
    intros k4 Hc4 _. apply follows_exec.
    eapply follows_conseq; [apply append_terminal_events_silent|by intros ? <-|intros ? ? ->]. by step_exec.
Qed.

Lemma fake_execute_follows worker_id plan :
  follows id publishing know_nothing (fake_execute worker_id plan publishing id) (fun _ _ => True).
Proof.
  unfold fake_execute, exec_map_err. apply follows_bind.
  apply (follows_impl _ _ _ _ (fun _ _ => True)); [by apply fake_run_inner_follows|].
  by intros k [run|error].
Qed.

End programs.
