(* ===== verification/ExecutionHost.v ===== *)
(** * The host of the executors

    What the effects of Effects.v do: the journal, the claims and the files
    are the ones of the worker; the container engine, the devices, the
    publisher and the artifact store are ports.  A host runs tasks, one
    effect of one of them at a time, beside the other tasks of the worker,
    which reach the journal through its operations.  A task can be dropped
    between two effects, and so can all of them, with the process. *)

From stdpp Require Import base strings gmap sets list.
From S2P Require Import Prelude Text Digest Identity Vocabulary ReductionRun Artifacts Uploads RunEvents WorkerJournal WorkerSession WorkerUpdates Devices Containers CudaContract Effects Sandboxes Executions Platforms FakeExecutor.

Local Open Scope N_scope.

(** ** Ports *)

(** A container engine: [engine_do] performs a call, [engine_tick] lets the
    containers run. *)
Class ContainerEngine (E : Type) := {
  engine_do : forall {X}, EngineCall X -> E -> E * X;
  engine_tick : E -> E;
}.

(** The devices, the publisher of outputs and the provider of inputs. *)
Class DeviceManager (M : Type) := {
  devices_snapshot : M -> M * result DeviceStatusError (list DeviceObservation);
  devices_observe : string -> M -> M * result DeviceStatusError DeviceObservation;
  devices_recover : string -> M -> M * result DeviceStatusError DeviceObservation;
}.

Class ArtifactPublisher (P : Type) :=
  publisher_publish : list ArtifactReferenceIntent -> P -> P * result ArtifactPublicationError unit.

Class ArtifactInputProvider (A : Type) :=
  provider_materialize : ArtifactDescriptor -> A -> A * result ArtifactInputError unit.

(** What the fake executor waits for: the readiness of its channel, its
    deadline and its cancellation. *)
Class FakeClock := {
  fake_send : nat -> SendReady;
  fake_delay : nat -> DelayReady;
}.

(** ** Backends *)

(** [trait ExecutionBackend] and [struct ExecutionBackendRegistry], a map
    of kinds. *)
Record ExecutionBackend := MkExecutionBackend {
  bk_executor_kinds : list ExecutionKind;
  bk_execute : string -> Exec BackendError ExecutionRun;
  bk_cleanup : string -> Exec BackendError unit;
}.
Definition Registry : Type := ExecutionKind -> option ExecutionBackend.

Definition registry_default : Registry := fun _ => None.

(** [enum ExecutionBackendRegistrationError]. *)
Inductive RegistrationError := EmptyCapabilitySet | Duplicate (kind : ExecutionKind).

Definition registered (registry : Registry) (kind : ExecutionKind) : bool :=
  match registry kind with Some _ => true | None => false end.

(** [ExecutionBackendRegistry::register]. *)
Definition register (backend : ExecutionBackend) (registry : Registry) : result RegistrationError Registry :=
  let executors := bk_executor_kinds backend in
  match List.find (registered registry) executors with
  | Some kind => Err (Duplicate kind)
  | None =>
      _ ← guard_err (bool_decide (executors = [])) EmptyCapabilitySet;
      Ok (fun kind => if bool_decide (kind ∈ executors) then Some backend else registry kind)
  end.

(** The backends of a worker: the fake one with its worker and its plan,
    and the runtimes of accelerators. *)
Inductive WorkerBackend :=
| FakeBackend (worker_id : string) (plan : FakeExecutionPlan)
| CudaBackend (runtime : CudaExecutionRuntime)
| AscendBackend (runtime : AscendExecutionRuntime).

(** A worker as it was composed; whether inputs are provided and outputs
    published. *)
Record WorkerBackends := MkWorkerBackends {
  wb_backends : list WorkerBackend;
  wb_providing : bool;
  wb_publishing : bool;
}.

Section backends.
Context `{Sha256} `{SandboxText} `{ReductionJson} `{ExecutionText} `{ReceiptJson}.

(** [FakeExecutionBackend]. *)
Definition fake_backend (publishing : bool) (worker_id : string) (plan : FakeExecutionPlan) : ExecutionBackend :=
  MkExecutionBackend [Process; Container; Shell] (fake_execute worker_id plan publishing) (fun _ => mret tt).

(** [CudaExecutionBackend] and [AscendExecutionBackend]; a runtime of
    another kind has no kinds, where the code has [unreachable!]. *)
Definition cuda_kinds (kind : ExecutionKind) : list ExecutionKind :=
  match kind with CudaFixture => [CudaFixture] | CudaCorrectness => [CudaCorrectness] | _ => [] end.

Definition ascend_kinds (kind : ExecutionKind) : list ExecutionKind :=
  match kind with
  | AscendFixture => [AscendFixture]
  | AscendBuild => [AscendBuild]
  | AscendCorrectness => [AscendCorrectness]
  | _ => []
  end.

Definition cuda_backend (providing publishing : bool) (runtime : CudaExecutionRuntime) : ExecutionBackend :=
  MkExecutionBackend (cuda_kinds (runtime_executor_kind runtime)) (backend_execute runtime providing publishing)
    (retry_terminal_cleanup runtime).

Definition ascend_backend (providing publishing : bool) (runtime : AscendExecutionRuntime) : ExecutionBackend :=
  MkExecutionBackend (ascend_kinds (runtime_executor_kind runtime)) (backend_execute runtime providing publishing)
    (retry_terminal_cleanup runtime).

Definition backend_of (providing publishing : bool) (backend : WorkerBackend) : ExecutionBackend :=
  match backend with
  | FakeBackend worker_id plan => fake_backend publishing worker_id plan
  | CudaBackend runtime => cuda_backend providing publishing runtime
  | AscendBackend runtime => ascend_backend providing publishing runtime
  end.

(** The registrations of the composition, in order. *)
Fixpoint register_all (backends : list ExecutionBackend) (registry : Registry) : result RegistrationError Registry :=
  match backends with
  | [] => Ok registry
  | backend :: backends => registry ← register backend registry; register_all backends registry
  end.

Definition registry_of (backends : WorkerBackends) : result RegistrationError Registry :=
  register_all (backend_of (wb_providing backends) (wb_publishing backends) <$> wb_backends backends) registry_default.

End backends.

(** ** State *)

(** What happened, for the statements: no program reads it. *)
Inductive Happened :=
| Removed (attempt_name : string)
| Started (name : string)
| ObservedDevice (observation : DeviceObservation)
| IngestedArtifact (content : bytes)
| Published (references : list ArtifactReferenceIntent)
| FinishedAttempt (attempt_id : string) (finished : StoredFinished)
| AcquiredLease (attempt_id device_id : string)
| ReleasedLease (attempt_id : string).

Record Host (E M P A : Type) := MkHost {
  h_journal : Journal;
  h_engine : E;
  h_devices : M;
  h_publisher : P;
  h_store : A;
  h_files : FileSystem;
  h_claims : gset string;
  h_clock : nat;
  h_events : list (ProducerEvent Empty_set);
  h_log : list Happened;
}.
Arguments MkHost {E M P A}. Arguments h_journal {E M P A}. Arguments h_engine {E M P A}.
Arguments h_devices {E M P A}. Arguments h_publisher {E M P A}. Arguments h_store {E M P A}.
Arguments h_files {E M P A}. Arguments h_claims {E M P A}. Arguments h_clock {E M P A}.
Arguments h_events {E M P A}. Arguments h_log {E M P A}.

Section host.
Context {E M P A : Type} `{WorkerClock} `{FakeClock} {Eng : ContainerEngine E} {Dev : DeviceManager M}
  {Pub : ArtifactPublisher P} {Sto : ArtifactStore A} {Pro : ArtifactInputProvider A}.
Implicit Types (h : Host E M P A).

Definition with_journal h j : Host E M P A :=
  MkHost j (h_engine h) (h_devices h) (h_publisher h) (h_store h) (h_files h) (h_claims h) (S (h_clock h)) (h_events h) (h_log h).
Definition with_engine h e : Host E M P A :=
  MkHost (h_journal h) e (h_devices h) (h_publisher h) (h_store h) (h_files h) (h_claims h) (h_clock h) (h_events h) (h_log h).
Definition with_devices h m : Host E M P A :=
  MkHost (h_journal h) (h_engine h) m (h_publisher h) (h_store h) (h_files h) (h_claims h) (h_clock h) (h_events h) (h_log h).
Definition with_publisher h p : Host E M P A :=
  MkHost (h_journal h) (h_engine h) (h_devices h) p (h_store h) (h_files h) (h_claims h) (h_clock h) (h_events h) (h_log h).
Definition with_store h a : Host E M P A :=
  MkHost (h_journal h) (h_engine h) (h_devices h) (h_publisher h) a (h_files h) (h_claims h) (h_clock h) (h_events h) (h_log h).
Definition with_files h f : Host E M P A :=
  MkHost (h_journal h) (h_engine h) (h_devices h) (h_publisher h) (h_store h) f (h_claims h) (h_clock h) (h_events h) (h_log h).
Definition with_claims h c : Host E M P A :=
  MkHost (h_journal h) (h_engine h) (h_devices h) (h_publisher h) (h_store h) (h_files h) c (h_clock h) (h_events h) (h_log h).
Definition with_event h e : Host E M P A :=
  MkHost (h_journal h) (h_engine h) (h_devices h) (h_publisher h) (h_store h) (h_files h) (h_claims h) (S (h_clock h)) (h_events h ++ [e]) (h_log h).
Definition happened h l : Host E M P A :=
  MkHost (h_journal h) (h_engine h) (h_devices h) (h_publisher h) (h_store h) (h_files h) (h_claims h) (h_clock h) (h_events h) (h_log h ++ l).
Definition ticked h : Host E M P A := with_journal h (h_journal h).

(** A transaction of the journal; a failed one rolls back. *)
Definition transact {X} (t : N -> Txn X) h : Host E M P A * result AttemptStoreError X :=
  match t (worker_reading (h_clock h)) (h_journal h) with
  | Ok (x, j) => (with_journal h j, Ok x)
  | Err e => (ticked h, Err e)
  end.

(** What a successful call adds to the log. *)
Definition log_ok {F X} (entry : X -> list Happened) (r : Host E M P A * result F X) : Host E M P A * result F X :=
  match r.2 with Ok x => (happened r.1 (entry x), Ok x) | Err e => r end.

Definition on_devices h (r : M * result DeviceStatusError DeviceObservation) :
    Host E M P A * result DeviceStatusError DeviceObservation :=
  log_ok (fun o => [ObservedDevice o]) (with_devices h r.1, r.2).

(** The calls of the engine the log tells of, whatever their result. *)
Definition engine_entries {X} (call : EngineCall X) : list Happened :=
  match call with
  | StartContainer name => [Started name]
  | RemoveContainer name => [Removed name]
  | _ => []
  end.

(** [producer_event]; the frame takes the time at which it is made. *)
Definition producer_event (worker_id : string) (input : ExecutorInput) (now : N) (event : WorkerEvent) :
    ProducerEvent Empty_set :=
  let frame := producer_event_new now (xi_task_id input) (MkProducer "alloyport-worker" worker_id) event in
  MkFrame (pe_schema_version frame) (pe_run_id frame) (Some (xi_task_id input)) (pe_turn_id frame)
    (Some (xi_attempt_id input)) (pe_parent_operation_id frame) (pe_producer_sequence frame)
    (pe_emitted_at_unix_ms frame) (pe_producer frame) Observed User (pe_event frame).

(** One effect. *)
Definition perform {X} (e : Effect X) (h : Host E M P A) : Host E M P A * X :=
  match e in Effect X return Host E M P A * X with
  | AcquireClaim id =>
      if decide (id ∈ h_claims h) then (h, false) else (with_claims h ({[id]} ∪ h_claims h), true)
  | DropClaim id => (with_claims h (h_claims h ∖ {[id]}), tt)
  | FindAttempt id => (h, journal_attempt id (h_journal h))
  | MarkRunning id => transact (mark_running id) h
  | MarkFinished id finished =>
      log_ok (fun _ => [FinishedAttempt id finished]) (transact (mark_finished id finished) h)
  | AcquireLease id device =>
      log_ok (fun _ => [AcquiredLease (as_str id) device]) (transact (acquire_device_lease id device) h)
  | ReleaseLease id => log_ok (fun _ => [ReleasedLease (as_str id)]) (transact (release_device_lease id) h)
  | ActiveLeases => (h, active_device_leases (h_journal h))
  | RecordPreflight id observation => transact (fun _ => record_device_preflight id observation) h
  | FindPreflight id => (h, device_preflight id (h_journal h))
  | SnapshotDevices => let r := devices_snapshot (h_devices h) in (with_devices h r.1, r.2)
  | ObserveDevice id => on_devices h (devices_observe id (h_devices h))
  | RecoverDevice id => on_devices h (devices_recover id (h_devices h))
  | OnEngine call => let r := engine_do call (h_engine h) in (happened (with_engine h r.1) (engine_entries call), r.2)
  | ProvideInput artifact => let r := provider_materialize artifact (h_store h) in (with_store h r.1, r.2)
  | OpenArtifact digest => (h, artifact_open digest (h_store h))
  | IngestArtifact content =>
      let r := artifact_ingest content ingest_unverified (h_store h) in
      log_ok (fun _ => [IngestedArtifact content]) (with_store h r.1, r.2)
  | CreateDirectory path =>
      let r := fs_create_dir_all [] (file_key path) (h_files h) in (with_files h r.1, r.2)
  | MakeDirectory path => let r := fs_create_dir (file_key path) (h_files h) in (with_files h r.1, r.2)
  | SymlinkMetadata path => (h, fs_symlink_metadata (file_key path) (h_files h))
  | ReadDirectory path => (h, fs_read_dir (file_key path) (h_files h))
  | CreateNew path => let r := fs_create_new (file_key path) (h_files h) in (with_files h r.1, r.2)
  | WriteAll path content => (with_files h (fs_write_all (file_key path) content (h_files h)), true)
  | SyncAll path => (h, true)
  | ReadFile path => (h, fs_read (file_key path) (h_files h))
  | Publish references =>
      let r := publisher_publish references (h_publisher h) in
      log_ok (fun _ => [Published references]) (with_publisher h r.1, r.2)
  | SendChunk _ => (ticked h, fake_send (h_clock h))
  | Delay _ _ => (ticked h, fake_delay (h_clock h))
  | Observe _ => (h, tt)
  | PushEvent worker_id input event =>
      (with_event h (producer_event worker_id input (worker_reading (h_clock h)) event), tt)
  end.

(** A program by itself. *)
Fixpoint run_prog {T} (p : Prog T) (h : Host E M P A) : Host E M P A * T :=
  match p with
  | Done a => (h, a)
  | Do e k => let r := perform e h in run_prog (k r.2) r.1
  end.

(** ** Tasks *)

(** A running execution: the attempt it is about, whether it holds the
    claim on it, and what it still has to do. *)
Record ExecutionTask := MkExecutionTask {
  tk_attempt : string;
  tk_claimed : bool;
  tk_program : Exec BackendError unit;
}.

Record System := MkSystem { sy_host : Host E M P A; sy_tasks : gmap nat ExecutionTask }.

Inductive Action :=
| Spawn (task : nat) (attempt_id : string)
| SpawnCleanup (task : nat) (attempt_id : string)
| Step (task : nat)
| Cancel (task : nat)
| Crash
| Other (op : JournalOp)
| Tick.

(** The claim is a field of the future of the task. *)
Definition claim_after {X} (e : Effect X) (x : X) (claimed : bool) : bool :=
  match e in Effect X return X -> bool with
  | AcquireClaim _ => fun ok => ok || claimed
  | DropClaim _ => fun _ => false
  | _ => fun _ => claimed
  end x.

(** One effect of a task; a task that is done is gone. *)
Definition step_task (id : nat) (task : ExecutionTask) (s : System) : System :=
  match tk_program task with
  | Done _ => MkSystem (sy_host s) (delete id (sy_tasks s))
  | Do e k =>
      let r := perform e (sy_host s) in
      MkSystem r.1 (<[id := MkExecutionTask (tk_attempt task) (claim_after e r.2 (tk_claimed task)) (k r.2)]> (sy_tasks s))
  end.

(** A dropped task drops its claim. *)
Definition drop_task (id : nat) (task : ExecutionTask) (s : System) : System :=
  MkSystem (if tk_claimed task then with_claims (sy_host s) (h_claims (sy_host s) ∖ {[tk_attempt task]}) else sy_host s)
    (delete id (sy_tasks s)).

Definition is_finished (attempt_id : string) (j : Journal) : bool :=
  match journal_attempt attempt_id j with
  | Some attempt => bool_decide (la_phase attempt = PhaseFinished)
  | None => false
  end.

(** The backend for an attempt, of [ensure_execution] when it is not
    finished and of [retry_terminal_cuda_cleanup] when it is. *)
Definition backend_for (registry : Registry) (finished : bool) (attempt_id : string) (j : Journal) : option ExecutionBackend :=
  attempt ← journal_attempt attempt_id j;
  if bool_decide (la_phase attempt = PhaseFinished) then
    if finished then registry (executor_kind (ac_execution (la_assignment attempt))) else None
  else if finished then None else registry (executor_kind (ac_execution (la_assignment attempt))).

Definition spawn (id : nat) (attempt_id : string) (program : Exec BackendError unit) (s : System) : System :=
  match sy_tasks s !! id with
  | Some _ => s
  | None => MkSystem (sy_host s) (<[id := MkExecutionTask attempt_id false program]> (sy_tasks s))
  end.

Definition host_step (registry : Registry) (action : Action) (s : System) : System :=
  let j := h_journal (sy_host s) in
  match action with
  | Spawn id attempt_id =>
      match backend_for registry false attempt_id j with
      | Some backend => spawn id attempt_id (_ ← bk_execute backend attempt_id; mret tt) s
      | None => s
      end
  | SpawnCleanup id attempt_id =>
      match backend_for registry true attempt_id j with
      | Some backend => spawn id attempt_id (bk_cleanup backend attempt_id) s
      | None => s
      end
  | Step id => match sy_tasks s !! id with Some task => step_task id task s | None => s end
  | Cancel id => match sy_tasks s !! id with Some task => drop_task id task s | None => s end
  | Crash => MkSystem (with_claims (sy_host s) ∅) ∅
  | Other op => MkSystem (with_journal (sy_host s) (run_op op j)) (sy_tasks s)
  | Tick => MkSystem (with_engine (sy_host s) (engine_tick (h_engine (sy_host s)))) (sy_tasks s)
  end.

Definition host_run (registry : Registry) (actions : list Action) (s : System) : System :=
  foldl (fun s action => host_step registry action s) s actions.

End host.
