(* ===== verification/ExecutionInvariant.v ===== *)
(** * The invariant of a host

    What following the protocol of ExecutionProtocol.v means: an invariant
    of a host that runs any number of tasks, beside the other operations of
    the worker, with tasks dropped and the process restarted anywhere.  The
    container engine, the artifact store and the provider of inputs are
    assumed to keep their contracts ([ContainerEngineLaws],
    [ArtifactStoreLaws], [ProviderLaws]); what they answer is free. *)

From stdpp Require Import base strings gmap sets list.
From S2P Require Import Prelude Text Digest Identity Vocabulary Artifacts Uploads RunEvents WorkerJournal WorkerSession WorkerUpdates Devices Containers CudaContract Effects Executions FakeExecutor ExecutionProtocol ExecutionHost.

Local Open Scope N_scope.

(** ** Contracts of the ports *)

(** What a container engine shows of a container: its phase, and how many
    times it was started under that name. *)
Class EngineView (E : Type) := {
  engine_phase : string -> E -> option ContainerPhase;
  engine_starts : string -> E -> nat;
}.

(** Nothing happens to a container but that it exits. *)
Definition calm `{EngineView E} (name : string) (e e' : E) : Prop :=
  engine_starts name e' = engine_starts name e
  /\ (engine_phase name e' = engine_phase name e
      \/ engine_phase name e = Some ContainerRunning /\ engine_phase name e' = Some ContainerExited).

(** The container a call creates, starts or removes. *)
Definition changes {X} (call : EngineCall X) : option string :=
  match call with
  | CreateContainer plan _ => Some (plan_container_name plan)
  | StartContainer name | RemoveContainer name => Some name
  | _ => None
  end.

(** A call that fails may or may not have done its work; it does nothing
    after it has returned. *)
Class ContainerEngineLaws (E : Type) `{ContainerEngine E, EngineView E} := {
  tick_calm : forall name e, calm name e (engine_tick e);
  call_calm : forall X (call : EngineCall X) name e, changes call <> Some name -> calm name e (engine_do call e).1;
  create_does : forall plan identity e, let name := plan_container_name plan in
    let e' := (engine_do (CreateContainer plan identity) e).1 in
    calm name e e' \/ engine_starts name e' = engine_starts name e
                      /\ engine_phase name e = None /\ engine_phase name e' = Some ContainerCreated;
  start_does : forall name e, let e' := (engine_do (StartContainer name) e).1 in
    calm name e e' \/ engine_starts name e' = S (engine_starts name e)
                      /\ (engine_phase name e' = Some ContainerRunning \/ engine_phase name e' = Some ContainerExited);
  remove_does : forall name e, let e' := (engine_do (RemoveContainer name) e).1 in
    calm name e e' \/ engine_starts name e' = engine_starts name e /\ engine_phase name e' = None;
  inspect_shows : forall name e found, (engine_do (InspectContainer name) e).2 = Ok found ->
    cs_phase <$> found = engine_phase name (engine_do (InspectContainer name) e).1;
}.

(** A provider only adds to the store. *)
Class ProviderLaws (A : Type) `{ArtifactStore A, ArtifactInputProvider A} :=
  provider_keeps : forall artifact a d r,
    artifact_open d a = Ok r -> artifact_open d (provider_materialize artifact a).1 = Ok r.

(** ** Facts of a journal that last *)

Definition past_accepted (attempt_id : string) (j : Journal) : Prop :=
  exists a, journal_attempt attempt_id j = Some a /\ la_phase a <> PhaseAccepted.

Lemma is_finished_true id j :
  is_finished id j = true <-> exists a, journal_attempt id j = Some a /\ la_phase a = PhaseFinished.
Proof.
  unfold is_finished. destruct (journal_attempt id j) as [a|]; [|naive_solver].
  rewrite bool_decide_eq_true. naive_solver.
Qed.

Lemma journal_attempt_later j j' id a :
  journal_later j j' -> journal_attempt id j = Some a ->
  exists a', journal_attempt id j' = Some a' /\ phase_code (la_phase a) <= phase_code (la_phase a').
Proof.
  intros [_ Hl _ _] (row & Hr & ->)%fmap_Some. destruct (Hl _ _ Hr) as (row' & Hr' & (_ & _ & _ & Hp & _)).
  exists (row_record row'). unfold journal_attempt. by rewrite Hr'.
Qed.

Lemma past_accepted_later j j' id : journal_later j j' -> past_accepted id j -> past_accepted id j'.
Proof.
  intros Hl (a & Ha & Hp). destruct (journal_attempt_later _ _ _ _ Hl Ha) as (a' & Ha' & Hc).
  exists a'. split; [done|]. intros E. rewrite E in Hc. by destruct (la_phase a).
Qed.

Lemma is_finished_later j j' id : journal_later j j' -> is_finished id j = true -> is_finished id j' = true.
Proof.
  rewrite !is_finished_true. intros Hl (a & Ha & Hp). destruct (journal_attempt_later _ _ _ _ Hl Ha) as (a' & Ha' & Hc).
  exists a'. split; [done|]. rewrite Hp in Hc. by destruct (la_phase a').
Qed.

Lemma finished_past_accepted j id : is_finished id j = true -> past_accepted id j.
Proof. intros (a & Ha & Hp)%is_finished_true. exists a. split; [done|]. by rewrite Hp. Qed.

Lemma mark_running_past id t j u j' : mark_running id t j = Ok (u, j') -> past_accepted id j'.
Proof.
  unfold mark_running. intros (row & Hrow%ok_or_Ok & (j1 & Hx & ([a s] & _ & ([o j2] & Hq & [= _ <-])%result_bind_Ok)
    %result_bind_Ok)%result_bind_Ok)%result_bind_Ok.
  apply enqueue_outbox_later in Hq as [Ha _]. cbn [fst snd] in *. unfold past_accepted, journal_attempt. rewrite Ha.
  destruct (la_phase (row_record row)) eqn:Hp; [|injection Hx as <-; rewrite Hrow|done].
  - apply result_bind_Ok in Hx as (t1 & _ & [= <-]). cbn. rewrite lookup_insert_eq. cbn. eexists. split; [done|]. done.
  - cbn. eexists. split; [done|]. by rewrite Hp.
Qed.

Lemma mark_finished_is_finished id f t j u j' :
  JInv j -> mark_finished id f t j = Ok (u, j') -> is_finished id j' = true.
Proof.
  intros Hi H. apply mark_finished_Ok in H as (Hi' & _ & row & Hr & Hf & _); [|done].
  apply is_finished_true. exists (row_record row). unfold journal_attempt. rewrite Hr. split; [done|].
  destruct (ji_attempts _ Hi' _ _ Hr) as (_ & _ & Hphase). apply Hphase. by rewrite Hf.
Qed.

Lemma journal_attempt_id j id a :
  JInv j -> journal_attempt id j = Some a -> as_str (ac_attempt_id (la_assignment a)) = id.
Proof. intros Hi (row & Hr & ->)%fmap_Some. by destruct (ji_attempts _ Hi _ _ Hr) as (-> & _). Qed.

(** ** The invariant *)

Section host.
Context {E M P A : Type} `{Sha256} `{WorkerClock} `{FakeClock} `{ContainerEngine E} `{DeviceManager M} `{ArtifactPublisher P}
  `{ArtifactStore A} `{ArtifactInputProvider A} `{EngineView E}.
Implicit Types (h : Host E M P A).

(** The contents a terminal record names were stored before. *)
Definition outputs_in (log : list Happened) (finished : StoredFinished) : Prop :=
  exists contents, outputs_among contents finished /\ Forall (fun c => IngestedArtifact c ∈ log) contents.

(** The device was seen after the container was removed. *)
Definition seen_after_removal (id : string) (o : DeviceObservation) (log : list Happened) : Prop :=
  exists before between rest,
    log = before ++ (Removed (container_name id) :: (between ++ (ObservedDevice o :: rest))).

(** Why an entry of the log may follow the ones before it. *)
Definition entry_ok (publishing : Setting) (log : list Happened) (entry : Happened) : Prop :=
  match entry with
  | FinishedAttempt id finished =>
      outputs_in log finished
      /\ (set_publishing publishing = true -> Published (terminal_reference_intents id finished) ∈ log)
  | AcquiredLease id device => set_device publishing id device
  | ReleasedLease id =>
      exists o, set_device publishing id (obs_device_id o)
      /\ (((Started (container_name id) ∉ log) /\ ObservedDevice o ∈ log /\ obs_health o = DeviceReady)
          \/ (seen_after_removal id o log /\ reusable o = true))
  | _ => True
  end.

Inductive justified (publishing : Setting) : list Happened -> Prop :=
| justified_nil : justified publishing []
| justified_snoc log entry : justified publishing log -> entry_ok publishing log entry -> justified publishing (log ++ [entry]).

(** What holds of a host between any two effects. *)
Record Steady (publishing : Setting) (h : Host E M P A) : Prop := {
  st_journal : JInv (h_journal h);
  st_once : forall id, (engine_starts (container_name id) (h_engine h) <= 1)%nat;
  st_accepted : forall id, Started (container_name id) ∈ h_log h \/ engine_starts (container_name id) (h_engine h) <> 0%nat ->
    past_accepted id (h_journal h);
  st_present : forall id, engine_starts (container_name id) (h_engine h) = 1%nat ->
    Removed (container_name id) ∉ h_log h ->
    engine_phase (container_name id) (h_engine h) = Some ContainerRunning
    \/ engine_phase (container_name id) (h_engine h) = Some ContainerExited;
  st_removed : forall id, Removed (container_name id) ∈ h_log h -> is_finished id (h_journal h) = true;
  st_justified : justified publishing (h_log h);
  st_stored : forall c, IngestedArtifact c ∈ h_log h ->
    exists r, artifact_open (digest_bytes c) (h_store h) = Ok r /\ rd_source r = c;
}.

(** What a task knows is true. *)
Record holds (id : string) (k : Know) (h : Host E M P A) : Prop := {
  ho_claimed : k_claimed k = true -> id ∈ h_claims h;
  ho_unfinished : k_unfinished k = true -> k_claimed k = true /\ Removed (container_name id) ∉ h_log h;
  ho_unstarted : k_unstarted k = true -> k_claimed k = true /\ Started (container_name id) ∉ h_log h;
  ho_created : k_created k = true -> k_claimed k = true /\ engine_starts (container_name id) (h_engine h) = 0%nat;
  ho_running : k_running k = true -> past_accepted id (h_journal h);
  ho_finished : k_finished k = true -> is_finished id (h_journal h) = true;
  ho_observed : forall o, k_observed k = Some o ->
    ObservedDevice o ∈ h_log h /\ (k_removed k = true -> seen_after_removal id o (h_log h));
  ho_removed : k_removed k = true -> k_claimed k = true /\ Removed (container_name id) ∈ h_log h;
  ho_published : forall references, k_published k = Some references -> Published references ∈ h_log h;
  ho_ingested : Forall (fun c => IngestedArtifact c ∈ h_log h) (k_ingested k);
}.

(** ** What lasts *)

(** What no effect undoes. *)
Record later (h h' : Host E M P A) : Prop := {
  la_journal : JInv (h_journal h) -> JInv (h_journal h') /\ journal_later (h_journal h) (h_journal h');
  la_log : exists entries, h_log h' = h_log h ++ entries;
  la_store : forall d r, artifact_open d (h_store h) = Ok r -> artifact_open d (h_store h') = Ok r;
}.

#[export] Instance later_refl : Reflexive later.
Proof. intros h. split; [done|by exists []; rewrite app_nil_r|done]. Qed.

(** What an effect of another task leaves of an attempt. *)
Record untouched (id : string) (h h' : Host E M P A) : Prop := {
  un_claims : id ∈ h_claims h -> id ∈ h_claims h';
  un_starts : engine_starts (container_name id) (h_engine h') = engine_starts (container_name id) (h_engine h);
  un_started : Started (container_name id) ∈ h_log h' -> Started (container_name id) ∈ h_log h;
  un_removed : Removed (container_name id) ∈ h_log h' -> Removed (container_name id) ∈ h_log h;
}.

#[export] Instance untouched_refl id : Reflexive (untouched id).
Proof. by intros h. Qed.

Lemma later_elem h h' entry : later h h' -> entry ∈ h_log h -> entry ∈ h_log h'.
Proof. intros [_ [l ->] _] ?. apply elem_of_app. by left. Qed.

Lemma seen_after_removal_app id o log l : seen_after_removal id o log -> seen_after_removal id o (log ++ l).
Proof. intros (a & b & c & ->). exists a, b, (c ++ l). by rewrite <-app_assoc, app_comm_cons, <-app_assoc. Qed.

Lemma holds_later id k h h' :
  JInv (h_journal h) -> later h h' -> (k_claimed k = true -> untouched id h h') -> holds id k h -> holds id k h'.
Proof.
  intros Hj Hl Hu Hh. pose proof (later_elem h h') as Hel.
  destruct Hl as [Hjl [l Hlog] Hst]. destruct (Hjl Hj) as [_ Hjl']. destruct Hh. split.
  - intros Hc. apply (un_claims _ _ _ (Hu Hc)); auto.
  - intros [Hc ?]%ho_unfinished0. split; [done|]. intros ?%(un_removed _ _ _ (Hu Hc)). done.
  - intros [Hc ?]%ho_unstarted0. split; [done|]. intros ?%(un_started _ _ _ (Hu Hc)). done.
  - intros [Hc ?]%ho_created0. split; [done|]. by rewrite (un_starts _ _ _ (Hu Hc)).
  - intros ?. eapply past_accepted_later; eauto.
  - intros ?. eapply is_finished_later; eauto.
  - intros o [Ho Hr]%ho_observed0. rewrite Hlog. split; [by apply elem_of_app; left|].
    intros ?%Hr. by apply seen_after_removal_app.
  - intros [? ?]%ho_removed0. split; [done|]. apply Hel; [|done]. split; eauto.
  - intros ? ?%ho_published0. apply Hel; [|done]. split; eauto.
  - eapply Forall_impl; [done|]. intros c ?. apply Hel; [|done]. split; eauto.
Qed.


(** ** One effect *)

Context `{!ContainerEngineLaws E} `{!ArtifactStoreLaws A} `{!ProviderLaws A}.

Definition starts_container {X} (e : Effect X) (name : string) : Prop :=
  match e with OnEngine call => match call with StartContainer n => n = name | _ => False end | _ => False end.
Definition removes_container {X} (e : Effect X) (name : string) : Prop :=
  match e with OnEngine call => match call with RemoveContainer n => n = name | _ => False end | _ => False end.
Definition drops_claim {X} (e : Effect X) (id : string) : Prop :=
  match e with DropClaim i => i = id | _ => False end.

(** What the log may say of an effect. *)
Definition reports {X} (e : Effect X) (entry : Happened) : Prop :=
  match entry with
  | Removed name => removes_container e name
  | Started name => starts_container e name
  | ObservedDevice _ => True
  | IngestedArtifact content => match e with IngestArtifact c => c = content | _ => False end
  | Published references => match e with Publish r => r = references | _ => False end
  | FinishedAttempt id finished => match e with MarkFinished i f => i = id /\ f = finished | _ => False end
  | AcquiredLease id device => match e with AcquireLease i d => as_str i = id /\ d = device | _ => False end
  | ReleasedLease id => match e with ReleaseLease i => as_str i = id | _ => False end
  end.

Lemma log_ok_log {F X} (entry : X -> Happened) (r : Host E M P A * result F X) (Q : Happened -> Prop) h :
  h_log r.1 = h_log h -> (forall x, Q (entry x)) ->
  exists entries, h_log (log_ok (fun x => [entry x]) r).1 = h_log h ++ entries
    /\ (entries = [] \/ exists x, entries = [x] /\ Q x).
Proof.
  intros Hr HQ. unfold log_ok. destruct (r.2) as [x|]; cbn; rewrite Hr.
  - exists [entry x]. split; [done|]. right. eauto.
  - exists []. by rewrite app_nil_r; auto.
Qed.

Lemma transact_same {X} (t : N -> Txn X) h :
  h_log (transact t h).1 = h_log h /\ h_engine (transact t h).1 = h_engine h
  /\ h_claims (transact t h).1 = h_claims h /\ h_store (transact t h).1 = h_store h.
Proof. unfold transact. by destruct (t _ _) as [[x j]|]. Qed.

Lemma perform_log {X} (e : Effect X) h :
  exists entries, h_log (perform e h).1 = h_log h ++ entries
    /\ (entries = [] \/ exists x, entries = [x] /\ reports e x).
Proof.
  assert (forall h', h_log h' = h_log h -> exists entries, h_log h' = h_log h ++ entries
    /\ (entries = [] \/ exists x, entries = [x] /\ reports e x)) as Hsame.
  { intros h' ->. exists []. rewrite app_nil_r. auto. }
  destruct e; cbn [perform]; try (by apply Hsame);
    try (by apply Hsame, transact_same);
    try (apply log_ok_log; [by cbn; first [done|apply transact_same]|done]).
  - case_decide; by apply Hsame.
  - destruct call; try (by apply Hsame; cbn; rewrite app_nil_r); eexists; (split; [done|]); right; by eexists.
Qed.

Lemma log_ok_engine {F X} (entry : X -> list Happened) (r : Host E M P A * result F X) :
  h_engine (log_ok entry r).1 = h_engine r.1 /\ h_claims (log_ok entry r).1 = h_claims r.1
  /\ h_journal (log_ok entry r).1 = h_journal r.1 /\ h_store (log_ok entry r).1 = h_store r.1.
Proof. unfold log_ok. by destruct (r.2). Qed.

(** A call of the engine, seen from one container. *)
Lemma engine_step {X} (call : EngineCall X) name e :
  let e' := (engine_do call e).1 in
  calm name e e'
  \/ engine_starts name e' = engine_starts name e /\ engine_phase name e = None
  \/ engine_starts name e' = S (engine_starts name e) /\ starts_container (OnEngine call) name
     /\ (engine_phase name e' = Some ContainerRunning \/ engine_phase name e' = Some ContainerExited)
  \/ engine_starts name e' = engine_starts name e /\ removes_container (OnEngine call) name.
Proof.
  intros e'. subst e'. destruct (decide (changes call = Some name)) as [Hc|Hc]; [|by left; apply call_calm].
  destruct call; try discriminate; injection Hc as <-.
  - destruct (create_does plan identity e) as [?|(? & ? & _)]; auto.
  - destruct (start_does name0 e) as [?|(? & ?)]; [auto|]. right; right; left. done.
  - destruct (remove_does name0 e) as [?|(? & ?)]; auto. right; right; right. done.
Qed.

Lemma calm_refl name (e : E) : calm name e e.
Proof. split; auto. Qed.

Lemma perform_engine {X} (e : Effect X) name h :
  let e0 := h_engine h in let e1 := h_engine (perform e h).1 in
  calm name e0 e1
  \/ engine_starts name e1 = engine_starts name e0 /\ engine_phase name e0 = None
  \/ engine_starts name e1 = S (engine_starts name e0) /\ starts_container e name
     /\ (engine_phase name e1 = Some ContainerRunning \/ engine_phase name e1 = Some ContainerExited)
  \/ engine_starts name e1 = engine_starts name e0 /\ removes_container e name.
Proof.
  intros e0 e1. subst e0 e1.
  assert (forall h', h_engine h' = h_engine h -> calm name (h_engine h) (h_engine h')) as Hsame.
  { intros h' ->. apply calm_refl. }
  destruct e; cbn [perform]; try (by left; apply Hsame);
    try (by left; apply Hsame, transact_same);
    try (by left; apply Hsame; unfold on_devices; rewrite (proj1 (log_ok_engine _ _)); first [done|apply transact_same]).
  - left. case_decide; by apply Hsame.
  - apply engine_step.
Qed.


Lemma transact_later {X} (t : N -> Txn X) h :
  (forall now u j j', t now j = Ok (u, j') -> sound_step j j') ->
  JInv (h_journal h) -> JInv (h_journal (transact t h).1) /\ journal_later (h_journal h) (h_journal (transact t h).1).
Proof.
  intros Ht Hj. unfold transact. destruct (t _ _) as [[x j]|] eqn:Et; [by eapply Ht|]. by split.
Qed.

Lemma mark_finished_sound id f t j u j' : mark_finished id f t j = Ok (u, j') -> sound_step j j'.
Proof. intros Hm Hj. by apply mark_finished_Ok in Hm as (? & ? & _). Qed.

Lemma perform_journal {X} (e : Effect X) h :
  JInv (h_journal h) -> JInv (h_journal (perform e h).1) /\ journal_later (h_journal h) (h_journal (perform e h).1).
Proof.
  intros Hj.
  assert (forall h', h_journal h' = h_journal h -> JInv (h_journal h') /\ journal_later (h_journal h) (h_journal h')) as Hsame
    by by intros h' ->.
  destruct e; cbn [perform]; try (by apply Hsame);
    try (by apply Hsame; unfold on_devices; rewrite (proj1 (proj2 (proj2 (log_ok_engine _ _)))));
    try rewrite (proj1 (proj2 (proj2 (log_ok_engine _ _)))).
  - case_decide; by apply Hsame.
  - apply transact_later; [|done]. intros ????. apply mark_running_Ok.
  - apply transact_later; [|done]. intros ????. apply mark_finished_sound.
  - apply transact_later; [|done]. intros ????. apply acquire_device_lease_sound.
  - apply transact_later; [|done]. intros ????. apply release_device_lease_Ok.
  - apply transact_later; [|done]. intros ????. apply record_device_preflight_Ok.
Qed.

Lemma perform_store {X} (e : Effect X) h d r :
  artifact_open d (h_store h) = Ok r -> artifact_open d (h_store (perform e h).1) = Ok r.
Proof.
  intros Hopen.
  assert (forall h', h_store h' = h_store h -> artifact_open d (h_store h') = Ok r) as Hsame by by intros h' ->.
  destruct e; cbn [perform]; try (by apply Hsame); try (by apply Hsame, transact_same);
    try (by apply Hsame; unfold on_devices; rewrite (proj2 (proj2 (proj2 (log_ok_engine _ _)))); first [done|apply transact_same]).
  - case_decide; by apply Hsame.
  - by apply provider_keeps.
  - rewrite (proj2 (proj2 (proj2 (log_ok_engine _ _)))). by apply ingest_keeps.
Qed.

Lemma perform_later {X} (e : Effect X) h : later h (perform e h).1.
Proof.
  split; [apply perform_journal| |apply perform_store].
  destruct (perform_log e h) as (l & -> & _). by exists l.
Qed.

Lemma perform_claims {X} (e : Effect X) h id :
  ~ drops_claim e id -> id ∈ h_claims h -> id ∈ h_claims (perform e h).1.
Proof.
  intros Hd Hid.
  assert (forall h', h_claims h' = h_claims h -> id ∈ h_claims h') as Hsame by by intros h' ->.
  destruct e; cbn [perform]; try (by apply Hsame); try (by apply Hsame, transact_same);
    try (by apply Hsame; unfold on_devices; rewrite (proj1 (proj2 (log_ok_engine _ _))); first [done|apply transact_same]).
  - case_decide; [done|]. cbn. set_solver.
  - cbn in *. set_solver.
Qed.

Lemma perform_entry {X} (e : Effect X) h entry :
  entry ∈ h_log (perform e h).1 -> entry ∈ h_log h \/ reports e entry.
Proof.
  destruct (perform_log e h) as (l & -> & [->|(x & -> & Hx)]); rewrite elem_of_app; intros [?|Hin]; auto.
  - by apply elem_of_nil in Hin.
  - apply list_elem_of_singleton in Hin as ->. auto.
Qed.

Lemma perform_untouched {X} (e : Effect X) h id :
  ~ drops_claim e id -> ~ starts_container e (container_name id) -> ~ removes_container e (container_name id) ->
  untouched id h (perform e h).1.
Proof.
  intros Hd Hs Hr. split.
  - by apply perform_claims.
  - destruct (perform_engine e (container_name id) h) as [[? _]|[[? _]|[(_ & ? & _)|(? & ?)]]]; done.
  - by intros [?|?]%perform_entry.
  - by intros [?|?]%perform_entry.
Qed.


#[local] Instance container_name_inj : Inj (=) (=) container_name.
Proof. intros a b Hab. by apply (inj (String.append "alloyport-")) in Hab. Qed.

(** *** The invariant is kept *)

Lemma perform_accepted {X} (e : Effect X) id publishing k h id' :
  Steady publishing h -> holds id k h -> permits id publishing k e ->
  Started (container_name id') ∈ h_log (perform e h).1
  \/ engine_starts (container_name id') (h_engine (perform e h).1) <> 0%nat ->
  past_accepted id' (h_journal (perform e h).1).
Proof.
  intros Hst Hh Hp Hor. destruct (perform_journal e h (st_journal _ _ Hst)) as [_ Hl].
  eapply past_accepted_later; [done|].
  assert (starts_container e (container_name id') -> past_accepted id' (h_journal h)) as Hstart.
  { destruct e; try done. destruct call; try done. cbn. intros ->. destruct Hp as (->%(inj container_name) & _ & _ & Hr & _).
    by apply (ho_running _ _ _ Hh). }
  destruct Hor as [[?|?]%perform_entry|Hn]; [by apply (st_accepted _ _ Hst); left|by apply Hstart|].
  destruct (perform_engine e (container_name id') h) as [[Hs _]|[[Hs _]|[(_ & ? & _)|(Hs & _)]]]; [..|by apply Hstart|];
    apply (st_accepted _ _ Hst); right; congruence.
Qed.

Lemma perform_once {X} (e : Effect X) id publishing k h id' :
  Steady publishing h -> holds id k h -> permits id publishing k e ->
  (engine_starts (container_name id') (h_engine (perform e h).1) <= 1)%nat.
Proof.
  intros Hst Hh Hp. pose proof (st_once _ _ Hst id') as Ho.
  destruct (perform_engine e (container_name id') h) as [[-> _]|[[-> _]|[(-> & Hs & _)|(-> & _)]]]; [done..| |done].
  destruct e; try done. destruct call; try done. cbn in Hs. subst name. destruct Hp as (->%(inj container_name) & _ & _ & _ & Hc).
  destruct (ho_created _ _ _ Hh Hc) as [_ ->]. done.
Qed.

Lemma perform_present {X} (e : Effect X) id publishing k h id' :
  Steady publishing h -> holds id k h -> permits id publishing k e ->
  engine_starts (container_name id') (h_engine (perform e h).1) = 1%nat ->
  Removed (container_name id') ∉ h_log (perform e h).1 ->
  engine_phase (container_name id') (h_engine (perform e h).1) = Some ContainerRunning
  \/ engine_phase (container_name id') (h_engine (perform e h).1) = Some ContainerExited.
Proof.
  intros Hst Hh Hp Hone Hrem.
  assert (Removed (container_name id') ∉ h_log h) as Hrem0.
  { intros Hin. apply Hrem. by eapply later_elem; [apply perform_later|]. }
  pose proof (fun Hs => st_present _ _ Hst id' Hs Hrem0) as Hpres.
  destruct (perform_engine e (container_name id') h) as [[Hs Hphase]|[[Hs Hphase]|[(Hs & _ & ?)|(Hs & Hr)]]].
  - destruct Hphase as [->|[_ ->]]; [apply Hpres; congruence|by right].
  - rewrite Hphase in Hpres. destruct Hpres; [congruence|done..].
  - done.
  - destruct Hrem. destruct e; try done. destruct call; try done. cbn in *. subst. apply elem_of_app. right. by left.
Qed.

Lemma perform_removed {X} (e : Effect X) id publishing k h id' :
  Steady publishing h -> holds id k h -> permits id publishing k e ->
  Removed (container_name id') ∈ h_log (perform e h).1 -> is_finished id' (h_journal (perform e h).1) = true.
Proof.
  intros Hst Hh Hp Hin. destruct (perform_journal e h (st_journal _ _ Hst)) as [_ Hl].
  eapply is_finished_later; [done|]. apply perform_entry in Hin as [?|Hr]; [by apply (st_removed _ _ Hst)|].
  destruct e; try done. destruct call; try done. cbn in Hr. subst. destruct Hp as (->%(inj container_name) & _ & Hf).
  by apply (ho_finished _ _ _ Hh).
Qed.

Lemma entry_is_ok {X} (e : Effect X) id publishing k h entry :
  holds id k h -> permits id publishing k e -> reports e entry -> entry_ok publishing (h_log h) entry.
Proof.
  intros Hh Hp Hr. destruct entry; cbn; try done; destruct e; try done; cbn in Hr, Hp.
  - destruct Hr as [-> ->], Hp as (-> & _ & Hout & Hpub). split; [|by intros ?%Hpub%(ho_published _ _ _ Hh)].
    exists (k_ingested k). split; [done|apply (ho_ingested _ _ _ Hh)].
  - destruct Hr as [<- <-], Hp as (-> & _ & Hd). done.
  - subst. destruct Hp as (-> & _ & o & Ho & Hd & Hwhy). exists o. split; [done|].
    destruct (ho_observed _ _ _ Hh _ Ho) as [Hin Hseen].
    destruct Hwhy as [[Hu Hready]|(_ & Hrem & Hreuse)]; [left|right]; [|auto].
    destruct (ho_unstarted _ _ _ Hh Hu). auto.
Qed.

Lemma perform_stored {X} (e : Effect X) h publishing c :
  Steady publishing h -> IngestedArtifact c ∈ h_log (perform e h).1 ->
  exists r, artifact_open (digest_bytes c) (h_store (perform e h).1) = Ok r /\ rd_source r = c.
Proof.
  intros Hst Hin. destruct (perform_log e h) as (l & Hlog & Hl). rewrite Hlog in Hin.
  apply elem_of_app in Hin as [Hin|Hin].
  { destruct (st_stored _ _ Hst _ Hin) as (r & Hr & <-). exists r. split; [by apply perform_store|done]. }
  destruct Hl as [->|(x & -> & Hx)]; [by apply elem_of_nil in Hin|].
  apply list_elem_of_singleton in Hin as <-. destruct e; try done. cbn in Hx. subst.
  cbn [perform] in *. unfold log_ok in *. cbn [fst snd] in *.
  destruct (artifact_ingest c ingest_unverified (h_store h)).2 as [r|] eqn:Hr.
  - cbn. apply ingest_Ok in Hr as (_ & _ & Ho). rewrite Ho. by eexists.
  - cbn in Hlog. apply (f_equal length) in Hlog. rewrite length_app in Hlog. cbn in Hlog. lia.
Qed.


Lemma perform_steady {X} (e : Effect X) id publishing k h :
  Steady publishing h -> holds id k h -> permits id publishing k e -> Steady publishing (perform e h).1.
Proof.
  intros Hst Hh Hp. split.
  - apply perform_journal, Hst.
  - intros id'. by eapply perform_once.
  - intros id'. by eapply perform_accepted.
  - intros id'. by eapply perform_present.
  - intros id'. by eapply perform_removed.
  - destruct (perform_log e h) as (l & -> & [->|(x & -> & Hx)]); [rewrite app_nil_r; apply Hst|].
    apply justified_snoc; [apply Hst|]. by eapply entry_is_ok.
  - intros c. by eapply perform_stored.
Qed.

(** *** What a task learns is true *)

Lemma perform_possible {X} (e : Effect X) id publishing k h :
  Steady publishing h -> holds id k h -> possible id k e (perform e h).2.
Proof.
  intros Hst Hh. destruct e; try done; cbn [possible perform].
  - cbn. split; [intros a; apply journal_attempt_id, Hst|]. intros -> Hf.
    apply is_finished_true. by apply (ho_finished _ _ _ Hh).
  - intros x. unfold log_ok. cbn [snd fst].
    destruct (artifact_ingest content ingest_unverified (h_store h)).2 as [r|] eqn:Hr; [|done].
    cbn. intros [= ->]. by apply ingest_Ok in Hr as (-> & _).
Qed.

(** The knowledge of the own attempt that an effect keeps. *)
Lemma holds_kept {X} (e : Effect X) id publishing k h :
  Steady publishing h -> holds id k h ->
  ~ drops_claim e id -> ~ starts_container e (container_name id) -> ~ removes_container e (container_name id) ->
  holds id k (perform e h).1.
Proof.
  intros Hst Hh ???. eapply holds_later; [apply Hst|apply perform_later| |done].
  intros _. by apply perform_untouched.
Qed.

(** Knowledge without a claim on the attempt. *)
Lemma holds_nothing id h : holds id know_nothing h.
Proof. by split. Qed.

Lemma holds_finished id h : is_finished id (h_journal h) = true -> holds id know_finished h.
Proof. by split. Qed.

Lemma holds_attempt id k h a :
  JInv (h_journal h) -> holds id k h -> (forall i, Removed (container_name i) ∈ h_log h -> is_finished i (h_journal h) = true) ->
  (forall i, Started (container_name i) ∈ h_log h -> past_accepted i (h_journal h)) ->
  journal_attempt id (h_journal h) = Some a -> holds id (learn_attempt k a) h.
Proof.
  intros Hj Hh Hrem Hstart Ha. unfold learn_attempt. destruct (bool_decide (la_phase a = PhaseFinished)) eqn:Hphase.
  - apply bool_decide_eq_true in Hphase. destruct Hh. split; cbn; try done.
    intros _. apply is_finished_true. eauto.
  - apply bool_decide_eq_false in Hphase. destruct Hh. split; cbn; try done.
    + intros Hc. split; [done|]. intros (a' & Ha' & Hf)%Hrem%is_finished_true. congruence.
    + intros [Hc Hacc%bool_decide_eq_true]%andb_true_iff. split; [done|].
      intros (a' & Ha' & Hf)%Hstart. congruence.
    + intros Hr%bool_decide_eq_true. exists a. split; [done|]. congruence.
Qed.

Lemma holds_observed id k h o :
  holds id k h -> (forall x, o = Some x -> ObservedDevice x ∈ h_log h /\ (k_removed k = true -> seen_after_removal id x (h_log h))) ->
  holds id (learn_observed k o) h.
Proof. intros [] Ho. by split. Qed.

Lemma holds_published id k h references :
  holds id k h -> Published references ∈ h_log h ->
  holds id (MkKnow (k_claimed k) (k_unfinished k) (k_unstarted k) (k_running k) (k_finished k) (k_removed k)
              (k_created k) (k_observed k) (Some references) (k_ingested k)) h.
Proof. intros [] Ho. split; try done. by intros ? [= <-]. Qed.

Lemma holds_ingested id k h content :
  holds id k h -> IngestedArtifact content ∈ h_log h ->
  holds id (MkKnow (k_claimed k) (k_unfinished k) (k_unstarted k) (k_running k) (k_finished k) (k_removed k)
              (k_created k) (k_observed k) (k_published k) (content :: k_ingested k)) h.
Proof. intros [] Ho. split; try done. by constructor. Qed.

Lemma holds_running id k h :
  holds id k h -> past_accepted id (h_journal h) ->
  holds id (MkKnow (k_claimed k) (k_unfinished k) (k_unstarted k) true (k_finished k) (k_removed k) (k_created k)
                  (k_observed k) (k_published k) (k_ingested k)) h.
Proof. intros [] Ho. by split. Qed.

Lemma holds_finish id k h :
  holds id k h -> is_finished id (h_journal h) = true ->
  holds id (MkKnow (k_claimed k) (k_unfinished k) (k_unstarted k) (k_running k) true (k_removed k) (k_created k)
                  (k_observed k) (k_published k) (k_ingested k)) h.
Proof. intros [] Ho. by split. Qed.

Lemma holds_inspected id k h (created : bool) :
  holds id k h -> (created = true -> k_unfinished k = true -> engine_starts (container_name id) (h_engine h) = 0%nat) ->
  holds id (learn_inspected k created) h.
Proof.
  intros [] Hc. split; try done. cbn. intros [[? ?]%andb_true_iff ?]%andb_true_iff. auto.
Qed.

(** A device observed after the container was removed. *)
Lemma observed_in_log id k h h' o :
  holds id k h -> h_log h' = h_log h ++ [ObservedDevice o] ->
  ObservedDevice o ∈ h_log h' /\ (k_removed k = true -> seen_after_removal id o (h_log h')).
Proof.
  intros Hh ->. split; [apply elem_of_app; right; by left|].
  intros [_ Hr]%(ho_removed _ _ _ Hh). apply list_elem_of_split in Hr as (l1 & l2 & ->).
  exists l1, l2, []. by rewrite <-app_assoc.
Qed.

Lemma on_devices_log h r :
  (forall o, (on_devices h r).2 = Ok o -> h_log (on_devices h r).1 = h_log h ++ [ObservedDevice o]).
Proof. intros o. unfold on_devices, log_ok. destruct r as [m [x|]]; cbn; [|done]. by intros [= ->]. Qed.

(** The effects that teach something, one at a time. *)

Ltac kept publishing := apply (holds_kept _ _ publishing); first [done | cbn; tauto].

Lemma learns_claim id publishing k h i :
  holds id k h -> permits id publishing k (AcquireClaim i) ->
  holds id (learn id k (AcquireClaim i) (perform (AcquireClaim i) h).2) (perform (AcquireClaim i) h).1.
Proof.
  intros Hh [-> Hc]. cbn. destruct Hh. case_decide; split; cbn; try done. intros _. set_solver.
Qed.

Lemma learns_observation id publishing k h (e : Effect (result DeviceStatusError DeviceObservation)) r :
  Steady publishing h -> holds id k h -> perform e h = on_devices h r ->
  ~ drops_claim e id -> ~ starts_container e (container_name id) -> ~ removes_container e (container_name id) ->
  holds id (learn_observed k (ok_value (perform e h).2)) (perform e h).1.
Proof.
  intros Hst Hh He ???. apply holds_observed; [kept publishing|]. rewrite He.
  destruct (on_devices h r).2 as [o|] eqn:Hr; [|done]. intros x [= ->].
  eapply observed_in_log; [done|by apply on_devices_log].
Qed.

Lemma learns_running id publishing k h i :
  Steady publishing h -> holds id k h -> permits id publishing k (MarkRunning i) ->
  holds id (learn id k (MarkRunning i) (perform (MarkRunning i) h).2) (perform (MarkRunning i) h).1.
Proof.
  intros Hst Hh Hp. assert (holds id k (perform (MarkRunning i) h).1) as Hk by kept publishing.
  destruct Hp as [-> _]. cbn [learn perform] in *. unfold transact in *.
  destruct (mark_running id _ (h_journal h)) as [[x j]|] eqn:Ht; cbn in *; [|done].
  apply holds_running; [done|]. by eapply mark_running_past.
Qed.

Lemma learns_finish id publishing k h i finished :
  Steady publishing h -> holds id k h -> permits id publishing k (MarkFinished i finished) ->
  holds id (learn id k (MarkFinished i finished) (perform (MarkFinished i finished) h).2)
    (perform (MarkFinished i finished) h).1.
Proof.
  intros Hst Hh Hp. assert (holds id k (perform (MarkFinished i finished) h).1) as Hk by kept publishing.
  destruct Hp as [-> _]. cbn [learn perform] in *. unfold transact, log_ok in *.
  destruct (mark_finished id finished _ (h_journal h)) as [[x j]|] eqn:Ht; cbn in *; [|done].
  apply holds_finish; [done|]. eapply mark_finished_is_finished; [apply Hst|done].
Qed.

(** A container that is there and was not started, in a steady host. *)
Lemma created_was_not_started id publishing h :
  Steady publishing h -> Removed (container_name id) ∉ h_log h ->
  engine_phase (container_name id) (h_engine h) = Some ContainerCreated ->
  engine_starts (container_name id) (h_engine h) = 0%nat.
Proof.
  intros Hst Hr Hp. pose proof (st_once _ _ Hst id). pose proof (fun Hs => st_present _ _ Hst id Hs Hr) as Hpres.
  destruct (engine_starts _ _) as [|[|n]]; [done| |lia]. rewrite Hp in Hpres. by destruct Hpres.
Qed.

Lemma learns_inspection id publishing k h name :
  Steady publishing h -> holds id k h ->
  holds id (learn id k (OnEngine (InspectContainer name)) (perform (OnEngine (InspectContainer name)) h).2)
    (perform (OnEngine (InspectContainer name)) h).1.
Proof.
  intros Hst Hh. assert (holds id k (perform (OnEngine (InspectContainer name)) h).1) as Hk by kept publishing.
  assert (Steady publishing (perform (OnEngine (InspectContainer name)) h).1) as Hst' by by eapply perform_steady.
  cbn [learn learn_call]. case_bool_decide as Hname; [|done]. subst name. apply holds_inspected; [done|].
  cbn [perform snd fst] in *. intros Hcreated Hu. eapply created_was_not_started; [done|by apply (ho_unfinished _ _ _ Hk)|].
  destruct (engine_do (InspectContainer (container_name id)) (h_engine h)).2 as [[snapshot|]|] eqn:Hr; try done.
  apply bool_decide_eq_true in Hcreated. apply inspect_shows in Hr. cbn in Hr. cbn. by rewrite <-Hr, Hcreated.
Qed.

Lemma learns_start id publishing k h name :
  Steady publishing h -> holds id k h -> permits id publishing k (OnEngine (StartContainer name)) ->
  holds id (learn id k (OnEngine (StartContainer name)) (perform (OnEngine (StartContainer name)) h).2)
    (perform (OnEngine (StartContainer name)) h).1.
Proof.
  intros Hst Hh (-> & Hc & _). cbn. destruct Hh. split; cbn; try done.
  - intros [_ Hr]%ho_unfinished0. split; [done|]. rewrite elem_of_app, list_elem_of_singleton. by intros [?|?].
  - intros o [Ho Hr]%ho_observed0. split; [by apply elem_of_app; left|]. intros ?%Hr. by apply seen_after_removal_app.
  - intros [_ ?]%ho_removed0. split; [done|]. by apply elem_of_app; left.
  - intros r ?%ho_published0. by apply elem_of_app; left.
  - eapply Forall_impl; [done|]. intros ??. by apply elem_of_app; left.
Qed.

Lemma learns_removal id publishing k h name :
  Steady publishing h -> holds id k h -> permits id publishing k (OnEngine (RemoveContainer name)) ->
  holds id (learn id k (OnEngine (RemoveContainer name)) (perform (OnEngine (RemoveContainer name)) h).2)
    (perform (OnEngine (RemoveContainer name)) h).1.
Proof.
  intros Hst Hh (-> & Hc & Hf). cbn. destruct Hh. split; cbn; try done.
  - intros [_ Hr]%ho_unstarted0. split; [done|]. rewrite elem_of_app, list_elem_of_singleton. by intros [?|?].
  - intros _. split; [done|]. apply elem_of_app. right. by left.
  - intros r ?%ho_published0. by apply elem_of_app; left.
  - eapply Forall_impl; [done|]. intros ??. by apply elem_of_app; left.
Qed.

(** One step of a program that follows the protocol. *)
Lemma perform_learns {X} (e : Effect X) id publishing k h :
  Steady publishing h -> holds id k h -> permits id publishing k e ->
  holds id (learn id k e (perform e h).2) (perform e h).1.
Proof.
  intros Hst Hh Hp. destruct e; try (kept publishing).
  - by eapply learns_claim.
  - apply holds_nothing.
  - cbn. destruct (journal_attempt attempt_id (h_journal h)) as [a|] eqn:Ha; [|done].
    case_bool_decide; [subst|done]. eapply holds_attempt; [apply Hst|done|apply Hst| |done].
    intros i ?. apply (st_accepted _ _ Hst). by left.
  - by eapply learns_running.
  - by eapply learns_finish.
  - eapply (learns_observation _ publishing); first [done|reflexivity|cbn; tauto].
  - eapply (learns_observation _ publishing); first [done|reflexivity|cbn; tauto].
  - destruct call; try (kept publishing).
    + by eapply learns_inspection.
    + by eapply learns_start.
    + by eapply learns_removal.
  - assert (holds id k (perform (IngestArtifact content) h).1) as Hk by kept publishing.
    cbn [learn perform] in *. unfold log_ok in *. cbn [snd fst] in *.
    destruct (artifact_ingest content ingest_unverified (h_store h)).2; [|done].
    apply holds_ingested; [done|]. cbn. apply elem_of_app. right. by left.
  - assert (holds id k (perform (Publish references) h).1) as Hk by kept publishing.
    cbn [learn perform] in *. unfold log_ok in *. cbn [snd fst] in *.
    destruct (publisher_publish references (h_publisher h)).2; [|done].
    apply holds_published; [done|]. cbn. apply elem_of_app. right. by left.
Qed.


(** ** Tasks *)

Context (publishing : Setting) (registry : Registry).

(** The contract of a backend for an attempt: what it runs follows the
    protocol. *)
Record backend_follows (id : string) (backend : ExecutionBackend) : Prop := {
  executes : follows id publishing know_nothing (bk_execute backend id) (fun _ _ => True);
  cleans : follows id publishing know_finished (bk_cleanup backend id) (fun _ _ => True);
}.

(** The backends for the attempts of a journal follow the protocol. *)
Definition registry_follows (j : Journal) : Prop :=
  forall id a backend, journal_attempt id j = Some a ->
    registry (executor_kind (ac_execution (la_assignment a))) = Some backend -> backend_follows id backend.

(** What a task still has to do follows the protocol, from what is true. *)
Definition task_ok (task : ExecutionTask) (h : Host E M P A) : Prop :=
  exists k, follows (tk_attempt task) publishing k (tk_program task) (fun _ _ => True)
    /\ k_claimed k = tk_claimed task /\ holds (tk_attempt task) k h.

Record SysInv (s : System (E:=E) (M:=M) (P:=P) (A:=A)) : Prop := {
  si_steady : Steady publishing (sy_host s);
  si_tasks : forall i task, sy_tasks s !! i = Some task -> task_ok task (sy_host s);
  si_claims : forall i1 i2 t1 t2, sy_tasks s !! i1 = Some t1 -> sy_tasks s !! i2 = Some t2 ->
    tk_claimed t1 = true -> tk_claimed t2 = true -> tk_attempt t1 = tk_attempt t2 -> i1 = i2;
}.

Lemma task_ok_later task h h' :
  JInv (h_journal h) -> later h h' -> (tk_claimed task = true -> untouched (tk_attempt task) h h') ->
  task_ok task h -> task_ok task h'.
Proof.
  intros Hj Hl Hu (k & Hf & Hc & Hh). exists k. split; [done|]. split; [done|].
  eapply holds_later; [done|done| |done]. by rewrite Hc.
Qed.

Lemma learn_claimed {X} (e : Effect X) id k x :
  permits id publishing k e -> k_claimed (learn id k e x) = claim_after e x (k_claimed k).
Proof.
  intros Hp. destruct e; try done; cbn; try (by destruct x).
  - destruct Hp as [_ ->]. by rewrite orb_false_r.
  - destruct x as [a|]; [|done]. case_bool_decide; [|done]. unfold learn_attempt. by destruct (bool_decide _).
  - destruct call; try done. cbn. by case_bool_decide.
Qed.

(** An effect of one task leaves the attempts of the others. *)
Lemma others_untouched {X} (e : Effect X) id k h id' :
  permits id publishing k e -> (k_claimed k = true -> id <> id') -> untouched id' h (perform e h).1.
Proof.
  intros Hp Hne. apply perform_untouched.
  - destruct e; try (cbn; tauto). intros ->. destruct Hp as [-> Hc]. by destruct Hne.
  - destruct e; try (cbn; tauto). destruct call; try (cbn; tauto). intros ->.
    destruct Hp as (->%(inj container_name) & Hc & _). by destruct Hne.
  - destruct e; try (cbn; tauto). destruct call; try (cbn; tauto). intros ->.
    destruct Hp as (->%(inj container_name) & Hc & _). by destruct Hne.
Qed.

Lemma step_task_inv i task s : SysInv s -> sy_tasks s !! i = Some task -> SysInv (step_task i task s).
Proof.
  intros [Hst Ht Hc] Hi. destruct (Ht _ _ Hi) as (k & Hf & Hk & Hh). unfold step_task.
  destruct (tk_program task) as [a|X e c] eqn:Hprog.
  - split; cbn; [done| |].
    + intros j t' [_ Hj]%lookup_delete_Some. by eapply Ht.
    + intros i1 i2 t1 t2 [_ L1]%lookup_delete_Some [_ L2]%lookup_delete_Some. by eapply Hc.
  - destruct Hf as [Hp Hf]. specialize (Hf _ (perform_possible e _ _ _ _ Hst Hh)).
    pose proof (learn_claimed e _ _ (perform e (sy_host s)).2 Hp) as Hcl.
    pose proof (perform_learns e _ _ _ _ Hst Hh Hp) as Hh'.
    split; cbn.
    + by eapply perform_steady.
    + intros j t' [[<- <-]|[Hne Hj]]%lookup_insert_Some.
      * exists (learn (tk_attempt task) k e (perform e (sy_host s)).2). cbn. rewrite <-Hk. auto.
      * eapply task_ok_later; [apply Hst|apply perform_later| |by eapply Ht].
        intros Hj'. eapply others_untouched; [done|]. rewrite Hk. intros Hi' Heq. by eapply Hne, Hc.
    + assert (forall j t', i <> j -> sy_tasks s !! j = Some t' -> tk_claimed t' = true ->
        claim_after e (perform e (sy_host s)).2 (tk_claimed task) = true -> tk_attempt task <> tk_attempt t') as Hnew.
      { intros j t' Hne Hj Hj' Hnow Heq. destruct (tk_claimed task) eqn:Hold; [by eapply Hne, Hc|].
        destruct (Ht _ _ Hj) as (k' & _ & Hk' & Hh2). rewrite Hj' in Hk'. apply (ho_claimed _ _ _ Hh2) in Hk'.
        destruct e; try done. cbn in Hnow, Hp. destruct Hp as [-> _]. rewrite Heq in Hnow. by rewrite decide_True in Hnow. }
      intros i1 i2 t1 t2 [[<- <-]|[N1 L1]]%lookup_insert_Some [[<- <-]|[N2 L2]]%lookup_insert_Some C1 C2 Heq; cbn in *.
      * done.
      * by destruct (Hnew _ _ N2 L2 C2 C1).
      * by destruct (Hnew _ _ N1 L1 C1 C2).
      * by eapply Hc.
Qed.

(** A change of a host outside of its tasks and of the log. *)
Lemma steady_outside h h' :
  Steady publishing h -> JInv (h_journal h') -> journal_later (h_journal h) (h_journal h') ->
  (forall name, calm name (h_engine h) (h_engine h')) -> h_log h' = h_log h -> h_store h' = h_store h ->
  Steady publishing h' /\ later h h'.
Proof.
  intros [] Hj Hl He Hlog Hstore. split; [|split; [done|exists []; by rewrite app_nil_r|by rewrite Hstore]].
  split; rewrite ?Hlog, ?Hstore; try done.
  - intros id. by rewrite (proj1 (He _)).
  - intros id. rewrite (proj1 (He _)). intros ?%st_accepted0. by eapply past_accepted_later.
  - intros id. rewrite (proj1 (He _)). intros Hs Hr. destruct (proj2 (He (container_name id))) as [->|[_ ->]]; auto.
  - intros id ?%st_removed0. by eapply is_finished_later.
Qed.

Lemma outside_inv s s' :
  SysInv s -> JInv (h_journal (sy_host s')) -> journal_later (h_journal (sy_host s)) (h_journal (sy_host s')) ->
  (forall name, calm name (h_engine (sy_host s)) (h_engine (sy_host s'))) ->
  h_log (sy_host s') = h_log (sy_host s) -> h_store (sy_host s') = h_store (sy_host s) ->
  (forall i task, sy_tasks s' !! i = Some task -> sy_tasks s !! i = Some task
    /\ (tk_claimed task = true -> tk_attempt task ∈ h_claims (sy_host s) -> tk_attempt task ∈ h_claims (sy_host s'))) ->
  SysInv s'.
Proof.
  intros [Hst Ht Hc] Hj Hl He Hlog Hstore Hsub. destruct (steady_outside _ _ Hst Hj Hl He Hlog Hstore) as [Hst' Hlater].
  split; [done| |].
  - intros i task Hi. destruct (Hsub _ _ Hi) as [Hi' Hcl]. eapply task_ok_later; [apply Hst|done| |by eapply Ht].
    intros Hcl'. split; [by apply Hcl|apply He|by rewrite Hlog..].
  - intros i1 i2 t1 t2 L1 L2. apply Hsub in L1 as [L1 _], L2 as [L2 _]. by eapply Hc.
Qed.

Lemma spawn_inv s i id program k :
  SysInv s -> follows id publishing k program (fun _ _ => True) -> k_claimed k = false ->
  holds id k (sy_host s) -> SysInv (spawn i id program s).
Proof.
  intros [Hst Ht Hc] Hf Hk Hh. unfold spawn. destruct (sy_tasks s !! i); [done|]. split; cbn; [done| |].
  - intros j t' [[<- <-]|[_ Hj]]%lookup_insert_Some; [by exists k|by eapply Ht].
  - intros i1 i2 t1 t2 [[<- <-]|[N1 L1]]%lookup_insert_Some [[<- <-]|[N2 L2]]%lookup_insert_Some; try done. by eapply Hc.
Qed.

Lemma backend_for_Some finished id j backend :
  backend_for registry finished id j = Some backend ->
  is_finished id j = finished
  /\ exists a, journal_attempt id j = Some a /\ registry (executor_kind (ac_execution (la_assignment a))) = Some backend.
Proof.
  unfold backend_for, is_finished. destruct (journal_attempt id j) as [a|]; [|done]. cbn.
  destruct (bool_decide _), finished; try done; intros ?; split; eauto.
Qed.

Lemma host_step_inv action s : registry_follows (h_journal (sy_host s)) -> SysInv s -> SysInv (host_step registry action s).
Proof.
  intros Hb Hs. assert (forall name, calm name (h_engine (sy_host s)) (h_engine (sy_host s))) as Hcalm.
  { intros name. apply calm_refl. }
  pose proof (st_journal _ _ (si_steady _ Hs)) as Hj.
  destruct action as [i id|i id|i|i| |op|]; cbn [host_step].
  - destruct (backend_for _ _ _ _) as [backend|] eqn:Hi; [|done]. apply backend_for_Some in Hi as [_ (a & Ha & Hi)].
    apply (spawn_inv _ _ _ _ know_nothing); [done| |done|apply holds_nothing]. apply follows_bind.
    eapply follows_impl; [by apply (Hb id a)|]. by intros k [].
  - destruct (backend_for _ _ _ _) as [backend|] eqn:Hi; [|done]. apply backend_for_Some in Hi as [Hf (a & Ha & Hi)].
    apply (spawn_inv _ _ _ _ know_finished); [done|by apply (Hb id a)|done|by apply holds_finished].
  - destruct (sy_tasks s !! i) eqn:Hi; [|done]. by apply step_task_inv.
  - destruct (sy_tasks s !! i) as [task|] eqn:Hi; [|done]. unfold drop_task.
    apply (outside_inv s); cbn; [done|by destruct (tk_claimed task)..|].
    intros j t' [Hne Hj']%lookup_delete_Some. split; [done|]. intros Hcl Hin.
    destruct (tk_claimed task) eqn:Htask; [|done]. cbn. apply elem_of_difference. split; [done|].
    rewrite elem_of_singleton. intros Heq. by eapply Hne, (si_claims _ Hs).
  - by apply (outside_inv s).
  - destruct (run_op_sound op _ Hj). by apply (outside_inv s).
  - apply (outside_inv s); try done. intros name. apply tick_calm.
Qed.

Lemma host_run_inv actions s :
  (forall n, registry_follows (h_journal (sy_host (host_run registry (take n actions) s)))) ->
  SysInv s -> SysInv (host_run registry actions s).
Proof.
  intros Hb Hs. induction actions as [|action actions IH] using rev_ind; [done|].
  unfold host_run in *. rewrite foldl_app. cbn. apply host_step_inv.
  - specialize (Hb (length actions)). by rewrite take_app_length in Hb.
  - apply IH. intros n. specialize (Hb (n `min` length actions)%nat).
    rewrite take_app_le in Hb by lia. by rewrite <-take_take, (take_ge actions) in Hb by done.
Qed.

(** A host at its start: no task, an empty log, and no container of an
    attempt was started yet. *)
Definition fresh (s : System (E:=E) (M:=M) (P:=P) (A:=A)) : Prop :=
  sy_tasks s = ∅ /\ h_log (sy_host s) = [] /\ JInv (h_journal (sy_host s))
  /\ forall id, engine_starts (container_name id) (h_engine (sy_host s)) = 0%nat.

Lemma fresh_inv s : fresh s -> SysInv s.
Proof.
  intros (Ht & Hl & Hj & He). split; rewrite ?Ht; [|done|done].
  split; rewrite ?Hl; try done; try (intros ?; rewrite He); try done; try lia.
  - intros [?%elem_of_nil|?]; done.
  - by intros id ?%elem_of_nil.
  - constructor.
  - by intros c ?%elem_of_nil.
Qed.

Lemma host_reachable_inv actions s :
  (forall n, registry_follows (h_journal (sy_host (host_run registry (take n actions) s)))) ->
  fresh s -> SysInv (host_run registry actions s).
Proof. intros ? ?. by apply host_run_inv, fresh_inv. Qed.

(** A step of a host keeps what the journal has recorded. *)
Lemma host_step_journal action (s : System (E:=E) (M:=M) (P:=P) (A:=A)) :
  JInv (h_journal (sy_host s)) ->
  JInv (h_journal (sy_host (host_step registry action s)))
  /\ journal_later (h_journal (sy_host s)) (h_journal (sy_host (host_step registry action s))).
Proof.
  intros Hj. assert (forall s' : System (E:=E) (M:=M) (P:=P) (A:=A), h_journal (sy_host s') = h_journal (sy_host s) ->
    JInv (h_journal (sy_host s')) /\ journal_later (h_journal (sy_host s)) (h_journal (sy_host s'))) as Hsame by by intros s' ->.
  destruct action as [i id|i id|i|i| |op|]; cbn [host_step].
  1, 2: apply Hsame; destruct (backend_for _ _ _ _); [|done]; unfold spawn; by destruct (sy_tasks s !! i).
  - destruct (sy_tasks s !! i) as [task|]; [|by apply Hsame]. unfold step_task.
    destruct (tk_program task); [by apply Hsame|by apply perform_journal].
  - apply Hsame. destruct (sy_tasks s !! i) as [task|]; [|done]. unfold drop_task. cbn. by destruct (tk_claimed task).
  - by apply Hsame.
  - by apply run_op_sound.
  - by apply Hsame.
Qed.

Lemma host_run_journal actions (s : System (E:=E) (M:=M) (P:=P) (A:=A)) :
  JInv (h_journal (sy_host s)) ->
  JInv (h_journal (sy_host (host_run registry actions s)))
  /\ journal_later (h_journal (sy_host s)) (h_journal (sy_host (host_run registry actions s))).
Proof.
  revert s. induction actions as [|action actions IH]; intros s Hj; [by split|].
  destruct (host_step_journal action s Hj) as [Hj1 Hl1]. destruct (IH _ Hj1) as [Hj2 Hl2].
  split; [done|]. by etransitivity.
Qed.

Lemma justified_entry log log1 entry log2 :
  justified publishing log -> log = log1 ++ entry :: log2 -> entry_ok publishing log1 entry.
Proof.
  intros Hj. revert log2. induction Hj as [|log x Hj IH Hx]; intros log2 Heq; [by destruct log1|].
  destruct log2 as [|y log2' _] using rev_ind.
  - apply app_inj_tail in Heq as [<- <-]. done.
  - rewrite app_comm_cons, app_assoc in Heq. apply app_inj_tail in Heq as [-> _]. by eapply IH.
Qed.

End host.
