(* ===== verification/SandboxTheorems.v ===== *)
(** * What a sandbox holds

    On a host whose files are a tree ([file_tree]): a bundle that was
    materialised without interruption left in the directory of the attempt
    exactly its files, whatever was there before.  The scan of
    [scan_directory] is complete for a tree, and its fuel is enough for a
    tree whose paths are as short as the file system has them. *)

From Stdlib Require Import Ascii.
From stdpp Require Import base strings gmap sets list.
From S2P Require Import Prelude Text Digest Encoding Identity Migration Vocabulary ReductionRun BuildGate WorkerJournal WorkerSession WorkerUpdates Artifacts Devices CudaContract AscendContract CorrectnessContract Effects Sandboxes ExecutionHost.

(** ** Paths *)

(** The name of an entry: nonempty, not one dot, without a separator. *)
Definition plain_name (name : string) : Prop :=
  name <> EmptyString /\ name <> "." /\ split_at "/"%char name = [name].

Definition absolute (path : string) : Prop := starts_with "/" path = true.

Lemma split_at_nonempty sep s : split_at sep s <> [].
Proof.
  destruct s as [|a s]; [done|]. cbn [split_at]. case_decide; [done|]. by destruct (split_at sep s).
Qed.

Lemma split_at_sep sep s t : split_at sep (s +:+ String sep t) = split_at sep s ++ split_at sep t.
Proof.
  induction s as [|a s IH].
  - change (EmptyString +:+ String sep t) with (String sep t). cbn [split_at]. by rewrite decide_True.
  - change (String a s +:+ String sep t) with (String a (s +:+ String sep t)). cbn [split_at]. rewrite IH.
    case_decide; [done|]. pose proof (split_at_nonempty sep s). by destruct (split_at sep s).
Qed.

Lemma split_at_pieces sep s : Forall (fun piece => split_at sep piece = [piece]) (split_at sep s).
Proof.
  induction s as [|a s IH]; [by repeat constructor|]. cbn [split_at]. case_decide as Ha; [by constructor|].
  destruct (split_at sep s) as [|p ps]; cbn [cons_head].
  - repeat constructor. cbn [split_at]. by rewrite decide_False.
  - apply Forall_cons in IH as [Hp Hps]. constructor; [|done]. cbn [split_at]. rewrite decide_False by done. by rewrite Hp.
Qed.

Lemma ends_with_slash s : ends_with "/" s = true -> exists t, s = t +:+ "/".
Proof.
  induction s as [|a s IH]; [done|]. cbn [ends_with]. rewrite orb_true_iff, bool_decide_eq_true.
  intros [->|(t & ->)%IH]; [by exists EmptyString|]. by exists (String a t).
Qed.

(** The pieces of a path that are names. *)
Abbreviation named pieces :=
  (List.filter (fun piece => negb (bool_decide (piece = EmptyString)) && negb (bool_decide (piece = "."))) pieces).

Lemma named_plain names : Forall plain_name names -> named names = names.
Proof.
  induction 1 as [|n names (Hn & Hd & _) _ IH]; [done|]. cbn [List.filter].
  rewrite !bool_decide_false by done. cbn. by rewrite IH.
Qed.

Lemma file_key_absolute path : absolute path -> file_key path = named (split_at "/"%char path).
Proof.
  unfold absolute, starts_with, file_key, path_components. destruct path as [|a path]; [done|]. cbn.
  destruct (decide (a = "/"%char)) as [->|Ha]; [|by rewrite decide_False]. by rewrite decide_True.
Qed.

Lemma file_key_plain path : absolute path -> Forall plain_name (file_key path).
Proof.
  intros Hp. rewrite file_key_absolute by done. pose proof (split_at_pieces "/"%char path) as Hall.
  induction Hall as [|p ps Hp' _ IH]; [constructor|]. cbn [List.filter].
  destruct (bool_decide (p = EmptyString)) eqn:He; [done|]. destruct (bool_decide (p = ".")) eqn:Hd; [done|].
  apply bool_decide_eq_false in He, Hd. constructor; [by split_and!|done].
Qed.

Lemma absolute_append path rest : absolute path -> absolute (path +:+ rest).
Proof.
  destruct path as [|a path]; [done|]. intros Ha.
  change (String a path +:+ rest) with (String a (path +:+ rest)). unfold absolute, starts_with in *. cbn in *.
  by destruct (decide _).
Qed.

Lemma join_path_absolute path name : absolute path -> absolute (join_path path name).
Proof. intros Hp. unfold join_path. destruct (ends_with _ _); by apply absolute_append. Qed.

Lemma file_key_join path name :
  absolute path -> file_key (join_path path name) = file_key path ++ named (split_at "/"%char name).
Proof.
  intros Hp. rewrite !file_key_absolute by (done || by apply join_path_absolute).
  rewrite <-List.filter_app. unfold join_path. change ("/" +:+ name) with (String "/" name).
  destruct (ends_with "/" path) eqn:He; [|by rewrite split_at_sep].
  apply ends_with_slash in He as [t ->]. rewrite <-append_assoc. change ("/" +:+ name) with (String "/" name).
  change (t +:+ "/") with (t +:+ String "/" EmptyString). rewrite !split_at_sep, !List.filter_app. cbn.
  by rewrite app_nil_r.
Qed.

(** The names of [scan_directory], from the root down. *)
Definition relative_path (relative : string) (suffix : list string) : string := foldl relative_name relative suffix.

Definition pieces_of (relative : string) : list string :=
  if bool_decide (relative = EmptyString) then [] else split_at "/"%char relative.

Lemma relative_name_nonempty relative name : name <> EmptyString -> relative_name relative name <> EmptyString.
Proof. unfold relative_name. case_bool_decide; [done|]. intros _. by destruct relative. Qed.

Lemma pieces_of_name relative name : plain_name name -> pieces_of (relative_name relative name) = pieces_of relative ++ [name].
Proof.
  intros (Hn & _ & Hs). unfold pieces_of. rewrite bool_decide_false by by apply relative_name_nonempty.
  unfold relative_name. case_bool_decide; [done|]. change ("/" +:+ name) with (String "/" name).
  by rewrite split_at_sep, Hs.
Qed.

Lemma pieces_of_path relative suffix :
  Forall plain_name suffix -> pieces_of (relative_path relative suffix) = pieces_of relative ++ suffix.
Proof.
  intros Hs. revert relative. induction Hs as [|n suffix Hn _ IH]; intros relative; [by rewrite app_nil_r|].
  cbn. fold (relative_path (relative_name relative n) suffix). rewrite IH, pieces_of_name by done. by rewrite <-app_assoc.
Qed.

Lemma relative_path_key directory suffix :
  absolute directory -> Forall plain_name suffix -> suffix <> [] ->
  file_key (join_path directory (relative_path EmptyString suffix)) = file_key directory ++ suffix.
Proof.
  intros Hd Hs Hne. rewrite file_key_join by done. f_equal.
  assert (pieces_of (relative_path EmptyString suffix) = suffix) as Hp by by rewrite pieces_of_path.
  unfold pieces_of in Hp. case_bool_decide; [by destruct Hne|]. rewrite Hp. by apply named_plain.
Qed.

Lemma file_key_name directory name :
  absolute directory -> plain_name name -> file_key (join_path directory name) = file_key directory ++ [name].
Proof. intros Hd Hn. rewrite file_key_join by done. destruct (Hn) as (_ & _ & ->). by rewrite named_plain by auto. Qed.

(** ** Trees *)

(** Every entry is below a directory, or a link to one, and has names for
    components. *)
Definition file_tree (files : FileSystem) : Prop :=
  forall key entry, files !! key = Some entry ->
  key <> [] /\ Forall plain_name key /\ is_directory (removelast key) files = true.

(** Entries are only added, and a tree remains one. *)
Definition grows (files files' : FileSystem) : Prop := files ⊆ files' /\ (file_tree files -> file_tree files').

#[export] Instance grows_preorder : PreOrder grows.
Proof. split; [by split|]. intros a b c [Hab Tab] [Hbc Tbc]. split; [by etrans|auto]. Qed.

Lemma grows_lookup files files' (key : list string) (entry : FileEntry) :
  grows files files' -> files !! key = Some entry -> files' !! key = Some entry.
Proof. intros [Hs _] Hk. by eapply lookup_weaken. Qed.

Lemma is_directory_weaken key files files' : files ⊆ files' -> is_directory key files = true -> is_directory key files' = true.
Proof.
  unfold is_directory. rewrite !orb_true_iff. intros Hs [?|He]; [auto|right].
  destruct (files !! key) eqn:Hk; [|done]. by erewrite lookup_weaken.
Qed.

Lemma grows_insert files (key : list string) (entry : FileEntry) :
  files !! key = None -> key <> [] -> Forall plain_name key -> is_directory (removelast key) files = true ->
  grows files (<[key := entry]> files).
Proof.
  intros Hk Hne Hplain Hp. assert (files ⊆ <[key := entry]> files) as Hs by by apply insert_subseteq.
  split; [done|]. intros Ht key' e [[<- _]|[_ Hk']]%lookup_insert_Some.
  - split_and!; [done..|]. by eapply is_directory_weaken.
  - destruct (Ht _ _ Hk') as (? & ? & ?). split_and!; [done..|]. by eapply is_directory_weaken.
Qed.

Lemma create_entry_cases entry key files :
  create_entry entry key files = (<[key := entry]> files, FileCreated)
    /\ files !! key = None /\ key <> [] /\ is_directory (removelast key) files = true
  \/ (create_entry entry key files).1 = files /\ (create_entry entry key files).2 <> FileCreated.
Proof.
  unfold create_entry. destruct (files !! key); [by right|]. destruct (is_directory _ _); [|by right].
  case_bool_decide; [by right|by left].
Qed.

(** The ancestors of an entry are there. *)
Lemma file_tree_ancestor files key name rest entry :
  file_tree files -> files !! (key ++ name :: rest) = Some entry -> rest <> [] ->
  exists entry', files !! (key ++ [name]) = Some entry' /\ leads_to_directory entry' = true.
Proof.
  intros Ht. revert entry. induction rest as [|last rest IH] using rev_ind; intros entry He Hne; [done|].
  assert (removelast (key ++ name :: rest ++ [last]) = key ++ name :: rest) as Hparent.
  { change (key ++ name :: rest ++ [last]) with (key ++ (name :: rest) ++ [last]). rewrite app_assoc. apply removelast_last. }
  destruct (Ht _ _ He) as (_ & _ & Hdir). rewrite Hparent in Hdir. unfold is_directory in Hdir.
  rewrite bool_decide_false in Hdir by by destruct key. cbn in Hdir.
  destruct (files !! (key ++ name :: rest)) as [e'|] eqn:He'; [|done].
  destruct rest as [|r rest]; [by exists e'|]. by eapply IH.
Qed.

(** A file that is there and is not a link, and a directory. *)
Lemma fs_read_real key files content kind :
  fs_read key files = Some content -> fs_symlink_metadata key files = Some kind -> bool_decide (kind = KindSymlink) = false ->
  key <> [] -> files !! key = Some (Regular content).
Proof.
  unfold fs_read, fs_symlink_metadata. intros Hr Hm Hk Hne. rewrite bool_decide_false in Hm by done.
  destruct (files !! key) as [[| |[]|]|]; try done; [congruence|]. by injection Hm as <-.
Qed.

Lemma fs_metadata_directory key files :
  fs_symlink_metadata key files = Some KindDirectory -> key = [] \/ files !! key = Some Directory.
Proof.
  unfold fs_symlink_metadata. case_bool_decide; [by left|right]. by destruct (files !! key) as [[]|].
Qed.

(** A listing has the children of a directory. *)
Lemma child_of_Some key child name : child <> [] -> child_of key child = Some name <-> child = key ++ [name].
Proof.
  intros Hne. unfold child_of. destruct (exists_last Hne) as (front & n & ->). rewrite removelast_last, last_snoc. split.
  - case_bool_decide; [|done]. by intros [= ->]; subst.
  - intros [-> [= ->]]%app_inj_tail. by rewrite bool_decide_true.
Qed.

Lemma fs_read_dir_spec key files entries :
  file_tree files -> fs_read_dir key files = Some entries ->
  forall name kind, (name, kind) ∈ entries <-> exists entry, files !! (key ++ [name]) = Some entry /\ kind = entry_kind entry.
Proof.
  intros Ht Hr name kind. unfold fs_read_dir in Hr. destruct (_ || _); [|done]. injection Hr as <-.
  rewrite list_elem_of_omap. split.
  - intros ([child e] & Hin%elem_of_map_to_list & Hc). cbn in Hc. apply fmap_Some in Hc as (n & Hn & [= -> ->]).
    apply child_of_Some in Hn as ->; [eauto|]. by eapply Ht.
  - intros (e & He & ->). exists (key ++ [name], e). rewrite elem_of_map_to_list. split; [done|]. cbn.
    assert (child_of key (key ++ [name]) = Some name) as -> by (apply child_of_Some; [by destruct key|done]). done.
Qed.

(** Below a directory there are only directories, and files whose names
    are among the given ones. *)
Definition complete (files : FileSystem) (directory relative : string) (names : gset string) : Prop :=
  forall suffix entry, suffix <> [] -> files !! (file_key directory ++ suffix) = Some entry ->
  entry = Directory \/ exists content, entry = Regular content /\ relative_path relative suffix ∈ names.

Lemma complete_weaken files directory relative names names' :
  names ⊆ names' -> complete files directory relative names -> complete files directory relative names'.
Proof. intros Hn Hc suffix e Hne He. destruct (Hc _ _ Hne He) as [?|(c & ? & ?)]; [by left|right]. exists c. set_solver. Qed.

(** A directory is complete when its children are. *)
Lemma complete_children files directory relative names :
  file_tree files -> absolute directory ->
  (forall name entry, files !! (file_key directory ++ [name]) = Some entry ->
    (entry_kind entry = KindFile /\ relative_name relative name ∈ names)
    \/ (entry_kind entry = KindDirectory /\ complete files (join_path directory name) (relative_name relative name) names)) ->
  complete files directory relative names.
Proof.
  intros Ht Hd Hall [|name rest] entry Hne He; [done|]. destruct rest as [|r rest].
  - destruct (Hall _ _ He) as [[Hk Hin]|[Hk _]]; destruct entry; try done; [right; eauto|by left].
  - edestruct (file_tree_ancestor files) as (e' & He' & Hl); [done..|]. destruct (Hall _ _ He') as [[Hk _]|[_ Hc]].
    { by destruct e' as [| |[]|]. }
    destruct (Ht _ _ He') as (_ & [_ [Hplain _]%Forall_cons]%Forall_app & _).
    apply (Hc (r :: rest)); [done|]. rewrite file_key_name by done. by rewrite <-app_assoc.
Qed.

(** ** What the programs do *)

Section host.
Context {E M P A : Type} `{WorkerClock} `{FakeClock} {Eng : ContainerEngine E}
  {Dev : DeviceManager M} {Pub : ArtifactPublisher P} {Sto : ArtifactStore A} {Pro : ArtifactInputProvider A}.
Implicit Types (h : Host E M P A).

(** A computation that returns a value. *)
Definition runs {F X} (m : Exec F X) h h' (x : X) : Prop := run_prog m h = (h', Ok x).

Lemma runs_bind {F X Y} (m : Exec F X) (f : X -> Exec F Y) h h' y :
  runs (m ≫= f) h h' y <-> exists h1 x, runs m h h1 x /\ runs (f x) h1 h' y.
Proof.
  unfold runs. assert (run_prog (m ≫= f) h
    = match (run_prog m h).2 with Ok x => run_prog (f x) (run_prog m h).1 | Err e => ((run_prog m h).1, Err e) end) as ->.
  { revert h. induction m as [[x|e]|Z e k IH]; intros h; [done..|]. apply (IH _ (perform e h).1). }
  destruct (run_prog m h) as [h1 [x|e]]; cbn; split.
  - eauto.
  - by intros (? & ? & [= <- <-] & ?).
  - done.
  - by intros (? & ? & ? & _).
Qed.

Lemma runs_ret {F X} (a : X) h h' x : runs (mret a : Exec F X) h h' x <-> h' = h /\ x = a.
Proof. unfold runs. cbn. naive_solver. Qed.

Lemma runs_lift {F X} (r : result F X) h h' x : runs (exec_lift r) h h' x <-> h' = h /\ r = Ok x.
Proof. unfold runs. cbn. naive_solver. Qed.

Lemma runs_fail {F X} (e : F) h h' (x : X) : runs (exec_fail e) h h' x <-> False.
Proof. unfold runs. cbn. naive_solver. Qed.

Lemma runs_ask {F X} (e : Effect X) h h' x : runs (ask (E:=F) e) h h' x <-> perform e h = (h', x).
Proof. unfold runs. cbn. destruct (perform e h). naive_solver. Qed.

Lemma runs_attempt {F G X} (g : G -> F) (e : Effect (result G X)) h h' x :
  runs (attempt_effect g e) h h' x <-> perform e h = (h', Ok x).
Proof. unfold runs. cbn. destruct (perform e h) as [h1 [y|er]]; cbn; naive_solver. Qed.

End host.

(** What is known of a computation that returned, step by step. *)
Ltac run_step :=
  match goal with
  | H : runs (_ ≫= _) _ _ _ |- _ => apply runs_bind in H; destruct H as (? & ? & ? & ?)
  | H : runs (mret _) _ _ _ |- _ => apply runs_ret in H; destruct H as [? ?]; subst
  | H : runs (exec_lift (guard_err _ _)) _ _ _ |- _ =>
      apply runs_lift in H; destruct H as [? H]; apply guard_err_Ok in H; subst
  | H : runs (exec_lift (ok_or _ _)) _ _ _ |- _ =>
      apply runs_lift in H; destruct H as [? H]; apply ok_or_Ok in H; subst
  | H : runs (exec_lift _) _ _ _ |- _ => apply runs_lift in H; destruct H as [? H]; subst
  | H : runs (exec_fail _) _ _ _ |- _ => by apply runs_fail in H
  | H : runs (ask _) _ _ _ |- _ => apply runs_ask in H; cbn [perform] in H
  | H : (_, _) = (_, _) |- _ => injection H; clear H; intros; subst
  end.

Section files.
Context {E M P A : Type} `{WorkerClock} `{FakeClock} {Eng : ContainerEngine E} {Dev : DeviceManager M}
  {Pub : ArtifactPublisher P} {Sto : ArtifactStore A} {Pro : ArtifactInputProvider A} {F : Type}.
Implicit Types (h : Host E M P A).

Lemma write_real_file_runs (io unsafe : F) path content h h' u :
  absolute path -> file_key path <> [] -> runs (write_real_file io unsafe path content) h h' u ->
  grows (h_files h) (h_files h') /\ h_files h' !! file_key path = Some (Regular content).
Proof.
  intros Hp Hkey Hr. unfold write_real_file in Hr. repeat run_step. unfold fs_create_new in *.
  destruct (create_entry_cases (Regular []) (file_key path) (h_files h)) as [(Hc & Hnew & Hne & Hdir)|[Hsame Hnot]].
  - rewrite Hc in *. cbn [fst snd] in *. unfold write_created in *. repeat run_step. cbn.
    rewrite fs_write_new, lookup_insert_eq.
    split; [|done]. apply grows_insert; [done..|by apply file_key_plain|done].
  - destruct (create_entry _ _ _) as [files []]; cbn [fst snd] in *; subst; [done| |]; repeat run_step; cbn [fst snd] in *. split; [done|].
    match goal with Hx : negb _ = false |- _ => apply negb_false_iff, bool_decide_eq_true in Hx as -> end.
    by eapply fs_read_real.
Qed.

Lemma real_directory_runs (io unsafe : F) path h h' u :
  absolute path -> runs (real_directory io unsafe path) h h' u ->
  grows (h_files h) (h_files h') /\ (file_key path = [] \/ h_files h' !! file_key path = Some Directory).
Proof.
  intros Hp Hr. unfold real_directory in Hr. repeat run_step. unfold fs_create_dir in *.
  destruct (create_entry_cases Directory (file_key path) (h_files h)) as [(Hc & Hnew & Hne & Hdir)|[Hsame Hnot]].
  - rewrite Hc in *. cbn [fst snd] in *. repeat run_step. cbn. rewrite lookup_insert_eq. split; [|by right].
    apply grows_insert; [done..|by apply file_key_plain|done].
  - destruct (create_entry _ _ _) as [files []]; cbn [fst snd] in *; subst; [done| |]; repeat run_step; cbn [fst snd] in *. split; [done|].
    match goal with Hx : negb _ = false |- _ => apply negb_false_iff, bool_decide_eq_true in Hx as -> end.
    by apply fs_metadata_directory.
Qed.

Lemma real_parents_runs (io unsafe : F) current components h h' u :
  absolute current -> runs (real_parents io unsafe current components) h h' u -> grows (h_files h) (h_files h').
Proof.
  revert current h. induction components as [|c components IH]; intros current h Hc Hr; cbn [real_parents] in Hr.
  { by repeat run_step. }
  repeat run_step. match goal with Hd : runs (real_directory _ _ _) _ _ _ |- _ =>
    apply real_directory_runs in Hd as [Hg _]; [|by apply join_path_absolute] end.
  etrans; [exact Hg|]. eapply IH; [|done]. by apply join_path_absolute.
Qed.

(** *** The scan of a tree *)

Lemma scan_entries_runs (unsafe : F) scan directory relative entries names h h' found :
  (forall name names found h1, (name, KindDirectory) ∈ entries ->
    runs (scan (join_path directory name) (relative_name relative name) names) h h1 found ->
    h1 = h /\ names ⊆ found /\ complete (h_files h) (join_path directory name) (relative_name relative name) found) ->
  runs (scan_entries unsafe scan directory relative entries names) h h' found ->
  h' = h /\ names ⊆ found
  /\ forall name kind, (name, kind) ∈ entries ->
     (kind = KindFile /\ relative_name relative name ∈ found)
     \/ (kind = KindDirectory /\ complete (h_files h) (join_path directory name) (relative_name relative name) found).
Proof.
  revert names. induction entries as [|[n k] entries IH]; intros names Hscan Hr; cbn [scan_entries] in Hr.
  { repeat run_step. split_and!; [done..|]. intros ? ? Hin. by apply elem_of_nil in Hin. }
  apply runs_bind in Hr as (h1 & names1 & Hone & Hrest).
  assert (h1 = h /\ names ⊆ names1 /\ ((k = KindFile /\ relative_name relative n ∈ names1)
    \/ (k = KindDirectory /\ complete (h_files h) (join_path directory n) (relative_name relative n) names1))) as (-> & Hsub & Hn).
  { destruct k; [repeat run_step; split_and!; [done|set_solver|left; set_solver]|..]; [|by run_step..].
    destruct (Hscan n names names1 h1) as (? & ? & ?); [by left|done|]. auto. }
  destruct (IH names1) as (-> & Hsub' & Hall); [|done|].
  { intros name ns fd h2 Hin. apply Hscan. by right. }
  split_and!; [done|set_solver|]. intros name kind [[= -> ->]|Hin]%elem_of_cons; [|by apply Hall].
  destruct Hn as [[-> Hin]|[-> Hc]]; [left; set_solver|right]. split; [done|]. by eapply complete_weaken.
Qed.

Lemma scan_directory_runs (io unsafe : F) fuel directory relative names h h' found :
  file_tree (h_files h) -> absolute directory ->
  runs (scan_directory io unsafe fuel directory relative names) h h' found ->
  h' = h /\ names ⊆ found /\ complete (h_files h) directory relative found.
Proof.
  intros Ht. revert directory relative names h' found.
  induction fuel as [|fuel IH]; intros directory relative names h' found Hd Hr; cbn [scan_directory] in Hr; [by run_step|].
  repeat run_step.
  match goal with Hl : fs_read_dir _ _ = Some ?l |- _ => pose proof (fs_read_dir_spec _ _ _ Ht Hl) as Hentries end.
  match goal with Hs : runs (scan_entries _ _ _ _ _ _) _ _ _ |- _ => apply scan_entries_runs in Hs as (-> & Hsub & Hall) end.
  - split_and!; [done..|]. apply complete_children; [done..|]. intros name e He. apply Hall, Hentries. eauto.
  - intros name ns fd h1 Hin Hrun. apply (IH (join_path directory name)); [by apply join_path_absolute|done].
Qed.

(** *** Its fuel *)

Lemma runs_bind_intro {X Y} (m : Exec F X) (f : X -> Exec F Y) h h1 h' x y :
  runs m h h1 x -> runs (f x) h1 h' y -> runs (m ≫= f) h h' y.
Proof. intros Hm Hf. apply runs_bind. eauto. Qed.

Lemma scan_entries_total (unsafe : F) scan directory relative entries names h :
  (forall name kind, (name, kind) ∈ entries -> kind = KindFile \/
    (kind = KindDirectory /\ forall names, exists found,
      runs (scan (join_path directory name) (relative_name relative name) names) h h found)) ->
  exists found, runs (scan_entries unsafe scan directory relative entries names) h h found.
Proof.
  revert names. induction entries as [|[n k] entries IH]; intros names Hall; cbn [scan_entries]; [by exists names|].
  assert (exists names1, runs match k with
      | KindSymlink | KindOther => exec_fail unsafe
      | KindDirectory => scan (join_path directory n) (relative_name relative n) names
      | KindFile => mret ({[relative_name relative n]} ∪ names)
      end h h names1) as [names1 Hone].
  { destruct (Hall n k) as [->|[-> Hs]]; [by left|by eexists|done]. }
  destruct (IH names1) as [found Hf]; [intros name kind Hin; apply Hall; by right|].
  exists found. by eapply runs_bind_intro.
Qed.

(** A tree of directories and files whose depth is below the fuel is
    scanned. *)
Lemma scan_directory_total (io unsafe : F) fuel directory relative names h :
  file_tree (h_files h) -> absolute directory -> (0 < fuel)%nat ->
  (file_key directory = [] \/ h_files h !! file_key directory = Some Directory) ->
  (forall suffix entry, suffix <> [] -> h_files h !! (file_key directory ++ suffix) = Some entry ->
    (length suffix < fuel)%nat /\ (entry = Directory \/ exists content, entry = Regular content)) ->
  exists found, runs (scan_directory io unsafe fuel directory relative names) h h found.
Proof.
  intros Ht. revert directory relative names.
  induction fuel as [|fuel IH]; intros directory relative names Hd Hfuel Hdir Hbelow; [lia|]. cbn [scan_directory].
  assert (exists entries, fs_read_dir (file_key directory) (h_files h) = Some entries) as [entries He].
  { unfold fs_read_dir. destruct Hdir as [->|Hdir]; [by eexists|]. rewrite (bool_decide_true (_ = Some Directory)) by done.
    rewrite orb_true_r. by eexists. }
  destruct (scan_entries_total unsafe (scan_directory io unsafe fuel) directory relative entries names h) as [found Hf].
  - intros name kind Hin. apply (fs_read_dir_spec _ _ _ Ht He) in Hin as (e & Hin & ->).
    destruct (Hbelow [name] e) as [Hlen [->|[c ->]]]; [done..| |by left]. right. split; [done|]. intros names'.
    assert (plain_name name) as Hplain by (destruct (Ht _ _ Hin) as (_ & [_ [? _]%Forall_cons]%Forall_app & _); done).
    cbn in Hlen. apply IH; rewrite ?file_key_name by done; [by apply join_path_absolute|lia|by right|].
    intros suffix e Hne Hs. rewrite <-app_assoc in Hs. destruct (Hbelow (name :: suffix) e) as [Hl ?]; [done..|].
    cbn in Hl. split; [lia|done].
  - exists found. eapply (runs_bind_intro _ _ h h); [by apply runs_ask|]. cbn. rewrite He. exact Hf.
Qed.

End files.

(** ** What a sandbox holds *)

(** Exactly the expected files, with directories and nothing else. *)
Definition holds_exactly (directory : string) (expected : list (string * bytes)) (files : FileSystem) : Prop :=
  (forall path content, (path, content) ∈ expected -> files !! file_key (join_path directory path) = Some (Regular content))
  /\ (forall suffix entry, suffix <> [] -> files !! (file_key directory ++ suffix) = Some entry ->
      entry = Directory \/ exists path content, (path, content) ∈ expected
        /\ file_key (join_path directory path) = file_key directory ++ suffix /\ entry = Regular content).

Lemma holds_exactly_intro directory expected files :
  file_tree files -> absolute directory ->
  (forall path content, (path, content) ∈ expected -> files !! file_key (join_path directory path) = Some (Regular content)) ->
  complete files directory EmptyString (list_to_set (fst <$> expected)) ->
  holds_exactly directory expected files.
Proof.
  intros Ht Hd Hall Hc. split; [done|]. intros suffix e Hne He.
  destruct (Hc suffix e Hne He) as [?|(c & -> & Hin)]; [by left|right].
  rewrite elem_of_list_to_set, list_elem_of_fmap in Hin. destruct Hin as ([path content] & Hpath & Hin). cbn in Hpath.
  assert (Forall plain_name suffix) as Hplain by (destruct (Ht _ _ He) as (_ & [_ ?]%Forall_app & _); done).
  assert (file_key (join_path directory path) = file_key directory ++ suffix) as Hkey.
  { rewrite <-Hpath. by apply relative_path_key. }
  exists path, content. split_and!; [done..|]. specialize (Hall _ _ Hin). rewrite Hkey in Hall. congruence.
Qed.

Lemma safe_id_plain id : id <> EmptyString -> all_bytes safe_id_byte id = true -> plain_name id.
Proof.
  intros Hne Hsafe. split_and!; [done|by intros ->|]. apply split_at_none. rewrite all_bytes_true in *.
  intros a Ha. specialize (Hsafe a Ha). by case_bool_decide; subst.
Qed.

(** The chain of the steps that only add. *)
Ltac grown := repeat match goal with Hg : grows ?a ?c |- grows ?a ?b => transitivity c; [exact Hg|] end; reflexivity.

Section sandboxes.
Context {E M P A : Type} `{Sha256} `{SandboxText} `{ReductionJson} `{WorkerClock} `{FakeClock} {Eng : ContainerEngine E}
  {Dev : DeviceManager M} {Pub : ArtifactPublisher P} {Sto : ArtifactStore A} {Pro : ArtifactInputProvider A}.
Implicit Types (h : Host E M P A).

Lemma exact_tree_runs {F} (io unsafe : F) directory names h h' u :
  file_tree (h_files h) -> absolute directory -> runs (exact_tree io unsafe directory names) h h' u ->
  h' = h /\ complete (h_files h) directory EmptyString names.
Proof.
  intros Ht Hd Hr. unfold exact_tree in Hr. repeat run_step.
  match goal with Hs : runs (scan_directory _ _ _ _ _ _) _ _ _ |- _ => apply scan_directory_runs in Hs as (-> & _ & Hc); [|done..] end.
  match goal with Hx : negb _ = false |- _ => apply negb_false_iff, bool_decide_eq_true in Hx as <- end. done.
Qed.

(** A tree that was verified, with the expected files in it. *)
Lemma exact_tree_holds {F} (io unsafe : F) directory names expected h h' u :
  file_tree (h_files h) -> absolute directory -> runs (exact_tree io unsafe directory names) h h' u ->
  (forall path content, (path, content) ∈ expected -> h_files h !! file_key (join_path directory path) = Some (Regular content)) ->
  names ⊆ list_to_set (fst <$> expected) -> h' = h /\ holds_exactly directory expected (h_files h).
Proof.
  intros Ht Hd Hr Hall Hsub. apply exact_tree_runs in Hr as [-> Hc]; [|done..]. split; [done|].
  apply holds_exactly_intro; [done..|]. by eapply complete_weaken.
Qed.

(** A file below a directory that is not the root. *)
Lemma below_nonempty directory name : absolute directory -> file_key directory <> [] -> file_key (join_path directory name) <> [].
Proof. intros Hd Hne. rewrite file_key_join by done. by destruct (file_key directory). Qed.

Lemma write_execution_files_runs directory files h h' u :
  absolute directory -> file_key directory <> [] -> runs (write_execution_files directory files) h h' u ->
  grows (h_files h) (h_files h')
  /\ forall file, file ∈ files ->
     h_files h' !! file_key (join_path directory (bp_str (ef_path file))) = Some (Regular (as_bytes (ef_contents file))).
Proof.
  intros Hd Hne. revert h. induction files as [|file files IH]; intros h Hr; cbn [write_execution_files] in Hr.
  { repeat run_step. split; [done|]. intros ? Hin. by apply elem_of_nil in Hin. }
  apply runs_bind in Hr as (h1 & ? & Hp & Hr). apply runs_bind in Hr as (h2 & ? & Hw & Hr).
  apply real_parents_runs in Hp; [|done].
  apply write_real_file_runs in Hw as [Hg Hfile]; [|by apply join_path_absolute|by apply below_nonempty].
  destruct (IH _ Hr) as [Hg' Hall]. split; [by repeat (etrans; [done|])|].
  intros f [->|Hin]%elem_of_cons; [|by apply Hall]. by eapply grows_lookup.
Qed.

(** The files of a sandbox of a correctness run. *)
Definition correctness_files (parsed : ReductionExecutionBundle) (content config : bytes) : list (string * bytes) :=
  ((fun file => (bp_str (ef_path file), as_bytes (ef_contents file))) <$> eb_files parsed)
  ++ [(BUNDLE_FILENAME, content); (CONFIG_FILENAME, config); (CORRECTNESS_RUNNER_FILENAME, CORRECTNESS_RUNNER)].

Lemma read_declared_runs {F} (unavailable : F) descriptor h h' content :
  runs (read_declared unavailable descriptor) h h' content -> h' = h.
Proof.
  unfold read_declared. intros Hr. repeat run_step.
  match goal with Hx : runs (attempt_effect _ _) _ _ _ |- _ => apply runs_attempt in Hx; cbn [perform] in Hx end.
  by run_step.
Qed.

Lemma right_identity descriptor content :
  wrong_identity descriptor content = false ->
  digest_bytes content = ad_digest descriptor /\ byte_len content = ad_size_bytes descriptor.
Proof.
  unfold wrong_identity, wrong_size. rewrite orb_false_iff, !negb_false_iff, bool_decide_eq_true, N.eqb_eq. by intros [? ?].
Qed.

Lemma correctness_id_plain policy a u :
  validate_correctness_assignment policy a = Ok u -> plain_name (as_str (ac_attempt_id a)).
Proof.
  unfold validate_correctness_assignment. destruct (correctness_role policy); intros ([] & Hid & _)%result_bind_Ok;
    unfold validate_correctness_attempt_id in Hid.
  all: apply guard_err_Ok in Hid; rewrite !orb_false_iff, negb_false_iff, bool_decide_eq_false in Hid.
  all: destruct Hid as [[Hne _] Hsafe]; by apply safe_id_plain.
Qed.

(** The directory of an attempt. *)
Lemma attempt_directory root id :
  absolute root -> plain_name id -> absolute (join_path root id) /\ file_key (join_path root id) <> [].
Proof.
  intros Hr Hid. split; [by apply join_path_absolute|]. rewrite file_key_name by done. by destruct (file_key root).
Qed.

(** C26 A correctness run that got its sandbox runs the bundle of its
    assignment: the bytes that were read have the digest and the size of
    the assignment, and their role and lineage, and the directory of the
    attempt holds exactly the files of that bundle, the bundle itself, the
    configuration of the policy and the runner, as real files without links
    or special files, whatever was in the directory before; nothing that
    was there was changed. *)
Theorem correctness_sandbox_is_exact (policy : ReductionCorrectnessPolicy) (a : AssignmentContract)
    (sandbox : CorrectnessSandbox) (h h' : Host E M P A)
    (Hroot : starts_with "/" (rp_sandbox_root policy) = true) (Htree : file_tree (h_files h))
    (Hrun : run_prog (correctness_materialize_bundle policy a) h = (h', Ok sandbox)) :
  exists content parsed config,
    digest_bytes content = ad_digest (bundle (ac_execution a)) /\ byte_len content = ad_size_bytes (bundle (ac_execution a))
    /\ execution_bundle_from_slice content = Some parsed
    /\ eb_role parsed = correctness_role policy
    /\ ex_task_id (eb_experiment parsed) = ac_task_id a /\ ex_candidate_id (eb_experiment parsed) = ac_candidate_id a
    /\ runner_config_to_vec (rp_environment_digest policy) = Some config
    /\ csb_directory sandbox = join_path (rp_sandbox_root policy) (as_str (ac_attempt_id a))
    /\ holds_exactly (csb_directory sandbox) (correctness_files parsed content config) (h_files h')
    /\ h_files h ⊆ h_files h'.
Proof.
  change (runs (correctness_materialize_bundle policy a) h h' sandbox) in Hrun. unfold correctness_materialize_bundle in Hrun.
  repeat run_step.
  match goal with Hv : validate_correctness_assignment _ _ = _ |- _ => apply correctness_id_plain in Hv as Hid end.
  destruct (attempt_directory _ _ Hroot Hid) as [Hdir Hkey].
  set (directory := join_path (rp_sandbox_root policy) (as_str (ac_attempt_id a))) in *.
  repeat match goal with
  | Hx : runs (read_declared _ _) _ _ _ |- _ => apply read_declared_runs in Hx as ->
  | Hx : runs (create_real_directory _) _ _ _ |- _ => apply real_directory_runs in Hx as [? _]; [|done]
  | Hx : runs (write_execution_files _ _) _ _ _ |- _ => apply write_execution_files_runs in Hx as [? Hfiles]; [|done..]
  | Hx : runs (correctness_write_once _ _) _ _ _ |- _ =>
      apply write_real_file_runs in Hx as [? ?]; [|by apply join_path_absolute|by apply below_nonempty]
  end.
  match goal with Hx : runs (verify_exact_tree _ _) ?h1 _ _ |- _ => assert (grows (h_files h) (h_files h1)) as Hgrows by grown end.
  match goal with Hx : runs (verify_exact_tree _ _) _ _ _, Hp : execution_bundle_from_slice ?content = Some ?parsed,
      Hc : runner_config_to_vec _ = Some ?config |- _ =>
    apply (exact_tree_holds _ _ _ _ (correctness_files parsed content config)) in Hx as [-> Hexact]; [|by apply Hgrows|done|..] end.
  - match goal with Hx : wrong_identity _ _ = false |- _ => apply right_identity in Hx as [? ?] end.
    match goal with Hx : _ || _ = false |- _ => rewrite !orb_false_iff, !negb_false_iff, !bool_decide_eq_true in Hx; destruct Hx as [[? ?] ?] end.
    eexists _, _, _. split_and!; [done..|exact Hexact|apply Hgrows].
  - intros path content. unfold correctness_files. rewrite elem_of_app, list_elem_of_fmap, !elem_of_cons, elem_of_nil.
    intros [(file & [= -> ->] & Hin%Hfiles)|[[= -> ->]|[[= -> ->]|[[= -> ->]|[]]]]];
      (eapply grows_lookup; [|done]); grown.
  - unfold correctness_files. rewrite fmap_app, list_to_set_app_L, <-list_fmap_compose. set_solver.
Qed.

(** ** The sandbox of a build *)

Lemma create_dir_all_runs current rest files :
  Forall plain_name (current ++ rest) -> (current = [] \/ is_directory current files = true) ->
  (fs_create_dir_all current rest files).2 = true -> grows files (fs_create_dir_all current rest files).1.
Proof.
  revert current files. induction rest as [|name rest IH]; intros current files Hplain Hdir; cbn; [done|].
  assert (Forall plain_name ((current ++ [name]) ++ rest)) as Hplain' by by rewrite <-app_assoc.
  destruct (files !! (current ++ [name])) as [e|] eqn:He.
  - destruct (leads_to_directory e) eqn:Hl; [|done]. apply IH; [done|]. right. unfold is_directory. by rewrite He, Hl, orb_true_r.
  - intros Hmade. assert (grows files (<[current ++ [name] := Directory]> files)) as Hg.
    { apply grows_insert; [done|by destruct current|by apply Forall_app in Hplain' as [? _]|].
      rewrite removelast_last. destruct Hdir as [->|Hdir]; done. }
    etrans; [exact Hg|]. apply IH; [done| |done]. right. unfold is_directory. by rewrite lookup_insert_eq, orb_true_r.
Qed.

Lemma write_build_files_runs directory files h h' u :
  absolute directory -> file_key directory <> [] -> runs (write_build_files directory files) h h' u ->
  grows (h_files h) (h_files h')
  /\ forall file, file ∈ files ->
     h_files h' !! file_key (join_path directory (bp_str (bf_path file))) = Some (Regular (as_bytes (bf_contents file))).
Proof.
  intros Hd Hne. revert h. induction files as [|file files IH]; intros h Hr; cbn [write_build_files] in Hr.
  { repeat run_step. split; [done|]. intros ? Hin. by apply elem_of_nil in Hin. }
  apply runs_bind in Hr as (h1 & ? & Hp & Hr). apply runs_bind in Hr as (h2 & ? & Hw & Hr).
  apply runs_bind in Hr as (h3 & ? & Hv & Hr). unfold verify_file in Hv. repeat run_step.
  apply real_parents_runs in Hp; [|done].
  apply write_real_file_runs in Hw as [Hg Hfile]; [|by apply join_path_absolute|by apply below_nonempty].
  destruct (IH _ Hr) as [Hg' Hall]. split; [by repeat (etrans; [done|])|].
  intros f [->|Hin]%elem_of_cons; [|by apply Hall]. by eapply grows_lookup.
Qed.

Lemma build_id_plain policy a u : validate_build_assignment policy a = Ok u -> plain_name (as_str (ac_attempt_id a)).
Proof.
  unfold validate_build_assignment. intros ([] & Hid & _)%result_bind_Ok. unfold validate_build_attempt_id in Hid.
  apply guard_err_Ok in Hid. rewrite !orb_false_iff, negb_false_iff in Hid. destruct Hid as [_ Hsafe].
  apply safe_id_plain; [|done]. intros He. pose proof (as_str_ok (ac_attempt_id a)) as Hok. by rewrite He in Hok.
Qed.

(** The files of the sandbox of a build. *)
Definition build_files (parsed : CandidateBuildBundle) : list (string * bytes) :=
  ((fun file => (bp_str (bf_path file), as_bytes (bf_contents file))) <$> bb_files parsed)
  ++ [(BUILD_RUNNER_FILENAME, BUILD_RUNNER)].

(** The same of a build: its sandbox holds exactly the files of the
    bundle of its assignment and the runner, the bytes that were read have
    the identity the assignment names, and the bundle is of its task and
    candidate and for the architecture of the policy. *)
Theorem build_sandbox_is_exact (policy : AscendBuildPolicy) (a : AssignmentContract)
    (sandbox : AscendBuildSandbox) (h h' : Host E M P A)
    (Hroot : starts_with "/" (abp_sandbox_root policy) = true) (Htree : file_tree (h_files h))
    (Hrun : run_prog (build_materialize_bundle policy a) h = (h', Ok sandbox)) :
  exists content document parsed,
    digest_bytes content = ad_digest (bundle (ac_execution a)) /\ byte_len content = ad_size_bytes (bundle (ac_execution a))
    /\ build_document_from_slice content = Some document /\ build_bundle_from_document document = Ok parsed
    /\ bb_candidate_id parsed = ac_candidate_id a /\ bb_task_id parsed = ac_task_id a
    /\ bb_target_architecture parsed = ae_architecture (abp_environment policy)
    /\ bsb_directory sandbox = join_path (abp_sandbox_root policy) (as_str (ac_attempt_id a))
    /\ holds_exactly (bsb_directory sandbox) (build_files parsed) (h_files h')
    /\ h_files h ⊆ h_files h'.
Proof.
  change (runs (build_materialize_bundle policy a) h h' sandbox) in Hrun. unfold build_materialize_bundle in Hrun.
  repeat run_step.
  match goal with Hv : validate_build_assignment _ _ = _ |- _ => apply build_id_plain in Hv as Hid end.
  destruct (attempt_directory _ _ Hroot Hid) as [Hdir Hkey].
  set (directory := join_path (abp_sandbox_root policy) (as_str (ac_attempt_id a))) in *.
  match goal with Hx : negb (fs_create_dir_all _ _ _).2 = false |- _ =>
    apply negb_false_iff, create_dir_all_runs in Hx; [|by apply file_key_plain|by left] end.
  repeat match goal with
  | Hx : runs (read_declared _ _) _ _ _ |- _ => apply read_declared_runs in Hx as ->
  | Hx : runs (build_create_real_directory _) _ _ _ |- _ => apply real_directory_runs in Hx as [? _]; [|done]
  | Hx : runs (write_build_files _ _) _ _ _ |- _ => apply write_build_files_runs in Hx as [? Hfiles]; [|done..]
  | Hx : runs (build_write_once _ _) _ _ _ |- _ =>
      apply write_real_file_runs in Hx as [? ?]; [|by apply join_path_absolute|by apply below_nonempty]
  end.
  match goal with Hx : runs (build_verify_exact_tree _ _) ?h1 _ _ |- _ =>
    assert (grows (h_files h) (h_files h1)) as Hgrows by grown end.
  match goal with Hx : runs (build_verify_exact_tree _ _) _ _ _, Hb : map_err _ _ = Ok ?parsed |- _ =>
    apply (exact_tree_holds _ _ _ _ (build_files parsed)) in Hx as [-> Hexact]; [|by apply Hgrows|done|..] end.
  - match goal with Hx : wrong_identity _ _ = false |- _ => apply right_identity in Hx as [? ?] end.
    match goal with Hx : _ || _ = false |- _ => rewrite !orb_false_iff, !negb_false_iff, !bool_decide_eq_true in Hx; destruct Hx as [[? ?] ?] end.
    match goal with Hx : map_err _ _ = Ok _ |- _ => apply map_err_Ok in Hx end.
    eexists _, _, _. split_and!; [done..|exact Hexact|apply Hgrows].
  - intros path content. unfold build_files. rewrite elem_of_app, list_elem_of_fmap, list_elem_of_singleton.
    intros [(file & [= -> ->] & Hin%Hfiles)|[= -> ->]]; (eapply grows_lookup; [|done]); grown.
  - unfold build_files. rewrite fmap_app, list_to_set_app_L, <-list_fmap_compose. set_solver.
Qed.

End sandboxes.
