(* ===== verification/ExecutionTheorems.v ===== *)
(** * What the executors promise

    Of a worker that starts with an empty journal and runs any number of
    executions, with tasks dropped and the process restarted anywhere: a
    container is started at most once, a result is recorded only when its
    outputs are stored and published, and a device is released only when
    its container is gone. *)

From stdpp Require Import base strings gmap sets list.
From S2P Require Import Prelude Text Digest Encoding Identity Migration Vocabulary BuildGate Artifacts Uploads RunEvents WorkerJournal WorkerSession WorkerUpdates ReductionRun Devices Containers CudaContract CorrectnessContract AscendContract Effects Sandboxes Executions Platforms FakeExecutor ExecutionProtocol ExecutionHost ExecutionInvariant SandboxTheorems.

Local Open Scope N_scope.

(** ** Where results and releases come from *)

Ltac peel_attempts :=
  repeat match goal with
  | H : _ ≫= _ = Ok _ |- _ => apply result_bind_Ok in H as (? & ? & ?)
  | H : enqueue_outbox _ _ _ = Ok (?o, ?j) |- _ => apply enqueue_outbox_later in H as [H _]
  | H : enqueue_outbox _ _ _ = Ok ?p |- _ => destruct p as [? ?]; cbn [snd] in *
  | H : (match ?x with _ => _ end) = Ok _ |- _ => destruct x eqn:?
  | H : Ok _ = Ok _ |- _ => injection H; clear H; intros
  | H : Err _ = Ok _ |- _ => discriminate H
  end; subst; cbn in *; try congruence.

Lemma settle_cases {A} (Q : Journal -> Prop) j (r : result AttemptStoreError (A * Journal)) :
  Q j -> (forall a j', r = Ok (a, j') -> Q j') -> Q (settle j r).
Proof. intros Hj Hr. destruct r as [[a j']|e]; [by eapply Hr|done]. Qed.

Lemma delete_messages_attempts ids n j : j_attempts (delete_messages ids n j).2 = j_attempts j.
Proof.
  revert n j. induction ids as [|id ids IH]; intros n j; [done|]. cbn [delete_messages].
  assert (j_attempts (delete_message id j).2 = j_attempts j) as E
    by (unfold delete_message; by destruct (j_outbox j !! id)).
  destruct (delete_message id j) as [k j1]. cbn [snd] in E. by rewrite IH.
Qed.

Definition attempt_op (op : JournalOp) : bool :=
  match op with OpAdmit _ _ | OpRunning _ _ | OpFinished _ _ _ => true | _ => false end.

Lemma attempts_frame op j : attempt_op op = false -> j_attempts (run_op op j) = j_attempts j.
Proof.
  intros Hop. destruct op; try discriminate Hop; cbn [run_op];
    try (apply (settle_cases (fun j' => j_attempts j' = j_attempts j)); [done|]; intros x j' Hx).
  - unfold bind_worker in Hx. peel_attempts.
  - unfold enqueue_lifecycle in Hx. peel_attempts.
  - unfold acknowledge_cancel. destruct (journal_attempt attempt_id j); [|done]. cbn [mbind option_bind].
    apply (settle_cases (fun j' => j_attempts j' = j_attempts j)); [done|]. intros x j' Hx.
    unfold enqueue_lifecycle in Hx. peel_attempts.
  - unfold record_outbox_delivery in Hx. peel_attempts.
  - unfold acknowledge_outbox in Hx. apply result_bind_Ok in Hx as (m & _ & Hx).
    pose proof (delete_messages_attempts (delivered_through connection_id m j) 0 j) as E.
    injection Hx as Hx. by rewrite Hx in E.
  - unfold prune_outbox_deliveries in Hx. peel_attempts.
  - unfold acquire_device_lease in Hx. peel_attempts.
  - unfold release_device_lease in Hx. peel_attempts.
  - unfold record_device_preflight in Hx. peel_attempts.
Qed.

(** The recorded result of an attempt, and whether its lease was released. *)
Definition result_of (id : string) (j : Journal) : option StoredFinished := journal_attempt id j ≫= la_finished.
Definition released (id : string) (j : Journal) : Prop :=
  exists l t, j_leases j !! id = Some l /\ lr_released_at_ms l = Some t.

Lemma result_of_attempts id j j' : j_attempts j' = j_attempts j -> result_of id j' = result_of id j.
Proof. unfold result_of, journal_attempt. by intros ->. Qed.

Lemma insert_result id key row (j : Journal) :
  result_of id (set_attempts j (<[key := row]> (j_attempts j)))
  = if decide (id = key) then la_finished (row_record row) else result_of id j.
Proof.
  unfold result_of, journal_attempt. cbn. case_decide as Hid.
  - subst. by rewrite lookup_insert_eq.
  - by rewrite lookup_insert_ne.
Qed.

Lemma row_result id row j : j_attempts j !! id = Some row -> result_of id j = la_finished (row_record row).
Proof. unfold result_of, journal_attempt. by intros ->. Qed.

Lemma admit_result a t j o j' id f :
  journal_admit a t j = Ok (o, j') -> result_of id j' = Some f -> result_of id j = Some f.
Proof.
  unfold journal_admit. intros ([o1 j1] & Hx & ([o2 j2] & Hq & [= _ <-])%result_bind_Ok)%result_bind_Ok.
  apply enqueue_outbox_later in Hq as [Hq _]. cbn [snd] in *. rewrite (result_of_attempts _ _ _ Hq).
  destruct (j_attempts j !! _) as [row|]; [by apply guard_bind_Ok in Hx as [_ [= _ <-]]|].
  apply result_bind_Ok in Hx as (t1 & _ & [= _ <-]). rewrite insert_result. by case_decide.
Qed.

Lemma running_result key t j u j' id :
  mark_running key t j = Ok (u, j') -> result_of id j' = result_of id j.
Proof.
  unfold mark_running.
  intros (row & Hrow%ok_or_Ok & (j1 & Hx & (ids & _ & ([o j2] & Hq & [= _ <-])
    %result_bind_Ok)%result_bind_Ok)%result_bind_Ok)%result_bind_Ok.
  apply enqueue_outbox_later in Hq as [Hq _]. cbn [snd] in *. rewrite (result_of_attempts _ _ _ Hq).
  destruct (la_phase (row_record row)); [|by injection Hx as <-|done].
  apply result_bind_Ok in Hx as (t1 & _ & [= <-]). unfold update_attempt. rewrite insert_result.
  case_decide; [subst|done]. cbn. symmetry. by apply row_result.
Qed.

Lemma finished_result key finished t j u j' id :
  mark_finished key finished t j = Ok (u, j') ->
  result_of id j' = result_of id j \/ id = key /\ result_of id j' = Some finished.
Proof.
  unfold mark_finished.
  intros (row & Hrow%ok_or_Ok & (j1 & Hx & (ids & _ & ([o j2] & Hq & [= _ <-])
    %result_bind_Ok)%result_bind_Ok)%result_bind_Ok)%result_bind_Ok.
  apply enqueue_outbox_later in Hq as [Hq _]. cbn [snd] in *. rewrite (result_of_attempts _ _ _ Hq).
  assert (j1 = j \/ exists t1, j1 = update_attempt key row PhaseFinished t1 (Some finished) j) as [->|[t1 ->]].
  { destruct (la_phase (row_record row)); [..|destruct (la_finished _); [|done]; apply guard_bind_Ok in Hx as [_ [= <-]]; auto].
    all: apply result_bind_Ok in Hx as (t1 & _ & [= <-]); eauto. }
  - auto.
  - unfold update_attempt. rewrite insert_result. case_decide; auto.
Qed.

Lemma run_op_result op id j f :
  result_of id (run_op op j) = Some f ->
  result_of id j = Some f \/ exists t u j', op = OpFinished id f t /\ mark_finished id f t j = Ok (u, j').
Proof.
  destruct (attempt_op op) eqn:Hop; [|rewrite (result_of_attempts _ j); [auto|by apply attempts_frame]].
  destruct op; try discriminate Hop; cbn [run_op];
    match goal with |- context [settle _ ?r] => destruct r as [[x j']|] eqn:Hx; cbn [settle]; [|auto] end.
  - left. by eapply admit_result.
  - rewrite (running_result _ _ _ _ _ _ Hx). auto.
  - destruct (finished_result _ _ _ _ _ _ id Hx) as [->|[-> ->]]; [auto|]. intros [= ->]. right. eauto.
Qed.

Lemma run_op_released op id j :
  released id (run_op op j) ->
  released id j \/ exists a t o j', op = OpRelease a t /\ as_str a = id /\ release_device_lease a t j = Ok (o, j').
Proof.
  unfold released. destruct (lease_op op) eqn:Hop; [|rewrite leases_frame; auto].
  destruct op; try discriminate Hop; cbn [run_op];
    match goal with |- context [settle _ ?r] => destruct r as [[x j']|] eqn:Hx; cbn [settle]; [|auto] end.
  - apply acquire_device_lease_Ok in Hx as (_ & [(_ & -> & _)|(_ & _ & _ & ->)]); [auto|].
    intros (l & t & Hl & Ht). cbn in Hl. apply lookup_insert_Some in Hl as [[_ <-]|[_ Hl]]; [done|]. eauto.
  - intros (l & t & Hl & Ht). destruct (decide (as_str attempt_id = id)) as [<-|Hne]; [right; eauto 10|].
    left. unfold release_device_lease in Hx. apply result_bind_Ok in Hx as (lease & _ & Hx).
    destruct (lr_released_at_ms lease); [injection Hx as _ <-; eauto|].
    apply result_bind_Ok in Hx as (t1 & _ & [= _ <-]). cbn in Hl. rewrite lookup_insert_ne in Hl by done. eauto.
Qed.

Lemma run_op_leased op id j l :
  j_leases (run_op op j) !! id = Some l ->
  (exists l0, j_leases j !! id = Some l0 /\ lr_device_id l0 = lr_device_id l)
  \/ exists a t o j', op = OpAcquire a (lr_device_id l) t /\ as_str a = id
       /\ acquire_device_lease a (lr_device_id l) t j = Ok (o, j').
Proof.
  destruct (lease_op op) eqn:Hop; [|rewrite leases_frame; eauto].
  destruct op; try discriminate Hop; cbn [run_op];
    match goal with |- context [settle _ ?r] => destruct r as [[x j']|] eqn:Hx; cbn [settle]; [|eauto] end.
  - pose proof Hx as (_ & [(_ & -> & _)|(_ & _ & _ & ->)])%acquire_device_lease_Ok; [eauto|].
    cbn. intros [[<- <-]|[_ Hl]]%lookup_insert_Some; [|eauto]. right. cbn. eauto 10.
  - intros Hl. left. unfold release_device_lease in Hx. apply result_bind_Ok in Hx as (lease & Hlease%ok_or_Ok & Hx).
    destruct (lr_released_at_ms lease); [injection Hx as _ <-; eauto|].
    apply result_bind_Ok in Hx as (t1 & _ & [= _ <-]). cbn in Hl.
    apply lookup_insert_Some in Hl as [[<- <-]|[_ Hl]]; eauto.
Qed.

(** ** Steps of a host *)

Section host.
Context {E M P A : Type} `{Sha256} `{SandboxText} `{ReductionJson} `{ReceiptJson} `{ExecutionText} `{WorkerClock} `{FakeClock} `{ContainerEngine E} `{DeviceManager M}
  `{ArtifactPublisher P} `{ArtifactStore A} `{ArtifactInputProvider A} `{EngineView E}.
Implicit Types (h : Host E M P A).

Lemma transact_journal {X} (t : N -> Txn X) h :
  h_journal (transact t h).1 = settle (h_journal h) (t (worker_reading (h_clock h)) (h_journal h)).
Proof. unfold transact. by destruct (t _ _) as [[x j]|]. Qed.

(** The operation of the journal an effect is, if it is one. *)
Definition journal_op {X} (e : Effect X) (now : N) : option JournalOp :=
  match e with
  | MarkRunning id => Some (OpRunning id now)
  | MarkFinished id finished => Some (OpFinished id finished now)
  | AcquireLease id device => Some (OpAcquire id device now)
  | ReleaseLease id => Some (OpRelease id now)
  | RecordPreflight id observation => Some (OpPreflight id observation)
  | _ => None
  end.

Lemma perform_journal_op {X} (e : Effect X) h :
  h_journal (perform e h).1
  = match journal_op e (worker_reading (h_clock h)) with Some op => run_op op (h_journal h) | None => h_journal h end.
Proof.
  destruct e; cbn [perform journal_op run_op]; unfold on_devices;
    rewrite ?(proj1 (proj2 (proj2 (log_ok_engine _ _)))), ?transact_journal; try done.
  by case_decide.
Qed.

(** Everything recorded in the journal is in the log, but what the other
    operations of the worker recorded. *)
Record Recorded (actions : list Action) (s : System (E:=E) (M:=M) (P:=P) (A:=A)) : Prop := {
  rc_results : forall id f, result_of id (h_journal (sy_host s)) = Some f ->
    FinishedAttempt id f ∈ h_log (sy_host s) \/ exists t, Other (OpFinished id f t) ∈ actions;
  rc_released : forall id, released id (h_journal (sy_host s)) ->
    ReleasedLease id ∈ h_log (sy_host s) \/ exists a t, as_str a = id /\ Other (OpRelease a t) ∈ actions;
  rc_leased : forall id l, j_leases (h_journal (sy_host s)) !! id = Some l ->
    AcquiredLease id (lr_device_id l) ∈ h_log (sy_host s)
    \/ exists a t, as_str a = id /\ Other (OpAcquire a (lr_device_id l) t) ∈ actions;
}.

Lemma perform_recorded {X} (e : Effect X) h :
  (forall id f, result_of id (h_journal (perform e h).1) = Some f ->
     result_of id (h_journal h) = Some f \/ FinishedAttempt id f ∈ h_log (perform e h).1)
  /\ (forall id, released id (h_journal (perform e h).1) ->
     released id (h_journal h) \/ ReleasedLease id ∈ h_log (perform e h).1)
  /\ (forall id l, j_leases (h_journal (perform e h).1) !! id = Some l ->
     (exists l0, j_leases (h_journal h) !! id = Some l0 /\ lr_device_id l0 = lr_device_id l)
     \/ AcquiredLease id (lr_device_id l) ∈ h_log (perform e h).1).
Proof.
  rewrite perform_journal_op. split; [|split].
  - intros id f. destruct (journal_op e _) as [op|] eqn:Hop; [|auto].
    intros [?|(t & u & j' & -> & Hm)]%run_op_result; [auto|right].
    destruct e; try discriminate Hop. injection Hop as -> -> <-.
    cbn [perform]. unfold transact, log_ok. rewrite Hm. cbn. apply elem_of_app. right. by left.
  - intros id. destruct (journal_op e _) as [op|] eqn:Hop; [|auto].
    intros [?|(a & t & o & j' & -> & <- & Hm)]%run_op_released; [auto|right].
    destruct e; try discriminate Hop. injection Hop as -> <-.
    cbn [perform]. unfold transact, log_ok. rewrite Hm. cbn. apply elem_of_app. right. by left.
  - intros id l. destruct (journal_op e _) as [op|] eqn:Hop; [|eauto].
    intros [?|(a & t & o & j' & -> & <- & Hm)]%run_op_leased; [auto|right].
    destruct e; try discriminate Hop. injection Hop as -> -> <-.
    cbn [perform]. unfold transact, log_ok. rewrite Hm. cbn. apply elem_of_app. right. by left.
Qed.

Lemma step_task_recorded actions i task s : Recorded actions s -> Recorded actions (step_task i task s).
Proof.
  intros [Hf Hr Hl0]. unfold step_task. destruct (tk_program task) as [a|X e c]; [by split|].
  destruct (perform_recorded e (sy_host s)) as (Hf' & Hr' & Hl').
  destruct (perform_log e (sy_host s)) as (l & Hl & _).
  split; cbn.
  - intros id f [[?|?]%Hf|?]%Hf'; auto. left. rewrite Hl. apply elem_of_app. by left.
  - intros id [[?|?]%Hr|?]%Hr'; auto. left. rewrite Hl. apply elem_of_app. by left.
  - intros id l0 [(l1 & Hl1 & <-)|?]%Hl'; [|auto]. apply Hl0 in Hl1 as [?|?]; [|auto]. left. rewrite Hl. apply elem_of_app. by left.
Qed.

Lemma spawn_host i id program (s : System (E:=E) (M:=M) (P:=P) (A:=A)) : sy_host (spawn i id program s) = sy_host s.
Proof. unfold spawn. by destruct (sy_tasks s !! i). Qed.

Lemma host_step_recorded registry action actions s :
  Recorded actions s -> Recorded (actions ++ [action]) (host_step registry action s).
Proof.
  intros Hs. assert (Recorded (actions ++ [action]) s) as Hs'.
  { destruct Hs as [Hf Hr Hl]. split.
    - intros id f [?|(t & ?)]%Hf; [auto|]. right. exists t. apply elem_of_app. auto.
    - intros id [?|(a & t & ? & ?)]%Hr; [auto|]. right. exists a, t. rewrite elem_of_app. auto.
    - intros id l [?|(a & t & ? & ?)]%Hl; [auto|]. right. exists a, t. rewrite elem_of_app. auto. }
  destruct action as [i id|i id|i|i| |op|]; cbn [host_step].
  - destruct (backend_for _ _ _ _); [|done]. destruct Hs'. split; by rewrite spawn_host.
  - destruct (backend_for _ _ _ _); [|done]. destruct Hs'. split; by rewrite spawn_host.
  - destruct (sy_tasks s !! i); [by apply step_task_recorded|done].
  - destruct (sy_tasks s !! i) as [task|]; [|done]. destruct Hs'. unfold drop_task. split; cbn; by destruct (tk_claimed task).
  - destruct Hs'. by split.
  - destruct Hs' as [Hf Hr Hl]. split; cbn.
    + intros id f [?|(t & u & j' & -> & _)]%run_op_result; [auto|]. right. exists t. apply elem_of_app. right. by left.
    + intros id [?|(a & t & o & j' & -> & <- & _)]%run_op_released; [auto|]. right. exists a, t.
      split; [done|]. apply elem_of_app. right. by left.
    + intros id l [(l0 & Hl0 & <-)|(a & t & o & j' & -> & <- & _)]%run_op_leased; [by apply Hl|]. right. exists a, t.
      split; [done|]. apply elem_of_app. right. by left.
  - destruct Hs'. by split.
Qed.

Lemma host_run_recorded registry actions s :
  h_journal (sy_host s) = journal_empty -> Recorded actions (host_run registry actions s).
Proof.
  intros Hj. induction actions as [|action actions IH] using rev_ind.
  - split; cbn; rewrite Hj; [done| |done]. intros id (l & t & Hl & _). done.
  - unfold host_run in *. rewrite foldl_app. by apply host_step_recorded.
Qed.


(** ** The promises *)

Context `{!ContainerEngineLaws E} `{!ArtifactStoreLaws A} `{!ProviderLaws A}.
Context (backends : WorkerBackends) (registry : Registry) (Hregistry : registry_of backends = Ok registry).

(** The backend that serves a kind of execution, and its device when it is
    bound to one: the fake executor has none, and a runtime may be set up to
    choose one for every attempt. *)
Definition serving (kind : ExecutionKind) : option WorkerBackend :=
  List.find (fun b => bool_decide (kind ∈ bk_executor_kinds (backend_of (wb_providing backends) (wb_publishing backends) b)))
    (wb_backends backends).

Definition fixed_device (backend : WorkerBackend) : option string :=
  match backend with
  | FakeBackend _ _ => None
  | CudaBackend runtime => match rt_dynamic runtime with Some _ => None | None => Some (rt_device_id runtime) end
  | AscendBackend runtime => match rt_dynamic runtime with Some _ => None | None => Some (rt_device_id runtime) end
  end.

(** The device an attempt of a journal is bound to. *)
Definition bound_device (j : Journal) (id : string) : option string :=
  attempt ← journal_attempt id j;
  backend ← serving (executor_kind (ac_execution (la_assignment attempt)));
  fixed_device backend.

(** The settings of the worker: any device will do, or the one the attempt
    is bound to. *)
Definition plain : Setting := MkSetting (wb_publishing backends) (fun _ _ => True).
Definition bound (j : Journal) : Setting :=
  MkSetting (wb_publishing backends) (fun id device => forall d, bound_device j id = Some d -> device = d).

(** The backends of a worker follow the protocol. *)
Lemma worker_backend_follows (setting : Setting) id backend :
  set_publishing setting = wb_publishing backends ->
  (forall device, (forall d, fixed_device backend = Some d -> device = d) -> set_device setting id device) ->
  backend_follows setting id (backend_of (wb_providing backends) (wb_publishing backends) backend).
Proof.
  intros <- Hd. destruct backend as [w plan|runtime|runtime]; split; cbn.
  - apply fake_execute_follows.
  - done.
  - apply backend_execute_follows. unfold fits. cbn in Hd. destruct (rt_dynamic runtime); [by intros dv; apply Hd|].
    apply Hd. by intros dv [= ->].
  - apply retry_terminal_cleanup_follows. unfold fits. cbn in Hd. destruct (rt_dynamic runtime); [by intros dv; apply Hd|].
    apply Hd. by intros dv [= ->].
  - apply backend_execute_follows. unfold fits. cbn in Hd. destruct (rt_dynamic runtime); [by intros dv; apply Hd|].
    apply Hd. by intros dv [= ->].
  - apply retry_terminal_cleanup_follows. unfold fits. cbn in Hd. destruct (rt_dynamic runtime); [by intros dv; apply Hd|].
    apply Hd. by intros dv [= ->].
Qed.

Lemma register_Ok backend registry0 registry1 kind :
  register backend registry0 = Ok registry1 ->
  registry1 kind = (if bool_decide (kind ∈ bk_executor_kinds backend) then Some backend else registry0 kind)
  /\ (kind ∈ bk_executor_kinds backend -> registry0 kind = None).
Proof.
  unfold register. destruct (List.find _ _) eqn:Hf; [done|]. intros [_ [= <-]]%guard_bind_Ok. split; [done|].
  intros Hk%list_elem_of_In. pose proof (List.find_none _ _ Hf _ Hk) as Hn. unfold registered in Hn. by destruct (registry0 kind).
Qed.

(** What is registered for a kind is the one backend that serves it. *)
Lemma register_all_serving {B} (make : B -> ExecutionBackend) list registry0 registry1 kind :
  register_all (make <$> list) registry0 = Ok registry1 ->
  registry1 kind = match List.find (fun b => bool_decide (kind ∈ bk_executor_kinds (make b))) list with
                   | Some b => Some (make b)
                   | None => registry0 kind
                   end
  /\ (is_Some (registry0 kind) -> List.find (fun b => bool_decide (kind ∈ bk_executor_kinds (make b))) list = None).
Proof.
  revert registry0. induction list as [|b list IH]; intros registry0; cbn; [by intros [= <-]|].
  intros (registry' & Hreg & Hrest)%result_bind_Ok. destruct (IH _ Hrest) as [Hone Hfree].
  destruct (register_Ok _ _ _ kind Hreg) as [Hkind Hnew]. case_bool_decide as Hb.
  - rewrite Hfree in Hone by (by rewrite Hkind). split; [congruence|]. rewrite Hnew by done. by intros [].
  - rewrite Hkind in Hone, Hfree. done.
Qed.

Lemma registry_serving kind backend :
  registry kind = Some backend -> exists b, serving kind = Some b
    /\ backend = backend_of (wb_providing backends) (wb_publishing backends) b.
Proof.
  destruct (register_all_serving _ _ _ _ kind Hregistry) as [-> _]. unfold serving.
  destruct (List.find _ _) as [b|]; [|done]. intros [= <-]. by exists b.
Qed.

Lemma registry_follows_plain j : registry_follows plain registry j.
Proof.
  intros id a backend _ (b & _ & ->)%registry_serving. by apply worker_backend_follows.
Qed.

(** The kind of an attempt does not change, and so neither does its
    backend. *)
Lemma registry_follows_bound j j' : journal_later j j' -> registry_follows (bound j') registry j.
Proof.
  intros Hl id a backend (row & Hrow & ->)%fmap_Some (b & Hb & ->)%registry_serving.
  apply worker_backend_follows; [done|]. intros device Hd d. cbn. unfold bound_device, journal_attempt.
  destruct (jl_attempts _ _ Hl _ _ Hrow) as (row' & -> & (_ & Ha & _)). cbn. rewrite Ha, Hb. cbn. apply Hd.
Qed.

(** A worker that has just been installed. *)
Definition installed (s : System (E:=E) (M:=M) (P:=P) (A:=A)) : Prop :=
  h_journal (sy_host s) = journal_empty /\ h_log (sy_host s) = [] /\ sy_tasks s = ∅
  /\ forall id, engine_starts (container_name id) (h_engine (sy_host s)) = 0%nat.

Lemma installed_fresh s : installed s -> fresh s.
Proof. intros (Hj & Hl & Ht & He). split_and!; try done. rewrite Hj. apply JInv_empty. Qed.

Lemma installed_inv actions s : installed s -> SysInv plain (host_run registry actions s).
Proof. intros Hi. apply host_reachable_inv; [intros n; apply registry_follows_plain|by apply installed_fresh]. Qed.

Lemma installed_bound actions s : installed s ->
  SysInv (bound (h_journal (sy_host (host_run registry actions s)))) (host_run registry actions s).
Proof.
  intros Hi. apply host_reachable_inv; [|by apply installed_fresh]. intros n. apply registry_follows_bound.
  rewrite <-(take_drop n actions) at 2. unfold host_run at 2. rewrite foldl_app. apply host_run_journal.
  apply (st_journal _ _ (si_steady _ _ (installed_inv _ _ Hi))).
Qed.

(** C2 The container of an attempt is started at most once, and only when
    the attempt is recorded as running, whatever executions, cancellations
    of tasks, restarts of the worker and other operations came before. *)
Theorem container_starts_once (actions : list Action) (s : System) (id : string)
    (Hi : installed s) :
  let host := sy_host (host_run registry actions s) in
  (engine_starts (container_name id) (h_engine host) <= 1)%nat
  /\ (engine_starts (container_name id) (h_engine host) <> 0%nat -> past_accepted id (h_journal host)).
Proof.
  intros host. pose proof (si_steady _ _ (installed_inv actions s Hi)) as Hst. split.
  - apply (st_once _ _ Hst).
  - intros Hn. apply (st_accepted _ _ Hst). by right.
Qed.

(** C3 A result in the journal that an execution recorded has its stdout,
    stderr and receipt in the store of the worker, with the bytes whose
    digests it names, and they were published before, when the worker
    publishes. *)
Theorem results_are_stored_and_published (actions : list Action) (s : System) (id : string) (f : StoredFinished)
    (Hi : installed s)
    (Hf : result_of id (h_journal (sy_host (host_run registry actions s))) = Some f)
    (Hother : forall t, Other (OpFinished id f t) ∉ actions) :
  let host := sy_host (host_run registry actions s) in
  (exists contents, outputs_among contents f
     /\ Forall (fun c => exists r, artifact_open (digest_bytes c) (h_store host) = Ok r /\ rd_source r = c) contents)
  /\ (wb_publishing backends = true -> exists before after,
       h_log host = before ++ FinishedAttempt id f :: after /\ Published (terminal_reference_intents id f) ∈ before).
Proof.
  intros host. pose proof (si_steady _ _ (installed_inv actions s Hi)) as Hst.
  destruct (rc_results _ _ (host_run_recorded registry actions s (proj1 Hi)) _ _ Hf) as [Hin|[t ?]];
    [|by destruct (Hother t)].
  apply list_elem_of_split in Hin as (before & after & Hlog). fold host in Hst, Hlog.
  destruct (justified_entry _ _ _ _ _ (st_justified _ _ Hst) Hlog) as [(contents & Hout & Hall) Hpub].
  split; [|eauto]. exists contents. split; [done|]. eapply Forall_impl; [done|]. intros c Hc.
  apply (st_stored _ _ Hst). rewrite Hlog. apply elem_of_app. by left.
Qed.

(** C24 The lease of a device is released only by an execution of its
    attempt, and only after a device was seen ready and before the container
    of the attempt was ever started, or after the attempt was finished, its
    container removed and then a device seen ready and without processes.
    When the backend of the attempt is bound to one device, that is the
    device that was leased and the one that was seen.  (No other part of the
    worker acquires or releases the lease of this attempt: in the code only
    the guard of the devices does.) *)
Theorem devices_are_released_safely (actions : list Action) (s : System) (id : string)
    (Hi : installed s)
    (Hr : released id (h_journal (sy_host (host_run registry actions s))))
    (Hother : forall a t, as_str a = id ->
      (Other (OpRelease a t) ∉ actions) /\ (forall device, Other (OpAcquire a device t) ∉ actions)) :
  let host := sy_host (host_run registry actions s) in
  exists before after o l, h_log host = before ++ ReleasedLease id :: after
  /\ j_leases (h_journal host) !! id = Some l
  /\ (((Started (container_name id) ∉ before) /\ ObservedDevice o ∈ before /\ obs_health o = DeviceReady)
      \/ (is_finished id (h_journal host) = true /\ seen_after_removal id o before /\ reusable o = true))
  /\ (forall device, bound_device (h_journal host) id = Some device ->
       lr_device_id l = device /\ obs_device_id o = device).
Proof.
  intros host. pose proof (si_steady _ _ (installed_bound actions s Hi)) as Hst.
  pose proof (host_run_recorded registry actions s (proj1 Hi)) as Hrec.
  pose proof (st_justified _ _ Hst) as Hjust. fold host in Hst, Hjust.
  destruct (rc_released _ _ Hrec _ Hr) as [Hin|(a & t & Ha & ?)]; [|by destruct (Hother a t Ha)].
  destruct Hr as (l & t & Hl & _).
  destruct (rc_leased _ _ Hrec _ _ Hl) as [Hacq|(a & t' & Ha & ?)]; [|by destruct (proj2 (Hother a t' Ha) (lr_device_id l))].
  apply list_elem_of_split in Hin as (before & after & Hlog), Hacq as (before' & after' & Hlog').
  fold host in Hlog, Hlog', Hl.
  pose proof (justified_entry _ _ _ _ _ Hjust Hlog') as Hleased.
  destruct (justified_entry _ _ _ _ _ Hjust Hlog) as (o & Hdevice & Hwhy).
  exists before, after, o, l. split; [done|]. split; [done|]. split; [|intros d Hd; split; [by apply Hleased|by apply Hdevice]].
  destruct Hwhy as [?|[Hseen Hreuse]]; [auto|right].
  split; [|done]. apply (st_removed _ _ Hst). rewrite Hlog.
  destruct Hseen as (l1 & l2 & l3 & ->). apply elem_of_app. left. apply elem_of_app. right. by left.
Qed.

End host.

(** ** The deterministic executor *)

Section fake.
Context {E M P A : Type} `{WorkerClock} `{FakeClock} {Eng : ContainerEngine E} {Dev : DeviceManager M}
  {Pub : ArtifactPublisher P} {Sto : ArtifactStore A} {Pro : ArtifactInputProvider A}.
Implicit Types (h : Host E M P A).

Lemma run_prog_bind {X Y} (p : Prog X) (f : X -> Prog Y) h :
  run_prog (prog_bind p f) h = run_prog (f (run_prog p h).2) (run_prog p h).1.
Proof. revert h. induction p as [x|Z e k IH]; intros h; [done|]. cbn. apply IH. Qed.

(** What the steps of a plan write to a stream. *)
Definition written (stream : ExecutionStream) (step : FakeStep) : bytes :=
  match stream, step with
  | ExecutionStdout, StepStdout content | ExecutionStderr, StepStderr content => content
  | _, _ => []
  end.
Definition planned (stream : ExecutionStream) (steps : list FakeStep) : bytes := concat (map (written stream) steps).

Definition accumulated (acc : OutputAccumulator) : Prop :=
  oa_total_output acc = byte_len (oa_stdout acc) + byte_len (oa_stderr acc)
  /\ oa_total_output acc <= oa_limit acc /\ oa_limit acc < u64_max.

(** A step that is not refused writes all it has. *)
Definition wrote (steps : list FakeStep) (acc acc' : OutputAccumulator) : Prop :=
  oa_stdout acc' = oa_stdout acc ++ planned ExecutionStdout steps
  /\ oa_stderr acc' = oa_stderr acc ++ planned ExecutionStderr steps
  /\ oa_limit acc' = oa_limit acc.

Lemma emit_writes worker_id input stream content acc elapsed h :
  accumulated acc ->
  let '(acc', _, ended) := (run_prog (emit worker_id input stream content acc elapsed) h).2 in
  accumulated acc' /\ (acc' = acc /\ ended = Err OutputLimitExceeded
    \/ acc' = extend stream content (oa_total_output acc + byte_len content) acc).
Proof.
  intros (Htotal & Hle & Hmax). unfold emit.
  destruct (N.ltb_spec (oa_limit acc) (saturating_add u64_max (oa_total_output acc) (byte_len content))) as [Hlt|Hge].
  { cbn. split; [by split_and!|auto]. }
  assert (saturating_add u64_max (oa_total_output acc) (byte_len content) = oa_total_output acc + byte_len content) as Hsat.
  { unfold saturating_add in *. lia. }
  assert (accumulated (extend stream content (oa_total_output acc + byte_len content) acc)) as Hacc.
  { rewrite Hsat in Hge. unfold accumulated, byte_len in *. destruct stream; cbn; rewrite length_app; lia. }
  rewrite Hsat. cbn [run_prog perform snd fst]. destruct (fake_send _); cbn; auto.
Qed.

Lemma run_step_writes worker_id input step acc elapsed h :
  accumulated acc ->
  let '(acc', _, ended) := (run_prog (run_step worker_id input step acc elapsed) h).2 in
  accumulated acc' /\ (wrote [] acc acc' /\ ended <> Ok tt \/ wrote [step] acc acc').
Proof.
  intros Hacc. destruct step as [content|content|ms]; cbn [run_step].
  1, 2: match goal with |- context [emit _ _ ?stream _ _ _] =>
      pose proof (emit_writes worker_id input stream content acc elapsed h Hacc) as He end;
    destruct (run_prog _ h).2 as [[acc' el] ended]; destruct He as [He [[Ha Hend]|Ha]]; subst; (split; [done|]);
    unfold wrote, planned; cbn; rewrite ?app_nil_r; auto.
  unfold wait_step, wrote, planned. cbn [run_prog perform fst snd].
  destruct (fake_delay _); cbn; rewrite ?app_nil_r; auto.
Qed.

Lemma run_steps_writes worker_id input steps acc elapsed h :
  accumulated acc ->
  let '(acc', _, ended) := (run_prog (run_steps worker_id input steps acc elapsed) h).2 in
  accumulated acc' /\ exists n, wrote (take n steps) acc acc' /\ (ended = Ok tt -> take n steps = steps).
Proof.
  revert acc elapsed h. induction steps as [|step steps IH]; intros acc elapsed h Hacc; cbn [run_steps].
  { cbn. split; [done|]. exists 0%nat. split; [|done]. unfold wrote, planned. cbn. by rewrite !app_nil_r. }
  rewrite run_prog_bind. pose proof (run_step_writes worker_id input step acc elapsed h Hacc) as Hs.
  destruct (run_prog (run_step _ _ _ _ _) h) as [h1 [[acc1 el1] ended1]]. cbn [fst snd] in *.
  destruct Hs as [Hacc1 Hw]. destruct ended1 as [[]|t].
  - destruct Hw as [[_ ?]|(Ho1 & Ho2 & Ho3)]; [done|]. specialize (IH acc1 el1 h1 Hacc1).
    destruct (run_prog (run_steps _ _ _ _ _) h1).2 as [[acc2 el2] ended2].
    destruct IH as [Hacc2 (n & (Hw1 & Hw2 & Hw3) & Hend)]. split; [done|]. exists (S n). split.
    + unfold wrote, planned in *. cbn in *. rewrite app_nil_r in *.
      rewrite Hw1, Hw2, Hw3, Ho1, Ho2, Ho3, <-!app_assoc. done.
    + intros ?%Hend. cbn. congruence.
  - cbn. split; [done|]. destruct Hw as [[Hw _]|Hw]; [by exists 0%nat|by exists 1%nat].
Qed.

(** The deterministic executor reports a prefix of the outputs of its
    plan, never more than the limit of the assignment, and success only
    for a plan that ends with exit code zero and was carried out whole. *)
Theorem fake_outputs_follow_the_plan (worker_id : string) (plan : FakeExecutionPlan) (input : ExecutorInput)
    (h : Host E M P A) (Hlimit : xi_output_limit_bytes input < u64_max) :
  let r := (run_prog (execute_plan worker_id plan input) h).2 in
  byte_len (er_stdout r) + byte_len (er_stderr r) <= xi_output_limit_bytes input
  /\ exists n, er_stdout r = planned ExecutionStdout (take n (fp_steps plan))
     /\ er_stderr r = planned ExecutionStderr (take n (fp_steps plan))
     /\ (er_outcome r = OutcomeSucceeded -> take n (fp_steps plan) = fp_steps plan /\ fp_completion plan = CompletionExit 0).
Proof.
  intros r. subst r. unfold execute_plan. rewrite run_prog_bind.
  assert (accumulated (accumulator_new (xi_output_limit_bytes input))) as Hacc by (split_and!; [done|cbn; lia|done]).
  pose proof (run_steps_writes worker_id input (fp_steps plan) _ 0 h Hacc) as Hs.
  destruct (run_prog (run_steps _ _ _ _ _) h) as [h1 [[acc el] ended]]. cbn [fst snd] in *.
  destruct Hs as [(Ht & Hle & _) (n & (Ho & He & Hl) & Hend)]. cbn in Ho, He, Hl.
  destruct ended as [[]|termination]; cbn [run_prog snd].
  - unfold completed_result. destruct (fp_completion plan) as [[]|]; cbn;
      (split; [lia|]); exists n; (split; [done|]); (split; [done|]); intros ?; try discriminate. auto.
  - unfold terminal_result. destruct termination; cbn; (split; [lia|]); exists n; (split; [done|]); (split; [done|]);
      intros ?; discriminate.
Qed.

(** ** Files of a sandbox *)

(** A file of a sandbox that was created and not written, because the
    worker stopped in between, is never repaired: every later run of the
    same attempt refuses it and leaves it as it is. *)
Theorem torn_sandbox_is_refused (path : string) (content : bytes) (h : Host E M P A)
    (Hc : content <> []) (Hnew : h_files h !! file_key path = None) (Hroot : file_key path <> [])
    (Hparent : is_directory (removelast (file_key path)) (h_files h) = true) :
  let torn := (perform (CreateNew path) h).1 in
  (run_prog (write_once path content) h).2 = Ok tt
  /\ fs_read (file_key path) (h_files (run_prog (write_once path content) h).1) = Some content
  /\ run_prog (write_once path content) torn = (torn, Err CudaBundle).
Proof.
  intros torn. subst torn. unfold write_once, write_or_compare, ask. cbn. unfold fs_create_new.
  rewrite create_entry_new by done. cbn. rewrite fs_write_new, fs_read_regular. split_and!; [done..|].
  erewrite create_entry_exists by apply lookup_insert_eq. cbn. rewrite fs_read_regular. cbn.
  by rewrite bool_decide_false.
Qed.

End fake.

(** ** A worker with one device *)

Module HostSample.

(** Containers run until they are waited for or time passes; they print
    what the fixture expects and exit with zero. *)
Record Engine := MkEngine {
  en_containers : gmap string (ContainerIdentity * ContainerPhase);
  en_starts : gmap string nat;
}.

Definition exited (p : ContainerPhase) : ContainerPhase :=
  match p with ContainerCreated => ContainerCreated | _ => ContainerExited end.
Definition exit_container (name : string) (e : Engine) : Engine :=
  MkEngine (alter (fun c => (c.1, exited c.2)) name (en_containers e)) (en_starts e).
Definition sample_exit : ContainerExit := MkExit 0 5.
Definition sample_logs : ContainerLogs :=
  MkLogs (String.list_byte_of_string ("PASS fixture=" +:+ VECTOR_ADD_FIXTURE_ID +:+ " ")) [Byte.x02] false.

Definition create (plan : ContainerPlan) (identity : ContainerIdentity) (e : Engine) : Engine :=
  match en_containers e !! plan_container_name plan with
  | Some _ => e
  | None => MkEngine (<[plan_container_name plan := (identity, ContainerCreated)]> (en_containers e)) (en_starts e)
  end.

Definition start (name : string) (e : Engine) : Engine :=
  match en_containers e !! name with
  | Some (identity, ContainerCreated) =>
      MkEngine (<[name := (identity, ContainerRunning)]> (en_containers e))
        (<[name := S (default 0%nat (en_starts e !! name))]> (en_starts e))
  | _ => e
  end.

Definition remove (name : string) (e : Engine) : Engine := MkEngine (delete name (en_containers e)) (en_starts e).
Definition found (name : string) (e : Engine) : option ContainerSnapshot :=
  (fun c => MkContainerSnapshot c.1 c.2) <$> en_containers e !! name.

#[local] Instance engine_instance : ContainerEngine Engine := {
  engine_do X call e :=
    match call in EngineCall X return Engine * X with
    | ResolveImage plan => (e, Ok (digest_display (plan_expected_image_id plan)))
    | InspectContainer name => (e, Ok (found name e))
    | CreateContainer plan identity => (create plan identity e, Ok tt)
    | StartContainer name => (start name e, Ok tt)
    | WaitContainer name => (exit_container name e, Ok sample_exit)
    | StopContainer name => (exit_container name e, Ok tt)
    | ReadLogs _ _ => (e, Ok sample_logs)
    | FollowLogs _ _ => (e, ([], Ok sample_logs))
    | StreamsLive => (e, false)
    | SelectFollowing name _ _ => (exit_container name e, ([], ReadyFirst (ReadyExit (Ok sample_exit))))
    | SelectFollowed name _ => (exit_container name e, ReadyExit (Ok sample_exit))
    | RemoveContainer name => (remove name e, Ok tt)
    end;
  engine_tick e := MkEngine ((fun c => (c.1, exited c.2)) <$> en_containers e) (en_starts e);
}.

#[local] Instance engine_view : EngineView Engine := {
  engine_phase name e := snd <$> en_containers e !! name;
  engine_starts name e := default 0%nat (en_starts e !! name);
}.

Lemma exit_calm name other e : calm name e (exit_container other e).
Proof.
  split; [done|]. cbn. destruct (decide (other = name)) as [->|Hne]; [|rewrite lookup_alter_ne by done; auto].
  rewrite lookup_alter_eq. destruct (en_containers e !! name) as [[i []]|]; cbn; auto.
Qed.

Lemma found_phase name e : cs_phase <$> found name e = engine_phase name e.
Proof. unfold found. cbn. by destruct (en_containers e !! name). Qed.

#[local] Instance engine_laws : ContainerEngineLaws Engine.
Proof.
  split; cbn [engine_do engine_instance engine_tick fst snd].
  - intros name e. split; [done|]. cbn. rewrite lookup_fmap.
    destruct (en_containers e !! name) as [[i []]|]; cbn; auto.
  - intros X call name e Hc. destruct call; cbn in *; try (apply calm_refl); try (apply exit_calm).
    + unfold create. destruct (en_containers e !! _); [apply calm_refl|].
      split; [done|]. cbn. rewrite lookup_insert_ne by congruence. auto.
    + unfold start. destruct (en_containers e !! name0) as [[i []]|]; try apply calm_refl.
      assert (name0 <> name) by congruence. split; cbn; by rewrite lookup_insert_ne; auto.
    + unfold remove. assert (name0 <> name) by congruence. split; [done|]. cbn. rewrite lookup_delete_ne; auto.
  - intros plan identity e. unfold create. destruct (en_containers e !! _) eqn:He; [left; apply calm_refl|right].
    cbn. rewrite He, lookup_insert_eq. done.
  - intros name e. unfold start. destruct (en_containers e !! name) as [[i []]|]; try (left; apply calm_refl).
    right. cbn. rewrite !lookup_insert_eq. auto.
  - intros name e. right. unfold remove. cbn. by rewrite lookup_delete_eq.
  - intros name e f [= <-]. apply found_phase.
Qed.

(** The other ports. *)
#[local] Instance sample_sha : Sha256 := fun data => from_bytes data.
#[local] Instance sample_clock : WorkerClock := N.of_nat.
#[local] Instance sample_fake : FakeClock := {| fake_send := fun _ => SendAccepted; fake_delay := fun _ => DelayElapsed |}.
Definition ready (device_id : string) : DeviceObservation :=
  Vocabulary.MkObservation device_id DeviceReady 0 0 0 0 0 0 0 "ready".
#[local] Instance sample_devices : DeviceManager unit := {|
  devices_snapshot := fun m => (m, Ok [ready "0"]);
  devices_observe := fun id m => (m, Ok (ready id));
  devices_recover := fun id m => (m, Ok (ready id));
|}.
#[local] Instance sample_publisher : ArtifactPublisher unit := fun _ p => (p, Ok tt).
#[local] Instance sample_provider : ArtifactInputProvider InMemoryArtifactStore := fun _ a => (a, Ok tt).
#[local] Instance sample_provider_laws : ProviderLaws InMemoryArtifactStore.
Proof. by intros artifact a d r. Qed.

Definition source : string := "kernel".
(** A bundle of the reference, with one file. *)
#[local] Instance sample_json : ReductionJson := {|
  rj_error := unit;
  corpus_to_vec := fun _ => Ok [Byte.x05];
  run_to_vec := fun _ => Err tt;
  floor_to_vec := fun _ => Err tt;
  plan_to_vec := fun _ => Err tt;
  policy_to_vec := fun _ => Err tt;
  bundle_to_vec := fun _ => Err tt;
|}.
Definition reference_file : ReductionExecutionFile :=
  MkExecutionFile (MkPath "input/kernel.cu" eq_refl) (digest_bytes (as_bytes source)) 6 source.
Definition reference_bundle : ReductionExecutionBundle :=
  MkExecutionBundle 1
    (experiment_new (MkId "task-1" eq_refl) (MkId "candidate-1" eq_refl) CudaSample.digest CudaSample.digest
       CudaSample.digest CudaSample.digest (digest_bytes [Byte.x05]) CudaSample.digest)
    CudaReference None (digest_bytes (implementation_bytes [reference_file])) (MkCallable "reduce" "reference" "candidate")
    (MkCorpus "corpus-1" [MkCase "valid-1" 1 1 7 Valid]) [reference_file].
(** The bundle of a build, with the digests of this worker. *)
Definition digested (file : CandidateBuildFile) : CandidateBuildFile :=
  MkBuildFile (bf_path file) (bf_kind file) (digest_bytes (as_bytes (bf_contents file))) (bf_size_bytes file) (bf_contents file).
Definition build_document : option CandidateBuildBundle :=
  match sample_build_bundle return option CandidateBuildBundle with
  | Ok b => Some (MkBuildBundle 1 (MkId "candidate-1" eq_refl) (MkId "task-1" eq_refl) (bb_manifest_digest b)
      (bb_source_gate_receipt_digest b) (bb_migration_spec_digest b) (bb_generation_strategy b) (bb_public_symbol b)
      (bb_target_architecture b) (digested <$> bb_files b))
  | Err _ => None
  end.
#[local] Instance sample_sandbox_text : SandboxText := {|
  cuda_bundle_from_slice := fun _ => Some (MkCudaBundle 1 VECTOR_ADD_FIXTURE_ID
    (digest_display (digest_bytes (String.list_byte_of_string source))) source);
  ascend_bundle_from_slice := fun _ => None;
  build_document_from_slice := fun _ => build_document;
  execution_document_from_slice := fun _ => Some reference_bundle;
  runner_config_to_vec := fun digest => Some (as_bytes (digest_display digest));
  RUNNER := [Byte.x01];
  ASCEND_RUNNER := [Byte.x02];
  BUILD_RUNNER := [Byte.x03];
  CORRECTNESS_RUNNER := [Byte.x04];
|}.
#[local] Instance sample_receipt : ReceiptJson := fun _ => false.
#[local] Instance sample_text : ExecutionText := {|
  cuda_receipt_to_vec := fun r => Some (String.list_byte_of_string (pr_outcome (cr_parts r)));
  ascend_receipt_to_vec := fun r => Some (String.list_byte_of_string (pr_outcome (ar_parts r)));
  fake_receipt_to_vec := fun r => Some (String.list_byte_of_string (fr_outcome r));
|}.

Definition environment : CudaEnvironmentFacts := MkEnvironmentFacts "sm_90" "driver" "toolkit".
Definition runtime : CudaExecutionRuntime :=
  MkRuntime "worker-1" "0" (CudaSupervisedFixture CudaSample.policy) environment None.
Definition sample_backends : WorkerBackends := MkWorkerBackends [CudaBackend runtime] true true.
Definition registry : Registry := match registry_of sample_backends with Ok r => r | Err _ => registry_default end.

Lemma sample_registered : registry_of sample_backends = Ok registry.
Proof. reflexivity. Qed.

(** The store holds the bundle of the assignment. *)
Definition bundle_bytes : bytes := replicate 7 Byte.x00.
Definition store : InMemoryArtifactStore := (memory_ingest bundle_bytes ingest_unverified (MkMemory ∅ 1000)).1.
Definition worker : System := MkSystem
  (MkHost journal_empty (MkEngine ∅ ∅) tt tt store ∅ ∅ 0%nat [] []) ∅.

Lemma sample_installed : installed worker.
Proof. done. Qed.

(** The attempt is admitted and its execution begins; the worker stops
    after the container was started, and is started again. *)
Definition steps (n : nat) : list Action := repeat (Step 0) n.
Definition actions : list Action :=
  [Other (OpAdmit CudaSample.assignment 0); Spawn 0 "attempt-1"] ++ steps 25 ++ [Crash; Tick; Spawn 0 "attempt-1"] ++ steps 60.
Definition final : System := host_run registry actions worker.

(** The result it ends with. *)
Definition final_result : StoredFinished :=
  match result_of "attempt-1" (h_journal (sy_host final)) with
  | Some f => f
  | None => MkFinished OutcomeSucceeded None 0 None None None EmptyString
  end.

Lemma no_other_ops op : op <> OpAdmit CudaSample.assignment 0 -> Other op ∉ actions.
Proof.
  intros Hne Hin. unfold actions in Hin. rewrite !elem_of_app in Hin.
  destruct Hin as [Hin|[Hin|[Hin|Hin]]]; try (apply list_elem_of_In, repeat_spec in Hin; discriminate).
  - rewrite !elem_of_cons in Hin. destruct Hin as [[= ->]|[Hin|Hin%elem_of_nil]]; [done|discriminate|done].
  - rewrite !elem_of_cons in Hin. destruct Hin as [Hin|[Hin|[Hin|Hin%elem_of_nil]]]; [discriminate..|done].
Qed.

(** Before the restart the container was running; it is not started again. *)
Lemma container_starts_once_witness :
  let before := host_run registry (take 27 actions) worker in
  engine_phase (container_name "attempt-1") (h_engine (sy_host before)) = Some ContainerRunning
  /\ (engine_starts (container_name "attempt-1") (h_engine (sy_host final)) <= 1)%nat.
Proof.
  split; [vm_compute; reflexivity|].
  exact (proj1 (container_starts_once sample_backends registry sample_registered actions worker "attempt-1" sample_installed)).
Defined.

Lemma results_are_stored_and_published_witness :
  sf_outcome final_result = OutcomeSucceeded
  /\ exists before after, h_log (sy_host final) = before ++ FinishedAttempt "attempt-1" final_result :: after
     /\ Published (terminal_reference_intents "attempt-1" final_result) ∈ before.
Proof.
  split; [vm_compute; reflexivity|].
  refine (proj2 (results_are_stored_and_published sample_backends registry sample_registered actions worker "attempt-1" final_result
    sample_installed _ _) eq_refl).
  - vm_compute. reflexivity.
  - intros t. apply no_other_ops. discriminate.
Defined.

Lemma devices_are_released_safely_witness :
  exists before after o l, h_log (sy_host final) = before ++ ReleasedLease "attempt-1" :: after
    /\ j_leases (h_journal (sy_host final)) !! "attempt-1" = Some l
    /\ (((Started (container_name "attempt-1") ∉ before) /\ ObservedDevice o ∈ before /\ obs_health o = DeviceReady)
        \/ (is_finished "attempt-1" (h_journal (sy_host final)) = true /\ seen_after_removal "attempt-1" o before
            /\ reusable o = true))
    /\ lr_device_id l = "0" /\ obs_device_id o = "0".
Proof.
  destruct (devices_are_released_safely sample_backends registry sample_registered actions worker "attempt-1" sample_installed)
    as (before & after & o & l & Hlog & Hl & Hwhy & Hdevice).
  - vm_compute. eexists _, _. split; reflexivity.
  - intros a t _. split; [apply no_other_ops; discriminate|]. intros device. apply no_other_ops. discriminate.
  - exists before, after, o, l. split; [exact Hlog|]. split; [exact Hl|]. split; [exact Hwhy|].
    apply Hdevice. vm_compute. reflexivity.
Defined.

(** A plan whose second step exceeds the limit. *)
Definition limited_plan : FakeExecutionPlan := successful [StepStdout [Byte.x01; Byte.x02]; StepStderr (replicate 5000 Byte.x03)].
Lemma fake_outputs_follow_the_plan_witness :
  let r := (run_prog (execute_plan "worker-1" limited_plan (executor_input CudaSample.assignment)) (sy_host worker)).2 in
  byte_len (er_stdout r) = 2 /\ byte_len (er_stdout r) + byte_len (er_stderr r) <= 4096.
Proof.
  split; [vm_compute; reflexivity|].
  apply (fake_outputs_follow_the_plan "worker-1" limited_plan (executor_input CudaSample.assignment) (sy_host worker)).
  vm_compute. reflexivity.
Defined.

Definition runner_path : string := "/run_fixture.py".
Lemma torn_sandbox_is_refused_witness :
  let torn := (perform (CreateNew runner_path) (sy_host worker)).1 in
  run_prog (write_once runner_path RUNNER) torn = (torn, Err CudaBundle).
Proof. apply (torn_sandbox_is_refused runner_path RUNNER (sy_host worker)); [discriminate|reflexivity|discriminate|reflexivity]. Defined.

(** A correctness run of the reference. *)
Definition correctness_policy : ReductionCorrectnessPolicy :=
  MkCorrectness (BackendCuda "0") CudaSample.digest OCI_IMAGE_CONFIG_MEDIA_TYPE "alloyport:local" CudaSample.digest "/srv"
    (MkAscendCeilings 4000 4000 1073741824 1073741824 64 65536) CudaSample.digest.
Definition correctness_assignment : AssignmentContract :=
  let a := CudaSample.assignment in
  MkAssignment (ac_assignment_id a) (ac_attempt_id a) 1 "key" (ac_task_id a) (ac_candidate_id a)
    (MkExecution CudaCorrectness ["reduction-correctness-v1"] "." [] 1000
       (MkArtifactDescriptor CudaSample.digest 7 REDUCTION_EXECUTION_BUNDLE_MEDIA_TYPE)
       (MkArtifactDescriptor CudaSample.digest 9 OCI_IMAGE_CONFIG_MEDIA_TYPE) (Some CudaSample.resources))
    [CUDA_REDUCTION_CORRECTNESS_FEATURE].
Definition materialized := run_prog (correctness_materialize_bundle correctness_policy correctness_assignment) (sy_host worker).
Definition made : CorrectnessSandbox :=
  match materialized.2 with Ok sandbox => sandbox | Err _ => MkCorrectnessSandbox EmptyString CudaSample.digest end.

Lemma materialization_succeeds : materialized.2 = Ok made.
Proof. vm_compute. reflexivity. Qed.

Lemma correctness_sandbox_is_exact_witness :
  h_files materialized.1 !! ["srv"; "attempt-1"; "input"; "kernel.cu"] = Some (Regular (as_bytes source))
  /\ exists parsed content config, eb_role parsed = CudaReference
     /\ holds_exactly "/srv/attempt-1" (correctness_files parsed content config) (h_files materialized.1).
Proof.
  split; [vm_compute; reflexivity|].
  destruct (correctness_sandbox_is_exact correctness_policy correctness_assignment made (sy_host worker) materialized.1)
    as (content & parsed & config & _ & _ & _ & Hrole & _ & _ & _ & _ & Hexact & _).
  - reflexivity.
  - intros key entry Hentry. discriminate Hentry.
  - exact (eq_trans (surjective_pairing materialized) (f_equal (pair materialized.1) materialization_succeeds)).
  - exists parsed, content, config. split; [exact Hrole|exact Hexact].
Defined.

(** A build. *)
Definition build_policy : AscendBuildPolicy :=
  MkBuildPolicy CudaSample.digest OCI_IMAGE_CONFIG_MEDIA_TYPE "alloyport:local" CudaSample.digest
    (MkAccelerator "0" "Ascend910B" "serial" "firmware") (required_nodes "0") DRIVER_PATH "/srv/builds"
    (MkAscendCeilings 4000 4000 1073741824 1073741824 64 65536) (MkAscendFacts "Ascend910B" "cann" "driver" "firmware").
Definition build_assignment : AssignmentContract :=
  let a := CudaSample.assignment in
  MkAssignment (ac_assignment_id a) (ac_attempt_id a) 1 "key" (ac_task_id a) (ac_candidate_id a)
    (MkExecution AscendBuild ["build-v1"] "." [] 1000
       (MkArtifactDescriptor CudaSample.digest 7 ASCEND_BUILD_BUNDLE_MEDIA_TYPE)
       (MkArtifactDescriptor CudaSample.digest 9 OCI_IMAGE_CONFIG_MEDIA_TYPE)
       (Some (MkResources 1000 536870912 268435456 16 4096 0 NetworkDisabled)))
    [ASCEND_BUILD_FEATURE].
Definition built := run_prog (build_materialize_bundle build_policy build_assignment) (sy_host worker).
Definition build_made : AscendBuildSandbox :=
  match built.2 return AscendBuildSandbox with Ok sandbox => sandbox | Err _ => MkBuildSandbox EmptyString CudaSample.digest end.

Lemma build_succeeds : built.2 = Ok build_made.
Proof. vm_compute. reflexivity. Qed.

Lemma build_directory : bsb_directory build_made = "/srv/builds/attempt-1".
Proof. vm_compute. reflexivity. Qed.

Lemma build_sandbox_is_exact_witness :
  bsb_directory build_made = "/srv/builds/attempt-1"
  /\ exists parsed, bb_target_architecture parsed = "Ascend910B"
     /\ holds_exactly "/srv/builds/attempt-1" (build_files parsed) (h_files built.1).
Proof.
  split; [exact build_directory|].
  destruct (build_sandbox_is_exact build_policy build_assignment build_made (sy_host worker) built.1)
    as (content & document & parsed & _ & _ & _ & _ & _ & _ & Htarget & _ & Hexact & _).
  - reflexivity.
  - intros key entry Hentry. discriminate Hentry.
  - exact (eq_trans (surjective_pairing built) (f_equal (pair built.1) build_succeeds)).
  - exists parsed. rewrite build_directory in Hexact. split; [exact Htarget|exact Hexact].
Defined.

End HostSample.
