(* ===== verification/WorkerLink.v ===== *)
(** * What a session puts on the wire

    Every handler of a control session keeps the link between the journal
    and the wire: a delivery row of the connection names a frame that was
    sent, under its number, with the message the row is about, and nothing
    but an acknowledgement takes a message out of the outbox. *)

From stdpp Require Import base strings pretty gmap sets sorting list.
From S2P Require Import Prelude Text Digest Identity Vocabulary WorkerJournal Wire WorkerSession WorkerUpdates.

Local Open Scope N_scope.

(** ** Mail *)

(** The messages stay and the deliveries are as before. *)
Definition keeps_mail (j j' : Journal) : Prop := keeps_outbox j j' /\ j_deliveries j' = j_deliveries j.

#[export] Instance keeps_mail_preorder : PreOrder keeps_mail.
Proof.
  split; [intros j; split; [by intros id row|done]|]. intros a b c [H1 E1] [H2 E2]. split; [|congruence]. intros id row H. by apply H2, H1.
Qed.

Lemma enqueue_mail m t j o j' : enqueue_outbox m t j = Ok (o, j') -> keeps_mail j j'.
Proof. intros H. split; [by eapply enqueue_keeps|]. by apply enqueue_outbox_Ok in H as [(row & _ & -> & _)|(_ & _ & _ & ->)]. Qed.

Lemma admit_mail a t j o j' : journal_admit a t j = Ok (o, j') -> keeps_mail j j'.
Proof.
  intros H. split; [by eapply admit_keeps|]. unfold journal_admit in H.
  apply result_bind_Ok in H as ([o1 j1] & Hx & ([o2 j2] & [_ Hq]%enqueue_mail & [= <- <-])%result_bind_Ok).
  rewrite Hq. destruct (j_attempts j !! _).
  - by apply guard_bind_Ok in Hx as [_ [= <- <-]].
  - by apply result_bind_Ok in Hx as (t1 & _ & [= <- <-]).
Qed.

Lemma mark_running_mail key t j u j' : mark_running key t j = Ok (u, j') -> keeps_mail j j'.
Proof.
  intros H. split; [by eapply mark_running_keeps|]. unfold mark_running in H.
  apply result_bind_Ok in H as (row & _ & H). apply result_bind_Ok in H as (j1 & Hx & H).
  apply result_bind_Ok in H as (ids & _ & H). apply result_bind_Ok in H as ([o j2] & [_ Hq]%enqueue_mail & [= _ <-]).
  rewrite Hq. destruct (la_phase (row_record row)); [|by injection Hx as <-|done].
  by apply result_bind_Ok in Hx as (t1 & _ & [= <-]).
Qed.

Lemma mark_finished_mail key f t j u j' : mark_finished key f t j = Ok (u, j') -> keeps_mail j j'.
Proof.
  intros H. split; [by eapply mark_finished_keeps|]. unfold mark_finished in H.
  apply result_bind_Ok in H as (row & _ & H). apply result_bind_Ok in H as (j1 & Hx & H).
  apply result_bind_Ok in H as (ids & _ & H). apply result_bind_Ok in H as ([o j2] & [_ Hq]%enqueue_mail & [= _ <-]).
  rewrite Hq. destruct (la_phase (row_record row)).
  - by apply result_bind_Ok in Hx as (t1 & _ & [= <-]).
  - by apply result_bind_Ok in Hx as (t1 & _ & [= <-]).
  - destruct (la_finished _); [|done]. by apply guard_bind_Ok in Hx as [_ [= <-]].
Qed.

Lemma enqueue_lifecycle_mail p t j id j' : enqueue_lifecycle p t j = Ok (id, j') -> keeps_mail j j'.
Proof.
  unfold enqueue_lifecycle. destruct (lifecycle_identity p).
  intros ([o j2] & Hq & [= _ <-])%result_bind_Ok. by apply enqueue_mail in Hq.
Qed.

(** ** Links *)

(** The frame of the session with a number. *)
Definition sent_frame (s : Session) (k : N) : option WorkerToServer := ss_outbound s !! (N.to_nat k - 1)%nat.

Record link_ok (ws : WkState) : Prop := {
  ln_open : ss_open ws.2 = true;
  ln_hello : (1 <= length (ss_outbound ws.2))%nat;
  ln_next : ss_next_worker_sequence ws.2 = N.of_nat (length (ss_outbound ws.2)) + 1;
  ln_numbers : forall i f, ss_outbound ws.2 !! i = Some f -> wm_sequence f = N.of_nat i + 1;
  ln_mail : forall k d, j_deliveries (wk_journal ws.1) !! (ss_connection_id ws.2, k) = Some d ->
    2 <= k /\ exists f row, sent_frame ws.2 k = Some f /\ j_outbox (wk_journal ws.1) !! dl_message_id d = Some row
    /\ wm_message f = Some (outbox_to_wire (ob_payload row));
}.

(** The session goes on: the link is kept, frames are only added, messages
    only stay. *)
Record continues_to (ws ws' : WkState) : Prop := {
  cn_link : link_ok ws';
  cn_connection : ss_connection_id ws'.2 = ss_connection_id ws.2;
  cn_outbound : ss_outbound ws.2 `prefix_of` ss_outbound ws'.2;
  cn_outbox : keeps_outbox (wk_journal ws.1) (wk_journal ws'.1);
  cn_worker : wk_hello ws'.1 = wk_hello ws.1;
}.

Definition linked (ws ws' : WkState) : Prop := link_ok ws -> continues_to ws ws'.

#[export] Instance linked_preorder : PreOrder linked.
Proof.
  split; [intros ws H; split; [done|done|by reflexivity|by intros id row|done]|]. intros a b c Hab Hbc Ha. destruct (Hab Ha) as [L C O K W].
  destruct (Hbc L) as [L' C' O' K' W']. split; [done|congruence|by etransitivity| |congruence].
  intros id row H. by apply K', K.
Qed.

Class Linked {T} (m : Wkm T) : Prop := linked_step ws : linked ws (m ws).1.

#[export] Instance linked_ret {T} (x : T) : Linked (mret x).
Proof. intros ws. by reflexivity. Qed.
#[export] Instance linked_lift {T} (r : result WError T) : Linked (wk_lift r).
Proof. intros ws. by reflexivity. Qed.
#[export] Instance linked_get : Linked wk_get.
Proof. intros ws. by reflexivity. Qed.
Lemma linked_bind {T U} (m : Wkm T) (f : T -> Wkm U) : Linked m -> (forall x, Linked (f x)) -> Linked (m ≫= f).
Proof.
  intros Hm Hf ws. unfold mbind, wkm_bind. specialize (Hm ws). destruct (m ws) as [ws' [x|e]]; [|done].
  etransitivity; [exact Hm|apply Hf].
Qed.

Ltac walk_link :=
  repeat first
    [ exact _ | assumption | simple apply linked_bind; [|intros ?]
    | lazymatch goal with |- Linked (match ?x with _ => _ end) => destruct x end ].

(** A change of the journal that keeps the mail. *)
Lemma continues_mail ws w : link_ok ws -> wk_hello w = wk_hello ws.1 -> keeps_mail (wk_journal ws.1) (wk_journal w) ->
  continues_to ws (w, ws.2).
Proof.
  intros [H1 H2 H3 H4 H5] Hw [Hk Hd]. split; cbn; try done. split; cbn; try done. intros k d. rewrite Hd. intros Hkd.
  destruct (H5 _ _ Hkd) as (Hk2 & f & row & Hf & Hr & Hm). split; [done|]. exists f, row. split; [done|]. split; [by apply Hk|done].
Qed.

(** Handlers are found by name. *)
#[global] Typeclasses Opaque journal_admit mark_running mark_finished enqueue_lifecycle on_journal local_attempt
  send_pending_outbox send_ephemeral ensure_execution wk_admit admission replay_phase handle_assignment handle_cancel
  handle_server_message handle_execution_update handle_execution_receive send_heartbeat cancel_token wk_lift wk_get.

Section links.
Context `{WorkerClock}.

Lemma on_journal_linked {T} (t : N -> Txn T) : (forall now j x j', t now j = Ok (x, j') -> keeps_mail j j') -> Linked (on_journal t).
Proof.
  intros Ht [w s] Hl. unfold on_journal. destruct (t _ _) as [[x j']|e] eqn:E; cbn.
  - by apply (continues_mail (w, s)); [| |eapply Ht].
  - by apply (continues_mail (w, s)).
Qed.

#[export] Instance admit_linked x : Linked (on_journal (journal_admit x)).
Proof. apply on_journal_linked. intros now j o j'. apply admit_mail. Qed.
#[export] Instance running_linked k : Linked (on_journal (mark_running k)).
Proof. apply on_journal_linked. intros now j o j'. apply mark_running_mail. Qed.
#[export] Instance finished_linked k f : Linked (on_journal (mark_finished k f)).
Proof. apply on_journal_linked. intros now j o j'. apply mark_finished_mail. Qed.
#[export] Instance lifecycle_linked p : Linked (on_journal (enqueue_lifecycle p)).
Proof. apply on_journal_linked. intros now j o j'. apply enqueue_lifecycle_mail. Qed.
#[export] Instance local_attempt_linked k : Linked (local_attempt k).
Proof. intros [w s]. by reflexivity. Qed.

(** Frames outside the outbox. *)
Lemma put_continues ws frames s : link_ok ws -> ss_outbound s = ss_outbound ws.2 ++ frames ->
  ss_connection_id s = ss_connection_id ws.2 -> ss_open s = true ->
  ss_next_worker_sequence s = N.of_nat (length (ss_outbound s)) + 1 ->
  (forall i f, frames !! i = Some f -> wm_sequence f = N.of_nat (length (ss_outbound ws.2) + i) + 1) ->
  continues_to ws (ws.1, s).
Proof.
  intros [H1 H2 H3 H4 H5] Ho Hc Hop Hn Hf. split; cbn; [|done|rewrite Ho; by apply prefix_app_r|by intros id row|done].
  split; cbn; [done|rewrite Ho, length_app; lia|done| |].
  - intros i f. rewrite Ho. intros [Hi|[Hle Hi]]%lookup_app_Some; [by apply H4|]. rewrite (Hf _ _ Hi). f_equal. lia.
  - intros k d. rewrite Hc. intros Hk. destruct (H5 _ _ Hk) as (Hk2 & f & row & Hfr & Hr & Hm). split; [done|].
    exists f, row. split; [|done]. unfold sent_frame in *. rewrite Ho. by apply lookup_app_l_Some.
Qed.

#[export] Instance send_ephemeral_linked a m : Linked (send_ephemeral a m).
Proof.
  intros [w s] Hl. unfold send_ephemeral, mbind, wkm_bind, wk_get, put_frame. cbn [snd].
  pose proof (ln_open _ Hl) as Ho. pose proof (ln_next _ Hl) as Hn. cbn in Ho, Hn. rewrite Ho.
  apply (put_continues (w, s) [MkWorkerFrame (ss_next_worker_sequence s) a EmptyString (Some m)]); try done.
  - cbn. rewrite length_app. cbn. lia.
  - intros i f [-> <-]%list_lookup_singleton_Some. cbn. lia.
Qed.

(** One entry of the outbox, recorded and sent. *)
Definition entry_pending (j : Journal) (entry : WorkerOutboxMessage) : Prop :=
  exists row, j_outbox j !! om_message_id entry = Some row /\ ob_payload row = om_payload entry.

Lemma entry_linked ws a entry : link_ok ws -> entry_pending (wk_journal ws.1) entry ->
  let m := (_ ← on_journal (fun now => record_outbox_delivery (ss_connection_id ws.2) (ss_next_worker_sequence ws.2)
                               (om_message_id entry) now);
            put_frame a (om_message_id entry) (outbox_to_wire (om_payload entry))
              ({[om_message_id entry]} ∪ ss_delivered ws.2)) in
  continues_to ws (m ws).1 /\ j_outbox (wk_journal (m ws).1.1) = j_outbox (wk_journal ws.1).
Proof.
  destruct ws as [w s]. intros Hl (row & Hrow & Hp) m. pose proof Hl as [H1 H2 H3 H4 H5]. cbn in *.
  unfold m, mbind, wkm_bind, on_journal, record_outbox_delivery.
  destruct (to_i64 (ss_next_worker_sequence s)) as [k|] eqn:Ek; [|split; [by apply (continues_mail (w, s))|done]].
  apply to_i64_Ok in Ek as [_ ->]. cbn [mbind result_bind].
  destruct (to_i64 _) as [t|]; [|split; [by apply (continues_mail (w, s))|done]]. cbn [mbind result_bind].
  destruct (j_deliveries (wk_journal w) !! _) eqn:Ed; [split; [by apply (continues_mail (w, s))|done]|].
  rewrite Hrow. unfold put_frame. rewrite H1. cbn. split; [|done].
  split; cbn; [|done|by apply prefix_app_r|by intros id r|done]. split; cbn; [done|rewrite length_app; lia|rewrite length_app; cbn; lia| |].
  - intros i f [Hi|[Hle [Hi <-]%list_lookup_singleton_Some]]%lookup_app_Some; [by apply H4|]. cbn. lia.
  - intros k d. rewrite lookup_insert_Some. intros [[[= <-] <-]|[Hne Hk]].
    + cbn. split; [lia|]. unfold sent_frame. cbn. exists (MkWorkerFrame (ss_next_worker_sequence s) a (om_message_id entry) (Some (outbox_to_wire (om_payload entry)))), row.
      split; [|split; [done|by rewrite Hp]]. rewrite H3. replace (N.to_nat _ - 1)%nat with (length (ss_outbound s)) by lia.
      by apply list_lookup_middle.
    + destruct (H5 _ _ Hk) as (Hk2 & f & row' & Hf & Hr & Hm). split; [done|]. exists f, row'. split; [|done].
      unfold sent_frame in *. cbn. by apply lookup_app_l_Some.
Qed.

Lemma send_entries_linked a l ws : link_ok ws -> Forall (entry_pending (wk_journal ws.1)) l ->
  continues_to ws (send_entries a l ws).1.
Proof.
  revert ws. induction l as [|entry l IH]; intros ws Hl Hp; [by apply linked_step|]. apply Forall_cons in Hp as [He Hp].
  cbn [send_entries]. unfold mbind at 1, wkm_bind at 1, wk_get at 1. case_bool_decide; [by apply IH|].
  destruct (entry_linked ws a entry Hl He) as [Hc Eo]. unfold mbind, wkm_bind in Hc, Eo |- *.
  destruct (on_journal _ ws) as [ws1 [u|e]]; [|done]. destruct (put_frame _ _ _ _ ws1) as [ws2 [v|e]]; [|done].
  cbn in Hc, Eo. destruct (Hc) as [L C O K W].
  assert (linked ws (send_entries a l ws2).1) as Hall; [|by apply Hall].
  etransitivity; [intros _; exact Hc|]. intros _. apply IH; [done|]. eapply Forall_impl; [exact Hp|].
  intros x (row & Hr & Hx). exists row. by rewrite Eo.
Qed.

(** The messages that are pending. *)
Lemma pending_entries j : Forall (entry_pending j) (pending_outbox j).
Proof.
  apply Forall_forall. unfold pending_outbox. intros e ([id row] & -> & He)%list_elem_of_fmap.
  rewrite merge_sort_Permutation in He. apply elem_of_map_to_list in He. by exists row.
Qed.

#[export] Instance send_pending_linked a : Linked (send_pending_outbox a).
Proof. intros ws Hl. unfold send_pending_outbox, mbind, wkm_bind, wk_get. apply send_entries_linked; [done|apply pending_entries]. Qed.

#[export] Instance ensure_execution_linked k : Linked (ensure_execution k).
Proof.
  intros [w s] Hl. unfold ensure_execution. repeat case_match; by apply (continues_mail (w, s)).
Qed.

#[export] Instance wk_admit_linked x : Linked (wk_admit x).
Proof.
  intros [w s]. unfold wk_admit. repeat case_match; first [by reflexivity|by apply admit_linked].
Qed.

#[export] Instance admission_linked x : Linked (admission x).
Proof.
  intros [w s]. unfold admission. destruct (validate_execution_support w x) as [u|e].
  - pose proof (wk_admit_linked x (w, s)) as Ha. destruct (wk_admit x (w, s)) as [ws1 [o|e]]; [done|]. cbn in Ha.
    destruct (rejection_of e) as [[reason detail]|]; [|done]. etransitivity; [exact Ha|]. apply linked_bind; [exact _|intros ?; exact _].
  - destruct (rejection_of e) as [[reason detail]|]; [|by reflexivity]. apply linked_bind; [exact _|intros ?; exact _].
Qed.

#[export] Instance replay_phase_linked k : Linked (replay_phase k).
Proof. unfold replay_phase. walk_link. Qed.

#[export] Instance handle_assignment_linked x a : Linked (handle_assignment x a).
Proof. unfold handle_assignment. walk_link. Qed.

#[export] Instance cancel_token_linked k : Linked (cancel_token k).
Proof. intros [w s] Hl. by apply (continues_mail (w, s)). Qed.

#[export] Instance handle_cancel_linked k r a : Linked (handle_cancel k r a).
Proof. unfold handle_cancel. walk_link. Qed.

#[export] Instance handle_server_message_linked m a : Linked (handle_server_message m a).
Proof. unfold handle_server_message. walk_link. Qed.

#[export] Instance handle_execution_update_linked u a : Linked (handle_execution_update u a).
Proof.
  unfold handle_execution_update. destruct u as [k [|chunk]|k b]; [walk_link| |walk_link].
  generalize (bounded_preview_chunks (xc_bytes chunk)). intros l. induction l as [|x l IH]; cbn; walk_link.
Qed.

#[export] Instance handle_execution_receive_linked r : Linked (handle_execution_receive r).
Proof. unfold handle_execution_receive. walk_link. Qed.

#[export] Instance send_heartbeat_linked p : Linked (send_heartbeat p).
Proof. unfold send_heartbeat. walk_link. Qed.

End links.
