(* ===== verification/ServerTheorems.v ===== *)
(** * What the server promises

    Properties of the worker-control service over any sequence of calls:
    the stores keep their invariants whatever the handlers do, an
    acknowledgement is backed by what is stored, and the outputs of a
    finished attempt stay readable.  What a worker receives is the subject
    of [Overlaps], where the handlers overlap. *)

From stdpp Require Import base strings pretty gmap sorting list.
From S2P Require Import Prelude Text Digest Identity Vocabulary Artifacts Uploads UploadLedger UploadTheorems RunEvents ControlPlane ControlTheorems Interactions Wire WorkerJournal WorkerSession Service Observation ServerSession Coordinator ServerCalls SessionInvariant SessionSteps SessionCalls.

Local Open Scope N_scope.

Section theorems.
Context {V A : Type} `{EqDecision V} `{ServiceClock} {Sha : Sha256} {Store : ArtifactStore A} {Laws : ArtifactStoreLaws A}
  {Retention : RetentionStore A} {Rlaws : RetentionLaws A} {Atomic : RetentionAtomic A}.
Implicit Types (s : Service V A).

(** ** Stores *)

(** The attached stores are consistent. *)
Definition stores_ok s : Prop :=
  match sv_metadata s, sv_objects s with Some m, Some a => system_ok (m, a) | _, _ => True end.

Lemma carried_stores calls s s' m a :
  carried calls s s' -> sv_metadata s = Some m -> sv_objects s = Some a -> system_ok (m, a) ->
  exists m' a', sv_metadata s' = Some m' /\ sv_objects s' = Some a' /\ system_ok (m', a').
Proof.
  intros [_ _ Hst] Hm Ha Hok. destruct (Hst _ _ Hm Ha) as (m' & a' & ops & Hm' & Ha' & _ & Hs & E).
  exists m', a'. split; [done|]. split; [done|]. rewrite <-E. by apply run_uploads_system.
Qed.

(** C14 Whatever the workers, the clients and the upload service do, in any
    order and through restarts, the three stores of the server keep the
    invariants their repositories promise - attempts, leases and
    observations agree, every run is a sequence of accepted events and the
    artifact ledger is consistent with the object store - and between any
    two moments nothing is forgotten: attempts only advance, observations
    and events are only appended. *)
Theorem server_keeps_its_stores (m : UploadStore) (a : A) (c l : N) (max chunk : N) (q : UploadQuotas) (seed : N)
    (calls later : list ServerCall) :
  open_uploads max chunk q seed = Ok m -> Forall client_call (calls ++ later) ->
  let s := run_calls calls (service_new (V:=V) (Some (m, a)) c l) in
  let s' := run_calls (calls ++ later) (service_new (Some (m, a)) c l) in
  (CInv (sv_control s) /\ control_after (sv_control s) (sv_control s'))
  /\ (exists h h', represents (sv_log s) h /\ represents (sv_log s') h'
        /\ forall r, accepted r h `prefix_of` accepted r h')
  /\ output_ok (sv_log s)
  /\ exists m1 a1, sv_metadata s = Some m1 /\ sv_objects s = Some a1 /\ system_ok (m1, a1).
Proof.
  intros Hm%(open_uploads_system _ _ _ _ _ a) [Hc Hl]%Forall_app s s'. unfold s'. rewrite server_calls_app. fold s.
  pose proof (run_calls_carried calls (service_new (V:=V) (Some (m, a)) c l) Hc) as Hcar. fold s in Hcar.
  pose proof (run_calls_carried later s Hl) as [[ops' Ek'] [iops' Ei'] _].
  destruct (carried_stores _ _ _ m a Hcar eq_refl eq_refl Hm) as (m1 & a1 & Hm1 & Ha1 & Hok).
  destruct Hcar as [[ops Ek] [iops Ei] _]. cbn in Ek, Ei.
  split; [rewrite Ek', Ek; split; [apply control_reachable|apply run_controls_keeps, control_reachable]|].
  destruct (interactions_reachable (V:=V) iops) as [h Hh]. rewrite <-Ei in Hh.
  destruct (run_interactions_extend iops' _ _ Hh) as (h' & Hh' & Hp). rewrite <-Ei' in Hh'.
  split; [by exists h, h'|]. split; [|by exists m1, a1].
  rewrite Ei. apply run_interactions_outputs; [apply output_ok_empty|]. by exists ∅; apply represents_empty.
Qed.

(** ** Streams *)

(** The last acknowledgement of a stream of frames before position [i]. *)
Definition acknowledged_before (frames : list ServerToWorker) (i : nat) : N :=
  match i with O => 0 | S i => default 0 (sm_acknowledges_worker_through <$> frames !! i) end.

Lemma stream_accepted G c last frames i m sent : stream_ok G c last frames -> frames !! i = Some m ->
  sm_acknowledges_worker_through m <= sent ->
  validate_server_frame m (N.of_nat i) (acknowledged_before frames i) sent true = Ok tt.
Proof.
  intros [H1 H2 H3 H4 H5] Hm Hsent. unfold validate_server_frame. rewrite (H1 _ _ Hm), N.eqb_refl. cbn [negb guard_err].
  assert (acknowledged_before frames i <= sm_acknowledges_worker_through m) as Ha.
  { destruct i as [|i]; cbn; [lia|]. destruct (frames !! i) as [m'|] eqn:Hm'; cbn; [|lia]. by apply (H2 i (S i)); [lia|..]. }
  apply N.ltb_ge in Ha. rewrite Ha. apply N.ltb_ge in Hsent. rewrite Hsent. cbn.
  pose proof (H4 m ltac:(by eapply list_elem_of_lookup_2)) as Hn. unfold well_named in Hn.
  destruct (expected_server_message_id (sm_message m)); cbn in Hn; by rewrite Hn, String.eqb_refl.
Qed.

(** C15 The server acknowledges a frame of a worker only when it has stored
    what the frame reports: for every frame number an acknowledgement on a
    connection covers, after the hello, a frame with that number was
    ingested on that connection, and if it was a report on an attempt the
    observation is in the repository, from this worker, now and for ever. *)
Theorem acknowledged_frames_were_observed (stores : option (UploadStore * A)) (cs ls : N)
    (calls : list ServerCall) (c : string) (ch : Channel) (frame : ServerToWorker) (j : N) :
  let s0 := service_new (V:=V) stores cs ls in
  N.of_nat (length calls) < 2 ^ 64 ->
  sv_channels (run_calls calls s0) !! c = Some ch -> frame ∈ frames_of ch ->
  2 <= j <= sm_acknowledges_worker_through frame ->
  exists wid f, (wid, c, f) ∈ calls_ingest calls s0 /\ wm_sequence f = j
    /\ forall later, observed wid f (sv_control (run_calls (calls ++ later) s0)).
Proof.
  intros s0 Hlt Hch Hf Hj. destruct (run_calls_ok (V:=V) [] 0 calls _ Hlt (service_new_ok stores cs ls)) as (n & c0 & Hs).
  destruct (se_streams _ _ _ _ _ Hs _ _ Hch) as [last Hst]. destruct (st_ingested _ _ _ _ Hst _ Hf j Hj) as (wid & f & Hin & Hseq).
  exists wid, f. split; [done|]. split; [done|]. intros later. rewrite server_calls_app.
  destruct (run_calls_control later (run_calls calls s0)) as [ops ->].
  eapply observed_after; [apply run_controls_keeps, Hs|by eapply Hs].
Qed.

(** ** Outputs *)

(** The worker holds an active reference, under a key, to an artifact that
    can be opened. *)
Definition kept (wid key : string) (digest : Sha256Digest) s : Prop :=
  exists m a ref reader, sv_metadata s = Some m /\ sv_objects s = Some a /\ system_ok (m, a)
    /\ protects wid key ref reader (m, a) /\ af_digest ref = digest.

(** As long as nobody revokes it. *)
Definition never_revoked (wid key : string) (call : ServerCall) : Prop := forall t, call <> CallUpload (UpRevoke wid key t).

Lemma kept_carried calls wid key digest s s' :
  Forall (never_revoked wid key) calls -> carried calls s s' -> kept wid key digest s -> kept wid key digest s'.
Proof.
  intros Hn [_ _ Hst] (m & a & ref & reader & Hm & Ha & Hok & Hp & Hd).
  destruct (Hst _ _ Hm Ha) as (m' & a' & ops & Hm' & Ha' & Hops & Hs & E). exists m', a', ref, reader.
  rewrite <-E. do 2 (split; [done|]). split; [by apply run_uploads_system|]. split; [|done].
  apply run_uploads_protects; [done|]. eapply Forall_impl; [exact Hops|]. intros op Ho t ->. destruct Ho as [[]|Ho].
  by apply (proj1 (Forall_forall _ _) Hn _ Ho t).
Qed.

Lemma ports_carried s s' : ports s s' -> carried [] s s'.
Proof.
  intros [Hc Hl Ho Hm]. split; [done..|]. intros m a Em Ea. rewrite Em in Hm.
  destruct (sv_metadata s') as [m'|] eqn:Em'; [|done]. destruct (Hm a) as (ops & Hh & Hs & E); [by left|].
  exists m', a, ops. split; [done|]. split; [congruence|]. split; [|done]. eapply Forall_impl; [exact Hh|]. by left.
Qed.

Lemma kept_within {E T} (m : Svc V A E T) wid key digest s s' r : Within ports m -> m s = (s', r) ->
  kept wid key digest s -> kept wid key digest s'.
Proof.
  intros Hm E0. apply (kept_carried []); [done|]. apply ports_carried. pose proof (within (R:=ports) (m:=m) s) as Hp.
  by rewrite E0 in Hp.
Qed.

(** A granted reference is active, for the artifact that was asked for. *)
Lemma granted_active q r u x u' : grant_reference q r u = Ok (x, u') -> ledger_ok u ->
  ut_references u' !! (gr_owner_id r, gr_reference_key r) = Some x /\ active x = true /\ af_digest x = gr_digest r.
Proof.
  intros Hg Hl. pose proof Hg as Hg'. unfold grant_reference in Hg. apply result_bind_Ok in Hg as (v & Hv & Hg).
  destruct (ut_references u !! _) as [e|] eqn:Ek.
  - destruct (reference_matches_grant e r) eqn:Em; [|done]. injection Hg as -> ->. split; [done|].
    unfold reference_matches_grant in Em. repeat (apply andb_true_iff in Em as [Em ?]). split; [done|]. by apply bool_decide_eq_true in Em.
  - apply grant_reference_Ok in Hg' as [->|Hg']; [|cbn zeta in Hg'].
    + exfalso. clear Hv. apply guard_bind_Ok in Hg as [_ Hg]. apply result_bind_Ok in Hg as (size & _ & Hg).
      apply result_bind_Ok in Hg as (w & _ & Hg). apply result_bind_Ok in Hg as (y & _ & Hg).
      assert (ut_references u !! (gr_owner_id r, gr_reference_key r) = Some y) as Hy; [|congruence].
      assert (exists o, ut_references u = <[(gr_owner_id r, gr_reference_key r) := y]> o) as [o ->]; [|apply lookup_insert_eq].
      exists (ut_references u). destruct (negb _) in Hg; cbn in Hg; [case_match; [done|]|]; injection Hg as _ Hu; by rewrite <-Hu at 1.
    + destruct Hg' as (_ & _ & _ & _ & Hd & Ha & _ & n & _ & Hu). split_and!; [|done..].
      destruct Hu as [[_ ->]|(_ & _ & _ & ->)]; apply lookup_insert_eq.
Qed.

Lemma grant_keeps r s s' x : stores_ok s -> is_Some (sv_objects s) -> grant_metadata r s = (s', Ok x) ->
  kept (gr_owner_id r) (gr_reference_key r) (gr_digest r) s' /\ stores_ok s' /\ sv_objects s' = sv_objects s.
Proof.
  intros Hok [a Ha] E. unfold stores_ok in Hok. rewrite Ha in Hok. unfold grant_metadata, on_metadata in E.
  destruct (sv_metadata s) as [m|] eqn:Em; [|done].
  pose proof (run_upload_system (UpGrant r) (m, a) Hok I) as Hok'. cbn [run_upload] in Hok'.
  destruct (transact (grant_reference (st_quotas m) r) m) as [m' y] eqn:Et. cbn in E. injection E as <- ->.
  cbn [fst] in Hok'. unfold transact in Et. destruct (grant_reference _ _ _) as [[z u]|e] eqn:Eg; [|done].
  injection Et as <- <-. pose proof (granted_active _ _ _ _ _ Eg (so_ledger _ _ Hok)) as (Hr & Hact & Hd).
  destruct (lk_active _ (so_ledger _ _ Hok') _ _ _ Hr Hact) as [k Hk].
  destruct (system_opens _ _ _ Hok' (lk_owner _ (so_ledger _ _ Hok') _ _ _ Hk)) as (reader & Hopen & _).
  split; [|split; [unfold stores_ok; cbn; by rewrite Ha|done]].
  exists (with_db m u), a, z, reader. cbn. rewrite Ha. split_and!; try done.
Qed.

Lemma validate_and_grant_kept wid now l s s' u : stores_ok s -> is_Some (sv_objects s) ->
  validate_and_grant wid now l s = (s', Ok u) ->
  forall artifact key kind purpose, (artifact, key, kind, purpose) ∈ l ->
  exists x digest, artifact = Some x /\ digest_from_str (wa_digest x) = Ok digest /\ kept wid key digest s'.
Proof.
  revert s. induction l as [|[[[artifact key] kind] purpose] l IH]; intros s Hok Hobj E; cbn in E; [by intros ? ? ? ? ?%elem_of_nil|].
  apply bind_inv in E as [(e & _ & ?)|(s1 & x & [-> Hx]%lift_inv & E)]; [done|].
  apply bind_inv in E as [(e & _ & ?)|(s1 & digest & [-> Hd]%lift_inv & E)]; [done|].
  apply bind_inv in E as [(e & _ & ?)|(s1 & up & [= <- _] & E)]; [done|].
  apply bind_inv in E as [(e & _ & ?)|(s1 & v & [-> _]%lift_inv & E)]; [done|].
  apply bind_inv in E as [(e & _ & ?)|(s1 & g & E1 & E)]; [done|]. apply map_err_inv in E1 as (r0 & E1 & Hr).
  symmetry in Hr. apply map_err_Ok in Hr as ->. destruct (grant_keeps _ _ _ _ Hok Hobj E1) as (Hk & Hok1 & Hobj1). cbn in Hk.
  intros artifact0 key0 kind0 purpose0 [[= -> -> -> ->]|Hin]%elem_of_cons.
  - symmetry in Hx, Hd. apply ok_or_Ok in Hx. apply map_err_Ok in Hd. exists x, digest. split; [done|]. split; [done|].
    by apply (kept_within _ _ _ _ _ _ _ (validate_and_grant_steps ports wid now l) E).
  - apply (IH s1 Hok1) with (kind := kind0) (purpose := purpose0); [by rewrite Hobj1|done|done].
Qed.

(** What is left of an ingestion keeps it. *)
Lemma observe_finished_kept wid finished now s s' d : stores_ok s -> is_Some (sv_objects s) -> is_Some (sv_metadata s) ->
  observe_finished wid finished now s = (s', Ok d) ->
  forall artifact key kind purpose, (artifact, key, kind, purpose) ∈ terminal_artifacts (wf_attempt_id finished) finished ->
  exists x digest, artifact = Some x /\ digest_from_str (wa_digest x) = Ok digest /\ kept wid key digest s'.
Proof.
  intros Hok Hobj [m Hm] E artifact key kind purpose Hin. unfold observe_finished in E.
  apply bind_inv in E as [(e & _ & ?)|(s1 & x & [= <- <-] & E)]; [done|]. rewrite Hm in E.
  apply bind_inv in E as [(e & _ & ?)|(s2 & v & E2 & E)]; [done|].
  destruct (validate_and_grant_kept _ _ _ _ _ _ Hok Hobj E2 _ _ _ _ Hin) as (x & digest & Hx & Hd & Hk).
  exists x, digest. split; [done|]. split; [done|]. refine (kept_within _ _ _ _ _ _ _ _ E Hk); walk.
Qed.

Lemma ports_stores s s' : ports s s' -> stores_ok s -> stores_ok s'.
Proof.
  intros Hp Hok. unfold stores_ok in *. destruct (sv_metadata s') as [m'|] eqn:Em'; [|done].
  destruct (sv_objects s') as [a'|] eqn:Ea'; [|done]. rewrite (pt_objects _ _ Hp) in Ea'. rewrite Ea' in Hok.
  pose proof (pt_metadata _ _ Hp) as Hm. rewrite Em' in Hm. destruct (sv_metadata s) as [m|]; [|done].
  destruct (Hm a') as (ops & _ & Hs & E); [by left|].
  pose proof (run_uploads_system ops _ Hok Hs) as Hok'. by rewrite E in Hok'.
Qed.

Lemma ports_attached s s' : ports s s' -> is_Some (sv_metadata s) -> is_Some (sv_metadata s').
Proof. intros Hp [m Hm]. pose proof (pt_metadata _ _ Hp) as H0. rewrite Hm in H0. destruct (sv_metadata s'); [by eexists|done]. Qed.

(** A terminal report that was ingested has its outputs kept. *)
Lemma ingest_kept wid c frame finished s s' durable :
  stores_ok s -> is_Some (sv_objects s) -> is_Some (sv_metadata s) ->
  wm_message frame = Some (WFinished finished) -> ingest wid c frame s = (s', Ok durable) ->
  forall artifact key kind purpose, (artifact, key, kind, purpose) ∈ terminal_artifacts (wf_attempt_id finished) finished ->
  exists x digest, artifact = Some x /\ digest_from_str (wa_digest x) = Ok digest /\ kept wid key digest s'.
Proof.
  intros Hok Hobj Hmeta Hmsg E artifact key kind purpose Hin. unfold ingest in E.
  apply bind_inv in E as [(e & _ & ?)|(s1 & x & E1 & E)]; [done|]. unfold ingest_check in E1. injection E1 as <- _.
  apply bind_inv in E as [(e & _ & ?)|(s2 & now & E2 & E)]; [done|].
  assert (ports s s2) as Hp by (pose proof (within (R:=ports) (m:=now_unix_ms (E:=Code)) s) as Hp; by rewrite E2 in Hp).
  apply bind_inv in E as [(e & _ & ?)|(s3 & u & E3 & E)]; [done|]. rewrite Hmsg in E3. cbn [observe_message] in E3.
  apply ignore_inv in E3 as [d E3].
  destruct (observe_finished_kept wid finished now s2 s3 d) with (artifact := artifact) (key := key) (kind := kind) (purpose := purpose)
    as (y & digest & Hy & Hd & Hk); [by eapply ports_stores|by rewrite (pt_objects _ _ Hp)|by eapply ports_attached|done|done|].
  exists y, digest. split; [done|]. split; [done|]. assert (Within ports (ingest_record (V:=V) (A:=A) wid c frame)) as Hrec.
  { intros s0. unfold ingest_record. by repeat case_match; apply ports_local. }
  refine (kept_within _ _ _ _ _ _ _ _ E Hk); unfold ingest_persist; walk.
Qed.

(** C17 Once the server has ingested the terminal report of an attempt,
    its complete standard output, standard error and receipt stay readable
    for the worker that produced them: at any later time, whatever uploads,
    prunings, restarts and garbage collections happen, opening each of them
    gives bytes with the digest that was reported, until the reference
    itself is revoked. *)
Theorem finished_outputs_stay_readable (m : UploadStore) (a : A) (cs ls : N) (max chunk : N) (q : UploadQuotas) (seed : N)
    (calls later : list ServerCall) (wid c : string) (frame : WorkerToServer) (finished : WireFinished) (durable : bool)
    (artifact : option WireArtifact) (key : string) (kind : ArtifactReferenceKind) (purpose : string) :
  let s := run_calls calls (service_new (V:=V) (Some (m, a)) cs ls) in
  open_uploads max chunk q seed = Ok m -> Forall client_call (calls ++ later) ->
  wm_message frame = Some (WFinished finished) -> (ingest wid c frame s).2 = Ok durable ->
  (artifact, key, kind, purpose) ∈ terminal_artifacts (wf_attempt_id finished) finished ->
  Forall (never_revoked wid key) later ->
  exists x digest reader m' a', artifact = Some x /\ digest_from_str (wa_digest x) = Ok digest
    /\ sv_metadata (run_calls later (ingest wid c frame s).1) = Some m'
    /\ sv_objects (run_calls later (ingest wid c frame s).1) = Some a'
    /\ (open_referenced_artifact wid digest m' a').2 = Ok reader /\ digest_bytes (rd_source reader) = digest.
Proof.
  intros s Hm%(open_uploads_system _ _ _ _ _ a) [Hc Hl]%Forall_app Hmsg Hin Hart Hrev.
  pose proof (run_calls_carried calls (service_new (V:=V) (Some (m, a)) cs ls) Hc) as Hcar. fold s in Hcar.
  destruct (carried_stores _ _ _ m a Hcar eq_refl eq_refl Hm) as (m1 & a1 & Hm1 & Ha1 & Hok1).
  destruct (ingest wid c frame s) as [s1 r] eqn:E. cbn in Hin. subst r.
  destruct (ingest_kept wid c frame finished s s1 durable) with (artifact := artifact) (key := key) (kind := kind) (purpose := purpose)
    as (x & digest & Hx & Hd & Hk); [by unfold stores_ok; rewrite Hm1, Ha1|by rewrite Ha1|by rewrite Hm1|done..|].
  apply (kept_carried later wid key digest s1 (run_calls later s1)) in Hk; [|done|by apply run_calls_carried].
  destruct Hk as (m' & a' & ref & reader & Hm' & Ha' & Hok' & [Hr Hact Hopen] & Hdig). cbn [fst snd] in *. rewrite Hdig in Hopen.
  exists x, digest, reader, m', a'. do 4 (split; [done|]). split; [|by apply (open_Ok _ _ _ Hopen)].
  unfold open_referenced_artifact, can_read_artifact.
  destruct (lk_active _ (so_ledger _ _ Hok') _ _ _ Hr Hact) as [k Hk]. rewrite Hdig in Hk.
  rewrite bool_decide_true by (by eexists). by rewrite Hopen.
Qed.

(** ** Overlapping deliveries *)

(** Two frames for one connection that are sent in the other order than
    they were prepared in end the session of the worker, and nothing keeps
    the order, since the lock of the deliveries is released before the frame
    is sent: whatever the worker has received, it refuses the later one when
    it would have accepted the earlier one. *)
Lemma overtaking_frame_is_refused G n c0 wid k1 k2 s s1 s2 m1 m2 c ch last acknowledged sent :
  sessions_ok G n c0 [] s ->
  prepare_assignment wid k1 s = (s1, Ok (Some (c, m1))) -> prepare_assignment wid k2 s1 = (s2, Ok (Some (c, m2))) ->
  sv_channels s2 !! c = Some ch -> ch_open ch = true ->
  validate_server_frame m1 last acknowledged sent true = Ok tt ->
  validate_server_frame m2 last acknowledged sent true = Err Wk.Protocol.
Proof.
  intros Hs E1 E2 Hch Hopen Hv. apply (assignment_delivered G n c0 []) in E1 as [Hc1 [Hc Hs1]]; [|done|by left].
  apply (assignment_delivered G n c [m1]) in E2 as [_ [_ Hs2]]; [|done|right; congruence].
  destruct (se_owner _ _ _ _ _ Hs2) as [|(wid' & w & Hw & Hwc)]; [done|].
  destruct (se_records _ _ _ _ _ Hs2 _ _ Hw) as (ch' & Hch' & Hr). rewrite Hwc in Hch', Hr.
  assert (ch' = ch) as -> by congruence. rewrite Hopen in Hr. unfold pending_for in Hr. rewrite decide_True in Hr by done.
  destruct Hr as [_ [Hnum _ _ _ _] _ _].
  pose proof (Hnum (length (frames_of ch)) m1) as Hn1. rewrite lookup_app_r, Nat.sub_diag in Hn1 by lia. specialize (Hn1 eq_refl).
  pose proof (Hnum (S (length (frames_of ch))) m2) as Hn2. rewrite lookup_app_r in Hn2 by lia.
  replace (S _ - _)%nat with 1%nat in Hn2 by lia. specialize (Hn2 eq_refl).
  unfold validate_server_frame in *. apply guard_bind_Ok in Hv as [Hv%negb_false_iff%N.eqb_eq _].
  assert ((sm_sequence m2 =? last + 1) = false) as -> by (apply N.eqb_neq; lia). done.
Qed.

(** ** Cancellation before the start is reported *)

(** C40 An attempt that was cancelled before the server heard of its start
    cuts every session of its worker: the report of the start, which the
    worker keeps in its outbox until it is acknowledged, is refused as an
    invalid transition, the stream ends and nothing has changed - the
    repository and the cursors are as before, so the report is not
    acknowledged and the next session meets it again. *)
Theorem start_after_cancel_cuts_the_session s wid c frame assignment_id attempt_id r durable :
  wm_message frame = Some (WStarted assignment_id attempt_id) ->
  c_assignments (sv_control s) !! attempt_id = Some r -> ar_state r = State.CancelRequested ->
  ar_worker_id r = wid -> ar_assignment_id r = assignment_id ->
  trim_is_empty assignment_id = false -> trim_is_empty attempt_id = false ->
  (ingest_check wid c frame s).2 = Ok durable ->
  let '(s', result) := ingest wid c frame s in
  result = Err CodeFailedPrecondition /\ sv_control s' = sv_control s /\ sv_log s' = sv_log s
  /\ sv_workers s' = sv_workers s /\ (step_stream wid c frame s).2 = Ok false.
Proof.
  intros Hmsg Hr Hst Hw Ha Hta Htk Hcheck.
  assert (ingest wid c frame s = (with_counters s (sv_connection_counter s) (sv_lease_counter s) (S (sv_clock s)),
            Err CodeFailedPrecondition)) as E.
  { unfold ingest, mbind at 1, svc_bind at 1.
    assert (ingest_check wid c frame s = (s, Ok durable)) as -> by (unfold ingest_check in *; cbn [snd] in Hcheck; by rewrite Hcheck).
    unfold mbind at 1, svc_bind at 1. cbn [now_unix_ms]. rewrite Hmsg. cbn [observe_message].
    unfold ignore, observe_started, observe, mbind, svc_bind, lift.
    destruct (parse_id_total KAssignment _ Hta) as (aid & -> & Eaid). destruct (parse_id_total KAttempt _ Htk) as (kid & -> & Ekid).
    cbn [map_err]. unfold svc_map_err, on_control. cbn [sv_control with_counters].
    assert (observe_attempt (MkObserved aid kid wid (clock_reading (sv_clock s)) OStarted) (sv_control s)
      = Err (Repo.InvalidTransition State.CancelRequested State.Running)) as ->; [|done].
    unfold observe_attempt. cbn [ov_attempt_id ov_worker_id ov_assignment_id ov_observation ov_observed_at_ms]. rewrite Ekid, Eaid.
    unfold assignment_identity. rewrite Hr. cbn [mbind result_bind ok_or].
    rewrite (bool_decide_eq_true_2 (ar_worker_id r = wid)), (bool_decide_eq_true_2 (ar_assignment_id r = assignment_id)) by done.
    cbn. by rewrite Hst. }
  rewrite E. split_and!; [done..|]. unfold step_stream, consume_frame, mbind, svc_bind, attempt. rewrite E.
  unfold mret, svc_ret. cbn [repository_status].
  destruct (send c _ _) as [s2 [b|e]] eqn:Es; [|unfold send in Es; repeat case_match; congruence].
  unfold disconnect_session, mbind, svc_bind, attempt. cbn. by destruct (on_control _ _).
Qed.

End theorems.

(** ** A concrete run *)

Module ServerSample.

#[local] Instance sample_clock : ServiceClock := fun i => 1000 + N.of_nat i.
#[local] Instance sample_sha : Sha256 := fun data => from_bytes data.

Definition hello : WorkerHello :=
  MkHello 1 7 "worker" "instance" "1.0" [] (Some (MkWireCapabilities 1 "x86" 1 2 EmptyString EmptyString EmptyString [])) [].
Definition hello_first : WorkerToServer := MkWorkerFrame 1 0 EmptyString (Some (WHello hello)).
Definition wire_artifact (data : bytes) : WireArtifact :=
  MkWireArtifact (digest_display (from_bytes data)) (N.of_nat (length data)) "text/plain".
Definition assignment : WireAssignment :=
  MkWireAssignment "assignment" "attempt" 1 "key" "task" "candidate"
    (Some (MkWireExecution 1 ["true"] "work" [] 1000 (Some (wire_artifact [])) (Some (wire_artifact [])) None)) [].

Definition stdout_bytes : bytes := [Byte.x01; Byte.x02; Byte.x03].
Definition stderr_bytes : bytes := [Byte.x04].
Definition receipt_bytes : bytes := [Byte.x05; Byte.x06].
Definition finished : WireFinished :=
  MkWireFinished "assignment" "attempt" 1 (Some 0%Z) 7 (Some (wire_artifact receipt_bytes))
    (Some (wire_artifact stdout_bytes)) (Some (wire_artifact stderr_bytes)) "done".

Definition accepted_frame : WorkerToServer :=
  MkWorkerFrame 2 1 "assignment-accepted:attempt" (Some (WAccepted "assignment" "attempt" false)).
Definition started_frame : WorkerToServer :=
  MkWorkerFrame 3 2 "execution-started:attempt" (Some (WStarted "assignment" "attempt")).
Definition finished_frame : WorkerToServer :=
  MkWorkerFrame 4 2 "execution-finished:attempt" (Some (WFinished finished)).

(** A worker connects, gets an assignment and accepts it. *)
Definition opened : list ServerCall :=
  [CallOpen hello_first; CallEnqueue "worker" assignment; CallFrame "worker" "connection-5" accepted_frame].

Definition upload (id key : string) (data : bytes) : list ServerCall :=
  [CallUpload (UpBegin (MkBegin "worker" key (from_bytes data) (N.of_nat (length data)) "text/plain" 10 1000000));
   CallUpload (UpAppend "worker" id 0 data 20); CallUpload (UpFinalize "worker" id 30)].

(** It runs, and uploads its outputs. *)
Definition executed : list ServerCall :=
  opened ++ [CallFrame "worker" "connection-5" started_frame]
  ++ upload "upload-0" "output:attempt:stdout" stdout_bytes ++ upload "upload-1" "output:attempt:stderr" stderr_bytes
  ++ upload "upload-2" "receipt:attempt" receipt_bytes.

(** A restart, and collections after the uploads' own references are gone. *)
Definition later : list ServerCall :=
  [CallReap; CallUpload (UpRevoke "worker" "upload:upload-0" 5000); CallUpload (UpPrune 2000000);
   CallUpload (UpCollect [from_bytes stdout_bytes; from_bytes stderr_bytes] 2000000 10); CallRestart 9 9;
   CallUpload (UpCollect [from_bytes stdout_bytes] 3000000 10)].

Definition start : Service unit InMemoryArtifactStore := service_new (Some (sample_store, sample_objects)) 5 5.

Lemma clients l : forallb (fun call => match call with CallUpload (UpLocal _ _ _) => false | _ => true end) l = true ->
  Forall client_call l.
Proof. intros H. apply Forall_forall. intros call Hc. rewrite forallb_forall in H. apply list_elem_of_In, H in Hc. by destruct call as [| | | | | | | | | | | | |[]|]. Qed.

Lemma server_keeps_its_stores_witness :
  let s := run_calls executed start in
  CInv (sv_control s)
  /\ exists m a, sv_metadata s = Some m /\ sv_objects s = Some a /\ system_ok (m, a) /\ size (ut_objects (st_db m)) = 3%nat.
Proof.
  intros s.
  destruct (server_keeps_its_stores (V:=unit) sample_store sample_objects 5 5 100 10 (MkQuotas 50 40) 0 executed later
    sample_open (clients (executed ++ later) eq_refl)) as ((Hc & _) & _ & _ & m & a & Hm & Ha & Hok).
  split; [exact Hc|]. exists m, a. split; [exact Hm|]. split; [exact Ha|]. split; [exact Hok|].
  assert (option_map (fun m => size (ut_objects (st_db m))) (sv_metadata s) = Some 3%nat) as E by (vm_compute; reflexivity).
  change (sv_metadata s = Some m) in Hm. rewrite Hm in E. injection E as E. exact E.
Defined.

(** The channel of the worker: the welcome, the assignment and an
    acknowledgement. *)
Definition channel : Channel :=
  default (MkChannel [] false) (sv_channels (run_calls opened start) !! "connection-5").
Definition acknowledgement : ServerToWorker := MkServerFrame 3 2 EmptyString (Some SAcknowledgement).

Lemma channel_found : sv_channels (run_calls opened start) !! "connection-5" = Some channel.
Proof. vm_compute. reflexivity. Qed.
Lemma acknowledgement_sent : frames_of channel !! 2%nat = Some acknowledgement.
Proof. vm_compute. reflexivity. Qed.

Lemma acknowledged_frames_were_observed_witness :
  exists wid f, (wid, "connection-5", f) ∈ calls_ingest opened start /\ wm_sequence f = 2
    /\ observed wid f (sv_control (run_calls (opened ++ later) start)).
Proof.
  destruct (acknowledged_frames_were_observed (V:=unit) (Some (sample_store, sample_objects)) 5 5 opened "connection-5" channel acknowledgement 2
    ltac:(vm_compute; reflexivity) channel_found (list_elem_of_lookup_2 _ _ _ acknowledgement_sent)
    ltac:(split; vm_compute; discriminate)) as (wid & f & H1 & H2 & H3).
  exists wid, f. split; [exact H1|]. split; [exact H2|exact (H3 later)].
Defined.

Lemma finished_ingested : (ingest "worker" "connection-5" finished_frame (run_calls executed start)).2 = Ok true.
Proof. vm_compute. reflexivity. Qed.

Lemma stdout_terminal :
  (Some (wire_artifact stdout_bytes), "output:attempt:stdout", RefAssignmentOutput, "complete attempt stdout")
  ∈ terminal_artifacts (wf_attempt_id finished) finished.
Proof. left. Qed.

Lemma later_keeps : Forall (never_revoked "worker" "output:attempt:stdout") later.
Proof. repeat constructor; intros t; discriminate. Qed.

Lemma finished_outputs_stay_readable_witness :
  exists reader m a, sv_metadata (run_calls later (ingest "worker" "connection-5" finished_frame (run_calls executed start)).1) = Some m
    /\ (open_referenced_artifact "worker" (from_bytes stdout_bytes) m a).2 = Ok reader.
Proof.
  destruct (finished_outputs_stay_readable (V:=unit) sample_store sample_objects 5 5 100 10 (MkQuotas 50 40) 0 executed later "worker" "connection-5"
    finished_frame finished true _ _ _ _ sample_open (clients (executed ++ later) eq_refl) eq_refl finished_ingested stdout_terminal later_keeps)
    as (x & digest & reader & m & a & Hx & Hd & Hm & _ & Ho & _).
  exists reader, m, a. split; [exact Hm|]. injection Hx as <-.
  assert (digest_from_str (wa_digest (wire_artifact stdout_bytes)) = Ok (from_bytes stdout_bytes)) as E by apply digest_from_str_display.
  rewrite E in Hd. injection Hd as <-. exact Ho.
Defined.

(** The attempt is cancelled before its start is reported. *)
Definition cancelled : Service unit InMemoryArtifactStore := run_calls (opened ++ [CallCancel "attempt" "stop"]) start.
Definition cancelled_row : AssignmentRow :=
  default (MkAssignmentRow EmptyString EmptyString ControlTheorems.Sample.contract State.Preparing 0 0 None None)
    (c_assignments (sv_control cancelled) !! "attempt").

Lemma cancelled_found : c_assignments (sv_control cancelled) !! "attempt" = Some cancelled_row.
Proof. vm_compute. reflexivity. Qed.
Lemma cancelled_check : (ingest_check "worker" "connection-5" started_frame cancelled).2 = Ok true.
Proof. vm_compute. reflexivity. Qed.

Lemma start_after_cancel_cuts_the_session_witness :
  (step_stream "worker" "connection-5" started_frame cancelled).2 = Ok false.
Proof.
  pose proof (start_after_cancel_cuts_the_session cancelled "worker" "connection-5" started_frame "assignment" "attempt" cancelled_row true
    eq_refl cancelled_found ltac:(vm_compute; reflexivity) ltac:(vm_compute; reflexivity) ltac:(vm_compute; reflexivity)
    eq_refl eq_refl cancelled_check) as H.
  destruct (ingest "worker" "connection-5" started_frame cancelled) as [s' r]. apply H.
Defined.

End ServerSample.
