(* ===== verification/EndToEnd.v ===== *)
(** * A worker and the server

    The control session of a worker against the server it is connected to:
    frames of the worker are taken by the server one after the other, frames
    of the server are read by the worker in their order, sessions end at any
    time and are opened again, and meanwhile executors change the journal
    and other workers and clients call the server.  What the worker removes
    from its outbox the server has stored. *)

From stdpp Require Import base strings pretty gmap sets sorting list relations.
From S2P Require Import Prelude Text Digest Identity Vocabulary Artifacts Uploads UploadLedger UploadTheorems RunEvents ControlPlane ControlTheorems Interactions Wire WorkerJournal WorkerSession WorkerUpdates WorkerLink Service Observation ServerSession Coordinator ServerCalls SessionInvariant SessionSteps SessionCalls ServerTheorems.

Local Open Scope N_scope.

(** ** Acknowledgements on the worker *)

Lemma delete_messages_deliveries ids n j k d :
  j_deliveries (delete_messages ids n j).2 !! k = Some d -> j_deliveries j !! k = Some d /\ dl_message_id d ∉ ids \/ j_deliveries j !! k = Some d /\ j_outbox j !! dl_message_id d = None.
Proof.
  revert n j. induction ids as [|id ids IH]; intros n j H; cbn [delete_messages] in H.
  { left. split; [done|]. intros ?%elem_of_nil. done. }
  destruct (delete_message id j) as [m j1] eqn:E. unfold delete_message in E.
  destruct (j_outbox j !! id) eqn:Eo; injection E as _ <-.
  - apply IH in H as [[H Hni]|[H Hno]]; cbn in H; apply map_lookup_filter_Some in H as [Hd Hne]; cbn in Hne.
    + left. split; [done|]. intros [Heq|?]%elem_of_cons; [by apply Hne|done].
    + right. split; [done|]. cbn in Hno. by rewrite lookup_delete_ne in Hno by congruence.
  - apply IH in H as [[H Hni]|[H Hno]]; [|by right]. destruct (decide (dl_message_id d = id)) as [<-|Hne]; [by right|].
    left. split; [done|]. by intros [Heq|?]%elem_of_cons.
Qed.

Section worker.
Context `{WorkerClock}.

(** The journal after an acknowledgement: the messages that were delivered
    up to it are gone, the link is kept. *)
Lemma acknowledged_link ws k ws' n :
  link_ok ws -> on_journal (fun _ => acknowledge_outbox (ss_connection_id ws.2) k) ws = (ws', Ok n) ->
  link_ok ws' /\ ws'.2 = ws.2 /\ wk_hello ws'.1 = wk_hello ws.1
  /\ forall id, j_outbox (wk_journal ws'.1) !! id = j_outbox (wk_journal ws.1) !! id
     \/ j_outbox (wk_journal ws'.1) !! id = None
        /\ exists i d, j_deliveries (wk_journal ws.1) !! (ss_connection_id ws.2, i) = Some d /\ dl_message_id d = id /\ i <= k.
Proof.
  destruct ws as [w s]. intros [H1 H2 H3 H4 H5] E. unfold on_journal, acknowledge_outbox in E. cbn in *.
  destruct (to_i64 k) as [k'|e] eqn:Ek; [|done]. apply to_i64_Ok in Ek as [_ ->]. cbn in E.
  set (ids := delivered_through (ss_connection_id s) k (wk_journal w)) in *.
  destruct (delete_messages ids 0 (wk_journal w)) as [m j'] eqn:Ed. injection E as <- _.
  pose proof (delete_messages_outbox ids 0 (wk_journal w)) as Hout. rewrite Ed in Hout. cbn [snd] in Hout.
  split; [split; cbn; try done|split; [done|split; [done|]]].
  - intros i d Hi. pose proof (delete_messages_deliveries ids 0 (wk_journal w) (ss_connection_id s, i) d) as Hdel.
    rewrite Ed in Hdel. destruct (Hdel Hi) as [[Hd Hni]|[Hd Hno]].
    + destruct (H5 _ _ Hd) as (Hk & f & row & Hf & Hr & Hm). split; [done|]. exists f, row. rewrite Hout, decide_False by done. done.
    + destruct (H5 _ _ Hd) as (Hk & f & row & Hf & Hr & Hm). congruence.
  - intros id. cbn. rewrite Hout. case_decide as Hin; [|by left]. right. split; [done|].
    apply elem_of_delivered in Hin as (i & d & Hd & <- & Hi). by exists i, d.
Qed.

(** Pruning deliveries keeps the link. *)
Lemma prune_link ws ws' n :
  link_ok ws -> on_journal (fun now => prune_outbox_deliveries (saturating_sub now OUTBOX_DELIVERY_RETENTION_MS)) ws = (ws', Ok n) ->
  link_ok ws' /\ ws'.2 = ws.2 /\ wk_hello ws'.1 = wk_hello ws.1 /\ j_outbox (wk_journal ws'.1) = j_outbox (wk_journal ws.1).
Proof.
  destruct ws as [w s]. intros [H1 H2 H3 H4 H5] E. unfold on_journal, prune_outbox_deliveries in E. cbn in *.
  destruct (to_i64 _) as [t|e]; [|done]. cbn in E. injection E as <- _. split; [|done]. split; cbn; try done.
  intros i d [Hd _]%map_lookup_filter_Some. by apply H5.
Qed.

(** The session after the welcome. *)
Lemma open_session_link w frame s : open_session w frame = Ok s ->
  (forall k, j_deliveries (wk_journal w) !! (ss_connection_id s, k) = None) -> link_ok (w, s) /\ ss_outbound s = [hello_frame w].
Proof.
  unfold open_session. intros (u & _ & (x & _ & [= <-])%result_bind_Ok)%result_bind_Ok Hd. split; [|done]. split; cbn in *.
  - done.
  - lia.
  - done.
  - by intros i f [-> <-]%list_lookup_singleton_Some.
  - intros k d Hk. by rewrite Hd in Hk.
Qed.

Lemma start_session_link w frame s ws : open_session w frame = Ok s ->
  (forall k, j_deliveries (wk_journal w) !! (ss_connection_id s, k) = None) ->
  resume_outbox_delivery (w, s) = (ws, Ok tt) ->
  continues_to (w, s) ws.
Proof.
  intros Hs Hd E. destruct (open_session_link _ _ _ Hs Hd) as [Hl _]. unfold resume_outbox_delivery in E.
  unfold mbind at 1, wkm_bind at 1, wk_get at 1 in E. cbn [fst snd] in E.
  unfold mbind at 1, wkm_bind at 1 in E.
  destruct (on_journal _ (w, s)) as [ws1 [n1|e]] eqn:E1; [|done].
  destruct (acknowledged_link (w, s) _ ws1 n1 Hl E1) as (Hl1 & Hs1 & Hh1 & Ho1).
  unfold mbind at 1, wkm_bind at 1 in E. destruct (on_journal _ ws1) as [ws2 [n2|e]] eqn:E2; [|done].
  destruct (prune_link ws1 ws2 n2 Hl1 E2) as (Hl2 & Hs2 & Hh2 & Ho2). cbn in Hs1, Hh1, Ho1.
  pose proof (send_pending_linked (ss_last_server_sequence s) ws2 Hl2) as Hc. rewrite E in Hc. cbn [fst] in Hc.
  destruct Hc as [L C O K W]. split; [done| | |intros id row Hid|].
  - rewrite C, Hs2. by rewrite Hs1.
  - cbn. rewrite <-Hs1, <-Hs2. exact O.
  - apply K. rewrite Ho2. destruct (Ho1 id) as [->|(_ & i & d & Hdel & _)]; [done|]. cbn in Hdel. by rewrite Hd in Hdel.
  - by rewrite W, Hh2.
Qed.

(** A frame of the server: what leaves the outbox was delivered on this
    connection up to its acknowledgement. *)
Lemma receive_frame_link ws frame ws' : link_ok ws -> receive_frame frame ws = (ws', Ok false) ->
  link_ok ws' /\ ss_connection_id ws'.2 = ss_connection_id ws.2 /\ ss_outbound ws.2 `prefix_of` ss_outbound ws'.2
  /\ wk_hello ws'.1 = wk_hello ws.1
  /\ forall id row, j_outbox (wk_journal ws.1) !! id = Some row ->
     j_outbox (wk_journal ws'.1) !! id = Some row
     \/ j_outbox (wk_journal ws'.1) !! id = None
        /\ exists k f, 2 <= k <= sm_acknowledges_worker_through frame /\ sent_frame ws'.2 k = Some f
           /\ wm_message f = Some (outbox_to_wire (ob_payload row)).
Proof.
  intros Hl E. unfold receive_frame in E. unfold mbind at 1, wkm_bind at 1, wk_get at 1 in E.
  unfold mbind at 1, wkm_bind at 1, wk_lift at 1 in E. destruct (validate_server_frame _ _ _ _ _) as [u|e]; [|done].
  unfold mbind at 1, wkm_bind at 1 in E. pose proof (handle_server_message_linked frame (sm_sequence frame) ws Hl) as Hc.
  destruct (handle_server_message _ _ ws) as [ws1 [[]|e]]; [done| |done]. cbn [fst] in Hc. destruct Hc as [L C O K W].
  unfold mbind at 1, wkm_bind at 1 in E. rewrite <-C in E.
  destruct (on_journal _ ws1) as [ws2 [n|e]] eqn:E2; [|done].
  destruct (acknowledged_link ws1 _ ws2 n L E2) as (L2 & S2 & W2 & O2). unfold mark_received in E. destruct ws2 as [w2 s2].
  injection E as <-. cbn in *. subst s2. split.
  - destruct L2 as [A1 A2 A3 A4 A5]. by split.
  - split; [done|]. split; [done|]. split; [congruence|]. intros id row Hid. pose proof (K _ _ Hid) as Hid1.
    destruct (O2 id) as [->|(Hno & i & d & Hd & Hdi & Hi)]; [by left|]. right. split; [done|].
    destruct (ln_mail _ L _ _ Hd) as (Hk & f & row' & Hf & Hr & Hm). exists i, f. split; [lia|]. split; [done|].
    rewrite Hdi in Hr. congruence.
Qed.

(** However the frame is handled, only its acknowledgement removes. *)
Lemma receive_frame_other ws frame ws' r : link_ok ws -> receive_frame frame ws = (ws', r) -> r <> Ok false ->
  keeps_outbox (wk_journal ws.1) (wk_journal ws'.1) /\ wk_hello ws'.1 = wk_hello ws.1.
Proof.
  intros Hl E Hr. unfold receive_frame in E. unfold mbind at 1, wkm_bind at 1, wk_get at 1 in E.
  unfold mbind at 1, wkm_bind at 1, wk_lift at 1 in E.
  destruct (validate_server_frame _ _ _ _ _) as [u|e]; [|injection E as <- _; split; [by intros id row|done]].
  unfold mbind at 1, wkm_bind at 1 in E. pose proof (handle_server_message_linked frame (sm_sequence frame) ws Hl) as Hc.
  destruct (handle_server_message _ _ ws) as [ws1 [[]|e]]; cbn [fst] in Hc; destruct Hc as [L C O K W];
    [by injection E as <- _| |by injection E as <- _].
  unfold mbind at 1, wkm_bind at 1 in E. destruct ws1 as [w1 s1]. unfold on_journal in E.
  destruct (acknowledge_outbox _ _ _) as [[n j]|e]; [injection E as _ <-; done|]. injection E as <- _. cbn. by split.
Qed.

Lemma resume_keeps w s ws r : link_ok (w, s) -> (forall k, j_deliveries (wk_journal w) !! (ss_connection_id s, k) = None) ->
  resume_outbox_delivery (w, s) = (ws, r) -> keeps_outbox (wk_journal w) (wk_journal ws.1) /\ wk_hello ws.1 = wk_hello w.
Proof.
  intros Hl Hd E. unfold resume_outbox_delivery in E. unfold mbind at 1, wkm_bind at 1, wk_get at 1 in E. cbn [fst snd] in E.
  unfold mbind at 1, wkm_bind at 1 in E.
  destruct (on_journal _ (w, s)) as [ws1 [n1|e]] eqn:E1.
  2: { injection E as <- _. unfold on_journal in E1. destruct (acknowledge_outbox _ _ _) as [[? ?]|]; [done|]. injection E1 as <- _.
       cbn. split; [by intros id row|done]. }
  destruct (acknowledged_link (w, s) _ ws1 n1 Hl E1) as (Hl1 & Hs1 & Hh1 & Ho1). cbn in Hs1, Hh1, Ho1.
  assert (keeps_outbox (wk_journal w) (wk_journal ws1.1)) as Hk1.
  { intros id row Hid. destruct (Ho1 id) as [->|(_ & i & d & Hdel & _)]; [done|]. by rewrite Hd in Hdel. }
  unfold mbind at 1, wkm_bind at 1 in E. destruct (on_journal _ ws1) as [ws2 [n2|e]] eqn:E2.
  2: { injection E as <- _. unfold on_journal in E2. destruct ws1 as [w1 s1]. destruct (prune_outbox_deliveries _ _) as [[? ?]|]; [done|].
       injection E2 as <- _. cbn. by split. }
  destruct (prune_link ws1 ws2 n2 Hl1 E2) as (Hl2 & Hs2 & Hh2 & Ho2).
  pose proof (send_pending_linked (ss_last_server_sequence s) ws2 Hl2) as [L C O K W]. rewrite E in K, W. cbn in K, W.
  split; [|by rewrite W, Hh2]. intros id row Hid. apply K. rewrite Ho2. by apply Hk1.
Qed.

End worker.

(** ** Channels of the server *)

Section server.
Context {V A : Type} `{EqDecision V} `{ServiceClock} {Sha : Sha256} {Store : ArtifactStore A} {Laws : ArtifactStoreLaws A}
  {Retention : RetentionStore A}.
Implicit Types (s : Service V A).

(** Replays prepare frames, they send none. *)
Definition same_channels s s' : Prop := sv_channels s' = sv_channels s.

#[local] Instance same_channels_preorder : PreOrder same_channels.
Proof. split; [by intros s|]. intros a b c H1 H2. unfold same_channels in *. congruence. Qed.

Lemma calm_channels {E T} (m : Svc V A E T) : Within calm m -> Within same_channels m.
Proof. intros Hm s. destruct (Hm s) as (_ & E0 & _). exact E0. Qed.

#[local] Instance channels_steps : HandlerSteps same_channels.
Proof.
  split; [exact _|..].
  - intros T t op Ht. by eapply calm_channels, hs_control.
  - intros T t op Ht. by eapply calm_channels, hs_control_partly.
  - intros T t op Ht. by eapply calm_channels, hs_log.
  - intros T f. apply calm_channels, hs_read_log.
  - intros r. apply calm_channels, hs_grant.
  - intros w d. apply calm_channels, hs_adopt.
  - intros E. apply calm_channels, hs_now.
Qed.

#[local] Instance take_channels {E} w n : Within same_channels (take_sequence w n : Svc V A E bool).
Proof. intros s. unfold take_sequence, same_channels. by repeat case_match. Qed.
#[local] Instance snapshot_channels {E} w p : Within same_channels (delivery_snapshot w p : Svc V A E _).
Proof. by intros s. Qed.
#[local] Instance lease_channels {E} : Within same_channels (next_lease : Svc V A E N).
Proof. by intros s. Qed.
#[local] Instance replay_channels w l : Within same_channels (replay_assignments (V:=V) (A:=A) w l).
Proof.
  induction l as [|x l IH]; cbn; unfold replay_assignment, prepare_assignment, prepare_cancel, prepared_frame; walk.
Qed.

(** What is sent is appended. *)
Lemma send_all_prefix c l s s' u ch : send_all c l s = (s', Ok u) -> sv_channels s !! c = Some ch ->
  exists ch', sv_channels s' !! c = Some ch' /\ ch_sent ch' = ch_sent ch ++ (Ok <$> l).
Proof.
  revert s ch. induction l as [|m l IH]; intros s ch E Hch; cbn in E; [injection E as <- _; exists ch; by rewrite app_nil_r|].
  apply bind_inv in E as [(e & _ & ?)|(s1 & sent & E1 & E)]; [done|]. destruct sent; [|done].
  unfold send in E1. rewrite Hch in E1. destruct (ch_open ch); [|done]. injection E1 as <-.
  destruct (IH _ (MkChannel (ch_sent ch ++ [Ok m]) true) E) as (ch' & Hch' & Hs); [cbn; apply lookup_insert_eq|].
  exists ch'. split; [done|]. rewrite Hs. cbn. by rewrite <-app_assoc.
Qed.

(** The first frame of a new connection is its welcome. *)
Lemma open_welcome first s s' c : open_control_stream first s = (s', Ok c) ->
  exists hello ch, sv_channels s' !! c = Some ch /\ frames_of ch !! 0%nat = Some (welcome hello c).
Proof.
  unfold open_control_stream. destruct (first_hello first) as [hello|e]; [|done]. cbn zeta.
  destruct (svc_map_err repository_status (register hello) s) as [s1 r] eqn:E. apply map_err_inv in E as (r0 & E & ->).
  destruct r0 as [[c0 messages]|e]; [|done]. cbn [map_err]. unfold register in E.
  apply bind_inv in E as [(e & E & ?)|(s2 & number & E1 & E)]; [done|].
  apply bind_inv in E as [(e & E & ?)|(s3 & now & E3 & E)]; [done|].
  apply bind_inv in E as [(e & E & ?)|(s4 & registration & E4 & E)]; [done|].
  apply bind_inv in E as [(e & E & ?)|(s5 & pending & E5 & E)]; [done|].
  apply bind_inv in E as [(e & E & ?)|(s6 & u & E6 & E)]; [done|]. injection E6 as <- _.
  apply bind_inv in E as [(e & E & ?)|(s7 & replays & E7 & [= <- <- <-])]; [done|].
  pose proof (within (R:=same_channels) (m:=replay_assignments (wh_worker_id hello) pending) (admit_connection hello (connection_name number) s5)) as Hch.
  rewrite E7 in Hch. unfold same_channels in Hch. cbn in Hch.
  destruct (send_all _ _ s7) as [s8 [v|e]] eqn:E8; [|done]. intros [= <- <-].
  destruct (send_all_prefix _ _ _ _ _ (MkChannel [] true) E8) as (ch & Hc & Hs); [rewrite Hch; apply lookup_insert_eq|].
  exists hello, ch. split; [done|]. unfold frames_of. rewrite Hs. done.
Qed.

End server.

(** ** The system *)

(** What the tasks of the executions do to the journal. *)
Definition executor_op (op : JournalOp) : Prop :=
  match op with OpRunning _ _ | OpFinished _ _ _ | OpAcquire _ _ _ | OpRelease _ _ | OpPreflight _ _ => True | _ => False end.

Lemma executor_mail op j : executor_op op -> keeps_mail j (run_op op j).
Proof.
  assert (forall T (r : result AttemptStoreError (T * Journal)), (forall x j', r = Ok (x, j') -> keeps_mail j j') -> keeps_mail j (settle j r)) as Hs.
  { intros T [[x j']|e] Hr; [by eapply Hr|by reflexivity]. }
  assert (forall j', j_outbox j' = j_outbox j -> j_deliveries j' = j_deliveries j -> keeps_mail j j') as Hm.
  { intros j' Ho Hd. split; [|done]. intros id row. by rewrite Ho. }
  destruct op; cbn [executor_op run_op]; try done; intros _; apply Hs; intros x j'.
  - apply mark_running_mail.
  - apply mark_finished_mail.
  - intros (_ & [(_ & -> & _)|(_ & _ & _ & ->)])%acquire_device_lease_Ok; by apply Hm.
  - unfold release_device_lease. intros (l & _ & H)%result_bind_Ok. destruct (lr_released_at_ms l); [injection H as _ <-; by apply Hm|].
    apply result_bind_Ok in H as (t & _ & [= _ <-]). by apply Hm.
  - unfold record_device_preflight. repeat case_match; try done;
      [intros [= _ <-]|intros [_ [_ [= _ <-]]%guard_bind_Ok]%guard_bind_Ok]; by apply Hm.
Qed.

(** The session is over when a handler fails. *)
Definition after {T} (goes_on : T -> bool) (r : WkState * result WError T) : Worker * option Session :=
  (r.1.1, match r.2 with Ok x => if goes_on x then Some r.1.2 else None | Err _ => None end).

(** A server, a worker with the session it is in, if any, how many frames
    of the session the server has taken from the stream and the worker has
    read from its own, and, for the statements, the frames the server has
    ingested from anyone. *)
Record System (V A : Type) := MkSystem {
  sy_server : Service V A;
  sy_worker : Worker;
  sy_session : option Session;
  sy_taken : nat;
  sy_read : nat;
  sy_ingested : Ingested;
}.
Arguments MkSystem {V A} _ _ _ _ _ _.
Arguments sy_server {V A} _.
Arguments sy_worker {V A} _.
Arguments sy_session {V A} _.
Arguments sy_taken {V A} _.
Arguments sy_read {V A} _.
Arguments sy_ingested {V A} _.

(** Another call than those of the stream of the session; a restart of the
    server ends the session. *)
Definition others_call (session : option Session) (call : ServerCall) : Prop :=
  match session with
  | None => True
  | Some s =>
      match call with
      | CallFrame _ connection_id _ => connection_id <> ss_connection_id s
      | CallRestart _ _ => False
      | _ => True
      end
  end.

(** No frame was ever numbered on a connection of that name. *)
Definition fresh_connection (c : string) (w : Worker) (ingested : Ingested) : Prop :=
  (forall wid f, (wid, c, f) ∉ ingested) /\ forall k, j_deliveries (wk_journal w) !! (c, k) = None.

(** The process of the worker over its journal and its state; the clock goes
    on. *)
Definition restarted_worker (w : Worker) (later : nat) : Worker :=
  MkWorker (wk_hello w) (wk_policy w) (wk_journal w) (wk_admission_only w) (wk_execution w) ∅ (wk_clock w + later).

Section system.
Context {V A : Type} `{EqDecision V} `{ServiceClock} `{WorkerClock} {Sha : Sha256} {Store : ArtifactStore A} {Laws : ArtifactStoreLaws A}
  {Retention : RetentionStore A}.
Implicit Types (sy : System V A).

Inductive system_step : relation (System V A) :=
| SysServer call server w session taken read ingested :
    others_call session call ->
    system_step (MkSystem server w session taken read ingested)
      (MkSystem (run_call call server) w session taken read (ingested ++ call_ingests call server))
| SysConnect server server' w c ch frame s taken read ingested w' session :
    open_control_stream (hello_frame w) server = (server', Ok c) -> fresh_connection c w ingested ->
    sv_channels server' !! c = Some ch -> frames_of ch !! 0%nat = Some frame ->
    open_session w frame = Ok s ->
    after (fun _ => true) (resume_outbox_delivery (w, s)) = (w', session) ->
    system_step (MkSystem server w None taken read ingested) (MkSystem server' w' session 1 1 ingested)
| SysTake server w s frame taken read ingested :
    ss_outbound s !! taken = Some frame -> (1 <= taken)%nat ->
    let wid := wh_worker_id (wk_hello w) in
    system_step (MkSystem server w (Some s) taken read ingested)
      (MkSystem (step_stream wid (ss_connection_id s) frame server).1 w (Some s) (S taken) read
         (ingested ++ ingested_frame wid (ss_connection_id s) frame server))
| SysRead server w s ch frame taken read ingested w' session :
    sv_channels server !! ss_connection_id s = Some ch -> frames_of ch !! read = Some frame ->
    after negb (receive_frame frame (w, s)) = (w', session) ->
    system_step (MkSystem server w (Some s) taken read ingested) (MkSystem server w' session taken (S read) ingested)
| SysUpdate server w s received taken read ingested w' session :
    after (fun _ => true) (handle_execution_receive received (w, s)) = (w', session) ->
    system_step (MkSystem server w (Some s) taken read ingested) (MkSystem server w' session taken read ingested)
| SysHeartbeat server w s probe taken read ingested w' session :
    after (fun _ => true) (send_heartbeat probe (w, s)) = (w', session) ->
    system_step (MkSystem server w (Some s) taken read ingested) (MkSystem server w' session taken read ingested)
| SysExecutor server w session op taken read ingested :
    executor_op op ->
    system_step (MkSystem server w session taken read ingested)
      (MkSystem server (set_journal (run_op op (wk_journal w)) w) session taken read ingested)
| SysTaskEnd server w session attempt_id taken read ingested :
    system_step (MkSystem server w session taken read ingested)
      (MkSystem server (set_active (delete attempt_id (wk_active w)) w) session taken read ingested)
| SysDrop server w session taken read ingested :
    system_step (MkSystem server w session taken read ingested) (MkSystem server w None taken read ingested)
| SysRestart server w session later taken read ingested :
    system_step (MkSystem server w session taken read ingested) (MkSystem server (restarted_worker w later) None taken read ingested).

(** A server that starts, and a worker that is not connected. *)
Definition system_start (stores : option (UploadStore * A)) (connection_seed lease_seed : N) (w : Worker) : System V A :=
  MkSystem (service_new stores connection_seed lease_seed) w None 0 0 [].

(** The session is linked to the journal, and what was ingested on its
    connection are frames of it. *)
Record session_ok (sy : System V A) (s : Session) : Prop := {
  sn_link : link_ok (sy_worker sy, s);
  sn_ingested : forall wid f, (wid, ss_connection_id s, f) ∈ sy_ingested sy ->
    wid = wh_worker_id (wk_hello (sy_worker sy)) /\ sent_frame s (wm_sequence f) = Some f;
}.

Record system_inv (n : N) sy : Prop := {
  si_server : exists n', n' <= n /\ settled_sessions (sy_ingested sy) n' (sy_server sy);
  si_session : forall s, sy_session sy = Some s -> session_ok sy s;
}.

Lemma sent_prefix s s' k f : ss_outbound s `prefix_of` ss_outbound s' -> sent_frame s k = Some f -> sent_frame s' k = Some f.
Proof. intros [l El]. unfold sent_frame. rewrite El. by apply lookup_app_l_Some. Qed.

(** The session goes on. *)
Lemma session_continues sy sy' s s' : session_ok sy s -> sy_ingested sy' = sy_ingested sy ->
  link_ok (sy_worker sy', s') -> ss_connection_id s' = ss_connection_id s -> ss_outbound s `prefix_of` ss_outbound s' ->
  wk_hello (sy_worker sy') = wk_hello (sy_worker sy) -> session_ok sy' s'.
Proof.
  intros [Hl Hi] Eg Hl' Ec Hp Eh. split; [done|]. rewrite Eg, Ec, Eh. intros wid f Hf. destruct (Hi wid f Hf) as [? Hs].
  split; [done|]. by eapply sent_prefix.
Qed.

Lemma after_linked {T} g (m : Wkm T) w s w' s' : Linked m -> link_ok (w, s) -> after g (m (w, s)) = (w', Some s') ->
  continues_to (w, s) (w', s').
Proof.
  intros Hm Hl E. unfold after in E. destruct (m (w, s)) as [ws r] eqn:Em. pose proof (Hm (w, s) Hl) as Hc. rewrite Em in Hc.
  cbn in *. destruct ws as [w1 s1]. cbn in E. destruct r as [x|e]; [|done]. destruct (g x); [|done]. injection E as <- <-. exact Hc.
Qed.

Lemma handler_inv {T} g (m : Wkm T) n server w s w' session taken read taken' read' G : Linked m ->
  system_inv n (MkSystem server w (Some s) taken read G) -> after g (m (w, s)) = (w', session) ->
  system_inv n (MkSystem server w' session taken' read' G).
Proof.
  intros Hm [Hs Hi] E. split; [done|]. cbn. intros s' ->. specialize (Hi s eq_refl). pose proof Hi as [Hl _]. cbn in Hl.
  destruct (after_linked _ _ _ _ _ _ Hm Hl E) as [L C O K W]. cbn in *. eapply (session_continues _ _ s); [exact Hi|done..].
Qed.

Lemma call_others s call (server : Service V A) : others_call (Some s) call ->
  forall wid f, (wid, ss_connection_id s, f) ∉ call_ingests call server.
Proof.
  intros Ho wid f. destruct call; cbn [call_ingests]; try apply not_elem_of_nil. unfold ingested_frame.
  cbn [others_call] in Ho. destruct (is_ok _); [|apply not_elem_of_nil]. intros [= _ Ec _]%list_elem_of_singleton. by apply Ho.
Qed.

(** The name in the welcome is that of the channel. *)
Lemma opened_session first (server : Service V A) server' w c ch frame s : open_control_stream first server = (server', Ok c) ->
  sv_channels server' !! c = Some ch -> frames_of ch !! 0%nat = Some frame -> open_session w frame = Ok s ->
  ss_connection_id s = c.
Proof.
  intros Eo Hch Hf Hs. destruct (open_welcome _ _ _ _ Eo) as (hello & ch' & Hch' & Hf'). assert (ch' = ch) as -> by congruence.
  assert (frame = welcome hello c) as -> by congruence. unfold open_session in Hs.
  apply result_bind_Ok in Hs as (u & _ & Hs). apply result_bind_Ok in Hs as (x & Hx & [= <-]).
  unfold welcome_identity in Hx. cbn in Hx. by apply guard_bind_Ok in Hx as [_ [= <-]].
Qed.

Lemma system_step_inv n sy sy' : n < 2 ^ 64 -> system_inv n sy -> system_step sy sy' -> system_inv (n + 1) sy'.
Proof.
  intros Hlt Hinv Hstep. assert (forall x, system_inv n x -> system_inv (n + 1) x) as Hmono.
  { intros x [(n' & Hn & Hs) Hi]. split; [|done]. exists n'. split; [lia|done]. }
  destruct Hstep as [call server w session taken read G Ho|server server' w c ch frame s taken read G w' session Eo Hfr Hch Hf Hos Ea
    |server w s frame taken read G Hf Ht|server w s ch frame taken read G w' session Hch Hf Ea|server w s received taken read G w' session Ea
    |server w s probe taken read G w' session Ea|server w session op taken read G Hop|server w session task taken read G|server w session taken read G|server w session later taken read G].
  - destruct Hinv as [(n' & Hn & Hs) Hi]. destruct (run_call_ok _ n' call server ltac:(lia) Hs) as (n'' & Hn'' & Hs').
    split; [exists n''; split; [lia|done]|]. intros s Es. destruct (Hi s Es) as [Hl Hin]. split; [done|]. cbn in *. subst session.
    intros wid f [Hf|Hf]%elem_of_app; [by apply Hin|]. by apply (call_others s call server Ho) in Hf.
  - destruct Hinv as [(n' & Hn & Hs) _]. destruct (run_call_ok _ n' (CallOpen (hello_frame w)) server ltac:(lia) Hs) as (n'' & Hn'' & Hs').
    cbn in Hs'. rewrite Eo, app_nil_r in Hs'. split; [exists n''; split; [lia|done]|]. cbn. intros s' ->.
    pose proof (opened_session _ _ _ _ _ _ _ _ Eo Hch Hf Hos) as Hc. subst c. destruct Hfr as [Hg Hd].
    unfold after in Ea. destruct (resume_outbox_delivery (w, s)) as [ws [[]|e]] eqn:Er; [|done].
    destruct ws as [w1 s1]. injection Ea as <- <-.
    destruct (start_session_link _ _ _ _ Hos Hd Er) as [L C O K W]. split; [done|]. cbn in *. rewrite C.
    intros wid f Hin. by apply Hg in Hin.
  - destruct Hinv as [(n' & Hn & Hs) Hi]. destruct (run_call_ok _ n' (CallFrame wid (ss_connection_id s) frame) server ltac:(lia) Hs) as (n'' & Hn'' & Hs').
    split; [exists n''; split; [lia|done]|]. cbn. intros s' [= <-]. destruct (Hi s eq_refl) as [Hl Hin]. split; [done|]. cbn in *.
    intros wid' f [Hf'|Hf']%elem_of_app; [by apply Hin|]. unfold ingested_frame in Hf'. destruct (is_ok _); [|by apply elem_of_nil in Hf'].
    apply list_elem_of_singleton in Hf' as [= -> ->]. split; [done|]. unfold sent_frame.
    rewrite (ln_numbers _ Hl _ _ Hf). by replace (N.to_nat _ - 1)%nat with taken by lia.
  - apply Hmono. destruct Hinv as [Hs Hi]. split; [done|]. cbn. intros s' ->. pose proof (Hi s eq_refl) as Hok. pose proof Hok as [Hl _].
    unfold after in Ea. destruct (receive_frame frame (w, s)) as [[w1 s1] [[]|e]] eqn:Er; try done. injection Ea as <- <-.
    destruct (receive_frame_link _ _ _ Hl Er) as (L & C & O & W & _). eapply (session_continues _ _ s); [exact Hok|done..].
  - apply Hmono. exact (handler_inv _ _ n _ _ _ _ _ _ _ _ _ _ _ Hinv Ea).
  - apply Hmono. exact (handler_inv _ _ n _ _ _ _ _ _ _ _ _ _ _ Hinv Ea).
  - apply Hmono. destruct Hinv as [Hs Hi]. split; [done|]. cbn. intros s ->. pose proof (Hi s eq_refl) as Hok. pose proof Hok as [Hl _].
    destruct (continues_mail (w, s) (set_journal (run_op op (wk_journal w)) w) Hl eq_refl (executor_mail op _ Hop)) as [L C O K W].
    by eapply (session_continues _ _ s).
  - apply Hmono. destruct Hinv as [Hs Hi]. split; [done|]. cbn. intros s ->. pose proof (Hi s eq_refl) as Hok. pose proof Hok as [Hl _].
    destruct (continues_mail (w, s) (set_active (delete task (wk_active w)) w) Hl eq_refl ltac:(by reflexivity)) as [L C O K W].
    by eapply (session_continues _ _ s).
  - apply Hmono. destruct Hinv as [Hs _]. by split.
  - apply Hmono. destruct Hinv as [Hs _]. by split.
Qed.

Lemma system_start_inv stores a b w : system_inv 0 (system_start stores a b w).
Proof. split; [|done]. exists 0. split; [done|]. apply service_new_ok. Qed.

Lemma system_steps_inv k n sy sy' : n + N.of_nat k < 2 ^ 64 -> system_inv n sy -> nsteps system_step k sy sy' ->
  system_inv (n + N.of_nat k) sy'.
Proof.
  intros Hlt Hinv Hk. revert n Hlt Hinv. induction Hk as [sy|k sy sy1 sy' H1 Hk IH]; intros n Hlt Hinv; [by rewrite N.add_0_r|].
  replace (n + N.of_nat (S k)) with (n + 1 + N.of_nat k) by lia. apply IH; [lia|]. eapply system_step_inv; [lia|done..].
Qed.

(** The server only calls its repository. *)
Lemma system_step_control sy sy' : system_step sy sy' ->
  exists ops, sv_control (sy_server sy') = run_controls ops (sv_control (sy_server sy)).
Proof.
  destruct 1 as [call server w session taken read G Ho|server server' w c ch frame s taken read G w' session Eo Hfr Hch Hf Hos Ea
    |server w s frame taken read G Hf Ht|server w s ch frame taken read G w' session Hch Hf Ea|server w s received taken read G w' session Ea
    |server w s probe taken read G w' session Ea|server w session op taken read G Hop|server w session task taken read G|server w session taken read G|server w session later taken read G];
    cbn; try (by exists []).
  - exact (run_calls_control [call] server).
  - pose proof (run_calls_control [CallOpen (hello_frame w)] server) as Hc. cbn in Hc. by rewrite Eo in Hc.
  - exact (run_calls_control [CallFrame wid (ss_connection_id s) frame] server).
Qed.

Lemma system_keeps_observed wid f sy sy' : CInv (sv_control (sy_server sy)) -> observed wid f (sv_control (sy_server sy)) ->
  rtc system_step sy sy' -> observed wid f (sv_control (sy_server sy')).
Proof.
  intros Hc Ho Hr. induction Hr as [|sy sy1 sy' [ops Eo]%system_step_control _ IH]; [done|].
  destruct (run_controls_keeps ops _ Hc) as [Hc1 Hk]. rewrite Eo in IH. apply IH; [done|]. eapply observed_after; [apply Hk|done].
Qed.

(** *** What a step takes out of the outbox *)

Definition removed (id : string) (row : OutboxRow) (w w' : Worker) : Prop :=
  j_outbox (wk_journal w) !! id = Some row /\ j_outbox (wk_journal w') !! id <> Some row.

Lemma handler_removes_nothing {T} g (m : Wkm T) w s w' session id row : Linked m -> link_ok (w, s) ->
  after g (m (w, s)) = (w', session) -> ~ removed id row w w'.
Proof.
  intros Hm Hl E [Hr Hn]. apply Hn. pose proof (Hm (w, s) Hl) as Hc. unfold after in E. destruct (m (w, s)) as [ws r]. cbn in *.
  injection E as <- _. by apply (cn_outbox _ _ Hc).
Qed.

(** An acknowledgement that the worker gets is backed. *)
Lemma acknowledged_ingested n sy s s' ch frame k f : system_inv n sy -> sy_session sy = Some s ->
  sv_channels (sy_server sy) !! ss_connection_id s = Some ch -> frame ∈ frames_of ch ->
  2 <= k <= sm_acknowledges_worker_through frame -> ss_outbound s `prefix_of` ss_outbound s' -> sent_frame s' k = Some f ->
  observed (wh_worker_id (wk_hello (sy_worker sy))) f (sv_control (sy_server sy)).
Proof.
  intros [(n' & _ & c0 & Hs) Hi] Es Hch Hf Hk Hp Hsent. destruct (se_streams _ _ _ _ _ Hs _ _ Hch) as [last Hst].
  destruct (st_ingested _ _ _ _ Hst _ Hf k Hk) as (wid & f' & Hin & Hseq). pose proof (se_observed _ _ _ _ _ Hs _ _ _ Hin) as Ho.
  destruct (Hi s Es) as [_ Hg]. destruct (Hg _ _ Hin) as [-> Hf']. rewrite Hseq in Hf'. apply (sent_prefix _ _ _ _ Hp) in Hf'. congruence.
Qed.

Lemma step_removes n sy sy' id row : system_inv n sy -> system_step sy sy' -> removed id row (sy_worker sy) (sy_worker sy') ->
  exists f, wm_message f = Some (outbox_to_wire (ob_payload row))
    /\ observed (wh_worker_id (wk_hello (sy_worker sy))) f (sv_control (sy_server sy')).
Proof.
  intros Hinv Hstep Hrem.
  destruct Hstep as [call server w session taken read G Ho|server server' w c ch frame s taken read G w' session Eo Hfr Hch Hf Hos Ea
    |server w s frame taken read G Hf Ht|server w s ch frame taken read G w' session Hch Hf Ea|server w s received taken read G w' session Ea
    |server w s probe taken read G w' session Ea|server w session op taken read G Hop|server w session task taken read G|server w session taken read G|server w session later taken read G];
    cbn in Hrem |- *; try (exfalso; by destruct Hrem).
  - exfalso. destruct Hrem as [Hr Hn]. apply Hn. pose proof (opened_session _ _ _ _ _ _ _ _ Eo Hch Hf Hos) as Hc. subst c.
    destruct Hfr as [_ Hd]. destruct (open_session_link _ _ _ Hos Hd) as [Hl _]. unfold after in Ea.
    destruct (resume_outbox_delivery (w, s)) as [ws r] eqn:Er. injection Ea as <- _.
    by apply (resume_keeps _ _ _ _ Hl Hd Er).
  - destruct (si_session _ _ Hinv s eq_refl) as [Hl _]. cbn in Hl. destruct Hrem as [Hr Hn]. unfold after in Ea.
    destruct (receive_frame frame (w, s)) as [ws r] eqn:Er. injection Ea as <- _.
    assert (r = Ok false \/ r <> Ok false) as [->|Hne] by (destruct r as [[]|]; [right|left|right]; done).
    + destruct (receive_frame_link _ _ _ Hl Er) as (L & C & O & W & Hk). destruct (Hk _ _ Hr) as [?|(_ & k & f & Hk2 & Hf2 & Hm)]; [done|].
      exists f. split; [done|]. eapply (acknowledged_ingested _ _ s ws.2 ch frame k f Hinv); [done..| |done|exact O|exact Hf2].
      by eapply list_elem_of_lookup_2.
    + exfalso. apply Hn. by apply (receive_frame_other _ _ _ _ Hl Er Hne).
  - destruct (si_session _ _ Hinv s eq_refl) as [Hl _]. exfalso. by eapply (handler_removes_nothing _ _ _ _ _ _ _ _ _ Hl Ea).
  - destruct (si_session _ _ Hinv s eq_refl) as [Hl _]. exfalso. by eapply (handler_removes_nothing _ _ _ _ _ _ _ _ _ Hl Ea).
  - exfalso. destruct Hrem as [Hr Hn]. apply Hn. destruct (executor_mail op (wk_journal w) Hop) as [Hk _]. by apply Hk.
Qed.

(** C1 A worker forgets a report only when the server has it: whatever the
    worker, the server, the executions, the other workers and the clients
    do, through any number of sessions, lost connections and restarts of
    either side, when a message leaves the outbox of the worker the server
    has stored, for this worker, the observation the message reports, and
    keeps it from then on. *)
Theorem forgotten_reports_are_stored (stores : option (UploadStore * A)) (connection_seed lease_seed : N) (w : Worker) (k : nat)
    (sy sy' : System V A) (id : string) (row : OutboxRow) :
  N.of_nat k < 2 ^ 64 -> nsteps system_step k (system_start stores connection_seed lease_seed w) sy ->
  system_step sy sy' -> removed id row (sy_worker sy) (sy_worker sy') ->
  exists f, wm_message f = Some (outbox_to_wire (ob_payload row))
    /\ forall later, rtc system_step sy' later ->
       observed (wh_worker_id (wk_hello (sy_worker sy))) f (sv_control (sy_server later)).
Proof.
  intros Hlt Hsteps Hstep Hrem.
  pose proof (system_steps_inv k 0 _ _ ltac:(lia) (system_start_inv _ _ _ _) Hsteps) as Hinv.
  destruct (step_removes _ _ _ _ _ Hinv Hstep Hrem) as (f & Hm & Ho). exists f. split; [done|]. intros later.
  apply system_keeps_observed; [|done]. destruct Hinv as [(n' & _ & c0 & Hs) _].
  destruct (system_step_control _ _ Hstep) as [ops ->]. apply run_controls_keeps, Hs.
Qed.

End system.

(** ** A concrete run *)

Module SystemSample.
Import ServerSample.
#[local] Existing Instance sample_clock.
#[local] Existing Instance sample_sha.

#[local] Instance sample_reading : WorkerClock := fun i => 500 + N.of_nat i.

(** A worker connects, is given an assignment, accepts it and reads the
    acknowledgement of the server. *)
Definition worker0 : Worker := MkWorker hello policy_default journal_empty true None ∅ 0.
Definition server1 : Service unit InMemoryArtifactStore := (open_control_stream (hello_frame worker0) start).1.
Definition frame_at (i : nat) (s : Service unit InMemoryArtifactStore) : ServerToWorker :=
  default (MkServerFrame 0 0 EmptyString None) (sv_channels s !! "connection-5" ≫= fun ch => frames_of ch !! i).
Definition channel_of (s : Service unit InMemoryArtifactStore) : Channel :=
  default (MkChannel [] false) (sv_channels s !! "connection-5").
Definition no_session : Session := MkSession EmptyString 0 0 0 ∅ false [] false.
Definition session0 : Session :=
  match open_session worker0 (frame_at 0 server1) with Ok s => s | Err _ => no_session end.
Definition pair1 : Worker * option Session := after (fun _ => true) (resume_outbox_delivery (worker0, session0)).
Definition server2 := run_call (CallEnqueue "worker" assignment) server1.
Definition session1 : Session := default no_session pair1.2.
Definition pair2 : Worker * option Session := after negb (receive_frame (frame_at 1 server2) (pair1.1, session1)).
Definition session2 : Session := default no_session pair2.2.
Definition accepted : WorkerToServer := default (hello_frame worker0) (ss_outbound session2 !! 1%nat).
Definition server3 := (step_stream (wh_worker_id (wk_hello pair2.1)) (ss_connection_id session2) accepted server2).1.
Definition ingested3 : Ingested :=
  [] ++ ingested_frame (wh_worker_id (wk_hello pair2.1)) (ss_connection_id session2) accepted server2.
Definition pair3 : Worker * option Session := after negb (receive_frame (frame_at 2 server3) (pair2.1, session2)).

Definition before : System unit InMemoryArtifactStore := MkSystem server3 pair2.1 (Some session2) 2 2 ingested3.
Definition behind : System unit InMemoryArtifactStore := MkSystem server3 pair3.1 pair3.2 2 3 ingested3.
Definition entry : OutboxRow :=
  default (MkOutboxRow EmptyString (AssignmentRejected EmptyString EmptyString RejectInvalid EmptyString) 0)
    (j_outbox (wk_journal pair2.1) !! "assignment-accepted:attempt").

Lemma sample_connects : system_step (system_start (V:=unit) (Some (sample_store, sample_objects)) 5 5 worker0)
  (MkSystem server1 pair1.1 pair1.2 1 1 []).
Proof.
  refine (SysConnect start server1 worker0 "connection-5" (channel_of server1) (frame_at 0 server1) session0 0 0 [] pair1.1 pair1.2 _ _ _ _ _ _).
  - vm_compute. reflexivity.
  - split; [intros wid f; apply not_elem_of_nil|intros k; apply lookup_empty].
  - vm_compute. reflexivity.
  - vm_compute. reflexivity.
  - vm_compute. reflexivity.
  - exact (surjective_pairing pair1).
Qed.

Lemma sample_enqueues : system_step (MkSystem server1 pair1.1 pair1.2 1 1 []) (MkSystem server2 pair1.1 (Some session1) 1 1 []).
Proof.
  assert (pair1.2 = Some session1) as -> by (vm_compute; reflexivity).
  exact (SysServer (CallEnqueue "worker" assignment) server1 pair1.1 (Some session1) 1 1 [] I).
Qed.

Lemma sample_reads : system_step (MkSystem server2 pair1.1 (Some session1) 1 1 []) (MkSystem server2 pair2.1 (Some session2) 1 2 []).
Proof.
  assert (Some session2 = pair2.2) as -> by (vm_compute; reflexivity).
  refine (SysRead server2 pair1.1 session1 (channel_of server2) (frame_at 1 server2) 1 1 [] pair2.1 pair2.2 _ _ _).
  - vm_compute. reflexivity.
  - vm_compute. reflexivity.
  - exact (surjective_pairing pair2).
Qed.

Lemma sample_takes : system_step (MkSystem server2 pair2.1 (Some session2) 1 2 []) before.
Proof.
  refine (SysTake server2 pair2.1 session2 accepted 1 2 [] _ _); [vm_compute; reflexivity|lia].
Qed.

Lemma sample_run : nsteps system_step 4 (system_start (V:=unit) (Some (sample_store, sample_objects)) 5 5 worker0) before.
Proof. do 4 (eapply nsteps_l; [first [exact sample_connects|exact sample_enqueues|exact sample_reads|exact sample_takes]|]). constructor. Qed.

Lemma sample_acknowledged : system_step before behind.
Proof.
  refine (SysRead server3 pair2.1 session2 (channel_of server3) (frame_at 2 server3) 2 2 ingested3 pair3.1 pair3.2 _ _ _).
  - vm_compute. reflexivity.
  - vm_compute. reflexivity.
  - exact (surjective_pairing pair3).
Qed.

Lemma sample_removed : removed "assignment-accepted:attempt" entry (sy_worker before) (sy_worker behind).
Proof. split; [vm_compute; reflexivity|vm_compute; discriminate]. Qed.

Lemma forgotten_reports_are_stored_witness :
  exists f, wm_message f = Some (WAccepted "assignment" "attempt" false) /\ observed "worker" f (sv_control (sy_server behind)).
Proof.
  destruct (forgotten_reports_are_stored (V:=unit) (Some (sample_store, sample_objects)) 5 5 worker0 4 before behind _ _ ltac:(vm_compute; reflexivity)
    sample_run sample_acknowledged sample_removed) as (f & Hm & Ho).
  exists f. split; [exact Hm|]. exact (Ho behind (rtc_refl _ _)).
Defined.

End SystemSample.
