(* ===== verification/ModelContext.v ===== *)
(** * The durable context of model turns

    [src/crates/alloyport-server/src/adapters/sqlite/model_context_store.rs]
    over the artifact port, with the continuation of [model_codec.rs]: what
    the next request to the model is assembled from.  A table is a finite
    map on its key; the pending tool results of an episode are its list of
    rows by call index, which only [commit] writes, all at once.  Digest
    columns are digests: their text form round-trips (Digest.v).  JSON
    values and their serializer are a parameter (class [ModelSerde]). *)

From stdpp Require Import base strings gmap sets list numbers.
From S2P Require Import Prelude Digest Encoding Identity ModelGateway EpisodeState Artifacts Fixtures.

Local Open Scope N_scope.

(** ** Continuations *)

(** [enum ProtocolKind] of [model.rs]. *)
Inductive ProtocolKind := OpenAiResponses | OpenAiChatCompletions | AnthropicMessages.

(** [struct CodecLimits]. *)
Record CodecLimits := MkLimits {
  max_response_bytes : N;
  max_request_bytes : N;
  max_continuation_bytes : N;
  max_tool_argument_bytes : N;
  max_tool_result_bytes : N;
  max_narrative_bytes : N;
  max_tool_calls : N;
}.

(** [enum CodecError]: the errors a stored continuation can cause. *)
Inductive CodecError :=
| InvalidLimits
| InvalidJson
| UnsupportedContinuationSchema (version : N)
| EmptyCallId
| DuplicateCallId (id : string)
| LimitExceeded (field : string) (actual maximum : N)
| Serialization.

(** [CodecLimits::validate]. *)
Definition limits_validate (l : CodecLimits) : result CodecError CodecLimits :=
  if (max_response_bytes l =? 0) || (max_request_bytes l =? 0) || (max_continuation_bytes l =? 0)
     || (max_tool_argument_bytes l =? 0) || (max_tool_result_bytes l =? 0)
     || (max_narrative_bytes l =? 0) || (max_tool_calls l =? 0)
  then Err InvalidLimits else Ok l.

(** [struct NativeContinuation] over the type of JSON values. *)
Record NativeContinuation (V : Type) := MkContinuation {
  nc_schema_version : N;
  nc_protocol : ProtocolKind;
  nc_native_history : V;
  nc_pending_call_ids : list string;
}.
Arguments MkContinuation {V} _ _ _ _.
Arguments nc_schema_version {V} _.
Arguments nc_protocol {V} _.
Arguments nc_native_history {V} _.
Arguments nc_pending_call_ids {V} _.

(** [struct CodecToolDefinition]. *)
Record CodecToolDefinition (V : Type) := MkTool {
  ct_name : string;
  ct_description : string;
  ct_input_schema : V;
  ct_strict : bool;
}.

(** [serde_json] on the two types this store serializes. *)
Class ModelSerde (V : Type) := {
  tools_to_vec : list (CodecToolDefinition V) -> option bytes;
  tools_from_slice : bytes -> option (list (CodecToolDefinition V));
  continuation_to_vec : NativeContinuation V -> option bytes;
  continuation_from_slice : bytes -> option (NativeContinuation V);
}.

(** What was serialized is read back. *)
Class ModelSerdeLaws (V : Type) `{ModelSerde V} := {
  tools_round_trip : forall t b, tools_to_vec t = Some b -> tools_from_slice b = Some t;
  continuation_round_trip : forall c b,
    continuation_to_vec c = Some b -> continuation_from_slice b = Some c;
}.

Definition NATIVE_CONTINUATION_SCHEMA_V1 : N := 1.

(** [ensure_bound]. *)
Definition ensure_bound (field : string) (actual maximum : N) : result CodecError unit :=
  guard_err (maximum <? actual) (LimitExceeded field actual maximum).

(** The loop over the pending call identities. *)
Fixpoint check_call_ids (ids : list string) (seen : gset string) : result CodecError unit :=
  match ids with
  | [] => Ok tt
  | id :: ids =>
      guard_err (trim_is_empty id) EmptyCallId ;;
      guard_err (bool_decide (id ∈ seen)) (DuplicateCallId id) ;;
      check_call_ids ids ({[id]} ∪ seen)
  end.

Section codec.
Context `{ModelSerde V}.

(** [NativeContinuation::canonical_bytes]. *)
Definition canonical_bytes (c : NativeContinuation V) : result CodecError bytes :=
  ok_or (continuation_to_vec c) Serialization.

(** [NativeContinuation::from_canonical_bytes]. *)
Definition from_canonical_bytes (b : bytes) (limits : CodecLimits) :
    result CodecError (NativeContinuation V) :=
  limits_validate limits ;;
  ensure_bound "native continuation" (byte_len b) (max_continuation_bytes limits) ;;
  continuation ← ok_or (continuation_from_slice b) InvalidJson;
  guard_err (negb (nc_schema_version continuation =? NATIVE_CONTINUATION_SCHEMA_V1))
    (UnsupportedContinuationSchema (nc_schema_version continuation)) ;;
  check_call_ids (nc_pending_call_ids continuation) ∅ ;;
  Ok continuation.
End codec.

(** ** Text *)

Definition byte_between (lo hi : N) (b : Byte.byte) : bool :=
  (lo <=? Byte.to_N b) && (Byte.to_N b <=? hi).

(** [String::from_utf8]: the well-formed byte sequences. *)
Fixpoint utf8_valid (l : bytes) : bool :=
  match l with
  | [] => true
  | a :: r =>
      if byte_between 0 127 a then utf8_valid r
      else match r with
      | [] => false
      | b :: r1 =>
          if byte_between 194 223 a then byte_between 128 191 b && utf8_valid r1
          else match r1 with
          | [] => false
          | c :: r2 =>
              if byte_between 224 239 a then
                byte_between (if byte_between 224 224 a then 160 else 128)
                  (if byte_between 237 237 a then 159 else 191) b
                && byte_between 128 191 c && utf8_valid r2
              else match r2 with
              | [] => false
              | d :: r3 =>
                  byte_between 240 244 a
                  && byte_between (if byte_between 240 240 a then 144 else 128)
                       (if byte_between 244 244 a then 143 else 191) b
                  && byte_between 128 191 c && byte_between 128 191 d && utf8_valid r3
              end
          end
      end
  end.

Definition string_of_bytes (b : bytes) : string := String.string_of_list_byte b.

(** ** The store *)

(** The diagnostics of the adapter, and the errors it passes on. *)
Inductive ContextError :=
| EmptyPrompts
| ContextConflicts
| ContextAbsent
| InputMismatch                  (* "does not match durable context" *)
| InitialIdentityChanged
| IncompleteResults              (* "incomplete or mismatched tool results" *)
| InputNotBound                  (* "does not bind its results" *)
| ContinuationIdentityChanged
| ResponseIdentityChanged
| ExchangeConflicts
| ExchangeInputMismatch          (* "does not match current durable input" *)
| NotPending
| ResultConflicts
| ExceedsBound (digest : Sha256Digest)
| FailedVerification (digest : Sha256Digest)
| InArtifacts (e : ArtifactStoreError)
| InCodec (e : CodecError)
| NotUtf8
| JsonError
| SqlError.

(** A row of [model_episode_contexts]. *)
Record ContextRow := MkContext {
  cx_system_prompt : string;
  cx_initial_user_text : string;
  cx_tools_json : bytes;
  cx_initial_input_digest : Sha256Digest;
  cx_latest_input_digest : Sha256Digest;
  cx_continuation_digest : option Sha256Digest;
}.

(** A row of [model_pending_tool_results]. *)
Record PendingRow := MkPending {
  pn_native_call_id : string;
  pn_result_digest : option Sha256Digest;
}.

(** A row of [model_turn_exchanges]: [struct ModelExchangeIdentity]. *)
Record ExchangeRow := MkExchangeRow {
  ex_episode_id : string;
  ex_turn_index : N;
  ex_input_digest : Sha256Digest;
  ex_request_digest : Sha256Digest;
  ex_response_digest : Sha256Digest;
  ex_continuation_digest : Sha256Digest;
  ex_provider_request_id : option string;
  ex_actual_model : option string;
}.

#[export] Instance ExchangeRow_eq_dec : EqDecision ExchangeRow.
Proof. solve_decision. Defined.

(** [struct SqliteModelContextStore]: the tables, the artifacts, the limits. *)
Record ContextStore (A : Type) := MkContextStore {
  cs_contexts : gmap string ContextRow;
  cs_pending : gmap string (list PendingRow);
  cs_exchanges : gmap string ExchangeRow;
  cs_artifacts : A;
  cs_limits : CodecLimits;
}.
Arguments MkContextStore {A} _ _ _ _ _.
Arguments cs_contexts {A} _.
Arguments cs_pending {A} _.
Arguments cs_exchanges {A} _.
Arguments cs_artifacts {A} _.
Arguments cs_limits {A} _.

(** [struct OwnedToolResult]. *)
Record OwnedToolResult := MkToolResult {
  tr_native_call_id : string;
  tr_output : string;
}.

(** [struct ProviderTurnInput]. *)
Record ProviderTurnInput (V : Type) := MkTurnInput {
  ti_system_prompt : string;
  ti_initial_user_text : option string;
  ti_continuation : option (NativeContinuation V);
  ti_tool_results : list OwnedToolResult;
  ti_tools : list (CodecToolDefinition V);
}.
Arguments MkTurnInput {V} _ _ _ _ _.
Arguments ti_system_prompt {V} _.
Arguments ti_initial_user_text {V} _.
Arguments ti_continuation {V} _.
Arguments ti_tool_results {V} _.
Arguments ti_tools {V} _.

(** [struct ProviderTurnExchange]. *)
Record ProviderTurnExchange (V : Type) := MkProviderExchange {
  px_gateway_exchange : GatewayTurnExchange;
  px_request_body : bytes;
  px_response_body : bytes;
  px_native_continuation : NativeContinuation V;
  px_provider_request_id : option string;
  px_actual_model : option string;
}.
Arguments MkProviderExchange {V} _ _ _ _ _ _.
Arguments px_gateway_exchange {V} _.
Arguments px_request_body {V} _.
Arguments px_response_body {V} _.
Arguments px_native_continuation {V} _.
Arguments px_provider_request_id {V} _.
Arguments px_actual_model {V} _.

Section store.
Context `{Sha256} `{ArtifactStore A} `{ModelSerde V}.

Definition set_artifacts (s : ContextStore A) (a : A) : ContextStore A :=
  MkContextStore (cs_contexts s) (cs_pending s) (cs_exchanges s) a (cs_limits s).

(** [initial_digest]. *)
Definition initial_digest (system_prompt user_text : string) (tools : bytes) : Sha256Digest :=
  digest_bytes (as_bytes "alloyport-initial-model-input-v1" ++ [Byte.x00]
    ++ as_bytes system_prompt ++ [Byte.x00] ++ as_bytes user_text ++ [Byte.x00] ++ tools).

(** [SqliteModelContextStore::create_episode]. *)
Definition create_episode (episode_id : EpisodeId) (system_prompt initial_user_text : string)
    (tools : list (CodecToolDefinition V)) (s : ContextStore A) :
    result ContextError (Sha256Digest * ContextStore A) :=
  guard_err (trim_is_empty system_prompt || trim_is_empty initial_user_text) EmptyPrompts ;;
  tools_json ← ok_or (tools_to_vec tools) JsonError;
  let initial := initial_digest system_prompt initial_user_text tools_json in
  let key := as_str episode_id in
  match cs_contexts s !! key with
  | None =>
      Ok (initial, MkContextStore
        (<[key := MkContext system_prompt initial_user_text tools_json initial initial None]>
           (cs_contexts s)) (cs_pending s) (cs_exchanges s) (cs_artifacts s) (cs_limits s))
  | Some row =>
      guard_err (negb (bool_decide (cx_system_prompt row = system_prompt
                   /\ cx_initial_user_text row = initial_user_text
                   /\ cx_tools_json row = tools_json
                   /\ cx_initial_input_digest row = initial))) ContextConflicts ;;
      Ok (initial, s)
  end.

(** [SqliteModelContextStore::open_bytes]. *)
Definition open_bytes (digest : Sha256Digest) (limit : N) (s : ContextStore A) :
    result ContextError bytes :=
  reader ← map_err InArtifacts (artifact_open digest (cs_artifacts s));
  guard_err (limit <? ai_size_bytes (rd_identity reader)) (ExceedsBound digest) ;;
  let content := take (N.to_nat (saturating_add u64_max limit 1)) (rd_source reader) in
  guard_err ((limit <? byte_len content) || negb (bool_decide (digest_bytes content = digest)))
    (FailedVerification digest) ;;
  Ok content.

(** [SqliteModelContextStore::ingest]: the artifacts keep what was stored
    even when the caller fails later. *)
Definition ingest (b : bytes) (s : ContextStore A) :
    ContextStore A * result ContextError Sha256Digest :=
  let '(a, r) := artifact_ingest b
    (MkIngestRequest (Some (digest_bytes b)) (Some (byte_len b))) (cs_artifacts s) in
  (set_artifacts s a, _ ← map_err InArtifacts r; Ok (digest_bytes b)).

(** [publish_diagnostic]. *)
Definition publish_diagnostic (text : string) (s : ContextStore A) :
    ContextStore A * result ContextError Sha256Digest := ingest (as_bytes text) s.

(** The pending rows of an episode, by call index. *)
Definition pending_rows (episode : string) (s : ContextStore A) : list PendingRow :=
  default [] (cs_pending s !! episode).

(** [pending_result_digests]: nothing while a result is missing. *)
Definition pending_result_digests (rows : list PendingRow) : list Sha256Digest :=
  default [] (mapM pn_result_digest rows).

(** The loop of [load] over the validated rows. *)
Definition load_result (s : ContextStore A) (row : PendingRow) : result ContextError OwnedToolResult :=
  digest ← ok_or (pn_result_digest row) IncompleteResults;
  output ← open_bytes digest (max_tool_result_bytes (cs_limits s)) s;
  guard_err (negb (utf8_valid output)) NotUtf8 ;;
  Ok (MkToolResult (pn_native_call_id row) (string_of_bytes output)).

(** [ModelTurnContextStore::load]. *)
Definition load (request : ModelTurnRequest) (s : ContextStore A) :
    result ContextError (ProviderTurnInput V) :=
  let key := as_str (mr_episode_id request) in
  context ← ok_or (cs_contexts s !! key) ContextAbsent;
  guard_err (negb (bool_decide (mr_input_digest request = cx_latest_input_digest context)))
    InputMismatch ;;
  tools ← ok_or (tools_from_slice (cx_tools_json context)) JsonError;
  match cx_continuation_digest context with
  | None =>
      guard_err (negb (bool_decide (mr_input_digest request = cx_initial_input_digest context)))
        InitialIdentityChanged ;;
      Ok (MkTurnInput (cx_system_prompt context) (Some (cx_initial_user_text context)) None [] tools)
  | Some continuation_digest =>
      continuation_bytes ←
        open_bytes continuation_digest (max_continuation_bytes (cs_limits s)) s;
      continuation ← map_err InCodec (from_canonical_bytes continuation_bytes (cs_limits s));
      let pending := pending_rows key s in
      guard_err (negb (length pending =? length (nc_pending_call_ids continuation))%nat
                 || existsb (fun p => negb (bool_decide (pn_native_call_id p.1 = p.2))
                                      || bool_decide (pn_result_digest p.1 = None))
                      (zip pending (nc_pending_call_ids continuation))) IncompleteResults ;;
      tool_results ← mapM (load_result s) pending;
      let expected := derive_model_continuation_input_digest continuation_digest
                        (pending_result_digests pending) in
      guard_err (negb (bool_decide (expected = mr_input_digest request))) InputNotBound ;;
      Ok (MkTurnInput (cx_system_prompt context) None (Some continuation) tool_results tools)
  end.

(** The transaction of [commit]. *)
Definition commit_tables (request : ModelTurnRequest) (exchange : ProviderTurnExchange V)
    (continuation_digest request_digest response_digest : Sha256Digest) (s : ContextStore A) :
    result ContextError (ContextStore A) :=
  let episode := as_str (mr_episode_id request) in
  let attempt := as_str (mr_attempt_id request) in
  let expected := MkExchangeRow episode (mr_turn_index request) (mr_input_digest request)
    request_digest response_digest continuation_digest (px_provider_request_id exchange)
    (px_actual_model exchange) in
  match cs_exchanges s !! attempt with
  | Some existing => guard_err (negb (bool_decide (existing = expected))) ExchangeConflicts ;; Ok s
  | None =>
      context ← ok_or (cs_contexts s !! episode) ExchangeInputMismatch;
      guard_err (negb (bool_decide (cx_latest_input_digest context = mr_input_digest request)))
        ExchangeInputMismatch ;;
      (* the CHECK and the unique index of model_turn_exchanges *)
      guard_err ((mr_turn_index request =? 0)
                 || existsb (fun kx => bool_decide (ex_episode_id kx.2 = episode
                                         /\ ex_turn_index kx.2 = mr_turn_index request))
                      (map_to_list (cs_exchanges s))) SqlError ;;
      let ids := nc_pending_call_ids (px_native_continuation exchange) in
      (* the primary key of model_pending_tool_results *)
      guard_err (negb (bool_decide (NoDup ids))) SqlError ;;
      Ok (MkContextStore
        (<[episode := MkContext (cx_system_prompt context) (cx_initial_user_text context)
             (cx_tools_json context) (cx_initial_input_digest context)
             (cx_latest_input_digest context) (Some continuation_digest)]> (cs_contexts s))
        (<[episode := (fun id => MkPending id None) <$> ids]> (cs_pending s))
        (<[attempt := expected]> (cs_exchanges s)) (cs_artifacts s) (cs_limits s))
  end.

(** [ModelTurnContextStore::commit]. *)
Definition commit (request : ModelTurnRequest) (exchange : ProviderTurnExchange V)
    (s : ContextStore A) : ContextStore A * result ContextError unit :=
  match canonical_bytes (px_native_continuation exchange) with
  | Err e => (s, Err (InCodec e))
  | Ok continuation_bytes =>
      match ingest continuation_bytes s with
      | (s1, Err e) => (s1, Err e)
      | (s1, Ok continuation_digest) =>
          if negb (bool_decide (continuation_digest
                     = ge_native_continuation_digest (px_gateway_exchange exchange)))
          then (s1, Err ContinuationIdentityChanged)
          else
            match ingest (px_request_body exchange) s1 with
            | (s2, Err e) => (s2, Err e)
            | (s2, Ok request_digest) =>
                match ingest (px_response_body exchange) s2 with
                | (s3, Err e) => (s3, Err e)
                | (s3, Ok response_digest) =>
                    if negb (bool_decide (response_digest
                               = ge_raw_exchange_digest (px_gateway_exchange exchange)))
                    then (s3, Err ResponseIdentityChanged)
                    else
                      match commit_tables request exchange continuation_digest request_digest
                              response_digest s3 with
                      | Err e => (s3, Err e)
                      | Ok s4 => (s4, Ok tt)
                      end
                end
            end
      end
  end.

(** The row of a call, and its update. *)
Definition find_pending (native_call_id : string) (rows : list PendingRow) : option PendingRow :=
  List.find (fun row => bool_decide (pn_native_call_id row = native_call_id)) rows.

Definition set_result (native_call_id : string) (digest : Sha256Digest) (rows : list PendingRow) :
    list PendingRow :=
  (fun row => if decide (pn_native_call_id row = native_call_id)
              then MkPending native_call_id (Some digest) else row) <$> rows.

(** [ModelToolResultSink::record_tool_result]. *)
Definition record_tool_result (episode_id : EpisodeId) (native_call_id : string)
    (result_digest : Sha256Digest) (s : ContextStore A) : result ContextError (ContextStore A) :=
  let episode := as_str episode_id in
  output ← open_bytes result_digest (max_tool_result_bytes (cs_limits s)) s;
  guard_err (negb (utf8_valid output)) NotUtf8 ;;
  row ← ok_or (find_pending native_call_id (pending_rows episode s)) NotPending;
  match pn_result_digest row with
  | Some existing =>
      guard_err (negb (bool_decide (existing = result_digest))) ResultConflicts ;; Ok s
  | None =>
      let rows := set_result native_call_id result_digest (pending_rows episode s) in
      context ← ok_or (cs_contexts s !! episode) SqlError;
      continuation ← ok_or (cx_continuation_digest context) SqlError;
      let digests := pending_result_digests rows in
      let context' :=
        if (length digests =? 0)%nat then context
        else MkContext (cx_system_prompt context) (cx_initial_user_text context)
               (cx_tools_json context) (cx_initial_input_digest context)
               (derive_model_continuation_input_digest continuation digests)
               (cx_continuation_digest context) in
      Ok (MkContextStore (<[episode := context']> (cs_contexts s))
            (<[episode := rows]> (cs_pending s)) (cs_exchanges s) (cs_artifacts s) (cs_limits s))
  end.

End store.

(** ** Lemmas *)

Section store_facts.
Context `{Sha256} `{ArtifactStore A} `{!ArtifactStoreLaws A} `{ModelSerde V} `{!ModelSerdeLaws V}.

(** The artifact of a digest. *)
Definition artifact (d : Sha256Digest) (s : ContextStore A) (b : bytes) : Prop :=
  exists r, artifact_open d (cs_artifacts s) = Ok r /\ rd_source r = b.

Lemma artifact_digest d s b : artifact d s b -> digest_bytes b = d.
Proof. intros (r & Hr & <-). by apply open_Ok in Hr as [_ ?]. Qed.

(** Everything openable in [s] stays so in [s']. *)
Definition artifacts_grow (s s' : ContextStore A) : Prop :=
  forall d b, artifact d s b -> artifact d s' b.

#[local] Instance artifacts_grow_preorder : PreOrder artifacts_grow.
Proof. split; [by intros s d b|]. intros a b c Hab Hbc d x ?. by apply Hbc, Hab. Qed.

Lemma open_bytes_Ok d limit s b :
  limit <= u64_max ->
  open_bytes d limit s = Ok b <-> artifact d s b /\ byte_len b <= limit.
Proof.
  intros Hl. unfold open_bytes, artifact.
  rewrite result_bind_Ok. setoid_rewrite map_err_Ok.
  split.
  - intros (r & Hr & [Hs%N.ltb_ge [[Hc%N.ltb_ge _]%orb_false_iff [= <-]]%guard_bind_Ok]%guard_bind_Ok).
    pose proof (open_Ok _ _ _ Hr) as [Hi Hd]. rewrite Hi in Hs. cbn in Hs.
    assert (take (N.to_nat (saturating_add u64_max limit 1)) (rd_source r) = rd_source r) as E.
    { apply take_ge. unfold saturating_add, byte_len, u64_max in *. lia. }
    rewrite E. split; [by exists r|done].
  - intros ((r & Hr & <-) & Hlen). exists r. split; [done|].
    pose proof (open_Ok _ _ _ Hr) as [Hi Hd].
    assert (take (N.to_nat (saturating_add u64_max limit 1)) (rd_source r) = rd_source r) as E.
    { apply take_ge. unfold saturating_add, byte_len, u64_max in *. lia. }
    rewrite E, Hi. cbn [ai_size_bytes]. rewrite (proj2 (N.ltb_ge _ _) Hlen), bool_decide_true by done.
    done.
Qed.

Lemma ingest_spec b s :
  let '(s', r) := ingest b s in
  cs_contexts s' = cs_contexts s /\ cs_pending s' = cs_pending s
  /\ cs_exchanges s' = cs_exchanges s /\ cs_limits s' = cs_limits s /\ artifacts_grow s s'
  /\ forall d, r = Ok d -> d = digest_bytes b /\ artifact d s' b.
Proof.
  unfold ingest, artifacts_grow, artifact.
  pose proof (ingest_keeps b (MkIngestRequest (Some (digest_bytes b)) (Some (byte_len b)))
    (cs_artifacts s)) as Hk.
  pose proof (ingest_Ok b (MkIngestRequest (Some (digest_bytes b)) (Some (byte_len b)))
    (cs_artifacts s)) as Ho.
  destruct (artifact_ingest _ _ _) as [a r]. cbn [fst snd] in *. split_and!; try done; cbn.
  - intros d x (y & Hy & Hx). exists y. split; [by apply Hk|done].
  - intros d (x & Hx%map_err_Ok & [= <-])%result_bind_Ok. split; [done|].
    destruct (Ho _ Hx) as (_ & _ & E). eexists. by split.
Qed.

(** ** Validating the pending rows *)

Lemma rows_checked rows ids :
  negb (length rows =? length ids)%nat
  || existsb (fun p => negb (bool_decide (pn_native_call_id p.1 = p.2))
                       || bool_decide (pn_result_digest p.1 = None)) (zip rows ids) = false
  <-> pn_native_call_id <$> rows = ids
      /\ Forall (fun row => is_Some (pn_result_digest row)) rows.
Proof.
  revert ids. induction rows as [|row rows IH]; intros [|id ids]; cbn.
  - split; [intros _; split; [done|constructor]|done].
  - split; [done|by intros [? ?]].
  - split; [done|by intros [? ?]].
  - specialize (IH ids). cbn in IH. rewrite List.Forall_cons_iff, <-(not_eq_None_Some (pn_result_digest row)).
    rewrite !orb_false_iff, !negb_false_iff, bool_decide_eq_true, bool_decide_eq_false.
    rewrite orb_false_iff, negb_false_iff in IH. destruct IH as [IH1 IH2]. split.
    + intros (Hl & [Hid Hd] & Hx). destruct (IH1 (conj Hl Hx)) as [E ?].
      split_and!; [f_equal; done|done|done].
    + intros (E & Hd & Hf). injection E as Hid E. destruct (IH2 (conj E Hf)). by split_and!.
Qed.

(** The digests of rows that all have one. *)
Lemma results_all rows :
  Forall (fun row => is_Some (pn_result_digest row)) rows ->
  mapM pn_result_digest rows = Some (pending_result_digests rows)
  /\ Forall2 (fun row d => pn_result_digest row = Some d) rows (pending_result_digests rows).
Proof.
  intros Hf. apply mapM_is_Some in Hf as [ds Hds]. unfold pending_result_digests. rewrite Hds.
  split; [done|]. by apply mapM_Some.
Qed.

Lemma load_result_Ok s row r :
  max_tool_result_bytes (cs_limits s) <= u64_max ->
  load_result s row = Ok r <->
  exists d b, pn_result_digest row = Some d /\ artifact d s b
    /\ byte_len b <= max_tool_result_bytes (cs_limits s) /\ utf8_valid b = true
    /\ r = MkToolResult (pn_native_call_id row) (string_of_bytes b).
Proof.
  intros Hl. unfold load_result. rewrite result_bind_Ok. setoid_rewrite ok_or_Ok.
  setoid_rewrite result_bind_Ok. setoid_rewrite open_bytes_Ok; [|done].
  setoid_rewrite guard_bind_Ok. setoid_rewrite negb_false_iff.
  split.
  - intros (d & Hd & b & [Hb Hlen] & Hu & [= <-]). exists d, b. by split_and!.
  - intros (d & b & Hd & Hb & Hlen & Hu & ->). exists d. split; [done|]. exists b. by split_and!.
Qed.

Lemma mapM_results s rows rs :
  mapM (load_result s) rows = Ok rs <-> Forall2 (fun row r => load_result s row = Ok r) rows rs.
Proof.
  revert rs. induction rows as [|row rows IH]; intros rs; cbn.
  - split; [by intros [= <-]; constructor|]. by inversion 1.
  - split.
    + intros (r & Hr & (rs' & Hrs & [= <-])%result_bind_Ok)%result_bind_Ok.
      constructor; [done|]. by apply IH.
    + inversion 1 as [|? r ? rs' Hr Hrs]; subst. apply result_bind_Ok. exists r. split; [done|].
      apply result_bind_Ok. exists rs'. split; [by apply IH|done].
Qed.

(** ** Invariant *)

(** Limits a store can be opened with; a [usize] fits a [u64]. *)
Definition limits_ok (l : CodecLimits) : Prop :=
  limits_validate l = Ok l /\ max_continuation_bytes l <= u64_max /\ max_tool_result_bytes l <= u64_max.

(** The continuations [NativeContinuation::new] and the decoders make. *)
Definition codec_made (l : CodecLimits) (c : NativeContinuation V) : Prop :=
  nc_schema_version c = NATIVE_CONTINUATION_SCHEMA_V1
  /\ check_call_ids (nc_pending_call_ids c) ∅ = Ok tt
  /\ forall b, continuation_to_vec c = Some b -> byte_len b <= max_continuation_bytes l.

Lemma codec_made_round_trip l c b :
  limits_ok l -> codec_made l c -> canonical_bytes c = Ok b ->
  from_canonical_bytes b l = Ok c /\ byte_len b <= max_continuation_bytes l.
Proof.
  intros (Hl & _) (Hv & Hids & Hb) Hc%ok_or_Ok. split; [|by apply Hb].
  unfold from_canonical_bytes, ensure_bound. rewrite Hl. cbn [mbind result_bind].
  rewrite (proj2 (N.ltb_ge _ _) (Hb b Hc)). cbn [guard_err mbind result_bind].
  rewrite (continuation_round_trip _ _ Hc). cbn [ok_or mbind result_bind].
  by rewrite Hv, Hids.
Qed.

Record CtxInv (s : ContextStore A) : Prop := {
  ci_limits : limits_ok (cs_limits s);
  ci_tools : forall key c, cs_contexts s !! key = Some c ->
    exists t : list (CodecToolDefinition V), tools_from_slice (cx_tools_json c) = Some t;
  ci_absent : forall key, cs_contexts s !! key = None -> pending_rows key s = [];
  ci_initial : forall key c, cs_contexts s !! key = Some c -> cx_continuation_digest c = None ->
    pending_rows key s = [] /\ cx_latest_input_digest c = cx_initial_input_digest c;
  ci_continuation : forall key c cd, cs_contexts s !! key = Some c ->
    cx_continuation_digest c = Some cd ->
    exists cont b, artifact cd s b /\ byte_len b <= max_continuation_bytes (cs_limits s)
      /\ from_canonical_bytes b (cs_limits s) = Ok cont
      /\ pn_native_call_id <$> pending_rows key s = nc_pending_call_ids (V := V) cont;
  ci_results : forall key row d, row ∈ pending_rows key s -> pn_result_digest row = Some d ->
    exists b, artifact d s b /\ byte_len b <= max_tool_result_bytes (cs_limits s)
      /\ utf8_valid b = true;
  ci_latest : forall key c cd, cs_contexts s !! key = Some c -> cx_continuation_digest c = Some cd ->
    pending_rows key s <> [] ->
    Forall (fun row => is_Some (pn_result_digest row)) (pending_rows key s) ->
    cx_latest_input_digest c
    = derive_model_continuation_input_digest cd (pending_result_digests (pending_rows key s));
}.

(** Growing the artifacts. *)
Lemma CtxInv_grow s s' :
  CtxInv s -> cs_contexts s' = cs_contexts s -> cs_pending s' = cs_pending s ->
  cs_limits s' = cs_limits s -> artifacts_grow s s' -> CtxInv s'.
Proof.
  intros [] Ec Ep El Hg.
  assert (forall key, pending_rows key s' = pending_rows key s) as Er
    by (intros key; unfold pending_rows; by rewrite Ep).
  split; rewrite ?El, ?Ec; try setoid_rewrite Er; eauto.
  - intros key c cd Hc Hd. destruct (ci_continuation0 key c cd Hc Hd) as (cont & b & Hb & ?).
    exists cont, b. split; [by apply Hg|done].
  - intros key row d Hr Hd. destruct (ci_results0 key row d Hr Hd) as (b & Hb & ?).
    exists b. split; [by apply Hg|done].
Qed.

Lemma CtxInv_ingest b s : CtxInv s -> CtxInv (ingest b s).1.
Proof.
  intros Hi. pose proof (ingest_spec b s) as Hs. destruct (ingest b s) as [s' r]. cbn [fst].
  destruct Hs as (? & ? & _ & ? & ? & _). by eapply CtxInv_grow.
Qed.

(** Replacing the row of one episode and its pending results. *)
Lemma pending_rows_insert key rows key' (s : ContextStore A) contexts exchanges :
  pending_rows key' (MkContextStore contexts (<[key := rows]> (cs_pending s)) exchanges
    (cs_artifacts s) (cs_limits s))
  = if decide (key' = key) then rows else pending_rows key' s.
Proof.
  unfold pending_rows. cbn. case_decide as E; [subst; by rewrite lookup_insert_eq|].
  by rewrite lookup_insert_ne.
Qed.

Lemma CtxInv_update key c rows exchanges s cd cont b :
  CtxInv s ->
  (exists t : list (CodecToolDefinition V), tools_from_slice (cx_tools_json c) = Some t) ->
  cx_continuation_digest c = Some cd -> artifact cd s b ->
  byte_len b <= max_continuation_bytes (cs_limits s) ->
  from_canonical_bytes b (cs_limits s) = Ok cont ->
  pn_native_call_id <$> rows = nc_pending_call_ids (V := V) cont ->
  (forall row d, row ∈ rows -> pn_result_digest row = Some d ->
    exists x, artifact d s x /\ byte_len x <= max_tool_result_bytes (cs_limits s)
      /\ utf8_valid x = true) ->
  (rows <> [] -> Forall (fun row => is_Some (pn_result_digest row)) rows ->
    cx_latest_input_digest c
    = derive_model_continuation_input_digest cd (pending_result_digests rows)) ->
  CtxInv (MkContextStore (<[key := c]> (cs_contexts s)) (<[key := rows]> (cs_pending s)) exchanges
    (cs_artifacts s) (cs_limits s)).
Proof.
  intros [] Ht Hcd Hart Hlen Hfrom Hids Hres Hlatest.
  split; cbn [cs_limits cs_contexts]; try setoid_rewrite pending_rows_insert; [done|..].
  - intros k x [[<- <-]|[_ ?]]%lookup_insert_Some; eauto.
  - intros k [? ?]%lookup_insert_None. rewrite decide_False by done. auto.
  - intros k x [[<- <-]|[? ?]]%lookup_insert_Some; [congruence|]. rewrite decide_False by done. eauto.
  - intros k x d [[<- <-]|[? Hx]]%lookup_insert_Some Hd.
    + rewrite decide_True by done. simplify_eq. by exists cont, b.
    + rewrite decide_False by done. by apply (ci_continuation0 k x).
  - intros k row d. case_decide; [by apply Hres|by apply ci_results0].
  - intros k x d [[<- <-]|[? Hx]]%lookup_insert_Some Hd.
    + rewrite decide_True by done. simplify_eq. done.
    + rewrite decide_False by done. by apply (ci_latest0 k x).
Qed.

(** ** The operations *)

Lemma create_episode_inv e sp ut tools s d s' :
  CtxInv s -> create_episode e sp ut tools s = Ok (d, s') ->
  CtxInv s' /\ exists c, cs_contexts s' !! as_str e = Some c /\ cx_initial_input_digest c = d.
Proof.
  intros Hi. unfold create_episode.
  intros [_ (json & Hj%ok_or_Ok & Hr)%result_bind_Ok]%guard_bind_Ok.
  destruct (cs_contexts s !! as_str e) as [row|] eqn:Hk.
  { apply guard_bind_Ok in Hr as [E%negb_false_iff%bool_decide_eq_true [= <- <-]].
    split; [done|]. exists row. by destruct E as (_ & _ & _ & ?). }
  injection Hr as <- <-. split; [|eexists; split; [apply lookup_insert_eq|done]].
  destruct Hi. split; cbn; eauto.
  - intros k x [[<- <-]|[_ ?]]%lookup_insert_Some; [|by eauto]. cbn.
    exists tools. by apply tools_round_trip.
  - intros k [Hn _]%lookup_insert_None. by apply ci_absent0.
  - intros k x [[<- <-]|[_ ?]]%lookup_insert_Some; [|by eauto]. intros _. cbn.
    split; [by apply ci_absent0|done].
  - intros k x cd [[<- <-]|[_ ?]]%lookup_insert_Some; [done|by eauto].
  - intros k x cd [[<- <-]|[_ ?]]%lookup_insert_Some; [done|by eauto].
Qed.

(** The four stores a commit goes through, and its table update. *)
Lemma commit_cases req ex s :
  let '(s', r) := commit req ex s in
  exists s3, cs_contexts s3 = cs_contexts s /\ cs_pending s3 = cs_pending s
    /\ cs_exchanges s3 = cs_exchanges s /\ cs_limits s3 = cs_limits s /\ artifacts_grow s s3
    /\ match r with
       | Err _ => s' = s3
       | Ok _ => exists b, canonical_bytes (px_native_continuation ex) = Ok b
           /\ artifact (digest_bytes b) s3 b
           /\ digest_bytes b = ge_native_continuation_digest (px_gateway_exchange ex)
           /\ digest_bytes (px_response_body ex) = ge_raw_exchange_digest (px_gateway_exchange ex)
           /\ commit_tables req ex (digest_bytes b) (digest_bytes (px_request_body ex))
                (digest_bytes (px_response_body ex)) s3 = Ok s'
       end.
Proof.
  unfold commit. destruct (canonical_bytes _) as [b|e]; [|by exists s].
  pose proof (ingest_spec b s) as H1'. destruct (ingest b s) as [s1 [d1|e]];
    destruct H1' as (C1 & P1 & X1 & L1 & G1 & D1); [|by exists s1].
  destruct (D1 d1 eq_refl) as [-> A1].
  case_bool_decide as Ec; cbn [negb]; [|by exists s1].
  pose proof (ingest_spec (px_request_body ex) s1) as H2'.
  destruct (ingest (px_request_body ex) s1) as [s2 [d2|e]];
    destruct H2' as (C2 & P2 & X2 & L2 & G2 & D2);
    [|exists s2; split_and!; try congruence; by etrans].
  destruct (D2 d2 eq_refl) as [-> A2].
  pose proof (ingest_spec (px_response_body ex) s2) as H3'.
  destruct (ingest (px_response_body ex) s2) as [s3 [d3|e]];
    destruct H3' as (C3 & P3 & X3 & L3 & G3 & D3);
    [|exists s3; split_and!; try congruence; etrans; [done|by etrans]].
  destruct (D3 d3 eq_refl) as [-> A3].
  assert (cs_contexts s3 = cs_contexts s /\ cs_pending s3 = cs_pending s
    /\ cs_exchanges s3 = cs_exchanges s /\ cs_limits s3 = cs_limits s /\ artifacts_grow s s3)
    as (? & ? & ? & ? & ?).
  { split_and!; try congruence. etrans; [done|by etrans]. }
  case_bool_decide as Er; cbn [negb]; [|by exists s3].
  destruct (commit_tables _ _ _ _ _ s3) as [s4|e] eqn:Et; exists s3; split_and!; try done.
  exists b. split_and!; try done. by apply G3, G2.
Qed.

(** What a fresh table update writes. *)
Lemma commit_tables_Ok req (ex : ProviderTurnExchange V) cd rqd rsd (s s' : ContextStore A) :
  commit_tables req ex cd rqd rsd s = Ok s' ->
  (s' = s /\ exists x, cs_exchanges s !! as_str (mr_attempt_id req) = Some x
     /\ ex_continuation_digest x = cd /\ ex_input_digest x = mr_input_digest req)
  \/ (cs_exchanges s !! as_str (mr_attempt_id req) = None
      /\ exists c exchanges, cs_contexts s !! as_str (mr_episode_id req) = Some c
        /\ cx_latest_input_digest c = mr_input_digest req
        /\ s' = MkContextStore
             (<[as_str (mr_episode_id req) := MkContext (cx_system_prompt c)
                (cx_initial_user_text c) (cx_tools_json c) (cx_initial_input_digest c)
                (cx_latest_input_digest c) (Some cd)]> (cs_contexts s))
             (<[as_str (mr_episode_id req) := (fun id => MkPending id None)
                <$> nc_pending_call_ids (px_native_continuation ex)]> (cs_pending s))
             exchanges (cs_artifacts s) (cs_limits s)).
Proof.
  unfold commit_tables. destruct (cs_exchanges s !! _) as [x|] eqn:Ex.
  - intros [E%negb_false_iff%bool_decide_eq_true [= <-]]%guard_bind_Ok.
    left. split; [done|]. exists x. by subst x.
  - intros (c & Hc%ok_or_Ok & [E%negb_false_iff%bool_decide_eq_true
      [_ [_ [= <-]]%guard_bind_Ok]%guard_bind_Ok]%guard_bind_Ok)%result_bind_Ok.
    right. split; [done|]. by exists c, (<[as_str (mr_attempt_id req) := MkExchangeRow
      (as_str (mr_episode_id req)) (mr_turn_index req) (mr_input_digest req) rqd rsd cd
      (px_provider_request_id ex) (px_actual_model ex)]> (cs_exchanges s)).
Qed.

Lemma fresh_pending_ids (ids : list string) :
  pn_native_call_id <$> ((fun id => MkPending id None) <$> ids) = ids.
Proof. rewrite <-list_fmap_compose. induction ids as [|id ids IH]; [done|]. cbn. by rewrite IH. Qed.

Lemma commit_inv req ex s :
  CtxInv s -> codec_made (cs_limits s) (px_native_continuation ex) -> CtxInv (commit req ex s).1.
Proof.
  intros Hi Hm. pose proof (commit_cases req ex s) as Hc. destruct (commit req ex s) as [s' r].
  destruct Hc as (s3 & C & P & X & L & G & Hr). cbn [fst].
  assert (CtxInv s3) as Hi3 by by eapply CtxInv_grow.
  destruct r as [u|e]; [|by subst].
  destruct Hr as (b & Hb & Ha & _ & _ & [[-> _]|(_ & c & xs & Hk & _ & ->)]%commit_tables_Ok); [done|].
  rewrite <-L in Hm. destruct (codec_made_round_trip _ _ _ (ci_limits _ Hi3) Hm Hb) as [Hf Hlen].
  eapply CtxInv_update; try done.
  - exact (ci_tools _ Hi3 _ _ Hk).
  - apply fresh_pending_ids.
  - intros row d (id & -> & _)%list_elem_of_fmap. done.
  - intros Hne Hall. destruct (nc_pending_call_ids (px_native_continuation ex)) as [|id ids]; [done|].
    cbn in Hall. apply List.Forall_cons_iff in Hall as [[? ?] _]. done.
Qed.

Lemma set_result_ids id d (rows : list PendingRow) :
  pn_native_call_id <$> set_result id d rows = pn_native_call_id <$> rows.
Proof.
  unfold set_result. rewrite <-list_fmap_compose. apply list_fmap_ext. intros i row _. cbn.
  by case_decide.
Qed.

Lemma elem_of_set_result id d rows row :
  row ∈ set_result id d rows -> row ∈ rows \/ row = MkPending id (Some d).
Proof.
  intros (x & -> & Hx)%list_elem_of_fmap. case_decide; [by right|by left].
Qed.

Lemma find_pending_Some id rows row :
  find_pending id rows = Some row -> row ∈ rows /\ pn_native_call_id row = id.
Proof. intros [Hin E%bool_decide_eq_true]%List.find_some. by rewrite list_elem_of_In. Qed.

(** The cases of a recorded result. *)
Lemma record_tool_result_Ok e id d s s' :
  CtxInv s -> record_tool_result e id d s = Ok s' ->
  (exists b, artifact d s b /\ byte_len b <= max_tool_result_bytes (cs_limits s)
     /\ utf8_valid b = true)
  /\ exists row, find_pending id (pending_rows (as_str e) s) = Some row
  /\ ((pn_result_digest row = Some d /\ s' = s)
      \/ (pn_result_digest row = None
         /\ exists c c' cd, cs_contexts s !! as_str e = Some c
           /\ cx_continuation_digest c = Some cd
           /\ cx_continuation_digest c' = Some cd
           /\ cx_tools_json c' = cx_tools_json c
           /\ cx_latest_input_digest c' =
                (let ds := pending_result_digests (set_result id d (pending_rows (as_str e) s)) in
                 if (length ds =? 0)%nat then cx_latest_input_digest c
                 else derive_model_continuation_input_digest cd ds)
           /\ s' = MkContextStore (<[as_str e := c']> (cs_contexts s))
                (<[as_str e := set_result id d (pending_rows (as_str e) s)]> (cs_pending s))
                (cs_exchanges s) (cs_artifacts s) (cs_limits s))).
Proof.
  intros Hi. destruct (ci_limits s Hi) as (_ & _ & Hl). unfold record_tool_result.
  intros (b & Hb & [Hu%negb_false_iff (row & Hrow%ok_or_Ok & H')%result_bind_Ok]%guard_bind_Ok)
    %result_bind_Ok.
  apply open_bytes_Ok in Hb as [Hb Hlen]; [|done].
  split; [by exists b|]. exists row. split; [done|].
  destruct (pn_result_digest row) as [x|].
  - left. apply guard_bind_Ok in H' as [E%negb_false_iff%bool_decide_eq_true [= <-]]. by subst.
  - right. split; [done|].
    apply result_bind_Ok in H' as (c & Hc%ok_or_Ok & H').
    apply result_bind_Ok in H' as (cd & Hcd%ok_or_Ok & [= <-]).
    exists c. eexists. exists cd. split_and!; [done|done| | | |reflexivity]; by destruct (_ =? _)%nat.
Qed.

Lemma record_tool_result_inv e id d s s' :
  CtxInv s -> record_tool_result e id d s = Ok s' -> CtxInv s'.
Proof.
  intros Hi Hr. destruct (record_tool_result_Ok _ _ _ _ _ Hi Hr)
    as ((b & Hb & Hlen & Hu) & row & Hrow & [[_ ->]|(_ & c & c' & cd & Hc & Hcd & Hcd' & Ht & Hlat & ->)]);
    [done|].
  destruct (ci_continuation s Hi _ _ _ Hc Hcd) as (cont & x & Hx & Hxl & Hfrom & Hids).
  eapply CtxInv_update; try done.
  - rewrite Ht. by eapply ci_tools.
  - by rewrite set_result_ids.
  - intros r d' [Hin| ->]%elem_of_set_result Hd'; [by eapply ci_results|].
    injection Hd' as <-. by exists b.
  - intros Hne Hall. rewrite Hlat. cbn zeta.
    destruct (results_all _ Hall) as [_ Hf2%Forall2_length].
    destruct (set_result id d (pending_rows (as_str e) s)) as [|r rs]; [done|].
    destruct (pending_result_digests (r :: rs)) as [|d0 ds]; [done|]. done.
Qed.

(** ** Runs *)

Inductive CtxOp :=
| CtxCreate (e : EpisodeId) (system_prompt user_text : string) (tools : list (CodecToolDefinition V))
| CtxCommit (request : ModelTurnRequest) (exchange : ProviderTurnExchange V)
| CtxRecord (e : EpisodeId) (native_call_id : string) (digest : Sha256Digest)
| CtxPublish (text : string).

Definition run_ctx (s : ContextStore A) (op : CtxOp) : ContextStore A :=
  match op with
  | CtxCreate e sp ut tools =>
      match create_episode e sp ut tools s with Ok (_, s') => s' | Err _ => s end
  | CtxCommit req ex => (commit req ex s).1
  | CtxRecord e id d => match record_tool_result e id d s with Ok s' => s' | Err _ => s end
  | CtxPublish text => (publish_diagnostic text s).1
  end.

(** Exchanges carry continuations the codec made. *)
Definition op_ok (l : CodecLimits) (op : CtxOp) : Prop :=
  match op with CtxCommit _ ex => codec_made l (px_native_continuation ex) | _ => True end.

Lemma commit_limits req ex s : cs_limits (commit req ex s).1 = cs_limits s.
Proof.
  pose proof (commit_cases req ex s) as Hc. destruct (commit req ex s) as [s' r]. cbn [fst].
  destruct Hc as (s3 & _ & _ & _ & L & _ & Hr). destruct r as [u|e]; [|by subst].
  destruct Hr as (b & _ & _ & _ & _ & [[-> _]|(_ & c & xs & _ & _ & ->)]%commit_tables_Ok); done.
Qed.

Lemma run_ctx_inv s op :
  CtxInv s -> op_ok (cs_limits s) op -> CtxInv (run_ctx s op) /\ cs_limits (run_ctx s op) = cs_limits s.
Proof.
  intros Hi Hop. destruct op; cbn [run_ctx].
  - destruct (create_episode _ _ _ _ _) as [[d s']|] eqn:E; [|done].
    split; [by eapply create_episode_inv|]. unfold create_episode in E.
    apply guard_bind_Ok in E as [_ (j & _ & E)%result_bind_Ok].
    destruct (cs_contexts s !! _); [by apply guard_bind_Ok in E as [_ [= _ <-]]|by injection E as _ <-].
  - split; [by apply commit_inv|apply commit_limits].
  - destruct (record_tool_result _ _ _ _) as [s'|] eqn:E; [|done].
    split; [by eapply record_tool_result_inv|].
    apply record_tool_result_Ok in E as (_ & row & _ & [[_ ->]|(_ & c & c' & cd & _ & _ & _ & _ & _ & ->)]);
      done.
  - split; [by apply CtxInv_ingest|]. unfold publish_diagnostic.
    pose proof (ingest_spec (as_bytes text) s) as Hs. destruct (ingest _ s). by destruct Hs as (_ & _ & _ & ? & _).
Qed.

Lemma run_ctx_all ops s :
  CtxInv s -> Forall (op_ok (cs_limits s)) ops ->
  CtxInv (foldl run_ctx s ops) /\ cs_limits (foldl run_ctx s ops) = cs_limits s.
Proof.
  revert s. induction ops as [|op ops IH]; intros s Hi Hf; [done|].
  apply List.Forall_cons_iff in Hf as [Hop Hf]. destruct (run_ctx_inv s op Hi Hop) as [Hi1 El].
  cbn. rewrite <-El. apply IH; [done|by rewrite El].
Qed.

(** A new database over an artifact store. *)
Definition context_empty (a : A) (l : CodecLimits) : ContextStore A := MkContextStore ∅ ∅ ∅ a l.

Lemma CtxInv_empty a l : limits_ok l -> CtxInv (context_empty a l).
Proof.
  intros Hl. split; cbn; try done. intros key row d Hr. by apply not_elem_of_nil in Hr.
Qed.

(** ** Loading *)

Lemma load_None_Ok (c : ContextRow) req s input :
  cs_contexts s !! as_str (mr_episode_id req) = Some c -> cx_continuation_digest c = None ->
  load req s = Ok input <->
  mr_input_digest req = cx_latest_input_digest c /\ mr_input_digest req = cx_initial_input_digest c
  /\ exists t, tools_from_slice (cx_tools_json c) = Some t
     /\ input = MkTurnInput (V := V) (cx_system_prompt c) (Some (cx_initial_user_text c)) None [] t.
Proof.
  intros Hc Hn. unfold load. rewrite Hc. cbn [ok_or mbind result_bind]. rewrite guard_bind_Ok.
  rewrite negb_false_iff, bool_decide_eq_true, result_bind_Ok, Hn. setoid_rewrite ok_or_Ok.
  split.
  - intros (Hl & t & Ht & [Hi%negb_false_iff%bool_decide_eq_true [= <-]]%guard_bind_Ok).
    split_and!; [done|done|by exists t].
  - intros (Hl & Hi & t & Ht & ->). split; [done|]. exists t. split; [done|].
    by rewrite bool_decide_true.
Qed.

Lemma load_Some_Ok (c : ContextRow) cd req s input :
  limits_ok (cs_limits s) ->
  cs_contexts s !! as_str (mr_episode_id req) = Some c -> cx_continuation_digest c = Some cd ->
  load req s = Ok input <->
  mr_input_digest req = cx_latest_input_digest c
  /\ exists t b cont results,
       tools_from_slice (cx_tools_json c) = Some t
       /\ artifact cd s b /\ byte_len b <= max_continuation_bytes (cs_limits s)
       /\ from_canonical_bytes b (cs_limits s) = Ok cont
       /\ (let rows := pending_rows (as_str (mr_episode_id req)) s in
           pn_native_call_id <$> rows = nc_pending_call_ids cont
           /\ Forall (fun row => is_Some (pn_result_digest row)) rows
           /\ Forall2 (fun row r => load_result s row = Ok r) rows results
           /\ derive_model_continuation_input_digest cd (pending_result_digests rows)
              = mr_input_digest req)
       /\ input = MkTurnInput (V := V) (cx_system_prompt c) None (Some cont) results t.
Proof.
  intros (_ & Hlc & Hlt) Hc Hcd. unfold load. rewrite Hc. cbn [ok_or mbind result_bind].
  rewrite guard_bind_Ok, negb_false_iff, bool_decide_eq_true, result_bind_Ok, Hcd.
  setoid_rewrite ok_or_Ok. cbn zeta. split.
  - intros (Hl & t & Ht & (b & Hb & (cont & Hcont & H3)%result_bind_Ok)%result_bind_Ok).
    apply open_bytes_Ok in Hb as [Hb Hlen]; [|done]. apply map_err_Ok in Hcont.
    apply guard_bind_Ok in H3 as [Hk H3]. apply rows_checked in Hk as [Hids Hall].
    apply result_bind_Ok in H3 as (results & Hres%mapM_results & H3).
    apply guard_bind_Ok in H3 as [He%negb_false_iff%bool_decide_eq_true [= <-]].
    split; [done|]. exists t, b, cont, results. by split_and!.
  - intros (Hl & t & b & cont & results & Ht & Hb & Hlen & Hcont & (Hids & Hall & Hres & He) & ->).
    split; [done|]. exists t. split; [done|].
    apply result_bind_Ok. exists b. split; [by apply open_bytes_Ok|].
    apply result_bind_Ok. exists cont. split; [by apply map_err_Ok|].
    apply guard_bind_Ok. split; [by apply rows_checked|].
    apply result_bind_Ok. exists results. split; [by apply mapM_results|].
    apply guard_bind_Ok. split; [|done]. by rewrite bool_decide_true.
Qed.

(** The results of a load, one per row. *)
Lemma loaded_ids s rows rs :
  limits_ok (cs_limits s) -> Forall2 (fun row r => load_result s row = Ok r) rows rs ->
  tr_native_call_id <$> rs = pn_native_call_id <$> rows.
Proof.
  intros (_ & _ & Hlt) Hrs. induction Hrs as [|row r rows rs Hr _ IH]; [done|].
  cbn. rewrite IH. f_equal.
  by apply load_result_Ok in Hr as (d & x & _ & _ & _ & _ & ->).
Qed.

Lemma loaded_outputs s rows rs ds :
  limits_ok (cs_limits s) -> Forall2 (fun row r => load_result s row = Ok r) rows rs ->
  Forall2 (fun row d => pn_result_digest row = Some d) rows ds ->
  Forall2 (fun d r => exists x, artifact d s x /\ digest_bytes x = d
    /\ tr_output r = string_of_bytes x) ds rs.
Proof.
  intros (_ & _ & Hlt) Hrs Hds. revert rs Hrs.
  induction Hds as [|row d rows ds Hd _ IH]; intros rs Hrs;
    inversion Hrs as [|? r ? rs' Hr Hrs']; subst; constructor; [|by apply IH].
  apply load_result_Ok in Hr as (d' & x & Hd' & Hx & _ & _ & ->); [|done].
  rewrite Hd in Hd'. injection Hd' as <-. exists x.
  split_and!; [done|by eapply artifact_digest|done].
Qed.

(** In a consistent store every complete set of results can be read. *)
Lemma results_readable s key :
  CtxInv s -> Forall (fun row => is_Some (pn_result_digest row)) (pending_rows key s) ->
  exists results, Forall2 (fun row r => load_result s row = Ok r) (pending_rows key s) results.
Proof.
  intros Hi Hall. pose proof (ci_results s Hi key) as Hres.
  destruct (ci_limits s Hi) as (_ & _ & Hlt).
  induction (pending_rows key s) as [|row rows IH]; [by exists []|].
  apply List.Forall_cons_iff in Hall as [[d Hd] Hall].
  destruct IH as [rs Hrs]; [done|intros r d' Hin; apply Hres; by right|].
  destruct (Hres row d ltac:(left) Hd) as (b & Hb & Hlen & Hu).
  eexists (_ :: rs). constructor; [|done]. apply load_result_Ok; [done|].
  by exists d, b.
Qed.

(** The stores a server can have. *)
Definition ctx_reachable (s : ContextStore A) : Prop :=
  exists a l ops, limits_ok l /\ Forall (op_ok l) ops /\ s = foldl run_ctx (context_empty a l) ops.

Lemma reachable_inv s : ctx_reachable s -> CtxInv s.
Proof.
  intros (a & l & ops & Hl & Hf & ->). by apply run_ctx_all; [apply CtxInv_empty|].
Qed.

(** C33 The store assembles a request exactly when it may: on any store
    the server can have, [load] succeeds precisely for the digest the
    context currently expects, when the episode has not had a turn yet or
    when every pending call has its result and the digest binds the last
    continuation and those results in call order. *)
Theorem load_exactly_when_bound (s : ContextStore A) (req : ModelTurnRequest)
    (Hs : ctx_reachable s) :
  is_ok (load req s) = true <->
  exists c, cs_contexts s !! as_str (mr_episode_id req) = Some c
    /\ mr_input_digest req = cx_latest_input_digest c
    /\ (cx_continuation_digest c = None
        \/ exists cd, cx_continuation_digest c = Some cd
           /\ Forall (fun row => is_Some (pn_result_digest row))
                (pending_rows (as_str (mr_episode_id req)) s)
           /\ mr_input_digest req = derive_model_continuation_input_digest cd
                (pending_result_digests (pending_rows (as_str (mr_episode_id req)) s))).
Proof.
  pose proof (reachable_inv _ Hs) as Hi. pose proof (ci_limits _ Hi) as Hl. split.
  - destruct (load req s) as [input|e] eqn:E; [|done]. intros _.
    destruct (cs_contexts s !! as_str (mr_episode_id req)) as [c|] eqn:Hc.
    2:{ unfold load in E. by rewrite Hc in E. }
    exists c. split; [done|]. destruct (cx_continuation_digest c) as [cd|] eqn:Hcd.
    + pose proof (proj1 (load_Some_Ok c cd req s input Hl Hc Hcd) E)
        as (Hlat & t & b & cont & rs & _ & _ & _ & _ & (_ & Hall & _ & He) & _).
      split; [done|]. right. by exists cd.
    + pose proof (proj1 (load_None_Ok c req s input Hc Hcd) E) as (Hlat & _). auto.
  - intros (c & Hc & Hlat & Hcase). destruct (ci_tools _ Hi _ _ Hc) as [t Ht].
    destruct (cx_continuation_digest c) as [cd|] eqn:Hcd.
    + destruct Hcase as [|(cd' & [= <-] & Hall & He)]; [done|].
      destruct (ci_continuation _ Hi _ _ _ Hc Hcd) as (cont & b & Hb & Hlen & Hfrom & Hids).
      destruct (results_readable _ _ Hi Hall) as [rs Hrs].
      assert (load req s = Ok (MkTurnInput (cx_system_prompt c) None (Some cont) rs t)) as ->; [|done].
      apply (load_Some_Ok c cd req s _ Hl Hc Hcd).
      split; [done|]. exists t, b, cont, rs. by split_and!.
    + destruct (ci_initial _ Hi _ _ Hc Hcd) as [_ Hin].
      assert (load req s = Ok (MkTurnInput (cx_system_prompt c) (Some (cx_initial_user_text c))
        None [] t)) as ->; [|done].
      apply (load_None_Ok c req s _ Hc Hcd). split_and!; [done|congruence|by exists t].
Qed.

(** What the model is shown is what the request's digest stands for:
    a loaded continuation is the one stored under the context's digest,
    the tool results are one per pending call, in call order, each the
    content of a stored artifact, and the input digest of the request is
    derived from exactly those. *)
Theorem load_shows_what_is_bound (s : ContextStore A) (req : ModelTurnRequest)
    (input : ProviderTurnInput V) (cont : NativeContinuation V) (Hs : ctx_reachable s)
    (Hload : load req s = Ok input) (Hcont : ti_continuation input = Some cont) :
  exists cd b ds,
    artifact cd s b /\ from_canonical_bytes b (cs_limits s) = Ok cont
    /\ ti_initial_user_text input = None
    /\ tr_native_call_id <$> ti_tool_results input = nc_pending_call_ids cont
    /\ Forall2 (fun d r => exists x, artifact d s x /\ digest_bytes x = d
         /\ tr_output r = string_of_bytes x) ds (ti_tool_results input)
    /\ mr_input_digest req = derive_model_continuation_input_digest cd ds.
Proof.
  pose proof (ci_limits _ (reachable_inv _ Hs)) as Hl.
  destruct (cs_contexts s !! as_str (mr_episode_id req)) as [c|] eqn:Hc.
  2:{ unfold load in Hload. by rewrite Hc in Hload. }
  destruct (cx_continuation_digest c) as [cd|] eqn:Hcd.
  2:{ by pose proof (proj1 (load_None_Ok c req s input Hc Hcd) Hload) as (_ & _ & t & _ & ->). }
  pose proof (proj1 (load_Some_Ok c cd req s input Hl Hc Hcd) Hload)
    as (_ & t & b & cont' & rs & _ & Hb & _ & Hfrom & (Hids & Hall & Hrs & He) & ->).
  injection Hcont as <-. exists cd, b, (pending_result_digests (pending_rows (as_str (mr_episode_id req)) s)).
  cbn [ti_initial_user_text ti_tool_results].
  destruct (results_all _ Hall) as [_ Hds].
  split_and!; [done|done|done| | |by symmetry].
  - rewrite <-Hids. exact (loaded_ids s _ _ Hl Hrs).
  - exact (loaded_outputs s _ _ _ Hl Hrs Hds).
Qed.

(** ** After a turn without tool calls *)

(** A turn that asked for no tools ends the conversation: its commit
    leaves the context expecting the digest of the request just answered,
    while the pending set is empty, so that from then on no request of the
    episode can be loaded; in particular the re-ask of the runner, whose
    digest binds the new continuation and no results, is refused as not
    matching the durable context.  The only escape would be a collision of
    the hash. *)
Theorem stop_turn_cannot_continue (s s' : ContextStore A) (req : ModelTurnRequest)
    (ex : ProviderTurnExchange V) (Hs : ctx_reachable s)
    (Hmade : codec_made (cs_limits s) (px_native_continuation ex))
    (Hfresh : cs_exchanges s !! as_str (mr_attempt_id req) = None)
    (Hcommit : commit req ex s = (s', Ok tt))
    (Hstop : nc_pending_call_ids (px_native_continuation ex) = [])
    (Hhash : derive_model_continuation_input_digest
      (ge_native_continuation_digest (px_gateway_exchange ex)) [] <> mr_input_digest req) :
  (forall next, mr_episode_id next = mr_episode_id req -> is_ok (load next s') = false)
  /\ forall next, mr_episode_id next = mr_episode_id req ->
       mr_input_digest next = derive_model_continuation_input_digest
         (ge_native_continuation_digest (px_gateway_exchange ex)) [] ->
       load next s' = Err InputMismatch.
Proof.
  assert (CtxInv s') as Hi'.
  { pose proof (commit_inv req ex s (reachable_inv _ Hs) Hmade) as Hi. by rewrite Hcommit in Hi. }
  pose proof (ci_limits _ Hi') as Hl.
  pose proof (commit_cases req ex s) as Hc. rewrite Hcommit in Hc.
  destruct Hc as (s3 & C & P & X & L & G & b & Hb & Ha & Eb & _ & Ht).
  apply commit_tables_Ok in Ht as [(_ & x & Hx & _)|(_ & c & xs & Hk & Hlat & ->)]; [congruence|].
  set (c' := MkContext _ _ _ _ _ _) in *.
  assert (forall next, mr_episode_id next = mr_episode_id req ->
    cs_contexts (MkContextStore (<[as_str (mr_episode_id req) := c']> (cs_contexts s3))
      (<[as_str (mr_episode_id req) := (fun id => MkPending id None)
         <$> nc_pending_call_ids (px_native_continuation ex)]> (cs_pending s3)) xs
      (cs_artifacts s3) (cs_limits s3)) !! as_str (mr_episode_id next) = Some c') as Hrow.
  { intros next ->. cbn. by rewrite lookup_insert_eq. }
  split; intros next He.
  - destruct (load next _) as [input|e] eqn:E; [|done].
    pose proof (proj1 (load_Some_Ok c' (digest_bytes b) next _ input Hl (Hrow next He) eq_refl) E)
      as (Hlast & _ & _ & _ & _ & _ & _ & _ & _ & (_ & _ & _ & Hder) & _).
    rewrite pending_rows_insert, He, decide_True in Hder by done.
    rewrite Hstop in Hder. cbn in Hlast, Hder.
    exfalso. apply Hhash. rewrite <-Eb. transitivity (mr_input_digest next); [exact Hder|congruence].
  - intros Hin. unfold load. rewrite (Hrow next He). cbn [ok_or mbind result_bind].
    assert (bool_decide (mr_input_digest next = cx_latest_input_digest c') = false) as Hb0.
    { apply bool_decide_false. rewrite Hin. cbn. congruence. }
    by rewrite Hb0.
Qed.

(** ** Immutability *)

(** An element of a list is determined by a key without repetition. *)
Lemma nodup_key {B} (f : B -> string) (l : list B) x y :
  NoDup (f <$> l) -> x ∈ l -> y ∈ l -> f x = f y -> x = y.
Proof.
  intros Hn [i Hx]%list_elem_of_lookup [j Hy]%list_elem_of_lookup E.
  assert (i = j) as ->; [|congruence].
  apply (NoDup_lookup (f <$> l) i j (f y) Hn); rewrite list_lookup_fmap; [rewrite Hx|by rewrite Hy].
  cbn. by rewrite E.
Qed.

Lemma check_call_ids_nodup ids seen :
  check_call_ids ids seen = Ok tt -> NoDup ids /\ Forall (fun id => id ∉ seen) ids.
Proof.
  revert seen. induction ids as [|id ids IH]; intros seen; [by split; constructor|]. cbn.
  intros [_ [Hid%bool_decide_eq_false (Hn & Hf)%IH]%guard_bind_Ok]%guard_bind_Ok.
  rewrite List.Forall_forall in Hf. setoid_rewrite <-list_elem_of_In in Hf.
  split.
  - constructor; [|done]. intros Hin. apply (Hf id Hin). set_solver.
  - constructor; [done|]. apply List.Forall_forall. intros x Hx%list_elem_of_In.
    specialize (Hf x Hx). set_solver.
Qed.

(** The calls of an episode have distinct identities. *)
Lemma pending_nodup key s : CtxInv s -> NoDup (pn_native_call_id <$> pending_rows key s).
Proof.
  intros Hi. destruct (cs_contexts s !! key) as [c|] eqn:Hc.
  2:{ rewrite (ci_absent s Hi key Hc). constructor. }
  destruct (cx_continuation_digest c) as [cd|] eqn:Hcd.
  2:{ destruct (ci_initial s Hi key c Hc Hcd) as [-> _]. constructor. }
  destruct (ci_continuation s Hi key c cd Hc Hcd) as (cont & b & _ & _ & Hf & ->).
  unfold from_canonical_bytes in Hf.
  apply result_bind_Ok in Hf as (_ & _ & Hf). apply result_bind_Ok in Hf as (_ & _ & Hf).
  apply result_bind_Ok in Hf as (c1 & _ & Hf). apply result_bind_Ok in Hf as (_ & _ & Hf).
  apply result_bind_Ok in Hf as ([] & Hids & [= <-]). by apply check_call_ids_nodup in Hids as [? _].
Qed.

(** The context row keeps what the episode was created with. *)
Definition same_episode (c c' : ContextRow) : Prop :=
  cx_system_prompt c' = cx_system_prompt c /\ cx_initial_user_text c' = cx_initial_user_text c
  /\ cx_tools_json c' = cx_tools_json c
  /\ cx_initial_input_digest c' = cx_initial_input_digest c.

(** What one operation never undoes; [key] is the episode a commit may
    have replaced the pending results of. *)
Definition ctx_later (key : option string) (s s' : ContextStore A) : Prop :=
  artifacts_grow s s'
  /\ (forall k x, cs_exchanges s !! k = Some x -> cs_exchanges s' !! k = Some x)
  /\ (forall k c, cs_contexts s !! k = Some c ->
       exists c', cs_contexts s' !! k = Some c' /\ same_episode c c')
  /\ (forall k row d, key <> Some k -> row ∈ pending_rows k s -> pn_result_digest row = Some d ->
       row ∈ pending_rows k s').

Lemma ctx_later_refl key s : ctx_later key s s.
Proof. split_and!; [by intros d b|done| |done]. intros k c Hc. by exists c. Qed.

Lemma ctx_later_artifacts key s s' :
  cs_contexts s' = cs_contexts s -> cs_pending s' = cs_pending s ->
  cs_exchanges s' = cs_exchanges s -> artifacts_grow s s' -> ctx_later key s s'.
Proof.
  intros Ec Ep Ex Hg. unfold ctx_later, pending_rows. rewrite Ec, Ep, Ex.
  split_and!; [done|done| |done]. intros k c Hc. by exists c.
Qed.

Lemma ctx_later_trans key a b c : ctx_later key a b -> ctx_later key b c -> ctx_later key a c.
Proof.
  intros (A1 & X1 & C1 & P1) (A2 & X2 & C2 & P2). split_and!.
  - by etrans.
  - intros k x Hx. by apply X2, X1.
  - intros k x Hx. destruct (C1 _ _ Hx) as (y & Hy & E1). destruct (C2 _ _ Hy) as (z & Hz & E2).
    exists z. split; [done|]. unfold same_episode in *. intuition congruence.
  - intros k row d Hk Hin Hd. eapply P2; [done| |done]. by eapply P1.
Qed.

Lemma create_later e sp ut tools s d s' :
  create_episode e sp ut tools s = Ok (d, s') -> ctx_later None s s'.
Proof.
  unfold create_episode. intros [_ (j & _ & Hr)%result_bind_Ok]%guard_bind_Ok.
  destruct (cs_contexts s !! as_str e) as [row|] eqn:Hk.
  - apply guard_bind_Ok in Hr as [_ [= _ <-]]. apply ctx_later_refl.
  - injection Hr as _ <-. split_and!; [by intros x b|done| |done].
    intros k c Hc. cbn. exists c. rewrite lookup_insert_ne by congruence. by split.
Qed.

Lemma commit_tables_later req (ex : ProviderTurnExchange V) cd rqd rsd (s s' : ContextStore A) :
  commit_tables req ex cd rqd rsd s = Ok s' -> ctx_later (Some (as_str (mr_episode_id req))) s s'.
Proof.
  unfold commit_tables. destruct (cs_exchanges s !! as_str (mr_attempt_id req)) as [x|] eqn:Ex.
  - intros [_ [= <-]]%guard_bind_Ok. apply ctx_later_refl.
  - intros (c & Hc%ok_or_Ok & [_ [_ [_ [= <-]]%guard_bind_Ok]%guard_bind_Ok]%guard_bind_Ok)%result_bind_Ok.
    split_and!.
    + by intros d b.
    + intros k x Hx. cbn. rewrite lookup_insert_ne by congruence. done.
    + intros k c0 Hc0. cbn. destruct (decide (as_str (mr_episode_id req) = k)) as [<-|?].
      * rewrite lookup_insert_eq. simplify_eq. by eexists.
      * rewrite lookup_insert_ne by done. by exists c0.
    + intros k row d Hk Hin _. rewrite pending_rows_insert, decide_False; [done|congruence].
Qed.

Lemma record_later e id d s s' :
  CtxInv s -> record_tool_result e id d s = Ok s' -> ctx_later None s s'.
Proof.
  intros Hi. unfold record_tool_result.
  intros (b & _ & [_ (row & Hrow%ok_or_Ok & Hr)%result_bind_Ok]%guard_bind_Ok)%result_bind_Ok.
  destruct (pn_result_digest row) as [x|] eqn:Hd.
  { apply guard_bind_Ok in Hr as [_ [= <-]]. apply ctx_later_refl. }
  apply result_bind_Ok in Hr as (c & Hc%ok_or_Ok & Hr).
  apply result_bind_Ok in Hr as (cd & _ & [= <-]).
  split_and!; [by intros y z|done| |].
  - intros k c0 Hc0. cbn. destruct (decide (as_str e = k)) as [<-|?].
    + rewrite lookup_insert_eq. simplify_eq. eexists. split; [done|]. by destruct (_ =? _)%nat.
    + rewrite lookup_insert_ne by done. by exists c0.
  - intros k r d' _ Hin Hd'. rewrite pending_rows_insert. case_decide as E; [subst k|done].
    unfold set_result. apply list_elem_of_fmap. exists r. split; [|done].
    case_decide as Eid; [exfalso|done].
    assert (NoDup (pn_native_call_id <$> pending_rows (as_str e) s)) as Hnd by by apply pending_nodup.
    apply find_pending_Some in Hrow as [Hrow Eid'].
    assert (r = row) as ->; [|congruence].
    eapply nodup_key; [exact Hnd|done|done|congruence].
Qed.

(** The conversation on record never changes: across any operation,
    failed ones included, committed exchanges and stored artifacts stay,
    an episode keeps its prompts, tools and initial digest, and a recorded
    tool result stays as it is until a later turn of that episode is
    committed. *)
Theorem context_record_is_immutable (s : ContextStore A) (op : CtxOp) (Hs : ctx_reachable s) :
  ctx_later (match op with CtxCommit req _ => Some (as_str (mr_episode_id req)) | _ => None end)
    s (run_ctx s op).
Proof.
  pose proof (reachable_inv _ Hs) as Hi. destruct op; cbn [run_ctx].
  - destruct (create_episode _ _ _ _ _) as [[d s']|] eqn:E; [|apply ctx_later_refl].
    by eapply create_later.
  - pose proof (commit_cases request exchange s) as Hc.
    destruct (commit request exchange s) as [s' r]. cbn [fst].
    destruct Hc as (s3 & C & P & X & L & G & Hr).
    eapply ctx_later_trans; [by apply (ctx_later_artifacts _ s s3)|].
    destruct r as [u|e]; [|subst; apply ctx_later_refl].
    destruct Hr as (b & _ & _ & _ & _ & Ht). by eapply commit_tables_later.
  - destruct (record_tool_result _ _ _ _) as [s'|] eqn:E; [|apply ctx_later_refl].
    by eapply record_later.
  - unfold publish_diagnostic. pose proof (ingest_spec (as_bytes text) s) as Hc.
    destruct (ingest (as_bytes text) s) as [s' r]. cbn [fst].
    destruct Hc as (? & ? & ? & _ & ? & _). by apply ctx_later_artifacts.
Qed.
End store_facts.

(** ** A concrete serializer and a scripted conversation *)

(** Any countable type serializes to the bits of its code. *)
Fixpoint bits_of_pos (p : positive) : bytes :=
  match p with
  | xH => []
  | xO p => Byte.x00 :: bits_of_pos p
  | xI p => Byte.x01 :: bits_of_pos p
  end.

Fixpoint pos_of_bits (l : bytes) : positive :=
  match l with
  | [] => xH
  | Byte.x00 :: l => xO (pos_of_bits l)
  | _ :: l => xI (pos_of_bits l)
  end.

Lemma pos_of_bits_of_pos p : pos_of_bits (bits_of_pos p) = p.
Proof. induction p as [p IH|p IH|]; cbn; congruence. Qed.

Definition tool_fields (t : CodecToolDefinition unit) : string * string * bool :=
  (ct_name _ t, ct_description _ t, ct_strict _ t).
Definition tool_of_fields (x : string * string * bool) : CodecToolDefinition unit :=
  MkTool unit x.1.1 x.1.2 tt x.2.

Definition protocol_index (p : ProtocolKind) : N :=
  match p with OpenAiResponses => 0 | OpenAiChatCompletions => 1 | AnthropicMessages => 2 end.
Definition protocol_of_index (n : N) : ProtocolKind :=
  match n with 0 => OpenAiResponses | 1 => OpenAiChatCompletions | _ => AnthropicMessages end.

Definition continuation_fields (c : NativeContinuation unit) : N * N * list string :=
  (nc_schema_version c, protocol_index (nc_protocol c), nc_pending_call_ids c).
Definition continuation_of_fields (x : N * N * list string) : NativeContinuation unit :=
  MkContinuation x.1.1 (protocol_of_index x.1.2) tt x.2.

Definition toy_serde : ModelSerde unit := {|
  tools_to_vec t := Some (bits_of_pos (encode (map tool_fields t)));
  tools_from_slice b := map tool_of_fields <$> decode (pos_of_bits b);
  continuation_to_vec c := Some (bits_of_pos (encode (continuation_fields c)));
  continuation_from_slice b := continuation_of_fields <$> decode (pos_of_bits b);
|}.

Lemma toy_serde_laws : @ModelSerdeLaws unit toy_serde.
Proof.
  split.
  - intros t b [= <-]. cbn. rewrite pos_of_bits_of_pos, decode_encode. cbn. f_equal.
    rewrite List.map_map. rewrite <-(List.map_id t) at 2. apply List.map_ext.
    by intros [n d [] s].
  - intros c b [= <-]. cbn. rewrite pos_of_bits_of_pos, decode_encode. cbn. f_equal.
    by destruct c as [n [] [] ids].
Qed.

Section script.
Local Existing Instance toy_sha.
Local Existing Instance toy_serde.
Local Existing Instance toy_serde_laws.

Definition script_limits : CodecLimits := MkLimits 8388608 8388608 8388608 1048576 1048576 1048576 64.

Definition script_episode : EpisodeId := sample_episode_id.

Definition script_request (attempt : ModelAttemptId) (turn : N) (input : Sha256Digest) :
    ModelTurnRequest := MkModelTurnRequest attempt script_episode turn input.

Definition script_exchange (calls : list string) : ProviderTurnExchange unit :=
  let c := MkContinuation 1 AnthropicMessages tt calls in
  MkProviderExchange
    (MkExchange (MkGatewayTurn ["text"] [] Stop None) (digest_of "response")
       (digest_bytes (bits_of_pos (encode (continuation_fields c)))))
    (as_bytes "request") (as_bytes "response") c None None.

Definition script_initial : Sha256Digest :=
  initial_digest "system" "user" (bits_of_pos (encode (map tool_fields []))).

(** The episode is created; its model calls one tool; the tool's output is
    published and recorded. *)
Definition script_ops : list (CtxOp (V := unit)) :=
  [CtxCreate script_episode "system" "user" [];
   CtxCommit (script_request (MkId "attempt-1" eq_refl) 1 script_initial) (script_exchange ["call-1"]);
   CtxPublish "output";
   CtxRecord script_episode "call-1" (digest_of "output")].

Definition script_store (ops : list CtxOp) : ContextStore InMemoryArtifactStore :=
  foldl run_ctx (context_empty (MkMemory ∅ 1048576) script_limits) ops.

Lemma script_reachable n : ctx_reachable (script_store (take n script_ops)).
Proof.
  exists (MkMemory ∅ 1048576), script_limits, (take n script_ops). split_and!; [|..|done].
  - split_and!; [done|by apply N.leb_le|by apply N.leb_le].
  - apply Forall_take. repeat constructor. intros b [= <-]. by apply N.leb_le.
Qed.

Definition script_continuation : NativeContinuation unit :=
  MkContinuation 1 AnthropicMessages tt ["call-1"].

(** The digest that binds the continuation and the result. *)
Definition script_next : Sha256Digest :=
  derive_model_continuation_input_digest
    (digest_bytes (bits_of_pos (encode (continuation_fields script_continuation))))
    [digest_of "output"].

Definition script_second : ModelTurnRequest :=
  script_request (MkId "attempt-2" eq_refl) 2 script_next.

Definition script_input : ProviderTurnInput unit :=
  MkTurnInput "system" None (Some script_continuation) [MkToolResult "call-1" "output"] [].

Lemma script_loads : load script_second (script_store (take 4 script_ops)) = Ok script_input.
Proof. vm_compute. reflexivity. Qed.

Lemma load_exactly_when_bound_witness :
  exists c, cs_contexts (script_store (take 4 script_ops)) !! as_str script_episode = Some c
    /\ mr_input_digest script_second = cx_latest_input_digest c.
Proof.
  destruct (proj1 (load_exactly_when_bound (script_store (take 4 script_ops)) script_second
    (script_reachable 4))) as (c & Hc & Hl & _).
  - rewrite script_loads. reflexivity.
  - exists c. split; [exact Hc|exact Hl].
Defined.

Lemma load_shows_what_is_bound_witness :
  exists cd ds, script_next = derive_model_continuation_input_digest cd ds.
Proof.
  destruct (load_shows_what_is_bound (script_store (take 4 script_ops)) script_second script_input
    script_continuation (script_reachable 4) script_loads eq_refl)
    as (cd & b & ds & _ & _ & _ & _ & _ & Hd).
  exists cd, ds. exact Hd.
Defined.

(** The re-ask of the runner after the second turn stopped. *)
Definition script_reask : ModelTurnRequest :=
  script_request (MkId "attempt-3" eq_refl) 3
    (derive_model_continuation_input_digest
       (ge_native_continuation_digest (px_gateway_exchange (script_exchange []))) []).

Definition script_stopped : ContextStore InMemoryArtifactStore :=
  (commit script_second (script_exchange []) (script_store (take 4 script_ops))).1.

Lemma script_made :
  codec_made (cs_limits (script_store (take 4 script_ops))) (px_native_continuation (script_exchange [])).
Proof.
  split; [reflexivity|]. split; [reflexivity|]. intros b [= <-].
  apply N.leb_le. vm_compute. reflexivity.
Qed.

Lemma script_fresh :
  cs_exchanges (script_store (take 4 script_ops)) !! as_str (mr_attempt_id script_second) = None.
Proof. vm_compute. reflexivity. Qed.

Lemma script_commits :
  commit script_second (script_exchange []) (script_store (take 4 script_ops))
  = (script_stopped, Ok tt).
Proof.
  assert ((commit script_second (script_exchange []) (script_store (take 4 script_ops))).2 = Ok tt)
    as E by (vm_compute; reflexivity).
  unfold script_stopped. revert E. generalize (commit script_second (script_exchange [])
    (script_store (take 4 script_ops))). intros [s r]. cbn. by intros ->.
Qed.

Lemma script_no_collision :
  derive_model_continuation_input_digest
    (ge_native_continuation_digest (px_gateway_exchange (script_exchange []))) []
  <> mr_input_digest script_second.
Proof.
  apply (bool_decide_eq_false (derive_model_continuation_input_digest _ [] = _)).
  vm_compute. reflexivity.
Qed.

Lemma script_reask_episode : mr_episode_id script_reask = mr_episode_id script_second.
Proof. unfold script_reask, script_second, script_request. cbn [mr_episode_id]. reflexivity. Qed.

Lemma script_reask_input :
  mr_input_digest script_reask = derive_model_continuation_input_digest
    (ge_native_continuation_digest (px_gateway_exchange (script_exchange []))) [].
Proof. unfold script_reask, script_request. cbn [mr_input_digest]. reflexivity. Qed.

Lemma script_stops : nc_pending_call_ids (px_native_continuation (script_exchange [])) = [].
Proof. reflexivity. Qed.

Lemma stop_turn_cannot_continue_witness : load script_reask script_stopped = Err InputMismatch.
Proof.
  exact (proj2 (stop_turn_cannot_continue (script_store (take 4 script_ops)) script_stopped
    script_second (script_exchange []) (script_reachable 4) script_made script_fresh script_commits
    script_stops script_no_collision) script_reask script_reask_episode script_reask_input).
Defined.

Lemma context_record_is_immutable_witness :
  artifacts_grow (script_store (take 4 script_ops))
    (run_ctx (script_store (take 4 script_ops)) (CtxCommit script_second (script_exchange []))).
Proof.
  exact (proj1 (context_record_is_immutable (script_store (take 4 script_ops))
    (CtxCommit script_second (script_exchange [])) (script_reachable 4))).
Defined.

End script.
