(* ===== verification/EpisodeSteps.v ===== *)
(** * The reducer's computations between two effects

    [src/crates/alloyport-core/src/agent_runtime.rs],
    [agent_runtime_model.rs] and [agent_runtime_tools.rs]: each function
    here is the straight-line code of a handler between a load, a save
    and a call of an adapter.  It takes the state in memory and returns
    the state the handler is about to save.  [EpisodeRuntime] composes
    them with the effects. *)

From stdpp Require Import base strings pretty list.
From S2P Require Import Prelude Digest Identity AgentRecord ModelAttempt ModelGateway.
From S2P Require Import LoopPolicy EpisodeState EpisodePorts.

(** The [?] on the error types of the records. *)
Definition lift_result {A} (r : Result A) : result Fault A := map_err Failure r.
Definition lift_record {A} (r : result AgentRecordError A) : result Fault A :=
  map_err (fun e => Failure (RecordError e)) r.
Definition lift_attempt {A} (r : result Attempt.ModelAttemptError A) : result Fault A :=
  map_err (fun e => Failure (AttemptError e)) r.

(** [state.episode.transition(next)?]. *)
Definition move (s : DurableEpisodeState) (next : Episode.EpisodeStatus)
    : result Fault DurableEpisodeState :=
  e ← lift_record (Episode.episode_transition (st_episode s) next);
  Ok (set_episode s e).

(** [state.attempts.last_mut().expect(..)] followed by a method and [?]. *)
Definition on_last_attempt (s : DurableEpisodeState)
    (f : Attempt.ModelAttemptRecord -> result Attempt.ModelAttemptError Attempt.ModelAttemptRecord)
    : result Fault DurableEpisodeState :=
  match last (st_attempts s) with
  | None => Err Panic
  | Some attempt =>
      attempt' ← lift_attempt (f attempt);
      Ok (set_attempts s (set_last attempt' (st_attempts s)))
  end.

(** [state.tool_operations[index].record] followed by a method and [?]. *)
Definition on_op (s : DurableEpisodeState) (index : nat)
    (f : ToolOp.ToolOperationRecord -> result AgentRecordError ToolOp.ToolOperationRecord)
    : result Fault DurableEpisodeState :=
  match st_tool_operations s !! index with
  | None => Err Panic
  | Some o =>
      r ← lift_record (f (do_record o));
      Ok (set_ops s (<[index := MkDurableOp r (do_call o)]> (st_tool_operations s)))
  end.

(** [+= 1] on a [u32] counter: overflow panics. *)
Definition increment (n : N) : result Fault N := ok_or (checked_add u32_max n 1) Panic.

(** ** Preparing, stopping, suspending *)

(** [AgentLoopRunner::transition_only]. *)
Definition transition_state (s : DurableEpisodeState) (next : Episode.EpisodeStatus)
    : result Fault (DurableEpisodeState * AgentLoopAdvance) :=
  s' ← move s next; Ok (s', progress next).

(** [AgentLoopRunner::prepare_attempt]. *)
Definition prepare_state (episode_id : EpisodeId) (s : DurableEpisodeState)
    : result Fault (DurableEpisodeState * AgentLoopAdvance) :=
  if st_cancellation_requested s then transition_state s Episode.CancellationPending
  else if ((p_max_model_turns (st_policy s) <=? N.of_nat (length (st_turns s)))
           || (p_max_model_attempts (st_policy s) <=? N.of_nat (length (st_attempts s))))%N
  then transition_state s Episode.BudgetExhausted
  else
    attempt_number ← lift_result (next_index (length (st_attempts s)));
    id ← lift_result (derived_model_attempt_id episode_id attempt_number);
    attempt ← lift_attempt (Attempt.attempt_new (Attempt.MkAttemptSpec id episode_id
      attempt_number (st_next_input_digest s) (ri_resolved_model_digest (st_identity s))
      (ri_deployment_digest (st_identity s)) (ri_model_profile_digest (st_identity s))
      (ri_request_budget_digest (st_identity s))
      (Attempt.at_id <$> last (st_attempts s))
      ((fun t => tr_native_continuation_digest (dt_record t)) <$> last (st_turns s))));
    s' ← move (set_attempts s (st_attempts s ++ [attempt])) Episode.ModelAttemptPending;
    Ok (s', Progressed Episode.ModelAttemptPending).

Section digests.
Context `{Sha256}.

(** The continuation of the last turn, or [MissingTurn]. *)
Definition last_turn (s : DurableEpisodeState) : result Fault DurableTurn :=
  ok_or (last (st_turns s)) (Failure MissingTurn).

(** [AgentLoopRunner::review_stop]. *)
Definition review_state (s : DurableEpisodeState)
    : result Fault (DurableEpisodeState * AgentLoopAdvance) :=
  sn ←
    (if st_subtask_satisfied s then Ok (s, Episode.Succeeded)
     else if (st_stop_feedback_turns s <? p_max_stop_feedback_turns (st_policy s))%N then
       n ← increment (st_stop_feedback_turns s);
       turn ← last_turn s;
       Ok (set_next_input (set_stop_feedback s n)
             (derive_model_continuation_input_digest
                (tr_native_continuation_digest (dt_record turn)) []),
           Episode.ReadyForModel)
     else Ok (s, Episode.Incomplete));
  s' ← move sn.1 sn.2;
  Ok (s', progress sn.2).

End digests.

(** The state [AgentLoopRunner::resume] saves. *)
Definition resume_state (s : DurableEpisodeState) (granted : EpisodeAllowance)
    : result Fault DurableEpisodeState :=
  let resumed_from := st_status s in
  e ← lift_record (Episode.episode_resume (st_episode s));
  let previous := policy_allowance (st_policy s) in
  let policy := with_allowance (st_policy s) granted in
  _ ← lift_result (policy_validate policy);
  Ok (set_cancellation
        (set_grants (set_policy (set_episode s e) policy)
           (st_grants s ++ [MkGrant resumed_from previous granted])) false).

(** The tool operations whose outcome may exist outside. *)
Definition in_flight (status : ToolOp.ToolOperationStatus) : bool :=
  match status with
  | ToolOp.Dispatching | ToolOp.Running | ToolOp.Ambiguous | ToolOp.Reconciling => true
  | _ => false
  end.

Definition op_status_of (o : DurableToolOperation) : ToolOp.ToolOperationStatus :=
  ToolOp.op_status (do_record o).

(** The state [AgentLoopRunner::request_cancellation] saves. *)
Definition cancel_state (s0 : DurableEpisodeState) : result Fault DurableEpisodeState :=
  let s := set_cancellation s0 true in
  let model_ambiguous :=
    match last (st_attempts s) with
    | Some attempt => bool_decide (Attempt.at_status attempt = Attempt.Dispatching)
    | None => false
    end in
  let tool_ambiguous := existsb (fun o => in_flight (op_status_of o)) (st_tool_operations s) in
  s ← (if model_ambiguous
       then on_last_attempt s (fun a =>
              Attempt.finish_without_response a Attempt.CancelledAmbiguous None)
       else Ok s);
  s ← (if tool_ambiguous then
         match list_find (fun o => op_status_of o = ToolOp.Dispatching) (st_tool_operations s) with
         | Some (i, _) => on_op s i (fun r => ToolOp.op_transition r ToolOp.Ambiguous)
         | None => Ok s
         end
       else Ok s);
  if model_ambiguous || tool_ambiguous then
    if bool_decide (st_status s = Episode.Suspended) then Ok s
    else s ← move s Episode.SuspensionRequested; move s Episode.Suspended
  else if bool_decide (st_status s = Episode.CancellationPending) then Ok s
  else move s Episode.CancellationPending.

(** The state and status of [AgentLoopRunner::resume_reconciliation]. *)
Definition reconcile_state (s : DurableEpisodeState)
    : result Fault (DurableEpisodeState * Episode.EpisodeStatus) :=
  _ ← lift_result (guard_err (bool_decide (st_status s <> Episode.Suspended))
        (InvalidDurableState "only a suspended episode can resume reconciliation"));
  let has_unresolved_tool :=
    existsb (fun o => negb (ToolOp.op_is_terminal (op_status_of o))) (st_tool_operations s) in
  let next := if has_unresolved_tool then Episode.ToolWorkPending
              else if st_cancellation_requested s then Episode.CancellationPending
              else Episode.ReadyForModel in
  s' ← move s next;
  Ok (s', next).

(** ** One model request *)

(** [backoff_millis]. *)
Definition backoff_millis (failures : N) : N :=
  let shift := if (7 <? failures)%N then 7%N else failures in
  let delay := N.shiftl 250 shift in
  if (30000 <? delay)%N then 30000%N else delay.

(** [failed_attempts]. *)
Definition failed_attempts (s : DurableEpisodeState) : N :=
  match try_from_len u32_max
          (count (fun a => bool_decide (is_Some (Attempt.at_diagnostic_digest a)))
             (st_attempts s)) with
  | Some n => n
  | None => u32_max
  end.

(** [find_map(diagnostic_digest)] from the last attempt backwards. *)
Fixpoint first_diagnostic (l : list Attempt.ModelAttemptRecord) : option Sha256Digest :=
  match l with
  | [] => None
  | a :: l => match Attempt.at_diagnostic_digest a with
              | Some d => Some d
              | None => first_diagnostic l
              end
  end.

(** [repeats_the_last_failure]. *)
Definition repeats_the_last_failure (s : DurableEpisodeState)
    (diagnostic : option Sha256Digest) : bool :=
  match diagnostic with
  | None => false
  | Some d => bool_decide (first_diagnostic (reverse (st_attempts s)) = Some d)
  end.

(** [AgentLoopRunner::after_failed_dispatch]. *)
Definition after_failed_dispatch (s : DurableEpisodeState) (retry : ModelTransportRetryHint)
    (repeated : bool) : result Fault (DurableEpisodeState * AgentLoopAdvance) :=
  if bool_decide (retry = Never) || repeated then
    s' ← move s Episode.Failed;
    Ok (s', Terminal Episode.Failed)
  else
    let delay_millis := match retry with
                        | AfterMillis millis => millis
                        | _ => backoff_millis (failed_attempts s)
                        end in
    s' ← move s Episode.ReadyForModel;
    Ok (s', ProgressedAfter Episode.ReadyForModel delay_millis).

(** What follows an ambiguous attempt. *)
Definition after_ambiguous (s : DurableEpisodeState) : Episode.EpisodeStatus :=
  if (p_max_ambiguous_model_attempts (st_policy s) <? st_ambiguous_model_attempts s)%N
  then Episode.BudgetExhausted else Episode.ReadyForModel.

(** [drive_model] on an attempt found [Dispatching] after a restart. *)
Definition recover_dispatch (s : DurableEpisodeState)
    : result Fault (DurableEpisodeState * AgentLoopAdvance) :=
  let terminal := if st_cancellation_requested s then Attempt.CancelledAmbiguous
                  else Attempt.Ambiguous in
  s ← on_last_attempt s (fun a => Attempt.finish_without_response a terminal None);
  n ← lift_result (ok_or (checked_add u32_max (st_ambiguous_model_attempts s) 1)
                     CounterExhausted);
  let s := set_ambiguous s n in
  if st_cancellation_requested s then
    s ← move s Episode.SuspensionRequested;
    s ← move s Episode.Suspended;
    Ok (s, Suspended)
  else
    let next := after_ambiguous s in
    s ← move s next;
    Ok (s, progress next).

(** [drive_model] up to the commit of the dispatch. *)
Definition begin_dispatch (episode_id : EpisodeId) (s : DurableEpisodeState)
    : result Fault (DurableEpisodeState * ModelTurnRequest) :=
  turn_index ← lift_result (next_index (length (st_turns s)));
  s ← on_last_attempt s Attempt.mark_dispatching;
  match last (st_attempts s) with
  | None => Err Panic
  | Some attempt =>
      Ok (s, MkModelTurnRequest (Attempt.at_id attempt) episode_id turn_index
               (st_next_input_digest s))
  end.

Section outcomes.
Context `{Sha256}.

(** The [Turn] arm of [drive_model]. *)
Definition record_turn (episode_id : EpisodeId) (s : DurableEpisodeState)
    (request : ModelTurnRequest) (exchange : GatewayTurnExchange)
    : result Fault DurableEpisodeState :=
  let turn := ge_turn exchange in
  let decoded_digest := digest_semantic_turn turn in
  s ← on_last_attempt s (fun a =>
        a ← Attempt.record_response a (ge_raw_exchange_digest exchange) None (gt_usage turn);
        Attempt.mark_decoded a (ge_native_continuation_digest exchange));
  turn_id ← lift_result (derived_turn_id episode_id (mr_turn_index request));
  tool_call_count ← lift_result (ok_or (try_from_len u32_max (length (gt_tool_calls turn)))
                                   CounterExhausted);
  record ← map_err (fun e => Failure (TurnError e))
    (turn_new (MkTurnSpec turn_id episode_id (mr_attempt_id request) (mr_turn_index request)
       decoded_digest (ge_raw_exchange_digest exchange) (ge_native_continuation_digest exchange)
       (gt_stop_reason turn) tool_call_count (gt_usage turn)));
  move (set_turns s (st_turns s ++ [MkDurableTurn record turn])) Episode.TurnRecorded.

(** The match on the outcome in [drive_model]. *)
Definition apply_model_outcome (episode_id : EpisodeId) (s : DurableEpisodeState)
    (request : ModelTurnRequest) (outcome : ModelGatewayOutcome)
    : result Fault (DurableEpisodeState * AgentLoopAdvance) :=
  match outcome with
  | OTurn exchange =>
      s' ← record_turn episode_id s request exchange;
      Ok (s', Progressed Episode.TurnRecorded)
  | OConfirmedNotSent _ diagnostic_digest retry =>
      let repeated := repeats_the_last_failure s diagnostic_digest in
      s ← on_last_attempt s (fun a =>
            Attempt.finish_without_response a Attempt.ConfirmedNotSent diagnostic_digest);
      after_failed_dispatch s retry repeated
  | ORejected response_digest _ diagnostic_digest retry =>
      let repeated := repeats_the_last_failure s diagnostic_digest in
      s ← on_last_attempt s (fun a =>
            a ← Attempt.record_response a response_digest None None;
            Attempt.mark_response_failed a diagnostic_digest);
      after_failed_dispatch s retry repeated
  | ODecodeFailed response_digest _ diagnostic_digest =>
      s ← on_last_attempt s (fun a =>
            a ← Attempt.record_response a response_digest None None;
            Attempt.mark_decode_failed a diagnostic_digest);
      s' ← move s Episode.Failed;
      Ok (s', Terminal Episode.Failed)
  | OAmbiguous _ diagnostic_digest _ =>
      s ← on_last_attempt s (fun a =>
            Attempt.finish_without_response a Attempt.Ambiguous diagnostic_digest);
      n ← increment (st_ambiguous_model_attempts s);
      let s := set_ambiguous s n in
      let next := after_ambiguous s in
      s' ← move s next;
      Ok (s', progress next)
  end.

End outcomes.

(** ** Tool calls *)

Section tools.
Context `{Sha256} `{AgentToolGateway T}.

(** The body of the planning loop: one call becomes one operation. *)
Definition plan_call (episode_id : EpisodeId) (tools : T) (turn_id : TurnId)
    (input : Sha256Digest) (index : nat) (call : GatewayToolCall)
    : result Fault DurableToolOperation :=
  let descriptor :=
    default (MkDescriptor (tc_name call) "unknown" ToolOp.ReadOnly ToolOp.Narrative)
      (tool_descriptor tools (tc_name call)) in
  let arguments_digest := digest_bytes (tc_raw_arguments call) in
  operation_id ← lift_result (derived_tool_operation_id episode_id turn_id index descriptor
                                arguments_digest input);
  record ← lift_record (ToolOp.op_new (ToolOp.MkToolOperationSpec operation_id episode_id
    turn_id (tc_native_call_id call) (tc_name call) (rd_version descriptor)
    (rd_effect_class descriptor) (rd_result_authority descriptor) arguments_digest input));
  record ←
    match tool_validate_call tools call with
    | Err rejection =>
        lift_record (ToolOp.op_finish record ToolOp.RejectedAsInvalid
                       (rj_result_digest rejection) [])
    | Ok _ =>
        if bool_decide (tool_descriptor tools (tc_name call) = None) then
          lift_record (ToolOp.op_finish record ToolOp.RejectedAsInvalid
                         (digest_label "unknown-tool") [])
        else Ok record
    end;
  Ok (MkDurableOp record call).

(** The loop over [tool_calls.into_iter().enumerate()]. *)
Fixpoint plan_calls (episode_id : EpisodeId) (tools : T) (turn_id : TurnId)
    (input : Sha256Digest) (index : nat) (calls : list GatewayToolCall)
    : result Fault (list DurableToolOperation) :=
  match calls with
  | [] => Ok []
  | call :: rest =>
      o ← plan_call episode_id tools turn_id input index call;
      os ← plan_calls episode_id tools turn_id input (S index) rest;
      Ok (o :: os)
  end.

(** [AgentLoopRunner::plan_turn_tools] up to its save. *)
Definition plan_state (episode_id : EpisodeId) (tools : T) (s : DurableEpisodeState)
    : result Fault (DurableEpisodeState * AgentLoopAdvance) :=
  turn ← last_turn s;
  let calls := gt_tool_calls (dt_semantic_turn turn) in
  if bool_decide (calls = []) then
    s' ← move s Episode.StopReview; Ok (s', Progressed Episode.StopReview)
  else
    call_count ← lift_result (ok_or (try_from_len u32_max (length calls)) CounterExhausted);
    total ← lift_result (ok_or (checked_add u64_max (N.of_nat (length (st_tool_operations s)))
                                  (N.of_nat (length calls))) CounterExhausted);
    if (p_max_total_tool_operations (st_policy s) <? total)%N then
      s' ← move s Episode.BudgetExhausted; Ok (s', Terminal Episode.BudgetExhausted)
    else if (p_max_tool_calls_per_turn (st_policy s) <? call_count)%N then
      s' ← move s Episode.StopReview; Ok (s', Progressed Episode.StopReview)
    else
      ops ← plan_calls episode_id tools (tr_id (dt_record turn)) (st_next_input_digest s) 0 calls;
      s' ← move (set_ops s (st_tool_operations s ++ ops)) Episode.ToolWorkPending;
      Ok (s', Progressed Episode.ToolWorkPending).

(** [position(|operation| !operation.record.status().is_terminal())]. *)
Definition pending_op (s : DurableEpisodeState) : option nat :=
  fst <$> list_find (fun o => ToolOp.op_is_terminal (op_status_of o) = false)
            (st_tool_operations s).

(** The results of the operations of one turn, in order. *)
Definition turn_results (turn_id : TurnId) (ops : list DurableToolOperation)
    : list Sha256Digest :=
  omap (fun o => if bool_decide (ToolOp.op_turn_id (do_record o) = turn_id)
                 then ToolOp.op_result_digest (do_record o) else None) ops.

(** [drive_tools] when every operation is terminal. *)
Definition settle_tools (s : DurableEpisodeState)
    : result Fault (DurableEpisodeState * AgentLoopAdvance) :=
  turn ← last_turn s;
  let continuation := tr_native_continuation_digest (dt_record turn) in
  let results := turn_results (tr_id (dt_record turn)) (st_tool_operations s) in
  let s := set_next_input s (derive_model_continuation_input_digest continuation results) in
  s' ← move s Episode.ReadyForModel;
  Ok (s', Progressed Episode.ReadyForModel).

(** [drive_tools] up to the commit of the dispatch of operation [index]:
    the state to save, the invocation and the status it is saved with. *)
Definition begin_tool (s : DurableEpisodeState) (index : nat)
    : result Fault (DurableEpisodeState * ToolInvocation * ToolOp.ToolOperationStatus) :=
  o ← ok_or (st_tool_operations s !! index) Panic;
  let status := op_status_of o in
  s ← match status with
      | ToolOp.Requested =>
          s ← on_op s index (fun r => ToolOp.op_transition r ToolOp.Authorized);
          on_op s index (fun r => ToolOp.op_transition r ToolOp.Dispatching)
      | ToolOp.Dispatching =>
          s ← on_op s index (fun r => ToolOp.op_transition r ToolOp.Ambiguous);
          on_op s index (fun r => ToolOp.op_transition r ToolOp.Reconciling)
      | ToolOp.Ambiguous =>
          on_op s index (fun r => ToolOp.op_transition r ToolOp.Reconciling)
      | ToolOp.Reconciling | ToolOp.Running => Ok s
      | _ => Err (Failure (InvalidDurableState
               "tool work contains an unsupported nonterminal state"))
      end;
  o ← ok_or (st_tool_operations s !! index) Panic;
  Ok (s, MkInvocation (ToolOp.op_id (do_record o)) (do_call o) (st_next_input_digest s),
      op_status_of o).

(** [reconciling] of [drive_tools]. *)
Definition reconciling (dispatch_status : ToolOp.ToolOperationStatus) : bool :=
  match dispatch_status with ToolOp.Reconciling | ToolOp.Running => true | _ => false end.

(** The match on the outcome in [drive_tools]. *)
Definition apply_tool_outcome (s : DurableEpisodeState) (index : nat)
    (dispatch_status : ToolOp.ToolOperationStatus) (outcome : ToolGatewayOutcome)
    : result Fault (DurableEpisodeState * AgentLoopAdvance) :=
  match outcome with
  | TCompleted status result_digest receipt_digests satisfies_subtask =>
      _ ← lift_result (guard_err (negb (ToolOp.op_is_terminal status)
                                  || bool_decide (status = ToolOp.RejectedAsInvalid))
                         InvalidToolOutcome);
      o ← ok_or (st_tool_operations s !! index) Panic;
      _ ← lift_result (guard_err (satisfies_subtask
             && bool_decide (ToolOp.op_result_authority (do_record o) <> ToolOp.VerifiedReference))
             UntrustedCompletion);
      s ← on_op s index (fun r => ToolOp.op_finish r status result_digest receipt_digests);
      Ok (set_satisfied s (st_subtask_satisfied s || satisfies_subtask),
          Progressed Episode.ToolWorkPending)
  | TPending _ =>
      s ← (if bool_decide (dispatch_status = ToolOp.Running) then Ok s
           else on_op s index (fun r => ToolOp.op_transition r ToolOp.Running));
      Ok (s, Progressed Episode.ToolWorkPending)
  | TAmbiguous _ =>
      s ← (if bool_decide (dispatch_status = ToolOp.Reconciling) then Ok s
           else on_op s index (fun r => ToolOp.op_transition r ToolOp.Ambiguous));
      s ← move s Episode.SuspensionRequested;
      s ← move s Episode.Suspended;
      Ok (s, Suspended)
  end.

End tools.
