(* ===== verification/EpisodeRuntime.v ===== *)
(** * The durable episode runner

    [src/crates/alloyport-core/src/agent_runtime.rs]:
    [AgentLoopRunner::{advance, resume, request_cancellation,
    resume_reconciliation}], with the effects of [drive_model],
    [plan_turn_tools] and [drive_tools].

    A handler is a computation of [Run]: it threads the world (the
    repository and the three adapters, each with its own state) and
    returns a value or a fault; what an effect did to the world stays
    done when a later step faults, as it does in the program.  The world
    also carries a ghost log of the effects that happened, which no
    definition reads. *)

From stdpp Require Import base strings list.
From S2P Require Import Prelude Digest Identity AgentRecord ModelAttempt ModelGateway.
From S2P Require Import LoopPolicy EpisodeState EpisodePorts EpisodeSteps.

(** An effect that happened: a committed save, or a call of an adapter. *)
Inductive Effect :=
| EffSave (s : DurableEpisodeState)
| EffInvoke (request : ModelTurnRequest)
| EffExecute (invocation : ToolInvocation)
| EffReconcile (invocation : ToolInvocation).

Record World (R M T F : Type) := MkWorld {
  w_repo : R;
  w_models : M;
  w_tools : T;
  w_faults : F;
  w_log : list Effect;
}.
Arguments MkWorld {R M T F}.
Arguments w_repo {R M T F}.
Arguments w_models {R M T F}.
Arguments w_tools {R M T F}.
Arguments w_faults {R M T F}.
Arguments w_log {R M T F}.

Section runner.
Context `{Sha256} `{EpisodeRepository R} `{ModelGateway M} `{AgentToolGateway T}
  `{AgentRuntimeFaultInjector F}.

Definition Run (A : Type) : Type := World R M T F -> World R M T F * result Fault A.

#[global] Instance run_ret : MRet Run := fun A a w => (w, Ok a).
#[global] Instance run_bind : MBind Run := fun A B f m w =>
  match m w with
  | (w', Ok a) => f a w'
  | (w', Err e) => (w', Err e)
  end.

(** A pure step and its [?]. *)
Definition pure_step {A} (r : result Fault A) : Run A := fun w => (w, r).

(** The call of an adapter is logged with its request. *)
Definition log_effect (e : Effect) : Run unit := fun w =>
  (MkWorld (w_repo w) (w_models w) (w_tools w) (w_faults w) (w_log w ++ [e]), Ok tt).

(** [repository.load(id)?]. *)
Definition load (id : EpisodeId) : Run VersionedEpisodeState := fun w =>
  let '(r, v) := repo_load id (w_repo w) in
  (MkWorld r (w_models w) (w_tools w) (w_faults w) (w_log w),
   map_err (fun e => Failure (RepositoryError e)) v).

(** [repository.save(revision, state)?]; a save that succeeds is logged. *)
Definition save (revision : N) (s : DurableEpisodeState) : Run N := fun w =>
  let '(r, v) := repo_save revision s (w_repo w) in
  match v with
  | Ok rev => (MkWorld r (w_models w) (w_tools w) (w_faults w) (w_log w ++ [EffSave s]), Ok rev)
  | Err e => (MkWorld r (w_models w) (w_tools w) (w_faults w) (w_log w),
              Err (Failure (RepositoryError e)))
  end.

(** [crash_if(faults, point)?]. *)
Definition crash_if (point : AgentRuntimeFaultPoint) : Run unit := fun w =>
  let '(f, crash) := should_crash point (w_faults w) in
  (MkWorld (w_repo w) (w_models w) (w_tools w) f (w_log w),
   if crash then Err (Failure (InjectedCrash point)) else Ok tt).

(** [models.invoke(&request).await?]. *)
Definition invoke_model (request : ModelTurnRequest) : Run ModelGatewayOutcome := fun w =>
  let '(m, v) := model_invoke request (w_models w) in
  (MkWorld (w_repo w) m (w_tools w) (w_faults w) (w_log w ++ [EffInvoke request]),
   map_err (fun e => Failure (GatewayError e)) v).

(** [tools.execute(&invocation).await?] and [tools.reconcile(..)]. *)
Definition execute_tool (invocation : ToolInvocation) : Run ToolGatewayOutcome := fun w =>
  let '(t, v) := tool_execute invocation (w_tools w) in
  (MkWorld (w_repo w) (w_models w) t (w_faults w) (w_log w ++ [EffExecute invocation]),
   map_err (fun e => Failure (ToolError e)) v).

Definition reconcile_tool (invocation : ToolInvocation) : Run ToolGatewayOutcome := fun w =>
  let '(t, v) := tool_reconcile invocation (w_tools w) in
  (MkWorld (w_repo w) (w_models w) t (w_faults w) (w_log w ++ [EffReconcile invocation]),
   map_err (fun e => Failure (ToolError e)) v).

(** The [&T] the planner reads. *)
Definition ask_tools : Run T := fun w => (w, Ok (w_tools w)).

(** A step that computes the state to save, saves it and returns. *)
Definition commit {A} (revision : N) (r : result Fault (DurableEpisodeState * A)) : Run A :=
  sa ← pure_step r;
  _ ← save revision sa.1;
  mret sa.2.

(** [AgentLoopRunner::drive_model]. *)
Definition drive_model (episode_id : EpisodeId) (versioned : VersionedEpisodeState)
    : Run AgentLoopAdvance :=
  let s := ve_state versioned in
  attempt ← pure_step (ok_or (last (st_attempts s)) (Failure MissingModelAttempt));
  let status := Attempt.at_status attempt in
  if bool_decide (status = Attempt.Dispatching) then
    commit (ve_revision versioned) (recover_dispatch s)
  else if bool_decide (status <> Attempt.Prepared) then
    pure_step (Err (Failure (InvalidDurableState
      "pending episode has no prepared/dispatching attempt")))
  else
    begun ← pure_step (begin_dispatch episode_id s);
    let '(s, request) := begun : DurableEpisodeState * ModelTurnRequest in
    revision ← save (ve_revision versioned) s;
    _ ← crash_if AfterModelDispatchCommit;
    outcome ← invoke_model request;
    _ ← crash_if AfterModelOutcomeBeforeCommit;
    advance ← commit revision (apply_model_outcome episode_id s request outcome);
    _ ← (match outcome with
         | OTurn _ => crash_if AfterTurnCommit
         | _ => mret tt
         end);
    mret advance.

(** [AgentLoopRunner::plan_turn_tools]. *)
Definition plan_turn_tools (episode_id : EpisodeId) (versioned : VersionedEpisodeState)
    : Run AgentLoopAdvance :=
  tools ← ask_tools;
  advance ← commit (ve_revision versioned) (plan_state episode_id tools (ve_state versioned));
  _ ← (if bool_decide (advance = Progressed Episode.ToolWorkPending)
       then crash_if AfterTurnCommit else mret tt);
  mret advance.

(** [AgentLoopRunner::drive_tools]. *)
Definition drive_tools (versioned : VersionedEpisodeState) : Run AgentLoopAdvance :=
  let s := ve_state versioned in
  match pending_op s with
  | None => commit (ve_revision versioned) (settle_tools s)
  | Some index =>
      begun ← pure_step (begin_tool s index);
      let '(s, invocation, dispatch_status) :=
        begun : DurableEpisodeState * ToolInvocation * ToolOp.ToolOperationStatus in
      revision ← save (ve_revision versioned) s;
      _ ← crash_if AfterToolDispatchCommit;
      outcome ← (if reconciling dispatch_status then reconcile_tool invocation
                 else execute_tool invocation);
      _ ← crash_if AfterToolOutcomeBeforeCommit;
      advance ← commit revision (apply_tool_outcome s index dispatch_status outcome);
      _ ← (match outcome with
           | TCompleted _ _ _ _ => crash_if AfterToolResultCommit
           | _ => mret tt
           end);
      mret advance
  end.

(** [AgentLoopRunner::advance]. *)
Definition advance (episode_id : EpisodeId) : Run AgentLoopAdvance :=
  versioned ← load episode_id;
  let s := ve_state versioned in
  let status := st_status s in
  if Episode.episode_is_terminal status then mret (Terminal status)
  else match status with
  | Episode.Created =>
      commit (ve_revision versioned) (transition_state s Episode.ReadyForModel)
  | Episode.ReadyForModel => commit (ve_revision versioned) (prepare_state episode_id s)
  | Episode.ModelAttemptPending => drive_model episode_id versioned
  | Episode.TurnRecorded => plan_turn_tools episode_id versioned
  | Episode.ToolWorkPending => drive_tools versioned
  | Episode.StopReview => commit (ve_revision versioned) (review_state s)
  | Episode.CancellationPending =>
      commit (ve_revision versioned) (transition_state s Episode.Cancelled)
  | Episode.Suspended | Episode.SuspensionRequested => mret Suspended
  | _ => pure_step (Err Panic)
  end.

(** [AgentLoopRunner::resume]. *)
Definition resume (episode_id : EpisodeId) (granted : EpisodeAllowance)
    : Run Episode.EpisodeStatus :=
  versioned ← load episode_id;
  let s := ve_state versioned in
  _ ← pure_step (lift_result (validate_recovered s));
  let resumed_from := st_status s in
  if negb (Episode.episode_is_terminal resumed_from) then mret resumed_from
  else commit (ve_revision versioned)
         (s' ← resume_state s granted; Ok (s', resumed_from)).

(** [AgentLoopRunner::request_cancellation]. *)
Definition request_cancellation (episode_id : EpisodeId) : Run Episode.EpisodeStatus :=
  versioned ← load episode_id;
  let s := ve_state versioned in
  if Episode.episode_is_terminal (st_status s) then mret (st_status s)
  else commit (ve_revision versioned) (s' ← cancel_state s; Ok (s', st_status s')).

(** [AgentLoopRunner::resume_reconciliation]. *)
Definition resume_reconciliation (episode_id : EpisodeId) : Run Episode.EpisodeStatus :=
  versioned ← load episode_id;
  commit (ve_revision versioned) (reconcile_state (ve_state versioned)).

(** The four entry points, as a client may call them in any order. *)
Inductive Call :=
| CallAdvance
| CallResume (granted : EpisodeAllowance)
| CallCancel
| CallReconcile.

Definition run_call (episode_id : EpisodeId) (c : Call) (w : World R M T F)
    : World R M T F * result Fault unit :=
  match c with
  | CallAdvance => let '(w', r) := advance episode_id w in (w', (fun _ => tt) <$> r)
  | CallResume g => let '(w', r) := resume episode_id g w in (w', (fun _ => tt) <$> r)
  | CallCancel => let '(w', r) := request_cancellation episode_id w in (w', (fun _ => tt) <$> r)
  | CallReconcile =>
      let '(w', r) := resume_reconciliation episode_id w in (w', (fun _ => tt) <$> r)
  end.

(** A history of calls, each on the world the previous one left: an error
    or an injected crash ends a call, and the next one restarts from the
    repository. *)
Fixpoint run_calls (episode_id : EpisodeId) (cs : list Call) (w : World R M T F)
    : World R M T F :=
  match cs with
  | [] => w
  | c :: cs => run_calls episode_id cs (run_call episode_id c w).1
  end.

End runner.
Arguments Run R M T F A : clear implicits.
