(* ===== verification/EpisodeHistory.v ===== *)
(** * The runner refines a history of saves and external calls

    The abstract specification of one call of the runner: what it may
    commit and which external effects it may cause, in which order
    ([call_log]), and the refinement theorem that every call of the
    detailed handlers, with any adapters, any injected crash and any
    failing save, is one of those. *)

From stdpp Require Import base strings list.
From S2P Require Import Prelude Digest Identity AgentRecord ModelAttempt ModelGateway.
From S2P Require Import LoopPolicy EpisodeState EpisodePorts EpisodeSteps.
From S2P Require Import EpisodeRuntime.

(** ** Inversion of the pure steps *)

Definition with_status (s : DurableEpisodeState) (n : Episode.EpisodeStatus)
    : DurableEpisodeState :=
  set_episode s (Episode.set_ep_status (st_episode s) n).

Lemma move_Ok s n s' :
  move s n = Ok s' <->
  Episode.episode_can_transition_to (st_status s) n = true /\ s' = with_status s n.
Proof.
  unfold move, lift_record. rewrite result_bind_Ok. setoid_rewrite map_err_Ok.
  setoid_rewrite Episode.episode_transition_Ok. unfold with_status, st_status. naive_solver.
Qed.

Lemma on_last_attempt_Ok s f s' :
  on_last_attempt s f = Ok s' <->
  exists a a', last (st_attempts s) = Some a /\ f a = Ok a'
    /\ s' = set_attempts s (set_last a' (st_attempts s)).
Proof.
  unfold on_last_attempt, lift_attempt. destruct (last _) as [a|]; [|naive_solver].
  rewrite result_bind_Ok. setoid_rewrite map_err_Ok. naive_solver.
Qed.

Lemma on_op_Ok s i f s' :
  on_op s i f = Ok s' <->
  exists o r, st_tool_operations s !! i = Some o /\ f (do_record o) = Ok r
    /\ s' = set_ops s (<[i := MkDurableOp r (do_call o)]> (st_tool_operations s)).
Proof.
  unfold on_op, lift_record. destruct (_ !! i) as [o|]; [|naive_solver].
  rewrite result_bind_Ok. setoid_rewrite map_err_Ok. naive_solver.
Qed.

Lemma increment_Ok n m : increment n = Ok m <-> m = (n + 1)%N /\ (n + 1 <= u32_max)%N.
Proof. unfold increment. rewrite ok_or_Ok, checked_add_Some. naive_solver. Qed.

Lemma next_index_Ok n m :
  next_index n = Ok m <-> m = (N.of_nat n + 1)%N /\ (N.of_nat n + 1 <= u32_max)%N.
Proof.
  unfold next_index. rewrite result_bind_Ok. setoid_rewrite ok_or_Ok.
  setoid_rewrite checked_add_Some. setoid_rewrite try_from_len_Some. split.
  - intros (k & [-> ?] & -> & ?). done.
  - intros [-> ?]. eexists. split; [split; [done|lia]|done].
Qed.

(** Decompose every equation that says a pure step succeeded. *)
Ltac inv_step :=
  repeat match goal with
  | H : _ ≫= _ = Ok _ |- _ => apply result_bind_Ok in H; destruct H as (? & ? & ?)
  | H : lift_result _ = Ok _ |- _ => unfold lift_result in H
  | H : lift_record _ = Ok _ |- _ => unfold lift_record in H
  | H : lift_attempt _ = Ok _ |- _ => unfold lift_attempt in H
  | H : map_err _ _ = Ok _ |- _ => apply map_err_Ok in H
  | H : ok_or _ _ = Ok _ |- _ => apply ok_or_Ok in H
  | H : guard_err _ _ = Ok _ |- _ => apply guard_err_Ok in H
  | H : move _ _ = Ok _ |- _ => apply move_Ok in H; destruct H as [? ->]
  | H : transition_state _ _ = Ok _ |- _ => unfold transition_state in H
  | H : on_last_attempt _ _ = Ok _ |- _ =>
      apply on_last_attempt_Ok in H; destruct H as (? & ? & ? & ? & ->)
  | H : on_op _ _ _ = Ok _ |- _ =>
      apply on_op_Ok in H; destruct H as (? & ? & ? & ? & ->)
  | H : increment _ = Ok _ |- _ => apply increment_Ok in H; destruct H as [-> ?]
  | H : next_index _ = Ok _ |- _ => apply next_index_Ok in H; destruct H as [-> ?]
  | H : Ok _ = Ok _ |- _ => injection H as H
  | H : (_, _) = (_, _) |- _ => injection H as ?
  | H : Err _ = Ok _ |- _ => discriminate H
  end; subst; cbn [fst snd] in *.

(** ** What never changes *)

(** The identity of the episode, the runtime values of its creation and
    its rules. *)
Definition same_identity (s s' : DurableEpisodeState) : Prop :=
  st_schema_version s' = st_schema_version s
  /\ Episode.ep_schema_version (st_episode s') = Episode.ep_schema_version (st_episode s)
  /\ Episode.ep_spec (st_episode s') = Episode.ep_spec (st_episode s)
  /\ st_identity s' = st_identity s
  /\ policy_rules (st_policy s') = policy_rules (st_policy s).

#[export] Instance same_identity_preorder : PreOrder same_identity.
Proof.
  split; [done|]. unfold same_identity. intros x y z H1 H2. destruct_and!. split_and!; congruence.
Qed.

Lemma same_identity_id s s' : same_identity s s' -> st_episode_id s' = st_episode_id s.
Proof.
  intros (_ & _ & E & _). unfold st_episode_id, Episode.ep_id. by rewrite E.
Qed.

(** ** The abstract calls *)

Section history.
Context `{Sha256} `{AgentToolGateway T}.
Variable eid : EpisodeId.

(** One save that is not the outcome of an external call. *)
Inductive quiet_save (tools : T) : Call -> DurableEpisodeState -> DurableEpisodeState -> Prop :=
| qs_start s s' a :
    st_status s = Episode.Created ->
    transition_state s Episode.ReadyForModel = Ok (s', a) -> quiet_save tools CallAdvance s s'
| qs_prepare s s' a :
    st_status s = Episode.ReadyForModel ->
    prepare_state eid s = Ok (s', a) -> quiet_save tools CallAdvance s s'
| qs_recover s s' a attempt :
    st_status s = Episode.ModelAttemptPending -> last (st_attempts s) = Some attempt ->
    Attempt.at_status attempt = Attempt.Dispatching ->
    recover_dispatch s = Ok (s', a) -> quiet_save tools CallAdvance s s'
| qs_plan s s' a :
    st_status s = Episode.TurnRecorded ->
    plan_state eid tools s = Ok (s', a) -> quiet_save tools CallAdvance s s'
| qs_settle s s' a :
    st_status s = Episode.ToolWorkPending -> pending_op s = None ->
    settle_tools s = Ok (s', a) -> quiet_save tools CallAdvance s s'
| qs_review s s' a :
    st_status s = Episode.StopReview ->
    review_state s = Ok (s', a) -> quiet_save tools CallAdvance s s'
| qs_cancelled s s' a :
    st_status s = Episode.CancellationPending ->
    transition_state s Episode.Cancelled = Ok (s', a) -> quiet_save tools CallAdvance s s'
| qs_resume s s' g :
    Episode.episode_is_terminal (st_status s) = true -> validate_recovered s = Ok tt ->
    resume_state s g = Ok s' -> quiet_save tools (CallResume g) s s'
| qs_cancel s s' :
    Episode.episode_is_terminal (st_status s) = false ->
    cancel_state s = Ok s' -> quiet_save tools CallCancel s s'
| qs_reconcile s s' n :
    reconcile_state s = Ok (s', n) -> quiet_save tools CallReconcile s s'.

(** The dispatch of a prepared model attempt. *)
Definition model_dispatch (s s1 : DurableEpisodeState) (request : ModelTurnRequest) : Prop :=
  st_status s = Episode.ModelAttemptPending
  /\ (exists attempt, last (st_attempts s) = Some attempt
        /\ Attempt.at_status attempt = Attempt.Prepared)
  /\ begin_dispatch eid s = Ok (s1, request).

(** The dispatch of the first unfinished tool operation. *)
Definition tool_dispatch (s s1 : DurableEpisodeState) (index : nat)
    (invocation : ToolInvocation) (st : ToolOp.ToolOperationStatus) : Prop :=
  st_status s = Episode.ToolWorkPending
  /\ pending_op s = Some index
  /\ begin_tool s index = Ok (s1, invocation, st).

(** The call of the tool adapter a dispatch status stands for. *)
Definition tool_effect (st : ToolOp.ToolOperationStatus) (invocation : ToolInvocation) : Effect :=
  if reconciling st then EffReconcile invocation else EffExecute invocation.

(** What one call of the runner does to the durable state, and the
    effects it causes, in order. *)
Inductive call_log (tools : T) :
  Call -> DurableEpisodeState -> list Effect -> DurableEpisodeState -> Prop :=
| cl_none c s : call_log tools c s [] s
| cl_save c s s' : quiet_save tools c s s' -> call_log tools c s [EffSave s'] s'
| cl_model_crash s s1 req :
    model_dispatch s s1 req -> call_log tools CallAdvance s [EffSave s1] s1
| cl_model_lost s s1 req :
    model_dispatch s s1 req ->
    call_log tools CallAdvance s [EffSave s1; EffInvoke req] s1
| cl_model_done s s1 req outcome s2 a :
    model_dispatch s s1 req -> apply_model_outcome eid s1 req outcome = Ok (s2, a) ->
    call_log tools CallAdvance s [EffSave s1; EffInvoke req; EffSave s2] s2
| cl_tool_crash s s1 i inv st :
    tool_dispatch s s1 i inv st -> call_log tools CallAdvance s [EffSave s1] s1
| cl_tool_lost s s1 i inv st :
    tool_dispatch s s1 i inv st ->
    call_log tools CallAdvance s [EffSave s1; tool_effect st inv] s1
| cl_tool_done s s1 i inv st outcome s2 a :
    tool_dispatch s s1 i inv st -> apply_tool_outcome s1 i st outcome = Ok (s2, a) ->
    call_log tools CallAdvance s [EffSave s1; tool_effect st inv; EffSave s2] s2.

(** *** Every step keeps the identity *)

Lemma begin_dispatch_identity s s1 req : begin_dispatch eid s = Ok (s1, req) -> same_identity s s1.
Proof. unfold begin_dispatch. intros. inv_step. case_match; inv_step. done. Qed.

Lemma record_turn_identity s req e s' : record_turn eid s req e = Ok s' -> same_identity s s'.
Proof. unfold record_turn. intros. inv_step. done. Qed.

Lemma after_failed_identity s retry b s' a :
  after_failed_dispatch s retry b = Ok (s', a) -> same_identity s s'.
Proof. unfold after_failed_dispatch. intros. case_match; inv_step; done. Qed.

Lemma apply_model_outcome_identity s req o s' a :
  apply_model_outcome eid s req o = Ok (s', a) -> same_identity s s'.
Proof.
  destruct o; cbn [apply_model_outcome]; intros; inv_step;
    try match goal with
    | H : record_turn _ _ _ _ = Ok _ |- _ => apply record_turn_identity in H
    | H : after_failed_dispatch _ _ _ = Ok _ |- _ => apply after_failed_identity in H
    end; done.
Qed.

Lemma begin_tool_identity s i s1 inv st :
  begin_tool s i = Ok (s1, inv, st) -> same_identity s s1.
Proof. unfold begin_tool. intros. inv_step. case_match; inv_step; done. Qed.

Lemma apply_tool_outcome_identity s i st o s' a :
  apply_tool_outcome s i st o = Ok (s', a) -> same_identity s s'.
Proof.
  destruct o; cbn [apply_tool_outcome]; intros; inv_step; repeat case_match; inv_step; done.
Qed.

Lemma quiet_save_identity tools c s s' : quiet_save tools c s s' -> same_identity s s'.
Proof.
  destruct 1 as [? ? ? ? Hs|? ? ? ? Hs|? ? ? ? ? ? ? Hs|? ? ? ? Hs|? ? ? ? ? Hs|? ? ? ? Hs
                |? ? ? ? Hs|? ? ? ? ? Hs|? ? ? Hs|? ? ? Hs].
  - inv_step. done.
  - unfold prepare_state in Hs. repeat case_match; inv_step; done.
  - unfold recover_dispatch in Hs. inv_step. case_match; inv_step; done.
  - unfold plan_state in Hs. inv_step. repeat case_match; inv_step; try done.
    repeat case_match; inv_step; done.
  - unfold settle_tools in Hs. inv_step. done.
  - unfold review_state in Hs. inv_step. repeat case_match; inv_step; done.
  - inv_step. done.
  - unfold resume_state in Hs. inv_step.
    match goal with H : Episode.episode_resume _ = Ok _ |- _ =>
      apply Episode.episode_resume_Ok in H as [_ ->] end. done.
  - unfold cancel_state in Hs. inv_step. repeat case_match; inv_step; done.
  - unfold reconcile_state in Hs. inv_step. done.
Qed.

Lemma call_log_identity tools c s es s' : call_log tools c s es s' -> same_identity s s'.
Proof.
  destruct 1 as [| |? ? ? (_ & _ & Hd)|? ? ? (_ & _ & Hd)|? ? ? ? ? ? (_ & _ & Hd) Ha
    |? ? ? ? ? (_ & _ & Hd)|? ? ? ? ? (_ & _ & Hd)|? ? ? ? ? ? ? ? (_ & _ & Hd) Ha].
  - done.
  - by eapply quiet_save_identity.
  - by eapply begin_dispatch_identity.
  - by eapply begin_dispatch_identity.
  - etrans; [by eapply begin_dispatch_identity|by eapply apply_model_outcome_identity].
  - by eapply begin_tool_identity.
  - by eapply begin_tool_identity.
  - etrans; [by eapply begin_tool_identity|by eapply apply_tool_outcome_identity].
Qed.

End history.
Arguments same_identity : simpl never.
