(* ===== verification/EpisodeRefinement.v ===== *)
(** * The refinement theorem

    Every call of the runner of [EpisodeRuntime], against any repository
    that satisfies the laws, is one of the abstract calls of
    [EpisodeHistory]; a history of calls is a chain of them. *)

From stdpp Require Import base strings list.
From S2P Require Import Prelude Digest Identity AgentRecord ModelAttempt ModelGateway.
From S2P Require Import LoopPolicy EpisodeState EpisodePorts EpisodeSteps.
From S2P Require Import EpisodeRuntime EpisodeHistory.

(** The states a log says were saved. *)
Definition saved_states (es : list Effect) : list DurableEpisodeState :=
  omap (fun e => match e with EffSave s => Some s | _ => None end) es.

Section refinement.
Context `{Sha256} `{EpisodeRepositoryLaws R} `{ModelGateway M} `{AgentToolGateway T}
  `{AgentRuntimeFaultInjector F}.
Variable eid : EpisodeId.

Definition durable (w : World R M T F) : option VersionedEpisodeState :=
  repo_view (w_repo w) eid.

(** [w'] is [w] after the effects [es], with [s'] durable. *)
Definition after (w : World R M T F) (es : list Effect) (rev : N) (s' : DurableEpisodeState)
    (w' : World R M T F) : Prop :=
  durable w' = Some (MkVersioned rev s')
  /\ (forall id, id <> eid -> repo_view (w_repo w') id = repo_view (w_repo w) id)
  /\ w_log w' = w_log w ++ es.

Lemma after_nil w rev s : durable w = Some (MkVersioned rev s) -> after w [] rev s w.
Proof. intros. split_and!; [done|done|by rewrite app_nil_r]. Qed.

Lemma after_trans w es rev s w' es' rev' s' w'' :
  after w es rev s w' -> after w' es' rev' s' w'' -> after w (es ++ es') rev' s' w''.
Proof.
  intros (_ & A1 & A2) (B1 & B2 & B3). split_and!; [done| |].
  - intros id Hid. by rewrite B2, A1.
  - by rewrite B3, A2, (assoc_L (++)).
Qed.

(** Loading reports the durable state and leaves it alone. *)
Lemma load_spec w w' r rev s :
  load eid w = (w', r) -> durable w = Some (MkVersioned rev s) ->
  after w [] rev s w' /\ w_tools w' = w_tools w
  /\ (forall v, r = Ok v -> v = MkVersioned rev s).
Proof.
  unfold load, durable. intros Hl Hd. pose proof (repo_load_view eid (w_repo w)) as Hv.
  pose proof (repo_load_Ok eid (w_repo w)) as Ho.
  destruct (repo_load eid (w_repo w)) as [r0 v0]. cbn in *. simplify_eq. split_and!.
  - unfold after, durable. cbn. rewrite Hv. split_and!; [done|done|by rewrite app_nil_r].
  - done.
  - intros v Hr. apply map_err_Ok in Hr. apply Ho in Hr. congruence.
Qed.

Lemma save_spec w w' r rev rev0 s s0 :
  save rev s w = (w', r) -> durable w = Some (MkVersioned rev0 s0) -> st_episode_id s = eid ->
  w_tools w' = w_tools w /\
  match r with
  | Ok rev' => rev = rev0 /\ rev' = (rev0 + 1)%N /\ after w [EffSave s] (rev0 + 1) s w'
  | Err _ => after w [] rev0 s0 w'
  end.
Proof.
  unfold save, durable. intros Hs Hd Hid.
  pose proof (repo_save_Ok rev s (w_repo w)) as Ho.
  pose proof (repo_save_Err rev s (w_repo w)) as He.
  destruct (repo_save rev s (w_repo w)) as [r0 [rev'|e]]; cbn in *; simplify_eq; cbn.
  - specialize (Ho _ eq_refl) as (-> & [old Hold] & Hv).
    rewrite Hid in Hold, Hv. rewrite Hd in Hold. simplify_eq.
    split_and!; [done|done|done|]. split_and!; [|intros id Hne|done].
    + unfold durable. cbn. by rewrite Hv, decide_True.
    + cbn. by rewrite Hv, decide_False.
  - specialize (He _ eq_refl). split; [done|]. unfold after, durable. cbn. rewrite He.
    split_and!; [done|done|by rewrite app_nil_r].
Qed.

(** A step that computes, saves and returns. *)
Lemma commit_spec {A} w w' (res : result Fault A) rev s0 r :
  commit rev r w = (w', res) -> durable w = Some (MkVersioned rev s0) ->
  (forall s' a, r = Ok (s', a) -> st_episode_id s' = eid) ->
  (exists e, after w [] rev s0 w' /\ res = Err e)
  \/ (exists s' a, r = Ok (s', a) /\ after w [EffSave s'] (rev + 1) s' w' /\ res = Ok a).
Proof.
  unfold commit, pure_step, mbind, run_bind. cbn. intros Hc Hd Hid.
  destruct r as [[s' a]|e]; cbn in Hc.
  - destruct (save rev s' w) as [w1 [rev1|e]] eqn:Es;
      pose proof (save_spec _ _ _ _ _ _ _ Es Hd (Hid _ _ eq_refl)) as [_ Hs];
      cbn in Hc; injection Hc as <- <-.
    + right. destruct Hs as (_ & _ & Hs). eauto.
    + left. eauto.
  - injection Hc as <- <-. left. eexists. split; [by apply after_nil|done].
Qed.

(** Effects that do not touch the repository. *)
Lemma crash_if_after w w' p r rev s :
  crash_if p w = (w', r) -> durable w = Some (MkVersioned rev s) -> after w [] rev s w'.
Proof.
  unfold crash_if. destruct (should_crash _ _). intros [= <- <-]. apply after_nil.
Qed.

Lemma invoke_after w w' q r rev s :
  invoke_model q w = (w', r) -> durable w = Some (MkVersioned rev s) ->
  after w [EffInvoke q] rev s w'.
Proof.
  unfold invoke_model. destruct (model_invoke _ _). intros [= <- <-] Hd. by split_and!.
Qed.

Lemma tool_call_after w w' st i r rev s :
  (if reconciling st then reconcile_tool i else execute_tool i) w = (w', r) ->
  durable w = Some (MkVersioned rev s) -> after w [tool_effect st i] rev s w'.
Proof.
  unfold tool_effect, reconcile_tool, execute_tool.
  destruct (reconciling st); [destruct (tool_reconcile _ _)|destruct (tool_execute _ _)];
    intros [= <- <-] Hd; by split_and!.
Qed.

(** What a call leaves behind. *)
Definition refined (tools : T) (c : Call) (w : World R M T F) (rev : N)
    (s : DurableEpisodeState) (w' : World R M T F) : Prop :=
  exists es s', call_log eid tools c s es s'
    /\ after w es (rev + N.of_nat (length (saved_states es))) s' w'.

Lemma refined_none tools c w rev s w' : after w [] rev s w' -> refined tools c w rev s w'.
Proof. intros Ha. exists [], s. split; [constructor|]. cbn. by rewrite N.add_0_r. Qed.

(** A quiet commit refines. *)
Lemma refined_commit {A} tools c w w' (res : result Fault A) rev s r :
  commit rev r w = (w', res) -> durable w = Some (MkVersioned rev s) -> st_episode_id s = eid ->
  (forall s' a, r = Ok (s', a) -> quiet_save eid tools c s s') ->
  refined tools c w rev s w'.
Proof.
  intros Hc Hd Hid Hq.
  destruct (commit_spec _ _ _ _ _ _ Hc Hd) as [(e & Ha & ->)|(s' & a & -> & Ha & ->)].
  - intros s' a Hr. rewrite (same_identity_id _ _ (quiet_save_identity _ _ _ _ _ (Hq _ _ Hr))).
    done.
  - by apply refined_none.
  - exists [EffSave s'], s'. split; [|done]. constructor. eauto.
Qed.

(** Sequencing in [Run]. *)
Lemma run_bind_inv {A B} (m : Run R M T F A) (f : A -> Run R M T F B) w w' r :
  (m ≫= f) w = (w', r) ->
  exists w1 r1, m w = (w1, r1) /\
    match r1 with Ok a => f a w1 = (w', r) | Err e => w' = w1 /\ r = Err e end.
Proof.
  unfold mbind, run_bind. destruct (m w) as [w1 [a|e]]; intros.
  - eauto.
  - simplify_eq. do 2 eexists. by repeat split.
Qed.

(** The tail of a handler after its last commit touches no repository. *)
Lemma tail_after {A} (k : Run R M T F unit) (a : A) w w' r rev s :
  (forall w1 w2 r1, k w1 = (w2, r1) -> durable w1 = Some (MkVersioned rev s) ->
     after w1 [] rev s w2) ->
  (_ ← k; mret a) w = (w', r) -> durable w = Some (MkVersioned rev s) -> after w [] rev s w'.
Proof.
  intros Hk Hr Hd. apply run_bind_inv in Hr as (w1 & [[]|e] & E & Hr).
  - cbn in Hr. injection Hr as <- <-. eauto.
  - destruct Hr as [-> _]. eauto.
Qed.

(** The protocol of an external call: commit the dispatch, maybe crash,
    call, maybe crash, commit the outcome, maybe crash. *)
Definition protocol {A} (rev : N) (s1 : DurableEpisodeState) (p1 p2 : AgentRuntimeFaultPoint)
    (call : Run R M T F A)
    (apply_outcome : A -> result Fault (DurableEpisodeState * AgentLoopAdvance))
    (tail : A -> Run R M T F unit) : Run R M T F AgentLoopAdvance :=
  revision ← save rev s1;
  _ ← crash_if p1;
  outcome ← call;
  _ ← crash_if p2;
  advance ← commit revision (apply_outcome outcome);
  _ ← tail outcome;
  mret advance.

(** How far the protocol came. *)
Inductive protocol_log {A} (s s1 : DurableEpisodeState) (eff : Effect)
    (apply_outcome : A -> result Fault (DurableEpisodeState * AgentLoopAdvance)) :
    list Effect -> DurableEpisodeState -> Prop :=
| pl_none : protocol_log s s1 eff apply_outcome [] s
| pl_crash : protocol_log s s1 eff apply_outcome [EffSave s1] s1
| pl_lost : protocol_log s s1 eff apply_outcome [EffSave s1; eff] s1
| pl_done o s2 a : apply_outcome o = Ok (s2, a) ->
    protocol_log s s1 eff apply_outcome [EffSave s1; eff; EffSave s2] s2.

Section protocol_spec.
Context {A : Type} (s s1 : DurableEpisodeState) (p1 p2 : AgentRuntimeFaultPoint)
  (call : Run R M T F A) (eff : Effect)
  (apply_outcome : A -> result Fault (DurableEpisodeState * AgentLoopAdvance))
  (tail : A -> Run R M T F unit).
Hypothesis Hid : st_episode_id s1 = eid.
Hypothesis Heff : saved_states [eff] = [].
Hypothesis Hcall : forall w w' r rev s, call w = (w', r) ->
  durable w = Some (MkVersioned rev s) -> after w [eff] rev s w'.
Hypothesis Happly : forall o s2 a, apply_outcome o = Ok (s2, a) -> st_episode_id s2 = eid.
Hypothesis Htail : forall o w w' r rev s, tail o w = (w', r) ->
  durable w = Some (MkVersioned rev s) -> after w [] rev s w'.

(** After the dispatch is durable. *)
Lemma protocol_dispatched rev w w' r :
  (_ ← crash_if p1; outcome ← call; _ ← crash_if p2;
   advance ← commit rev (apply_outcome outcome); _ ← tail outcome; mret advance) w = (w', r) ->
  durable w = Some (MkVersioned rev s1) ->
  exists es rev' s', protocol_log s s1 eff apply_outcome (EffSave s1 :: es) s'
    /\ after w es rev' s' w' /\ rev' = (rev + N.of_nat (length (saved_states es)))%N.
Proof.
  intros Hr Hd.
  apply run_bind_inv in Hr as (w4 & [[]|e] & E4 & Hr);
    pose proof (crash_if_after _ _ _ _ _ _ E4 Hd) as L4; clear E4.
  2:{ destruct Hr as [-> ->]. exists [], rev, s1. split_and!; [constructor|done|cbn; lia]. }
  assert (forall w', after w [eff] rev s1 w' -> exists es rev' s',
      protocol_log s s1 eff apply_outcome (EffSave s1 :: es) s'
      /\ after w es rev' s' w' /\ rev' = (rev + N.of_nat (length (saved_states es)))%N) as Hlost.
  { intros w0 Hw. exists [eff], rev, s1. rewrite Heff.
    split_and!; [constructor|done|cbn; lia]. }
  apply run_bind_inv in Hr as (w5 & [outcome|e] & E5 & Hr);
    pose proof (after_trans _ _ _ _ _ _ _ _ _ L4 (Hcall _ _ _ _ _ E5 (proj1 L4))) as L5;
    [|destruct Hr as [-> ->]; eauto].
  apply run_bind_inv in Hr as (w6 & [[]|e] & E6 & Hr);
    pose proof (after_trans _ _ _ _ _ _ _ _ _ L5 (crash_if_after _ _ _ _ _ _ E6 (proj1 L5))) as L6;
    [|destruct Hr as [-> ->]; eauto].
  apply run_bind_inv in Hr as (w7 & r7 & E7 & Hr).
  destruct (commit_spec _ _ _ _ _ _ E7 (proj1 L6)) as [(e & Ha & ->)|(s2 & a & Eo & Ha & ->)];
    [eauto|destruct Hr as [-> _]; eapply Hlost; exact (after_trans _ _ _ _ _ _ _ _ _ L6 Ha)|].
  assert (after w7 [] (rev + 1) s2 w') as Ht
    by (eapply tail_after; [|done|apply Ha]; intros; by eapply Htail).
  exists [eff; EffSave s2], (rev + 1)%N, s2. split_and!; [by econstructor| |].
  - exact (after_trans _ _ _ _ _ _ _ _ _ (after_trans _ _ _ _ _ _ _ _ _ L6 Ha) Ht).
  - change [eff; EffSave s2] with ([eff] ++ [EffSave s2]).
    unfold saved_states in *. rewrite omap_app, Heff. cbn. lia.
Qed.

Lemma protocol_spec rev w w' r :
  protocol rev s1 p1 p2 call apply_outcome tail w = (w', r) ->
  durable w = Some (MkVersioned rev s) ->
  exists es s', protocol_log s s1 eff apply_outcome es s'
    /\ after w es (rev + N.of_nat (length (saved_states es))) s' w'.
Proof using Hid Heff Hcall Happly Htail.
  intros Hr Hd. unfold protocol in Hr.
  apply run_bind_inv in Hr as (w3 & [rev1|e] & E3 & Hr);
    pose proof (save_spec _ _ _ _ _ _ _ E3 Hd Hid) as [_ Hs].
  2:{ destruct Hr as [-> ->]. exists [], s. split; [constructor|]. cbn [saved_states omap list_omap length N.of_nat]. by rewrite N.add_0_r. }
  destruct Hs as (_ & -> & Hs).
  destruct (protocol_dispatched _ _ _ _ Hr (proj1 Hs)) as (es & rev' & s' & Hl & Ha & ->).
  exists (EffSave s1 :: es), s'. split; [done|].
  assert (rev + N.of_nat (length (saved_states (EffSave s1 :: es)))
          = rev + 1 + N.of_nat (length (saved_states es)))%N as ->
    by (change (saved_states (EffSave s1 :: es)) with (s1 :: saved_states es);
        rewrite length_cons; lia).
  exact (after_trans _ _ _ _ _ _ _ _ _ Hs Ha).
Qed.

End protocol_spec.

(** [drive_model] on a prepared attempt follows the protocol. *)
Lemma drive_model_refines tools w w' r rev s :
  drive_model eid (MkVersioned rev s) w = (w', r) ->
  durable w = Some (MkVersioned rev s) -> st_episode_id s = eid ->
  st_status s = Episode.ModelAttemptPending -> refined tools CallAdvance w rev s w'.
Proof.
  unfold drive_model. cbn [ve_state ve_revision]. intros Hr Hd Hid Hst.
  apply run_bind_inv in Hr as (w1 & [attempt|e] & E & Hr);
    cbn in E; injection E as <- E; [|destruct Hr as [-> ->]; by apply refined_none, after_nil].
  apply ok_or_Ok in E. case_bool_decide as Hdisp.
  { eapply refined_commit; [done|done|done|]. intros. by eapply qs_recover. }
  case_bool_decide as Hprep; [cbn in Hr; injection Hr as <- <-; by apply refined_none, after_nil|].
  apply run_bind_inv in Hr as (w2 & [[s1 req]|e] & E2 & Hr);
    cbn in E2; injection E2 as <- E2;
    [|destruct Hr as [-> ->]; by apply refined_none, after_nil].
  assert (model_dispatch eid s s1 req) as Hdis by (split_and!; eauto).
  assert (st_episode_id s1 = eid) as Hid1
    by (by rewrite (same_identity_id _ _ (begin_dispatch_identity eid _ _ _ E2))).
  destruct (protocol_spec s s1 AfterModelDispatchCommit AfterModelOutcomeBeforeCommit
    (invoke_model req) (EffInvoke req) (apply_model_outcome eid s1 req)
    (fun o => match o with OTurn _ => crash_if AfterTurnCommit | _ => mret tt end)
    Hid1 eq_refl (fun w w' r rev s => invoke_after w w' req r rev s))
    with (3 := Hr) (4 := Hd) as (es & s' & Hl & Ha).
  - intros o s2 a Ho. by rewrite (same_identity_id _ _ (apply_model_outcome_identity eid _ _ _ _ _ Ho)).
  - intros o w3 w4 r3 rev3 s3 Hk Hd3. destruct o; [by eapply crash_if_after| | | |];
      injection Hk as <- <-; by apply after_nil.
  - exists es, s'. split; [|done]. destruct Hl; by econstructor.
Qed.

(** [drive_tools] on an unfinished operation follows the protocol. *)
Lemma drive_tools_refines tools w w' r rev s :
  drive_tools (MkVersioned rev s) w = (w', r) ->
  durable w = Some (MkVersioned rev s) -> st_episode_id s = eid ->
  st_status s = Episode.ToolWorkPending -> refined tools CallAdvance w rev s w'.
Proof.
  unfold drive_tools. cbn [ve_state ve_revision]. intros Hr Hd Hid Hst.
  destruct (pending_op s) as [i|] eqn:Hp.
  2:{ eapply refined_commit; [done|done|done|]. intros. by eapply qs_settle. }
  apply run_bind_inv in Hr as (w2 & [[[s1 inv] st]|e] & E2 & Hr);
    cbn in E2; injection E2 as <- E2;
    [|destruct Hr as [-> ->]; by apply refined_none, after_nil].
  assert (tool_dispatch s s1 i inv st) as Hdis by (split_and!; eauto).
  assert (st_episode_id s1 = eid) as Hid1
    by (by rewrite (same_identity_id _ _ (begin_tool_identity _ _ _ _ _ E2))).
  destruct (protocol_spec s s1 AfterToolDispatchCommit AfterToolOutcomeBeforeCommit
    (if reconciling st then reconcile_tool inv else execute_tool inv) (tool_effect st inv)
    (apply_tool_outcome s1 i st)
    (fun o => match o with TCompleted _ _ _ _ => crash_if AfterToolResultCommit | _ => mret tt end)
    Hid1) with (5 := Hr) (6 := Hd) as (es & s' & Hl & Ha).
  - unfold tool_effect. by destruct (reconciling st).
  - intros. by eapply tool_call_after.
  - intros o s2 a Ho. by rewrite (same_identity_id _ _ (apply_tool_outcome_identity _ _ _ _ _ _ Ho)).
  - intros o w3 w4 r3 rev3 s3 Hk Hd3. destruct o; [by eapply crash_if_after| |];
      injection Hk as <- <-; by apply after_nil.
  - exists es, s'. split; [|done]. destruct Hl; by econstructor.
Qed.

Lemma plan_turn_tools_refines w w' r rev s :
  plan_turn_tools eid (MkVersioned rev s) w = (w', r) ->
  durable w = Some (MkVersioned rev s) -> st_episode_id s = eid ->
  st_status s = Episode.TurnRecorded -> refined (w_tools w) CallAdvance w rev s w'.
Proof.
  unfold plan_turn_tools. cbn [ve_state ve_revision]. intros Hr Hd Hid Hst.
  apply run_bind_inv in Hr as (w1 & r1 & [= <- <-] & Hr).
  apply run_bind_inv in Hr as (w2 & r2 & E & Hr).
  assert (refined (w_tools w) CallAdvance w rev s w2) as (es & s' & Hl & Ha).
  { eapply refined_commit; [done|done|done|]. intros. by eapply qs_plan. }
  exists es, s'. split; [done|]. destruct r2 as [adv|e]; [|by destruct Hr as [-> _]].
  rewrite <-(app_nil_r es).
  refine (after_trans _ _ _ _ _ _ _ _ _ Ha _). rewrite app_nil_r.
  eapply tail_after; [|done|apply Ha]. intros w3 w4 r3 Hk Hd3.
  case_bool_decide; [by eapply crash_if_after|]. injection Hk as <- <-. by apply after_nil.
Qed.

(** The load that every call starts with. *)
Lemma loaded_refines {A} (k : VersionedEpisodeState -> Run R M T F A) c w w' r rev s :
  (versioned ← load eid; k versioned) w = (w', r) ->
  durable w = Some (MkVersioned rev s) ->
  (forall w1, durable w1 = Some (MkVersioned rev s) -> w_tools w1 = w_tools w ->
     k (MkVersioned rev s) w1 = (w', r) -> refined (w_tools w1) c w1 rev s w') ->
  refined (w_tools w) c w rev s w'.
Proof.
  intros Hr Hd Hk. apply run_bind_inv in Hr as (w1 & r1 & E & Hr).
  destruct (load_spec _ _ _ _ _ E Hd) as (Ha & Ht & Hv).
  destruct r1 as [v|e]; [|destruct Hr as [-> _]; by apply refined_none].
  rewrite (Hv v eq_refl) in Hr.
  destruct (Hk w1 (proj1 Ha) Ht Hr) as (es & s' & Hl & Ha'). rewrite Ht in Hl.
  exists es, s'. split; [done|]. exact (after_trans _ _ _ _ _ _ _ _ _ Ha Ha').
Qed.

Lemma advance_refines w w' r rev s :
  advance eid w = (w', r) -> durable w = Some (MkVersioned rev s) -> st_episode_id s = eid ->
  refined (w_tools w) CallAdvance w rev s w'.
Proof.
  intros Hr Hd Hid. eapply loaded_refines; [exact Hr|done|]. clear Hr.
  intros w1 Hd1 Ht Hr. cbn [ve_state ve_revision] in Hr.
  destruct (Episode.episode_is_terminal (st_status s)).
  { injection Hr as <- <-. by apply refined_none, after_nil. }
  destruct (st_status s) eqn:Hst;
    try (injection Hr as <- <-; by apply refined_none, after_nil).
  - eapply refined_commit; [done|done|done|]. intros. by eapply qs_start.
  - eapply refined_commit; [done|done|done|]. intros. by eapply qs_prepare.
  - by eapply drive_model_refines.
  - by eapply plan_turn_tools_refines.
  - by eapply drive_tools_refines.
  - eapply refined_commit; [done|done|done|]. intros. by eapply qs_review.
  - eapply refined_commit; [done|done|done|]. intros. by eapply qs_cancelled.
Qed.

Lemma resume_refines g w w' r rev s :
  resume eid g w = (w', r) -> durable w = Some (MkVersioned rev s) -> st_episode_id s = eid ->
  refined (w_tools w) (CallResume g) w rev s w'.
Proof.
  intros Hr Hd Hid. eapply loaded_refines; [exact Hr|done|]. clear Hr.
  intros w1 Hd1 Ht Hr. cbn [ve_state ve_revision] in Hr.
  apply run_bind_inv in Hr as (w2 & [[]|e] & E & Hr); cbn in E; injection E as <- E;
    [|destruct Hr as [-> _]; by apply refined_none, after_nil].
  destruct (Episode.episode_is_terminal (st_status s)) eqn:Hterm; cbn in Hr.
  - eapply refined_commit; [done|done|done|]. intros s' a Hs. inv_step.
    by eapply qs_resume.
  - injection Hr as <- <-. by apply refined_none, after_nil.
Qed.

Lemma cancel_refines w w' r rev s :
  request_cancellation eid w = (w', r) -> durable w = Some (MkVersioned rev s) ->
  st_episode_id s = eid -> refined (w_tools w) CallCancel w rev s w'.
Proof.
  intros Hr Hd Hid. eapply loaded_refines; [exact Hr|done|]. clear Hr.
  intros w1 Hd1 Ht Hr. cbn [ve_state ve_revision] in Hr.
  destruct (Episode.episode_is_terminal (st_status s)) eqn:Hterm; cbn in Hr.
  - injection Hr as <- <-. by apply refined_none, after_nil.
  - eapply refined_commit; [done|done|done|]. intros s' a Hs.
    apply result_bind_Ok in Hs as (s2 & Hs & E). injection E as <- _. by eapply qs_cancel.
Qed.

Lemma reconcile_refines w w' r rev s :
  resume_reconciliation eid w = (w', r) -> durable w = Some (MkVersioned rev s) ->
  st_episode_id s = eid -> refined (w_tools w) CallReconcile w rev s w'.
Proof.
  intros Hr Hd Hid. eapply loaded_refines; [exact Hr|done|]. clear Hr.
  intros w1 Hd1 Ht Hr. cbn [ve_state ve_revision] in Hr.
  eapply refined_commit; [done|done|done|]. intros. by eapply qs_reconcile.
Qed.

Lemma run_call_refines c w rev s :
  durable w = Some (MkVersioned rev s) -> st_episode_id s = eid ->
  refined (w_tools w) c w rev s (run_call eid c w).1.
Proof.
  intros Hd Hid. destruct c; cbn [run_call].
  - destruct (advance eid w) eqn:E. by eapply advance_refines.
  - destruct (resume eid granted w) eqn:E. by eapply resume_refines.
  - destruct (request_cancellation eid w) eqn:E. by eapply cancel_refines.
  - destruct (resume_reconciliation eid w) eqn:E. by eapply reconcile_refines.
Qed.

End refinement.
