(* ===== verification/EpisodeProtocol.v ===== *)
(** * The episode protocol

    The abstract transition system of one durable episode: every state
    the runner may save, as an explicit update of the state before it
    ([episode_step]), and the proof that the computations of
    [EpisodeSteps] only make such steps.  The invariants of the episode
    are proved on this system, by cases on the step. *)

From stdpp Require Import base strings relations list.
From S2P Require Import Prelude Digest Identity AgentRecord ModelAttempt ModelGateway.
From S2P Require Import LoopPolicy EpisodeState EpisodePorts EpisodeSteps.
From S2P Require Import EpisodeRuntime EpisodeHistory EpisodeRefinement.

Import Attempt(at_status, at_spec, attempt_is_terminal).

(** How a dispatched attempt may end without a turn. *)
Inductive attempt_end (s : DurableEpisodeState) (a a' : Attempt.ModelAttemptRecord) :
  N -> Episode.EpisodeStatus -> Prop :=
| ae_unsent d next :
    Attempt.finish_without_response a Attempt.ConfirmedNotSent d = Ok a' ->
    next = Episode.Failed \/ next = Episode.ReadyForModel ->
    attempt_end s a a' (st_ambiguous_model_attempts s) next
| ae_rejected a1 r d next :
    Attempt.record_response a r None None = Ok a1 ->
    Attempt.mark_response_failed a1 d = Ok a' ->
    next = Episode.Failed \/ next = Episode.ReadyForModel ->
    attempt_end s a a' (st_ambiguous_model_attempts s) next
| ae_undecoded a1 r d :
    Attempt.record_response a r None None = Ok a1 ->
    Attempt.mark_decode_failed a1 d = Ok a' ->
    attempt_end s a a' (st_ambiguous_model_attempts s) Episode.Failed
| ae_ambiguous d :
    Attempt.finish_without_response a Attempt.Ambiguous d = Ok a' ->
    attempt_end s a a' (st_ambiguous_model_attempts s + 1)
      (after_ambiguous (set_ambiguous s (st_ambiguous_model_attempts s + 1))).

(** What a dispatch does to the operation it picks. *)
Definition op_dispatched (r r' : ToolOp.ToolOperationRecord) : Prop :=
  ToolOp.op_schema_version r' = ToolOp.op_schema_version r
  /\ ToolOp.op_spec r' = ToolOp.op_spec r
  /\ ToolOp.op_result_digest r' = ToolOp.op_result_digest r
  /\ ToolOp.op_receipt_digests r' = ToolOp.op_receipt_digests r
  /\ match ToolOp.op_status r with
     | ToolOp.Requested => ToolOp.op_status r' = ToolOp.Dispatching
     | ToolOp.Dispatching | ToolOp.Ambiguous => ToolOp.op_status r' = ToolOp.Reconciling
     | ToolOp.Reconciling | ToolOp.Running => ToolOp.op_status r' = ToolOp.op_status r
     | _ => False
     end.

(** A dispatched operation stays open as Running, Ambiguous or
    Reconciling. *)
Definition op_still_open (r r' : ToolOp.ToolOperationRecord) : Prop :=
  r' = r \/ exists st, (st = ToolOp.Running \/ st = ToolOp.Ambiguous)
    /\ ToolOp.op_transition r st = Ok r'.

Section protocol.
Context `{Sha256}.
Variable eid : EpisodeId.

(** A fresh operation: requested, or rejected before any effect. *)
Definition op_planned (turn : DurableTurn) (input : Sha256Digest) (o : DurableToolOperation)
    : Prop :=
  do_call o ∈ gt_tool_calls (dt_semantic_turn turn)
  /\ ToolOp.os_episode_id (ToolOp.op_spec (do_record o)) = eid
  /\ ToolOp.op_turn_id (do_record o) = tr_id (dt_record turn)
  /\ ToolOp.os_native_call_id (ToolOp.op_spec (do_record o)) = tc_native_call_id (do_call o)
  /\ ToolOp.os_arguments_digest (ToolOp.op_spec (do_record o))
     = digest_bytes (tc_raw_arguments (do_call o))
  /\ ToolOp.os_input_identity_digest (ToolOp.op_spec (do_record o)) = input
  /\ ((op_status_of o = ToolOp.Requested /\ ToolOp.op_result_digest (do_record o) = None)
      \/ (op_status_of o = ToolOp.RejectedAsInvalid
          /\ is_Some (ToolOp.op_result_digest (do_record o)))).

(** The attempt [prepare_attempt] pushes. *)
Definition fresh_attempt (s : DurableEpisodeState) (a : Attempt.ModelAttemptRecord) : Prop :=
  let n := (N.of_nat (length (st_attempts s)) + 1)%N in
  (n <= u32_max)%N
  /\ derived_model_attempt_id eid n = Ok (Attempt.at_id a)
  /\ Attempt.attempt_new (Attempt.MkAttemptSpec (Attempt.at_id a) eid n
       (st_next_input_digest s) (ri_resolved_model_digest (st_identity s))
       (ri_deployment_digest (st_identity s)) (ri_model_profile_digest (st_identity s))
       (ri_request_budget_digest (st_identity s))
       (Attempt.at_id <$> last (st_attempts s))
       ((fun t => tr_native_continuation_digest (dt_record t)) <$> last (st_turns s))) = Ok a.

(** The turn [drive_model] pushes for the attempt [a'] it decoded. *)
Definition fresh_turn (s : DurableEpisodeState) (a a' : Attempt.ModelAttemptRecord)
    (t : DurableTurn) : Prop :=
  let n := (N.of_nat (length (st_turns s)) + 1)%N in
  let ts := tr_spec (dt_record t) in
  (exists a1, Attempt.record_response a (ts_raw_exchange_digest ts) None (ts_usage ts) = Ok a1
     /\ Attempt.mark_decoded a1 (ts_native_continuation_digest ts) = Ok a')
  /\ derived_turn_id eid n = Ok (ts_id ts)
  /\ ts_turn_index ts = n
  /\ ts_episode_id ts = eid
  /\ ts_model_attempt_id ts = Attempt.at_id a
  /\ ts_decoded_turn_digest ts = digest_semantic_turn (dt_semantic_turn t)
  /\ ts_tool_call_count ts = N.of_nat (length (gt_tool_calls (dt_semantic_turn t))).

(** The operations whose dispatch was committed, or may have been sent. *)
Definition some_in_flight (s : DurableEpisodeState) : bool :=
  existsb (fun o => in_flight (op_status_of o)) (st_tool_operations s).

Definition all_ops_terminal (s : DurableEpisodeState) : Prop :=
  Forall (fun o => ToolOp.op_is_terminal (op_status_of o) = true) (st_tool_operations s).

(** One saved state after another. *)
Inductive episode_step : DurableEpisodeState -> DurableEpisodeState -> Prop :=
| es_start s :
    st_status s = Episode.Created -> episode_step s (with_status s Episode.ReadyForModel)
| es_prepare_cancelled s :
    st_status s = Episode.ReadyForModel -> st_cancellation_requested s = true ->
    episode_step s (with_status s Episode.CancellationPending)
| es_prepare_exhausted s :
    st_status s = Episode.ReadyForModel -> st_cancellation_requested s = false ->
    (p_max_model_turns (st_policy s) <= N.of_nat (length (st_turns s)))%N
    \/ (p_max_model_attempts (st_policy s) <= N.of_nat (length (st_attempts s)))%N ->
    episode_step s (with_status s Episode.BudgetExhausted)
| es_prepare s a :
    st_status s = Episode.ReadyForModel -> st_cancellation_requested s = false ->
    (N.of_nat (length (st_turns s)) < p_max_model_turns (st_policy s))%N ->
    (N.of_nat (length (st_attempts s)) < p_max_model_attempts (st_policy s))%N ->
    fresh_attempt s a ->
    episode_step s (with_status (set_attempts s (st_attempts s ++ [a]))
                      Episode.ModelAttemptPending)
| es_recover_cancelled s a a' :
    st_status s = Episode.ModelAttemptPending -> last (st_attempts s) = Some a ->
    st_cancellation_requested s = true ->
    Attempt.finish_without_response a Attempt.CancelledAmbiguous None = Ok a' ->
    episode_step s (with_status (set_ambiguous (set_attempts s (set_last a' (st_attempts s)))
                      (st_ambiguous_model_attempts s + 1)) Episode.Suspended)
| es_dispatch s a a' :
    st_status s = Episode.ModelAttemptPending -> last (st_attempts s) = Some a ->
    Attempt.mark_dispatching a = Ok a' ->
    episode_step s (set_attempts s (set_last a' (st_attempts s)))
| es_turn s a a' t :
    st_status s = Episode.ModelAttemptPending -> last (st_attempts s) = Some a ->
    fresh_turn s a a' t ->
    episode_step s (with_status (set_turns (set_attempts s (set_last a' (st_attempts s)))
                      (st_turns s ++ [t])) Episode.TurnRecorded)
| es_no_turn s a a' amb next :
    st_status s = Episode.ModelAttemptPending -> last (st_attempts s) = Some a ->
    attempt_end s a a' amb next ->
    episode_step s (with_status (set_ambiguous (set_attempts s (set_last a' (st_attempts s))) amb)
                      next)
| es_plan_stop s t :
    st_status s = Episode.TurnRecorded -> last (st_turns s) = Some t ->
    episode_step s (with_status s Episode.StopReview)
| es_plan_exhausted s t :
    st_status s = Episode.TurnRecorded -> last (st_turns s) = Some t ->
    episode_step s (with_status s Episode.BudgetExhausted)
| es_plan s t ops :
    st_status s = Episode.TurnRecorded -> last (st_turns s) = Some t ->
    (N.of_nat (length (st_tool_operations s) + length ops)
     <= p_max_total_tool_operations (st_policy s))%N ->
    (N.of_nat (length ops) <= p_max_tool_calls_per_turn (st_policy s))%N ->
    do_call <$> ops = gt_tool_calls (dt_semantic_turn t) ->
    Forall (op_planned t (st_next_input_digest s)) ops ->
    episode_step s (with_status (set_ops s (st_tool_operations s ++ ops))
                      Episode.ToolWorkPending)
| es_settle s t :
    st_status s = Episode.ToolWorkPending -> last (st_turns s) = Some t ->
    all_ops_terminal s ->
    episode_step s (with_status (set_next_input s (derive_model_continuation_input_digest
        (tr_native_continuation_digest (dt_record t))
        (turn_results (tr_id (dt_record t)) (st_tool_operations s)))) Episode.ReadyForModel)
| es_tool_dispatch s i o r :
    st_status s = Episode.ToolWorkPending -> st_tool_operations s !! i = Some o ->
    op_dispatched (do_record o) r ->
    episode_step s (set_ops s (<[i := MkDurableOp r (do_call o)]> (st_tool_operations s)))
| es_tool_done s i o st d receipts satisfies r :
    st_status s = Episode.ToolWorkPending -> st_tool_operations s !! i = Some o ->
    st <> ToolOp.RejectedAsInvalid ->
    (satisfies = true -> ToolOp.op_result_authority (do_record o) = ToolOp.VerifiedReference) ->
    ToolOp.op_finish (do_record o) st d receipts = Ok r ->
    episode_step s (set_satisfied
        (set_ops s (<[i := MkDurableOp r (do_call o)]> (st_tool_operations s)))
        (st_subtask_satisfied s || satisfies))
| es_tool_running s i o r :
    st_status s = Episode.ToolWorkPending -> st_tool_operations s !! i = Some o ->
    op_still_open (do_record o) r ->
    episode_step s (set_ops s (<[i := MkDurableOp r (do_call o)]> (st_tool_operations s)))
| es_tool_suspended s i o r :
    st_status s = Episode.ToolWorkPending -> st_tool_operations s !! i = Some o ->
    op_still_open (do_record o) r ->
    episode_step s (with_status
        (set_ops s (<[i := MkDurableOp r (do_call o)]> (st_tool_operations s)))
        Episode.Suspended)
| es_succeed s :
    st_status s = Episode.StopReview -> st_subtask_satisfied s = true ->
    episode_step s (with_status s Episode.Succeeded)
| es_reask s t :
    st_status s = Episode.StopReview -> last (st_turns s) = Some t ->
    (st_stop_feedback_turns s < p_max_stop_feedback_turns (st_policy s))%N ->
    episode_step s (with_status
        (set_next_input (set_stop_feedback s (st_stop_feedback_turns s + 1))
           (derive_model_continuation_input_digest
              (tr_native_continuation_digest (dt_record t)) [])) Episode.ReadyForModel)
| es_incomplete s :
    st_status s = Episode.StopReview -> st_subtask_satisfied s = false ->
    episode_step s (with_status s Episode.Incomplete)
| es_cancelled s :
    st_status s = Episode.CancellationPending ->
    episode_step s (with_status s Episode.Cancelled)
| es_resume s g :
    Episode.episode_resumable (st_status s) = true ->
    policy_invalid (with_allowance (st_policy s) g) = false ->
    episode_step s (set_cancellation (set_grants (set_policy
        (with_status s Episode.ReadyForModel) (with_allowance (st_policy s) g))
        (st_grants s ++ [MkGrant (st_status s) (policy_allowance (st_policy s)) g])) false)
| es_cancel s :
    Episode.episode_is_terminal (st_status s) = false ->
    (forall a, last (st_attempts s) = Some a -> at_status a <> Attempt.Dispatching) ->
    some_in_flight s = false ->
    episode_step s (with_status (set_cancellation s true) Episode.CancellationPending)
| es_cancel_model s a a' :
    st_status s = Episode.ModelAttemptPending -> last (st_attempts s) = Some a ->
    Attempt.finish_without_response a Attempt.CancelledAmbiguous None = Ok a' ->
    episode_step s (with_status (set_attempts (set_cancellation s true)
                      (set_last a' (st_attempts s))) Episode.Suspended)
| es_cancel_tool s ops :
    st_status s = Episode.ToolWorkPending \/ st_status s = Episode.Suspended ->
    some_in_flight s = true ->
    (ops = st_tool_operations s
     \/ exists i o r, st_tool_operations s !! i = Some o
          /\ op_status_of o = ToolOp.Dispatching
          /\ ToolOp.op_transition (do_record o) ToolOp.Ambiguous = Ok r
          /\ ops = <[i := MkDurableOp r (do_call o)]> (st_tool_operations s)) ->
    episode_step s (with_status (set_ops (set_cancellation s true) ops) Episode.Suspended)
| es_reconcile s next :
    st_status s = Episode.Suspended ->
    match next with
    | Episode.ToolWorkPending => ~ all_ops_terminal s
    | Episode.CancellationPending => all_ops_terminal s /\ st_cancellation_requested s = true
    | Episode.ReadyForModel => all_ops_terminal s /\ st_cancellation_requested s = false
    | _ => False
    end ->
    episode_step s (with_status s next).

(** ** The computations make these steps *)

(** An open attempt or an operation in flight belongs to the status that
    drives it; the invariant of the next file implies it. *)
Definition open_where_driven (s : DurableEpisodeState) : Prop :=
  (forall a, last (st_attempts s) = Some a -> at_status a = Attempt.Dispatching ->
     st_status s = Episode.ModelAttemptPending)
  /\ (some_in_flight s = true ->
      st_status s = Episode.ToolWorkPending \/ st_status s = Episode.Suspended).

Lemma with_status_same s : with_status s (st_status s) = s.
Proof. by destruct s as [? []]. Qed.

Lemma with_status_twice s a b : with_status (with_status s a) b = with_status s b.
Proof. done. Qed.

Lemma prepare_step s s' a :
  st_status s = Episode.ReadyForModel -> prepare_state eid s = Ok (s', a) -> episode_step s s'.
Proof.
  intros Hst Hp. unfold prepare_state in Hp.
  destruct (st_cancellation_requested s) eqn:Hc; [inv_step; by constructor|].
  case_match eqn:Hb; [inv_step; apply es_prepare_exhausted; [done|done|];
    apply orb_true_iff in Hb as [Hb|Hb]; apply N.leb_le in Hb; auto|].
  apply orb_false_iff in Hb as [Hb1%N.leb_gt Hb2%N.leb_gt].
  inv_step. apply es_prepare; [done|done|done|done|].
  match goal with Hn : Attempt.attempt_new _ = Ok ?b |- _ =>
    pose proof Hn as Hnew; apply guard_bind_Ok in Hn as [_ [= Hx]] end.
  split_and!; [done| |].
  - by rewrite <-Hx.
  - by rewrite <-Hx in Hnew |- *.
Qed.

Lemma recover_step s s' a attempt :
  st_status s = Episode.ModelAttemptPending -> last (st_attempts s) = Some attempt ->
  recover_dispatch s = Ok (s', a) -> episode_step s s'.
Proof.
  intros Hst Hl Hr. unfold recover_dispatch in Hr. inv_step.
  match goal with H1 : checked_add _ _ _ = Some _ |- _ =>
    apply checked_add_Some in H1 as [-> _] end. cbn in *.
  destruct (st_cancellation_requested s) eqn:Hc; inv_step.
  - by eapply es_recover_cancelled.
  - eapply es_no_turn; [done|done|]. by exact (ae_ambiguous s _ _ None ltac:(eassumption)).
Qed.

Lemma begin_dispatch_step s s1 req :
  st_status s = Episode.ModelAttemptPending -> begin_dispatch eid s = Ok (s1, req) ->
  episode_step s s1.
Proof.
  intros Hst Hb. unfold begin_dispatch in Hb. inv_step. case_match; inv_step.
  by eapply es_dispatch.
Qed.

Lemma begin_dispatch_request s s1 req :
  begin_dispatch eid s = Ok (s1, req) ->
  exists a, last (st_attempts s1) = Some a /\ at_status a = Attempt.Dispatching
    /\ req = MkModelTurnRequest (Attempt.at_id a) eid
         (N.of_nat (length (st_turns s1)) + 1) (st_next_input_digest s1)
    /\ st_status s1 = st_status s.
Proof.
  intros Hb. unfold begin_dispatch in Hb. inv_step.
  match goal with Hm : Attempt.mark_dispatching _ = Ok _ |- _ =>
    apply Attempt.require_status_bind in Hm as [_ [= <-]] end.
  cbn in *. rewrite last_set_last in *. inv_step. eexists. cbn. by rewrite last_set_last.
Qed.

Lemma record_turn_step s req e s' a :
  st_status s = Episode.ModelAttemptPending -> last (st_attempts s) = Some a ->
  mr_turn_index req = (N.of_nat (length (st_turns s)) + 1)%N ->
  mr_attempt_id req = Attempt.at_id a ->
  record_turn eid s req e = Ok s' -> episode_step s s'.
Proof.
  intros Hst Hl Hti Hai Hr. unfold record_turn in Hr. inv_step.
  match goal with Ht : turn_new _ = Ok _ |- _ => apply turn_new_Ok in Ht as [_ ->] end.
  match goal with Ht : try_from_len _ _ = Some _ |- _ => apply try_from_len_Some in Ht as [-> _] end.
  simplify_eq. cbn [st_turns set_attempts]. eapply es_turn; [done|done|]. unfold fresh_turn; cbn. rewrite <-Hti.
  split_and!; eauto.
Qed.

Lemma after_failed_next s retry b s' a :
  after_failed_dispatch s retry b = Ok (s', a) ->
  exists next, s' = with_status s next /\ (next = Episode.Failed \/ next = Episode.ReadyForModel).
Proof. unfold after_failed_dispatch. intros. case_match; inv_step; eauto. Qed.

Lemma model_outcome_step s req o s' a adv :
  st_status s = Episode.ModelAttemptPending -> last (st_attempts s) = Some a ->
  mr_turn_index req = (N.of_nat (length (st_turns s)) + 1)%N ->
  mr_attempt_id req = Attempt.at_id a ->
  apply_model_outcome eid s req o = Ok (s', adv) -> episode_step s s'.
Proof.
  intros Hst Hl Hti Hai Ho.
  destruct o as [e|d dd re|rd d dd re|rd d dd|d dd re]; cbn [apply_model_outcome] in Ho; inv_step.
  - by eapply record_turn_step.
  - match goal with Hf : after_failed_dispatch _ _ _ = Ok _ |- _ =>
      apply after_failed_next in Hf as (next & -> & Hn) end.
    rewrite Hl in *. simplify_eq.
    eapply (es_no_turn s _ _ (st_ambiguous_model_attempts s)); [done|done|].
    by eapply ae_unsent.
  - match goal with Hf : after_failed_dispatch _ _ _ = Ok _ |- _ =>
      apply after_failed_next in Hf as (next & -> & Hn) end.
    rewrite Hl in *. simplify_eq.
    eapply (es_no_turn s _ _ (st_ambiguous_model_attempts s)); [done|done|].
    by eapply ae_rejected.
  - rewrite Hl in *. simplify_eq.
    eapply (es_no_turn s _ _ (st_ambiguous_model_attempts s)); [done|done|].
    by eapply ae_undecoded.
  - rewrite Hl in *. simplify_eq. eapply es_no_turn; [done|done|].
    by exact (ae_ambiguous s _ _ dd ltac:(eassumption)).
Qed.

Lemma review_step s s' a :
  st_status s = Episode.StopReview -> review_state s = Ok (s', a) -> episode_step s s'.
Proof.
  intros Hst Hr. unfold review_state in Hr. inv_step.
  destruct (st_subtask_satisfied s) eqn:Hs; [inv_step; by apply es_succeed|].
  case_match eqn:Hb; inv_step; [|by apply es_incomplete].
  apply N.ltb_lt in Hb. unfold last_turn in *. inv_step. by eapply es_reask.
Qed.

Lemma resume_step s s' g :
  resume_state s g = Ok s' -> episode_step s s'.
Proof.
  intros Hr. unfold resume_state in Hr. inv_step.
  match goal with Hp : policy_validate _ = Ok _ |- _ => apply guard_err_Ok in Hp end.
  match goal with He : Episode.episode_resume _ = Ok _ |- _ =>
    apply Episode.episode_resume_Ok in He as [He ->] end.
  by apply es_resume.
Qed.

Lemma cancel_model_step s s' a :
  st_status s = Episode.ModelAttemptPending -> last (st_attempts s) = Some a ->
  at_status a = Attempt.Dispatching -> some_in_flight s = false ->
  cancel_state s = Ok s' -> episode_step s s'.
Proof.
  intros Hst Hl Ha Hf Hc. unfold cancel_state in Hc. cbn in Hc. fold (some_in_flight s) in Hc.
  rewrite Hl, Hf, (bool_decide_eq_true_2 _ Ha) in Hc. cbn in Hc. inv_step.
  cbn in *. rewrite Hl in *. simplify_eq.
  case_bool_decide as Hs; [change (st_status s = Episode.Suspended) in Hs; congruence|].
  inv_step. by eapply es_cancel_model.
Qed.

Lemma cancel_tool_step s s' :
  (forall a, last (st_attempts s) = Some a -> at_status a <> Attempt.Dispatching) ->
  st_status s = Episode.ToolWorkPending \/ st_status s = Episode.Suspended ->
  some_in_flight s = true -> cancel_state s = Ok s' -> episode_step s s'.
Proof.
  intros Hl Hst Hf Hc. unfold cancel_state in Hc. cbn in Hc. fold (some_in_flight s) in Hc.
  assert (match last (st_attempts s) with
          | Some attempt => bool_decide (at_status attempt = Attempt.Dispatching)
          | None => false end = false) as E.
  { destruct (last _) as [a|]; [|done]. apply bool_decide_eq_false_2. by apply Hl. }
  rewrite E, Hf in Hc. cbn [orb mbind result_bind] in Hc. clear E.
  apply result_bind_Ok in Hc as (s1 & H1 & Hc).
  assert (exists ops, s1 = set_ops (set_cancellation s true) ops /\
     (ops = st_tool_operations s \/ exists i o r, st_tool_operations s !! i = Some o
        /\ op_status_of o = ToolOp.Dispatching
        /\ ToolOp.op_transition (do_record o) ToolOp.Ambiguous = Ok r
        /\ ops = <[i := MkDurableOp r (do_call o)]> (st_tool_operations s)))
    as (ops & -> & Hops).
  { destruct (list_find _ _) as [[i o]|] eqn:Hfind.
    - apply list_find_Some in Hfind as (Hi & Hd & _). inv_step. cbn in *. simplify_eq.
      eexists. split; [done|]. right. eauto 10.
    - inv_step. exists (st_tool_operations s). split; [by destruct s|by left]. }
  pose proof (es_cancel_tool s ops Hst Hf Hops) as Hstep.
  case_bool_decide as Hsus; inv_step; [|done].
  enough (with_status (set_ops (set_cancellation s true) ops) Episode.Suspended
          = set_ops (set_cancellation s true) ops) as <- by done.
  rewrite <-Hsus. apply with_status_same.
Qed.

Lemma cancel_step s s' :
  open_where_driven s -> Episode.episode_is_terminal (st_status s) = false ->
  cancel_state s = Ok s' -> episode_step s s'.
Proof.
  intros [Hm Ht] Hterm Hc.
  assert (Hcase : (exists a, last (st_attempts s) = Some a /\ at_status a = Attempt.Dispatching)
    \/ (forall a, last (st_attempts s) = Some a -> at_status a <> Attempt.Dispatching)).
  { destruct (last (st_attempts s)) as [a|]; [|by right].
    destruct (decide (at_status a = Attempt.Dispatching)); [left; eauto|right; naive_solver]. }
  destruct Hcase as [(a & Hl & Ha)|Hl].
  { pose proof (Hm a Hl Ha) as Hst. eapply cancel_model_step; [done..| |done].
    destruct (some_in_flight s); [|done]. destruct (Ht eq_refl); congruence. }
  destruct (some_in_flight s) eqn:Hf; [by eapply cancel_tool_step; auto|].
  unfold cancel_state in Hc. cbn in Hc. fold (some_in_flight s) in Hc.
  assert (match last (st_attempts s) with
          | Some attempt => bool_decide (at_status attempt = Attempt.Dispatching)
          | None => false end = false) as E.
  { destruct (last _) as [a|]; [|done]. apply bool_decide_eq_false_2. by apply Hl. }
  rewrite E, Hf in Hc. cbn [orb mbind result_bind] in Hc. clear E.
  pose proof (es_cancel s Hterm Hl Hf) as Hstep.
  case_bool_decide as Hcp; inv_step; [|done].
  rewrite <-Hcp, with_status_same in Hstep. done.
Qed.

Lemma all_ops_terminal_existsb s :
  existsb (fun o => negb (ToolOp.op_is_terminal (op_status_of o))) (st_tool_operations s) = false
  <-> all_ops_terminal s.
Proof.
  unfold all_ops_terminal. induction (st_tool_operations s) as [|o l IH].
  - split; [by constructor|done].
  - cbn. rewrite orb_false_iff, negb_false_iff, Forall_cons. tauto.
Qed.

Lemma reconcile_step s s' n : reconcile_state s = Ok (s', n) -> episode_step s s'.
Proof.
  intros Hr. unfold reconcile_state in Hr.
  apply result_bind_Ok in Hr as (u & Hst & Hr). inv_step.
  match goal with Hb : bool_decide _ = false |- _ =>
    apply bool_decide_eq_false in Hb; apply dec_stable in Hb; rename Hb into Hst end.
  pose proof (all_ops_terminal_existsb s) as Hterm.
  apply es_reconcile; [done|].
  destruct (existsb _ _); [by intros ?%Hterm|].
  destruct (st_cancellation_requested s); (split; [by apply Hterm|done]).
Qed.

(** *** Tools *)

Lemma plan_call_planned `{AgentToolGateway T} tools turn input i call o :
  call ∈ gt_tool_calls (dt_semantic_turn turn) ->
  plan_call eid tools (tr_id (dt_record turn)) input i call = Ok o ->
  op_planned turn input o /\ do_call o = call.
Proof.
  intros Hin Hp. unfold plan_call in Hp. inv_step.
  match goal with Hn : ToolOp.op_new _ = Ok _ |- _ => apply ToolOp.op_new_Ok in Hn as -> end.
  split; [|done]. unfold op_planned, op_status_of.
  destruct (tool_validate_call tools call); [case_bool_decide|]; inv_step;
    try match goal with Hf : ToolOp.op_finish _ _ _ _ = Ok _ |- _ =>
      apply ToolOp.op_finish_Ok in Hf as (_ & _ & ->) end; cbn; split_and!; eauto.
Qed.

Lemma plan_calls_planned `{AgentToolGateway T} tools turn input i calls ops :
  calls ⊆ gt_tool_calls (dt_semantic_turn turn) ->
  plan_calls eid tools (tr_id (dt_record turn)) input i calls = Ok ops ->
  Forall (op_planned turn input) ops /\ do_call <$> ops = calls.
Proof.
  revert i ops. induction calls as [|c calls IH]; intros i ops Hin Hp; cbn in Hp; inv_step.
  - split; [constructor|done].
  - match goal with Hc : plan_call _ _ _ _ _ _ = Ok _ |- _ =>
      apply plan_call_planned in Hc as [Hc <-]; [|set_solver] end.
    match goal with Hr : plan_calls _ _ _ _ _ _ = Ok _ |- _ =>
      apply IH in Hr as [Hr <-]; [|set_solver] end.
    split; [by constructor|done].
Qed.

Lemma plan_step `{AgentToolGateway T} (tools : T) s s' a :
  st_status s = Episode.TurnRecorded -> plan_state eid tools s = Ok (s', a) -> episode_step s s'.
Proof.
  intros Hst Hp. unfold plan_state, last_turn in Hp. inv_step.
  case_bool_decide as Hc; [inv_step; by eapply es_plan_stop|]. inv_step.
  case_match eqn:Ht; [inv_step; by eapply es_plan_exhausted|].
  case_match eqn:Hw; [inv_step; by eapply es_plan_stop|]. inv_step.
  match goal with Hq : plan_calls _ _ _ _ _ _ = Ok _ |- _ =>
    apply plan_calls_planned in Hq as [Hops Hcalls]; [|done] end.
  match goal with Hx : try_from_len _ _ = Some _ |- _ => apply try_from_len_Some in Hx as [-> _] end.
  match goal with Hx : checked_add _ _ _ = Some _ |- _ => apply checked_add_Some in Hx as [-> _] end.
  apply N.ltb_ge in Ht, Hw.
  apply (f_equal length) in Hcalls as Hlen. rewrite length_fmap in Hlen.
  eapply es_plan; try done; rewrite Hlen; lia.
Qed.

Lemma settle_step s s' a :
  st_status s = Episode.ToolWorkPending -> pending_op s = None ->
  settle_tools s = Ok (s', a) -> episode_step s s'.
Proof.
  intros Hst Hp Hs. unfold settle_tools, last_turn in Hs. inv_step.
  eapply es_settle; [done|done|].
  unfold pending_op in Hp. apply fmap_None, list_find_None in Hp.
  eapply Forall_impl; [exact Hp|]. intros o Ho. by apply not_false_iff_true.
Qed.

Lemma on_op_lookup s i f s' :
  on_op s i f = Ok s' ->
  exists o r, st_tool_operations s !! i = Some o /\ f (do_record o) = Ok r
    /\ st_tool_operations s' !! i = Some (MkDurableOp r (do_call o))
    /\ s' = set_ops s (<[i := MkDurableOp r (do_call o)]> (st_tool_operations s)).
Proof.
  intros (o & r & Hi & Hf & ->)%on_op_Ok. exists o, r. split_and!; try done.
  cbn. apply list_lookup_insert_eq. by eapply lookup_lt_Some.
Qed.

Lemma on_op_twice s i f g s1 s2 :
  on_op s i f = Ok s1 -> on_op s1 i g = Ok s2 ->
  on_op s i (fun r => r' ← f r; g r') = Ok s2.
Proof.
  intros (o & r & Ho & Hf & Hr & ->)%on_op_lookup H2.
  apply on_op_Ok in H2 as (o2 & r2 & Ho2 & Hg & ->). rewrite Hr in Ho2. simplify_eq.
  apply on_op_Ok. exists o, r2. rewrite Hf. split_and!; [done|done|].
  unfold set_ops. cbn. by rewrite list_insert_insert_eq.
Qed.

(** The two or fewer transitions of a dispatch. *)
Definition dispatch_record (r : ToolOp.ToolOperationRecord)
    : result AgentRecordError ToolOp.ToolOperationRecord :=
  match ToolOp.op_status r with
  | ToolOp.Requested => r ← ToolOp.op_transition r ToolOp.Authorized;
                        ToolOp.op_transition r ToolOp.Dispatching
  | ToolOp.Dispatching => r ← ToolOp.op_transition r ToolOp.Ambiguous;
                          ToolOp.op_transition r ToolOp.Reconciling
  | ToolOp.Ambiguous => ToolOp.op_transition r ToolOp.Reconciling
  | _ => Ok r
  end.

Lemma dispatch_record_spec r r' :
  match ToolOp.op_status r with
  | ToolOp.Requested | ToolOp.Dispatching | ToolOp.Ambiguous | ToolOp.Reconciling
  | ToolOp.Running => True | _ => False end ->
  dispatch_record r = Ok r' -> op_dispatched r r'.
Proof.
  unfold dispatch_record, op_dispatched. intros Hs Hd.
  destruct (ToolOp.op_status r) eqn:E; try done; inv_step;
    repeat match goal with Ht : ToolOp.op_transition _ _ = Ok _ |- _ =>
      apply ToolOp.op_transition_Ok in Ht as (_ & _ & ->) end; done.
Qed.

Lemma begin_tool_spec s i s1 inv st :
  begin_tool s i = Ok (s1, inv, st) ->
  exists o r, st_tool_operations s !! i = Some o /\ op_dispatched (do_record o) r
    /\ s1 = set_ops s (<[i := MkDurableOp r (do_call o)]> (st_tool_operations s))
    /\ st = ToolOp.op_status r
    /\ inv = MkInvocation (ToolOp.op_id (do_record o)) (do_call o) (st_next_input_digest s).
Proof.
  intros Hb. unfold begin_tool in Hb.
  apply result_bind_Ok in Hb as (o & Ho%ok_or_Ok & Hb).
  apply result_bind_Ok in Hb as (s2 & Hs & Hb).
  apply result_bind_Ok in Hb as (o' & Ho'%ok_or_Ok & [= <- <- <-]).
  assert (on_op s i dispatch_record = Ok s2 /\ match op_status_of o with
    | ToolOp.Requested | ToolOp.Dispatching | ToolOp.Ambiguous | ToolOp.Reconciling
    | ToolOp.Running => True | _ => False end) as [Hon Hst].
  { unfold dispatch_record, op_status_of in *. destruct (ToolOp.op_status (do_record o)) eqn:E;
      try done; (split; [|done]);
      try (apply result_bind_Ok in Hs as (s3 & H3 & H4);
           pose proof (on_op_twice _ _ _ _ _ _ H3 H4) as Hs'; clear H3 H4; rename Hs' into Hs);
      try (injection Hs as <-); unfold on_op in *; rewrite Ho in *; cbn in *; rewrite E; try done.
    all: cbn; unfold set_ops; rewrite list_insert_id by (by destruct o); by destruct s. }
  apply on_op_lookup in Hon as (o1 & r & Ho1 & Hd & Hl & ->). simplify_eq.
  exists o, r. split_and!; [done|by apply dispatch_record_spec|done|done|].
  apply dispatch_record_spec in Hd as (_ & Hsp & _); [|done].
  cbn. unfold ToolOp.op_id. by rewrite Hsp.
Qed.

Lemma begin_tool_step s i s1 inv st :
  st_status s = Episode.ToolWorkPending -> begin_tool s i = Ok (s1, inv, st) -> episode_step s s1.
Proof.
  intros Hst (o & r & Ho & Hd & -> & _)%begin_tool_spec. by eapply es_tool_dispatch.
Qed.

Lemma tool_outcome_step s i o st out s' a :
  st_status s = Episode.ToolWorkPending -> st_tool_operations s !! i = Some o ->
  st = op_status_of o ->
  apply_tool_outcome s i st out = Ok (s', a) -> episode_step s s'.
Proof.
  intros Hst Ho -> Ha.
  assert (set_ops s (<[i := MkDurableOp (do_record o) (do_call o)]> (st_tool_operations s)) = s)
    as Hsame by (unfold set_ops; rewrite list_insert_id by (by destruct o); by destruct s).
  assert (forall s1 (b : bool) f, (if b then Ok s else on_op s i f) = Ok s1 ->
    exists r, (r = do_record o \/ f (do_record o) = Ok r) /\
      s1 = set_ops s (<[i := MkDurableOp r (do_call o)]> (st_tool_operations s))) as Hopt.
  { intros s1 [] f Hs; [injection Hs as <-; eauto|].
    apply on_op_Ok in Hs as (o1 & r & Ho1 & Hf & ->). simplify_eq. eauto. }
  assert (forall r n, (n = ToolOp.Running \/ n = ToolOp.Ambiguous) ->
    r = do_record o \/ ToolOp.op_transition (do_record o) n = Ok r ->
    op_still_open (do_record o) r) as Hopen.
  { intros r n Hn [->|Hr]; [by left|right; eauto]. }
  destruct out as [fs rd rcs sat|d|d]; cbn [apply_tool_outcome] in Ha.
  - inv_step. simplify_eq. cbn.
    match goal with Hb : negb _ || _ = false |- _ =>
      apply orb_false_iff in Hb as [_ Hb%bool_decide_eq_false] end.
    match goal with Hb : _ && _ = false |- _ => rename Hb into Hauth end.
    eapply es_tool_done; [done|done|done| |done].
    intros ->. cbn in Hauth. by apply bool_decide_eq_false, dec_stable in Hauth.
  - apply result_bind_Ok in Ha as (s1 & Hs & [= <- <-]).
    apply Hopt in Hs as (r & Hr & ->). eapply es_tool_running; eauto.
  - apply result_bind_Ok in Ha as (s1 & Hs & Ha).
    apply Hopt in Hs as (r & Hr & ->). inv_step. eapply es_tool_suspended; eauto.
Qed.

End protocol.
