(* ===== verification/EpisodeInvariant.v ===== *)
(** * The invariant of a durable episode

    What holds of every state the runner saves, whatever its adapters
    answer: attempts and turns are numbered and bound to each other,
    operations come from the calls of a recorded turn, each status says
    what may still be open, and the counters and budgets are respected.
    Proved step by step on the protocol of [EpisodeProtocol]. *)

From stdpp Require Import base strings relations pretty list.
From S2P Require Import Prelude Digest Identity AgentRecord ModelAttempt ModelGateway.
From S2P Require Import LoopPolicy EpisodeState EpisodePorts EpisodeSteps.
From S2P Require Import EpisodeRuntime EpisodeHistory EpisodeRefinement EpisodeProtocol.

Import Attempt(at_status, at_spec, attempt_is_terminal).

Section invariant.
Context `{Sha256}.
Variable eid : EpisodeId.

(** ** The components of the invariant *)

(** Attempt [i]: numbered [i + 1], with the identity derived from the
    number, pinned to the model the episode was created with. *)
Definition attempt_ok (ri : RuntimeIdentity) (i : nat) (a : Attempt.ModelAttemptRecord) : Prop :=
  let n := (N.of_nat i + 1)%N in
  Attempt.as_attempt_number (at_spec a) = n
  /\ (n <= u32_max)%N
  /\ derived_model_attempt_id eid n = Ok (Attempt.at_id a)
  /\ Attempt.as_episode_id (at_spec a) = eid
  /\ Attempt.as_resolved_model_digest (at_spec a) = ri_resolved_model_digest ri
  /\ Attempt.as_deployment_digest (at_spec a) = ri_deployment_digest ri
  /\ Attempt.as_model_profile_digest (at_spec a) = ri_model_profile_digest ri
  /\ Attempt.as_request_budget_digest (at_spec a) = ri_request_budget_digest ri
  /\ Attempt.attempt_evidence a.

(** The attempt a turn was decoded from. *)
Definition decoded_from (ts : TurnSpec) (a : Attempt.ModelAttemptRecord) : Prop :=
  Attempt.at_id a = ts_model_attempt_id ts
  /\ at_status a = Attempt.Decoded
  /\ Attempt.at_response_digest a = Some (ts_raw_exchange_digest ts)
  /\ Attempt.at_continuation_digest a = Some (ts_native_continuation_digest ts).

(** Turn [i]: numbered [i + 1], bound to a decoded attempt and to the
    semantic turn stored beside it. *)
Definition turn_ok (attempts : list Attempt.ModelAttemptRecord) (i : nat) (t : DurableTurn)
    : Prop :=
  let n := (N.of_nat i + 1)%N in
  let ts := tr_spec (dt_record t) in
  ts_turn_index ts = n
  /\ derived_turn_id eid n = Ok (ts_id ts)
  /\ ts_episode_id ts = eid
  /\ ts_decoded_turn_digest ts = digest_semantic_turn (dt_semantic_turn t)
  /\ ts_tool_call_count ts = N.of_nat (length (gt_tool_calls (dt_semantic_turn t)))
  /\ exists a, a ∈ attempts /\ decoded_from ts a.

(** The part of an operation that no step changes: it is one of the calls
    of a recorded turn. *)
Definition op_origin (turns : list DurableTurn) (o : DurableToolOperation) : Prop :=
  ToolOp.os_episode_id (ToolOp.op_spec (do_record o)) = eid
  /\ ToolOp.os_native_call_id (ToolOp.op_spec (do_record o)) = tc_native_call_id (do_call o)
  /\ ToolOp.os_arguments_digest (ToolOp.op_spec (do_record o))
     = digest_bytes (tc_raw_arguments (do_call o))
  /\ exists t, t ∈ turns /\ ToolOp.op_turn_id (do_record o) = tr_id (dt_record t)
       /\ do_call o ∈ gt_tool_calls (dt_semantic_turn t).

(** The statuses the runner saves. *)
Definition op_status_saved (st : ToolOp.ToolOperationStatus) : bool :=
  match st with
  | ToolOp.AwaitingPermission | ToolOp.Authorized | ToolOp.Denied => false
  | _ => true
  end.

Definition op_ok (turns : list DurableTurn) (o : DurableToolOperation) : Prop :=
  op_origin turns o /\ ToolOp.op_wf (do_record o) /\ op_status_saved (op_status_of o) = true.

Definition quiet (s : DurableEpisodeState) : Prop :=
  Forall (fun a => attempt_is_terminal (at_status a) = true) (st_attempts s).

Definition earlier_quiet (s : DurableEpisodeState) : Prop :=
  Forall (fun a => attempt_is_terminal (at_status a) = true) (removelast (st_attempts s)).

(** What each status promises. *)
Definition status_inv (s : DurableEpisodeState) : Prop :=
  match st_status s with
  | Episode.Created =>
      st_attempts s = [] /\ st_turns s = [] /\ st_tool_operations s = []
  | Episode.ReadyForModel => quiet s /\ all_ops_terminal s
  | Episode.ModelAttemptPending =>
      earlier_quiet s /\ all_ops_terminal s /\ st_cancellation_requested s = false
      /\ exists a, last (st_attempts s) = Some a
           /\ (at_status a = Attempt.Prepared \/ at_status a = Attempt.Dispatching)
  | Episode.TurnRecorded | Episode.StopReview =>
      quiet s /\ all_ops_terminal s /\ st_turns s <> [] /\ st_cancellation_requested s = false
  | Episode.ToolWorkPending => quiet s /\ st_turns s <> []
  | Episode.SuspensionRequested => False
  | Episode.Suspended => quiet s
  | Episode.CancellationPending | Episode.Cancelled =>
      earlier_quiet s /\ some_in_flight s = false /\ st_cancellation_requested s = true
      /\ forall a, last (st_attempts s) = Some a -> at_status a <> Attempt.Prepared ->
           attempt_is_terminal (at_status a) = true
  | Episode.Succeeded => quiet s /\ all_ops_terminal s /\ st_subtask_satisfied s = true
  | Episode.Incomplete | Episode.BudgetExhausted | Episode.Failed =>
      quiet s /\ all_ops_terminal s
  end.

Definition is_decoded (a : Attempt.ModelAttemptRecord) : bool :=
  bool_decide (at_status a = Attempt.Decoded).
Definition is_ambiguous (a : Attempt.ModelAttemptRecord) : bool :=
  bool_decide (at_status a = Attempt.Ambiguous \/ at_status a = Attempt.CancelledAmbiguous).
Definition of_turn (t : TurnId) (o : DurableToolOperation) : bool :=
  bool_decide (ToolOp.op_turn_id (do_record o) = t).

(** The counters count what the records show. *)
Definition counters_inv (s : DurableEpisodeState) : Prop :=
  count is_decoded (st_attempts s) = length (st_turns s)
  /\ (st_ambiguous_model_attempts s <= N.of_nat (count is_ambiguous (st_attempts s)))%N
  /\ (st_stop_feedback_turns s <= p_max_stop_feedback_turns (st_policy s))%N.

(** The subtask is satisfied only on a verified result. *)
Definition satisfied_inv (s : DurableEpisodeState) : Prop :=
  st_subtask_satisfied s = true ->
  exists o, o ∈ st_tool_operations s
    /\ ToolOp.op_result_authority (do_record o) = ToolOp.VerifiedReference
    /\ ToolOp.op_is_terminal (op_status_of o) = true
    /\ op_status_of o <> ToolOp.RejectedAsInvalid.

(** No turn has more operations than the rules allow, and a turn that was
    not planned has none. *)
Definition width_inv (s : DurableEpisodeState) : Prop :=
  (forall t, N.of_nat (count (of_turn t) (st_tool_operations s))
             <= p_max_tool_calls_per_turn (st_policy s))%N
  /\ (st_status s = Episode.TurnRecorded -> forall t, last (st_turns s) = Some t ->
        count (of_turn (tr_id (dt_record t))) (st_tool_operations s) = 0).

(** The largest value an allowance ever had, up to now. *)
Definition ever (f : EpisodeAllowance -> N) (s : DurableEpisodeState) : N :=
  foldr N.max (f (policy_allowance (st_policy s))) ((fun g => f (g_previous g)) <$> st_grants s).

Definition budget_inv (s : DurableEpisodeState) : Prop :=
  (N.of_nat (length (st_attempts s)) <= ever a_max_model_attempts s)%N
  /\ (N.of_nat (length (st_turns s)) <= ever a_max_model_turns s)%N
  /\ (N.of_nat (length (st_tool_operations s)) <= ever a_max_total_tool_operations s)%N
  /\ (st_status s = Episode.ModelAttemptPending ->
      N.of_nat (length (st_turns s)) < p_max_model_turns (st_policy s))%N.

Record EpInv (s : DurableEpisodeState) : Prop := {
  inv_id : st_episode_id s = eid;
  inv_schema : st_schema_version s = DURABLE_EPISODE_STATE_SCHEMA_V2;
  inv_policy : policy_invalid (st_policy s) = false;
  inv_attempts : indexed (attempt_ok (st_identity s)) (st_attempts s);
  inv_turns : indexed (turn_ok (st_attempts s)) (st_turns s);
  inv_ops : Forall (op_ok (st_turns s)) (st_tool_operations s);
  inv_status : status_inv s;
  inv_counters : counters_inv s;
  inv_satisfied : satisfied_inv s;
  inv_width : width_inv s;
  inv_budget : budget_inv s;
}.

(** ** Attempts *)

(** The evidence and identity of an attempt survive its updates. *)
Lemma attempt_ok_step ri i a a' :
  attempt_ok ri i a -> Attempt.attempt_step a a' -> attempt_ok ri i a'.
Proof.
  intros (H1 & H2 & H3 & H4 & H5 & H6 & H7 & H8 & He) Hs.
  destruct (Attempt.attempt_step_evidence _ _ He Hs) as (He' & Esp & _).
  unfold attempt_ok, Attempt.at_id in *. rewrite Esp. by split_and!.
Qed.

Lemma attempt_ok_steps ri i a a' :
  rtc Attempt.attempt_step a a' -> attempt_ok ri i a -> attempt_ok ri i a'.
Proof. induction 1; eauto using attempt_ok_step. Qed.

Lemma attempt_end_steps s a a' amb next :
  attempt_end s a a' amb next -> rtc Attempt.attempt_step a a'.
Proof.
  destruct 1.
  - by eapply rtc_once, Attempt.step_unanswered.
  - eapply rtc_l; [by eapply Attempt.step_response|]. by eapply rtc_once, Attempt.step_rejected.
  - eapply rtc_l; [by eapply Attempt.step_response|]. by eapply rtc_once, Attempt.step_decode_failed.
  - by eapply rtc_once, Attempt.step_unanswered.
Qed.

Lemma fresh_turn_steps s a a' t : fresh_turn eid s a a' t -> rtc Attempt.attempt_step a a'.
Proof.
  intros ((a1 & H1 & H2) & _).
  eapply rtc_l; [by eapply Attempt.step_response|]. apply rtc_once. by eapply Attempt.step_decoded.
Qed.

Lemma attempts_preserved s s' :
  indexed (attempt_ok (st_identity s)) (st_attempts s) -> episode_step eid s s' ->
  indexed (attempt_ok (st_identity s')) (st_attempts s').
Proof.
  intros Hi Hstep. destruct Hstep; cbn; try done.
  { match goal with Hf : fresh_attempt _ _ _ |- _ => destruct Hf as (Hn & Hd & Ha) end.
    apply indexed_snoc. split; [done|].
    apply guard_bind_Ok in Ha as [_ Ha]. injection Ha as Ha.
    unfold attempt_ok. rewrite <-Ha. cbn. split_and!; try done.
    unfold Attempt.attempt_evidence. cbn. split; [|done]. split; [by intros [? ?]|done]. }
  all: eapply indexed_set_last; [eassumption|exact Hi|]; intros i Hok;
    eapply attempt_ok_steps; [|exact Hok];
    first [by eapply rtc_once, Attempt.step_unanswered
          |by apply rtc_once, Attempt.step_dispatch
          |by eapply fresh_turn_steps|by eapply attempt_end_steps].
Qed.

(** What the updates of an attempt do to its status. *)
Lemma unanswered_spec a st d a' :
  Attempt.finish_without_response a st d = Ok a' ->
  at_status a = Attempt.Dispatching /\ at_status a' = st /\ at_spec a' = at_spec a
  /\ Attempt.unanswered_terminal st = true.
Proof.
  intros (Hs & Hg)%Attempt.require_status_bind.
  apply guard_bind_Ok in Hg as [Hg%negb_false_iff [= <-]]. done.
Qed.

Lemma answered_spec a r m u a' :
  Attempt.record_response a r m u = Ok a' ->
  at_status a = Attempt.Dispatching /\ at_spec a' = at_spec a
  /\ Attempt.at_response_digest a' = Some r.
Proof.
  intros (Hs & Hg)%Attempt.require_status_bind. apply guard_bind_Ok in Hg as [_ [= <-]]. done.
Qed.

Lemma dispatching_spec a a' :
  Attempt.mark_dispatching a = Ok a' ->
  at_status a = Attempt.Prepared /\ at_status a' = Attempt.Dispatching /\ at_spec a' = at_spec a.
Proof. intros (Hs & [= <-])%Attempt.require_status_bind. done. Qed.

Lemma attempt_end_spec s a a' amb next :
  attempt_end s a a' amb next ->
  at_status a = Attempt.Dispatching /\ attempt_is_terminal (at_status a') = true
  /\ at_spec a' = at_spec a /\ at_status a' <> Attempt.Decoded
  /\ (next = Episode.Failed \/ next = Episode.ReadyForModel \/ next = Episode.BudgetExhausted)
  /\ (amb <= st_ambiguous_model_attempts s + (if is_ambiguous a' then 1 else 0))%N.
Proof.
  destruct 1 as [d next Hu Hn|a1 r d next Hr Hf Hn|a1 r d Hr Hf|d Hu].
  - apply unanswered_spec in Hu as (-> & E & -> & _). rewrite E.
    split_and!; try done; [tauto|lia].
  - apply answered_spec in Hr as (-> & <- & _).
    apply Attempt.require_status_bind in Hf as [_ [= <-]]. split_and!; try done; [tauto|cbn; lia].
  - apply answered_spec in Hr as (-> & <- & _).
    apply Attempt.require_status_bind in Hf as [_ [= <-]]. split_and!; try done; [tauto|cbn; lia].
  - apply unanswered_spec in Hu as (-> & E & -> & _). unfold is_ambiguous. rewrite E.
    split_and!; try done. unfold after_ambiguous. case_match; tauto.
Qed.

Lemma fresh_turn_spec s a a' t :
  fresh_turn eid s a a' t ->
  at_status a = Attempt.Dispatching /\ decoded_from (tr_spec (dt_record t)) a'
  /\ at_spec a' = at_spec a.
Proof.
  intros ((a1 & Hr & Hd) & _ & _ & _ & Hid & _).
  apply answered_spec in Hr as (-> & Esp & Er).
  apply Attempt.require_status_bind in Hd as [_ [= <-]].
  unfold decoded_from, Attempt.at_id in *. cbn. rewrite Esp. by split_and!.
Qed.

(** ** Turns *)

Lemma turn_ok_mono A A' i t :
  (forall a, a ∈ A -> at_status a = Attempt.Decoded -> a ∈ A') ->
  turn_ok A i t -> turn_ok A' i t.
Proof.
  intros HA (H1 & H2 & H3 & H4 & H5 & a & Ha & Hd). split_and!; try done.
  exists a. split; [|done]. apply HA; [done|apply Hd].
Qed.

Lemma turns_mono A A' l :
  (forall a, a ∈ A -> at_status a = Attempt.Decoded -> a ∈ A') ->
  indexed (turn_ok A) l -> indexed (turn_ok A') l.
Proof. intros HA Hl. eapply indexed_impl; [exact Hl|]. intros i x _. by apply turn_ok_mono. Qed.

(** Replacing an open last attempt loses no decoded one. *)
Lemma set_last_keeps_decoded (A : list Attempt.ModelAttemptRecord) a a' :
  last A = Some a -> at_status a <> Attempt.Decoded ->
  forall b, b ∈ A -> at_status b = Attempt.Decoded -> b ∈ set_last a' A.
Proof. intros Hl Ha b Hb Hd. eapply elem_of_set_last; [done..|]. by intros ->. Qed.

Lemma turns_preserved s s' :
  indexed (turn_ok (st_attempts s)) (st_turns s) -> episode_step eid s s' ->
  indexed (turn_ok (st_attempts s')) (st_turns s').
Proof.
  intros Hi Hstep. destruct Hstep; cbn; try done.
  - eapply turns_mono; [|done]. set_solver.
  - match goal with Hu : Attempt.finish_without_response _ _ _ = Ok _ |- _ =>
      apply unanswered_spec in Hu as (Hs & _) end.
    eapply turns_mono; [|done]. eapply set_last_keeps_decoded; [done|by rewrite Hs].
  - match goal with Hu : Attempt.mark_dispatching _ = Ok _ |- _ =>
      apply dispatching_spec in Hu as (Hs & _) end.
    eapply turns_mono; [|done]. eapply set_last_keeps_decoded; [done|by rewrite Hs].
  - match goal with Hf : fresh_turn _ _ _ _ _ |- _ =>
      destruct (fresh_turn_spec _ _ _ _ Hf) as (Hs & Hd & _);
      destruct Hf as (_ & F1 & F2 & F3 & F4 & F5 & F6) end.
    apply indexed_snoc. split.
    + eapply turns_mono; [|done]. eapply set_last_keeps_decoded; [done|by rewrite Hs].
    + split_and!; try done. exists a'. split; [|done].
      unfold set_last. apply elem_of_app. right. by apply list_elem_of_singleton.
  - match goal with Hu : attempt_end _ _ _ _ _ |- _ =>
      apply attempt_end_spec in Hu as (Hs & _) end.
    eapply turns_mono; [|done]. eapply set_last_keeps_decoded; [done|by rewrite Hs].
  - match goal with Hu : Attempt.finish_without_response _ _ _ = Ok _ |- _ =>
      apply unanswered_spec in Hu as (Hs & _) end.
    eapply turns_mono; [|done]. eapply set_last_keeps_decoded; [done|by rewrite Hs].
Qed.

(** ** Operations *)

Lemma op_origin_mono l l' o : l ⊆ l' -> op_origin l o -> op_origin l' o.
Proof. intros Hl (H1 & H2 & H3 & t & Ht & H4). split_and!; try done. exists t. set_solver. Qed.

Lemma op_origin_spec l o r :
  ToolOp.op_spec r = ToolOp.op_spec (do_record o) -> op_origin l o ->
  op_origin l (MkDurableOp r (do_call o)).
Proof.
  unfold op_origin, ToolOp.op_turn_id. cbn. by intros ->.
Qed.

Lemma op_planned_ok turn input l o :
  op_planned eid turn input o -> turn ∈ l -> op_ok l o.
Proof.
  intros (H1 & H2 & H3 & H4 & H5 & H6 & Hst) Hin.
  split; [|split].
  - unfold op_origin. split_and!; try done. by exists turn.
  - unfold ToolOp.op_wf. fold (op_status_of o).
    destruct Hst as [[-> ->]|[-> ?]]; cbn; [|done]. split; [done|by intros [? ?]].
  - by destruct Hst as [[-> _]|[-> _]].
Qed.

Lemma op_dispatched_ok l o r :
  op_dispatched (do_record o) r -> op_ok l o -> op_ok l (MkDurableOp r (do_call o)).
Proof.
  intros (Hv & Hsp & Hrd & _ & Hst) (Ho & Hwf & Hs).
  split; [by apply op_origin_spec|split].
  - unfold ToolOp.op_wf in *. cbn. rewrite Hrd, <-Hwf.
    destruct (ToolOp.op_status (do_record o)) eqn:E; try done; by rewrite Hst.
  - unfold op_status_of in *. cbn.
    destruct (ToolOp.op_status (do_record o)) eqn:E; try done; by rewrite Hst.
Qed.

Lemma op_transition_ok l o st r :
  op_status_saved st = true -> ToolOp.op_transition (do_record o) st = Ok r ->
  op_ok l o -> op_ok l (MkDurableOp r (do_call o)).
Proof.
  intros Hst Ht (Ho & Hwf & _). split; [|split].
  - apply op_origin_spec; [|done]. by apply ToolOp.op_transition_Ok in Ht as (_ & _ & ->).
  - by eapply ToolOp.op_wf_transition.
  - by apply ToolOp.op_transition_Ok in Ht as (_ & _ & ->).
Qed.

Lemma op_still_open_ok l o r :
  op_still_open (do_record o) r -> op_ok l o -> op_ok l (MkDurableOp r (do_call o)).
Proof.
  intros [->|(st & Hst & Ht)]; [by destruct o|].
  eapply op_transition_ok; [|done]. by destruct Hst as [-> | ->].
Qed.

Lemma op_finish_status o st d rs r :
  ToolOp.op_finish (do_record o) st d rs = Ok r ->
  op_status_saved (op_status_of o) = true ->
  ToolOp.op_is_terminal st = true /\ op_status_saved st = true
  /\ ToolOp.op_is_terminal (op_status_of o) = false.
Proof.
  intros (Ht & Hc & _)%ToolOp.op_finish_Ok Hs. split; [done|].
  unfold op_status_of in *. by destruct (ToolOp.op_status (do_record o)), st.
Qed.

Lemma op_finish_ok l o st d rs r :
  ToolOp.op_finish (do_record o) st d rs = Ok r -> op_ok l o ->
  op_ok l (MkDurableOp r (do_call o)).
Proof.
  intros Hf (Ho & Hwf & Hs). pose proof (op_finish_status _ _ _ _ _ Hf Hs) as (_ & Hst & _).
  split; [|split].
  - apply op_origin_spec; [|done]. by apply ToolOp.op_finish_Ok in Hf as (_ & _ & ->).
  - by eapply ToolOp.op_wf_finish.
  - apply ToolOp.op_finish_Ok in Hf as (_ & _ & ->). done.
Qed.

Lemma ops_insert l ops i o o' :
  ops !! i = Some o -> (op_ok l o -> op_ok l o') -> Forall (op_ok l) ops ->
  Forall (op_ok l) (<[i := o']> ops).
Proof.
  intros Hi Ho Hf. apply Forall_insert; [done|]. apply Ho.
  by eapply Forall_lookup_1.
Qed.

Lemma ops_preserved s s' :
  Forall (op_ok (st_turns s)) (st_tool_operations s) -> episode_step eid s s' ->
  Forall (op_ok (st_turns s')) (st_tool_operations s').
Proof.
  intros Hf Hstep. destruct Hstep; cbn; try done.
  - eapply Forall_impl; [exact Hf|]. intros o (Ho & Hw & Hs). split; [|done].
    eapply op_origin_mono; [|done]. set_solver.
  - apply Forall_app. split; [done|].
    match goal with Hp : Forall (op_planned _ _ _) _ |- _ => eapply Forall_impl; [exact Hp|] end.
    intros o Ho. eapply op_planned_ok; [done|]. by eapply last_Some_elem_of.
  - eapply ops_insert; eauto using op_dispatched_ok.
  - eapply ops_insert; eauto using op_finish_ok.
  - eapply ops_insert; eauto using op_still_open_ok.
  - eapply ops_insert; eauto using op_still_open_ok.
  - match goal with Ho : _ \/ _ |- _ => destruct Ho as [->|(i & o & r & Hi & _ & Hr & ->)] end;
      [done|]. eapply ops_insert; [done| |done]. by apply op_transition_ok with (st := ToolOp.Ambiguous).
Qed.

(** ** Statuses *)

Lemma quiet_set_last (A : list Attempt.ModelAttemptRecord) a a' :
  last A = Some a -> Forall (fun a => attempt_is_terminal (at_status a) = true) (removelast A) ->
  attempt_is_terminal (at_status a') = true ->
  Forall (fun a => attempt_is_terminal (at_status a) = true) (set_last a' A).
Proof. intros Hl HA Ha. by apply (Forall_set_last _ _ _ _ Hl). Qed.

Lemma quiet_earlier s : quiet s -> earlier_quiet s.
Proof.
  unfold quiet, earlier_quiet. destruct (last (st_attempts s)) as [a|] eqn:E.
  - by intros [? _]%(Forall_last_split _ _ _ E).
  - apply last_None in E. by rewrite E.
Qed.

Lemma quiet_last s a :
  quiet s -> last (st_attempts s) = Some a -> attempt_is_terminal (at_status a) = true.
Proof. intros Hq E. by apply (Forall_last_split _ _ _ E) in Hq as [_ ?]. Qed.

Lemma terminal_not_in_flight s : all_ops_terminal s -> some_in_flight s = false.
Proof.
  unfold all_ops_terminal, some_in_flight. induction 1 as [|o l Ho _ IH]; [done|].
  cbn. rewrite IH, orb_false_r. unfold op_status_of in *. by destruct (ToolOp.op_status _).
Qed.

Lemma unfinished_op_turns l ops :
  Forall (op_ok l) ops ->
  ~ Forall (fun o => ToolOp.op_is_terminal (op_status_of o) = true) ops -> l <> [].
Proof.
  intros Hok Hn ->. apply Hn. destruct Hok as [|o ops ((_ & _ & _ & t & Ht & _) & _) _]; [constructor|].
  by apply not_elem_of_nil in Ht.
Qed.

(** The status a state had, and what it promised. *)
Ltac status_of Hinv :=
  unfold status_inv in Hinv;
  match goal with Hst : st_status _ = _ |- _ => rewrite Hst in Hinv end.

Lemma cancelled_status s :
  status_inv s -> Episode.episode_is_terminal (st_status s) = false ->
  (forall a, last (st_attempts s) = Some a -> at_status a <> Attempt.Dispatching) ->
  earlier_quiet s /\ forall a, last (st_attempts s) = Some a ->
    at_status a <> Attempt.Prepared -> attempt_is_terminal (at_status a) = true.
Proof.
  intros Hinv Ht Hd. unfold status_inv in Hinv.
  assert (quiet s -> earlier_quiet s /\ forall a, last (st_attempts s) = Some a ->
    at_status a <> Attempt.Prepared -> attempt_is_terminal (at_status a) = true) as Hquiet.
  { intros Hq. split; [by apply quiet_earlier|]. intros a Ha _. by eapply quiet_last. }
  destruct (st_status s); try done; try (apply Hquiet; tauto).
  - apply Hquiet. destruct Hinv as (E & _). unfold quiet. rewrite E. constructor.
  - destruct Hinv as (Hq & _ & _ & a & Ha & Hp). split; [done|]. intros b Hb Hnp.
    simplify_eq. destruct Hp as [Hp|Hp]; [done|]. by destruct (Hd a Ha).
  - split; apply Hinv.
Qed.

Lemma status_preserved s s' :
  status_inv s -> Forall (op_ok (st_turns s)) (st_tool_operations s) -> episode_step eid s s' ->
  status_inv s'.
Proof.
  intros Hinv Hops Hstep. destruct Hstep.
  - status_of Hinv. destruct Hinv as (E1 & _ & E3). unfold status_inv; cbn.
    unfold quiet, all_ops_terminal. cbn. by rewrite E1, E3.
  - status_of Hinv. destruct Hinv as [Hq Ht]. unfold status_inv; cbn.
    split_and!; [by apply quiet_earlier|by apply terminal_not_in_flight|done|].
    intros a Ha _. by eapply quiet_last.
  - status_of Hinv. done.
  - status_of Hinv. destruct Hinv as [Hq Ht]. unfold status_inv; cbn. unfold earlier_quiet. cbn.
    rewrite removelast_last, last_snoc. split_and!; [done|done|done|].
    exists a. split; [done|left].
    match goal with Hf : fresh_attempt _ _ _ |- _ => destruct Hf as (_ & _ & Ha) end.
    by apply guard_bind_Ok in Ha as [_ [= <-]].
  - status_of Hinv. destruct Hinv as (_ & _ & Hc & _). congruence.
  - status_of Hinv. destruct Hinv as (Hq & Ht & Hc & _). unfold status_inv.
    change (st_status (set_attempts s (set_last a' (st_attempts s)))) with (st_status s).
    match goal with Hst : st_status s = _ |- _ => rewrite Hst end.
    unfold earlier_quiet. cbn. rewrite removelast_set_last, last_set_last.
    split_and!; [done|done|done|]. exists a'. split; [done|right].
    match goal with Hu : Attempt.mark_dispatching _ = Ok _ |- _ =>
      by apply dispatching_spec in Hu as (_ & ? & _) end.
  - status_of Hinv. destruct Hinv as (Hq & Ht & Hc & _). unfold status_inv; cbn.
    unfold quiet. cbn. split_and!; [|done| |done].
    + eapply quiet_set_last; [done..|].
      match goal with Hf : fresh_turn _ _ _ _ _ |- _ =>
        destruct (fresh_turn_spec _ _ _ _ Hf) as (_ & (_ & Hd & _) & _) end. by rewrite Hd.
    + by destruct (st_turns s).
  - status_of Hinv. destruct Hinv as (Hq & Ht & Hc & _).
    match goal with Hu : attempt_end _ _ _ _ _ |- _ =>
      apply attempt_end_spec in Hu as (_ & Hterm & _ & _ & Hn & _) end.
    unfold status_inv; cbn. unfold quiet. cbn.
    destruct Hn as [-> |[-> | ->]]; (split; [by eapply quiet_set_last|done]).
  - status_of Hinv. done.
  - status_of Hinv. unfold status_inv. cbn. tauto.
  - status_of Hinv. unfold status_inv. cbn. tauto.
  - status_of Hinv. unfold status_inv. cbn. unfold quiet in *. tauto.
  - status_of Hinv. unfold status_inv. change (st_status (set_ops _ _)) with (st_status s).
    match goal with Hst : st_status s = _ |- _ => rewrite Hst end. done.
  - status_of Hinv. unfold status_inv.
    change (st_status (set_satisfied _ _)) with (st_status s).
    match goal with Hst : st_status s = _ |- _ => rewrite Hst end. done.
  - status_of Hinv. unfold status_inv. change (st_status (set_ops _ _)) with (st_status s).
    match goal with Hst : st_status s = _ |- _ => rewrite Hst end. done.
  - status_of Hinv. unfold status_inv. cbn. unfold quiet in *. tauto.
  - status_of Hinv. unfold status_inv. cbn. unfold quiet in *. tauto.
  - status_of Hinv. unfold status_inv. cbn. unfold quiet in *. tauto.
  - status_of Hinv. unfold status_inv. cbn. unfold quiet in *. tauto.
  - status_of Hinv. done.
  - unfold status_inv in Hinv |- *. cbn. unfold quiet, all_ops_terminal in *. cbn.
    destruct (st_status s); try done; tauto.
  - destruct (cancelled_status s) as [Hq Hl]; [done..|]. by split_and!.
  - status_of Hinv. destruct Hinv as (Hq & Ht & Hc & _). unfold status_inv; cbn. unfold quiet. cbn.
    eapply quiet_set_last; [done..|].
    match goal with Hu : Attempt.finish_without_response _ _ _ = Ok _ |- _ =>
      by apply unanswered_spec in Hu as (_ & -> & _) end.
  - unfold status_inv in Hinv |- *. cbn. unfold quiet in *. cbn.
    match goal with Hs : _ \/ _ |- _ => destruct Hs as [E|E]; rewrite E in Hinv end; tauto.
  - status_of Hinv. unfold status_inv; cbn. unfold all_ops_terminal, quiet in *.
    destruct next; try done; cbn.
    + tauto.
    + split; [done|]. eapply unfinished_op_turns; [exact Hops|done].
    + destruct_and!. split_and!; [by apply quiet_earlier|by apply terminal_not_in_flight|done|].
      intros a Ha _. by eapply quiet_last.
Qed.

(** ** Counters *)

Lemma is_decoded_status a : is_decoded a =
  match at_status a with Attempt.Decoded => true | _ => false end.
Proof. unfold is_decoded. by destruct (at_status a). Qed.

Lemma is_ambiguous_status a : is_ambiguous a =
  match at_status a with Attempt.Ambiguous | Attempt.CancelledAmbiguous => true | _ => false end.
Proof. unfold is_ambiguous. by destruct (at_status a). Qed.

Lemma counters_set_last s a a' amb (turns : list DurableTurn) :
  counters_inv s -> last (st_attempts s) = Some a ->
  at_status a = Attempt.Dispatching \/ at_status a = Attempt.Prepared ->
  (if is_decoded a' then 1 else 0) + length (st_turns s) = length turns ->
  (amb <= st_ambiguous_model_attempts s + (if is_ambiguous a' then 1 else 0))%N ->
  count is_decoded (set_last a' (st_attempts s)) = length turns
  /\ (amb <= N.of_nat (count is_ambiguous (set_last a' (st_attempts s))))%N.
Proof.
  intros (H1 & H2 & _) Hl Ha Ht Hamb.
  pose proof (count_set_last is_decoded _ _ a' Hl) as C1.
  pose proof (count_set_last is_ambiguous _ _ a' Hl) as C2.
  assert (is_decoded a = false /\ is_ambiguous a = false) as [E1 E2]
    by (unfold is_decoded, is_ambiguous; destruct Ha as [-> | ->]; done).
  rewrite E1 in C1. rewrite E2 in C2. split; [lia|].
  destruct (is_ambiguous a'); lia.
Qed.

Lemma counters_preserved s s' :
  counters_inv s -> episode_step eid s s' -> counters_inv s'.
Proof.
  intros Hc Hstep. pose proof Hc as (H1 & H2 & H3).
  destruct Hstep; try exact Hc; unfold counters_inv; cbn.
  - match goal with Hf : fresh_attempt _ _ _ |- _ => destruct Hf as (_ & _ & Ha) end.
    apply guard_bind_Ok in Ha as [_ Ha]. injection Ha as Ha.
    assert (is_decoded a = false /\ is_ambiguous a = false) as [E1 E2] by by rewrite <-Ha.
    rewrite !count_app, !count_cons, !count_nil, E1, E2. split_and!; [lia|lia|done].
  - match goal with Hu : Attempt.finish_without_response _ _ _ = Ok _ |- _ =>
      apply unanswered_spec in Hu as (Hs & Hs' & _) end.
    edestruct counters_set_last as [C1 C2]; [exact Hc|done|by left| | |by split_and!];
      rewrite ?is_decoded_status, ?is_ambiguous_status, Hs'; [done|lia].
  - match goal with Hu : Attempt.mark_dispatching _ = Ok _ |- _ =>
      apply dispatching_spec in Hu as (Hs & Hs' & _) end.
    edestruct counters_set_last as [C1 C2]; [exact Hc|done|by right| | |by split_and!];
      rewrite ?is_decoded_status, ?is_ambiguous_status, Hs'; [done|lia].
  - match goal with Hf : fresh_turn _ _ _ _ _ |- _ =>
      destruct (fresh_turn_spec _ _ _ _ Hf) as (Hs & (_ & Hs' & _) & _) end.
    edestruct counters_set_last as [C1 C2]; [exact Hc|done|by left| | |by split_and!];
      rewrite ?is_decoded_status, ?is_ambiguous_status, Hs'; [rewrite length_app; cbn; lia|cbn; lia].
  - match goal with Hu : attempt_end _ _ _ _ _ |- _ =>
      apply attempt_end_spec in Hu as (Hs & _ & _ & Hs' & _ & Ha) end.
    edestruct counters_set_last as [C1 C2]; [exact Hc|done|by left| |exact Ha|by split_and!].
    unfold is_decoded. by rewrite bool_decide_eq_false_2.
  - split_and!; [done|done|]. lia.
  - match goal with Hu : Attempt.finish_without_response _ _ _ = Ok _ |- _ =>
      apply unanswered_spec in Hu as (Hs & Hs' & _) end.
    edestruct (counters_set_last s a a' (st_ambiguous_model_attempts s) (st_turns s))
      as [C1 C2]; [exact Hc|done|by left| | |by split_and!];
      rewrite ?is_decoded_status, ?is_ambiguous_status, Hs'; [done|lia].
Qed.

(** ** Verified completion *)

Lemma witness_insert (ops : list DurableToolOperation) (i : nat) o o' w :
  ops !! i = Some o -> ToolOp.op_is_terminal (op_status_of o) = false ->
  w ∈ ops -> ToolOp.op_is_terminal (op_status_of w) = true -> w ∈ <[i := o']> ops.
Proof.
  intros Hi Ho (j & Hj)%list_elem_of_lookup Hw. apply list_elem_of_lookup. exists j.
  rewrite list_lookup_insert_ne; [done|]. intros ->. congruence.
Qed.

Lemma satisfied_insert s i o o' :
  satisfied_inv s -> st_tool_operations s !! i = Some o ->
  o' = o \/ ToolOp.op_is_terminal (op_status_of o) = false ->
  satisfied_inv (set_ops s (<[i := o']> (st_tool_operations s))).
Proof.
  intros Hs Hi [->|Ho] Hsat.
  - unfold set_ops. cbn. rewrite list_insert_id by done. by apply Hs.
  - destruct (Hs Hsat) as (w & Hw & Ha & Ht & Hr). exists w.
    split_and!; [by eapply witness_insert|done..].
Qed.

Lemma op_open_source o r :
  op_dispatched (do_record o) r \/ (op_still_open (do_record o) r /\ r <> do_record o) ->
  ToolOp.op_is_terminal (op_status_of o) = false.
Proof.
  unfold op_status_of. intros [(_ & _ & _ & _ & Hs)|[[->|(st & _ & Ht)] Hne]]; [|done|].
  - by destruct (ToolOp.op_status _).
  - apply ToolOp.op_transition_Ok in Ht as (_ & Hc & _). by destruct (ToolOp.op_status _), st.
Qed.

Lemma still_open_cases o r :
  op_still_open (do_record o) r ->
  MkDurableOp r (do_call o) = o \/ ToolOp.op_is_terminal (op_status_of o) = false.
Proof.
  intros Hr. destruct (decide (r = do_record o)) as [->|Hne]; [left; by destruct o|].
  right. eapply op_open_source; eauto.
Qed.

Lemma satisfied_done s i o st d rs r sat :
  satisfied_inv s -> st_tool_operations s !! i = Some o -> st <> ToolOp.RejectedAsInvalid ->
  (sat = true -> ToolOp.op_result_authority (do_record o) = ToolOp.VerifiedReference) ->
  ToolOp.op_finish (do_record o) st d rs = Ok r ->
  satisfied_inv (set_satisfied
    (set_ops s (<[i := MkDurableOp r (do_call o)]> (st_tool_operations s)))
    (st_subtask_satisfied s || sat)).
Proof.
  intros Hs Hi Hst Hauth (Ht & Hc & ->)%ToolOp.op_finish_Ok Hsat. cbn in Hsat |- *.
  apply orb_true_iff in Hsat as [Hsat|Hsat].
  - assert (satisfied_inv (set_ops s (<[i := MkDurableOp (ToolOp.MkOp
      (ToolOp.op_schema_version (do_record o)) (ToolOp.op_spec (do_record o)) st (Some d) rs)
      (do_call o)]> (st_tool_operations s)))) as Hs'.
    { eapply satisfied_insert; [done..|]. right. unfold op_status_of.
      by destruct (ToolOp.op_status _), st. }
    by apply Hs'.
  - eexists. split; [by eapply list_elem_of_insert, lookup_lt_Some|].
    unfold op_status_of, ToolOp.op_result_authority in *. cbn. by rewrite Hauth.
Qed.

Lemma satisfied_preserved s s' : satisfied_inv s -> episode_step eid s s' -> satisfied_inv s'.
Proof.
  intros Hs Hstep. destruct Hstep; try exact Hs.
  - intros Hsat. destruct (Hs Hsat) as (w & Hw & ?). exists w. split; [|done].
    cbn. apply elem_of_app. by left.
  - eapply satisfied_insert; [done..|]. right. eapply op_open_source; eauto.
  - by eapply satisfied_done.
  - eapply satisfied_insert; [done..|]. by apply still_open_cases.
  - assert (satisfied_inv (set_ops s (<[i := MkDurableOp r (do_call o)]> (st_tool_operations s))))
      as Hs' by (eapply satisfied_insert; [done..|]; by apply still_open_cases).
    exact Hs'.
  - match goal with Ho : _ \/ (exists i o r, _) |- _ =>
      destruct Ho as [->|(i & o & r & Hi & Hd & Ht & ->)]; [exact Hs|] end.
    assert (satisfied_inv (set_ops s (<[i := MkDurableOp r (do_call o)]> (st_tool_operations s))))
      as Hs' by (eapply satisfied_insert; [done..|]; right; by rewrite Hd).
    exact Hs'.
Qed.

(** ** Width of a turn *)

Lemma derived_turn_id_str n t :
  derived_turn_id eid n = Ok t -> as_str t = "turn-" +:+ as_str eid +:+ "-" +:+ pretty n.
Proof. unfold derived_turn_id. by intros ?%map_err_Ok%parse_id_Ok. Qed.

Lemma derived_turn_id_inj n m t :
  derived_turn_id eid n = Ok t -> derived_turn_id eid m = Ok t -> n = m.
Proof.
  intros Hn%derived_turn_id_str Hm%derived_turn_id_str. rewrite Hn in Hm.
  apply string_app_inj_l, string_app_inj_l, string_app_inj_l in Hm.
  by apply pretty_N_inj.
Qed.

Lemma count_of_turn_insert t (i : nat) o r (l : list DurableToolOperation) :
  l !! i = Some o -> ToolOp.op_spec r = ToolOp.op_spec (do_record o) ->
  count (of_turn t) (<[i := MkDurableOp r (do_call o)]> l) = count (of_turn t) l.
Proof.
  intros Hi Hsp.
  pose proof (count_insert (of_turn t) l i o (MkDurableOp r (do_call o)) Hi) as C.
  assert (of_turn t (MkDurableOp r (do_call o)) = of_turn t o) as E
    by (unfold of_turn, ToolOp.op_turn_id; cbn; by rewrite Hsp).
  rewrite E in C. lia.
Qed.

Lemma still_open_spec o r :
  op_still_open (do_record o) r -> ToolOp.op_spec r = ToolOp.op_spec (do_record o).
Proof. intros [->|(st & _ & Ht)]; [done|]. by apply ToolOp.op_transition_Ok in Ht as (_ & _ & ->). Qed.

Lemma count_of_turn_planned t t' input ops :
  Forall (op_planned eid t input) ops ->
  count (of_turn t') ops = if decide (tr_id (dt_record t) = t') then length ops else 0.
Proof.
  induction 1 as [|o ops (_ & _ & Ho & _) _ IH]; [by case_decide|].
  rewrite count_cons, IH. unfold of_turn. rewrite Ho.
  case_decide; [rewrite bool_decide_eq_true_2|rewrite bool_decide_eq_false_2]; done.
Qed.

(** The operations of recorded turns are not of a turn still to come. *)
Lemma fresh_turn_unplanned A turns ops n t :
  indexed (turn_ok A) turns -> Forall (op_ok turns) ops ->
  (N.of_nat (length turns) < n)%N -> derived_turn_id eid n = Ok t ->
  count (of_turn t) ops = 0.
Proof.
  intros Ht Ho Hn Hd. apply count_zero. eapply Forall_impl; [exact Ho|].
  intros o ((_ & _ & _ & u & (i & Hi)%list_elem_of_lookup & Hu & _) & _).
  unfold of_turn. apply bool_decide_eq_false_2. intros E.
  destruct (Ht _ _ Hi) as (_ & Hdi & _). fold (tr_id (dt_record u)) in Hdi.
  rewrite <-Hu, E in Hdi. pose proof (derived_turn_id_inj _ _ _ Hd Hdi).
  apply lookup_lt_Some in Hi. lia.
Qed.

Lemma width_insert s i o r :
  width_inv s -> st_tool_operations s !! i = Some o ->
  ToolOp.op_spec r = ToolOp.op_spec (do_record o) ->
  width_inv (set_ops s (<[i := MkDurableOp r (do_call o)]> (st_tool_operations s))).
Proof.
  intros [H1 H2] Hi Hsp. split; cbn.
  - intros t. by rewrite (count_of_turn_insert t i o).
  - intros Hs t Hl. rewrite (count_of_turn_insert _ i o) by done. by apply H2.
Qed.

Lemma width_preserved s s' :
  width_inv s -> indexed (turn_ok (st_attempts s)) (st_turns s) ->
  Forall (op_ok (st_turns s)) (st_tool_operations s) -> episode_step eid s s' -> width_inv s'.
Proof.
  intros Hw Ht Ho Hstep. pose proof Hw as [H1 H2].
  destruct Hstep; try (split; [exact H1|done]).
  - split; [exact H1|]. intros _ u. cbn. rewrite last_snoc. intros [= <-].
    match goal with Hf : fresh_turn _ _ _ _ _ |- _ => destruct Hf as (_ & Hd & _) end.
    eapply fresh_turn_unplanned; [done..| |exact Hd]. lia.
  - split; [exact H1|]. cbn.
    match goal with Hu : attempt_end _ _ _ _ _ |- _ =>
      apply attempt_end_spec in Hu as (_ & _ & _ & _ & [-> |[-> | ->]] & _) end; done.
  - split; [|done]. intros u. cbn. rewrite count_app.
    match goal with Hp : Forall (op_planned _ _ _) _ |- _ =>
      rewrite (count_of_turn_planned _ _ _ _ Hp) end.
    case_decide as E; [subst u; rewrite H2 by done; cbn; lia|].
    rewrite Nat.add_0_r. apply H1.
  - eapply width_insert; [done..|].
    match goal with Hd : op_dispatched _ _ |- _ => apply Hd end.
  - assert (width_inv (set_ops s (<[i := MkDurableOp r (do_call o)]> (st_tool_operations s))))
      as [W1 W2]; [|split; [exact W1|exact W2]].
    eapply width_insert; [done..|].
    match goal with Hf : ToolOp.op_finish _ _ _ _ = Ok _ |- _ =>
      by apply ToolOp.op_finish_Ok in Hf as (_ & _ & ->) end.
  - eapply width_insert; [done..|]. by apply still_open_spec.
  - assert (width_inv (set_ops s (<[i := MkDurableOp r (do_call o)]> (st_tool_operations s))))
      as [W1 W2] by (eapply width_insert; [done..|by apply still_open_spec]).
    split; [exact W1|done].
  - split; [|done]. cbn.
    match goal with Hop : _ \/ (exists i o r, _) |- _ =>
      destruct Hop as [->|(i & o & r & Hi & Hd & Htr & ->)]; [exact H1|] end.
    intros t. rewrite (count_of_turn_insert t i o); [apply H1|done|].
    by apply ToolOp.op_transition_Ok in Htr as (_ & _ & ->).
  - split; [exact H1|]. cbn. by destruct next.
Qed.

(** ** Budgets *)

Lemma foldr_max_le b b' l : (b <= b')%N -> (foldr N.max b l <= foldr N.max b' l)%N.
Proof. intros Hb. induction l as [|x l IH]; cbn; lia. Qed.

Lemma ever_resume f s g :
  (ever f s <= foldr N.max (f g) ((fun g => f (g_previous g)) <$>
     (st_grants s ++ [MkGrant (st_status s) (policy_allowance (st_policy s)) g])))%N.
Proof.
  unfold ever. rewrite fmap_app, foldr_app. cbn. apply foldr_max_le. lia.
Qed.

Lemma ever_now f s : (f (policy_allowance (st_policy s)) <= ever f s)%N.
Proof. unfold ever. induction (_ <$> _) as [|x l IH]; cbn; lia. Qed.

Lemma budget_frame s s' :
  st_policy s' = st_policy s -> st_grants s' = st_grants s ->
  length (st_attempts s') = length (st_attempts s) -> length (st_turns s') = length (st_turns s) ->
  length (st_tool_operations s') = length (st_tool_operations s) ->
  (st_status s' = Episode.ModelAttemptPending -> st_status s = Episode.ModelAttemptPending) ->
  budget_inv s -> budget_inv s'.
Proof.
  unfold budget_inv, ever. intros -> -> -> -> -> Hs (H1 & H2 & H3 & H4). split_and!; auto.
Qed.

(** Side conditions of [budget_frame] for an explicit step. *)
Ltac same_budget :=
  first [done
    | by cbn; eapply length_set_last
    | by cbn; rewrite length_insert
    | by intros; match goal with Hst : st_status _ = _ |- _ => rewrite <-Hst end
    | done].

Lemma budget_preserved s s' : budget_inv s -> episode_step eid s s' -> budget_inv s'.
Proof.
  intros Hb Hstep. pose proof Hb as (H1 & H2 & H3 & H4).
  pose proof (ever_now a_max_model_attempts s) as E1.
  pose proof (ever_now a_max_model_turns s) as E2.
  pose proof (ever_now a_max_total_tool_operations s) as E3.
  destruct Hstep; try (by apply (budget_frame s); same_budget).
  - unfold budget_inv, ever in *. cbn in *. rewrite length_app. cbn. split_and!; [lia|lia|lia|done].
  - unfold budget_inv, ever in *. cbn in *.
    erewrite length_set_last, length_app by done. cbn.
    match goal with Hst : st_status s = _ |- _ => specialize (H4 Hst) end.
    split_and!; [lia|lia|lia|done].
  - unfold budget_inv, ever in *. cbn in *. rewrite length_app. split_and!; [lia|lia|lia|done].
  - split_and!; [| | |done].
    + etrans; [exact H1|exact (ever_resume a_max_model_attempts s g)].
    + etrans; [exact H2|exact (ever_resume a_max_model_turns s g)].
    + etrans; [exact H3|exact (ever_resume a_max_total_tool_operations s g)].
  - apply (budget_frame s); try same_budget.
    match goal with Hop : _ \/ (exists i o r, _) |- _ =>
      destruct Hop as [->|(i & o & r & Hi & Hd & Htr & ->)]; [done|] end.
    cbn. by rewrite length_insert.
  - apply (budget_frame s); try same_budget. cbn. intros ->. done.
Qed.

(** ** The invariant *)

Lemma EpInv_step s s' : EpInv s -> episode_step eid s s' -> EpInv s'.
Proof.
  intros [Hid Hsch Hpol Hat Htu Hop Hst Hco Hsa Hwi Hbu] Hstep.
  assert (st_episode_id s' = st_episode_id s /\ st_schema_version s' = st_schema_version s)
    as [Eid Esch] by by destruct Hstep.
  split.
  - by rewrite Eid.
  - by rewrite Esch.
  - by destruct Hstep.
  - by eapply attempts_preserved.
  - by eapply turns_preserved.
  - by eapply ops_preserved.
  - by eapply status_preserved.
  - by eapply counters_preserved.
  - by eapply satisfied_preserved.
  - by eapply width_preserved.
  - by eapply budget_preserved.
Qed.

Lemma EpInv_steps s s' : rtc (episode_step eid) s s' -> EpInv s -> EpInv s'.
Proof. induction 1; eauto using EpInv_step. Qed.

(** A fresh state satisfies the invariant. *)
Lemma EpInv_new spec s :
  state_new spec = Ok s -> Episode.ep_id (rs_episode spec) = eid ->
  Episode.ep_status (rs_episode spec) = Episode.Created -> EpInv s.
Proof.
  intros Hn Hid Hst. apply guard_bind_Ok in Hn as [Hp [= <-]].
  split.
  - done.
  - done.
  - done.
  - apply indexed_nil.
  - apply indexed_nil.
  - constructor.
  - unfold status_inv, st_status. cbn. by rewrite Hst.
  - unfold counters_inv. cbn. split_and!; [done|lia|lia].
  - done.
  - split; cbn; [intros t; rewrite count_nil; lia|]. unfold st_status. cbn. by rewrite Hst.
  - unfold budget_inv, st_status. cbn. rewrite Hst. split_and!; [lia|lia|lia|done].
Qed.

(** What the simulation of a cancellation needs. *)
Lemma EpInv_open s : EpInv s -> open_where_driven s.
Proof.
  intros Hi. pose proof (inv_status _ Hi) as Hs. unfold status_inv in Hs. split.
  - intros a Ha Hd.
    destruct (st_status s) eqn:E; try done;
      try (assert (attempt_is_terminal (at_status a) = true) as Ht
             by (apply (quiet_last s); [tauto|done]); by rewrite Hd in Ht).
    + destruct Hs as (E1 & _). by rewrite E1 in Ha.
    + destruct Hs as (_ & _ & _ & Hl). specialize (Hl a Ha). rewrite Hd in Hl. by discriminate Hl.
    + destruct Hs as (_ & _ & _ & Hl). specialize (Hl a Ha). rewrite Hd in Hl. by discriminate Hl.
  - intros Hf. destruct (st_status s) eqn:E; try (by left); try (by right); try done;
      try (assert (some_in_flight s = false) as Ht
             by (apply terminal_not_in_flight; tauto); congruence).
    + destruct Hs as (_ & _ & E3). unfold some_in_flight in Hf. by rewrite E3 in Hf.
    + destruct Hs as (_ & Hx & _). congruence.
    + destruct Hs as (_ & Hx & _). congruence.
Qed.

End invariant.
