(* ===== verification/EpisodeSafety.v ===== *)
(** * Safety of a durable episode

    The theorems about whole histories of calls, with crashes, failing
    saves and arbitrary adapters in between: the durable state always
    satisfies the invariant, every external effect was announced by a
    durable state, no attempt is sent twice and no operation is executed
    twice, and what was recorded is never rewritten. *)

From stdpp Require Import base strings pretty relations list.
From S2P Require Import Prelude Digest Identity AgentRecord ModelAttempt ModelGateway.
From S2P Require Import LoopPolicy EpisodeState Fixtures EpisodePorts.
From S2P Require Import EpisodeSteps EpisodeRuntime EpisodeHistory EpisodeRefinement.
From S2P Require Import EpisodeProtocol EpisodeInvariant.

Import Attempt(at_status, at_spec, attempt_is_terminal).

(** ** Calls and the protocol *)

Section safety.
Context `{Sha256} `{AgentToolGateway T}.
Variable eid : EpisodeId.

Lemma model_dispatch_step s s1 req : model_dispatch eid s s1 req -> episode_step eid s s1.
Proof. intros (Hst & _ & Hb). by eapply begin_dispatch_step. Qed.

Lemma tool_dispatch_step s s1 i inv st : tool_dispatch s s1 i inv st -> episode_step eid s s1.
Proof. intros (Hst & _ & Hb). by eapply begin_tool_step. Qed.

Lemma model_done_step s s1 req o s2 a :
  model_dispatch eid s s1 req -> apply_model_outcome eid s1 req o = Ok (s2, a) ->
  episode_step eid s1 s2.
Proof.
  intros (Hst & _ & Hb) Ho.
  destruct (begin_dispatch_request _ _ _ _ Hb) as (at1 & Hl & _ & -> & Hs1).
  refine (model_outcome_step eid s1 _ o s2 at1 a _ Hl _ _ Ho); [congruence|reflexivity..].
Qed.

Lemma tool_done_step s s1 i inv st out s2 a :
  tool_dispatch s s1 i inv st -> apply_tool_outcome s1 i st out = Ok (s2, a) ->
  episode_step eid s1 s2.
Proof.
  intros (Hst & _ & Hb) Ho.
  destruct (begin_tool_spec _ _ _ _ _ Hb) as (o & r & Hi & _ & -> & -> & _).
  refine (tool_outcome_step eid _ i (MkDurableOp r (do_call o)) _ out s2 a _ _ _ Ho); [done| |reflexivity].
  by eapply list_lookup_insert_eq, lookup_lt_Some.
Qed.

Lemma quiet_save_step tools c s s' :
  EpInv eid s -> quiet_save eid tools c s s' -> episode_step eid s s'.
Proof.
  intros Hi Hq. destruct Hq as [? ? ? ? Hs|? ? ? ? Hs|? ? ? ? ? ? ? Hs|? ? ? ? Hs|? ? ? ? ? Hs|? ? ? ? Hs
            |? ? ? ? Hs|? ? ? ? ? Hs|? ? ? Hs|? ? ? Hs].
  - inv_step. by constructor.
  - by eapply prepare_step.
  - by eapply recover_step.
  - by eapply plan_step.
  - by eapply settle_step.
  - by eapply review_step.
  - inv_step. by constructor.
  - by eapply resume_step.
  - eapply cancel_step; [by eapply EpInv_open|done..].
  - by eapply reconcile_step.
Qed.

(** The states a call saves are a path of the protocol. *)
Lemma call_log_steps tools c s es s' :
  EpInv eid s -> call_log eid tools c s es s' ->
  rtc (episode_step eid) s s' /\ Forall (EpInv eid) (saved_states es).
Proof.
  intros Hi Hc.
  assert (forall a b, episode_step eid a b -> EpInv eid a -> EpInv eid b) as HI
    by eauto using EpInv_step.
  assert (forall st inv l, saved_states (tool_effect st inv :: l) = saved_states l) as Ht
    by (intros st inv l; unfold tool_effect; by destruct (reconciling st)).
  destruct Hc as [|? ? ? Hq|? ? ? Hd|? ? ? Hd|? ? ? ? ? ? Hd Ho|? ? ? ? ? Hd|? ? ? ? ? Hd
                 |? ? ? ? ? ? ? ? Hd Ho].
  - split; [done|constructor].
  - apply quiet_save_step in Hq; [|done]. split; [by apply rtc_once|]. apply Forall_singleton. eauto.
  - apply model_dispatch_step in Hd. split; [by apply rtc_once|]. apply Forall_singleton. eauto.
  - apply model_dispatch_step in Hd. split; [by apply rtc_once|]. apply Forall_singleton. eauto.
  - pose proof (model_done_step _ _ _ _ _ _ Hd Ho). apply model_dispatch_step in Hd.
    split; [eapply rtc_l; [done|by apply rtc_once]|]. apply Forall_cons. split; [eauto|]. apply Forall_singleton. eauto.
  - apply tool_dispatch_step in Hd. split; [by apply rtc_once|]. apply Forall_singleton. eauto.
  - apply tool_dispatch_step in Hd. split; [by apply rtc_once|].
    change (saved_states [EffSave s1; tool_effect st inv])
      with (s1 :: saved_states [tool_effect st inv]). rewrite Ht. apply Forall_singleton. eauto.
  - pose proof (tool_done_step _ _ _ _ _ _ _ _ Hd Ho). apply tool_dispatch_step in Hd.
    split; [eapply rtc_l; [done|by apply rtc_once]|].
    change (saved_states [EffSave s1; tool_effect st inv; EffSave s2])
      with (s1 :: saved_states [tool_effect st inv; EffSave s2]).
    rewrite Ht. apply Forall_cons. split; [eauto|]. apply Forall_singleton. eauto.
Qed.

(** ** Histories *)

(** A chain of abstract calls; each may see another state of the tool
    adapter. *)
Inductive history : list Call -> DurableEpisodeState -> list Effect -> DurableEpisodeState -> Prop :=
| hist_nil s : history [] s [] s
| hist_call tools c cs s es s1 es' s' :
    call_log eid tools c s es s1 -> history cs s1 es' s' ->
    history (c :: cs) s (es ++ es') s'.

Lemma history_steps cs s es s' :
  EpInv eid s -> history cs s es s' ->
  rtc (episode_step eid) s s' /\ EpInv eid s' /\ Forall (EpInv eid) (saved_states es).
Proof.
  intros Hi Hh. revert Hi. induction Hh as [s|tools c cs s es s1 es' s' Hc _ IH]; intros Hi.
  - split_and!; [done|done|constructor].
  - destruct (call_log_steps _ _ _ _ _ Hi Hc) as [Hr Hf].
    destruct IH as (Hr' & Hi' & Hf'); [by eapply EpInv_steps|].
    split_and!; [by etrans|done|]. unfold saved_states in *. rewrite omap_app. by apply Forall_app.
Qed.

(** An invariant of the effects of a history: [P log s] holds of the log
    so far and the durable state. *)
Lemma history_invariant (P : list Effect -> DurableEpisodeState -> Prop) :
  (forall tools c log s es s', EpInv eid s -> P log s -> call_log eid tools c s es s' ->
     P (log ++ es) s') ->
  forall cs log s es s', EpInv eid s -> P log s -> history cs s es s' -> P (log ++ es) s'.
Proof.
  intros HP cs log s es s' Hi Hp Hh. revert log Hi Hp.
  induction Hh as [s|tools c cs s es s1 es' s' Hc _ IH]; intros log Hi Hp.
  - by rewrite app_nil_r.
  - rewrite (assoc_L (++)). apply IH; [|by eapply HP].
    destruct (call_log_steps _ _ _ _ _ Hi Hc) as [Hr _]. by eapply EpInv_steps.
Qed.

End safety.

(** ** From the runner to histories *)

Section runner.
Context `{Sha256} `{EpisodeRepositoryLaws R} `{ModelGateway M} `{AgentToolGateway T}
  `{AgentRuntimeFaultInjector F}.
Variable eid : EpisodeId.

Lemma run_calls_history cs (w : World R M T F) rev s :
  durable eid w = Some (MkVersioned rev s) -> st_episode_id s = eid ->
  exists es s', history eid cs s es s'
    /\ after eid w es (rev + N.of_nat (length (saved_states es))) s' (run_calls eid cs w).
Proof.
  revert w rev s. induction cs as [|c cs IH]; intros w rev s Hd Hid; cbn.
  - exists [], s. split; [constructor|]. cbn. rewrite N.add_0_r. by apply after_nil.
  - destruct (run_call_refines eid c w rev s Hd Hid) as (es & s1 & Hc & Ha).
    assert (st_episode_id s1 = eid) as Hid1
      by (by rewrite (same_identity_id _ _ (call_log_identity _ _ _ _ _ _ Hc))).
    destruct (IH _ _ _ (proj1 Ha) Hid1) as (es' & s' & Hh & Ha').
    exists (es ++ es'), s'. split; [by econstructor|].
    unfold saved_states in *. rewrite omap_app, length_app, Nat2N.inj_add, N.add_assoc.
    by eapply after_trans.
Qed.

End runner.

(** ** Effects are announced by a durable state *)

(** The saved state that licenses an external effect. *)
Definition announces (s : DurableEpisodeState) (e : Effect) : Prop :=
  match e with
  | EffSave _ => True
  | EffInvoke req =>
      exists a, last (st_attempts s) = Some a /\ at_status a = Attempt.Dispatching
        /\ mr_attempt_id req = Attempt.at_id a
        /\ mr_turn_index req = (N.of_nat (length (st_turns s)) + 1)%N
        /\ mr_input_digest req = st_next_input_digest s
  | EffExecute inv =>
      exists o, o ∈ st_tool_operations s /\ op_status_of o = ToolOp.Dispatching
        /\ ti_operation_id inv = ToolOp.op_id (do_record o) /\ ti_call inv = do_call o
  | EffReconcile inv =>
      exists o, o ∈ st_tool_operations s
        /\ (op_status_of o = ToolOp.Reconciling \/ op_status_of o = ToolOp.Running)
        /\ ti_operation_id inv = ToolOp.op_id (do_record o) /\ ti_call inv = do_call o
  end.

(** Every external effect of a log comes right after a save of a state
    that announces it. *)
Fixpoint announced (prev : option DurableEpisodeState) (es : list Effect) : Prop :=
  match es with
  | [] => True
  | EffSave s :: es => announced (Some s) es
  | e :: es => (exists s, prev = Some s /\ announces s e) /\ announced None es
  end.

Lemma announced_weaken p es : announced None es -> announced p es.
Proof. destruct es as [|[] es]; cbn; try done; by intros [(s & ? & _) _]. Qed.

Lemma announced_app p es es' :
  announced p es -> announced None es' -> announced p (es ++ es').
Proof.
  revert p. induction es as [|e es IH]; intros p; cbn; [intros _; apply announced_weaken|].
  destruct e; cbn; [eauto| | |]; intros [? ?] ?; eauto.
Qed.

(** ** Counting external effects *)

Definition is_invoke (id : ModelAttemptId) (e : Effect) : bool :=
  match e with EffInvoke req => bool_decide (mr_attempt_id req = id) | _ => false end.
Definition any_invoke (e : Effect) : bool :=
  match e with EffInvoke _ => true | _ => false end.
Definition is_execute (id : ToolOperationId) (e : Effect) : bool :=
  match e with EffExecute inv => bool_decide (ti_operation_id inv = id) | _ => false end.
Definition any_execute (e : Effect) : bool :=
  match e with EffExecute _ => true | _ => false end.

(** An attempt that may have been sent; an operation that may have been
    executed. *)
Definition sent (a : Attempt.ModelAttemptRecord) : bool :=
  negb (bool_decide (at_status a = Attempt.Prepared)).
Definition started (o : DurableToolOperation) : bool :=
  match op_status_of o with
  | ToolOp.Requested | ToolOp.AwaitingPermission | ToolOp.Authorized
  | ToolOp.RejectedAsInvalid | ToolOp.Denied => false
  | _ => true
  end.

Section counting.
Context `{Sha256} `{AgentToolGateway T}.
Variable eid : EpisodeId.

Lemma tool_dispatch_announced s s1 i inv st :
  tool_dispatch s s1 i inv st -> announces s1 (tool_effect st inv).
Proof.
  intros (_ & _ & Hb). destruct (begin_tool_spec _ _ _ _ _ Hb) as (o & r & Hi & Hd & -> & -> & ->).
  assert (MkDurableOp r (do_call o) ∈ <[i := MkDurableOp r (do_call o)]> (st_tool_operations s))
    as Hin by by eapply list_elem_of_insert, lookup_lt_Some.
  assert (ToolOp.op_id r = ToolOp.op_id (do_record o)) as Hid
    by (unfold ToolOp.op_id; by destruct Hd as (_ & -> & _)).
  destruct Hd as (_ & _ & _ & _ & Hs). unfold tool_effect, reconciling.
  destruct (ToolOp.op_status (do_record o)) eqn:Eo; try done; rewrite ?Hs, ?Eo;
    exists (MkDurableOp r (do_call o)); unfold op_status_of; cbn; rewrite Hs, ?Eo, Hid; auto.
Qed.

Lemma model_dispatch_announced s s1 req :
  model_dispatch eid s s1 req -> announces s1 (EffInvoke req).
Proof.
  intros (_ & _ & Hb). destruct (begin_dispatch_request _ _ _ _ Hb) as (a & Hl & Hd & -> & _).
  by exists a.
Qed.

Lemma announced_tool s1 st inv es :
  announces s1 (tool_effect st inv) -> announced None es ->
  announced None (EffSave s1 :: tool_effect st inv :: es).
Proof. unfold tool_effect. destruct (reconciling st); cbn; eauto. Qed.

Lemma call_log_announced tools c s es s' :
  call_log eid tools c s es s' -> announced None es.
Proof.
  destruct 1 as [| |? ? ? Hd|? ? ? Hd|? ? ? ? ? ? Hd ?|? ? ? ? ? Hd|? ? ? ? ? Hd
                |? ? ? ? ? ? ? ? Hd ?]; try done.
  - apply model_dispatch_announced in Hd. cbn in *; eauto.
  - apply model_dispatch_announced in Hd. cbn in *; eauto.
  - apply tool_dispatch_announced in Hd. by apply announced_tool.
  - apply tool_dispatch_announced in Hd. by apply announced_tool.
Qed.

Lemma history_announced cs s es s' : history eid cs s es s' -> announced None es.
Proof.
  induction 1 as [|tools c cs s es s1 es' s' Hc _ IH]; [done|].
  apply announced_app; [by eapply call_log_announced|done].
Qed.

(** *** Sent attempts *)

Definition sent_as (id : ModelAttemptId) (a : Attempt.ModelAttemptRecord) : bool :=
  bool_decide (Attempt.at_id a = id) && sent a.

(** A step never takes a sent attempt back. *)
Lemma sent_mono (f : Attempt.ModelAttemptRecord -> bool) s s' :
  (forall a a', at_spec a' = at_spec a -> at_status a' <> Attempt.Prepared ->
     f a = true -> f a' = true) ->
  episode_step eid s s' -> count f (st_attempts s) <= count f (st_attempts s').
Proof.
  intros Hf Hstep.
  assert (forall a a', last (st_attempts s) = Some a -> at_spec a' = at_spec a ->
    at_status a' <> Attempt.Prepared ->
    count f (st_attempts s) <= count f (set_last a' (st_attempts s))) as Hset.
  { intros a a' Hl Hsp Hst. pose proof (count_set_last f _ _ a' Hl) as C.
    specialize (Hf a a' Hsp Hst). destruct (f a); [rewrite Hf in C by done|]; lia. }
  destruct Hstep; try done; cbn.
  - rewrite count_app. lia.
  - match goal with Hu : Attempt.finish_without_response _ _ _ = Ok _ |- _ =>
      apply unanswered_spec in Hu as (_ & Hs & Hsp & _) end. eapply Hset; [done..|by rewrite Hs].
  - match goal with Hu : Attempt.mark_dispatching _ = Ok _ |- _ =>
      apply dispatching_spec in Hu as (_ & Hs & Hsp) end. eapply Hset; [done..|by rewrite Hs].
  - match goal with Hu : fresh_turn _ _ _ _ _ |- _ =>
      apply fresh_turn_spec in Hu as (_ & (_ & Hs & _) & Hsp) end.
    eapply Hset; [done..|by rewrite Hs].
  - match goal with Hu : attempt_end _ _ _ _ _ |- _ =>
      apply attempt_end_spec in Hu as (_ & Hs & Hsp & _) end.
    eapply Hset; [done..|]. intros E. by rewrite E in Hs.
  - match goal with Hu : Attempt.finish_without_response _ _ _ = Ok _ |- _ =>
      apply unanswered_spec in Hu as (_ & Hs & Hsp & _) end. eapply Hset; [done..|by rewrite Hs].
Qed.

Lemma sent_stable a a' :
  at_spec a' = at_spec a -> at_status a' <> Attempt.Prepared -> sent a = true -> sent a' = true.
Proof. intros _ Hs _. unfold sent. by rewrite bool_decide_eq_false_2. Qed.

Lemma sent_as_stable id a a' :
  at_spec a' = at_spec a -> at_status a' <> Attempt.Prepared ->
  sent_as id a = true -> sent_as id a' = true.
Proof.
  unfold sent_as, Attempt.at_id. intros -> Hs [H1 H2]%andb_prop. rewrite H1. cbn.
  unfold sent. by rewrite bool_decide_eq_false_2.
Qed.

(** The dispatch of an attempt counts it as sent. *)
Lemma model_dispatch_sent s s1 req :
  model_dispatch eid s s1 req ->
  (forall id, count (sent_as id) (st_attempts s1)
     = count (sent_as id) (st_attempts s) + if is_invoke id (EffInvoke req) then 1 else 0)
  /\ count sent (st_attempts s1) = count sent (st_attempts s) + 1.
Proof.
  intros (_ & _ & Hb). destruct (begin_dispatch_request _ _ _ _ Hb) as (a1 & Hl1 & _ & -> & _).
  unfold begin_dispatch in Hb. inv_step. case_match; inv_step. cbn in Hl1 |- *.
  rewrite last_set_last in Hl1. injection Hl1 as <-.
  match goal with Hm : Attempt.mark_dispatching ?a = Ok ?a', Hl : last _ = Some ?a |- _ =>
    apply dispatching_spec in Hm as (Hs & Hs' & Hsp);
    assert (sent a = false) as E1 by (unfold sent; by rewrite Hs);
    assert (sent a' = true) as E2 by (unfold sent; by rewrite Hs');
    assert (Attempt.at_id a' = Attempt.at_id a) as E3 by (unfold Attempt.at_id; by rewrite Hsp);
    split; [intros id; pose proof (count_set_last (sent_as id) _ _ a' Hl) as C
           |pose proof (count_set_last sent _ _ a' Hl) as C]
  end.
  - unfold sent_as in C at 2 4. rewrite E1, E2, E3, andb_false_r, andb_true_r in C.
    cbn. rewrite E3. lia.
  - rewrite E1, E2 in C. lia.
Qed.

(** *** Started operations *)

Definition started_as (id : ToolOperationId) (o : DurableToolOperation) : bool :=
  bool_decide (ToolOp.op_id (do_record o) = id) && started o.

Lemma started_mono (f : DurableToolOperation -> bool) s s' :
  (forall o r, ToolOp.op_spec r = ToolOp.op_spec (do_record o) ->
     (started o = true -> started (MkDurableOp r (do_call o)) = true) ->
     f o = true -> f (MkDurableOp r (do_call o)) = true) ->
  EpInv eid s -> episode_step eid s s' ->
  count f (st_tool_operations s) <= count f (st_tool_operations s').
Proof.
  intros Hf Hi Hstep.
  assert (forall i o r, st_tool_operations s !! i = Some o ->
    ToolOp.op_spec r = ToolOp.op_spec (do_record o) ->
    (started o = true -> started (MkDurableOp r (do_call o)) = true) ->
    count f (st_tool_operations s)
    <= count f (<[i := MkDurableOp r (do_call o)]> (st_tool_operations s))) as Hset.
  { intros i o r Hl Hsp Hst. pose proof (count_insert f _ _ _ (MkDurableOp r (do_call o)) Hl) as C.
    specialize (Hf o r Hsp Hst). destruct (f o); [rewrite Hf in C by done|]; lia. }
  assert (forall o r st, (st = ToolOp.Running \/ st = ToolOp.Ambiguous) ->
    ToolOp.op_transition (do_record o) st = Ok r ->
    ToolOp.op_spec r = ToolOp.op_spec (do_record o)
    /\ (started o = true -> started (MkDurableOp r (do_call o)) = true)) as Htr.
  { intros o r st Hst (_ & _ & ->)%ToolOp.op_transition_Ok. split; [done|]. intros _.
    by destruct Hst as [-> | ->]. }
  assert (forall o r, op_still_open (do_record o) r ->
    ToolOp.op_spec r = ToolOp.op_spec (do_record o)
    /\ (started o = true -> started (MkDurableOp r (do_call o)) = true)) as Hopen.
  { intros o r [->|(st & Hst & Ht)]; [by destruct o|by eapply Htr]. }
  destruct Hstep; try done; cbn.
  - rewrite count_app. lia.
  - match goal with Hd : op_dispatched _ _ |- _ => destruct Hd as (_ & Hsp & _ & _ & Hs) end.
    eapply Hset; [done..|]. intros _. unfold started, op_status_of. cbn.
    destruct (ToolOp.op_status (do_record o)); try done; by rewrite Hs.
  - match goal with Hd : ToolOp.op_finish _ _ _ _ = Ok _ |- _ =>
      pose proof Hd as Hd'; apply ToolOp.op_finish_Ok in Hd as (Ht & _ & ->);
      apply op_finish_status in Hd' as (_ & Hsv & _) end.
    2:{ by apply (Forall_lookup_1 _ _ _ _ (inv_ops _ _ Hi) ltac:(eassumption)). }
    eapply Hset; [done..|]. intros _. unfold started, op_status_of. cbn. by destruct st.
  - eapply Hset; [done|by apply Hopen..].
  - eapply Hset; [done|by apply Hopen..].
  - match goal with Hop : _ \/ (exists i o r, _) |- _ =>
      destruct Hop as [->|(i & o & r & Hl & _ & Ht & ->)]; [done|] end.
    eapply Hset; [done|by eapply Htr; eauto..].
Qed.

Lemma started_as_stable id o r :
  ToolOp.op_spec r = ToolOp.op_spec (do_record o) ->
  (started o = true -> started (MkDurableOp r (do_call o)) = true) ->
  started_as id o = true -> started_as id (MkDurableOp r (do_call o)) = true.
Proof.
  unfold started_as, ToolOp.op_id. cbn. intros -> Hs [H1 H2]%andb_prop. rewrite H1. cbn. auto.
Qed.

Lemma tool_dispatch_started s s1 i inv st :
  EpInv eid s -> tool_dispatch s s1 i inv st ->
  (forall id, count (started_as id) (st_tool_operations s)
     + (if is_execute id (tool_effect st inv) then 1 else 0)
     <= count (started_as id) (st_tool_operations s1))
  /\ count started (st_tool_operations s) + (if any_execute (tool_effect st inv) then 1 else 0)
     <= count started (st_tool_operations s1).
Proof.
  intros Hi Hd. pose proof (tool_dispatch_step eid _ _ _ _ _ Hd) as Hstep.
  destruct Hd as (_ & _ & Hb).
  destruct (begin_tool_spec _ _ _ _ _ Hb) as (o & r & Hl & Hd & -> & -> & ->).
  destruct (reconciling (ToolOp.op_status r)) eqn:Hrec; unfold tool_effect; rewrite Hrec.
  { cbn [is_execute any_execute]. rewrite Nat.add_0_r. split; [intros id; rewrite Nat.add_0_r|].
    - eapply started_mono; [apply started_as_stable|done..].
    - eapply started_mono; [by auto|done..]. }
  destruct Hd as (_ & Hsp & _ & _ & Hs).
  assert (ToolOp.op_status (do_record o) = ToolOp.Requested
          /\ ToolOp.op_status r = ToolOp.Dispatching) as [Eo Er].
  { destruct (ToolOp.op_status (do_record o)) eqn:Eo; try done; by rewrite Hs in Hrec. }
  assert (started o = false) as E1 by (unfold started, op_status_of; by rewrite Eo).
  assert (started (MkDurableOp r (do_call o)) = true) as E2
    by (unfold started, op_status_of; cbn; by rewrite Er).
  cbn [st_tool_operations set_ops]. split; [intros id|].
  - pose proof (count_insert (started_as id) _ _ _ (MkDurableOp r (do_call o)) Hl) as C.
    unfold started_as in C at 2 4. rewrite E1, E2, andb_false_r, andb_true_r in C.
    unfold ToolOp.op_id in *. cbn in *. rewrite Hsp in C. lia.
  - pose proof (count_insert started _ _ _ (MkDurableOp r (do_call o)) Hl) as C.
    rewrite E1, E2 in C. cbn. lia.
Qed.

(** *** Counting along a history *)

Lemma call_log_counts (fe : Effect -> bool) (fs : DurableEpisodeState -> nat) tools c s es s' :
  (forall s, fe (EffSave s) = false) ->
  (forall s s', EpInv eid s -> episode_step eid s s' -> fs s <= fs s') ->
  (forall s s1 req, model_dispatch eid s s1 req ->
     fs s + (if fe (EffInvoke req) then 1 else 0) <= fs s1) ->
  (forall s s1 i inv st, EpInv eid s -> tool_dispatch s s1 i inv st ->
     fs s + (if fe (tool_effect st inv) then 1 else 0) <= fs s1) ->
  EpInv eid s -> call_log eid tools c s es s' -> fs s + count fe es <= fs s'.
Proof.
  intros Hsave Hmono Hmodel Htool Hi Hc.
  destruct Hc as [|? ? ? Hq|? ? ? Hd|? ? ? Hd|? ? ? ? ? ? Hd Ho|? ? ? ? ? Hd|? ? ? ? ? Hd
                 |? ? ? ? ? ? ? ? Hd Ho];
    rewrite ?count_cons, ?count_nil, ?Hsave.
  - lia.
  - apply quiet_save_step in Hq; [|done]. specialize (Hmono _ _ Hi Hq). lia.
  - specialize (Hmono _ _ Hi (model_dispatch_step _ _ _ _ Hd)). lia.
  - specialize (Hmodel _ _ _ Hd). lia.
  - pose proof (EpInv_step _ _ _ Hi (model_dispatch_step _ _ _ _ Hd)) as Hi1.
    specialize (Hmodel _ _ _ Hd). specialize (Hmono _ _ Hi1 (model_done_step _ _ _ _ _ _ _ Hd Ho)).
    lia.
  - specialize (Hmono _ _ Hi (tool_dispatch_step _ _ _ _ _ _ Hd)). lia.
  - specialize (Htool _ _ _ _ _ Hi Hd). lia.
  - pose proof (EpInv_step _ _ _ Hi (tool_dispatch_step _ _ _ _ _ _ Hd)) as Hi1.
    specialize (Htool _ _ _ _ _ Hi Hd).
    specialize (Hmono _ _ Hi1 (tool_done_step _ _ _ _ _ _ _ _ _ Hd Ho)). lia.
Qed.

Lemma history_counts (fe : Effect -> bool) (fs : DurableEpisodeState -> nat) cs s es s' :
  (forall s, fe (EffSave s) = false) ->
  (forall s s', EpInv eid s -> episode_step eid s s' -> fs s <= fs s') ->
  (forall s s1 req, model_dispatch eid s s1 req ->
     fs s + (if fe (EffInvoke req) then 1 else 0) <= fs s1) ->
  (forall s s1 i inv st, EpInv eid s -> tool_dispatch s s1 i inv st ->
     fs s + (if fe (tool_effect st inv) then 1 else 0) <= fs s1) ->
  EpInv eid s -> history eid cs s es s' -> fs s + count fe es <= fs s'.
Proof.
  intros H1 H2 H3 H4 Hi Hh. revert Hi.
  induction Hh as [|tools c cs s es s1 es' s' Hc _ IH]; intros Hi; [rewrite count_nil; lia|].
  rewrite count_app. pose proof (call_log_counts fe fs _ _ _ _ _ H1 H2 H3 H4 Hi Hc) as Hcall.
  destruct (call_log_steps _ _ _ _ _ _ Hi Hc) as [Hr _].
  specialize (IH (EpInv_steps _ _ _ Hr Hi)). lia.
Qed.

(** The four counts the theorems use. *)
Lemma history_invokes cs s es s' :
  EpInv eid s -> history eid cs s es s' ->
  (forall id, count (sent_as id) (st_attempts s) + count (is_invoke id) es
     <= count (sent_as id) (st_attempts s'))
  /\ count sent (st_attempts s) + count any_invoke es <= count sent (st_attempts s').
Proof.
  intros Hi Hh.
  assert (forall st inv, any_invoke (tool_effect st inv) = false
    /\ forall id, is_invoke id (tool_effect st inv) = false) as Ht
    by (intros st inv; unfold tool_effect; by destruct (reconciling st)).
  split; [intros id; apply (history_counts (is_invoke id) (fun s => count (sent_as id) (st_attempts s)) cs s es s')
         |apply (history_counts any_invoke (fun s => count sent (st_attempts s)) cs s es s')];
    try done.
  - intros. eapply sent_mono; [apply sent_as_stable|done].
  - intros x y req Hd. by rewrite (proj1 (model_dispatch_sent _ _ _ Hd)).
  - intros x y i inv st Hx Hd. rewrite (proj2 (Ht st inv)), Nat.add_0_r.
    eapply sent_mono; [apply sent_as_stable|by eapply tool_dispatch_step].
  - intros. eapply sent_mono; [apply sent_stable|done].
  - intros x y req Hd. by rewrite (proj2 (model_dispatch_sent _ _ _ Hd)).
  - intros x y i inv st Hx Hd. rewrite (proj1 (Ht st inv)), Nat.add_0_r.
    eapply sent_mono; [apply sent_stable|by eapply tool_dispatch_step].
Qed.

Lemma history_executes cs s es s' :
  EpInv eid s -> history eid cs s es s' ->
  (forall id, count (started_as id) (st_tool_operations s) + count (is_execute id) es
     <= count (started_as id) (st_tool_operations s'))
  /\ count started (st_tool_operations s) + count any_execute es
     <= count started (st_tool_operations s').
Proof.
  intros Hi Hh.
  assert (forall x y req, model_dispatch eid x y req ->
    st_tool_operations y = st_tool_operations x) as Hm.
  { intros x y req (_ & _ & Hb). unfold begin_dispatch in Hb. inv_step. case_match; inv_step. done. }
  split; [intros id; apply (history_counts (is_execute id) (fun s => count (started_as id) (st_tool_operations s)) cs s es s')
         |apply (history_counts any_execute (fun s => count started (st_tool_operations s)) cs s es s')];
    try done.
  - intros. eapply started_mono; [apply started_as_stable|done..].
  - intros x y req Hd. rewrite (Hm _ _ _ Hd). cbn. lia.
  - intros x y i inv st Hx Hd. by apply (proj1 (tool_dispatch_started _ _ _ _ _ Hx Hd)).
  - intros. eapply started_mono; [by auto|done..].
  - intros x y req Hd. rewrite (Hm _ _ _ Hd). cbn. lia.
  - intros x y i inv st Hx Hd. by apply (proj2 (tool_dispatch_started _ _ _ _ _ Hx Hd)).
Qed.

(** *** At most one attempt has an identity *)

Lemma derived_attempt_id_inj n m t :
  derived_model_attempt_id eid n = Ok t -> derived_model_attempt_id eid m = Ok t -> n = m.
Proof.
  unfold derived_model_attempt_id.
  intros Hn%map_err_Ok%parse_id_Ok Hm%map_err_Ok%parse_id_Ok. rewrite Hn in Hm.
  apply string_app_inj_l, string_app_inj_l, string_app_inj_l in Hm. by apply pretty_N_inj.
Qed.

Lemma attempt_ids_unique ri l id :
  indexed (attempt_ok eid ri) l -> count (sent_as id) l <= 1.
Proof.
  intros Hl. assert (count (fun a => bool_decide (Attempt.at_id a = id)) l <= 1) as Hc.
  { induction l as [|a l IH] using rev_ind; [rewrite count_nil; lia|].
    apply indexed_snoc in Hl as [Hl (_ & _ & Ha & _)].
    rewrite count_app, count_cons, count_nil. case_bool_decide as E; [|specialize (IH Hl); lia].
    rewrite count_zero; [lia|]. apply Forall_lookup_2. intros i b Hb.
    apply bool_decide_eq_false_2. intros E'.
    destruct (Hl _ _ Hb) as (_ & _ & Hb' & _). rewrite E in Ha. rewrite E' in Hb'.
    pose proof (derived_attempt_id_inj _ _ _ Ha Hb'). apply lookup_lt_Some in Hb. lia. }
  etrans; [|exact Hc]. clear. induction l as [|a l IH]; [done|].
  rewrite !count_cons. unfold sent_as at 1. destruct (bool_decide _), (sent a); cbn; lia.
Qed.

End counting.
