(* ===== verification/EpisodeRecord.v ===== *)
(** * What was recorded stays recorded

    The durable record of an episode only grows: identities are fixed,
    terminal attempts and operations are never rewritten, turns and
    grants are appended; and which statuses a history can still leave. *)

From stdpp Require Import base strings relations list.
From S2P Require Import Prelude Digest Identity AgentRecord ModelAttempt ModelGateway.
From S2P Require Import LoopPolicy EpisodeState EpisodePorts EpisodeSteps.
From S2P Require Import EpisodeRuntime EpisodeHistory EpisodeRefinement EpisodeProtocol.
From S2P Require Import EpisodeInvariant EpisodeSafety.

Import Attempt(at_status, at_spec, attempt_is_terminal).

(** One attempt, one operation later. *)
Definition attempt_later (a a' : Attempt.ModelAttemptRecord) : Prop :=
  at_spec a' = at_spec a /\ (attempt_is_terminal (at_status a) = true -> a' = a).

Definition op_later (o o' : DurableToolOperation) : Prop :=
  ToolOp.op_spec (do_record o') = ToolOp.op_spec (do_record o) /\ do_call o' = do_call o
  /\ (ToolOp.op_is_terminal (op_status_of o) = true -> o' = o).

(** Every element of [l] is still there, related by [P], in [l']. *)
Definition extends {A} (P : A -> A -> Prop) (l l' : list A) : Prop :=
  forall i x, l !! i = Some x -> exists y, l' !! i = Some y /\ P x y.

Lemma extends_refl {A} (P : A -> A -> Prop) l : Reflexive P -> extends P l l.
Proof. intros HP i x Hx. by exists x. Qed.

Lemma extends_trans {A} (P : A -> A -> Prop) l1 l2 l3 :
  Transitive P -> extends P l1 l2 -> extends P l2 l3 -> extends P l1 l3.
Proof.
  intros HP H1 H2 i x Hx. destruct (H1 i x Hx) as (y & Hy & Hxy).
  destruct (H2 i y Hy) as (z & Hz & Hyz). exists z. split; [done|]. by etrans.
Qed.

Lemma extends_app {A} (P : A -> A -> Prop) l k : Reflexive P -> extends P l (l ++ k).
Proof. intros HP i x Hx. exists x. split; [by apply lookup_app_l_Some|done]. Qed.

Lemma extends_insert {A} (P : A -> A -> Prop) l i x y :
  Reflexive P -> l !! i = Some x -> P x y -> extends P l (<[i := y]> l).
Proof.
  intros HP Hi Hxy j z Hj. destruct (decide (i = j)) as [<-|Hne].
  - simplify_eq. exists y. split; [by eapply list_lookup_insert_eq, lookup_lt_Some|done].
  - exists z. by rewrite list_lookup_insert_ne.
Qed.

Lemma extends_set_last {A} (P : A -> A -> Prop) l x y :
  Reflexive P -> last l = Some x -> P x y -> extends P l (set_last y l).
Proof.
  intros HP [l' ->]%last_Some Hxy i z Hi. rewrite set_last_snoc.
  apply lookup_app_Some in Hi as [Hi|[Hle Hi]].
  - exists z. split; [by apply lookup_app_l_Some|done].
  - apply list_lookup_singleton_Some in Hi as [Hi <-]. exists y. split; [|done].
    rewrite lookup_app_r by done. by rewrite Hi.
Qed.

#[export] Instance attempt_later_preorder : PreOrder attempt_later.
Proof.
  split; [done|]. intros a b c [H1 H2] [H3 H4]. split; [congruence|].
  intros Ht. rewrite H4; [by apply H2|by rewrite H2].
Qed.

#[export] Instance op_later_preorder : PreOrder op_later.
Proof.
  split; [done|]. intros a b c (H1 & H2 & H3) (H4 & H5 & H6). split_and!; [congruence..|].
  intros Ht. rewrite H6; [by apply H3|by rewrite H3].
Qed.

Record grows (s s' : DurableEpisodeState) : Prop := {
  g_identity : same_identity s s';
  g_attempts : extends attempt_later (st_attempts s) (st_attempts s');
  g_turns : st_turns s `prefix_of` st_turns s';
  g_ops : extends op_later (st_tool_operations s) (st_tool_operations s');
  g_grants : st_grants s `prefix_of` st_grants s';
}.

#[export] Instance grows_preorder : PreOrder grows.
Proof.
  split.
  - intros s. split; try done; by apply extends_refl, _.
  - intros a b c [A1 A2 A3 A4 A5] [B1 B2 B3 B4 B5]. split.
    + by etrans.
    + by eapply extends_trans; [apply _| |].
    + by etrans.
    + by eapply extends_trans; [apply _| |].
    + by etrans.
Qed.

Section record.
Context `{Sha256}.
Variable eid : EpisodeId.

Lemma open_attempt_later a a' :
  at_spec a' = at_spec a -> attempt_is_terminal (at_status a) = false -> attempt_later a a'.
Proof. intros Hs Ht. split; [done|congruence]. Qed.

Lemma op_step_later o r :
  ToolOp.op_spec r = ToolOp.op_spec (do_record o) ->
  MkDurableOp r (do_call o) = o \/ ToolOp.op_is_terminal (op_status_of o) = false ->
  op_later o (MkDurableOp r (do_call o)).
Proof. intros Hs [->|Ht]; [done|]. split_and!; [done|done|congruence]. Qed.

(** How a step updates the attempts and the operations. *)
Lemma step_attempts s s' :
  episode_step eid s s' -> extends attempt_later (st_attempts s) (st_attempts s').
Proof.
  intros Hstep. destruct Hstep; cbn; try by apply extends_refl, _.
  - apply extends_app, _.
  - match goal with Hu : Attempt.finish_without_response _ _ _ = Ok _ |- _ =>
      apply unanswered_spec in Hu as (Hs & _ & Hsp & _) end.
    eapply extends_set_last; [apply _|done|]. apply open_attempt_later; [done|by rewrite Hs].
  - match goal with Hu : Attempt.mark_dispatching _ = Ok _ |- _ =>
      apply dispatching_spec in Hu as (Hs & _ & Hsp) end.
    eapply extends_set_last; [apply _|done|]. apply open_attempt_later; [done|by rewrite Hs].
  - match goal with Hu : fresh_turn _ _ _ _ _ |- _ =>
      apply fresh_turn_spec in Hu as (Hs & _ & Hsp) end.
    eapply extends_set_last; [apply _|done|]. apply open_attempt_later; [done|by rewrite Hs].
  - match goal with Hu : attempt_end _ _ _ _ _ |- _ =>
      apply attempt_end_spec in Hu as (Hs & _ & Hsp & _) end.
    eapply extends_set_last; [apply _|done|]. apply open_attempt_later; [done|by rewrite Hs].
  - match goal with Hu : Attempt.finish_without_response _ _ _ = Ok _ |- _ =>
      apply unanswered_spec in Hu as (Hs & _ & Hsp & _) end.
    eapply extends_set_last; [apply _|done|]. apply open_attempt_later; [done|by rewrite Hs].
Qed.

Lemma finish_later o st d rs r :
  ToolOp.op_finish (do_record o) st d rs = Ok r -> op_later o (MkDurableOp r (do_call o)).
Proof.
  intros (Ht & Hc & ->)%ToolOp.op_finish_Ok. apply op_step_later; [done|]. right.
  unfold op_status_of. by destruct (ToolOp.op_status (do_record o)), st.
Qed.

Lemma transition_later o st r :
  ToolOp.op_transition (do_record o) st = Ok r -> op_later o (MkDurableOp r (do_call o)).
Proof.
  intros (Ht & Hc & ->)%ToolOp.op_transition_Ok. apply op_step_later; [done|]. right.
  unfold op_status_of. by destruct (ToolOp.op_status (do_record o)), st.
Qed.

Lemma still_open_later o r :
  op_still_open (do_record o) r -> op_later o (MkDurableOp r (do_call o)).
Proof. intros [->|(st & _ & Ht)]; [by destruct o|by eapply transition_later]. Qed.

Lemma step_ops s s' :
  episode_step eid s s' -> extends op_later (st_tool_operations s) (st_tool_operations s').
Proof.
  intros Hstep. destruct Hstep; cbn; try by apply extends_refl, _.
  - apply extends_app, _.
  - eapply extends_insert; [apply _|done|]. apply op_step_later.
    + by match goal with Hd : op_dispatched _ _ |- _ => destruct Hd as (_ & ? & _) end.
    + right. eapply op_open_source. by left.
  - eapply extends_insert; [apply _|done|by eapply finish_later].
  - eapply extends_insert; [apply _|done|by apply still_open_later].
  - eapply extends_insert; [apply _|done|by apply still_open_later].
  - match goal with Hop : _ \/ (exists i o r, _) |- _ =>
      destruct Hop as [->|(i & o & r & Hi & _ & Ht & ->)] end; [by apply extends_refl, _|].
    eapply extends_insert; [apply _|done|by eapply transition_later].
Qed.

Lemma step_grows s s' : episode_step eid s s' -> grows s s'.
Proof.
  intros Hstep. split.
  - destruct Hstep; done.
  - by apply step_attempts.
  - destruct Hstep; cbn; try done. by eexists.
  - by apply step_ops.
  - destruct Hstep; cbn; try done. by eexists.
Qed.

Lemma steps_grow s s' : rtc (episode_step eid) s s' -> grows s s'.
Proof. induction 1; [done|]. etrans; [by apply step_grows|done]. Qed.

End record.

(** ** Closed statuses and cancellation *)

Definition is_resume (c : Call) : bool :=
  match c with CallResume _ => true | _ => false end.

(** A call that finds nothing to do. *)
Definition never_reopened (st : Episode.EpisodeStatus) : bool :=
  match st with Episode.Succeeded | Episode.Cancelled => true | _ => false end.

Section closed.
Context `{Sha256} `{AgentToolGateway T}.
Variable eid : EpisodeId.

Lemma call_log_terminal tools c s es s' :
  Episode.episode_is_terminal (st_status s) = true ->
  never_reopened (st_status s) = true \/ is_resume c = false ->
  call_log eid tools c s es s' -> es = [] /\ s' = s.
Proof.
  intros Ht Hc Hl. destruct Hl as [|? ? ? Hq|? ? ? Hd|? ? ? Hd|? ? ? ? ? ? Hd ?|? ? ? ? ? Hd
    |? ? ? ? ? Hd|? ? ? ? ? ? ? ? Hd ?]; try done;
    try (destruct Hd as (Hst & _); by rewrite Hst in Ht).
  exfalso.
  destruct Hq as [? ? ? Hst|? ? ? Hst|? ? ? ? Hst|? ? ? Hst|? ? ? Hst|? ? ? Hst|? ? ? Hst
    |? ? ? _ _ Hr|? ? Hn|? ? ? Hr]; try (by rewrite Hst in Ht); try congruence.
  - destruct Hc as [Hc|Hc]; [|done]. unfold resume_state in Hr.
    apply result_bind_Ok in Hr as (e & He%map_err_Ok & _).
    apply Episode.episode_resume_Ok in He as [He _].
    fold (st_status s) in He. by destruct (st_status s).
  - unfold reconcile_state in Hr.
    apply result_bind_Ok in Hr as (u & Hb%map_err_Ok%guard_err_Ok & _).
    apply bool_decide_eq_false, dec_stable in Hb. by rewrite Hb in Ht.
Qed.

Lemma history_terminal cs s es s' :
  Episode.episode_is_terminal (st_status s) = true ->
  never_reopened (st_status s) = true \/ Forall (fun c => is_resume c = false) cs ->
  history eid cs s es s' -> es = [] /\ s' = s.
Proof.
  intros Ht Hc Hh. revert Ht Hc.
  induction Hh as [|tools c cs s es s1 es' s' Hl _ IH]; intros Ht Hc; [done|].
  apply call_log_terminal in Hl as [-> ->]; [|done|].
  - apply IH; [done|]. destruct Hc as [|Hc]; [by left|right]. by apply Forall_cons in Hc as [_ ?].
  - destruct Hc as [|Hc]; [by left|right]. by apply Forall_cons in Hc as [? _].
Qed.

(** After a cancellation request no attempt is prepared or sent, until an
    operator resumes the episode. *)
Definition cancelled_quietly (s : DurableEpisodeState) : Prop :=
  st_cancellation_requested s = true /\ st_status s <> Episode.ModelAttemptPending.

Lemma step_cancelled s s' :
  EpInv eid s -> episode_step eid s s' ->
  (forall g, st_grants s' <> st_grants s ++ [g]) ->
  cancelled_quietly s -> cancelled_quietly s' /\ length (st_attempts s') = length (st_attempts s).
Proof.
  intros Hi Hstep Hg [Hc Hs]. unfold cancelled_quietly.
  destruct Hstep; cbn in *; try congruence;
    try (split; [split; [done|first [done|exact Hs]]|done]).
  - exfalso. by eapply Hg.
  - match goal with Hn : match ?n with _ => _ end |- _ => destruct n end; try done;
      by destruct_and!.
Qed.

Lemma step_grants s s' :
  episode_step eid s s' -> Episode.episode_is_terminal (st_status s) = false ->
  st_grants s' = st_grants s.
Proof.
  intros Hstep Ht. destruct Hstep; try done.
  by match goal with Hr : Episode.episode_resumable _ = true |- _ =>
    apply Episode.episode_resumable_terminal in Hr; congruence end.
Qed.

Lemma call_log_grants tools c s es s' :
  EpInv eid s -> is_resume c = false -> call_log eid tools c s es s' ->
  st_grants s' = st_grants s.
Proof.
  intros Hi Hc Hl. destruct (Episode.episode_is_terminal (st_status s)) eqn:Ht.
  { apply call_log_terminal in Hl as [_ ->]; auto. }
  assert (forall s1 req, model_dispatch eid s s1 req -> st_grants s1 = st_grants s
    /\ Episode.episode_is_terminal (st_status s1) = false) as Hm.
  { intros s1 req Hd. split; [eapply step_grants; [by eapply model_dispatch_step|done]|].
    destruct Hd as (_ & _ & Hb). destruct (begin_dispatch_request _ _ _ _ Hb) as (? & _ & _ & _ & E).
    by rewrite E. }
  assert (forall s1 i inv st, tool_dispatch s s1 i inv st -> st_grants s1 = st_grants s
    /\ Episode.episode_is_terminal (st_status s1) = false) as Htl.
  { intros s1 i inv st Hd. split; [eapply step_grants; [by eapply tool_dispatch_step|done]|].
    destruct Hd as (_ & _ & Hb). by destruct (begin_tool_spec _ _ _ _ _ Hb) as (? & ? & _ & _ & -> & _). }
  destruct Hl as [|? ? ? Hq|? ? ? Hd|? ? ? Hd|? ? ? ? ? ? Hd Ho|? ? ? ? ? Hd
    |? ? ? ? ? Hd|? ? ? ? ? ? ? ? Hd Ho]; try done; try (by eapply Hm); try (by eapply Htl).
  - eapply step_grants; [by eapply quiet_save_step|done].
  - destruct (Hm _ _ Hd) as [<- Ht1].
    eapply step_grants; [by eapply model_done_step|done].
  - destruct (Htl _ _ _ _ Hd) as [<- Ht1].
    eapply step_grants; [by eapply tool_done_step|done].
Qed.

Lemma steps_cancelled s s' :
  rtc (episode_step eid) s s' -> EpInv eid s -> st_grants s' = st_grants s ->
  cancelled_quietly s -> cancelled_quietly s' /\ length (st_attempts s') = length (st_attempts s).
Proof.
  induction 1 as [s|x y z Hxy Hyz IH]; intros Hi Hg Hc; [done|].
  pose proof (g_grants _ _ (step_grows eid _ _ Hxy)) as P1.
  pose proof (g_grants _ _ (steps_grow eid _ _ Hyz)) as P2.
  rewrite Hg in P2. apply prefix_length in P2 as L2.
  assert (st_grants y = st_grants x) as Ey.
  { destruct P1 as [k Hk]. rewrite Hk in L2 |- *. rewrite length_app in L2.
    destruct k; [by rewrite app_nil_r|cbn in L2; lia]. }
  destruct (step_cancelled x y Hi Hxy) as [Hcy Hly].
  - intros g Hne. rewrite Ey in Hne. apply (f_equal length) in Hne.
    rewrite length_app in Hne. cbn in Hne. lia.
  - done.
  - destruct IH as [Hcz Hlz]; [by eapply EpInv_step|congruence|done|]. split; [done|congruence].
Qed.

Lemma EpInv_cancelled s :
  EpInv eid s -> st_cancellation_requested s = true -> cancelled_quietly s.
Proof.
  intros Hi Hc. split; [done|]. intros Hst. pose proof (inv_status _ _ Hi) as Hs.
  unfold status_inv in Hs. rewrite Hst in Hs. destruct Hs as (_ & _ & Hf & _). congruence.
Qed.

Lemma history_cancelled cs s es s' :
  EpInv eid s -> Forall (fun c => is_resume c = false) cs -> cancelled_quietly s ->
  history eid cs s es s' ->
  cancelled_quietly s' /\ length (st_attempts s') = length (st_attempts s)
  /\ count any_invoke es = 0.
Proof.
  intros Hi Hcs Hc Hh. revert Hi Hcs Hc.
  induction Hh as [s|tools c cs s es s1 es' s' Hl _ IH]; intros Hi Hcs Hc; [done|].
  apply Forall_cons in Hcs as [Hnr Hcs].
  destruct (call_log_steps _ _ _ _ _ _ Hi Hl) as [Hr _].
  destruct (steps_cancelled _ _ Hr Hi (call_log_grants _ _ _ _ _ Hi Hnr Hl) Hc) as [Hc1 L1].
  destruct (IH (EpInv_steps _ _ _ Hr Hi) Hcs Hc1) as (Hc' & L' & I').
  split_and!; [done|congruence|]. rewrite count_app, I', Nat.add_0_r.
  destruct Hl as [|? ? ? Hq|? ? ? Hd|? ? ? Hd|? ? ? ? ? ? Hd ?|? ? ? ? ? Hd|? ? ? ? ? Hd
    |? ? ? ? ? ? ? ? Hd ?]; try done;
    try (destruct Hd as (Hst & _); by destruct Hc as [_ []]);
    unfold tool_effect; by destruct (reconciling _).
Qed.

End closed.
