(* ===== verification/EpisodeTheorems.v ===== *)
(** * What the episode runtime guarantees

    The properties of the runner, over any repository that satisfies the
    laws, any model and tool adapters, any injected crashes and any
    sequence of calls; and a scripted run on which each is exercised. *)

From stdpp Require Import base strings gmap relations list.
From S2P Require Import Prelude Digest Encoding Identity AgentRecord ModelAttempt ModelGateway.
From S2P Require Import LoopPolicy EpisodeState Fixtures EpisodePorts.
From S2P Require Import EpisodeSteps EpisodeRuntime EpisodeHistory EpisodeRefinement.
From S2P Require Import EpisodeProtocol EpisodeInvariant EpisodeSafety EpisodeRecord.

Import Attempt(at_status, at_spec, attempt_is_terminal).

(** ** A scripted run *)

Section sample.
Local Existing Instance toy_sha.

Definition verify_call : GatewayToolCall := MkToolCall "call-1" "verify" (as_bytes "{}").

Definition turn_with_tool : GatewayTurnExchange :=
  MkExchange (MkGatewayTurn ["checking"] [verify_call] ToolCalls None)
    (digest_of "raw-1") (digest_of "continuation-1").

Definition turn_without_tool : GatewayTurnExchange :=
  MkExchange (MkGatewayTurn ["done"] [] Stop None) (digest_of "raw-2") (digest_of "continuation-2").

Definition second_input : Sha256Digest :=
  derive_model_continuation_input_digest (digest_of "continuation-1") [digest_of "verdict"].

Definition sample_models : list ScriptedGatewayStep :=
  [MkScriptedGatewayStep 1 (digest_of "input") (OTurn turn_with_tool);
   MkScriptedGatewayStep 2 second_input (OTurn turn_without_tool)].

Definition sample_tools : ScriptedFakeToolGateway :=
  MkScriptedTools
    {["verify" := MkDescriptor "verify" "v1" ToolOp.AuthorityRequest ToolOp.VerifiedReference]}
    [MkScriptedToolStep Execute "verify"
       (TCompleted ToolOp.Succeeded (digest_of "verdict") [digest_of "receipt"] true)] [].

Definition SampleWorld : Type :=
  World InMemoryEpisodeRepository (list ScriptedGatewayStep) ScriptedFakeToolGateway
    NoAgentRuntimeFault.

Definition sample_world : SampleWorld :=
  MkWorld {[sample_episode_id := MkVersioned 0 sample_state]} sample_models sample_tools NoFault [].

(** Start, prepare, send, plan, run the tool, settle, prepare, send, stop,
    review. *)
Definition sample_calls : list Call := replicate 10 CallAdvance.

Lemma sample_succeeds :
  st_status <$> (ve_state <$> durable sample_episode_id
    (run_calls sample_episode_id sample_calls sample_world)) = Some Episode.Succeeded.
Proof. vm_compute. reflexivity. Qed.

End sample.

(** ** The guarantees *)

Section guarantees.
Context `{Sha256} `{EpisodeRepositoryLaws R} `{ModelGateway M} `{AgentToolGateway T}
  `{AgentRuntimeFaultInjector F}.
Variable eid : EpisodeId.

(** A world in which the episode was just created. *)
Definition launched (spec : AgentLoopRuntimeSpec) (w : World R M T F) : Prop :=
  Episode.ep_id (rs_episode spec) = eid
  /\ Episode.ep_status (rs_episode spec) = Episode.Created
  /\ (exists s, state_new spec = Ok s /\ durable eid w = Some (MkVersioned 0 s))
  /\ w_log w = [].

Lemma launched_history spec w cs :
  launched spec w ->
  exists s0 rev s, state_new spec = Ok s0 /\ EpInv eid s0
    /\ durable eid (run_calls eid cs w) = Some (MkVersioned rev s)
    /\ history eid cs s0 (w_log (run_calls eid cs w)) s
    /\ EpInv eid s /\ Forall (EpInv eid) (saved_states (w_log (run_calls eid cs w))).
Proof.
  intros (Hid & Hst & (s0 & Hn & Hd) & Hlog).
  pose proof (EpInv_new eid _ _ Hn Hid Hst) as Hi.
  destruct (run_calls_history eid cs w 0 s0 Hd (inv_id _ _ Hi)) as (es & s & Hh & Ha & _ & Hl).
  rewrite Hlog in Hl. cbn in Hl. rewrite Hl.
  destruct (history_steps _ _ _ _ _ Hi Hh) as (_ & Hi' & Hf).
  do 3 eexists. by split_and!.
Qed.

(** C7 Refinement: whatever the adapters answer, wherever a crash is
    injected and whichever save fails, any sequence of calls of the
    runner is a history of the abstract protocol: the log grows by
    exactly its effects, the durable state is its last saved state, the
    revision counts its saves, and no other episode is touched. *)
Theorem runner_refines_history (cs : list Call) (w : World R M T F) (rev : N)
    (s : DurableEpisodeState)
    (Hd : durable eid w = Some (MkVersioned rev s)) (Hid : st_episode_id s = eid) :
  exists es s', history eid cs s es s'
    /\ durable eid (run_calls eid cs w)
       = Some (MkVersioned (rev + N.of_nat (length (saved_states es))) s')
    /\ w_log (run_calls eid cs w) = w_log w ++ es
    /\ forall id, id <> eid ->
         repo_view (w_repo (run_calls eid cs w)) id = repo_view (w_repo w) id.
Proof.
  destruct (run_calls_history eid cs w rev s Hd Hid) as (es & s' & Hh & Ha & Hv & Hl).
  exists es, s'. by split_and!.
Qed.

(** C6 The durable state of an episode satisfies the invariant after any
    sequence of calls, and so did every state ever saved on the way:
    attempts and turns are numbered and bound to each other and to the
    pinned model, operations come from recorded calls, and each status
    leaves open exactly what it may. *)
Theorem durable_state_invariant (spec : AgentLoopRuntimeSpec) (w : World R M T F)
    (cs : list Call) (Hl : launched spec w) :
  (exists rev s, durable eid (run_calls eid cs w) = Some (MkVersioned rev s) /\ EpInv eid s)
  /\ Forall (EpInv eid) (saved_states (w_log (run_calls eid cs w))).
Proof. destruct (launched_history spec w cs Hl) as (s0 & rev & s & ?). naive_solver. Qed.

(** C5 No external effect without a durable announcement: in the log of
    any history, every model request and every tool call comes right
    after the commit of a state that shows it as dispatched, with the
    same identity, input and arguments. *)
Theorem effects_follow_their_commit (spec : AgentLoopRuntimeSpec) (w : World R M T F)
    (cs : list Call) (Hl : launched spec w) :
  announced None (w_log (run_calls eid cs w)).
Proof.
  destruct (launched_history spec w cs Hl) as (s0 & rev & s & _ & _ & _ & Hh & _).
  by eapply history_announced.
Qed.

(** C4 At most once, across crashes and restarts: no model attempt is
    ever sent twice, and no tool operation is executed more often than it
    was planned (an operation found in flight is only reconciled). *)
Theorem effects_at_most_once (spec : AgentLoopRuntimeSpec) (w : World R M T F)
    (cs : list Call) (Hl : launched spec w) :
  (forall id, count (is_invoke id) (w_log (run_calls eid cs w)) <= 1)
  /\ exists rev s, durable eid (run_calls eid cs w) = Some (MkVersioned rev s)
     /\ forall id, count (is_execute id) (w_log (run_calls eid cs w))
          <= count (fun o => bool_decide (ToolOp.op_id (do_record o) = id)) (st_tool_operations s).
Proof.
  destruct (launched_history spec w cs Hl) as (s0 & rev & s & Hn & Hi0 & Hd & Hh & Hi & _).
  pose proof (history_invokes _ _ _ _ _ Hi0 Hh) as [Hinv _].
  pose proof (history_executes _ _ _ _ _ Hi0 Hh) as [Hexe _].
  split.
  - intros id. specialize (Hinv id).
    pose proof (attempt_ids_unique _ _ _ id (inv_attempts _ _ Hi)). lia.
  - exists rev, s. split; [done|]. intros id. specialize (Hexe id).
    enough (count (started_as id) (st_tool_operations s)
      <= count (fun o => bool_decide (ToolOp.op_id (do_record o) = id)) (st_tool_operations s))
      by lia.
    apply count_le. intros o. unfold started_as. by intros [? _]%andb_prop.
Qed.

(** C8 Spending is capped: over a whole history the model requests sent
    and the tool operations executed are at most the largest allowances
    the policy or an operator's grant ever gave; recorded attempts, turns
    and operations are too; and the rules hold: no turn has more
    operations than a legal turn, and stop feedback stays within its
    limit. *)
Theorem spending_is_capped (spec : AgentLoopRuntimeSpec) (w : World R M T F)
    (cs : list Call) (Hl : launched spec w) :
  exists rev s, durable eid (run_calls eid cs w) = Some (MkVersioned rev s)
    /\ (N.of_nat (count any_invoke (w_log (run_calls eid cs w)))
        <= N.of_nat (length (st_attempts s)) <= ever a_max_model_attempts s)%N
    /\ (N.of_nat (count any_execute (w_log (run_calls eid cs w)))
        <= N.of_nat (length (st_tool_operations s)) <= ever a_max_total_tool_operations s)%N
    /\ (N.of_nat (length (st_turns s)) <= ever a_max_model_turns s)%N
    /\ (forall t, N.of_nat (count (of_turn t) (st_tool_operations s))
        <= r_max_tool_calls_per_turn (policy_rules (rs_policy spec)))%N
    /\ (st_stop_feedback_turns s <= r_max_stop_feedback_turns (policy_rules (rs_policy spec)))%N.
Proof.
  destruct (launched_history spec w cs Hl) as (s0 & rev & s & Hn & Hi0 & Hd & Hh & Hi & _).
  pose proof (history_invokes _ _ _ _ _ Hi0 Hh) as [_ Hinv].
  pose proof (history_executes _ _ _ _ _ Hi0 Hh) as [_ Hexe].
  pose proof (count_le_length sent (st_attempts s)).
  pose proof (count_le_length started (st_tool_operations s)).
  destruct (inv_budget _ _ Hi) as (B1 & B2 & B3 & _).
  destruct (inv_width _ _ Hi) as [W1 _]. destruct (inv_counters _ _ Hi) as (_ & _ & C3).
  destruct (history_steps _ _ _ _ _ Hi0 Hh) as (Hr & _ & _).
  destruct (g_identity _ _ (steps_grow eid _ _ Hr)) as (_ & _ & _ & _ & Hrules).
  apply guard_bind_Ok in Hn as [_ [= <-]]. cbn in Hrules. rewrite <-Hrules.
  exists rev, s. split_and!; [done|lia|done|lia|done|done|exact W1|exact C3].
Qed.

(** C9 Success is verified: an episode whose durable status is
    [Succeeded] holds a finished tool operation, from a call of one of
    its recorded turns, whose result has the authority of a verified
    reference; and nothing of it is still open. *)
Theorem success_is_verified (spec : AgentLoopRuntimeSpec) (w : World R M T F)
    (cs : list Call) (rev : N) (s : DurableEpisodeState) (Hl : launched spec w)
    (Hd : durable eid (run_calls eid cs w) = Some (MkVersioned rev s))
    (Hs : st_status s = Episode.Succeeded) :
  (exists o t, o ∈ st_tool_operations s /\ t ∈ st_turns s
     /\ ToolOp.op_turn_id (do_record o) = tr_id (dt_record t)
     /\ do_call o ∈ gt_tool_calls (dt_semantic_turn t)
     /\ ToolOp.op_result_authority (do_record o) = ToolOp.VerifiedReference
     /\ op_status_of o <> ToolOp.RejectedAsInvalid
     /\ is_Some (ToolOp.op_result_digest (do_record o)))
  /\ Forall (fun a => attempt_is_terminal (at_status a) = true) (st_attempts s)
  /\ Forall (fun o => ToolOp.op_is_terminal (op_status_of o) = true) (st_tool_operations s).
Proof.
  destruct (launched_history spec w cs Hl) as (s0 & rev' & s' & _ & _ & Hd' & _ & Hi & _).
  rewrite Hd in Hd'. simplify_eq.
  pose proof (inv_status _ _ Hi) as Hst. unfold status_inv in Hst. rewrite Hs in Hst.
  destruct Hst as (Hq & Ht & Hsat). split; [|done].
  destruct (inv_satisfied _ _ Hi Hsat) as (o & Ho & Ha & Hterm & Hr).
  pose proof (inv_ops _ _ Hi) as Hops. rewrite Forall_forall in Hops.
  destruct (Hops o Ho) as ((_ & _ & _ & t & Hin & Ht1 & Hc) & Hwf & _).
  exists o, t. split_and!; try done. by apply Hwf.
Qed.

(** C12 What was recorded stays recorded: between any two points of a
    history the identity and the rules are the same, attempts keep their
    specification and terminal ones everything, turns and grants are only
    appended, and operations keep their call and, once terminal, their
    result and receipts. *)
Theorem record_is_append_only (spec : AgentLoopRuntimeSpec) (w : World R M T F)
    (cs cs' : list Call) (rev rev' : N) (s s' : DurableEpisodeState) (Hl : launched spec w)
    (Hd : durable eid (run_calls eid cs w) = Some (MkVersioned rev s))
    (Hd' : durable eid (run_calls eid cs' (run_calls eid cs w)) = Some (MkVersioned rev' s')) :
  grows s s' /\ (rev <= rev')%N.
Proof.
  destruct (launched_history spec w cs Hl) as (s0 & r1 & s1 & _ & _ & Hd1 & _ & Hi & _).
  rewrite Hd in Hd1. simplify_eq.
  destruct (run_calls_history eid cs' _ _ _ Hd (inv_id _ _ Hi)) as (es & s2 & Hh & Ha & _).
  rewrite Hd' in Ha. simplify_eq.
  destruct (history_steps _ _ _ _ _ Hi Hh) as (Hr & _).
  split; [by eapply steps_grow|lia].
Qed.

(** C10 Closed is closed: once [Succeeded] or [Cancelled] is durable, no
    call whatsoever changes the state or causes an effect; the other
    terminal statuses can be left only by an operator's [resume]. *)
Theorem terminal_is_closed (spec : AgentLoopRuntimeSpec) (w : World R M T F)
    (cs cs' : list Call) (rev : N) (s : DurableEpisodeState) (Hl : launched spec w)
    (Hd : durable eid (run_calls eid cs w) = Some (MkVersioned rev s))
    (Ht : Episode.episode_is_terminal (st_status s) = true)
    (Hc : st_status s = Episode.Succeeded \/ st_status s = Episode.Cancelled
          \/ Forall (fun c => is_resume c = false) cs') :
  let w' := run_calls eid cs' (run_calls eid cs w) in
  durable eid w' = Some (MkVersioned rev s) /\ w_log w' = w_log (run_calls eid cs w).
Proof.
  destruct (launched_history spec w cs Hl) as (s0 & r1 & s1 & _ & _ & Hd1 & _ & Hi & _).
  rewrite Hd in Hd1. simplify_eq.
  destruct (run_calls_history eid cs' _ _ _ Hd (inv_id _ _ Hi)) as (es & s2 & Hh & Ha & _ & Hlog).
  apply history_terminal in Hh as [-> ->]; [|done|].
  - cbn in *. rewrite N.add_0_r in Ha. rewrite app_nil_r in Hlog. done.
  - destruct Hc as [-> |[-> |Hc]]; auto.
Qed.

(** C11 A cancellation request is final for the model: from the moment it
    is durable, no model attempt is prepared or sent any more, until an
    operator resumes the episode. *)
Theorem cancellation_stops_model_requests (spec : AgentLoopRuntimeSpec) (w : World R M T F)
    (cs cs' : list Call) (rev : N) (s : DurableEpisodeState) (Hl : launched spec w)
    (Hd : durable eid (run_calls eid cs w) = Some (MkVersioned rev s))
    (Hc : st_cancellation_requested s = true)
    (Hcs : Forall (fun c => is_resume c = false) cs') :
  exists rev' s' es,
    durable eid (run_calls eid cs' (run_calls eid cs w)) = Some (MkVersioned rev' s')
    /\ w_log (run_calls eid cs' (run_calls eid cs w)) = w_log (run_calls eid cs w) ++ es
    /\ st_cancellation_requested s' = true
    /\ length (st_attempts s') = length (st_attempts s)
    /\ count any_invoke es = 0.
Proof.
  destruct (launched_history spec w cs Hl) as (s0 & r1 & s1 & _ & _ & Hd1 & _ & Hi & _).
  rewrite Hd in Hd1. simplify_eq.
  destruct (run_calls_history eid cs' _ _ _ Hd (inv_id _ _ Hi)) as (es & s2 & Hh & Ha & _ & Hlog).
  destruct (history_cancelled eid _ _ _ _ Hi Hcs (EpInv_cancelled _ _ Hi Hc) Hh) as ((Hc' & _) & L & I).
  do 3 eexists. by split_and!.
Qed.

End guarantees.

(** ** Witnesses: the guarantees on the scripted run *)

Section witnesses.
Local Existing Instance toy_sha.

Lemma sample_launched : launched sample_episode_id sample_runtime_spec sample_world.
Proof. split_and!; [done|done| |done]. exists sample_state. by split. Qed.

(** The state at the end of the scripted run. *)
Definition sample_final : VersionedEpisodeState :=
  default (MkVersioned 0 sample_state) (durable sample_episode_id (run_calls sample_episode_id sample_calls sample_world)).

Lemma sample_durable : durable sample_episode_id (run_calls sample_episode_id sample_calls sample_world)
  = Some (MkVersioned (ve_revision sample_final) (ve_state sample_final)).
Proof. vm_compute. reflexivity. Qed.

Lemma sample_final_status : st_status (ve_state sample_final) = Episode.Succeeded.
Proof. vm_compute. reflexivity. Qed.

(** The run cancelled while its tool is being planned. *)
Definition cancelled_world : SampleWorld :=
  run_calls sample_episode_id (replicate 3 CallAdvance ++ [CallCancel]) sample_world.

Definition cancelled_final : VersionedEpisodeState :=
  default (MkVersioned 0 sample_state) (durable sample_episode_id cancelled_world).

Lemma runner_refines_history_witness :
  exists es s', history sample_episode_id sample_calls sample_state es s'
    /\ w_log (run_calls sample_episode_id sample_calls sample_world) = es.
Proof.
  destruct (runner_refines_history sample_episode_id sample_calls sample_world 0 sample_state)
    as (es & s' & Hh & _ & Hl & _).
  - vm_compute. reflexivity.
  - vm_compute. reflexivity.
  - exists es, s'. split; [exact Hh|exact Hl].
Defined.

Lemma durable_state_invariant_witness :
  Forall (EpInv sample_episode_id) (saved_states (w_log (run_calls sample_episode_id sample_calls sample_world))).
Proof.
  exact (proj2 (durable_state_invariant sample_episode_id sample_runtime_spec sample_world
    sample_calls sample_launched)).
Defined.

Lemma effects_follow_their_commit_witness : announced None (w_log (run_calls sample_episode_id sample_calls sample_world)).
Proof.
  exact (effects_follow_their_commit sample_episode_id sample_runtime_spec sample_world
    sample_calls sample_launched).
Defined.

(** The identities of the attempts the run made. *)
Definition sample_attempt_ids : list ModelAttemptId :=
  map (fun a => Attempt.as_id (at_spec a)) (st_attempts (ve_state sample_final)).

Lemma effects_at_most_once_witness :
  exists a b, sample_attempt_ids = [a; b]
    /\ count (is_invoke a) (w_log (run_calls sample_episode_id sample_calls sample_world)) <= 1
    /\ count (is_invoke b) (w_log (run_calls sample_episode_id sample_calls sample_world)) <= 1.
Proof.
  pose proof (proj1 (effects_at_most_once sample_episode_id sample_runtime_spec sample_world
    sample_calls sample_launched)) as Hone.
  do 2 eexists. split; [vm_compute; reflexivity|]. split; apply Hone.
Defined.

Lemma spending_is_capped_witness :
  exists rev s, durable sample_episode_id (run_calls sample_episode_id sample_calls sample_world) = Some (MkVersioned rev s)
    /\ (N.of_nat (length (st_turns s)) <= ever a_max_model_turns s)%N.
Proof.
  destruct (spending_is_capped sample_episode_id sample_runtime_spec sample_world
    sample_calls sample_launched) as (rev & s & Hd & _ & _ & Ht & _).
  exists rev, s. split; [exact Hd|exact Ht].
Defined.

Lemma success_is_verified_witness :
  Forall (fun o => ToolOp.op_is_terminal (op_status_of o) = true)
    (st_tool_operations (ve_state sample_final)).
Proof.
  exact (proj2 (proj2 (success_is_verified sample_episode_id sample_runtime_spec sample_world
    sample_calls _ _ sample_launched sample_durable sample_final_status))).
Defined.

Lemma record_is_append_only_witness :
  exists rev s, durable sample_episode_id (run_calls sample_episode_id (replicate 3 CallAdvance)
      sample_world) = Some (MkVersioned rev s) /\ grows s (ve_state sample_final).
Proof.
  pose (w := run_calls sample_episode_id (replicate 3 CallAdvance) sample_world).
  pose (v := default (MkVersioned 0 sample_state) (durable sample_episode_id w)).
  exists (ve_revision v), (ve_state v). split; [vm_compute; reflexivity|].
  refine (proj1 (record_is_append_only sample_episode_id sample_runtime_spec sample_world
    (replicate 3 CallAdvance) (replicate 7 CallAdvance) (ve_revision v)
    (ve_revision sample_final) (ve_state v) (ve_state sample_final) sample_launched _ _));
    vm_compute; reflexivity.
Defined.

Lemma terminal_is_closed_witness :
  durable sample_episode_id (run_calls sample_episode_id
    [CallCancel; CallResume (policy_allowance sample_policy); CallAdvance] (run_calls sample_episode_id sample_calls sample_world))
  = Some (MkVersioned (ve_revision sample_final) (ve_state sample_final)).
Proof.
  refine (proj1 (terminal_is_closed sample_episode_id sample_runtime_spec sample_world
    sample_calls _ _ _ sample_launched sample_durable _ (or_introl sample_final_status))).
  vm_compute. reflexivity.
Defined.

Lemma cancellation_stops_model_requests_witness :
  exists rev s, durable sample_episode_id (run_calls sample_episode_id
      (replicate 5 CallAdvance) cancelled_world) = Some (MkVersioned rev s)
    /\ length (st_attempts s) = 1.
Proof.
  destruct (cancellation_stops_model_requests sample_episode_id sample_runtime_spec sample_world
    (replicate 3 CallAdvance ++ [CallCancel]) (replicate 5 CallAdvance)
    (ve_revision cancelled_final) (ve_state cancelled_final) sample_launched)
    as (rev & s & es & Hd & _ & _ & Hl & _).
  - vm_compute. reflexivity.
  - vm_compute. reflexivity.
  - repeat constructor.
  - exists rev, s. split; [exact Hd|]. rewrite Hl. vm_compute. reflexivity.
Defined.

End witnesses.
