(* ===== verification/EpisodeFaults.v ===== *)
(** * Why a call of the runner may fail

    Every error of the four calls, from every reachable state, comes
    from outside the reducer: from an adapter, from what a model or a
    tool answered, or from a request its caller should not have made.
    No reachable state makes the reducer panic, miss a record it needs,
    refuse its own transition or fail to derive an identity. *)

From stdpp Require Import base strings list.
From S2P Require Import Prelude Digest Encoding Identity AgentRecord ModelAttempt ModelGateway.
From S2P Require Import LoopPolicy EpisodeState Fixtures EpisodePorts.
From S2P Require Import EpisodeSteps EpisodeRuntime EpisodeHistory EpisodeRefinement.
From S2P Require Import EpisodeProtocol EpisodeInvariant EpisodeSafety EpisodeTheorems.

From S2P Require Import EpisodeRecord.

Import Attempt(at_status, at_spec, attempt_is_terminal).

(** ** Computations that fail only as foreseen *)

Definition fails_only {A} (P : Fault -> Prop) (r : result Fault A) : Prop :=
  match r with Ok _ => True | Err f => P f end.

Section rules.
Context {A B : Type} (P : Fault -> Prop).

Lemma fails_bind (r : result Fault A) (k : A -> result Fault B) :
  fails_only P r -> (forall a, r = Ok a -> fails_only P (k a)) -> fails_only P (r ≫= k).
Proof. destruct r; cbn; auto. Qed.

Lemma fails_ok (r : result Fault A) a : r = Ok a -> fails_only P r.
Proof. by intros ->. Qed.

Lemma fails_lift (r : Result A) :
  (forall e, r = Err e -> P (Failure e)) -> fails_only P (lift_result r).
Proof. destruct r; cbn; auto. Qed.

Lemma fails_weaken (Q : Fault -> Prop) (r : result Fault A) :
  fails_only Q r -> (forall f, Q f -> P f) -> fails_only P r.
Proof. destruct r; cbn; auto. Qed.

End rules.

Lemma fails_move P s n :
  Episode.episode_can_transition_to (st_status s) n = true -> fails_only P (move s n).
Proof. intros. eapply fails_ok. by apply move_Ok. Qed.

Lemma fails_move_from P s n st :
  st_status s = st -> Episode.episode_can_transition_to st n = true -> fails_only P (move s n).
Proof. intros <-. apply fails_move. Qed.

Lemma fails_on_last P s a f a' :
  last (st_attempts s) = Some a -> f a = Ok a' -> fails_only P (on_last_attempt s f).
Proof. intros. eapply fails_ok. apply on_last_attempt_Ok. by do 2 eexists. Qed.

Lemma fails_on_op P s i o f r :
  st_tool_operations s !! i = Some o -> f (do_record o) = Ok r -> fails_only P (on_op s i f).
Proof. intros. eapply fails_ok. apply on_op_Ok. by do 2 eexists. Qed.

Lemma fails_increment P n : (n + 1 <= u32_max)%N -> fails_only P (increment n).
Proof. intros. eapply fails_ok. by apply increment_Ok. Qed.

Lemma fails_next_index (P : Fault -> Prop) n :
  P (Failure CounterExhausted) -> fails_only P (lift_result (next_index n)).
Proof.
  intros HP. apply fails_lift. unfold next_index. intros e.
  rewrite result_bind_Err. unfold ok_or.
  intros [He|(m & _ & He)]; [destruct (try_from_len _ _)|destruct (checked_add _ _ _)];
    by simplify_eq.
Qed.

(** The end of an attempt that is on the wire, and of an answered one. *)
Lemma dispatching_ends a t d :
  at_status a = Attempt.Dispatching -> Attempt.unanswered_terminal t = true ->
  exists a', Attempt.finish_without_response a t d = Ok a'.
Proof.
  intros Ha Ht. eexists. apply Attempt.require_status_bind. split; [done|].
  by apply guard_bind_Ok; rewrite Ht.
Qed.

Lemma dispatching_answered a r u :
  at_status a = Attempt.Dispatching ->
  exists a', Attempt.record_response a r None u = Ok a' /\ at_status a' = Attempt.Responded.
Proof.
  intros Ha. eexists. split; [apply Attempt.require_status_bind; split; [done|]|].
  - by apply guard_bind_Ok.
  - done.
Qed.

(** Identities derived with a prefix are never blank. *)
Section derived.
Context `{Sha256}.

Lemma derived_attempt_id_total eid n :
  exists id, derived_model_attempt_id eid n = Ok id.
Proof.
  unfold derived_model_attempt_id.
  destruct (parse_id _ _) as [id|e] eqn:E; [by exists id|].
  apply parse_id_Err in E. cbn in E. done.
Qed.

Lemma derived_turn_id_total eid n : exists id, derived_turn_id eid n = Ok id.
Proof.
  unfold derived_turn_id. destruct (parse_id _ _) as [id|e] eqn:E; [by exists id|].
  apply parse_id_Err in E. cbn in E. done.
Qed.

Lemma derived_operation_id_total eid t i d a b :
  exists id, derived_tool_operation_id eid t i d a b = Ok id.
Proof.
  unfold derived_tool_operation_id. destruct (parse_id _ _) as [id|e] eqn:E; [by exists id|].
  apply parse_id_Err in E. cbn in E. done.
Qed.

End derived.

(** ** The computations *)

Section computations.
Context `{Sha256}.
Variable eid : EpisodeId.

Definition exhausted (f : Fault) : Prop := f = Failure CounterExhausted.

Lemma transition_fails P s n :
  Episode.episode_can_transition_to (st_status s) n = true -> fails_only P (transition_state s n).
Proof. intros. unfold transition_state. apply fails_bind; [by apply fails_move|done]. Qed.

Lemma prepare_fails s :
  st_status s = Episode.ReadyForModel -> fails_only exhausted (prepare_state eid s).
Proof.
  intros Hst. unfold prepare_state. case_match; [apply transition_fails; by rewrite Hst|].
  case_match; [apply transition_fails; by rewrite Hst|].
  apply fails_bind; [by apply fails_next_index|]. intros n Hn. inv_step.
  destruct (derived_attempt_id_total eid (N.of_nat (length (st_attempts s)) + 1)) as [id ->].
  cbn [lift_result map_err mbind result_bind].
  apply fails_bind; [|intros a _; apply fails_bind; [|done]].
  - eapply fails_ok. unfold lift_attempt. apply map_err_Ok, guard_bind_Ok. cbn.
    split; [|done]. apply N.eqb_neq. lia.
  - by eapply fails_move_from; [exact Hst|].
Qed.

Lemma recover_fails s a :
  st_status s = Episode.ModelAttemptPending -> last (st_attempts s) = Some a ->
  at_status a = Attempt.Dispatching -> fails_only exhausted (recover_dispatch s).
Proof.
  intros Hst Hl Ha. unfold recover_dispatch.
  destruct (dispatching_ends a (if st_cancellation_requested s then Attempt.CancelledAmbiguous
    else Attempt.Ambiguous) None Ha) as [a' Ha']; [by case_match|].
  apply fails_bind; [by eapply fails_on_last|]. intros s1 Hs1.
  apply on_last_attempt_Ok in Hs1 as (b & b' & _ & _ & ->).
  apply fails_bind.
  { apply fails_lift. unfold ok_or. by destruct (checked_add _ _ _); intros e [= <-]. }
  intros n _. destruct (st_cancellation_requested (set_ambiguous _ _)).
  - apply fails_bind; [by eapply fails_move_from; [exact Hst|]|].
    intros s2 [_ ->]%move_Ok. apply fails_bind; [by apply fails_move|done].
  - apply fails_bind; [|done]. eapply fails_move_from; [exact Hst|].
    unfold after_ambiguous. by destruct (_ <? _)%N.
Qed.

Lemma begin_dispatch_fails s a :
  last (st_attempts s) = Some a -> at_status a = Attempt.Prepared ->
  fails_only exhausted (begin_dispatch eid s).
Proof.
  intros Hl Ha. unfold begin_dispatch. apply fails_bind; [by apply fails_next_index|].
  intros n _. destruct (Attempt.mark_dispatching_total a Ha) as (a' & Ha' & _).
  apply fails_bind; [by eapply fails_on_last|].
  intros s1 (b & b' & _ & _ & ->)%on_last_attempt_Ok. cbn. by rewrite last_set_last.
Qed.

(** A state whose dispatch was committed. *)
Definition on_the_wire (s : DurableEpisodeState) (a : Attempt.ModelAttemptRecord)
    (req : ModelTurnRequest) : Prop :=
  st_status s = Episode.ModelAttemptPending /\ last (st_attempts s) = Some a
  /\ at_status a = Attempt.Dispatching /\ (0 < mr_turn_index req)%N
  /\ (st_ambiguous_model_attempts s + 1 <= u32_max)%N.

Lemma after_failed_fails s retry b :
  st_status s = Episode.ModelAttemptPending ->
  fails_only exhausted (after_failed_dispatch s retry b).
Proof.
  intros Hst. unfold after_failed_dispatch. case_match; (apply fails_bind; [|done]);
    apply fails_move; by rewrite Hst.
Qed.

Lemma record_turn_fails s a req e :
  on_the_wire s a req -> fails_only exhausted (record_turn eid s req e).
Proof.
  intros (Hst & Hl & Ha & Hn & _). unfold record_turn.
  destruct (dispatching_answered a (ge_raw_exchange_digest e) (gt_usage (ge_turn e)) Ha)
    as (a1 & Ha1 & Hr1).
  apply fails_bind.
  { eapply (fails_on_last _ _ _ _ (Attempt.MkAttempt _ _ _ _ _ _ _ _)); [done|].
    rewrite Ha1. by apply Attempt.require_status_bind. }
  intros s1 (b & b' & _ & _ & ->)%on_last_attempt_Ok.
  destruct (derived_turn_id_total eid (mr_turn_index req)) as [id ->].
  cbn [lift_result map_err mbind result_bind].
  apply fails_bind; [apply fails_lift; unfold ok_or; by destruct (try_from_len _ _); intros ? [= <-]|].
  intros n _. apply fails_bind.
  { eapply fails_ok, map_err_Ok, guard_bind_Ok. cbn. split; [|done]. apply N.eqb_neq. lia. }
  intros r _. by eapply fails_move_from; [exact Hst|].
Qed.

Lemma model_outcome_fails s a req o :
  on_the_wire s a req -> fails_only exhausted (apply_model_outcome eid s req o).
Proof.
  intros Hw. pose proof Hw as (Hst & Hl & Ha & Hn & Hamb).
  destruct o as [e|d dd re|rd d dd re|rd d dd|d dd re]; cbn [apply_model_outcome].
  - apply fails_bind; [by eapply record_turn_fails|done].
  - destruct (dispatching_ends a Attempt.ConfirmedNotSent dd Ha eq_refl) as [a' Ha'].
    apply fails_bind; [by eapply fails_on_last|].
    intros s1 (b & b' & _ & _ & ->)%on_last_attempt_Ok. by apply after_failed_fails.
  - destruct (dispatching_answered a rd None Ha) as (a1 & Ha1 & Hr1).
    apply fails_bind; [|intros s1 (b & b' & _ & _ & ->)%on_last_attempt_Ok;
                        by apply after_failed_fails].
    eapply (fails_on_last _ _ _ _ (Attempt.MkAttempt _ _ _ _ _ _ _ _)); [done|].
    rewrite Ha1. by apply Attempt.require_status_bind.
  - destruct (dispatching_answered a rd None Ha) as (a1 & Ha1 & Hr1).
    apply fails_bind; [|intros s1 (b & b' & _ & _ & ->)%on_last_attempt_Ok].
    + eapply (fails_on_last _ _ _ _ (Attempt.MkAttempt _ _ _ _ _ _ _ _)); [done|].
      rewrite Ha1. by apply Attempt.require_status_bind.
    + apply fails_bind; [|done]. by eapply fails_move_from; [exact Hst|].
  - destruct (dispatching_ends a Attempt.Ambiguous dd Ha eq_refl) as [a' Ha'].
    apply fails_bind; [by eapply fails_on_last|].
    intros s1 (b & b' & _ & _ & ->)%on_last_attempt_Ok.
    apply fails_bind; [by apply fails_increment|]. intros n _. apply fails_bind; [|done].
    eapply fails_move_from; [exact Hst|]. unfold after_ambiguous. by destruct (_ <? _)%N.
Qed.

Lemma review_fails P s :
  st_status s = Episode.StopReview -> st_turns s <> [] ->
  (p_max_stop_feedback_turns (st_policy s) <= u32_max)%N -> fails_only P (review_state s).
Proof.
  intros Hst Ht Hb. unfold review_state. apply fails_bind.
  - destruct (st_subtask_satisfied s); [done|].
    destruct (_ <? _)%N eqn:Hlt; [|done]. apply N.ltb_lt in Hlt.
    apply fails_bind; [apply fails_increment; lia|]. intros n _. apply fails_bind; [|done].
    unfold last_turn. destruct (last (st_turns s)) eqn:E; [done|]. by apply last_None in E.
  - intros [s1 n] Hs. apply fails_bind; [|done].
    assert (st_status s1 = Episode.StopReview /\ Episode.episode_can_transition_to
      Episode.StopReview n = true) as [H1 H2]; [|by eapply fails_move_from].
    destruct (st_subtask_satisfied s); [by simplify_eq|].
    destruct (_ <? _)%N; inv_step; done.
Qed.

Lemma settle_fails P s :
  st_status s = Episode.ToolWorkPending -> st_turns s <> [] -> fails_only P (settle_tools s).
Proof.
  intros Hst Ht. unfold settle_tools, last_turn.
  destruct (last (st_turns s)) eqn:E; [|by apply last_None in E]. cbn.
  apply fails_bind; [by eapply fails_move_from; [exact Hst|]|done].
Qed.

(** What planning may refuse: too many calls, or a call or a descriptor
    with a blank name. *)
Definition unplannable (f : Fault) : Prop :=
  exhausted f \/ exists field, f = Failure (RecordError (EmptyField field)).

Lemma op_new_Err spec e : ToolOp.op_new spec = Err e -> exists field, e = EmptyField field.
Proof. unfold ToolOp.op_new, require_text. rewrite !guard_bind_Err. naive_solver. Qed.

Lemma plan_call_fails `{AgentToolGateway T} tools turn input i call :
  fails_only unplannable (plan_call eid tools turn input i call).
Proof.
  unfold plan_call.
  destruct (derived_operation_id_total eid turn i
    (default (MkDescriptor (tc_name call) "unknown" ToolOp.ReadOnly ToolOp.Narrative)
      (tool_descriptor tools (tc_name call))) (digest_bytes (tc_raw_arguments call)) input)
    as [id ->].
  cbn [lift_result map_err mbind result_bind]. apply fails_bind.
  { unfold lift_record. destruct (ToolOp.op_new _) as [r|e] eqn:E; [done|].
    apply op_new_Err in E as [field ->]. right. by exists field. }
  intros r Hr. unfold lift_record in Hr. apply map_err_Ok, ToolOp.op_new_Ok in Hr as ->.
  apply fails_bind; [|done]. destruct (tool_validate_call tools call) as [[]|rj]; [|done].
  by destruct (bool_decide _).
Qed.

Lemma plan_calls_fails `{AgentToolGateway T} tools turn input i calls :
  fails_only unplannable (plan_calls eid tools turn input i calls).
Proof.
  revert i. induction calls as [|c calls IH]; intros i; [done|]. cbn [plan_calls].
  apply fails_bind; [apply plan_call_fails|]. intros o _. by apply fails_bind; [apply IH|].
Qed.

Lemma plan_fails `{AgentToolGateway T} (tools : T) s :
  st_status s = Episode.TurnRecorded -> st_turns s <> [] ->
  fails_only unplannable (plan_state eid tools s).
Proof.
  intros Hst Ht. unfold plan_state, last_turn.
  destruct (last (st_turns s)) as [t|] eqn:E; [|by apply last_None in E].
  cbn [ok_or mbind result_bind].
  assert (forall s' n, st_status s' = Episode.TurnRecorded ->
    Episode.episode_can_transition_to Episode.TurnRecorded n = true -> forall a,
    fails_only unplannable (s'' ← move s' n; Ok (s'', a : AgentLoopAdvance))) as Hm.
  { intros s' n Hs' Hn a. apply fails_bind; [by eapply fails_move_from|done]. }
  case_bool_decide; [by apply Hm|].
  apply fails_bind; [apply fails_lift; unfold ok_or; destruct (try_from_len _ _); [done|];
    intros e [= <-]; by left|]. intros n1 _.
  apply fails_bind; [apply fails_lift; unfold ok_or; destruct (checked_add _ _ _); [done|];
    intros e [= <-]; by left|]. intros n2 _.
  destruct (_ <? n2)%N; [by apply Hm|]. destruct (_ <? n1)%N; [by apply Hm|].
  apply fails_bind; [apply plan_calls_fails|]. intros ops _. by apply Hm.
Qed.

(** The operation [drive_tools] picks can be dispatched. *)
Lemma begin_tool_fails P s i :
  pending_op s = Some i ->
  Forall (fun o => op_status_saved (op_status_of o) = true) (st_tool_operations s) ->
  fails_only P (begin_tool s i).
Proof.
  intros Hp Hs. unfold pending_op in Hp.
  apply fmap_Some in Hp as ([j o] & (Ho & Hopen & _)%list_find_Some & ->). cbn.
  pose proof (Forall_lookup_1 _ _ _ _ Hs Ho) as Hsaved. cbn in Hsaved.
  unfold begin_tool. rewrite Ho. cbn [ok_or mbind result_bind].
  apply fails_bind.
  - unfold op_status_of in *.
    destruct (ToolOp.op_status (do_record o)) eqn:E; try done.
    + apply fails_bind.
      { eapply fails_on_op; [done|]. apply ToolOp.op_transition_Ok. by rewrite E. }
      intros s1 (o1 & r & H1 & Hr & Hl & ->)%on_op_lookup. simplify_eq.
      apply ToolOp.op_transition_Ok in Hr as (_ & _ & ->).
      eapply fails_on_op; [exact Hl|]. by apply ToolOp.op_transition_Ok.
    + apply fails_bind.
      { eapply fails_on_op; [done|]. apply ToolOp.op_transition_Ok. by rewrite E. }
      intros s1 (o1 & r & H1 & Hr & Hl & ->)%on_op_lookup. simplify_eq.
      apply ToolOp.op_transition_Ok in Hr as (_ & _ & ->).
      eapply fails_on_op; [exact Hl|]. by apply ToolOp.op_transition_Ok.
    + eapply fails_on_op; [done|]. apply ToolOp.op_transition_Ok. by rewrite E.
  - intros s1 Hs1.
    assert (length (st_tool_operations s1) = length (st_tool_operations s)) as Hlen.
    { unfold op_status_of in *. destruct (ToolOp.op_status (do_record o)); inv_step; cbn;
        rewrite ?length_insert; done. }
    destruct (st_tool_operations s1 !! j) eqn:E1; [done|].
    apply lookup_ge_None in E1. apply lookup_lt_Some in Ho. lia.
Qed.

(** What a tool may not answer. *)
Definition unacceptable_answer (f : Fault) : Prop :=
  f = Failure InvalidToolOutcome \/ f = Failure UntrustedCompletion
  \/ exists from, f = Failure (RecordError (InvalidTransition "tool operation" from "Denied")).

Lemma tool_outcome_fails s i o out :
  st_status s = Episode.ToolWorkPending -> st_tool_operations s !! i = Some o ->
  (op_status_of o = ToolOp.Dispatching \/ op_status_of o = ToolOp.Reconciling
   \/ op_status_of o = ToolOp.Running) ->
  fails_only unacceptable_answer (apply_tool_outcome s i (op_status_of o) out).
Proof.
  intros Hst Ho Hop. destruct out as [st d rs sat|d|d]; cbn [apply_tool_outcome].
  - apply fails_bind; [apply fails_lift; intros e [_ <-]%guard_err_Err; by left|].
    intros [] Hg. unfold lift_result in Hg. apply map_err_Ok, guard_err_Ok, orb_false_iff in Hg
      as [Hterm%negb_false_iff Hrej%bool_decide_eq_false].
    rewrite Ho. cbn [ok_or mbind result_bind].
    apply fails_bind; [apply fails_lift; intros e [_ <-]%guard_err_Err; right; by left|].
    intros [] _. apply fails_bind; [|done].
    unfold on_op. rewrite Ho. unfold lift_record, ToolOp.op_finish. unfold op_status_of in Hop.
    destruct Hop as [-> |[-> | ->]]; destruct st; try done; cbn; right; right; by eexists.
  - apply fails_bind; [|done]. case_bool_decide; [done|].
    eapply fails_on_op; [done|]. apply ToolOp.op_transition_Ok. unfold op_status_of in *.
    destruct Hop as [-> |[-> |Hr]]; done.
  - apply fails_bind.
    + case_bool_decide; [done|]. eapply fails_on_op; [done|]. apply ToolOp.op_transition_Ok.
      unfold op_status_of in *. destruct Hop as [-> |[Hr| ->]]; done.
    + intros s1 Hs1. assert (st_status s1 = Episode.ToolWorkPending) as Hst1
        by (case_bool_decide; inv_step; done).
      apply fails_bind; [by eapply fails_move_from|]. intros s2 [_ ->]%move_Ok.
      apply fails_bind; [by apply fails_move|done].
Qed.

End computations.

(** ** The other calls *)

Section calls.
Context `{Sha256}.
Variable eid : EpisodeId.

(** A cancellation is never refused by the state it finds. *)
Lemma cancel_fails P s :
  EpInv eid s -> Episode.episode_is_terminal (st_status s) = false -> fails_only P (cancel_state s).
Proof.
  intros Hi Ht. pose proof (EpInv_open eid s Hi) as [Hom Hot].
  pose proof (inv_status _ _ Hi) as Hs. unfold cancel_state.
  set (m := match last _ with Some a => _ | None => false end).
  set (t := existsb _ _).
  assert (m = true -> exists a, last (st_attempts s) = Some a
    /\ at_status a = Attempt.Dispatching /\ st_status s = Episode.ModelAttemptPending) as Hm.
  { subst m. cbn. destruct (last (st_attempts s)) as [a|]; [|done].
    intros Ha%bool_decide_eq_true. exists a. split_and!; [done|done|by eapply Hom]. }
  assert (t = true -> st_status s = Episode.ToolWorkPending \/ st_status s = Episode.Suspended)
    as Htt by apply Hot.
  clearbody m t. apply fails_bind.
  { destruct m; [|done]. destruct (Hm eq_refl) as (a & Hl & Ha & _).
    destruct (dispatching_ends a Attempt.CancelledAmbiguous None Ha eq_refl) as [a' Ha'].
    by eapply fails_on_last. }
  intros s1 Hs1. assert (st_status s1 = st_status s) as E1 by (destruct m; inv_step; done).
  apply fails_bind.
  { destruct t; [|done]. destruct (list_find _ _) as [[i o]|] eqn:Ef; [|done].
    apply list_find_Some in Ef as (Ho & Hst & _). eapply fails_on_op; [done|].
    apply ToolOp.op_transition_Ok. unfold op_status_of in Hst. by rewrite Hst. }
  intros s2 Hs2. assert (st_status s2 = st_status s) as E2.
  { rewrite <-E1. destruct t; [|by inv_step]. destruct (list_find _ _) as [[i o]|]; by inv_step. }
  destruct (m || t) eqn:Hmt.
  - case_bool_decide as Hsus; [done|]. apply orb_true_iff in Hmt.
    assert (st_status s = Episode.ModelAttemptPending \/ st_status s = Episode.ToolWorkPending)
      as Hst.
    { destruct Hmt as [Hx|Hx]; [left; by destruct (Hm Hx) as (? & ? & ? & ?)|].
      destruct (Htt Hx); [by right|congruence]. }
    apply fails_bind; [apply fails_move; rewrite E2; by destruct Hst as [-> | ->]|].
    intros s3 [_ ->]%move_Ok. by apply fails_move.
  - case_bool_decide as Hcp; [done|]. apply fails_move. rewrite E2 in *.
    unfold status_inv in Hs. by destruct (st_status s).
Qed.

Lemma validate_turns_fails turns e :
  validate_turns turns = Err e -> exists g, e = GatewayError g.
Proof.
  induction turns as [|t turns IH]; [done|]. cbn. rewrite result_bind_Err.
  intros [He|(u & _ & He)]; [|by apply IH].
  destruct (gateway_turn_validate _); [done|]. cbn in He. simplify_eq. by eexists.
Qed.

Lemma validate_recovered_fails s :
  EpInv eid s ->
  fails_only (fun f => exists g, f = Failure (GatewayError g)
    /\ validate_turns (st_turns s) = Err (GatewayError g)) (lift_result (validate_recovered s)).
Proof.
  intros Hi. apply fails_lift. unfold validate_recovered, policy_validate. intros e.
  rewrite !guard_bind_Err, (inv_schema _ _ Hi), (inv_policy _ _ Hi).
  destruct (inv_counters _ _ Hi) as (Hc & _).
  pose proof (count_le_length is_decoded (st_attempts s)) as Hl. rewrite Hc in Hl.
  intros [[? _]|(_ & [[? _]|(_ & [[Hlt%Nat.ltb_lt _]|[_ Hv]])])]; [done|done|lia|].
  destruct (validate_turns_fails _ _ Hv) as [g ->]. eauto.
Qed.

Lemma resume_state_fails s g :
  fails_only (fun f =>
      (Episode.episode_resumable (st_status s) = false
       /\ exists from to, f = Failure (RecordError (InvalidTransition "episode" from to)))
      \/ (f = Failure InvalidPolicy /\ policy_invalid (with_allowance (st_policy s) g) = true))
    (resume_state s g).
Proof.
  unfold resume_state. apply fails_bind.
  - unfold lift_record. destruct (Episode.episode_resume _) eqn:E; [done|]. cbn. left.
    unfold Episode.episode_resume in E. apply guard_bind_Err in E as [[Hr%negb_true_iff <-]|[_ ?]];
      [|done]. split; [done|]. by do 2 eexists.
  - intros e _. apply fails_bind; [|done]. apply fails_lift. unfold policy_validate.
    intros e' [Hp <-]%guard_err_Err. by right.
Qed.

Lemma reconcile_state_fails s :
  fails_only (fun f => st_status s <> Episode.Suspended
      /\ exists m, f = Failure (InvalidDurableState m)) (reconcile_state s).
Proof.
  unfold reconcile_state. apply fails_bind.
  - apply fails_lift. intros e [Hn%bool_decide_eq_true <-]%guard_err_Err. eauto.
  - intros [] Hg. unfold lift_result in Hg.
    apply map_err_Ok, guard_err_Ok, bool_decide_eq_false, dec_stable in Hg.
    apply fails_bind; [|done]. apply fails_move. rewrite Hg. by repeat case_match.
Qed.

(** The dispatch that [drive_model] has just committed. *)
Lemma begin_dispatch_on_the_wire s a s1 req :
  EpInv eid s -> st_status s = Episode.ModelAttemptPending -> last (st_attempts s) = Some a ->
  at_status a = Attempt.Prepared -> begin_dispatch eid s = Ok (s1, req) ->
  exists a1, on_the_wire s1 a1 req.
Proof.
  intros Hi Hst Hl Ha Hb. unfold begin_dispatch in Hb. inv_step. rewrite Hl in *. simplify_eq.
  case_match; inv_step. cbn [st_attempts set_attempts] in *. rewrite last_set_last in *. simplify_eq.
  match goal with Hm : Attempt.mark_dispatching ?b = Ok ?x |- _ =>
    rename b into a0; apply dispatching_spec in Hm as (_ & Hx & _); exists x end.
  unfold on_the_wire. cbn. rewrite last_set_last. split_and!; try done; [lia|].
  destruct (inv_counters _ _ Hi) as (_ & Hamb & _).
  apply last_Some in Hl as [l El].
  pose proof (inv_attempts _ _ Hi) as Hidx. rewrite El in Hidx, Hamb.
  apply indexed_snoc in Hidx as [_ (_ & Hmax & _)].
  rewrite count_app, count_cons, count_nil in Hamb.
  assert (is_ambiguous a0 = false) as Hna
    by (unfold is_ambiguous; rewrite Ha; by apply bool_decide_eq_false; intros [|]).
  rewrite Hna in Hamb. pose proof (count_le_length is_ambiguous l). lia.
Qed.

End calls.

(** ** The calls of the runner *)

(** Where the error of a call may come from. *)
Inductive outside (c : Call) (s : DurableEpisodeState) : Fault -> Prop :=
| out_repository e : outside c s (Failure (RepositoryError e))
| out_crash p : c = CallAdvance -> outside c s (Failure (InjectedCrash p))
| out_counter : c = CallAdvance -> outside c s (Failure CounterExhausted)
| out_model e :
    c = CallAdvance -> st_status s = Episode.ModelAttemptPending ->
    outside c s (Failure (GatewayError e))
| out_tool e :
    c = CallAdvance -> st_status s = Episode.ToolWorkPending -> outside c s (Failure (ToolError e))
| out_answer f :
    c = CallAdvance -> st_status s = Episode.ToolWorkPending -> unacceptable_answer f ->
    outside c s f
| out_plan f :
    c = CallAdvance -> st_status s = Episode.TurnRecorded -> unplannable f -> outside c s f
| out_turn g e :
    c = CallResume g -> validate_turns (st_turns s) = Err (GatewayError e) ->
    outside c s (Failure (GatewayError e))
| out_closed g from to :
    c = CallResume g -> Episode.episode_is_terminal (st_status s) = true ->
    Episode.episode_resumable (st_status s) = false ->
    outside c s (Failure (RecordError (InvalidTransition "episode" from to)))
| out_policy g :
    c = CallResume g -> policy_invalid (with_allowance (st_policy s) g) = true ->
    outside c s (Failure InvalidPolicy)
| out_not_suspended m :
    c = CallReconcile -> st_status s <> Episode.Suspended ->
    outside c s (Failure (InvalidDurableState m)).

Section run.
Context `{Sha256} `{EpisodeRepositoryLaws R} `{ModelGateway M} `{AgentToolGateway T}
  `{AgentRuntimeFaultInjector F}.
Variable eid : EpisodeId.

(** A step of the runner, from any world, fails only with a [P]. *)
Definition run_fails {A} (P : Fault -> Prop) (m : Run R M T F A) : Prop :=
  forall w, fails_only P (m w).2.

Lemma run_fails_bind {A B} P (m : Run R M T F A) (k : A -> Run R M T F B) :
  run_fails P m -> (forall a, run_fails P (k a)) -> run_fails P (m ≫= k).
Proof.
  intros Hm Hk w. specialize (Hm w). unfold mbind, run_bind.
  destruct (m w) as [w' [a|e]]; [apply Hk|done].
Qed.

Lemma run_fails_pure {A} P (r : result Fault A) :
  fails_only P r -> run_fails P (pure_step r : Run R M T F A).
Proof. by intros Hr w. Qed.

Lemma run_fails_pure_bind {A B} P (r : result Fault A) (k : A -> Run R M T F B) :
  fails_only P r -> (forall a, r = Ok a -> run_fails P (k a)) -> run_fails P (pure_step r ≫= k).
Proof. intros Hr Hk w. unfold mbind, run_bind, pure_step. destruct r; [by apply Hk|done]. Qed.

Lemma run_fails_ret {A} P (a : A) : run_fails P (mret a : Run R M T F A).
Proof. by intros w. Qed.

Lemma run_fails_save (P : Fault -> Prop) rev s :
  (forall e, P (Failure (RepositoryError e))) -> run_fails P (save rev s : Run R M T F N).
Proof. intros HP w. unfold save. destruct (repo_save _ _ _) as [r [v|e]]; cbn; auto. Qed.

Lemma run_fails_crash (P : Fault -> Prop) p :
  P (Failure (InjectedCrash p)) -> run_fails P (crash_if p : Run R M T F unit).
Proof. intros HP w. unfold crash_if. by destruct (should_crash _ _) as [f []]. Qed.

Lemma run_fails_commit {A} (P : Fault -> Prop) rev (r : result Fault (DurableEpisodeState * A)) :
  (forall e, P (Failure (RepositoryError e))) -> fails_only P r ->
  run_fails P (commit rev r : Run R M T F A).
Proof.
  intros HP Hr. unfold commit. apply run_fails_pure_bind; [done|]. intros [s a] _.
  apply run_fails_bind; [by apply run_fails_save|]. intros n. apply run_fails_ret.
Qed.

Lemma run_fails_invoke (P : Fault -> Prop) q :
  (forall e, P (Failure (GatewayError e))) ->
  run_fails P (invoke_model q : Run R M T F ModelGatewayOutcome).
Proof. intros HP w. unfold invoke_model. destruct (model_invoke _ _) as [m [o|e]]; cbn; auto. Qed.

Lemma run_fails_tool (P : Fault -> Prop) (b : bool) i :
  (forall e, P (Failure (ToolError e))) ->
  run_fails P ((if b then reconcile_tool i else execute_tool i)
               : Run R M T F ToolGatewayOutcome).
Proof.
  intros HP w. unfold reconcile_tool, execute_tool.
  destruct b; [destruct (tool_reconcile _ _) as [t [o|e]]|destruct (tool_execute _ _) as [t [o|e]]];
    cbn; auto.
Qed.

Hint Resolve out_repository out_crash out_counter out_model out_tool out_answer out_plan : core.

Lemma exhausted_outside s f : exhausted f -> outside CallAdvance s f.
Proof. intros ->. by apply out_counter. Qed.

Lemma drive_model_fails rev s :
  EpInv eid s -> st_status s = Episode.ModelAttemptPending ->
  run_fails (outside CallAdvance s) (drive_model eid (MkVersioned rev s) : Run R M T F _).
Proof.
  intros Hi Hst. unfold drive_model. cbn [ve_state ve_revision].
  pose proof (inv_status _ _ Hi) as Hs. unfold status_inv in Hs. rewrite Hst in Hs.
  destruct Hs as (_ & _ & _ & a & Hl & Ha).
  apply run_fails_pure_bind; [by rewrite Hl|]. rewrite Hl. intros b [= <-].
  case_bool_decide as Hd.
  { apply run_fails_commit; [auto|].
    eapply fails_weaken; [by eapply recover_fails|apply exhausted_outside]. }
  assert (at_status a = Attempt.Prepared) as Hp by (by destruct Ha).
  rewrite bool_decide_eq_false_2 by (rewrite Hp; by intros []).
  apply run_fails_pure_bind;
    [eapply fails_weaken; [by eapply begin_dispatch_fails|apply exhausted_outside]|].
  intros [s1 req] Hb. destruct (begin_dispatch_on_the_wire eid _ _ _ _ Hi Hst Hl Hp Hb) as [a1 Hw].
  apply run_fails_bind; [apply run_fails_save; auto|]. intros rev1.
  apply run_fails_bind; [apply run_fails_crash; auto|]. intros _.
  apply run_fails_bind; [apply run_fails_invoke; auto|]. intros o.
  apply run_fails_bind; [apply run_fails_crash; auto|]. intros _.
  apply run_fails_bind; [apply run_fails_commit; [auto|]|intros adv].
  { eapply fails_weaken; [by eapply model_outcome_fails|apply exhausted_outside]. }
  apply run_fails_bind; [|intros; apply run_fails_ret].
  destruct o; [apply run_fails_crash; auto|apply run_fails_ret..].
Qed.

Lemma drive_tools_fails rev s :
  EpInv eid s -> st_status s = Episode.ToolWorkPending ->
  run_fails (outside CallAdvance s) (drive_tools (MkVersioned rev s) : Run R M T F _).
Proof.
  intros Hi Hst. unfold drive_tools. cbn [ve_state ve_revision].
  pose proof (inv_status _ _ Hi) as Hs. unfold status_inv in Hs. rewrite Hst in Hs.
  destruct (pending_op s) as [i|] eqn:Hp;
    [|apply run_fails_commit; [auto|by apply settle_fails; [|apply Hs]]].
  apply run_fails_pure_bind.
  { apply begin_tool_fails; [done|]. eapply Forall_impl; [apply (inv_ops _ _ Hi)|].
    intros o Ho. apply Ho. }
  intros [[s1 inv] st] Hb.
  apply begin_tool_spec in Hb as (o & r & Ho & (_ & _ & _ & _ & Hd) & -> & -> & ->).
  apply run_fails_bind; [apply run_fails_save; auto|]. intros rev1.
  apply run_fails_bind; [apply run_fails_crash; auto|]. intros _.
  apply run_fails_bind; [apply run_fails_tool; auto|]. intros out.
  apply run_fails_bind; [apply run_fails_crash; auto|]. intros _.
  apply run_fails_bind; [apply run_fails_commit; [auto|]|intros adv].
  { eapply fails_weaken; [|intros f Hf; by apply out_answer].
    apply (tool_outcome_fails (set_ops s (<[i := MkDurableOp r (do_call o)]>
      (st_tool_operations s))) i (MkDurableOp r (do_call o)) out Hst).
    - cbn. apply list_lookup_insert_eq. by eapply lookup_lt_Some.
    - unfold op_status_of. cbn. destruct (ToolOp.op_status (do_record o)); try done; rewrite Hd; auto. }
  apply run_fails_bind; [|intros; apply run_fails_ret].
  destruct out; [apply run_fails_crash; auto|apply run_fails_ret..].
Qed.

Lemma plan_turn_tools_fails rev s :
  EpInv eid s -> st_status s = Episode.TurnRecorded ->
  run_fails (outside CallAdvance s) (plan_turn_tools eid (MkVersioned rev s) : Run R M T F _).
Proof.
  intros Hi Hst. unfold plan_turn_tools. cbn [ve_state ve_revision].
  pose proof (inv_status _ _ Hi) as Hs. unfold status_inv in Hs. rewrite Hst in Hs.
  apply run_fails_bind; [by intros w|]. intros tools.
  apply run_fails_bind; [apply run_fails_commit; [auto|]|intros adv].
  { eapply fails_weaken; [apply plan_fails; [done|apply Hs]|auto]. }
  apply run_fails_bind; [|intros; apply run_fails_ret].
  case_bool_decide; [apply run_fails_crash; auto|apply run_fails_ret].
Qed.

(** A call that starts with the load of a state with the invariant. *)
Lemma loaded_fails {A} c (k : VersionedEpisodeState -> Run R M T F A) (w : World R M T F) rev s :
  durable eid w = Some (MkVersioned rev s) ->
  run_fails (outside c s) (k (MkVersioned rev s)) ->
  fails_only (outside c s) ((versioned ← load eid; k versioned) w).2.
Proof.
  intros Hd Hk. unfold mbind, run_bind. destruct (load eid w) as [w1 [v|e]] eqn:E.
  - destruct (load_spec eid _ _ _ _ _ E Hd) as (_ & _ & Hv). rewrite (Hv v eq_refl). apply Hk.
  - unfold load in E. destruct (repo_load eid (w_repo w)) as [r0 [v|e0]]; [done|].
    injection E as _ <-. apply out_repository.
Qed.

Lemma advance_fails (w : World R M T F) rev s :
  durable eid w = Some (MkVersioned rev s) -> EpInv eid s ->
  (p_max_stop_feedback_turns (st_policy s) <= u32_max)%N ->
  fails_only (outside CallAdvance s) (advance eid w).2.
Proof.
  intros Hd Hi Hb. eapply loaded_fails; [done|]. cbn [ve_state ve_revision].
  pose proof (inv_status _ _ Hi) as Hs. unfold status_inv in Hs.
  destruct (Episode.episode_is_terminal (st_status s)) eqn:Ht; [apply run_fails_ret|].
  destruct (st_status s) eqn:Hst; try done; try apply run_fails_ret.
  - apply run_fails_commit; [auto|]. apply transition_fails. by rewrite Hst.
  - apply run_fails_commit; [auto|].
    eapply fails_weaken; [by apply prepare_fails|apply exhausted_outside].
  - by apply drive_model_fails.
  - by apply plan_turn_tools_fails.
  - by apply drive_tools_fails.
  - apply run_fails_commit; [auto|]. apply review_fails; [done|apply Hs|done].
  - apply run_fails_commit; [auto|]. apply transition_fails. by rewrite Hst.
Qed.

Lemma run_call_fails c (w : World R M T F) rev s :
  durable eid w = Some (MkVersioned rev s) -> EpInv eid s ->
  (p_max_stop_feedback_turns (st_policy s) <= u32_max)%N ->
  fails_only (outside c s) (run_call eid c w).2.
Proof.
  intros Hd Hi Hb.
  assert (forall A (m : World R M T F * result Fault A), fails_only (outside c s) m.2 ->
    fails_only (outside c s) (let '(w', r) := m in (w', (fun _ : A => tt) <$> r)).2) as Hmap.
  { intros A [w1 [a|e]]; done. }
  destruct c as [|g| |]; cbn [run_call]; apply Hmap; clear Hmap.
  - by eapply advance_fails.
  - unfold resume. eapply loaded_fails; [done|]. cbn [ve_state ve_revision].
    apply run_fails_pure_bind.
    + eapply fails_weaken; [by apply (validate_recovered_fails eid)|].
      intros f (e & -> & He). by eapply out_turn.
    + intros [] _. destruct (Episode.episode_is_terminal (st_status s)) eqn:Ht;
        [cbn [negb]|apply run_fails_ret].
      apply run_fails_commit; [auto|]. apply fails_bind; [|done].
      eapply fails_weaken; [apply resume_state_fails|].
      intros f [(Hr & from & to & ->)|[-> Hp]]; [by eapply out_closed|by eapply out_policy].
  - unfold request_cancellation. eapply loaded_fails; [done|]. cbn [ve_state ve_revision].
    destruct (Episode.episode_is_terminal (st_status s)) eqn:Ht; [apply run_fails_ret|].
    apply run_fails_commit; [auto|]. apply fails_bind; [by eapply (cancel_fails eid)|done].
  - unfold resume_reconciliation. eapply loaded_fails; [done|]. cbn [ve_state ve_revision].
    apply run_fails_commit; [auto|].
    eapply fails_weaken; [apply reconcile_state_fails|].
    intros f (Hn & m & ->). by apply out_not_suspended.
Qed.

(** No call of the runner fails for a reason of its own: from every
    state a history can reach, an error comes from the repository, an
    injected crash, a model or tool answer the status was waiting for, a
    counter at the end of its width, or a request the episode does not
    admit.  It never panics, never misses an attempt or a turn, never
    refuses its own transition; and a cancellation fails only when the
    repository does. *)
Theorem faults_come_from_outside (spec : AgentLoopRuntimeSpec) (w : World R M T F)
    (cs : list Call) (c : Call) (f : Fault) (Hl : launched eid spec w)
    (Hu : (p_max_stop_feedback_turns (rs_policy spec) <= u32_max)%N)
    (Hf : (run_call eid c (run_calls eid cs w)).2 = Err f) :
  (exists rev s, durable eid (run_calls eid cs w) = Some (MkVersioned rev s) /\ outside c s f)
  /\ f <> Panic
  /\ (c = CallCancel -> exists e, f = Failure (RepositoryError e)).
Proof.
  destruct (launched_history eid spec w cs Hl) as (s0 & rev & s & Hn & Hi0 & Hd & Hh & Hi & _).
  assert (outside c s f) as Ho.
  { pose proof (run_call_fails c _ _ _ Hd Hi) as Hc. rewrite Hf in Hc. apply Hc.
    destruct (history_steps eid _ _ _ _ Hi0 Hh) as (Hr & _).
    destruct (steps_grow eid _ _ Hr) as [(_ & _ & _ & _ & Hp) _ _ _ _].
    assert (st_policy s0 = rs_policy spec) as E0.
    { unfold state_new in Hn. apply result_bind_Ok in Hn as (u & _ & [= <-]). done. }
    apply (f_equal r_max_stop_feedback_turns) in Hp. cbn in Hp. by rewrite Hp, E0. }
  split_and!; [eauto| |].
  - intros ->. inversion Ho; unfold unacceptable_answer, unplannable, exhausted in *; naive_solver.
  - intros ->. inversion Ho; simplify_eq; eauto.
Qed.

End run.

(** ** Witness: the model's script is empty *)

Section witness.
Local Existing Instance toy_sha.

Definition starved_world : SampleWorld :=
  MkWorld {[sample_episode_id := MkVersioned 0 sample_state]} [] sample_tools NoFault [].

Definition starved_fault : Fault :=
  match (run_call sample_episode_id CallAdvance
           (run_calls sample_episode_id [CallAdvance; CallAdvance] starved_world)).2 with
  | Err f => f
  | Ok _ => Panic
  end.

Lemma starved_launched : launched sample_episode_id sample_runtime_spec starved_world.
Proof. split_and!; [done|done| |done]. exists sample_state. by split. Qed.

Lemma starved_fails :
  (run_call sample_episode_id CallAdvance
     (run_calls sample_episode_id [CallAdvance; CallAdvance] starved_world)).2
  = Err starved_fault.
Proof. vm_compute. reflexivity. Qed.

Lemma faults_come_from_outside_witness :
  starved_fault <> Panic
  /\ exists rev s, durable sample_episode_id
       (run_calls sample_episode_id [CallAdvance; CallAdvance] starved_world)
     = Some (MkVersioned rev s) /\ outside CallAdvance s starved_fault.
Proof.
  destruct (faults_come_from_outside sample_episode_id sample_runtime_spec starved_world
    [CallAdvance; CallAdvance] CallAdvance starved_fault starved_launched)
    as (Ho & Hp & _).
  - by apply N.leb_le.
  - exact starved_fails.
  - split; [exact Hp|exact Ho].
Defined.

End witness.
