(* ===== verification/EpisodeDriver.v ===== *)
(** * The candidate driver

    [src/crates/alloyport-server/src/application/runtime.rs]: the loop of
    [drive_candidate_inner] that resumes an episode and advances it until
    it ends.  The loop has no counter of its own: it stops because every
    advance either ends the episode or consumes something bounded
    ([episode_fuel]), as long as the tools do not answer "pending" for
    ever.  Sleeping and yielding change no state and are left out. *)

From stdpp Require Import base strings gmap list.
From S2P Require Import Prelude Digest Encoding Identity AgentRecord ModelAttempt ModelGateway.
From S2P Require Import LoopPolicy EpisodeState Fixtures EpisodePorts.
From S2P Require Import EpisodeSteps EpisodeRuntime EpisodeHistory EpisodeRefinement.
From S2P Require Import EpisodeProtocol EpisodeInvariant EpisodeSafety EpisodeTheorems.

(** ** The loop *)

(** [MigrationTaskStore::is_cancelled] (migration_task.rs); [K] is the
    store's state, which other requests may change between two calls. *)
Class CancellationStore (K : Type) :=
  is_cancelled : string -> K -> K * result string bool.

(** The reasons [drive_candidate_inner] formats into its error text. *)
Inductive DriveError :=
| DriveFault (e : Fault)
| StoreError (e : string)
| CancelledByUser
| EndedIn (status : Episode.EpisodeStatus)
| SuspendedForReconciliation.

Section driver.
Context `{Sha256} `{EpisodeRepository R} `{ModelGateway M} `{AgentToolGateway T}
  `{AgentRuntimeFaultInjector F} `{CancellationStore K}.

(** [check_cancelled]. *)
Definition check_cancelled (cancellation : option string) (k : K) : K * result DriveError unit :=
  match cancellation with
  | None => (k, Ok tt)
  | Some task_id =>
      let '(k, r) := is_cancelled task_id k in
      (k, cancelled ← map_err StoreError r; guard_err cancelled CancelledByUser)
  end.

(** One round of the loop: [Ok None] goes round again. *)
Definition drive_round (episode_id : EpisodeId) (cancellation : option string)
    (w : World R M T F) (k : K) : World R M T F * K * result DriveError (option unit) :=
  let '(k, c) := check_cancelled cancellation k in
  match c with
  | Err e => (w, k, Err e)
  | Ok _ =>
      let '(w, r) := advance episode_id w in
      (w, k,
       a ← map_err DriveFault r;
       match a with
       | Terminal Episode.Succeeded => Ok (Some tt)
       | Terminal status => Err (EndedIn status)
       | Suspended => Err SuspendedForReconciliation
       | Progressed _ | ProgressedAfter _ _ => Ok None
       end)
  end.

(** The loop, cut off after [fuel] rounds. *)
Fixpoint drive_loop (fuel : nat) (episode_id : EpisodeId) (cancellation : option string)
    (w : World R M T F) (k : K) : option (World R M T F * K * result DriveError unit) :=
  match fuel with
  | O => None
  | S fuel =>
      match drive_round episode_id cancellation w k with
      | (w, k, Err e) => Some (w, k, Err e)
      | (w, k, Ok (Some _)) => Some (w, k, Ok tt)
      | (w, k, Ok None) => drive_loop fuel episode_id cancellation w k
      end
  end.

(** [drive_candidate_inner] once the starting workers are ready. *)
Definition drive_candidate (fuel : nat) (episode_id : EpisodeId) (allowance : EpisodeAllowance)
    (cancellation : option string) (w : World R M T F) (k : K)
    : option (World R M T F * K * result DriveError unit) :=
  match resume episode_id allowance w with
  | (w, Err e) => Some (w, k, Err (DriveFault e))
  | (w, Ok _) => drive_loop fuel episode_id cancellation w k
  end.

End driver.

(** ** What a successful advance did *)

Section advanced.
Context `{Sha256} `{EpisodeRepositoryLaws R} `{ModelGateway M} `{AgentToolGateway T}
  `{AgentRuntimeFaultInjector F}.
Variable eid : EpisodeId.

(** The advances that call no adapter: one computation and its commit. *)
Definition quiet_advance (tools : T) (s : DurableEpisodeState)
    : option (result Fault (DurableEpisodeState * AgentLoopAdvance)) :=
  match st_status s with
  | Episode.Created => Some (transition_state s Episode.ReadyForModel)
  | Episode.ReadyForModel => Some (prepare_state eid s)
  | Episode.ModelAttemptPending => Some (recover_dispatch s)
  | Episode.TurnRecorded => Some (plan_state eid tools s)
  | Episode.ToolWorkPending => Some (settle_tools s)
  | Episode.StopReview => Some (review_state s)
  | Episode.CancellationPending => Some (transition_state s Episode.Cancelled)
  | _ => None
  end.

(** From the tools' state [t] and the durable state [s], the advance
    answered [a] and left [t'] and [s']. *)
Inductive advanced (t : T) (s : DurableEpisodeState) :
  T -> DurableEpisodeState -> AgentLoopAdvance -> Prop :=
| adv_terminal :
    Episode.episode_is_terminal (st_status s) = true ->
    advanced t s t s (Terminal (st_status s))
| adv_suspended :
    st_status s = Episode.Suspended \/ st_status s = Episode.SuspensionRequested ->
    advanced t s t s Suspended
| adv_quiet s' a :
    quiet_advance t s = Some (Ok (s', a)) ->
    (st_status s = Episode.ToolWorkPending -> pending_op s = None) ->
    advanced t s t s' a
| adv_model s1 req o s' a :
    model_dispatch eid s s1 req -> apply_model_outcome eid s1 req o = Ok (s', a) ->
    advanced t s t s' a
| adv_tool s1 i inv st o t' s' a :
    tool_dispatch s s1 i inv st ->
    (if reconciling st then tool_reconcile inv t else tool_execute inv t) = (t', Ok o) ->
    apply_tool_outcome s1 i st o = Ok (s', a) ->
    advanced t s t' s' a.

Lemma crash_if_tools p (w w' : World R M T F) r :
  crash_if p w = (w', r) -> w_tools w' = w_tools w.
Proof. unfold crash_if. by destruct (should_crash _ _); intros [= <- <-]. Qed.

(** A commit that succeeded. *)
Lemma commit_ok {A} rev (r : result Fault (DurableEpisodeState * A)) (w w' : World R M T F)
    rev0 s0 a :
  commit rev r w = (w', Ok a) -> durable eid w = Some (MkVersioned rev0 s0) ->
  (forall s' a, r = Ok (s', a) -> st_episode_id s' = eid) ->
  exists s', r = Ok (s', a) /\ durable eid w' = Some (MkVersioned (rev0 + 1) s')
    /\ w_tools w' = w_tools w.
Proof.
  intros Hc Hd Hid. unfold commit, pure_step in Hc.
  apply run_bind_inv in Hc as (w1 & r1 & [= <- <-] & Hc).
  destruct r as [[s' x]|e]; [|by destruct Hc].
  apply run_bind_inv in Hc as (w2 & r2 & Es & Hc).
  pose proof (save_spec eid _ _ _ _ _ _ _ Es Hd (Hid _ _ eq_refl)) as [Ht Hs].
  destruct r2 as [rev2|e]; [|by destruct Hc]. cbn in Hc. injection Hc as <- <-.
  exists s'. destruct Hs as (_ & _ & Ha & _). by split_and!.
Qed.

(** A call that ran through the whole protocol. *)
Lemma protocol_ok {A} rev s0 s1 p1 p2 (call : Run R M T F A) app (tail : A -> Run R M T F unit)
    (w w' : World R M T F) a :
  protocol rev s1 p1 p2 call app tail w = (w', Ok a) ->
  durable eid w = Some (MkVersioned rev s0) -> st_episode_id s1 = eid ->
  (forall w w' r rev s, call w = (w', r) -> durable eid w = Some (MkVersioned rev s) ->
     durable eid w' = Some (MkVersioned rev s)) ->
  (forall o s2 a, app o = Ok (s2, a) -> st_episode_id s2 = eid) ->
  (forall o w w' r rev s, tail o w = (w', r) -> durable eid w = Some (MkVersioned rev s) ->
     durable eid w' = Some (MkVersioned rev s) /\ w_tools w' = w_tools w) ->
  exists wc wc' o s2 rev2, w_tools wc = w_tools w /\ call wc = (wc', Ok o)
    /\ app o = Ok (s2, a) /\ durable eid w' = Some (MkVersioned rev2 s2)
    /\ w_tools w' = w_tools wc'.
Proof.
  intros Hr Hd Hid Hcall Happ Htail. unfold protocol in Hr.
  apply run_bind_inv in Hr as (w1 & [rev1|e] & E1 & Hr); [|by destruct Hr].
  destruct (save_spec eid _ _ _ _ _ _ _ E1 Hd Hid) as [T1 (_ & -> & D1 & _)].
  apply run_bind_inv in Hr as (w2 & [[]|e] & E2 & Hr); [|by destruct Hr].
  pose proof (crash_if_after eid _ _ _ _ _ _ E2 D1) as [D2 _]. apply crash_if_tools in E2.
  apply run_bind_inv in Hr as (w3 & [o|e] & E3 & Hr); [|by destruct Hr].
  pose proof (Hcall _ _ _ _ _ E3 D2) as D3.
  apply run_bind_inv in Hr as (w4 & [[]|e] & E4 & Hr); [|by destruct Hr].
  pose proof (crash_if_after eid _ _ _ _ _ _ E4 D3) as [D4 _]. apply crash_if_tools in E4.
  apply run_bind_inv in Hr as (w5 & [a5|e] & E5 & Hr); [|by destruct Hr].
  destruct (commit_ok _ _ _ _ _ _ _ E5 D4 (Happ o)) as (s2 & Eo & D5 & T5).
  apply run_bind_inv in Hr as (w6 & [[]|e] & E6 & Hr); [|by destruct Hr].
  cbn in Hr. injection Hr as <- <-.
  destruct (Htail _ _ _ _ _ _ E6 D5) as [D6 T6].
  exists w2, w3, o, s2, (rev + 1 + 1)%N. split_and!; congruence.
Qed.

(** A successful advance of one call path, after the load. *)
Definition advances (w w' : World R M T F) (s : DurableEpisodeState) (a : AgentLoopAdvance)
    : Prop :=
  exists rev' s', advanced (w_tools w) s (w_tools w') s' a
    /\ durable eid w' = Some (MkVersioned rev' s').

Lemma quiet_commit_advances c w w' rev s a r :
  commit rev r w = (w', Ok a) -> durable eid w = Some (MkVersioned rev s) ->
  st_episode_id s = eid -> quiet_advance (w_tools w) s = Some r ->
  (st_status s = Episode.ToolWorkPending -> pending_op s = None) ->
  (forall s' x, r = Ok (s', x) -> quiet_save eid (w_tools w) c s s') -> advances w w' s a.
Proof.
  intros Hc Hd Hid Hq Hp Hs.
  destruct (commit_ok _ _ _ _ _ _ _ Hc Hd) as (s' & -> & D & Ht).
  { intros s' x E. rewrite <-Hid. by eapply same_identity_id, quiet_save_identity, Hs. }
  exists (rev + 1)%N, s'. rewrite Ht. split; [by apply adv_quiet|done].
Qed.

Lemma crash_tail_ok p (w w' : World R M T F) r rev s :
  crash_if p w = (w', r) -> durable eid w = Some (MkVersioned rev s) ->
  durable eid w' = Some (MkVersioned rev s) /\ w_tools w' = w_tools w.
Proof.
  intros E D. split; [by eapply crash_if_after|by eapply crash_if_tools].
Qed.

Lemma drive_model_ok w w' rev s a :
  drive_model eid (MkVersioned rev s) w = (w', Ok a) ->
  durable eid w = Some (MkVersioned rev s) -> st_episode_id s = eid ->
  st_status s = Episode.ModelAttemptPending -> advances w w' s a.
Proof.
  unfold drive_model. cbn [ve_state ve_revision]. intros Hr Hd Hid Hst.
  apply run_bind_inv in Hr as (w1 & r1 & [= <- <-] & Hr).
  destruct (last (st_attempts s)) as [attempt|] eqn:E; [cbn in Hr|by destruct Hr].
  case_bool_decide as Hdisp.
  { eapply (quiet_commit_advances CallAdvance); [done|done|done| |by rewrite Hst|].
    - unfold quiet_advance. by rewrite Hst.
    - intros. by eapply qs_recover. }
  case_bool_decide as Hprep; [by injection Hr|].
  apply run_bind_inv in Hr as (w2 & r2 & [= <- <-] & Hr).
  destruct (begin_dispatch eid s) as [[s1 req]|e] eqn:E2; [|by destruct Hr].
  eapply (protocol_ok rev s s1) in Hr as (wc & wc' & o & s2 & rev2 & T1 & C & Ho & D & T2);
    [|done|by rewrite (same_identity_id _ _ (begin_dispatch_identity eid _ _ _ E2))| | |].
  - exists rev2, s2. split; [|done]. rewrite T2.
    assert (w_tools wc' = w_tools wc) as ->.
    { unfold invoke_model in C. destruct (model_invoke _ _). by injection C as <- _. }
    rewrite T1. eapply adv_model; [|exact Ho]. split_and!; [done| |done]. exists attempt.
    done.
  - intros w3 w4 r3 rev3 s3 C3 D3. exact (proj1 (invoke_after eid _ _ _ _ _ _ C3 D3)).
  - intros o s2 x Ho.
    rewrite (same_identity_id _ _ (apply_model_outcome_identity eid _ _ _ _ _ Ho)).
    by rewrite (same_identity_id _ _ (begin_dispatch_identity eid _ _ _ E2)).
  - intros o w3 w4 r3 rev3 s3 Hk Hd3. destruct o; [by eapply crash_tail_ok|..];
      by injection Hk as <- <-.
Qed.

Lemma drive_tools_ok w w' rev s a :
  drive_tools (MkVersioned rev s) w = (w', Ok a) ->
  durable eid w = Some (MkVersioned rev s) -> st_episode_id s = eid ->
  st_status s = Episode.ToolWorkPending -> advances w w' s a.
Proof.
  unfold drive_tools. cbn [ve_state ve_revision]. intros Hr Hd Hid Hst.
  destruct (pending_op s) as [i|] eqn:Hp.
  2:{ eapply (quiet_commit_advances CallAdvance); [done|done|done| |done|].
      - unfold quiet_advance. by rewrite Hst.
      - intros. by eapply qs_settle. }
  apply run_bind_inv in Hr as (w2 & r2 & [= <- <-] & Hr).
  destruct (begin_tool s i) as [[[s1 inv] st]|e] eqn:E2; [|by destruct Hr].
  eapply (protocol_ok rev s s1) in Hr as (wc & wc' & o & s2 & rev2 & T1 & C & Ho & D & T2);
    [|done|by rewrite (same_identity_id _ _ (begin_tool_identity _ _ _ _ _ E2))| | |].
  - exists rev2, s2. split; [|done]. rewrite T2.
    eapply (adv_tool (w_tools w) s s1 i inv st o); [by split_and!| |exact Ho].
    rewrite <-T1. destruct (reconciling st); unfold reconcile_tool, execute_tool in C;
      [destruct (tool_reconcile _ _) as [t' r]|destruct (tool_execute _ _) as [t' r]];
      destruct r; by simplify_eq/=.
  - intros w3 w4 r3 rev3 s3 C3 D3. exact (proj1 (tool_call_after eid _ _ _ _ _ _ _ C3 D3)).
  - intros o s2 x Ho.
    rewrite (same_identity_id _ _ (apply_tool_outcome_identity _ _ _ _ _ _ Ho)).
    by rewrite (same_identity_id _ _ (begin_tool_identity _ _ _ _ _ E2)).
  - intros o w3 w4 r3 rev3 s3 Hk Hd3. destruct o; [by eapply crash_tail_ok|..];
      by injection Hk as <- <-.
Qed.

Lemma plan_turn_tools_ok w w' rev s a :
  plan_turn_tools eid (MkVersioned rev s) w = (w', Ok a) ->
  durable eid w = Some (MkVersioned rev s) -> st_episode_id s = eid ->
  st_status s = Episode.TurnRecorded -> advances w w' s a.
Proof.
  unfold plan_turn_tools. cbn [ve_state ve_revision]. intros Hr Hd Hid Hst.
  apply run_bind_inv in Hr as (w1 & r1 & [= <- <-] & Hr).
  apply run_bind_inv in Hr as (w2 & [a2|e] & E & Hr); [|by destruct Hr].
  assert (advances w w2 s a2) as (rev' & s' & Ha & D).
  { eapply (quiet_commit_advances CallAdvance); [done|done|done| |by rewrite Hst|].
    - unfold quiet_advance. by rewrite Hst.
    - intros. by eapply qs_plan. }
  apply run_bind_inv in Hr as (w3 & [[]|e] & E3 & Hr); [|by destruct Hr].
  cbn in Hr. injection Hr as <- <-. exists rev', s'.
  case_bool_decide; [|by injection E3 as <-].
  destruct (crash_tail_ok _ _ _ _ _ _ E3 D) as [D' T']. by rewrite T'.
Qed.

Lemma advance_ok w w' rev s a :
  advance eid w = (w', Ok a) -> durable eid w = Some (MkVersioned rev s) ->
  st_episode_id s = eid -> advances w w' s a.
Proof.
  intros Hr Hd Hid. unfold advance in Hr.
  apply run_bind_inv in Hr as (w1 & [v|e] & E & Hr); [|by destruct Hr].
  destruct (load_spec eid _ _ _ _ _ E Hd) as ((D1 & _) & T1 & Hv).
  rewrite (Hv v eq_refl) in Hr. cbn [ve_state ve_revision] in Hr. clear E Hd.
  unfold advances. rewrite <-T1. change (advances w1 w' s a).
  assert (forall r, commit rev r w1 = (w', Ok a) -> quiet_advance (w_tools w1) s = Some r ->
    st_status s <> Episode.ToolWorkPending ->
    (forall s' x, r = Ok (s', x) -> quiet_save eid (w_tools w1) CallAdvance s s') ->
    advances w1 w' s a) as Hq.
  { intros. by eapply quiet_commit_advances. }
  destruct (Episode.episode_is_terminal (st_status s)) eqn:Hterm.
  { injection Hr as <- <-. exists rev, s. split; [by apply adv_terminal|done]. }
  unfold quiet_advance in Hq. destruct (st_status s) eqn:Hst;
    try (cbn in Hr; injection Hr as <- <-; exists rev, s; split; [apply adv_suspended|]; auto);
    try (eapply Hq; [exact Hr|done|done|]; intros); try done.
  - by eapply qs_start.
  - by eapply qs_prepare.
  - by eapply drive_model_ok.
  - by eapply plan_turn_tools_ok.
  - by eapply drive_tools_ok.
  - by eapply qs_review.
  - by eapply qs_cancelled.
Qed.

End advanced.

(** ** The measure of an episode *)

Section measure.
Context `{Sha256}.

(** The operations that are not finished. *)
Definition open_ops (ops : list DurableToolOperation) : nat :=
  count (fun o => negb (ToolOp.op_is_terminal (op_status_of o))) ops.

(** What one model attempt can cost in advances: its own, and one for
    each operation its turn may request. *)
Definition cycle (s : DurableEpisodeState) : nat :=
  5 + N.to_nat (p_max_total_tool_operations (st_policy s)).

(** What is left of the current attempt. *)
Definition stage (s : DurableEpisodeState) : nat :=
  match st_status s with
  | Episode.Created => 2
  | Episode.ReadyForModel => 1
  | Episode.ModelAttemptPending => cycle s
  | Episode.TurnRecorded => cycle s - 1
  | Episode.ToolWorkPending => 2 + open_ops (st_tool_operations s)
  | Episode.StopReview => 2
  | _ => 0
  end.

Definition remaining_attempts (s : DurableEpisodeState) : nat :=
  N.to_nat (p_max_model_attempts (st_policy s)) - length (st_attempts s).

Definition episode_fuel (s : DurableEpisodeState) : nat :=
  remaining_attempts s * cycle s + stage s.

(** Does the driver go round again? *)
Definition progressing (a : AgentLoopAdvance) : bool :=
  match a with Progressed _ | ProgressedAfter _ _ => true | _ => false end.

Lemma open_ops_insert (i : nat) o o' (ops : list DurableToolOperation) :
  ops !! i = Some o -> ToolOp.op_is_terminal (op_status_of o) = false ->
  open_ops (<[i := o']> ops) + (if ToolOp.op_is_terminal (op_status_of o') then 1 else 0)
  = open_ops ops.
Proof.
  intros Hi Ho. unfold open_ops.
  pose proof (count_insert (fun o => negb (ToolOp.op_is_terminal (op_status_of o))) _ _ _ o' Hi)
    as Hc. cbn in Hc. rewrite Ho in Hc. cbn in Hc.
  destruct (ToolOp.op_is_terminal (op_status_of o')); cbn in Hc; lia.
Qed.

Lemma fuel_status_lt s n :
  stage (with_status s n) < stage s -> episode_fuel (with_status s n) < episode_fuel s.
Proof. unfold episode_fuel, remaining_attempts, cycle. cbn. lia. Qed.

Lemma prepare_fuel eid s s' a :
  st_status s = Episode.ReadyForModel -> prepare_state eid s = Ok (s', a) ->
  progressing a = true -> episode_fuel s' < episode_fuel s.
Proof.
  intros Hst Hp Ha. unfold prepare_state in Hp.
  destruct (st_cancellation_requested s).
  { inv_step. apply fuel_status_lt. unfold stage. cbn. rewrite Hst. lia. }
  destruct (_ || _) eqn:Hb; [inv_step; done|]. apply orb_false_iff in Hb as [_ Hb%N.leb_gt].
  inv_step.
  match goal with |- episode_fuel ?s' < _ =>
    assert (remaining_attempts s = S (remaining_attempts s')) as E
      by (unfold remaining_attempts; cbn; rewrite length_app; cbn; lia);
    unfold episode_fuel; rewrite E; change (cycle s') with (cycle s);
    change (stage s') with (cycle s)
  end.
  unfold stage. rewrite Hst. lia.
Qed.

Lemma plan_fuel `{AgentToolGateway T} eid (tools : T) s s' a :
  st_status s = Episode.TurnRecorded -> plan_state eid tools s = Ok (s', a) ->
  progressing a = true -> episode_fuel s' < episode_fuel s.
Proof.
  intros Hst Hp Ha. pose proof (plan_step eid tools s s' a Hst Hp) as Hs.
  destruct Hs; cbn in *; try congruence; try (rewrite Hst in *; naive_solver);
    unfold episode_fuel, remaining_attempts, stage, cycle; cbn; rewrite ?Hst; try lia.
  unfold open_ops.
  pose proof (count_le_length (fun o => negb (ToolOp.op_is_terminal (op_status_of o)))
    (st_tool_operations s ++ ops)) as Ho. rewrite length_app in Ho. lia.
Qed.

Lemma review_fuel s s' a :
  st_status s = Episode.StopReview -> review_state s = Ok (s', a) ->
  progressing a = true -> episode_fuel s' < episode_fuel s.
Proof.
  intros Hst Hp Ha. unfold review_state in Hp. inv_step. repeat case_match; inv_step; try done.
  unfold episode_fuel, remaining_attempts, stage, cycle. cbn. rewrite Hst. lia.
Qed.

Lemma settle_fuel s s' a :
  st_status s = Episode.ToolWorkPending -> settle_tools s = Ok (s', a) ->
  episode_fuel s' < episode_fuel s.
Proof.
  intros Hst Hp. unfold settle_tools in Hp. inv_step.
  unfold episode_fuel, remaining_attempts, stage, cycle. cbn. rewrite Hst. lia.
Qed.

Lemma length_set_last_some {A} (x y : A) l : last l = Some x -> length (set_last y l) = length l.
Proof.
  intros [k ->]%last_Some. unfold set_last. rewrite removelast_last, !length_app. done.
Qed.

Lemma recover_fuel s s' a :
  st_status s = Episode.ModelAttemptPending -> recover_dispatch s = Ok (s', a) ->
  progressing a = true -> episode_fuel s' < episode_fuel s.
Proof.
  intros Hst Hp Ha. unfold recover_dispatch in Hp. inv_step. case_match; inv_step; [done|].
  unfold after_ambiguous in *. case_match; [done|].
  unfold episode_fuel, remaining_attempts, stage, cycle. cbn. rewrite Hst.
  erewrite length_set_last_some by done. lia.
Qed.

(** The outcomes of a dispatch leave the attempts in place. *)
Lemma outcome_fuel s s' n :
  st_status s = Episode.ModelAttemptPending ->
  st_policy s' = st_policy s -> length (st_attempts s') = length (st_attempts s) ->
  st_status s' = n -> n = Episode.TurnRecorded \/ n = Episode.ReadyForModel ->
  episode_fuel s' < episode_fuel s.
Proof.
  intros Hst Hp Hl Hn Hc. unfold episode_fuel, remaining_attempts, stage, cycle.
  rewrite Hn, Hst, Hp, Hl. destruct Hc as [-> | ->]; lia.
Qed.

Lemma model_fuel eid s s1 req o s' a :
  model_dispatch eid s s1 req -> apply_model_outcome eid s1 req o = Ok (s', a) ->
  progressing a = true -> episode_fuel s' < episode_fuel s.
Proof.
  intros (Hst & _ & Hb) Ho Ha. unfold begin_dispatch in Hb. inv_step. case_match; inv_step.
  cbn [st_attempts set_attempts] in *. rewrite last_set_last in *. simplify_eq.
  assert (forall s2 n, st_policy s2 = st_policy s -> st_status s2 = n ->
    (exists y z, last (set_last m (st_attempts s)) = Some y
       /\ st_attempts s2 = set_last z (set_last m (st_attempts s))) ->
    n = Episode.TurnRecorded \/ n = Episode.ReadyForModel ->
    episode_fuel s2 < episode_fuel s) as Hlt.
  { intros s2 n Hp Hn (y & z & Hy & Hz) Hc. eapply outcome_fuel; [done|done| |exact Hn|exact Hc].
    rewrite Hz. by rewrite (length_set_last_some _ _ _ Hy), (length_set_last_some _ _ _ H1). }
  destruct o; cbn [apply_model_outcome] in Ho;
    unfold record_turn, after_failed_dispatch, after_ambiguous in Ho;
    inv_step; repeat case_match; inv_step; try done;
    cbn [st_attempts set_attempts] in *;
    (eapply Hlt; [reflexivity|reflexivity|by do 2 eexists|cbn; tauto]).
Qed.

Lemma begin_tool_fuel s s1 i inv st :
  tool_dispatch s s1 i inv st -> st_policy s1 = st_policy s /\ st_status s1 = st_status s
  /\ st_attempts s1 = st_attempts s
  /\ open_ops (st_tool_operations s1) = open_ops (st_tool_operations s)
  /\ exists o, st_tool_operations s1 !! i = Some o
       /\ ToolOp.op_is_terminal (op_status_of o) = false.
Proof.
  intros (Hst & Hp & Hb).
  unfold pending_op in Hp. apply fmap_Some in Hp as ([j o1] & (Ho1 & Hopen & _)%list_find_Some & ->).
  apply begin_tool_spec in Hb as (o & r & Ho & (_ & _ & _ & _ & Hd) & -> & _). cbn in *.
  simplify_eq.
  assert (ToolOp.op_is_terminal (ToolOp.op_status r) = false) as Hr.
  { by destruct (ToolOp.op_status (do_record o1)), (ToolOp.op_status r). }
  split_and!; try done.
  - pose proof (open_ops_insert _ _ (MkDurableOp r (do_call o1)) _ Ho1 Hopen) as He.
    unfold op_status_of in He. cbn in He. rewrite Hr in He. lia.
  - eexists. split; [apply list_lookup_insert_eq; by eapply lookup_lt_Some|done].
Qed.

Lemma tool_fuel_frame s s' :
  st_status s = Episode.ToolWorkPending -> st_status s' = st_status s ->
  st_policy s' = st_policy s -> st_attempts s' = st_attempts s ->
  episode_fuel s' + open_ops (st_tool_operations s)
  = episode_fuel s + open_ops (st_tool_operations s').
Proof.
  intros Hst Hs Hp Ha. unfold episode_fuel, remaining_attempts, stage, cycle.
  rewrite Hs, Hst, Hp, Ha. lia.
Qed.

(** A finished operation is paid for; a pending one is only polled. *)
Lemma tool_fuel s s1 i inv st o s' a :
  tool_dispatch s s1 i inv st -> apply_tool_outcome s1 i st o = Ok (s', a) ->
  progressing a = true ->
  match o with
  | TCompleted _ _ _ _ => episode_fuel s' < episode_fuel s
  | TPending _ => episode_fuel s' = episode_fuel s
  | TAmbiguous _ => False
  end.
Proof.
  intros Hd Ho Ha. pose proof Hd as (Hst & _ & _).
  destruct (begin_tool_fuel _ _ _ _ _ Hd) as (Hp & Hs & Hl & Hn & o1 & Ho1 & Hopen).
  assert (forall r s2, s2 = set_ops s1 (<[i := MkDurableOp r (do_call o1)]> (st_tool_operations s1)) ->
    episode_fuel s2 + (if ToolOp.op_is_terminal (ToolOp.op_status r) then 1 else 0)
    = episode_fuel s) as Hset.
  { intros r s2 ->.
    pose proof (tool_fuel_frame s (set_ops s1 (<[i := MkDurableOp r (do_call o1)]>
      (st_tool_operations s1))) Hst Hs Hp Hl) as Hf.
    pose proof (open_ops_insert _ _ (MkDurableOp r (do_call o1)) _ Ho1 Hopen) as He.
    unfold op_status_of in He. cbn in *. lia. }
  destruct o as [fs rd rcs sat|d|d]; cbn [apply_tool_outcome] in Ho; inv_step; [| |done].
  - simplify_eq.
    match goal with Hf : ToolOp.op_finish _ _ _ _ = Ok ?r |- _ =>
      apply ToolOp.op_finish_Ok in Hf as (Hterm & _ & ->) end.
    match goal with |- context [<[i := MkDurableOp ?r _]> _] => specialize (Hset r _ eq_refl) end.
    cbn in Hset. rewrite Hterm in Hset.
    match goal with |- episode_fuel (set_satisfied ?x _) < _ =>
      change (episode_fuel x < episode_fuel s) end. lia.
  - case_bool_decide; inv_step.
    + pose proof (tool_fuel_frame s s' Hst Hs Hp Hl). lia.
    + simplify_eq.
      match goal with Hf : ToolOp.op_transition _ _ = Ok _ |- _ =>
        apply ToolOp.op_transition_Ok in Hf as (Hterm & _ & ->) end.
      match goal with |- context [<[i := MkDurableOp ?r _]> _] => specialize (Hset r _ eq_refl) end.
      cbn in Hset. lia.
Qed.

End measure.

(** ** The answer of an advance is the durable status *)

Section answers.
Context `{Sha256}.
Variable eid : EpisodeId.

(** What an answer says of the state that was saved with it. *)
Definition answers (a : AgentLoopAdvance) (s : DurableEpisodeState) : Prop :=
  match a with
  | Progressed st | ProgressedAfter st _ =>
      st_status s = st /\ Episode.episode_is_terminal st = false /\ st <> Episode.Suspended
  | Terminal st => st_status s = st /\ Episode.episode_is_terminal st = true
  | Suspended => st_status s = Episode.Suspended \/ st_status s = Episode.SuspensionRequested
  end.

Lemma answers_progress s n : answers (progress n) (with_status s n).
Proof.
  unfold progress, answers. destruct (Episode.episode_is_terminal n) eqn:E; [done|].
  case_bool_decide; [by left|done].
Qed.

Lemma transition_answers s n s' a : transition_state s n = Ok (s', a) -> answers a s'.
Proof. intros. inv_step. apply answers_progress. Qed.

Lemma quiet_answers `{AgentToolGateway T} (t : T) s s' a :
  quiet_advance eid t s = Some (Ok (s', a)) -> answers a s'.
Proof.
  unfold quiet_advance. destruct (st_status s); intros [= Hq]; try (by eapply transition_answers).
  - unfold prepare_state in Hq. repeat (case_match; [by eapply transition_answers|]). by inv_step.
  - unfold recover_dispatch in Hq. inv_step. case_match; inv_step; [by left|].
    apply answers_progress.
  - unfold plan_state in Hq. inv_step. repeat case_match; inv_step; try done.
    repeat case_match; inv_step; done.
  - unfold settle_tools in Hq. by inv_step.
  - unfold review_state in Hq. inv_step. apply answers_progress.
Qed.

Lemma model_answers s1 req o s' a :
  apply_model_outcome eid s1 req o = Ok (s', a) -> answers a s'.
Proof.
  intros Ho. destruct o; cbn [apply_model_outcome] in Ho;
    unfold record_turn, after_failed_dispatch in Ho; inv_step; repeat case_match; inv_step;
    try done; apply answers_progress.
Qed.

Lemma tool_answers s1 i st o s' a :
  st_status s1 = Episode.ToolWorkPending -> apply_tool_outcome s1 i st o = Ok (s', a) ->
  answers a s'.
Proof.
  intros Hs Ho. destruct o; cbn [apply_tool_outcome] in Ho; inv_step; repeat case_match; inv_step;
    try done; by left.
Qed.

Lemma advanced_answers `{AgentToolGateway T} (t t' : T) s s' a :
  advanced eid t s t' s' a -> answers a s'.
Proof.
  destruct 1 as [Ht|Hs|s' a Hq _|s1 req o s' a _ Ho|s1 i inv st o t' s' a Hd _ Ho].
  - by split.
  - done.
  - by eapply quiet_answers.
  - by eapply model_answers.
  - eapply tool_answers, Ho. destruct (begin_tool_fuel _ _ _ _ _ Hd) as (_ & -> & _). apply Hd.
Qed.

(** An advance after which the driver goes round again. *)
Lemma advanced_fuel `{AgentToolGateway T} (t t' : T) s s' a :
  advanced eid t s t' s' a -> progressing a = true ->
  (t' = t /\ episode_fuel s' < episode_fuel s)
  \/ exists (b : bool) inv o,
       (if b then tool_reconcile inv t else tool_execute inv t) = (t', Ok o)
       /\ match o with
          | TCompleted _ _ _ _ => episode_fuel s' < episode_fuel s
          | TPending _ => episode_fuel s' = episode_fuel s
          | TAmbiguous _ => False
          end.
Proof.
  destruct 1 as [Ht|Hs|s' a Hq _|s1 req o s' a Hd Ho|s1 i inv st o t' s' a Hd Hc Ho];
    intros Ha; try done.
  - left. split; [done|]. unfold quiet_advance in Hq.
    destruct (st_status s) eqn:Hst; simplify_eq.
    + inv_step. apply fuel_status_lt. unfold stage. cbn. rewrite Hst. lia.
    + by eapply prepare_fuel.
    + by eapply recover_fuel.
    + by eapply plan_fuel.
    + by eapply settle_fuel.
    + by eapply review_fuel.
    + by inv_step.
  - left. split; [done|]. by eapply model_fuel.
  - right. exists (reconciling st), inv, o. split; [done|]. by eapply tool_fuel.
Qed.

End answers.

(** ** Tools that answer "pending" only so often *)

(** A promise of the tool adapter: a "pending" answer uses up patience, a
    completed one restores at most [patience_bound] of it. *)
Class PatientTools (T : Type) `{AgentToolGateway T} := {
  patience : T -> nat;
  patience_bound : nat;
  patience_pending : forall (b : bool) inv t t' d,
    (if b then tool_reconcile inv t else tool_execute inv t) = (t', Ok (TPending d)) ->
    patience t' < patience t;
  patience_completed : forall (b : bool) inv t t' st d rs sat,
    (if b then tool_reconcile inv t else tool_execute inv t) = (t', Ok (TCompleted st d rs sat)) ->
    patience t' <= Nat.max patience_bound (patience t);
}.

(** The scripted double plays one step of its script per call. *)
Lemma scripted_tool_shrinks act inv t t' r :
  scripted_tool_invoke act inv t = (t', Ok r) -> length (sf_steps t') < length (sf_steps t).
Proof.
  unfold scripted_tool_invoke. destruct (sf_steps t) as [|x l]; [done|].
  case_match; intros [= <-]; cbn; lia.
Qed.

#[export] Instance scripted_tools_patient : PatientTools ScriptedFakeToolGateway.
Proof.
  refine {| patience t := length (sf_steps t); patience_bound := 0 |}.
  - intros b inv t t' d Hc. destruct b; exact (scripted_tool_shrinks _ _ _ _ _ Hc).
  - intros b inv t t' st d rs sat Hc.
    assert (length (sf_steps t') < length (sf_steps t)); [|lia].
    destruct b; exact (scripted_tool_shrinks _ _ _ _ _ Hc).
Defined.

Section termination.
Context `{Sha256} `{EpisodeRepositoryLaws R} `{ModelGateway M} `{PatientTools T}
  `{AgentRuntimeFaultInjector F} `{CancellationStore K}.
Variable eid : EpisodeId.

(** How many rounds the loop may take: for each thing the episode still
    has to pay for, as many polls as the tools may ask for. *)
Definition rounds (fuel patient top : nat) : nat := fuel * S top + patient + 1.

Definition drive_bound (w : World R M T F) : nat :=
  match durable eid w with
  | Some v => rounds (episode_fuel (ve_state v)) (patience (w_tools w))
                (Nat.max patience_bound (patience (w_tools w)))
  | None => 1
  end.

Lemma resume_durable g (w : World R M T F) rev s :
  durable eid w = Some (MkVersioned rev s) -> st_episode_id s = eid ->
  exists rev' s', durable eid (resume eid g w).1 = Some (MkVersioned rev' s')
    /\ st_episode_id s' = eid.
Proof.
  intros Hd Hid. destruct (resume eid g w) as [w' r] eqn:E.
  destruct (resume_refines eid _ _ _ _ _ _ E Hd Hid) as (es & s' & Hl & Ha & _).
  do 2 eexists. split; [exact Ha|].
  by rewrite (same_identity_id _ _ (call_log_identity eid _ _ _ _ _ Hl)).
Qed.

Lemma drive_round_next cancellation (w : World R M T F) (k : K) w' k' :
  drive_round eid cancellation w k = (w', k', Ok None) ->
  exists a, advance eid w = (w', Ok a) /\ progressing a = true.
Proof.
  intros Hr. unfold drive_round in Hr. destruct (check_cancelled cancellation k) as [k1 [[]|e]];
    [|done].
  destruct (advance eid w) as [w1 [a|e]] eqn:E; [|done]. exists a.
  destruct a as [st|st dl|st|]; [by simplify_eq/=..| |done]. by destruct st.
Qed.

Lemma drive_loop_stops top n : forall (w : World R M T F) (k : K) rev s cancellation,
  durable eid w = Some (MkVersioned rev s) -> st_episode_id s = eid ->
  patience_bound <= top -> patience (w_tools w) <= top ->
  rounds (episode_fuel s) (patience (w_tools w)) top <= n ->
  exists out, forall fuel, n <= fuel -> drive_loop fuel eid cancellation w k = Some out.
Proof.
  induction n as [|n IH]; intros w k rev s cancellation Hd Hid Hb Hp Hn;
    [unfold rounds in Hn; lia|].
  destruct (drive_round eid cancellation w k) as [[w1 k1] r1] eqn:Er.
  assert (forall out, (forall fuel, n <= fuel ->
      match r1 with Ok (Some _) => Some (w1, k1, Ok tt) | Err e => Some (w1, k1, Err e)
      | Ok None => drive_loop fuel eid cancellation w1 k1 end = Some out) ->
    forall fuel, S n <= fuel -> drive_loop fuel eid cancellation w k = Some out) as Hstep.
  { intros out Ho [|fuel] Hf; [lia|]. cbn [drive_loop]. rewrite Er. specialize (Ho fuel ltac:(lia)).
    by destruct r1 as [[[]|]|e]. }
  destruct r1 as [[[]|]|e]; [eauto| |eauto].
  destruct (drive_round_next _ _ _ _ _ Er) as (a & Ea & Ha).
  destruct (advance_ok eid _ _ _ _ _ Ea Hd Hid) as (rev' & s' & Hadv & Hd').
  assert (st_episode_id s' = eid) as Hid'.
  { destruct (advance_refines eid _ _ _ _ _ Ea Hd Hid) as (es & s2 & Hl & Ha2 & _).
    rewrite Hd' in Ha2. injection Ha2 as _ <-.
    by rewrite (same_identity_id _ _ (call_log_identity eid _ _ _ _ _ Hl)). }
  assert (patience (w_tools w1) <= top
    /\ rounds (episode_fuel s') (patience (w_tools w1)) top <= n) as [Hp' Hn'].
  { unfold rounds in *. destruct (advanced_fuel eid _ _ _ _ _ Hadv Ha)
      as [(-> & Hf)|(b & inv & o & Hc & Hf)]; [split; [done|nia]|].
    destruct o as [st d rs sat|d|d]; [| |done].
    - apply patience_completed in Hc. split; [lia|nia].
    - apply patience_pending in Hc. rewrite Hf. split; lia. }
  destruct (IH w1 k1 rev' s' cancellation Hd' Hid' Hb Hp' Hn') as (out & Ho). eauto.
Qed.

(** C13 The driver terminates: with tools that do not answer "pending"
    for ever, resuming an episode and advancing it comes to one answer
    within [drive_bound] rounds, whatever the model answers, wherever the
    repository or the injected faults fail, and whoever cancels. *)
Theorem driver_terminates (g : EpisodeAllowance) (cancellation : option string)
    (w : World R M T F) (k : K) (rev : N) (s : DurableEpisodeState)
    (Hd : durable eid w = Some (MkVersioned rev s)) (Hid : st_episode_id s = eid) :
  exists out, forall fuel, drive_bound (resume eid g w).1 <= fuel ->
    drive_candidate fuel eid g cancellation w k = Some out.
Proof.
  destruct (resume_durable g w rev s Hd Hid) as (rev' & s' & Hd' & Hid').
  unfold drive_candidate, drive_bound. rewrite Hd'.
  destruct (resume eid g w) as [w' [st|e]]; [|eauto].
  eapply drive_loop_stops; [exact Hd'|done|apply Nat.le_max_l|apply Nat.le_max_r|done].
Qed.

End termination.

(** ** The verdict *)

Section verdict.
Context `{Sha256} `{EpisodeRepositoryLaws R} `{ModelGateway M} `{AgentToolGateway T}
  `{AgentRuntimeFaultInjector F} `{CancellationStore K}.
Variable eid : EpisodeId.

Lemma run_calls_app cs cs' (w : World R M T F) :
  run_calls eid (cs ++ cs') w = run_calls eid cs' (run_calls eid cs w).
Proof. revert w. by induction cs; cbn. Qed.

Lemma run_calls_snoc cs c (w : World R M T F) :
  run_calls eid (cs ++ [c]) w = (run_call eid c (run_calls eid cs w)).1.
Proof. by rewrite run_calls_app. Qed.

(** What the driver's answer says of the durable state. *)
Definition verdict (r : result DriveError unit) (st : Episode.EpisodeStatus) : Prop :=
  match r with
  | Ok _ => st = Episode.Succeeded
  | Err (EndedIn st') =>
      st = st' /\ Episode.episode_is_terminal st = true /\ st <> Episode.Succeeded
  | Err SuspendedForReconciliation => st = Episode.Suspended
  | Err (DriveFault _ | StoreError _ | CancelledByUser) => True
  end.

(** One round that ends the loop. *)
Lemma drive_round_verdict cancellation (w : World R M T F) (k : K) w' k' r rev s :
  drive_round eid cancellation w k = (w', k', r) ->
  durable eid w = Some (MkVersioned rev s) -> EpInv eid s ->
  (w' = w \/ w' = (run_call eid CallAdvance w).1)
  /\ exists rev' s', durable eid w' = Some (MkVersioned rev' s')
     /\ match r with
        | Ok None => w' = (run_call eid CallAdvance w).1
        | Ok (Some _) => verdict (Ok tt) (st_status s')
        | Err e => verdict (Err e) (st_status s')
        end.
Proof.
  intros Hr Hd Hi. unfold drive_round in Hr.
  destruct (check_cancelled cancellation k) as [k1 [[]|e]] eqn:Ec.
  2:{ injection Hr as <- <- <-. split; [by left|]. exists rev, s. split; [done|].
      unfold check_cancelled in Ec. destruct cancellation as [id|]; [|done].
      destruct (is_cancelled id k) as [k2 [c|e2]]; cbn in Ec; [|by injection Ec as <- <-].
      destruct c; cbn in Ec; [by injection Ec as <- <-|done]. }
  cbn [run_call]. destruct (advance eid w) as [w1 r1] eqn:Ea. injection Hr as <- <- <-.
  split; [by right|].
  destruct r1 as [a|e].
  - destruct (advance_ok eid _ _ _ _ _ Ea Hd (inv_id _ _ Hi)) as (rev' & s' & Hadv & Hd').
    exists rev', s'. split; [done|]. pose proof (advanced_answers eid _ _ _ _ _ Hadv) as Hans.
    assert (EpInv eid s') as Hi'.
    { destruct (run_calls_history eid [CallAdvance] w _ _ Hd (inv_id _ _ Hi))
        as (es & s2 & Hh & Hd2 & _). cbn in Hd2. rewrite Ea in Hd2. cbn in Hd2.
      rewrite Hd' in Hd2. injection Hd2 as _ <-.
      exact (proj1 (proj2 (history_steps eid _ _ _ _ Hi Hh))). }
    destruct a as [st|st dl|st|]; cbn in Hans |- *; [done|done| |].
    + destruct Hans as [<- Ht]. by destruct (st_status s') eqn:Hst; cbn; rewrite ?Hst.
    + destruct Hans as [|Hs]; [done|]. exfalso.
      pose proof (inv_status _ _ Hi') as Hst. unfold status_inv in Hst. by rewrite Hs in Hst.
  - destruct (advance_refines eid _ _ _ _ _ Ea Hd (inv_id _ _ Hi)) as (es & s' & _ & Ha & _).
    by do 2 eexists.
Qed.

Lemma drive_loop_verdict fuel : forall spec (w0 : World R M T F) cs cancellation k w' k' r,
  launched eid spec w0 ->
  drive_loop fuel eid cancellation (run_calls eid cs w0) k = Some (w', k', r) ->
  exists n rev s, w' = run_calls eid (cs ++ replicate n CallAdvance) w0
    /\ durable eid w' = Some (MkVersioned rev s) /\ verdict r (st_status s).
Proof.
  induction fuel as [|fuel IH]; [done|]. intros spec w0 cs cancellation k w' k' r Hl Hr.
  cbn [drive_loop] in Hr.
  destruct (drive_round _ _ _ _) as [[w1 k1] r1] eqn:Er.
  destruct (launched_history eid spec w0 cs Hl) as (s0 & rev & s & _ & _ & Hd & _ & Hi & _).
  destruct (drive_round_verdict _ _ _ _ _ _ _ _ Er Hd Hi) as (Hw & rev1 & s1 & Hd1 & Hv).
  assert (forall r, verdict r (st_status s1) -> exists n rev s,
    w1 = run_calls eid (cs ++ replicate n CallAdvance) w0
    /\ durable eid w1 = Some (MkVersioned rev s) /\ verdict r (st_status s)) as Hend.
  { intros r2 Hr2. destruct Hw as [-> | ->]; [exists 0|exists 1]; exists rev1, s1; cbn [replicate].
    - by rewrite app_nil_r.
    - by rewrite run_calls_snoc. }
  destruct r1 as [[[]|]|e]; [injection Hr as <- <- <-; by apply Hend| |
    injection Hr as <- <- <-; by apply Hend].
  rewrite Hv, <-run_calls_snoc in Hr. destruct (IH _ _ _ _ _ _ _ _ Hl Hr) as (n & rev2 & s2 & -> & Hrest).
  exists (S n), rev2, s2. split; [|done]. rewrite <-(assoc_L (++)). done.
Qed.

(** The driver is one more client of the runner, and its answer is
    the durable status: a drive of an episode is a resume and some
    advances; it reports success exactly when it leaves [Succeeded]
    durable, names the terminal status it found, and asks for
    reconciliation only when the episode is suspended. *)
Theorem driver_reports_durable_status (spec : AgentLoopRuntimeSpec) (w : World R M T F)
    (cs : list Call) (g : EpisodeAllowance) (cancellation : option string) (k k' : K)
    (fuel : nat) (w' : World R M T F) (r : result DriveError unit) (Hl : launched eid spec w)
    (Hr : drive_candidate fuel eid g cancellation (run_calls eid cs w) k = Some (w', k', r)) :
  exists n rev s, w' = run_calls eid (cs ++ CallResume g :: replicate n CallAdvance) w
    /\ durable eid w' = Some (MkVersioned rev s) /\ verdict r (st_status s).
Proof.
  unfold drive_candidate in Hr.
  assert ((resume eid g (run_calls eid cs w)).1 = run_calls eid (cs ++ [CallResume g]) w) as Hw.
  { rewrite run_calls_snoc. cbn. by destruct (resume _ _ _). }
  destruct (resume eid g (run_calls eid cs w)) as [w1 [st|e]] eqn:E; cbn in Hw; subst w1.
  - destruct (drive_loop_verdict _ _ _ _ _ _ _ _ _ Hl Hr) as (n & rev & s & -> & Hrest).
    exists n, rev, s. split; [|done]. by rewrite <-(assoc_L (++)).
  - injection Hr as <- <- <-.
    destruct (launched_history eid spec w (cs ++ [CallResume g]) Hl) as (_ & rev & s & _ & _ & Hd & _).
    exists 0, rev, s. by split_and!.
Qed.

End verdict.

(** ** Witnesses *)

Section witnesses.
Local Existing Instance toy_sha.

(** A store in which nobody cancels. *)
Local Instance nobody_cancels : CancellationStore unit := fun _ k => (k, Ok false).

Lemma driver_terminates_witness :
  exists out, forall fuel,
    drive_bound sample_episode_id
      (resume sample_episode_id (policy_allowance sample_policy) sample_world).1 <= fuel ->
    drive_candidate fuel sample_episode_id (policy_allowance sample_policy) (Some "task-1")
      sample_world tt = Some out.
Proof.
  apply (driver_terminates sample_episode_id (policy_allowance sample_policy) (Some "task-1")
    sample_world tt 0 sample_state).
  - vm_compute. reflexivity.
  - vm_compute. reflexivity.
Defined.

(** The scripted run, driven. *)
Definition sample_drive : option (SampleWorld * unit * result DriveError unit) :=
  drive_candidate 20 sample_episode_id (policy_allowance sample_policy) None
    (run_calls sample_episode_id [] sample_world) tt.

Definition sample_driven : SampleWorld :=
  match sample_drive with Some (w, _, _) => w | None => sample_world end.

Lemma sample_drive_ends : sample_drive = Some (sample_driven, tt, Ok tt).
Proof.
  unfold sample_driven.
  assert (match sample_drive with Some (_, _, Ok _) => true | _ => false end = true) as Hs
    by (vm_compute; reflexivity).
  by destruct sample_drive as [[[w []] [[]|e]]|].
Qed.

Lemma driver_reports_durable_status_witness :
  exists rev s, durable sample_episode_id sample_driven = Some (MkVersioned rev s)
    /\ st_status s = Episode.Succeeded.
Proof.
  destruct (driver_reports_durable_status sample_episode_id sample_runtime_spec sample_world []
    (policy_allowance sample_policy) None tt tt 20 sample_driven (Ok tt) sample_launched
    sample_drive_ends) as (n & rev & s & _ & Hd & Hv).
  exists rev, s. split; [exact Hd|exact Hv].
Defined.

End witnesses.
