(* ===== verification/Overlaps.v ===== *)
(** * Handlers that overlap

    The handlers of [src/crates/alloyport-server/src] at the grain of their
    locks.  [prepare_assignment], [prepare_cancel] and
    [prepare_transport_ack] hold the lock of the deliveries from the reading
    of the record to the taking of the number, and not while the frame is
    sent; [register] admits its connection before its welcome is sent;
    [ingest] gives the registry up while it observes.  A task is a handler
    under way, a step is one section under the lock of the registry, one run
    of the persistence or one send, and a run is any list of steps: every
    interleaving of the handlers is one, abandoned handlers included.  What
    the handlers do between their sections is not fixed, so a run is also
    more than that.  The model keeps, besides the state of the server, what
    was prepared and not sent, what will never be sent, and the connections
    that got a frame of another one. *)

From stdpp Require Import base strings pretty gmap sorting list.
From S2P Require Import Prelude Text Digest Identity Vocabulary Artifacts Uploads UploadLedger UploadTheorems RunEvents ControlPlane ControlTheorems Interactions Wire WorkerJournal WorkerSession Service Observation ServerSession Coordinator ServerCalls SessionInvariant SessionSteps SessionCalls ServerTheorems.

Local Open Scope N_scope.

(** ** Acceptance *)

(** The frames a worker receives pass its checks one after the other, when
    it has received up to [last], been acknowledged up to [acknowledged] and
    sent up to [sent]. *)
Fixpoint accepted_in_turn (frames : list ServerToWorker) (last acknowledged sent : N) : Prop :=
  match frames with
  | [] => True
  | frame :: frames =>
      validate_server_frame frame last acknowledged sent true = Ok tt
      /\ accepted_in_turn frames (sm_sequence frame) (sm_acknowledges_worker_through frame) sent
  end.

(** ** Tasks *)

(** What a delivery prepares. *)
Inductive DeliveryKind :=
| DeliverAcknowledgement (connection_id : string)
| DeliverAssignment (attempt_id : string)
| DeliverCancel (attempt_id reason : string).

(** The record it reads: the acknowledgement is for one connection. *)
Definition delivers (kind : DeliveryKind) (worker : WorkerRecord) : bool :=
  match kind with
  | DeliverAcknowledgement connection_id => String.eqb (wo_connection_id worker) connection_id
  | DeliverAssignment _ | DeliverCancel _ _ => true
  end.

(** The holder of the delivery lock: what it read, and its message once it
    is persisted. *)
Record Delivery := MkDelivery {
  dl_task : nat;
  dl_worker_id : string;
  dl_kind : DeliveryKind;
  dl_snapshot : Snapshot;
  dl_message : option (string * ServerMessage);
}.

(** A stream that is being opened: its connection is named, stored, and
    admitted with its replay under way. *)
Inductive Opening :=
| Drawn (connection_id : string)
| Stored (connection_id : string) (hello : WorkerHello)
| Replaying (connection_id : string).

(** A frame that is being ingested: checked, observed, and counted with the
    last number sent. *)
Inductive Ingestion :=
| FrameChecked (worker_id connection_id : string) (frame : WorkerToServer)
| FrameObserved (worker_id connection_id : string) (frame : WorkerToServer) (now_ms : N)
| FrameRecorded (connection_id : string) (frame : WorkerToServer) (last_server_sequence now_ms : N).

(** A frame and the connection it goes to. *)
Definition Addressed : Type := string * ServerToWorker.

(** The frames for a connection. *)
Definition on_connection (c : string) (l : list Addressed) : list ServerToWorker := (filter (fun p => p.1 = c) l).*2.

(** The first frame a task holds, and the others. *)
Fixpoint take_first (task : nat) (held : list (nat * Addressed)) : option (Addressed * list (nat * Addressed)) :=
  match held with
  | [] => None
  | (owner, frame) :: held =>
      if Nat.eqb owner task then Some (frame, held)
      else '(first, held) ← take_first task held; Some (first, (owner, frame) :: held)
  end.

Inductive OverlapStep {V : Type} :=
| StepDraw (task : nat)
| StepStore (task : nat) (hello : WorkerHello)
| StepAdmit (task : nat)
| StepRegistered (task : nat)
| StepLock (task : nat) (worker_id : string) (kind : DeliveryKind)
| StepPersist
| StepTake
| StepSend (task : nat)
| StepSendFailed (worker_id : string)
| StepCheck (task : nat) (worker_id connection_id : string) (frame : WorkerToServer)
| StepObserve (task : nat)
| StepRecord (task : nat)
| StepCursors (task : nat)
| StepStatus (connection_id : string) (code : Code)
| StepDetach (worker_id connection_id : string)
| StepReceiverGone (connection_id : string)
| StepAbandon (task : nat)
| StepControl (op : ControlOp)
| StepInteraction (op : InteractionOp (V:=V))
| StepUpload (op : UploadOp)
| StepRestart (connection_seed lease_seed : N).

Section overlaps.
Context {V A : Type} `{EqDecision V} `{ServiceClock} {Sha : Sha256} {Store : ArtifactStore A} {Laws : ArtifactStoreLaws A}
  {Retention : RetentionStore A}.
Implicit Types (s : Service V A).

(** ** The phases of the handlers *)

(** The run of the persistence of a delivery. *)
Definition persist_delivery (worker_id : string) (snap : Snapshot) (kind : DeliveryKind) : Svc V A CError (string * ServerMessage) :=
  match kind with
  | DeliverAcknowledgement connection_id =>
      now_ms ← now_unix_ms;
      _ ← on_control_partly (update_connection_sequences connection_id (sn_last_worker_sequence snap)
            (sn_sequence snap) (sn_last_server_acknowledged snap) now_ms);
      mret (EmptyString, SAcknowledgement)
  | DeliverAssignment attempt_id =>
      lease_number ← next_lease;
      now_ms ← now_unix_ms;
      let message_id := "assignment:" +:+ attempt_id in
      contract ← on_control_partly (prepare_assignment_delivery
        (MkPreparation
           (ControlPlane.MkFrame (sn_connection_id snap) (sn_sequence snap) message_id worker_id FrameAssignment
              (Some attempt_id))
           ("lease-" +:+ pretty lease_number) (sn_last_worker_sequence snap) (sn_last_server_acknowledged snap)
           now_ms ATTEMPT_LEASE_MS));
      mret (message_id, SAssignment (contract_to_assignment contract))
  | DeliverCancel attempt_id reason =>
      now_ms ← now_unix_ms;
      let message_id := "cancel:" +:+ attempt_id in
      _ ← on_control (record_server_frame
            (ControlPlane.MkFrame (sn_connection_id snap) (sn_sequence snap) message_id worker_id FrameCancel
               (Some attempt_id)) now_ms);
      _ ← on_control_partly (update_connection_sequences (sn_connection_id snap) (sn_last_worker_sequence snap)
            (sn_sequence snap) (sn_last_server_acknowledged snap) now_ms);
      mret (message_id, SCancel attempt_id reason)
  end.

(** The three deliveries. *)
Definition prepare (worker_id : string) (kind : DeliveryKind) : Svc V A CError Prepared :=
  match kind with
  | DeliverAcknowledgement connection_id => prepare_transport_ack worker_id connection_id
  | DeliverAssignment attempt_id => prepare_assignment worker_id attempt_id
  | DeliverCancel attempt_id reason => prepare_cancel worker_id attempt_id reason
  end.

(** Each is its three sections one after the other. *)
Lemma prepare_phases worker_id kind s :
  prepare worker_id kind s
  = (snap ← delivery_snapshot worker_id (delivers kind);
     match snap with
     | None => mret None
     | Some snap => message ← persist_delivery worker_id snap kind; prepared_frame worker_id snap message.1 message.2
     end) s.
Proof.
  destruct kind; cbn [prepare delivers persist_delivery];
    unfold prepare_transport_ack, prepare_assignment, prepare_cancel, mbind, svc_bind, delivery_snapshot; cbn;
    destruct (sv_workers s !! worker_id); cbn; try done; case_match; try done; repeat (case_match; try done).
Qed.

(** The end of [disconnect], in the registry. *)
Definition detach (worker_id connection_id : string) s : Service V A :=
  match sv_workers s !! worker_id with
  | Some worker =>
      if String.eqb (wo_connection_id worker) connection_id
      then update_record worker_id (with_connected false) s else s
  | None => s
  end.

Lemma disconnect_phases worker_id connection_id s :
  disconnect_session worker_id connection_id s
  = (now_ms ← now_unix_ms; _ ← attempt (on_control (disconnect connection_id now_ms)); modify (detach worker_id connection_id)) s.
Proof. done. Qed.

(** ** State *)

Record Overlap := MkOverlap {
  ov_service : Service V A;
  ov_lock : option Delivery;
  ov_opening : gmap nat Opening;
  ov_ingesting : gmap nat Ingestion;
  ov_held : list (nat * Addressed);
  ov_lost : list Addressed;
  ov_strayed : list string;
  ov_ingested : Ingested;
}.

Definition overlap_new s : Overlap := MkOverlap s None ∅ ∅ [] [] [] [].

Definition with_service (o : Overlap) s : Overlap :=
  MkOverlap s (ov_lock o) (ov_opening o) (ov_ingesting o) (ov_held o) (ov_lost o) (ov_strayed o) (ov_ingested o).
Definition with_lock (o : Overlap) (lock : option Delivery) : Overlap :=
  MkOverlap (ov_service o) lock (ov_opening o) (ov_ingesting o) (ov_held o) (ov_lost o) (ov_strayed o) (ov_ingested o).
Definition with_opening (o : Overlap) (opening : gmap nat Opening) : Overlap :=
  MkOverlap (ov_service o) (ov_lock o) opening (ov_ingesting o) (ov_held o) (ov_lost o) (ov_strayed o) (ov_ingested o).
Definition with_ingesting (o : Overlap) (ingesting : gmap nat Ingestion) : Overlap :=
  MkOverlap (ov_service o) (ov_lock o) (ov_opening o) ingesting (ov_held o) (ov_lost o) (ov_strayed o) (ov_ingested o).
Definition with_frames (o : Overlap) (held : list (nat * Addressed)) (lost : list Addressed) (strayed : list string) : Overlap :=
  MkOverlap (ov_service o) (ov_lock o) (ov_opening o) (ov_ingesting o) held lost strayed (ov_ingested o).
Definition with_frame (o : Overlap) (entry : string * string * WorkerToServer) : Overlap :=
  MkOverlap (ov_service o) (ov_lock o) (ov_opening o) (ov_ingesting o) (ov_held o) (ov_lost o) (ov_strayed o)
    (ov_ingested o ++ [entry]).

(** The frames of a connection that are prepared and not sent, and those
    that never will be. *)
Definition held_for (c : string) (o : Overlap) : list ServerToWorker := on_connection c (ov_held o).*2.
Definition lost_for (c : string) (o : Overlap) : list ServerToWorker := on_connection c (ov_lost o).

Definition holds_lock (task : nat) (o : Overlap) : bool :=
  match ov_lock o with Some delivery => Nat.eqb (dl_task delivery) task | None => false end.

(** A handler sends what it prepared before it prepares more; a
    registration sends at its end. *)
Definition may_deliver (task : nat) (o : Overlap) : bool :=
  match ov_lock o with
  | Some _ => false
  | None => bool_decide (is_Some (ov_opening o !! task)) || bool_decide (take_first task (ov_held o) = None)
  end.

(** The frames a task holds are dropped with it. *)
Definition drop_held (task : nat) (o : Overlap) : Overlap :=
  with_frames o (filter (fun e => e.1 <> task) (ov_held o))
    (ov_lost o ++ (filter (fun e => e.1 = task) (ov_held o)).*2) (ov_strayed o).

(** [prepare_*] gives its frame with the sender it read; [register] ignores
    the sender and keeps the frame for its own connection. *)
Definition hold (task : nat) (frame : Addressed) (o : Overlap) : Overlap :=
  match ov_opening o !! task with
  | Some (Replaying c) =>
      if decide (c = frame.1) then with_frames o (ov_held o ++ [(task, frame)]) (ov_lost o) (ov_strayed o)
      else with_frames o (ov_held o ++ [(task, (c, frame.2))]) (ov_lost o ++ [frame]) (ov_strayed o ++ [c])
  | _ => with_frames o (ov_held o ++ [(task, frame)]) (ov_lost o) (ov_strayed o)
  end.

(** ** Steps *)

(** [register] up to its connection. *)
Definition store_connection (connection_id : string) (hello : WorkerHello) : Svc V A CError (list AssignmentRecord) :=
  now_ms ← now_unix_ms;
  registration ← lift (ok_or (hello_to_registration hello) Repo.Corrupt);
  register_connection registration
    (MkConnection connection_id (wh_worker_id hello) (wh_instance_id hello) now_ms) now_ms.

Definition step_open (step : OverlapStep (V:=V)) (o : Overlap) : Overlap :=
  match step with
  | StepDraw task =>
      with_service (with_opening o (<[task := Drawn (connection_name (sv_connection_counter (ov_service o)))]> (ov_opening o)))
        (next_connection (E:=CError) (ov_service o)).1
  | StepStore task hello =>
      match ov_opening o !! task with
      | Some (Drawn c) =>
          let '(s, r) := store_connection c hello (ov_service o) in
          with_opening (with_service o s)
            (match r with Ok _ => <[task := Stored c hello]> (ov_opening o) | Err _ => delete task (ov_opening o) end)
      | _ => o
      end
  | StepAdmit task =>
      match ov_opening o !! task with
      | Some (Stored c hello) =>
          let o := with_opening (with_service o (admit_connection hello c (ov_service o))) (<[task := Replaying c]> (ov_opening o)) in
          with_frames o (ov_held o ++ [(task, (c, welcome hello c))]) (ov_lost o) (ov_strayed o)
      | _ => o
      end
  | StepRegistered task =>
      match ov_opening o !! task with
      | Some (Replaying c) => if holds_lock task o then o else with_opening o (delete task (ov_opening o))
      | _ => o
      end
  | _ => o
  end.

Definition step_deliver (step : OverlapStep (V:=V)) (o : Overlap) : Overlap :=
  match step with
  | StepLock task worker_id kind =>
      if may_deliver task o then
        match (delivery_snapshot (E:=CError) worker_id (delivers kind) (ov_service o)).2 with
        | Ok (Some snap) => with_lock o (Some (MkDelivery task worker_id kind snap None))
        | _ => o
        end
      else o
  | StepPersist =>
      match ov_lock o with
      | Some (MkDelivery task worker_id kind snap None) =>
          let '(s, r) := persist_delivery worker_id snap kind (ov_service o) in
          with_lock (with_service o s)
            (match r with Ok message => Some (MkDelivery task worker_id kind snap (Some message)) | Err _ => None end)
      | _ => o
      end
  | StepTake =>
      match ov_lock o with
      | Some (MkDelivery task worker_id _ snap (Some message)) =>
          let '(s, r) := prepared_frame (E:=CError) worker_id snap message.1 message.2 (ov_service o) in
          let o := with_lock (with_service o s) None in
          match r with Ok (Some frame) => hold task frame o | _ => o end
      | _ => o
      end
  | StepSend task =>
      match ov_opening o !! task, take_first task (ov_held o) with
      | None, Some ((c, frame), held) =>
          let '(s, r) := send (E:=Code) c (Ok frame) (ov_service o) in
          match r with
          | Ok true => with_frames (with_service o s) held (ov_lost o) (ov_strayed o)
          | _ => drop_held task o
          end
      | _, _ => o
      end
  | StepSendFailed worker_id => with_service o (mark_send_failed (E:=Code) worker_id (ov_service o)).1
  | _ => o
  end.

(** [ingest] while it has given the registry up. *)
Definition observe_frame (worker_id : string) (frame : WorkerToServer) : Svc V A Code N :=
  now_ms ← now_unix_ms; _ ← observe_message worker_id (wm_message frame) now_ms; mret now_ms.

Definition step_ingest (step : OverlapStep (V:=V)) (o : Overlap) : Overlap :=
  match step with
  | StepCheck task worker_id connection_id frame =>
      match (ingest_check worker_id connection_id frame (ov_service o)).2 with
      | Ok _ => with_ingesting o (<[task := FrameChecked worker_id connection_id frame]> (ov_ingesting o))
      | Err _ => o
      end
  | StepObserve task =>
      match ov_ingesting o !! task with
      | Some (FrameChecked worker_id connection_id frame) =>
          let '(s, r) := observe_frame worker_id frame (ov_service o) in
          with_ingesting (with_service o s)
            (match r with
             | Ok now_ms => <[task := FrameObserved worker_id connection_id frame now_ms]> (ov_ingesting o)
             | Err _ => delete task (ov_ingesting o)
             end)
      | _ => o
      end
  | StepRecord task =>
      match ov_ingesting o !! task with
      | Some (FrameObserved worker_id connection_id frame now_ms) =>
          let '(s, r) := ingest_record worker_id connection_id frame (ov_service o) in
          match r with
          | Ok last =>
              with_frame (with_ingesting (with_service o s) (<[task := FrameRecorded connection_id frame last now_ms]> (ov_ingesting o)))
                (worker_id, connection_id, frame)
          | Err _ => with_ingesting o (delete task (ov_ingesting o))
          end
      | _ => o
      end
  | StepCursors task =>
      match ov_ingesting o !! task with
      | Some (FrameRecorded connection_id frame last now_ms) =>
          with_ingesting (with_service o (ingest_persist connection_id frame last now_ms (ov_service o)).1)
            (delete task (ov_ingesting o))
      | _ => o
      end
  | _ => o
  end.

Definition run_overlap (o : Overlap) (step : OverlapStep (V:=V)) : Overlap :=
  match step with
  | StepDraw _ | StepStore _ _ | StepAdmit _ | StepRegistered _ => step_open step o
  | StepLock _ _ _ | StepPersist | StepTake | StepSend _ | StepSendFailed _ => step_deliver step o
  | StepCheck _ _ _ _ | StepObserve _ | StepRecord _ | StepCursors _ => step_ingest step o
  | StepStatus connection_id code => with_service o (send (E:=Code) connection_id (Err code) (ov_service o)).1
  | StepDetach worker_id connection_id => with_service o (detach worker_id connection_id (ov_service o))
  | StepReceiverGone connection_id => with_service o (close_channel connection_id (ov_service o))
  | StepAbandon task =>
      let o := drop_held task o in
      let o := if holds_lock task o then with_lock o None else o in
      with_ingesting (with_opening o (delete task (ov_opening o))) (delete task (ov_ingesting o))
  | StepControl op => with_service o (with_control (ov_service o) (run_control op (sv_control (ov_service o))))
  | StepInteraction op => with_service o (with_log (ov_service o) (run_interaction op (sv_log (ov_service o))))
  | StepUpload op => with_service o (uploaded op (ov_service o))
  | StepRestart connection_seed lease_seed => overlap_new (restarted connection_seed lease_seed (ov_service o))
  end.

Definition run_overlaps (steps : list (OverlapStep (V:=V))) (o : Overlap) : Overlap := foldl run_overlap o steps.

(** ** Streams *)

Lemma in_turn_numbers l last acknowledged sent i m :
  accepted_in_turn l last acknowledged sent -> l !! i = Some m -> sm_sequence m = last + N.of_nat i + 1.
Proof.
  revert last acknowledged i. induction l as [|x l IH]; intros last acknowledged i; [done|]. cbn [accepted_in_turn]. intros [Hv Hl].
  unfold validate_server_frame in Hv. apply guard_bind_Ok in Hv as [Hv%negb_false_iff%N.eqb_eq _].
  destruct i as [|i]; cbn; [intros [= <-]; lia|]. intros Hi. rewrite (IH _ _ _ Hl Hi). lia.
Qed.

Lemma stream_in_turn G c last l sent : stream_ok G c last l ->
  (forall m, m ∈ l -> sm_acknowledges_worker_through m <= sent) -> accepted_in_turn l 0 0 sent.
Proof.
  intros Hs Hsent. enough (forall k r, l = r ++ k ->
    accepted_in_turn k (N.of_nat (length r)) (acknowledged_before l (length r)) sent) as H0 by exact (H0 l [] eq_refl).
  induction k as [|m k IH]; intros r E; cbn [accepted_in_turn]; [done|].
  assert (l !! length r = Some m) as Hm by (subst l; by rewrite lookup_app_r, Nat.sub_diag).
  split; [eapply stream_accepted; [exact Hs|done|by apply Hsent, list_elem_of_lookup_2 with (length r)]|].
  specialize (IH (r ++ [m])). rewrite <-app_assoc in IH. specialize (IH E). rewrite length_app, Nat.add_1_r in IH. cbn in IH.
  rewrite Hm in IH. cbn in IH. by rewrite (st_numbers _ _ _ _ Hs _ _ Hm), N.add_1_r, <-Nat2N.inj_succ.
Qed.

(** Frames of a stream are accepted exactly in its order. *)
Lemma in_turn_prefix G c last l k sent : stream_ok G c last l -> k ⊆ l ->
  (forall m, m ∈ l -> sm_acknowledges_worker_through m <= sent) -> accepted_in_turn k 0 0 sent <-> k `prefix_of` l.
Proof.
  intros Hs Hk Hsent. split.
  - intros Ha. assert (forall i m, k !! i = Some m -> l !! i = Some m) as Hi.
    { intros i m Hm. pose proof (in_turn_numbers _ _ _ _ _ _ Ha Hm) as Hn.
      destruct (list_elem_of_lookup_1 l m) as [j Hj]; [by apply Hk, list_elem_of_lookup_2 with i|].
      rewrite (st_numbers _ _ _ _ Hs _ _ Hj) in Hn. by replace i with j by lia. }
    exists (drop (length k) l). rewrite <-(take_drop (length k) l) at 1. f_equal. apply list_eq. intros i.
    destruct (k !! i) as [m|] eqn:Em.
    + rewrite lookup_take_lt by (by eapply lookup_lt_Some). by apply Hi.
    + apply lookup_ge_None in Em. by rewrite lookup_take_ge.
  - intros [r ->]. eapply stream_in_turn; [by eapply stream_prefix|]. intros m Hm. apply Hsent, elem_of_app. by left.
Qed.

(** What is acknowledged was sent. *)
Lemma stream_bound G c last l sent : stream_ok G c last l -> 1 <= sent ->
  (forall wid f, (wid, c, f) ∈ G -> wm_sequence f <= sent) -> forall m, m ∈ l -> sm_acknowledges_worker_through m <= sent.
Proof.
  intros Hs H1 Hg m Hm. destruct (decide (2 <= sm_acknowledges_worker_through m)) as [H2|]; [|lia].
  destruct (st_ingested _ _ _ _ Hs m Hm _ ltac:(split; [exact H2|lia])) as (wid & f & Hf & <-). by apply (Hg wid).
Qed.

(** ** The invariant

    [I] holds, connection by connection, the frames that got a number, in
    its order. *)

(** The record of a worker is up to date with the stream of its
    connection. *)
Record current (I : gmap string (list ServerToWorker)) (G : Ingested) (r : WorkerRecord) (l : list ServerToWorker) : Prop := {
  cu_issued : I !! wo_connection_id r = Some l;
  cu_next : wo_next_server_sequence r = N.of_nat (length l) + 1;
  cu_ingested : ingested_through G (wo_connection_id r) (wo_last_worker_sequence r);
  cu_stream : stream_ok G (wo_connection_id r) (wo_last_worker_sequence r) l;
}.

Record registry_ok (I : gmap string (list ServerToWorker)) (G : Ingested) s : Prop := {
  re_control : CInv (sv_control s);
  re_channels : forall c, is_Some (sv_channels s !! c) <-> is_Some (I !! c);
  re_streams : forall c l, I !! c = Some l -> exists last, stream_ok G c last l;
  re_records : forall wid r, sv_workers s !! wid = Some r -> exists l, current I G r l;
  re_distinct : forall wid wid' r r', sv_workers s !! wid = Some r -> sv_workers s !! wid' = Some r' ->
    wo_connection_id r = wo_connection_id r' -> wid = wid';
}.

(** A delivery under the lock may still take the number it read. *)
Record delivery_ok (I : gmap string (list ServerToWorker)) (G : Ingested) s (d : Delivery) : Prop := {
  do_stream : exists l, I !! sn_connection_id (dl_snapshot d) = Some l
    /\ stream_ok G (sn_connection_id (dl_snapshot d)) (sn_last_worker_sequence (dl_snapshot d)) l;
  do_ingested : ingested_through G (sn_connection_id (dl_snapshot d)) (sn_last_worker_sequence (dl_snapshot d));
  do_record : forall r, sv_workers s !! dl_worker_id d = Some r -> wo_connection_id r = sn_connection_id (dl_snapshot d) ->
    sn_last_worker_sequence (dl_snapshot d) <= wo_last_worker_sequence r;
  do_message : forall id message, dl_message d = Some (id, message) ->
    id = default EmptyString (expected_server_message_id (Some message));
}.

(** A connection that is named and not admitted. *)
Definition awaits (x : Opening) : option string :=
  match x with Drawn c | Stored c _ => Some c | Replaying _ => None end.
Definition awaiting (opening : gmap nat Opening) (task : nat) (c : string) : Prop :=
  exists x, opening !! task = Some x /\ awaits x = Some c.

Record opening_ok (n : N) (I : gmap string (list ServerToWorker)) (opening : gmap nat Opening) (counter : N) : Prop := {
  op_names : exists seed, counter = (seed + n) mod 2 ^ 64
    /\ forall c, is_Some (I !! c) \/ (exists task, awaiting opening task c) ->
         exists i, i < n /\ c = connection_name ((seed + i) mod 2 ^ 64);
  op_fresh : forall task c, awaiting opening task c -> I !! c = None;
  op_once : forall task task' c, awaiting opening task c -> awaiting opening task' c -> task = task';
  op_replaying : forall task c, opening !! task = Some (Replaying c) -> is_Some (I !! c);
}.

(** Every number is on the channel, held or lost. *)
Record frames_ok (I : gmap string (list ServerToWorker)) (channels : gmap string Channel) (held : list (nat * Addressed)) (lost : list Addressed)
    (strayed : list string) : Prop := {
  fr_account : forall c l ch, I !! c = Some l -> channels !! c = Some ch -> c ∉ strayed ->
    frames_of ch ++ on_connection c held.*2 ++ on_connection c lost ≡ₚ l;
  fr_held : forall p, p ∈ held.*2 -> is_Some (I !! p.1);
  fr_lost : forall p, p ∈ lost -> is_Some (I !! p.1);
}.

Record overlap_ok (n : N) (I : gmap string (list ServerToWorker)) (o : Overlap) : Prop := {
  ok_registry : registry_ok I (ov_ingested o) (ov_service o);
  ok_lock : forall d, ov_lock o = Some d -> delivery_ok I (ov_ingested o) (ov_service o) d;
  ok_opening : opening_ok n I (ov_opening o) (sv_connection_counter (ov_service o));
  ok_frames : frames_ok I (sv_channels (ov_service o)) (ov_held o) (ov_lost o) (ov_strayed o);
}.

(** ** Steps that leave the sessions as they are *)

Lemma registry_same I G s s' : CInv (sv_control s') -> sv_workers s' = sv_workers s -> sv_channels s' = sv_channels s ->
  registry_ok I G s -> registry_ok I G s'.
Proof. intros Hc E1 E2 [H1 H2 H3 H4 H5]. split; rewrite ?E1, ?E2; done. Qed.

Lemma overlap_same n I o s' : CInv (sv_control s') -> sv_workers s' = sv_workers (ov_service o) ->
  sv_channels s' = sv_channels (ov_service o) -> sv_connection_counter s' = sv_connection_counter (ov_service o) ->
  overlap_ok n I o -> overlap_ok n I (with_service o s').
Proof.
  intros Hc E1 E2 E3 [H1 H2 H3 H4]. split; cbn; rewrite ?E2, ?E3; try done.
  - by eapply registry_same.
  - intros d Hd. destruct (H2 d Hd) as [L1 L2 L3 L4]. split; rewrite ?E1; done.
Qed.

Lemma overlap_calm n I o s' : calm (ov_service o) s' -> overlap_ok n I o -> overlap_ok n I (with_service o s').
Proof.
  intros Hc Ho. pose proof (calm_control _ _ Hc (re_control _ _ _ (ok_registry _ _ _ Ho))) as Hi.
  destruct Hc as (E1 & E2 & E3 & _). by apply overlap_same.
Qed.

Lemma overlap_lock n I o lock : (forall d, lock = Some d -> delivery_ok I (ov_ingested o) (ov_service o) d) ->
  overlap_ok n I o -> overlap_ok n I (with_lock o lock).
Proof. intros Hl [H1 H2 H3 H4]. by split. Qed.

Lemma overlap_ingesting n I o x : overlap_ok n I o -> overlap_ok n I (with_ingesting o x).
Proof. intros [H1 H2 H3 H4]. by split. Qed.

(** A task gives up its opening, or keeps its name. *)
Lemma overlap_opening n I o opening : overlap_ok n I o ->
  (forall task c, awaiting opening task c -> awaiting (ov_opening o) task c) ->
  (forall task c, opening !! task = Some (Replaying c) -> ov_opening o !! task = Some (Replaying c)) ->
  overlap_ok n I (with_opening o opening).
Proof.
  intros [H1 H2 [(seed & O0 & O1) O2 O3 O4] H4] Ha Hr. split; cbn; try done. split.
  - exists seed. split; [done|]. intros c [Hc|[task Hc]]; [by apply O1; left|]. apply O1. right. exists task. by apply Ha.
  - intros task c Hc. by eapply O2, Ha.
  - intros task task' c Hc Hc'. eapply O3; by apply Ha.
  - intros task c Hc. by eapply O4, Hr.
Qed.

Lemma overlap_opening_delete n I o task : overlap_ok n I o -> overlap_ok n I (with_opening o (delete task (ov_opening o))).
Proof.
  intros Ho. apply overlap_opening; [done|..].
  - intros task' c (x & [_ Hx]%lookup_delete_Some & E). by exists x.
  - by intros task' c [_ Hx]%lookup_delete_Some.
Qed.

(** ** Frames on their way *)

#[local] Instance on_connection_proper c : Proper ((≡ₚ) ==> (≡ₚ)) (on_connection c).
Proof. intros k l E. unfold on_connection. by rewrite E. Qed.

Lemma on_connection_app c k l : on_connection c (k ++ l) = on_connection c k ++ on_connection c l.
Proof. unfold on_connection. by rewrite filter_app, fmap_app. Qed.

Lemma on_connection_one c d m : on_connection c [(d, m)] = if decide (d = c) then [m] else [].
Proof. unfold on_connection. cbn. by case_decide. Qed.

Lemma on_connection_cons c d m l : on_connection c ((d, m) :: l) = (if decide (d = c) then [m] else []) ++ on_connection c l.
Proof. change ((d, m) :: l) with ([(d, m)] ++ l). by rewrite on_connection_app, on_connection_one. Qed.

Lemma on_connection_none c l : (forall p, p ∈ l -> p.1 <> c) -> on_connection c l = [].
Proof.
  intros Hl. unfold on_connection. replace (filter _ l) with (@nil Addressed); [done|]. symmetry.
  induction l as [|p l IH]; [done|]. rewrite filter_cons_False by (apply Hl; by left). apply IH. intros q Hq. apply Hl. by right.
Qed.

Lemma take_first_Some task held p rest : take_first task held = Some (p, rest) -> (task, p) :: rest ≡ₚ held.
Proof.
  revert p rest. induction held as [|[owner x] held IH]; intros p rest; cbn; [done|].
  destruct (Nat.eqb owner task) eqn:E; [apply Nat.eqb_eq in E as ->; by intros [= -> ->]|].
  destruct (take_first task held) as [[first others]|] eqn:Ef; cbn; [|done]. intros [= -> <-].
  rewrite perm_swap. f_equiv. by apply IH.
Qed.

Lemma on_connection_held c task d m (held : list (nat * Addressed)) :
  on_connection c (held ++ [(task, (d, m))]).*2 = on_connection c held.*2 ++ (if decide (d = c) then [m] else []).
Proof. rewrite fmap_app, on_connection_app. f_equal. apply on_connection_one. Qed.

(** Frames move between the lists of what is held and lost. *)
Lemma frames_moved I channels held lost held' lost' strayed :
  held'.*2 ++ lost' ≡ₚ held.*2 ++ lost -> frames_ok I channels held lost strayed -> frames_ok I channels held' lost' strayed.
Proof.
  intros E [H1 H2 H3]. assert (forall p, p ∈ held'.*2 ++ lost' -> is_Some (I !! p.1)) as Hall.
  { intros p. rewrite E. intros [Hp|Hp]%elem_of_app; [by apply H2|by apply H3]. }
  split; [|by intros p Hp; apply Hall, elem_of_app; left|by intros p Hp; apply Hall, elem_of_app; right].
  intros c l ch Hl Hch Hc. rewrite <-(H1 c l ch) by done. by rewrite <-!on_connection_app, E.
Qed.

Lemma overlap_drop n I o task : overlap_ok n I o -> overlap_ok n I (drop_held task o).
Proof.
  intros [H1 H2 H3 H4]. split; try done. cbn. eapply frames_moved; [|exact H4].
  rewrite <-(filter_app_complement (fun e => e.1 = task) (ov_held o)) at 3. rewrite fmap_app.
  rewrite (app_assoc _ (ov_lost o)), (Permutation_app_comm _ (ov_lost o)). solve_Permutation.
Qed.

(** ** Openings *)

Lemma overlap_draw n I o task : n < 2 ^ 64 -> overlap_ok n I o -> overlap_ok (n + 1) I (run_overlap o (StepDraw task)).
Proof.
  intros Hlt [[R1 R2 R3 R4 R5] H2 [(seed & Ec & O1) O2 O3 O4] H4]. cbn [run_overlap step_open].
  set (name := connection_name (sv_connection_counter (ov_service o))).
  assert (forall c, is_Some (I !! c) \/ (exists task, awaiting (ov_opening o) task c) -> c <> name) as Hnew.
  { intros c Hc ->. destruct (O1 _ Hc) as (i & Hi & E%connection_name_inj). rewrite Ec in E. apply same_residue in E; lia. }
  assert (forall task' c, awaiting (<[task := Drawn name]> (ov_opening o)) task' c ->
    (task' = task /\ c = name) \/ awaiting (ov_opening o) task' c) as Ha.
  { intros task' c (x & [[<- <-]|[Hne Hx]]%lookup_insert_Some & E); [left; by injection E|right; by exists x]. }
  split; cbn; [by split| |split|done].
  - intros d Hd. by destruct (H2 d Hd) as [L1 L2 L3 L4].
  - exists seed. split; [rewrite Ec, N.Div0.add_mod_idemp_l; f_equal; lia|]. intros c Hc.
    assert (c = name \/ (is_Some (I !! c) \/ exists task, awaiting (ov_opening o) task c)) as [->|Hold].
    { destruct Hc as [Hc|[task' [[-> ->]|Hc]%Ha]]; [by right; left|by left|right; right; by exists task']. }
    + exists n. split; [lia|]. unfold name. by rewrite Ec.
    + destruct (O1 c Hold) as (i & Hi & Hn). exists i. split; [lia|done].
  - intros task' c [[-> ->]|Hc]%Ha; [|by eapply O2]. destruct (I !! name) as [l|] eqn:El; [|done].
    destruct (Hnew name); [left; by eexists|done].
  - intros t1 t2 c [[-> ->]|H1c]%Ha [[-> E]|H2c]%Ha; [done| | |by eapply O3].
    + destruct (Hnew name); [right; by exists t2|done].
    + subst c. destruct (Hnew name); [right; by exists t1|done].
  - intros task' c [[_ ?]|[_ Hx]]%lookup_insert_Some; [done|by eapply O4].
Qed.

#[local] Instance store_calm c hello : Within calm (store_connection c hello : Svc V A CError _).
Proof. unfold store_connection, register_connection. walk. Qed.

Lemma overlap_store n I o task hello : overlap_ok n I o -> overlap_ok n I (run_overlap o (StepStore task hello)).
Proof.
  intros Ho. cbn [run_overlap step_open]. destruct (ov_opening o !! task) as [[c| |]|] eqn:Ex; try done.
  destruct (store_connection c hello (ov_service o)) as [s r] eqn:E. apply calm_inv in E; [|exact _].
  destruct r as [l|e]; [|by apply (overlap_opening_delete n I (with_service o s) task), overlap_calm].
  apply (overlap_opening n I (with_service o s)); [by apply overlap_calm|..]; cbn.
  - intros task' c' (x & [[<- <-]|[_ Hx]]%lookup_insert_Some & E'); [|by exists x]. injection E' as <-. by exists (Drawn c).
  - intros task' c' [[_ ?]|[_ Hx]]%lookup_insert_Some; done.
Qed.

Lemma welcome_stream G hello c : stream_ok G c 1 [welcome hello c].
Proof.
  split.
  - by intros i m [-> <-]%list_lookup_singleton_Some.
  - by intros i j m m' _ [-> <-]%list_lookup_singleton_Some [-> <-]%list_lookup_singleton_Some.
  - by intros m ->%list_elem_of_singleton.
  - by intros m ->%list_elem_of_singleton.
  - intros m ->%list_elem_of_singleton j Hj. cbn in Hj. lia.
Qed.

Lemma registry_admit I G s hello c : I !! c = None -> registry_ok I G s ->
  registry_ok (<[c := [welcome hello c]]> I) G (admit_connection hello c s).
Proof.
  intros Hc [R1 R2 R3 R4 R5]. assert (forall wid r, sv_workers s !! wid = Some r -> wo_connection_id r <> c) as Hne.
  { intros wid r Hr E. destruct (R4 _ _ Hr) as (l & [Hl _ _ _]). congruence. }
  split; cbn; [done|..].
  - intros c'. destruct (decide (c' = c)) as [->|Hcc]; [by rewrite !lookup_insert_eq|by rewrite !lookup_insert_ne by done].
  - intros c' l [[<- <-]|[_ Hl]]%lookup_insert_Some; [exists 1; apply welcome_stream|by apply R3].
  - intros wid r [[<- <-]|[_ Hr]]%lookup_insert_Some.
    + exists [welcome hello c]. split; cbn; [by rewrite lookup_insert_eq|done|intros j Hj; lia|apply welcome_stream].
    + destruct (R4 _ _ Hr) as (l & [L1 L2 L3 L4]). exists l. split; try done. rewrite lookup_insert_ne; [done|]. symmetry. by eapply Hne.
  - intros w1 w2 r1 r2 [[<- <-]|[_ Hr1]]%lookup_insert_Some [[<- <-]|[_ Hr2]]%lookup_insert_Some E; cbn in E; [done|..|by eapply R5].
    + by destruct (Hne _ _ Hr2).
    + by destruct (Hne _ _ Hr1).
Qed.

Lemma overlap_admit n I o task : overlap_ok n I o -> exists I', overlap_ok n I' (run_overlap o (StepAdmit task)).
Proof.
  intros Ho. cbn [run_overlap step_open]. destruct (ov_opening o !! task) as [[|c hello|]|] eqn:Ex; try by exists I.
  destruct Ho as [H1 H2 [(seed & Ec & O1) O2 O3 O4] [F1 F2 F3]].
  assert (awaiting (ov_opening o) task c) as Hw by (by exists (Stored c hello)). pose proof (O2 _ _ Hw) as Hc.
  assert (forall task' c', awaiting (<[task := Replaying c]> (ov_opening o)) task' c' -> task' <> task /\ awaiting (ov_opening o) task' c') as Ha.
  { intros task' c' (x & [[<- <-]|[Hne Hx]]%lookup_insert_Some & E); [done|]. split; [done|]. by exists x. }
  exists (<[c := [welcome hello c]]> I). split; cbn; [by apply registry_admit| |split|split].
  - intros d Hd. destruct (H2 d Hd) as [(l & Hl & Hs) L2 L3 L4]. assert (sn_connection_id (dl_snapshot d) <> c) as Hne by congruence.
    split; [exists l; by rewrite lookup_insert_ne|done| |done]. intros r Hr Hcr. unfold admit_connection in Hr. cbn in Hr.
    apply lookup_insert_Some in Hr as [[_ <-]|[_ Hr]]; [by destruct Hne|by apply L3].
  - exists seed. split; [done|]. intros c' [[l [[<- _]|[_ Hl]]%lookup_insert_Some]|[task' [_ Hc']%Ha]]; apply O1.
    + right. by exists task.
    + left. by exists l.
    + right. by exists task'.
  - intros task' c' [Hne Hc']%Ha. rewrite lookup_insert_ne; [by eapply O2|]. intros <-. by apply Hne, (O3 _ _ c).
  - intros t1 t2 c' [_ H1c]%Ha [_ H2c]%Ha. by eapply O3.
  - intros task' c' [[<- [= <-]]|[_ Hx]]%lookup_insert_Some; [by rewrite lookup_insert_eq|].
    destruct (decide (c' = c)) as [->|Hcc]; [by rewrite lookup_insert_eq|rewrite lookup_insert_ne by done; by eapply O4].
  - intros c' l ch Hl Hch Hst. cbn in Hch. rewrite on_connection_held.
    destruct (decide (c' = c)) as [->|Hcc].
    + rewrite lookup_insert_eq in Hl. rewrite lookup_insert_eq in Hch. injection Hl as <-. injection Hch as <-. rewrite decide_True by done.
      rewrite (on_connection_none c (ov_held o).*2), (on_connection_none c (ov_lost o)); [done|..].
      * intros p Hp E. destruct (F3 p Hp) as [x Hx]. rewrite E in Hx. congruence.
      * intros p Hp E. destruct (F2 p Hp) as [x Hx]. rewrite E in Hx. congruence.
    + rewrite lookup_insert_ne in Hl by done. rewrite lookup_insert_ne in Hch by done. rewrite decide_False by done. rewrite app_nil_r. by apply F1.
  - intros p. rewrite fmap_app. intros [Hp| ->%list_elem_of_singleton]%elem_of_app; cbn; [|by rewrite lookup_insert_eq].
    destruct (decide (p.1 = c)) as [->|Hcc]; [by rewrite lookup_insert_eq|rewrite lookup_insert_ne by done; by apply F2].
  - intros p Hp. destruct (decide (p.1 = c)) as [->|Hcc]; [by rewrite lookup_insert_eq|rewrite lookup_insert_ne by done; by apply F3].
Qed.

(** ** Records *)

Lemma current_mono I I' G G' r l : G ⊆ G' -> I' !! wo_connection_id r = I !! wo_connection_id r ->
  current I G r l -> current I' G' r l.
Proof.
  intros Hg E [L1 L2 L3 L4]. split; [congruence|done|by eapply ingested_mono|exact (stream_mono G G' _ _ _ _ Hg (N.le_refl _) L4)].
Qed.

(** The update of one record, whose connection may get a frame. *)
Lemma registry_update I I' G G' s wid f r : sv_workers s !! wid = Some r -> wo_connection_id (f r) = wo_connection_id r ->
  G ⊆ G' -> (forall c, c <> wo_connection_id r -> I' !! c = I !! c) -> (exists l, current I' G' (f r) l) ->
  registry_ok I G s -> registry_ok I' G' (update_record wid f s).
Proof.
  intros Hr Ec Hg Hi [l' Hl'] [R1 R2 R3 R4 R5].
  assert (forall wid' r', wid' <> wid -> sv_workers s !! wid' = Some r' -> wo_connection_id r' <> wo_connection_id r) as Hne.
  { intros wid' r' Hn Hr' E. by apply Hn, (R5 _ _ r' r). }
  destruct (R4 _ _ Hr) as (l & [Hl _ _ _]). split; cbn; [done|..].
  - intros c. rewrite R2. destruct (decide (c = wo_connection_id r)) as [->|Hc]; [|by rewrite Hi].
    rewrite Hl, <-Ec, (cu_issued _ _ _ _ Hl'). by split; eauto.
  - intros c k Hk. destruct (decide (c = wo_connection_id r)) as [->|Hc].
    + exists (wo_last_worker_sequence (f r)). rewrite <-Ec in *. destruct Hl' as [E _ _ Hs]. by replace k with l' by congruence.
    + rewrite Hi in Hk by done. destruct (R3 _ _ Hk) as [last Hs]. exists last. exact (stream_mono G G' _ _ _ _ Hg (N.le_refl _) Hs).
  - intros wid' r'. rewrite lookup_alter_Some. intros [(-> & r0 & Hr0 & ->)|[Hn Hr']].
    + replace r0 with r by congruence. by exists l'.
    + destruct (R4 _ _ Hr') as [k Hk]. exists k. apply (current_mono I I' G G'); [done| |done]. by apply Hi, (Hne wid').
  - intros w1 w2 r1 r2. rewrite !lookup_alter_Some.
    intros [(<- & x & Hx & ->)|[Hn1 Hx1]] [(<- & y & Hy & ->)|[Hn2 Hx2]] E; [done|..|by eapply R5].
    + replace x with r in E by congruence. rewrite Ec in E. by destruct (Hne w2 r2).
    + replace y with r in E by congruence. rewrite Ec in E. by destruct (Hne w1 r1).
Qed.

(** It leaves a delivery as it is when no cursor goes back. *)
Lemma delivery_update I G G' s wid f d : G ⊆ G' ->
  (forall r, sv_workers s !! wid = Some r ->
     wo_connection_id (f r) = wo_connection_id r /\ wo_last_worker_sequence r <= wo_last_worker_sequence (f r)) ->
  delivery_ok I G s d -> delivery_ok I G' (update_record wid f s) d.
Proof.
  intros Hg Hf [(l & Hl & Hs) L2 L3 L4]. split; [| |intros r; cbn|done].
  - exists l. split; [done|]. exact (stream_mono G G' _ _ _ _ Hg (N.le_refl _) Hs).
  - by eapply ingested_mono.
  - rewrite lookup_alter_Some. intros [(-> & r0 & Hr0 & ->)|[_ Hr]] E; [|by apply L3].
    destruct (Hf _ Hr0) as [Ec Hlast]. rewrite Ec in E. specialize (L3 _ Hr0 E). lia.
Qed.

Lemma update_absent wid f s : sv_workers s !! wid = None -> sv_workers (update_record wid f s) = sv_workers s.
Proof.
  intros Hw. cbn. apply map_eq. intros i. destruct (decide (i = wid)) as [->|Hne]; [by rewrite lookup_alter_eq, Hw|by rewrite lookup_alter_ne].
Qed.

Lemma overlap_connected n I o wid b : overlap_ok n I o ->
  overlap_ok n I (with_service o (update_record wid (with_connected b) (ov_service o))).
Proof.
  intros Ho. destruct (sv_workers (ov_service o) !! wid) as [r|] eqn:Hr.
  - destruct Ho as [H1 H2 H3 H4]. split; cbn; try done.
    + apply (registry_update I I (ov_ingested o) _ _ wid _ r); try done. destruct (re_records _ _ _ H1 _ _ Hr) as (l & [L1 L2 L3 L4]). by exists l.
    + intros d Hd. by apply (delivery_update I (ov_ingested o)); [|split|apply H2].
  - apply overlap_same; try done; [apply (re_control _ _ _ (ok_registry _ _ _ Ho))|by apply update_absent].
Qed.

(** ** Deliveries *)

Lemma overlap_locked n I o task wid kind : overlap_ok n I o -> overlap_ok n I (run_overlap o (StepLock task wid kind)).
Proof.
  intros Ho. cbn [run_overlap step_deliver]. destruct (may_deliver task o); [|done].
  destruct (delivery_snapshot _ _ _) as [s x] eqn:E. apply (delivery_snapshot_inv (E:=CError)) in E as [_ [->|(r & Hr & ->)]]; cbn; [done|].
  apply overlap_lock; [|done]. intros d [= <-]. destruct (re_records _ _ _ (ok_registry _ _ _ Ho) _ _ Hr) as (l & [L1 L2 L3 L4]).
  split; cbn; [by exists l|done| |done]. intros r' Hr' _. by replace r' with r by congruence.
Qed.

#[local] Instance next_lease_quiet {E} : Within calm (next_lease : Svc V A E N).
Proof. intros s. split_and!; [done..|by apply ports_local]. Qed.

#[local] Instance persist_calm wid snap kind : Within calm (persist_delivery wid snap kind : Svc V A CError _).
Proof. destruct kind; cbn [persist_delivery]; walk. Qed.

(** The identity of a message is the one the worker expects. *)
Lemma persisted_name wid snap kind s s' id message : CInv (sv_control s) ->
  persist_delivery wid snap kind s = (s', Ok (id, message)) -> id = default EmptyString (expected_server_message_id (Some message)).
Proof.
  intros Hc E. destruct kind as [c|k|k reason]; cbn [persist_delivery] in E.
  - apply bind_inv in E as [(e & _ & ?)|(s1 & now & _ & E)]; [done|].
    by apply bind_inv in E as [(e & _ & ?)|(s2 & u & _ & [= _ <- <-])].
  - apply bind_inv in E as [(e & _ & ?)|(s1 & lease & E1 & E)]; [done|]. apply calm_inv in E1; [|exact _].
    apply bind_inv in E as [(e & _ & ?)|(s2 & now & E2 & E)]; [done|]. apply calm_inv in E2; [|exact _].
    apply bind_inv in E as [(e & _ & ?)|(s3 & contract & E3 & [= _ <- <-])]; [done|]. unfold on_control_partly in E3.
    destruct (prepare_assignment_delivery _ _) as [c' r'] eqn:Ed in E3. injection E3 as _ ->. cbn.
    apply (delivery_contract _ _ _ _ k) in Ed; [by rewrite Ed|by do 2 (eapply calm_control; [done|])|done].
  - apply bind_inv in E as [(e & _ & ?)|(s1 & now & _ & E)]; [done|].
    apply bind_inv in E as [(e & _ & ?)|(s2 & u & _ & E)]; [done|].
    by apply bind_inv in E as [(e & _ & ?)|(s3 & v & _ & [= _ <- <-])].
Qed.

Lemma overlap_persist n I o : overlap_ok n I o -> overlap_ok n I (run_overlap o StepPersist).
Proof.
  intros Ho. cbn [run_overlap step_deliver]. destruct (ov_lock o) as [[task wid kind snap [|]]|] eqn:El; try done.
  destruct (persist_delivery wid snap kind (ov_service o)) as [s r] eqn:E. pose proof E as Hc. apply calm_inv in Hc; [|exact _].
  pose proof (overlap_calm _ _ _ _ Hc Ho) as Ho'. apply overlap_lock; [|done]. destruct r as [[id message]|e]; [|done].
  intros d [= <-]. destruct (ok_lock _ _ _ Ho' _ El) as [L1 L2 L3 L4]. split; try done. cbn. intros id' message' [= <- <-].
  eapply persisted_name; [|exact E]. apply (re_control _ _ _ (ok_registry _ _ _ Ho)).
Qed.

Lemma prepared_inv {E} wid snap id message s s' r : prepared_frame wid snap id message s = (s', r : result E Prepared) ->
  (s' = s /\ r = Ok None) \/ exists w, sv_workers s !! wid = Some w /\ wo_connection_id w = sn_connection_id snap
    /\ wo_next_server_sequence w = sn_sequence snap /\ s' = update_record wid with_next_server s
    /\ r = Ok (Some (sn_connection_id snap,
             MkServerFrame (sn_sequence snap) (sn_last_worker_sequence snap) id (Some message))).
Proof.
  unfold prepared_frame, mbind, svc_bind, take_sequence, mret, svc_ret. destruct (sv_workers s !! wid) as [w|]; [|intros [= <- <-]; by left].
  destruct (_ || _) eqn:Eb; intros [= <- <-]; [by left|]. right. exists w.
  by apply orb_false_iff in Eb as [->%negb_false_iff%String.eqb_eq ->%negb_false_iff%N.eqb_eq].
Qed.

(** The number is used, and the frame held by the task, or lost for its
    connection. *)
Lemma frames_issued I channels held lost strayed task c l m : I !! c = Some l -> frames_ok I channels held lost strayed ->
  frames_ok (<[c := l ++ [m]]> I) channels (held ++ [(task, (c, m))]) lost strayed.
Proof.
  intros Hl [F1 F2 F3]. assert (forall d, is_Some (I !! d) -> is_Some (<[c := l ++ [m]]> I !! d)) as Hkeep.
  { intros d Hd. destruct (decide (d = c)) as [->|]; [by rewrite lookup_insert_eq|by rewrite lookup_insert_ne]. }
  split; [|intros p; rewrite fmap_app; intros [Hp| ->%list_elem_of_singleton]%elem_of_app; apply Hkeep; [by apply F2|by eexists]|by intros p Hp; apply Hkeep, F3].
  intros d k ch [[<- <-]|[Hne Hk]]%lookup_insert_Some Hch Hd; rewrite on_connection_held.
  - rewrite decide_True by done. rewrite <-(F1 c l ch) by done. solve_Permutation.
  - rewrite decide_False by done. rewrite app_nil_r. by apply F1.
Qed.

Lemma frames_astray I channels held lost strayed task c d l m : I !! c = Some l -> is_Some (I !! d) -> d <> c ->
  frames_ok I channels held lost strayed ->
  frames_ok (<[c := l ++ [m]]> I) channels (held ++ [(task, (d, m))]) (lost ++ [(c, m)]) (strayed ++ [d]).
Proof.
  intros Hl Hd Hdc [F1 F2 F3]. assert (forall d, is_Some (I !! d) -> is_Some (<[c := l ++ [m]]> I !! d)) as Hkeep.
  { intros d' Hd'. destruct (decide (d' = c)) as [->|]; [by rewrite lookup_insert_eq|by rewrite lookup_insert_ne]. }
  split; [|intros p; rewrite fmap_app; intros [Hp| ->%list_elem_of_singleton]%elem_of_app; apply Hkeep; [by apply F2|done]
          |intros p [Hp| ->%list_elem_of_singleton]%elem_of_app; apply Hkeep; [by apply F3|by eexists]].
  intros c' k ch Hk Hch [Hs Hnd%not_elem_of_cons]%not_elem_of_app. rewrite on_connection_held, on_connection_app, on_connection_one.
  rewrite (decide_False (P := d = c')) by (intros ->; by destruct Hnd). apply lookup_insert_Some in Hk as [[<- <-]|[Hne Hk]].
  - rewrite decide_True by done. rewrite <-(F1 c l ch) by done. solve_Permutation.
  - rewrite decide_False by done. rewrite !app_nil_r. by apply F1.
Qed.

Lemma overlap_hold n I o task c l m : I !! c = Some l -> opening_ok n I (ov_opening o) (sv_connection_counter (ov_service o)) ->
  frames_ok I (sv_channels (ov_service o)) (ov_held o) (ov_lost o) (ov_strayed o) ->
  registry_ok (<[c := l ++ [m]]> I) (ov_ingested o) (ov_service o) -> ov_lock o = None ->
  overlap_ok n (<[c := l ++ [m]]> I) (hold task (c, m) o).
Proof.
  intros Hl [(seed & Ec & O1) O2 O3 O4] Hf Hr Hlock.
  assert (forall d, is_Some (<[c := l ++ [m]]> I !! d) <-> is_Some (I !! d)) as Hd.
  { intros d. destruct (decide (d = c)) as [->|]; [rewrite lookup_insert_eq, Hl; by split; eauto|by rewrite lookup_insert_ne]. }
  assert (opening_ok n (<[c := l ++ [m]]> I) (ov_opening o) (sv_connection_counter (ov_service o))) as Hop.
  { split; [exists seed; split; [done|]; intros d; rewrite Hd; apply O1| |done|intros t d Ht; by apply Hd, (O4 t)].
    intros t d Ht. pose proof (O2 _ _ Ht) as Hn. rewrite lookup_insert_ne; [done|congruence]. }
  assert (forall d, None = Some d -> delivery_ok (<[c := l ++ [m]]> I) (ov_ingested o) (ov_service o) d) as Hno by done.
  rewrite <-Hlock in Hno. unfold hold. destruct (ov_opening o !! task) as [[| |d]|] eqn:Ex; [..|case_decide as Hdc|]; cbn [fst snd] in *.
  - split; try done. by apply frames_issued.
  - split; try done. by apply frames_issued.
  - split; try done. by apply frames_issued.
  - split; try done. by apply frames_astray; [|eapply O4| |].
  - split; try done. by apply frames_issued.
Qed.

Lemma overlap_take n I o : overlap_ok n I o -> exists I', overlap_ok n I' (run_overlap o StepTake).
Proof.
  intros Ho. cbn [run_overlap step_deliver]. destruct (ov_lock o) as [[task wid kind snap [[id message]|]]|] eqn:El; try by exists I. cbn [fst snd].
  destruct (prepared_frame wid snap id message (ov_service o)) as [s r] eqn:E.
  apply prepared_inv in E as [[-> ->]|(w & Hw & Hc & Hn & -> & ->)].
  { exists I. apply (overlap_lock n I (with_service o (ov_service o))); [done|]. by destruct o. }
  destruct Ho as [H1 H2 H3 H4]. destruct (H2 _ El) as [(l & Hl & Hs) Hi Hrec Hname]. cbn [dl_snapshot dl_worker_id dl_message] in *.
  specialize (Hrec w Hw Hc). destruct (re_records _ _ _ H1 _ _ Hw) as (l' & [L1 L2 L3 L4]).
  rewrite Hc in L1. replace l' with l in * by congruence.
  eexists. apply (overlap_hold n I (with_lock (with_service o (update_record wid with_next_server (ov_service o))) None) task _ l); cbn; try done.
  apply (registry_update I _ (ov_ingested o) _ _ wid _ w); try done; [intros c' Hne; rewrite lookup_insert_ne; [done|congruence]|].
  eexists. split; cbn; [by rewrite Hc, lookup_insert_eq|rewrite length_app; cbn; lia|done|].
  rewrite Hc in *. refine (stream_mono (ov_ingested o) _ _ (sn_last_worker_sequence snap) _ _ (fun x H => H) Hrec _).
  apply stream_snoc; cbn; try done; [lia|]. by apply Hname.
Qed.

(** ** Channels *)

Lemma channel_present (channels : gmap string Channel) c ch ch' d : channels !! c = Some ch ->
  is_Some (<[c := ch']> channels !! d) <-> is_Some (channels !! d).
Proof.
  intros Hc. destruct (decide (d = c)) as [->|Hne]; [rewrite lookup_insert_eq, Hc; by split; eauto|by rewrite lookup_insert_ne].
Qed.

(** A channel gets what a task held, or no frame. *)
Lemma overlap_channel n I o c ch ch' held : sv_channels (ov_service o) !! c = Some ch -> overlap_ok n I o ->
  (forall p, p ∈ held.*2 -> is_Some (I !! p.1)) ->
  frames_of ch' ++ on_connection c held.*2 ≡ₚ frames_of ch ++ on_connection c (ov_held o).*2 ->
  (forall d, d <> c -> on_connection d held.*2 ≡ₚ on_connection d (ov_held o).*2) ->
  overlap_ok n I (with_frames (with_service o (with_channels (ov_service o) (<[c := ch']> (sv_channels (ov_service o)))))
    held (ov_lost o) (ov_strayed o)).
Proof.
  intros Hc [[R1 R2 R3 R4 R5] H2 H3 [F1 F2 F3]] Hheld Hmine Hother. split; cbn; [| |done|].
  - split; cbn; try done. intros d. rewrite (channel_present _ _ ch) by done. apply R2.
  - intros d Hd. by destruct (H2 d Hd) as [L1 L2 L3 L4].
  - split; [|done..]. intros d l x Hl Hx Hs. destruct (decide (d = c)) as [->|Hne].
    + cbn in Hx. rewrite lookup_insert_eq in Hx. injection Hx as <-. rewrite app_assoc, Hmine, <-app_assoc. by apply F1.
    + cbn in Hx. rewrite lookup_insert_ne in Hx by done. rewrite (Hother d Hne). by apply F1.
Qed.

Lemma overlap_quiet_channel n I o c ch ch' : sv_channels (ov_service o) !! c = Some ch -> frames_of ch' = frames_of ch ->
  overlap_ok n I o -> overlap_ok n I (with_service o (with_channels (ov_service o) (<[c := ch']> (sv_channels (ov_service o))))).
Proof.
  intros Hc Hf Ho. pose proof (overlap_channel n I o c ch ch' (ov_held o) Hc Ho) as H0. destruct o; cbn in *.
  apply H0; [apply (fr_held _ _ _ _ _ (ok_frames _ _ _ Ho))|by rewrite Hf|done].
Qed.

Lemma frames_of_snoc l x b : frames_of (MkChannel (l ++ [x]) b)
  = omap (fun r : result Code ServerToWorker => match r with Ok m => Some m | Err _ => None end) l ++ match x with Ok m => [m] | Err _ => [] end.
Proof. unfold frames_of. cbn. rewrite omap_app. cbn. by destruct x. Qed.

Lemma overlap_send n I o task : overlap_ok n I o -> overlap_ok n I (run_overlap o (StepSend task)).
Proof.
  intros Ho. cbn [run_overlap step_deliver]. destruct (ov_opening o !! task); [done|].
  destruct (take_first task (ov_held o)) as [[[c m] held]|] eqn:Et; [|done]. apply take_first_Some in Et.
  unfold send. destruct (sv_channels (ov_service o) !! c) as [ch|] eqn:Hc; [|by apply overlap_drop].
  destruct (ch_open ch); [|by apply overlap_drop].
  apply (overlap_channel n I o c ch (MkChannel (ch_sent ch ++ [Ok m]) true)); try done.
  - intros p Hp. apply (fr_held _ _ _ _ _ (ok_frames _ _ _ Ho)). rewrite <-Et. cbn. by right.
  - rewrite frames_of_snoc, <-Et, fmap_cons. cbn [snd]. rewrite on_connection_cons, decide_True by done.
    unfold frames_of. by rewrite <-app_assoc.
  - intros d Hd. rewrite <-Et, fmap_cons. cbn [snd]. by rewrite on_connection_cons, decide_False by done.
Qed.

Lemma overlap_status n I o c code : overlap_ok n I o -> overlap_ok n I (run_overlap o (StepStatus c code)).
Proof.
  intros Ho. cbn [run_overlap]. unfold send. destruct (sv_channels (ov_service o) !! c) as [ch|] eqn:Hc; [|by destruct o].
  destruct (ch_open ch); [|by destruct o]. apply (overlap_quiet_channel n I o c ch); [done| |done].
  by rewrite frames_of_snoc, app_nil_r.
Qed.

Lemma overlap_gone n I o c : overlap_ok n I o -> overlap_ok n I (run_overlap o (StepReceiverGone c)).
Proof.
  intros Ho. cbn [run_overlap]. unfold close_channel. destruct (sv_channels (ov_service o) !! c) as [ch|] eqn:Hc.
  - replace (alter _ c _) with (<[c := MkChannel (ch_sent ch) false]> (sv_channels (ov_service o)));
      [by apply (overlap_quiet_channel n I o c ch)|]. apply map_eq. intros d. destruct (decide (d = c)) as [->|Hne].
    + by rewrite lookup_insert_eq, lookup_alter_eq, Hc.
    + by rewrite lookup_insert_ne, lookup_alter_ne.
  - apply overlap_same; try done; [apply (re_control _ _ _ (ok_registry _ _ _ Ho))|].
    cbn. apply alter_id. intros x Hx. congruence.
Qed.

(** ** Ingestion *)

Lemma overlap_observe n I o task : overlap_ok n I o -> overlap_ok n I (run_overlap o (StepObserve task)).
Proof.
  intros Ho. cbn [run_overlap step_ingest]. destruct (ov_ingesting o !! task) as [[wid c frame| |]|]; try done.
  destruct (observe_frame wid frame (ov_service o)) as [s r] eqn:E. apply calm_inv in E; [|unfold observe_frame; walk].
  by apply overlap_ingesting, overlap_calm.
Qed.

(** A frame that is counted is one the server may acknowledge. *)
Lemma current_ingested I G r l wid frame : current I G r l -> wm_sequence frame = wo_last_worker_sequence r + 1 ->
  current I (G ++ [(wid, wo_connection_id r, frame)]) (with_ingested frame r) l.
Proof.
  intros [L1 L2 L3 L4] Hf. assert (G ⊆ G ++ [(wid, wo_connection_id r, frame)]) as Hg by (intros x Hx; apply elem_of_app; by left).
  split; cbn; [done|done| |].
  - intros j Hj. destruct (decide (j = wm_sequence frame)) as [->|Hne].
    + exists wid, frame. split; [|done]. apply elem_of_app. right. by apply list_elem_of_singleton.
    + apply (ingested_mono G _ _ _ Hg L3). lia.
  - apply (stream_mono G _ _ (wo_last_worker_sequence r)); [done|lia|done].
Qed.

Lemma overlap_record n I o task : overlap_ok n I o -> overlap_ok n I (run_overlap o (StepRecord task)).
Proof.
  intros Ho. cbn [run_overlap step_ingest]. destruct (ov_ingesting o !! task) as [[|wid c frame now|]|]; try done.
  unfold ingest_record. destruct (sv_workers (ov_service o) !! wid) as [w|] eqn:Hw; [|by apply overlap_ingesting].
  destruct (_ || _) eqn:Eb; [by apply overlap_ingesting|].
  apply orb_false_iff in Eb as [[<-%negb_false_iff%String.eqb_eq _]%orb_false_iff Hq%negb_false_iff%N.eqb_eq].
  destruct Ho as [H1 H2 H3 H4]. destruct (re_records _ _ _ H1 _ _ Hw) as [l Hl].
  assert (ov_ingested o ⊆ ov_ingested o ++ [(wid, wo_connection_id w, frame)]) as Hg by (intros x Hx; apply elem_of_app; by left).
  split; cbn; try done.
  - apply (registry_update I I (ov_ingested o) _ _ wid _ w); try done. exists l. by apply current_ingested.
  - intros d Hd. apply (delivery_update I (ov_ingested o)); [done| |by apply H2].
    intros r Hr. replace r with w by congruence. cbn. split; [done|lia].
Qed.

Lemma overlap_cursors n I o task : overlap_ok n I o -> overlap_ok n I (run_overlap o (StepCursors task)).
Proof.
  intros Ho. cbn [run_overlap step_ingest]. destruct (ov_ingesting o !! task) as [[| |c frame last now]|]; try done.
  apply overlap_ingesting, overlap_calm; [|done]. apply (within (R:=calm)).
Qed.

(** ** Runs *)

(** A process that has just started. *)
Lemma overlap_fresh s a : CInv (sv_control s) -> sv_workers s = ∅ -> sv_channels s = ∅ ->
  sv_connection_counter s = a mod 2 ^ 64 -> overlap_ok 0 ∅ (overlap_new s).
Proof.
  intros Hc Hw Hch Ha. assert (forall c, ~ is_Some ((∅ : gmap string (list ServerToWorker)) !! c)) as Hno
    by (intros c; rewrite lookup_empty; by intros [? ?]).
  split; cbn; [split; rewrite ?Hw, ?Hch; try done|done|split|split; rewrite ?Hch; try done].
  - intros c. rewrite lookup_empty. split; [by intros [? ?]|by intros ?%Hno].
  - exists (a mod 2 ^ 64). rewrite N.add_0_r, N.Div0.mod_mod. split; [done|]. by intros c [?%Hno|(task & x & ? & _)].
  - by intros task c (x & ? & _).
  - by intros task task' c (x & ? & _).
  - done.
  - by intros p ?%elem_of_nil.
  - by intros p ?%elem_of_nil.
Qed.

Lemma overlap_start stores a b : overlap_ok 0 ∅ (overlap_new (service_new stores a b)).
Proof. apply (overlap_fresh _ a); try done. apply control_empty_inv. Qed.

Lemma overlap_restart n I o a b : overlap_ok n I o -> overlap_ok 0 ∅ (run_overlap o (StepRestart a b)).
Proof. intros Ho. apply (overlap_fresh _ a); try done. apply (re_control _ _ _ (ok_registry _ _ _ Ho)). Qed.

Lemma overlap_abandon n I o task : overlap_ok n I o -> overlap_ok n I (run_overlap o (StepAbandon task)).
Proof.
  intros Ho. cbn [run_overlap]. apply overlap_ingesting. pose proof (overlap_drop _ _ _ task Ho) as Hd.
  destruct (holds_lock task (drop_held task o)); [|by apply overlap_opening_delete].
  apply (overlap_opening_delete n I (with_lock (drop_held task o) None)). by apply overlap_lock.
Qed.

Lemma overlap_step n I o step : n < 2 ^ 64 -> overlap_ok n I o ->
  exists n' I', n' <= n + 1 /\ overlap_ok n' I' (run_overlap o step).
Proof.
  intros Hlt Ho. pose proof (ok_registry _ _ _ Ho) as Hr. assert (n <= n + 1) as Hn by lia.
  assert (forall I', overlap_ok n I' (run_overlap o step) -> exists n' I', n' <= n + 1 /\ overlap_ok n' I' (run_overlap o step)) as Hsame
    by (intros I' H0; by exists n, I').
  destruct step.
  - exists (n + 1), I. split; [done|]. by apply overlap_draw.
  - apply (Hsame I). by apply overlap_store.
  - destruct (overlap_admit n I o task Ho) as [I' H']. by apply (Hsame I').
  - apply (Hsame I). cbn [run_overlap step_open]. destruct (ov_opening o !! task) as [[| |c]|]; try done. destruct (holds_lock task o); [done|by apply overlap_opening_delete].
  - apply (Hsame I). by apply overlap_locked.
  - apply (Hsame I). by apply overlap_persist.
  - destruct (overlap_take n I o Ho) as [I' H']. by apply (Hsame I').
  - apply (Hsame I). by apply overlap_send.
  - apply (Hsame I). by apply overlap_connected.
  - apply (Hsame I). cbn [run_overlap step_ingest]. case_match; [by apply overlap_ingesting|done].
  - apply (Hsame I). by apply overlap_observe.
  - apply (Hsame I). by apply overlap_record.
  - apply (Hsame I). by apply overlap_cursors.
  - apply (Hsame I). by apply overlap_status.
  - apply (Hsame I). cbn [run_overlap]. unfold detach. destruct (sv_workers (ov_service o) !! worker_id); [case_match; [by apply overlap_connected|]|]; by destruct o.
  - apply (Hsame I). by apply overlap_gone.
  - apply (Hsame I). by apply overlap_abandon.
  - apply (Hsame I). cbn [run_overlap]. apply overlap_same; try done. cbn. apply (run_controls_keeps [op]), Hr.
  - apply (Hsame I). cbn [run_overlap]. apply overlap_same; try done. apply Hr.
  - apply (Hsame I). cbn [run_overlap]. unfold uploaded. repeat case_match; (apply overlap_same; try done; apply Hr).
  - exists 0, ∅. split; [lia|]. by apply (overlap_restart n I).
Qed.

Lemma overlap_run n I o steps : n + N.of_nat (length steps) < 2 ^ 64 -> overlap_ok n I o ->
  exists n' I', overlap_ok n' I' (run_overlaps steps o).
Proof.
  revert n I o. induction steps as [|step steps IH]; intros n I o Hlt Ho; [by exists n, I|]. cbn [length] in Hlt.
  destruct (overlap_step n I o step ltac:(lia) Ho) as (n' & I' & Hn & Ho'). apply (IH n' I'); [lia|done].
Qed.

(** C16 What a worker receives on a connection, with the handlers of the
    server overlapping in any way.

    The frames the server numbers for a connection form one stream that
    passes the checks of the worker: numbered from one without a gap, with
    acknowledgements that do not go back and are of frames the worker sent,
    and with the identities of their messages.  The frames on the channel,
    with those that are prepared and not sent yet and those that were lost
    with their handler or their receiver, are exactly that stream, each once,
    unless a registration put a frame of another connection on the channel.
    Since the lock is released before a frame is sent they need not be in
    order: what has been received at any moment is accepted exactly when it
    is a beginning of the stream.  When no two calls overlap it always is,
    and the worker accepts every frame. *)
Theorem connection_streams_are_accepted (stores : option (UploadStore * A)) (cs ls : N) :
  let s0 := service_new (V:=V) stores cs ls in
  (forall steps c ch sent, let o := run_overlaps steps (overlap_new s0) in
     N.of_nat (length steps) < 2 ^ 64 -> sv_channels (ov_service o) !! c = Some ch -> c ∉ ov_strayed o ->
     1 <= sent -> (forall wid f, (wid, c, f) ∈ ov_ingested o -> wm_sequence f <= sent) ->
     exists issued, accepted_in_turn issued 0 0 sent
       /\ frames_of ch ++ held_for c o ++ lost_for c o ≡ₚ issued
       /\ forall k, accepted_in_turn (take k (frames_of ch)) 0 0 sent <-> take k (frames_of ch) `prefix_of` issued)
  /\ (forall calls c ch sent,
     N.of_nat (length calls) < 2 ^ 64 -> sv_channels (run_calls calls s0) !! c = Some ch ->
     1 <= sent -> (forall wid f, (wid, c, f) ∈ calls_ingest calls s0 -> wm_sequence f <= sent) ->
     accepted_in_turn (frames_of ch) 0 0 sent).
Proof.
  intros s0. split.
  - intros steps c ch sent o Hlt Hch Hc H1 Hsent.
    destruct (overlap_run 0 ∅ (overlap_new s0) steps Hlt (overlap_start stores cs ls)) as (n & I & [[_ R2 R3 _ _] _ _ [F1 _ _]]).
    destruct (proj1 (R2 c) ltac:(by eexists)) as [l Hl]. destruct (R3 _ _ Hl) as [last Hs].
    pose proof (F1 c l ch Hl Hch Hc) as Hp. pose proof (stream_bound _ _ _ _ _ Hs H1 Hsent) as Hb.
    exists l. split; [by eapply stream_in_turn|]. split; [done|]. intros k. eapply in_turn_prefix; [done| |done].
    intros m Hm. rewrite <-Hp. apply elem_of_app. left. by apply (subseteq_take k).
  - intros calls c ch sent Hlt Hch H1 Hsent.
    destruct (run_calls_ok (V:=V) [] 0 calls _ Hlt (service_new_ok stores cs ls)) as (n & c0 & Hs).
    destruct (se_streams _ _ _ _ _ Hs _ _ Hch) as [last Hst]. eapply stream_in_turn; [done|]. by eapply stream_bound.
Qed.

End overlaps.

(** ** Concrete runs *)

Module OverlapSample.

Import ServerSample.

#[local] Existing Instances sample_clock sample_sha.

Definition at_start : Overlap (V:=unit) := overlap_new start.

(** A stream is opened. *)
Definition opening (task : nat) : list (OverlapStep (V:=unit)) := [StepDraw task; StepStore task hello; StepAdmit task].
(** A frame is prepared. *)
Definition preparing (task : nat) (kind : DeliveryKind) : list (OverlapStep (V:=unit)) :=
  [StepLock task "worker" kind; StepPersist; StepTake].

(** A worker connects, gets an assignment and accepts it, and the
    acknowledgement is overtaken by a cancellation. *)
Definition overtaken : list OverlapStep :=
  opening 1 ++ [StepRegistered 1; StepSend 1;
    StepControl (COpStore "worker" (default ControlTheorems.Sample.contract (assignment_to_contract assignment)) 1000); StepControl (COpDispatchable "attempt" "worker" 1000)]
  ++ preparing 2 (DeliverAssignment "attempt") ++ [StepSend 2;
    StepCheck 3 "worker" "connection-5" accepted_frame; StepObserve 3; StepRecord 3; StepCursors 3]
  ++ preparing 3 (DeliverAcknowledgement "connection-5") ++ preparing 4 (DeliverCancel "attempt" "stop")
  ++ [StepSend 4; StepSend 3].

Definition sequences (c : string) (o : Overlap (V:=unit) (A:=InMemoryArtifactStore)) : option (list (N * N)) :=
  (fun ch => (fun m => (sm_sequence m, sm_acknowledges_worker_through m)) <$> frames_of ch) <$> sv_channels (ov_service o) !! c.

Example overtaken_sequences : sequences "connection-5" (run_overlaps overtaken at_start) = Some [(1, 1); (2, 1); (4, 2); (3, 2)].
Proof. vm_compute. reflexivity. Qed.

Definition overtaken_channel : Channel :=
  default (MkChannel [] false) (sv_channels (ov_service (run_overlaps overtaken at_start)) !! "connection-5").

Lemma overtaken_found : sv_channels (ov_service (run_overlaps overtaken at_start)) !! "connection-5" = Some overtaken_channel.
Proof. vm_compute. reflexivity. Qed.
Lemma overtaken_ingested wid f :
  (wid, "connection-5", f) ∈ ov_ingested (run_overlaps overtaken at_start) -> wm_sequence f <= 2.
Proof.
  assert (ov_ingested (run_overlaps overtaken at_start) = [("worker", "connection-5", accepted_frame)]) as -> by (vm_compute; reflexivity).
  intros [= -> ->]%list_elem_of_singleton. vm_compute. discriminate.
Qed.

(** The worker accepts the first two frames and not the third, which is the
    fourth of the stream. *)
Lemma connection_streams_are_accepted_witness :
  exists issued, accepted_in_turn issued 0 0 2 /\ frames_of overtaken_channel ≡ₚ issued
    /\ accepted_in_turn (take 2 (frames_of overtaken_channel)) 0 0 2
    /\ ~ (take 3 (frames_of overtaken_channel) `prefix_of` issued).
Proof.
  destruct (proj1 (connection_streams_are_accepted (V:=unit) (Some (sample_store, sample_objects)) 5 5) overtaken "connection-5" overtaken_channel 2
    ltac:(vm_compute; reflexivity) overtaken_found ltac:(vm_compute; inversion 1) ltac:(discriminate) overtaken_ingested)
    as (issued & Ha & Hp & Hk).
  exists issued. split; [exact Ha|]. split; [exact Hp|]. split; [vm_compute; repeat split|].
  intros H3%Hk. vm_compute in H3. destruct H3 as (_ & _ & H3 & _). discriminate H3.
Defined.

(** A worker that opens a second stream while the first is still replaying:
    the first gets the frame with the second's number, and the second's next
    frame leaves a gap. *)
Definition strayed_run : list OverlapStep :=
  opening 1 ++ opening 2
  ++ [StepControl (COpStore "worker" (default ControlTheorems.Sample.contract (assignment_to_contract assignment)) 1000);
      StepControl (COpDispatchable "attempt" "worker" 1000)]
  ++ preparing 1 (DeliverAssignment "attempt") ++ preparing 2 (DeliverCancel "attempt" "stop")
  ++ [StepRegistered 1; StepSend 1; StepSend 1; StepRegistered 2; StepSend 2; StepSend 2].

Example strayed_sequences :
  sequences "connection-5" (run_overlaps strayed_run at_start) = Some [(1, 1); (2, 1)]
  /\ sequences "connection-6" (run_overlaps strayed_run at_start) = Some [(1, 1); (3, 1)]
  /\ sm_sequence <$> lost_for "connection-6" (run_overlaps strayed_run at_start) = [2]
  /\ ov_strayed (run_overlaps strayed_run at_start) = ["connection-5"].
Proof. vm_compute. repeat split. Qed.

End OverlapSample.
